(* ===== verification/_CoqProject ===== *)
-Q . S2P
Prelude.v
PyData.v
RtConfig.v
RtLayout.v
Transfer.v
Messages.v
Producer.v
ProducerInv.v
ProducerAcc.v
ProducerLive.v
ProducerSend.v
ProducerSafe.v
ProducerThms.v
Consumer.v
ConsumerThms.v
P2PPlan.v
P2PPlanThms.v
P2PSched.v
P2PSchedThms.v
P2PSend.v
P2PSendThms.v
P2PSendSafe.v
P2PAnswers.v
P2PSendProps.v
StoreData.v
StoreThms.v
StoreCoord.v
StoreCoordThms.v
StoreWorker.v
StoreWorkerThms.v
StoreLoad.v
StoreLoadThms.v
StoreLookup.v
StoreLookupThms.v
StoreSched.v
StoreSchedThms.v
StoreRank.v
StoreSystem.v
StoreSystemThms.v
Workspace.v
P2PRecv.v
P2PRecvThms.v
P2PRecvProps.v
Wire.v
WireThms.v
BitPack.v
BitPackThms.v
V1Transport.v
V1Conn.v
V1ConnThms.v
V1ConnSafe.v
V1ConnLive.v
V1ConnProps.v
V1SchedThms.v
TensorOps.v
V1Manager.v
V1ManagerThms.v
V1Codec.v
V1CodecThms.v
V1ManagerProps.v
Controller.v
ControllerThms.v
V1Adapter.v
V1AdapterThms.v
V1AdapterProps.v
Buffers.v
RtPipeline.v
RtPipelineOps.v
RtPipelineThms.v
RtQuantThms.v
RtBodyThms.v
RtTailThms.v
RtLoopThms.v
RtCodecThms.v
RtRuntime.v
RtRuntimeThms.v
RtBoundThms.v
RtPipelineProps.v
RtPipelineEx.v
RtRuntimeProps.v
