(* ===== verification/Prelude.v ===== *)
(** * KVServe: a verification library

    KVServe compresses the key/value cache that a prefill engine hands to a
    decode engine. The repository holds two products: [kvserve_v1], a vLLM
    connector of its own with the compression runtime, and
    [kvsfuse-vllm0.30.0], an extension of vLLM's Mooncake connector (paths
    below are relative to [src/kvserve_v1] or to
    [src/kvsfuse-vllm0.30.0/mooncake]).

    ** The parts of the program and their files

    - This file: results of Python calls ([result], [rbind], the loop folds
      [rfold] and [rmap]), insertion-ordered dictionaries ([dget], [dset],
      [ddel]) as Python's [dict], sums and counts, list windows.
    - [PyData]: binary64 floats, JSON documents, truthiness and [int(...)].
    - [RtConfig]: [compression/runtime/config.py]; the deployment's JSON becomes
      a [CompressionConfig], with its type invariant, or an exception.
    - [RtLayout]: [compression/runtime/spec.py], [layout.py]; where every
      layer's data lives in a slot's arenas: regions disjoint, in bounds,
      sections covering the heads, and exactly when the builder raises.
    - [Workspace]: [compression/runtime/memory.py]; the best-fit allocator that
      serves nvCOMP from a fixed buffer: safety of every reachable state, best
      fit, coalescing.
    - [Transfer]: the planning functions of [session_ipc.py],
      [compression/tokens.py] and [mooncake_connector.py]: peer ranks, token
      counts, chunk windows, the plan of asymmetric transfers, region alignment.
    - [Messages]: the structs of [compression/protocol.py] and
      [session_ipc.py].
    - [Producer], [Consumer]: [session_process.py], the asyncio helper process
      [_SessionService]. A coroutine is a task suspended at one of its awaits
      (a [frame], or the program counters of a consumer session); one step runs
      a task to its next await, in any order the event loop may choose. The two
      sides share the record of the service, the job futures and the pipe.
      [ProducerInv], [ProducerAcc], [ProducerLive], [ProducerSend] and
      [ProducerSafe] hold the invariants by induction on steps,
      [ProducerThms] and [ConsumerThms] the properties of every execution:
      slots are conserved and private, counters are exact, sessions live and
      end as they should, blocks are not released under a running session.
    - [StoreData]: [store/data.py], [store/protocol.py]: pool keys, the two
      store layouts, token chunks, request trackers, the lookup response;
      [StoreThms] their round trip, injectivity, partition and bounds theorems.
    - [StoreSched]: [store/scheduler.py], the scheduler side of the store with
      its block references; [StoreSchedThms] shows that the calls to vLLM's
      block pool implement a reference count of the unfinished store jobs.
    - [StoreCoord]: [store/coordinator.py]; the groups of a hybrid model and the
      search for the longest prefix that every group can serve. vLLM's
      per-spec managers are the class [Managers]; the search has the fuel
      [max_length + 1]. [StoreCoordThms]: the groups of a built coordinator, the
      search never needs more fuel ([find_hit_terminates]), every group serves
      the reported hit.
    - [StoreWorker]: [store/worker.py], the sending thread of a rank: one job
      at a time, suspended at every lock and every call to the store
      ([task_step], [thread_step]), interleaved with the engine's thread
      ([sender_run]). [StoreWorkerThms]: every job is reported exactly once
      whatever the store does, and the resume offset moves only over confirmed
      keys.
    - [StoreLoad]: [store/worker.py], the receiving threads of a rank with their
      shared queue and the splitting of a load for the disk tier.
      [StoreLoadThms]: the split, what a request reported as loaded has fetched
      or marked, and that every request with a plan is reported.
    - [StoreLookup]: [store/worker.py], the store's layout of a deployment, the
      databases and the key prefixes, and the lookup with its frames.
      [StoreLookupThms]: the lookup asks for exactly the keys the ranks store
      ([lookup_prefixes_stored]) and reports only what the store confirmed.
    - [StoreRank]: [store/worker.py], what the engine calls on a worker:
      metadata to the threads, finished requests, reports. [StoreSystem]:
      scheduler and ranks composed through the queues of metadata and reports
      between them ([store/connector.py] and vLLM). [StoreSystemThms]: the
      scheduler's counts are exact, no report is refused, blocks stay
      referenced while a rank may read them, and everything settles; and the
      execution in which a finished request's tail reads an unreferenced block.
    - [P2PPlan]: [mooncake_connector.py], the raw plan of a transfer: regions,
      copies of block runs and their coalescing, batches, submission.
      [P2PPlanThms]: coalescing moves the same bytes ([coalescing_exact]),
      copies stay inside registered regions, batches respect their limits.
    - [P2PSched]: the scheduler side of the P2P connector; [P2PSchedThms]: a
      pull is queued once, a delayed free is announced.
    - [P2PSend], [P2PRecv]: the raw sender and the raw receiver of a rank as
      step relations over the tasks of their event loops. [P2PSendThms],
      [P2PSendSafe], [P2PAnswers] and [P2PRecvThms] hold the invariants,
      [P2PSendProps] and [P2PRecvProps] the properties: blocks are kept while
      they are read, every contact is answered for every request, a pull
      reports its requests; and the executions in which they are not.
    - [Wire]: [compression/wire.py], compressed data as metadata and byte
      tensors; [WireThms] its round trip. [BitPack]:
      [compression/codec/bitpack_codec.py] with its kernels lane by lane in
      32-bit arithmetic; [BitPackThms] its round trip, up to the size where
      the offsets wrap.
    - [V1Transport]: [transport/nccl_transport.py], the queues, staging
      credits and completions of both ends. [V1Conn]:
      [connector/compressed_kv_connector.py], the scheduler side (module
      [Sched]), and the load loop composed with the transport (module
      [Worker], [sys_step]: one step is one turn of a thread).
      [V1SchedThms]: a chunked prompt is sent once and whole, a load handed
      over once. [V1ConnThms] and [V1ConnSafe] carry the payloads of every
      transfer through queue, socket, stream, buffers and worker,
      [V1ConnLive] shows that a load can always be finished, [V1ConnProps]
      states the properties: order and content, credits, the bound on the
      staging memory, completion.
    - [TensorOps]: indexing, slicing, stacking and permuting of whole tensors,
      element by element on their bytes, with the lemmas that a permutation is
      undone by its inverse and that permuting layers permutes the buffer.
    - [V1Manager]: [compression/compression_manager.py] and the adapter of
      [compression/manager.py]: a KV tensor through transformer, quantizer and
      codec and back, in one piece or in chunks of eight layers. Transformer
      and quantizer are the class [Stages], the codec the class [Codecs].
      [V1Codec]: [compression/codec/kvserve_codec.py] as an instance of
      [Codecs], with [BitPack]; the wrappers of nvCOMP and LC are the class
      [Backends].
      [V1ManagerThms]: against the laws [OutBuffers] and [LosslessCodec], the
      fast path is the slow one ([direct_quantization_equivalent]) and the
      whole way, over the wire format, restores what quantizer and transformer
      give for each layer alone ([transfer_transparent]). [V1CodecThms]
      discharges [LosslessCodec] for [V1Codec]; [V1ManagerProps] is an example
      with three-bit symbols.
    - [Controller]: the package [compression/controller/]: the latency model
      ([predict_latency], [check_benefit]), the bandit statistics and the file
      they are kept in, the library, and the choice of a profile
      ([select_profile], with what [random] returns as arguments), over
      binary64 floats. [ControllerThms]: a chosen profile is eligible and, when
      exploiting, of least corrected latency ([decision_sound]); saved
      statistics are loaded back ([learned_state_round_trip]); a run of any
      length counts each decision once ([counters_run]).
    - [V1Adapter]: the rest of [compression/manager.py]: from configurations
      to managers, with the transformer fused into the quantizer, the managers
      cached by configuration, and the mode of the controller. [V1AdapterThms]:
      construction and requests see one configuration ([built_as_used]); in
      the mode of the controller the consumer restores from the metadata alone
      ([controlled_transfer_transparent]). [V1AdapterProps] is an example.
    - [Buffers]: byte ranges that are read and written, the 16-bit numbers in
      them, the views of [torch.Tensor.view], and what a write leaves alone.
    - [RtPipeline]: [runtime/pipeline.py] and [codec.py] with the Python
      backend: a chunk of all layers through gathering, head order, Hadamard
      transform, quantization, raw tails and codec into the arenas of a slot,
      and back. bfloat16 arithmetic is the class [Bf16], nvCOMP the class
      [Ans]. [RtRuntime]: [scores.py] (head selection), the plan of
      [memory.py], and of [manager.py] the regions taken from the buffer
      ([carve], [runtime_requests]) and the binding of the layout and of the
      metadata ([bind_layout], [bind_pipeline]).
      [RtPipelineOps] to [RtCodecThms] go from the operations over the stages,
      sections, parts and loops to a chunk, against a specification that knows
      no arenas ([ordered], [forward], [requantized], [returned],
      [restored_tail], [receive]); [RtRuntimeThms] and [RtBoundThms] show that
      planned and bound pipelines satisfy what those lemmas ask for, with the
      layout theorems of [RtLayout]. [RtPipelineProps]: a transfer refines the
      specification ([chunk_transfer_refines]), is exact without transformer
      and quantizer ([lossless_transfer]) and writes nothing else
      ([transfer_confined]); the last two also for the aggregate transport,
      whose specification is [receive_whole]. [RtRuntimeProps]: the buffer holds all regions
      ([buffer_holds_requests]). [RtPipelineEx] is an example with computed
      transfers. The loop of [fwht_loop] has fuel [size]; more changes nothing
      ([fwht_fuel_enough]).
    ** Conventions

    A Python function is a Rocq function of the same name where the name is
    free; a method takes the object's record. An exception is the [Err] of
    [result], and state changes before a raise are kept where a caller could
    see them. Python integers are [Z]; NumPy's fixed-width ones have their
    wrap-around written out. Loops are folds over the list the code iterates
    over, so no fuel is needed except where a definition says so; there a
    theorem shows the fuel is enough. Code the repository only calls (vLLM's [cdiv],
    the transports, tensors) is a parameter or an event of the step relation.

    ** What is not modelled

    Kernels in CUDA, C++ and TileLang, with them the C++ backend of the
    runtime's pipeline, nvCOMP and LC calls; streams and events: the kernels of
    one call are taken in order; the check of the cache shapes, the wire
    profile and the parsing of score files; log lines; start-up and shutdown of
    threads and processes; the msgpack encoding,
    which is msgspec's. Of the P2P connector the in-process sessions, whose
    protocol is that of the helper, and the registration of memory; of the v1
    connector the extraction and injection of tensors and the ZMQ transport.
    The patched copies of vLLM files are vLLM's code with hooks, and the near
    copies of the runtime under [mooncake/compression] repeat what is modelled
    here. The offline search, the benchmarks and the tests
    are experiments around the program and are left out. *)

From stdpp Require Export base list gmap strings numbers sorting.
From Stdlib Require Export ZArith Lia.

#[global] Open Scope Z_scope.

(** ** Python exceptions and the result of a call *)

(** The exception classes the modelled code raises, each with its message
    where the code passes the message on to a peer. *)
Inductive exn : Type :=
  | ValueError (msg : string)
  | RuntimeError (msg : string)
  | TimeoutError (msg : string)
  | KeyError
  | IndexError
  | StopIteration
  | TypeError
  | AttributeError
  | AssertionError
  | ZeroDivisionError
  | OverflowError
  | NotImplementedError.

#[global] Instance exn_eq_dec : EqDecision exn.
Proof. solve_decision. Defined.

(** A Python call either returns a value or raises. *)
Inductive result (A : Type) : Type :=
  | Ok (a : A)
  | Err (e : exn).
Arguments Ok {A} a.
Arguments Err {A} e.

(** The call returns. *)
Definition is_Ok {A} (m : result A) : Prop := ∃ a, m = Ok a.

Definition rbind {A B} (m : result A) (k : A → result B) : result B :=
  match m with
  | Ok a => k a
  | Err e => Err e
  end.

(** [raise_if c e] is the statement [if c: raise e]. *)
Definition raise_if (c : bool) (e : exn) : result unit :=
  if c then Err e else Ok ().

(** [assert_ c] is the statement [assert c]. *)
Definition assert_ (c : bool) : result unit := raise_if (negb c) AssertionError.

Definition of_option {A} (e : exn) (o : option A) : result A :=
  match o with
  | Some a => Ok a
  | None => Err e
  end.

Lemma of_option_Ok {A} (e : exn) (o : option A) (a : A) : of_option e o = Ok a ↔ o = Some a.
Proof. destruct o; cbn; naive_solver. Qed.

Declare Scope py_scope.
Delimit Scope py_scope with py.
Notation "'let?' x ':=' m 'in' k" := (rbind m (λ x, k))
  (at level 10, x pattern, m at level 100, k at level 200,
   format "'[v' 'let?'  x  ':='  m  'in' '/' k ']'") : py_scope.
Notation "m ;? k" := (rbind m (λ _ : unit, k))
  (at level 99, right associativity) : py_scope.
#[global] Open Scope py_scope.

Lemma rbind_Ok {A B} (m : result A) (k : A → result B) (b : B) :
  rbind m k = Ok b ↔ ∃ a, m = Ok a ∧ k a = Ok b.
Proof. destruct m; simpl; naive_solver. Qed.

Lemma raise_if_Ok (c : bool) (e : exn) (u : unit) :
  raise_if c e = Ok u ↔ c = false.
Proof. destruct c, u; unfold raise_if; naive_solver. Qed.

Lemma assert_Ok (c : bool) (u : unit) : assert_ c = Ok u ↔ c = true.
Proof. unfold assert_. rewrite raise_if_Ok. by destruct c. Qed.

Lemma Ok_inj {A} (a b : A) : Ok a = Ok b → a = b.
Proof. congruence. Qed.

(** Take apart every successful monadic hypothesis of the context. *)
Ltac inv_ok :=
  repeat match goal with
  | H : rbind _ _ = Ok _ |- _ =>
      apply rbind_Ok in H as (? & ? & ?)
  | H : raise_if _ _ = Ok _ |- _ => apply raise_if_Ok in H
  | H : assert_ _ = Ok _ |- _ => apply assert_Ok in H
  | H : Ok _ = Ok _ |- _ => apply Ok_inj in H; subst
  | H : Err _ = Ok _ |- _ => discriminate H
  | H : Ok _ = Err _ |- _ => discriminate H
  end.

(** A loop over a list whose body may raise. *)
Fixpoint rfold {A S} (f : S → A → result S) (s : S) (l : list A) : result S :=
  match l with
  | [] => Ok s
  | a :: l => let? s := f s a in rfold f s l
  end.

Fixpoint rmap {A B} (f : A → result B) (l : list A) : result (list B) :=
  match l with
  | [] => Ok []
  | a :: l => let? b := f a in let? bs := rmap f l in Ok (b :: bs)
  end.

(** The invariant rule for a loop that may raise. *)
Lemma rfold_ind {A S} (P : S → Prop) (f : S → A → result S) :
  (∀ s a s', P s → f s a = Ok s' → P s') →
  ∀ l s s', P s → rfold f s l = Ok s' → P s'.
Proof.
  intros Hstep l. induction l as [|a l IH]; simpl; intros s s' HP H; inv_ok;
    eauto.
Qed.

(** The rule for a loop that may raise, with the processed prefix. *)
Lemma rfold_app {A S} (f : S → A → result S) l1 l2 s :
  rfold f s (l1 ++ l2) = (let? s := rfold f s l1 in rfold f s l2).
Proof.
  revert s. induction l1 as [|a l1 IH]; intros s; simpl; [done|].
  destruct (f s a); simpl; auto.
Qed.

(** Induction with the part of the list already folded. *)
Lemma rfold_seen {A S} (P : list A → S → Prop) (f : S → A → result S) l s s' :
  (∀ pre a s s', pre ++ [a] `prefix_of` l → P pre s → f s a = Ok s' → P (pre ++ [a]) s') →
  P [] s → rfold f s l = Ok s' → P l s'.
Proof.
  revert s'. induction l as [|a l IH] using rev_ind; intros s' Hstep H0 H.
  - by apply Ok_inj in H as <-.
  - rewrite rfold_app in H. apply rbind_Ok in H as (s1 & H1 & H). cbn in H.
    apply rbind_Ok in H as (s2 & H2 & H). apply Ok_inj in H as <-.
    eapply Hstep; [done| |done]. apply IH; [|done..]. intros pre b s3 s4 Hpre.
    apply Hstep. by apply prefix_app_r.
Qed.

Lemma Forall2_impl_in {A B} (P Q : A → B → Prop) (l : list A) (k : list B) :
  Forall2 P l k → (∀ x y, x ∈ l → P x y → Q x y) → Forall2 Q l k.
Proof. induction 1 as [|x y l k Hxy _ IH]; intros H; constructor; [apply H; set_solver|]. apply IH. set_solver. Qed.

Lemma rmap_length {A B} (f : A → result B) l bs :
  rmap f l = Ok bs → length bs = length l.
Proof.
  revert bs. induction l as [|a l IH]; simpl; intros bs H; inv_ok; [done|].
  simpl. f_equal. eauto.
Qed.

(** Python's [//] and [%] round towards minus infinity, as [Z.div] and
    [Z.modulo] do, and raise on a zero divisor. *)
Definition py_div (a b : Z) : result Z := if b =? 0 then Err ZeroDivisionError else Ok (a / b).
Definition py_mod (a b : Z) : result Z := if b =? 0 then Err ZeroDivisionError else Ok (a mod b).

Lemma py_div_Ok a b c : py_div a b = Ok c ↔ b ≠ 0 ∧ c = a / b.
Proof. unfold py_div. destruct (Z.eqb_spec b 0); naive_solver. Qed.

Lemma py_mod_Ok a b c : py_mod a b = Ok c ↔ b ≠ 0 ∧ c = a mod b.
Proof. unfold py_mod. destruct (Z.eqb_spec b 0); naive_solver. Qed.

(** [l[i]]: a negative index counts from the end. *)
Definition py_index {A} (l : list A) (i : Z) : result A :=
  let j := if i <? 0 then i + Z.of_nat (length l) else i in
  if j <? 0 then Err IndexError else of_option IndexError (l !! Z.to_nat j).

Lemma py_index_nonneg {A} (l : list A) i :
  0 ≤ i → py_index l i = of_option IndexError (l !! Z.to_nat i).
Proof. intros H. unfold py_index. by rewrite !(proj2 (Z.ltb_ge i 0)) by done. Qed.

Definition zlen {A} (l : list A) : Z := Z.of_nat (length l).

(** ** Sums of integers *)

Fixpoint sumZ (l : list Z) : Z :=
  match l with
  | [] => 0
  | z :: l => z + sumZ l
  end.

Lemma sumZ_app l1 l2 : sumZ (l1 ++ l2) = sumZ l1 + sumZ l2.
Proof. induction l1; simpl; lia. Qed.

Lemma sumZ_perm l1 l2 : l1 ≡ₚ l2 → sumZ l1 = sumZ l2.
Proof. induction 1; simpl; lia. Qed.

Lemma sumZ_nonneg l : Forall (λ z, 0 ≤ z) l → 0 ≤ sumZ l.
Proof. induction 1; simpl; lia. Qed.

#[global] Instance sumZ_Proper : Proper ((≡ₚ) ==> (=)) sumZ.
Proof. intros l1 l2. apply sumZ_perm. Qed.

(** ** Python's stable sort *)

(** Python's [sort] is stable, so on any input it gives the list this
    insertion sort gives. [leb x y] is the comparison [x <= y] of the keys. *)
Section isort.
Context {A : Type} (leb : A → A → bool).

Fixpoint insert_sorted (x : A) (l : list A) : list A :=
    match l with
    | [] => [x]
    | y :: l' => if leb x y then x :: l else y :: insert_sorted x l'
    end.

Fixpoint isort (l : list A) : list A :=
    match l with
    | [] => []
    | x :: l => insert_sorted x (isort l)
    end.

Lemma insert_sorted_perm x l : insert_sorted x l ≡ₚ x :: l.
  Proof.
    induction l as [|y l IH]; simpl; [done|].
    destruct (leb x y); [done|]. rewrite IH. apply perm_swap.
  Qed.

Lemma isort_perm l : isort l ≡ₚ l.
  Proof.
    induction l as [|x l IH]; simpl; [done|].
    by rewrite insert_sorted_perm, IH.
  Qed.

Definition leb_rel (x y : A) : Prop := leb x y = true.

Context (leb_total : ∀ x y, leb x y = true ∨ leb y x = true)
          (leb_trans : ∀ x y z, leb x y = true → leb y z = true → leb x z = true).

Lemma insert_sorted_sorted x l :
    StronglySorted leb_rel l → StronglySorted leb_rel (insert_sorted x l).
  Proof using leb_total leb_trans.
    induction 1 as [|y l Hl IH Hy]; simpl; [repeat constructor|].
    destruct (leb x y) eqn:E.
    - constructor; [by constructor|]. constructor; [done|].
      eapply Forall_impl; [done|]. intros z Hz. eapply leb_trans; eauto.
    - constructor; [done|]. rewrite insert_sorted_perm. constructor; [|done].
      destruct (leb_total x y); [congruence|done].
  Qed.

Lemma isort_sorted l : StronglySorted leb_rel (isort l).
  Proof using leb_total leb_trans.
    induction l; simpl; [constructor|]. by apply insert_sorted_sorted.
  Qed.
End isort.

(** ** Insertion-ordered dictionaries

    A Python [dict] whose iteration order the code observes: an association
    list with one entry per key, in insertion order. Assigning to a present
    key keeps its position, assigning to an absent one appends. *)
Section adict.
Context {K V : Type} `{!EqDecision K}.
Implicit Types (d : list (K * V)) (k : K) (v : V).

Fixpoint dget d k : option V :=
    match d with
    | [] => None
    | (k', v) :: d => if decide (k = k') then Some v else dget d k
    end.

Fixpoint dset d k v : list (K * V) :=
    match d with
    | [] => [(k, v)]
    | (k', v') :: d =>
        if decide (k = k') then (k', v) :: d else (k', v') :: dset d k v
    end.

Definition ddel d k : list (K * V) := filter (λ e, e.1 ≠ k) d.

Definition dkeys d : list K := d.*1.

  (** One entry per key, which every Python dict has. *)
Definition dict_ok d : Prop := NoDup (dkeys d).

Lemma dget_dset_eq d k v : dget (dset d k v) k = Some v.
  Proof.
    induction d as [|[k' v'] d IH]; simpl; [by case_decide|].
    repeat (case_decide; simpl; simplify_eq; try done).
  Qed.

Lemma dget_dset_ne d k k' v : k ≠ k' → dget (dset d k v) k' = dget d k'.
  Proof.
    intros Hne. induction d as [|[k0 v0] d IH]; simpl; [by case_decide|].
    repeat (case_decide; simpl; simplify_eq; try done).
  Qed.

Lemma dget_ddel_eq d k : dget (ddel d k) k = None.
  Proof.
    induction d as [|[k' v'] d IH]; [done|]. unfold ddel.
    rewrite filter_cons. case_decide; simpl; [|done].
    case_decide; simplify_eq/=; done.
  Qed.

Lemma dget_ddel_ne d k k' : k ≠ k' → dget (ddel d k) k' = dget d k'.
  Proof.
    intros Hne. induction d as [|[k0 v0] d IH]; [done|]. unfold ddel.
    rewrite filter_cons. simpl. repeat case_decide; simplify_eq/=; try done.
    by rewrite decide_True. by rewrite decide_False.
  Qed.

Lemma dget_elem_of d k v : dget d k = Some v → (k, v) ∈ d.
  Proof.
    induction d as [|[k' v'] d IH]; simpl; [done|].
    case_decide; intros; simplify_eq; [left|right]; auto.
  Qed.

Lemma dget_None d k : dget d k = None ↔ k ∉ dkeys d.
  Proof.
    unfold dkeys. induction d as [|[k' v'] d IH]; simpl; [set_solver|].
    rewrite not_elem_of_cons. case_decide; naive_solver.
  Qed.

Lemma elem_of_dget d k v : dict_ok d → (k, v) ∈ d → dget d k = Some v.
  Proof.
    unfold dict_ok, dkeys. induction d as [|[k' v'] d IH]; simpl; [set_solver|].
    intros Hnd. apply NoDup_cons in Hnd as [Hni Hnd].
    intros [?|Hin]%elem_of_cons; simplify_eq; [by rewrite decide_True|].
    rewrite decide_False; [auto|]. intros ->. apply Hni, list_elem_of_fmap.
    by exists (k', v).
  Qed.

Lemma dkeys_dset d k v :
    dkeys (dset d k v) = match dget d k with Some _ => dkeys d | None => dkeys d ++ [k] end.
  Proof.
    unfold dkeys. induction d as [|[k' v'] d IH]; simpl; [done|].
    case_decide; simplify_eq/=; [done|]. rewrite IH. by destruct (dget d k).
  Qed.

Lemma dset_absent d k v : dget d k = None → dset d k v = d ++ [(k, v)].
Proof.
  induction d as [|[k' v'] d IH]; [done|]. cbn [dget dset]. case_decide; [done|].
  intros Hd. by rewrite IH.
Qed.

Lemma dict_ok_dset d k v : dict_ok d → dict_ok (dset d k v).
  Proof.
    unfold dict_ok. rewrite dkeys_dset. intros H.
    destruct (dget d k) eqn:E; [done|]. apply dget_None in E.
    apply NoDup_app; set_solver by eauto using NoDup_singleton.
  Qed.

Lemma dict_ok_ddel d k : dict_ok d → dict_ok (ddel d k).
  Proof.
    unfold dict_ok, dkeys, ddel. intros H.
    eapply sublist_NoDup; [exact H|].
    apply fmap_sublist, sublist_filter.
  Qed.
End adict.

(** ** Arithmetic helpers *)

(** [2 ^ k] bounds of a [w]-bit unsigned integer. *)
Definition fits (w z : Z) : Prop := 0 ≤ z < 2 ^ w.

#[global] Instance fits_dec w z : Decision (fits w z).
Proof. unfold fits. apply _. Defined.

(** The indicator of a half-open interval, as an integer. *)
Definition ind (lo len b : Z) : Z :=
  if (lo <=? b) && (b <? lo + len) then 1 else 0.

Lemma ind_spec lo len b :
  (lo ≤ b < lo + len ∧ ind lo len b = 1) ∨
  (¬ (lo ≤ b < lo + len) ∧ ind lo len b = 0).
Proof. unfold ind. destruct (lo <=? b) eqn:?, (b <? lo + len) eqn:?; simpl; lia. Qed.

Lemma ind_nonneg lo len b : 0 ≤ ind lo len b ≤ 1.
Proof. destruct (ind_spec lo len b); lia. Qed.

(** Two adjacent intervals are one interval. *)
Lemma ind_split lo m n b :
  0 ≤ m → 0 ≤ n → ind lo m b + ind (lo + m) n b = ind lo (m + n) b.
Proof.
  intros. destruct (ind_spec lo m b), (ind_spec (lo + m) n b),
    (ind_spec lo (m + n) b); lia.
Qed.

(** ** Regions placed one after another

    [packed lo l hi]: the regions [l], pairs of an offset and a length, lie in
    this order between [lo] and [hi], none overlapping the next. *)
Fixpoint packed (lo : Z) (l : list (Z * Z)) (hi : Z) : Prop :=
  match l with
  | [] => lo ≤ hi
  | (o, n) :: l => lo ≤ o ∧ 0 ≤ n ∧ packed (o + n) l hi
  end.

Lemma packed_le lo l hi : packed lo l hi → lo ≤ hi.
Proof.
  revert lo. induction l as [|[o n] l IH]; simpl; intros lo; [done|].
  intros (? & ? & ?%IH). lia.
Qed.

Lemma packed_app lo l1 mid l2 hi :
  packed lo l1 mid → packed mid l2 hi → packed lo (l1 ++ l2) hi.
Proof.
  revert lo. induction l1 as [|[o n] l1 IH]; simpl; intros lo.
  - destruct l2 as [|[o n] l2]; simpl; [lia|]. intuition lia.
  - intros (? & ? & ?) ?. auto.
Qed.

Lemma packed_weaken lo lo' l hi hi' :
  lo' ≤ lo → hi ≤ hi' → packed lo l hi → packed lo' l hi'.
Proof.
  revert lo lo'. induction l as [|[o n] l IH]; simpl; intros lo lo' ??; [lia|].
  intros (? & ? & ?). split_and!; [lia|done|]. eapply IH; [..|done]; lia.
Qed.

Lemma packed_bounds lo l hi o n :
  packed lo l hi → (o, n) ∈ l → lo ≤ o ∧ 0 ≤ n ∧ o + n ≤ hi.
Proof.
  revert lo. induction l as [|[o' n'] l IH]; simpl; intros lo; [set_solver|].
  intros (? & ? & Hp) [?|Hin]%elem_of_cons; simplify_eq.
  - apply packed_le in Hp. lia.
  - destruct (IH _ Hp Hin). lia.
Qed.

Lemma packed_disjoint lo l hi i j o n o' n' :
  packed lo l hi → (i < j)%nat → l !! i = Some (o, n) → l !! j = Some (o', n') →
  o + n ≤ o'.
Proof.
  revert lo i j. induction l as [|[o0 n0] l IH]; intros lo i j; [done|].
  simpl. intros (? & ? & Hp) Hij. destruct i, j; simpl; try lia.
  - intros [= <- <-] Hj. apply list_elem_of_lookup_2 in Hj.
    destruct (packed_bounds _ _ _ _ _ Hp Hj). lia.
  - intros Hi Hj. eapply IH; [done| |done..]. lia.
Qed.

(** Consecutive non-empty ranges from [lo] to [hi] without gaps. *)
Fixpoint tiled (lo : Z) (l : list (Z * Z)) (hi : Z) : Prop :=
  match l with
  | [] => lo = hi
  | (o, n) :: l => o = lo ∧ 0 < n ∧ tiled (lo + n) l hi
  end.

Lemma tiled_snoc lo l mid n :
  tiled lo l mid → 0 < n → tiled lo (l ++ [(mid, n)]) (mid + n).
Proof.
  revert lo. induction l as [|[o m] l IH]; simpl; intros lo; [naive_solver lia|].
  intros (? & ? & ?) ?. auto.
Qed.

Lemma tiled_app lo l1 mid l2 hi :
  tiled lo l1 mid → tiled mid l2 hi → tiled lo (l1 ++ l2) hi.
Proof.
  revert lo. induction l1 as [|[o n] l1 IH]; simpl; intros lo; [by intros ->|].
  intros (? & ? & ?) ?. auto.
Qed.

Lemma tiled_le lo l hi : tiled lo l hi → lo ≤ hi.
Proof.
  revert lo. induction l as [|[o n] l IH]; simpl; intros lo; [lia|].
  intros (-> & ? & ?%IH). lia.
Qed.

(** ** Token counts *)

Lemma rmap_Ok {A B} (f : A → result B) l bs :
  rmap f l = Ok bs ↔ Forall2 (λ a b, f a = Ok b) l bs.
Proof.
  revert bs. induction l as [|a l IH]; intros bs; simpl.
  - split; [intros [= <-]; constructor|]. intros H. by inversion H.
  - rewrite rbind_Ok. setoid_rewrite rbind_Ok. setoid_rewrite IH. split.
    + intros (b & ? & bs' & ? & [= <-]). by constructor.
    + intros H. inversion H; subst. eauto 10.
Qed.

Lemma tiled_multiples n len :
  0 < len → tiled 0 ((λ i, (i * len, len)) <$> seqZ 0 n) (Z.max n 0 * len).
Proof.
  intros Hlen. destruct (decide (0 ≤ n)) as [Hn|].
  - rewrite Z.max_l by lia. rewrite <- (Z2Nat.id n) by lia. clear Hn.
    induction (Z.to_nat n) as [|m IH]; [done|].
    rewrite seqZ_S, fmap_app. simpl.
    replace (Z.of_nat (S m) * len) with (Z.of_nat m * len + len) by lia.
    by apply tiled_snoc.
  - rewrite seqZ_nil by lia. simpl. lia.
Qed.

(** Full windows, then a last one that may be shorter, tile [0 .. n]. *)
Lemma windows_tiled n per m :
  0 < per → 0 ≤ n → 0 ≤ m → (m - 1) * per < n ≤ m * per →
  tiled 0 ((λ j, (j * per, Z.min per (n - j * per))) <$> seqZ 0 m) n.
Proof.
  intros Hper Hn0 Hm Hn. destruct (decide (m = 0)) as [->|]; [simpl; lia|].
  replace m with (m - 1 + 1) by lia. rewrite seqZ_app, fmap_app by lia.
  eapply (tiled_app _ _ ((m - 1) * per)).
  - assert (Hfull : ((λ j, (j * per, Z.min per (n - j * per))) <$> seqZ 0 (m - 1))
                    = (λ j, (j * per, per)) <$> seqZ 0 (m - 1)).
    { apply list_fmap_ext. intros i j Hj%lookup_seqZ. f_equal. nia. }
    rewrite Hfull. pose proof (tiled_multiples (m - 1) per Hper) as Ht.
    by rewrite Z.max_l in Ht by lia.
  - rewrite (seqZ_cons _ 1), seqZ_nil by lia. simpl. split_and!; lia.
Qed.

(** Updating an element in a way a projection does not see. *)
Lemma fmap_alter_same {A B} (g : A → B) (f : A → A) (l : list A) i :
  (∀ x, g (f x) = g x) → g <$> alter f i l = g <$> l.
Proof.
  intros Hg. revert i. induction l as [|x l IH]; intros [|i]; csimpl; [done..| |].
  - by rewrite Hg.
  - f_equal. apply IH.
Qed.

Lemma alter_split {A} (f : A → A) (l : list A) i x :
  l !! i = Some x →
  ∃ l1 l2, l = l1 ++ x :: l2 ∧ length l1 = i ∧ alter f i l = l1 ++ f x :: l2.
Proof.
  revert i. induction l as [|y l IH]; intros [|i] H; simplify_eq/=.
  - by exists [], l.
  - destruct (IH _ H) as (l1 & l2 & -> & <- & Ha). exists (y :: l1), l2.
    split_and!; [done|done|]. cbn. f_equal. exact Ha.
Qed.

Lemma elem_of_insert_inv {A} (l : list A) i x y : x ∈ <[i := y]> l → x = y ∨ x ∈ l.
Proof.
  intros [j Hj]%list_elem_of_lookup. apply list_lookup_insert_Some in Hj as [?|[_ Hj]].
  - naive_solver.
  - right. by eapply list_elem_of_lookup_2.
Qed.

(** ** Counting *)

(** The number of elements of [l] that satisfy [P]. *)
Definition cnt {A} (P : A → bool) (l : list A) : Z := sumZ ((λ x, Z.b2z (P x)) <$> l).

Section cnt.
Context {A : Type}.
Implicit Types (P : A → bool) (l : list A).

Lemma cnt_nil P : cnt P [] = 0.
Proof. done. Qed.

Lemma cnt_cons P x l : cnt P (x :: l) = Z.b2z (P x) + cnt P l.
Proof. done. Qed.

Lemma cnt_app P l1 l2 : cnt P (l1 ++ l2) = cnt P l1 + cnt P l2.
Proof. unfold cnt. by rewrite fmap_app, sumZ_app. Qed.

Lemma cnt_nonneg P l : 0 ≤ cnt P l.
Proof. induction l as [|x l IH]; [done|]. rewrite cnt_cons. destruct (P x); simpl; lia. Qed.

Lemma cnt_insert P l i x y :
  l !! i = Some x → cnt P (<[i := y]> l) = cnt P l - Z.b2z (P x) + Z.b2z (P y).
Proof.
  revert i. induction l as [|z l IH]; intros [|i]; simpl; try done.
  - intros [= ->]. rewrite !cnt_cons. lia.
  - intros Hi. rewrite !cnt_cons, (IH i) by done. lia.
Qed.

Lemma cnt_pos P l x : x ∈ l → P x = true → 1 ≤ cnt P l.
Proof.
  intros [l1 [l2 ->]]%list_elem_of_split Hx. rewrite cnt_app, cnt_cons, Hx.
  pose proof (cnt_nonneg P l1). pose proof (cnt_nonneg P l2). simpl. lia.
Qed.

Lemma cnt_pos_inv P l : 1 ≤ cnt P l → ∃ x, x ∈ l ∧ P x = true.
Proof.
  induction l as [|x l IH]; [rewrite cnt_nil; lia|]. rewrite cnt_cons.
  destruct (P x) eqn:E; simpl; [intros; exists x; set_solver|].
  intros (y & ? & ?)%IH. exists y. set_solver.
Qed.

Lemma cnt_zero P l : (∀ x, x ∈ l → P x = false) → cnt P l = 0.
Proof.
  induction l as [|x l IH]; intros H; [done|]. rewrite cnt_cons, H, IH by set_solver.
  done.
Qed.

Lemma cnt_ext P Q l : (∀ x, x ∈ l → P x = Q x) → cnt P l = cnt Q l.
Proof.
  induction l as [|x l IH]; intros H; [done|]. rewrite !cnt_cons, H, IH by set_solver.
  done.
Qed.

Lemma cnt_le P Q l : (∀ x, x ∈ l → P x = true → Q x = true) → cnt P l ≤ cnt Q l.
Proof.
  induction l as [|x l IH]; intros H; [done|]. rewrite !cnt_cons.
  specialize (IH ltac:(set_solver)). specialize (H x).
  destruct (P x), (Q x); simpl; set_solver by lia.
Qed.

#[global] Instance cnt_Proper P : Proper ((≡ₚ) ==> (=)) (cnt P).
Proof. intros l1 l2 H. unfold cnt. by rewrite H. Qed.
End cnt.

(** ** Dictionaries *)

Lemma ddel_absent {K V} `{EqDecision K} (d : list (K * V)) k : dget d k = None → ddel d k = d.
Proof.
  induction d as [|[k' v] d IH]; [done|]. simpl. case_decide as Hd; [done|].
  intros. unfold ddel. rewrite filter_cons. simpl. rewrite decide_True by congruence.
  f_equal. by apply IH.
Qed.

Lemma cnt_ddel `{EqDecision K} {V} (P : K * V → bool) (d : list (K * V)) k v :
  dict_ok d → dget d k = Some v → cnt P (ddel d k) = cnt P d - Z.b2z (P (k, v)).
Proof.
  unfold dict_ok, dkeys. induction d as [|[k' v'] d IH]; [done|].
  csimpl. intros [Hni Hnd]%NoDup_cons. unfold ddel. rewrite filter_cons. simpl.
  destruct (decide (k = k')) as [<-|Hne].
  - intros [= ->]. rewrite decide_False by naive_solver.
    rewrite cnt_cons. fold (ddel d k). rewrite ddel_absent; [lia|]. by apply dget_None.
  - intros Hd. rewrite decide_True by done. fold (ddel d k). rewrite !cnt_cons, IH by done. lia.
Qed.

Lemma cnt_dset `{EqDecision K} {V} (P : K * V → bool) (d : list (K * V)) k v :
  dict_ok d →
  cnt P (dset d k v) =
  cnt P d + Z.b2z (P (k, v)) - match dget d k with Some w => Z.b2z (P (k, w)) | None => 0 end.
Proof.
  unfold dict_ok, dkeys. induction d as [|[k' v'] d IH].
  - intros _. cbn [dset dget]. rewrite cnt_cons, !cnt_nil. lia.
  - csimpl. intros [_ Hnd]%NoDup_cons. case_decide; subst; rewrite !cnt_cons; [lia|].
    rewrite IH by done. lia.
Qed.

Lemma elem_of_dset `{EqDecision K} {V} (d : list (K * V)) k v e :
  e ∈ dset d k v → e = (k, v) ∨ (e ∈ d ∧ (dict_ok d → e.1 ≠ k)).
Proof.
  induction d as [|[k' v'] d IH]; simpl; [set_solver|]. case_decide as Hk.
  - subst k'. intros [->|He]%elem_of_cons; [by left|right]. split; [set_solver|].
    unfold dict_ok, dkeys. csimpl. intros [Hni _]%NoDup_cons <-. apply Hni. apply list_elem_of_fmap. eauto.
  - intros [->|He]%elem_of_cons; [right; split; [set_solver|by intros _ ?]|].
    destruct (IH He) as [->|[H1 H2]]; [by left|right]. split; [set_solver|].
    unfold dict_ok, dkeys. csimpl. intros [_ Hnd]%NoDup_cons. by apply H2.
Qed.

(** ** Sums over lists *)

Lemma sumZ_cons z l : sumZ (z :: l) = z + sumZ l.
Proof. done. Qed.

Lemma sumZ_insert {A} (f : A → Z) (l : list A) i x y :
  l !! i = Some x → sumZ (f <$> <[i := y]> l) = sumZ (f <$> l) + f y - f x.
Proof.
  revert i. induction l as [|z l IH]; intros [|i]; [done..| |].
  - intros [= ->]. change (<[0%nat := y]> (x :: l)) with (y :: l). rewrite !fmap_cons, !sumZ_cons. lia.
  - intros Hi. change (<[S i := y]> (z :: l)) with (z :: <[i := y]> l).
    rewrite !fmap_cons, !sumZ_cons, (IH i Hi). lia.
Qed.

Lemma sumZ_delete {A} (f : A → Z) (l : list A) i x :
  l !! i = Some x → sumZ (f <$> delete i l) = sumZ (f <$> l) - f x.
Proof.
  revert i. induction l as [|z l IH]; intros [|i]; [done..| |].
  - intros [= ->]. change (delete 0%nat (x :: l)) with l. rewrite fmap_cons, sumZ_cons. lia.
  - intros Hi. change (delete (S i) (z :: l)) with (z :: delete i l).
    rewrite !fmap_cons, !sumZ_cons, (IH i Hi). lia.
Qed.

Lemma sumZ_fmap_nonneg {A} (f : A → Z) (l : list A) : (∀ x, x ∈ l → 0 ≤ f x) → 0 ≤ sumZ (f <$> l).
Proof. intros Hf. apply sumZ_nonneg, Forall_fmap, Forall_forall. exact Hf. Qed.

Lemma sumZ_ge {A} (f : A → Z) (l : list A) x : (∀ y, y ∈ l → 0 ≤ f y) → x ∈ l → f x ≤ sumZ (f <$> l).
Proof.
  intros Hf Hx. apply list_elem_of_lookup in Hx as [i Hi]. assert (Hd := sumZ_delete f l i x Hi).
  enough (0 ≤ sumZ (f <$> delete i l)) by lia. apply sumZ_fmap_nonneg. intros y Hy. apply Hf.
  eapply elem_of_sublist; [exact Hy|apply sublist_delete].
Qed.

(** Occurrences of an element. *)
Definition occ (r : nat) (l : list nat) : Z := cnt (λ x, bool_decide (x = r)) l.

Lemma occ_cons r x l : occ r (x :: l) = (if decide (x = r) then 1 else 0) + occ r l.
Proof.
  unfold occ. rewrite cnt_cons. destruct (decide (x = r)); [by rewrite bool_decide_true|by rewrite bool_decide_false].
Qed.

Lemma occ_app r l1 l2 : occ r (l1 ++ l2) = occ r l1 + occ r l2.
Proof. apply cnt_app. Qed.

Lemma occ_nonneg r l : 0 ≤ occ r l.
Proof. apply cnt_nonneg. Qed.

Lemma occ_pos r l : r ∈ l ↔ 0 < occ r l.
Proof.
  split.
  - intros Hr. apply (cnt_pos (λ x, bool_decide (x = r))) in Hr; [unfold occ; lia|by rewrite bool_decide_true].
  - intros H. destruct (cnt_pos_inv (λ x, bool_decide (x = r)) l) as (x & Hx & Hb); [unfold occ in H; lia|].
    by apply bool_decide_eq_true in Hb as <-.
Qed.

Lemma occ_zero r l : r ∉ l ↔ occ r l = 0.
Proof. rewrite occ_pos. pose proof (occ_nonneg r l). lia. Qed.

#[global] Instance occ_Proper r : Proper ((≡ₚ) ==> (=)) (occ r).
Proof. intros l1 l2. apply cnt_Proper. Qed.

(** Case analysis on a boolean test of the goal or the context. *)
Ltac case_bool :=
  match goal with
  | |- context [if ?b then _ else _] => destruct b eqn:?
  | H : context [if ?b then _ else _] |- _ => destruct b eqn:?
  end.

(** Boolean comparisons as propositions over [Z]. *)
Ltac zbool :=
  repeat match goal with
  | H : (_ <? _) = true |- _ => apply Z.ltb_lt in H
  | H : (_ <? _) = false |- _ => apply Z.ltb_ge in H
  | H : (_ <=? _) = true |- _ => apply Z.leb_le in H
  | H : (_ <=? _) = false |- _ => apply Z.leb_gt in H
  | H : (_ =? _)%Z = true |- _ => apply Z.eqb_eq in H
  | H : (_ =? _)%Z = false |- _ => apply Z.eqb_neq in H
  | H : (_ && _) = true |- _ => apply andb_true_iff in H as [? ?]
  | H : (_ || _) = false |- _ => apply orb_false_iff in H as [? ?]
  | H : negb _ = true |- _ => apply negb_true_iff in H
  | H : negb _ = false |- _ => apply negb_false_iff in H
  end.

Lemma fmap_concat {A B} (f : A → B) (ls : list (list A)) :
  fmap (M:=list) f (concat ls) = concat (fmap (M:=list) (fmap (M:=list) f) ls).
Proof. induction ls as [|l ls IH]; [done|]. cbn [concat fmap list_fmap]. by rewrite fmap_app, <- IH. Qed.

Lemma filter_all {A} (P : A → Prop) `{!∀ x, Decision (P x)} (l : list A) :
  (∀ x, x ∈ l → P x) → filter P l = l.
Proof.
  induction l as [|x l IH]; intros Hall; [done|].
  rewrite filter_cons_True by set_solver. rewrite IH; set_solver.
Qed.

Lemma elements_remove (x : Z) (X : gset Z) :
  x ∈ X → elements X ≡ₚ x :: elements (X ∖ {[x]}).
Proof.
  intros H. rewrite (union_difference_singleton_L x X) at 1 by done.
  rewrite elements_union_singleton by set_solver. done.
Qed.

Lemma seqZ_snoc m n : 0 ≤ n → seqZ m (n + 1) = seqZ m n ++ [m + n].
Proof. intros H. by rewrite seqZ_app by lia. Qed.

(** ** Tallies

    The sum of the entries of a key, in a dictionary of counts. *)
Definition reports (j : Z) (completed : list (Z * Z)) : Z :=
  sumZ ((λ e : Z * Z, if e.1 =? j then e.2 else 0) <$> completed).

Lemma reports_cons j e l : reports j (e :: l) = (if e.1 =? j then e.2 else 0) + reports j l.
Proof. done. Qed.

Lemma reports_app j l1 l2 : reports j (l1 ++ l2) = reports j l1 + reports j l2.
Proof. unfold reports. by rewrite fmap_app, sumZ_app. Qed.

Lemma reports_nonneg j l : Forall (λ e : Z * Z, 0 < e.2) l → 0 ≤ reports j l.
Proof.
  induction 1 as [|e l He _ IH]; [done|]. rewrite reports_cons. destruct (_ =? _); lia.
Qed.

Lemma reports_elem j n l : Forall (λ e : Z * Z, 0 < e.2) l → (j, n) ∈ l → n ≤ reports j l.
Proof.
  intros Hl. induction Hl as [|e l He Hl IH]; [set_solver|]. rewrite reports_cons.
  intros [<-|Hin]%elem_of_cons; cbn.
  - rewrite Z.eqb_refl. pose proof (reports_nonneg j l Hl). lia.
  - specialize (IH Hin). destruct (_ =? _); lia.
Qed.

Lemma reports_bump j k n d :
  reports j (dset d k (default 0 (dget d k) + n)) = reports j d + (if k =? j then n else 0).
Proof.
  induction d as [|[k' v] d IH]; cbn [dset dget]; [unfold reports; cbn; destruct (_ =? _); lia|].
  destruct (decide (k = k')) as [->|]; rewrite !reports_cons; cbn [fst snd].
  - cbn. destruct (_ =? j); lia.
  - rewrite IH. lia.
Qed.

Create HintDb kvs.
Create Rewrite HintDb kvs_rw.
#[export] Hint Resolve packed_app packed_le sumZ_nonneg ind_nonneg dict_ok_dset dict_ok_ddel
  tiled_snoc tiled_app tiled_le cnt_nonneg : kvs.
#[export] Hint Rewrite @dget_dset_eq @dget_ddel_eq @rfold_app : kvs_rw.

(** ** Ceiling division

    [vllm.utils.math_utils.cdiv], with its documented behaviour. *)
Class CeilDiv := {
  cdiv : Z → Z → Z;
  cdiv_bounds : ∀ a b, 0 < b → (cdiv a b - 1) * b < a ≤ cdiv a b * b
}.

(** The class has a member. *)
#[global] Instance ceil_div : CeilDiv.
Proof.
  refine {| cdiv := λ a b, (a + b - 1) / b |}. intros a b Hb.
  pose proof (Z.div_mod (a + b - 1) b). pose proof (Z.mod_pos_bound (a + b - 1) b Hb). nia.
Defined.
