(* ===== verification/PyData.v ===== *)
(** * Python values

    IEEE-754 binary64 floats (through the executable [SpecFloat] semantics of
    the Standard Library), JSON documents, truthiness, and [int(...)]. The
    configuration, controller and store components use them. *)

From Stdlib Require Import Ascii SpecFloat DecimalString DecimalZ DecimalFacts.
From S2P Require Import Prelude.

(** ** Floats *)

(** CPython's [float] is an IEEE-754 binary64 number. *)
Notation float := spec_float.

Module F.
Definition prec : Z := 53.
Definition emax : Z := 1024.
Definition add : float → float → float := SFadd prec emax.
Definition sub : float → float → float := SFsub prec emax.
Definition mul : float → float → float := SFmul prec emax.
Definition div : float → float → float := SFdiv prec emax.
Definition ltb : float → float → bool := SFltb.
Definition leb : float → float → bool := SFleb.
Definition eqb : float → float → bool := SFeqb.
Definition abs : float → float := SFabs.

  (** The float nearest to [m * 2 ^ e], ties to even: the value of a
      literal or of an [int] operand of a float operation. *)
Definition make (m e : Z) : float := binary_normalize prec emax m e false.
Definition of_Z (z : Z) : float := make z 0.
Definition zero : float := S754_zero false.
Definition one : float := of_Z 1.

  (** [n / d] rounded to the nearest integer, ties to even. *)
Definition div_half_even (n d : Z) : Z :=
    let q := n / d in
    let r := n mod d in
    if 2 * r <? d then q
    else if d <? 2 * r then q + 1
    else if Z.even q then q else q + 1.

  (** Python's [round(x)]; [None] where it raises (infinities and NaN). *)
Definition round (f : float) : option Z :=
    match f with
    | S754_zero _ => Some 0
    | S754_finite s m e =>
        let n := if s then Z.neg m else Z.pos m in
        Some (if 0 <=? e then n * 2 ^ e else div_half_even n (2 ^ (- e)))
    | _ => None
    end.

  (** Python's [int(x)], which truncates; [None] where it raises. *)
Definition trunc (f : float) : option Z :=
    match f with
    | S754_zero _ => Some 0
    | S754_finite s m e =>
        let n := if s then Z.neg m else Z.pos m in
        Some (if 0 <=? e then n * 2 ^ e else Z.quot n (2 ^ (- e)))
    | _ => None
    end.

Lemma div_half_even_bound n d :
    0 < d → Z.abs (2 * (n - div_half_even n d * d)) ≤ d.
  Proof.
    intros. unfold div_half_even.
    pose proof (Z.div_mod n d). pose proof (Z.mod_pos_bound n d).
    repeat case_bool; zbool; nia.
  Qed.

Lemma div_half_even_nonneg n d : 0 < d → 0 ≤ n → 0 ≤ div_half_even n d.
  Proof.
    intros. unfold div_half_even. pose proof (Z.div_pos n d).
    repeat case_bool; lia.
  Qed.
End F.

#[global] Instance float_eq_dec : EqDecision float.
Proof. solve_decision. Defined.

(** ** Decimal strings *)

(** [str(z)] of an [int]. *)
Definition str_of_Z (z : Z) : string := NilZero.string_of_int (Z.to_int z).

Definition is_space (c : Ascii.ascii) : bool :=
  bool_decide (c ∈ [" "%char; "009"%char; "010"%char; "011"%char; "012"%char; "013"%char]).

Fixpoint lstrip (s : string) : string :=
  match s with
  | String c s' => if is_space c then lstrip s' else s
  | EmptyString => EmptyString
  end.

Fixpoint rstrip (s : string) : string :=
  match s with
  | EmptyString => EmptyString
  | String c s' =>
      let t := rstrip s' in
      match t with
      | EmptyString => if is_space c then EmptyString else String c EmptyString
      | _ => String c t
      end
  end.

(** [s.lower()] of an ASCII string *)
Definition lower_char (c : ascii) : ascii :=
  let n := N_of_ascii c in
  if (65 <=? n)%N && (n <=? 90)%N then ascii_of_N (n + 32) else c.

Fixpoint lower (s : string) : string :=
  match s with
  | EmptyString => EmptyString
  | String c s => String (lower_char c) (lower s)
  end.

Definition is_digit (c : Ascii.ascii) : bool :=
  let n := Ascii.N_of_ascii c in (48 <=? n)%N && (n <=? 57)%N.

(** Digits with single underscores between them, which [int] accepts; the
    flag tells whether the previous character is a digit. *)
Fixpoint drop_underscores (prev_digit : bool) (s : string) : option string :=
  match s with
  | EmptyString => if prev_digit then Some EmptyString else None
  | String c s' =>
      if is_digit c then String c <$> drop_underscores true s'
      else if prev_digit && Ascii.eqb c "_"%char then drop_underscores false s'
      else None
  end.

Definition parse_digits (s : string) : option Z :=
  s ← drop_underscores false s;
  u ← NilZero.uint_of_string s;
  Some (Z.of_uint u).

(** [int(s)] of an ASCII string: surrounding blanks, an optional sign, then
    digits. [None] where it raises [ValueError]. *)
Definition int_of_str (s : string) : option Z :=
  match rstrip (lstrip s) with
  | String c s' =>
      if Ascii.eqb c "-"%char then Z.opp <$> parse_digits s'
      else if Ascii.eqb c "+"%char then parse_digits s'
      else parse_digits (String c s')
  | EmptyString => None
  end.

Fixpoint all_digits (s : string) : bool :=
  match s with
  | EmptyString => true
  | String c s' => is_digit c && all_digits s'
  end.

Lemma digit_not_space c : is_digit c = true → is_space c = false.
Proof. destruct c as [[] [] [] [] [] [] [] []]; vm_compute; congruence. Qed.

Lemma digit_not_sign c :
  is_digit c = true → Ascii.eqb c "-"%char = false ∧ Ascii.eqb c "+"%char = false.
Proof. destruct c as [[] [] [] [] [] [] [] []]; vm_compute; intuition congruence. Qed.

Lemma rstrip_digits s : all_digits s = true → rstrip s = s.
Proof.
  induction s as [|c s IH]; simpl; [done|].
  intros [Hc Hs]%andb_true_iff. rewrite (IH Hs).
  destruct s; [by rewrite digit_not_space|done].
Qed.

Lemma lstrip_digits s : all_digits s = true → lstrip s = s.
Proof.
  destruct s as [|c s]; simpl; [done|].
  intros [Hc Hs]%andb_true_iff. by rewrite digit_not_space.
Qed.

Lemma drop_underscores_digits s b :
  all_digits s = true → b = true ∨ s ≠ EmptyString →
  drop_underscores b s = Some s.
Proof.
  revert b. induction s as [|c s IH]; simpl; intros b.
  - by intros _ [->|?].
  - intros [Hc Hs]%andb_true_iff _. rewrite Hc, IH; auto.
Qed.

Lemma all_digits_uint u : all_digits (NilEmpty.string_of_uint u) = true.
Proof. induction u; simpl; rewrite ?IHu; done. Qed.

Lemma nilzero_digits u :
  all_digits (NilZero.string_of_uint u) = true ∧
  NilZero.string_of_uint u ≠ EmptyString.
Proof.
  destruct u; cbn [NilZero.string_of_uint]; try done;
    (split; [apply (all_digits_uint (_ u))|done]).
Qed.

(** [int(str(n)) == n]. *)
Lemma int_of_str_of_Z z : int_of_str (str_of_Z z) = Some z.
Proof.
  unfold int_of_str, str_of_Z.
  assert (Hp : ∀ u, parse_digits (NilZero.string_of_uint u) = Some (Z.of_uint u)).
  { intros u. unfold parse_digits. destruct (nilzero_digits u) as [H1 H2].
    rewrite drop_underscores_digits by auto. simpl.
    destruct u; try reflexivity; by rewrite NilZero.usu. }
  pose proof (of_to z) as Hz. destruct (Z.to_int z) as [u|u] eqn:E; simpl in *.
  - destruct (nilzero_digits u) as [H1 H2]. pose proof (Hp u) as Hu.
    rewrite lstrip_digits, rstrip_digits by done.
    destruct (NilZero.string_of_uint u) as [|c s] eqn:Es; [done|].
    simpl in H1. apply andb_true_iff in H1 as [Hc _].
    destruct (digit_not_sign c Hc) as [-> ->]. rewrite Hu. by f_equal.
  - destruct (nilzero_digits u) as [H1 H2].
    change (lstrip (String "-"%char ?s)) with (String "-"%char s).
    cbn [rstrip]. rewrite rstrip_digits by done.
    destruct (NilZero.string_of_uint u) as [|c s] eqn:Es; [done|]. simpl.
    rewrite <- Es, Hp. simpl. by f_equal.
Qed.

Lemma str_of_Z_inj a b : str_of_Z a = str_of_Z b → a = b.
Proof. intros H. assert (E := int_of_str_of_Z a). rewrite H, int_of_str_of_Z in E. congruence. Qed.

(** ** JSON documents *)

Inductive json : Type :=
  | JNull
  | JBool (b : bool)
  | JInt (z : Z)
  | JFloat (f : float)
  | JStr (s : string)
  | JList (l : list json)
  | JDict (d : list (string * json)).

(** Python's [bool(x)]. *)
Definition truthy (j : json) : bool :=
  match j with
  | JNull => false
  | JBool b => b
  | JInt z => negb (z =? 0)
  | JFloat f => negb (F.eqb f F.zero)
  | JStr s => negb (String.eqb s "")
  | JList l => match l with [] => false | _ => true end
  | JDict d => match d with [] => false | _ => true end
  end.

(** Python's [int(x)]. *)
Definition py_int (j : json) : result Z :=
  match j with
  | JBool b => Ok (if b then 1 else 0)
  | JInt z => Ok z
  | JFloat f => of_option (ValueError "cannot convert float to integer") (F.trunc f)
  | JStr s => of_option (ValueError "invalid literal for int()") (int_of_str s)
  | _ => Err TypeError
  end.

(** [j.get(k)] of a value that must be a dict; [None] for an absent key. *)
Definition jget (j : json) (k : string) : result (option json) :=
  match j with
  | JDict d => Ok (dget d k)
  | _ => Err AttributeError
  end.

(** [type(j) is int]: a bool is not one. *)
Definition as_int (j : json) : option Z :=
  match j with JInt z => Some z | _ => None end.

Definition as_str (j : json) : option string :=
  match j with JStr s => Some s | _ => None end.

(** The comparison [lo <= j <= hi] for two small integer bounds; [None]
    where it raises [TypeError]. Integers compare with floats exactly. *)
Definition between (lo hi : Z) (j : json) : option bool :=
  match j with
  | JBool b => Some ((lo <=? (if b then 1 else 0)) && ((if b then 1 else 0) <=? hi))
  | JInt z => Some ((lo <=? z) && (z <=? hi))
  | JFloat f => Some (F.leb (F.of_Z lo) f && F.leb f (F.of_Z hi))
  | _ => None
  end.
