(* ===== verification/RtConfig.v ===== *)
(** * The compression configuration

    [kvserve_v1/compression/runtime/config.py]: the [raw_aggregate] key, the
    [CompressionConfig] record with its defaults and properties, and
    [from_extra_config], which turns the deployment's JSON object into a
    validated configuration or raises. *)

From S2P Require Import Prelude PyData.

(** ** Data *)

Inductive QuantAxis := Channel | Token | Tensor.
Inductive SplitType := SplitHead | SplitLayer.
Inductive Transport := Raw | Compression | RawAggregate.

#[global] Instance QuantAxis_eq_dec : EqDecision QuantAxis.
Proof. solve_decision. Defined.
#[global] Instance SplitType_eq_dec : EqDecision SplitType.
Proof. solve_decision. Defined.
#[global] Instance Transport_eq_dec : EqDecision Transport.
Proof. solve_decision. Defined.

Definition RAW_AGGREGATE_SLOT_COUNT : Z := 2.
Definition RAW_AGGREGATE_LOGICAL_BLOCKS_PER_CHUNK : Z := 160.

(** The fields [seed], [score_path] and [hybrid_ratio] hold what the JSON
    object gave: the code does not validate the first two and only bounds
    the third. *)
Record CompressionConfig := mkConfig {
  enabled : bool;
  transport : Transport;
  seed : json;
  split_type : SplitType;
  score_path : json;
  hybrid_ratio : json;
  axis_key : QuantAxis;
  axis_value : QuantAxis;
  high_key_num_levels : Z;
  high_value_num_levels : Z;
  low_key_num_levels : Z;
  low_value_num_levels : Z;
  slot_count : Z;
  logical_blocks_per_chunk : Z;
  pipeline : list string
}.

(** The field defaults; [transformer] and [codec] have one legal value each. *)
Definition default_config : CompressionConfig := {|
  enabled := false;
  transport := Compression;
  seed := JInt 3237919422;
  split_type := SplitLayer;
  score_path := JNull;
  hybrid_ratio := JFloat (F.div (F.of_Z 8) (F.of_Z 10));
  axis_key := Channel;
  axis_value := Token;
  high_key_num_levels := 12;
  high_value_num_levels := 8;
  low_key_num_levels := 6;
  low_value_num_levels := 4;
  slot_count := 2;
  logical_blocks_per_chunk := 1;
  pipeline := ["transformer"; "quantizer"; "codec"]%string
|}.

(** ** Properties *)

Definition available (c : CompressionConfig) : bool := enabled c.

Definition is_raw_aggregate (c : CompressionConfig) : bool :=
  bool_decide (transport c = RawAggregate).

Definition in_pipeline (stage : string) (c : CompressionConfig) : bool :=
  bool_decide (stage ∈ pipeline c).

Definition uses_aggregate (c : CompressionConfig) : bool :=
  in_pipeline "aggregate" c.

Definition uses_transformer (c : CompressionConfig) : bool :=
  negb (uses_aggregate c) && in_pipeline "transformer" c.

Definition uses_quantizer (c : CompressionConfig) : bool :=
  negb (uses_aggregate c) && in_pipeline "quantizer" c.

Definition uses_codec (c : CompressionConfig) : bool :=
  negb (uses_aggregate c) && in_pipeline "codec" c.

(** ** The [raw_aggregate] key *)

Definition raw_aggregate_value (extra : list (string * json)) : option json :=
  match dget extra "raw_aggregate" with
  | Some raw => Some raw
  | None => dget extra "raw_agg"
  end.

Definition parse_raw_aggregate (extra : list (string * json)) :
    result (option (Z * Z)) :=
  match raw_aggregate_value extra with
  | None | Some JNull | Some (JBool false) => Ok None
  | Some raw =>
      let? d := match raw with
                | JBool true => Ok []
                | JDict d => Ok d
                | _ => Err (ValueError "raw_aggregate must be true or an object")
                end in
      raise_if (existsb (λ k, negb (bool_decide
                  (k ∈ ["slot_count"; "logical_blocks_per_chunk"]%string)))
                  (dkeys d))
        (ValueError "Unknown raw_aggregate parameters") ;?
      let? slots := py_int (default (JInt RAW_AGGREGATE_SLOT_COUNT)
                              (dget d "slot_count")) in
      let? blocks := py_int (default (JInt RAW_AGGREGATE_LOGICAL_BLOCKS_PER_CHUNK)
                               (dget d "logical_blocks_per_chunk")) in
      raise_if (slots <? 1)
        (ValueError "raw_aggregate.slot_count must be >= 1") ;?
      raise_if (blocks <? 1)
        (ValueError "raw_aggregate.logical_blocks_per_chunk must be >= 1") ;?
      Ok (Some (slots, blocks))
  end.

(** ** Validation of the compression object *)

Definition config_fields : list string :=
  ["transformer"; "seed"; "split_type"; "score_path"; "hybrid_ratio";
   "axis_key"; "axis_value"; "high_key_num_levels"; "high_value_num_levels";
   "low_key_num_levels"; "low_value_num_levels"; "codec"; "slot_count";
   "logical_blocks_per_chunk"; "pipeline"]%string.

(** [tuple(x)]: the elements of a list, the characters of a string, the keys
    of a dict. *)
Definition py_tuple (j : json) : result (list json) :=
  match j with
  | JList l => Ok l
  | JStr s => Ok ((λ c, JStr (String c EmptyString)) <$> String.list_ascii_of_string s)
  | JDict d => Ok (JStr <$> dkeys d)
  | _ => Err TypeError
  end.

Definition positive_int (j : json) (e : exn) : result Z :=
  match as_int j with
  | Some z => if z <? 1 then Err e else Ok z
  | None => Err e
  end.

Definition levels_ok (j : json) (e : exn) : result Z :=
  match as_int j with
  | Some z => if (2 <=? z) && (z <=? 256) then Ok z else Err e
  | None => Err e
  end.

Definition supported_stages : list string :=
  ["aggregate"; "transformer"; "quantizer"; "codec"]%string.

Definition known_stage (j : json) : bool :=
  match j with
  | JStr s => bool_decide (s ∈ supported_stages)
  | _ => false
  end.

(** The classes within which Python can order values. *)
Definition order_kind (j : json) : nat :=
  match j with
  | JStr _ => 0
  | JNull => 1
  | _ => 2
  end%nat.

(** The message of the unknown-stage error sorts the unknown stages, which
    itself raises when they are not mutually comparable. *)
Definition unknown_stage_error (unknown : list json) : exn :=
  match unknown with
  | j :: js => if forallb (λ j', Nat.eqb (order_kind j') (order_kind j)) js
               then ValueError "Unknown Mooncake compression stages" else TypeError
  | [] => TypeError
  end.

(** The stages must be known, unique and, without [aggregate], in the order
    transformer, quantizer, codec. A list or an object is not hashable. *)
Definition check_pipeline (p : list json) : result (list string) :=
  raise_if (existsb (λ j, match j with JList _ | JDict _ => true | _ => false end) p)
    TypeError ;?
  let unknown := List.filter (λ j, negb (known_stage j)) p in
  raise_if (match unknown with [] => false | _ => true end)
    (unknown_stage_error unknown) ;?
  let stages := omap as_str p in
  raise_if (negb (bool_decide (NoDup stages)))
    (ValueError "Mooncake compression stages must be unique.") ;?
  raise_if (negb (bool_decide ("aggregate"%string ∈ stages)) &&
            negb (bool_decide (stages =
              filter (λ s, s ∈ stages) ["transformer"; "quantizer"; "codec"]%string)))
    (ValueError "Mooncake compression stages must follow transformer, quantizer, codec order.") ;?
  Ok stages.

Definition split_type_of (j : json) : option SplitType :=
  s ← as_str j;
  if String.eqb s "head" then Some SplitHead
  else if String.eqb s "layer" then Some SplitLayer else None.

Definition axis_of (j : json) : option QuantAxis :=
  s ← as_str j;
  if String.eqb s "channel" then Some Channel
  else if String.eqb s "token" then Some Token
  else if String.eqb s "tensor" then Some Tensor else None.

(** [cls(enabled=True, transport="compression", ...normalized)] and the
    checks that follow it, in their order. *)
Definition config_of_fields (d : list (string * json)) : result CompressionConfig :=
  let field k dflt := default dflt (dget d k) in
  raise_if (existsb (λ k, negb (bool_decide (k ∈ config_fields))) (dkeys d)) TypeError ;?
  let? stages := match dget d "pipeline" with
                 | Some p => py_tuple p
                 | None => Ok (JStr <$> pipeline default_config)
                 end in
  raise_if (negb (bool_decide (as_str (field "transformer" (JStr "hadamard"))
                               = Some "hadamard"%string)))
    (ValueError "Mooncake compression only supports transformer='hadamard'.") ;?
  raise_if (negb (bool_decide (as_str (field "codec" (JStr "ans")) = Some "ans"%string)))
    (ValueError "Mooncake compression only supports codec='ans'.") ;?
  let? slots := positive_int (field "slot_count" (JInt 2))
                  (ValueError "Mooncake compression slot_count must be >= 1.") in
  let? blocks := positive_int (field "logical_blocks_per_chunk" (JInt 1))
                   (ValueError "Mooncake compression logical_blocks_per_chunk must be >= 1.") in
  let? p := check_pipeline stages in
  let ratio := field "hybrid_ratio" (hybrid_ratio default_config) in
  let? ok := of_option TypeError (between 0 1 ratio) in
  raise_if (negb ok)
    (ValueError "Mooncake compression hybrid_ratio must be in [0, 1].") ;?
  let lerr := ValueError "levels must be an integer in [2, 256]." in
  let? hk := levels_ok (field "high_key_num_levels" (JInt 12)) lerr in
  let? hv := levels_ok (field "high_value_num_levels" (JInt 8)) lerr in
  let? lk := levels_ok (field "low_key_num_levels" (JInt 6)) lerr in
  let? lv := levels_ok (field "low_value_num_levels" (JInt 4)) lerr in
  let? st := of_option (ValueError "Unsupported Mooncake compression split_type")
               (split_type_of (field "split_type" (JStr "layer"))) in
  let? ak := of_option (ValueError "Unsupported Mooncake key quantization axis")
               (axis_of (field "axis_key" (JStr "channel"))) in
  let? av := of_option (ValueError "Unsupported Mooncake value quantization axis")
               (axis_of (field "axis_value" (JStr "token"))) in
  Ok {| enabled := true;
        transport := Compression;
        seed := field "seed" (seed default_config);
        split_type := st;
        score_path := field "score_path" JNull;
        hybrid_ratio := ratio;
        axis_key := ak;
        axis_value := av;
        high_key_num_levels := hk;
        high_value_num_levels := hv;
        low_key_num_levels := lk;
        low_value_num_levels := lv;
        slot_count := slots;
        logical_blocks_per_chunk := blocks;
        pipeline := p |}.

Definition disabled_config : CompressionConfig := {|
  enabled := false;
  transport := Raw;
  seed := seed default_config;
  split_type := split_type default_config;
  score_path := score_path default_config;
  hybrid_ratio := hybrid_ratio default_config;
  axis_key := axis_key default_config;
  axis_value := axis_value default_config;
  high_key_num_levels := high_key_num_levels default_config;
  high_value_num_levels := high_value_num_levels default_config;
  low_key_num_levels := low_key_num_levels default_config;
  low_value_num_levels := low_value_num_levels default_config;
  slot_count := slot_count default_config;
  logical_blocks_per_chunk := logical_blocks_per_chunk default_config;
  pipeline := pipeline default_config
|}.

Definition aggregate_config (slots blocks : Z) : CompressionConfig := {|
  enabled := true;
  transport := RawAggregate;
  seed := seed default_config;
  split_type := split_type default_config;
  score_path := score_path default_config;
  hybrid_ratio := hybrid_ratio default_config;
  axis_key := axis_key default_config;
  axis_value := axis_value default_config;
  high_key_num_levels := high_key_num_levels default_config;
  high_value_num_levels := high_value_num_levels default_config;
  low_key_num_levels := low_key_num_levels default_config;
  low_value_num_levels := low_value_num_levels default_config;
  slot_count := slots;
  logical_blocks_per_chunk := blocks;
  pipeline := ["aggregate"%string]
|}.

(** [from_extra_config]: [warned] is the module global
    [_RAW_AGGREGATE_WARNING_EMITTED], threaded through. [None] and the empty
    object behave alike, so the argument is the object's entries. *)
Definition from_extra_config (warned : bool) (extra : list (string * json)) :
    result (bool * CompressionConfig) :=
  let? agg := parse_raw_aggregate extra in
  match agg with
  | Some (slots, blocks) =>
      let compression := match dget extra "compression" with
                         | Some j => if truthy j then j else JDict []
                         | None => JDict []
                         end in
      let? on := jget compression "enable-compression-pipeline" in
      let warn := truthy (default (JBool false) on) && negb warned in
      Ok (warned || warn, aggregate_config slots blocks)
  | None =>
      let raw := match dget extra "compression" with
                 | None | Some JNull => JDict []
                 | Some j => j
                 end in
      let? on := jget raw "enable-compression-pipeline" in
      if negb (truthy (default (JBool false) on)) then Ok (warned, disabled_config)
      else match raw with
           | JDict d =>
               let? c := config_of_fields (ddel d "enable-compression-pipeline"%string) in
               Ok (warned, c)
           | _ => Err AttributeError
           end
  end.

(** ** Well-formed configurations *)

(** What every consumer of a configuration relies on. *)
Record config_ok (c : CompressionConfig) : Prop := {
  ok_slots : 1 ≤ slot_count c;
  ok_blocks : 1 ≤ logical_blocks_per_chunk c;
  ok_hk : 2 ≤ high_key_num_levels c ≤ 256;
  ok_hv : 2 ≤ high_value_num_levels c ≤ 256;
  ok_lk : 2 ≤ low_key_num_levels c ≤ 256;
  ok_lv : 2 ≤ low_value_num_levels c ≤ 256;
  ok_stages : Forall (λ s, s ∈ supported_stages) (pipeline c);
  ok_unique : NoDup (pipeline c);
  ok_order : "aggregate"%string ∉ pipeline c →
    pipeline c `sublist_of` ["transformer"; "quantizer"; "codec"]%string;
  ok_ratio : between 0 1 (hybrid_ratio c) = Some true
}.

Lemma positive_int_Ok j e z : positive_int j e = Ok z → 1 ≤ z.
Proof.
  unfold positive_int. destruct (as_int j); [|done].
  case_bool; intros [= <-]; zbool; lia.
Qed.

Lemma levels_ok_Ok j e z : levels_ok j e = Ok z → 2 ≤ z ≤ 256.
Proof.
  unfold levels_ok. destruct (as_int j); [|done].
  case_bool; intros [= <-]; zbool; lia.
Qed.

Lemma check_pipeline_Ok p l :
  check_pipeline p = Ok l →
  Forall (λ s, s ∈ supported_stages) l ∧ NoDup l ∧
  ("aggregate"%string ∉ l → l `sublist_of` ["transformer"; "quantizer"; "codec"]%string).
Proof.
  unfold check_pipeline. intros. inv_ok. split_and!.
  - assert (Hk : ∀ j, In j p → known_stage j = true).
    { intros j Hj. destruct (known_stage j) eqn:E; [done|].
      assert (Hf : In j (List.filter (λ j, negb (known_stage j)) p))
        by (apply filter_In; by rewrite E).
      case_match; done. }
    apply Forall_forall. intros s Hs. apply list_elem_of_omap in Hs as (j & Hj & Hs).
    apply list_elem_of_In, Hk in Hj. destruct j; simpl in *; simplify_eq.
    by apply bool_decide_eq_true in Hj.
  - match goal with H : negb (bool_decide (NoDup _)) = false |- _ =>
      by apply negb_false_iff, bool_decide_eq_true in H end.
  - intros Hni. match goal with H : _ && _ = false |- _ =>
      rewrite (bool_decide_eq_false_2 _ Hni) in H; simpl in H;
      apply negb_false_iff, bool_decide_eq_true in H; rewrite H end.
    apply sublist_filter.
Qed.

Lemma config_of_fields_ok d c : config_of_fields d = Ok c → config_ok c ∧ enabled c = true.
Proof.
  unfold config_of_fields. intros. inv_ok.
  repeat match goal with
  | H : positive_int _ _ = Ok _ |- _ => apply positive_int_Ok in H
  | H : levels_ok _ _ = Ok _ |- _ => apply levels_ok_Ok in H
  | H : check_pipeline _ = Ok _ |- _ => apply check_pipeline_Ok in H as (? & ? & ?)
  end.
  split; [|done].
  assert (∀ o (b : bool), of_option TypeError o = Ok b → negb b = false → o = Some true)
    by (intros [[]|] []; simpl; congruence).
  constructor; try done. eauto.
Qed.

Lemma disabled_config_ok : config_ok disabled_config.
Proof.
  constructor; try (simpl; lia); try done.
  - apply (bool_decide_unpack _). vm_compute. done.
  - apply (bool_decide_unpack _). vm_compute. done.
Qed.

Lemma aggregate_config_ok slots blocks :
  1 ≤ slots → 1 ≤ blocks → config_ok (aggregate_config slots blocks).
Proof.
  intros. constructor; try (simpl; lia); try done.
  - apply (bool_decide_unpack _). vm_compute. done.
  - apply (bool_decide_unpack _). vm_compute. done.
  - simpl. set_solver.
Qed.

Lemma parse_raw_aggregate_Ok extra slots blocks :
  parse_raw_aggregate extra = Ok (Some (slots, blocks)) → 1 ≤ slots ∧ 1 ≤ blocks.
Proof.
  unfold parse_raw_aggregate. intros H.
  repeat case_match; inv_ok; simplify_eq; zbool; try discriminate; lia.
Qed.

(** C1 Whatever JSON object a deployment supplies, [from_extra_config] either
    raises or returns a configuration the rest of the runtime can rely on: at
    least one slot and one block per chunk, quantization levels in [2, 256],
    known and unique stages, in pipeline order when there is no [aggregate]
    stage, and a [hybrid_ratio] between 0 and 1. *)
Theorem from_extra_config_ok warned extra warned' c :
  from_extra_config warned extra = Ok (warned', c) → config_ok c.
Proof.
  unfold from_extra_config. intros H. inv_ok.
  destruct x as [[slots blocks]|]; inv_ok; simplify_eq.
  - match goal with H : parse_raw_aggregate _ = _ |- _ =>
      apply parse_raw_aggregate_Ok in H as [??] end. by apply aggregate_config_ok.
  - case_bool; [simplify_eq; apply disabled_config_ok|].
    case_match; inv_ok; simplify_eq.
    match goal with H : config_of_fields _ = _ |- _ =>
      by apply config_of_fields_ok in H as [??] end.
Qed.

Definition sample_extra : list (string * json) :=
  [("compression", JDict [("enable-compression-pipeline", JBool true);
                          ("split_type", JStr "head");
                          ("slot_count", JInt 4);
                          ("pipeline", JList [JStr "quantizer"; JStr "codec"])])]%string.

Lemma from_extra_config_ok_witness :
  ∃ c, from_extra_config false sample_extra = Ok (false, c) ∧ slot_count c = 4 ∧ config_ok c.
Proof.
  eexists. split; [vm_compute; reflexivity|]. split; [reflexivity|].
  eapply (from_extra_config_ok false sample_extra false). vm_compute. reflexivity.
Defined.

(** An enabled [raw_aggregate] key has priority over every compression
    setting and over the [raw_agg] alias: the result is the aggregate
    configuration, and exactly the aggregate stage is in use. *)
Theorem raw_aggregate_wins warned extra slots blocks :
  parse_raw_aggregate extra = Ok (Some (slots, blocks)) →
  (∀ j, dget extra "compression"%string = Some j → truthy j = true → ∃ d, j = JDict d) →
  ∃ warned', from_extra_config warned extra = Ok (warned', aggregate_config slots blocks) ∧
    uses_aggregate (aggregate_config slots blocks) = true ∧
    uses_transformer (aggregate_config slots blocks) = false ∧
    uses_quantizer (aggregate_config slots blocks) = false ∧
    uses_codec (aggregate_config slots blocks) = false.
Proof.
  intros Hp Hd. unfold from_extra_config. rewrite Hp. simpl.
  destruct (dget extra "compression"%string) as [j|] eqn:E; simpl.
  - destruct (truthy j) eqn:Et; [destruct (Hd j eq_refl Et) as [d ->]|];
      simpl; eexists; split_and!; reflexivity.
  - eexists; split_and!; reflexivity.
Qed.

Lemma raw_aggregate_wins_witness :
  ∃ warned', from_extra_config false
    (("raw_agg", JBool true) :: sample_extra)%string
    = Ok (warned', aggregate_config 2 160) ∧ uses_codec (aggregate_config 2 160) = false.
Proof.
  destruct (raw_aggregate_wins false (("raw_agg", JBool true) :: sample_extra)%string 2 160)
    as (w & H & _ & _ & _ & Hc).
  - vm_compute. reflexivity.
  - intros j Hj _. vm_compute in Hj. injection Hj as <-. eexists. reflexivity.
  - exists w. split; [exact H|exact Hc].
Defined.
