(* ===== verification/RtLayout.v ===== *)
(** * The compression layout

    [kvserve_v1/compression/runtime/spec.py] and [layout.py]: where every
    layer's K and V data, its quantized bytes and its quantization parameters
    live in a slot's arenas. [build_compression_layout] is followed loop by
    loop; the theorems show that the regions it places are in bounds and do
    not overlap, that the sections of a part cover its heads, and exactly
    when it raises. *)

From S2P Require Import Prelude PyData RtConfig.

(** ** spec.py *)

Definition round_up (value alignment : Z) : Z :=
  (value + alignment - 1) / alignment * alignment.

(** The only fact about a dtype the code uses is whether it is bfloat16,
    whose item size is 2. *)
Inductive Dtype := BFloat16 | OtherDtype (name : string).

#[global] Instance Dtype_eq_dec : EqDecision Dtype.
Proof. solve_decision. Defined.

Record CacheSpec := mkSpec {
  layer_index : Z;
  block_size : Z;
  num_kv_heads : Z;
  head_size : Z;
  dtype : Dtype;
  head_size_v : Z
}.

(** The dataclass constructor with its [__post_init__]: an absent
    [head_size_v] is [head_size]. *)
Definition make_spec (li bs heads hs : Z) (dt : Dtype) (hv : option Z) : CacheSpec :=
  {| layer_index := li; block_size := bs; num_kv_heads := heads; head_size := hs;
     dtype := dt; head_size_v := default hs hv |}.

(** ** layout.py: data *)

Definition ALIGNMENT : Z := 256.

(** [KVPart = Literal[0, 1]]. *)
Inductive KVPart := KPart | VPart.

#[global] Instance KVPart_eq_dec : EqDecision KVPart.
Proof. solve_decision. Defined.

(** A two-element list indexed by the part. *)
Definition sel {A} (p : KVPart) (x : A * A) : A :=
  match p with KPart => x.1 | VPart => x.2 end.

Definition upd {A} (p : KVPart) (v : A) (x : A * A) : A * A :=
  match p with KPart => (v, x.2) | VPart => (x.1, v) end.

Record QuantSection := mkSection {
  head_start : Z;
  head_count : Z;
  num_levels : Z;
  axis : QuantAxis;
  aux_min_offset : Z;
  aux_scale_offset : Z
}.

Record LayerPartLayout := mkPart {
  layer_name : string;
  part_layer_index : Z;
  kv_part : KVPart;
  group_index : Z;
  part_block_size : Z;
  num_heads : Z;
  part_head_size : Z;
  part_dtype : Dtype;
  raw_offset : Z;
  raw_bytes : Z;
  u8_offset : Z;
  sections : list QuantSection
}.

Record CompressionLayout := mkLayout {
  layer_parts : list LayerPartLayout;
  raw_bytes_by_part : Z * Z;
  u8_bytes_by_part : Z * Z;
  packed_bytes_by_part : Z * Z;
  aux_bytes_by_part : Z * Z;
  arena_bytes : Z;
  scratch_stride : Z;
  u8_base : Z;
  aux_arena_bytes : Z;
  fa_group_indices : gset Z;
  index_rows_by_group : gmap Z Z;
  aggregate : bool
}.

Definition parts (l : CompressionLayout) (p : KVPart) : list LayerPartLayout :=
  filter (λ x, kv_part x = p) (layer_parts l).

Definition raw_tail_capacity (l : CompressionLayout) : Z :=
  if aggregate l then 0
  else
    let cap p := sumZ ((λ x, (part_block_size x - 1) * num_heads x *
                             part_head_size x * 2) <$> parts l p) in
    round_up (Z.max (cap KPart) (cap VPart)) ALIGNMENT.

(** The two methods that read a token count per group raise [KeyError] on a
    missing group; here the counts are a total function. *)
Definition raw_tail_bytes (l : CompressionLayout) (p : KVPart) (tokens : Z → Z) : Z :=
  sumZ ((λ x, (tokens (group_index x) mod part_block_size x) * num_heads x *
              part_head_size x * 2) <$> parts l p).

Definition has_body (l : CompressionLayout) (tokens : Z → Z) : bool :=
  existsb (λ x, part_block_size x <=? tokens (group_index x)) (parts l KPart).

(** ** layout.py: placement *)

Definition prod4 (s : Z * Z * Z * Z) : Z :=
  let '(a, b, c, d) := s in a * b * c * d.

Definition reduction_shape (ax : QuantAxis) (shape : Z * Z * Z * Z) : Z * Z * Z * Z :=
  let '(blocks, tokens, heads, head_size) := shape in
  match ax with
  | Channel => (1, 1, heads, head_size)
  | Token => (blocks, tokens, 1, 1)
  | Tensor => (1, 1, 1, 1)
  end.

(** The float literal [0.33]. *)
Definition f_033 : float := F.make 5944751508129055 (-54).

Definition split_counts (config : CompressionConfig) (li heads : Z)
    (low_head_counts : gmap Z Z) (num_model_layers : Z) : result (Z * Z) :=
  match split_type config with
  | SplitHead =>
      let? low := of_option KeyError (low_head_counts !! li) in
      Ok (low, heads - low)
  | SplitLayer =>
      let? low_layer_count := of_option (ValueError "cannot convert float to integer")
        (F.round (F.mul (F.of_Z num_model_layers) f_033)) in
      let is_low := (0 <? low_layer_count) && (num_model_layers - low_layer_count <=? li) in
      Ok (if is_low then (heads, 0) else (0, heads))
  end.

(** The two sections of a part, [low] heads first. The state is the part's
    [aux_offsets] cell, the next head and the sections so far. *)
Definition place_section (ax : QuantAxis) (chunk_blocks bs hs : Z)
    (st : Z * Z * list QuantSection) (hl : Z * Z) : Z * Z * list QuantSection :=
  let '(aux, start, secs) := st in
  let '(count, levels) := hl in
  if count =? 0 then st
  else
    let shape := (chunk_blocks, bs, count, hs) in
    let aux_nbytes := prod4 (reduction_shape ax shape) * 2 in
    let min_offset := round_up aux ALIGNMENT in
    let scale_offset := round_up (min_offset + aux_nbytes) ALIGNMENT in
    (scale_offset + aux_nbytes, start + count,
     secs ++ [mkSection start count levels ax min_offset scale_offset]).

(** The mutable state of [build_compression_layout]. *)
Record build_state := mkBuild {
  raw_offsets : Z * Z;
  u8_offsets : Z * Z;
  aux_offsets : Z * Z;
  built_parts : list LayerPartLayout;
  fa_groups : gset Z
}.

(** The body of the loop over the K and V parts of one layer. *)
Definition place_part (config : CompressionConfig) (name : string) (spec : CacheSpec)
    (group low_heads high_heads : Z) (st : build_state)
    (pp : KVPart * Z * QuantAxis * Z * Z) : build_state :=
  let '(p, hs, ax, low_levels, high_levels) := pp in
  let chunk_blocks := logical_blocks_per_chunk config in
  let layer_numel := chunk_blocks * block_size spec * num_kv_heads spec * hs in
  let '(aux, _, secs) :=
    foldl (place_section ax chunk_blocks (block_size spec) hs)
      (sel p (aux_offsets st), 0, [])
      [(low_heads, low_levels); (high_heads, high_levels)] in
  {| raw_offsets := upd p (sel p (raw_offsets st) + layer_numel * 2) (raw_offsets st);
     u8_offsets := upd p (sel p (u8_offsets st) + layer_numel) (u8_offsets st);
     aux_offsets := upd p aux (aux_offsets st);
     built_parts := built_parts st ++
       [{| layer_name := name;
           part_layer_index := layer_index spec;
           kv_part := p;
           group_index := group;
           part_block_size := block_size spec;
           num_heads := num_kv_heads spec;
           part_head_size := hs;
           part_dtype := dtype spec;
           raw_offset := 0;
           raw_bytes := layer_numel * 2;
           u8_offset := sel p (u8_offsets st);
           sections := secs |}];
     fa_groups := fa_groups st |}.

Definition part_params (config : CompressionConfig) (spec : CacheSpec) :
    list (KVPart * Z * QuantAxis * Z * Z) :=
  [(KPart, head_size spec, axis_key config,
    low_key_num_levels config, high_key_num_levels config);
   (VPart, head_size_v spec, axis_value config,
    low_value_num_levels config, high_value_num_levels config)].

(** The body of the loop over the layers. *)
Definition place_layer (config : CompressionConfig) (low_head_counts : gmap Z Z)
    (num_model_layers : Z) (group_indices : gmap string Z)
    (st : build_state) (e : string * CacheSpec) : result build_state :=
  let '(name, spec) := e in
  let group := default 0 (group_indices !! name) in
  let st := {| raw_offsets := raw_offsets st; u8_offsets := u8_offsets st;
               aux_offsets := aux_offsets st; built_parts := built_parts st;
               fa_groups := fa_groups st ∪ {[group]} |} in
  let? (low, high) := split_counts config (layer_index spec) (num_kv_heads spec)
                         low_head_counts num_model_layers in
  Ok (foldl (place_part config name spec group low high) st (part_params config spec)).

Definition is_pow2 (size : Z) : bool :=
  negb ((size <? 1) || negb (Z.land size (size - 1) =? 0)).

(** The checks on the sorted cache specs, before any placement. *)
Definition check_specs (config : CompressionConfig) (specs : list (string * CacheSpec)) :
    result unit :=
  raise_if (match specs with [] => true | _ => false end)
    (ValueError "Mooncake compression requires FullAttention KV caches") ;?
  raise_if (negb (length (remove_dups ((λ e, block_size e.2) <$> specs)) =? 1)%nat)
    (ValueError "Mooncake compression requires a common logical block size") ;?
  rfold (λ _ e,
    raise_if (uses_transformer config &&
              negb (is_pow2 (head_size e.2) && is_pow2 (head_size_v e.2)))
      (ValueError "Hadamard compression requires power-of-two head sizes") ;?
    raise_if (negb (bool_decide (dtype e.2 = BFloat16)))
      (ValueError "Mooncake compression currently supports only BF16 KV caches"))
    () specs.

Definition spec_scratch (chunk_blocks : Z) (spec : CacheSpec) : Z :=
  Z.max (chunk_blocks * block_size spec * num_kv_heads spec * head_size spec * 2)
        (chunk_blocks * block_size spec * num_kv_heads spec * head_size_v spec * 2).

Fixpoint max_over {A} (f : A → Z) (x : A) (l : list A) : Z :=
  match l with
  | [] => f x
  | y :: l => Z.max (f x) (max_over f y l)
  end.

Definition rows_of (groups : gset Z) : gmap Z Z :=
  list_to_map (imap (λ row g, (g, Z.of_nat row)) (isort Z.leb (elements groups))).

(** The end of [build_compression_layout], from the loop's final state. *)
Definition finish_layout (config : CompressionConfig) (stride : Z)
    (st : build_state) : CompressionLayout :=
  let base := round_up (2 * stride) ALIGNMENT in
  let raw_by_part := raw_offsets st in
  let u8_by_part := u8_offsets st in
  let aux_by_part := (round_up (aux_offsets st).1 ALIGNMENT,
                      round_up (aux_offsets st).2 ALIGNMENT) in
  let agg := in_pipeline "aggregate" config in
  let quant := in_pipeline "quantizer" config && negb agg in
  let packed_by_part := if quant then u8_by_part else raw_by_part in
  {| layer_parts := built_parts st;
     raw_bytes_by_part := raw_by_part;
     u8_bytes_by_part := u8_by_part;
     packed_bytes_by_part := packed_by_part;
     aux_bytes_by_part := aux_by_part;
     arena_bytes :=
       if agg then round_up (Z.max raw_by_part.1 raw_by_part.2) ALIGNMENT
       else round_up (Z.max (2 * stride)
                        (base + Z.max packed_by_part.1 packed_by_part.2)) ALIGNMENT;
     scratch_stride := stride;
     u8_base := base;
     aux_arena_bytes :=
       if agg || negb quant then 0 else 2 * Z.max aux_by_part.1 aux_by_part.2;
     fa_group_indices := fa_groups st;
     index_rows_by_group := rows_of (fa_groups st);
     aggregate := agg |}.

Definition init_build : build_state :=
  {| raw_offsets := (0, 0); u8_offsets := (0, 0); aux_offsets := (0, 0);
     built_parts := []; fa_groups := ∅ |}.

(** [specs] is the dict's item list, in insertion order. *)
Definition build_compression_layout (specs : list (string * CacheSpec))
    (config : CompressionConfig) (low_head_counts : gmap Z Z)
    (num_model_layers : Z) (group_indices : gmap string Z) : result CompressionLayout :=
  let fa_specs := isort (λ a b, layer_index a.2 <=? layer_index b.2) specs in
  check_specs config fa_specs ;?
  match fa_specs with
  | [] => Err (ValueError "max() arg is an empty sequence")
  | e :: es =>
      let stride := round_up
        (max_over (λ e, spec_scratch (logical_blocks_per_chunk config) e.2) e es) ALIGNMENT in
      let? st := rfold (place_layer config low_head_counts num_model_layers group_indices)
                   init_build fa_specs in
      Ok (finish_layout config stride st)
  end.

(** A two-layer model: 8 KV heads of size 64, blocks of 16 tokens. *)
Definition ex_specs : list (string * CacheSpec) :=
  [("model.layers.1.attn", make_spec 1 16 8 64 BFloat16 None);
   ("model.layers.0.attn", make_spec 0 16 8 64 BFloat16 (Some 32))]%string.

Definition ex_config : CompressionConfig := {|
  enabled := true; transport := Compression; seed := JInt 1; split_type := SplitHead;
  score_path := JNull; hybrid_ratio := JInt 1; axis_key := Channel; axis_value := Token;
  high_key_num_levels := 12; high_value_num_levels := 8; low_key_num_levels := 6;
  low_value_num_levels := 4; slot_count := 2; logical_blocks_per_chunk := 2;
  pipeline := ["transformer"; "quantizer"; "codec"]%string |}.

Definition ex_low : gmap Z Z := {[0 := 3; 1 := 8]}.

Example ex_layout_arena :
  arena_bytes <$> (match build_compression_layout ex_specs ex_config ex_low 2 ∅ with
                   | Ok l => Some l | Err _ => None end) = Some (65536 + 32768).
Proof. vm_compute. reflexivity. Qed.

Example round_layers : F.round (F.mul (F.of_Z 50) f_033) = Some 16.
Proof. vm_compute. reflexivity. Qed.

(** ** Alignment *)

Section round_up.
Context (a : Z) (Ha : 0 < a).

Lemma round_up_ge x : x ≤ round_up x a.
  Proof using Ha.
    unfold round_up. pose proof (Z.div_mod (x + a - 1) a).
    pose proof (Z.mod_pos_bound (x + a - 1) a). nia.
  Qed.

Lemma round_up_lt x : round_up x a < x + a.
  Proof using Ha.
    unfold round_up. pose proof (Z.div_mod (x + a - 1) a).
    pose proof (Z.mod_pos_bound (x + a - 1) a). nia.
  Qed.

Lemma round_up_divide x : (a | round_up x a).
  Proof using Type. apply Z.divide_factor_r. Qed.

Lemma round_up_id x : (a | x) → round_up x a = x.
  Proof using Ha.
    intros [k ->]. unfold round_up.
    replace (k * a + a - 1) with (a - 1 + k * a) by lia.
    rewrite Z.div_add by lia. rewrite Z.div_small; lia.
  Qed.

Lemma round_up_mono x y : x ≤ y → round_up x a ≤ round_up y a.
  Proof using Ha.
    intros. unfold round_up. apply Z.mul_le_mono_nonneg_r; [lia|].
    apply Z.div_le_mono; lia.
  Qed.

  (** [round_up x a] is the least multiple of [a] that is at least [x]. *)
Lemma round_up_least x y : x ≤ y → (a | y) → round_up x a ≤ y.
  Proof using Ha. intros ? H. rewrite <- (round_up_id y H). by apply round_up_mono. Qed.
End round_up.

Lemma ALIGNMENT_pos : 0 < ALIGNMENT.
Proof. done. Qed.
#[export] Hint Resolve ALIGNMENT_pos round_up_ge round_up_divide : kvs.

(** Pose the bounds of every [round_up] of the goal or the context. *)
Ltac round_up_facts :=
  repeat match goal with
  | |- context [round_up ?x ALIGNMENT] =>
      lazymatch goal with
      | _ : x ≤ round_up x ALIGNMENT |- _ => fail
      | _ => pose proof (round_up_ge ALIGNMENT ALIGNMENT_pos x)
      end
  | _ : context [round_up ?x ALIGNMENT] |- _ =>
      lazymatch goal with
      | _ : x ≤ round_up x ALIGNMENT |- _ => fail
      | _ => pose proof (round_up_ge ALIGNMENT ALIGNMENT_pos x)
      end
  end.

(** ** Regions of a layout *)

(** The number of elements of a part: its raw bytes are 16-bit elements. *)
Definition part_numel (x : LayerPartLayout) : Z := raw_bytes x / 2.

Definition u8_regions (l : list LayerPartLayout) : list (Z * Z) :=
  (λ x, (u8_offset x, part_numel x)) <$> l.

(** The bytes of one parameter tensor (minimum or scale) of a section. *)
Definition section_aux_bytes (chunk_blocks : Z) (x : LayerPartLayout) (s : QuantSection) : Z :=
  prod4 (reduction_shape (axis s)
    (chunk_blocks, part_block_size x, head_count s, part_head_size x)) * 2.

Definition section_regions (n : QuantSection → Z) (l : list QuantSection) : list (Z * Z) :=
  l ≫= λ s, [(aux_min_offset s, n s); (aux_scale_offset s, n s)].

Definition aux_regions (chunk_blocks : Z) (l : list LayerPartLayout) : list (Z * Z) :=
  l ≫= λ x, section_regions (section_aux_bytes chunk_blocks x) (sections x).

Definition head_ranges (x : LayerPartLayout) : list (Z * Z) :=
  (λ s, (head_start s, head_count s)) <$> sections x.

(** A cache geometry vLLM can produce. *)
Record spec_ok (s : CacheSpec) : Prop := {
  spec_block : 0 < block_size s;
  spec_heads : 0 < num_kv_heads s;
  spec_size : 0 < head_size s;
  spec_size_v : 0 < head_size_v s
}.

(** ** Placement of the sections of a part *)

Section sections_of_part.
Context (ax : QuantAxis) (cb bs hs : Z).
Context (Hcb : 0 < cb) (Hbs : 0 < bs) (Hhs : 0 < hs).

Let nbytes (s : QuantSection) : Z :=
    prod4 (reduction_shape (axis s) (cb, bs, head_count s, hs)) * 2.

Lemma nbytes_nonneg s : 0 ≤ head_count s → 0 ≤ nbytes s.
  Proof using Hbs Hcb Hhs. unfold nbytes. destruct (axis s); simpl; nia. Qed.

  (** The loop invariant over the sections already placed. *)
Definition sections_inv (aux0 : Z) (st : Z * Z * list QuantSection) : Prop :=
    let '(aux, start, secs) := st in
    packed aux0 (section_regions nbytes secs) aux ∧
    tiled 0 ((λ s, (head_start s, head_count s)) <$> secs) start ∧
    Forall (λ s, axis s = ax ∧ (ALIGNMENT | aux_min_offset s) ∧
                 (ALIGNMENT | aux_scale_offset s)) secs.

Lemma place_section_inv aux0 st hl :
    0 ≤ hl.1 → sections_inv aux0 st → sections_inv aux0 (place_section ax cb bs hs st hl).
  Proof using Hbs Hcb Hhs.
    destruct st as [[aux start] secs], hl as [count levels]; simpl.
    intros Hc (Hp & Ht & Ha). unfold place_section. case_bool; [done|]. zbool.
    set (s := mkSection _ _ _ _ _ _).
    assert (0 ≤ nbytes s) by (apply nbytes_nonneg; simpl; lia).
    unfold sections_inv. split_and!.
    - unfold section_regions. rewrite bind_app.
      eapply packed_app; [exact Hp|]. unfold s, nbytes in *; simpl in *.
      round_up_facts. split_and!; lia.
    - rewrite fmap_app. apply tiled_snoc; [done|lia].
    - apply Forall_app. split; [done|]. constructor; [|done]. simpl.
      auto with kvs.
  Qed.

Lemma place_sections_inv aux0 low high ll hl st :
    0 ≤ low → 0 ≤ high →
    foldl (place_section ax cb bs hs) (aux0, 0, []) [(low, ll); (high, hl)] = st →
    sections_inv aux0 st ∧ st.1.2 = low + high.
  Proof using Hbs Hcb Hhs.
    intros ?? <-. split.
    - cbn [foldl]. do 2 (apply place_section_inv; [done|]).
      unfold sections_inv; simpl. auto with lia.
    - simpl. unfold place_section. repeat (case_bool; zbool; simpl); lia.
  Qed.
End sections_of_part.

(** ** The loop invariant of the placement *)

Lemma sel_upd_eq {A} p (v : A) x : sel p (upd p v x) = v.
Proof. by destruct p. Qed.

Lemma sel_upd_ne {A} p q (v : A) x : p ≠ q → sel q (upd p v x) = sel q x.
Proof. by destruct p, q. Qed.

Section build_inv.
Context (config : CompressionConfig) (low_head_counts : gmap Z Z).
Context (num_model_layers : Z) (group_indices : gmap string Z) (stride : Z).
Context (Hcb : 1 ≤ logical_blocks_per_chunk config).

#[local] Notation cb := (logical_blocks_per_chunk config).

Definition of_part (p : KVPart) (l : list LayerPartLayout) : list LayerPartLayout :=
    filter (λ x, kv_part x = p) l.

  (** What holds of every placed part. *)
Record part_ok (x : LayerPartLayout) : Prop := {
    part_bs : 0 < part_block_size x;
    part_nh : 0 < num_heads x;
    part_hs : 0 < part_head_size x;
    part_raw0 : raw_offset x = 0;
    part_raw : raw_bytes x = cb * part_block_size x * num_heads x * part_head_size x * 2;
    part_scratch : raw_bytes x ≤ stride;
    part_heads : tiled 0 (head_ranges x) (num_heads x);
    part_aligned : Forall (λ s, (ALIGNMENT | aux_min_offset s) ∧
                                (ALIGNMENT | aux_scale_offset s)) (sections x)
  }.

Record build_inv (st : build_state) : Prop := {
    inv_parts : Forall part_ok (built_parts st);
    inv_u8 : ∀ p, packed 0 (u8_regions (of_part p (built_parts st))) (sel p (u8_offsets st));
    inv_aux : ∀ p, packed 0 (aux_regions cb (of_part p (built_parts st)))
                     (sel p (aux_offsets st));
    inv_raw : ∀ p, sel p (raw_offsets st) = 2 * sel p (u8_offsets st)
  }.

Lemma build_inv_init : build_inv init_build.
  Proof using Type.
    constructor; [constructor|intros []; simpl; lia..].
  Qed.

Lemma part_numel_eq x :
    part_ok x → part_numel x = cb * part_block_size x * num_heads x * part_head_size x.
  Proof using Type.
    intros Hx. unfold part_numel. rewrite (part_raw x Hx). by rewrite Z.div_mul.
  Qed.

Lemma part_numel_pos x : part_ok x → 0 < part_numel x.
  Proof using Hcb.
    intros Hx. rewrite part_numel_eq by done. destruct Hx. nia.
  Qed.

Lemma place_part_inv name spec group low high st p hs ax ll hl :
    0 < block_size spec → 0 < num_kv_heads spec → 0 < hs →
    0 ≤ low → 0 ≤ high → low + high = num_kv_heads spec →
    cb * block_size spec * num_kv_heads spec * hs * 2 ≤ stride →
    build_inv st →
    build_inv (place_part config name spec group low high st (p, hs, ax, ll, hl)).
  Proof using Hcb.
    intros Hbs Hnh Hhs Hlow Hhigh Hsum Hstride [Hparts Hu8 Haux Hraw].
    unfold place_part.
    destruct (foldl _ _ _) as [[aux start] secs] eqn:E.
    apply place_sections_inv in E; [|lia..].
    destruct E as [(Hp & Ht & Ha) Hst]. simpl in Hst.
    set (x := {| layer_name := name |}).
    assert (Hx : part_ok x).
    { constructor; simpl; try done; try lia.
      - rewrite <- Hsum, <- Hst. exact Ht.
      - eapply Forall_impl; [exact Ha|]. naive_solver. }
    assert (Hn := part_numel_eq x Hx). assert (Hpos := part_numel_pos x Hx). simpl in Hn.
    constructor; simpl.
    - apply Forall_app. auto.
    - intros q. unfold of_part. rewrite filter_app, filter_cons, filter_nil. simpl.
      case_decide; simplify_eq.
      + rewrite sel_upd_eq. unfold u8_regions. rewrite fmap_app.
        eapply packed_app; [apply Hu8|]. simpl. lia.
      + rewrite app_nil_r, sel_upd_ne by done. apply Hu8.
    - intros q. unfold of_part. rewrite filter_app, filter_cons, filter_nil. simpl.
      case_decide; simplify_eq.
      + rewrite sel_upd_eq. unfold aux_regions. rewrite bind_app.
        eapply packed_app; [apply Haux|]. simpl. rewrite app_nil_r. exact Hp.
      + rewrite app_nil_r, sel_upd_ne by done. apply Haux.
    - intros q. destruct (decide (p = q)) as [->|].
      + rewrite !sel_upd_eq, Hraw. lia.
      + by rewrite !sel_upd_ne.
  Qed.

  (** The layer loop: the head split must be a split of the layer's heads. *)
Definition split_ok (e : string * CacheSpec) : Prop :=
    ∀ low high, split_counts config (layer_index e.2) (num_kv_heads e.2)
      low_head_counts num_model_layers = Ok (low, high) →
      0 ≤ low ∧ 0 ≤ high ∧ low + high = num_kv_heads e.2.

Lemma place_layer_inv st e st' :
    spec_ok e.2 → split_ok e → spec_scratch cb e.2 ≤ stride →
    build_inv st →
    place_layer config low_head_counts num_model_layers group_indices st e = Ok st' →
    build_inv st'.
  Proof using Hcb.
    destruct e as [name spec]. intros [] Hsplit Hs Hinv H. unfold place_layer in H.
    inv_ok. destruct x as [low high]. cbn beta iota in *. inv_ok.
    unfold spec_scratch in Hs. cbn [fst snd] in *.
    edestruct Hsplit as (? & ? & ?); [eassumption|]. cbn [fst snd] in *.
    cbn [foldl part_params].
    do 2 (apply place_part_inv; try done; try lia). simpl. split; apply Hinv.
  Qed.

Lemma place_layers_inv l st st' :
    Forall (λ e, spec_ok e.2 ∧ split_ok e ∧ spec_scratch cb e.2 ≤ stride) l →
    build_inv st →
    rfold (place_layer config low_head_counts num_model_layers group_indices) st l = Ok st' →
    build_inv st'.
  Proof using Hcb.
    intros Hl. revert st. induction Hl as [|e l (? & ? & ?) Hl IH]; simpl; intros st ? ?;
      inv_ok; [done|]. eauto using place_layer_inv.
  Qed.
End build_inv.

Lemma max_over_ge {A} (f : A → Z) x l y : y ∈ x :: l → f y ≤ max_over f x l.
Proof.
  revert x. induction l as [|z l IH]; simpl; intros x Hin.
  - apply list_elem_of_singleton in Hin as ->. lia.
  - apply elem_of_cons in Hin as [->|Hin]; [lia|]. specialize (IH _ Hin). lia.
Qed.

Section built.
Context (specs : list (string * CacheSpec)) (config : CompressionConfig).
Context (low_head_counts : gmap Z Z) (n : Z) (groups : gmap string Z).
Context (l : CompressionLayout).

  (** The hypotheses under which the layout is used: a validated
      configuration, cache geometries with positive sizes, and a head
      selection that splits the heads of every layer. *)
Record build_ok : Prop := {
    build_config : config_ok config;
    build_specs : Forall (λ e, spec_ok e.2) specs;
    build_split : ∀ li low, low_head_counts !! li = Some low →
      ∀ e, e ∈ specs → layer_index e.2 = li → 0 ≤ low ≤ num_kv_heads e.2;
    build_result : build_compression_layout specs config low_head_counts n groups = Ok l
  }.

  (** Every layout is [finish_layout] of a state that satisfies the loop
      invariant, with a scratch stride that holds the largest layer part. *)
Lemma built_inv :
    build_ok →
    ∃ stride st, l = finish_layout config stride st ∧ (ALIGNMENT | stride) ∧ 0 ≤ stride ∧
      build_inv config stride st.
  Proof.
    intros [Hc Hs Hlow H]. unfold build_compression_layout in H. inv_ok.
    set (fa := isort _ specs) in *. destruct fa as [|e es] eqn:Efa; inv_ok.
    match goal with H : rfold _ _ _ = Ok ?s |- _ => rename H into Hf; exists (round_up
      (max_over (λ e, spec_scratch (logical_blocks_per_chunk config) e.2) e es) ALIGNMENT), s
    end.
    assert (Hin : ∀ e', e' ∈ e :: es → e' ∈ specs).
    { intros e' He'. rewrite <- Efa in He'. subst fa. by rewrite isort_perm in He'. }
    rewrite Forall_forall in Hs. assert (He := Hs e (Hin e ltac:(left))).
    assert (1 ≤ logical_blocks_per_chunk config) by apply Hc.
    split_and!; [done|auto with kvs|..].
    - pose proof (max_over_ge (λ e, spec_scratch (logical_blocks_per_chunk config) e.2)
        e es e ltac:(left)) as Hm. simpl in Hm. round_up_facts.
      unfold spec_scratch in Hm at 1. destruct He. nia.
    - eapply place_layers_inv; [done| |apply build_inv_init|exact Hf].
      apply Forall_forall. intros e' He'. split_and!; [by apply Hs, Hin|..].
      + intros low high Hsp. unfold split_counts in Hsp. case_match; inv_ok; simplify_eq.
        * destruct (low_head_counts !! _) eqn:E; simpl in *; simplify_eq.
          destruct (Hlow _ _ E e' (Hin _ He') eq_refl). lia.
        * destruct (Hs e' (Hin _ He')). repeat case_bool; simplify_eq; lia.
      + pose proof (max_over_ge (λ e, spec_scratch (logical_blocks_per_chunk config) e.2)
          e es e' He') as Hm. simpl in Hm. round_up_facts. lia.
  Qed.
End built.

(** ** Properties of every built layout *)

Lemma of_part_elem (f : list LayerPartLayout) p x : x ∈ of_part p f → x ∈ f ∧ kv_part x = p.
Proof. unfold of_part. rewrite list_elem_of_filter. naive_solver. Qed.

(** The regions of a layout never overlap. For K and for V, the quantized
    bytes of the layers follow one another inside [u8_bytes_by_part], and the
    minimum and scale tensors of every section follow one another inside
    [aux_bytes_by_part], at 256-byte aligned offsets. *)
Theorem layout_regions_packed specs config low n groups l :
  build_ok specs config low n groups l →
  ∀ p,
    packed 0 (u8_regions (parts l p)) (sel p (u8_bytes_by_part l)) ∧
    packed 0 (aux_regions (logical_blocks_per_chunk config) (parts l p))
      (sel p (aux_bytes_by_part l)) ∧
    Forall (λ x, Forall (λ s, (ALIGNMENT | aux_min_offset s) ∧
                              (ALIGNMENT | aux_scale_offset s)) (sections x)) (parts l p).
Proof.
  intros H p. destruct (built_inv _ _ _ _ _ _ H) as (stride & st & -> & _ & _ & [Hp Hu Ha _]).
  split_and!.
  - apply Hu.
  - eapply packed_weaken; [reflexivity| |apply (Ha p)].
    destruct p; simpl; auto with kvs.
  - apply Forall_forall. intros x [Hx _]%of_part_elem.
    rewrite Forall_forall in Hp. apply (Hp x Hx).
Qed.

(** The sections of every part cover its heads: they start at head 0, each
    starts where the previous one ends, none is empty, and they end at
    [num_heads]. *)
Theorem layout_sections_cover_heads specs config low n groups l :
  build_ok specs config low n groups l →
  ∀ x, x ∈ layer_parts l → tiled 0 (head_ranges x) (num_heads x).
Proof.
  intros H x Hx.
  destruct (built_inv _ _ _ _ _ _ H) as (stride & st & -> & _ & _ & [Hp _ _ _]).
  rewrite Forall_forall in Hp. apply (Hp x Hx).
Qed.

(** C2 No write of the pipeline leaves its arena when the layout has no
    aggregate stage. In arena A both scratch buffers of a part end before
    [u8_base]; in arena B the packed stream starts at [u8_base] and ends
    inside the arena, in 8-bit elements after quantization and in 16-bit
    elements without it. The temporaries of a quantized section live in the
    upper half of the parameter arena, disjoint from every minimum and scale
    tensor, which live in the lower half. *)
Theorem layout_in_bounds specs config low n groups l :
  build_ok specs config low n groups l → aggregate l = false →
  (∀ x, x ∈ layer_parts l →
    raw_offset x + raw_bytes x ≤ scratch_stride l ∧
    scratch_stride l + raw_offset x + raw_bytes x ≤ u8_base l ∧
    u8_base l ≤ arena_bytes l ∧
    (uses_quantizer config = true →
      u8_base l + u8_offset x + part_numel x ≤ arena_bytes l) ∧
    (uses_quantizer config = false →
      u8_base l + 2 * u8_offset x + raw_bytes x ≤ arena_bytes l)) ∧
  (uses_quantizer config = true → ∀ p o m,
    (o, m) ∈ aux_regions (logical_blocks_per_chunk config) (parts l p) →
    o + m ≤ aux_arena_bytes l / 2 ∧
    aux_arena_bytes l / 2 + o + m ≤ aux_arena_bytes l).
Proof.
  intros H. destruct (built_inv _ _ _ _ _ _ H) as (stride & st & -> & Hs & Hs0 & [Hp Hu Ha Hr]).
  unfold uses_quantizer, uses_aggregate. simpl. intros Hagg. rewrite Hagg. simpl.
  assert (Hcb : 1 ≤ logical_blocks_per_chunk config)
    by apply (build_config _ _ _ _ _ _ H).
  rewrite Forall_forall in Hp. split.
  - intros x Hx. assert (Hox := Hp x Hx).
    destruct (packed_bounds 0 _ _ (u8_offset x) (part_numel x) (Hu (kv_part x)))
      as (? & ? & Hb).
    { apply list_elem_of_fmap. exists x. split; [done|]. by apply list_elem_of_filter. }
    assert (raw_bytes x = 2 * part_numel x) as Hraw.
    { rewrite (part_numel_eq config stride x Hox), (part_raw _ _ _ Hox). lia. }
    pose proof (part_raw0 _ _ _ Hox). pose proof (part_scratch _ _ _ Hox).
    pose proof (Hr KPart). pose proof (Hr VPart).
    pose proof (packed_le _ _ _ (Hu KPart)). pose proof (packed_le _ _ _ (Hu VPart)).
    rewrite andb_true_r. round_up_facts.
    destruct (in_pipeline "quantizer" config), (kv_part x); simpl in *;
      split_and!; intros; try done; lia.
  - intros Hq p o m Hin. rewrite Hq. simpl.
    destruct (packed_bounds 0 _ _ o m (Ha p) Hin) as (? & ? & ?).
    set (M := Z.max _ _). replace (2 * M / 2) with M
      by (rewrite Z.mul_comm, Z.div_mul; lia).
    subst M. round_up_facts. destruct p; simpl in *; lia.
Qed.

Lemma sumZ_le {A} (f g : A → Z) l :
  (∀ x, x ∈ l → f x ≤ g x) → sumZ (f <$> l) ≤ sumZ (g <$> l).
Proof.
  induction l as [|x l IH]; csimpl; intros H; [lia|].
  pose proof (H x ltac:(left)) as Hx.
  specialize (IH ltac:(intros; apply H; by right)). lia.
Qed.

Lemma raw_tail_bound config stride l p tokens :
  Forall (part_ok config stride) (layer_parts l) → aggregate l = false → 0 ≤ raw_tail_bytes l p tokens ≤ raw_tail_capacity l.
Proof.
  intros Hp Hagg. rewrite Forall_forall in Hp.
  set (cap := λ q : KVPart, sumZ ((λ x, (part_block_size x - 1) * num_heads x *
                                     part_head_size x * 2) <$> parts l q)).
  assert (raw_tail_capacity l = round_up (Z.max (cap KPart) (cap VPart)) ALIGNMENT) as ->
    by (unfold raw_tail_capacity; by rewrite Hagg).
  split.
  - apply sumZ_nonneg, Forall_forall. intros z (x & -> & Hx)%list_elem_of_fmap.
    apply of_part_elem in Hx as [Hx _]. destruct (Hp x Hx).
    pose proof (Z.mod_pos_bound (tokens (group_index x)) (part_block_size x)).
    repeat apply Z.mul_nonneg_nonneg; lia.
  - assert (raw_tail_bytes l p tokens ≤ cap p).
    { apply sumZ_le. intros x [Hx _]%of_part_elem. destruct (Hp x Hx).
      pose proof (Z.mod_pos_bound (tokens (group_index x)) (part_block_size x)).
      repeat (apply Z.mul_le_mono_nonneg_r; [lia|]). lia. }
    round_up_facts. destruct p; lia.
Qed.

(** The raw tail of a transfer always fits the slot's tail buffer: whatever
    the (non-negative) token counts of the groups, the bytes of the partial
    last blocks are at most [raw_tail_capacity], which is 256-aligned. *)
Theorem raw_tail_fits specs config low n groups l p tokens :
  build_ok specs config low n groups l → aggregate l = false →
  0 ≤ raw_tail_bytes l p tokens ≤ raw_tail_capacity l ∧ (ALIGNMENT | raw_tail_capacity l).
Proof.
  intros H Hagg. destruct (built_inv _ _ _ _ _ _ H) as (s & st & -> & _ & _ & []).
  split; [by eapply raw_tail_bound|]. unfold raw_tail_capacity. rewrite Hagg. auto with kvs.
Qed.

Lemma rfold_unit_iff {A} (P : A → Prop) (f : unit → A → result unit) l :
  (∀ a, f () a = Ok () ↔ P a) → rfold f () l = Ok () ↔ Forall P l.
Proof.
  intros Hf. induction l as [|a l IH]; simpl; [done|].
  rewrite Forall_cons, <- Hf, <- IH, rbind_Ok. split.
  - intros ([] & ? & ?). done.
  - intros [??]. by exists ().
Qed.

Definition spec_supported (config : CompressionConfig) (e : string * CacheSpec) : Prop :=
  dtype e.2 = BFloat16 ∧
  (uses_transformer config = true →
    is_pow2 (head_size e.2) = true ∧ is_pow2 (head_size_v e.2) = true).

Lemma check_specs_Ok config fa :
  check_specs config fa = Ok () ↔
  fa ≠ [] ∧ length (remove_dups ((λ e, block_size e.2) <$> fa)) = 1%nat ∧
  Forall (spec_supported config) fa.
Proof.
  unfold check_specs. destruct fa as [|e es]; [naive_solver|].
  set (fa := e :: es). unfold raise_if at 1 2. cbn [rbind].
  destruct (_ =? 1)%nat eqn:E; cbn [negb rbind].
  - apply Nat.eqb_eq in E. rewrite rfold_unit_iff with (P := spec_supported config).
    + naive_solver.
    + intros a. unfold spec_supported, raise_if.
      destruct (uses_transformer config), (is_pow2 (head_size a.2)),
        (is_pow2 (head_size_v a.2)), (decide (dtype a.2 = BFloat16)) as [Hd|Hd];
        rewrite ?(bool_decide_eq_true_2 _ Hd), ?(bool_decide_eq_false_2 _ Hd);
        simpl; naive_solver.
  - apply Nat.eqb_neq in E. naive_solver.
Qed.

Lemma place_layers_total config low n groups l st :
  split_type config = SplitHead →
  is_Ok (rfold (place_layer config low n groups) st l) ↔
  Forall (λ e, is_Some (low !! layer_index e.2)) l.
Proof.
  intros Hst. revert st. induction l as [|[name spec] l IH]; intros st; simpl.
  - split; [constructor|]. intros _. by eexists.
  - unfold split_counts. rewrite Hst, Forall_cons. simpl.
    destruct (low !! layer_index spec); simpl; rewrite ?IH.
    + naive_solver.
    + split; [intros [? [=]]|intros [[? [=]] _]].
Qed.

(** With head splitting, [build_compression_layout] succeeds exactly when
    there is a cache spec, the block sizes agree, every layer has a low-head
    count, every cache is bfloat16, and the head sizes are powers of two when
    the Hadamard transform is on; otherwise it raises. *)
Theorem build_layout_total specs config low n groups :
  split_type config = SplitHead →
  is_Ok (build_compression_layout specs config low n groups) ↔
  specs ≠ [] ∧
  length (remove_dups ((λ e, block_size e.2) <$>
    isort (λ a b, layer_index a.2 <=? layer_index b.2) specs)) = 1%nat ∧
  Forall (λ e, spec_supported config e ∧ is_Some (low !! layer_index e.2)) specs.
Proof.
  intros Hst. unfold build_compression_layout.
  set (fa := isort _ specs). assert (Hperm : fa ≡ₚ specs) by apply isort_perm.
  pose proof (check_specs_Ok config fa) as Hcheck.
  rewrite <- Hperm at 2. assert (Hne : specs ≠ [] ↔ fa ≠ []).
  { clear -Hperm. destruct specs, fa; try naive_solver.
    - by apply Permutation_nil_r in Hperm.
    - by apply Permutation_nil_cons in Hperm. }
  rewrite Hne. transitivity (check_specs config fa = Ok () ∧
    Forall (λ e, is_Some (low !! layer_index e.2)) fa).
  - destruct (check_specs config fa) as [[]|] eqn:E; simpl.
    + destruct fa as [|e es]; [naive_solver|].
      rewrite <- (place_layers_total config low n groups (e :: es) init_build Hst).
      destruct (rfold _ _ _); simpl; unfold is_Ok; naive_solver.
    + unfold is_Ok. naive_solver.
  - rewrite Hcheck, !Forall_forall. naive_solver.
Qed.

(** ** Witnesses on the two-layer example *)

Definition empty_layout : CompressionLayout :=
  finish_layout ex_config 0 init_build.

Definition ex_layout : CompressionLayout :=
  match build_compression_layout ex_specs ex_config ex_low 2 ∅ with
  | Ok l => l
  | Err _ => empty_layout
  end.

Lemma ex_build_ok : build_ok ex_specs ex_config ex_low 2 ∅ ex_layout.
Proof.
  constructor.
  - constructor; try (simpl; lia); try done.
    all: apply (bool_decide_unpack _); vm_compute; done.
  - repeat constructor.
  - intros li low Hl e He <-. unfold ex_specs in He.
    rewrite !elem_of_cons, elem_of_nil in He. destruct He as [->|[->|[]]];
      vm_compute in Hl; injection Hl as <-; simpl; lia.
  - vm_compute. reflexivity.
Defined.

Lemma layout_regions_packed_witness :
  packed 0 (u8_regions (parts ex_layout KPart)) 32768.
Proof. exact (proj1 (layout_regions_packed _ _ _ _ _ _ ex_build_ok KPart)). Defined.

Lemma layout_sections_cover_heads_witness :
  length (layer_parts ex_layout) = 4%nat ∧
  ∀ x, x ∈ layer_parts ex_layout → tiled 0 (head_ranges x) (num_heads x).
Proof.
  split; [reflexivity|]. exact (layout_sections_cover_heads _ _ _ _ _ _ ex_build_ok).
Defined.

Lemma layout_in_bounds_witness :
  aggregate ex_layout = false ∧
  ∀ x, x ∈ layer_parts ex_layout → raw_offset x + raw_bytes x ≤ scratch_stride ex_layout.
Proof.
  split; [reflexivity|]. intros x Hx.
  exact (proj1 (proj1 (layout_in_bounds _ _ _ _ _ _ ex_build_ok eq_refl) x Hx)).
Defined.

Lemma raw_tail_fits_witness :
  0 ≤ raw_tail_bytes ex_layout VPart (λ _, 37) ≤ raw_tail_capacity ex_layout.
Proof. exact (proj1 (raw_tail_fits _ _ _ _ _ _ VPart (λ _, 37) ex_build_ok eq_refl)). Defined.

Lemma build_layout_total_witness :
  is_Ok (build_compression_layout ex_specs ex_config ex_low 2 ∅).
Proof.
  apply (build_layout_total ex_specs ex_config ex_low 2 ∅ eq_refl). split_and!.
  - discriminate.
  - vm_compute. reflexivity.
  - repeat constructor; simpl; eauto; by eexists.
Defined.
