(* ===== verification/Transfer.v ===== *)
(** * Transfer planning of the Mooncake connector

    [mooncake/session_ipc.py] (which remote ranks a rank pairs with),
    [mooncake/compression/tokens.py] (token counts of the transferred suffix
    and of its chunks) and the planning functions of
    [mooncake/mooncake_connector.py]: chunk windows, the copy one producer rank
    makes into one consumer rank's block, and the alignment of the registered
    KV regions of the two sides. *)

From S2P Require Import Prelude.

(** ** Chunks *)

Definition compression_total_chunks (logical_block_count logical_blocks_per_chunk : Z) :
    result Z :=
  let? n := py_div (logical_block_count + logical_blocks_per_chunk - 1)
              logical_blocks_per_chunk in
  Ok (n * 2).

(** The first logical block of a chunk, its number of blocks and its KV part. *)
Definition compression_chunk_window
    (chunk_id logical_block_count logical_blocks_per_chunk : Z) : Z * Z * Z :=
  let logical_chunk := chunk_id / 2 in
  let logical_start := logical_chunk * logical_blocks_per_chunk in
  (logical_start,
   Z.min logical_blocks_per_chunk (logical_block_count - logical_start),
   chunk_id mod 2).

(** ** Token counts per cache group *)

(** [block_sizes] and the results are dicts, here their item lists. *)
Definition suffix_token_counts (num_tokens : Z) (block_ids : list (list Z))
    (block_sizes : list (Z * Z)) : result (list (Z * Z)) :=
  rmap (λ gb : Z * Z,
    let '(group, block_size) := gb in
    let? full_blocks := py_div (num_tokens + block_size - 1) block_size in
    let? count := match block_ids with
                  | [] => Ok 0
                  | _ => let? ids := py_index block_ids group in Ok (zlen ids)
                  end in
    Ok (group, if count =? 0 then 0
               else num_tokens - (full_blocks - count) * block_size)) block_sizes.

Definition chunk_token_counts (valid_tokens_by_group block_sizes : list (Z * Z))
    (logical_start logical_count : Z) : result (list (Z * Z)) :=
  rmap (λ gb : Z * Z,
    let '(group, block_size) := gb in
    let? valid := of_option KeyError (dget valid_tokens_by_group group) in
    let remaining := valid - logical_start * block_size in
    Ok (group, Z.min remaining (logical_count * block_size))) block_sizes.

(** ** Pairing of tensor-parallel ranks *)

Definition handshake_target_ranks (tp_rank tp_size remote_tp_size : Z) : result (list Z) :=
  if remote_tp_size <=? tp_size then
    let? k := py_div tp_size remote_tp_size in
    let? r := py_div tp_rank k in
    Ok [r]
  else
    let? ratio := py_div remote_tp_size tp_size in
    Ok ((λ index, tp_rank * ratio + index) <$> seqZ 0 ratio).

Definition get_tp_ratio (local_tp_size remote_tp_size : Z) : result Z :=
  if remote_tp_size <=? local_tp_size then
    let? m := py_mod local_tp_size remote_tp_size in
    assert_ (m =? 0) ;?
    py_div local_tp_size remote_tp_size
  else
    let? m := py_mod remote_tp_size local_tp_size in
    assert_ (m =? 0) ;?
    let? q := py_div remote_tp_size local_tp_size in
    Ok (- q).

(** ** Registered regions *)

Record TransferRegion := mkRegion {
  layer_name : string;
  layer_index : Z;
  base_addr : Z;
  block_len : Z;
  kv_block_len : Z;
  group_index : Z
}.

#[global] Instance TransferRegion_eq_dec : EqDecision TransferRegion.
Proof. solve_decision. Defined.

(** The five zipped lists, and the group indices (all zero when absent). *)
Definition expand_transfer_regions (base_addrs block_lens kv_block_lens : list Z)
    (layer_names : list string) (layer_indices : list Z)
    (group_indices : option (list Z)) : result (list TransferRegion) :=
  assert_ ((zlen base_addrs =? zlen block_lens) && (zlen block_lens =? zlen kv_block_lens)
           && (zlen kv_block_lens =? zlen layer_names)
           && (zlen layer_names =? zlen layer_indices)) ;?
  let groups := default (replicate (length layer_names) 0) group_indices in
  assert_ (zlen groups =? zlen layer_names) ;?
  Ok ((λ x : Z * Z * Z * string * Z * Z,
         let '(base_addr, block_len, kv_block_len, layer_name, layer_index, group_index) := x in
         mkRegion layer_name layer_index base_addr block_len kv_block_len group_index)
      <$> zip (zip (zip (zip (zip base_addrs block_lens) kv_block_lens)
                 layer_names) layer_indices) groups).

(** ** The copy of one producer rank into one consumer rank's block

    Whether the rank copies at all, the offsets in the source and destination
    blocks and the length. *)
Definition compute_sender_transfer_plan
    (local_tp_rank local_tp_size remote_tp_rank remote_tp_size
     local_kv_block_len remote_kv_block_len : Z)
    (producer_cache_replicated : bool) (total_num_kv_heads : option Z) :
    result (bool * Z * Z * Z) :=
  let? tp_ratio := get_tp_ratio local_tp_size remote_tp_size in
  let by_ratio :=
    if 0 <? tp_ratio then
      if producer_cache_replicated then
        Ok (local_tp_rank mod tp_ratio =? 0, 0, 0, local_kv_block_len)
      else
        Ok (true, 0, (local_tp_rank mod tp_ratio) * local_kv_block_len, local_kv_block_len)
    else if producer_cache_replicated then Ok (true, 0, 0, local_kv_block_len)
    else
      let ratio_abs := - tp_ratio in
      let? r := py_mod remote_tp_rank ratio_abs in
      Ok (true, r * remote_kv_block_len, 0, remote_kv_block_len) in
  if tp_ratio =? 1 then Ok (true, 0, 0, local_kv_block_len)
  else
    match total_num_kv_heads with
    | None => by_ratio
    | Some heads =>
        let consumer_cache_replicated := heads <? remote_tp_size in
        if negb (Bool.eqb producer_cache_replicated consumer_cache_replicated) then
          let? q := py_div heads local_tp_size in
          let local_head_count := Z.max q 1 in
          let? q := py_div local_tp_size heads in
          let local_replica_count := Z.max q 1 in
          let? local_head := py_div (local_tp_rank * heads) local_tp_size in
          let? remote_head := py_div (remote_tp_rank * heads) remote_tp_size in
          let? bytes_per_head := py_div local_kv_block_len local_head_count in
          Ok (local_tp_rank mod local_replica_count =? 0,
              Z.max (remote_head - local_head) 0 * bytes_per_head,
              Z.max (local_head - remote_head) 0 * bytes_per_head,
              bytes_per_head)
        else by_ratio
    end.

Definition can_coalesce_block_transfers (local_region_block_len remote_region_block_len
    src_region_offset dst_region_offset transfer_len : Z) : bool :=
  (src_region_offset =? 0) && (dst_region_offset =? 0)
  && (transfer_len =? local_region_block_len) && (transfer_len =? remote_region_block_len).

(** The error message of the first bad pair of regions, with its index and
    the two lengths. *)
Inductive length_error :=
  | RegionCount
  | Homogeneous (idx local remote : Z)
  | Destination (idx local remote tp_ratio : Z)
  | Source (idx local remote tp_ratio : Z).

Definition check_region_pair (tp_ratio : Z) (idx : Z) (local remote : Z) : option length_error :=
  if tp_ratio =? 1 then
    if negb (local =? remote) then Some (Homogeneous idx local remote) else None
  else if 0 <? tp_ratio then
    if negb (remote =? local * tp_ratio) then Some (Destination idx local remote tp_ratio)
    else None
  else
    if negb (local =? remote * - tp_ratio) then Some (Source idx local remote tp_ratio)
    else None.

Fixpoint check_region_pairs (tp_ratio idx : Z) (l : list (TransferRegion * TransferRegion)) :
    option length_error :=
  match l with
  | [] => None
  | (x, y) :: l =>
      match check_region_pair tp_ratio idx (kv_block_len x) (kv_block_len y) with
      | Some e => Some e
      | None => check_region_pairs tp_ratio (idx + 1) l
      end
  end.

Definition validate_asymmetric_region_lengths
    (local_regions remote_regions : list TransferRegion) (local_tp_size remote_tp_size : Z)
    (producer_cache_replicated : bool) (total_num_kv_heads : option Z) :
    result (option length_error) :=
  if negb (zlen local_regions =? zlen remote_regions) then Ok (Some RegionCount)
  else
    let check local remote :=
      let? tp_ratio := get_tp_ratio local remote in
      Ok (check_region_pairs tp_ratio 0 (zip local_regions remote_regions)) in
    match total_num_kv_heads with
    | Some heads => check (Z.min local_tp_size heads) (Z.min remote_tp_size heads)
    | None => if producer_cache_replicated then Ok None
              else check local_tp_size remote_tp_size
    end.

(** ** Alignment of the two sides' regions *)

(** Each region with its layer name and the occurrence number of that name. *)
Fixpoint keyed_regions (counts : gmap string Z) (l : list TransferRegion) :
    list ((string * Z) * TransferRegion) :=
  match l with
  | [] => []
  | r :: l =>
      let occurrence := default 0 (counts !! layer_name r) in
      ((layer_name r, occurrence), r) ::
      keyed_regions (<[layer_name r := occurrence + 1]> counts) l
  end.

Inductive align_error :=
  | NoOccurrence (key : string * Z)
  | IndexMismatch (layer : string) (producer consumer : Z)
  | GroupMismatch (layer : string) (producer consumer : Z).

(** [dict(pairs)]: later pairs replace earlier ones. *)
Definition region_dict (l : list ((string * Z) * TransferRegion)) :
    gmap (string * Z) TransferRegion :=
  foldl (λ m e, <[e.1 := e.2]> m) ∅ l.

(** The matching loop, from the pairs aligned so far. *)
Fixpoint align_loop (remote_by_key : gmap (string * Z) TransferRegion) (allow_partial : bool)
    (acc : list (TransferRegion * TransferRegion)) (l : list ((string * Z) * TransferRegion)) :
    list (TransferRegion * TransferRegion) + align_error :=
  match l with
  | [] => inl acc
  | (key, x) :: l =>
      match remote_by_key !! key with
      | None =>
          if allow_partial && bool_decide (remote_by_key !! (layer_name x, 0) = None)
          then align_loop remote_by_key allow_partial acc l
          else inr (NoOccurrence key)
      | Some y =>
          if negb (layer_index x =? layer_index y)
          then inr (IndexMismatch (layer_name x) (layer_index x) (layer_index y))
          else if negb (group_index x =? group_index y)
          then inr (GroupMismatch (layer_name x) (group_index x) (group_index y))
          else align_loop remote_by_key allow_partial (acc ++ [(x, y)]) l
      end
  end.

Definition align_transfer_regions (local_regions remote_regions : list TransferRegion)
    (allow_partial_layers : bool) :
    list TransferRegion * list TransferRegion * option align_error :=
  let remote_by_key := region_dict (keyed_regions ∅ remote_regions) in
  match align_loop remote_by_key allow_partial_layers [] (keyed_regions ∅ local_regions) with
  | inl pairs => (pairs.*1, pairs.*2, None)
  | inr e => ([], [], Some e)
  end.

(** ** Block tables of a session

    [mamba] tells which cache groups hold Mamba state and [null_block] is the
    engine's null block id. *)
Section match_blocks.
Context (mamba : list bool) (null_block : Z).

Definition match_group (is_mamba : bool) (local_group remote_group : list Z) :
    list Z * list Z :=
  let keep l := if is_mamba then filter (λ v, v ≠ null_block) l else l in
  let local_group := keep local_group in
  let remote_group := keep remote_group in
  let local_group :=
    if (length remote_group <? length local_group)%nat
    then drop (length local_group - length remote_group) local_group
    else local_group in
  (local_group, remote_group).

(** [remote_block_ids] empty stands for one empty list per group. *)
Definition match_compression_blocks (local_block_ids remote_block_ids : list (list Z)) :
    result (list (list Z) * list (list Z)) :=
  let remote := match remote_block_ids with
                | [] => (λ _, []) <$> local_block_ids
                | _ => remote_block_ids
                end in
  let? pairs := rmap (λ x : nat * (list Z * list Z),
      let '(i, (lg, rg)) := x in
      let? m := of_option IndexError (mamba !! i) in
      Ok (match_group m lg rg))
    (imap (λ i x, (i, x)) (zip local_block_ids remote)) in
  Ok (pairs.*1, pairs.*2).
End match_blocks.

(** ** Concrete inputs *)

Example windows_5_2 :
  (λ c, compression_chunk_window c 5 2) <$> seqZ 0 6
  = [(0, 2, 0); (0, 2, 1); (2, 2, 0); (2, 2, 1); (4, 1, 0); (4, 1, 1)].
Proof. reflexivity. Qed.

Example suffix_40_16 :
  suffix_token_counts 40 [[7; 8]] [(0, 16)] = Ok [(0, 24)].
Proof. reflexivity. Qed.

(** ** Ratios of tensor-parallel sizes *)

Lemma get_tp_ratio_Ok l r t :
  get_tp_ratio l r = Ok t ↔
  (r ≤ l ∧ r ≠ 0 ∧ l = r * t) ∨ (l < r ∧ l ≠ 0 ∧ r = l * - t).
Proof.
  unfold get_tp_ratio. destruct (Z.leb_spec r l).
  - rewrite rbind_Ok. setoid_rewrite rbind_Ok. setoid_rewrite assert_Ok.
    setoid_rewrite py_mod_Ok. setoid_rewrite py_div_Ok. split.
    + intros (m & [? ->] & [] & ?%Z.eqb_eq & ? & ->). left. split_and!; [done..|].
      by apply Z.div_exact.
    + intros [(? & ? & ->)|?]; [|lia]. exists 0. rewrite Z.mul_comm, Z.mod_mul by done.
      split; [done|]. exists (). rewrite Z.div_mul by done. naive_solver.
  - rewrite rbind_Ok. setoid_rewrite rbind_Ok. setoid_rewrite assert_Ok.
    setoid_rewrite rbind_Ok. setoid_rewrite py_mod_Ok. setoid_rewrite py_div_Ok. split.
    + intros (m & [? ->] & [] & ?%Z.eqb_eq & q & [? ->] & [= <-]). right.
      split_and!; [lia|done|]. rewrite Z.opp_involutive. by apply Z.div_exact.
    + intros [?|(? & ? & Hr)]; [lia|]. exists 0. rewrite Hr, (Z.mul_comm l), Z.mod_mul by done.
      split; [done|]. exists (). split; [done|]. exists (- t).
      rewrite Z.div_mul by done. split; [done|]. f_equal. lia.
Qed.

Lemma get_tp_ratio_same u c : get_tp_ratio u u = Ok c → c = 1.
Proof.
  intros [(? & ? & H)|?]%get_tp_ratio_Ok; [|lia].
  apply (Z.mul_reg_l _ _ u); [done|lia].
Qed.

(** Positive sizes one of which divides the other. *)
Record tp_sizes (l r : Z) : Prop := {
  tp_local : 0 < l;
  tp_remote : 0 < r;
  tp_div : (l | r) ∨ (r | l)
}.

Lemma tp_sizes_sym l r : tp_sizes l r → tp_sizes r l.
Proof. intros [? ? H]. split; [done..|]. tauto. Qed.

(** The targets of a rank are a contiguous range: one rank of a smaller
    group, or the [r / l] ranks a larger group assigns to it. *)
Lemma handshake_larger l r k p :
  0 < r → 0 < k → l = r * k → handshake_target_ranks p l r = Ok [p / k].
Proof.
  intros. unfold handshake_target_ranks, py_div.
  replace (r <=? l) with true by (symmetry; apply Z.leb_le; nia).
  replace (r =? 0) with false by (symmetry; apply Z.eqb_neq; lia). simpl.
  replace (l / r) with k by (subst l; rewrite Z.mul_comm, Z.div_mul by lia; done).
  by replace (k =? 0) with false by (symmetry; apply Z.eqb_neq; lia).
Qed.

Lemma handshake_smaller l r k p :
  0 < l → 1 < k → r = l * k →
  handshake_target_ranks p l r = Ok ((λ i, p * k + i) <$> seqZ 0 k).
Proof.
  intros. unfold handshake_target_ranks, py_div.
  replace (r <=? l) with false by (symmetry; apply Z.leb_gt; nia).
  replace (l =? 0) with false by (symmetry; apply Z.eqb_neq; lia). simpl.
  by replace (r / l) with k by (subst r; rewrite Z.mul_comm, Z.div_mul by lia; done).
Qed.

(** In either case the targets are the ranks [d] with [p = d / k] or
    [d = p / k]. *)
Lemma handshake_targets l r p ts :
  tp_sizes l r → handshake_target_ranks p l r = Ok ts →
  ∃ k, 0 < k ∧
    ((l = r * k ∧ ts = [p / k]) ∨
     (1 < k ∧ r = l * k ∧ ts = (λ i, p * k + i) <$> seqZ 0 k)).
Proof.
  intros [Hl Hr [[k Hk]|[k Hk]]] Hts.
  - assert (0 < k) by nia. exists k. split; [done|].
    destruct (decide (k = 1)) as [->|].
    + left. rewrite (handshake_larger l r 1) in Hts by lia. inv_ok. split; [lia|done].
    + right. rewrite (handshake_smaller l r k) in Hts by lia. inv_ok. split_and!; [lia..|done].
  - assert (0 < k) by nia. exists k. split; [done|]. left.
    rewrite (handshake_larger l r k) in Hts by lia. inv_ok. split; [lia|done].
Qed.

Lemma elem_of_targets p k d :
  0 < k → d ∈ ((λ i, p * k + i) <$> seqZ 0 k) ↔ d / k = p.
Proof.
  intros Hk. rewrite list_elem_of_fmap. setoid_rewrite elem_of_seqZ. split.
  - intros (i & -> & ?). rewrite Z.div_add_l by lia. rewrite Z.div_small by lia. lia.
  - intros <-. exists (d mod k). pose proof (Z.div_mod d k). pose proof (Z.mod_pos_bound d k).
    split; lia.
Qed.

(** ** Regions of a producer block that fill a consumer block *)

(** Where the plan of a producer rank writes, when it copies at all. *)
Definition writes (plan : bool * Z * Z * Z) : list (Z * Z) :=
  let '(copies, _, dst, len) := plan in if copies then [(dst, len)] else [].

Definition reads (plan : bool * Z * Z * Z) : list (Z * Z) :=
  let '(copies, src, _, len) := plan in if copies then [(src, len)] else [].

(** Every [m]-th of [n * m] consecutive indices writes the next [len] bytes. *)
Lemma tiled_strided n m len :
  0 ≤ n → 0 < m → 0 < len →
  tiled 0 (seqZ 0 (n * m) ≫= λ i, if i mod m =? 0 then [(i / m * len, len)] else [])
    (n * len).
Proof.
  intros Hn Hm Hlen. rewrite <- (Z2Nat.id n) by lia. clear Hn.
  induction (Z.to_nat n) as [|j IH]; [done|].
  replace (Z.of_nat (S j) * m) with (Z.of_nat j * m + m) by lia.
  rewrite seqZ_app, bind_app by lia. rewrite Z.add_0_l.
  replace (Z.of_nat (S j) * len) with (Z.of_nat j * len + len) by lia.
  eapply tiled_app; [exact IH|].
  rewrite (seqZ_cons (Z.of_nat j * m)) by lia. simpl.
  rewrite Z.mod_mul, Z.div_mul by lia. simpl. split_and!; [done..|].
  cut (∀ i, i ∈ seqZ (Z.succ (Z.of_nat j * m)) (Z.pred m) → i mod m =? 0 = false).
  { generalize (seqZ (Z.succ (Z.of_nat j * m)) (Z.pred m)). intros l Hl.
    induction l as [|i l IHl]; [done|]. simpl. rewrite Hl by set_solver. simpl.
    apply IHl. set_solver. }
  intros i [? ?]%elem_of_seqZ. apply Z.eqb_neq.
  rewrite <- (Z.mod_unique i m (Z.of_nat j) (i - Z.of_nat j * m)); lia.
Qed.

(** What the region check establishes for the [i]-th pair. *)
Lemma check_region_pairs_None t idx l i x y :
  check_region_pairs t idx l = None → l !! i = Some (x, y) →
  ∃ n, check_region_pair t n (kv_block_len x) (kv_block_len y) = None.
Proof.
  revert idx i. induction l as [|[x' y'] l IH]; intros idx [|i]; simpl; try done.
  - intros H [= -> ->]. exists idx. by destruct (check_region_pair _ _ _ _).
  - destruct (check_region_pair _ _ _ _); [done|]. apply IH.
Qed.

Lemma check_region_pair_None t n a b :
  check_region_pair t n a b = None → (0 < t ∧ b = a * t) ∨ (t ≤ 0 ∧ a = b * - t).
Proof.
  unfold check_region_pair. repeat case_bool; zbool; intros; try done.
  - left. subst. lia.
  - left. lia.
  - right. split; lia.
Qed.

(** The geometries vLLM accepts, where the number of KV heads is given. The
    connector gives none, only whether the producer's cache is replicated. *)
Definition heads_ok (total : option Z) (l r : Z) (repl : bool) : Prop :=
  match total with
  | None => True
  | Some h => 0 < h ∧ repl = (h <? l) ∧ (h < l → (h | l)) ∧ (h < r → (h | r))
  end.

Definition clip (total : option Z) (n : Z) : Z :=
  match total with Some h => Z.min n h | None => n end.

(** A replicated producer without the number of heads: nothing is compared,
    and one rank sends its whole block. *)
Definition unchecked (total : option Z) (repl : bool) : Prop := total = None ∧ repl = true.

Definition lengths_fit (total : option Z) (l r x y : Z) : Prop :=
  ∃ t, get_tp_ratio (clip total l) (clip total r) = Ok t ∧ ((0 < t ∧ y = x * t) ∨ (t ≤ 0 ∧ x = y * - t)).

(** How much of a consumer's block of [y] bytes is written from producer blocks
    of [x] bytes. *)
Definition written (total : option Z) (repl : bool) (x y : Z) : Z :=
  match total with None => if repl then x else y | Some _ => y end.

Lemma validate_lengths ls rs l r repl total i x y :
  heads_ok total l r repl →
  validate_asymmetric_region_lengths ls rs l r repl total = Ok None →
  ls !! i = Some x → rs !! i = Some y →
  unchecked total repl ∨ ¬ unchecked total repl ∧ lengths_fit total l r (kv_block_len x) (kv_block_len y).
Proof.
  unfold validate_asymmetric_region_lengths, lengths_fit, unchecked. intros Hh H Hx Hy.
  assert (Hcase : (total = None ∧ repl = true) ∨ ¬ (total = None ∧ repl = true)) by (destruct total, repl; naive_solver).
  destruct Hcase as [?|Hun]; [by left|right; split; [done|]].
  destruct (negb (zlen ls =? zlen rs)); [done|].
  assert (zip ls rs !! i = Some (x, y)) as Hz.
  { apply lookup_zip_with_Some. eauto. }
  destruct total as [h|]; simpl in *; [|destruct repl; [naive_solver|]];
    apply rbind_Ok in H as (t & Ht & [= H]); exists t; (split; [done|]);
    destruct (check_region_pairs_None _ _ _ _ _ _ H Hz) as [n Hn];
    by apply check_region_pair_None in Hn.
Qed.

Section plans.
Context (l r d x y : Z) (repl : bool) (total : option Z).
Context (Hl : 0 < l) (Hr : 0 < r) (Hd : 0 ≤ d < r) (Hx : 0 < x) (Hy : 0 < y).
Context (Hh : heads_ok total l r repl).
Context (Hval : unchecked total repl ∨ ¬ unchecked total repl ∧ lengths_fit total l r x y).

#[local] Notation plan p := (compute_sender_transfer_plan p l d r x y repl total).

  (** A consumer rank served by [t] producer ranks. *)
Lemma plan_gather t :
    0 < t → l = r * t →
    ∃ n m, 0 < m ∧ t = n * m ∧ written total repl x y = n * x ∧
      ∀ i, 0 ≤ i < t → plan (d * t + i) = Ok (i mod m =? 0, 0, i / m * x, x).
  Proof using Hval Hd Hh Hl Hr Hx Hy.
    intros Ht Hlt.
    assert (get_tp_ratio l r = Ok t) as Hratio.
    { apply get_tp_ratio_Ok. left. split_and!; [nia|lia|done]. }
    assert (∀ i, 0 ≤ i < t → (d * t + i) mod t = i) as Hmod.
    { intros i Hi. rewrite Z.add_comm, Z.mod_add, Z.mod_small by lia. done. }
    unfold compute_sender_transfer_plan. rewrite Hratio. simpl.
    destruct Hval as [[-> ->]|[Hun (c & Hc & Hlen)]].
    { exists 1, t. split_and!; [lia|lia|simpl; lia|]. intros i Hi. rewrite Z.div_small by lia. destruct (Z.eqb_spec t 1) as [->|]; [by replace i with 0 by lia|].
      rewrite (proj2 (Z.ltb_lt 0 t)), Hmod, Z.mod_small by lia. done. }
    assert (written total repl x y = y) as -> by (unfold written, unchecked in *; destruct total, repl; naive_solver).
    destruct (Z.eqb_spec t 1) as [->|Ht1].
    { assert (c = 1) as ->.
      { rewrite Z.mul_1_r in Hlt. subst l. by eapply get_tp_ratio_same. }
      exists 1, 1. split_and!; [lia..|nia|]. intros i Hi. by replace i with 0 by lia. }
    replace (0 <? t) with true by (symmetry; by apply Z.ltb_lt).
    apply get_tp_ratio_Ok in Hc. unfold clip in Hc. destruct total as [h|]; simpl in *.
    - destruct Hh as (Hhp & -> & Hhl & Hhr).
      destruct (Z.ltb_spec h l) as [Hhl'|Hhl'], (Z.ltb_spec h r) as [Hhr'|Hhr']; simpl.
      + (* both sides replicate their heads *)
        rewrite !Z.min_r in Hc by lia.
        assert (c = 1) as -> by (destruct Hc as [(? & ? & ?)|(? & ? & ?)]; nia).
        exists 1, t. split_and!; [lia..|nia|]. intros i Hi.
        rewrite Hmod, Z.mod_small, Z.div_small by lia. done.
      + (* only the producer replicates *)
        destruct (Hhl Hhl') as [m Hm]. rewrite (Z.min_r l h), (Z.min_l r h) in Hc by lia.
        assert (0 < c ∧ h = r * c) as [Hcp Hcr].
        { destruct Hc as [(? & ? & ?)|(? & ? & ?)]; nia. }
        assert (t = c * m) as Htm by nia.
        exists c, m. split_and!; [nia|done|nia|]. intros i Hi. unfold py_div.
        rewrite !(proj2 (Z.eqb_neq _ 0)) by nia. simpl.
        replace (Z.max (h / l) 1) with 1 by (rewrite Z.div_small by lia; done).
        replace (Z.max (l / h) 1) with m by (rewrite Hm, Z.div_mul by lia; nia).
        replace (d * h / r) with (d * c) by (apply Z.div_unique_exact; nia).
        replace ((d * t + i) * h / l) with (d * c + i / m).
        2:{ rewrite Hm, (Z.mul_comm m h), (Z.mul_comm _ h), Z.div_mul_cancel_l by nia.
            rewrite Htm, Z.mul_assoc, Z.div_add_l by nia. done. }
        simpl. rewrite Z.div_1_r.
        replace ((d * t + i) mod m) with (i mod m)
          by (rewrite Htm, Z.mul_assoc, Z.add_comm, Z.mod_add by nia; done).
        assert (0 ≤ i / m) by (apply Z.div_pos; nia).
        rewrite Z.max_r, Z.max_l by lia. repeat f_equal; lia.
      + (* a consumer cannot replicate more than its larger producer *)
        nia.
      + (* no replication *)
        rewrite !Z.min_l in Hc by lia.
        assert (c = t) as -> by (destruct Hc as [(? & ? & ?)|(? & ? & ?)]; nia).
        exists t, 1. split_and!; [lia..|nia|]. intros i Hi.
        by rewrite Hmod, Z.div_1_r, Z.mod_1_r by lia.
    - assert (repl = false) as -> by (unfold unchecked in Hun; destruct repl; naive_solver).
      assert (c = t) as -> by (destruct Hc as [(? & ? & ?)|(? & ? & ?)]; nia).
      exists t, 1. split_and!; [lia..|nia|]. intros i Hi.
      by rewrite Hmod, Z.div_1_r, Z.mod_1_r by lia.
  Qed.

  (** A consumer rank that takes its part of one producer rank's block. *)
Lemma plan_scatter k :
    1 < k → r = l * k →
    ∃ src, plan (d / k) = Ok (true, src, 0, written total repl x y) ∧ 0 ≤ src ∧ src + written total repl x y ≤ x.
  Proof using Hval Hd Hh Hl Hr Hx Hy.
    intros Hk Hrk.
    assert (get_tp_ratio l r = Ok (- k)) as Hratio.
    { apply get_tp_ratio_Ok. right. split_and!; nia. }
    pose proof (Z.mod_pos_bound d k).
    unfold compute_sender_transfer_plan. rewrite Hratio. simpl.
    rewrite (proj2 (Z.eqb_neq (- k) 1)) by lia.
    replace (0 <? - k) with false by (symmetry; apply Z.ltb_ge; lia).
    destruct Hval as [[-> ->]|[Hun (c & Hc & Hlen)]]; [exists 0; split; [done|simpl; lia]|].
    assert (written total repl x y = y) as -> by (unfold written, unchecked in *; destruct total, repl; naive_solver).
    assert (∀ (H : c = - k), ∃ src,
      (let? r0 := py_mod d (- - k) in Ok (true, r0 * y, 0, y)) = Ok (true, src, 0, y) ∧
      0 ≤ src ∧ src + y ≤ x) as Hplain.
    { intros ->. unfold py_mod. rewrite (proj2 (Z.eqb_neq (- - k) 0)) by lia. simpl.
      rewrite Z.opp_involutive. exists (d mod k * y). split; [done|]. nia. }
    apply get_tp_ratio_Ok in Hc. unfold clip in Hc. destruct total as [h|]; simpl in *.
    - destruct Hh as (Hhp & -> & Hhl & Hhr).
      destruct (Z.ltb_spec h l) as [Hhl'|Hhl'], (Z.ltb_spec h r) as [Hhr'|Hhr']; simpl.
      + rewrite !Z.min_r in Hc by lia.
        assert (c = 1) as -> by (destruct Hc as [(? & ? & ?)|(? & ? & ?)]; nia).
        exists 0. split; [|lia]. repeat f_equal. lia.
      + nia.
      + destruct (Hhr Hhr') as [m Hm]. rewrite (Z.min_l l h), (Z.min_r r h) in Hc by lia.
        assert (∃ k', 0 < k' ∧ h = l * k' ∧ x = y * k') as (k' & Hk' & Hlk & Hxy).
        { destruct Hc as [(? & ? & ?)|(? & ? & ?)].
          - exists 1. split_and!; nia.
          - exists (- c). split_and!; nia. }
        assert (k = k' * m) as Hkm by nia. assert (0 < m) by nia.
        unfold py_div. rewrite !(proj2 (Z.eqb_neq _ 0)) by nia. simpl.
        replace (Z.max (h / l) 1) with k'
          by (rewrite Hlk, Z.mul_comm, Z.div_mul by lia; lia).
        rewrite !(proj2 (Z.eqb_neq _ 0)) by nia. simpl.
        replace (Z.max (l / h) 1) with 1.
        2:{ destruct (decide (l = h)) as [->|]; [by rewrite Z.div_same by lia|].
            by rewrite Z.div_small by lia. }
        rewrite Z.mod_1_r. rewrite Hxy, Z.div_mul by lia.
        replace (d / k * h / l) with (d / k * k') by (apply Z.div_unique_exact; nia).
        replace (d * h / r) with (d / m)
          by (rewrite Hm, (Z.mul_comm m h), (Z.mul_comm d h), Z.div_mul_cancel_l by nia; done).
        rewrite Hkm, (Z.mul_comm k' m), <- Z.div_div by lia.
        pose proof (Z.div_mod (d / m) k'). pose proof (Z.mod_pos_bound (d / m) k').
        exists ((d / m) mod k' * y). split; [|nia].
        rewrite (Z.max_l (d / m - _)), Z.max_r by lia. repeat f_equal; lia.
      + rewrite !Z.min_l in Hc by lia. apply Hplain.
        destruct Hc as [(? & ? & ?)|(? & ? & ?)]; nia.
    - assert (repl = false) as -> by (unfold unchecked in Hun; destruct repl; naive_solver). apply Hplain. destruct Hc as [(? & ? & ?)|(? & ? & ?)]; nia.
  Qed.
End plans.

(** ** Chunk windows *)

(** The windows of the chunks of one KV part, in chunk order. *)
Definition part_windows (n per part total : Z) : list (Z * Z) :=
  seqZ 0 total ≫= λ c,
    let '(start, count, p) := compression_chunk_window c n per in
    if p =? part then [(start, count)] else [].

(** The chunks of a part among the first [2 * m]: one window per pair. *)
Lemma part_windows_eq n per part m :
  part = 0 ∨ part = 1 → 0 ≤ m →
  part_windows n per part (2 * m)
  = (λ j, (j * per, Z.min per (n - j * per))) <$> seqZ 0 m.
Proof.
  intros Hpart Hm. rewrite <- (Z2Nat.id m) by done. clear Hm. unfold part_windows.
  induction (Z.to_nat m) as [|j IH]; [done|].
  replace (2 * Z.of_nat (S j)) with (2 * Z.of_nat j + 2) by lia.
  rewrite seqZ_app, bind_app, IH by lia. rewrite seqZ_S, fmap_app. f_equal.
  rewrite (seqZ_cons _ 2), (seqZ_cons _ (Z.pred 2)) by lia. simpl.
  unfold compression_chunk_window. rewrite !Z.add_0_l.
  replace (2 * Z.of_nat j / 2) with (Z.of_nat j) by (apply Z.div_unique_exact; lia).
  replace (Z.succ (2 * Z.of_nat j) / 2) with (Z.of_nat j)
    by (apply (Z.div_unique _ _ _ 1); lia).
  replace ((2 * Z.of_nat j) mod 2) with 0 by (apply (Z.mod_unique _ _ (Z.of_nat j)); lia).
  replace (Z.succ (2 * Z.of_nat j) mod 2) with 1
    by (apply (Z.mod_unique _ _ (Z.of_nat j)); lia).
  destruct Hpart as [-> | ->]; reflexivity.
Qed.

Lemma ceil_div_bounds n per :
  0 < per → 0 ≤ n →
  let m := (n + per - 1) / per in
  0 ≤ m ∧ (m - 1) * per < n ≤ m * per.
Proof.
  intros Hper Hn m. pose proof (Z.div_mod (n + per - 1) per ltac:(lia)) as Hd.
  pose proof (Z.mod_pos_bound (n + per - 1) per Hper). fold m in Hd.
  split; [nia|]. nia.
Qed.

(** The suffix of [n] blocks that ends a request of [num] tokens holds more
    than [n - 1] blocks of tokens and at most [n]. *)
Lemma suffix_bounds num bs n :
  0 < bs → 0 < n →
  let v := num - ((num + bs - 1) / bs - n) * bs in
  (n - 1) * bs < v ≤ n * bs.
Proof.
  intros Hbs Hn v. pose proof (Z.div_mod (num + bs - 1) bs ltac:(lia)).
  pose proof (Z.mod_pos_bound (num + bs - 1) bs Hbs). nia.
Qed.

(** The token count of a chunk's window. *)
Definition window_tokens (valid bs : Z) (w : Z * Z) : Z :=
  Z.min (valid - w.1 * bs) (w.2 * bs).

(** Over windows that tile the blocks, the token counts of the chunks are
    positive and add up to the session's count. *)
Lemma window_tokens_sum valid bs ws lo n :
  0 < bs → tiled lo ws n → (n - 1) * bs < valid ≤ n * bs →
  sumZ (window_tokens valid bs <$> ws)
    = (if (length ws =? 0)%nat then 0 else valid - lo * bs) ∧
  Forall (λ w, 0 < window_tokens valid bs w ≤ w.2 * bs) ws.
Proof.
  intros Hbs. revert lo. induction ws as [|[o c] ws IH]; intros lo Hws Hv; [done|].
  destruct Hws as (-> & Hc & Hws). destruct (IH _ Hws Hv) as [Hsum Hall].
  pose proof (tiled_le _ _ _ Hws). csimpl. rewrite Hsum.
  unfold window_tokens at 1. simpl. split.
  - destruct ws as [|[o' c'] ws]; simpl in *; [subst; nia|].
    destruct Hws as (-> & ? & Hws). apply tiled_le in Hws. nia.
  - constructor; [|done]. unfold window_tokens. simpl. nia.
Qed.

Lemma rmap_dget {V W} (f : Z * V → result (Z * W)) l l' g v :
  (∀ e e', f e = Ok e' → e'.1 = e.1) → rmap f l = Ok l' → dget l g = Some v →
  ∃ w, f (g, v) = Ok (g, w) ∧ dget l' g = Some w.
Proof.
  intros Hf. revert l'. induction l as [|[k u] l IH]; intros l'; simpl; [done|].
  intros H Hg. inv_ok. destruct x as [k' w].
  match goal with H : f (k, u) = _ |- _ => pose proof (Hf _ _ H) as Hk end.
  simpl in Hk. subst k'. simpl. case_decide as Hd; [subst; simplify_eq; eauto|].
  match goal with H : rmap f l = _ |- _ => exact (IH _ H Hg) end.
Qed.

Lemma rmap_total {A B} (f : A → result B) l :
  (∀ a, a ∈ l → is_Ok (f a)) → ∃ bs, rmap f l = Ok bs.
Proof.
  induction l as [|a l IH]; intros H; simpl; [eauto|].
  destruct (H a ltac:(set_solver)) as [b ->].
  destruct IH as [bs ->]; [set_solver|]. simpl. eauto.
Qed.

(** The tokens of group [g] that chunk [c] of a session of [n] logical blocks
    carries. *)
Definition chunk_tokens (valid sizes : list (Z * Z)) (n per g c : Z) : option Z :=
  let '(start, count, _) := compression_chunk_window c n per in
  match chunk_token_counts valid sizes start count with
  | Ok counts => dget counts g
  | Err _ => None
  end.

Lemma suffix_token_counts_group num ids sizes valid g bs :
  suffix_token_counts num ids sizes = Ok valid → dget sizes g = Some bs →
  ∃ v, dget valid g = Some v ∧ bs ≠ 0 ∧
    (ids = [] ∧ v = 0 ∨
     ∃ l, py_index ids g = Ok l ∧
       v = if zlen l =? 0 then 0
           else num - ((num + bs - 1) / bs - zlen l) * bs).
Proof.
  intros H Hg. unfold suffix_token_counts in H.
  eapply rmap_dget in H as (v & Hv & Hd); [|intros [] ? ?; inv_ok; done|done].
  exists v. split; [done|]. inv_ok.
  match goal with H : py_div _ _ = Ok _ |- _ => apply py_div_Ok in H as [? ->] end.
  simplify_eq. split; [done|]. destruct ids as [|i ids]; inv_ok; [by left|right; eauto].
Qed.

Lemma chunk_tokens_eq num ids sizes valid n per g bs v c :
  suffix_token_counts num ids sizes = Ok valid → dget sizes g = Some bs →
  dict_ok sizes → dget valid g = Some v →
  chunk_tokens valid sizes n per g c
  = Some (window_tokens v bs (compression_chunk_window c n per).1).
Proof.
  intros Hs Hg Hok Hv. unfold chunk_tokens.
  destruct (compression_chunk_window c n per) as [[start count] p] eqn:Hw.
  destruct (rmap_total (λ gb : Z * Z,
      let '(group, block_size) := gb in
      let? valid := of_option KeyError (dget valid group) in
      Ok (group, Z.min (valid - start * block_size) (count * block_size))) sizes)
    as [cs Hcs].
  { intros [g' bs'] Hin. apply elem_of_dget in Hin; [|done].
    destruct (suffix_token_counts_group _ _ _ _ _ _ Hs Hin) as (v' & -> & _).
    simpl. by eexists. }
  unfold chunk_token_counts. rewrite Hcs.
  eapply rmap_dget in Hcs as (w & Hw' & ->); [|intros [] ? ?; inv_ok; done|done].
  rewrite Hv in Hw'. simpl in Hw'. by simplify_eq.
Qed.

(** ** Alignment *)

(** The earlier regions of the same layer. *)
Definition occurrence (l : list TransferRegion) (i : nat) : Z :=
  match l !! i with
  | Some r => cnt (λ r', bool_decide (layer_name r' = layer_name r)) (take i l)
  | None => 0
  end.

Lemma keyed_regions_lookup counts l i e :
  keyed_regions counts l !! i = Some e →
  ∃ r, l !! i = Some r ∧
    e = ((layer_name r, default 0 (counts !! layer_name r) + occurrence l i), r).
Proof.
  revert counts i. induction l as [|x l IH]; intros counts [|i]; simpl; try done.
  - intros [= <-]. exists x. split; [done|]. unfold occurrence. simpl.
    by rewrite cnt_nil, Z.add_0_r.
  - intros (r & Hr & ->)%IH. exists r. split; [done|]. unfold occurrence. simpl.
    rewrite Hr, cnt_cons.
    match goal with |- (_, ?a, _) = (_, ?b, _) => cut (a = b); [by intros ->|] end.
    destruct (decide (layer_name x = layer_name r)) as [Heq|Hne].
    + rewrite Heq, lookup_insert_eq, bool_decide_true by done. simpl. lia.
    + rewrite lookup_insert_ne, bool_decide_false by done. simpl. lia.
Qed.

Lemma region_dict_elem l key y : region_dict l !! key = Some y → (key, y) ∈ l.
Proof.
  unfold region_dict. induction l as [|[k r] l IH] using rev_ind; [done|].
  rewrite foldl_snoc. simpl. destruct (decide (k = key)) as [->|].
  - rewrite lookup_insert_eq. intros [= ->]. set_solver.
  - rewrite lookup_insert_ne by done. set_solver.
Qed.

Lemma align_loop_inl m allow acc l pairs :
  align_loop m allow acc l = inl pairs →
  ∃ new, pairs = acc ++ new ∧ new.*1 `sublist_of` l.*2 ∧
    (allow = false → new.*1 = l.*2) ∧
    Forall (λ xy, ∃ key, (key, xy.1) ∈ l ∧ m !! key = Some xy.2 ∧
      layer_index xy.1 = layer_index xy.2 ∧ group_index xy.1 = group_index xy.2) new.
Proof.
  revert acc. induction l as [|[key x] l IH]; simpl; intros acc.
  { intros [= <-]. exists []. rewrite app_nil_r. split_and!; [done..|constructor]. }
  assert (Hskip : ∀ xy, (∃ key, (key, xy.1) ∈ l ∧ m !! key = Some xy.2 ∧
      layer_index xy.1 = layer_index xy.2 ∧ group_index xy.1 = group_index xy.2) →
    ∃ key', (key', xy.1) ∈ (key, x) :: l ∧ m !! key' = Some xy.2 ∧
      layer_index xy.1 = layer_index xy.2 ∧ group_index xy.1 = group_index xy.2).
  { intros xy (k & ? & ?). exists k. set_solver. }
  destruct (m !! key) as [y|] eqn:Hy.
  - repeat case_bool; try done. zbool. intros (new & -> & Hsub & Hall & Hf)%IH.
    exists ((x, y) :: new). rewrite <- app_assoc. split_and!; [done| | |].
    + csimpl. by apply sublist_skip.
    + intros Ha. csimpl. by rewrite (Hall Ha).
    + constructor; [|eapply Forall_impl; eauto]. exists key. set_solver.
  - repeat case_bool; try done. zbool. intros (new & -> & Hsub & Hall & Hf)%IH.
    exists new. split_and!; [done|by apply sublist_cons| |eapply Forall_impl; eauto].
    by subst allow.
Qed.

(** ** Properties *)

(** Session setup: when one tensor-parallel size divides the other, the
    producer rank [p] counts the consumer rank [d] among the peers it waits
    for exactly when [d] opens a session to [p], and the peers of a rank are
    distinct ranks of the other side. *)
Theorem handshake_symmetric ps ds p d targets sources :
  tp_sizes ps ds → 0 ≤ p < ps → 0 ≤ d < ds →
  handshake_target_ranks p ps ds = Ok targets →
  handshake_target_ranks d ds ps = Ok sources →
  (d ∈ targets ↔ p ∈ sources) ∧ NoDup targets ∧ Forall (λ r, 0 ≤ r < ds) targets.
Proof.
  intros Hsz Hp Hd Ht Hs.
  destruct (handshake_targets _ _ _ _ Hsz Ht) as (k & Hk & [[Hps ->]|(Hk1 & Hds & ->)]);
  destruct (handshake_targets _ _ _ _ (tp_sizes_sym _ _ Hsz) Hs)
    as (k' & Hk' & [[Hds' ->]|(Hk1' & Hps' & ->)]).
  - assert (k = 1) as -> by nia. assert (k' = 1) as -> by nia. rewrite !Z.div_1_r.
    rewrite !list_elem_of_singleton. split_and!; [split; congruence|apply NoDup_singleton|].
    apply Forall_singleton. nia.
  - assert (k' = k) as -> by nia. rewrite elem_of_targets, list_elem_of_singleton by done.
    split_and!; [split; congruence|apply NoDup_singleton|].
    apply Forall_singleton. pose proof (Z.div_pos p k). split; [lia|].
    apply Z.div_lt_upper_bound; lia.
  - assert (k' = k) as -> by nia. rewrite elem_of_targets, list_elem_of_singleton by done.
    split_and!; [split; congruence| |].
    + apply NoDup_fmap_2; [intros ??; lia|apply NoDup_seqZ].
    + apply Forall_fmap, Forall_forall. intros i ?%elem_of_seqZ. simpl. nia.
  - nia.
Qed.

Lemma handshake_symmetric_witness :
  handshake_target_ranks 1 2 8 = Ok [4; 5; 6; 7] ∧
  (5 ∈ [4; 5; 6; 7] ↔ 1 ∈ [1]).
Proof.
  split; [reflexivity|].
  apply (handshake_symmetric 2 8 1 5 [4; 5; 6; 7] [1]); try reflexivity; try lia.
  split; [lia|lia|left; exists 4; reflexivity].
Defined.

(** C8 Heterogeneous tensor parallelism: once the region lengths of the two
    sides validate, the producer ranks that a consumer rank contacts write, in
    rank order, once and without gap or overlap, its whole block of every region
    when the producer's cache is not replicated or the number of KV heads is
    given, also where ranks of either side replicate heads; without that number,
    as the connector calls the plan, a replicated producer writes one whole
    block of its own, which is the consumer's whole block only when they are
    equally long ([replicated_part_unwritten]). The ranks read only inside their
    own blocks. *)
Theorem sender_plan_tiles ls rs l r d repl total i x y sources :
  tp_sizes l r → 0 ≤ d < r → heads_ok total l r repl →
  validate_asymmetric_region_lengths ls rs l r repl total = Ok None →
  ls !! i = Some x → rs !! i = Some y → 0 < kv_block_len x → 0 < kv_block_len y →
  handshake_target_ranks d r l = Ok sources →
  ∃ plans,
    rmap (λ p, compute_sender_transfer_plan p l d r (kv_block_len x) (kv_block_len y)
                 repl total) sources = Ok plans ∧
    tiled 0 (plans ≫= writes) (written total repl (kv_block_len x) (kv_block_len y)) ∧
    Forall (λ s, 0 ≤ s.1 ∧ s.1 + s.2 ≤ kv_block_len x) (plans ≫= reads).
Proof.
  intros Hsz Hd Hh Hval Hx Hy Hxp Hyp Hs.
  pose proof (validate_lengths _ _ _ _ _ _ _ _ _ Hh Hval Hx Hy) as Hfit.
  assert (Hl := tp_local _ _ Hsz). assert (Hr := tp_remote _ _ Hsz).
  assert (Hcase : (∃ t, 0 < t ∧ l = r * t ∧ sources = (λ i, d * t + i) <$> seqZ 0 t) ∨
                  ∃ k, 1 < k ∧ r = l * k ∧ sources = [d / k]).
  { destruct (handshake_targets _ _ _ _ (tp_sizes_sym _ _ Hsz) Hs)
      as (k & Hk & [[Hrl ->]|(Hk1 & Hlr & ->)]); [|left; exists k; split_and!; done].
    destruct (decide (k = 1)) as [->|]; [left; exists 1|right; exists k; split_and!; [lia|done..]].
    split_and!; [lia..|]. simpl. f_equal. rewrite Z.div_1_r. lia. }
  destruct Hcase as [(t & Ht & Hlt & ->)|(k & Hk & Hrk & ->)].
  - destruct (plan_gather l r d _ _ repl total Hl Hr Hd Hxp Hyp Hh Hfit t Ht Hlt)
      as (n & m & Hm & Htm & Hyn & Hplan).
    exists ((λ i, (i mod m =? 0, 0, i / m * kv_block_len x, kv_block_len x)) <$> seqZ 0 t).
    split_and!.
    + apply rmap_Ok, Forall2_fmap_l, Forall2_fmap_r, Forall_Forall2_diag, Forall_forall.
      intros j Hj%elem_of_seqZ. apply Hplan. lia.
    + rewrite list_fmap_bind, Htm, Hyn. apply tiled_strided; nia.
    + apply Forall_forall. intros s (pl & Hin & Hpl)%list_elem_of_bind.
      apply list_elem_of_fmap in Hpl as (j & -> & _). simpl in Hin.
      destruct (j mod m =? 0); [|by apply elem_of_nil in Hin].
      apply list_elem_of_singleton in Hin as ->. simpl. lia.
  - destruct (plan_scatter l r d _ _ repl total Hl Hr Hd Hxp Hyp Hh Hfit k Hk Hrk)
      as (src & Hplan & ? & ?).
    eexists. simpl. rewrite Hplan. split_and!; [done| |by repeat constructor].
    assert (0 < written total repl (kv_block_len x) (kv_block_len y)) by (unfold written; destruct total, repl; lia).
    simpl. split_and!; lia.
Qed.

Definition ex_region (len : Z) : TransferRegion := mkRegion "model.layers.0.attn" 0 4096 len len 0.

(** Eight producer ranks replicate four KV heads for two consumer ranks. *)
Lemma sender_plan_tiles_witness :
  handshake_target_ranks 1 2 8 = Ok [4; 5; 6; 7] ∧
  ∃ plans,
    rmap (λ p, compute_sender_transfer_plan p 8 1 2 128 256 true (Some 4)) [4; 5; 6; 7]
      = Ok plans ∧
    tiled 0 (plans ≫= writes) 256 ∧
    Forall (λ s, 0 ≤ s.1 ∧ s.1 + s.2 ≤ 128) (plans ≫= reads).
Proof.
  split; [reflexivity|].
  apply (sender_plan_tiles [ex_region 128] [ex_region 256] 8 2 1 true (Some 4) 0
           (ex_region 128) (ex_region 256) [4; 5; 6; 7]); try reflexivity; try lia.
  - split; [lia|lia|right; exists 4; reflexivity].
  - simpl. split_and!; [lia|reflexivity|intros; exists 2; reflexivity|lia].
Defined.

(** What the connector does when the ranks of a producer replicate their heads
    and a consumer rank holds several: the regions are accepted whatever their
    lengths, one of the ranks sends its block and the rest of the consumer's
    block is not written. *)
Lemma replicated_part_unwritten :
  validate_asymmetric_region_lengths [ex_region 128] [ex_region 256] 8 2 true None = Ok None ∧
  ∃ plans, rmap (λ p, compute_sender_transfer_plan p 8 1 2 128 256 true None) [4; 5; 6; 7] = Ok plans ∧
    plans ≫= writes = [(0, 128)].
Proof. split; [reflexivity|]. eexists. split; [reflexivity|]. reflexivity. Qed.

(** The chunks of a session cover its logical blocks: for each of the two
    KV parts the windows of that part's chunks are non-empty and tile the
    blocks from the first to the last. *)
Theorem chunk_windows_cover n per part total :
  0 < per → 0 ≤ n → part = 0 ∨ part = 1 →
  compression_total_chunks n per = Ok total →
  tiled 0 (part_windows n per part total) n.
Proof.
  intros Hper Hn Hpart H. unfold compression_total_chunks in H. inv_ok.
  match goal with H : py_div _ _ = _ |- _ => apply py_div_Ok in H as [_ ->] end.
  destruct (ceil_div_bounds n per Hper Hn). rewrite Z.mul_comm, part_windows_eq by done.
  by apply windows_tiled.
Qed.

Lemma chunk_windows_cover_witness :
  part_windows 5 2 1 6 = [(0, 2); (2, 2); (4, 1)] ∧ tiled 0 (part_windows 5 2 1 6) 5.
Proof.
  split; [reflexivity|].
  apply (chunk_windows_cover 5 2 1 6); [lia|lia|by right|reflexivity].
Defined.

(** Token accounting: over the chunks of each KV part the token counts of
    a full-attention group are positive, none exceeds the capacity of its
    chunk's blocks, and together they are the tokens of the transferred
    suffix. *)
Theorem chunk_tokens_sum num ids sizes valid n per g bs l total part :
  0 < per → 0 < bs → dict_ok sizes → part = 0 ∨ part = 1 →
  suffix_token_counts num ids sizes = Ok valid →
  dget sizes g = Some bs → py_index ids g = Ok l → zlen l = n → 0 < n →
  compression_total_chunks n per = Ok total →
  ∃ v, dget valid g = Some v ∧ (n - 1) * bs < v ≤ n * bs ∧
    let chunks := filter (λ c, c mod 2 = part) (seqZ 0 total) in
    ∃ ts, mapM (chunk_tokens valid sizes n per g) chunks = Some ts ∧
      Forall (λ t, 0 < t ≤ per * bs) ts ∧ sumZ ts = v.
Proof.
  intros Hper Hbs Hok Hpart Hs Hg Hl Hn Hn0 Ht.
  destruct (suffix_token_counts_group _ _ _ _ _ _ Hs Hg) as (v & Hv & _ & [[-> _]|Hcase]).
  { unfold py_index, of_option in Hl. rewrite lookup_nil in Hl. by case_bool. }
  destruct Hcase as (l' & Hl' & Hveq). rewrite Hl in Hl'. simplify_eq.
  rewrite (proj2 (Z.eqb_neq _ 0)) in Hv by lia.
  set (v := num - ((num + bs - 1) / bs - zlen l') * bs) in Hv.
  pose proof (suffix_bounds num bs (zlen l') Hbs Hn0) as Hb.
  cbv zeta in Hb. fold v in Hb.
  exists v. split_and!; [done|apply Hb..|]. intros chunks.
  assert (Hwin : part_windows (zlen l') per part total
                 = (λ c, (compression_chunk_window c (zlen l') per).1) <$> chunks).
  { unfold part_windows, chunks. induction (seqZ 0 total) as [|c cs IH]; [done|].
    change (c :: cs) with ([c] ++ cs). rewrite bind_app, filter_app, fmap_app, IH. f_equal.
    unfold compression_chunk_window. simpl. rewrite filter_cons.
    case_decide as Hc; [by rewrite (proj2 (Z.eqb_eq _ _) Hc)|].
    by rewrite (proj2 (Z.eqb_neq _ _) Hc). }
  exists ((λ c, window_tokens v bs (compression_chunk_window c (zlen l') per).1) <$> chunks).
  assert (Htile : tiled 0 (part_windows (zlen l') per part total) (zlen l')).
  { unfold compression_total_chunks in Ht. inv_ok.
    match goal with H : py_div _ _ = _ |- _ => apply py_div_Ok in H as [_ ->] end.
    destruct (ceil_div_bounds (zlen l') per Hper ltac:(lia)).
    rewrite Z.mul_comm, part_windows_eq by done. apply windows_tiled; auto; lia. }
  destruct (window_tokens_sum v bs _ _ _ Hbs Htile Hb) as [Hsum Hall].
  rewrite Hwin in Hsum, Hall, Htile. split_and!.
  - apply mapM_Some, Forall2_fmap_r, Forall_Forall2_diag, Forall_true.
    intros c. by eapply chunk_tokens_eq.
  - apply Forall_fmap. apply Forall_fmap in Hall. eapply Forall_impl; [exact Hall|].
    intros c. simpl. nia.
  - rewrite <- list_fmap_compose in Hsum. unfold compose in Hsum. rewrite Hsum.
    destruct chunks; [simpl in Htile; lia|]. simpl. lia.
Qed.

Lemma chunk_tokens_sum_witness :
  ∃ v, dget [(0, 72)] 0 = Some v ∧ (5 - 1) * 16 < v ≤ 5 * 16 ∧
    let chunks := filter (λ c, c mod 2 = 1) (seqZ 0 6) in
    ∃ ts, mapM (chunk_tokens [(0, 72)] [(0, 16)] 5 2 0) chunks = Some ts ∧
      Forall (λ t, 0 < t ≤ 2 * 16) ts ∧ sumZ ts = v.
Proof.
  apply (chunk_tokens_sum 200 [[3; 4; 5; 6; 7]] [(0, 16)] [(0, 72)] 5 2 0 16
           [3; 4; 5; 6; 7] 6 1); try reflexivity; try lia.
  repeat constructor. set_solver.
Defined.

(** Region alignment is sound: without an error the two sides' regions
    come in pairs that agree on layer name, layer index, cache group and
    occurrence number of the layer, and unless partial layers are allowed no
    producer region is dropped. *)
Theorem align_regions_sound local remote allow al ar :
  align_transfer_regions local remote allow = (al, ar, None) →
  length al = length ar ∧ al `sublist_of` local ∧ (allow = false → al = local) ∧
  ∀ k x y, al !! k = Some x → ar !! k = Some y →
    layer_name x = layer_name y ∧ layer_index x = layer_index y ∧
    group_index x = group_index y ∧
    ∃ i j, local !! i = Some x ∧ remote !! j = Some y ∧
      occurrence local i = occurrence remote j.
Proof.
  unfold align_transfer_regions.
  destruct (align_loop _ _ _ _) as [pairs|e] eqn:Hloop; [|done]. intros [= <- <-].
  assert (Hkeys : (keyed_regions ∅ local).*2 = local).
  { clear. generalize (∅ : gmap string Z). induction local as [|x l IH]; intros; [done|].
    csimpl. by rewrite IH. }
  apply align_loop_inl in Hloop as (new & -> & Hsub & Hall & Hf). simpl.
  rewrite Hkeys in Hsub, Hall. split_and!; [by rewrite !length_fmap|done..|].
  intros k x y Hx Hy. rewrite !list_lookup_fmap in Hx, Hy.
  destruct (new !! k) as [[x' y']|] eqn:Hk; [|done]. simplify_eq/=.
  rewrite Forall_forall in Hf. apply list_elem_of_lookup_2 in Hk.
  destruct (Hf _ Hk) as (key & Hin & Hm & Hli & Hgi). simpl in *.
  apply region_dict_elem in Hm.
  apply list_elem_of_lookup in Hin as [i Hi]. apply list_elem_of_lookup in Hm as [j Hj].
  apply keyed_regions_lookup in Hi as (? & Hi & Hki).
  apply keyed_regions_lookup in Hj as (? & Hj & Hkj). simplify_eq.
  match goal with H : _ + occurrence remote j = _ |- _ =>
    rewrite !lookup_empty in H; simpl in H end.
  split_and!; [congruence|done..|]. exists i, j. split_and!; [done..|lia].
Qed.

Lemma align_regions_sound_witness :
  let a := mkRegion "l0" 0 100 8 8 0 in
  let b := mkRegion "l0" 0 200 8 8 0 in
  let c := mkRegion "l1" 1 300 8 8 0 in
  align_transfer_regions [a; b; c] [c; b; a] false = ([a; b; c], [b; a; c], None) ∧
  length [a; b; c] = length [b; a; c].
Proof.
  intros a b c. split; [vm_compute; reflexivity|].
  apply (align_regions_sound [a; b; c] [c; b; a] false). vm_compute. reflexivity.
Defined.

(** Block tables: matching a producer's and a consumer's block tables
    keeps, in every group, the consumer's blocks and the producer's last blocks
    (the prefix the consumer already has is dropped), never more producer
    than consumer blocks. *)
Theorem match_blocks_suffix mamba null locals remotes lr rr g l :
  match_compression_blocks mamba null locals remotes = Ok (lr, rr) →
  lr !! g = Some l →
  ∃ m lg rg r, mamba !! g = Some m ∧ locals !! g = Some lg ∧ rr !! g = Some r ∧
    (remotes ≠ [] → remotes !! g = Some rg) ∧ (remotes = [] → rg = []) ∧
    r = (if m : bool then filter (λ v, v ≠ null) rg else rg) ∧
    l `suffix_of` (if m then filter (λ v, v ≠ null) lg else lg) ∧
    length l = Nat.min (length (if m then filter (λ v, v ≠ null) lg else lg)) (length r).
Proof.
  unfold match_compression_blocks. intros H Hl. inv_ok. simplify_eq.
  match goal with H : rmap _ _ = _ |- _ => apply rmap_Ok in H; rename H into Hm end.
  rewrite list_lookup_fmap in Hl. destruct (x !! g) as [[l' r']|] eqn:Hx; [|done].
  simplify_eq/=. destruct (Forall2_lookup_r _ _ _ _ _ Hm Hx) as ([i [lg rg]] & Hi & He).
  rewrite list_lookup_imap in Hi. destruct (zip _ _ !! g) as [[lg' rg']|] eqn:Hz; [|done].
  apply Some_inj in Hi. injection Hi as <- -> ->.
  apply rbind_Ok in He as (m & Hmg & He). destruct (mamba !! g) eqn:Hmg'; [|done].
  apply Ok_inj in Hmg as ->. apply Ok_inj in He.
  apply lookup_zip_with_Some in Hz as (lg' & rg' & ? & Hlg & Hrg). simplify_eq.
  unfold match_group in He.
  exists m, lg', rg', r'. split_and!; [done|done|by rewrite list_lookup_fmap, Hx| | | | |].
  - intros. by destruct remotes.
  - intros ->. rewrite list_lookup_fmap, Hlg in Hrg. by simplify_eq/=.
  - by simplify_eq.
  - simplify_eq. case_bool; [|done].
    eexists. symmetry. apply take_drop.
  - simplify_eq. case_bool.
    + apply Nat.ltb_lt in Heqb. rewrite length_drop. lia.
    + apply Nat.ltb_ge in Heqb. lia.
Qed.

Lemma match_blocks_suffix_witness :
  match_compression_blocks [false; true] 0 [[4; 5; 6]; [0; 9]] [[11; 12]; [0; 13]]
    = Ok ([[5; 6]; [9]], [[11; 12]; [13]]) ∧
  ∃ m lg rg r, [false; true] !! 0%nat = Some m ∧ [[4; 5; 6]; [0; 9]] !! 0%nat = Some lg ∧
    [[11; 12]; [13]] !! 0%nat = Some r ∧
    ([[11; 12]; [0; 13]] ≠ [] → [[11; 12]; [0; 13]] !! 0%nat = Some rg) ∧
    ([[11; 12]; [0; 13]] = [] → rg = []) ∧
    r = (if m : bool then filter (λ v, v ≠ 0) rg else rg) ∧
    [5; 6] `suffix_of` (if m then filter (λ v, v ≠ 0) lg else lg) ∧
    length [5; 6] = Nat.min (length (if m then filter (λ v, v ≠ 0) lg else lg)) (length r).
Proof.
  split; [reflexivity|].
  apply (match_blocks_suffix [false; true] 0 [[4; 5; 6]; [0; 9]] [[11; 12]; [0; 13]]
           [[5; 6]; [9]] [[11; 12]; [13]] 0%nat [5; 6]); reflexivity.
Defined.
