(* ===== verification/Messages.v ===== *)
(** * Messages of the Mooncake compression sessions

    The structs of [mooncake/compression/protocol.py] (consumer and producer
    workers over ZMQ) and [mooncake/session_ipc.py] (engine process and session
    helper over a pipe). The tagged unions are inductive types; their msgpack
    encoding is the library's. *)

From S2P Require Import Prelude.

(** ** protocol.py *)

Record MooncakeXferMetadata := mkXfer {
  remote_hostname : string;
  remote_port : Z;
  remote_tp_size : Z;
  remote_tp_rank : Z;
  (** request id to transfer id and block table, in insertion order *)
  req_blocks : list (string * (string * list (list Z)));
  kv_caches_base_addr : list Z;
  block_lens : list Z;
  kv_block_lens : list Z;
  registered_layer_names : list string;
  registered_layer_indices : list Z;
  registered_group_indices : list Z;
  remote_pp_size : Z
}.

Record CompressionSessionOpen := mkOpen { so_metadata : MooncakeXferMetadata; so_nonce : string }.

Record CompressionChunkPull := mkPull {
  cp_transfer_id : string;
  cp_d_req_id : string;
  cp_chunk_id : Z;
  cp_slot_id : Z;
  cp_payload_addr : Z;
  cp_aux_addr : Z;
  cp_tail_addr : Z;
  cp_nonce : string
}.

Record CompressionAbort := mkAbort {
  ca_transfer_id : string;
  ca_d_req_id : string;
  ca_reason : string;
  ca_nonce : string
}.

Inductive CompressionRequest :=
  | ReqOpen (m : CompressionSessionOpen)
  | ReqPull (m : CompressionChunkPull)
  | ReqAbort (m : CompressionAbort).

Inductive CompressionResponse :=
  | CompressionSessionOpened (logical_block_count total_chunks : Z) (error : option string)
  | CompressionChunkReady (chunk_id data_bytes payload_bytes aux_bytes : Z)
      (error : option string)
  | CompressionAbortAck (transfer_id d_req_id nonce : string) (error : option string).

(** ** session_ipc.py *)

Record ProducerAnnouncement := mkAnnounce {
  an_p_req_id : string;
  an_transfer_id : string;
  an_local_block_ids : list (list Z);
  an_num_tokens : option Z
}.

Record ProducerPublish := mkPublish { pu_p_req_id : string; pu_transfer_id : string }.

Record ProducerMetadata := mkProducerMetadata {
  announced : list ProducerAnnouncement;
  published : list ProducerPublish;
  dropped : list string
}.

Record ConsumerRequest := mkConsumerRequest {
  cr_d_req_id : string;
  cr_transfer_id : string;
  cr_local_block_ids : list (list Z);
  cr_num_tokens : option Z;
  cr_remote_engine_id : string;
  cr_remote_bootstrap_addr : string
}.

Record OpenProducerJob := mkOpenJob {
  oj_job_id : Z;
  oj_transfer_id : string;
  oj_d_req_id : string;
  oj_nonce : string;
  oj_remote_hostname : string;
  oj_remote_port : Z;
  oj_remote_tp_size : Z;
  oj_remote_tp_rank : Z;
  oj_remote_pp_size : Z;
  oj_local_block_ids : list (list Z);
  oj_remote_block_ids : list (list Z);
  oj_num_tokens : option Z;
  oj_kv_caches_base_addr : list Z;
  oj_block_lens : list Z;
  oj_kv_block_lens : list Z;
  oj_registered_layer_names : list string;
  oj_registered_layer_indices : list Z;
  oj_registered_group_indices : list Z
}.

Record EncodeChunkJob := mkEncodeJob {
  ej_job_id : Z;
  ej_transfer_id : string;
  ej_d_req_id : string;
  ej_nonce : string;
  ej_chunk_id : Z;
  ej_slot_id : Z;
  ej_logical_block_count : Z;
  ej_local_block_ids : list (list Z);
  ej_valid_tokens_by_group : list (Z * Z);
  ej_remote_session : string;
  ej_payload_addr : Z;
  ej_aux_addr : Z;
  ej_tail_addr : Z
}.

Record DecodeChunkJob := mkDecodeJob {
  dj_job_id : Z;
  dj_transfer_id : string;
  dj_d_req_id : string;
  dj_nonce : string;
  dj_chunk_id : Z;
  dj_slot_id : Z;
  dj_logical_block_count : Z;
  dj_local_block_ids : list (list Z);
  dj_num_tokens : option Z;
  dj_codec_bytes : Z;
  dj_u8_bytes : Z
}.

Record DrainSlotsJob := mkDrainJob { sj_job_id : Z; sj_slot_ids : list Z }.

Inductive HelperJob :=
  | JobOpen (j : OpenProducerJob)
  | JobEncode (j : EncodeChunkJob)
  | JobDecode (j : DecodeChunkJob)
  | JobDrain (j : DrainSlotsJob).

Definition job_id (j : HelperJob) : Z :=
  match j with
  | JobOpen j => oj_job_id j
  | JobEncode j => ej_job_id j
  | JobDecode j => dj_job_id j
  | JobDrain j => sj_job_id j
  end.

Record JobDone := mkJobDone {
  jd_job_id : Z;
  jd_error : option string;
  jd_logical_block_count : Z;
  jd_total_chunks : Z;
  jd_local_block_ids : list (list Z);
  jd_valid_tokens_by_group : list (Z * Z);
  jd_u8_bytes : Z;
  jd_codec_bytes : Z;
  jd_aux_bytes : Z
}.

Inductive HelperToEngine :=
  | ToJob (j : HelperJob)
  | HelperReady (side_channel_port : Z)
  | Stopped
  | FinalEvent (kind req_id : string)
  | RecvDone (d_req_id : string) (failed_blocks : list Z).

Record SlotAddresses := mkSlotAddresses { sa_payload : Z; sa_aux : Z; sa_tail : Z }.

Record InitMessage := mkInit {
  needs_sender : bool;
  needs_receiver : bool;
  register_with_bootstrap : bool;
  tp_rank : Z;
  tp_size : Z;
  pp_rank : Z;
  pp_size : Z;
  engine_id : string;
  dp_rank : Z;
  hostname : string;
  rpc_port : Z;
  bootstrap_host : string;
  bootstrap_port : Z;
  slot_addresses : list SlotAddresses;
  im_kv_caches_base_addr : list Z;
  im_block_lens : list Z;
  im_kv_block_lens : list Z;
  im_registered_layer_names : list string;
  im_registered_layer_indices : list Z;
  im_registered_group_indices : list Z
}.
