(* ===== verification/Producer.v ===== *)
(** * The producer side of the session helper

    [mooncake/session_process.py], class [_SessionService]: a single-threaded
    asyncio service. Its attributes are the record [svc]; the objects that
    several attributes and coroutines share ([_SendState], [_ProducerSession])
    live in heaps and are referred to by index, as Python refers to them by
    identity. A coroutine is a task whose [frame] says at which [await] it is
    suspended; [run_frame] is the code from there to the next [await], and the
    event loop picks the next task in any order.

    Time is in milliseconds. A pipe or socket write never blocks and never
    fails, and the shutdown's task cancellation is left out. *)

From S2P Require Import Prelude PyData Transfer Messages.

(** ** Constants *)

Definition ABORT_TIMEOUT : Z := 480000.
Definition PENDING_REQ_EXPIRY : Z := ABORT_TIMEOUT + 60000.

(** ** Shared objects *)

(** [_SendState]. Its [asyncio.Event] is set exactly when [ready] becomes
    true. [expire_time] is [None] for infinity. *)
Record SendState := mkSendState {
  s_transfer_id : string;
  s_p_req_id : string;
  s_local_block_ids : list (list Z);
  s_num_tokens : option Z;
  s_ready : bool;
  s_expire_time : option Z;
  need_send : Z;
  sent : Z;
  sending : Z
}.

Definition new_send_state (transfer_id p_req_id : string) : SendState :=
  mkSendState transfer_id p_req_id [] None false None 0 0 0.

Inductive session_state := ACTIVE | COMPLETE | FAILED | CANCELLED.

Definition state_str (st : session_state) : string :=
  match st with
  | ACTIVE => "ACTIVE"
  | COMPLETE => "COMPLETE"
  | FAILED => "FAILED"
  | CANCELLED => "CANCELLED"
  end.

#[global] Instance session_state_eq_dec : EqDecision session_state.
Proof. solve_decision. Defined.

(** [_ProducerSession]; [p_send_state] refers to the heap of send states. *)
Record ProducerSession := mkProducerSession {
  p_identity : string;
  p_transfer_id : string;
  p_d_req_id : string;
  p_nonce : string;
  p_remote_session : string;
  p_local_block_ids : list (list Z);
  p_valid_tokens_by_group : list (Z * Z);
  p_logical_block_count : Z;
  p_total_chunks : Z;
  completed_chunks : Z;
  inflight_chunks : Z;
  p_state : session_state;
  p_send_state : nat
}.

(** Keys of [_closed] and [_operations] (transfer, request, nonce) and of
    [_producer_sessions] (identity, transfer, request). *)
Abbreviation okey := (string * string * string)%type.
Abbreviation pkey := (string * string * string)%type.

(** ** Suspended coroutines *)

(** The locals of [_open_producer_session]. *)
Record open_ctx := mkOpenCtx {
  oc_identity : string;
  oc_request : CompressionSessionOpen;
  oc_d_req_id : string;
  oc_transfer_id : string;
  oc_remote_block_ids : list (list Z);
  oc_state : nat;
  oc_created : bool
}.

Inductive frame :=
  (** created, not yet run *)
  | FNew (identity : string) (request : CompressionRequest)
  (** in the loop of [_wait_ready] *)
  | FReady (c : open_ctx) (deadline : Z)
  (** [_open_producer_session] awaiting its job *)
  | FOpening (c : open_ctx) (job deadline : Z)
  (** [_serve_producer_chunk] awaiting a sender slot *)
  | FSlot (identity : string) (pull : CompressionChunkPull) (session : nat)
  (** ... awaiting the encode job of its slot *)
  | FEncoding (identity : string) (pull : CompressionChunkPull) (session : nat)
      (slot job deadline : Z)
  (** ... awaiting the drain of its slot, its response fixed *)
  | FDraining (identity : string) (pull : CompressionChunkPull) (session : nat)
      (slot job deadline : Z) (response : CompressionResponse)
  (** [_abort_producer] awaiting the session's other operations *)
  | FAborting (identity : string) (abort : CompressionAbort) (session : option nat)
      (pending : gset nat) (deadline : Z)
  (** [_handle_producer_request] sending the response *)
  | FReply (identity : string) (response : CompressionResponse)
  | FDone.

(** ** The service

    A task carries its operation key, whether it is registered under it, and
    its frame; a task's number is its position in [tasks]. [results] holds the
    resolved futures. [out] and [replies] are what was written to the pipe and
    to the socket, oldest first. *)
Record svc := mkSvc {
  send_meta : list (string * nat);
  heap : list SendState;
  sender_slots : list Z;
  closed : gmap okey Z;
  operations : gmap okey (gset nat);
  producer_sessions : list (pkey * nat);
  sessions : list ProducerSession;
  next_job_id : Z;
  pending_jobs : gset Z;
  results : gmap Z JobDone;
  tasks : list (okey * bool * frame);
  out : list HelperToEngine;
  replies : list (string * CompressionResponse);
  now : Z;
  stopping : bool
}.

Definition set_send_meta (f : list (string * nat) → list (string * nat)) (s : svc) : svc :=
    mkSvc (f (send_meta s)) (heap s) (sender_slots s) (closed s) (operations s)
    (producer_sessions s) (sessions s) (next_job_id s) (pending_jobs s) (results s) (tasks s)
    (out s) (replies s) (now s) (stopping s).
Definition set_heap (f : list SendState → list SendState) (s : svc) : svc :=
    mkSvc (send_meta s) (f (heap s)) (sender_slots s) (closed s) (operations s)
    (producer_sessions s) (sessions s) (next_job_id s) (pending_jobs s) (results s) (tasks s)
    (out s) (replies s) (now s) (stopping s).
Definition set_sender_slots (f : list Z → list Z) (s : svc) : svc :=
    mkSvc (send_meta s) (heap s) (f (sender_slots s)) (closed s) (operations s)
    (producer_sessions s) (sessions s) (next_job_id s) (pending_jobs s) (results s) (tasks s)
    (out s) (replies s) (now s) (stopping s).
Definition set_closed (f : gmap okey Z → gmap okey Z) (s : svc) : svc :=
    mkSvc (send_meta s) (heap s) (sender_slots s) (f (closed s)) (operations s)
    (producer_sessions s) (sessions s) (next_job_id s) (pending_jobs s) (results s) (tasks s)
    (out s) (replies s) (now s) (stopping s).
Definition set_operations (f : gmap okey (gset nat) → gmap okey (gset nat)) (s : svc) : svc :=
    mkSvc (send_meta s) (heap s) (sender_slots s) (closed s) (f (operations s))
    (producer_sessions s) (sessions s) (next_job_id s) (pending_jobs s) (results s) (tasks s)
    (out s) (replies s) (now s) (stopping s).
Definition set_producer_sessions (f : list (pkey * nat) → list (pkey * nat)) (s : svc) : svc :=
    mkSvc (send_meta s) (heap s) (sender_slots s) (closed s) (operations s) (f (producer_sessions
    s)) (sessions s) (next_job_id s) (pending_jobs s) (results s) (tasks s) (out s) (replies s)
    (now s) (stopping s).
Definition set_sessions (f : list ProducerSession → list ProducerSession) (s : svc) : svc :=
    mkSvc (send_meta s) (heap s) (sender_slots s) (closed s) (operations s) (producer_sessions s)
    (f (sessions s)) (next_job_id s) (pending_jobs s) (results s) (tasks s) (out s) (replies s)
    (now s) (stopping s).
Definition set_next_job_id (f : Z → Z) (s : svc) : svc :=
    mkSvc (send_meta s) (heap s) (sender_slots s) (closed s) (operations s) (producer_sessions s)
    (sessions s) (f (next_job_id s)) (pending_jobs s) (results s) (tasks s) (out s) (replies s)
    (now s) (stopping s).
Definition set_pending_jobs (f : gset Z → gset Z) (s : svc) : svc :=
    mkSvc (send_meta s) (heap s) (sender_slots s) (closed s) (operations s) (producer_sessions s)
    (sessions s) (next_job_id s) (f (pending_jobs s)) (results s) (tasks s) (out s) (replies s)
    (now s) (stopping s).
Definition set_results (f : gmap Z JobDone → gmap Z JobDone) (s : svc) : svc :=
    mkSvc (send_meta s) (heap s) (sender_slots s) (closed s) (operations s) (producer_sessions s)
    (sessions s) (next_job_id s) (pending_jobs s) (f (results s)) (tasks s) (out s) (replies s)
    (now s) (stopping s).
Definition set_tasks (f : list (okey * bool * frame) → list (okey * bool * frame)) (s : svc) : svc :=
    mkSvc (send_meta s) (heap s) (sender_slots s) (closed s) (operations s) (producer_sessions s)
    (sessions s) (next_job_id s) (pending_jobs s) (results s) (f (tasks s)) (out s) (replies s)
    (now s) (stopping s).
Definition set_out (f : list HelperToEngine → list HelperToEngine) (s : svc) : svc :=
    mkSvc (send_meta s) (heap s) (sender_slots s) (closed s) (operations s) (producer_sessions s)
    (sessions s) (next_job_id s) (pending_jobs s) (results s) (tasks s) (f (out s)) (replies s)
    (now s) (stopping s).
Definition set_replies (f : list (string * CompressionResponse) → list (string * CompressionResponse)) (s : svc) : svc :=
    mkSvc (send_meta s) (heap s) (sender_slots s) (closed s) (operations s) (producer_sessions s)
    (sessions s) (next_job_id s) (pending_jobs s) (results s) (tasks s) (out s) (f (replies s))
    (now s) (stopping s).
Definition set_now (f : Z → Z) (s : svc) : svc :=
    mkSvc (send_meta s) (heap s) (sender_slots s) (closed s) (operations s) (producer_sessions s)
    (sessions s) (next_job_id s) (pending_jobs s) (results s) (tasks s) (out s) (replies s) (f
    (now s)) (stopping s).
Definition set_stopping (f : bool → bool) (s : svc) : svc :=
    mkSvc (send_meta s) (heap s) (sender_slots s) (closed s) (operations s) (producer_sessions s)
    (sessions s) (next_job_id s) (pending_jobs s) (results s) (tasks s) (out s) (replies s)
    (now s) (f (stopping s)).


Definition update_state (sid : nat) (f : SendState → SendState) : svc → svc :=
  set_heap (alter f sid).
Definition update_session (pid : nat) (f : ProducerSession → ProducerSession) : svc → svc :=
  set_sessions (alter f pid).
Definition to_engine (m : HelperToEngine) : svc → svc := set_out (λ l, l ++ [m]).

Definition set_sending (x : SendState) (sending sent need : Z) : SendState :=
  mkSendState (s_transfer_id x) (s_p_req_id x) (s_local_block_ids x) (s_num_tokens x)
    (s_ready x) (s_expire_time x) need sent sending.

Definition set_p (x : ProducerSession) (completed inflight : Z) (st : session_state) :
    ProducerSession :=
  mkProducerSession (p_identity x) (p_transfer_id x) (p_d_req_id x) (p_nonce x)
    (p_remote_session x) (p_local_block_ids x) (p_valid_tokens_by_group x)
    (p_logical_block_count x) (p_total_chunks x) completed inflight st (p_send_state x).

Definition with_state (st : session_state) (x : ProducerSession) : ProducerSession :=
  set_p x (completed_chunks x) (inflight_chunks x) st.
Definition add_inflight (d : Z) (x : ProducerSession) : ProducerSession :=
  set_p x (completed_chunks x) (inflight_chunks x + d) (p_state x).
Definition add_completed (x : ProducerSession) : ProducerSession :=
  set_p x (completed_chunks x + 1) (inflight_chunks x) (p_state x).

Definition session_key (x : ProducerSession) : pkey :=
  (p_identity x, p_transfer_id x, p_d_req_id x).
Definition session_op (x : ProducerSession) : okey :=
  (p_transfer_id x, p_d_req_id x, p_nonce x).

Definition is_closed (k : okey) (s : svc) : bool := bool_decide (is_Some (closed s !! k)).

(** ** Messages from the engine *)

Definition announce (a : ProducerAnnouncement) (s : svc) : svc :=
  let tid := an_transfer_id a in
  let (sid, s) :=
    match dget (send_meta s) tid with
    | Some sid => (sid, s)
    | None =>
        let sid := length (heap s) in
        (sid, set_send_meta (λ d, dset d tid sid)
                (set_heap (λ h, h ++ [new_send_state tid ""]) s))
    end in
  update_state sid (λ x,
    mkSendState (s_transfer_id x) (an_p_req_id a) (an_local_block_ids a) (an_num_tokens a)
      true (Some (now s + ABORT_TIMEOUT)) (need_send x) (sent x) (sending x)) s.

Definition publish (p : ProducerPublish) (s : svc) : svc :=
  let tid := pu_transfer_id p in
  match dget (send_meta s) tid with
  | None =>
      let sid := length (heap s) in
      set_send_meta (λ d, dset d tid sid)
        (set_heap (λ h, h ++ [new_send_state tid (pu_p_req_id p)]) s)
  | Some sid =>
      update_state sid (λ x,
        if String.eqb (s_p_req_id x) "" then
          mkSendState (s_transfer_id x) (pu_p_req_id p) (s_local_block_ids x) (s_num_tokens x)
            (s_ready x) (s_expire_time x) (need_send x) (sent x) (sending x)
        else x) s
  end.

Definition apply_producer_metadata (m : ProducerMetadata) (s : svc) : svc :=
  let s := foldl (flip announce) s (announced m) in
  let s := foldl (flip publish) s (published m) in
  foldl (λ s tid, set_send_meta (λ d, ddel d tid) s) s (dropped m).

(** The [JobDone] branch of [_on_engine_message]: resolve the job's future. *)
Definition on_job_done (r : JobDone) (s : svc) : svc :=
  if decide (jd_job_id r ∈ pending_jobs s) then
    set_results (insert (jd_job_id r) r)
      (set_pending_jobs (λ p, p ∖ {[jd_job_id r]}) s)
  else s.

(** [_submit], up to its [await]: [mk] builds the job from the new id. *)
Definition submit (mk : Z → HelperJob) (s : svc) : svc * Z :=
  let id := next_job_id s + 1 in
  (to_engine (ToJob (mk id))
     (set_pending_jobs (λ p, p ∪ {[id]}) (set_next_job_id (λ _, id) s)), id).

(** ... and its end: the result, or [None] on [asyncio.TimeoutError]. The
    outer [None] is a future still pending before its deadline. *)
Definition await_job (job deadline : Z) (s : svc) : option (option JobDone * svc) :=
  match results s !! job with
  | Some r => Some (Some r, s)
  | None =>
      if deadline <=? now s then Some (None, set_pending_jobs (λ p, p ∖ {[job]}) s)
      else None
  end.

(** ** Ending sessions *)

Definition finish_send_meta (sid : nat) (s : svc) : svc :=
  let s := update_state sid
             (λ x, set_sending x (sending x - 1) (sent x + 1) (need_send x)) s in
  match heap s !! sid with
  | None => s
  | Some x =>
      if sent x =? need_send x then
        match dget (send_meta s) (s_transfer_id x) with
        | Some _ =>
            to_engine (FinalEvent "sending" (s_p_req_id x))
              (set_send_meta (λ d, ddel d (s_transfer_id x)) s)
        | None => s
        end
      else s
  end.

(** [self._producer_sessions.pop(key, None)] *)
Definition pop_session (key : pkey) (s : svc) : svc :=
  set_producer_sessions (λ d, ddel d key) s.

Definition complete_producer_session (identity : string) (pid : nat) (s : svc) : svc :=
  match sessions s !! pid with
  | None => s
  | Some x =>
      let key := (identity, p_transfer_id x, p_d_req_id x) in
      let popped := dget (producer_sessions s) key in
      let s := pop_session key s in
      if decide (popped = Some pid) then
        finish_send_meta (p_send_state x)
          (set_closed (insert (session_op x) (now s + PENDING_REQ_EXPIRY))
             (update_session pid (with_state COMPLETE) s))
      else s
  end.

Definition ended (st : session_state) : bool :=
  match st with CANCELLED | FAILED => true | _ => false end.

Definition discard_producer_session (key : pkey) (pid : nat) (s : svc) : svc :=
  let popped := dget (producer_sessions s) key in
  let s := pop_session key s in
  if decide (popped = Some pid) then
    match sessions s !! pid with
    | None => s
    | Some x =>
        if ended (p_state x) then finish_send_meta (p_send_state x) s
        else update_state (p_send_state x)
               (λ y, set_sending y (sending y - 1) (sent y) (need_send y)) s
    end
  else s.

(** ** Opening a session *)

(** [str(exc)] of the exceptions an open can meet. *)
Definition exn_str (e : exn) : string :=
  match e with
  | ValueError m | RuntimeError m | TimeoutError m => m
  | ZeroDivisionError => "integer division or modulo by zero"
  | _ => ""
  end.

(** [str(asyncio.TimeoutError())], which [wait_for] raises. *)
Definition timeout_str : string := "".

(** The [except] clause; [claimed] is [send_target_claimed]. *)
Definition open_fail (c : open_ctx) (claimed : bool) (msg : string) (s : svc) : svc * frame :=
  let s := if claimed then finish_send_meta (oc_state c) s else s in
  let s :=
    match heap s !! oc_state c with
    | Some x =>
        if oc_created c &&
           bool_decide (dget (send_meta s) (oc_transfer_id c) = Some (oc_state c)) &&
           negb (s_ready x) && String.eqb (s_p_req_id x) "" && (sending x =? 0)
        then set_send_meta (λ d, ddel d (oc_transfer_id c)) s
        else s
    | None => s
    end in
  (s, FReply (oc_identity c) (CompressionSessionOpened 0 0 (Some msg))).

Definition open_op (c : open_ctx) : okey :=
  (oc_transfer_id c, oc_d_req_id c, so_nonce (oc_request c)).

(** After [_wait_ready]: claim a send target and submit the open job. *)
Definition open_claim (init : InitMessage) (c : open_ctx) (s : svc) : svc * frame :=
  let md := so_metadata (oc_request c) in
  match handshake_target_ranks (tp_rank init) (tp_size init) (remote_tp_size md) with
  | Err e => open_fail c false (exn_str e) s
  | Ok remote_tp_ranks =>
      let s := update_state (oc_state c) (λ x,
                 set_sending x (sending x + 1) (sent x)
                   (if need_send x =? 0 then zlen remote_tp_ranks else need_send x)) s in
      if is_closed (open_op c) s then
        open_fail c true "Session was aborted before KV transfer." s
      else
        let x := default (new_send_state "" "") (heap s !! oc_state c) in
        let (s, job) := submit (λ id, JobOpen
          (mkOpenJob id (oc_transfer_id c) (oc_d_req_id c) (so_nonce (oc_request c))
             (remote_hostname md) (remote_port md) (remote_tp_size md) (remote_tp_rank md)
             (remote_pp_size md) (s_local_block_ids x) (oc_remote_block_ids c)
             (s_num_tokens x) (kv_caches_base_addr md) (block_lens md) (kv_block_lens md)
             (registered_layer_names md) (registered_layer_indices md)
             (registered_group_indices md))) s in
        (s, FOpening c job (now s + ABORT_TIMEOUT))
  end.

(** One turn of the loop of [_wait_ready], and what follows it. *)
Definition wait_ready (init : InitMessage) (c : open_ctx) (deadline : Z) (s : svc) :
    svc * frame :=
  if match heap s !! oc_state c with Some x => s_ready x | None => false end
  then open_claim init c s
  else if is_closed (open_op c) s then
    open_fail c false "Session aborted before producer became ready." s
  else if deadline - now s <=? 0 then
    open_fail c false "Producer block table was not announced in time." s
  else (s, FReady c deadline).

(** The start of [_open_producer_session]. With no entry [next] raises
    outside the [try], the task fails and nothing is answered. *)
Definition open_producer_session (init : InitMessage) (identity : string)
    (request : CompressionSessionOpen) (s : svc) : svc * frame :=
  match req_blocks (so_metadata request) with
  | [] => (s, FDone)
  | (d_req_id, (transfer_id, remote_block_ids)) :: _ =>
      let '(sid, created, s) :=
        match dget (send_meta s) transfer_id with
        | Some sid => (sid, false, s)
        | None =>
            let sid := length (heap s) in
            (sid, true, set_send_meta (λ d, dset d transfer_id sid)
                          (set_heap (λ h, h ++ [new_send_state transfer_id ""]) s))
        end in
      wait_ready init (mkOpenCtx identity request d_req_id transfer_id remote_block_ids
                         sid created) (now s + ABORT_TIMEOUT) s
  end.

(** The open job's result: register the session. *)
Definition open_register (c : open_ctx) (r : JobDone) (s : svc) : svc * frame :=
  let md := so_metadata (oc_request c) in
  let pid := length (sessions s) in
  let x := mkProducerSession (oc_identity c) (oc_transfer_id c) (oc_d_req_id c)
             (so_nonce (oc_request c))
             (remote_hostname md ++ ":" ++ str_of_Z (remote_port md))
             (jd_local_block_ids r) (jd_valid_tokens_by_group r)
             (jd_logical_block_count r) (jd_total_chunks r) 0 0 ACTIVE (oc_state c) in
  let s := set_producer_sessions (λ d, dset d (session_key x) pid)
             (set_sessions (λ l, l ++ [x]) s) in
  let s := if p_total_chunks x =? 0 then complete_producer_session (oc_identity c) pid s
           else s in
  (s, FReply (oc_identity c)
        (CompressionSessionOpened (jd_logical_block_count r) (jd_total_chunks r) None)).

Definition open_opened (c : open_ctx) (r : option JobDone) (s : svc) : svc * frame :=
  match r with
  | None => open_fail c true timeout_str s
  | Some r =>
      match jd_error r with
      | Some e => open_fail c true e s
      | None => open_register c r s
      end
  end.

(** ** Serving a chunk *)

Definition pull_key (identity : string) (m : CompressionChunkPull) : pkey :=
  (identity, cp_transfer_id m, cp_d_req_id m).
Definition pull_op (m : CompressionChunkPull) : okey :=
  (cp_transfer_id m, cp_d_req_id m, cp_nonce m).

(** The [finally] clause, after the drain: give the slot back, and discard a
    failed or cancelled session whose last chunk this was. *)
Definition serve_finally (key : pkey) (pid : nat) (slot : option Z) (counted : bool)
    (s : svc) : svc :=
  let s := match slot with
           | Some slot => set_sender_slots (λ q, q ++ [slot]) s
           | None => s
           end in
  let s := if counted then update_session pid (add_inflight (-1)) s else s in
  match sessions s !! pid with
  | None => s
  | Some x =>
      if (inflight_chunks x =? 0) && ended (p_state x)
      then discard_producer_session key pid s else s
  end.

Definition chunk_error (m : CompressionChunkPull) (msg : string) : CompressionResponse :=
  CompressionChunkReady (cp_chunk_id m) 0 0 0 (Some msg).

(** The [except] clause, then [finally] up to the drain of the slot. *)
Definition serve_fail (identity : string) (m : CompressionChunkPull) (pid : nat)
    (slot : option Z) (counted : bool) (msg : string) (s : svc) : svc * frame :=
  let s := update_session pid (with_state FAILED) s in
  match slot with
  | Some slot =>
      let (s, job) := submit (λ id, JobDrain (mkDrainJob id [slot])) s in
      (s, FDraining identity m pid slot job (now s + ABORT_TIMEOUT) (chunk_error m msg))
  | None =>
      (serve_finally (pull_key identity m) pid None counted s,
       FReply identity (chunk_error m msg))
  end.

Definition serve_producer_chunk (identity : string) (m : CompressionChunkPull) (s : svc) :
    svc * frame :=
  match dget (producer_sessions s) (pull_key identity m) with
  | None =>
      (s, FReply identity (chunk_error m "Unknown or completed compression session."))
  | Some pid =>
      match sessions s !! pid with
      | None => (s, FDone)
      | Some x =>
          if decide (p_state x = ACTIVE) then
            (update_session pid (add_inflight 1) s, FSlot identity m pid)
          else serve_fail identity m pid None false
                 ("Compression session is " ++ state_str (p_state x) ++ ".") s
      end
  end.

(** [await self._sender_slots.get()] returns [slot]. *)
Definition serve_slot (identity : string) (m : CompressionChunkPull) (pid : nat)
    (slot : Z) (s : svc) : svc * frame :=
  match sessions s !! pid with
  | None => (s, FDone)
  | Some x =>
      if negb (bool_decide (p_state x = ACTIVE)) || is_closed (pull_op m) s then
        serve_fail identity m pid (Some slot) true
          "Session aborted while waiting for a slot." s
      else
        let (s, job) := submit (λ id, JobEncode
          (mkEncodeJob id (cp_transfer_id m) (cp_d_req_id m) (cp_nonce m) (cp_chunk_id m)
             slot (p_logical_block_count x) (p_local_block_ids x)
             (p_valid_tokens_by_group x) (p_remote_session x) (cp_payload_addr m)
             (cp_aux_addr m) (cp_tail_addr m))) s in
        (s, FEncoding identity m pid slot job (now s + ABORT_TIMEOUT))
  end.

Definition serve_encoded (identity : string) (m : CompressionChunkPull) (pid : nat)
    (slot : Z) (r : option JobDone) (s : svc) : svc * frame :=
  match r with
  | None => serve_fail identity m pid (Some slot) true timeout_str s
  | Some r =>
      match jd_error r with
      | Some e => serve_fail identity m pid (Some slot) true e s
      | None =>
          let s := update_session pid add_completed s in
          let s := match sessions s !! pid with
                   | Some x =>
                       if bool_decide (p_state x = ACTIVE) &&
                          (completed_chunks x =? p_total_chunks x)
                       then complete_producer_session identity pid s else s
                   | None => s
                   end in
          (serve_finally (pull_key identity m) pid (Some slot) true s,
           FReply identity
             (CompressionChunkReady (cp_chunk_id m) (jd_u8_bytes r) (jd_codec_bytes r)
                (jd_aux_bytes r) None))
      end
  end.

(** ** Aborting *)

Definition abort_op (m : CompressionAbort) : okey :=
  (ca_transfer_id m, ca_d_req_id m, ca_nonce m).

(** The session under the requester's key, else the first with the abort's
    transfer, request and nonce. *)
Definition abort_target (identity : string) (m : CompressionAbort) (s : svc) : option nat :=
  match dget (producer_sessions s) (identity, ca_transfer_id m, ca_d_req_id m) with
  | Some pid => Some pid
  | None =>
      snd <$> List.find (λ e, match sessions s !! e.2 with
                             | Some x => bool_decide (session_op x = abort_op m)
                             | None => false
                             end) (producer_sessions s)
  end.

(** Cancel a session; discard it unless chunks of it are in flight. *)
Definition cancel_session (key : pkey) (pid : nat) (s : svc) : svc :=
  let s := update_session pid (with_state CANCELLED) s in
  match sessions s !! pid with
  | Some x => if inflight_chunks x =? 0 then discard_producer_session key pid s else s
  | None => s
  end.

Definition abort_producer (identity : string) (m : CompressionAbort) (s : svc) :
    svc * frame :=
  let s := set_closed (insert (abort_op m) (now s + PENDING_REQ_EXPIRY)) s in
  let session := abort_target identity m s in
  let s := match session ≫= λ pid, sessions s !! pid with
           | Some x =>
               if String.eqb (p_nonce x) (ca_nonce m)
               then cancel_session (session_key x) (default 0%nat session) s else s
           | None => s
           end in
  (s, FAborting identity m session (default ∅ (operations s !! abort_op m))
        (now s + ABORT_TIMEOUT)).

(** A task that has finished. *)
Definition task_done (s : svc) (t : nat) : bool :=
  match tasks s !! t with Some (_, _, FDone) => true | _ => false end.

(** What [drain] waits for. *)
Definition drained (m : CompressionAbort) (session : option nat) (pending : gset nat)
    (s : svc) : bool :=
  forallb (task_done s) (elements pending) &&
  match session ≫= λ pid, sessions s !! pid with
  | Some x => negb (String.eqb (p_nonce x) (ca_nonce m)) || (inflight_chunks x =? 0)
  | None => true
  end.

(** After the drain: cancel every session registered meanwhile. *)
Definition abort_finish (identity : string) (m : CompressionAbort) (error : option string)
    (s : svc) : svc * frame :=
  (foldl (λ s e,
     match sessions s !! e.2 with
     | Some x => if decide (session_op x = abort_op m) then cancel_session e.1 e.2 s else s
     | None => s
     end) s (producer_sessions s),
   FReply identity
     (CompressionAbortAck (ca_transfer_id m) (ca_d_req_id m) (ca_nonce m) error)).

(** ** Running a task *)

(** From the frame's [await] to the next one; [None] when the awaited event
    has not happened. *)
Definition run_frame (init : InitMessage) (f : frame) (s : svc) : option (svc * frame) :=
  match f with
  | FNew identity (ReqOpen m) => Some (open_producer_session init identity m s)
  | FNew identity (ReqPull m) => Some (serve_producer_chunk identity m s)
  | FNew identity (ReqAbort m) => Some (abort_producer identity m s)
  | FReady c deadline => Some (wait_ready init c deadline s)
  | FOpening c job deadline =>
      r ← await_job job deadline s; Some (open_opened c r.1 r.2)
  | FSlot identity m pid =>
      match sender_slots s with
      | [] => None
      | slot :: q => Some (serve_slot identity m pid slot (set_sender_slots (λ _, q) s))
      end
  | FEncoding identity m pid slot job deadline =>
      r ← await_job job deadline s; Some (serve_encoded identity m pid slot r.1 r.2)
  | FDraining identity m pid slot job deadline response =>
      r ← await_job job deadline s;
      Some (serve_finally (pull_key identity m) pid (Some slot) true r.2,
            FReply identity response)
  | FAborting identity m session pending deadline =>
      if drained m session pending s then Some (abort_finish identity m None s)
      else if deadline <=? now s then
        Some (abort_finish identity m (Some "Producer could not drain aborted session.") s)
      else None
  | FReply identity response =>
      Some (set_replies (λ l, l ++ [(identity, response)]) s, FDone)
  | FDone => None
  end.

(** The done-callback [finished] of a registered task. *)
Definition operation_finished (key : okey) (t : nat) (s : svc) : svc :=
  match operations s !! key with
  | None => s
  | Some pending =>
      let pending := pending ∖ {[t]} in
      set_operations (if decide (pending = ∅) then delete key else insert key pending) s
  end.

Definition run_task (init : InitMessage) (t : nat) (s : svc) : option svc :=
  '(key, registered, f) ← tasks s !! t;
  '(s, f') ← run_frame init f s;
  let s := set_tasks (λ l, <[t := (key, registered, f')]> l) s in
  Some match f' with
       | FDone => if registered : bool then operation_finished key t s else s
       | _ => s
       end.

(** [_dispatch_producer] *)
Definition request_op (request : CompressionRequest) : okey :=
  match request with
  | ReqOpen m =>
      match req_blocks (so_metadata m) with
      | [(req_id, (transfer_id, _))] => (transfer_id, req_id, so_nonce m)
      | _ => ("", "", so_nonce m)
      end
  | ReqPull m => pull_op m
  | ReqAbort m => abort_op m
  end%string.

Definition is_abort (request : CompressionRequest) : bool :=
  match request with ReqAbort _ => true | _ => false end.

Definition dispatch_producer (identity : string) (request : CompressionRequest) (s : svc) : svc :=
  if stopping s && negb (is_abort request) then s
  else
    let key := request_op request in
    let t := length (tasks s) in
    let s := set_closed (filter (λ e, now s < e.2)) s in
    let registered := negb (is_abort request) in
    let s := set_tasks (λ l, l ++ [(key, registered, FNew identity request)]) s in
    if registered
    then set_operations (λ o, <[key := default ∅ (o !! key) ∪ {[t]}]> o) s else s.

(** One round of [_sweep_sends]. *)
Definition sweep_one (s : svc) (e : string * nat) : svc :=
  match heap s !! e.2 with
  | Some x =>
      if negb (String.eqb (s_p_req_id x) "") &&
         match s_expire_time x with Some t => t <? now s | None => false end &&
         (sending x =? 0)
      then set_send_meta (λ d, ddel d e.1)
             (to_engine (FinalEvent "sending_expired" (s_p_req_id x)) s)
      else s
  | None => s
  end.

Definition sweep_sends (s : svc) : svc := foldl sweep_one s (send_meta s).

Definition init_svc (init : InitMessage) : svc :=
  mkSvc [] [] (seqZ 0 (zlen (slot_addresses init))) ∅ ∅ [] [] 0 ∅ ∅ [] [] [] 0 false.

(** ** The event loop

    What can happen next: a message from the engine, a request of a consumer,
    a task resumed, a sweep, and the passing of time. *)
Inductive event :=
  | EMetadata (m : ProducerMetadata)
  | EJobDone (r : JobDone)
  | ERequest (identity : string) (request : CompressionRequest)
  | ERun (t : nat)
  | ESweep
  | ETime (d : Z)
  | EStop.

Definition handle (init : InitMessage) (e : event) (s : svc) : option svc :=
  match e with
  | EMetadata m => Some (apply_producer_metadata m s)
  | EJobDone r => Some (on_job_done r s)
  | ERequest identity request => Some (dispatch_producer identity request s)
  | ERun t => run_task init t s
  | ESweep => if stopping s then None else Some (sweep_sends s)
  | ETime d => if 0 <=? d then Some (set_now (λ n, n + d) s) else None
  | EStop => Some (set_stopping (λ _, true) s)
  end.

(** Executions whose every event satisfies [ok], given the events before it
    and the state it meets. *)
Inductive runs (init : InitMessage) (ok : list event → svc → event → Prop) :
    list event → svc → Prop :=
  | runs_nil : runs init ok [] (init_svc init)
  | runs_snoc es s e s' :
      runs init ok es s → ok es s e → handle init e s = Some s' →
      runs init ok (es ++ [e]) s'.

(** The same, executable. *)
Fixpoint handle_all (init : InitMessage) (es : list event) (s : svc) : option svc :=
  match es with
  | [] => Some s
  | e :: es => s ← handle init e s; handle_all init es s
  end.

Definition anything (_ : list event) (_ : svc) (_ : event) : Prop := True.
