(* ===== verification/ProducerInv.v ===== *)
(** * Invariants of the producer service

    Slots are conserved, [inflight_chunks] and [sending] are the exact numbers
    of operations in progress, an ended session is discarded with its last
    chunk, and the producer's blocks are not released while a session reads
    them. *)

From S2P Require Import Prelude PyData Transfer Messages Producer.

(** ** What most operations leave alone *)

Definition inflights (s : svc) : list Z := inflight_chunks <$> sessions s.
Definition skeleton (s : svc) : list (pkey * nat) :=
  (λ x, (session_key x, p_send_state x)) <$> sessions s.

(** From [s] to [s'] no slot moves, no chunk starts or ends, and no session
    is registered. *)
Record quiet (s s' : svc) : Prop := {
  q_tasks : tasks s' = tasks s;
  q_slots : sender_slots s' = sender_slots s;
  q_inflights : inflights s' = inflights s;
  q_skeleton : skeleton s' = skeleton s;
  q_heap : (length (heap s) ≤ length (heap s'))%nat;
  q_sessions : producer_sessions s' `sublist_of` producer_sessions s
}.

#[global] Instance quiet_refl : Reflexive quiet.
Proof. intros s. by split. Qed.

#[global] Instance quiet_trans : Transitive quiet.
Proof.
  intros s1 s2 s3 [] []. split; [congruence..|lia|]. by etrans.
Qed.

Lemma quiet_update_session pid f s :
  (∀ x, inflight_chunks (f x) = inflight_chunks x) →
  (∀ x, session_key (f x) = session_key x) →
  (∀ x, p_send_state (f x) = p_send_state x) →
  quiet s (update_session pid f s).
Proof.
  intros H1 H2 H3. split; try done; unfold inflights, skeleton; simpl;
    apply fmap_alter_same; [done|]. intros x. by rewrite H2, H3.
Qed.

Lemma quiet_update_state sid f s : quiet s (update_state sid f s).
Proof. split; try done. simpl. by rewrite length_alter. Qed.

Lemma quiet_to_engine m s : quiet s (to_engine m s).
Proof. done. Qed.

Lemma quiet_set_send_meta f s : quiet s (set_send_meta f s).
Proof. done. Qed.

Lemma quiet_set_closed f s : quiet s (set_closed f s).
Proof. done. Qed.

Lemma quiet_pop_session key s : quiet s (pop_session key s).
Proof. split; try done. simpl. apply sublist_filter. Qed.

Lemma quiet_submit mk s : quiet s (submit mk s).1.
Proof. done. Qed.

Lemma quiet_with_state pid st s : quiet s (update_session pid (with_state st) s).
Proof. by apply quiet_update_session. Qed.

Lemma quiet_add_completed pid s : quiet s (update_session pid add_completed s).
Proof. by apply quiet_update_session. Qed.

Lemma quiet_finish_send_meta sid s : quiet s (finish_send_meta sid s).
Proof.
  unfold finish_send_meta. etrans; [apply quiet_update_state|].
  destruct (heap _ !! sid); [|done]. case_bool; [|done]. by case_match.
Qed.

Create HintDb quiet.
#[export] Hint Resolve quiet_refl quiet_update_state quiet_to_engine quiet_set_send_meta
  quiet_set_closed quiet_pop_session quiet_submit quiet_with_state quiet_add_completed
  quiet_finish_send_meta : quiet.

Lemma quiet_complete identity pid s : quiet s (complete_producer_session identity pid s).
Proof.
  unfold complete_producer_session. destruct (sessions s !! pid); [|done]. simpl.
  case_decide; [|auto with quiet].
  etrans; [|apply quiet_finish_send_meta]. etrans; [|apply quiet_set_closed].
  etrans; [|apply quiet_with_state]. auto with quiet.
Qed.

Lemma quiet_discard key pid s : quiet s (discard_producer_session key pid s).
Proof.
  unfold discard_producer_session. simpl. case_decide; [|auto with quiet].
  etrans; [apply quiet_pop_session|]. simpl.
  destruct (sessions s !! pid); [|done]. case_bool; auto with quiet.
Qed.

Lemma quiet_cancel key pid s : quiet s (cancel_session key pid s).
Proof.
  unfold cancel_session. etrans; [apply quiet_with_state|].
  case_match; [|done]. case_bool; [|done]. apply quiet_discard.
Qed.

Lemma quiet_open_fail c claimed msg s : quiet s (open_fail c claimed msg s).1.
Proof.
  unfold open_fail. simpl. etrans; [|case_match; [case_bool|]; auto with quiet].
  destruct claimed; auto with quiet.
Qed.

Lemma quiet_open_claim init c s : quiet s (open_claim init c s).1.
Proof.
  unfold open_claim. destruct (handshake_target_ranks _ _ _); [|apply quiet_open_fail].
  etrans; [apply quiet_update_state|]. case_bool; [apply quiet_open_fail|done].
Qed.

Lemma quiet_wait_ready init c d s : quiet s (wait_ready init c d s).1.
Proof.
  unfold wait_ready. repeat case_bool;
    auto using quiet_open_claim, quiet_open_fail with quiet.
Qed.

Lemma quiet_open_start init identity m s : quiet s (open_producer_session init identity m s).1.
Proof.
  unfold open_producer_session. destruct (req_blocks _) as [|[? [? ?]] ?]; [done|].
  destruct (dget _ _); [apply quiet_wait_ready|].
  etrans; [|apply quiet_wait_ready]. split; try done. simpl. rewrite length_app. simpl. lia.
Qed.

Lemma quiet_await_job job d s r : await_job job d s = Some r → quiet s r.2.
Proof.
  unfold await_job. destruct (results s !! job); [by intros [= <-]|].
  case_bool; [|done]. by intros [= <-].
Qed.

Lemma quiet_foldl {A} (f : svc → A → svc) l s :
  (∀ s a, quiet s (f s a)) → quiet s (foldl f s l).
Proof.
  intros Hf. revert s. induction l as [|a l IH]; intros s; simpl; [done|].
  etrans; [apply Hf|apply IH].
Qed.

Lemma quiet_abort_producer identity m s : quiet s (abort_producer identity m s).1.
Proof.
  unfold abort_producer. simpl. case_match; [|apply quiet_set_closed].
  etrans; [|case_bool; [apply quiet_cancel|done]]. apply quiet_set_closed.
Qed.

Lemma quiet_abort_finish identity m e s : quiet s (abort_finish identity m e s).1.
Proof.
  unfold abort_finish. simpl. apply quiet_foldl. intros s' x.
  case_match; [|done]. case_decide; [apply quiet_cancel|done].
Qed.

#[export] Hint Resolve quiet_complete quiet_discard quiet_cancel quiet_open_fail
  quiet_open_claim quiet_wait_ready quiet_open_start quiet_abort_producer
  quiet_abort_finish : quiet.

Lemma quiet_announce a s : quiet s (announce a s).
Proof.
  unfold announce. destruct (dget _ _); [apply quiet_update_state|].
  etrans; [|apply quiet_update_state]. split; try done. simpl. rewrite length_app. simpl. lia.
Qed.

Lemma quiet_publish p s : quiet s (publish p s).
Proof.
  unfold publish. destruct (dget _ _); [apply quiet_update_state|].
  split; try done. simpl. rewrite length_app. simpl. lia.
Qed.

Lemma quiet_metadata m s : quiet s (apply_producer_metadata m s).
Proof.
  unfold apply_producer_metadata.
  etrans; [apply (quiet_foldl (flip announce)); intros; apply quiet_announce|].
  etrans; [apply (quiet_foldl (flip publish)); intros; apply quiet_publish|].
  apply (quiet_foldl (λ s tid, set_send_meta (λ d, ddel d tid) s)). auto with quiet.
Qed.

Lemma quiet_sweep s : quiet s (sweep_sends s).
Proof.
  apply quiet_foldl. intros s' e. unfold sweep_one. case_match; [|done]. by case_bool.
Qed.

Lemma quiet_operation_finished k t s : quiet s (operation_finished k t s).
Proof. unfold operation_finished. by case_match. Qed.

(** ** What a task holds *)

(** The session a chunk operation is counted on, with the key it found the
    session under; the slot it holds; the key an open will register; and the
    send state an open has claimed. *)
Definition serving (f : frame) : option (pkey * nat) :=
  match f with
  | FSlot identity m pid | FEncoding identity m pid _ _ _
  | FDraining identity m pid _ _ _ _ => Some (pull_key identity m, pid)
  | _ => None
  end.

Definition holding (f : frame) : option Z :=
  match f with
  | FEncoding _ _ _ slot _ _ | FDraining _ _ _ slot _ _ _ => Some slot
  | _ => None
  end.

Definition open_key (c : open_ctx) : pkey :=
  (oc_identity c, oc_transfer_id c, oc_d_req_id c).

Definition opening (f : frame) : option pkey :=
  match f with
  | FNew identity (ReqOpen m) =>
      match req_blocks (so_metadata m) with
      | [] => None
      | (d_req_id, (transfer_id, _)) :: _ => Some (identity, transfer_id, d_req_id)
      end
  | FReady c _ | FOpening c _ _ => Some (open_key c)
  | _ => None
  end.

Definition context (f : frame) : option open_ctx :=
  match f with FReady c _ | FOpening c _ _ => Some c | _ => None end.

Definition claiming (f : frame) : option nat :=
  match f with FOpening c _ _ => Some (oc_state c) | _ => None end.

(** The new session of a successful open. *)
Definition opened_session (c : open_ctx) (r : JobDone) : ProducerSession :=
  let md := so_metadata (oc_request c) in
  mkProducerSession (oc_identity c) (oc_transfer_id c) (oc_d_req_id c)
    (so_nonce (oc_request c)) (remote_hostname md ++ ":" ++ str_of_Z (remote_port md))
    (jd_local_block_ids r) (jd_valid_tokens_by_group r)
    (jd_logical_block_count r) (jd_total_chunks r) 0 0 ACTIVE (oc_state c).

Definition register (c : open_ctx) (r : JobDone) (s : svc) : svc :=
  set_producer_sessions (λ d, dset d (open_key c) (length (sessions s)))
    (set_sessions (λ l, l ++ [opened_session c r]) s).

(** A chunk operation ends. *)
Definition leave (pid : nat) (slot : Z) (s : svc) : svc :=
  update_session pid (add_inflight (-1)) (set_sender_slots (λ q, q ++ [slot]) s).

(** Every resumption of a task is one of five kinds of move: nothing is
    acquired or given back, a chunk operation starts, takes a slot or ends, or
    a session is registered. *)
Inductive moves (f : frame) (s : svc) : frame → svc → Prop :=
  | mv_quiet f' s' :
      quiet s s' → holding f' = holding f → serving f' = serving f →
      opening f' = opening f ∨ opening f' = None →
      (∀ c, context f' = Some c → (oc_state c < length (heap s'))%nat ∨
                                  context f = Some c) →
      moves f s f' s'
  | mv_enter identity m pid x :
      f = FNew identity (ReqPull m) →
      dget (producer_sessions s) (pull_key identity m) = Some pid →
      sessions s !! pid = Some x → p_state x = ACTIVE →
      moves f s (FSlot identity m pid) (update_session pid (add_inflight 1) s)
  | mv_take identity m pid slot q f' s' :
      f = FSlot identity m pid → sender_slots s = slot :: q →
      quiet (set_sender_slots (λ _, q) s) s' →
      serving f' = serving f → holding f' = Some slot → opening f' = None →
      context f' = None → moves f s f' s'
  | mv_leave key pid slot s1 response identity s' :
      serving f = Some (key, pid) → holding f = Some slot → opening f = None →
      quiet s s1 → s' = serve_finally key pid (Some slot) true s1 →
      moves f s (FReply identity response) s'
  | mv_open c job deadline s1 r response s' :
      f = FOpening c job deadline → quiet s s1 → s' = (if jd_total_chunks r =? 0 then
        complete_producer_session (oc_identity c) (length (sessions s1)) (register c r s1)
        else register c r s1) →
      moves f s (FReply (oc_identity c) response) s'.

(** The frame a fallible step of an open leaves. *)
Definition open_frame (c : open_ctx) (f : frame) : Prop :=
  holding f = None ∧ serving f = None ∧
  (opening f = Some (open_key c) ∧ context f = Some c ∨
   opening f = None ∧ context f = None).

Lemma open_fail_frame c claimed msg s : open_frame c (open_fail c claimed msg s).2.
Proof. split_and!; [done..|by right]. Qed.

Lemma open_claim_frame init c s : open_frame c (open_claim init c s).2.
Proof.
  unfold open_claim. destruct (handshake_target_ranks _ _ _); [|apply open_fail_frame].
  simpl. case_bool; [apply open_fail_frame|]. split_and!; [done..|by left].
Qed.

Lemma wait_ready_frame init c d s : open_frame c (wait_ready init c d s).2.
Proof.
  unfold wait_ready. repeat case_bool;
    auto using open_claim_frame, open_fail_frame.
  split_and!; [done..|by left].
Qed.

(** The chunk operation that fails while it holds a slot. *)
Lemma serve_fail_slot identity m pid slot counted msg s :
  quiet s (serve_fail identity m pid (Some slot) counted msg s).1 ∧
  ∃ job d, (serve_fail identity m pid (Some slot) counted msg s).2
           = FDraining identity m pid slot job d (chunk_error m msg).
Proof.
  unfold serve_fail. simpl. split; [|eauto].
  etrans; [apply (quiet_with_state pid FAILED)|done].
Qed.

Lemma open_start_frame init identity m s f' :
  (open_producer_session init identity m s).2 = f' →
  holding f' = None ∧ serving f' = None ∧
  (opening f' = opening (FNew identity (ReqOpen m)) ∨ opening f' = None) ∧
  ∀ c, context f' = Some c →
    (oc_state c < length (heap (open_producer_session init identity m s).1))%nat ∨
    ∃ t, dget (send_meta s) t = Some (oc_state c).
Proof.
  unfold open_producer_session. intros <-. simpl.
  destruct (req_blocks _) as [|[d [t b]] ?]; simpl; [split_and!; [done..|by left|done]|].
  destruct (dget (send_meta s) t) as [sid|] eqn:Hd.
  - match goal with |- context [wait_ready ?i ?c ?d ?s] =>
      destruct (wait_ready_frame i c d s) as (-> & -> & [[-> ->]|[-> ->]]) end;
      (split_and!; [done..|auto|]); intros c [= <-]; simpl; eauto.
  - match goal with |- context [wait_ready ?i ?c ?d ?s] =>
      pose proof (quiet_wait_ready i c d s) as Hq;
      destruct (wait_ready_frame i c d s) as (-> & -> & [[-> ->]|[-> ->]]) end;
      (split_and!; [done..|auto|]); intros c [= <-]; simpl; left.
    apply q_heap in Hq. simpl in Hq. rewrite length_app in Hq. simpl in Hq. lia.
Qed.

(** Well-formedness used by the classification: the keys of [_send_meta] map
    to states of the heap and the sessions of running chunks exist. *)
Record refs_ok (s : svc) : Prop := {
  refs_meta : ∀ t sid, dget (send_meta s) t = Some sid → (sid < length (heap s))%nat;
  refs_serving : ∀ e k pid, e ∈ tasks s → serving e.2 = Some (k, pid) →
    ∃ sid, skeleton s !! pid = Some (k, sid)
}.

Lemma skeleton_lookup s pid x :
  sessions s !! pid = Some x → skeleton s !! pid = Some (session_key x, p_send_state x).
Proof. intros H. unfold skeleton. by rewrite list_lookup_fmap, H. Qed.

Lemma skeleton_lookup_inv s pid k sid :
  skeleton s !! pid = Some (k, sid) →
  ∃ x, sessions s !! pid = Some x ∧ session_key x = k ∧ p_send_state x = sid.
Proof.
  unfold skeleton. rewrite list_lookup_fmap. destruct (sessions s !! pid) as [x|]; [|done].
  intros [= <- <-]. eauto.
Qed.

Lemma quiet_serve_fail_free identity m pid msg s :
  quiet s (serve_fail identity m pid None false msg s).1.
Proof.
  unfold serve_fail, serve_finally. simpl. etrans; [apply (quiet_with_state pid FAILED)|].
  case_match; [|done]. case_bool; [apply quiet_discard|done].
Qed.

Lemma quiet_encoded_state identity pid s :
  quiet s
    (let s := update_session pid add_completed s in
     match sessions s !! pid with
     | Some x =>
         if bool_decide (p_state x = ACTIVE) && (completed_chunks x =? p_total_chunks x)
         then complete_producer_session identity pid s else s
     | None => s
     end).
Proof.
  simpl. etrans; [apply (quiet_add_completed pid)|].
  case_match; [|done]. case_bool; [apply quiet_complete|done].
Qed.

Lemma run_frame_moves init f s s' f' t key reg :
  refs_ok s → tasks s !! t = Some (key, reg, f) →
  run_frame init f s = Some (s', f') → moves f s f' s'.
Proof.
  intros [Hmeta Hserv] Ht. apply list_elem_of_lookup_2 in Ht.
  destruct f as [identity [m|m|m]|c d|c job d|identity m pid|identity m pid slot job d
    |identity m pid slot job d resp|identity m session pending d|identity resp|];
    cbn [run_frame]; intros Hrun.
  - apply Some_inj in Hrun. destruct (open_start_frame init identity m s f')
      as (Hh & Hsv & Ho & Hc); [by rewrite Hrun|].
    pose proof (quiet_open_start init identity m s) as Hq. rewrite Hrun in Hq, Hc.
    simpl in Hq, Hc. apply mv_quiet; [done..|].
    intros c Hcx. left. destruct (Hc c Hcx) as [?|[t' Ht']]; [done|].
    apply Hmeta in Ht'. apply q_heap in Hq. lia.
  - unfold serve_producer_chunk in Hrun.
    destruct (dget _ _) as [pid|] eqn:Hd;
      [|injection Hrun as <- <-; apply mv_quiet; naive_solver].
    destruct (sessions s !! pid) as [x|] eqn:Hx;
      [|injection Hrun as <- <-; apply mv_quiet; naive_solver].
    destruct (decide (p_state x = ACTIVE)).
    + injection Hrun as <- <-. by eapply mv_enter.
    + apply Some_inj in Hrun. pose proof (quiet_serve_fail_free identity m pid
        ("Compression session is " ++ state_str (p_state x) ++ ".") s) as Hq.
      rewrite Hrun in Hq. simpl in Hq. unfold serve_fail in Hrun.
      injection Hrun as Hs' <-. apply mv_quiet; [done..|by right|done].
  - apply Some_inj in Hrun. pose proof (quiet_abort_producer identity m s) as Hq.
    rewrite Hrun in Hq. unfold abort_producer in Hrun. injection Hrun as Hs' <-.
    apply mv_quiet; [done..|by right|done].
  - apply Some_inj in Hrun. pose proof (quiet_wait_ready init c d s) as Hq.
    destruct (wait_ready_frame init c d s) as (Hh & Hsv & Ho). rewrite Hrun in Hq, Hh, Hsv, Ho.
    simpl in *. apply mv_quiet; [done..| |];
      destruct Ho as [[Ho Hc]|[Ho Hc]]; rewrite ?Ho, ?Hc; naive_solver.
  - apply bind_Some in Hrun as ([r s1] & Haw & Hrun). apply quiet_await_job in Haw as Hq1.
    apply Some_inj in Hrun. simpl in *.
    assert (Hfail : ∀ msg, open_fail c true msg s1 = (s', f') →
      moves (FOpening c job d) s f' s').
    { intros msg Hf. pose proof (quiet_open_fail c true msg s1) as Hq. rewrite Hf in Hq.
      simpl in Hq. unfold open_fail in Hf. injection Hf as _ <-.
      apply mv_quiet; [by etrans|done|done|by right|done]. }
    unfold open_opened in Hrun. destruct r as [r|]; [|eauto].
    destruct (jd_error r) eqn:E; [eauto|]. unfold open_register in Hrun.
    injection Hrun as Hs' <-. eapply mv_open; [done|exact Hq1|]. by rewrite <- Hs'.
  - destruct (sender_slots s) as [|slot q] eqn:Hslots; [done|]. apply Some_inj in Hrun.
    destruct (Hserv _ _ _ Ht eq_refl) as [sid Hsk].
    apply skeleton_lookup_inv in Hsk as (x & Hx & _ & _).
    unfold serve_slot in Hrun.
    change (sessions (set_sender_slots (λ _, q) s)) with (sessions s) in Hrun.
    rewrite Hx in Hrun.
    case_bool.
    + destruct (serve_fail_slot identity m pid slot true
        "Session aborted while waiting for a slot." (set_sender_slots (λ _, q) s))
        as (Hq & job & d & Hf'). rewrite Hrun in Hq, Hf'. simpl in Hq, Hf'. subst f'.
      by eapply mv_take.
    + injection Hrun as <- <-. by eapply mv_take.
  - apply bind_Some in Hrun as ([r s1] & Haw & Hrun). apply quiet_await_job in Haw as Hq1.
    apply Some_inj in Hrun. simpl in *. unfold serve_encoded in Hrun.
    assert (Hfail : ∀ msg, serve_fail identity m pid (Some slot) true msg s1 = (s', f') →
      moves (FEncoding identity m pid slot job d) s f' s').
    { intros msg Hf. destruct (serve_fail_slot identity m pid slot true msg s1)
        as (Hq & job' & d' & Hf'). rewrite Hf in Hq, Hf'. simpl in Hq, Hf'. subst f'.
      apply mv_quiet; [by etrans|done|done|by right|done]. }
    destruct r as [r|]; [|eauto]. destruct (jd_error r) eqn:E; [eauto|].
    injection Hrun as <- <-.
    eapply mv_leave; [done..| |done].
    etrans; [exact Hq1|]. apply quiet_encoded_state.
  - apply bind_Some in Hrun as ([r s1] & Haw & Hrun). apply quiet_await_job in Haw as Hq1.
    injection Hrun as <- <-. by eapply mv_leave.
  - assert (∃ e, (s', f') = abort_finish identity m e s) as [e He].
    { repeat case_bool; try done; apply Some_inj in Hrun; eauto. }
    pose proof (quiet_abort_finish identity m e s) as Hq. rewrite <- He in Hq.
    unfold abort_finish in He. injection He as Hs' ->.
    apply mv_quiet; [done..|by right|done].
  - injection Hrun as <- <-. apply mv_quiet; [done..|by right|done].
  - done.
Qed.

(** ** The keys of the send states *)

Definition meta_ok (s : svc) : Prop :=
  dict_ok (send_meta s) ∧
  ∀ t sid, dget (send_meta s) t = Some sid →
    ∃ x, heap s !! sid = Some x ∧ s_transfer_id x = t.

Lemma mo_ref s t sid :
  meta_ok s → dget (send_meta s) t = Some sid →
  ∃ x, heap s !! sid = Some x ∧ s_transfer_id x = t.
Proof. intros [_ H]. apply H. Qed.

Lemma meta_same s s' :
  send_meta s' = send_meta s → heap s' = heap s → meta_ok s → meta_ok s'.
Proof. intros E1 E2 [H1 H2]. split; rewrite ?E1, ?E2; done. Qed.

Lemma meta_update_state sid f s :
  (∀ x, s_transfer_id (f x) = s_transfer_id x) → meta_ok s → meta_ok (update_state sid f s).
Proof.
  intros Hf [Hd H]. split; [done|]. intros t sid' Ht.
  destruct (H t sid' Ht) as (x & Hx & Hxt). simpl.
  destruct (decide (sid = sid')) as [->|].
  - rewrite list_lookup_alter_eq, Hx. simpl. eexists; split; [done|]. by rewrite Hf.
  - rewrite list_lookup_alter_ne by done. eauto.
Qed.

Lemma meta_ddel t s : meta_ok s → meta_ok (set_send_meta (λ d, ddel d t) s).
Proof.
  intros [Hd H]. split; [by apply dict_ok_ddel|].
  intros t' sid. simpl. destruct (decide (t = t')) as [->|].
  - by rewrite dget_ddel_eq.
  - rewrite dget_ddel_ne by done. apply H.
Qed.

(** A new state registered under its transfer id. *)
Lemma meta_new t p s :
  meta_ok s →
  meta_ok (set_send_meta (λ d, dset d t (length (heap s)))
             (set_heap (λ h, h ++ [new_send_state t p]) s)).
Proof.
  intros [Hd H]. split; [by apply dict_ok_dset|].
  intros t' sid. simpl. destruct (decide (t = t')) as [->|].
  - rewrite dget_dset_eq. intros [= <-]. exists (new_send_state t' p).
    by rewrite list_lookup_middle.
  - rewrite dget_dset_ne by done. intros (x & Hx & ?)%H. exists x.
    split; [|done]. by apply lookup_app_l_Some.
Qed.

Lemma meta_finish sid s : meta_ok s → meta_ok (finish_send_meta sid s).
Proof.
  intros H. unfold finish_send_meta.
  assert (H' := meta_update_state sid
    (λ x, set_sending x (sending x - 1) (sent x + 1) (need_send x)) s (λ _, eq_refl) H).
  case_match; [|done]. case_bool; [|done]. case_match; [|done].
  eapply meta_same; [done..|]. by apply meta_ddel.
Qed.

Ltac meta_tac :=
  repeat first
    [ done
    | apply meta_finish | apply meta_ddel
    | apply meta_update_state; [done|]
    | match goal with |- meta_ok (match ?x with _ => _ end) => destruct x end
    | match goal with |- meta_ok (if ?x then _ else _) => destruct x end ].

Lemma meta_complete identity pid s :
  meta_ok s → meta_ok (complete_producer_session identity pid s).
Proof. intros H. unfold complete_producer_session. simpl. meta_tac. Qed.

Lemma meta_discard key pid s : meta_ok s → meta_ok (discard_producer_session key pid s).
Proof. intros H. unfold discard_producer_session. simpl. meta_tac. Qed.

Lemma meta_cancel key pid s : meta_ok s → meta_ok (cancel_session key pid s).
Proof.
  intros H. unfold cancel_session. repeat case_match; try done. by apply meta_discard.
Qed.

Lemma meta_open_fail c claimed msg s : meta_ok s → meta_ok (open_fail c claimed msg s).1.
Proof. intros H. unfold open_fail. simpl. destruct claimed; meta_tac. Qed.

Lemma meta_open_claim init c s : meta_ok s → meta_ok (open_claim init c s).1.
Proof.
  intros H. unfold open_claim. destruct (handshake_target_ranks _ _ _) as [ranks|e];
    [|by apply meta_open_fail].
  case_bool; [apply meta_open_fail|]; by apply meta_update_state.
Qed.

Lemma meta_wait_ready init c d s : meta_ok s → meta_ok (wait_ready init c d s).1.
Proof.
  intros H. unfold wait_ready. repeat case_bool; auto using meta_open_claim, meta_open_fail.
Qed.

Lemma meta_serve_finally key pid slot counted s :
  meta_ok s → meta_ok (serve_finally key pid slot counted s).
Proof.
  intros H. unfold serve_finally. simpl.
  repeat match goal with
  | |- meta_ok (match ?x with _ => _ end) => destruct x eqn:?
  | |- meta_ok (if ?x then _ else _) => destruct x eqn:?
  end; try apply meta_discard; destruct slot, counted; done.
Qed.

Lemma meta_serve_fail identity m pid slot counted msg s :
  meta_ok s → meta_ok (serve_fail identity m pid slot counted msg s).1.
Proof.
  intros H. unfold serve_fail. destruct slot; [done|]. by apply meta_serve_finally.
Qed.

Lemma meta_foldl {A} (f : svc → A → svc) l s :
  (∀ s a, meta_ok s → meta_ok (f s a)) → meta_ok s → meta_ok (foldl f s l).
Proof. intros Hf. revert s. induction l; simpl; eauto. Qed.

(** From the result [Some p = Some (s', f')] of a step, [s' = p.1]. *)
Ltac take_fst H :=
  apply Some_inj in H; apply (f_equal fst) in H; cbn [fst] in H;
  match type of H with _ = ?s => subst s end.

Lemma meta_run_frame init f s s' f' :
  meta_ok s → run_frame init f s = Some (s', f') → meta_ok s'.
Proof.
  intros H. assert (Haw : ∀ job d r, await_job job d s = Some r → meta_ok r.2).
  { intros job d r. unfold await_job. repeat case_match; intros; simplify_eq/=; done. }
  destruct f as [identity [m|m|m]|c d|c job d|identity m pid|identity m pid slot job d
    |identity m pid slot job d resp|identity m session pending d|identity resp|];
    cbn [run_frame]; intros Hrun.
  - take_fst Hrun. unfold open_producer_session.
    destruct (req_blocks _) as [|[? [t b]] ?]; [done|].
    destruct (dget _ _); apply meta_wait_ready; [done|]. by apply meta_new.
  - take_fst Hrun. unfold serve_producer_chunk.
    repeat case_match; try done. by apply meta_serve_fail.
  - take_fst Hrun. unfold abort_producer. simpl.
    repeat case_match; try done. by apply meta_cancel.
  - take_fst Hrun. by apply meta_wait_ready.
  - apply bind_Some in Hrun as ([r s1] & Hr%Haw & Hrun). simpl in *.
    take_fst Hrun. unfold open_opened.
    repeat case_match; try by apply meta_open_fail. unfold open_register. simpl.
    case_bool; [apply meta_complete|]; by eapply meta_same.
  - case_match; [done|]. take_fst Hrun.
    unfold serve_slot. case_match; [|done]. case_bool; [by apply meta_serve_fail|done].
  - apply bind_Some in Hrun as ([r s1] & Hr%Haw & Hrun). simpl in *.
    take_fst Hrun. unfold serve_encoded.
    destruct r as [r|]; [|by apply meta_serve_fail].
    destruct (jd_error r); [by apply meta_serve_fail|]. apply meta_serve_finally. cbn zeta.
    repeat case_match; try done. by apply meta_complete.
  - apply bind_Some in Hrun as ([r s1] & Hr%Haw & Hrun). simpl in *.
    take_fst Hrun. by apply meta_serve_finally.
  - assert (∃ e, (s', f') = abort_finish identity m e s) as [e He].
    { repeat case_bool; try done; apply Some_inj in Hrun; eauto. }
    clear Hrun. apply (f_equal fst) in He. simpl in He. subst s'.
    apply meta_foldl; [|done]. intros s1 x H1. repeat case_match; try done. by apply meta_cancel.
  - by injection Hrun as <- <-.
  - done.
Qed.

Lemma meta_handle init e s s' : meta_ok s → handle init e s = Some s' → meta_ok s'.
Proof.
  intros H. destruct e as [m|r|identity request|t| |d|]; cbn [handle]; intros Hs.
  - injection Hs as <-. unfold apply_producer_metadata.
    apply (meta_foldl (λ s tid, set_send_meta (λ d, ddel d tid) s)); [intros; by apply meta_ddel|].
    apply (meta_foldl (flip publish)).
    { intros s1 p H1. simpl. unfold publish. case_match; [|by apply meta_new].
      apply meta_update_state; [|done]. intros x. simpl. by case_bool. }
    apply (meta_foldl (flip announce)); [|done].
    intros s1 a H1. simpl. unfold announce.
    destruct (dget _ _); apply meta_update_state; try done. by apply meta_new.
  - injection Hs as <-. unfold on_job_done. by case_decide.
  - injection Hs as <-. unfold dispatch_producer. by repeat case_match.
  - unfold run_task in Hs. apply bind_Some in Hs as ([[key reg] f] & Ht & Hs).
    apply bind_Some in Hs as ([s1 f'] & Hrun & [= <-]).
    assert (meta_ok (set_tasks (λ l, <[t:=(key, reg, f')]> l) s1)).
    { apply (meta_same s1); [done..|]. by eapply meta_run_frame. }
    destruct f'; try done. destruct reg; [|done]. unfold operation_finished. by case_match.
  - case_match; [done|]. injection Hs as <-. unfold sweep_sends. apply meta_foldl; [|done].
    intros s1 x H1. unfold sweep_one. case_match; [|done]. case_bool; [by apply meta_ddel|done].
  - case_match; [|done]. by injection Hs as <-.
  - by injection Hs as <-.
Qed.
