(* ===== verification/ProducerAcc.v ===== *)
(** * Accounting of the producer service

    The counters of the service are exact: every slot is free or held by one
    chunk operation, [inflight_chunks] is the number of chunk operations of a
    session, [sending] the number of open sessions and claims of a send
    state. *)

From S2P Require Import Prelude PyData Transfer Messages Producer ProducerInv.

Abbreviation entry := (okey * bool * frame)%type.

Definition holds (slot : Z) (e : entry) : bool := bool_decide (holding e.2 = Some slot).

Definition serves (pid : nat) (e : entry) : bool :=
  match serving e.2 with Some (_, p) => bool_decide (p = pid) | None => false end.

(** The entries of [_producer_sessions] name sessions of the heap under their
    own key, and a running chunk operation its session. *)
Definition keyed (sk : list (pkey * nat)) (k : pkey) (pid : nat) : Prop :=
  ∃ sid, sk !! pid = Some (k, sid).

Record core (n : Z) (s : svc) : Prop := {
  co_slots : ∀ slot, cnt (Z.eqb slot) (sender_slots s) + cnt (holds slot) (tasks s)
                     = Z.b2z ((0 <=? slot) && (slot <? n));
  co_inflight : ∀ pid i, inflights s !! pid = Some i → i = cnt (serves pid) (tasks s);
  co_meta : meta_ok s;
  co_dict : dict_ok (producer_sessions s);
  co_sessions : ∀ k pid, (k, pid) ∈ producer_sessions s → keyed (skeleton s) k pid;
  co_serving : ∀ e k pid, e ∈ tasks s → serving e.2 = Some (k, pid) → keyed (skeleton s) k pid;
  co_heap : ∀ pid k sid, skeleton s !! pid = Some (k, sid) → (sid < length (heap s))%nat;
  co_context : ∀ e c, e ∈ tasks s → context e.2 = Some c →
    (oc_state c < length (heap s))%nat
}.

Lemma core_refs n s : core n s → refs_ok s.
Proof.
  intros H. split.
  - intros t sid Ht. destruct (mo_ref _ _ _ (co_meta _ _ H) Ht) as (x & Hx & _).
    by eapply lookup_lt_Some.
  - apply (co_serving _ _ H).
Qed.

(** ** One move *)

Definition b_holds (slot : Z) (f : frame) : Z := Z.b2z (bool_decide (holding f = Some slot)).
Definition b_serves (pid : nat) (f : frame) : Z := Z.b2z (serves pid ("", "", "", true, f)%string).

(** The effect of a move on what the invariant talks about. *)
Record delta (f : frame) (s : svc) (f' : frame) (s' : svc) : Prop := {
  d_tasks : tasks s' = tasks s;
  d_slots : ∀ slot, cnt (Z.eqb slot) (sender_slots s') + b_holds slot f'
                    = cnt (Z.eqb slot) (sender_slots s) + b_holds slot f;
  d_inflight : ∀ pid i', inflights s' !! pid = Some i' →
    (∃ i, inflights s !! pid = Some i ∧ i' - b_serves pid f' = i - b_serves pid f) ∨
    (i' = 0 ∧ (length (skeleton s) ≤ pid)%nat ∧ b_serves pid f' = b_serves pid f);
  d_skeleton : ∃ new, skeleton s' = skeleton s ++ new ∧
    Forall (λ e, (e.2 < length (heap s'))%nat) new;
  d_heap : (length (heap s) ≤ length (heap s'))%nat;
  d_dict : dict_ok (producer_sessions s');
  d_sessions : ∀ k pid, (k, pid) ∈ producer_sessions s' → keyed (skeleton s') k pid;
  d_serving : ∀ k pid, serving f' = Some (k, pid) → keyed (skeleton s') k pid;
  d_context : ∀ c, context f' = Some c → (oc_state c < length (heap s'))%nat
}.

Lemma keyed_app sk new k pid : keyed sk k pid → keyed (sk ++ new) k pid.
Proof. intros [sid H]. exists sid. by apply lookup_app_l_Some. Qed.

Lemma lookup_inflights s pid i :
  inflights s !! pid = Some i → ∃ x, sessions s !! pid = Some x ∧ inflight_chunks x = i.
Proof.
  unfold inflights. rewrite list_lookup_fmap. destruct (sessions s !! pid); [|done].
  intros [= <-]. eauto.
Qed.

Lemma inflights_length s : length (inflights s) = length (skeleton s).
Proof. unfold inflights, skeleton. by rewrite !length_fmap. Qed.

Lemma inflights_add_inflight pid d s :
  inflights (update_session pid (add_inflight d) s) = alter (λ i, i + d) pid (inflights s).
Proof.
  unfold inflights. simpl. symmetry. revert pid. induction (sessions s) as [|x l IH];
    intros [|pid]; [done..|]. csimpl. f_equal. apply IH.
Qed.

Lemma skeleton_add_inflight pid d s :
  skeleton (update_session pid (add_inflight d) s) = skeleton s.
Proof. unfold skeleton. simpl. by apply fmap_alter_same. Qed.

(** A move that is quiet up to the slots and the counter of one session. *)
Lemma quiet_sub_sessions n s s' :
  core n s → skeleton s' = skeleton s →
  producer_sessions s' `sublist_of` producer_sessions s →
  dict_ok (producer_sessions s') ∧
  ∀ k pid, (k, pid) ∈ producer_sessions s' → keyed (skeleton s') k pid.
Proof.
  intros H Hsk Hsub. split.
  - eapply sublist_NoDup; [apply (co_dict _ _ H)|]. by apply fmap_sublist.
  - intros k pid Hin. rewrite Hsk. apply (co_sessions _ _ H).
    by eapply elem_of_sublist.
Qed.

Lemma serve_finally_quiet key pid slot s :
  quiet (leave pid slot s) (serve_finally key pid (Some slot) true s).
Proof.
  unfold serve_finally, leave. simpl. case_match; [|done].
  case_bool; [apply quiet_discard|done].
Qed.

Lemma b_serves_eq pid f k p :
  serving f = Some (k, p) → b_serves pid f = Z.b2z (bool_decide (p = pid)).
Proof. unfold b_serves, serves. simpl. by intros ->. Qed.

Lemma b_serves_none pid f : serving f = None → b_serves pid f = 0.
Proof. unfold b_serves, serves. simpl. by intros ->. Qed.

Lemma b_serves_same pid f f' : serving f' = serving f → b_serves pid f' = b_serves pid f.
Proof. unfold b_serves, serves. simpl. by intros ->. Qed.

Lemma b_holds_same slot f f' : holding f' = holding f → b_holds slot f' = b_holds slot f.
Proof. unfold b_holds. by intros ->. Qed.

Lemma cnt_single slot z : cnt (Z.eqb slot) [z] = Z.b2z (bool_decide (Some z = Some slot)).
Proof.
  rewrite cnt_cons, cnt_nil. destruct (Z.eqb_spec slot z) as [->|].
  - by rewrite bool_decide_true.
  - by rewrite bool_decide_false by congruence.
Qed.

Lemma moves_delta n t key reg f s f' s' :
  core n s → tasks s !! t = Some (key, reg, f) → moves f s f' s' → delta f s f' s'.
Proof.
  intros H Ht Hm. assert (Hin := Ht). apply list_elem_of_lookup_2 in Hin.
  destruct Hm as [f' s' Hq Hh Hs Ho Hc|identity m pid x -> Hd Hx Hact
    |identity m pid slot q f' s' -> Hslots Hq Hs Hh Ho Hc
    |k pid slot s1 resp identity s' Hs Hh Ho Hq ->|c job d s1 r resp s' -> Hq ->].
  - destruct (quiet_sub_sessions _ _ _ H (q_skeleton _ _ Hq) (q_sessions _ _ Hq)) as [Hdict Hsess].
    split; [by apply Hq|..|done|done| |].
    + intros slot. by rewrite (q_slots _ _ Hq), (b_holds_same _ _ _ Hh).
    + intros pid i'. rewrite (q_inflights _ _ Hq), (b_serves_same _ _ _ Hs). eauto.
    + exists []. rewrite app_nil_r. split; [apply Hq|constructor].
    + apply Hq.
    + intros k pid. rewrite Hs, (q_skeleton _ _ Hq). by apply (co_serving _ _ H _ _ _ Hin).
    + intros c Hcx. destruct (Hc c Hcx) as [?|?]; [done|].
      pose proof (co_context _ _ H _ c Hin ltac:(done)). apply q_heap in Hq. lia.
  - apply skeleton_lookup in Hx as Hsk. pose proof (dget_elem_of _ _ _ Hd) as Hpid.
    split; [done|done| |..]; rewrite ?skeleton_add_inflight.
    + intros p i'. rewrite inflights_add_inflight. intros Hi'. left.
      rewrite (b_serves_eq p (FSlot _ _ _) (pull_key identity m) pid) by done.
      rewrite (b_serves_none p (FNew _ _)) by done.
      destruct (decide (pid = p)) as [->|].
      * rewrite bool_decide_true by done. rewrite list_lookup_alter_eq in Hi'.
        destruct (inflights s !! p) as [i|]; [|done]. exists i. split; [done|].
        injection Hi' as <-. simpl. lia.
      * rewrite bool_decide_false by done. rewrite list_lookup_alter_ne in Hi' by done.
        exists i'. split; [done|]. simpl. lia.
    + exists []. rewrite app_nil_r. split; [done|constructor].
    + done.
    + apply (co_dict _ _ H).
    + apply (co_sessions _ _ H).
    + intros k p [= <- <-]. by apply (co_sessions _ _ H).
    + done.
  - destruct (quiet_sub_sessions _ _ _ H (q_skeleton _ _ Hq) (q_sessions _ _ Hq))
      as [Hdict Hsess].
    split; [by apply Hq|..|done|done| |].
    + intros z. rewrite (q_slots _ _ Hq), Hslots. simpl.
      rewrite (cnt_app _ [slot] q : cnt _ (slot :: q) = _), cnt_single.
      unfold b_holds. rewrite Hh. simpl. lia.
    + intros p i'. rewrite (q_inflights _ _ Hq), (b_serves_same _ _ _ Hs). eauto.
    + exists []. rewrite app_nil_r. split; [apply Hq|constructor].
    + apply Hq.
    + intros k p. rewrite Hs, (q_skeleton _ _ Hq). by apply (co_serving _ _ H _ _ _ Hin).
    + intros c. by rewrite Hc.
  - assert (Hq2 := serve_finally_quiet k pid slot s1).
    destruct (quiet_sub_sessions _ _ _ H (q_skeleton _ _ Hq) (q_sessions _ _ Hq)) as [Hdict Hsess].
    split.
    + rewrite (q_tasks _ _ Hq2). apply Hq.
    + intros z. rewrite (q_slots _ _ Hq2). simpl.
      rewrite cnt_app, cnt_single, (q_slots _ _ Hq). unfold b_holds. rewrite Hh. simpl. lia.
    + intros p i'. rewrite (q_inflights _ _ Hq2). unfold leave.
      rewrite inflights_add_inflight.
      change (inflights (set_sender_slots _ s1)) with (inflights s1).
      rewrite (q_inflights _ _ Hq). intros Hi'. left.
      rewrite (b_serves_eq p f _ _ Hs), (b_serves_none p (FReply _ _)) by done.
      destruct (decide (pid = p)) as [->|].
      * rewrite bool_decide_true by done. rewrite list_lookup_alter_eq in Hi'.
        destruct (inflights s !! p) as [i|]; [|done]. exists i. split; [done|].
        injection Hi' as <-. simpl. lia.
      * rewrite bool_decide_false by done. rewrite list_lookup_alter_ne in Hi' by done.
        exists i'. split; [done|]. simpl. lia.
    + exists []. rewrite app_nil_r. split; [|constructor].
      rewrite (q_skeleton _ _ Hq2). unfold leave. rewrite skeleton_add_inflight. apply Hq.
    + apply q_heap in Hq, Hq2. simpl in Hq2. lia.
    + eapply sublist_NoDup; [exact Hdict|]. apply fmap_sublist. apply (q_sessions _ _ Hq2).
    + intros k' p Hp. rewrite (q_skeleton _ _ Hq2). unfold leave.
      rewrite skeleton_add_inflight. apply Hsess.
      eapply elem_of_sublist; [exact Hp|apply (q_sessions _ _ Hq2)].
    + done.
    + done.
  - destruct (quiet_sub_sessions _ _ _ H (q_skeleton _ _ Hq) (q_sessions _ _ Hq)) as [Hdict Hsess].
    set (s2 := register c r s1).
    assert (Hsk2 : skeleton s2 = skeleton s ++ [(open_key c, oc_state c)]).
    { rewrite <- (q_skeleton _ _ Hq). unfold skeleton. simpl. by rewrite fmap_app. }
    assert (Hin2 : inflights s2 = inflights s ++ [0]).
    { rewrite <- (q_inflights _ _ Hq). unfold inflights. simpl. by rewrite fmap_app. }
    assert (Hlen : length (sessions s1) = length (skeleton s)).
    { rewrite <- (q_skeleton _ _ Hq). unfold skeleton. by rewrite length_fmap. }
    match goal with |- delta _ _ _ ?s' => assert (Hq2 : quiet s2 s') end.
    { case_bool; [apply quiet_complete|done]. }
    assert (Hheap : (length (heap s) ≤ length (heap s1))%nat) by apply Hq.
    split.
    + rewrite (q_tasks _ _ Hq2). apply Hq.
    + intros z. rewrite (q_slots _ _ Hq2). simpl. by rewrite (q_slots _ _ Hq).
    + intros p i'. rewrite (q_inflights _ _ Hq2), Hin2. unfold b_serves. simpl.
      intros [Hi|[Hge Hi]]%lookup_app_Some; [left; eauto|right].
      rewrite inflights_length in Hge.
      apply list_lookup_singleton_Some in Hi as [_ <-]. done.
    + rewrite (q_skeleton _ _ Hq2), Hsk2. eexists; split; [done|]. constructor; [|done].
      pose proof (co_context _ _ H _ c Hin eq_refl). apply q_heap in Hq2. simpl in *. lia.
    + apply q_heap in Hq2. simpl in Hq2. lia.
    + eapply sublist_NoDup; [|apply fmap_sublist, (q_sessions _ _ Hq2)].
      by apply dict_ok_dset.
    + intros k p Hp. rewrite (q_skeleton _ _ Hq2), Hsk2.
      assert (Hp2 : (k, p) ∈ producer_sessions s2)
        by (eapply elem_of_sublist; [exact Hp|apply (q_sessions _ _ Hq2)]).
      simpl in Hp2. apply elem_of_dget in Hp2; [|by apply dict_ok_dset].
      destruct (decide (open_key c = k)) as [<-|].
      * rewrite dget_dset_eq in Hp2. injection Hp2 as <-. exists (oc_state c).
        rewrite Hlen. by rewrite list_lookup_middle.
      * rewrite dget_dset_ne in Hp2 by done. apply keyed_app. rewrite <- (q_skeleton _ _ Hq).
        by apply Hsess, dget_elem_of.
    + done.
    + done.
Qed.

(** ** Every event preserves the invariant *)

Lemma cnt_holds_move slot t key reg f f' (l : list entry) :
  l !! t = Some (key, reg, f) →
  cnt (holds slot) (<[t := (key, reg, f')]> l)
  = cnt (holds slot) l - b_holds slot f + b_holds slot f'.
Proof. intros H. by rewrite (cnt_insert _ _ _ _ _ H). Qed.

Lemma cnt_serves_move pid t key reg f f' (l : list entry) :
  l !! t = Some (key, reg, f) →
  cnt (serves pid) (<[t := (key, reg, f')]> l)
  = cnt (serves pid) l - b_serves pid f + b_serves pid f'.
Proof. intros H. by rewrite (cnt_insert _ _ _ _ _ H). Qed.

Lemma cnt_serves_fresh n s pid :
  core n s → (length (skeleton s) ≤ pid)%nat → cnt (serves pid) (tasks s) = 0.
Proof.
  intros H Hlen. apply cnt_zero. intros e He. unfold serves.
  destruct (serving e.2) as [[k p]|] eqn:Hs; [|done].
  apply bool_decide_eq_false. intros ->.
  destruct (co_serving _ _ H e k pid He Hs) as [sid Hsk]. apply lookup_lt_Some in Hsk. lia.
Qed.

Lemma core_move n t key reg f s f' s' :
  core n s → tasks s !! t = Some (key, reg, f) → moves f s f' s' → meta_ok s' →
  core n (set_tasks (λ l, <[t := (key, reg, f')]> l) s').
Proof.
  intros H Ht Hm Hmeta. destruct (moves_delta _ _ _ _ _ _ _ _ H Ht Hm) as
    [Htasks Hslots Hinf (new & Hsk & Hnew) Hheap Hdict Hsess Hserv Hctx].
  split; simpl; rewrite ?Htasks; [| | |done|done| | |].
  - intros slot. rewrite (cnt_holds_move _ _ _ _ _ _ _ Ht).
    rewrite <- (co_slots _ _ H slot). specialize (Hslots slot). lia.
  - intros pid i' Hi'. rewrite (cnt_serves_move _ _ _ _ _ _ _ Ht).
    destruct (Hinf pid i' Hi') as [(i & Hi & ?)|(-> & Hge & Hb)].
    + apply (co_inflight _ _ H) in Hi. lia.
    + rewrite (cnt_serves_fresh _ _ _ H Hge). lia.
  - by apply (meta_same s').
  - intros e k pid He Hs. change (skeleton (set_tasks _ s')) with (skeleton s').
    apply elem_of_insert_inv in He as [->|He].
    + by apply Hserv.
    + rewrite Hsk. apply keyed_app. by apply (co_serving _ _ H e).
  - change (skeleton (set_tasks _ s')) with (skeleton s'). intros pid k sid. rewrite Hsk.
    intros [Hl|[_ Hl]]%lookup_app_Some.
    + apply (co_heap _ _ H) in Hl. lia.
    + apply list_elem_of_lookup_2 in Hl. rewrite Forall_forall in Hnew. by apply Hnew in Hl.
  - intros e c He Hc. apply elem_of_insert_inv in He as [->|He].
    + by apply Hctx.
    + pose proof (co_context _ _ H e c He Hc). lia.
Qed.

Lemma core_quiet n s s' : core n s → quiet s s' → meta_ok s' → core n s'.
Proof.
  intros H Hq Hmeta.
  destruct (quiet_sub_sessions _ _ _ H (q_skeleton _ _ Hq) (q_sessions _ _ Hq)).
  split; try done; rewrite ?(q_tasks _ _ Hq), ?(q_slots _ _ Hq), ?(q_inflights _ _ Hq),
    ?(q_skeleton _ _ Hq).
  - apply H.
  - apply H.
  - apply H.
  - intros pid k sid Hs. apply (co_heap _ _ H) in Hs. apply q_heap in Hq. lia.
  - intros e c He Hc. pose proof (co_context _ _ H e c He Hc). apply q_heap in Hq. lia.
Qed.

(** A task that holds nothing is added. *)
Lemma core_dispatch n identity request s :
  core n s → core n (dispatch_producer identity request s).
Proof.
  intros H. unfold dispatch_producer. case_bool; [done|].
  set (e := (request_op request, negb (is_abort request), FNew identity request) : entry).
  assert (core n (set_tasks (λ l, l ++ [e]) (set_closed (filter (λ e, now s < e.2)) s))) as H1.
  { split; simpl; try apply H.
    - intros slot. rewrite cnt_app, cnt_cons, cnt_nil. unfold holds at 2. simpl.
      pose proof (co_slots _ _ H slot). lia.
    - intros pid i Hi. rewrite cnt_app, cnt_cons, cnt_nil. unfold serves at 2. simpl.
      apply (co_inflight _ _ H) in Hi. lia.
    - intros e' k pid [He| ->%list_elem_of_singleton]%elem_of_app; [|done].
      by apply (co_serving _ _ H).
    - intros e' c [He| ->%list_elem_of_singleton]%elem_of_app; [|done].
      by apply (co_context _ _ H). }
  case_bool; [|done]. by destruct H1.
Qed.

Lemma core_handle n init e s s' : core n s → handle init e s = Some s' → core n s'.
Proof.
  intros H Hs. assert (Hmeta := meta_handle _ _ _ _ (co_meta _ _ H) Hs).
  destruct e as [m|r|identity request|t| |d|]; cbn [handle] in Hs.
  - injection Hs as <-. eapply core_quiet; [done|apply quiet_metadata|done].
  - injection Hs as <-. eapply core_quiet; [done| |done]. unfold on_job_done. by case_decide.
  - injection Hs as <-. by apply core_dispatch.
  - unfold run_task in Hs. apply bind_Some in Hs as ([[key reg] f] & Ht & Hs).
    apply bind_Some in Hs as ([s1 f'] & Hrun & [= <-]).
    assert (Hm := run_frame_moves _ _ _ _ _ _ _ _ (core_refs _ _ H) Ht Hrun).
    assert (Hc : core n (set_tasks (λ l, <[t:=(key, reg, f')]> l) s1)).
    { eapply core_move; [done..|]. eapply meta_run_frame; [apply (co_meta _ _ H)|done]. }
    destruct f'; try done. destruct reg; [|done].
    eapply core_quiet; [done|apply quiet_operation_finished|done].
  - case_match; [done|]. injection Hs as <-.
    eapply core_quiet; [done|apply quiet_sweep|done].
  - case_match; [|done]. injection Hs as <-. by destruct H.
  - injection Hs as <-. by destruct H.
Qed.

Lemma core_init init : core (zlen (slot_addresses init)) (init_svc init).
Proof.
  split; simpl; try done; try (intros; set_solver).
  - intros slot. rewrite cnt_nil. set (n := zlen (slot_addresses init)).
    assert (Hn : 0 ≤ n) by (unfold n, zlen; lia).
    destruct ((0 <=? slot) && (slot <? n)) eqn:Hr; zbool.
    + replace n with (slot + (1 + (n - slot - 1))) by lia.
      rewrite seqZ_app, (seqZ_cons (0 + slot)), cnt_app, cnt_cons by lia.
      rewrite Z.add_0_l, Z.eqb_refl.
      rewrite !cnt_zero; [done| |]; intros x ?%elem_of_seqZ; apply Z.eqb_neq; lia.
    + rewrite cnt_zero; [done|]. intros x ?%elem_of_seqZ. apply Z.eqb_neq. intros ->.
      apply andb_false_iff in Hr as [Hr|Hr]; zbool; lia.
  - split; [apply NoDup_nil_2|done].
  - apply NoDup_nil_2.
Qed.

Lemma core_runs init ok es s : runs init ok es s → core (zlen (slot_addresses init)) s.
Proof. induction 1; [apply core_init|by eapply core_handle]. Qed.
