(* ===== verification/ProducerLive.v ===== *)
(** * Sessions and send targets of the producer service

    Under the discipline of the consumers (no two opens use the same socket
    identity, transfer and request), every active session is registered, an
    ended one stays only while chunks of it are in flight, and [sending]
    counts exactly the claims and registered sessions of a send state. *)

From S2P Require Import Prelude PyData Transfer Messages Producer ProducerInv ProducerAcc.

(** ** Distinct keys *)

Definition has_key (k : pkey) (e : pkey * nat) : bool := bool_decide (e.1 = k).
Definition opens (k : pkey) (e : entry) : bool := bool_decide (opening e.2 = Some k).
Definition b_opens (k : pkey) (f : frame) : Z := Z.b2z (bool_decide (opening f = Some k)).

Definition uniq (s : svc) : Prop :=
  ∀ k, cnt (has_key k) (skeleton s) + cnt (opens k) (tasks s) ≤ 1.

(** The consumers' discipline: an open's key is not in use by another open or
    a session. *)
Definition fresh_open (s : svc) (e : event) : Prop :=
  match e with
  | ERequest identity (ReqOpen m) =>
      ∀ k, opening (FNew identity (ReqOpen m)) = Some k →
           cnt (has_key k) (skeleton s) + cnt (opens k) (tasks s) = 0
  | _ => True
  end.

Definition fresh (_ : list event) (s : svc) (e : event) : Prop := fresh_open s e.

Lemma cnt_opens_move k t key reg f f' (l : list entry) :
  l !! t = Some (key, reg, f) →
  cnt (opens k) (<[t := (key, reg, f')]> l) = cnt (opens k) l - b_opens k f + b_opens k f'.
Proof. intros H. by rewrite (cnt_insert _ _ _ _ _ H). Qed.

Lemma moves_keys f s f' s' k :
  moves f s f' s' →
  cnt (has_key k) (skeleton s') + b_opens k f' ≤ cnt (has_key k) (skeleton s) + b_opens k f.
Proof.
  unfold b_opens.
  intros [f'' s'' Hq Hh Hs Ho Hc|identity m pid x -> Hd Hx Hact
    |identity m pid slot q f'' s'' -> Hslots Hq Hs Hh Ho Hc
    |k' pid slot s1 resp identity s'' Hs Hh Ho Hq ->|c job d s1 r resp s'' -> Hq ->].
  - rewrite (q_skeleton _ _ Hq). destruct Ho as [-> | ->]; simpl; [lia|].
    destruct (bool_decide _); simpl; lia.
  - rewrite skeleton_add_inflight. simpl. lia.
  - rewrite (q_skeleton _ _ Hq), Ho. simpl. change (skeleton (set_sender_slots _ s)) with
      (skeleton s). lia.
  - rewrite (q_skeleton _ _ (serve_finally_quiet k' pid slot s1)). unfold leave.
    rewrite skeleton_add_inflight. change (skeleton (set_sender_slots _ s1)) with (skeleton s1).
    rewrite (q_skeleton _ _ Hq), Ho. simpl. lia.
  - assert (Hq2 : quiet (register c r s1) (if jd_total_chunks r =? 0
      then complete_producer_session (oc_identity c) (length (sessions s1)) (register c r s1)
      else register c r s1)) by (case_bool; [apply quiet_complete|done]).
    rewrite (q_skeleton _ _ Hq2). unfold skeleton at 1. simpl. rewrite fmap_app.
    change ((λ x, (session_key x, p_send_state x)) <$> sessions s1) with (skeleton s1).
    rewrite (q_skeleton _ _ Hq), cnt_app. simpl. rewrite cnt_cons, cnt_nil.
    unfold has_key at 2. simpl.
    rewrite (bool_decide_ext (Some (open_key c) = Some k) (open_key c = k)) by naive_solver.
    unfold open_key, session_key. simpl. lia.
Qed.

Lemma uniq_quiet s s' : uniq s → quiet s s' → uniq s'.
Proof. intros H Hq k. rewrite (q_skeleton _ _ Hq), (q_tasks _ _ Hq). apply H. Qed.

Lemma uniq_handle n init e s s' :
  core n s → uniq s → fresh_open s e → handle init e s = Some s' → uniq s'.
Proof.
  intros Hco H Hf Hs. destruct e as [m|r|identity request|t| |d|]; cbn [handle] in Hs.
  - injection Hs as <-. eapply uniq_quiet; [done|apply quiet_metadata].
  - injection Hs as <-. eapply uniq_quiet; [done|]. unfold on_job_done. by case_decide.
  - injection Hs as <-. unfold dispatch_producer. case_bool; [done|].
    assert (uniq (set_tasks (λ l, l ++ [(request_op request, negb (is_abort request),
      FNew identity request)]) (set_closed (filter (λ e, now s < e.2)) s))) as H1.
    { intros k. specialize (H k). simpl. rewrite cnt_app, cnt_cons, cnt_nil.
      change (skeleton (set_tasks _ _)) with (skeleton s). unfold opens at 2.
      cbn [snd]. case_bool_decide as Ho; cbn [Z.b2z]; [|lia].
      destruct request as [m|m|m]; [|done..]. specialize (Hf k Ho). lia. }
    case_bool; [|done]. exact H1.
  - unfold run_task in Hs. apply bind_Some in Hs as ([[key reg] f] & Ht & Hs).
    apply bind_Some in Hs as ([s1 f'] & Hrun & [= <-]).
    assert (Hm := run_frame_moves _ _ _ _ _ _ _ _ (core_refs _ _ Hco) Ht Hrun).
    assert (Hu : uniq (set_tasks (λ l, <[t:=(key, reg, f')]> l) s1)).
    { intros k. simpl. pose proof (moves_keys _ _ _ _ k Hm).
      rewrite (d_tasks _ _ _ _ (moves_delta _ _ _ _ _ _ _ _ Hco Ht Hm)).
      rewrite (cnt_opens_move _ _ _ _ _ _ _ Ht). specialize (H k).
      change (skeleton (set_tasks _ s1)) with (skeleton s1). lia. }
    destruct f'; try done. destruct reg; [|done].
    eapply uniq_quiet; [done|apply quiet_operation_finished].
  - case_match; [done|]. injection Hs as <-. eapply uniq_quiet; [done|apply quiet_sweep].
  - case_match; [|done]. by injection Hs as <-.
  - by injection Hs as <-.
Qed.

(** ** Well-formed session tables *)

(** What the session operations rely on. *)
Record table (s : svc) : Prop := {
  ta_dict : dict_ok (producer_sessions s);
  ta_keyed : ∀ k pid, (k, pid) ∈ producer_sessions s → keyed (skeleton s) k pid;
  ta_uniq : ∀ i j k si sj, skeleton s !! i = Some (k, si) → skeleton s !! j = Some (k, sj) → i = j;
  ta_heap : ∀ pid k sid, skeleton s !! pid = Some (k, sid) → (sid < length (heap s))%nat;
  ta_nonneg : ∀ pid x, sessions s !! pid = Some x → 0 ≤ inflight_chunks x
}.

Lemma cnt_two {A} (P : A → bool) (l : list A) i j x y :
  l !! i = Some x → l !! j = Some y → P x = true → P y = true → i ≠ j → 2 ≤ cnt P l.
Proof.
  intros Hi Hj Hx Hy Hne. rewrite (delete_Permutation _ _ _ Hi), cnt_cons, Hx.
  assert (1 ≤ cnt P (delete i l)); [|simpl; lia].
  apply (cnt_pos _ _ y); [|done]. apply list_elem_of_lookup.
  destruct (decide (j < i)%nat).
  - exists j. by rewrite list_lookup_delete_lt.
  - exists (j - 1)%nat. rewrite list_lookup_delete_ge by lia.
    by replace (S (j - 1)) with j by lia.
Qed.

Lemma core_table n s : core n s → uniq s → table s.
Proof.
  intros H Hu. split; try apply H.
  - intros i j k si sj Hi Hj. destruct (decide (i = j)) as [|Hne]; [done|exfalso].
    specialize (Hu k). pose proof (cnt_nonneg (opens k) (tasks s)).
    pose proof (cnt_two (has_key k) _ _ _ _ _ Hi Hj) as H2.
    unfold has_key in H2 at 1 2. simpl in H2. rewrite bool_decide_true in H2 by done.
    specialize (H2 eq_refl eq_refl Hne). lia.
  - intros pid x Hx. assert (inflights s !! pid = Some (inflight_chunks x)) as Hi.
    { unfold inflights. by rewrite list_lookup_fmap, Hx. }
    rewrite (co_inflight _ _ H _ _ Hi). apply cnt_nonneg.
Qed.

Lemma table_quiet s s' : table s → quiet s s' → table s'.
Proof.
  intros [Hd Hk Hu Hh Hn] Hq. split; rewrite ?(q_skeleton _ _ Hq).
  - eapply sublist_NoDup; [exact Hd|]. apply fmap_sublist, Hq.
  - intros k pid Hin. apply Hk. by eapply elem_of_sublist, Hq.
  - done.
  - intros pid k sid Hs. apply Hh in Hs. apply q_heap in Hq. lia.
  - intros pid x Hx. assert (inflights s' !! pid = Some (inflight_chunks x)) as Hi.
    { unfold inflights. by rewrite list_lookup_fmap, Hx. }
    rewrite (q_inflights _ _ Hq) in Hi. apply lookup_inflights in Hi as (y & Hy & <-). eauto.
Qed.

(** The entry under a session's own key is that session, or absent. *)
Lemma table_popped s key pid :
  table s → keyed (skeleton s) key pid →
  dget (producer_sessions s) key = Some pid ∨ dget (producer_sessions s) key = None.
Proof.
  intros H [sid Hk]. destruct (dget _ key) as [pid'|] eqn:Hd; [|by right].
  apply dget_elem_of, (ta_keyed _ H) in Hd as [sid' Hk']. left. f_equal.
  by eapply (ta_uniq _ H).
Qed.

(** ** Active sessions are registered, ended ones are draining

    [live_but P] makes an exception for the session [P] an operation is
    working on. *)

Definition draining (x : ProducerSession) : Prop :=
  p_state x = ACTIVE ∨ (ended (p_state x) = true ∧ 0 < inflight_chunks x).

Record live_but (P : option nat) (s : svc) : Prop := {
  li_active : ∀ pid x, sessions s !! pid = Some x → p_state x = ACTIVE →
    dget (producer_sessions s) (session_key x) = Some pid;
  li_ended : ∀ k pid x, (k, pid) ∈ producer_sessions s → sessions s !! pid = Some x →
    Some pid ≠ P → draining x
}.

Abbreviation live := (live_but None).

Lemma live_weaken P s : live s → live_but P s.
Proof. intros [H1 H2]. split; [done|]. intros k pid x ???. by eapply H2. Qed.

Lemma live_same P s s' :
  sessions s' = sessions s → producer_sessions s' = producer_sessions s →
  live_but P s → live_but P s'.
Proof. intros E1 E2 [H1 H2]. split; rewrite ?E1, ?E2; done. Qed.

Lemma finish_sessions sid s :
  sessions (finish_send_meta sid s) = sessions s ∧
  producer_sessions (finish_send_meta sid s) = producer_sessions s.
Proof. unfold finish_send_meta. repeat case_match; done. Qed.

(** Changing a session to a state that is not active. *)
Lemma live_with_state P pid st s :
  st ≠ ACTIVE → P = None ∨ P = Some pid →
  live_but P s → live_but (Some pid) (update_session pid (with_state st) s).
Proof.
  intros Hst HP [H1 H2]. split; simpl.
  - intros q y Hy Ha. destruct (decide (pid = q)) as [->|].
    + rewrite list_lookup_alter_eq in Hy. destruct (sessions s !! q); [|done].
      by simplify_eq/=.
    + rewrite list_lookup_alter_ne in Hy by done. by apply H1.
  - intros k q y Hin Hy Hne. rewrite list_lookup_alter_ne in Hy by congruence.
    eapply H2; [done..|]. destruct HP; congruence.
Qed.

(** Removing the entry of a session that is not active. *)
Lemma live_pop key pid s :
  table s → keyed (skeleton s) key pid →
  (∀ x, sessions s !! pid = Some x → p_state x ≠ ACTIVE) →
  live_but (Some pid) s → live (pop_session key s).
Proof.
  intros Ht Hk Hna [H1 H2]. split; simpl.
  - intros q y Hy Ha. assert (Hd := H1 q y Hy Ha). rewrite dget_ddel_ne; [done|].
    intros ->. destruct Hk as [sid Hk]. pose proof (skeleton_lookup _ _ _ Hy) as Hsk.
    assert (pid = q) as -> by by eapply (ta_uniq _ Ht). by eapply Hna.
  - intros k q y Hin Hy _. apply list_elem_of_filter in Hin as [Hne Hin]. simpl in Hne.
    eapply H2; [done..|]. intros [= ->]. destruct (ta_keyed _ Ht _ _ Hin) as [sid Hsk].
    destruct Hk as [sid' Hk]. congruence.
Qed.

Lemma live_complete identity pid x s :
  table s → sessions s !! pid = Some x → identity = p_identity x →
  dget (producer_sessions s) (session_key x) = Some pid →
  live_but (Some pid) s → live (complete_producer_session identity pid s).
Proof.
  intros Ht Hx -> Hd Hl. unfold complete_producer_session. rewrite Hx.
  fold (session_key x). cbv zeta. rewrite decide_True by done.
  assert (Hk : keyed (skeleton s) (session_key x) pid) by (eexists; by apply skeleton_lookup).
  match goal with |- live (finish_send_meta ?i ?s1) =>
    destruct (finish_sessions i s1) as [E1 E2]; apply (live_same None _ _ E1 E2) end.
  apply (live_same None (pop_session (session_key x)
    (update_session pid (with_state COMPLETE) s))); [done..|].
  apply (live_pop _ pid).
  - apply (table_quiet s); [done|apply quiet_with_state].
  - rewrite (q_skeleton _ _ (quiet_with_state pid COMPLETE s)). exact Hk.
  - intros y. simpl. rewrite list_lookup_alter_eq, Hx. by intros [= <-].
  - eapply live_with_state; [done| |done]. by right.
Qed.

Lemma live_discard key pid s :
  table s → keyed (skeleton s) key pid →
  (∀ x, sessions s !! pid = Some x → p_state x ≠ ACTIVE) →
  live_but (Some pid) s → live (discard_producer_session key pid s).
Proof.
  intros Ht Hk Hna Hl. assert (Hp := live_pop _ _ _ Ht Hk Hna Hl).
  unfold discard_producer_session. cbv zeta. case_decide; [|done].
  destruct (sessions _ !! pid) as [x|]; [|done]. case_bool.
  - match goal with |- live (finish_send_meta ?i ?s1) =>
      destruct (finish_sessions i s1) as [E1 E2];
      by apply (live_same None _ _ E1 E2) end.
  - by apply (live_same None (pop_session key s)).
Qed.

Lemma live_cancel key pid s :
  table s → keyed (skeleton s) key pid → live s → live (cancel_session key pid s).
Proof.
  intros Ht Hk Hl. unfold cancel_session.
  assert (Hl1 := live_with_state None pid CANCELLED s ltac:(done) ltac:(by left) Hl).
  assert (Ht1 := table_quiet _ _ Ht (quiet_with_state pid CANCELLED s)).
  destruct Hk as [sid Hk]. apply skeleton_lookup_inv in Hk as Hx.
  destruct Hx as (x & Hx & _).
  assert (sessions (update_session pid (with_state CANCELLED) s) !! pid
          = Some (with_state CANCELLED x)) as Hx1.
  { simpl. by rewrite list_lookup_alter_eq, Hx. }
  rewrite Hx1. case_bool; zbool.
  - apply live_discard; [done| |by rewrite Hx1; intros ? [= <-]|done].
    rewrite (q_skeleton _ _ (quiet_with_state pid CANCELLED s)). by exists sid.
  - destruct Hl1 as [H1 H2]. split; [done|]. intros k q y Hin Hy _.
    destruct (decide (q = pid)) as [->|]; [|eapply H2; [done|done|congruence]].
    rewrite Hx1 in Hy. injection Hy as <-. right. split; [done|].
    pose proof (ta_nonneg _ Ht _ _ Hx). simpl in *. lia.
Qed.

(** A session that ended is discarded unless it has chunks in flight. *)
Lemma live_discard_idle key pid s :
  table s → keyed (skeleton s) key pid → live_but (Some pid) s →
  (∀ k x, (k, pid) ∈ producer_sessions s → sessions s !! pid = Some x → p_state x ≠ COMPLETE) →
  live (match sessions s !! pid with
        | None => s
        | Some x => if (inflight_chunks x =? 0) && ended (p_state x)
                    then discard_producer_session key pid s else s
        end).
Proof.
  intros Ht Hk Hl Hnc. destruct Hk as [sid Hk]. apply skeleton_lookup_inv in Hk as Hx.
  destruct Hx as (x & Hx & _). rewrite Hx.
  pose proof (ta_nonneg _ Ht _ _ Hx).
  destruct (ended (p_state x)) eqn:He.
  - destruct (Z.eqb_spec (inflight_chunks x) 0); simpl.
    + apply live_discard; [done|by exists sid| |done].
      rewrite Hx. intros ? [= <-] Ha. by rewrite Ha in He.
    + destruct Hl as [H1 H2]. split; [done|]. intros k q y Hin Hy _.
      destruct (decide (q = pid)) as [->|]; [|eapply H2; [done|done|congruence]].
      rewrite Hx in Hy. injection Hy as <-. right. split; [done|lia].
  - rewrite andb_false_r. destruct Hl as [H1 H2]. split; [done|]. intros k q y Hin Hy _.
    destruct (decide (q = pid)) as [->|]; [|eapply H2; [done|done|congruence]].
    specialize (Hnc _ _ Hin Hy). rewrite Hx in Hy. injection Hy as <-.
    destruct (p_state x) eqn:Hst; try done. by left.
Qed.

Lemma live_not_complete P k pid x s :
  live_but P s → Some pid ≠ P → (k, pid) ∈ producer_sessions s →
  sessions s !! pid = Some x → p_state x ≠ COMPLETE.
Proof.
  intros [_ H2] Hne Hin Hx. destruct (H2 _ _ _ Hin Hx Hne) as [->|[He _]]; [done|].
  by destruct (p_state x).
Qed.

(** The state after a chunk operation has left its session. *)
Lemma leave_lookup pid slot s q y :
  sessions (leave pid slot s) !! q = Some y →
  ∃ x, sessions s !! q = Some x ∧ session_key y = session_key x ∧ p_state y = p_state x ∧
    (y = x ∨ q = pid ∧ inflight_chunks y = inflight_chunks x - 1).
Proof.
  unfold leave. simpl. destruct (decide (pid = q)) as [->|].
  - rewrite list_lookup_alter_eq. destruct (sessions s !! q) as [x|]; [|done].
    intros [= <-]. exists x. split_and!; [done..|right]. split; [done|]. simpl. lia.
  - rewrite list_lookup_alter_ne by done. eauto 10.
Qed.

Lemma skeleton_leave pid slot s : skeleton (leave pid slot s) = skeleton s.
Proof. unfold leave. by rewrite skeleton_add_inflight. Qed.

Lemma table_leave pid slot s :
  table s → (∀ x, sessions s !! pid = Some x → 1 ≤ inflight_chunks x) →
  table (leave pid slot s).
Proof.
  intros [Hd Hke Hu Hh Hn] Hin. split; rewrite ?skeleton_leave; try done.
  intros q y (x & Hx & _ & _ & [->|[-> ->]])%leave_lookup; [by eapply Hn|].
  specialize (Hin _ Hx). lia.
Qed.

(** The [finally] of a chunk operation. *)
Lemma live_leave key pid slot s :
  table s → keyed (skeleton s) key pid → live s →
  (∀ x, sessions s !! pid = Some x → 1 ≤ inflight_chunks x) →
  live (serve_finally key pid (Some slot) true s).
Proof.
  intros Ht Hk Hl Hin. unfold serve_finally. cbv zeta. fold (leave pid slot s).
  apply live_discard_idle; [by apply table_leave|by rewrite skeleton_leave|..].
  - destruct Hl as [H1 H2]. split.
    + intros q y (x & Hx & -> & -> & _)%leave_lookup. by apply H1.
    + intros k q y Hq (x & Hx & _ & Hst & Hor)%leave_lookup Hne.
      destruct Hor as [->|[-> _]]; [|done]. by eapply H2.
  - intros k y Hq (x & Hx & _ & -> & _)%leave_lookup. by eapply (live_not_complete None).
Qed.

(** Operations that touch no session. *)
Definition sessions_kept (s s' : svc) : Prop :=
  sessions s' = sessions s ∧ producer_sessions s' = producer_sessions s.

Lemma live_kept P s s' : sessions_kept s s' → live_but P s → live_but P s'.
Proof. intros [E1 E2]. by apply live_same. Qed.

#[global] Instance kept_refl : Reflexive sessions_kept.
Proof. by split. Qed.

#[global] Instance kept_trans : Transitive sessions_kept.
Proof. intros s1 s2 s3 [] []. split; congruence. Qed.

Lemma kept_finish sid s : sessions_kept s (finish_send_meta sid s).
Proof. apply finish_sessions. Qed.

Lemma kept_open_fail c claimed msg s : sessions_kept s (open_fail c claimed msg s).1.
Proof.
  unfold open_fail. simpl. destruct claimed.
  - etrans; [apply (kept_finish (oc_state c))|]. case_match; [|done]. by case_bool.
  - case_match; [|done]. by case_bool.
Qed.

Lemma kept_open_claim init c s : sessions_kept s (open_claim init c s).1.
Proof.
  unfold open_claim. destruct (handshake_target_ranks _ _ _); [|apply kept_open_fail].
  case_bool; [|done]. etrans; [|apply kept_open_fail]. done.
Qed.

Lemma kept_wait_ready init c d s : sessions_kept s (wait_ready init c d s).1.
Proof.
  unfold wait_ready. repeat case_bool; auto using kept_open_claim, kept_open_fail. done.
Qed.

Lemma kept_open_start init identity m s :
  sessions_kept s (open_producer_session init identity m s).1.
Proof.
  unfold open_producer_session. destruct (req_blocks _) as [|[? [? ?]] ?]; [done|].
  destruct (dget _ _); [apply kept_wait_ready|]. etrans; [|apply kept_wait_ready]. done.
Qed.

Lemma kept_await job d s r : await_job job d s = Some r → sessions_kept s r.2.
Proof. unfold await_job. repeat case_match; intros; simplify_eq/=; done. Qed.

Lemma live_fail_free identity m pid x msg s :
  table s → dget (producer_sessions s) (pull_key identity m) = Some pid →
  sessions s !! pid = Some x → p_state x ≠ ACTIVE → live s →
  live (serve_fail identity m pid None false msg s).1.
Proof.
  intros Ht Hd Hx Hna Hl. unfold serve_fail, serve_finally. cbv zeta. cbn [fst].
  apply dget_elem_of in Hd.
  apply live_discard_idle.
  - apply (table_quiet s); [done|apply quiet_with_state].
  - rewrite (q_skeleton _ _ (quiet_with_state pid FAILED s)). by apply (ta_keyed _ Ht).
  - eapply live_with_state; [done|by left|done].
  - intros k y _. simpl. rewrite list_lookup_alter_eq, Hx. by intros [= <-].
Qed.

(** A failing chunk operation that is counted on its session. *)
Lemma live_fail_slot identity m pid slot msg s :
  live s → (∀ x, sessions s !! pid = Some x → 1 ≤ inflight_chunks x) →
  live (serve_fail identity m pid (Some slot) true msg s).1.
Proof.
  intros Hl Hin. unfold serve_fail. cbv zeta. cbn [fst].
  apply (live_kept None (update_session pid (with_state FAILED) s)); [done|].
  destruct (live_with_state None pid FAILED s ltac:(done) ltac:(by left) Hl) as [H1 H2].
  split; [done|]. intros k q y Hq Hy _.
  destruct (decide (q = pid)) as [->|]; [|eapply H2; [done|done|congruence]].
  simpl in Hy. rewrite list_lookup_alter_eq in Hy.
  destruct (sessions s !! pid) as [x|] eqn:Hx; [|done]. injection Hy as <-.
  right. split; [done|]. specialize (Hin x eq_refl). simpl. lia.
Qed.

Lemma live_register c r s :
  table s → cnt (has_key (open_key c)) (skeleton s) = 0 → live s → live (register c r s).
Proof.
  intros Ht Hu [H1 H2].
  assert (Hnew : ∀ pid x, sessions s !! pid = Some x → session_key x ≠ open_key c).
  { intros pid x Hx Hk. apply skeleton_lookup, list_elem_of_lookup_2 in Hx.
    assert (1 ≤ cnt (has_key (open_key c)) (skeleton s)); [|lia].
    eapply cnt_pos; [done|]. unfold has_key. simpl. by apply bool_decide_eq_true. }
  split; simpl.
  - intros pid x [Hx|[Hge Hx]]%lookup_app_Some Ha.
    + rewrite dget_dset_ne; [by apply H1|]. intros Hk. by eapply Hnew.
    + apply list_lookup_singleton_Some in Hx as [? <-].
      change (session_key (opened_session c r)) with (open_key c). rewrite dget_dset_eq.
      f_equal. lia.
  - intros k pid x Hin Hx _.
    apply elem_of_dget in Hin; [|apply dict_ok_dset, (ta_dict _ Ht)].
    destruct (decide (open_key c = k)) as [<-|Hne].
    + rewrite dget_dset_eq in Hin. injection Hin as <-.
      rewrite list_lookup_middle in Hx by done. injection Hx as <-. by left.
    + rewrite dget_dset_ne in Hin by done. apply dget_elem_of in Hin.
      destruct (ta_keyed _ Ht _ _ Hin) as [sid Hsk]. apply skeleton_lookup_inv in Hsk as
        (x' & Hx' & _). rewrite lookup_app_l in Hx by by eapply lookup_lt_Some.
      eapply H2; [done..|congruence].
Qed.

Lemma skeleton_register c r s :
  skeleton (register c r s) = skeleton s ++ [(open_key c, oc_state c)].
Proof. unfold skeleton. simpl. by rewrite fmap_app. Qed.

Lemma table_register c r s :
  table s → cnt (has_key (open_key c)) (skeleton s) = 0 → (oc_state c < length (heap s))%nat →
  table (register c r s).
Proof.
  intros Ht Hu Hc.
  assert (Hold : ∀ i sid, skeleton s !! i ≠ Some (open_key c, sid)).
  { intros i sid Hi. apply list_elem_of_lookup_2 in Hi.
    assert (1 ≤ cnt (has_key (open_key c)) (skeleton s)); [|lia].
    eapply cnt_pos; [done|]. by apply bool_decide_eq_true. }
  split; rewrite ?skeleton_register.
  - apply dict_ok_dset, Ht.
  - intros k pid Hin. apply elem_of_dget in Hin; [|apply dict_ok_dset, Ht].
    simpl in Hin. destruct (decide (open_key c = k)) as [<-|].
    + rewrite dget_dset_eq in Hin. injection Hin as <-. exists (oc_state c).
      apply list_lookup_middle. unfold skeleton. by rewrite length_fmap.
    + rewrite dget_dset_ne in Hin by done. by apply keyed_app, (ta_keyed _ Ht), dget_elem_of.
  - intros i j k si sj Hi Hj.
    apply lookup_app_Some in Hi as [Hi|[? Hi]], Hj as [Hj|[? Hj]].
    + by eapply (ta_uniq _ Ht).
    + apply list_lookup_singleton_Some in Hj as [_ [= <- <-]]. by apply Hold in Hi.
    + apply list_lookup_singleton_Some in Hi as [_ [= <- <-]]. by apply Hold in Hj.
    + apply list_lookup_singleton_Some in Hi as [? _], Hj as [? _]. lia.
  - intros pid k sid [Hi|[? Hi]]%lookup_app_Some; [by eapply (ta_heap _ Ht)|].
    by apply list_lookup_singleton_Some in Hi as [_ [= <- <-]].
  - simpl. intros pid x [Hi|[? Hi]]%lookup_app_Some; [by eapply (ta_nonneg _ Ht)|].
    by apply list_lookup_singleton_Some in Hi as [_ <-].
Qed.

(** A session one of whose chunk operations is running counts it. *)
Lemma serving_counted n s t key reg f k pid x :
  core n s → tasks s !! t = Some (key, reg, f) → serving f = Some (k, pid) →
  sessions s !! pid = Some x → 1 ≤ inflight_chunks x.
Proof.
  intros H Ht Hs Hx.
  assert (Hi : inflights s !! pid = Some (inflight_chunks x)).
  { unfold inflights. by rewrite list_lookup_fmap, Hx. }
  rewrite (co_inflight _ _ H _ _ Hi). apply (cnt_pos _ _ (key, reg, f)).
  - by eapply list_elem_of_lookup_2.
  - unfold serves. simpl. rewrite Hs. by apply bool_decide_eq_true.
Qed.

Lemma inflight_quiet s s' pid y :
  quiet s s' → sessions s' !! pid = Some y →
  ∃ x, sessions s !! pid = Some x ∧ inflight_chunks x = inflight_chunks y.
Proof.
  intros Hq Hy. assert (Hi : inflights s' !! pid = Some (inflight_chunks y)).
  { unfold inflights. by rewrite list_lookup_fmap, Hy. }
  rewrite (q_inflights _ _ Hq) in Hi. by apply lookup_inflights in Hi.
Qed.

(** The session's key as its [complete] and [finally] use it. *)
Lemma pull_key_session identity m x :
  session_key x = pull_key identity m → identity = p_identity x.
Proof. unfold session_key, pull_key. congruence. Qed.

Lemma live_encoded_state identity m pid s :
  table s → keyed (skeleton s) (pull_key identity m) pid → live s →
  live (let s := update_session pid add_completed s in
        match sessions s !! pid with
        | Some x =>
            if bool_decide (p_state x = ACTIVE) && (completed_chunks x =? p_total_chunks x)
            then complete_producer_session identity pid s else s
        | None => s
        end).
Proof.
  intros Ht [sid Hk] Hl. cbv zeta. apply skeleton_lookup_inv in Hk as (x & Hx & Hkey & _).
  set (s1 := update_session pid add_completed s).
  assert (Hx1 : sessions s1 !! pid = Some (add_completed x)).
  { simpl. by rewrite list_lookup_alter_eq, Hx. }
  assert (Hl1 : live s1).
  { destruct Hl as [H1 H2]. split; simpl.
    - intros q y Hy Ha. destruct (decide (pid = q)) as [->|].
      + rewrite list_lookup_alter_eq, Hx in Hy. injection Hy as <-. by apply (H1 q x).
      + rewrite list_lookup_alter_ne in Hy by done. by apply H1.
    - intros k q y Hin Hy Hne. destruct (decide (pid = q)) as [->|].
      + rewrite list_lookup_alter_eq, Hx in Hy. injection Hy as <-. by apply (H2 k q x).
      + rewrite list_lookup_alter_ne in Hy by done. by eapply H2. }
  rewrite Hx1. case_bool; [|done]. zbool. apply bool_decide_eq_true in H.
  eapply live_complete; [|done|by eapply pull_key_session| |by apply live_weaken].
  - apply (table_quiet s); [done|apply quiet_add_completed].
  - by apply (li_active _ _ Hl1).
Qed.

(** The key of an open that is about to register is not yet a session's. *)
Lemma opening_fresh s e c :
  uniq s → e ∈ tasks s → opening e.2 = Some (open_key c) →
  cnt (has_key (open_key c)) (skeleton s) = 0.
Proof.
  intros Hu Hin Ho. specialize (Hu (open_key c)).
  assert (1 ≤ cnt (opens (open_key c)) (tasks s)).
  { eapply cnt_pos; [exact Hin|]. unfold opens. by apply bool_decide_eq_true. }
  pose proof (cnt_nonneg (has_key (open_key c)) (skeleton s)). lia.
Qed.

Lemma live_run_frame n init t key reg f s s' f' :
  core n s → uniq s → live s → tasks s !! t = Some (key, reg, f) →
  run_frame init f s = Some (s', f') → live s'.
Proof.
  intros Hco Hu Hl Ht Hrun. assert (Hta := core_table _ _ Hco Hu).
  assert (Hin := Ht). apply list_elem_of_lookup_2 in Hin.
  assert (Hserv := λ k pid x, serving_counted _ _ _ _ _ _ k pid x Hco Ht).
  assert (Hkeyed := λ k pid, co_serving _ _ Hco _ k pid Hin).
  destruct f as [identity [m|m|m]|c d|c job d|identity m pid|identity m pid slot job d
    |identity m pid slot job d resp|identity m session pending d|identity resp|];
    cbn [run_frame] in Hrun.
  - take_fst Hrun. eapply live_kept; [apply kept_open_start|done].
  - take_fst Hrun. unfold serve_producer_chunk.
    destruct (dget _ _) as [pid|] eqn:Hd; [|done].
    destruct (sessions s !! pid) as [x|] eqn:Hx; [|done].
    destruct (decide (p_state x = ACTIVE)); [|by eapply live_fail_free].
    destruct Hl as [H1 H2]. split; simpl.
    + intros q y Hy Ha. destruct (decide (pid = q)) as [->|].
      * rewrite list_lookup_alter_eq, Hx in Hy. injection Hy as <-. by apply (H1 q x).
      * rewrite list_lookup_alter_ne in Hy by done. by apply H1.
    + intros k q y Hq Hy Hne. destruct (decide (pid = q)) as [->|].
      * rewrite list_lookup_alter_eq, Hx in Hy. injection Hy as <-. by left.
      * rewrite list_lookup_alter_ne in Hy by done. by eapply H2.
  - take_fst Hrun. unfold abort_producer. cbv zeta. cbn [fst].
    match goal with |- live (match ?o with _ => _ end) => destruct o as [x|] eqn:Ho end;
      [|by apply (live_kept None s)].
    case_bool; [|by apply (live_kept None s)].
    destruct (abort_target _ _ _) as [pid|]; [|done]. simpl in Ho.
    apply live_cancel; [by destruct Hta| |by apply (live_kept None s)].
    exists (p_send_state x). by apply skeleton_lookup.
  - take_fst Hrun. eapply live_kept; [apply kept_wait_ready|done].
  - apply bind_Some in Hrun as ([r s1] & Haw & Hrun). take_fst Hrun. cbn [fst snd].
    apply quiet_await_job in Haw as Hq. apply kept_await in Haw. simpl in Haw, Hq.
    assert (Hl1 := live_kept _ _ _ Haw Hl).
    unfold open_opened. destruct r as [r|]; [|by eapply live_kept, Hl1; apply kept_open_fail].
    destruct (jd_error r); [by eapply live_kept, Hl1; apply kept_open_fail|].
    assert (Hkey : cnt (has_key (open_key c)) (skeleton s1) = 0).
    { rewrite (q_skeleton _ _ Hq). by eapply opening_fresh. }
    assert (Hta1 := table_quiet _ _ Hta Hq).
    assert (Hl2 := live_register _ r _ Hta1 Hkey Hl1).
    unfold open_register. cbv zeta. cbn [fst]. fold (opened_session c r).
    change (live (if p_total_chunks (opened_session c r) =? 0
      then complete_producer_session (oc_identity c) (length (sessions s1)) (register c r s1)
      else register c r s1)).
    case_bool; [|done].
    assert (Hnew : sessions (register c r s1) !! length (sessions s1)
                   = Some (opened_session c r)) by (simpl; by rewrite list_lookup_middle).
    eapply live_complete; [|exact Hnew|done| |by apply live_weaken].
    + apply table_register; [done..|]. pose proof (co_context _ _ Hco _ c Hin eq_refl).
      apply q_heap in Hq. lia.
    + by apply (li_active _ _ Hl2).
  - destruct (sender_slots s) as [|slot q]; [done|]. take_fst Hrun. unfold serve_slot.
    change (sessions (set_sender_slots (λ _, q) s)) with (sessions s).
    destruct (sessions s !! pid) as [x|] eqn:Hx; [|by apply (live_kept None s)].
    case_bool; [|by apply (live_kept None s)].
    apply live_fail_slot; [by apply (live_kept None s)|]. simpl. eauto.
  - apply bind_Some in Hrun as ([r s1] & Haw & Hrun). take_fst Hrun. cbn [fst snd].
    apply quiet_await_job in Haw as Hq. apply kept_await in Haw. simpl in Haw, Hq.
    assert (Hl1 := live_kept _ _ _ Haw Hl).
    assert (Hc1 : ∀ x, sessions s1 !! pid = Some x → 1 ≤ inflight_chunks x).
    { destruct Haw as [-> _]. eauto. }
    unfold serve_encoded. destruct r as [r|]; [|by apply live_fail_slot].
    destruct (jd_error r); [by apply live_fail_slot|]. cbv zeta. cbn [fst].
    assert (Hta1 := table_quiet _ _ Hta Hq).
    assert (Hk1 : keyed (skeleton s1) (pull_key identity m) pid).
    { rewrite (q_skeleton _ _ Hq). by apply Hkeyed. }
    assert (Hq2 := quiet_encoded_state identity pid s1). cbv zeta in Hq2.
    apply live_leave.
    + eapply table_quiet; [exact Hta1|exact Hq2].
    + by rewrite (q_skeleton _ _ Hq2).
    + by apply (live_encoded_state identity m).
    + intros y Hy. destruct (inflight_quiet _ _ _ _ Hq2 Hy) as (x & Hx & <-). eauto.
  - apply bind_Some in Hrun as ([r s1] & Haw & Hrun). take_fst Hrun. cbn [fst snd].
    apply quiet_await_job in Haw as Hq. apply kept_await in Haw as [Es Ep]. simpl in Es, Ep, Hq.
    apply live_leave.
    + by eapply table_quiet.
    + rewrite (q_skeleton _ _ Hq). by apply Hkeyed.
    + by apply (live_same None s).
    + rewrite Es. eauto.
  - assert (∃ e, (s', f') = abort_finish identity m e s) as [e He].
    { repeat case_bool; try done; apply Some_inj in Hrun; eauto. }
    clear Hrun. apply (f_equal fst) in He. simpl in He. subst s'.
    assert (Hgen : ∀ l s1, (∀ k pid, (k, pid) ∈ l → keyed (skeleton s1) k pid) →
      table s1 → live s1 →
      live (foldl (λ s e, match sessions s !! e.2 with
        | Some x => if decide (session_op x = abort_op m) then cancel_session e.1 e.2 s else s
        | None => s end) s1 l)).
    { induction l as [|[k pid] l IH]; simpl; intros s1 Hk Ht1 Hl1; [done|].
      assert (Hk1 := Hk k pid ltac:(set_solver)).
      assert (Hqc := quiet_cancel k pid s1).
      apply IH; repeat case_match; try done; try (intros; apply Hk; set_solver).
      - intros. rewrite (q_skeleton _ _ Hqc). apply Hk. set_solver.
      - by eapply table_quiet.
      - by apply live_cancel. }
    apply Hgen; [|done..]. apply (ta_keyed _ Hta).
  - injection Hrun as <- <-. by apply (live_kept None s).
  - done.
Qed.

Lemma kept_foldl {A} (f : svc → A → svc) l s :
  (∀ s a, sessions_kept s (f s a)) → sessions_kept s (foldl f s l).
Proof.
  intros Hf. revert s. induction l as [|a l IH]; intros s; simpl; [done|].
  etrans; [apply Hf|apply IH].
Qed.

Lemma live_handle n init e s s' :
  core n s → uniq s → live s → handle init e s = Some s' → live s'.
Proof.
  intros Hco Hu Hl Hs. destruct e as [m|r|identity request|t| |d|]; cbn [handle] in Hs.
  - injection Hs as <-. eapply live_kept; [|done]. unfold apply_producer_metadata.
    etrans; [apply (kept_foldl (flip announce))|].
    { intros s1 a. simpl. unfold announce. by destruct (dget _ _). }
    etrans; [apply (kept_foldl (flip publish))|apply kept_foldl; by intros].
    intros s1 p. simpl. unfold publish. by destruct (dget _ _).
  - injection Hs as <-. eapply live_kept; [|done]. unfold on_job_done. by case_decide.
  - injection Hs as <-. eapply live_kept; [|done]. unfold dispatch_producer.
    case_bool; [done|]. by case_bool.
  - unfold run_task in Hs. apply bind_Some in Hs as ([[key reg] f] & Ht & Hs).
    apply bind_Some in Hs as ([s1 f'] & Hrun & [= <-]).
    assert (Hl1 := live_run_frame _ _ _ _ _ _ _ _ _ Hco Hu Hl Ht Hrun).
    apply (live_kept _ s1); [|done]. destruct f'; try done. destruct reg; [|done].
    unfold operation_finished. by case_match.
  - case_match; [done|]. injection Hs as <-. eapply live_kept; [|done].
    apply (kept_foldl sweep_one). intros s1 x. unfold sweep_one.
    destruct (heap s1 !! x.2); [|done]. by case_bool.
  - case_match; [|done]. injection Hs as <-. by apply (live_kept None s).
  - injection Hs as <-. by apply (live_kept None s).
Qed.

Lemma uniq_init init : uniq (init_svc init).
Proof. intros k. by vm_compute. Qed.

Lemma live_init init : live (init_svc init).
Proof. split; simpl; [done|]. intros. set_solver. Qed.

(** The invariants hold in every execution with distinct opens. *)
Record good (n : Z) (s : svc) : Prop := {
  go_core : core n s;
  go_uniq : uniq s;
  go_live : live s
}.

Lemma good_runs init ok es s :
  (∀ es s e, ok es s e → fresh_open s e) →
  runs init ok es s → good (zlen (slot_addresses init)) s.
Proof.
  intros Hok. induction 1 as [|es s e s' _ [Hc Hu Hl] He Hs].
  - split; [apply core_init|apply uniq_init|apply live_init].
  - apply Hok in He. split; [by eapply core_handle|by eapply uniq_handle|by eapply live_handle].
Qed.

Lemma good_table n s : good n s → table s.
Proof. intros [? ? ?]. by eapply core_table. Qed.

(** ** The balance of a send state

    Its [sending] counter, less the registered sessions that use it. *)
Definition on_state (sk : list (pkey * nat)) (sid : nat) (e : pkey * nat) : bool :=
  match sk !! e.2 with Some (_, i) => bool_decide (i = sid) | None => false end.

Definition sending_of (s : svc) (sid : nat) : Z :=
  match heap s !! sid with Some x => sending x | None => 0 end.

Definition registered_on (s : svc) (sid : nat) : Z :=
  cnt (on_state (skeleton s) sid) (producer_sessions s).

Definition balance (s : svc) (sid : nat) : Z := sending_of s sid - registered_on s sid.

Definition claims (sid : nat) (e : entry) : bool := bool_decide (claiming e.2 = Some sid).
Definition b_claims (sid : nat) (f : frame) : Z := Z.b2z (bool_decide (claiming f = Some sid)).

(** Two states with the same registered sessions and counters. *)
Record same_sessions (s s' : svc) : Prop := {
  ss_skeleton : skeleton s' = skeleton s;
  ss_sessions : producer_sessions s' = producer_sessions s
}.

Lemma balance_same s s' :
  skeleton s' = skeleton s → producer_sessions s' = producer_sessions s →
  (sending <$> heap s') = (sending <$> heap s) → ∀ sid, balance s' sid = balance s sid.
Proof.
  intros E1 E2 E3 sid. unfold balance, registered_on, sending_of. rewrite E1, E2.
  assert (Hs : sending <$> heap s' !! sid = sending <$> heap s !! sid)
    by (rewrite <- !list_lookup_fmap; by rewrite E3).
  destruct (heap s' !! sid), (heap s !! sid); simplify_eq/=; lia.
Qed.

Lemma sending_update sid f s i d :
  (sid < length (heap s))%nat → (∀ x, sending (f x) = sending x + d) →
  sending_of (update_state sid f s) i = sending_of s i + (if decide (i = sid) then d else 0).
Proof.
  intros Hlt Hf. unfold sending_of. simpl. case_decide as Hd; [subst i|].
  - rewrite list_lookup_alter_eq. apply lookup_lt_is_Some_2 in Hlt as [x ->]. simpl.
    by rewrite Hf.
  - rewrite list_lookup_alter_ne by done. lia.
Qed.

Lemma finish_heap sid s :
  heap (finish_send_meta sid s)
  = alter (λ x, set_sending x (sending x - 1) (sent x + 1) (need_send x)) sid (heap s).
Proof. unfold finish_send_meta. repeat case_match; done. Qed.

Lemma sending_finish sid s i :
  (sid < length (heap s))%nat →
  sending_of (finish_send_meta sid s) i = sending_of s i - (if decide (i = sid) then 1 else 0).
Proof.
  intros Hlt. unfold sending_of. rewrite finish_heap. case_decide as Hd; [subst i|].
  - rewrite list_lookup_alter_eq. apply lookup_lt_is_Some_2 in Hlt as [x ->]. done.
  - rewrite list_lookup_alter_ne by done. lia.
Qed.

Lemma registered_same s s' sid :
  skeleton s' = skeleton s → producer_sessions s' = producer_sessions s →
  registered_on s' sid = registered_on s sid.
Proof. unfold registered_on. by intros -> ->. Qed.

Lemma registered_pop s key pid sid i :
  table s → dget (producer_sessions s) key = Some pid → skeleton s !! pid = Some (key, sid) →
  registered_on (pop_session key s) i = registered_on s i - (if decide (i = sid) then 1 else 0).
Proof.
  intros Ht Hd Hsk. unfold registered_on. simpl. change (skeleton (pop_session key s)) with
    (skeleton s). rewrite (cnt_ddel _ _ _ _ (ta_dict _ Ht) Hd). unfold on_state at 2. simpl.
  rewrite Hsk. case_decide; subst.
  - by rewrite bool_decide_true.
  - rewrite bool_decide_false by congruence. simpl. lia.
Qed.
