(* ===== verification/ProducerSend.v ===== *)
(** * Send targets and the release of the producer's blocks

    [sending] of a send state is the number of opens that claimed it and of
    registered sessions that use it; and while it is positive the transfer
    stays announced, so its blocks are not released under a running session. *)

From S2P Require Import Prelude PyData Transfer Messages Producer ProducerInv ProducerAcc ProducerLive.

(** ** [sending] is exact *)

Lemma registered_finish sid s i : registered_on (finish_send_meta sid s) i = registered_on s i.
Proof.
  apply registered_same; [apply (quiet_finish_send_meta sid s)|apply finish_sessions].
Qed.

(** Removing a session's entry and finishing its send state. *)
Lemma balance_pop_finish s s1 key pid sid i :
  table s → dget (producer_sessions s) key = Some pid → skeleton s !! pid = Some (key, sid) →
  skeleton s1 = skeleton s → producer_sessions s1 = ddel (producer_sessions s) key →
  heap s1 = heap s →
  balance (finish_send_meta sid s1) i = balance s i.
Proof.
  intros Ht Hd Hsk E1 E2 E3. unfold balance.
  rewrite registered_finish, sending_finish by (rewrite E3; by eapply (ta_heap _ Ht)).
  assert (registered_on s1 i = registered_on (pop_session key s) i) as ->
    by by apply registered_same.
  rewrite (registered_pop _ _ _ _ _ Ht Hd Hsk). unfold sending_of. rewrite E3.
  case_decide; lia.
Qed.

Lemma balance_eq s s' i :
  skeleton s' = skeleton s → producer_sessions s' = producer_sessions s → heap s' = heap s →
  balance s' i = balance s i.
Proof. intros E1 E2 E3. apply balance_same; [done..|]. by rewrite E3. Qed.

Lemma balance_complete identity pid x s i :
  table s → sessions s !! pid = Some x → identity = p_identity x →
  balance (complete_producer_session identity pid s) i = balance s i.
Proof.
  intros Ht Hx ->. unfold complete_producer_session. rewrite Hx. fold (session_key x).
  cbv zeta. assert (Hk := skeleton_lookup _ _ _ Hx).
  destruct (table_popped s (session_key x) pid Ht) as [Hd|Hd]; [by eexists| |].
  - rewrite decide_True by done.
    eapply balance_pop_finish; [exact Ht|exact Hd|exact Hk| |done|done].
    apply (q_skeleton _ _ (quiet_with_state pid COMPLETE (pop_session (session_key x) s))).
  - rewrite decide_False by congruence. apply balance_eq; [done| |done].
    simpl. by apply ddel_absent.
Qed.

Lemma balance_discard key pid s i :
  table s → keyed (skeleton s) key pid →
  balance (discard_producer_session key pid s) i = balance s i.
Proof.
  intros Ht [sid Hk]. unfold discard_producer_session. cbv zeta.
  destruct (table_popped s key pid Ht) as [Hd|Hd]; [by eexists| |].
  - rewrite decide_True by done. apply skeleton_lookup_inv in Hk as Hx.
    destruct Hx as (x & Hx & _ & <-). change (sessions (pop_session key s)) with (sessions s).
    rewrite Hx. case_bool; [by eapply balance_pop_finish|].
    unfold balance. rewrite (sending_update _ _ _ _ (-1)).
    + change (registered_on (update_state _ _ (pop_session key s)) i)
        with (registered_on (pop_session key s) i).
      change (sending_of (pop_session key s) i) with (sending_of s i).
      rewrite (registered_pop _ _ _ _ _ Ht Hd Hk). case_decide; lia.
    + by eapply (ta_heap _ Ht).
    + intros y. simpl. lia.
  - rewrite decide_False by congruence. apply balance_eq; [done| |done].
    simpl. by apply ddel_absent.
Qed.

Lemma balance_quiet_session pid f s i :
  quiet s (update_session pid f s) → balance (update_session pid f s) i = balance s i.
Proof. intros Hq. apply balance_eq; [apply Hq|done|done]. Qed.

Lemma balance_cancel key pid s i :
  table s → keyed (skeleton s) key pid →
  balance (cancel_session key pid s) i = balance s i.
Proof.
  intros Ht Hk. unfold cancel_session. assert (Hq := quiet_with_state pid CANCELLED s).
  rewrite <- (balance_quiet_session pid (with_state CANCELLED) s i Hq).
  case_match; [|done]. case_bool; [|done]. apply balance_discard.
  - by eapply table_quiet.
  - by rewrite (q_skeleton _ _ Hq).
Qed.

Lemma balance_serve_finally key pid slot s i :
  table s → keyed (skeleton s) key pid →
  (∀ x, sessions s !! pid = Some x → 1 ≤ inflight_chunks x) →
  balance (serve_finally key pid (Some slot) true s) i = balance s i.
Proof.
  intros Ht Hk Hin. unfold serve_finally. cbv zeta. fold (leave pid slot s).
  assert (Hb : balance (leave pid slot s) i = balance s i).
  { apply balance_eq; [|done|done]. unfold leave. by rewrite skeleton_add_inflight. }
  case_match; [|done]. case_bool; [|done]. rewrite <- Hb. apply balance_discard.
  - by apply table_leave.
  - by rewrite skeleton_leave.
Qed.

Lemma balance_open_fail c msg s i :
  (oc_state c < length (heap s))%nat →
  balance (open_fail c true msg s).1 i = balance s i - b_claims i (FOpening c 0 0) ∧
  balance (open_fail c false msg s).1 i = balance s i.
Proof.
  intros Hc. assert (Hclean : ∀ s1 : svc, ∀ b : bool,
    balance (match heap s1 !! oc_state c with
             | Some x => if oc_created c &&
                   bool_decide (dget (send_meta s1) (oc_transfer_id c) = Some (oc_state c)) &&
                   negb (s_ready x) && String.eqb (s_p_req_id x) "" && (sending x =? 0)
                then set_send_meta (λ d, ddel d (oc_transfer_id c)) s1 else s1
             | None => s1 end) i = balance s1 i).
  { intros. case_match; [|done]. by case_bool. }
  unfold open_fail. cbv zeta. cbn [fst]. rewrite !Hclean by exact true. split; [|done].
  unfold balance. rewrite registered_finish, sending_finish by done.
  unfold b_claims. simpl. case_decide; subst.
  - rewrite bool_decide_true by done. simpl. lia.
  - rewrite bool_decide_false by congruence. simpl. lia.
Qed.

Lemma balance_open_claim init c s i :
  (oc_state c < length (heap s))%nat →
  balance (open_claim init c s).1 i - b_claims i (open_claim init c s).2 = balance s i.
Proof.
  intros Hc. unfold open_claim. destruct (handshake_target_ranks _ _ _) as [ranks|e].
  - cbv zeta. match goal with |- context [update_state ?sid ?f s] =>
      set (s1 := update_state sid f s) end.
    assert (Hb : balance s1 i = balance s i + b_claims i (FOpening c 0 0)).
    { unfold balance, s1. rewrite (sending_update _ _ _ _ 1) by done.
      change (registered_on (update_state _ _ s) i) with (registered_on s i).
      unfold b_claims. simpl. case_decide; subst.
      - rewrite bool_decide_true by done. simpl. lia.
      - rewrite bool_decide_false by congruence. simpl. lia. }
    assert (Hc1 : (oc_state c < length (heap s1))%nat).
    { unfold s1. simpl. by rewrite length_alter. }
    case_bool.
    + destruct (balance_open_fail c "Session was aborted before KV transfer." s1 i Hc1)
        as [-> _]. unfold b_claims at 2. simpl. lia.
    + change (balance s1 i - b_claims i (FOpening c 0 0) = balance s i). lia.
  - destruct (balance_open_fail c (exn_str e) s i Hc) as [_ ->].
    unfold b_claims. simpl. lia.
Qed.

Lemma balance_wait_ready init c d s i :
  (oc_state c < length (heap s))%nat →
  balance (wait_ready init c d s).1 i - b_claims i (wait_ready init c d s).2 = balance s i.
Proof.
  intros Hc. unfold wait_ready. repeat case_bool.
  - by apply balance_open_claim.
  - destruct (balance_open_fail c "Session aborted before producer became ready." s i Hc)
      as [_ ->]. unfold b_claims. simpl. lia.
  - destruct (balance_open_fail c "Producer block table was not announced in time." s i Hc)
      as [_ ->]. unfold b_claims. simpl. lia.
  - unfold b_claims. simpl. lia.
Qed.

(** A new send state has no sender. *)
Lemma balance_new_state s s' t p i :
  heap s' = heap s ++ [new_send_state t p] → skeleton s' = skeleton s →
  producer_sessions s' = producer_sessions s → balance s' i = balance s i.
Proof.
  intros E1 E2 E3. unfold balance. rewrite (registered_same _ _ _ E2 E3).
  f_equal. unfold sending_of. rewrite E1. destruct (heap s !! i) eqn:Hi.
  - by rewrite (lookup_app_l_Some _ _ _ _ Hi).
  - apply lookup_ge_None in Hi. rewrite lookup_app_r by done.
    destruct (i - length (heap s))%nat as [|[|]]; done.
Qed.

Lemma b_claims_none i f : claiming f = None → b_claims i f = 0.
Proof. unfold b_claims. by intros ->. Qed.

Lemma balance_await job d s r i : await_job job d s = Some r → balance r.2 i = balance s i.
Proof. unfold await_job. repeat case_match; intros; simplify_eq/=; done. Qed.

Lemma balance_open_start n init identity m s i :
  core n s →
  balance (open_producer_session init identity m s).1 i
  - b_claims i (open_producer_session init identity m s).2 = balance s i.
Proof.
  intros Hco. unfold open_producer_session.
  destruct (req_blocks _) as [|[? [t b]] ?]; [unfold b_claims; simpl; lia|].
  destruct (dget (send_meta s) t) as [sid|] eqn:Hd; cbv zeta.
  - rewrite balance_wait_ready; [done|]. simpl.
    destruct (mo_ref _ _ _ (co_meta _ _ Hco) Hd) as (x & Hx & _). by eapply lookup_lt_Some.
  - rewrite balance_wait_ready; [by eapply balance_new_state|].
    simpl. rewrite length_app. simpl. lia.
Qed.

Lemma balance_serve_fail_free identity m pid msg s i :
  table s → keyed (skeleton s) (pull_key identity m) pid →
  balance (serve_fail identity m pid None false msg s).1 i = balance s i.
Proof.
  intros Ht Hk. unfold serve_fail, serve_finally. cbv zeta. cbn [fst].
  assert (Hq := quiet_with_state pid FAILED s).
  rewrite <- (balance_quiet_session pid (with_state FAILED) s i Hq).
  case_match; [|done]. case_bool; [|done]. apply balance_discard.
  - by eapply table_quiet.
  - by rewrite (q_skeleton _ _ Hq).
Qed.

Lemma balance_serve_fail_slot identity m pid slot msg s i :
  balance (serve_fail identity m pid (Some slot) true msg s).1 i = balance s i.
Proof.
  rewrite <- (balance_quiet_session pid (with_state FAILED) s i (quiet_with_state pid FAILED s)).
  done.
Qed.

Lemma balance_encoded_state identity m pid s i :
  table s → keyed (skeleton s) (pull_key identity m) pid →
  balance (let s := update_session pid add_completed s in
           match sessions s !! pid with
           | Some x =>
               if bool_decide (p_state x = ACTIVE) && (completed_chunks x =? p_total_chunks x)
               then complete_producer_session identity pid s else s
           | None => s
           end) i = balance s i.
Proof.
  intros Ht [sid Hk]. cbv zeta. apply skeleton_lookup_inv in Hk as (x & Hx & Hkey & _).
  assert (Hq := quiet_add_completed pid s).
  rewrite <- (balance_quiet_session pid add_completed s i Hq).
  simpl. rewrite list_lookup_alter_eq, Hx. simpl. case_bool; [|done].
  eapply balance_complete.
  - by eapply table_quiet.
  - simpl. by rewrite list_lookup_alter_eq, Hx.
  - by eapply pull_key_session.
Qed.

Lemma registered_register c r s i :
  table s → cnt (has_key (open_key c)) (skeleton s) = 0 →
  registered_on (register c r s) i = registered_on s i + b_claims i (FOpening c 0 0).
Proof.
  intros Ht Hu. unfold registered_on. rewrite skeleton_register. simpl.
  assert (Hd : dget (producer_sessions s) (open_key c) = None).
  { destruct (dget _ _) as [pid|] eqn:Hd; [|done].
    apply dget_elem_of, (ta_keyed _ Ht) in Hd as [sid Hsk]. apply list_elem_of_lookup_2 in Hsk.
    assert (1 ≤ cnt (has_key (open_key c)) (skeleton s)); [|lia].
    eapply cnt_pos; [done|]. by apply bool_decide_eq_true. }
  assert (Hset : dset (producer_sessions s) (open_key c) (length (sessions s))
                 = producer_sessions s ++ [(open_key c, length (sessions s))]).
  { revert Hd. clear. induction (producer_sessions s) as [|[k v] d IH]; simpl; [done|].
    case_decide; [done|]. intros Hd. by rewrite IH. }
  rewrite Hset, cnt_app, cnt_cons, cnt_nil. f_equal.
  - apply cnt_ext. intros [k pid] Hin. unfold on_state. simpl.
    destruct (ta_keyed _ Ht _ _ Hin) as [sid Hsk].
    by rewrite (lookup_app_l_Some _ _ _ _ Hsk), Hsk.
  - unfold on_state, b_claims. simpl.
    rewrite list_lookup_middle by (unfold skeleton; by rewrite length_fmap).
    rewrite (bool_decide_ext (Some (oc_state c) = Some i) (oc_state c = i)) by naive_solver.
    lia.
Qed.

Lemma balance_run_frame n init t key reg f s s' f' i :
  core n s → uniq s → tasks s !! t = Some (key, reg, f) →
  run_frame init f s = Some (s', f') →
  balance s' i - b_claims i f' = balance s i - b_claims i f.
Proof.
  intros Hco Hu Ht Hrun. assert (Hta := core_table _ _ Hco Hu).
  assert (Hin := Ht). apply list_elem_of_lookup_2 in Hin.
  assert (Hserv := λ k pid x, serving_counted _ _ _ _ _ _ k pid x Hco Ht).
  assert (Hkeyed := λ k pid, co_serving _ _ Hco _ k pid Hin).
  destruct f as [identity [m|m|m]|c d|c job d|identity m pid|identity m pid slot job d
    |identity m pid slot job d resp|identity m session pending d|identity resp|];
    cbn [run_frame] in Hrun.
  - apply Some_inj in Hrun. pose proof (balance_open_start n init identity m s i Hco) as Hb.
    rewrite Hrun in Hb. simpl in Hb. rewrite Hb, (b_claims_none i (FNew _ _)) by done. lia.
  - assert (claiming f' = None ∧ balance s' i = balance s i) as [Hc ->];
      [|by rewrite !b_claims_none].
    unfold serve_producer_chunk in Hrun.
    destruct (dget _ _) as [pid|] eqn:Hd; [|by injection Hrun as <- <-].
    destruct (sessions s !! pid) as [x|] eqn:Hx; [|by injection Hrun as <- <-].
    destruct (decide (p_state x = ACTIVE)).
    + injection Hrun as <- <-. split; [done|].
      apply balance_eq; [apply skeleton_add_inflight|done|done].
    + split; [by inversion Hrun|]. take_fst Hrun. apply balance_serve_fail_free; [done|].
      by apply (ta_keyed _ Hta), dget_elem_of.
  - assert (claiming f' = None ∧ balance s' i = balance s i) as [Hc ->];
      [|by rewrite !b_claims_none].
    split; [by inversion Hrun|]. take_fst Hrun. unfold abort_producer. cbv zeta. cbn [fst].
    match goal with |- balance (match ?o with _ => _ end) _ = _ =>
      destruct o as [x|] eqn:Ho end; [|done].
    case_bool; [|done]. destruct (abort_target _ _ _) as [pid|]; [|done]. simpl in Ho.
    rewrite balance_cancel; [done|by destruct Hta|].
    exists (p_send_state x). by apply skeleton_lookup.
  - apply Some_inj in Hrun.
    pose proof (balance_wait_ready init c d s i (co_context _ _ Hco _ c Hin eq_refl)) as Hb.
    rewrite Hrun in Hb. simpl in Hb. rewrite Hb, (b_claims_none i (FReady _ _)) by done. lia.
  - apply bind_Some in Hrun as ([r s1] & Haw & Hrun). cbn [fst snd] in Hrun.
    assert (Hb1 := balance_await _ _ _ _ i Haw). simpl in Hb1.
    apply quiet_await_job in Haw as Hq. simpl in Hq.
    assert (Hc : (oc_state c < length (heap s1))%nat).
    { pose proof (co_context _ _ Hco _ c Hin eq_refl). apply q_heap in Hq. lia. }
    assert (Hfail : ∀ msg, Some (open_fail c true msg s1) = Some (s', f') →
      balance s' i - b_claims i f' = balance s i - b_claims i (FOpening c job d)).
    { intros msg Hf. assert (claiming f' = None) by by inversion Hf.
      rewrite (b_claims_none i f') by done. take_fst Hf.
      destruct (balance_open_fail c msg s1 i Hc) as [-> _]. rewrite Hb1.
      unfold b_claims. simpl. lia. }
    unfold open_opened in Hrun. destruct r as [r|]; [|eauto].
    destruct (jd_error r); [eauto|].
    assert (Hkey : cnt (has_key (open_key c)) (skeleton s1) = 0).
    { rewrite (q_skeleton _ _ Hq). by eapply opening_fresh. }
    assert (Hta1 := table_quiet _ _ Hta Hq).
    assert (claiming f' = None) by by inversion Hrun.
    rewrite (b_claims_none i f') by done. take_fst Hrun.
    assert (Hbr : balance (register c r s1) i = balance s1 i - b_claims i (FOpening c job d)).
    { unfold balance. rewrite (registered_register _ _ _ _ Hta1 Hkey).
      change (sending_of (register c r s1) i) with (sending_of s1 i).
      unfold b_claims. simpl. lia. }
    unfold open_register. cbv zeta. cbn [fst]. fold (opened_session c r).
    change (balance (if p_total_chunks (opened_session c r) =? 0
      then complete_producer_session (oc_identity c) (length (sessions s1)) (register c r s1)
      else register c r s1) i - 0 = balance s i - b_claims i (FOpening c job d)).
    rewrite <- Hb1, <- Hbr, Z.sub_0_r. case_bool; [|done].
    apply (balance_complete _ _ (opened_session c r)); [by apply table_register| |done].
    simpl. by rewrite list_lookup_middle.
  - destruct (sender_slots s) as [|slot q]; [done|].
    assert (claiming f' = None ∧ balance s' i = balance s i) as [Hc ->];
      [|by rewrite !b_claims_none].
    unfold serve_slot in Hrun.
    change (sessions (set_sender_slots (λ _, q) s)) with (sessions s) in Hrun.
    destruct (sessions s !! pid) as [x|] eqn:Hx; [|by injection Hrun as <- <-].
    case_bool; [|by injection Hrun as <- <-].
    split; [by inversion Hrun|]. take_fst Hrun. by rewrite balance_serve_fail_slot.
  - apply bind_Some in Hrun as ([r s1] & Haw & Hrun). cbn [fst snd] in Hrun.
    assert (Hb1 := balance_await _ _ _ _ i Haw). simpl in Hb1.
    apply quiet_await_job in Haw as Hq. apply kept_await in Haw. simpl in Haw, Hq.
    assert (claiming f' = None ∧ balance s' i = balance s i) as [Hc ->];
      [|by rewrite !b_claims_none].
    unfold serve_encoded in Hrun.
    assert (Hfail : ∀ msg, Some (serve_fail identity m pid (Some slot) true msg s1)
      = Some (s', f') → claiming f' = None ∧ balance s' i = balance s i).
    { intros msg Hf. split; [by inversion Hf|]. take_fst Hf.
      by rewrite balance_serve_fail_slot. }
    destruct r as [r|]; [|eauto]. destruct (jd_error r); [eauto|].
    split; [by inversion Hrun|]. take_fst Hrun. cbv zeta. cbn [fst].
    assert (Hta1 := table_quiet _ _ Hta Hq).
    assert (Hk1 : keyed (skeleton s1) (pull_key identity m) pid).
    { rewrite (q_skeleton _ _ Hq). by apply Hkeyed. }
    assert (Hq2 := quiet_encoded_state identity pid s1). cbv zeta in Hq2.
    rewrite balance_serve_finally.
    + rewrite <- Hb1. by apply (balance_encoded_state identity m).
    + eapply table_quiet; [exact Hta1|exact Hq2].
    + by rewrite (q_skeleton _ _ Hq2).
    + intros y Hy. destruct (inflight_quiet _ _ _ _ Hq2 Hy) as (x & Hx & <-).
      destruct Haw as [Es _]. rewrite Es in Hx. eauto.
  - apply bind_Some in Hrun as ([r s1] & Haw & Hrun). cbn [fst snd] in Hrun.
    assert (Hb1 := balance_await _ _ _ _ i Haw). simpl in Hb1.
    apply quiet_await_job in Haw as Hq. apply kept_await in Haw as [Es Ep]. simpl in Es, Hq.
    assert (claiming f' = None) by by inversion Hrun.
    rewrite !b_claims_none by done. take_fst Hrun. f_equal. rewrite <- Hb1.
    apply balance_serve_finally.
    + by eapply table_quiet.
    + rewrite (q_skeleton _ _ Hq). by apply Hkeyed.
    + rewrite Es. eauto.
  - assert (∃ e, (s', f') = abort_finish identity m e s) as [e He].
    { repeat case_bool; try done; apply Some_inj in Hrun; eauto. }
    clear Hrun. assert (claiming f' = None) by by inversion He.
    rewrite !b_claims_none by done. f_equal.
    apply (f_equal fst) in He. simpl in He. subst s'.
    assert (Hgen : ∀ l s1, (∀ k pid, (k, pid) ∈ l → keyed (skeleton s1) k pid) → table s1 →
      balance (foldl (λ s e, match sessions s !! e.2 with
        | Some x => if decide (session_op x = abort_op m) then cancel_session e.1 e.2 s else s
        | None => s end) s1 l) i = balance s1 i).
    { induction l as [|[k pid] l IH]; simpl; intros s1 Hk Ht1; [done|].
      assert (Hk1 := Hk k pid ltac:(set_solver)). assert (Hqc := quiet_cancel k pid s1).
      case_match; [case_decide|]; [rewrite IH|rewrite IH; [done| |done]|rewrite IH; [done| |done]];
        try (intros; apply Hk; set_solver).
      - by apply balance_cancel.
      - intros. rewrite (q_skeleton _ _ Hqc). apply Hk. set_solver.
      - by eapply table_quiet. }
    apply Hgen; [|done]. apply (ta_keyed _ Hta).
  - injection Hrun as <- <-. by rewrite !b_claims_none.
  - done.
Qed.

Definition send_exact (s : svc) : Prop := ∀ i, balance s i = cnt (claims i) (tasks s).

Lemma cnt_claims_move i t key reg f f' (l : list entry) :
  l !! t = Some (key, reg, f) →
  cnt (claims i) (<[t := (key, reg, f')]> l) = cnt (claims i) l - b_claims i f + b_claims i f'.
Proof. intros H. by rewrite (cnt_insert _ _ _ _ _ H). Qed.

Lemma balance_foldl {A} (f : svc → A → svc) l s i :
  (∀ s a, balance (f s a) i = balance s i) → balance (foldl f s l) i = balance s i.
Proof.
  intros Hf. revert s. induction l as [|a l IH]; intros s; simpl; [done|].
  by rewrite IH, Hf.
Qed.

Lemma balance_update_state sid f s i :
  (∀ x, sending (f x) = sending x) → balance (update_state sid f s) i = balance s i.
Proof. intros Hf. apply balance_same; [done..|]. simpl. by apply fmap_alter_same. Qed.

Lemma balance_metadata m s i : balance (apply_producer_metadata m s) i = balance s i.
Proof.
  unfold apply_producer_metadata.
  rewrite (balance_foldl (λ s tid, set_send_meta (λ d, ddel d tid) s)) by done.
  rewrite (balance_foldl (flip publish)), (balance_foldl (flip announce)); [done| |].
  - intros s1 a. simpl. unfold announce. destruct (dget _ _); rewrite balance_update_state;
      try done. by eapply balance_new_state.
  - intros s1 p. simpl. unfold publish. destruct (dget _ _).
    + rewrite balance_update_state; [done|]. intros x. by case_bool.
    + by eapply balance_new_state.
Qed.

Lemma send_exact_handle n init e s s' :
  core n s → uniq s → send_exact s → handle init e s = Some s' → send_exact s'.
Proof.
  intros Hco Hu H Hs i. destruct e as [m|r|identity request|t| |d|]; cbn [handle] in Hs.
  - injection Hs as <-. rewrite balance_metadata, (q_tasks _ _ (quiet_metadata m s)). apply H.
  - injection Hs as <-. unfold on_job_done. case_decide; apply H.
  - injection Hs as <-. unfold dispatch_producer. case_bool; [apply H|].
    assert (Hd : ∀ l : list entry, cnt (claims i) (l ++ [(request_op request,
      negb (is_abort request), FNew identity request)]) = cnt (claims i) l).
    { intros l. rewrite cnt_app, cnt_cons, cnt_nil. unfold claims at 2. simpl. lia. }
    case_bool; simpl; rewrite Hd; apply H.
  - unfold run_task in Hs. apply bind_Some in Hs as ([[key reg] f] & Ht & Hs).
    apply bind_Some in Hs as ([s1 f'] & Hrun & [= <-]).
    assert (Hb := balance_run_frame _ _ _ _ _ _ _ _ _ i Hco Hu Ht Hrun).
    assert (Hm := run_frame_moves _ _ _ _ _ _ _ _ (core_refs _ _ Hco) Ht Hrun).
    assert (Htasks := d_tasks _ _ _ _ (moves_delta _ _ _ _ _ _ _ _ Hco Ht Hm)).
    assert (Hi : balance s1 i = cnt (claims i) (<[t:=(key, reg, f')]> (tasks s1))).
    { rewrite Htasks, (cnt_claims_move _ _ _ _ _ _ _ Ht). specialize (H i). lia. }
    destruct f'; try exact Hi. destruct reg; [|exact Hi].
    unfold operation_finished. case_match; exact Hi.
  - case_match; [done|]. injection Hs as <-. rewrite (q_tasks _ _ (quiet_sweep s)), <- H.
    apply (balance_foldl sweep_one). intros s1 e. unfold sweep_one.
    destruct (heap s1 !! e.2); [|done]. by case_bool.
  - case_match; [|done]. injection Hs as <-. apply H.
  - injection Hs as <-. apply H.
Qed.

Lemma send_exact_runs init ok es s :
  (∀ es s e, ok es s e → fresh_open s e) → runs init ok es s → send_exact s.
Proof.
  intros Hok. induction 1 as [|es s e s' Hr IH He Hs]; [done|].
  destruct (good_runs _ _ _ _ Hok Hr). by eapply send_exact_handle.
Qed.
