(* ===== verification/ProducerSafe.v ===== *)
(** * The producer's blocks are not released under a running session

    When each transfer is opened at most as often as it has peers, a send
    state with an open session or a claim stays in [_send_meta]; its
    [FinalEvent], which frees the blocks, comes with its removal. *)

From S2P Require Import Prelude PyData Transfer Messages Producer ProducerInv ProducerAcc ProducerLive ProducerSend.

(** ** The discipline *)

Definition transfer_of (m : CompressionSessionOpen) : option string :=
  match req_blocks (so_metadata m) with [] => None | (_, (t, _)) :: _ => Some t end.

Definition targets_of (init : InitMessage) (m : CompressionSessionOpen) : result (list Z) :=
  handshake_target_ranks (tp_rank init) (tp_size init) (remote_tp_size (so_metadata m)).

Definition opens_transfer (tid : string) (e : event) : bool :=
  match e with
  | ERequest _ (ReqOpen m) => bool_decide (transfer_of m = Some tid)
  | _ => false
  end.

Definition opens_of (tid : string) (es : list event) : Z := cnt (opens_transfer tid) es.

(** No transfer is opened more often than the peers its opens announce. *)
Definition fan_out (init : InitMessage) (es : list event) : Prop :=
  ∀ identity m tid ranks, ERequest identity (ReqOpen m) ∈ es → transfer_of m = Some tid →
    targets_of init m = Ok ranks → opens_of tid es ≤ zlen ranks.

(** Opens are distinct and within the fan-out, the engine does not drop a
    transfer that was opened, and when the sweep's timer fires no coroutine is
    still to be resumed for a block table announced before. *)
Definition polite (init : InitMessage) (es : list event) (s : svc) (e : event) : Prop :=
  fresh_open s e ∧ fan_out init (es ++ [e]) ∧
  match e with
  | EMetadata m => Forall (λ tid, opens_of tid es = 0) (dropped m)
  | ESweep => ∀ t key reg c d x, tasks s !! t = Some (key, reg, FReady c d) →
      heap s !! oc_state c = Some x → s_ready x = false
  | _ => True
  end.

(** ** The invariant

    [u] bounds from above the opens of a transfer still to be claimed, [W]
    the contexts of the coroutines in [_wait_ready]. *)
Record safe (init : InitMessage) (es : list event) (u : string → Z) (W : open_ctx → Prop)
    (s : svc) : Prop := {
  sa_registered : ∀ sid x, heap s !! sid = Some x → 0 < sending x →
    dget (send_meta s) (s_transfer_id x) = Some sid;
  sa_count : ∀ sid x, heap s !! sid = Some x →
    0 ≤ sent x ∧ 0 ≤ sending x ∧
    sent x + sending x + u (s_transfer_id x) ≤ opens_of (s_transfer_id x) es;
  sa_need : ∀ sid x, heap s !! sid = Some x → need_send x ≠ 0 →
    ∃ identity m ranks, ERequest identity (ReqOpen m) ∈ es ∧
      transfer_of m = Some (s_transfer_id x) ∧ targets_of init m = Ok ranks ∧
      need_send x = zlen ranks;
  sa_zero : ∀ sid x, heap s !! sid = Some x → need_send x = 0 → sending x = 0;
  sa_waiting : ∀ c, W c → ∃ x, heap s !! oc_state c = Some x ∧
    s_transfer_id x = oc_transfer_id c ∧
    (s_ready x = true → dget (send_meta s) (oc_transfer_id c) = Some (oc_state c));
  sa_u : ∀ tid, 0 ≤ u tid ≤ opens_of tid es;
  sa_counted : ∀ c, W c → 1 ≤ u (oc_transfer_id c)
}.

Section safe.
Context (init : InitMessage) (es : list event) (Hfan : fan_out init es).
Implicit Types (u : string → Z) (W : open_ctx → Prop) (s : svc).

#[local] Notation safe := (safe init es).

Lemma safe_same u W s s' :
    send_meta s' = send_meta s → heap s' = heap s → safe u W s → safe u W s'.
  Proof using. intros E1 E2 []. split; rewrite ?E1, ?E2; done. Qed.

Lemma safe_mono u u' (W W' : open_ctx → Prop) s :
    (∀ tid, 0 ≤ u' tid ≤ u tid) → (∀ c, W' c → W c ∧ 1 ≤ u' (oc_transfer_id c)) →
    safe u W s → safe u' W' s.
  Proof using.
    intros Hu HW [H1 H2 H3 H4 H5 H6 H7]. split; try done.
    - intros sid x Hx. destruct (H2 sid x Hx) as (? & ? & ?).
      specialize (Hu (s_transfer_id x)). lia.
    - intros c Hc. apply H5. by apply HW.
    - intros tid. specialize (Hu tid). specialize (H6 tid). lia.
    - intros c Hc. by apply HW.
  Qed.

  (** Removing a registered state without senders that no coroutine waits
      for, unless its table is unknown. *)
Lemma safe_remove u W s tid sid x :
    safe u W s → dget (send_meta s) tid = Some sid → heap s !! sid = Some x →
    sending x ≤ 0 → (∀ c, W c → oc_state c = sid → s_ready x = false) →
    safe u W (set_send_meta (λ d, ddel d tid) s).
  Proof using.
    intros [H1 H2 H3 H4 H5 H6 H7] Hd Hx Hs Hw. split; try done; simpl.
    - intros i y Hy Hpos. assert (Hi := H1 i y Hy Hpos).
      rewrite dget_ddel_ne; [done|]. intros ->. rewrite Hd in Hi. injection Hi as ->.
      rewrite Hx in Hy. injection Hy as ->. lia.
    - intros c Hc. destruct (H5 c Hc) as (y & Hy & Ht & Hr). exists y. split_and!; [done..|].
      intros Hready. specialize (Hr Hready). rewrite dget_ddel_ne; [done|]. intros ->.
      rewrite Hd in Hr. injection Hr as ->. rewrite Hx in Hy. injection Hy as ->.
      by rewrite (Hw c Hc eq_refl) in Hready.
  Qed.

  (** Changing the counters and the readiness of one state. *)
Lemma safe_update u W s sid f :
    safe u W s → (∀ x, heap s !! sid = Some x →
      s_transfer_id (f x) = s_transfer_id x ∧
      (s_ready (f x) = true → s_ready x = true ∨
         dget (send_meta s) (s_transfer_id x) = Some sid) ∧
      (0 < sending (f x) → dget (send_meta s) (s_transfer_id x) = Some sid) ∧
      0 ≤ sent (f x) ∧ 0 ≤ sending (f x) ∧
      sent (f x) + sending (f x) + u (s_transfer_id x) ≤ opens_of (s_transfer_id x) es ∧
      (need_send (f x) ≠ 0 → need_send (f x) = need_send x ∨
        ∃ identity m ranks, ERequest identity (ReqOpen m) ∈ es ∧
        transfer_of m = Some (s_transfer_id x) ∧ targets_of init m = Ok ranks ∧
        need_send (f x) = zlen ranks) ∧
      (need_send (f x) = 0 → sending (f x) = 0)) →
    safe u W (update_state sid f s).
  Proof using.
    intros [H1 H2 H3 H4 H5 H6 H7] Hf.
    assert (Hlk : ∀ i y, heap (update_state sid f s) !! i = Some y →
      (i = sid ∧ ∃ x, heap s !! sid = Some x ∧ y = f x) ∨ heap s !! i = Some y).
    { intros i y. simpl. destruct (decide (sid = i)) as [->|].
      - rewrite list_lookup_alter_eq. destruct (heap s !! i) as [x|]; [|done].
        intros [= <-]. left. eauto.
      - rewrite list_lookup_alter_ne by done. auto. }
    split; try done.
    - intros i y [(-> & x & Hx & ->)|Hy]%Hlk; [|by apply H1].
      destruct (Hf x Hx) as (-> & _ & Hd & _). done.
    - intros i y [(-> & x & Hx & ->)|Hy]%Hlk; [|by eapply H2].
      destruct (Hf x Hx) as (-> & _ & _ & ? & ? & ? & _). done.
    - intros i y [(-> & x & Hx & ->)|Hy]%Hlk Hn; [|by eapply H3].
      destruct (Hf x Hx) as (-> & _ & _ & _ & _ & _ & Hneed & _).
      destruct (Hneed Hn) as [He|He]; [rewrite He in *; by eapply H3|done].
    - intros i y [(-> & x & Hx & ->)|Hy]%Hlk Hn; [|by eapply H4].
      destruct (Hf x Hx) as (_ & _ & _ & _ & _ & _ & _ & Hz). by apply Hz.
    - intros c Hc. destruct (H5 c Hc) as (x & Hx & Ht & Hr). simpl.
      destruct (decide (sid = oc_state c)) as [->|].
      + rewrite list_lookup_alter_eq, Hx. simpl. exists (f x).
        destruct (Hf x Hx) as (-> & Hready & _). split_and!; [done..|].
        intros [Hr'|Hr']%Hready; [by apply Hr|congruence].
      + rewrite list_lookup_alter_ne by done. eauto.
  Qed.
End safe.

(** ** Operations *)

Section safe_ops.
Context (init : InitMessage) (es : list event) (Hfan : fan_out init es).
Implicit Types (u : string → Z) (W : open_ctx → Prop) (s : svc).

#[local] Notation safe := (safe init es).

Lemma safe_finish u W s sid x :
    safe u W s → heap s !! sid = Some x → 0 < sending x → safe u W (finish_send_meta sid s).
  Proof using Hfan.
    intros H Hx Hpos. destruct (sa_count _ _ _ _ _ H sid x Hx) as (Hs0 & Hs1 & Hsum).
    assert (Hreg := sa_registered _ _ _ _ _ H sid x Hx Hpos).
    assert (Hnz : need_send x ≠ 0).
    { intros Hz. pose proof (sa_zero _ _ _ _ _ H sid x Hx Hz). lia. }
    set (f := λ x, set_sending x (sending x - 1) (sent x + 1) (need_send x)).
    assert (Hupd : safe u W (update_state sid f s)).
    { apply safe_update; [done|]. intros y Hy. assert (y = x) as -> by congruence.
      simpl. split_and!; try done; try lia; auto; try (intros; lia). }
    unfold finish_send_meta. fold f.
    assert (Hx1 : heap (update_state sid f s) !! sid = Some (f x)).
    { simpl. by rewrite list_lookup_alter_eq, Hx. }
    rewrite Hx1. destruct (sent (f x) =? need_send (f x)) eqn:Hfull; [|done].
    apply Z.eqb_eq in Hfull. simpl in Hfull.
    change (send_meta (update_state sid f s)) with (send_meta s).
    change (s_transfer_id (f x)) with (s_transfer_id x).
    rewrite Hreg.
    apply (safe_same _ _ u W (set_send_meta (λ d, ddel d (s_transfer_id x))
      (update_state sid f s))); [done..|].
    destruct (sa_need _ _ _ _ _ H sid x Hx Hnz) as (id & m & ranks & Hin & Ht & Hr & Hn).
    pose proof (Hfan _ _ _ _ Hin Ht Hr).
    assert (Hu := sa_u _ _ _ _ _ H (s_transfer_id x)).
    eapply safe_remove; [exact Hupd|exact Hreg|exact Hx1|simpl; lia|].
    intros c Hc Hcs. exfalso. destruct (sa_waiting _ _ _ _ _ H c Hc) as (y & Hy & Hyt & _).
    rewrite Hcs, Hx in Hy. injection Hy as <-.
    pose proof (sa_counted _ _ _ _ _ H c Hc). rewrite <- Hyt in *. lia.
  Qed.

Definition bal_ok s : Prop := ∀ i, 0 ≤ balance s i.

  (** The send state of a registered session has a sender. *)
Lemma registered_sending s key pid sid :
    bal_ok s → dget (producer_sessions s) key = Some pid →
    skeleton s !! pid = Some (key, sid) →
    ∃ x, heap s !! sid = Some x ∧ 0 < sending x.
  Proof using.
    intros Hb Hd Hsk. specialize (Hb sid). unfold balance in Hb.
    assert (Hr : 1 ≤ registered_on s sid).
    { eapply cnt_pos; [by eapply dget_elem_of|]. unfold on_state. simpl. rewrite Hsk.
      by apply bool_decide_eq_true. }
    unfold sending_of in Hb. destruct (heap s !! sid) as [x|]; [|lia].
    exists x. split; [done|lia].
  Qed.

Lemma safe_complete u W identity pid x s :
    table s → bal_ok s → sessions s !! pid = Some x → identity = p_identity x →
    safe u W s → safe u W (complete_producer_session identity pid s).
  Proof using Hfan.
    intros Ht Hb Hx -> H. unfold complete_producer_session. rewrite Hx. fold (session_key x).
    cbv zeta. assert (Hk := skeleton_lookup _ _ _ Hx). case_decide as Hd.
    - destruct (registered_sending _ _ _ _ Hb Hd Hk) as (y & Hy & Hpos).
      eapply safe_finish; [|exact Hy|done]. by eapply safe_same; [..|exact H].
    - by eapply safe_same; [..|exact H].
  Qed.

Lemma safe_discard u W key pid s :
    table s → bal_ok s → keyed (skeleton s) key pid →
    (∀ x, sessions s !! pid = Some x → ended (p_state x) = true) →
    safe u W s → safe u W (discard_producer_session key pid s).
  Proof using Hfan.
    intros Ht Hb [sid Hk] He H. unfold discard_producer_session. cbv zeta.
    case_decide as Hd; [|by eapply safe_same; [..|exact H]].
    change (sessions (pop_session key s)) with (sessions s).
    apply skeleton_lookup_inv in Hk as Hx. destruct Hx as (x & Hx & _ & Hsid).
    rewrite Hx, (He x Hx), Hsid.
    destruct (registered_sending _ _ _ _ Hb Hd Hk) as (y & Hy & Hpos).
    eapply safe_finish; [|exact Hy|done]. by eapply safe_same; [..|exact H].
  Qed.

Lemma bal_ok_session pid f s :
    quiet s (update_session pid f s) → bal_ok s → bal_ok (update_session pid f s).
  Proof using. intros Hq Hb i. rewrite (balance_quiet_session _ _ _ _ Hq). apply Hb. Qed.

Lemma safe_cancel u W key pid s :
    table s → bal_ok s → keyed (skeleton s) key pid →
    safe u W s → safe u W (cancel_session key pid s).
  Proof using Hfan.
    intros Ht Hb Hk H. unfold cancel_session.
    assert (Hq := quiet_with_state pid CANCELLED s).
    assert (H1 : safe u W (update_session pid (with_state CANCELLED) s))
      by by eapply safe_same; [..|exact H].
    case_match; [|done]. case_bool; [|done]. apply safe_discard; [..|done].
    - by eapply table_quiet.
    - by apply bal_ok_session.
    - by rewrite (q_skeleton _ _ Hq).
    - intros x. simpl. rewrite list_lookup_alter_eq. destruct (sessions s !! pid); [|done].
      by intros [= <-].
  Qed.

Lemma safe_discard_idle u W key pid s :
    table s → bal_ok s → keyed (skeleton s) key pid → safe u W s →
    safe u W (match sessions s !! pid with
              | None => s
              | Some x => if (inflight_chunks x =? 0) && ended (p_state x)
                          then discard_producer_session key pid s else s
              end).
  Proof using Hfan.
    intros Ht Hb Hk H. destruct (sessions s !! pid) as [x|] eqn:Hx; [|done].
    case_bool; [|done]. zbool. apply safe_discard; [done..| |done].
    rewrite Hx. by intros ? [= <-].
  Qed.

Lemma safe_leave u W key pid slot s :
    table s → bal_ok s → keyed (skeleton s) key pid →
    (∀ x, sessions s !! pid = Some x → 1 ≤ inflight_chunks x) →
    safe u W s → safe u W (serve_finally key pid (Some slot) true s).
  Proof using Hfan.
    intros Ht Hb Hk Hin H. unfold serve_finally. cbv zeta. fold (leave pid slot s).
    assert (Hsk := skeleton_leave pid slot s).
    apply safe_discard_idle.
    - by apply table_leave.
    - intros i. rewrite (balance_eq s (leave pid slot s)); [apply Hb|exact Hsk|done|done].
    - by rewrite Hsk.
    - by eapply safe_same; [..|exact H].
  Qed.

Lemma safe_open_fail u W c claimed msg s :
    (claimed = true → ∃ x, heap s !! oc_state c = Some x ∧ 0 < sending x) →
    safe u W s → safe u W (open_fail c claimed msg s).1.
  Proof using Hfan.
    intros Hc H. unfold open_fail. cbv zeta. cbn [fst].
    assert (H1 : safe u W (if claimed then finish_send_meta (oc_state c) s else s)).
    { destruct claimed; [|done]. destruct (Hc eq_refl) as (x & Hx & ?).
      by eapply safe_finish. }
    revert H1. generalize (if claimed then finish_send_meta (oc_state c) s else s).
    intros s1 H1. destruct (heap s1 !! oc_state c) as [x|] eqn:Hx; [|done].
    match goal with |- context [if ?b then _ else _] => destruct b eqn:Hcl end; [|done].
    rewrite !andb_true_iff in Hcl. destruct Hcl as [[[[_ Hreg] Hnr] _] Hz].
    apply bool_decide_eq_true in Hreg. apply negb_true_iff in Hnr. apply Z.eqb_eq in Hz.
    eapply safe_remove; [exact H1|exact Hreg|exact Hx|lia|by intros].
  Qed.
End safe_ops.

(** ** Coroutines that have not claimed a send target *)

Definition un (tid : string) (e : entry) : bool :=
  match e.2 with
  | FNew _ (ReqOpen m) => bool_decide (transfer_of m = Some tid)
  | FReady c _ => bool_decide (oc_transfer_id c = tid)
  | _ => false
  end.

Definition u_of (ts : list entry) (tid : string) : Z := cnt (un tid) ts.
Definition W_of (ts : list entry) (c : open_ctx) : Prop := ∃ k r d, (k, r, FReady c d) ∈ ts.

(** The requests of the running coroutines are in the history. *)
Definition known (es : list event) (ts : list entry) : Prop :=
  ∀ e, e ∈ ts →
    (∀ identity m, e.2 = FNew identity (ReqOpen m) → ERequest identity (ReqOpen m) ∈ es) ∧
    (∀ c, context e.2 = Some c →
       ERequest (oc_identity c) (ReqOpen (oc_request c)) ∈ es ∧
       transfer_of (oc_request c) = Some (oc_transfer_id c)).

Lemma W_of_counted ts c : W_of ts c → 1 ≤ u_of ts (oc_transfer_id c).
Proof.
  intros (k & r & d & Hin). eapply cnt_pos; [exact Hin|]. by apply bool_decide_eq_true.
Qed.

Definition claimed_frame (f : frame) : Prop :=
  match f with FNew _ (ReqOpen _) | FReady _ _ => False | _ => True end.

Section safe_frames.
Context (init : InitMessage) (es : list event) (Hfan : fan_out init es).
Context (Htp : 0 < tp_size init).
Context (ts : list entry) (t : nat) (key : okey) (reg : bool) (f : frame).
Context (Ht : ts !! t = Some (key, reg, f)).
Implicit Types (s : svc).

#[local] Notation safe := (safe init es).
#[local] Notation ts' f' := (<[t := (key, reg, f')]> ts).
#[local] Notation ok_with f' s := (safe (u_of (ts' f')) (W_of (ts' f')) s).

Lemma W_shrink f' c : claimed_frame f' → W_of (ts' f') c → W_of ts c.
  Proof using.
    intros Hf (k & r & d & Hin). apply elem_of_insert_inv in Hin as [[= -> -> <-]|Hin];
      [done|by exists k, r, d].
  Qed.

Lemma u_move f' tid :
    u_of (ts' f') tid = u_of ts tid - Z.b2z (un tid (key, reg, f))
                        + Z.b2z (un tid (key, reg, f')).
  Proof using Ht. unfold u_of. by rewrite (cnt_insert _ _ _ _ _ Ht). Qed.

Lemma un_claimed tid f' : claimed_frame f' → un tid (key, reg, f') = false.
  Proof using. destruct f' as [? []| | | | | | | |]; done. Qed.

Lemma safe_shrink f' s :
    claimed_frame f' → safe (u_of ts) (W_of ts) s → ok_with f' s.
  Proof using Ht.
    intros Hf H. eapply safe_mono; [..|exact H].
    - intros tid. rewrite u_move, (un_claimed _ _ Hf). simpl.
      pose proof (cnt_nonneg (un tid) (ts' f')) as Hn.
      change (cnt (un tid) (ts' f')) with (u_of (ts' f') tid) in Hn.
      rewrite u_move, (un_claimed _ _ Hf) in Hn. simpl in Hn.
      destruct (un tid (key, reg, f)); simpl in *; lia.
    - intros c Hc. split; [by eapply W_shrink|by apply W_of_counted].
  Qed.

Lemma targets_pos m ranks : targets_of init m = Ok ranks → 0 < zlen ranks.
  Proof using Htp.
    unfold targets_of, handshake_target_ranks. case_bool; zbool; intros H; inv_ok; [done|].
    match goal with H : py_div _ _ = _ |- _ => apply py_div_Ok in H as [_ ->] end.
    unfold zlen. rewrite length_fmap, length_seqZ.
    assert (1 ≤ remote_tp_size (so_metadata m) / tp_size init); [|lia].
    apply Z.div_le_lower_bound; lia.
  Qed.

  (** [c] is the context of the open that runs. *)
Context (c : open_ctx).
Context (Hev : ERequest (oc_identity c) (ReqOpen (oc_request c)) ∈ es).
Context (Htr : transfer_of (oc_request c) = Some (oc_transfer_id c)).
Context (Hun : ∀ tid, un tid (key, reg, f) = bool_decide (oc_transfer_id c = tid)).

Definition waits (s : svc) : Prop :=
    ∃ x, heap s !! oc_state c = Some x ∧ s_transfer_id x = oc_transfer_id c ∧
      (s_ready x = true → dget (send_meta s) (oc_transfer_id c) = Some (oc_state c)).

Lemma safe_open_claim s :
    safe (u_of ts) (W_of ts) s → waits s →
    (∀ x, heap s !! oc_state c = Some x → s_ready x = true) →
    ok_with (open_claim init c s).2 (open_claim init c s).1.
  Proof using Hev Hfan Ht Htp Htr Hun.
    intros H (x & Hx & Hxt & Hreg) Hready. specialize (Hreg (Hready x Hx)).
    unfold open_claim. fold (targets_of init (oc_request c)).
    destruct (targets_of init (oc_request c)) as [ranks|e] eqn:Hranks.
    2:{ apply safe_open_fail; [done|done|]. by apply safe_shrink. }
    cbv zeta. assert (Hpos := targets_pos _ _ Hranks).
    match goal with |- context [update_state ?sid ?g s] => set (g0 := g) end.
    assert (Hupd : ∀ f', claimed_frame f' → ok_with f' (update_state (oc_state c) g0 s)).
    { intros f' Hf'. apply safe_update; [by apply safe_shrink|]. intros y Hy.
      assert (y = x) as -> by congruence. unfold g0. simpl. rewrite Hxt.
      destruct (sa_count _ _ _ _ _ H _ _ Hx) as (Hs0 & Hs1 & Hsum).
      rewrite Hxt in Hsum. rewrite u_move, (un_claimed _ _ Hf'), Hun, bool_decide_true by done.
      simpl.
      split_and!; try done; try lia; auto.
      - destruct (Z.eqb_spec (need_send x) 0); [|by left]. intros _. right. eauto 10.
      - destruct (Z.eqb_spec (need_send x) 0); lia. }
    case_bool.
    2:{ unfold submit. cbv beta iota zeta. cbn [fst snd].
        apply (safe_same _ _ _ _ (update_state (oc_state c) g0 s)); [done..|by apply Hupd]. }
    apply safe_open_fail; [done| |by apply Hupd].
    intros _. exists (g0 x). simpl. rewrite list_lookup_alter_eq, Hx. split; [done|].
    destruct (sa_count _ _ _ _ _ H _ _ Hx) as (_ & Hs1 & _). lia.
  Qed.

Lemma safe_wait_ready d s :
    safe (u_of ts) (W_of ts) s → waits s →
    ok_with (wait_ready init c d s).2 (wait_ready init c d s).1.
  Proof using Hev Hfan Ht Htp Htr Hun.
    intros H Hw. assert (Hw' := Hw). destruct Hw' as (x & Hx & Hxt & Hreg).
    unfold wait_ready. rewrite Hx. destruct (s_ready x) eqn:Hready.
    { apply safe_open_claim; [done..|]. intros y Hy. congruence. }
    case_bool; [apply safe_open_fail; [done|done|by apply safe_shrink]|].
    case_bool; [apply safe_open_fail; [done|done|by apply safe_shrink]|].
    assert (Hu : ∀ tid, u_of (ts' (FReady c d)) tid = u_of ts tid).
    { intros tid. rewrite u_move, Hun. unfold un. simpl. lia. }
    destruct H as [H1 H2 H3 H4 H5 H6 H7]. split; try done.
    - intros sid y Hy. rewrite Hu. by eapply H2.
    - intros c' (k & r & d' & Hin). apply elem_of_insert_inv in Hin as [[= -> -> -> ->]|Hin];
        [|apply H5; by exists k, r, d']. exists x. rewrite Hready. done.
    - intros tid. rewrite Hu. apply H6.
    - apply W_of_counted.
  Qed.
End safe_frames.

(** A new, unannounced send state. *)
Lemma safe_new init es u W s t p :
  safe init es u W s → dget (send_meta s) t = None →
  safe init es u W (set_send_meta (λ d, dset d t (length (heap s)))
                      (set_heap (λ h, h ++ [new_send_state t p]) s)).
Proof.
  intros [H1 H2 H3 H4 H5 H6 H7] Hd.
  assert (Hlk : ∀ i y, (heap s ++ [new_send_state t p]) !! i = Some y →
    heap s !! i = Some y ∨ i = length (heap s) ∧ y = new_send_state t p).
  { intros i y [Hy|[Hge Hy]]%lookup_app_Some; [by left|right].
    apply list_lookup_singleton_Some in Hy as [? <-]. split; [lia|done]. }
  split; try done; simpl.
  - intros i y [Hy|[-> ->]]%Hlk Hp; [|done]. specialize (H1 i y Hy Hp).
    rewrite dget_dset_ne; [done|]. intros ->. congruence.
  - intros i y [Hy|[-> ->]]%Hlk; [by eapply H2|]. simpl. specialize (H6 t). lia.
  - intros i y [Hy|[-> ->]]%Hlk; [by eapply H3|done].
  - intros i y [Hy|[-> ->]]%Hlk; [by eapply H4|done].
  - intros c Hc. destruct (H5 c Hc) as (x & Hx & Hxt & Hr). exists x.
    split_and!; [by apply lookup_app_l_Some|done|]. intros Hready. specialize (Hr Hready).
    rewrite dget_dset_ne; [done|]. intros ->. congruence.
Qed.

Lemma send_exact_nonneg s : send_exact s → bal_ok s.
Proof. intros H i. rewrite H. apply cnt_nonneg. Qed.

Section safe_run.
Context (init : InitMessage) (es : list event) (Hfan : fan_out init es).
Context (Htp : 0 < tp_size init).

#[local] Notation safe := (safe init es).

Lemma safe_open_start n s t key reg identity m :
    core n s → known es (tasks s) → safe (u_of (tasks s)) (W_of (tasks s)) s →
    tasks s !! t = Some (key, reg, FNew identity (ReqOpen m)) →
    let r := open_producer_session init identity m s in
    safe (u_of (<[t := (key, reg, r.2)]> (tasks s)))
         (W_of (<[t := (key, reg, r.2)]> (tasks s))) r.1.
  Proof using Hfan Htp.
    intros Hco Hkn H Ht r. assert (Hin := Ht). apply list_elem_of_lookup_2 in Hin.
    destruct (Hkn _ Hin) as [Hev _]. specialize (Hev identity m eq_refl).
    unfold r, open_producer_session, transfer_of in *. clear r.
    destruct (req_blocks (so_metadata m)) as [|[d [tid b]] l] eqn:Hrb; [by apply safe_shrink with
      (f := FNew identity (ReqOpen m))|].
    destruct (dget (send_meta s) tid) as [sid|] eqn:Hd; cbv zeta.
    - apply (safe_wait_ready init es Hfan Htp _ _ _ _ (FNew identity (ReqOpen m)) Ht);
        [done|unfold transfer_of; simpl; by rewrite Hrb| |done|].
      + intros tid'. unfold un, transfer_of. simpl. rewrite Hrb.
        apply bool_decide_ext. naive_solver.
      + destruct (mo_ref _ _ _ (co_meta _ _ Hco) Hd) as (x & Hx & Hxt). exists x. done.
    - apply (safe_wait_ready init es Hfan Htp _ _ _ _ (FNew identity (ReqOpen m)) Ht);
        [done|unfold transfer_of; simpl; by rewrite Hrb| |by apply safe_new|].
      + intros tid'. unfold un, transfer_of. simpl. rewrite Hrb.
        apply bool_decide_ext. naive_solver.
      + exists (new_send_state tid ""). simpl. by rewrite list_lookup_middle.
  Qed.

Lemma safe_run_frame n t key reg f s s' f' :
    core n s → uniq s → send_exact s → known es (tasks s) →
    safe (u_of (tasks s)) (W_of (tasks s)) s → tasks s !! t = Some (key, reg, f) →
    run_frame init f s = Some (s', f') →
    safe (u_of (<[t := (key, reg, f')]> (tasks s)))
         (W_of (<[t := (key, reg, f')]> (tasks s))) s'.
  Proof using Hfan Htp.
    intros Hco Hu Hex Hkn H Ht Hrun. assert (Hta := core_table _ _ Hco Hu).
    assert (Hb := send_exact_nonneg _ Hex).
    assert (Hin := Ht). apply list_elem_of_lookup_2 in Hin.
    assert (Hserv := λ k pid x, serving_counted _ _ _ _ _ _ k pid x Hco Ht).
    assert (Hkeyed := λ k pid, co_serving _ _ Hco _ k pid Hin).
    assert (Hsh : ∀ g, claimed_frame g → safe (u_of (<[t := (key, reg, g)]> (tasks s)))
         (W_of (<[t := (key, reg, g)]> (tasks s))) s).
    { intros g Hg. by eapply safe_shrink. }
    destruct f as [identity [m|m|m]|c d|c job d|identity m pid|identity m pid slot job d
      |identity m pid slot job d resp|identity m session pending d|identity resp|];
      cbn [run_frame] in Hrun.
    - apply Some_inj in Hrun.
      pose proof (safe_open_start _ _ _ _ _ _ _ Hco Hkn H Ht) as Hs. cbv zeta in Hs.
      by rewrite Hrun in Hs.
    - assert (claimed_frame f') as Hcf.
      { unfold serve_producer_chunk in Hrun. repeat case_match; by inversion Hrun. }
      take_fst Hrun. specialize (Hsh _ Hcf). unfold serve_producer_chunk.
      destruct (dget _ _) as [pid|] eqn:Hd; [|done].
      destruct (sessions s !! pid) as [x|] eqn:Hx; [|done].
      destruct (decide (p_state x = ACTIVE)); [by eapply safe_same; [..|exact Hsh]|].
      unfold serve_fail, serve_finally. cbv zeta. cbn [fst].
      apply safe_discard_idle; [done|..].
      + apply (table_quiet s); [done|apply quiet_with_state].
      + apply bal_ok_session; [apply quiet_with_state|done].
      + rewrite (q_skeleton _ _ (quiet_with_state pid FAILED s)).
        by apply (ta_keyed _ Hta), dget_elem_of.
      + by eapply safe_same; [..|exact Hsh].
    - assert (claimed_frame f') as Hcf by by inversion Hrun.
      take_fst Hrun. specialize (Hsh _ Hcf). unfold abort_producer. cbv zeta. cbn [fst].
      match goal with |- context [match ?o with Some x => _ | None => _ end] =>
        destruct o as [x|] eqn:Ho end; [|by eapply safe_same; [..|exact Hsh]].
      case_bool; [|by eapply safe_same; [..|exact Hsh]].
      destruct (abort_target _ _ _) as [pid|]; [|done]. simpl in Ho.
      apply safe_cancel; [done|by destruct Hta|done| |by eapply safe_same; [..|exact Hsh]].
      exists (p_send_state x). by apply skeleton_lookup.
    - apply Some_inj in Hrun. destruct (Hkn _ Hin) as [_ Hctx].
      destruct (Hctx c eq_refl) as [Hev Htr].
      pose proof (safe_wait_ready init es Hfan Htp _ _ _ _ (FReady c d) Ht c Hev Htr
        (λ _, eq_refl) d s H) as Hs. rewrite Hrun in Hs. apply Hs.
      apply (sa_waiting _ _ _ _ _ H). by exists key, reg, d.
    - apply bind_Some in Hrun as ([r s1] & Haw & Hrun). cbn [fst snd] in Hrun.
      assert (claimed_frame f') as Hcf.
      { unfold open_opened in Hrun. repeat case_match; by inversion Hrun. }
      take_fst Hrun. specialize (Hsh _ Hcf).
      assert (Hs1 : heap s1 = heap s ∧ send_meta s1 = send_meta s).
      { unfold await_job in Haw. repeat case_match; simplify_eq/=; done. }
      destruct Hs1 as [Eh Em]. apply quiet_await_job in Haw as Hq. simpl in Hq.
      apply kept_await in Haw as [Es Ep]. simpl in Es, Ep.
      assert (Hsh1 : safe (u_of (<[t:=(key, reg, f')]> (tasks s)))
        (W_of (<[t:=(key, reg, f')]> (tasks s))) s1) by by eapply safe_same; [..|exact Hsh].
      assert (Hclaim : ∃ x, heap s1 !! oc_state c = Some x ∧ 0 < sending x).
      { rewrite Eh. specialize (Hex (oc_state c)).
        assert (1 ≤ cnt (claims (oc_state c)) (tasks s)).
        { eapply cnt_pos; [exact Hin|]. by apply bool_decide_eq_true. }
        unfold balance, sending_of in Hex.
        pose proof (cnt_nonneg (on_state (skeleton s) (oc_state c)) (producer_sessions s)).
        unfold registered_on in Hex. destruct (heap s !! oc_state c) as [x|]; [|lia].
        exists x. split; [done|lia]. }
      unfold open_opened. destruct r as [r|]; [|by apply safe_open_fail].
      destruct (jd_error r); [by apply safe_open_fail|].
      unfold open_register. cbv zeta. cbn [fst]. fold (opened_session c r).
      change (set_producer_sessions _ _) with (register c r s1).
      assert (Hreg : safe (u_of (<[t:=(key, reg, f')]> (tasks s)))
        (W_of (<[t:=(key, reg, f')]> (tasks s))) (register c r s1))
        by by eapply safe_same; [..|exact Hsh1].
      case_bool; [|done].
      assert (Hkey : cnt (has_key (open_key c)) (skeleton s1) = 0).
      { rewrite (q_skeleton _ _ Hq). by eapply opening_fresh. }
      apply (safe_complete init es Hfan _ _ _ _ (opened_session c r)); [| | |done|done].
      + apply table_register; [by eapply table_quiet|done|].
        pose proof (co_context _ _ Hco _ c Hin eq_refl). apply q_heap in Hq. lia.
      + intros i. unfold balance. rewrite registered_register;
          [|by eapply table_quiet|done].
        assert (Hr : registered_on s1 i = registered_on s i).
        { apply registered_same; [apply Hq|done]. }
        change (sending_of (register c r s1) i) with (sending_of s1 i).
        assert (sending_of s1 i = sending_of s i) as -> by (unfold sending_of; by rewrite Eh).
        rewrite Hr. specialize (Hex i). unfold balance in Hex.
        assert (b_claims i (FOpening c 0 0) ≤ cnt (claims i) (tasks s)); [|lia].
        unfold b_claims. simpl. case_bool_decide; simpl; [|apply cnt_nonneg].
        eapply cnt_pos; [exact Hin|]. by apply bool_decide_eq_true.
      + simpl. by rewrite list_lookup_middle.
    - destruct (sender_slots s) as [|slot q]; [done|].
      assert (claimed_frame f') as Hcf.
      { unfold serve_slot in Hrun. repeat case_match; by inversion Hrun. }
      take_fst Hrun. specialize (Hsh _ Hcf). unfold serve_slot.
      change (sessions (set_sender_slots (λ _, q) s)) with (sessions s).
      destruct (sessions s !! pid) as [x|] eqn:Hx; [|by eapply safe_same; [..|exact Hsh]].
      case_bool; by eapply safe_same; [..|exact Hsh].
    - apply bind_Some in Hrun as ([r s1] & Haw & Hrun). cbn [fst snd] in Hrun.
      assert (claimed_frame f') as Hcf.
      { unfold serve_encoded in Hrun. repeat case_match; by inversion Hrun. }
      take_fst Hrun. specialize (Hsh _ Hcf).
      assert (Hs1 : heap s1 = heap s ∧ send_meta s1 = send_meta s).
      { unfold await_job in Haw. repeat case_match; simplify_eq/=; done. }
      destruct Hs1 as [Eh Em]. apply quiet_await_job in Haw as Hq. simpl in Hq.
      assert (Hb1 := λ i, balance_await _ _ _ _ i Haw). simpl in Hb1.
      apply kept_await in Haw as [Es Ep]. simpl in Es, Ep.
      assert (Hsh1 : safe (u_of (<[t:=(key, reg, f')]> (tasks s)))
        (W_of (<[t:=(key, reg, f')]> (tasks s))) s1) by by eapply safe_same; [..|exact Hsh].
      unfold serve_encoded. destruct r as [r|]; [|by eapply safe_same; [..|exact Hsh1]].
      destruct (jd_error r); [by eapply safe_same; [..|exact Hsh1]|]. cbv zeta. cbn [fst].
      assert (Hta1 := table_quiet _ _ Hta Hq).
      assert (Hk1 : keyed (skeleton s1) (pull_key identity m) pid).
      { rewrite (q_skeleton _ _ Hq). by apply Hkeyed. }
      assert (Hq2 := quiet_encoded_state identity pid s1). cbv zeta in Hq2.
      assert (Hbal1 : bal_ok s1) by (intros i; rewrite Hb1; apply Hb).
      apply safe_leave; [done| | | | |].
      + eapply table_quiet; [exact Hta1|exact Hq2].
      + intros i. pose proof (balance_encoded_state identity m pid s1 i Hta1 Hk1) as Hbe.
        cbv zeta in Hbe. rewrite Hbe. apply Hbal1.
      + by rewrite (q_skeleton _ _ Hq2).
      + intros y Hy. destruct (inflight_quiet _ _ _ _ Hq2 Hy) as (x & Hx & <-).
        rewrite Es in Hx. eauto.
      + destruct Hk1 as [sid Hk1]. apply skeleton_lookup_inv in Hk1 as (x & Hx & Hkx & _).
        simpl. rewrite list_lookup_alter_eq, Hx. simpl.
        case_bool; [|by eapply safe_same; [..|exact Hsh1]].
        apply (safe_complete init es Hfan _ _ _ _ (add_completed x)).
        * apply (table_quiet s1); [done|apply quiet_add_completed].
        * apply bal_ok_session; [apply quiet_add_completed|done].
        * simpl. by rewrite list_lookup_alter_eq, Hx.
        * by eapply pull_key_session.
        * by eapply safe_same; [..|exact Hsh1].
    - apply bind_Some in Hrun as ([r s1] & Haw & Hrun). cbn [fst snd] in Hrun.
      assert (claimed_frame f') as Hcf by by inversion Hrun.
      take_fst Hrun. specialize (Hsh _ Hcf).
      assert (Hs1 : heap s1 = heap s ∧ send_meta s1 = send_meta s).
      { unfold await_job in Haw. repeat case_match; simplify_eq/=; done. }
      destruct Hs1 as [Eh Em]. apply quiet_await_job in Haw as Hq. simpl in Hq.
      assert (Hb1 := λ i, balance_await _ _ _ _ i Haw). simpl in Hb1.
      apply kept_await in Haw as [Es Ep]. simpl in Es, Ep.
      apply safe_leave; [done|by eapply table_quiet| | | |].
      + intros i. rewrite Hb1. apply Hb.
      + rewrite (q_skeleton _ _ Hq). by apply Hkeyed.
      + rewrite Es. eauto.
      + by eapply safe_same; [..|exact Hsh].
    - assert (∃ e, (s', f') = abort_finish identity m e s) as [e He].
      { repeat case_bool; try done; apply Some_inj in Hrun; eauto. }
      clear Hrun. assert (claimed_frame f') as Hcf by by inversion He.
      specialize (Hsh _ Hcf). apply (f_equal fst) in He. simpl in He. subst s'.
      assert (Hgen : ∀ l s1, (∀ k pid, (k, pid) ∈ l → keyed (skeleton s1) k pid) →
        table s1 → bal_ok s1 → safe (u_of (<[t:=(key, reg, f')]> (tasks s)))
          (W_of (<[t:=(key, reg, f')]> (tasks s))) s1 →
        safe (u_of (<[t:=(key, reg, f')]> (tasks s))) (W_of (<[t:=(key, reg, f')]> (tasks s)))
          (foldl (λ s e, match sessions s !! e.2 with
          | Some x => if decide (session_op x = abort_op m) then cancel_session e.1 e.2 s else s
          | None => s end) s1 l)).
      { induction l as [|[k pid] l IH]; simpl; intros s1 Hk Ht1 Hb1 Hs1; [done|].
        assert (Hk1 := Hk k pid ltac:(set_solver)). assert (Hqc := quiet_cancel k pid s1).
        case_match; [case_decide|]; apply IH; try done; try (intros; apply Hk; set_solver).
        - intros. rewrite (q_skeleton _ _ Hqc). apply Hk. set_solver.
        - by eapply table_quiet.
        - intros i. rewrite balance_cancel by done. apply Hb1.
        - by apply safe_cancel. }
      apply Hgen; [|done..]. apply (ta_keyed _ Hta).
    - assert (claimed_frame f') as Hcf by by inversion Hrun.
      specialize (Hsh _ Hcf). injection Hrun as <- <-. by eapply safe_same; [..|exact Hsh].
    - done.
  Qed.
End safe_run.

(** ** Events *)

Lemma opens_of_snoc tid es e : opens_of tid (es ++ [e]) = opens_of tid es + Z.b2z (opens_transfer tid e).
Proof. unfold opens_of. rewrite cnt_app, cnt_cons, cnt_nil. lia. Qed.

Lemma safe_extend init es e (u u' : string → Z) W s :
  (∀ tid, 0 ≤ u' tid ≤ u tid + Z.b2z (opens_transfer tid e)) →
  (∀ c, W c → 1 ≤ u' (oc_transfer_id c)) →
  safe init es u W s → safe init (es ++ [e]) u' W s.
Proof.
  intros Hu HW [H1 H2 H3 H4 H5 H6 H7]. split; try done.
  - intros sid x Hx. destruct (H2 sid x Hx) as (? & ? & ?). rewrite opens_of_snoc.
    specialize (Hu (s_transfer_id x)). lia.
  - intros sid x Hx Hn. destruct (H3 sid x Hx Hn) as (i & m & ranks & Hin & Hrest).
    exists i, m, ranks. split; [set_solver|done].
  - intros tid. rewrite opens_of_snoc. specialize (Hu tid). specialize (H6 tid). lia.
Qed.

Lemma known_mono es e ts : known es ts → known (es ++ [e]) ts.
Proof.
  intros H x Hx. destruct (H x Hx) as [H1 H2]. split.
  - intros i m Hf. apply elem_of_app. left. by eapply H1.
  - intros c Hc. destruct (H2 c Hc). split; [|done]. apply elem_of_app. by left.
Qed.

Definition safe_state (init : InitMessage) (es : list event) (s : svc) : Prop :=
  safe init es (u_of (tasks s)) (W_of (tasks s)) s ∧ known es (tasks s).

(** Announcing and publishing. *)
Lemma safe_announce init es u W a s :
  meta_ok s → safe init es u W s → safe init es u W (announce a s).
Proof.
  intros Hm H. unfold announce. destruct (dget (send_meta s) (an_transfer_id a)) as [sid|] eqn:Hd.
  - destruct (mo_ref _ _ _ Hm Hd) as (x & Hx & Hxt).
    apply safe_update; [done|]. intros y Hy. assert (y = x) as -> by congruence.
    destruct (sa_count _ _ _ _ _ H _ _ Hx) as (? & ? & ?). rewrite Hxt in *. simpl.
    split_and!; auto. by apply (sa_zero _ _ _ _ _ H sid).
  - apply safe_update; [by apply safe_new|]. intros y Hy. simpl in Hy.
    rewrite list_lookup_middle in Hy by done. injection Hy as <-. simpl.
    pose proof (sa_u _ _ _ _ _ H (an_transfer_id a)). rewrite dget_dset_eq.
    split_and!; auto; lia.
Qed.

Lemma safe_publish init es u W p s :
  meta_ok s → safe init es u W s → safe init es u W (publish p s).
Proof.
  intros Hm H. unfold publish. destruct (dget (send_meta s) (pu_transfer_id p)) as [sid|] eqn:Hd;
    [|by apply safe_new].
  destruct (mo_ref _ _ _ Hm Hd) as (x & Hx & Hxt).
  apply safe_update; [done|]. intros y Hy. assert (y = x) as -> by congruence.
  destruct (sa_count _ _ _ _ _ H _ _ Hx) as (? & ? & ?). rewrite Hxt in *.
  case_bool; simpl; split_and!; auto; by apply (sa_zero _ _ _ _ _ H sid).
Qed.

(** The engine drops a transfer nobody opened. *)
Lemma safe_drop init es u W tid s :
  meta_ok s → opens_of tid es = 0 → safe init es u W s →
  safe init es u W (set_send_meta (λ d, ddel d tid) s).
Proof.
  intros Hm Ho H. destruct (dget (send_meta s) tid) as [sid|] eqn:Hd.
  - destruct (mo_ref _ _ _ Hm Hd) as (x & Hx & Hxt).
    destruct (sa_count _ _ _ _ _ H _ _ Hx) as (? & ? & Hs). rewrite Hxt, Ho in Hs.
    pose proof (sa_u _ _ _ _ _ H tid).
    eapply safe_remove; [done..|lia|]. intros c Hc Hcs. exfalso.
    destruct (sa_waiting _ _ _ _ _ H c Hc) as (y & Hy & Hyt & _).
    rewrite Hcs, Hx in Hy. injection Hy as <-.
    pose proof (sa_counted _ _ _ _ _ H c Hc). rewrite <- Hyt, Hxt in *. lia.
  - apply (safe_same _ _ _ _ s); [|done|done]. simpl. by apply ddel_absent.
Qed.

Lemma safe_fold {A} init es u W (f : svc → A → svc) (P : A → Prop) l s :
  (∀ s a, P a → meta_ok s → safe init es u W s → meta_ok (f s a) ∧ safe init es u W (f s a)) →
  Forall P l → meta_ok s → safe init es u W s →
  meta_ok (foldl f s l) ∧ safe init es u W (foldl f s l).
Proof.
  intros Hf Hl. revert s. induction Hl as [|a l Ha Hl IH]; intros s Hm H; [done|].
  simpl. destruct (Hf s a Ha Hm H). by apply IH.
Qed.

Lemma meta_announce a s : meta_ok s → meta_ok (announce a s).
Proof.
  intros H. unfold announce. destruct (dget _ _); apply meta_update_state; try done.
  by apply meta_new.
Qed.

Lemma meta_publish p s : meta_ok s → meta_ok (publish p s).
Proof.
  intros H. unfold publish. destruct (dget _ _); [|by apply meta_new].
  apply meta_update_state; [|done]. intros x. simpl. by case_bool.
Qed.

Lemma safe_metadata init es u W m s :
  meta_ok s → Forall (λ tid, opens_of tid es = 0) (dropped m) →
  safe init es u W s → safe init es u W (apply_producer_metadata m s).
Proof.
  intros Hm Hd H. unfold apply_producer_metadata.
  destruct (safe_fold init es u W (flip announce) (λ _, True) (announced m) s) as [Hm1 H1];
    [|by apply Forall_true|done..|].
  { intros s1 a _ ??. split; [by apply meta_announce|by apply safe_announce]. }
  destruct (safe_fold init es u W (flip publish) (λ _, True) (published m) _ ltac:(
    intros s1 p _ ??; split; [by apply meta_publish|by apply safe_publish])
    ltac:(by apply Forall_true) Hm1 H1) as [Hm2 H2].
  apply (safe_fold init es u W (λ s tid, set_send_meta (λ d, ddel d tid) s)
    (λ tid, opens_of tid es = 0)); [|done..].
  intros s1 tid ? ??. split; [by apply meta_ddel|by apply safe_drop].
Qed.

(** One sweep, when no coroutine waits for an announced state. *)
Lemma safe_sweep init es u W s :
  meta_ok s → (∀ c x, W c → heap s !! oc_state c = Some x → s_ready x = false) →
  safe init es u W s → safe init es u W (sweep_sends s).
Proof.
  intros Hm Hw H. unfold sweep_sends.
  assert (Hgen : ∀ l s1, heap s1 = heap s →
    (∀ t i, (t, i) ∈ l → dget (send_meta s1) t = Some i ∨ dget (send_meta s1) t = None) →
    safe init es u W s1 → safe init es u W (foldl sweep_one s1 l)).
  { induction l as [|[t i] l IH]; simpl; intros s1 Eh Hl H1; [done|].
    assert (Hcase : sweep_one s1 (t, i) = s1 ∨
      ∃ x, heap s1 !! i = Some x ∧ sending x = 0 ∧ sweep_one s1 (t, i) =
        set_send_meta (λ d, ddel d t) (to_engine (FinalEvent "sending_expired" (s_p_req_id x)) s1)).
    { unfold sweep_one. simpl. destruct (heap s1 !! i) as [x|] eqn:Hx; [|by left].
      match goal with |- context [if ?b then _ else _] => destruct b eqn:Hb end; [|by left].
      apply andb_true_iff in Hb as [_ Hz%Z.eqb_eq]. right. eauto. }
    destruct Hcase as [->|(x & Hx & Hz & ->)].
    { apply IH; [done| |done]. intros. apply Hl. set_solver. }
    apply IH; [done| |].
    - intros t' i' Hin. simpl. destruct (decide (t = t')) as [->|].
      + right. apply dget_ddel_eq.
      + rewrite dget_ddel_ne by done. apply Hl. set_solver.
    - destruct (Hl t i ltac:(set_solver)) as [Hd|Hd].
      + apply (safe_remove init es u W (to_engine (FinalEvent "sending_expired"
          (s_p_req_id x)) s1) t i x); [|done|done|lia|].
        * by eapply safe_same; [..|exact H1].
        * intros c Hc Hci. rewrite Eh in Hx. eapply Hw; [done|congruence].
      + apply (safe_same _ _ _ _ s1); [|done|done]. simpl. by apply ddel_absent. }
  apply Hgen; [done| |done]. intros t i Hin. left. by apply elem_of_dget; [apply Hm|].
Qed.

Lemma known_dispatch es e ts identity request k r :
  e = ERequest identity request → known es ts →
  known (es ++ [e]) (ts ++ [(k, r, FNew identity request)]).
Proof.
  intros -> H x [Hx|Hx]%elem_of_app; [by apply (known_mono _ _ _ H)|].
  apply list_elem_of_singleton in Hx as ->. split; [|done].
  intros i m [= <- ->]. apply elem_of_app. right. by apply list_elem_of_singleton.
Qed.

(** The request a resumed coroutine works on is the one it had. *)
Lemma known_run_frame init es s f s' f' key reg t :
  known es (tasks s) → tasks s !! t = Some (key, reg, f) →
  run_frame init f s = Some (s', f') → known es (<[t := (key, reg, f')]> (tasks s)).
Proof.
  intros H Ht Hrun x [->|Hx]%elem_of_insert_inv; [|by apply H].
  apply list_elem_of_lookup_2 in Ht. destruct (H _ Ht) as [H1 H2]. simpl in *.
  assert (Hgen : ∀ c, open_frame c f' → ERequest (oc_identity c) (ReqOpen (oc_request c)) ∈ es →
    transfer_of (oc_request c) = Some (oc_transfer_id c) →
    (∀ identity m, f' ≠ FNew identity (ReqOpen m)) →
    (∀ i m, f' = FNew i (ReqOpen m) → ERequest i (ReqOpen m) ∈ es) ∧
    (∀ c', context f' = Some c' → ERequest (oc_identity c') (ReqOpen (oc_request c')) ∈ es ∧
       transfer_of (oc_request c') = Some (oc_transfer_id c'))).
  { intros c (_ & _ & Hc) He Htr Hn. split; [intros i m ->; by destruct (Hn i m)|].
    intros c' Hc'. destruct Hc as [[_ Hc]|[_ Hc]]; [|congruence].
    assert (c' = c) as -> by congruence. done. }
  assert (Hno : ∀ c d s, ∀ i m, (wait_ready init c d s).2 ≠ FNew i (ReqOpen m)).
  { intros c d s1 i m. unfold wait_ready, open_claim, open_fail. repeat case_match; done. }
  destruct f as [identity [m|m|m]|c d|c job d|identity m pid|identity m pid slot job d
    |identity m pid slot job d resp|identity m session pending d|identity resp|];
    cbn [run_frame] in Hrun.
  - apply Some_inj in Hrun. apply (f_equal snd) in Hrun. cbn [snd] in Hrun. subst f'.
    specialize (H1 identity m eq_refl). unfold open_producer_session in *.
    destruct (req_blocks (so_metadata m)) as [|[d [tid b]] l] eqn:Hrb; [done|].
    match goal with |- context [match ?x with Some _ => _ | None => _ end] =>
      destruct x as [sid|] end; cbv zeta;
      match goal with |- context [wait_ready ?i ?c ?d ?s] =>
        apply (Hgen c); [apply wait_ready_frame|done| |apply Hno] end;
      unfold transfer_of; simpl; by rewrite Hrb.
  - apply Some_inj in Hrun. unfold serve_producer_chunk in Hrun.
    repeat case_match; inversion Hrun; done.
  - by inversion Hrun.
  - apply Some_inj in Hrun. apply (f_equal snd) in Hrun. cbn [snd] in Hrun. subst f'.
    destruct (H2 c eq_refl). apply (Hgen c); [apply wait_ready_frame|done..|apply Hno].
  - apply bind_Some in Hrun as ([r s1] & _ & Hrun). unfold open_opened in Hrun.
    repeat case_match; by inversion Hrun.
  - destruct (sender_slots s); [done|]. unfold serve_slot in Hrun.
    repeat case_match; by inversion Hrun.
  - apply bind_Some in Hrun as ([r s1] & _ & Hrun). unfold serve_encoded in Hrun.
    repeat case_match; by inversion Hrun.
  - apply bind_Some in Hrun as ([r s1] & _ & Hrun). by inversion Hrun.
  - repeat case_match; by inversion Hrun.
  - by inversion Hrun.
  - done.
Qed.

Lemma safe_handle n init es s e s' :
  0 < tp_size init → core n s → uniq s → send_exact s → polite init es s e →
  safe_state init es s → handle init e s = Some s' → safe_state init (es ++ [e]) s'.
Proof.
  intros Htp Hco Hu Hex (Hfresh & Hfan & Hpol) [H Hkn] Hs.
  assert (Hm := co_meta _ _ Hco).
  assert (Hext : safe init (es ++ [e]) (u_of (tasks s)) (W_of (tasks s)) s).
  { apply (safe_extend _ _ _ (u_of (tasks s))); [|apply W_of_counted|done].
    intros tid. pose proof (cnt_nonneg (un tid) (tasks s)). unfold u_of.
    destruct (opens_transfer tid e); simpl; lia. }
  assert (Hkn' := known_mono es e _ Hkn).
  destruct e as [m|r|identity request|t| |d|]; cbn [handle] in Hs.
  - injection Hs as <-. unfold safe_state. rewrite (q_tasks _ _ (quiet_metadata m s)).
    split; [|done]. apply safe_metadata; [done| |done].
    eapply Forall_impl; [exact Hpol|]. intros tid Ho. cbn beta in Ho.
    rewrite opens_of_snoc, Ho. done.
  - injection Hs as <-. unfold on_job_done. case_decide; split; try done.
    by eapply safe_same; [..|exact Hext].
  - injection Hs as <-. unfold dispatch_producer. case_bool; [done|].
    set (en := (request_op request, negb (is_abort request), FNew identity request)).
    assert (Hu' : ∀ tid, u_of (tasks s ++ [en]) tid
      = u_of (tasks s) tid + Z.b2z (opens_transfer tid (ERequest identity request))).
    { intros tid. unfold u_of. rewrite cnt_app, cnt_cons, cnt_nil.
      assert (un tid en = opens_transfer tid (ERequest identity request)) as ->
        by by destruct request. lia. }
    assert (Hd : safe_state init (es ++ [ERequest identity request])
      (set_tasks (λ l, l ++ [en]) (set_closed (filter (λ e, now s < e.2)) s))).
    { split; [|by apply known_dispatch]. apply (safe_same _ _ _ _ s); [done|done|]. simpl.
      apply (safe_mono _ _ (u_of (tasks s ++ [en])) _ (W_of (tasks s))).
      - intros tid. split; [apply cnt_nonneg|done].
      - intros c Hc. split; [|by apply W_of_counted].
        destruct Hc as (k & r & d & [Hin|Hin]%elem_of_app); [by exists k, r, d|].
        by apply list_elem_of_singleton in Hin.
      - eapply safe_extend; [..|exact H].
        + intros tid. split; [apply cnt_nonneg|]. by rewrite Hu'.
        + intros c Hc%W_of_counted. rewrite Hu'. destruct (opens_transfer _ _); simpl; lia. }
    case_bool; [|exact Hd]. destruct Hd as [Hd1 Hd2]. split; [|exact Hd2].
    by eapply safe_same; [..|exact Hd1].
  - assert (Hfan0 : fan_out init es).
    { intros i m tid ranks Hin Htr Hr. specialize (Hfan i m tid ranks).
      rewrite opens_of_snoc in Hfan. simpl in Hfan.
      specialize (Hfan ltac:(set_solver) Htr Hr). lia. }
    unfold run_task in Hs. apply bind_Some in Hs as ([[key reg] f] & Ht & Hs).
    apply bind_Some in Hs as ([s1 f'] & Hrun & [= <-]).
    assert (Hm1 := run_frame_moves _ _ _ _ _ _ _ _ (core_refs _ _ Hco) Ht Hrun).
    assert (Htasks := d_tasks _ _ _ _ (moves_delta _ _ _ _ _ _ _ _ Hco Ht Hm1)).
    assert (Hd : safe_state init (es ++ [ERun t])
      (set_tasks (λ l, <[t:=(key, reg, f')]> l) s1)).
    { split; simpl; rewrite Htasks.
      - apply (safe_same _ _ _ _ s1); [done|done|].
        by eapply (safe_run_frame init (es ++ [ERun t]) Hfan Htp n).
      - by eapply known_run_frame. }
    destruct f'; try exact Hd. destruct reg; [|exact Hd].
    destruct Hd as [Hd1 Hd2]. unfold operation_finished. case_match; [|done].
    split; [|exact Hd2]. by eapply safe_same; [..|exact Hd1].
  - case_match; [done|]. injection Hs as <-. unfold safe_state.
    rewrite (q_tasks _ _ (quiet_sweep s)). split; [|done]. apply safe_sweep; [done| |done].
    intros c x (k & r & d & Hin) Hx. apply list_elem_of_lookup in Hin as [i Hi].
    by eapply Hpol.
  - case_match; [|done]. injection Hs as <-. split; [|done].
    by eapply safe_same; [..|exact Hext].
  - injection Hs as <-. split; [|done]. by eapply safe_same; [..|exact Hext].
Qed.

Lemma safe_runs init es s :
  0 < tp_size init → runs init (polite init) es s → safe_state init es s.
Proof.
  intros Htp. induction 1 as [|es s e s' Hr IH He Hs].
  - split; [|intros e He; by apply elem_of_nil in He].
    split; simpl; try done.
    + intros c (k & r & d & Hin). by apply elem_of_nil in Hin.
    + intros c (k & r & d & Hin). by apply elem_of_nil in Hin.
  - assert (Hok : ∀ es s e, polite init es s e → fresh_open s e) by (by intros ??? [? ?]).
    destruct (good_runs _ _ _ _ Hok Hr) as [Hco Hu _].
    assert (Hex := send_exact_runs _ _ _ _ Hok Hr).
    by eapply safe_handle.
Qed.
