(* ===== verification/ProducerThms.v ===== *)
(** * Properties of the producer service *)

From S2P Require Import Prelude PyData Transfer Messages Producer ProducerInv ProducerAcc ProducerLive ProducerSend ProducerSafe.

(** ** Executable disciplines

    The conditions on executions as boolean tests, so that concrete
    executions can be replayed. *)

Definition fresh_b (s : svc) (e : event) : bool :=
  match e with
  | ERequest identity (ReqOpen m) =>
      match opening (FNew identity (ReqOpen m)) with
      | Some k => cnt (has_key k) (skeleton s) + cnt (opens k) (tasks s) =? 0
      | None => true
      end
  | _ => true
  end.

Lemma fresh_b_ok s e : fresh_b s e = true → fresh_open s e.
Proof.
  destruct e as [m|r|identity [m|m|m]|t| |d|]; try done. unfold fresh_b, fresh_open.
  intros H k Hk. rewrite Hk in H. by apply Z.eqb_eq.
Qed.

Definition fan_out_b (init : InitMessage) (es : list event) : bool :=
  forallb (λ e, match e with
    | ERequest _ (ReqOpen m) =>
        match transfer_of m, targets_of init m with
        | Some tid, Ok ranks => opens_of tid es <=? zlen ranks
        | _, _ => true
        end
    | _ => true
    end) es.

Lemma fan_out_b_ok init es : fan_out_b init es = true → fan_out init es.
Proof.
  unfold fan_out_b. intros H identity m tid ranks Hin Ht Hr.
  rewrite forallb_forall in H. specialize (H _ (proj1 (list_elem_of_In _ _) Hin)).
  simpl in H. rewrite Ht, Hr in H. by apply Z.leb_le.
Qed.

Definition polite_b (init : InitMessage) (es : list event) (s : svc) (e : event) : bool :=
  fresh_b s e && fan_out_b init (es ++ [e]) &&
  match e with
  | EMetadata m => forallb (λ tid, opens_of tid es =? 0) (dropped m)
  | ESweep => forallb (λ en : entry, match en.2 with
      | FReady c _ => match heap s !! oc_state c with
                      | Some x => negb (s_ready x)
                      | None => true
                      end
      | _ => true
      end) (tasks s)
  | _ => true
  end.

Lemma polite_b_ok init es s e : polite_b init es s e = true → polite init es s e.
Proof.
  unfold polite_b. rewrite !andb_true_iff. intros [[H1 H2] H3].
  split; [by apply fresh_b_ok|]. split; [by apply fan_out_b_ok|].
  destruct e as [m|r|identity request|t| |d|]; try done.
  - apply Forall_forall. intros tid Hin. rewrite forallb_forall in H3.
    apply Z.eqb_eq, H3. by apply list_elem_of_In.
  - intros t key reg c d x Ht Hx. rewrite forallb_forall in H3.
    apply list_elem_of_lookup_2, list_elem_of_In in Ht. specialize (H3 _ Ht). simpl in H3.
    rewrite Hx in H3. by apply negb_true_iff.
Qed.

Fixpoint replay (init : InitMessage) (okb : list event → svc → event → bool)
    (past es : list event) (s : svc) : option svc :=
  match es with
  | [] => Some s
  | e :: es =>
      if okb past s e then s ← handle init e s; replay init okb (past ++ [e]) es s else None
  end.

Lemma replay_runs init okb (ok : list event → svc → event → Prop) past es s s' :
  (∀ es s e, okb es s e = true → ok es s e) →
  runs init ok past s → replay init okb past es s = Some s' → runs init ok (past ++ es) s'.
Proof.
  intros Hok. revert past s. induction es as [|e es IH]; intros past s Hr; simpl.
  - intros [= <-]. by rewrite app_nil_r.
  - destruct (okb past s e) eqn:He; [|done]. intros (s1 & Hs1 & Hrep)%bind_Some.
    replace (past ++ e :: es) with ((past ++ [e]) ++ es) by by rewrite <- app_assoc.
    eapply IH; [|exact Hrep]. eapply runs_snoc; [done|by apply Hok|done].
Qed.

(** ** A concrete execution

    One consumer rank pulls the two chunks of a one-block transfer. *)
Definition ex_init : InitMessage :=
  mkInit true false false 0 1 0 1 "engine" 0 "p0" 9000 "boot" 9001
    [mkSlotAddresses 4096 8192 12288; mkSlotAddresses 16384 20480 24576]
    [] [] [] [] [] [].

Definition ex_xfer (remote_tp : Z) : MooncakeXferMetadata :=
  mkXfer "d0" 7000 remote_tp 0 [("req-d", ("xfer", [[5]]))] [] [] [] [] [] [] 1.

Definition ex_open : CompressionRequest := ReqOpen (mkOpen (ex_xfer 1) "n0").
Definition ex_pull (chunk : Z) : CompressionRequest :=
  ReqPull (mkPull "xfer" "req-d" chunk 0 100 200 300 "n0").
Definition ex_announce : event :=
  EMetadata (mkProducerMetadata [mkAnnounce "req-p" "xfer" [[9]] (Some 16)] [] []).
Definition ex_done (job : Z) (chunks : Z) : event :=
  EJobDone (mkJobDone job None 1 chunks [[9]] [(0, 16)] 64 32 8).

Definition ex_events : list event :=
  [ex_announce; ERequest "sock" ex_open; ERun 0; ex_done 1 2; ERun 0; ERun 0;
   ERequest "sock" (ex_pull 0); ERequest "sock" (ex_pull 1); ERun 1; ERun 2; ERun 1].

Definition ex_state : svc :=
  match replay ex_init (polite_b ex_init) [] ex_events (init_svc ex_init) with
  | Some s => s
  | None => init_svc ex_init
  end.

(** The rest of the transfer: both encode jobs finish. *)
Definition ex_rest : list event :=
  [ERun 2; ex_done 2 0; ERun 1; ERun 1; ex_done 3 0; ERun 2; ERun 2].

Example ex_final_event :
  (λ s, List.filter (λ m, match m with FinalEvent _ _ => true | _ => false end) (out s)) <$>
    handle_all ex_init ex_rest ex_state
  = Some [FinalEvent "sending" "req-p"].
Proof. vm_compute. reflexivity. Qed.

Lemma ex_runs (ok : list event → svc → event → Prop) :
  (∀ es s e, polite_b ex_init es s e = true → ok es s e) → runs ex_init ok ex_events ex_state.
Proof.
  intros Hok. apply (replay_runs ex_init (polite_b ex_init) ok [] ex_events (init_svc ex_init));
    [done|constructor|]. vm_compute. reflexivity.
Qed.

(** ** Counting slots *)

Lemma cnt_eqb_elem (l : list Z) z : 1 ≤ cnt (Z.eqb z) l ↔ z ∈ l.
Proof.
  split.
  - intros (x & Hx & ->%Z.eqb_eq)%cnt_pos_inv. done.
  - intros H. eapply cnt_pos; [done|]. apply Z.eqb_refl.
Qed.

Lemma cnt_perm (l1 l2 : list Z) : (∀ z, cnt (Z.eqb z) l1 = cnt (Z.eqb z) l2) → l1 ≡ₚ l2.
Proof.
  revert l2. induction l1 as [|x l1 IH]; intros l2 H.
  - destruct l2 as [|y l2]; [done|]. specialize (H y). rewrite cnt_nil, cnt_cons, Z.eqb_refl in H.
    pose proof (cnt_nonneg (Z.eqb y) l2). simpl in H. lia.
  - assert (Hin : x ∈ l2).
    { apply cnt_eqb_elem. rewrite <- H, cnt_cons, Z.eqb_refl.
      pose proof (cnt_nonneg (Z.eqb x) l1). simpl. lia. }
    apply list_elem_of_split in Hin as (l3 & l4 & ->). rewrite <- Permutation_middle.
    apply perm_skip, IH. intros z. specialize (H z).
    rewrite cnt_app, !cnt_cons in H. rewrite cnt_app. lia.
Qed.

Lemma cnt_omap_holding slot (l : list entry) :
  cnt (Z.eqb slot) (omap (λ e, holding e.2) l) = cnt (holds slot) l.
Proof.
  induction l as [|e l IH]; [done|]. rewrite cnt_cons, <- IH.
  change (omap (λ e, holding e.2) (e :: l)) with
    (match holding e.2 with
     | Some z => z :: omap (λ e, holding e.2) l
     | None => omap (λ e, holding e.2) l
     end).
  unfold holds. destruct (holding e.2) as [z|].
  - rewrite cnt_cons. f_equal. f_equal. destruct (Z.eqb_spec slot z) as [->|].
    + by rewrite bool_decide_true.
    + by rewrite bool_decide_false by congruence.
  - by rewrite bool_decide_false.
Qed.

(** ** Properties *)

(** C9 Sender slots: in every execution, whatever consumers and engine
    send, each sender slot is either in the free queue or held by exactly one
    chunk operation; none is lost, duplicated or shared. *)
Theorem sender_slots_conserved init es s :
  runs init anything es s →
  sender_slots s ++ omap (λ e, holding e.2) (tasks s)
    ≡ₚ seqZ 0 (zlen (slot_addresses init)).
Proof.
  intros H%core_runs. apply cnt_perm. intros z.
  rewrite cnt_app, cnt_omap_holding, (co_slots _ _ H z).
  set (n := zlen (slot_addresses init)). symmetry.
  assert (Hn : NoDup (seqZ 0 n)) by apply NoDup_seqZ.
  destruct ((0 <=? z) && (z <? n)) eqn:Hr; simpl.
  - zbool. assert (z ∈ seqZ 0 n) as Hin by (apply elem_of_seqZ; lia).
    apply list_elem_of_split in Hin as (l1 & l2 & Heq). rewrite Heq in *.
    apply NoDup_app in Hn as (_ & Hd & [Hni _]%NoDup_cons).
    rewrite cnt_app, cnt_cons, Z.eqb_refl, !cnt_zero; [done| |].
    + intros x Hx. apply Z.eqb_neq. intros ->. done.
    + intros x Hx. apply Z.eqb_neq. intros ->. apply (Hd x Hx). set_solver.
  - apply cnt_zero. intros x ?%elem_of_seqZ. apply Z.eqb_neq. intros ->.
    apply andb_false_iff in Hr as [Hr|Hr]; zbool; lia.
Qed.

Lemma sender_slots_conserved_witness :
  omap (λ e, holding e.2) (tasks ex_state) = [0] ∧ sender_slots ex_state = [1] ∧
  sender_slots ex_state ++ omap (λ e, holding e.2) (tasks ex_state) ≡ₚ seqZ 0 2.
Proof.
  split; [vm_compute; reflexivity|]. split; [vm_compute; reflexivity|].
  apply (sender_slots_conserved ex_init ex_events ex_state). by apply ex_runs.
Defined.

(** Chunk accounting: in every execution [inflight_chunks] of a session
    is the number of its chunk operations that are waiting for a slot,
    encoding or draining, so the last of them is recognised as the last. *)
Theorem inflight_exact init es s pid x :
  runs init anything es s → sessions s !! pid = Some x →
  inflight_chunks x = cnt (serves pid) (tasks s).
Proof.
  intros H%core_runs Hx. apply (co_inflight _ _ H). unfold inflights.
  by rewrite list_lookup_fmap, Hx.
Qed.

Lemma inflight_exact_witness :
  inflight_chunks <$> sessions ex_state = [2] ∧
  match sessions ex_state !! 0%nat with
  | Some x => inflight_chunks x = cnt (serves 0) (tasks ex_state)
  | None => False
  end.
Proof.
  split; [vm_compute; reflexivity|].
  assert (H := inflight_exact ex_init ex_events ex_state 0%nat).
  destruct (sessions ex_state !! 0%nat) as [x|] eqn:Hx; [|vm_compute in Hx; discriminate].
  apply H; [by apply ex_runs|reflexivity].
Defined.

(** Session life cycle: when opens are distinct, every registered session
    is active, or cancelled or failed with chunks still in flight; it is
    discarded with its last chunk. Every active session is registered under
    its key, where chunk pulls and aborts find it. *)
Theorem sessions_live init es s :
  runs init fresh es s →
  (∀ key pid x, dget (producer_sessions s) key = Some pid → sessions s !! pid = Some x →
    p_state x = ACTIVE ∨
    ((p_state x = CANCELLED ∨ p_state x = FAILED) ∧ 0 < inflight_chunks x)) ∧
  (∀ pid x, sessions s !! pid = Some x → p_state x = ACTIVE →
    dget (producer_sessions s) (session_key x) = Some pid).
Proof.
  intros H. apply good_runs in H as [_ _ [H1 H2]]; [|by intros]. split; [|done].
  intros key pid x Hd Hx. apply dget_elem_of in Hd.
  destruct (H2 _ _ _ Hd Hx ltac:(done)) as [->|[He ?]]; [by left|right].
  split; [|done]. destruct (p_state x); naive_solver.
Qed.

Lemma sessions_live_witness :
  dget (producer_sessions ex_state) ("sock", "xfer", "req-d") = Some 0%nat ∧
  ∀ pid x, sessions ex_state !! pid = Some x → p_state x = ACTIVE →
    dget (producer_sessions ex_state) (session_key x) = Some pid.
Proof.
  split; [vm_compute; reflexivity|].
  apply (sessions_live ex_init ex_events ex_state). apply ex_runs.
  intros es s e H. apply fresh_b_ok. by apply andb_true_iff in H as [[H _]%andb_true_iff _].
Defined.

(** Send targets: when opens are distinct, [sending] of a send state is
    exactly the number of opens awaiting their job that claimed it plus the
    registered sessions that use it, in particular never negative. *)
Theorem sending_exact init es s sid x :
  runs init fresh es s → heap s !! sid = Some x →
  sending x = cnt (claims sid) (tasks s) + registered_on s sid ∧ 0 ≤ sending x.
Proof.
  intros H Hx. apply send_exact_runs in H; [|by intros]. specialize (H sid).
  unfold balance, sending_of in H. rewrite Hx in H.
  pose proof (cnt_nonneg (claims sid) (tasks s)).
  pose proof (cnt_nonneg (on_state (skeleton s) sid) (producer_sessions s)).
  unfold registered_on in *. lia.
Qed.

Lemma sending_exact_witness :
  sending <$> heap ex_state = [1] ∧
  match heap ex_state !! 0%nat with
  | Some x => sending x = cnt (claims 0) (tasks ex_state) + registered_on ex_state 0 ∧
              0 ≤ sending x
  | None => False
  end.
Proof.
  split; [vm_compute; reflexivity|].
  assert (H := sending_exact ex_init ex_events ex_state 0%nat).
  destruct (heap ex_state !! 0%nat) as [x|] eqn:Hx; [|vm_compute in Hx; discriminate].
  apply H; [|reflexivity]. apply ex_runs.
  intros es s e He. apply fresh_b_ok. by apply andb_true_iff in He as [[He _]%andb_true_iff _].
Defined.

(** C10 No early release: when opens are distinct and every transfer is opened
    at most once per peer rank, the engine drops no transfer that was opened,
    and no open is still to be resumed for an announced block table when the
    sweep's timer fires ([polite]), the entry of a send state stays in
    [_send_meta] as long as an open has claimed it or a session uses it. The entry is removed together with
    the [FinalEvent] that lets the engine free the blocks, so the blocks are
    not freed under a running session. *)
Theorem blocks_kept init es s sid x :
  0 < tp_size init → runs init (polite init) es s → heap s !! sid = Some x →
  0 < cnt (claims sid) (tasks s) + registered_on s sid →
  dget (send_meta s) (s_transfer_id x) = Some sid.
Proof.
  intros Htp H Hx Hpos.
  assert (Hok : ∀ es s e, polite init es s e → fresh_open s e) by (by intros ??? [? ?]).
  assert (Hex := send_exact_runs _ _ _ _ Hok H sid).
  unfold balance, sending_of in Hex. rewrite Hx in Hex.
  apply safe_runs in H as [H _]; [|done]. apply (sa_registered _ _ _ _ _ H); [done|lia].
Qed.

Lemma blocks_kept_witness :
  cnt (claims 0) (tasks ex_state) + registered_on ex_state 0 = 1 ∧
  dget (send_meta ex_state) "xfer" = Some 0%nat.
Proof.
  split; [vm_compute; reflexivity|].
  assert (H := blocks_kept ex_init ex_events ex_state 0%nat).
  destruct (heap ex_state !! 0%nat) as [x|] eqn:Hx; [|vm_compute in Hx; discriminate].
  assert (s_transfer_id x = "xfer"%string) as Hxt
    by (vm_compute in Hx; injection Hx as <-; reflexivity).
  specialize (H x). rewrite Hxt in H. apply H; [reflexivity| |reflexivity|].
  - apply ex_runs. apply polite_b_ok.
  - vm_compute. reflexivity.
Defined.
