(* ===== verification/Consumer.v ===== *)
(** * The consumer side of the session helper

    [mooncake/session_process.py], class [_SessionService], the methods from
    [_recv_request] to [_send_abort]. The service is the producer's record with
    the consumer's attributes beside it, since both share the job futures, the
    pipe and the clock. A consumer session is one [_run_consumer_session]
    coroutine with the tasks it starts: one that issues pulls, one that waits
    for a response, and one per chunk being decoded. They are suspended and
    resumed independently, so each has its own step.

    As in [Producer], sends never block or fail and cancellation at shutdown is
    left out. A socket of a session has at most two receivers at a time, and
    either may get the next message. The texts of pyzmq's and msgspec's own
    exceptions, which end up in an abort's reason, come with the event. *)

From S2P Require Import Prelude PyData Transfer Messages Producer.

(** [zmq.RCVTIMEO] of the session's socket. *)
Definition RCVTIMEO : Z := ABORT_TIMEOUT + 60000.

(** A received payload, decoded, or the decoder's error. *)
Inductive payload :=
  | Decoded (r : CompressionResponse)
  | Undecodable (msg : string).

(** ** The tasks of a session *)

Inductive decode_status :=
  | DNew
  | DWaiting (deadline : Z)
  | DReleased
  | DFailed (msg : string).

(** A [_decode_and_release] task. *)
Record decode := mkDecode { dc_job : DecodeChunkJob; dc_status : decode_status }.

Definition dc_slot (d : decode) : Z := dj_slot_id (dc_job d).

Definition decode_done (d : decode) : bool :=
  match dc_status d with DReleased | DFailed _ => true | _ => false end.

(** The [recv_one] task. *)
Inductive recv_state :=
  | RcvWaiting (deadline : Z)
  | RcvGot (m : payload)
  | RcvFailed (msg : string).

(** Where the session's main coroutine is suspended. A [result] is the set of
    failed blocks it will return. *)
Inductive cpc :=
  (** not yet run *)
  | PStart
  (** receiving the response to the open *)
  | POpen (deadline : Z)
  (** in [asyncio.wait] of the loop, on these decode tasks among others *)
  | PWait (waits : gset nat)
  (** gathering the cancelled receive after the loop *)
  | PStopRecv
  (** gathering the remaining decode tasks after the loop *)
  | PTail (waits : gset nat)
  (** receiving the acknowledgement of the abort *)
  | PAbort (deadline : Z) (result : gset Z)
  (** [finally]: gathering the cancelled issue and receive tasks *)
  | PStop (result : gset Z)
  (** ... gathering the decode tasks *)
  | PClean (waits : gset nat) (result : gset Z)
  (** ... draining the slots still owned *)
  | PDrain (job deadline : Z) (result : gset Z)
  | PDone (result : gset Z).

(** ** A session

    [cs_decodes] lists every decode task started, [cs_set] is [decode_tasks].
    [cs_issue] is the next chunk the issue task pulls, [cs_recvt] the receive
    task; [None] when the variable is. [cs_inbox] holds the messages that
    reached the socket and were not received yet. *)
Record csession := mkSession {
  cs_request : ConsumerRequest;
  cs_nonce : string;
  cs_inbox : list payload;
  cs_sent : list CompressionRequest;
  cs_owned : gset Z;
  cs_inflight : gmap Z Z;
  cs_decodes : list decode;
  cs_set : gset nat;
  cs_issue : option Z;
  cs_recvt : option recv_state;
  cs_block_count : Z;
  cs_total : Z;
  cs_completed : Z;
  cs_pc : cpc
}.

Definition set_cs_nonce (f : string → string) (c : csession) : csession :=
  mkSession (cs_request c) (f (cs_nonce c)) (cs_inbox c) (cs_sent c) (cs_owned c) (cs_inflight
    c) (cs_decodes c) (cs_set c) (cs_issue c) (cs_recvt c) (cs_block_count c) (cs_total c)
    (cs_completed c) (cs_pc c).
Definition set_cs_inbox (f : list payload → list payload) (c : csession) : csession :=
  mkSession (cs_request c) (cs_nonce c) (f (cs_inbox c)) (cs_sent c) (cs_owned c) (cs_inflight
    c) (cs_decodes c) (cs_set c) (cs_issue c) (cs_recvt c) (cs_block_count c) (cs_total c)
    (cs_completed c) (cs_pc c).
Definition set_cs_sent (f : list CompressionRequest → list CompressionRequest) (c : csession) : csession :=
  mkSession (cs_request c) (cs_nonce c) (cs_inbox c) (f (cs_sent c)) (cs_owned c) (cs_inflight
    c) (cs_decodes c) (cs_set c) (cs_issue c) (cs_recvt c) (cs_block_count c) (cs_total c)
    (cs_completed c) (cs_pc c).
Definition set_cs_owned (f : gset Z → gset Z) (c : csession) : csession :=
  mkSession (cs_request c) (cs_nonce c) (cs_inbox c) (cs_sent c) (f (cs_owned c)) (cs_inflight
    c) (cs_decodes c) (cs_set c) (cs_issue c) (cs_recvt c) (cs_block_count c) (cs_total c)
    (cs_completed c) (cs_pc c).
Definition set_cs_inflight (f : gmap Z Z → gmap Z Z) (c : csession) : csession :=
  mkSession (cs_request c) (cs_nonce c) (cs_inbox c) (cs_sent c) (cs_owned c) (f (cs_inflight
    c)) (cs_decodes c) (cs_set c) (cs_issue c) (cs_recvt c) (cs_block_count c) (cs_total c)
    (cs_completed c) (cs_pc c).
Definition set_cs_decodes (f : list decode → list decode) (c : csession) : csession :=
  mkSession (cs_request c) (cs_nonce c) (cs_inbox c) (cs_sent c) (cs_owned c) (cs_inflight c)
    (f (cs_decodes c)) (cs_set c) (cs_issue c) (cs_recvt c) (cs_block_count c) (cs_total c)
    (cs_completed c) (cs_pc c).
Definition set_cs_set (f : gset nat → gset nat) (c : csession) : csession :=
  mkSession (cs_request c) (cs_nonce c) (cs_inbox c) (cs_sent c) (cs_owned c) (cs_inflight c)
    (cs_decodes c) (f (cs_set c)) (cs_issue c) (cs_recvt c) (cs_block_count c) (cs_total c)
    (cs_completed c) (cs_pc c).
Definition set_cs_issue (f : option Z → option Z) (c : csession) : csession :=
  mkSession (cs_request c) (cs_nonce c) (cs_inbox c) (cs_sent c) (cs_owned c) (cs_inflight c)
    (cs_decodes c) (cs_set c) (f (cs_issue c)) (cs_recvt c) (cs_block_count c) (cs_total c)
    (cs_completed c) (cs_pc c).
Definition set_cs_recvt (f : option recv_state → option recv_state) (c : csession) : csession :=
  mkSession (cs_request c) (cs_nonce c) (cs_inbox c) (cs_sent c) (cs_owned c) (cs_inflight c)
    (cs_decodes c) (cs_set c) (cs_issue c) (f (cs_recvt c)) (cs_block_count c) (cs_total c)
    (cs_completed c) (cs_pc c).
Definition set_cs_block_count (f : Z → Z) (c : csession) : csession :=
  mkSession (cs_request c) (cs_nonce c) (cs_inbox c) (cs_sent c) (cs_owned c) (cs_inflight c)
    (cs_decodes c) (cs_set c) (cs_issue c) (cs_recvt c) (f (cs_block_count c)) (cs_total c)
    (cs_completed c) (cs_pc c).
Definition set_cs_total (f : Z → Z) (c : csession) : csession :=
  mkSession (cs_request c) (cs_nonce c) (cs_inbox c) (cs_sent c) (cs_owned c) (cs_inflight c)
    (cs_decodes c) (cs_set c) (cs_issue c) (cs_recvt c) (cs_block_count c) (f (cs_total c))
    (cs_completed c) (cs_pc c).
Definition set_cs_completed (f : Z → Z) (c : csession) : csession :=
  mkSession (cs_request c) (cs_nonce c) (cs_inbox c) (cs_sent c) (cs_owned c) (cs_inflight c)
    (cs_decodes c) (cs_set c) (cs_issue c) (cs_recvt c) (cs_block_count c) (cs_total c) (f
    (cs_completed c)) (cs_pc c).
Definition set_cs_pc (f : cpc → cpc) (c : csession) : csession :=
  mkSession (cs_request c) (cs_nonce c) (cs_inbox c) (cs_sent c) (cs_owned c) (cs_inflight c)
    (cs_decodes c) (cs_set c) (cs_issue c) (cs_recvt c) (cs_block_count c) (cs_total c)
    (cs_completed c) (f (cs_pc c)).

Definition new_session (request : ConsumerRequest) : csession :=
  mkSession request "" [] [] ∅ ∅ [] ∅ None None 0 0 0 PStart.

Definition at_pc (pc : cpc) : csession → csession := set_cs_pc (λ _, pc).

(** ** Jobs

    [_alloc_job], and the first half of [_submit] for a job that has its id. *)
Definition alloc_job (s : svc) : svc * Z :=
  (set_next_job_id (λ n, n + 1) s, next_job_id s + 1).

Definition send_job (j : HelperJob) (s : svc) : svc :=
  to_engine (ToJob j) (set_pending_jobs (λ p, p ∪ {[job_id j]}) s).

(** [if x.error:] *)
Definition is_error (e : option string) : bool :=
  match e with Some m => negb (String.eqb m "") | None => false end.

Section session.
Context (NULL_BLOCK_ID : Z) (init : InitMessage).

Definition all_blocks (block_ids : list (list Z)) : gset Z :=
  list_to_set (filter (λ b, b ≠ NULL_BLOCK_ID) (concat block_ids)).

Definition session_blocks (c : csession) : gset Z :=
  all_blocks (cr_local_block_ids (cs_request c)).

(** ** Ending a session *)

(** [finally], from the drain on. *)
Definition drain_owned (result : gset Z) (c : csession) (s : svc) : svc * csession :=
  if decide (cs_owned c = ∅) then (s, at_pc (PDone result) c)
  else
    let (s, job) := submit (λ id, JobDrain (mkDrainJob id (isort Z.leb (elements (cs_owned c))))) s in
    (s, at_pc (PDrain job (now s + ABORT_TIMEOUT) result) c).

(** ... from the gathering of the decode tasks on. *)
Definition gather_decodes (result : gset Z) (c : csession) (s : svc) : svc * csession :=
  if decide (cs_set c = ∅) then drain_owned result c s
  else (s, at_pc (PClean (cs_set c) result) c).

(** ... from its start. *)
Definition finally (result : gset Z) (c : csession) (s : svc) : svc * csession :=
  match cs_issue c, cs_recvt c with
  | None, None => gather_decodes result c s
  | _, _ => (s, at_pc (PStop result) (set_cs_issue (λ _, None) (set_cs_recvt (λ _, None) c)))
  end.

(** The [except] clause, up to the receive of [_send_abort]. *)
Definition fail_session (msg : string) (c : csession) (s : svc) : svc * csession :=
  let abort := mkAbort (cr_transfer_id (cs_request c)) (cr_d_req_id (cs_request c)) msg
                 (cs_nonce c) in
  (s, at_pc (PAbort (now s + ABORT_TIMEOUT) (session_blocks c))
        (set_cs_sent (λ l, l ++ [ReqAbort abort]) c)).

(** ** The main coroutine *)

(** Up to the receive of the open's response; [stamp] is
    [time.monotonic_ns()]. *)
Definition start_session (stamp : Z) (c : csession) (s : svc) : svc * csession :=
  let r := cs_request c in
  let nonce := (str_of_Z (tp_rank init) ++ "-" ++ str_of_Z stamp)%string in
  let md := mkXfer (hostname init) (rpc_port init) (tp_size init) (tp_rank init)
              [(cr_d_req_id r, (cr_transfer_id r, cr_local_block_ids r))]
              (im_kv_caches_base_addr init) (im_block_lens init) (im_kv_block_lens init)
              (im_registered_layer_names init) (im_registered_layer_indices init)
              (im_registered_group_indices init) (pp_size init) in
  (s, at_pc (POpen (now s + RCVTIMEO))
        (set_cs_sent (λ l, l ++ [ReqOpen (mkOpen md nonce)]) (set_cs_nonce (λ _, nonce) c))).

Definition opened_session (m : payload) (c : csession) (s : svc) : svc * csession :=
  match m with
  | Undecodable msg => fail_session msg c s
  | Decoded (CompressionSessionOpened block_count total error) =>
      if is_error error then fail_session (default "" error) c s
      else
        let c := set_cs_block_count (λ _, block_count) (set_cs_total (λ _, total) c) in
        if total =? 0 then finally ∅ c s
        else
          let c := set_cs_issue (λ _, Some 0)
                     (set_cs_recvt (λ _, Some (RcvWaiting (now s + RCVTIMEO))) c) in
          if 0 <? total then (s, at_pc (PWait ∅) c)
          else (s, at_pc PStopRecv (set_cs_recvt (λ _, None) c))
  | Decoded _ => fail_session "Unexpected compression session response." c s
  end.

(** The response part of the loop's body: [inl] when it raises. *)
Definition loop_ready (m : payload) (c : csession) (s : svc) :
    string * csession + svc * csession :=
  match m with
  | Undecodable msg => inl (msg, c)
  | Decoded r =>
      let c := set_cs_recvt (λ _, Some (RcvWaiting (now s + RCVTIMEO))) c in
      match r with
      | CompressionChunkReady chunk data payload aux error =>
          if is_error error then inl (default "" error, c)
          else
            match cs_inflight c !! chunk with
            | None => inl (str_of_Z chunk, c)
            | Some slot =>
                let (s, id) := alloc_job s in
                let r := cs_request c in
                let job := mkDecodeJob id (cr_transfer_id r) (cr_d_req_id r) (cs_nonce c) chunk
                             slot (cs_block_count c) (cr_local_block_ids r) (cr_num_tokens r)
                             payload data in
                let t := length (cs_decodes c) in
                inr (s, set_cs_completed (λ n, n + 1)
                          (set_cs_set (λ d, d ∪ {[t]})
                             (set_cs_decodes (λ l, l ++ [mkDecode job DNew])
                                (set_cs_inflight (delete chunk) c))))
            end
      | _ => inl ("Unexpected compression chunk response."%string, c)
      end
  end.

(** [for task in done]: [t] leaves [decode_tasks] and its exception is
    raised, if it is still there. *)
Definition reap (acc : option string * csession) (t : nat) : option string * csession :=
  let (err, c) := acc in
  match err, cs_decodes c !! t with
  | None, Some d =>
      if decode_done d && bool_decide (t ∈ cs_set c)
      then (match dc_status d with DFailed msg => Some msg | _ => None end,
            set_cs_set (λ l, l ∖ {[t]}) c)
      else acc
  | _, _ => acc
  end.

Definition issue_finished (c : csession) : bool :=
  match cs_issue c with Some k => cs_total c <=? k | None => false end.

(** The loop's body after the response part, and the way to the next [await]. *)
Definition loop_rest (waits : gset nat) (c : csession) (s : svc) : svc * csession :=
  let c := if issue_finished c then set_cs_issue (λ _, None) c else c in
  match foldl reap (None, c) (elements waits) with
  | (Some msg, c) => fail_session msg c s
  | (None, c) =>
      if cs_completed c <? cs_total c then (s, at_pc (PWait (cs_set c)) c)
      else (s, at_pc PStopRecv (set_cs_recvt (λ _, None) c))
  end.

(** One turn of the loop, from [asyncio.wait]'s return. *)
Definition loop_turn (waits : gset nat) (c : csession) (s : svc) : svc * csession :=
  match cs_recvt c with
  | Some (RcvFailed msg) => fail_session msg c s
  | Some (RcvGot m) =>
      match loop_ready m c s with
      | inl (msg, c) => fail_session msg c s
      | inr (s, c) => loop_rest waits c s
      end
  | _ => loop_rest waits c s
  end.

Definition is_done (c : csession) (t : nat) : bool :=
  match cs_decodes c !! t with Some d => decode_done d | None => false end.

(** The condition on which [asyncio.wait(..., FIRST_COMPLETED)] returns. *)
Definition wakes (waits : gset nat) (c : csession) : bool :=
  match cs_recvt c with Some (RcvGot _) | Some (RcvFailed _) => true | _ => false end
  || issue_finished c || existsb (is_done c) (elements waits).

(** The first failure among gathered tasks. *)
Definition first_failure (c : csession) (waits : gset nat) : option string :=
  head (omap (λ t, match dc_status <$> cs_decodes c !! t with
                   | Some (DFailed msg) => Some msg
                   | _ => None
                   end) (elements waits)).

(** The main coroutine from its [await] to the next. [text] is the message of
    the receive time-out. *)
Definition main_step (stamp : Z) (text : string) (c : csession) (s : svc) (q : list Z) :
    option (svc * list Z * csession) :=
  let keep (r : svc * csession) := Some (r.1, q, r.2) in
  match cs_pc c with
  | PStart => keep (start_session stamp c s)
  | POpen deadline =>
      match cs_inbox c with
      | m :: inbox => keep (opened_session m (set_cs_inbox (λ _, inbox) c) s)
      | [] => if deadline <=? now s then keep (fail_session text c s) else None
      end
  | PWait waits => if wakes waits c then keep (loop_turn waits c s) else None
  | PStopRecv =>
      keep (if decide (cs_set c = ∅) then finally ∅ c s
            else (s, at_pc (PTail (cs_set c)) c))
  | PTail waits =>
      match first_failure c waits with
      | Some msg => keep (fail_session msg c s)
      | None => if forallb (is_done c) (elements waits) then keep (finally ∅ c s) else None
      end
  | PAbort deadline result =>
      match cs_inbox c with
      | _ :: inbox => keep (finally result (set_cs_inbox (λ _, inbox) c) s)
      | [] => if deadline <=? now s then keep (finally result c s) else None
      end
  | PStop result => keep (gather_decodes result c s)
  | PClean waits result =>
      if forallb (is_done c) (elements waits) then keep (drain_owned result c s) else None
  | PDrain job deadline result =>
      r ← await_job job deadline s;
      Some (r.2, q ++ elements (cs_owned c), at_pc (PDone result) c)
  | PDone _ => None
  end.

(** ** The other tasks *)

(** [issue_all], one chunk: [None] while no slot is free. The addresses of a
    slot exist, since the queue holds the indices of [slot_addresses]. *)
Definition issue_step (c : csession) (q : list Z) : option (list Z * csession) :=
  k ← cs_issue c;
  if cs_total c <=? k then None
  else
    match q with
    | [] => None
    | slot :: q =>
        a ← slot_addresses init !! Z.to_nat slot;
        let r := cs_request c in
        let pull := mkPull (cr_transfer_id r) (cr_d_req_id r) k slot (sa_payload a) (sa_aux a)
                      (sa_tail a) (cs_nonce c) in
        Some (q, set_cs_issue (λ _, Some (k + 1))
                   (set_cs_sent (λ l, l ++ [ReqPull pull])
                      (set_cs_inflight (insert k slot)
                         (set_cs_owned (λ o, o ∪ {[slot]}) c))))
    end.

(** [recv_one] *)
Definition recv_step (text : string) (c : csession) (s : svc) : option csession :=
  match cs_recvt c with
  | Some (RcvWaiting deadline) =>
      match cs_inbox c with
      | m :: inbox => Some (set_cs_recvt (λ _, Some (RcvGot m)) (set_cs_inbox (λ _, inbox) c))
      | [] => if deadline <=? now s then Some (set_cs_recvt (λ _, Some (RcvFailed text)) c)
              else None
      end
  | _ => None
  end.

Definition set_decode (t : nat) (st : decode_status) : csession → csession :=
  set_cs_decodes (alter (λ d, mkDecode (dc_job d) st) t).

(** [_decode_and_release] *)
Definition decode_step (t : nat) (c : csession) (s : svc) (q : list Z) :
    option (svc * list Z * csession) :=
  d ← cs_decodes c !! t;
  match dc_status d with
  | DNew =>
      Some (send_job (JobDecode (dc_job d)) s, q,
            set_decode t (DWaiting (now s + ABORT_TIMEOUT)) c)
  | DWaiting deadline =>
      r ← await_job (dj_job_id (dc_job d)) deadline s;
      match r.1 with
      | None => Some (r.2, q, set_decode t (DFailed timeout_str) c)
      | Some j =>
          match jd_error j with
          | Some e => Some (r.2, q, set_decode t (DFailed e) c)
          | None => Some (r.2, q ++ [dc_slot d],
                          set_decode t DReleased (set_cs_owned (λ o, o ∖ {[dc_slot d]}) c))
          end
      end
  | _ => None
  end.

(** The done-callback [decode_tasks.discard]. *)
Definition discard_step (t : nat) (c : csession) : option csession :=
  if is_done c t && bool_decide (t ∈ cs_set c)
  then Some (set_cs_set (λ l, l ∖ {[t]}) c) else None.

End session.

(** ** Requests

    A [_recv_request] coroutine, and the bootstrap events it may wait for. *)
Inductive recv_pc :=
  | RStart
  | RBootstrap (ev : nat)
  | RGather (sessions : list nat)
  | RDone.

Record recv := mkRecv { rq_request : ConsumerRequest; rq_pc : recv_pc }.

(** An entry of the bootstrap server's answer, as JSON has it. *)
Record dp_entry := mkDpEntry {
  dp_engine_id : string;
  dp_worker_addr : list (string * list (string * string))
}.

Abbreviation agent := (list (Z * list (Z * string)))%type.

(** ** The service

    [sv] holds what the consumer shares with the producer. [boot_events] are
    the bootstrap events, [bootstrap_pending] refers to them by index; each
    has its query task. *)
Record service := mkService {
  sv : svc;
  receiver_slots : list Z;
  agents : list (string * agent);
  remote_tp_sizes : list (string * Z);
  bootstrap_pending : list (string * nat);
  boot_events : list (string * bool);
  recvs : list recv;
  csessions : list csession
}.

Definition set_sv (f : svc → svc) (c : service) : service :=
  mkService (f (sv c)) (receiver_slots c) (agents c) (remote_tp_sizes c) (bootstrap_pending c)
    (boot_events c) (recvs c) (csessions c).
Definition set_receiver_slots (f : list Z → list Z) (c : service) : service :=
  mkService (sv c) (f (receiver_slots c)) (agents c) (remote_tp_sizes c) (bootstrap_pending c)
    (boot_events c) (recvs c) (csessions c).
Definition set_agents (f : list (string * agent) → list (string * agent)) (c : service) : service :=
  mkService (sv c) (receiver_slots c) (f (agents c)) (remote_tp_sizes c) (bootstrap_pending c)
    (boot_events c) (recvs c) (csessions c).
Definition set_remote_tp_sizes (f : list (string * Z) → list (string * Z)) (c : service) : service :=
  mkService (sv c) (receiver_slots c) (agents c) (f (remote_tp_sizes c)) (bootstrap_pending c)
    (boot_events c) (recvs c) (csessions c).
Definition set_bootstrap_pending (f : list (string * nat) → list (string * nat)) (c : service) : service :=
  mkService (sv c) (receiver_slots c) (agents c) (remote_tp_sizes c) (f (bootstrap_pending c))
    (boot_events c) (recvs c) (csessions c).
Definition set_boot_events (f : list (string * bool) → list (string * bool)) (c : service) : service :=
  mkService (sv c) (receiver_slots c) (agents c) (remote_tp_sizes c) (bootstrap_pending c) (f
    (boot_events c)) (recvs c) (csessions c).
Definition set_recvs (f : list recv → list recv) (c : service) : service :=
  mkService (sv c) (receiver_slots c) (agents c) (remote_tp_sizes c) (bootstrap_pending c)
    (boot_events c) (f (recvs c)) (csessions c).
Definition set_csessions (f : list csession → list csession) (c : service) : service :=
  mkService (sv c) (receiver_slots c) (agents c) (remote_tp_sizes c) (bootstrap_pending c)
    (boot_events c) (recvs c) (f (csessions c)).

Definition init_service (init : InitMessage) : service :=
  mkService (init_svc init)
    (if needs_receiver init then seqZ 0 (zlen (slot_addresses init)) else []) [] [] [] [] [] [].

(** The [ConsumerMetadata] branch of [_on_engine_message]. *)
Definition start_requests (rs : list ConsumerRequest) : service → service :=
  set_recvs (λ l, l ++ ((λ r, mkRecv r RStart) <$> rs)).

(** ** Finding the producer's workers *)

Definition int_key (s : string) : result Z :=
  of_option (ValueError "invalid literal for int()") (int_of_str s).

(** [{int(pp_rank): worker_addr ...}] and the dict around it. *)
Definition int_keys {A B} (f : A → result B) (d : list (string * A)) : result (list (Z * B)) :=
  rfold (λ acc e, let? k := int_key e.1 in let? v := f e.2 in Ok (dset acc k v)) [] d.

(** The loop over the answer's entries; it stops where one raises. *)
Fixpoint store_agents (entries : list dp_entry) (s : service) : service :=
  match entries with
  | [] => s
  | e :: entries =>
      match int_keys (int_keys Ok) (dp_worker_addr e) with
      | Err _ => s
      | Ok a =>
          store_agents entries
            (set_remote_tp_sizes (λ d, dset d (dp_engine_id e) (zlen (dp_worker_addr e)))
               (set_agents (λ d, dset d (dp_engine_id e) a) s))
      end
  end.

(** [_query_bootstrap] at the server's answer, [None] when the query fails. *)
Definition query_bootstrap (ev : nat) (answer : option (list dp_entry)) (s : service) :
    option service :=
  match boot_events s !! ev with
  | Some (addr, false) =>
      let s := match answer with Some entries => store_agents entries s | None => s end in
      Some (set_bootstrap_pending (λ d, ddel d addr)
              (set_boot_events (alter (λ e, (e.1, true)) ev) s))
  | _ => None
  end.

(** [sorted] of the ranks of a dict. *)
Definition sorted_keys {V} (d : list (Z * V)) : list Z := isort Z.leb (dkeys d).

Definition handshake_worker_addrs (init : InitMessage) (engine : string) (s : service) :
    result (list string) :=
  let? tp := of_option KeyError (dget (remote_tp_sizes s) engine) in
  let? ranks := handshake_target_ranks (tp_rank init) (tp_size init) tp in
  let? agent := of_option KeyError (dget (agents s) engine) in
  let? addrs := rmap (λ rank,
    let? pp_to_addr := of_option KeyError (dget agent rank) in
    let pp_ranks := if (pp_size init =? zlen pp_to_addr) &&
                       bool_decide (pp_rank init ∈ dkeys pp_to_addr)
                    then [pp_rank init] else sorted_keys pp_to_addr in
    rmap (λ r, of_option KeyError (dget pp_to_addr r)) pp_ranks) ranks in
  Ok (concat addrs).

(** ** A request *)

Section service.
Context (NULL_BLOCK_ID : Z) (init : InitMessage).

(** [finally]: report the request done. *)
Definition recv_done (r : ConsumerRequest) (failed : gset Z) : service → service :=
  set_sv (to_engine (RecvDone (cr_d_req_id r) (isort Z.leb (elements failed)))).

Definition set_recv (i : nat) (pc : recv_pc) : service → service :=
  set_recvs (alter (λ r, mkRecv (rq_request r) pc) i).

(** From the agent's resolution to the gather of the sessions. *)
Definition open_sessions (i : nat) (r : ConsumerRequest) (s : service) : service :=
  let fail := set_recv i RDone
                (recv_done r (all_blocks NULL_BLOCK_ID (cr_local_block_ids r)) s) in
  match handshake_worker_addrs init (cr_remote_engine_id r) s with
  | Err _ => fail
  | Ok [] => fail
  | Ok addrs =>
      let n := length (csessions s) in
      set_recv i (RGather (seq n (length addrs)))
        (set_csessions (λ l, l ++ ((λ _, new_session r) <$> addrs)) s)
  end.

(** The end of [_ensure_remote_agent], and on. *)
Definition agent_known (i : nat) (r : ConsumerRequest) (s : service) : service :=
  match dget (agents s) (cr_remote_engine_id r) with
  | Some _ => open_sessions i r s
  | None => set_recv i RDone
              (recv_done r (all_blocks NULL_BLOCK_ID (cr_local_block_ids r)) s)
  end.

Definition session_result (s : service) (i : nat) : option (gset Z) :=
  match cs_pc <$> csessions s !! i with Some (PDone result) => Some result | _ => None end.

(** [_recv_request] from its [await] to the next. *)
Definition recv_run (i : nat) (s : service) : option service :=
  '(mkRecv r pc) ← recvs s !! i;
  match pc with
  | RStart =>
      match dget (agents s) (cr_remote_engine_id r) with
      | Some _ => Some (open_sessions i r s)
      | None =>
          match dget (bootstrap_pending s) (cr_remote_bootstrap_addr r) with
          | Some ev => Some (set_recv i (RBootstrap ev) s)
          | None =>
              let ev := length (boot_events s) in
              Some (set_recv i (RBootstrap ev)
                (set_bootstrap_pending (λ d, dset d (cr_remote_bootstrap_addr r) ev)
                   (set_boot_events (λ l, l ++ [(cr_remote_bootstrap_addr r, false)]) s)))
          end
      end
  | RBootstrap ev =>
      match boot_events s !! ev with
      | Some (_, true) => Some (agent_known i r s)
      | _ => None
      end
  | RGather ids =>
      results ← mapM (session_result s) ids;
      Some (set_recv i RDone (recv_done r (⋃ results) s))
  | RDone => None
  end.

(** ** The event loop *)

Inductive cevent :=
  (** what concerns the producer side and the job futures *)
  | CProducer (e : event)
  | CMetadata (rs : list ConsumerRequest)
  | CBootstrap (ev : nat) (answer : option (list dp_entry))
  | CRequest (i : nat)
  (** a message reaches the socket of session [i] *)
  | CArrive (i : nat) (m : payload)
  | CMain (i : nat) (stamp : Z) (text : string)
  | CIssue (i : nat)
  | CReceive (i : nat) (text : string)
  | CDecode (i t : nat)
  | CDiscard (i t : nat).

Definition on_session (i : nat)
    (f : csession → svc → list Z → option (svc * list Z * csession)) (s : service) :
    option service :=
  c ← csessions s !! i;
  '(s', q, c') ← f c (sv s) (receiver_slots s);
  Some (set_csessions (λ l, <[i := c']> l) (set_receiver_slots (λ _, q) (set_sv (λ _, s') s))).

Definition chandle (e : cevent) (s : service) : option service :=
  match e with
  | CProducer e => s' ← handle init e (sv s); Some (set_sv (λ _, s') s)
  | CMetadata rs => Some (start_requests rs s)
  | CBootstrap ev answer => query_bootstrap ev answer s
  | CRequest i => recv_run i s
  | CArrive i m => on_session i (λ c s q, Some (s, q, set_cs_inbox (λ l, l ++ [m]) c)) s
  | CMain i stamp text => on_session i (main_step NULL_BLOCK_ID init stamp text) s
  | CIssue i => on_session i (λ c s q, r ← issue_step init c q; Some (s, r.1, r.2)) s
  | CReceive i text => on_session i (λ c s q, c ← recv_step text c s; Some (s, q, c)) s
  | CDecode i t => on_session i (decode_step t) s
  | CDiscard i t => on_session i (λ c s q, c ← discard_step t c; Some (s, q, c)) s
  end.

Inductive cruns : list cevent → service → Prop :=
  | cruns_nil : cruns [] (init_service init)
  | cruns_snoc es s e s' : cruns es s → chandle e s = Some s' → cruns (es ++ [e]) s'.

(** The same, executable. *)
Fixpoint chandle_all (es : list cevent) (s : service) : option service :=
  match es with
  | [] => Some s
  | e :: es => s ← chandle e s; chandle_all es s
  end.

End service.

(** ** Back in the engine process

    [SessionProcess], the engine's handle: what [_reader_loop] does with the
    messages of the helper. [handler] runs the jobs; it is the worker's. *)
Record engine := mkEngine {
  finished_sending : list string;
  finished_recving : list string;
  invalid_block_ids : list (gset Z);
  kv_expired_reqs : Z;
  failed_recvs : Z
}.

Definition handle_final_event (kind req_id : string) (e : engine) : engine :=
  if String.eqb kind "sending" then
    mkEngine (finished_sending e ++ [req_id]) (finished_recving e) (invalid_block_ids e)
      (kv_expired_reqs e) (failed_recvs e)
  else if String.eqb kind "sending_expired" then
    mkEngine (finished_sending e ++ [req_id]) (finished_recving e) (invalid_block_ids e)
      (kv_expired_reqs e + 1) (failed_recvs e)
  else e.

Definition handle_recv_done (d_req_id : string) (failed_blocks : list Z) (e : engine) : engine :=
  match failed_blocks with
  | [] => mkEngine (finished_sending e) (finished_recving e ++ [d_req_id]) (invalid_block_ids e)
            (kv_expired_reqs e) (failed_recvs e)
  | _ => mkEngine (finished_sending e) (finished_recving e ++ [d_req_id])
           (invalid_block_ids e ++ [list_to_set failed_blocks]) (kv_expired_reqs e)
           (failed_recvs e + 1)
  end.

(** [_run_job]; [inr] is the text of an exception of the handler. *)
Definition run_job (handler : HelperJob → JobDone + string) (j : HelperJob) : JobDone :=
  match handler j with
  | inl r => r
  | inr msg => mkJobDone (job_id j) (Some msg) 0 0 [] [] 0 0 0
  end.

(** What the reader does with one message: the new state and, for a job, the
    answer the job pool will send back. *)
Definition reader_step (handler : HelperJob → JobDone + string) (m : HelperToEngine)
    (e : engine) : engine * option JobDone :=
  match m with
  | FinalEvent kind req_id => (handle_final_event kind req_id e, None)
  | RecvDone d_req_id failed_blocks => (handle_recv_done d_req_id failed_blocks e, None)
  | ToJob j => (e, Some (run_job handler j))
  | HelperReady _ | Stopped => (e, None)
  end.
