(* ===== verification/ConsumerThms.v ===== *)
(** * Consumer sessions: slots, chunks and outcomes

    The invariant of one session under each of its tasks' steps, the invariant
    of the service's receiver slots, and the properties of every execution. *)

From S2P Require Import Prelude PyData Transfer Messages Producer Consumer.

(** ** The invariant of a session *)

(** The slots a session still has to give back. *)
Definition held (c : csession) : gset Z :=
  match cs_pc c with PDone _ => ∅ | _ => cs_owned c end.

Definition unreleased (d : decode) : option Z :=
  match dc_status d with DReleased => None | _ => Some (dc_slot d) end.

Definition chunk_of (d : decode) : Z := dj_chunk_id (dc_job d).

(** Each chunk below [n] is either waited for or was given to one decode
    task, and each owned slot belongs to one of those. *)
Record accounted (c : csession) (n : Z) : Prop := {
  ac_bounds : 0 ≤ n ≤ Z.max 0 (cs_total c);
  ac_slots : elements (cs_owned c) ≡ₚ
    (map_to_list (cs_inflight c)).*2 ++ omap unreleased (cs_decodes c);
  ac_chunks : (chunk_of <$> cs_decodes c) ++ (map_to_list (cs_inflight c)).*1 ≡ₚ seqZ 0 n;
  ac_issue : ∀ k, cs_issue c = Some k → k = n;
  ac_tasks : ∀ t d, cs_decodes c !! t = Some d → decode_done d = false → t ∈ cs_set c
}.

Definition all_done (c : csession) : Prop := ∀ d, d ∈ cs_decodes c → decode_done d = true.

(** Every chunk was given to exactly one decode task. *)
Definition complete (c : csession) : Prop := chunk_of <$> cs_decodes c ≡ₚ seqZ 0 (cs_total c).

(** The session gave up and told the producer. *)
Definition aborted (c : csession) : Prop := ∃ a, ReqAbort a ∈ cs_sent c.

Definition finished (c : csession) : bool := match cs_pc c with PDone _ => true | _ => false end.

Lemma held_live c : (∀ r, cs_pc c ≠ PDone r) → held c = cs_owned c.
Proof. unfold held. destruct (cs_pc c); naive_solver. Qed.

Section consumer.
Context (NULL_BLOCK_ID : Z) (init : InitMessage).

Definition outcome (c : csession) (r : gset Z) : Prop :=
  (r = session_blocks NULL_BLOCK_ID c ∧ aborted c) ∨ (r = ∅ ∧ complete c).

Definition pc_ok (c : csession) : Prop :=
  match cs_pc c with
  | PStart | POpen _ =>
      cs_decodes c = [] ∧ cs_total c = 0 ∧ cs_completed c = 0 ∧ cs_issue c = None
  | PWait _ => cs_completed c = zlen (cs_decodes c) ∧ cs_completed c < cs_total c
  | PStopRecv => cs_completed c = zlen (cs_decodes c) ∧ cs_total c ≤ cs_completed c
  | PTail waits =>
      cs_completed c = zlen (cs_decodes c) ∧ cs_total c ≤ cs_completed c ∧ cs_set c ⊆ waits
  | PAbort _ r => r = session_blocks NULL_BLOCK_ID c ∧ aborted c
  | PStop r => cs_issue c = None ∧ outcome c r
  | PClean waits r => cs_issue c = None ∧ outcome c r ∧ cs_set c ⊆ waits
  | PDrain _ _ r | PDone r => cs_issue c = None ∧ outcome c r ∧ all_done c
  end.

Definition wf (c : csession) : Prop := (∃ n, accounted c n) ∧ pc_ok c.

(** What the other tasks of a session leave in place for its main
    coroutine: they may only finish decode tasks. *)
Lemma complete_outcome c n :
  accounted c n → cs_completed c = zlen (cs_decodes c) → cs_total c ≤ cs_completed c →
  complete c.
Proof.
  intros [Hn _ Hc _ _] Hz Hle. unfold complete, zlen in *.
  assert (Hl := Permutation_length Hc). rewrite length_app, !length_fmap in Hl.
  rewrite length_seqZ in Hl. assert (Hm : map_to_list (cs_inflight c) = []).
  { apply nil_length_inv. lia. }
  rewrite Hm in Hc. cbn in Hc. rewrite app_nil_r in Hc. rewrite Hc.
  destruct (Z.le_gt_cases 0 (cs_total c)).
  - replace n with (cs_total c); [done|]. rewrite Hm in Hl. simpl in Hl. lia.
  - rewrite !seqZ_nil by lia. done.
Qed.

Lemma done_of_set c :
  (∃ n, accounted c n) → cs_set c = ∅ → all_done c.
Proof.
  intros [n H] Hs d [t Ht]%list_elem_of_lookup.
  destruct (decode_done d) eqn:Hd; [done|]. apply (ac_tasks _ _ H t) in Hd; [|done]. set_solver.
Qed.

Lemma done_of_waits c waits :
  (∃ n, accounted c n) → cs_set c ⊆ waits →
  forallb (is_done c) (elements waits) = true → all_done c.
Proof.
  intros [n H] Hs Hw d [t Ht]%list_elem_of_lookup.
  destruct (decode_done d) eqn:Hd; [done|].
  assert (Hin : t ∈ waits) by (apply Hs; by eapply ac_tasks).
  rewrite forallb_forall in Hw. specialize (Hw t). unfold is_done in Hw.
  rewrite Ht, Hd in Hw. apply Hw. apply list_elem_of_In. set_solver.
Qed.

(** ** Steps of the main coroutine *)

Lemma accounted_same c c' n :
  accounted c n → cs_total c' = cs_total c → cs_owned c' = cs_owned c →
  cs_inflight c' = cs_inflight c → cs_decodes c' = cs_decodes c →
  (cs_issue c' = cs_issue c ∨ cs_issue c' = None) →
  (∀ t, t ∈ cs_set c → is_done c t = false → t ∈ cs_set c') → accounted c' n.
Proof.
  intros [Hn Hs Hc Hi Ht] E1 E2 E3 E4 E5 E6.
  split; rewrite ?E1, ?E2, ?E3, ?E4; auto.
  - intros k Hk. apply Hi. destruct E5; congruence.
  - intros t d Hd Hdone. apply E6; [by eapply Ht|]. unfold is_done. by rewrite Hd.
Qed.

(** The state a step leaves: well formed, its slots those owned before. *)
Definition left_ok (c c' : csession) : Prop := wf c' ∧ held c' = cs_owned c.

Ltac left_same :=
  split; [split; [eexists; eapply accounted_same; eauto; try (by right)|]|];
  try reflexivity; try (cbn; by auto).

Lemma fail_ok msg c s : (∃ n, accounted c n) → left_ok c (fail_session NULL_BLOCK_ID msg c s).2.
Proof. intros [n H]. left_same. split; [done|]. eexists. apply elem_of_app. right. by left. Qed.

Lemma drain_ok r c s :
  (∃ n, accounted c n) → cs_issue c = None → outcome c r → all_done c →
  left_ok c (drain_owned r c s).2.
Proof.
  intros [n H] ? Ho ?. unfold drain_owned. case_decide as Hd; simpl; left_same.
Qed.

Lemma gather_ok r c s :
  (∃ n, accounted c n) → cs_issue c = None → outcome c r →
  left_ok c (gather_decodes r c s).2.
Proof.
  intros Hn Hi Ho. unfold gather_decodes. case_decide as Hd.
  - apply drain_ok; auto. by apply done_of_set.
  - destruct Hn as [n Hn]. left_same.
Qed.

Lemma finally_ok r c s :
  (∃ n, accounted c n) → outcome c r → left_ok c (finally r c s).2.
Proof.
  intros Hn Ho. unfold finally. destruct (cs_issue c) eqn:Hi; [|destruct (cs_recvt c) eqn:Hr].
  3: by apply gather_ok.
  all: destruct Hn as [n Hn]; left_same.
Qed.

Lemma accounted_empty c :
  cs_decodes c = [] → cs_total c = 0 → (∃ n, accounted c n) →
  cs_inflight c = ∅ ∧ cs_owned c = ∅.
Proof.
  intros Hd Ht [n [Hn Hs Hc _ _]]. rewrite Hd, Ht in *. assert (n = 0) as -> by lia.
  cbn in Hc, Hs. apply Permutation_nil_r, fmap_nil_inv in Hc.
  assert (cs_inflight c = ∅) as Hm by (by apply map_to_list_empty_iff).
  rewrite Hm in *. split; [done|]. rewrite map_to_list_empty in Hs. cbn in Hs.
  by apply Permutation_nil_r, elements_empty_inv, leibniz_equiv in Hs.
Qed.

Lemma accounted_zero c :
  cs_decodes c = [] → cs_owned c = ∅ → cs_inflight c = ∅ →
  (∀ k, cs_issue c = Some k → k = 0) → ∃ n, accounted c n.
Proof.
  intros E1 E2 E3 E4. exists 0. split; rewrite ?E1, ?E2, ?E3; [lia|done|done|done|].
  by intros t d ?.
Qed.

Lemma opened_ok m c s :
  (∃ n, accounted c n) → cs_decodes c = [] → cs_total c = 0 → cs_completed c = 0 →
  cs_issue c = None → left_ok c (opened_session NULL_BLOCK_ID m c s).2.
Proof.
  intros Hn Hd Ht Hcm Hi. destruct (accounted_empty _ Hd Ht Hn) as [Hm Ho].
  unfold opened_session. destruct m as [[bc total e| |]|msg]; try by apply fail_ok.
  destruct (is_error e); [by apply fail_ok|]. case_match eqn:Hz; zbool; subst.
  - apply (finally_ok _ (set_cs_block_count (λ _, bc) (set_cs_total (λ _, 0) c))).
    + apply accounted_zero; simpl; try done. by rewrite Hi.
    + right. split; [done|]. unfold complete. simpl. by rewrite Hd.
  - case_match eqn:Hp; zbool; simpl.
    + split; [split; [apply accounted_zero; simpl; naive_solver|]|done].
      cbn. rewrite Hd, Hcm. done.
    + split; [split; [apply accounted_zero; simpl; naive_solver|]|done].
      cbn. rewrite Hd, Hcm. split; [done|lia].
Qed.

(** ** The loop *)

(** A received chunk moves from [inflight] to a new decode task. *)
Lemma loop_ready_ok m c s s' c' n :
  accounted c n → loop_ready m c s = inr (s', c') →
  accounted c' n ∧ cs_owned c' = cs_owned c ∧ cs_total c' = cs_total c ∧
  cs_completed c' = cs_completed c + 1 ∧ length (cs_decodes c') = S (length (cs_decodes c)).
Proof.
  intros [Hn Hs Hc Hi Ht]. unfold loop_ready.
  destruct m as [[|ch da pa au e|]|]; try done. destruct (is_error e); [done|]. cbn.
  destruct (cs_inflight c !! ch) as [slot|] eqn:Hl; [|done]. cbn. intros [= <- <-]. cbn.
  assert (Hp := map_to_list_delete _ _ _ Hl). split_and!; auto; [|by rewrite length_app; simpl; lia].
  split; cbn; auto.
  - rewrite Hs, <- Hp, omap_app. cbn. solve_Permutation.
  - rewrite <- Hc, <- Hp, fmap_app. cbn. solve_Permutation.
  - intros t d Hd Hdone. apply lookup_app_Some in Hd as [Hd|[Hge Hd]]; [set_solver by eauto|].
    apply list_lookup_singleton_Some in Hd as [He _]. replace t with (length (cs_decodes c)) by lia.
    set_solver.
Qed.

(** [c'] is [c] without some finished tasks in [decode_tasks]. *)
Definition reaped (c c' : csession) : Prop :=
  (∃ X, c' = set_cs_set (λ _, X) c) ∧
  ∀ t, t ∈ cs_set c → is_done c t = false → t ∈ cs_set c'.

Lemma reap_ok c0 acc t : reaped c0 acc.2 → reaped c0 (reap acc t).2.
Proof.
  destruct acc as [[e|] c]; simpl; [done|]. intros [[X ->] Hk]. cbn.
  destruct (cs_decodes c0 !! t) as [d|] eqn:Hd; [|split; eauto].
  destruct (decode_done d) eqn:Hdone; [|split; eauto]. simpl.
  case_bool_decide; [|split; eauto]. cbn. split; [eexists; done|].
  cbn. intros t' Ht' Hf. assert (t' ≠ t); [|set_solver].
  intros ->. unfold is_done in Hf. by rewrite Hd, Hdone in Hf.
Qed.

Lemma reaps_ok c0 l acc : reaped c0 acc.2 → reaped c0 (foldl reap acc l).2.
Proof.
  revert acc. induction l as [|t l IH]; intros acc H; [done|]. apply IH. by apply reap_ok.
Qed.

Lemma loop_rest_ok waits c s :
  (∃ n, accounted c n) → cs_completed c = zlen (cs_decodes c) →
  left_ok c (loop_rest NULL_BLOCK_ID waits c s).2.
Proof.
  intros [n Hn] Hc. unfold loop_rest.
  set (c1 := if issue_finished c then _ else c).
  assert (H1 : accounted c1 n ∧ cs_owned c1 = cs_owned c ∧ cs_completed c1 = cs_completed c ∧
    cs_decodes c1 = cs_decodes c).
  { unfold c1. destruct (issue_finished c); [|done]. split; [|done].
    eapply accounted_same; eauto. }
  destruct H1 as (Ha & Ho & Hcm & Hd). unfold left_ok. rewrite <- Ho. rewrite <- Hd, <- Hcm in Hc.
  clearbody c1. clear c Hn Ho Hcm Hd.
  assert (Hr : reaped c1 (foldl reap (None, c1) (elements waits)).2).
  { apply reaps_ok. split; [|done]. exists (cs_set c1). by destruct c1. }
  destruct (foldl reap _ _) as [e c2]. simpl in Hr. destruct Hr as [[X ->] Hk].
  assert (Ha2 : accounted (set_cs_set (λ _, X) c1) n) by (eapply accounted_same; eauto).
  destruct e; [by apply (fail_ok _ (set_cs_set (λ _, X) c1)); eauto|]. cbn.
  case_match eqn:Hlt; zbool; (split; [split; [exists n; eapply accounted_same; eauto; by right|]|done]);
    cbn; auto.
Qed.

Lemma loop_raise_ok m c s msg c' :
  loop_ready m c s = inl (msg, c') → ∃ f, c' = set_cs_recvt f c.
Proof.
  unfold loop_ready. intros H. destruct m as [[]|]; repeat case_match; simplify_eq;
    try (by eexists); exists (λ x, x). match goal with |- ?x = _ => by destruct x end.
Qed.

Lemma loop_turn_ok waits c s :
  (∃ n, accounted c n) → cs_completed c = zlen (cs_decodes c) →
  left_ok c (loop_turn NULL_BLOCK_ID waits c s).2.
Proof.
  intros Hn Hc. unfold loop_turn.
  destruct (cs_recvt c) as [[|m|msg]|] eqn:Hr; try by apply loop_rest_ok.
  - destruct (loop_ready m c s) as [[msg c']|[s' c']] eqn:Hl.
    + apply loop_raise_ok in Hl as [f ->]. apply (fail_ok _ (set_cs_recvt f c)).
      destruct Hn as [n Hn]. exists n. by eapply accounted_same; eauto.
    + destruct Hn as [n Hn]. apply (loop_ready_ok _ _ _ _ _ n) in Hl as (Ha & Ho & _ & Hc' & Hlen); [|done].
      unfold left_ok. rewrite <- Ho. apply loop_rest_ok; [by eauto|]. unfold zlen in *. lia.
  - by apply fail_ok.
Qed.

Lemma acc_inbox c f : (∃ n, accounted c n) → ∃ n, accounted (set_cs_inbox f c) n.
Proof. intros [n H]. exists n. by eapply accounted_same; eauto. Qed.

Lemma main_step_ok stamp text c s q s' q' c' :
  wf c → main_step NULL_BLOCK_ID init stamp text c s q = Some (s', q', c') →
  wf c' ∧ q ++ elements (held c) ≡ₚ q' ++ elements (held c').
Proof.
  intros [Hn Hpc] H.
  assert (Hkeep : ∀ r, Some (r.1, q, r.2) = Some (s', q', c') → held c = cs_owned c →
    left_ok c r.2 → wf c' ∧ q ++ elements (held c) ≡ₚ q' ++ elements (held c')).
  { intros r Hr Hh [Hw Ho]. simplify_eq. by rewrite Hh, Ho. }
  unfold main_step in H. unfold pc_ok in Hpc.
  destruct (cs_pc c) eqn:Hp; (assert (Hh : held c = cs_owned c ∨ ∃ r, cs_pc c = PDone r)
    by (unfold held; rewrite Hp; eauto)); destruct Hh as [Hh|[? ?]]; try congruence;
    simplify_eq.
  - eapply (Hkeep (start_session init stamp c s)); [done..|]. destruct Hn as [n Hn]. left_same.
  - destruct Hpc as (? & ? & ? & ?). destruct (cs_inbox c) as [|m inbox].
    + destruct (deadline <=? now s); [|done]. eapply Hkeep; eauto. by apply fail_ok.
    + eapply Hkeep; eauto. apply (opened_ok m (set_cs_inbox _ c)); auto.
      by apply acc_inbox.
  - destruct (wakes waits c); [|done]. eapply Hkeep; eauto. apply loop_turn_ok; naive_solver.
  - eapply Hkeep; eauto. destruct Hpc. case_decide.
    + apply finally_ok; [done|]. right. destruct Hn. split; [done|]. by eapply complete_outcome.
    + destruct Hn as [n Hn]. left_same.
  - destruct (first_failure c waits); [eapply Hkeep; eauto; by apply fail_ok|].
    destruct (forallb _ _); [|done]. eapply Hkeep; eauto. apply finally_ok; [done|]. right.
    destruct Hn. split; [done|]. eapply complete_outcome; naive_solver.
  - destruct (cs_inbox c) as [|m inbox].
    + destruct (deadline <=? now s); [|done]. eapply Hkeep; eauto. apply finally_ok; [done|by left].
    + eapply Hkeep; eauto. apply (finally_ok _ (set_cs_inbox _ c)); [by apply acc_inbox|by left].
  - eapply Hkeep; eauto. apply gather_ok; naive_solver.
  - destruct (forallb _ _) eqn:Hf; [|done]. eapply Hkeep; eauto. destruct Hpc as (? & ? & ?).
    apply drain_ok; auto. by eapply done_of_waits.
  - destruct (await_job job deadline s) as [[r s1]|]; [|done]. simpl in H. simplify_eq.
    rewrite Hh. split; [|unfold held; simpl; by rewrite elements_empty, app_nil_r].
    split; [|done]. destruct Hn as [n Hn]. exists n. by eapply accounted_same; eauto.
Qed.

(** ** Steps of the other tasks *)

Definition preserved (q : list Z) (c : csession) (q' : list Z) (c' : csession) : Prop :=
  wf c' ∧ q ++ elements (held c) ≡ₚ q' ++ elements (held c').

(** The program counter's part of the invariant reads these. *)
Lemma pc_same c c' :
  cs_pc c' = cs_pc c → cs_request c' = cs_request c → cs_total c' = cs_total c →
  cs_completed c' = cs_completed c → chunk_of <$> cs_decodes c' = chunk_of <$> cs_decodes c →
  (cs_issue c = None → cs_issue c' = None) → cs_set c' ⊆ cs_set c →
  (all_done c → all_done c') → (aborted c → aborted c') → pc_ok c → pc_ok c'.
Proof.
  intros E1 E2 E3 E4 E5 E6 E7 E8 Eab. unfold pc_ok, outcome, complete, session_blocks.
  rewrite E1, E2, E3, E4, E5.
  assert (zlen (cs_decodes c') = zlen (cs_decodes c)) as ->.
  { unfold zlen. by rewrite <- (length_fmap chunk_of), E5, length_fmap. }
  assert (E9 : cs_decodes c = [] → cs_decodes c' = []).
  { intros E. rewrite E in E5. by apply fmap_nil_inv in E5. }
  destruct (cs_pc c); set_solver.
Qed.

Lemma issue_step_ok c q q' c' :
  wf c → NoDup (q ++ elements (held c)) → issue_step init c q = Some (q', c') →
  preserved q c q' c'.
Proof.
  intros [[n [Hn Hs Hc Hi Ht]] Hpc] Hnd H. unfold issue_step in H.
  destruct (cs_issue c) as [k|] eqn:Hk; [|done]. simpl in H.
  destruct (cs_total c <=? k) eqn:Hle; [done|]. zbool. specialize (Hi _ eq_refl) as ->.
  destruct q as [|slot q]; [done|]. destruct (slot_addresses init !! _); [|done].
  simplify_eq/=. assert (Hlive : ∀ r, cs_pc c ≠ PDone r).
  { intros r E. unfold pc_ok in Hpc. rewrite E in Hpc. naive_solver. }
  unfold preserved. rewrite !held_live in * by done. cbn. apply NoDup_cons in Hnd as [Hslot Hnd].
  assert (Hfree : slot ∉ cs_owned c) by set_solver.
  assert (Hnew : cs_inflight c !! n = None).
  { apply eq_None_not_Some. intros [v Hv%elem_of_map_to_list].
    assert (Hin : n ∈ seqZ 0 n).
    { rewrite <- Hc. apply elem_of_app. right. apply list_elem_of_fmap. by exists (n, v). }
    apply elem_of_seqZ in Hin. lia. }
  split; [split|].
  - exists (n + 1). split; cbn; auto; [lia| | |naive_solver].
    + rewrite elements_disj_union by set_solver. rewrite Hs, elements_singleton.
      rewrite map_to_list_insert by done. cbn. solve_Permutation.
    + rewrite map_to_list_insert by done. cbn.
      rewrite seqZ_snoc by lia. rewrite <- Hc. solve_Permutation.
  - eapply pc_same; [..|exact Hpc]; cbn; auto; [congruence|].
    intros [a Ha]. exists a. apply elem_of_app. by left.
  - rewrite elements_disj_union by set_solver. rewrite elements_singleton. solve_Permutation.
Qed.

Lemma recv_step_ok text c s c' q :
  wf c → recv_step text c s = Some c' → preserved q c q c'.
Proof.
  intros [[n Hn] Hpc] H. unfold recv_step in H.
  assert (Hk : ∀ c', accounted c' n → pc_ok c' → held c' = held c → preserved q c q c').
  { intros c1 ?? Hh. split; [by split; eauto|]. by rewrite Hh. }
  repeat case_match; simplify_eq; apply Hk; try done; by eapply accounted_same; eauto.
Qed.

Lemma discard_step_ok t c c' q : wf c → discard_step t c = Some c' → preserved q c q c'.
Proof.
  intros [[n Hn] Hpc] H. unfold discard_step in H.
  destruct (is_done c t && _) eqn:E; [|done]. zbool. simplify_eq.
  split; [split|done].
  - exists n. eapply accounted_same; eauto. cbn. intros t' Ht' Hf.
    assert (t' ≠ t) by congruence. set_solver.
  - eapply pc_same; [..|exact Hpc]; cbn; auto. set_solver.
Qed.

(** A task's status changes; the slot leaves [owned] if it is released. *)
Definition advance (t : nat) (d : decode) (st : decode_status) (c : csession) : csession :=
  set_decode t st
    (match st with DReleased => set_cs_owned (λ o, o ∖ {[dc_slot d]}) c | _ => c end).

Lemma advance_ok t d st c q :
  cs_decodes c !! t = Some d → decode_done d = false → wf c →
  preserved q c (match st with DReleased => q ++ [dc_slot d] | _ => q end) (advance t d st c).
Proof.
  intros Hd Hdone [[n Hn] Hpc]. destruct (Hn) as [Hb Hs Hc Hi Ht].
  assert (Hin : t ∈ cs_set c) by by eapply Ht.
  assert (Hlive : ∀ r, cs_pc c ≠ PDone r).
  { intros r E. unfold pc_ok in Hpc. rewrite E in Hpc. destruct Hpc as (_ & _ & Ha).
    apply list_elem_of_lookup_2, Ha in Hd. congruence. }
  set (f := λ d, mkDecode (dc_job d) st).
  destruct (alter_split f _ _ _ Hd) as (l1 & l2 & Hl & Hlen & Hal).
  assert (Hu : unreleased d = Some (dc_slot d)) by (unfold unreleased, decode_done in *; by repeat case_match).
  assert (Hown : dc_slot d ∈ cs_owned c).
  { apply elem_of_elements. rewrite Hs, Hl, omap_app. cbn. rewrite Hu. set_solver. }
  assert (Hdec : cs_decodes (advance t d st c) = l1 ++ f d :: l2).
  { unfold advance. destruct st; exact Hal. }
  assert (Hchunks : chunk_of <$> cs_decodes (advance t d st c) = chunk_of <$> cs_decodes c).
  { by rewrite Hdec, Hl, !fmap_app. }
  assert (Hsame : cs_set (advance t d st c) = cs_set c ∧ cs_inflight (advance t d st c) = cs_inflight c
    ∧ cs_total (advance t d st c) = cs_total c ∧ cs_issue (advance t d st c) = cs_issue c
    ∧ cs_pc (advance t d st c) = cs_pc c) by (unfold advance; by destruct st).
  destruct Hsame as (E1 & E2 & E3 & E4 & E5).
  split; [split|].
  - exists n. split; rewrite ?E1, ?E2, ?E3, ?E4, ?Hchunks; auto.
    + rewrite Hdec, omap_app. rewrite Hl, omap_app in Hs. cbn in *. rewrite Hu in Hs.
      unfold advance. destruct st; cbn; try exact Hs.
      rewrite (elements_remove _ _ Hown) in Hs.
      apply (Permutation_cons_inv (a := dc_slot d)). rewrite Hs. solve_Permutation.
    + intros t' d' Hd' Hn'. destruct (decide (t' = t)) as [->|Hne]; [done|].
      eapply Ht; [|exact Hn']. rewrite <- Hd', Hdec, <- Hal. by rewrite list_lookup_alter_ne.
  - eapply pc_same; [..|exact Hpc]; rewrite ?E1, ?E3, ?E4, ?E5; auto; try (unfold advance; by destruct st).
    intros Ha. apply list_elem_of_lookup_2, Ha in Hd. congruence.
  - rewrite !held_live by (rewrite ?E5; done). unfold advance. destruct st; try done.
    cbn. rewrite (elements_remove _ _ Hown). solve_Permutation.
Qed.

Lemma decode_step_ok t c s q s' q' c' :
  wf c → decode_step t c s q = Some (s', q', c') → preserved q c q' c'.
Proof.
  intros Hw H. unfold decode_step in H. destruct (cs_decodes c !! t) as [d|] eqn:Hd; [|done].
  simpl in H. destruct (dc_status d) eqn:Hst; try done.
  all: assert (Hdone : decode_done d = false) by (unfold decode_done; by rewrite Hst).
  - simplify_eq. exact (advance_ok t d (DWaiting _) c q' Hd Hdone Hw).
  - destruct (await_job _ _ _) as [[[r|] s1]|]; try done; simpl in H; [destruct (jd_error r)|];
      simplify_eq.
    + exact (advance_ok t d (DFailed _) c q' Hd Hdone Hw).
    + exact (advance_ok t d DReleased c q Hd Hdone Hw).
    + exact (advance_ok t d (DFailed _) c q' Hd Hdone Hw).
Qed.

(** ** The service *)

Definition slots_held (s : service) : list Z :=
  concat ((λ c, elements (held c)) <$> csessions s).

Record service_ok (s : service) : Prop := {
  so_slots : receiver_slots s ++ slots_held s ≡ₚ receiver_slots (init_service init);
  so_wf : Forall wf (csessions s)
}.

Lemma initial_nodup : NoDup (receiver_slots (init_service init)).
Proof. cbn. destruct (needs_receiver init); [apply NoDup_seqZ|constructor]. Qed.

Lemma service_nodup s : service_ok s → NoDup (receiver_slots s ++ slots_held s).
Proof. intros [H _]. rewrite H. apply initial_nodup. Qed.

Lemma service_same s s' :
  receiver_slots s' = receiver_slots s → csessions s' = csessions s → service_ok s → service_ok s'.
Proof. intros E1 E2 [H1 H2]. split; unfold slots_held; by rewrite ?E1, ?E2. Qed.

Lemma on_session_ok i f s s' :
  (∀ c v q v' q' c', wf c → NoDup (q ++ elements (held c)) → f c v q = Some (v', q', c') →
    preserved q c q' c') →
  service_ok s → on_session i f s = Some s' → service_ok s'.
Proof.
  intros Hf Hok H. assert (Hnd := service_nodup _ Hok). destruct Hok as [Hs Hw].
  unfold on_session in H. destruct (csessions s !! i) as [c|] eqn:Hc; [|done]. simpl in H.
  destruct (f c (sv s) (receiver_slots s)) as [[[v' q'] c']|] eqn:Hr; [|done]. simplify_eq/=.
  unfold slots_held in *. apply list_elem_of_split_length in Hc as (l1 & l2 & Hl & ->).
  rewrite Hl in Hs, Hw, Hnd. rewrite fmap_app, concat_app, fmap_cons in Hs, Hnd. cbn in Hs, Hnd.
  apply Forall_app in Hw as [Hw1 [Hw Hw2]%Forall_cons].
  apply Hf in Hr as [Hw' Hp]; [|done|].
  2:{ assert (P : receiver_slots s ++ concat ((λ c, elements (held c)) <$> l1) ++
        elements (held c) ++ concat ((λ c, elements (held c)) <$> l2) ≡ₚ
        (receiver_slots s ++ elements (held c)) ++ concat ((λ c, elements (held c)) <$> l1) ++
        concat ((λ c, elements (held c)) <$> l2)) by solve_Permutation.
      rewrite P in Hnd. by apply NoDup_app in Hnd as [? _]. }
  split; cbn; rewrite Hl, insert_app_r_alt, Nat.sub_diag by lia; cbn.
  - rewrite <- Hs. unfold slots_held. cbn. rewrite fmap_app, concat_app, fmap_cons. cbn.
    trans ((q' ++ elements (held c')) ++ concat ((λ c, elements (held c)) <$> l1)
             ++ concat ((λ c, elements (held c)) <$> l2)); [solve_Permutation|].
    rewrite <- Hp. solve_Permutation.
  - by apply Forall_app; split; [|constructor].
Qed.

Lemma inbox_ok f c q : wf c → preserved q c q (set_cs_inbox f c).
Proof. intros [Hn Hpc]. split; [split; [by apply acc_inbox|exact Hpc]|done]. Qed.

Lemma wf_new r : wf (new_session r).
Proof. split; [by apply accounted_zero|]. done. Qed.

Lemma set_recv_ok i pc s : service_ok s → service_ok (set_recv i pc s).
Proof. by apply service_same. Qed.

Lemma recv_done_ok r failed s : service_ok s → service_ok (recv_done r failed s).
Proof. by apply service_same. Qed.

Lemma open_sessions_ok i r s : service_ok s → service_ok (open_sessions NULL_BLOCK_ID init i r s).
Proof.
  intros H. unfold open_sessions.
  destruct (handshake_worker_addrs _ _ _) as [[|a l]|]; try by apply set_recv_ok, recv_done_ok.
  apply set_recv_ok. destruct H as [H1 H2]. split.
  - rewrite <- H1. cbn [receiver_slots set_csessions]. apply Permutation_app_head.
    unfold slots_held. cbn [csessions set_csessions]. rewrite fmap_app, concat_app.
    assert (He : ∀ l : list string, concat ((λ c, elements (held c)) <$> ((λ _, new_session r) <$> l)) = []).
    { induction l0; [done|]. cbn. exact IHl0. }
    by rewrite He, app_nil_r.
  - apply Forall_app; split; [done|]. apply Forall_fmap, Forall_forall. intros. apply wf_new.
Qed.

Lemma store_agents_ok entries s : service_ok s → service_ok (store_agents entries s).
Proof.
  revert s. induction entries as [|e entries IH]; intros s H; [done|]. simpl.
  destruct (int_keys _ _); [|done]. apply IH. revert H. by apply service_same.
Qed.

Lemma chandle_ok e s s' :
  service_ok s → chandle NULL_BLOCK_ID init e s = Some s' → service_ok s'.
Proof.
  intros Hok H. destruct e; cbn in H.
  - destruct (handle init e (sv s)); [|done]. simplify_eq/=. revert Hok. by apply service_same.
  - simplify_eq. revert Hok. by apply service_same.
  - unfold query_bootstrap in H. destruct (boot_events s !! ev) as [[a [|]]|]; try done.
    destruct answer as [l|]; simplify_eq; [apply (store_agents_ok l) in Hok|];
      revert Hok; by apply service_same.
  - unfold recv_run in H. destruct (recvs s !! i) as [[r pc]|]; [|done]. cbn in H.
    destruct pc; cbn in H; [| | |done].
    + repeat case_match; simplify_eq; [by apply open_sessions_ok|by apply set_recv_ok|].
      revert Hok. by apply service_same.
    + repeat case_match; simplify_eq. unfold agent_known. case_match; [by apply open_sessions_ok|].
      by apply set_recv_ok, recv_done_ok.
    + destruct (mapM _ _); [|done]. cbn in H. simplify_eq. by apply set_recv_ok, recv_done_ok.
  - eapply on_session_ok; [|exact Hok|exact H]. intros c v q v' q' c' Hw _ [= <- <- <-].
    by apply inbox_ok.
  - eapply on_session_ok; [|exact Hok|exact H]. intros. by eapply main_step_ok.
  - eapply on_session_ok; [|exact Hok|exact H]. intros c v q v' q' c' ?? Hr. cbv beta in Hr.
    destruct (issue_step init c q) as [[q1 c1]|] eqn:E; [|done]. simplify_eq/=.
    by eapply issue_step_ok.
  - eapply on_session_ok; [|exact Hok|exact H]. intros c v q v' q' c' ?? Hr. cbv beta in Hr.
    destruct (recv_step text c v) eqn:E; [|done]. simplify_eq/=. by eapply recv_step_ok.
  - eapply on_session_ok; [|exact Hok|exact H]. intros. by eapply decode_step_ok.
  - eapply on_session_ok; [|exact Hok|exact H]. intros c v q v' q' c' ?? Hr. cbv beta in Hr.
    destruct (discard_step t c) eqn:E; [|done]. simplify_eq/=. by eapply discard_step_ok.
Qed.

Lemma service_runs es s : cruns NULL_BLOCK_ID init es s → service_ok s.
Proof.
  induction 1 as [|es s e s' _ IH H]; [|by eapply chandle_ok].
  split; [|constructor]. change (slots_held _) with (@nil Z). by rewrite app_nil_r.
Qed.

End consumer.

(** ** Example executions *)

Lemma chandle_all_runs NB init es es0 s0 s :
  cruns NB init es0 s0 → chandle_all NB init es s0 = Some s → cruns NB init (es0 ++ es) s.
Proof.
  revert es0 s0. induction es as [|e es IH]; intros es0 s0 H0 H; simplify_eq/=.
  - by rewrite app_nil_r.
  - destruct (chandle NB init e s0) as [s1|] eqn:He; [|done]. simpl in H.
    change (e :: es) with ([e] ++ es). rewrite app_assoc. eapply IH; [|exact H].
    by econstructor.
Qed.

(** A receiver with two slots, and a request for two blocks. *)
Definition cx_init : InitMessage :=
  mkInit false true false 0 1 0 1 "eng-d" 0 "hostD" 7000 "boot" 8000
    [mkSlotAddresses 100 200 300; mkSlotAddresses 110 210 310] [4096] [1024] [1024] ["l0"%string]
    [0] [0].

Definition cx_request : ConsumerRequest :=
  mkConsumerRequest "req" "xfer" [[5; 6]] (Some 32) "eng-p" "http://boot".

Definition cx_ready (chunk : Z) : payload := Decoded (CompressionChunkReady chunk 64 32 8 None).

Definition cx_done (job : Z) (error : option string) : cevent :=
  CProducer (EJobDone (mkJobDone job error 0 0 [] [] 0 0 0)).

(** Up to two chunks in flight. *)
Definition cx_open : list cevent :=
  [CMetadata [cx_request]; CRequest 0;
   CBootstrap 0 (Some [mkDpEntry "eng-p" [("0", [("0", "tcp://p0")])]])%string; CRequest 0;
   CMain 0 17 ""; CArrive 0 (Decoded (CompressionSessionOpened 2 2 None)); CMain 0 0 "";
   CIssue 0; CIssue 0].

(** The second chunk arrives while the first decodes, and both succeed. *)
Definition cx_good : list cevent :=
  cx_open ++
  [CArrive 0 (cx_ready 1); CReceive 0 ""; CMain 0 0 ""; CDecode 0 0;
   CArrive 0 (cx_ready 0); CReceive 0 ""; CMain 0 0 ""; CDecode 0 1;
   cx_done 1 None; CDecode 0 0; CDiscard 0 0; CMain 0 0 "";
   cx_done 2 None; CDecode 0 1; CMain 0 0 ""; CMain 0 0 ""; CDiscard 0 1; CRequest 0].

(** The first chunk's decode fails before the second arrives. *)
Definition cx_lost : list cevent :=
  cx_open ++
  [CArrive 0 (cx_ready 0); CReceive 0 ""; CMain 0 0 ""; CDecode 0 0;
   cx_done 1 (Some "CUDA error"%string); CDecode 0 0; CDiscard 0 0; CMain 0 0 "";
   CArrive 0 (cx_ready 1); CReceive 0 ""; CMain 0 0 ""; CDecode 0 1;
   cx_done 2 None; CDecode 0 1; CDiscard 0 1; CMain 0 0 "";
   cx_done 3 None; CMain 0 0 ""; CRequest 0].

(** The producer's answer to a timed out open. *)
Definition cx_timed_out : list cevent :=
  take 5 cx_open ++
  [CArrive 0 (Decoded (CompressionSessionOpened 0 0 (Some timeout_str))); CMain 0 0 ""; CRequest 0].

Definition cx_run (es : list cevent) : option service :=
  chandle_all 0 cx_init es (init_service cx_init).

Definition cx_state (es : list cevent) : service := default (init_service cx_init) (cx_run es).

Lemma cx_good_runs : cruns 0 cx_init cx_good (cx_state cx_good).
Proof. eapply (chandle_all_runs _ _ _ []); [constructor|]. vm_compute. reflexivity. Qed.

(** While both chunks decode or wait. *)
Definition cx_half : list cevent := take 13 cx_good.

Lemma cx_half_runs : cruns 0 cx_init cx_half (cx_state cx_half).
Proof. eapply (chandle_all_runs _ _ _ []); [constructor|]. vm_compute. reflexivity. Qed.

(** ** Properties *)

(** What a session uses: the slots of the chunks it pulled and got no response
    for, which a remote write may still reach, and those of decode tasks that
    have not finished. *)
Definition decoding (d : decode) : option Z := if decode_done d then None else Some (dc_slot d).

Definition in_use (c : csession) : list Z :=
  (map_to_list (cs_inflight c)).*2 ++ omap decoding (cs_decodes c).

Lemma decoding_sub ds : omap decoding ds ⊆+ omap unreleased ds.
Proof.
  induction ds as [|d ds IH]; [done|].
  change (omap decoding (d :: ds)) with
    (match decoding d with Some z => z :: omap decoding ds | None => omap decoding ds end).
  change (omap unreleased (d :: ds)) with
    (match unreleased d with Some z => z :: omap unreleased ds | None => omap unreleased ds end).
  unfold decoding at 1, unreleased at 1, decode_done.
  destruct (dc_status d);
    [by apply submseteq_skip|by apply submseteq_skip|exact IH|by apply submseteq_cons].
Qed.

Lemma finished_done c : finished c = true ↔ ∃ r, cs_pc c = PDone r.
Proof. unfold finished. destruct (cs_pc c); naive_solver. Qed.

Lemma in_use_held NB c : wf NB c → finished c = false → in_use c ⊆+ elements (held c).
Proof.
  intros [[n Hn] _] Hf. unfold in_use. rewrite held_live.
  - rewrite (ac_slots _ _ Hn). apply submseteq_skips_l, decoding_sub.
  - intros r Hr. unfold finished in Hf. by rewrite Hr in Hf.
Qed.

Lemma none_decoding c : all_done c → omap decoding (cs_decodes c) = [].
Proof.
  unfold all_done. induction (cs_decodes c) as [|d ds IH]; intros Ha; [done|].
  cbn. unfold decoding at 1. rewrite Ha by left. apply IH. intros d' Hd. apply Ha. by right.
Qed.

(** A session that received every chunk waits for none. *)
Lemma complete_inflight c n : accounted c n → complete c → cs_inflight c = ∅.
Proof.
  intros [Hn _ Hc _ _] Hcm. unfold complete in Hcm. apply map_to_list_empty_iff, nil_length_inv.
  apply Permutation_length in Hc, Hcm. rewrite length_app in Hc. rewrite !length_fmap, !length_seqZ in *. lia.
Qed.

Lemma concat_sub {A} (P : A → Prop) `{∀ x, Decision (P x)} (f g : A → list Z) l :
  (∀ x, x ∈ l → P x → f x ⊆+ g x) → concat (f <$> filter P l) ⊆+ concat (g <$> l).
Proof.
  induction l as [|x l IH]; intros Hl; [done|]. rewrite filter_cons, fmap_cons. cbn [concat].
  assert (concat (f <$> filter P l) ⊆+ concat (g <$> l)) by (apply IH; intros y Hy; apply Hl; by right).
  case_decide as Hx; [|by apply submseteq_inserts_l]. rewrite fmap_cons. cbn [concat]. apply submseteq_app; [|done]. apply Hl; [by left|done].
Qed.

(** Receiver slots: in every execution each receiver slot is either in the
    free queue or owned by exactly one unfinished session; none is lost,
    duplicated or shared, whatever responses, time-outs and failures occur. *)
Theorem receiver_slots_conserved NB init es s :
  cruns NB init es s →
  receiver_slots s ++ slots_held s ≡ₚ receiver_slots (init_service init).
Proof. intros H%service_runs. apply (so_slots _ _ _ H). Qed.

Lemma receiver_slots_conserved_witness :
  receiver_slots (cx_state cx_half) = [] ∧
  (elements <$> (held <$> csessions (cx_state cx_half))) = [[1; 0]] ∧
  receiver_slots (cx_state cx_half) ++ slots_held (cx_state cx_half) ≡ₚ
    receiver_slots (init_service cx_init).
Proof.
  split; [vm_compute; reflexivity|]. split; [vm_compute; reflexivity|].
  apply (receiver_slots_conserved 0 cx_init cx_half), cx_half_runs.
Defined.

(** C11 No reuse in use: in every execution the slots of the running sessions
    that a remote write may still reach (pulled, no response yet) or that are
    being decoded are pairwise distinct and none of them is in the free queue.
    When a session finishes it has no decode running, and no pull without a
    response either, except where it failed: then it has told the producer to
    abort, waits for the acknowledgement for [ABORT_TIMEOUT] and gives its slots
    back in either case ([aborted_slots_reused]). *)
Theorem slots_in_use_private NB init es s :
  cruns NB init es s →
  NoDup (receiver_slots s ++ concat (in_use <$> filter (λ c, finished c = false) (csessions s))) ∧
  ∀ c, c ∈ csessions s → finished c = true → omap decoding (cs_decodes c) = [] ∧ (in_use c = [] ∨ aborted c).
Proof.
  intros H%service_runs. assert (Hw := so_wf _ _ _ H). rewrite Forall_forall in Hw. split.
  - assert (Hsub : concat (in_use <$> filter (λ c, finished c = false) (csessions s)) ⊆+ slots_held s).
    { apply concat_sub. intros c Hc. by apply (in_use_held NB), Hw. }
    apply submseteq_Permutation in Hsub as [k Hk].
    assert (Hnd := service_nodup _ _ _ H). rewrite Hk, app_assoc in Hnd.
    by apply NoDup_app in Hnd as [? _].
  - intros c Hc [r Hr]%finished_done. destruct (Hw _ Hc) as [[n Hn] Hpc]. unfold pc_ok in Hpc. rewrite Hr in Hpc.
    destruct Hpc as (_ & Ho & Hd). apply none_decoding in Hd. split; [done|]. destruct Ho as [[_ ?]|[_ Hcm]]; [by right|left].
    unfold in_use. by rewrite Hd, (complete_inflight _ _ Hn Hcm), map_to_list_empty.
Qed.

Lemma slots_in_use_private_witness :
  in_use <$> filter (λ c, finished c = false) (csessions (cx_state cx_half)) = [[0; 1]] ∧
  NoDup (receiver_slots (cx_state cx_half) ++ concat (in_use <$> filter (λ c, finished c = false) (csessions (cx_state cx_half)))).
Proof.
  split; [vm_compute; reflexivity|].
  apply (slots_in_use_private 0 cx_init cx_half (cx_state cx_half)), cx_half_runs.
Defined.

(** A chunk fails while another one is being written, and the producer does
    not acknowledge the abort in time. *)
Definition cx_unacknowledged : list cevent :=
  cx_open ++
  [CArrive 0 (Decoded (CompressionChunkReady 0 0 0 0 (Some "encode failed"%string))); CReceive 0 ""; CMain 0 0 "";
   CProducer (ETime ABORT_TIMEOUT); CMain 0 0 ""; CMain 0 0 ""; cx_done 1 None; CMain 0 0 ""; CRequest 0].

(** The slot a producer may still be writing to is free again: the next request
    pulls another chunk into it. *)
Theorem aborted_slots_reused :
  ∃ es s c, cruns 0 cx_init es s ∧ csessions s = [c] ∧ finished c = true ∧ cs_inbox c = [] ∧
    cs_inflight c = {[0 := 0; 1 := 1]} ∧ receiver_slots s ≡ₚ [0; 1].
Proof.
  exists cx_unacknowledged, (cx_state cx_unacknowledged), (default (new_session cx_request) (head (csessions (cx_state cx_unacknowledged)))).
  split; [eapply (chandle_all_runs _ _ _ []); [constructor|]; vm_compute; reflexivity|].
  split_and!; [vm_compute; reflexivity..|]. vm_compute. apply perm_swap.
Qed.

(** C12 Outcome of a session: a finished session reports either every
    block of its request as failed, or none; and it reports none only if every
    chunk the producer announced was received and given to exactly one decode
    task. *)
Theorem session_outcome NB init es s c r :
  cruns NB init es s → c ∈ csessions s → cs_pc c = PDone r →
  r = session_blocks NB c ∨ (r = ∅ ∧ complete c).
Proof.
  intros H%service_runs Hc Hr. assert (Hw := so_wf _ _ _ H). rewrite Forall_forall in Hw.
  destruct (Hw _ Hc) as [_ Hpc]. unfold pc_ok in Hpc. rewrite Hr in Hpc. destruct Hpc as (_ & [[? _]|?] & _); [by left|by right].
Qed.

Lemma session_outcome_witness :
  match csessions (cx_state cx_good) with
  | [c] => session_blocks 0 c ≠ ∅ ∧ chunk_of <$> cs_decodes c = [1; 0] ∧
           (∅ = session_blocks 0 c ∨ (∅ : gset Z) = ∅ ∧ complete c)
  | _ => False
  end.
Proof.
  assert (H := session_outcome 0 cx_init cx_good (cx_state cx_good)).
  destruct (csessions (cx_state cx_good)) as [|c [|]] eqn:Hc; try (vm_compute in Hc; discriminate).
  assert (E : c = c) by done. vm_compute in Hc. injection Hc as Hc. split_and!.
  - rewrite <- Hc. vm_compute. discriminate.
  - rewrite <- Hc. reflexivity.
  - apply (H c ∅); [apply cx_good_runs|by apply list_elem_of_here|]. rewrite <- Hc. reflexivity.
Defined.

(** A lost failure: the tasks' done-callback removes a failed decode from
    [decode_tasks] before the loop looks at it, so a request whose first chunk
    failed to decode is reported as received, with no failed block. *)
Theorem decode_failure_lost :
  ∃ es s c, cruns 0 cx_init es s ∧ csessions s = [c] ∧
    dc_status <$> cs_decodes c = [DFailed "CUDA error"; DReleased] ∧
    session_blocks 0 c = {[5; 6]} ∧ RecvDone "req" [] ∈ out (sv s).
Proof.
  exists cx_lost, (cx_state cx_lost), (default (new_session cx_request) (head (csessions (cx_state cx_lost)))).
  split; [eapply (chandle_all_runs _ _ _ []); [constructor|]; vm_compute; reflexivity|].
  split; [vm_compute; reflexivity|]. split; [vm_compute; reflexivity|].
  split; [vm_compute; reflexivity|]. vm_compute. do 3 apply list_elem_of_further. apply list_elem_of_here.
Qed.

(** The producer answers an open whose job timed out with an empty error
    text, and the consumer takes it for success: nothing is transferred and
    no block is reported. *)
Theorem open_timeout_lost c s :
  ∃ message, (open_opened c None s).2 = FReply (oc_identity c) message ∧
  ∃ es s c, cruns 0 cx_init (es ++ [CArrive 0 (Decoded message); CMain 0 0 ""; CRequest 0]) s ∧
    csessions s = [c] ∧ cs_decodes c = [] ∧ session_blocks 0 c = {[5; 6]} ∧
    out (sv s) = [RecvDone "req" []].
Proof.
  eexists. split; [reflexivity|].
  exists (take 5 cx_open), (cx_state cx_timed_out).
  exists (default (new_session cx_request) (head (csessions (cx_state cx_timed_out)))).
  split; [|split_and!; vm_compute; reflexivity].
  eapply (chandle_all_runs _ _ _ []); [constructor|]. vm_compute. reflexivity.
Qed.
