(* ===== verification/P2PPlan.v ===== *)
(** * The raw transfer of the P2P connector: what is copied

    [mooncake_connector.py], class [MooncakeConnectorWorker]: the copies of the
    ready requests ([_build_transfer_params_sync]) and their submission in
    batches ([_send_blocks]). vLLM's [map_to_kernel_blocks] is a parameter. *)

From S2P Require Import Prelude PyData Transfer Messages.

(** ** Copies *)

Record copy := mkCopy { src : Z; dst : Z; len : Z }.

(** [np.split] of two block lists of one length at the places where either
    list is not contiguous. *)
Definition adjacent (x y : Z * Z) : bool := (y.1 - x.1 =? 1) && (y.2 - x.2 =? 1).

Definition join_run (x : Z * Z) (runs : list (list (Z * Z))) : list (list (Z * Z)) :=
  match runs with
  | (y :: r) :: rs => if adjacent x y then (x :: y :: r) :: rs else [x] :: (y :: r) :: rs
  | _ => [x] :: runs
  end.

Definition runs (l : list (Z * Z)) : list (list (Z * Z)) := foldr join_run [] l.

Section plan.
Context (map_to_kernel_blocks : list Z → Z → list Z).

(** [is_mamba] of each KV cache group; [physical_blocks] is
    [_physical_blocks_per_logical_kv_block]. *)
Record plan_config := mkPlanConfig {
  is_mamba_group : list bool;
  NULL_BLOCK_ID : Z;
  physical_blocks : Z;
  p_tp_rank : Z;
  p_tp_size : Z;
  cache_replicated : bool
}.

Context (c : plan_config).

(** ** The block lists of one request *)

Inductive block_result :=
  | Matched (l : list (list Z * list Z))
  | FewerThanRemote.

Definition group_is_mamba (i : nat) : result bool := of_option IndexError (is_mamba_group c !! i).

Definition keep_real (mamba : bool) (l : list Z) : list Z :=
  if mamba then filter (λ b, b ≠ NULL_BLOCK_ID c) l else l.

(** [l[-n:]], or [[]] for no blocks *)
Definition last_blocks (n : nat) (l : list Z) : list Z := drop (length l - n) l.

Fixpoint match_blocks (i : nat) (pairs : list (list Z * list Z)) : result block_result :=
  match pairs with
  | [] => Ok (Matched [])
  | (local, remote) :: pairs =>
      let? mamba := group_is_mamba i in
      let local := keep_real mamba local in
      let remote := keep_real mamba remote in
      if (length local <? length remote)%nat then Ok FewerThanRemote
      else
        let? r := match_blocks (S i) pairs in
        Ok match r with
           | Matched l => Matched ((last_blocks (length remote) local, remote) :: l)
           | FewerThanRemote => FewerThanRemote
           end
  end.

Definition to_kernel (i : nat) (l : list Z) : result (list Z) :=
  let? mamba := group_is_mamba i in
  Ok (if mamba then l else map_to_kernel_blocks l (physical_blocks c)).

Definition logical_to_kernel_block_ids (l : list (list Z)) : result (list (list Z)) :=
  if physical_blocks c =? 1 then Ok l else rmap (λ e : nat * list Z, to_kernel e.1 e.2) (imap pair l).

(** ** The copies of one pair of regions *)

Definition run_copies (coalesce : bool) (x y : TransferRegion) (so dof n : Z) (r : list (Z * Z)) : list copy :=
  if coalesce
  then match r with
       | [] => []
       | (b, b') :: _ => [mkCopy (base_addr x + b * block_len x + so) (base_addr y + b' * block_len y + dof)
                            (n * Z.of_nat (length r))]
       end
  else (λ e : Z * Z, mkCopy (base_addr x + e.1 * block_len x + so) (base_addr y + e.2 * block_len y + dof) n) <$> r.

Definition region_copies (remote_tp_rank remote_tp_size : Z) (locals remotes : list (list Z))
    (e : TransferRegion * TransferRegion) : result (list copy) :=
  let (x, y) := e in
  let? _ := assert_ (group_index x =? group_index y) in
  let? _ := assert_ (group_index x <? zlen locals) in
  let? l := py_index locals (group_index x) in
  let? l' := py_index remotes (group_index x) in
  match l with
  | [] => Ok []
  | _ =>
      let? p := compute_sender_transfer_plan (p_tp_rank c) (p_tp_size c) remote_tp_rank remote_tp_size
                  (kv_block_len x) (kv_block_len y) (cache_replicated c) None in
      let '(should, so, dof, n) := p in
      if negb should then Ok []
      else
        let? _ := assert_ (so + n <=? kv_block_len x) in
        let? _ := assert_ (dof + n <=? kv_block_len y) in
        let coalesce := can_coalesce_block_transfers (block_len x) (block_len y) so dof n in
        Ok (runs (zip l l') ≫= run_copies coalesce x y so dof n)
  end.

(** ** All ready requests *)

Record transfer_params := mkParams {
  copies : list copy;
  err_reqs : list string;
  err_msg : option string
}.

Definition fail_req (id msg : string) (acc : transfer_params) : transfer_params :=
  mkParams (copies acc) (err_reqs acc ++ [id]) (Some (default msg (err_msg acc))).

Definition is_nil {A} (l : list A) : bool := match l with [] => true | _ => false end.

(** One request: its id and its blocks on this side. *)
Definition request_params (meta : MooncakeXferMetadata) (regions : list (TransferRegion * TransferRegion))
    (acc : transfer_params) (e : string * list (list Z)) : result transfer_params :=
  let (id, local_block_ids) := e in
  let? blocks := of_option KeyError (dget (req_blocks meta) id) in
  let remote_block_ids := blocks.2 in
  if forallb is_nil remote_block_ids then Ok acc
  else if negb (zlen local_block_ids =? zlen remote_block_ids)
  then Ok (fail_req id "KV group count mismatch" acc)
  else
    let? r := match_blocks 0 (zip local_block_ids remote_block_ids) in
    match r with
    | FewerThanRemote => Ok (fail_req id "P num blocks less than D" acc)
    | Matched l =>
        if forallb is_nil l.*1 then Ok acc
        else
          let? locals := logical_to_kernel_block_ids l.*1 in
          let? remotes := logical_to_kernel_block_ids l.*2 in
          let? cs := rmap (region_copies (remote_tp_rank meta) (remote_tp_size meta) locals remotes) regions in
          Ok (mkParams (copies acc ++ concat cs) (err_reqs acc) (err_msg acc))
    end.

Definition build_transfer_params (ready_reqs : list (string * list (list Z))) (meta : MooncakeXferMetadata)
    (local_regions remote_regions : list TransferRegion) : result transfer_params :=
  rfold (request_params meta (zip local_regions remote_regions)) (mkParams [] [] None) ready_reqs.

End plan.

(** ** Submission *)

Definition RAW_TRANSFER_MAX_DESCRIPTORS : Z := 1024.
Definition RAW_TRANSFER_MAX_BYTES : Z := 64 * 1024 * 1024.

(** The length of the next batch, [n] copies and [bytes] bytes of which are
    taken already. *)
Fixpoint batch_end (n : nat) (bytes : Z) (l : list copy) : result nat :=
  match l with
  | [] => Ok n
  | x :: l =>
      let? _ := raise_if (len x <? 0) (ValueError "Mooncake raw transfer lengths cannot be negative.") in
      if (RAW_TRANSFER_MAX_DESCRIPTORS <=? Z.of_nat n) ||
         ((0 <? n)%nat && (RAW_TRANSFER_MAX_BYTES <? bytes + len x)) then Ok n
      else batch_end (S n) (bytes + len x) l
  end.

(** The batches written and what is returned; [write k] is the engine's
    answer to call [k]. *)
Fixpoint send_loop (write : nat → Z) (fuel : nat) (done : list (list copy)) (l : list copy) :
    list (list copy) * result Z :=
  match fuel, l with
  | O, _ | _, [] => (done, Ok 0)
  | S fuel, _ =>
      match batch_end 0 0 l with
      | Err e => (done, Err e)
      | Ok n =>
          let ret := write (length done) in
          let done := done ++ [take n l] in
          if negb (ret =? 0) then (done, Ok ret) else send_loop write fuel done (drop n l)
      end
  end.

(** Every turn of the loop takes a copy, so the fuel is enough. *)
Definition send_blocks (write : nat → Z) (l : list copy) : list (list copy) * result Z :=
  send_loop write (length l) [] l.
