(* ===== verification/P2PPlanThms.v ===== *)
(** * The raw transfer of the P2P connector: correctness of the copies

    The coalesced copies of a pair of regions are the copies of its blocks
    one by one; no copy leaves the blocks of the request it is for; the
    batches of a submission are within their limits and cover the copies. *)

From S2P Require Import Prelude PyData Transfer Messages P2PPlan.

(** ** Copies as lists of bytes *)

(** The bytes a copy moves, as pairs of source and destination address. *)
Definition copy_bytes (x : copy) : list (Z * Z) := (λ i, (src x + i, dst x + i)) <$> seqZ 0 (len x).

(** The copy of one block with the offsets and the length of a plan. *)
Definition block_copy (x y : TransferRegion) (so dof n : Z) (e : Z * Z) : copy :=
  mkCopy (base_addr x + e.1 * block_len x + so) (base_addr y + e.2 * block_len y + dof) n.

Lemma elem_of_copy_bytes x s d :
  (s, d) ∈ copy_bytes x ↔ ∃ i, 0 ≤ i < len x ∧ s = src x + i ∧ d = dst x + i.
Proof.
  unfold copy_bytes. rewrite list_elem_of_fmap. split.
  - intros (i & [= -> ->] & Hi%elem_of_seqZ). exists i. split_and!; lia.
  - intros (i & Hi & -> & ->). exists i. split; [done|]. apply elem_of_seqZ. lia.
Qed.

Lemma copy_bytes_app s d m n :
  0 ≤ m → 0 ≤ n → copy_bytes (mkCopy s d (m + n)) = copy_bytes (mkCopy s d m) ++ copy_bytes (mkCopy (s + m) (d + m) n).
Proof.
  intros Hm Hn. unfold copy_bytes; simpl. rewrite seqZ_app, fmap_app by done. f_equal.
  rewrite Z.add_0_l. replace m with (0 + m) at 1 by lia. rewrite Z.add_comm, <- fmap_add_seqZ, <- list_fmap_compose.
  apply list_fmap_ext. intros i j _; simpl. f_equal; lia.
Qed.

Lemma copy_bytes_neg s d n : n ≤ 0 → copy_bytes (mkCopy s d n) = [].
Proof. intros H. unfold copy_bytes; simpl. by rewrite seqZ_nil. Qed.

(** ** Runs *)

Lemma concat_join_run x rs : concat (join_run x rs) = x :: concat rs.
Proof. destruct rs as [|[|y r] rs]; [done..|]. simpl. by case_match. Qed.

Lemma concat_runs l : concat (runs l) = l.
Proof. induction l as [|x l IH]; [done|]. simpl. by rewrite concat_join_run, IH. Qed.

(** Consecutive blocks on both sides. *)
Fixpoint is_run (l : list (Z * Z)) : Prop :=
  match l with
  | x :: (y :: _) as l' => y = (x.1 + 1, x.2 + 1) ∧ is_run l'
  | _ => True
  end.

Lemma adjacent_spec x y : adjacent x y = true ↔ y = (x.1 + 1, x.2 + 1).
Proof.
  unfold adjacent. destruct x as [a b], y as [a' b']; simpl. rewrite andb_true_iff, !Z.eqb_eq. split.
  - intros. f_equal; lia.
  - intros [= -> ->]. lia.
Qed.

Lemma runs_are_runs l : Forall is_run (runs l).
Proof.
  induction l as [|x l IH]; [constructor|]. simpl. unfold join_run.
  destruct (runs l) as [|[|y r] rs] eqn:E; [by repeat constructor|by constructor|].
  apply Forall_cons in IH as [Hy Hrs]. destruct (adjacent x y) eqn:Ea.
  - constructor; [|done]. apply adjacent_spec in Ea. by split.
  - by repeat constructor.
Qed.

(** One copy of a whole run moves what the copies of its blocks move. *)
Lemma run_bytes x y n r e :
  is_run (e :: r) → block_len x = n → block_len y = n →
  copy_bytes (mkCopy (base_addr x + e.1 * n) (base_addr y + e.2 * n) (n * zlen (e :: r)))
  = (e :: r) ≫= (copy_bytes ∘ block_copy x y 0 0 n).
Proof.
  intros Hrun Hx Hy. assert (Hone : ∀ a, (copy_bytes ∘ block_copy x y 0 0 n) a
    = copy_bytes (mkCopy (base_addr x + a.1 * n) (base_addr y + a.2 * n) n)).
  { intros a. unfold block_copy; simpl. by rewrite Hx, Hy, !Z.add_0_r. }
  revert e Hrun. induction r as [|e' r IH]; intros e Hrun.
  { rewrite bind_cons, Hone. simpl. by rewrite app_nil_r, Z.mul_1_r. }
  destruct Hrun as [-> Hrun]. rewrite bind_cons, <- IH, Hone by done. clear IH Hrun Hone.
  replace (zlen (e :: (e.1 + 1, e.2 + 1) :: r)) with (1 + zlen ((e.1 + 1, e.2 + 1) :: r))
    by (unfold zlen; simpl; lia).
  rewrite Z.mul_add_distr_l, Z.mul_1_r. assert (Hk : 0 ≤ zlen ((e.1 + 1, e.2 + 1) :: r)) by apply Nat2Z.is_nonneg.
  revert Hk. generalize (zlen ((e.1 + 1, e.2 + 1) :: r)). intros k Hk.
  destruct (Z.le_gt_cases n 0).
  - rewrite !copy_bytes_neg; [done|nia..].
  - rewrite copy_bytes_app by nia. f_equal. f_equal. f_equal; simpl; lia.
Qed.

Lemma run_copies_bytes co x y so dof n r :
  is_run r → co = can_coalesce_block_transfers (block_len x) (block_len y) so dof n →
  run_copies co x y so dof n r ≫= copy_bytes = r ≫= (copy_bytes ∘ block_copy x y so dof n).
Proof.
  intros Hrun ->. unfold run_copies. destruct (can_coalesce_block_transfers _ _ _ _ _) eqn:E.
  - unfold can_coalesce_block_transfers in E. rewrite !andb_true_iff, !Z.eqb_eq in E.
    destruct E as [[[-> ->] Hx] Hy], r as [|e r]; [done|]. destruct e as [b b'] eqn:He.
    rewrite bind_cons, app_nil_r. rewrite <- Hx, <- Hy, <- run_bytes by done. simpl. by rewrite !Z.add_0_r.
  - by rewrite list_fmap_bind.
Qed.

(** ** The copies of one pair of regions *)

Lemma list_bind_assoc {A B C} (f : A → list B) (g : B → list C) l : (l ≫= f) ≫= g = l ≫= (λ a, f a ≫= g).
Proof. induction l as [|a l IH]; [done|]. by rewrite !bind_cons, bind_app, IH. Qed.

Lemma bind_concat {A B} (f : A → list B) (ls : list (list A)) : concat ls ≫= f = ls ≫= (λ l, l ≫= f).
Proof. induction ls as [|l ls IH]; [done|]. simpl. by rewrite bind_app, IH. Qed.

Lemma plan_offsets pr ps rr rs ll rl repl should so dof n :
  compute_sender_transfer_plan pr ps rr rs ll rl repl None = Ok (should, so, dof, n) →
  0 ≤ ll → 0 ≤ rl → 0 ≤ so ∧ 0 ≤ dof.
Proof.
  unfold compute_sender_transfer_plan. intros H Hl Hr. inv_ok. destruct (_ =? 1); inv_ok; [naive_solver lia|].
  destruct (0 <? _) eqn:E, repl; inv_ok; simplify_eq; try lia.
  - apply Z.ltb_lt in E. split; [lia|]. pose proof (Z.mod_pos_bound pr x). nia.
  - match goal with H : py_mod _ _ = _ |- _ => apply py_mod_Ok in H as [Hx ->] end.
    apply Z.ltb_ge in E. split; [|lia]. pose proof (Z.mod_pos_bound rr (- x)). nia.
Qed.


Lemma region_copies_plan c rr rs locals remotes x y cs :
  region_copies c rr rs locals remotes (x, y) = Ok cs →
  ∃ l l', py_index locals (group_index x) = Ok l ∧ py_index remotes (group_index x) = Ok l' ∧
    (l = [] ∧ cs = [] ∨
     ∃ should so dof n,
       compute_sender_transfer_plan (p_tp_rank c) (p_tp_size c) rr rs (kv_block_len x) (kv_block_len y)
         (cache_replicated c) None = Ok (should, so, dof, n) ∧
       (should = false ∧ cs = [] ∨
        should = true ∧ so + n ≤ kv_block_len x ∧ dof + n ≤ kv_block_len y ∧
        cs ≫= copy_bytes = zip l l' ≫= (copy_bytes ∘ block_copy x y so dof n))).
Proof.
  unfold region_copies. intros H. inv_ok. eexists _, _. split_and!; [done..|].
  match goal with H : match ?l with _ => _ end = Ok _ |- _ => destruct l as [|b l0] eqn:El end; inv_ok; [by left|right].
  match goal with H : (let '(_, _) := ?p in _) = Ok _ |- _ => destruct p as [[[should so] dof] n] end.
  exists should, so, dof, n. split; [done|]. destruct should; cbn [negb] in *; inv_ok; [right|by left].
  split_and!; [done|by apply Z.leb_le..|]. rewrite list_bind_assoc. rewrite <- (concat_runs (zip _ _)) at 2.
  rewrite bind_concat. apply Forall_bind_ext, Forall_forall. intros r Hr. apply run_copies_bytes; [|done].
  by eapply Forall_forall in Hr; [|apply runs_are_runs].
Qed.

(** ** The blocks of a request *)

Section confined.
Context (mtk : list Z → Z → list Z) (c : plan_config).

(** Block [b] of the kernel belongs to a block of [l], a list of group [g]. *)
Definition in_group (g : nat) (b : Z) (l : list Z) : Prop :=
  if default false (is_mamba_group c !! g) then b ∈ l ∧ b ≠ NULL_BLOCK_ID c else b / physical_blocks c ∈ l.

(** Kernel block [k] of a list of blocks lies in block [k / n] of it. *)
Hypothesis mtk_block : ∀ l n b, 0 < n → b ∈ mtk l n → b / n ∈ l.
Hypothesis physical_pos : 0 < physical_blocks c.

Lemma elem_of_keep_real mamba l b :
  b ∈ keep_real c mamba l → b ∈ l ∧ (mamba = true → b ≠ NULL_BLOCK_ID c).
Proof. destruct mamba; simpl; [rewrite list_elem_of_filter; naive_solver|done]. Qed.

Lemma match_blocks_lookup i pairs m g l l' :
  match_blocks c i pairs = Ok (Matched m) → m !! g = Some (l, l') →
  ∃ mamba local remote, is_mamba_group c !! (i + g)%nat = Some mamba ∧ pairs !! g = Some (local, remote) ∧
    l = last_blocks (length l') (keep_real c mamba local) ∧ l' = keep_real c mamba remote ∧ length l = length l'.
Proof.
  revert i m g. induction pairs as [|[local remote] pairs IH]; intros i m g H Hg; simpl in H.
  { apply Ok_inj in H as [= <-]. done. }
  inv_ok. match goal with H : group_is_mamba _ _ = Ok ?m |- _ => apply of_option_Ok in H; rename H into Hm, m into mamba end.
  destruct (_ <? _)%nat eqn:E; inv_ok; [done|]. apply Nat.ltb_ge in E.
  match goal with H : match ?r with _ => _ end = _ |- _ => destruct r as [m0|]; [injection H as <-|done] end.
  destruct g as [|g]; simpl in Hg.
  - injection Hg as <- <-. exists mamba, local, remote. rewrite Nat.add_0_r. split_and!; try done.
    unfold last_blocks. rewrite length_drop. lia.
  - rewrite Nat.add_succ_r, <- Nat.add_succ_l. by eapply IH.
Qed.

Lemma to_kernel_group (g : nat) (l l0 : list (list Z)) (b : Z) (mamba : bool) :
  is_mamba_group c !! g = Some mamba → logical_to_kernel_block_ids mtk c l0 = Ok l →
  ∀ k, l !! g = Some k → b ∈ k → ∃ k0, l0 !! g = Some k0 ∧ (if mamba then b ∈ k0 else b / physical_blocks c ∈ k0).
Proof.
  intros Hm H k Hk Hb. unfold logical_to_kernel_block_ids in H. destruct (_ =? 1) eqn:E1; inv_ok.
  - apply Z.eqb_eq in E1. exists k. rewrite E1, Z.div_1_r. by destruct mamba.
  - apply rmap_Ok in H. destruct (Forall2_lookup_r _ _ _ _ _ H Hk) as ([g' k0] & Hin & Hto).
    rewrite list_lookup_imap in Hin. destruct (l0 !! g) as [k1|] eqn:E; [|done].
    simpl in Hin. injection Hin as <- <-. exists k1. split; [done|].
    unfold to_kernel, group_is_mamba in Hto. simpl in Hto. rewrite Hm in Hto. simpl in Hto. inv_ok.
    destruct mamba; [done|]. by apply mtk_block.
Qed.

(** A byte moved from [s] to [d] between group [g] of the blocks [locals] and
    [remotes] of a request, inside a block of each side. *)
Definition byte_of_blocks (x y : TransferRegion) (locals remotes : list (list Z)) (s d : Z) : Prop :=
  ∃ local remote b b',
    locals !! Z.to_nat (group_index x) = Some local ∧ remotes !! Z.to_nat (group_index x) = Some remote ∧
    in_group (Z.to_nat (group_index x)) b local ∧ in_group (Z.to_nat (group_index x)) b' remote ∧
    base_addr x + b * block_len x ≤ s < base_addr x + b * block_len x + kv_block_len x ∧
    base_addr y + b' * block_len y ≤ d < base_addr y + b' * block_len y + kv_block_len y.

Definition region_pair_ok (e : TransferRegion * TransferRegion) : Prop :=
  0 ≤ kv_block_len e.1 ∧ 0 ≤ kv_block_len e.2 ∧ 0 ≤ group_index e.1.

Lemma kept_in_group (g : nat) (mamba : bool) (local k0 : list Z) (b : Z) :
  is_mamba_group c !! g = Some mamba → (∀ z, z ∈ k0 → z ∈ keep_real c mamba local) →
  (if mamba then b ∈ k0 else b / physical_blocks c ∈ k0) → in_group g b local.
Proof.
  intros Hm Hk Hb. unfold in_group. rewrite Hm. destruct mamba; simpl; [|by apply Hk].
  apply Hk, elem_of_keep_real in Hb as [??]. auto.
Qed.

(** A kernel block of a matched list is in the request's own list. *)
Lemma kernel_block_in_group i m g locals remotes kls krs k k' b b' pairs :
  i = 0%nat → pairs = zip locals remotes →
  match_blocks c i pairs = Ok (Matched m) →
  logical_to_kernel_block_ids mtk c m.*1 = Ok kls → logical_to_kernel_block_ids mtk c m.*2 = Ok krs →
  kls !! g = Some k → krs !! g = Some k' → b ∈ k → b' ∈ k' →
  ∃ local remote, locals !! g = Some local ∧ remotes !! g = Some remote ∧ in_group g b local ∧ in_group g b' remote.
Proof using mtk_block physical_pos.
  intros -> -> Hm Hl Hr Hk Hk' Hb Hb'.
  assert (∃ mamba, is_mamba_group c !! g = Some mamba) as [mamba Hmamba].
  { assert (Hlen : length kls = length m).
    { unfold logical_to_kernel_block_ids in Hl. destruct (_ =? 1); [by apply Ok_inj in Hl as <-; rewrite length_fmap|].
      apply rmap_length in Hl. by rewrite Hl, length_imap, length_fmap. }
    apply lookup_lt_Some in Hk. destruct (lookup_lt_is_Some_2 m g) as [[l l'] E]; [lia|].
    eapply match_blocks_lookup in E as (mamba & _ & _ & E & _); [|done]. by exists mamba. }
  destruct (to_kernel_group g _ _ b _ Hmamba Hl _ Hk Hb) as (k0 & Hk0 & Hin).
  destruct (to_kernel_group g _ _ b' _ Hmamba Hr _ Hk' Hb') as (k0' & Hk0' & Hin').
  rewrite list_lookup_fmap in Hk0, Hk0'. destruct (m !! g) as [[l l']|] eqn:E; [|done].
  injection Hk0 as <-. injection Hk0' as <-.
  eapply match_blocks_lookup in E as (mamba' & local & remote & E & Hz & -> & -> & _); [|done].
  simpl in E. rewrite Hmamba in E. injection E as <-. apply lookup_zip_Some in Hz as [Hz1 Hz2].
  exists local, remote. split_and!; [done..| |].
  - eapply kept_in_group; [done| |exact Hin]. intros z. apply subseteq_drop.
  - by eapply kept_in_group.
Qed.

Lemma region_copies_confined i m rr rs x y locals remotes kls krs cs s d :
  i = 0%nat → region_pair_ok (x, y) →
  match_blocks c i (zip locals remotes) = Ok (Matched m) →
  logical_to_kernel_block_ids mtk c m.*1 = Ok kls → logical_to_kernel_block_ids mtk c m.*2 = Ok krs →
  region_copies c rr rs kls krs (x, y) = Ok cs → (s, d) ∈ cs ≫= copy_bytes →
  byte_of_blocks x y locals remotes s d.
Proof using mtk_block physical_pos.
  intros Hi (Hx & Hy & Hg) Hm Hl Hr H Hin.
  apply region_copies_plan in H as (l & l' & Hk & Hk' & [[_ ->]|(should & so & dof & n & Hp & Hcs)]); [by apply elem_of_nil in Hin|].
  destruct Hcs as [[_ ->]|(-> & Hso & Hdo & Hcs)]; [by apply elem_of_nil in Hin|].
  rewrite Hcs in Hin. apply list_elem_of_bind in Hin as ([b b'] & Hin & Hb). simpl in Hin.
  apply elem_of_copy_bytes in Hin as (o & Ho & -> & ->). simpl in *.
  rewrite py_index_nonneg in Hk, Hk' by done. apply of_option_Ok in Hk, Hk'.
  destruct (plan_offsets _ _ _ _ _ _ _ _ _ _ _ Hp Hx Hy).
  destruct (kernel_block_in_group i m (Z.to_nat (group_index x)) locals remotes kls krs l l' b b' _ Hi eq_refl Hm Hl Hr Hk Hk')
    as (local & remote & ? & ? & ? & ?); [by eapply elem_of_zip_l|by eapply elem_of_zip_r|].
  exists local, remote, b, b'. split_and!; try done; lia.
Qed.
End confined.

(** ** All ready requests *)

Section requests.
Context (mtk : list Z → Z → list Z) (c : plan_config) (meta : MooncakeXferMetadata).

(** What one request adds: nothing, or the copies of every pair of regions. *)
Lemma request_params_copies regions acc id locals acc' :
  request_params mtk c meta regions acc (id, locals) = Ok acc' →
  ∃ blocks, dget (req_blocks meta) id = Some blocks ∧
  (copies acc' = copies acc ∨
   ∃ m kls krs cs, match_blocks c 0 (zip locals blocks.2) = Ok (Matched m) ∧
     logical_to_kernel_block_ids mtk c m.*1 = Ok kls ∧ logical_to_kernel_block_ids mtk c m.*2 = Ok krs ∧
     rmap (region_copies c (remote_tp_rank meta) (remote_tp_size meta) kls krs) regions = Ok cs ∧
     copies acc' = copies acc ++ concat cs).
Proof.
  unfold request_params. intros H. inv_ok.
  match goal with H : of_option _ _ = Ok ?b |- _ => exists b; apply of_option_Ok in H; split; [exact H|] end.
  destruct (forallb _ _); inv_ok; [by left|]. destruct (negb _); inv_ok; [by left|].
  match goal with H : match ?r with _ => _ end = _ |- _ => destruct r as [m|]; [|by inv_ok; left] end.
  destruct (forallb _ _); inv_ok; [by left|]. right. eauto 10.
Qed.

(** A byte moved for one of the requests. *)
Definition byte_of_requests (ready : list (string * list (list Z))) (regions : list (TransferRegion * TransferRegion))
    (s d : Z) : Prop :=
  ∃ id locals name remotes x y,
    (id, locals) ∈ ready ∧ dget (req_blocks meta) id = Some (name, remotes) ∧ (x, y) ∈ regions ∧
    byte_of_blocks c x y locals remotes s d.

Lemma request_params_confined ready regions acc e acc' :
  (∀ l n b, 0 < n → b ∈ mtk l n → b / n ∈ l) → 0 < physical_blocks c → Forall region_pair_ok regions → e ∈ ready →
  (∀ s d, (s, d) ∈ copies acc ≫= copy_bytes → byte_of_requests ready regions s d) →
  request_params mtk c meta regions acc e = Ok acc' →
  ∀ s d, (s, d) ∈ copies acc' ≫= copy_bytes → byte_of_requests ready regions s d.
Proof.
  intros Hmtk Hphys Hreg He IH Hstep s d Hin. destruct e as [id locals].
  apply request_params_copies in Hstep as ([name remotes] & Hb & [Hc|(m & kls & krs & cs & Hm & Hl & Hr & Hcs & Hc)]);
    rewrite Hc in Hin; [by apply IH|].
  rewrite bind_app in Hin. apply elem_of_app in Hin as [Hin|Hin]; [by apply IH|].
  rewrite bind_concat in Hin. apply list_elem_of_bind in Hin as (cp & Hin & Hcp).
  apply rmap_Ok in Hcs. apply list_elem_of_lookup in Hcp as [j Hj].
  destruct (Forall2_lookup_r _ _ _ _ _ Hcs Hj) as ([x y] & Hxy & Hcopy). apply list_elem_of_lookup_2 in Hxy.
  exists id, locals, name, remotes, x, y. split_and!; [done..|].
  eapply (region_copies_confined mtk c Hmtk Hphys 0); try done. by eapply Forall_forall in Hreg.
Qed.

End requests.

(** ** Submission *)

Definition total_bytes (l : list copy) : Z := sumZ (len <$> l).

(** A batch the engine accepts: not empty, at most the number of
    descriptors, and at most the number of bytes unless it is one copy. *)
Definition batch_ok (b : list copy) : Prop :=
  (0 < length b)%nat ∧ zlen b ≤ RAW_TRANSFER_MAX_DESCRIPTORS ∧
  (total_bytes b ≤ RAW_TRANSFER_MAX_BYTES ∨ length b = 1%nat).

Lemma batch_end_spec n bytes l k :
  batch_end n bytes l = Ok k →
  (n ≤ k ≤ n + length l)%nat ∧ (n = 0%nat → l ≠ [] → 0 < k)%nat ∧
  (Z.of_nat n ≤ RAW_TRANSFER_MAX_DESCRIPTORS → Z.of_nat k ≤ RAW_TRANSFER_MAX_DESCRIPTORS) ∧
  (bytes + total_bytes (take (k - n) l) ≤ RAW_TRANSFER_MAX_BYTES ∨ k = n ∨ (n = 0 ∧ k = 1)%nat).
Proof.
  revert n bytes. induction l as [|x l IH]; intros n bytes H; simpl in H.
  { apply Ok_inj in H as <-. split_and!; simpl; try lia; naive_solver. }
  inv_ok. destruct (_ || _) eqn:E; inv_ok.
  - split_and!; [lia|simpl; lia| |done|auto].
    intros -> _. apply orb_true_iff in E as [E|E]; [|by simpl in E]. apply Z.leb_le in E. done.
  - match goal with HE : batch_end _ _ _ = _ |- _ => apply IH in HE as (Hk & Hz & Hd & Hb) end. apply orb_false_iff in E as [E1 E2].
    apply Z.leb_gt in E1. split_and!; [lia|simpl; lia|lia|lia|]. clear IH.
    replace (k - n)%nat with (S (k - S n)) by lia. cbn [take]. unfold total_bytes in *. csimpl.
    apply andb_false_iff in E2. rewrite Z.ltb_ge, Nat.ltb_ge in E2.
    destruct Hb as [Hb|[->|[? ->]]]; [left; lia| |lia].
    rewrite Nat.sub_diag. csimpl. destruct E2 as [?|?]; [right; right; lia|left; lia].
Qed.

Lemma batch_end_ok l k : l ≠ [] → batch_end 0 0 l = Ok k → (k ≤ length l)%nat ∧ batch_ok (take k l).
Proof.
  intros Hl H. apply batch_end_spec in H as (Hk & Hz & Hd & Hb). specialize (Hz eq_refl Hl).
  assert (length (take k l) = k) as Hlen by (rewrite length_take; lia).
  split; [lia|]. unfold batch_ok, zlen. rewrite Hlen. rewrite Nat.sub_0_r in Hb.
  assert (Z.of_nat 0 ≤ RAW_TRANSFER_MAX_DESCRIPTORS) by done.
  split_and!; [lia|auto|]. destruct Hb as [Hb|[->|[_ ->]]]; [by left|lia|by right].
Qed.

Lemma batch_end_err n bytes l e : batch_end n bytes l = Err e → ∃ x, x ∈ l ∧ len x < 0.
Proof.
  revert n bytes. induction l as [|x l IH]; intros n bytes H; simpl in H; [done|].
  destruct (len x <? 0) eqn:E; [exists x; split; [left|by apply Z.ltb_lt]|]. simpl in H.
  destruct (_ || _); [done|]. apply IH in H as (y & ? & ?). exists y. split; [by right|done].
Qed.

(** The engine answered 0 to the calls [i] to [j - 1]. *)
Definition accepted (write : nat → Z) (i j : nat) : Prop := ∀ k, (i ≤ k < j)%nat → write k = 0.

(** What [n] batches of which the first [i] were accepted ended with: all
    copies went, the last call failed, or a length was negative. *)
Definition send_outcome (write : nat → Z) (i n : nat) (rest : list copy) (r : result Z) : Prop :=
  match r with
  | Ok z => (z = 0 ∧ rest = [] ∧ accepted write i n) ∨
            (z ≠ 0 ∧ ∃ k, n = S k ∧ write k = z ∧ accepted write i k)
  | Err _ => accepted write i n ∧ ∃ x, x ∈ rest ∧ len x < 0
  end.

Lemma accepted_extend write i j : write i = 0 → accepted write (S i) j → accepted write i j.
Proof. intros H Ha k Hk. destruct (decide (k = i)) as [->|]; [done|apply Ha; lia]. Qed.

Lemma send_outcome_extend write i n rest r :
  write i = 0 → send_outcome write (S i) n rest r → send_outcome write i n rest r.
Proof.
  intros H. destruct r as [z|e]; simpl; [intros [(-> & -> & Ha)|(Hz & k & -> & Hk & Ha)]|intros (Ha & Hx)].
  - left. eauto using accepted_extend.
  - right. split; [done|]. exists k. eauto using accepted_extend.
  - eauto using accepted_extend.
Qed.

Lemma send_loop_ok write fuel don l done' r :
  (length l ≤ fuel)%nat → Forall batch_ok don → send_loop write fuel don l = (done', r) →
  Forall batch_ok done' ∧
  ∃ rest, concat don ++ l = concat done' ++ rest ∧ send_outcome write (length don) (length done') rest r.
Proof.
  revert don l. induction fuel as [|fuel IH]; intros don l Hl Hd H.
  - destruct l; [|simpl in Hl; lia]. injection H as <- <-. split; [done|]. exists []. split; [done|].
    left. split_and!; [done..|]. intros k Hk. lia.
  - destruct (decide (l = [])) as [->|Hne].
    { injection H as <- <-. split; [done|]. exists []. split; [done|]. left. split_and!; [done..|]. intros k Hk. lia. }
    assert (send_loop write (S fuel) don l =
      match batch_end 0 0 l with
      | Err e => (don, Err e)
      | Ok n => if negb (write (length don) =? 0) then (don ++ [take n l], Ok (write (length don)))
                else send_loop write fuel (don ++ [take n l]) (drop n l)
      end) as E by (by destruct l). rewrite E in H. clear E.
    destruct (batch_end 0 0 l) as [n|e] eqn:En.
    + apply batch_end_ok in En as [Hn Hb]; [|done].
      assert (Hd' : Forall batch_ok (don ++ [take n l])) by (apply Forall_app; auto).
      assert (Hlen : length (don ++ [take n l]) = S (length don)) by (rewrite length_app; simpl; lia).
      assert (Hcat : concat don ++ l = concat (don ++ [take n l]) ++ drop n l).
      { rewrite concat_app. simpl. by rewrite app_nil_r, <- app_assoc, take_drop. }
      destruct (write (length don) =? 0) eqn:Ew; cbn [negb] in H.
      * apply Z.eqb_eq in Ew. apply IH in H as (? & rest & Hr & Ho); [| |done].
        -- split; [done|]. exists rest. rewrite Hcat. split; [done|]. rewrite Hlen in Ho. by apply send_outcome_extend.
        -- destruct Hb as [Hb _]. rewrite length_take in Hb. rewrite length_drop. lia.
      * apply Z.eqb_neq in Ew. injection H as <- <-. split; [done|]. exists (drop n l). split; [done|].
        right. split; [done|]. exists (length don). split_and!; [done..|]. intros k Hk. lia.
    + injection H as <- <-. split; [done|]. exists l. split; [done|]. split; [intros k Hk; lia|]. by eapply batch_end_err.
Qed.

(** ** Properties *)

(** Coalescing does not change the transfer: the copies planned for a pair
    of regions move the same bytes, in the same order, as one copy for each
    block of the group with the offsets and the length of the sender's plan. *)
Theorem coalescing_exact c rr rs locals remotes x y cs l l' should so dof n :
  region_copies c rr rs locals remotes (x, y) = Ok cs →
  py_index locals (group_index x) = Ok l → py_index remotes (group_index x) = Ok l' →
  compute_sender_transfer_plan (p_tp_rank c) (p_tp_size c) rr rs (kv_block_len x) (kv_block_len y)
    (cache_replicated c) None = Ok (should, so, dof, n) →
  cs ≫= copy_bytes = (if should : bool then zip l l' else []) ≫= (copy_bytes ∘ block_copy x y so dof n).
Proof.
  intros H Hl Hl' Hp. apply region_copies_plan in H as (k & k' & Hk & Hk' & H).
  rewrite Hl in Hk. injection Hk as <-. rewrite Hl' in Hk'. injection Hk' as <-.
  destruct H as [[-> ->]|(should' & so' & dof' & n' & Hp' & H)]; [by destruct should|].
  rewrite Hp in Hp'. injection Hp' as <- <- <- <-.
  by destruct H as [[-> ->]|(-> & _ & _ & H)].
Qed.

(** Two layers of 128-byte blocks, one of full attention and one of Mamba
    states, on one rank of each side. *)
Definition ex_plan_config : plan_config := mkPlanConfig [false; true] 0 2 0 1 false.
Definition ex_attn (base : Z) : TransferRegion := mkRegion "model.layers.0.attn" 0 base 128 128 0.
Definition ex_ssm (base : Z) : TransferRegion := mkRegion "model.layers.1.ssm" 1 base 128 128 1.
Definition ex_kernel (l : list Z) (n : Z) : list Z := l ≫= λ b, (λ i, b * n + i) <$> seqZ 0 n.

Lemma coalescing_exact_witness :
  ∃ cs, region_copies ex_plan_config 0 1 [[4; 5; 8]; [3]] [[10; 11; 12]; [9]] (ex_attn 4096, ex_attn 65536) = Ok cs ∧
    length cs = 2%nat ∧
    cs ≫= copy_bytes = zip [4; 5; 8] [10; 11; 12] ≫= (copy_bytes ∘ block_copy (ex_attn 4096) (ex_attn 65536) 0 0 128).
Proof.
  eexists. split; [reflexivity|]. split; [reflexivity|].
  by apply (coalescing_exact ex_plan_config 0 1 [[4; 5; 8]; [3]] [[10; 11; 12]; [9]] (ex_attn 4096) (ex_attn 65536)
           _ [4; 5; 8] [10; 11; 12] true 0 0 128).
Defined.

(** The raw transfer stays inside the requests: every byte that is moved
    is read inside a block the engine holds for a ready request and written
    inside a block of the same KV group that the decoder announced for that
    request; null Mamba blocks are neither read nor written. *)
Theorem raw_copies_confined mtk c meta ready lr rr p s d :
  (∀ l n b, 0 < n → b ∈ mtk l n → b / n ∈ l) → 0 < physical_blocks c →
  Forall region_pair_ok (zip lr rr) →
  build_transfer_params mtk c ready meta lr rr = Ok p → (s, d) ∈ copies p ≫= copy_bytes →
  byte_of_requests c meta ready (zip lr rr) s d.
Proof.
  intros Hmtk Hphys Hreg H. revert s d.
  eapply (rfold_seen (λ _ acc, ∀ s d, (s, d) ∈ copies acc ≫= copy_bytes → byte_of_requests c meta ready (zip lr rr) s d));
    [| |exact H]; [|by intros s d Hin%elem_of_nil].
  intros pre e acc acc' [post ->] IH Hstep. eapply request_params_confined; eauto. set_solver.
Qed.

Definition ex_meta : MooncakeXferMetadata :=
  mkXfer "decoder" 9000 1 0 [("r1", ("t1", [[5; 6]; [0; 9]]))] [65536; 131072] [128; 128] [128; 128]
    ["model.layers.0.attn"; "model.layers.1.ssm"] [0; 1] [0; 1] 1.

Lemma raw_copies_confined_witness :
  ∃ p, build_transfer_params ex_kernel ex_plan_config [("r1", [[1; 2; 3]; [0; 0; 4]])] ex_meta
         [ex_attn 4096; ex_ssm 8192] [ex_attn 65536; ex_ssm 131072] = Ok p ∧
    length (copies p) = 2%nat ∧
    byte_of_requests ex_plan_config ex_meta [("r1", [[1; 2; 3]; [0; 0; 4]])]
      (zip [ex_attn 4096; ex_ssm 8192] [ex_attn 65536; ex_ssm 131072]) (8192 + 4 * 128 + 7) (131072 + 9 * 128 + 7).
Proof.
  eexists. split; [reflexivity|]. split; [reflexivity|].
  eapply (raw_copies_confined ex_kernel); [|done| |reflexivity|].
  - intros l n b Hn (a & Hin & Ha)%list_elem_of_bind. apply list_elem_of_fmap in Hin as (i & -> & Hi%elem_of_seqZ).
    replace ((a * n + i) / n) with a; [done|]. rewrite Z.div_add_l, Z.div_small by lia. lia.
  - repeat constructor; done.
  - apply list_elem_of_bind. eexists. split; [|right; left].
    apply elem_of_copy_bytes. exists 7. done.
Defined.

(** Submission is complete and within limits: the batches given to the
    engine are non-empty, hold at most 1024 copies and at most 64 MiB unless
    they are one copy, and are the copies from the first on, in order; the
    call returns 0 only when every batch was accepted and nothing is left,
    another answer only right after the batch that got it, and raises only
    for a negative length. *)
Theorem send_blocks_ok write l :
  let (batches, r) := send_blocks write l in
  Forall batch_ok batches ∧
  ∃ rest, l = concat batches ++ rest ∧ send_outcome write 0 (length batches) rest r.
Proof.
  destruct (send_blocks write l) as [batches r] eqn:E. by apply send_loop_ok in E.
Qed.
