(* ===== verification/P2PSched.v ===== *)
(** * The scheduler side of the P2P connector

    [mooncake_connector.py]: the metadata passed to the workers
    ([PullReqMeta], [MooncakeConnectorMetadata] and what the session helper
    gets of it) and [MooncakeConnectorScheduler]. The request objects belong
    to the engine and are shared with the connector, which keeps references
    to them and changes them: they live in a heap. What vLLM provides
    ([cdiv] and [select_transfer_block_ids]) is a parameter. *)

From S2P Require Import Prelude Messages.

(** ** Requests *)

(** [kv_transfer_params] of a request, a dict; the flags stand for the
    truthiness of [params.get(...)]. *)
Record params := mkKVParams {
  do_remote_prefill : bool;
  do_remote_decode : bool;
  transfer_id : option string;
  remote_engine_id : option string;
  remote_bootstrap_addr : option string;
  p_side_truncated : bool
}.

Definition clear_remote_prefill (p : params) : params :=
  mkKVParams false (do_remote_decode p) (transfer_id p) (remote_engine_id p) (remote_bootstrap_addr p)
    (p_side_truncated p).

Definition set_truncated (p : params) : params :=
  mkKVParams (do_remote_prefill p) (do_remote_decode p) (transfer_id p) (remote_engine_id p)
    (remote_bootstrap_addr p) true.

(** What the connector uses of vLLM's [Request]; [status_length_capped] is
    [request.status == RequestStatus.FINISHED_LENGTH_CAPPED]. *)
Record Request := mkRequest {
  request_id : string;
  status_length_capped : bool;
  prompt_token_ids : option (list Z);
  prompt_embeds : option (list Z);
  all_token_ids : list Z;
  num_prompt_tokens : Z;
  max_tokens : Z;
  num_computed_tokens : Z;
  num_in_flight_tokens : Z;
  kv_transfer_params : option params
}.

Definition set_kv_transfer_params (f : params → params) (q : Request) : Request :=
  mkRequest (request_id q) (status_length_capped q) (prompt_token_ids q) (prompt_embeds q)
    (all_token_ids q) (num_prompt_tokens q) (max_tokens q) (num_computed_tokens q)
    (num_in_flight_tokens q) (f <$> kv_transfer_params q).

(** ** The metadata of a step *)

Record PullReqMeta := mkPullMeta {
  pm_d_req_id : string;
  pm_transfer_id : string;
  pm_local_block_ids : list (list Z);
  pm_remote_engine_id : string;
  pm_remote_bootstrap_addr : string;
  pm_num_tokens : option Z
}.

Record MooncakeConnectorMetadata := mkMeta {
  reqs_to_recv : list (string * list (string * PullReqMeta));
  reqs_to_send : list (string * (string * list (list Z)));
  meta_not_processed : gset string;
  meta_num_tokens : list (string * option Z)
}.

Definition empty_meta : MooncakeConnectorMetadata := mkMeta [] [] ∅ [].

Definition add_new_req (request_id : string) (local_block_ids : list (list Z)) (p : params)
    (load_remote_cache : bool) (num_tokens : option Z) (m : MooncakeConnectorMetadata) :
    result MooncakeConnectorMetadata :=
  let? tid := of_option KeyError (transfer_id p) in
  let tokens := dset (meta_num_tokens m) request_id num_tokens in
  if load_remote_cache then
    let? engine := of_option KeyError (remote_engine_id p) in
    let? addr := of_option KeyError (remote_bootstrap_addr p) in
    let pulls := default [] (dget (reqs_to_recv m) engine) in
    let pull := mkPullMeta request_id tid local_block_ids engine addr num_tokens in
    Ok (mkMeta (dset (reqs_to_recv m) engine (dset pulls request_id pull)) (reqs_to_send m)
          (meta_not_processed m) tokens)
  else Ok (mkMeta (reqs_to_recv m) (dset (reqs_to_send m) request_id (tid, local_block_ids))
             (meta_not_processed m) tokens).

Definition set_not_processed (x : gset string) (m : MooncakeConnectorMetadata) : MooncakeConnectorMetadata :=
  mkMeta (reqs_to_recv m) (reqs_to_send m) x (meta_num_tokens m).

(** The part for the session helper of a producer. *)
Definition add_announcement (m : MooncakeConnectorMetadata) (acc : ProducerMetadata)
    (e : string * (string * list (list Z))) : ProducerMetadata :=
  let '(p_req_id, (tid, block_ids)) := e in
  match block_ids with
  | [] => mkProducerMetadata (announced acc) (published acc ++ [mkPublish p_req_id tid]) (dropped acc)
  | _ => mkProducerMetadata
           (announced acc ++ [mkAnnounce p_req_id tid block_ids (default None (dget (meta_num_tokens m) p_req_id))])
           (published acc) (dropped acc)
  end.

Definition producer_session_metadata (m : MooncakeConnectorMetadata) : ProducerMetadata :=
  foldl (add_announcement m) (mkProducerMetadata [] [] (elements (meta_not_processed m))) (reqs_to_send m).

(** The part for the session helper of a consumer. *)
Definition consumer_request (p : PullReqMeta) : ConsumerRequest :=
  mkConsumerRequest (pm_d_req_id p) (pm_transfer_id p) (pm_local_block_ids p) (pm_num_tokens p)
    (pm_remote_engine_id p) (pm_remote_bootstrap_addr p).

Definition consumer_session_metadata (m : MooncakeConnectorMetadata) : list ConsumerRequest :=
  reqs_to_recv m ≫= λ e, (λ p : string * PullReqMeta, consumer_request p.2) <$> e.2.

(** ** The state of the scheduler *)

(** The dicts map a request id to the request object (an index into the heap)
    and its blocks. *)
Record sched := mkSched {
  heap : gmap nat Request;
  reqs_need_recv : list (string * (nat * list (list Z)));
  reqs_need_send : list (string * (nat * list (list Z)));
  reqs_send_num_tokens : list (string * Z);
  reqs_not_processed : gset string
}.

Definition set_heap (f : gmap nat Request → gmap nat Request) (s : sched) : sched :=
  mkSched (f (heap s)) (reqs_need_recv s) (reqs_need_send s) (reqs_send_num_tokens s) (reqs_not_processed s).
Definition set_need_recv (f : list (string * (nat * list (list Z))) → list (string * (nat * list (list Z)))) (s : sched) : sched :=
  mkSched (heap s) (f (reqs_need_recv s)) (reqs_need_send s) (reqs_send_num_tokens s) (reqs_not_processed s).
Definition set_need_send (f : list (string * (nat * list (list Z))) → list (string * (nat * list (list Z)))) (s : sched) : sched :=
  mkSched (heap s) (reqs_need_recv s) (f (reqs_need_send s)) (reqs_send_num_tokens s) (reqs_not_processed s).
Definition set_send_num_tokens (f : list (string * Z) → list (string * Z)) (s : sched) : sched :=
  mkSched (heap s) (reqs_need_recv s) (reqs_need_send s) (f (reqs_send_num_tokens s)) (reqs_not_processed s).
Definition set_reqs_not_processed (f : gset string → gset string) (s : sched) : sched :=
  mkSched (heap s) (reqs_need_recv s) (reqs_need_send s) (reqs_send_num_tokens s) (f (reqs_not_processed s)).

Definition init_sched : sched := mkSched ∅ [] [] [] ∅.

(** ** Configuration *)

Inductive group_kind :=
  | FullAttention
  | SlidingWindow (sliding_window block_size : Z)
  | OtherSpec.

Definition is_full (g : group_kind) : bool := match g with FullAttention => true | _ => false end.

Record sched_config := mkSchedConfig {
  is_kv_producer : bool;
  is_kv_consumer : bool;
  block_size : Z;
  disable_hybrid_kv_cache_manager : bool;
  has_mamba : bool;
  transfer_groups : list group_kind
}.

Section sched.
Context `{CD : !CeilDiv} (select_transfer_block_ids : list (list Z) → list (list Z)).
Context (c : sched_config).

Definition is_hma_required : bool :=
  negb (disable_hybrid_kv_cache_manager c) && existsb (λ g, negb (is_full g)) (transfer_groups c).

Definition sw_size (g : group_kind) : Z * Z :=
  match g with SlidingWindow w b => (w, b) | _ => (0, block_size c) end.

Definition blocks_per_sw : list Z :=
  (λ e : Z * Z, if e.1 =? 0 then 0 else cdiv e.1 e.2 + 1) <$> (sw_size <$> transfer_groups c).

(** [blocks[-n:]] for a positive [n] *)
Definition py_last (n : Z) (l : list Z) : list Z := drop (length l - Z.to_nat n) l.

Definition clip_group (i : nat) (l : list Z) : result (list Z) :=
  let? n := of_option IndexError (blocks_per_sw !! i) in
  Ok (if 0 <? n then py_last n l else l).

Definition get_sw_clipped_blocks (block_ids : list (list Z)) : result (list (list Z)) :=
  match block_ids with
  | [] => Ok []
  | _ =>
      let selected := if (length block_ids =? length (transfer_groups c))%nat then block_ids
                      else select_transfer_block_ids block_ids in
      if (length selected =? 0)%nat || negb is_hma_required then Ok selected
      else rmap (λ e : nat * list Z, clip_group e.1 e.2) (imap pair selected)
  end.

(** ** Token counts *)

Definition get_remote_prefill_token_count (n : Z) : Z := if has_mamba c && (1 <? n) then n - 1 else n.

(** [l.pop()] *)
Definition pop_last {A} (l : list A) : result (list A) :=
  match l with [] => Err IndexError | _ => Ok (take (length l - 1) l) end.

(** The request with the last token of its prompt removed, or unchanged when
    it has neither token ids nor embeddings. *)
Definition drop_prompt_token (q : Request) : result (option (option (list Z) * option (list Z))) :=
  match prompt_token_ids q, prompt_embeds q with
  | Some l, e => let? l := pop_last l in Ok (Some (Some l, e))
  | None, Some e => Ok (Some (None, Some (take (length e - 1) e)))
  | None, None => Ok None
  end.

Definition truncate_mamba_request_for_prefill (q : Request) : result Request :=
  match kv_transfer_params q with
  | None => Ok q
  | Some p =>
      if negb (p_side_truncated p) && (1 <? num_prompt_tokens q) then
        let? d := drop_prompt_token q in
        match d with
        | None => Ok q
        | Some (ids, embeds) =>
            let? all := pop_last (all_token_ids q) in
            Ok (mkRequest (request_id q) (status_length_capped q) ids embeds all (num_prompt_tokens q - 1) 1
                  (num_computed_tokens q) (num_in_flight_tokens q) (Some (set_truncated p)))
        end
      else Ok q
  end.

Definition on_new_request (q : Request) : result Request :=
  match kv_transfer_params q with
  | None => Ok q
  | Some p => if do_remote_decode p && has_mamba c then truncate_mamba_request_for_prefill q else Ok q
  end.

Definition get_num_new_matched_tokens (q : Request) (num_computed : Z) : result (Z * bool) :=
  match kv_transfer_params q with
  | None => Ok (0, false)
  | Some p =>
      if do_remote_prefill p then
        let? _ := assert_ (negb (is_kv_producer c)) in
        let count := get_remote_prefill_token_count (zlen (default [] (prompt_token_ids q))) - num_computed in
        Ok (if 0 <? count then (count, true) else (0, false))
      else Ok (0, false)
  end.

(** ** The handlers that change the state

    [r] refers to the request object [q]. *)

Definition is_some {A} (o : option A) : bool := match o with Some _ => true | None => false end.

Definition truthy_str (o : option string) : bool := match o with Some x => negb (bool_decide (x = ""%string)) | None => false end.

Definition update_state_after_alloc (r : nat) (q : Request) (unhashed : list (list Z)) (num_external_tokens : Z)
    (s : sched) : result sched :=
  match kv_transfer_params q with
  | None => Ok s
  | Some p =>
      if do_remote_prefill p then
        let? _ := assert_ (negb (is_kv_producer c)) in
        let? s :=
          if is_some (remote_engine_id p) && is_some (remote_bootstrap_addr p) && is_some (transfer_id p) then
            let? local := get_sw_clipped_blocks (if 0 <? num_external_tokens then unhashed else []) in
            Ok (set_need_recv (λ d, dset d (request_id q) (r, local)) s)
          else Ok s in
        Ok (set_heap (<[r := set_kv_transfer_params clear_remote_prefill q]>) s)
      else if do_remote_decode p then
        let? _ := assert_ (negb (is_kv_consumer c)) in
        if negb (truthy_str (transfer_id p)) then Ok s
        else Ok (set_need_send (λ d, dset d (request_id q) (r, [])) s)
      else Ok s
  end.

(** What the loops of [build_connector_meta] add for one entry: the request
    is looked up through its reference, as it is now. *)
Definition add_recv (s : sched) (m : MooncakeConnectorMetadata) (e : string * (nat * list (list Z))) :
    result MooncakeConnectorMetadata :=
  let '(req_id, (r, block_ids)) := e in
  let? q := of_option AttributeError (heap s !! r) in
  let? p := of_option AssertionError (kv_transfer_params q) in
  add_new_req req_id block_ids p true (Some (get_remote_prefill_token_count (num_prompt_tokens q))) m.

Definition add_send (h : gmap nat Request) (acc : MooncakeConnectorMetadata * list (string * Z))
    (e : string * (nat * list (list Z))) : result (MooncakeConnectorMetadata * list (string * Z)) :=
  let '(req_id, (r, block_ids)) := e in
  let? q := of_option AttributeError (h !! r) in
  let? p := of_option AssertionError (kv_transfer_params q) in
  let? m := add_new_req req_id block_ids p false (dget acc.2 req_id) acc.1 in
  Ok (m, ddel acc.2 req_id).

Definition build_connector_meta (s : sched) : result (sched * MooncakeConnectorMetadata) :=
  let? (s, m) :=
    if negb (is_kv_producer c) then
      let? m := rfold (add_recv s) empty_meta (reqs_need_recv s) in
      Ok (set_need_recv (λ _, []) s, m)
    else Ok (s, empty_meta) in
  if negb (is_kv_consumer c) then
    let? (m, tokens) := rfold (add_send (heap s)) (m, reqs_send_num_tokens s) (reqs_need_send s) in
    Ok (set_reqs_not_processed (λ _, ∅) (set_send_num_tokens (λ _, tokens) (set_need_send (λ _, []) s)),
        set_not_processed (reqs_not_processed s) m)
  else Ok (s, m).

Definition request_finished (r : nat) (q : Request) (block_ids : list (list Z)) (s : sched) : result (bool * sched) :=
  match kv_transfer_params q with
  | None => Ok (false, s)
  | Some p =>
      if negb (truthy_str (transfer_id p)) then Ok (false, s)
      else if do_remote_prefill p then
        let? _ := assert_ (negb (is_kv_producer c)) in
        Ok (false, set_heap (<[r := set_kv_transfer_params clear_remote_prefill q]>)
                     (set_need_recv (λ d, dset d (request_id q) (r, [])) s))
      else if negb (do_remote_decode p) then Ok (false, s)
      else
        let? _ := assert_ (negb (is_kv_consumer c)) in
        if negb (status_length_capped q) then
          Ok (false, set_reqs_not_processed (λ x, x ∪ {[default ""%string (transfer_id p)]}) s)
        else if existsb (λ g : list Z, (0 <? length g)%nat) block_ids then
          let? local := get_sw_clipped_blocks block_ids in
          let tokens := Z.min (num_computed_tokens q - num_in_flight_tokens q) (num_prompt_tokens q) in
          Ok (true, set_need_send (λ d, dset d (request_id q) (r, local))
                      (set_send_num_tokens (λ d, dset d (request_id q) tokens) s))
        else Ok (false, s)
  end.

End sched.
