(* ===== verification/P2PSchedThms.v ===== *)
(** * The scheduler side of the P2P connector: executions and properties

    The calls the engine makes to [MooncakeConnectorScheduler] over the life
    of its requests, and what they amount to: a request is pulled at most
    once, delayed blocks are announced, the two sides agree on the tokens. *)

From S2P Require Import Prelude Messages P2PSched.

(** ** Executions *)

(** What the engine does: it creates a request, allocates blocks for it,
    finishes it, advances it, and asks for the metadata of a step. *)
Inductive event :=
  | New (r : nat) (q : Request)
  | Allocated (r : nat) (unhashed : list (list Z)) (num_external_tokens : Z)
  | Scheduled
  | Finished (r : nat) (block_ids : list (list Z))
  | Progress (r : nat) (length_capped : bool) (computed in_flight : Z).

Inductive output :=
  | Metadata (m : MooncakeConnectorMetadata)
  | DelayFree (r : nat) (delay : bool).

Definition progress (length_capped : bool) (computed in_flight : Z) (q : Request) : Request :=
  mkRequest (request_id q) length_capped (prompt_token_ids q) (prompt_embeds q) (all_token_ids q)
    (num_prompt_tokens q) (max_tokens q) computed in_flight (kv_transfer_params q).

Section run.
Context `{CD : !CeilDiv} (select : list (list Z) → list (list Z)) (c : sched_config).

(** The engine gives each request an object and an id of its own. *)
Definition fresh (r : nat) (q : Request) (s : sched) : Prop :=
  heap s !! r = None ∧ ∀ r' q', heap s !! r' = Some q' → request_id q' ≠ request_id q.

Inductive step : sched → event → sched → list output → Prop :=
  | step_new s r q q' : fresh r q s → on_new_request c q = Ok q' →
      step s (New r q) (set_heap (<[r := q']>) s) []
  | step_allocated s r q unhashed n s' : heap s !! r = Some q →
      update_state_after_alloc select c r q unhashed n s = Ok s' →
      step s (Allocated r unhashed n) s' []
  | step_scheduled s s' m : build_connector_meta c s = Ok (s', m) → step s Scheduled s' [Metadata m]
  | step_finished s r q blocks b s' : heap s !! r = Some q →
      request_finished select c r q blocks s = Ok (b, s') →
      step s (Finished r blocks) s' [DelayFree r b]
  | step_progress s r q cap n k : heap s !! r = Some q →
      step s (Progress r cap n k) (set_heap (<[r := progress cap n k q]>) s) [].

Inductive steps : sched → list event → sched → list output → Prop :=
  | steps_nil s : steps s [] s []
  | steps_snoc s es s1 outs e s2 out : steps s es s1 outs → step s1 e s2 out →
      steps s (es ++ [e]) s2 (outs ++ out).

(** The same executions as a function, to run examples. *)
#[global] Instance fresh_dec r q s : Decision (fresh r q s).
Proof.
  refine (cast_if (decide (heap s !! r = None ∧ map_Forall (λ _ q', request_id q' ≠ request_id q) (heap s)))); done.
Defined.

Definition of_ok {A} (m : result A) : option A := match m with Ok a => Some a | Err _ => None end.

Definition exec (s : sched) (e : event) : option (sched * list output) :=
  match e with
  | New r q =>
      if decide (fresh r q s) then (λ q', (set_heap (<[r := q']>) s, [])) <$> of_ok (on_new_request c q) else None
  | Allocated r unhashed n =>
      q ← heap s !! r; (λ s', (s', [])) <$> of_ok (update_state_after_alloc select c r q unhashed n s)
  | Scheduled => (λ x : sched * MooncakeConnectorMetadata, (x.1, [Metadata x.2])) <$> of_ok (build_connector_meta c s)
  | Finished r blocks =>
      q ← heap s !! r; (λ x : bool * sched, (x.2, [DelayFree r x.1])) <$> of_ok (request_finished select c r q blocks s)
  | Progress r cap n k => q ← heap s !! r; Some (set_heap (<[r := progress cap n k q]>) s, [])
  end.

Fixpoint run (s : sched) (es : list event) : option (sched * list output) :=
  match es with
  | [] => Some (s, [])
  | e :: es => '(s1, out) ← exec s e; '(s2, outs) ← run s1 es; Some (s2, out ++ outs)
  end.

Lemma of_ok_Some {A} (m : result A) a : of_ok m = Some a → m = Ok a.
Proof. destruct m; simpl; congruence. Qed.

Lemma exec_step s e s' out : exec s e = Some (s', out) → step s e s' out.
Proof.
  destruct e as [r q|r unh n| |r blocks|r cap n k]; simpl.
  - case_decide; [|done]. destruct (on_new_request c q) eqn:E; [|done]. intros [= <- <-]. by constructor.
  - destruct (heap s !! r) eqn:Er; [|done]. simpl. destruct (update_state_after_alloc _ _ _ _ _ _ _) eqn:E; [|done].
    intros [= <- <-]. by econstructor.
  - destruct (build_connector_meta c s) as [[??]|] eqn:E; [|done]. intros [= <- <-]. by constructor.
  - destruct (heap s !! r) eqn:Er; [|done]. simpl. destruct (request_finished _ _ _ _ _ _) as [[??]|] eqn:E; [|done].
    intros [= <- <-]. by econstructor.
  - destruct (heap s !! r) eqn:Er; [|done]. intros [= <- <-]. by econstructor.
Qed.

Lemma steps_app s es1 s1 outs1 es2 s2 outs2 :
  steps s es1 s1 outs1 → steps s1 es2 s2 outs2 → steps s (es1 ++ es2) s2 (outs1 ++ outs2).
Proof.
  intros H1 H2. induction H2 as [s2|s2 es2 s3 outs2 e s4 out _ IH Hs]; [by rewrite !app_nil_r|].
  rewrite !app_assoc. econstructor; eauto.
Qed.

Lemma steps_cons s e s1 out es s2 outs :
  step s e s1 out → steps s1 es s2 outs → steps s (e :: es) s2 (out ++ outs).
Proof.
  intros H1 H2. apply (steps_app s [e] s1 out); [|done].
  change [e] with ([] ++ [e]). change out with ([] ++ out). econstructor; [constructor|done].
Qed.

Lemma run_steps s es x : run s es = Some x → steps s es x.1 x.2.
Proof.
  revert s x. induction es as [|e es IH]; intros s x H; simpl in H; [injection H as <-; constructor|].
  destruct (exec s e) as [[s1 out]|] eqn:E; [|done]. simpl in H.
  destruct (run s1 es) as [[s2 outs]|] eqn:E2; [|done]. injection H as <-. simpl.
  eapply steps_cons; [by apply exec_step|]. by apply (IH s1 (s2, outs)).
Qed.

(** The state and the outputs after the calls [es]. *)
Definition after (s : sched) (es : list event) : sched * list output := default (s, []) (run s es).

Lemma after_steps s es : is_some (run s es) = true → steps s es (after s es).1 (after s es).2.
Proof. unfold after. destruct (run s es) eqn:E; [|done]. intros _. by apply run_steps. Qed.

(** ** A request is pulled once *)

(** The ids of the requests a metadata object asks to pull. *)
Definition recv_ids (m : MooncakeConnectorMetadata) : list string := reqs_to_recv m ≫= λ e, e.2.*1.

Definition pulled (o : output) : list string := match o with Metadata m => recv_ids m | _ => [] end.

Lemma dset_keys_perm {V} (d : list (string * V)) k v :
  k ∉ d.*1 → (dset d k v).*1 ≡ₚ k :: d.*1.
Proof.
  intros Hk. apply dget_None in Hk. pose proof (dkeys_dset d k v) as E. rewrite Hk in E. unfold dkeys in E.
  rewrite E. by rewrite Permutation_app_comm.
Qed.

(** Setting an entry whose list gains one element adds it to the union. *)
Lemma dset_bind_cons {V} (g : V → list string) (d : list (string * V)) k v x :
  g v ≡ₚ x :: default [] (g <$> dget d k) → dset d k v ≫= (g ∘ snd) ≡ₚ x :: (d ≫= (g ∘ snd)).
Proof.
  induction d as [|[k' v'] d IH]; intros H.
  - cbn [dset]. rewrite bind_cons. simpl in *. by rewrite app_nil_r.
  - cbn [dset]. cbn [dget] in H. case_decide; rewrite !bind_cons; simpl in *.
    + by rewrite H.
    + rewrite IH by done. by rewrite Permutation_middle.
Qed.

Lemma add_new_req_recv id blocks p n m m' :
  id ∉ recv_ids m → add_new_req id blocks p true n m = Ok m' →
  recv_ids m' ≡ₚ id :: recv_ids m ∧ reqs_to_send m' = reqs_to_send m.
Proof.
  unfold add_new_req. intros Hid H. inv_ok. split; [|done]. simpl.
  apply (dset_bind_cons (λ v : list (string * PullReqMeta), v.*1)).
  destruct (dget (reqs_to_recv m) _) as [v|] eqn:E; simpl.
  - apply dset_keys_perm. intros Hin. apply Hid. apply dget_elem_of in E.
    apply list_elem_of_bind. eexists (_, v). by split.
  - done.
Qed.

Lemma add_recv_ids s l m m' :
  NoDup l.*1 → (∀ id, id ∈ l.*1 → id ∉ recv_ids m) → rfold (add_recv c s) m l = Ok m' →
  recv_ids m' ≡ₚ l.*1 ++ recv_ids m.
Proof.
  revert m. induction l as [|[id [r blocks]] l IH]; intros m Hnd Hm H; simpl in *; [by apply Ok_inj in H as ->|].
  apply NoDup_cons in Hnd as [Hid Hnd]. apply rbind_Ok in H as (m1 & H1 & H). inv_ok.
  match goal with H : add_new_req _ _ _ _ _ _ = Ok _ |- _ => apply add_new_req_recv in H as [Hp _]; [|set_solver] end.
  apply IH in H; [|done|].
  - rewrite H, Hp. by rewrite Permutation_middle.
  - intros id' Hin. rewrite Hp, not_elem_of_cons. split; [intros ->; done|]. apply Hm. set_solver.
Qed.

Lemma add_send_recv h acc e acc' :
  add_send h acc e = Ok acc' → recv_ids acc'.1 = recv_ids acc.1.
Proof. destruct e as [id [r blocks]]. unfold add_send, add_new_req. intros H. inv_ok. done. Qed.

Lemma build_recv_ids s s' m :
  dict_ok (reqs_need_recv s) → build_connector_meta c s = Ok (s', m) →
  heap s' = heap s ∧ (dict_ok (reqs_need_send s) → dict_ok (reqs_need_send s')) ∧
  (is_kv_producer c = true ∧ recv_ids m = [] ∧ reqs_need_recv s' = reqs_need_recv s ∨
   is_kv_producer c = false ∧ recv_ids m ≡ₚ dkeys (reqs_need_recv s) ∧ reqs_need_recv s' = []).
Proof.
  intros Hd H. unfold build_connector_meta in H. apply rbind_Ok in H as ([s1 m1] & H1 & H).
  assert (Hm : heap s' = heap s1 ∧ (dict_ok (reqs_need_send s1) → dict_ok (reqs_need_send s')) ∧
               reqs_need_recv s' = reqs_need_recv s1 ∧ recv_ids m = recv_ids m1).
  { destruct (negb (is_kv_consumer c)); [|by apply Ok_inj in H as [= -> ->]].
    apply rbind_Ok in H as ([m2 tokens] & H2 & H). apply Ok_inj in H as [= <- <-]. simpl. split_and!; [done|intros _; constructor|done|].
    unfold recv_ids; simpl. eapply (rfold_ind (λ acc, recv_ids acc.1 = recv_ids m1)) in H2; [done| |done].
    intros ??? <- Hs. by apply add_send_recv in Hs. }
  destruct Hm as (-> & Hds & -> & Hm). rewrite Hm. destruct (is_kv_producer c); simpl in H1.
  - apply Ok_inj in H1 as [= <- <-]. split_and!; [done..|]. by left.
  - apply rbind_Ok in H1 as (m2 & H2 & H1). apply Ok_inj in H1 as [= <- <-]. split_and!; [done..|]. right.
    apply add_recv_ids in H2; [|done|intros ?? Hin; by apply elem_of_nil in Hin].
    rewrite app_nil_r in H2. done.
Qed.

(** A request whose pull was claimed: its flag is down. *)
Definition flag_down (q : Request) : Prop := ∃ p, kv_transfer_params q = Some p ∧ do_remote_prefill p = false.

Definition claimed (h : gmap nat Request) (id : string) : Prop :=
  ∃ r q, h !! r = Some q ∧ request_id q = id ∧ flag_down q.

Definition own_ids (h : gmap nat Request) : Prop :=
  ∀ r r' q q', h !! r = Some q → h !! r' = Some q' → request_id q = request_id q' → r = r'.

Record inv (s : sched) (outs : list output) : Prop := {
  inv_ids : own_ids (heap s);
  inv_send : dict_ok (reqs_need_send s);
  inv_nodup : NoDup ((outs ≫= pulled) ++ dkeys (reqs_need_recv s));
  inv_claimed : ∀ id, id ∈ (outs ≫= pulled) ++ dkeys (reqs_need_recv s) → claimed (heap s) id
}.

(** Changing an object without changing its id or raising its flag. *)
Definition keeps (q q' : Request) : Prop := request_id q' = request_id q ∧ (flag_down q → flag_down q').

Lemma claimed_insert h r q q' id :
  h !! r = Some q → keeps q q' → claimed h id → claimed (<[r:=q']> h) id.
Proof.
  intros Hr [Hid Hf] (r0 & q0 & H0 & <- & Hd). destruct (decide (r0 = r)) as [->|].
  - rewrite Hr in H0. injection H0 as <-. exists r, q'. rewrite lookup_insert_eq. auto.
  - exists r0, q0. rewrite lookup_insert_ne by done. auto.
Qed.

Lemma own_ids_insert h r q q' :
  h !! r = Some q → request_id q' = request_id q → own_ids h → own_ids (<[r:=q']> h).
Proof.
  intros Hr Hid Ho r1 r2 q1 q2 H1 H2 He.
  assert (∀ r0 q0, <[r:=q']> h !! r0 = Some q0 → ∃ q1, h !! r0 = Some q1 ∧ request_id q1 = request_id q0) as Hback.
  { intros r0 q0. rewrite lookup_insert_Some. intros [[<- <-]|[_ ?]]; eauto. }
  apply Hback in H1 as (? & ? & ?), H2 as (? & ? & ?). eapply Ho; try done. congruence.
Qed.

Lemma keeps_clear q : keeps q (set_kv_transfer_params clear_remote_prefill q).
Proof. split; [done|]. intros (p & Hp & _). eexists. simpl. rewrite Hp. done. Qed.

(** Lowering the flag of a request, and adding it to the requests to pull. *)
Lemma inv_clear s outs r q :
  heap s !! r = Some q → inv s outs → inv (set_heap (<[r := set_kv_transfer_params clear_remote_prefill q]>) s) outs.
Proof.
  intros Hr [Ho Hd Hn Hc]. split; [by eapply own_ids_insert|done|done|].
  intros id Hid. eapply claimed_insert; eauto using keeps_clear.
Qed.

Lemma inv_pull s outs r q p blocks :
  heap s !! r = Some q → kv_transfer_params q = Some p → do_remote_prefill p = true → inv s outs →
  inv (set_heap (<[r := set_kv_transfer_params clear_remote_prefill q]>)
         (set_need_recv (λ d, dset d (request_id q) (r, blocks)) s)) outs.
Proof.
  intros Hr Hp Hf [Ho Hd Hn Hc].
  assert (Hnew : request_id q ∉ (outs ≫= pulled) ++ dkeys (reqs_need_recv s)).
  { intros Hin. destruct (Hc _ Hin) as (r' & q' & Hr' & He & p' & Hp' & Hf').
    assert (r' = r) as -> by by eapply Ho. naive_solver congruence. }
  assert (Hperm : dkeys (dset (reqs_need_recv s) (request_id q) (r, blocks)) = dkeys (reqs_need_recv s) ++ [request_id q]).
  { rewrite dkeys_dset. by rewrite (proj2 (dget_None _ _)) by set_solver. }
  split; simpl; [by eapply own_ids_insert|done|..]; rewrite Hperm.
  - rewrite app_assoc, (Permutation_app_comm _ [_]). simpl. by apply NoDup_cons.
  - intros id. rewrite app_assoc, elem_of_app, list_elem_of_singleton. intros [Hid| ->].
    + eapply claimed_insert; eauto using keeps_clear.
    + exists r. eexists. rewrite lookup_insert_eq. split_and!; [done..|]. eexists. simpl. rewrite Hp. done.
Qed.

Lemma on_new_request_id q q' : on_new_request c q = Ok q' → request_id q' = request_id q.
Proof.
  unfold on_new_request, truncate_mamba_request_for_prefill. intros H.
  destruct (kv_transfer_params q) as [p|]; [|by inv_ok]. destruct (_ && _); [|by inv_ok].
  destruct (_ && _); [|by inv_ok]. inv_ok.
  match goal with H : match ?o with _ => _ end = _ |- _ => destruct o as [[??]|]; inv_ok; done end.
Qed.

Lemma step_inv s e s' out outs : inv s outs → step s e s' out → inv s' (outs ++ out).
Proof.
  intros Hi Hs. destruct Hs as [s r q q' [Hfr Hid] Hq|s r q unh n s' Hr H|s s' m H|s r q blocks b s' Hr H|s r q cap n k Hr];
    rewrite ?app_nil_r.
  - apply on_new_request_id in Hq. destruct Hi as [Ho Hd Hn Hc]. split; [|done|done|]; simpl.
    + intros r1 r2 q1 q2. rewrite !lookup_insert_Some.
      intros [[<- <-]|[? H1]] [[<- <-]|[? H2]] He; [done| | |by eapply Ho]; exfalso.
      * apply Hid in H2. congruence.
      * apply Hid in H1. congruence.
    + intros id Hin. destruct (Hc _ Hin) as (r0 & q0 & H0 & ? & ?). exists r0, q0.
      rewrite lookup_insert_ne by congruence. auto.
  - unfold update_state_after_alloc in H. destruct (kv_transfer_params q) as [p|] eqn:Hp; [|by inv_ok].
    destruct (do_remote_prefill p) eqn:Hf.
    + apply rbind_Ok in H as (u & _ & H). apply rbind_Ok in H as (s1 & H1 & H). apply Ok_inj in H as <-.
      destruct (_ && _); inv_ok; [by eapply inv_pull|by apply inv_clear].
    + destruct (do_remote_decode p); inv_ok; [|done].
      destruct (negb (truthy_str _)); inv_ok; [done|destruct Hi; split; simpl; auto using dict_ok_dset].
  - destruct Hi as [Ho Hd Hn Hc]. pose proof H as Hb.
    apply build_recv_ids in H as (Hh & Hds & H); [|by apply NoDup_app in Hn as (_ & _ & ?)].
    assert (Hp : ((outs ++ [Metadata m]) ≫= pulled) ++ dkeys (reqs_need_recv s') ≡ₚ (outs ≫= pulled) ++ dkeys (reqs_need_recv s)).
    { rewrite bind_app, bind_cons. simpl. rewrite app_nil_r. destruct H as [(_ & -> & ->)|(_ & -> & ->)].
      - by rewrite app_nil_r.
      - unfold dkeys; simpl. by rewrite app_nil_r. }
    split; rewrite ?Hh; [done|by apply Hds|by rewrite Hp|]. intros id. rewrite Hp. apply Hc.
  - assert (Hgoal : inv s' outs).
    { unfold request_finished in H. destruct (kv_transfer_params q) as [p|] eqn:Hp; [|by inv_ok; simplify_eq].
      destruct (negb (truthy_str _)); [by inv_ok; simplify_eq|]. destruct (do_remote_prefill p) eqn:Hf.
      { apply rbind_Ok in H as (u & _ & H). apply Ok_inj in H as [= _ <-]. by eapply inv_pull. }
      destruct (negb (do_remote_decode p)); [by inv_ok; simplify_eq|]. apply rbind_Ok in H as (u & _ & H).
      destruct (negb (status_length_capped q)); [inv_ok; simplify_eq; destruct Hi; by split|].
      destruct (existsb _ _); inv_ok; simplify_eq; destruct Hi; split; simpl; auto using dict_ok_dset. }
    destruct Hgoal as [Ho Hd Hn Hc]. split; rewrite ?bind_app; simpl; rewrite ?app_nil_r; done.
  - destruct Hi as [Ho Hd Hn Hc]. split; [by eapply own_ids_insert|done|done|].
    intros id Hin. eapply claimed_insert; [done| |by apply Hc]. split; [done|]. by intros (p & ? & ?); exists p.
Qed.

Lemma steps_inv es s' outs : steps init_sched es s' outs → inv s' outs.
Proof.
  remember init_sched as s0 eqn:E. induction 1 as [s|s es s1 outs e s2 out _ IH Hs].
  - subst. split; simpl; [intros ????; by rewrite lookup_empty|constructor|constructor|intros ? Hin; by apply elem_of_nil in Hin].
  - eapply step_inv; eauto.
Qed.

(** ** Delayed blocks are announced *)

(** Request [r] has finished and its blocks [local] wait to be announced. *)
Definition to_announce (s : sched) (r : nat) (id tid : string) (local : list (list Z)) (tokens : Z) : Prop :=
  dget (reqs_need_send s) id = Some (r, local) ∧ dget (reqs_send_num_tokens s) id = Some tokens ∧
  ∃ q p, heap s !! r = Some q ∧ request_id q = id ∧ kv_transfer_params q = Some p ∧ transfer_id p = Some tid.

(** An event that neither builds metadata nor is a call on request [r]. *)
Definition other (r : nat) (e : event) : Prop :=
  match e with
  | Scheduled => False
  | Allocated r' _ _ | Finished r' _ => r' ≠ r
  | New _ _ | Progress _ _ _ _ => True
  end.

Lemma to_announce_heap s r id tid local tokens r' q' :
  (∀ q, heap s !! r' = Some q → request_id q' = request_id q ∧
     ((r' = r → kv_transfer_params q' = kv_transfer_params q))) → (heap s !! r' = None → r' ≠ r) →
  to_announce s r id tid local tokens → to_announce (set_heap (<[r' := q']>) s) r id tid local tokens.
Proof.
  intros Hq Hn (Hd & Ht & q & p & Hr & Hid & Hp & Htid). split_and!; [done..|]. simpl.
  destruct (decide (r' = r)) as [->|Hne].
  - destruct (Hq _ Hr) as [He Hk]. exists q', p. rewrite lookup_insert_eq, He, Hk by done. done.
  - exists q, p. by rewrite lookup_insert_ne.
Qed.

Lemma other_step s outs e s' out r id tid local tokens :
  inv s outs → step s e s' out → other r e → to_announce s r id tid local tokens → to_announce s' r id tid local tokens.
Proof.
  intros Hi Hs Ho Ha. assert (Hown : ∀ r' q', heap s !! r' = Some q' → r' ≠ r → request_id q' ≠ id).
  { intros r' q' Hr' Hne <-. destruct Ha as (_ & _ & q & p & Hr & He & _). apply Hne. by eapply (inv_ids _ _ Hi). }
  destruct Hs as [s r' q q' [Hfr Hid] Hq|s r' q unh n s' Hr H|s s' m H|s r' q blocks b s' Hr H|s r' q cap n k Hr]; simpl in Ho.
  - apply to_announce_heap; [congruence|intros _ ->|done]. destruct Ha as (_ & _ & q0 & p & Hr & _). congruence.
  - specialize (Hown _ _ Hr Ho). unfold update_state_after_alloc in H.
    destruct (kv_transfer_params q) as [p|]; [|by inv_ok]. destruct (do_remote_prefill p).
    + apply rbind_Ok in H as (u & _ & H). apply rbind_Ok in H as (s1 & H1 & H). apply Ok_inj in H as <-.
      assert (heap s1 = heap s) as Hh by by destruct (_ && _); inv_ok.
      apply to_announce_heap; rewrite ?Hh; [intros q0 Hq0; split; [simpl; congruence|done]|congruence|].
      by destruct (_ && _); inv_ok.
    + destruct (do_remote_decode p); inv_ok; [|done]. destruct (negb (truthy_str _)); inv_ok; [done|].
      destruct Ha as (Hd & Ht & Hq). split_and!; [|done..]. simpl. by rewrite dget_dset_ne.
  - done.
  - specialize (Hown _ _ Hr Ho). unfold request_finished in H.
    destruct (kv_transfer_params q) as [p|]; [|by inv_ok; simplify_eq].
    destruct (negb (truthy_str _)); [by inv_ok; simplify_eq|]. destruct (do_remote_prefill p).
    { apply rbind_Ok in H as (u & _ & H). apply Ok_inj in H as [= _ <-].
      apply to_announce_heap; simpl; [intros q0 Hq0; split; [congruence|done]|congruence|done]. }
    destruct (negb (do_remote_decode p)); [by inv_ok; simplify_eq|]. apply rbind_Ok in H as (u & _ & H).
    destruct (negb (status_length_capped q)); [by inv_ok; simplify_eq|].
    destruct (existsb _ _); inv_ok; simplify_eq; [|done]. destruct Ha as (Hd & Ht & Hq).
    split_and!; [simpl; by rewrite dget_dset_ne..|done].
  - apply to_announce_heap; [|congruence|done]. intros q0 Hq0. split; [simpl; congruence|intros ->; simpl; congruence].
Qed.

Lemma other_steps s outs es s' outs' r id tid local tokens :
  inv s outs → steps s es s' outs' → Forall (other r) es → to_announce s r id tid local tokens →
  inv s' (outs ++ outs') ∧ to_announce s' r id tid local tokens.
Proof.
  intros Hi Hs. induction Hs as [s|s es s1 outs1 e s2 out _ IH Hs]; intros He Ha.
  - by rewrite app_nil_r.
  - apply Forall_app in He as [He [Ho _]%Forall_cons]. destruct (IH Hi He Ha) as [Hi1 Ha1].
    rewrite app_assoc. split; [by eapply step_inv|by eapply other_step].
Qed.

(** ** The metadata names every entry *)

Lemma add_send_other h acc e acc' id :
  add_send h acc e = Ok acc' → e.1 ≠ id →
  dget (reqs_to_send acc'.1) id = dget (reqs_to_send acc.1) id ∧
  dget (meta_num_tokens acc'.1) id = dget (meta_num_tokens acc.1) id ∧ dget acc'.2 id = dget acc.2 id.
Proof.
  destruct e as [id' [r blocks]]. unfold add_send, add_new_req. intros H Hne. inv_ok. simpl in *.
  by rewrite !dget_dset_ne, dget_ddel_ne.
Qed.

Lemma add_sends_other h l acc acc' id :
  rfold (add_send h) acc l = Ok acc' → id ∉ l.*1 →
  dget (reqs_to_send acc'.1) id = dget (reqs_to_send acc.1) id ∧
  dget (meta_num_tokens acc'.1) id = dget (meta_num_tokens acc.1) id ∧ dget acc'.2 id = dget acc.2 id.
Proof.
  revert acc. induction l as [|e l IH]; intros acc H Hid; [by apply Ok_inj in H as ->|].
  simpl in H. apply rbind_Ok in H as (acc1 & H1 & H). csimpl in Hid. apply not_elem_of_cons in Hid as [Hne Hid].
  apply add_send_other with (id := id) in H1 as (<- & <- & <-); [by apply IH|done].
Qed.

Lemma build_announces s s' m r id tid local tokens :
  dict_ok (reqs_need_send s) → is_kv_consumer c = false → to_announce s r id tid local tokens →
  build_connector_meta c s = Ok (s', m) →
  dget (reqs_to_send m) id = Some (tid, local) ∧ dget (meta_num_tokens m) id = Some (Some tokens).
Proof.
  intros Hd Hc (Hn & Ht & q & p & Hr & Hid & Hp & Htid) H.
  unfold build_connector_meta in H. rewrite Hc in H. apply rbind_Ok in H as ([s1 m1] & H1 & H).
  assert (Hs : heap s1 = heap s ∧ reqs_need_send s1 = reqs_need_send s ∧ reqs_send_num_tokens s1 = reqs_send_num_tokens s).
  { destruct (negb (is_kv_producer c)); inv_ok; simplify_eq; done. }
  destruct Hs as (Eh & En & Et). simpl in H. apply rbind_Ok in H as ([m2 tokens'] & H2 & H). apply Ok_inj in H as [= _ <-].
  rewrite Eh, En, Et in H2. apply dget_elem_of, list_elem_of_split in Hn as (l1 & l2 & E). rewrite E in H2, Hd.
  unfold dict_ok, dkeys in Hd. rewrite fmap_app in Hd. csimpl in Hd.
  apply NoDup_app in Hd as (_ & Hn1 & [Hn2 _]%NoDup_cons).
  rewrite rfold_app in H2. apply rbind_Ok in H2 as (acc1 & Ha1 & H2). simpl in H2. apply rbind_Ok in H2 as (acc2 & Ha2 & H2).
  apply add_sends_other with (id := id) in Ha1 as (_ & _ & Hk); [|intros Hin; apply Hn1 in Hin; set_solver].
  apply add_sends_other with (id := id) in H2 as (Es & Em & _); [|done]. simpl in Es, Em |- *. rewrite Es, Em. clear Es Em.
  unfold add_send in Ha2. simpl in Ha2, Hk. rewrite Hr in Ha2. simpl in Ha2. rewrite Hp in Ha2. simpl in Ha2.
  rewrite Hk, Ht in Ha2. unfold add_new_req in Ha2. rewrite Htid in Ha2. simpl in Ha2. apply Ok_inj in Ha2 as <-. simpl.
  by rewrite !dget_dset_eq.
Qed.

Lemma finished_to_announce s r q blocks s' :
  heap s !! r = Some q → request_finished select c r q blocks s = Ok (true, s') →
  ∃ tid local,
    (kv_transfer_params q ≫= transfer_id) = Some tid ∧ get_sw_clipped_blocks select c blocks = Ok local ∧
    status_length_capped q = true ∧ (∃ g, g ∈ blocks ∧ g ≠ []) ∧
    to_announce s' r (request_id q) tid local (Z.min (num_computed_tokens q - num_in_flight_tokens q) (num_prompt_tokens q)).
Proof.
  intros Hr H. unfold request_finished in H. destruct (kv_transfer_params q) as [p|] eqn:Hp; [|by inv_ok; simplify_eq].
  destruct (negb (truthy_str _)) eqn:Ht; [by inv_ok; simplify_eq|]. destruct (do_remote_prefill p).
  { apply rbind_Ok in H as (u & _ & H). by apply Ok_inj in H. }
  destruct (negb (do_remote_decode p)); [by inv_ok; simplify_eq|]. apply rbind_Ok in H as (u & _ & H).
  destruct (status_length_capped q) eqn:Hcap; simpl in H; [|by inv_ok; simplify_eq].
  destruct (existsb _ _) eqn:Hex; [|by inv_ok; simplify_eq]. apply rbind_Ok in H as (local & Hl & H).
  apply Ok_inj in H as [= <-]. destruct (transfer_id p) as [tid|] eqn:Htid; [|done].
  exists tid, local. split_and!; [done..| |].
  2: { split_and!; simpl; [by rewrite dget_dset_eq..|by exists q, p]. }
  apply existsb_exists in Hex as (g & Hg & Hlen). exists g. split; [by apply list_elem_of_In|by intros ->].
Qed.
End run.

(** ** Properties *)

(** C26 A request is pulled at most once: over all the metadata the scheduler
    ever builds no request id is asked for twice, whatever the order in which
    its requests are allocated, preempted, allocated again, aborted or
    finished. *)
Theorem pulled_once `{CD : !CeilDiv} select c es s outs :
  steps select c init_sched es s outs → NoDup (outs ≫= pulled).
Proof. intros H. apply steps_inv in H as [_ _ Hn _]. by apply NoDup_app in Hn as (? & _ & _). Qed.

(** A decoder's request of five tokens; it is allocated twice (it was
    preempted) and aborted. *)
Definition ex_pull_params : params := mkKVParams true false (Some "t1") (Some "engine-0") (Some "http://prefill") false.
Definition ex_request (id : string) (p : params) : Request :=
  mkRequest id false (Some [1; 2; 3; 4; 5]) None [1; 2; 3; 4; 5] 5 16 0 0 (Some p).
Definition ex_decoder : sched_config := mkSchedConfig false true 16 false false [FullAttention].
Definition ex_prefiller : sched_config := mkSchedConfig true false 16 false true [FullAttention; OtherSpec].

Definition ex_pull_calls : list event :=
  [New 0 (ex_request "r1" ex_pull_params); Allocated 0 [[3; 4]] 5; Scheduled; Allocated 0 [[7; 8]] 5;
   Finished 0 [[7; 8]]; Scheduled].

Lemma pulled_once_witness :
  let x := after id ex_decoder init_sched ex_pull_calls in
  steps id ex_decoder init_sched ex_pull_calls x.1 x.2 ∧ x.2 ≫= pulled = ["r1"] ∧ NoDup (x.2 ≫= pulled).
Proof.
  assert (H : steps id ex_decoder init_sched ex_pull_calls (after id ex_decoder init_sched ex_pull_calls).1
                (after id ex_decoder init_sched ex_pull_calls).2) by (apply after_steps; vm_compute; reflexivity).
  split; [exact H|]. split; [vm_compute; reflexivity|]. exact (pulled_once _ _ _ _ _ H).
Defined.

(** Delayed blocks are announced: when [request_finished] tells the engine
    to keep the blocks of a request, then whatever else the engine does before
    the next step is scheduled, the metadata of that step names the request
    with its transfer id, its blocks clipped to the sliding windows and the
    number of tokens it had computed when it finished. *)
Theorem delayed_announced `{CD : !CeilDiv} select c es s outs r q blocks s1 es' s2 outs' s3 m :
  steps select c init_sched es s outs → is_kv_consumer c = false →
  heap s !! r = Some q → request_finished select c r q blocks s = Ok (true, s1) →
  steps select c s1 es' s2 outs' → Forall (other r) es' → build_connector_meta c s2 = Ok (s3, m) →
  ∃ tid local,
    (kv_transfer_params q ≫= transfer_id) = Some tid ∧ get_sw_clipped_blocks select c blocks = Ok local ∧
    dget (reqs_to_send m) (request_id q) = Some (tid, local) ∧
    dget (meta_num_tokens m) (request_id q) =
      Some (Some (Z.min (num_computed_tokens q - num_in_flight_tokens q) (num_prompt_tokens q))).
Proof.
  intros Hs Hc Hr Hf Hs' Ho Hb. apply steps_inv in Hs as Hi.
  assert (Hi1 : inv s1 (outs ++ [DelayFree r true])).
  { eapply (step_inv select c s (Finished r blocks)); [done|]. by econstructor. }
  apply finished_to_announce in Hf as (tid & local & Htid & Hl & _ & _ & Ha); [|done].
  destruct (other_steps _ _ _ _ _ _ _ _ _ _ _ _ Hi1 Hs' Ho Ha) as [[_ Hd _ _] Ha2].
  exists tid, local. split_and!; [done..| |]; by eapply build_announces.
Qed.

Definition ex_push_params : params := mkKVParams false true (Some "t1") None None false.

Definition ex_push_calls : list event :=
  [New 0 (ex_request "p1" ex_push_params); Allocated 0 [[3]; [9]] 0; Scheduled; Progress 0 true 4 0].
Definition ex_push : sched := (after id ex_prefiller init_sched ex_push_calls).1.
Definition ex_push_request : Request := default (ex_request "" ex_push_params) (heap ex_push !! 0%nat).
Definition ex_pushed : sched :=
  match request_finished id ex_prefiller 0 ex_push_request [[3]; [9]] ex_push with Ok x => x.2 | Err _ => ex_push end.
Definition ex_push_later : sched := (after id ex_prefiller ex_pushed [New 1 (ex_request "p2" ex_push_params)]).1.
Definition ex_push_meta : sched * MooncakeConnectorMetadata :=
  match build_connector_meta ex_prefiller ex_push_later with Ok x => x | Err _ => (ex_push_later, empty_meta) end.

Lemma delayed_announced_witness :
  request_finished id ex_prefiller 0 ex_push_request [[3]; [9]] ex_push = Ok (true, ex_pushed) ∧
  reqs_to_send ex_push_meta.2 = [("p1", ("t1", [[3]; [9]]))] ∧
  ∃ tid local, (kv_transfer_params ex_push_request ≫= transfer_id) = Some tid ∧
    get_sw_clipped_blocks id ex_prefiller [[3]; [9]] = Ok local ∧
    dget (reqs_to_send ex_push_meta.2) "p1" = Some (tid, local) ∧
    dget (meta_num_tokens ex_push_meta.2) "p1" = Some (Some 4).
Proof.
  split; [vm_compute; reflexivity|]. split; [vm_compute; reflexivity|].
  apply (delayed_announced id ex_prefiller ex_push_calls ex_push (after id ex_prefiller init_sched ex_push_calls).2 0
           ex_push_request [[3]; [9]] ex_pushed [New 1 (ex_request "p2" ex_push_params)] ex_push_later
           (after id ex_prefiller ex_pushed [New 1 (ex_request "p2" ex_push_params)]).2 ex_push_meta.1).
  - apply after_steps. vm_compute. reflexivity.
  - reflexivity.
  - vm_compute. reflexivity.
  - vm_compute. reflexivity.
  - apply after_steps. vm_compute. reflexivity.
  - by repeat constructor.
  - vm_compute. reflexivity.
Defined.

(** Both sides count the same tokens: whether the model has Mamba layers or
    not, the prompt a prefiller is left with has exactly the length for which
    the decoder asks, and the last token is removed once, however often the
    request is presented again. *)
Theorem prefill_tokens_agree c q p q' :
  kv_transfer_params q = Some p → do_remote_decode p = true → p_side_truncated p = false →
  prompt_token_ids q ≠ None ∨ prompt_embeds q ≠ None →
  on_new_request c q = Ok q' →
  num_prompt_tokens q' = get_remote_prefill_token_count c (num_prompt_tokens q) ∧ on_new_request c q' = Ok q'.
Proof.
  unfold on_new_request, get_remote_prefill_token_count. intros Hp Hd Ht Hids. rewrite Hp, Hd. simpl.
  destruct (has_mamba c) eqn:Hm; simpl; [|intros [= <-]; by rewrite Hp, Hd]. unfold truncate_mamba_request_for_prefill.
  rewrite Hp, Ht. simpl. destruct (1 <? num_prompt_tokens q) eqn:E; [|intros [= <-]; by rewrite Hp, Hd; simpl; rewrite Ht; simpl; rewrite E].
  intros H. apply rbind_Ok in H as (o & Hdrop & H).
  destruct o as [[ids embeds]|].
  { apply rbind_Ok in H as (all & _ & H). apply Ok_inj in H as <-. simpl. by rewrite Hd. }
  exfalso. clear H. unfold drop_prompt_token in Hdrop.
  destruct (prompt_token_ids q), (prompt_embeds q); inv_ok; naive_solver.
Qed.

Lemma prefill_tokens_agree_witness :
  ∃ q', on_new_request ex_prefiller (ex_request "p1" ex_push_params) = Ok q' ∧ num_prompt_tokens q' = 4 ∧
    (num_prompt_tokens q' = get_remote_prefill_token_count ex_prefiller 5 ∧ on_new_request ex_prefiller q' = Ok q').
Proof.
  eexists. split; [reflexivity|]. split; [reflexivity|].
  apply (prefill_tokens_agree ex_prefiller (ex_request "p1" ex_push_params) ex_push_params); try reflexivity.
  left. discriminate.
Defined.

(** A request without the address of its producer that is aborted before
    it was scheduled breaks the connector: the allocation path warns about
    such a request and leaves it out, the abort path puts it among the
    requests to pull, and from then on every attempt to build metadata raises. *)
Theorem invalid_abort_raises :
  let p := mkKVParams true false (Some "t1") None None false in
  let scheduled := [New 0 (ex_request "r1" p); Allocated 0 [[3; 4]] 5] in
  let aborted := [New 0 (ex_request "r1" p); Finished 0 []] in
  (∃ s, steps id ex_decoder init_sched scheduled s [] ∧ ∃ s', build_connector_meta ex_decoder s = Ok (s', empty_meta)) ∧
  ∃ s, steps id ex_decoder init_sched aborted s [DelayFree 0 false] ∧ build_connector_meta ex_decoder s = Err KeyError.
Proof.
  intros p scheduled aborted. split.
  - exists (after id ex_decoder init_sched scheduled).1.
    split; [by apply (after_steps id ex_decoder init_sched scheduled)|]. eexists. reflexivity.
  - exists (after id ex_decoder init_sched aborted).1.
    split; [by apply (after_steps id ex_decoder init_sched aborted)|]. reflexivity.
Qed.
