(* ===== verification/P2PSend.v ===== *)
(** * The raw sender of the P2P connector

    [mooncake_connector.py], class [MooncakeConnectorWorker] on a producer
    without compression: the entries of the transfers ([SendBlockMeta]), what
    the scheduler's metadata does to them ([record_send_reqs]), a contact of a
    decoder ([send_kv_to_decode] under [_sender_worker]) cut at its awaits,
    the sweep of expired entries and the reports to the engine. All run on one
    event loop; the writes run on an executor meanwhile. vLLM's
    [map_to_kernel_blocks], [handshake_target_ranks] and the group of a layer
    are parameters, and so are the answers of the transfer engine. *)

From S2P Require Import Prelude Messages Transfer P2PPlan P2PSched.

(** ** Responses *)

Inductive MooncakeXferResponseStatus := FINISH | CONTINUE | ERROR.

(** The error messages, by what they say. *)
Inductive reason :=
  | NotPaired
  | Misaligned (e : align_error)
  | BadLengths (e : length_error)
  | Planned (msg : string)
  | EngineReturned (ret : Z)
  | PlannedAndReturned (msg : string) (ret : Z)
  | TimedOut
  | Raised (e : exn).

Record MooncakeXferResponse := mkResponse {
  rs_status : MooncakeXferResponseStatus;
  rs_ok_reqs : list string;
  rs_err_reqs : list string;
  rs_err_msg : option reason
}.

Definition error_response (why : reason) : MooncakeXferResponse := mkResponse ERROR [] [] (Some why).

(** ** Entries and contacts *)

Record SendBlockMeta := mkSend {
  p_req_id : string;
  sm_transfer_id : string;
  local_block_ids : list (list Z);
  ready : bool;
  (** [float("inf")] is [None] *)
  expire_time : option Z;
  need_send : Z;
  sent : Z;
  sending : Z;
  sm_num_tokens : option Z
}.

(** [SendBlockMeta(p_req_id=..., transfer_id=..., local_block_ids=[], ...)] *)
Definition new_send (p_req_id transfer_id : string) : SendBlockMeta :=
  mkSend p_req_id transfer_id [] false None 0 0 0 None.

Definition announce_send (id : string) (blocks : list (list Z)) (tokens : option Z) (expire : Z) (m : SendBlockMeta) :=
  mkSend id (sm_transfer_id m) blocks true (Some expire) (need_send m) (sent m) (sending m) tokens.

(** Where a contact is: waiting for its transfers, writing those that were
    ready, or gone. After an exception the transfers it was handling keep
    what had been counted for them. *)
Inductive contact_pc :=
  | Waiting
  | Writing (ready_reqs : list (string * nat)) (p : transfer_params)
  | Done
  | Failed (ready_reqs : list (string * nat)).

(** A running [send_kv_to_decode]: [pending] are the transfers whose wait task
    has not finished ([pending_reqs] and [wait_tasks]), by request id;
    [replies] what was sent to the decoder; [expired] the requests logged as
    expired before sending. *)
Record contact := mkContact {
  meta : MooncakeXferMetadata;
  regions : list TransferRegion * list TransferRegion;
  remote_tp_ranks : list Z;
  pending : list (string * nat);
  pc : contact_pc;
  replies : list MooncakeXferResponse;
  expired : list string
}.

Definition set_pc (x : contact_pc) (t : contact) : contact :=
  mkContact (meta t) (regions t) (remote_tp_ranks t) (pending t) x (replies t) (expired t).
Definition reply (r : MooncakeXferResponse) (t : contact) : contact :=
  mkContact (meta t) (regions t) (remote_tp_ranks t) (pending t) (pc t) (replies t ++ [r]) (expired t).
Definition drop_done (done : list string) (t : contact) : contact :=
  mkContact (meta t) (regions t) (remote_tp_ranks t) (filter (λ e, e.1 ∉ done) (pending t)) (pc t) (replies t) (expired t).
Definition log_expired (ids : list string) (t : contact) : contact :=
  mkContact (meta t) (regions t) (remote_tp_ranks t) (pending t) (pc t) (replies t) (expired t ++ ids).

(** The state of the worker; [finished_sending] is the queue to the engine and
    [engine_finished] what the engine took from it. *)
Record sender := mkSender {
  heap : list SendBlockMeta;
  reqs_need_send : list (string * nat);
  contacts : list contact;
  finished_sending : list string;
  engine_finished : list string;
  now : Z
}.

Definition set_heap (f : list SendBlockMeta → list SendBlockMeta) (s : sender) : sender :=
  mkSender (f (heap s)) (reqs_need_send s) (contacts s) (finished_sending s) (engine_finished s) (now s).
Definition set_reqs_need_send (f : list (string * nat) → list (string * nat)) (s : sender) : sender :=
  mkSender (heap s) (f (reqs_need_send s)) (contacts s) (finished_sending s) (engine_finished s) (now s).
Definition set_contacts (f : list contact → list contact) (s : sender) : sender :=
  mkSender (heap s) (reqs_need_send s) (f (contacts s)) (finished_sending s) (engine_finished s) (now s).
Definition set_finished_sending (f : list string → list string) (s : sender) : sender :=
  mkSender (heap s) (reqs_need_send s) (contacts s) (f (finished_sending s)) (engine_finished s) (now s).
Definition set_engine_finished (f : list string → list string) (s : sender) : sender :=
  mkSender (heap s) (reqs_need_send s) (contacts s) (finished_sending s) (f (engine_finished s)) (now s).
Definition set_now (f : Z → Z) (s : sender) : sender :=
  mkSender (heap s) (reqs_need_send s) (contacts s) (finished_sending s) (engine_finished s) (f (now s)).

Definition init_sender : sender := mkSender [] [] [] [] [] 0.

Definition send_of (s : sender) (r : nat) : SendBlockMeta := default (new_send "" "") (heap s !! r).

(** [self.reqs_need_send[transfer_id] = SendBlockMeta(...)] *)
Definition create_send (p_req_id transfer_id : string) (s : sender) : sender :=
  set_reqs_need_send (λ d, dset d transfer_id (length (heap s))) (set_heap (λ h, h ++ [new_send p_req_id transfer_id]) s).

(** [VLLM_MOONCAKE_ABORT_REQUEST_TIMEOUT], in seconds *)
Definition ABORT_REQUEST_TIMEOUT : Z := 480.

(** ** [record_send_reqs]

    The state, and the exception that stops the coroutine, if one does. *)
Definition record_one (m : MooncakeConnectorMetadata) (s : sender) (e : string * (string * list (list Z))) :
    sender * option exn :=
  let '(id, (tid, block_ids)) := e in
  match block_ids with
  | [] => (if is_some (dget (reqs_need_send s) tid) then s else create_send id tid s, None)
  | _ =>
      match dget (reqs_need_send s) tid with
      | None => (s, Some KeyError)
      | Some r => (set_heap (alter (announce_send id block_ids (default None (dget (meta_num_tokens m) id))
                                      (now s + ABORT_REQUEST_TIMEOUT)) r) s, None)
      end
  end.

Definition drop_one (s : sender) (tid : string) : sender * option exn :=
  match dget (reqs_need_send s) tid with
  | None => (s, Some KeyError)
  | Some r =>
      let s := set_reqs_need_send (λ d, ddel d tid) s in
      (s, if ready (send_of s r) then Some AssertionError else None)
  end.

(** A loop that an exception stops. *)
Fixpoint each {A} (f : sender → A → sender * option exn) (s : sender) (l : list A) : sender * option exn :=
  match l with
  | [] => (s, None)
  | a :: l => match f s a with
              | (s, None) => each f s l
              | (s, Some e) => (s, Some e)
              end
  end.

Definition record_send_reqs (m : MooncakeConnectorMetadata) (s : sender) : sender * option exn :=
  match each (record_one m) s (reqs_to_send m) with
  | (s, None) => each drop_one s (elements (meta_not_processed m))
  | (s, Some e) => (s, Some e)
  end.

(** ** A contact *)

Section contact.
Context (map_to_kernel_blocks : list Z → Z → list Z) (target_ranks : Z → result (list Z))
        (transfer_group_index : string → Z).

(** The registered caches of this worker. *)
Record worker_config := mkWorkerConfig {
  plan : plan_config;
  kv_caches_base_addr : list Z;
  block_len_per_layer : list Z;
  kv_block_len_per_layer : list Z;
  registered_layer_names : list string;
  registered_layer_indices : list Z;
  registered_group_indices : list Z
}.

Context (c : worker_config).

Definition get_transfer_regions (base_addrs block_lens kv_block_lens : list Z) (layer_names : list string)
    (layer_indices group_indices : list Z) : result (list TransferRegion) :=
  let group_indices := match group_indices with [] => transfer_group_index <$> layer_names | _ => group_indices end in
  expand_transfer_regions base_addrs block_lens kv_block_lens layer_names layer_indices (Some group_indices).

(** The checks of a contact: the ranks that will contact this worker and the
    aligned regions, or the reason it is refused. *)
Definition check_contact (m : MooncakeXferMetadata) :
    result (list Z * (list TransferRegion * list TransferRegion) + reason) :=
  let? ranks := target_ranks (remote_tp_size m) in
  if negb (bool_decide (remote_tp_rank m ∈ ranks)) then Ok (inr NotPaired)
  else
    let? local := get_transfer_regions (kv_caches_base_addr c) (block_len_per_layer c) (kv_block_len_per_layer c)
                    (registered_layer_names c) (registered_layer_indices c) (registered_group_indices c) in
    let? remote := get_transfer_regions (Messages.kv_caches_base_addr m) (block_lens m) (kv_block_lens m)
                     (Messages.registered_layer_names m) (Messages.registered_layer_indices m)
                     (Messages.registered_group_indices m) in
    match align_transfer_regions local remote false with
    | (_, _, Some e) => Ok (inr (Misaligned e))
    | (local, remote, None) =>
        let? err := validate_asymmetric_region_lengths local remote (p_tp_size (plan c)) (remote_tp_size m)
                      (cache_replicated (plan c)) None in
        match err with
        | Some e => Ok (inr (BadLengths e))
        | None => Ok (inl (ranks, (local, remote)))
        end
    end.

(** The entry of one requested transfer, created when the engine has not
    announced it yet. *)
Definition add_pending (acc : sender * list (string * nat)) (e : string * (string * list (list Z))) :
    sender * list (string * nat) :=
  let '(s, pend) := acc in
  let '(d_req_id, (tid, _)) := e in
  let s := if is_some (dget (reqs_need_send s) tid) then s else create_send "" tid s in
  (s, dset pend d_req_id (default 0%nat (dget (reqs_need_send s) tid))).

Definition add_contact (t : contact) (s : sender) : sender := set_contacts (λ l, l ++ [t]) s.

(** The call up to its first wait. *)
Definition start_contact (m : MooncakeXferMetadata) (s : sender) : sender :=
  match check_contact m with
  | Err e => add_contact (mkContact m ([], []) [] [] (Failed []) [error_response (Raised e)] []) s
  | Ok (inr why) => add_contact (mkContact m ([], []) [] [] Done [error_response why] []) s
  | Ok (inl (ranks, regs)) =>
      let '(s, pend) := foldl add_pending (s, []) (req_blocks m) in
      add_contact (mkContact m regs ranks pend (match pend with [] => Done | _ => Waiting end) [] []) s
  end.

(** [send_meta.sending += 1] and [resolve_need_send] *)
Definition mark_sending (ranks : list Z) (m : SendBlockMeta) : SendBlockMeta :=
  mkSend (p_req_id m) (sm_transfer_id m) (local_block_ids m) (ready m) (expire_time m)
    (if negb (need_send m =? 0) then need_send m else zlen ranks) (sent m) (sending m + 1) (sm_num_tokens m).

Definition unmark_sending (m : SendBlockMeta) : SendBlockMeta :=
  mkSend (p_req_id m) (sm_transfer_id m) (local_block_ids m) (ready m) (expire_time m)
    (need_send m) (sent m) (sending m - 1) (sm_num_tokens m).

Definition count_sent (m : SendBlockMeta) : SendBlockMeta :=
  mkSend (p_req_id m) (sm_transfer_id m) (local_block_ids m) (ready m) (expire_time m)
    (need_send m) (sent m + 1) (sending m) (sm_num_tokens m).

(** Which of the finished waits are still registered. *)
Definition collect (ranks : list Z) (acc : sender * list (string * nat) * list string) (e : string * nat) :
    sender * list (string * nat) * list string :=
  let '(s, rdy, exps) := acc in
  if is_some (dget (reqs_need_send s) (sm_transfer_id (send_of s e.2)))
  then (set_heap (alter (mark_sending ranks) e.2) s, rdy ++ [e], exps)
  else (s, rdy, exps ++ [e.1]).

(** After the transfer: the counters of one request, and its entry when every
    decoder rank has been served. *)
Definition settle (errs : list string) (s : sender) (e : string * nat) : sender :=
  let s := set_heap (alter unmark_sending e.2) s in
  if bool_decide (e.1 ∈ errs) then s
  else
    let s := set_heap (alter count_sent e.2) s in
    let m := send_of s e.2 in
    if (sent m =? need_send m) && is_some (dget (reqs_need_send s) (sm_transfer_id m))
    then set_finished_sending (λ q, q ++ [p_req_id m]) (set_reqs_need_send (λ d, ddel d (sm_transfer_id m)) s)
    else s.

Definition set_contact (i : nat) (t : contact) (s : sender) : sender := set_contacts (λ l, <[i := t]> l) s.

Definition joined (msg : option string) (ret : Z) : option reason :=
  Some match msg with None => EngineReturned ret | Some m => PlannedAndReturned m ret end.

(** The rest of a turn once the engine has answered [ret]. *)
Definition finish_turn (i : nat) (t : contact) (rdy : list (string * nat)) (p : transfer_params) (ret : Z) (s : sender) : sender :=
  let ok := filter (λ e, e.1 ∉ err_reqs p) rdy in
  let errs := if ret =? 0 then err_reqs p else err_reqs p ++ ok.*1 in
  let oks := if ret =? 0 then ok.*1 else [] in
  let msg := if ret =? 0 then Planned <$> err_msg p else joined (err_msg p) ret in
  let s := foldl (settle errs) s rdy in
  let last := match pending t with [] => true | _ => false end in
  set_contact i (set_pc (if last then Done else Waiting)
                   (reply (mkResponse (if last then FINISH else CONTINUE) oks errs msg) t)) s.

(** The handler of [_sender_worker]. *)
Definition fail_contact (i : nat) (t : contact) (rdy : list (string * nat)) (e : exn) (s : sender) : sender :=
  set_contact i (set_pc (Failed rdy) (reply (error_response (Raised e)) t)) s.

(** A turn of the loop: the waits [done] have finished. *)
Definition wake (i : nat) (t : contact) (done : list (string * nat)) (s : sender) : sender :=
  let t := drop_done done.*1 t in
  let '(s, rdy, exps) := foldl (collect (remote_tp_ranks t)) (s, [], []) done in
  let t := log_expired exps t in
  match build_transfer_params map_to_kernel_blocks (plan c) ((λ e : string * nat, (e.1, local_block_ids (send_of s e.2))) <$> rdy)
          (meta t) (regions t).1 (regions t).2 with
  | Err e => fail_contact i t rdy e s
  | Ok p => match copies p with
            | [] => finish_turn i t rdy p 0 s
            | _ => set_contact i (set_pc (Writing rdy p) t) s
            end
  end.

(** No wait finished in time. *)
Definition time_out (i : nat) (t : contact) (s : sender) : sender :=
  set_contact i (set_pc Done (reply (mkResponse FINISH [] (pending t).*1 (Some TimedOut)) t)) s.

(** ** Sweeping and reporting *)

Definition is_expired (s : sender) (m : SendBlockMeta) : bool :=
  negb (bool_decide (p_req_id m = ""%string)) && match expire_time m with Some t => t <? now s | None => false end
  && (sending m =? 0).

Definition sweep_expired_sends (s : sender) : sender :=
  let gone := filter (λ e : string * nat, is_expired s (send_of s e.2) = true) (reqs_need_send s) in
  set_reqs_need_send (λ d, foldl (λ d (e : string * nat), ddel d e.1) d gone)
    (set_finished_sending (λ q, q ++ ((λ e : string * nat, p_req_id (send_of s e.2)) <$> gone)) s).

(** [get_finished]: the queue is drained. *)
Definition get_finished (s : sender) : sender :=
  set_finished_sending (λ _, []) (set_engine_finished (λ l, l ++ finished_sending s) s).

(** ** Steps *)

Inductive event :=
  | Record (m : MooncakeConnectorMetadata)
  | Contact (m : MooncakeXferMetadata)
  | Ready (i : nat) (done : list (string * nat))
  | Timeout (i : nat)
  | Written (i : nat) (ret : result Z)
  | Sweep
  | Tick (d : Z)
  | GetFinished.

(** The waits of [done] have finished: they are waits of the contact, each
    once, and their events are set. *)
Definition finished_waits (t : contact) (done : list (string * nat)) (s : sender) : bool :=
  bool_decide (done ≠ []) && bool_decide (NoDup done)
  && forallb (λ e : string * nat, bool_decide (e ∈ pending t) && ready (send_of s e.2)) done.

Definition send_step (s : sender) (e : event) : option sender :=
  match e with
  | Record m => Some (record_send_reqs m s).1
  | Contact m => Some (start_contact m s)
  | Ready i done =>
      t ← contacts s !! i;
      match pc t with
      | Waiting => if finished_waits t done s then Some (wake i t done s) else None
      | _ => None
      end
  | Timeout i =>
      t ← contacts s !! i;
      match pc t with
      | Waiting => if forallb (λ e : string * nat, negb (ready (send_of s e.2))) (pending t) then Some (time_out i t s) else None
      | _ => None
      end
  | Written i ret =>
      t ← contacts s !! i;
      match pc t with
      | Writing rdy p => Some match ret with
                              | Ok z => finish_turn i t rdy p z s
                              | Err e => fail_contact i t rdy e s
                              end
      | _ => None
      end
  | Sweep => Some (sweep_expired_sends s)
  | Tick d => if 0 <=? d then Some (set_now (λ n, n + d) s) else None
  | GetFinished => Some (get_finished s)
  end.

Fixpoint send_run (s : sender) (es : list event) : option sender :=
  match es with
  | [] => Some s
  | e :: es => s ← send_step s e; send_run s es
  end.

End contact.
