(* ===== verification/P2PSendThms.v ===== *)
(** * The raw sender of the P2P connector: invariants and properties

    Every write in progress is counted in [sending] of its entry; an entry
    stays registered while it is written, so that its blocks are not given
    back; every contact is answered. *)

From S2P Require Import Prelude Messages Transfer P2PPlan P2PSched P2PSend.

#[local] Arguments ddel : simpl never.
#[local] Arguments dset : simpl never.

(** ** Counting the users of an entry *)

Definition writing_of (t : contact) : list nat := match pc t with Writing rdy _ => rdy.*2 | _ => [] end.
Definition failed_of (t : contact) : list nat := match pc t with Failed rdy => rdy.*2 | _ => [] end.
Definition waiting_of (t : contact) : list nat :=
  match pc t with Waiting | Writing _ _ => (pending t).*2 | _ => [] end.

(** How often entry [r] occurs in a part of the contacts. *)
Definition tally (f : contact → list nat) (r : nat) (s : sender) : Z := sumZ ((λ t, occ r (f t)) <$> contacts s).

Lemma tally_nonneg f r s : 0 ≤ tally f r s.
Proof. apply sumZ_fmap_nonneg. intros. apply occ_nonneg. Qed.

Lemma tally_set f r s i t t' :
  contacts s !! i = Some t → tally f r (set_contact i t' s) = tally f r s + occ r (f t') - occ r (f t).
Proof. intros Hi. unfold tally, set_contact; simpl. by erewrite sumZ_insert. Qed.

Lemma tally_add f r s t : tally f r (add_contact t s) = tally f r s + occ r (f t).
Proof. unfold tally, add_contact; simpl. rewrite fmap_app, sumZ_app; simpl. lia. Qed.

Lemma tally_ge f r s i t : contacts s !! i = Some t → occ r (f t) ≤ tally f r s.
Proof.
  intros Hi. apply (sumZ_ge (λ t, occ r (f t))); [intros; apply occ_nonneg|by eapply list_elem_of_lookup_2].
Qed.

(** ** Entries *)

Lemma send_of_alter f r s r' :
  send_of (set_heap (alter f r) s) r' = if decide (r = r' ∧ (r < length (heap s))%nat) then f (send_of s r) else send_of s r'.
Proof.
  unfold send_of; simpl. case_decide as Hd.
  - destruct Hd as [<- Hlt]. rewrite list_lookup_alter_eq. apply lookup_lt_is_Some_2 in Hlt as [m ->]. done.
  - destruct (decide (r = r')) as [<-|]; [|by rewrite list_lookup_alter_ne].
    rewrite list_lookup_alter_eq, (lookup_ge_None_2 (heap s) r); [done|]. lia.
Qed.

Lemma send_of_ge s r : (length (heap s) ≤ r)%nat → send_of s r = new_send "" "".
Proof. intros H. unfold send_of. by rewrite lookup_ge_None_2. Qed.

Lemma send_of_create id tid s r :
  send_of (create_send id tid s) r = if decide (r = length (heap s)) then new_send id tid else send_of s r.
Proof.
  unfold send_of, create_send; simpl. case_decide as Hd; subst.
  - by rewrite lookup_app_r, Nat.sub_diag by done.
  - destruct (decide (r < length (heap s))%nat).
    + by rewrite lookup_app_l.
    + rewrite (lookup_ge_None_2 (heap s)), lookup_ge_None_2; [done|rewrite length_app; simpl; lia|lia].
Qed.

(** ** The invariant of the counters

    [p] are the entries of waits that have finished and [w] those of ready
    requests, of a turn that is under way. *)

Definition used (p w : list nat) (s : sender) (r : nat) : Prop :=
  r ∈ p ∨ r ∈ w ∨ 0 < tally waiting_of r s ∨ 0 < tally writing_of r s ∨ 0 < tally failed_of r s.

Record counted (p w : list nat) (s : sender) : Prop := {
  c_dict : dict_ok (reqs_need_send s);
  c_reg : ∀ tid r, dget (reqs_need_send s) tid = Some r →
    (r < length (heap s))%nat ∧ sm_transfer_id (send_of s r) = tid;
  c_refs : ∀ r, used p w s r → (r < length (heap s))%nat;
  c_sending : ∀ r, sending (send_of s r) = tally writing_of r s + tally failed_of r s + occ r w
}.

Lemma counted_alter f r p w p' w' s :
  (r < length (heap s))%nat → (∀ m, sm_transfer_id (f m) = sm_transfer_id m) →
  sending (f (send_of s r)) - sending (send_of s r) = occ r w' - occ r w → (∀ r', r' ≠ r → occ r' w' = occ r' w) →
  (∀ r', used p' w' s r' → used p w s r') →
  counted p w s → counted p' w' (set_heap (alter f r) s).
Proof.
  intros Hr Hf Hs Ho Hu [Hd Hreg Href Hsend]. split; simpl; [done|..].
  - intros tid r' H. destruct (Hreg _ _ H). rewrite length_alter, send_of_alter. split; [done|].
    case_decide as Hc; [destruct Hc as [<- _]; by rewrite Hf|done].
  - intros r' H. rewrite length_alter. by apply Href, Hu.
  - intros r'. rewrite send_of_alter. change (tally ?f r' (set_heap _ s)) with (tally f r' s). case_decide as Hc.
    + destruct Hc as [<- _]. specialize (Hsend r). lia.
    + rewrite Hsend, Ho; [done|]. intros ->. by apply Hc.
Qed.

Lemma counted_pop p w k q s :
  counted p w s → counted p w (set_finished_sending q (set_reqs_need_send (λ d, ddel d k) s)).
Proof.
  intros [Hd Hreg Href Hsend]. split; simpl; [by apply dict_ok_ddel| |done..].
  intros tid r H. apply Hreg. destruct (decide (k = tid)) as [->|]; [by rewrite dget_ddel_eq in H|].
  by rewrite dget_ddel_ne in H.
Qed.

(** ** A turn: the finished waits *)

(** What a turn leaves alone. *)
Definition same_frame (s s' : sender) : Prop :=
  contacts s' = contacts s ∧ engine_finished s' = engine_finished s ∧ now s' = now s ∧
  length (heap s') = length (heap s).

#[global] Instance same_frame_preorder : PreOrder same_frame.
Proof. split; [done|]. intros s1 s2 s3 (?&?&?&?) (?&?&?&?). unfold same_frame. split_and!; congruence. Qed.

Lemma used_tally p w s s' r : contacts s' = contacts s → used p w s' r ↔ used p w s r.
Proof. intros E. unfold used, tally. by rewrite E. Qed.

Lemma collect_step ranks s rdy exps e p s' rdy' exps' :
  counted (e.2 :: p) rdy.*2 s → collect ranks (s, rdy, exps) e = (s', rdy', exps') →
  counted p rdy'.*2 s' ∧ same_frame s s' ∧ reqs_need_send s' = reqs_need_send s ∧
  finished_sending s' = finished_sending s ∧ rdy' ++ [] = rdy' ∧ (rdy' = rdy ++ [e] ∨ rdy' = rdy).
Proof.
  intros Hc H. unfold collect in H. destruct (is_some _); simplify_eq.
  - split_and!; [|unfold same_frame; simpl; by rewrite length_alter|done|done|by rewrite app_nil_r|by left].
    eapply (counted_alter _ _ (e.2 :: p) rdy.*2); [|done| | | |done].
    + eapply c_refs; [done|]. left. left.
    + rewrite fmap_app, occ_app. simpl. rewrite occ_cons, decide_True by done. unfold occ, cnt; simpl. lia.
    + intros r' Hne. rewrite fmap_app, occ_app. simpl. rewrite occ_cons, decide_False by done. unfold occ at 2, cnt; simpl. lia.
    + intros r' Hu. unfold used in *. rewrite fmap_app, elem_of_app in Hu. set_solver.
  - split_and!; [|done..|by rewrite app_nil_r|by right]. destruct Hc as [Hd Hreg Href Hsend].
    split; [done..| |done]. intros r Hu. apply Href. unfold used in *. set_solver.
Qed.

Lemma collect_counted ranks don s rdy exps s' rdy' exps' :
  counted don.*2 rdy.*2 s → foldl (collect ranks) (s, rdy, exps) don = (s', rdy', exps') →
  counted [] rdy'.*2 s' ∧ same_frame s s'.
Proof.
  revert s rdy exps. induction don as [|e don IH]; intros s rdy exps Hc H; cbn [foldl] in H; [by simplify_eq|].
  destruct (collect ranks (s, rdy, exps) e) as [[s1 rdy1] exps1] eqn:E.
  eapply collect_step in E as (Hc1 & Hf1 & _); [|exact Hc]. destruct (IH _ _ _ Hc1 H) as [Hc2 Hf2].
  split; [done|]. by etrans.
Qed.

(** ** A turn: the results *)

Lemma settle_counted errs s e w :
  counted [] (e.2 :: w) s → counted [] w (settle errs s e) ∧ same_frame s (settle errs s e).
Proof.
  intros Hc. assert (Hr : (e.2 < length (heap s))%nat) by (eapply c_refs; [done|right; left; left]).
  assert (H1 : counted [] w (set_heap (alter unmark_sending e.2) s)).
  { eapply counted_alter; [done|done| | | |exact Hc].
    - rewrite occ_cons, decide_True by done. simpl. lia.
    - intros r' Hne. rewrite occ_cons, decide_False; [lia|congruence].
    - intros r' Hu. unfold used in *. set_solver. }
  unfold settle. case_bool_decide; [split; [done|unfold same_frame; simpl; by rewrite length_alter]|].
  set (s1 := set_heap (alter unmark_sending e.2) s) in *.
  assert (H2 : counted [] w (set_heap (alter count_sent e.2) s1)).
  { eapply counted_alter; [|done| | |done|exact H1]; [by unfold s1; simpl; rewrite length_alter|simpl; lia|done]. }
  destruct (_ && _).
  - split; [by apply counted_pop|]. unfold same_frame; simpl. by rewrite !length_alter.
  - split; [done|]. unfold same_frame; simpl. by rewrite !length_alter.
Qed.

Lemma settles_counted errs rdy s :
  counted [] rdy.*2 s → counted [] [] (foldl (settle errs) s rdy) ∧ same_frame s (foldl (settle errs) s rdy).
Proof.
  revert s. induction rdy as [|e rdy IH]; intros s Hc; [done|]. cbn [foldl].
  apply (settle_counted errs) in Hc as [H1 Hf1]. destruct (IH _ H1) as [H2 Hf2]. split; [done|]. by etrans.
Qed.

(** Moving the users of a contact in and out of the turn. *)
Lemma counted_contact p w p' w' i t t' s :
  contacts s !! i = Some t →
  (∀ r, occ r (writing_of t) + occ r (failed_of t) + occ r w = occ r (writing_of t') + occ r (failed_of t') + occ r w') →
  (∀ r, r ∈ p' ∨ r ∈ w' ∨ r ∈ waiting_of t' ∨ r ∈ writing_of t' ∨ r ∈ failed_of t' →
        r ∈ p ∨ r ∈ w ∨ r ∈ waiting_of t ∨ r ∈ writing_of t ∨ r ∈ failed_of t) →
  counted p w s → counted p' w' (set_contact i t' s).
Proof.
  intros Hi Ho Hu [Hd Hreg Href Hsend]. split; [done|done| |].
  - intros r Hr. change (heap (set_contact i t' s)) with (heap s). apply Href.
    unfold used in Hr |- *. rewrite !(tally_set _ _ _ _ t) in Hr by done.
    pose proof (tally_ge waiting_of r _ _ _ Hi). pose proof (tally_ge writing_of r _ _ _ Hi).
    pose proof (tally_ge failed_of r _ _ _ Hi). specialize (Hu r). rewrite !occ_pos in *.
    pose proof (occ_nonneg r (waiting_of t)). pose proof (occ_nonneg r (writing_of t)). pose proof (occ_nonneg r (failed_of t)).
    pose proof (occ_nonneg r (waiting_of t')). pose proof (occ_nonneg r (writing_of t')). pose proof (occ_nonneg r (failed_of t')).
    lia.
  - intros r. change (send_of (set_contact i t' s) r) with (send_of s r). rewrite Hsend, !(tally_set _ _ _ _ t) by done.
    specialize (Ho r). lia.
Qed.

Lemma set_contact_set i t t' s : set_contact i t' (set_contact i t s) = set_contact i t' s.
Proof. unfold set_contact, set_contacts; simpl. by rewrite list_insert_insert_eq. Qed.

Lemma settle_set_contact errs i t s e : settle errs (set_contact i t s) e = set_contact i t (settle errs s e).
Proof.
  unfold settle. case_bool_decide; [done|].
  change (send_of (set_heap ?f (set_heap ?g (set_contact i t s))) ?r) with (send_of (set_heap f (set_heap g s)) r).
  change (reqs_need_send (set_heap ?f (set_heap ?g (set_contact i t s)))) with (reqs_need_send (set_heap f (set_heap g s))).
  by destruct (_ && _).
Qed.

Lemma settles_set_contact errs i t rdy s :
  foldl (settle errs) (set_contact i t s) rdy = set_contact i t (foldl (settle errs) s rdy).
Proof. revert s. induction rdy as [|e rdy IH]; intros s; [done|]. cbn [foldl]. by rewrite settle_set_contact, IH. Qed.

Lemma collect_set_contact ranks i t s rdy exps e :
  collect ranks (set_contact i t s, rdy, exps) e =
  let '(s', rdy', exps') := collect ranks (s, rdy, exps) e in (set_contact i t s', rdy', exps').
Proof.
  unfold collect. change (send_of (set_contact i t s) ?r) with (send_of s r).
  change (reqs_need_send (set_contact i t s)) with (reqs_need_send s). by destruct (is_some _).
Qed.

Lemma collects_set_contact ranks i t don s rdy exps :
  foldl (collect ranks) (set_contact i t s, rdy, exps) don =
  let '(s', rdy', exps') := foldl (collect ranks) (s, rdy, exps) don in (set_contact i t s', rdy', exps').
Proof.
  revert s rdy exps. induction don as [|e don IH]; intros s rdy exps; [done|]. cbn [foldl].
  rewrite collect_set_contact. destruct (collect ranks (s, rdy, exps) e) as [[s1 rdy1] exps1]. apply IH.
Qed.

(** Where a turn leaves its contact. *)
Definition turn_done (t : contact) (last : bool) (r : MooncakeXferResponse) : contact :=
  set_pc (if last then Done else Waiting) (reply r t).

Lemma finish_turn_eq i t rdy p ret s :
  ∃ errs r, finish_turn i t rdy p ret s =
    set_contact i (turn_done t (match pending t with [] => true | _ => false end) r) (foldl (settle errs) s rdy) ∧
    errs = (if ret =? 0 then err_reqs p else err_reqs p ++ (filter (λ e, e.1 ∉ err_reqs p) rdy).*1) ∧
    rs_ok_reqs r = (if ret =? 0 then (filter (λ e, e.1 ∉ err_reqs p) rdy).*1 else []) ∧ rs_err_reqs r = errs ∧
    rs_status r = (match pending t with [] => FINISH | _ => CONTINUE end).
Proof. eexists _, _. split; [reflexivity|]. simpl. split_and!; [done..|]. by destruct (pending t). Qed.

Definition idle (t : contact) : Prop := writing_of t = [] ∧ failed_of t = [].

Lemma turn_done_idle t last r : idle (turn_done t last r) ∧ (∀ x, x ∈ waiting_of (turn_done t last r) → x ∈ (pending t).*2).
Proof. unfold idle, turn_done, waiting_of. destruct last; simpl; split; [done|set_solver|done|done]. Qed.

(** From a turn with the ready requests [rdy] and its contact [t'] idle. *)
Lemma finish_counted i t t' rdy p ret s :
  contacts s !! i = Some t' → idle t' → waiting_of t' = (pending t).*2 →
  counted [] rdy.*2 s → counted [] [] (finish_turn i t rdy p ret s).
Proof.
  intros Hi [Hw Hf] Hp Hc. destruct (finish_turn_eq i t rdy p ret s) as (errs & r & -> & _).
  rewrite <- settles_set_contact. apply settles_counted.
  destruct (turn_done_idle t (match pending t with [] => true | _ => false end) r) as [[Hw' Hf'] Hin].
  eapply (counted_contact [] rdy.*2 [] rdy.*2); [done| | |done].
  - intros x. by rewrite Hw, Hf, Hw', Hf'.
  - intros x. rewrite Hw, Hf, Hw', Hf', Hp. specialize (Hin x). set_solver.
Qed.

Lemma fail_counted i t t' rdy e s :
  contacts s !! i = Some t' → idle t' → counted [] rdy.*2 s → counted [] [] (fail_contact i t rdy e s).
Proof.
  intros Hi [Hw Hf] Hc. unfold fail_contact. eapply (counted_contact [] rdy.*2 [] []); [done| | |done].
  - intros x. rewrite Hw, Hf. unfold writing_of, failed_of; simpl. unfold occ, cnt; simpl. lia.
  - intros x. rewrite Hw, Hf. unfold waiting_of, writing_of, failed_of; simpl. set_solver.
Qed.

Lemma finished_waits_spec t don s :
  finished_waits t don s = true ↔
  don ≠ [] ∧ NoDup don ∧ ∀ e, e ∈ don → e ∈ pending t ∧ ready (send_of s e.2) = true.
Proof.
  unfold finished_waits. rewrite !andb_true_iff, !bool_decide_eq_true, forallb_forall.
  setoid_rewrite andb_true_iff. setoid_rewrite bool_decide_eq_true. setoid_rewrite list_elem_of_In. tauto.
Qed.

Lemma finish_turn_set_contact i t t' rdy p ret s :
  finish_turn i t rdy p ret (set_contact i t' s) = finish_turn i t rdy p ret s.
Proof. unfold finish_turn. cbv zeta. by rewrite settles_set_contact, set_contact_set. Qed.

Lemma wake_counted mtk c i t don s :
  contacts s !! i = Some t → pc t = Waiting → finished_waits t don s = true →
  counted [] [] s → counted [] [] (wake mtk c i t don s).
Proof.
  intros Hi Hpc Hd Hc. unfold wake.
  apply finished_waits_spec in Hd as (_ & _ & Hd).
  set (t1 := drop_done don.*1 t). set (t0 := set_pc Waiting t1).
  assert (Hsub : ∀ x, x ∈ (pending t1).*2 → x ∈ (pending t).*2).
  { intros x (e & -> & He)%list_elem_of_fmap. simpl in He. apply list_elem_of_filter in He as [_ He].
    apply list_elem_of_fmap. by exists e. }
  assert (Hc0 : counted don.*2 [] (set_contact i t0 s)).
  { eapply (counted_contact [] [] don.*2 []); [exact Hi| | |exact Hc].
    - intros x. unfold writing_of, failed_of. by rewrite Hpc.
    - intros x. unfold writing_of, failed_of, waiting_of. rewrite Hpc. simpl.
      assert (x ∈ don.*2 → x ∈ (pending t).*2).
      { intros (e & -> & He)%list_elem_of_fmap. apply list_elem_of_fmap. exists e. split; [done|by apply Hd]. }
      specialize (Hsub x). set_solver. }
  destruct (foldl (collect (remote_tp_ranks t1)) (s, [], []) don) as [[s1 rdy] exps] eqn:E.
  assert (E0 : foldl (collect (remote_tp_ranks t1)) (set_contact i t0 s, [], []) don = (set_contact i t0 s1, rdy, exps))
    by by rewrite collects_set_contact, E.
  eapply (collect_counted _ _ _ [] _ _ _ _) in E0 as [Hc1 Hf]; [|exact Hc0].
  assert (Hi1 : contacts (set_contact i t0 s1) !! i = Some t0).
  { destruct Hf as (-> & _). simpl. apply list_lookup_insert_eq. by eapply lookup_lt_Some. }
  set (t2 := log_expired exps t1).
  assert (Hidle : idle t0) by done. assert (Hw0 : waiting_of t0 = (pending t2).*2) by done.
  destruct (build_transfer_params _ _ _ _ _ _) as [p|e].
  - destruct (copies p).
    + rewrite <- (finish_turn_set_contact _ _ t0). by eapply finish_counted.
    + rewrite <- (set_contact_set i t0). eapply (counted_contact [] rdy.*2 [] []); [exact Hi1| | |done].
      * intros x. unfold writing_of, failed_of; simpl. unfold occ at 1 2 5 6, cnt; simpl. lia.
      * intros x. unfold waiting_of, writing_of, failed_of; simpl. set_solver.
  - assert (Hf1 : fail_contact i t2 rdy e (set_contact i t0 s1) = fail_contact i t2 rdy e s1) by apply set_contact_set.
    rewrite <- Hf1. by eapply fail_counted.
Qed.

Lemma written_counted i t rdy p ret s :
  contacts s !! i = Some t → pc t = Writing rdy p → counted [] [] s →
  counted [] [] (match ret with Ok z => finish_turn i t rdy p z s | Err e => fail_contact i t rdy e s end).
Proof.
  intros Hi Hpc Hc. set (t0 := set_pc Waiting t).
  assert (Hc0 : counted [] rdy.*2 (set_contact i t0 s)).
  { eapply (counted_contact [] [] [] rdy.*2); [exact Hi| | |exact Hc]; intros x;
      unfold writing_of, failed_of, waiting_of; rewrite Hpc; simpl; [unfold occ at 2 3 4 5, cnt; simpl; lia|set_solver]. }
  assert (Hi0 : contacts (set_contact i t0 s) !! i = Some t0).
  { simpl. apply list_lookup_insert_eq. by eapply lookup_lt_Some. }
  destruct ret as [z|e].
  - rewrite <- (finish_turn_set_contact _ _ t0). by eapply finish_counted.
  - assert (Hf : fail_contact i t rdy e (set_contact i t0 s) = fail_contact i t rdy e s) by apply set_contact_set.
    rewrite <- Hf. by eapply fail_counted.
Qed.

Lemma timeout_counted i t s : contacts s !! i = Some t → pc t = Waiting → counted [] [] s → counted [] [] (time_out i t s).
Proof.
  intros Hi Hpc Hc. eapply (counted_contact [] [] [] []); [exact Hi| | |exact Hc]; intros x;
    unfold writing_of, failed_of, waiting_of; rewrite Hpc; simpl; set_solver.
Qed.

(** ** New entries and new contacts *)

Lemma create_counted id tid p w s :
  dget (reqs_need_send s) tid = None → counted p w s → counted p w (create_send id tid s).
Proof.
  intros Htid [Hd Hreg Href Hsend].
  assert (Hlen : length (heap (create_send id tid s)) = S (length (heap s))) by (simpl; rewrite length_app; simpl; lia).
  split; [by apply dict_ok_dset| | |].
  - intros tid' r. rewrite Hlen, send_of_create. simpl. destruct (decide (tid = tid')) as [<-|Hne].
    + rewrite dget_dset_eq. intros [= <-]. rewrite decide_True by done. split; [lia|done].
    + rewrite dget_dset_ne by done. intros H. destruct (Hreg _ _ H). rewrite decide_False by lia. split; [lia|done].
  - intros r Hr. rewrite Hlen. assert (r < length (heap s))%nat by by apply Href. lia.
  - intros r. rewrite send_of_create. change (tally ?f r (create_send id tid s)) with (tally f r s).
    case_decide as Hr; [|apply Hsend]. rewrite <- Hsend, send_of_ge by lia. done.
Qed.

Lemma is_some_dget {A} (o : option A) : is_some o = false → o = None.
Proof. by destruct o. Qed.

Lemma pendings_counted l s pend s' pend' :
  counted pend.*2 [] s → foldl add_pending (s, pend) l = (s', pend') →
  counted pend'.*2 [] s' ∧ contacts s' = contacts s.
Proof.
  revert s pend. induction l as [|[d [tid bl]] l IH]; intros s pend Hc H; cbn [foldl] in H; [by simplify_eq|].
  unfold add_pending in H at 2. set (s1 := if is_some _ then s else _) in *.
  assert (Hc1 : counted pend.*2 [] s1 ∧ contacts s1 = contacts s ∧ is_some (dget (reqs_need_send s1) tid) = true).
  { unfold s1. destruct (is_some _) eqn:E; [done|]. split; [by apply create_counted; [apply is_some_dget|]|].
    split; [done|]. simpl. by rewrite dget_dset_eq. }
  destruct Hc1 as (Hc1 & <- & Hs). destruct (dget (reqs_need_send s1) tid) as [r|] eqn:Er; [|done]. simpl in H.
  eapply IH; [|exact H]. destruct Hc1 as [Hd Hreg Href Hsend]. split; [done..| |done].
  intros x [Hx|Hx]; [|apply Href; by right]. apply list_elem_of_fmap in Hx as (e & -> & He).
  apply elem_of_dset in He as [->|[He _]]; [by eapply Hreg|]. apply Href. left. by apply list_elem_of_fmap_2.
Qed.

Lemma add_contact_counted p t s :
  writing_of t = [] → failed_of t = [] → (∀ x, x ∈ waiting_of t → x ∈ p) →
  counted p [] s → counted [] [] (add_contact t s).
Proof.
  intros Hw Hf Hp [Hd Hreg Href Hsend]. split; [done|done| |].
  - intros x Hx. apply Href. unfold used in *. rewrite !tally_add, Hw, Hf in Hx. change (occ x []) with 0 in Hx.
    destruct (decide (x ∈ waiting_of t)) as [Hin|Hin]; [left; by apply Hp|]. apply occ_zero in Hin.
    destruct Hx as [Hx|[Hx|Hx]]; [by apply elem_of_nil in Hx..|]. right; right. lia.
  - intros x. change (send_of (add_contact t s) x) with (send_of s x). rewrite Hsend, !tally_add, Hw, Hf.
    change (occ x []) with 0. lia.
Qed.

Lemma start_counted target tgi c m s : counted [] [] s → counted [] [] (start_contact target tgi c m s).
Proof.
  intros Hc. unfold start_contact. destruct (check_contact _ _ _ _) as [[[ranks regs]|why]|e].
  - destruct (foldl add_pending (s, []) (req_blocks m)) as [s1 pend] eqn:E.
    eapply pendings_counted in E as [Hc1 _]; [|exact Hc].
    eapply add_contact_counted; [| | |exact Hc1]; unfold writing_of, failed_of, waiting_of; by destruct pend.
  - eapply add_contact_counted; [done..| |exact Hc]. unfold waiting_of; simpl. set_solver.
  - eapply add_contact_counted; [done..| |exact Hc]. unfold waiting_of; simpl. set_solver.
Qed.

(** ** Metadata, the sweep and the reports *)

Lemma each_ind {A} (P : sender → Prop) (f : sender → A → sender * option exn) s l :
  (∀ s a, a ∈ l → P s → P (f s a).1) → P s → P (each f s l).1.
Proof.
  revert s. induction l as [|a l IH]; intros s Hf Hs; [done|]. simpl.
  assert (Ha : P (f s a).1) by (apply Hf; [by left|done]). destruct (f s a) as [s1 [e|]]; [done|].
  apply IH; [|done]. intros s' a' Ha'. apply Hf. by right.
Qed.

Lemma record_counted m s : counted [] [] s → counted [] [] (record_send_reqs m s).1.
Proof.
  intros Hc. unfold record_send_reqs.
  assert (H1 : counted [] [] (each (record_one m) s (reqs_to_send m)).1).
  { apply each_ind; [|done]. clear s Hc. intros s [id [tid bl]] _ Hc. unfold record_one. destruct bl as [|b bl].
    - simpl. destruct (is_some _) eqn:E; [done|]. by apply create_counted; [apply is_some_dget|].
    - destruct (dget (reqs_need_send s) tid) as [r|] eqn:E; [|done]. simpl.
      eapply counted_alter; [by eapply c_reg|done| |done|done|done]. simpl. lia. }
  destruct (each (record_one m) s (reqs_to_send m)) as [s1 [e|]]; [done|].
  apply each_ind; [|done]. clear. intros s tid _ Hc. unfold drop_one.
  destruct (dget (reqs_need_send s) tid) as [r|]; [|done]. simpl. by apply (counted_pop _ _ tid id).
Qed.

Lemma ddels_counted p w l s :
  counted p w s → counted p w (set_reqs_need_send (λ d, foldl (λ d (e : string * nat), ddel d e.1) d l) s).
Proof.
  revert s. induction l as [|e l IH]; intros s Hc; [by destruct Hc|].
  apply (counted_pop _ _ e.1 id) in Hc. by apply IH in Hc.
Qed.

Section run.
Context (mtk : list Z → Z → list Z) (target : Z → result (list Z)) (tgi : string → Z) (c : worker_config).
Notation send_step := (send_step mtk target tgi c).
Notation send_run := (send_run mtk target tgi c).

Lemma step_counted s e s' : send_step s e = Some s' → counted [] [] s → counted [] [] s'.
Proof.
  intros H Hc. destruct e as [m|m|i don|i|i ret| |d|]; simpl in H.
  - simplify_eq. by apply record_counted.
  - simplify_eq. by apply start_counted.
  - destruct (contacts s !! i) as [t|] eqn:Hi; [|done]. simpl in H. destruct (pc t) eqn:Hpc; try done.
    destruct (finished_waits t don s) eqn:Hd; [|done]. simplify_eq. by apply wake_counted.
  - destruct (contacts s !! i) as [t|] eqn:Hi; [|done]. simpl in H. destruct (pc t) eqn:Hpc; try done.
    destruct (forallb _ _); [|done]. simplify_eq. by apply timeout_counted.
  - destruct (contacts s !! i) as [t|] eqn:Hi; [|done]. simpl in H. destruct (pc t) eqn:Hpc; try done.
    simplify_eq. by eapply written_counted.
  - simplify_eq. unfold sweep_expired_sends. apply ddels_counted. by destruct Hc.
  - destruct (0 <=? d); simplify_eq. by destruct Hc.
  - simplify_eq. by destruct Hc.
Qed.

Lemma init_counted : counted [] [] init_sender.
Proof.
  split; [apply NoDup_nil_2|done| |intros r; by rewrite send_of_ge by (simpl; lia)].
  intros r [H|[H|H]]; [by apply elem_of_nil in H..|]. unfold tally in H; simpl in H. lia.
Qed.

Lemma run_counted s es s' : send_run s es = Some s' → counted [] [] s → counted [] [] s'.
Proof.
  revert s. induction es as [|e es IH]; intros s H Hc; simpl in H; [by simplify_eq|].
  destruct (send_step s e) eqn:E; [|done]. simpl in H. eapply IH; [done|]. by eapply step_counted.
Qed.
End run.
