(* ===== verification/P2PSendSafe.v ===== *)
(** * The raw sender of the P2P connector: blocks are kept while they are read

    When every decoder rank asks for a transfer once, an entry stays
    registered while it is written or is about to be, so the engine is not
    told to free its blocks: invariant and its preservation. *)

From S2P Require Import Prelude Messages Transfer P2PPlan P2PSched P2PSend P2PSendThms.

#[local] Arguments ddel : simpl never.
#[local] Arguments dset : simpl never.

(** How many requests of the contacts so far name transfer [tid]. *)
Definition names (tid : string) (m : MooncakeXferMetadata) : Z :=
  cnt (λ e : string * (string * list (list Z)), bool_decide (e.2.1 = tid)) (req_blocks m).

Definition asked (s : sender) (tid : string) : Z := sumZ ((λ t, names tid (meta t)) <$> contacts s).

Definition tid_of (s : sender) (r : nat) : string := sm_transfer_id (send_of s r).

Definition registered (s : sender) (r : nat) : Prop := dget (reqs_need_send s) (tid_of s r) = Some r.

(** The entries in use by the contacts and by the turn under way. *)
Definition load (p w : list nat) (s : sender) (r : nat) : Z :=
  tally writing_of r s + tally failed_of r s + occ r w + tally waiting_of r s + occ r p.

Definition writes_to (w : list nat) (s : sender) (r : nat) : Prop := r ∈ w ∨ 0 < tally writing_of r s.

Definition active (p w : list nat) (s : sender) (r : nat) : Prop :=
  ready (send_of s r) = true ∧ (r ∈ p ∨ 0 < tally waiting_of r s) ∨ writes_to w s r.

(** What the engine has been told, in order: one report for an entry, made
    when the entry was taken out of the dictionary. *)
Definition reported (s : sender) (refs : list nat) : Prop :=
  engine_finished s ++ finished_sending s = (λ r, p_req_id (send_of s r)) <$> refs ∧ NoDup refs ∧
  ∀ r, r ∈ refs → (r < length (heap s))%nat ∧ ¬ registered s r.

Section kept.
(** The number of decoder ranks that contact this worker. *)
Context (n : Z).

Record kept (p w : list nat) (s : sender) : Prop := {
  k_counted : counted p w s;
  k_asked : ∀ tid, asked s tid ≤ n;
  k_load : ∀ r, (r < length (heap s))%nat → sent (send_of s r) + load p w s r ≤ asked s (tid_of s r);
  k_sent : ∀ r, 0 ≤ sent (send_of s r);
  k_need : ∀ r, need_send (send_of s r) = 0 ∨ need_send (send_of s r) = n;
  k_write : ∀ r, writes_to w s r → need_send (send_of s r) = n ∧ ready (send_of s r) = true;
  k_ranks : ∀ t, t ∈ contacts s → waiting_of t ≠ [] → zlen (remote_tp_ranks t) = n;
  k_active : ∀ r, active p w s r → registered s r;
  k_reported : ∃ refs, reported s refs
}.

Lemma occ_same r (l l' : list nat) : occ r l' = occ r l → r ∈ l' → r ∈ l.
Proof. rewrite !occ_pos. lia. Qed.

(** A change of one registered entry. *)
Lemma kept_alter f r p w p' w' s :
  kept p w s → registered s r → (∀ m, sm_transfer_id (f m) = sm_transfer_id m) →
  counted p' w' (set_heap (alter f r) s) →
  (∀ r', r' ≠ r → occ r' w' = occ r' w ∧ occ r' p' = occ r' p) →
  sent (f (send_of s r)) + occ r w' + occ r p' ≤ sent (send_of s r) + occ r w + occ r p →
  0 ≤ sent (f (send_of s r)) →
  need_send (f (send_of s r)) = 0 ∨ need_send (f (send_of s r)) = n →
  (writes_to w' s r → need_send (f (send_of s r)) = n ∧ ready (f (send_of s r)) = true) →
  kept p' w' (set_heap (alter f r) s).
Proof.
  intros [Hc Ha Hl Hs Hn Hw Hrk Hact (refs & Hfin & Hnd & Hrefs)] Hreg Hf Hc' Ho Hsum Hs' Hn' Hw'.
  assert (Hlen : (r < length (heap s))%nat) by by apply (c_reg _ _ _ Hc) in Hreg as [? _].
  assert (Htid : ∀ r', tid_of (set_heap (alter f r) s) r' = tid_of s r').
  { intros r'. unfold tid_of. rewrite send_of_alter. case_decide as Hd; [|done]. destruct Hd as [<- _]. apply Hf. }
  assert (Hof : ∀ r', send_of (set_heap (alter f r) s) r' = if decide (r = r') then f (send_of s r) else send_of s r').
  { intros r'. rewrite send_of_alter. repeat case_decide; naive_solver. }
  assert (Hregs : ∀ r', registered (set_heap (alter f r) s) r' ↔ registered s r').
  { intros r'. unfold registered. by rewrite Htid. }
  assert (Hwr : ∀ r', r' ≠ r → writes_to w' s r' → writes_to w s r').
  { intros r' Hne [H|H]; [left; by eapply occ_same; [apply Ho|]|by right]. }
  split; [done|done| | | | |done| |].
  - intros r'. simpl. rewrite length_alter, Hof, Htid. intros Hr'. specialize (Hl _ Hr').
    change (load p' w' (set_heap (alter f r) s) r') with (load p' w' s r'). unfold load in *.
    change (asked (set_heap (alter f r) s) ?x) with (asked s x).
    destruct (decide (r = r')) as [<-|Hne]; [|destruct (Ho r') as [-> ->]; done]. lia.
  - intros r'. rewrite Hof. by case_decide.
  - intros r'. rewrite Hof. by case_decide.
  - intros r' Hw1. rewrite Hof. case_decide; [subst; by apply Hw'|]. apply Hw, Hwr; [done|exact Hw1].
  - intros r' Hr'. apply Hregs. destruct (decide (r = r')) as [<-|Hne]; [done|]. apply Hact.
    unfold active in *. rewrite Hof, decide_False in Hr' by done. destruct Hr' as [[Hrd [Hp|Hp]]|Hr'].
    + left. split; [done|]. left. by eapply occ_same; [apply Ho|].
    + left. split; [done|]. by right.
    + right. by apply Hwr.
  - exists refs. split_and!; [|done|].
    + simpl. rewrite Hfin. apply list_fmap_ext. intros j r' Hj%list_elem_of_lookup_2. rewrite Hof, decide_False; [done|].
      intros <-. by apply Hrefs in Hj as [_ ?].
    + intros r' Hr'. rewrite Hregs. simpl. rewrite length_alter. by apply Hrefs.
Qed.

(** Moving the users of a contact in and out of the turn. *)
Lemma kept_contact p w p' w' i t t' s :
  kept p w s → contacts s !! i = Some t → meta t' = meta t →
  (waiting_of t' ≠ [] → zlen (remote_tp_ranks t') = n) →
  counted p' w' (set_contact i t' s) →
  (∀ r, occ r (writing_of t') + occ r (failed_of t') + occ r w' + occ r (waiting_of t') + occ r p' ≤
        occ r (writing_of t) + occ r (failed_of t) + occ r w + occ r (waiting_of t) + occ r p) →
  (∀ r, occ r w' + occ r (writing_of t') ≤ occ r w + occ r (writing_of t)) →
  (∀ r, occ r p' + occ r (waiting_of t') ≤ occ r p + occ r (waiting_of t)) →
  kept p' w' (set_contact i t' s).
Proof.
  intros [Hc Ha Hl Hs Hn Hw Hrk Hact Hfin] Hi Hm Hrk' Hc' Hsum Hwr Hwt.
  assert (Hasked : ∀ tid, asked (set_contact i t' s) tid = asked s tid).
  { intros tid. unfold asked. simpl. erewrite sumZ_insert by done. rewrite Hm. lia. }
  assert (Hwr' : ∀ r, writes_to w' (set_contact i t' s) r → writes_to w s r).
  { intros r. unfold writes_to. rewrite (tally_set _ _ _ _ t) by done. rewrite !occ_pos. specialize (Hwr r).
    pose proof (occ_nonneg r w). pose proof (occ_nonneg r w'). pose proof (occ_nonneg r (writing_of t')).
    pose proof (tally_ge writing_of r _ _ _ Hi). lia. }
  split; [done|by intros tid; rewrite Hasked| |done|done| | | |done].
  - intros r Hr. rewrite Hasked. specialize (Hl r Hr). unfold load in *. rewrite !(tally_set _ _ _ _ t) by done.
    specialize (Hsum r). change (send_of (set_contact i t' s) r) with (send_of s r).
    change (tid_of (set_contact i t' s) r) with (tid_of s r). lia.
  - intros r Hr. by apply Hw, Hwr'.
  - intros t0 [->|Ht0]%elem_of_insert_inv; [done|by apply Hrk].
  - intros r [[Hrd Hr]|Hr]; apply Hact; [left|right; by apply Hwr']. split; [done|].
    rewrite (tally_set _ _ _ _ t) in Hr by done. rewrite !occ_pos in *. specialize (Hwt r).
    pose proof (occ_nonneg r p). pose proof (occ_nonneg r p'). pose proof (occ_nonneg r (waiting_of t')).
    pose proof (tally_ge waiting_of r _ _ _ Hi). lia.
Qed.

(** Taking entries that are not in use out of the dictionary, and reporting
    some of them. *)
Lemma kept_unregister p w (rs rep : list nat) d' s :
  kept p w s → counted p w (set_reqs_need_send (λ _, d') s) →
  (∀ r, r ∈ rs → registered s r ∧ ¬ active p w s r) → rep ⊆ rs → NoDup rep →
  (∀ r, registered s r → r ∉ rs → dget d' (tid_of s r) = Some r) →
  (∀ tid r, dget d' tid = Some r → dget (reqs_need_send s) tid = Some r ∧ r ∉ rs) →
  kept p w (set_finished_sending (λ q, q ++ ((λ r, p_req_id (send_of s r)) <$> rep)) (set_reqs_need_send (λ _, d') s)).
Proof.
  intros [Hc Ha Hl Hs Hn Hw Hrk Hact (refs & Hfin & Hnd & Hrefs)] Hc' Hrs Hrep Hndr Hkeep Hback.
  split; [|done..| |].
  - destruct Hc'. by split.
  - intros r Hr. apply Hkeep; [by apply Hact|]. intros Hin. by apply Hrs in Hin as [_ ?].
  - exists (refs ++ rep). split_and!.
    + simpl. by rewrite app_assoc, Hfin, fmap_app.
    + apply NoDup_app. split_and!; [done| |done]. intros r Hr Hin. apply Hrefs in Hr as [_ Hr]. by apply Hr, Hrs, Hrep.
    + intros r [Hr|Hr]%elem_of_app.
      * apply Hrefs in Hr as [? Hr]. split; [done|]. intros Hreg. apply Hr. by apply Hback in Hreg as [? _].
      * apply Hrep in Hr. split; [|intros Hreg; by apply Hback in Hreg as [_ ?]]. apply Hrs in Hr as [Hr _].
        by apply (c_reg _ _ _ Hc) in Hr as [? _].
Qed.

Lemma unused_not_active p w s r : load p w s r = 0 → ¬ active p w s r.
Proof.
  unfold load, active, writes_to. rewrite !occ_pos.
  pose proof (tally_nonneg writing_of r s). pose proof (tally_nonneg failed_of r s).
  pose proof (tally_nonneg waiting_of r s). pose proof (occ_nonneg r w). pose proof (occ_nonneg r p). lia.
Qed.

Lemma alter_alter f g r s : set_heap (alter f r) (set_heap (alter g r) s) = set_heap (alter (f ∘ g) r) s.
Proof. unfold set_heap; simpl. by rewrite list_alter_alter_eq. Qed.

Lemma load_nonneg p w s r : 0 ≤ load p w s r.
Proof.
  unfold load. pose proof (tally_nonneg writing_of r s). pose proof (tally_nonneg failed_of r s).
  pose proof (tally_nonneg waiting_of r s). pose proof (occ_nonneg r w). pose proof (occ_nonneg r p). lia.
Qed.

(** The entry of a settled request, its counters updated by [f]. *)
Lemma settle_alter_kept f s (e : string * nat) w :
  kept [] (e.2 :: w) s → (∀ m, sm_transfer_id (f m) = sm_transfer_id m) → (∀ m, sending (f m) = sending m - 1) →
  (∀ m, need_send (f m) = need_send m ∧ ready (f m) = ready m ∧ sent m ≤ sent (f m) ≤ sent m + 1) →
  kept [] w (set_heap (alter f e.2) s).
Proof.
  intros Hk Ht Hsd Hf. destruct (Hf (send_of s e.2)) as (Hfn & Hfr & Hfs).
  assert (Hreg : registered s e.2) by (apply (k_active _ _ _ Hk); right; left; left).
  assert (Hwr : need_send (send_of s e.2) = n ∧ ready (send_of s e.2) = true) by (apply (k_write _ _ _ Hk); left; left).
  assert (Hlt : (e.2 < length (heap s))%nat) by by apply (c_reg _ _ _ (k_counted _ _ _ Hk)) in Hreg as [? _].
  assert (Ho : ∀ r', occ r' (e.2 :: w) = (if decide (e.2 = r') then 1 else 0) + occ r' w) by (intros; apply occ_cons).
  pose proof (k_sent _ _ _ Hk e.2) as Hs0.
  eapply kept_alter; [exact Hk|done|done| | | | | |].
  - eapply counted_alter; [done|done| | | |exact (k_counted _ _ _ Hk)].
    + rewrite Ho, decide_True, Hsd by done. lia.
    + intros r' Hne. rewrite Ho, decide_False; [lia|congruence].
    + intros r' Hu. unfold used in *. set_solver.
  - intros r' Hne. rewrite Ho, decide_False by congruence. done.
  - rewrite Ho, decide_True by done. lia.
  - lia.
  - rewrite Hfn. apply (k_need _ _ _ Hk).
  - intros _. by rewrite Hfn, Hfr.
Qed.

Lemma settle_kept errs s e w : kept [] (e.2 :: w) s → kept [] w (settle errs s e).
Proof.
  intros Hk. assert (Hreg : registered s e.2) by (apply (k_active _ _ _ Hk); right; left; left).
  assert (Hwr : need_send (send_of s e.2) = n) by (apply (k_write _ _ _ Hk); left; left).
  assert (Hlt : (e.2 < length (heap s))%nat) by by apply (c_reg _ _ _ (k_counted _ _ _ Hk)) in Hreg as [? _].
  unfold settle. case_bool_decide.
  { apply settle_alter_kept; [done..|]. intros m; simpl; split_and!; [done|done|lia|lia]. }
  rewrite alter_alter. set (s2 := set_heap (alter (count_sent ∘ unmark_sending) e.2) s).
  assert (H2 : kept [] w s2) by (apply settle_alter_kept; [done..|intros m; simpl; split_and!; [done|done|lia|lia]]).
  destruct (_ && _) eqn:E; [|done]. apply andb_true_iff in E as [E _]. apply Z.eqb_eq in E.
  assert (Hof : send_of s2 e.2 = count_sent (unmark_sending (send_of s e.2))) by (unfold s2; by rewrite send_of_alter, decide_True).
  assert (Htid : sm_transfer_id (send_of s2 e.2) = tid_of s2 e.2) by done.
  assert (Hreg2 : registered s2 e.2) by (unfold registered, tid_of; rewrite Hof; exact Hreg).
  assert (Hlt2 : (e.2 < length (heap s2))%nat) by (unfold s2; simpl; by rewrite length_alter).
  assert (Hload : load [] w s2 e.2 = 0).
  { pose proof (k_load _ _ _ H2 e.2 Hlt2) as Hl. pose proof (k_asked _ _ _ H2 (tid_of s2 e.2)).
    pose proof (load_nonneg [] w s2 e.2). rewrite Hof in E, Hl. simpl in E, Hl. lia. }
  eapply (kept_unregister [] w [e.2] [e.2] (ddel (reqs_need_send s2) (tid_of s2 e.2))) in H2; [exact H2|..].
  - apply (counted_pop _ _ _ id), H2.
  - intros r Hr%list_elem_of_singleton. subst. split; [done|]. by apply unused_not_active.
  - done.
  - apply NoDup_singleton.
  - intros r Hr Hne. rewrite dget_ddel_ne; [done|]. intros Heq. unfold registered in *. set_solver by congruence.
  - intros tid r Hr. destruct (decide (tid_of s2 e.2 = tid)) as [<-|Hne]; [by rewrite dget_ddel_eq in Hr|].
    rewrite dget_ddel_ne in Hr by done. split; [done|]. intros ->%list_elem_of_singleton. apply Hne.
    by apply (c_reg _ _ _ (k_counted _ _ _ H2)) in Hr as [_ ?].
Qed.

Lemma settles_kept errs rdy s : kept [] rdy.*2 s → kept [] [] (foldl (settle errs) s rdy).
Proof. revert s. induction rdy as [|e rdy IH]; intros s Hk; [done|]. cbn [foldl]. apply IH. by apply settle_kept. Qed.

(** Every wait that has finished is still registered: it is collected. *)
Lemma collect_kept ranks s (e : string * nat) p rdy exps :
  kept (e.2 :: p) rdy.*2 s → ready (send_of s e.2) = true → zlen ranks = n →
  collect ranks (s, rdy, exps) e = (set_heap (alter (mark_sending ranks) e.2) s, rdy ++ [e], exps) ∧
  kept p (rdy ++ [e]).*2 (set_heap (alter (mark_sending ranks) e.2) s).
Proof.
  intros Hk Hrd Hn.
  assert (Hreg : registered s e.2) by (apply (k_active _ _ _ Hk); left; split; [done|left; left]).
  assert (Hcol : collect ranks (s, rdy, exps) e = (set_heap (alter (mark_sending ranks) e.2) s, rdy ++ [e], exps)).
  { unfold collect. fold (tid_of s e.2). unfold registered in Hreg. by rewrite Hreg. }
  split; [done|]. pose proof (k_sent _ _ _ Hk e.2).
  assert (Ho : ∀ r', occ r' (e.2 :: p) = (if decide (e.2 = r') then 1 else 0) + occ r' p) by (intros; apply occ_cons).
  assert (Ho' : ∀ r', occ r' (rdy ++ [e]).*2 = occ r' rdy.*2 + (if decide (e.2 = r') then 1 else 0)).
  { intros r'. rewrite fmap_app, occ_app. simpl. rewrite occ_cons. unfold occ at 2, cnt; simpl. lia. }
  assert (Hneed : need_send (mark_sending ranks (send_of s e.2)) = n).
  { simpl. destruct (need_send _ =? 0) eqn:E; [done|]. simpl. apply Z.eqb_neq in E.
    by destruct (k_need _ _ _ Hk e.2). }
  eapply kept_alter; [exact Hk|done|done| | |simpl|simpl|right|].
  - eapply collect_step in Hcol as [Hc _]; [exact Hc|apply (k_counted _ _ _ Hk)].
  - intros r' Hne. rewrite Ho, Ho', decide_False by congruence. lia.
  - rewrite Ho, Ho', decide_True by done. lia.
  - done.
  - done.
  - done.
Qed.

Lemma collects_kept ranks don s rdy exps :
  kept don.*2 rdy.*2 s → (∀ e, e ∈ don → ready (send_of s e.2) = true) → zlen ranks = n →
  ∃ s', foldl (collect ranks) (s, rdy, exps) don = (s', rdy ++ don, exps) ∧ kept [] (rdy ++ don).*2 s' ∧ same_frame s s'.
Proof.
  revert s rdy. induction don as [|e don IH]; intros s rdy Hk Hrd Hn.
  { exists s. by rewrite app_nil_r. }
  destruct (collect_kept ranks s e don.*2 rdy exps Hk) as [E Hk1]; [apply Hrd; by left|done|].
  destruct (IH _ _ Hk1) as (s' & E' & Hk' & Hf); [|done|].
  - intros e' He'. rewrite send_of_alter. case_decide; simpl; apply Hrd; set_solver.
  - exists s'. cbn [foldl]. rewrite E, E', <- app_assoc. split_and!; [done|by rewrite <- app_assoc in Hk'|].
    etrans; [|exact Hf]. unfold same_frame; simpl. by rewrite length_alter.
Qed.

(** The waits that have finished leave the pending ones. *)
Lemma pending_split (don pend : list (string * nat)) r :
  NoDup don → (∀ e, e ∈ don → e ∈ pend) →
  occ r don.*2 + occ r (filter (λ e, e.1 ∉ don.*1) pend).*2 ≤ occ r pend.*2.
Proof.
  intros Hnd Hin. set (P := λ e : string * nat, bool_decide (e.2 = r)).
  assert (Hocc : ∀ l : list (string * nat), occ r l.*2 = cnt P l).
  { intros l. unfold occ, cnt. by rewrite <- list_fmap_compose. }
  rewrite !Hocc, <- cnt_app.
  assert (Hsub : don ++ filter (λ e, e.1 ∉ don.*1) pend ⊆+ pend).
  { rewrite <- (filter_app_complement (λ e : string * nat, e.1 ∈ don.*1) pend) at 2.
    apply submseteq_app; [|done]. apply NoDup_submseteq; [done|].
    intros e He. apply list_elem_of_filter. split; [by apply list_elem_of_fmap_2|auto]. }
  apply submseteq_Permutation in Hsub as [k Hk].
  pose proof (cnt_Proper P _ _ Hk) as E. rewrite (cnt_app _ _ k) in E. pose proof (cnt_nonneg P k). lia.
Qed.

Lemma finish_kept i t t' rdy p ret s :
  contacts s !! i = Some t' → meta t' = meta t → remote_tp_ranks t' = remote_tp_ranks t → idle t' →
  waiting_of t' = (pending t).*2 →
  kept [] rdy.*2 s → kept [] [] (finish_turn i t rdy p ret s).
Proof.
  intros Hi Hm Hr [Hw Hf] Hp Hk. destruct (finish_turn_eq i t rdy p ret s) as (errs & r & -> & _).
  rewrite <- settles_set_contact. apply settles_kept.
  set (t'' := turn_done t _ r).
  assert (Hidle : writing_of t'' = [] ∧ failed_of t'' = []) by (unfold t'', turn_done; destruct (pending t); done).
  assert (Hwt : waiting_of t'' = (pending t).*2) by (unfold t'', turn_done; by destruct (pending t) eqn:E; simpl; unfold waiting_of; simpl; rewrite ?E).
  destruct Hidle as [Hw' Hf']. eapply (kept_contact [] rdy.*2 [] rdy.*2); [exact Hk|exact Hi| | | | | |].
  - by rewrite Hm; unfold t'', turn_done; destruct (pending t).
  - rewrite Hwt, <- Hp. intros Hne. unfold t'', turn_done. simpl. rewrite <- Hr. apply (k_ranks _ _ _ Hk); [|done].
    by eapply list_elem_of_lookup_2.
  - eapply (counted_contact [] rdy.*2 [] rdy.*2); [exact Hi| | |apply (k_counted _ _ _ Hk)]; intros x;
      rewrite Hw, Hf, Hw', Hf'; [done|rewrite Hwt, Hp; done].
  - intros x. rewrite Hw, Hf, Hw', Hf', Hwt, Hp. lia.
  - intros x. rewrite Hw, Hw'. lia.
  - intros x. rewrite Hwt, Hp. lia.
Qed.

Lemma fail_kept i t t' rdy e s :
  contacts s !! i = Some t' → meta t' = meta t → idle t' →
  kept [] rdy.*2 s → kept [] [] (fail_contact i t rdy e s).
Proof.
  intros Hi Hm [Hw Hf] Hk. unfold fail_contact. eapply (kept_contact [] rdy.*2 [] []); [exact Hk|exact Hi|done|done| | | |].
  - by eapply fail_counted; [| |apply (k_counted _ _ _ Hk)].
  - intros x. rewrite Hw, Hf. unfold writing_of, failed_of, waiting_of at 1; simpl. change (occ x []) with 0.
    pose proof (occ_nonneg x (waiting_of t')). lia.
  - intros x. rewrite Hw. unfold writing_of; simpl. change (occ x []) with 0. pose proof (occ_nonneg x rdy.*2). lia.
  - intros x. unfold waiting_of at 1; simpl. change (occ x []) with 0. pose proof (occ_nonneg x (waiting_of t')). lia.
Qed.

Lemma wake_kept mtk c i t don s :
  contacts s !! i = Some t → pc t = Waiting → finished_waits t don s = true →
  kept [] [] s → kept [] [] (wake mtk c i t don s).
Proof.
  intros Hi Hpc Hd Hk. pose proof (wake_counted mtk c i t don s Hi Hpc Hd (k_counted _ _ _ Hk)) as Hcw.
  revert Hcw. unfold wake. apply finished_waits_spec in Hd as (Hne & Hnd & Hd).
  set (t1 := drop_done don.*1 t). set (t0 := set_pc Waiting t1).
  assert (Hsplit : ∀ x, occ x don.*2 + occ x (waiting_of t0) ≤ occ x (waiting_of t)).
  { intros x. unfold waiting_of at 2. rewrite Hpc. apply pending_split; [done|]. intros e He. by apply Hd. }
  assert (Hran : waiting_of t ≠ [] → zlen (remote_tp_ranks t) = n).
  { apply (k_ranks _ _ _ Hk). by eapply list_elem_of_lookup_2. }
  assert (Hwne : waiting_of t ≠ []).
  { unfold waiting_of. rewrite Hpc. destruct don as [|e don]; [done|]. destruct (Hd e) as [He _]; [by left|].
    destruct (pending t); [by apply elem_of_nil in He|done]. }
  specialize (Hran Hwne).
  assert (Hk0 : kept don.*2 [] (set_contact i t0 s)).
  { eapply (kept_contact [] [] don.*2 []); [exact Hk|exact Hi|done|done| | | |].
    - eapply (counted_contact [] [] don.*2 []); [exact Hi| | |apply (k_counted _ _ _ Hk)]; intros x;
        unfold writing_of, failed_of; rewrite Hpc; simpl; [done|]. specialize (Hsplit x). rewrite !occ_pos.
      pose proof (occ_nonneg x don.*2). pose proof (occ_nonneg x (waiting_of t0)). lia.
    - intros x. unfold writing_of, failed_of. rewrite Hpc. simpl. specialize (Hsplit x). change (occ x []) with 0. lia.
    - intros x. unfold writing_of. rewrite Hpc. done.
    - intros x. specialize (Hsplit x). change (occ x []) with 0. lia. }
  destruct (collects_kept (remote_tp_ranks t1) don (set_contact i t0 s) [] [] Hk0) as (s1' & E & Hk1 & Hf);
    [intros e He; by apply Hd|done|].
  rewrite collects_set_contact in E.
  destruct (foldl (collect (remote_tp_ranks t1)) (s, [], []) don) as [[s1 rdy] exps].
  injection E as <- -> ->. simpl in Hk1.
  assert (Hi1 : contacts (set_contact i t0 s1) !! i = Some t0).
  { destruct Hf as (-> & _). simpl. apply list_lookup_insert_eq. by eapply lookup_lt_Some. }
  intros Hcw. destruct (build_transfer_params _ _ _ _ _ _) as [p|e].
  - destruct (copies p).
    + rewrite <- (finish_turn_set_contact _ _ t0). by eapply finish_kept.
    + rewrite <- (set_contact_set i t0) in Hcw |- *.
      eapply (kept_contact [] don.*2 [] []); [exact Hk1|exact Hi1|done|by intros _|done| | |]; intros x; simpl;
        unfold writing_of, failed_of, waiting_of; simpl; change (occ x []) with 0; lia.
  - assert (Hf1 : fail_contact i (log_expired [] t1) don e (set_contact i t0 s1) = fail_contact i (log_expired [] t1) don e s1)
      by apply set_contact_set.
    rewrite <- Hf1. by eapply fail_kept.
Qed.

Lemma written_kept i t rdy p ret s :
  contacts s !! i = Some t → pc t = Writing rdy p → kept [] [] s →
  kept [] [] (match ret with Ok z => finish_turn i t rdy p z s | Err e => fail_contact i t rdy e s end).
Proof.
  intros Hi Hpc Hk. set (t0 := set_pc Waiting t).
  assert (Hk0 : kept [] rdy.*2 (set_contact i t0 s)).
  { eapply (kept_contact [] [] [] rdy.*2); [exact Hk|exact Hi|done| | | | |].
    - intros Hne. apply (k_ranks _ _ _ Hk t); [by eapply list_elem_of_lookup_2|]. unfold waiting_of. rewrite Hpc. exact Hne.
    - eapply (counted_contact [] [] [] rdy.*2); [exact Hi| | |apply (k_counted _ _ _ Hk)]; intros x;
        unfold writing_of, failed_of, waiting_of; rewrite Hpc; simpl; [change (occ x []) with 0; lia|set_solver].
    - intros x. unfold writing_of, failed_of, waiting_of. rewrite Hpc. simpl. change (occ x []) with 0. lia.
    - intros x. unfold writing_of. rewrite Hpc. simpl. change (occ x []) with 0. lia.
    - intros x. unfold waiting_of. rewrite Hpc. simpl. lia. }
  assert (Hi0 : contacts (set_contact i t0 s) !! i = Some t0).
  { simpl. apply list_lookup_insert_eq. by eapply lookup_lt_Some. }
  destruct ret as [z|e].
  - rewrite <- (finish_turn_set_contact _ _ t0). by eapply finish_kept.
  - assert (Hf : fail_contact i t rdy e (set_contact i t0 s) = fail_contact i t rdy e s) by apply set_contact_set.
    rewrite <- Hf. by eapply fail_kept.
Qed.

Lemma timeout_kept i t s : contacts s !! i = Some t → pc t = Waiting → kept [] [] s → kept [] [] (time_out i t s).
Proof.
  intros Hi Hpc Hk. eapply (kept_contact [] [] [] []); [exact Hk|exact Hi|done|done| | | |].
  - by apply timeout_counted; [..|apply (k_counted _ _ _ Hk)].
  - intros x. unfold writing_of, failed_of, waiting_of. rewrite Hpc. simpl. change (occ x []) with 0.
    pose proof (occ_nonneg x (pending t).*2). lia.
  - intros x. unfold writing_of. by rewrite Hpc.
  - intros x. unfold waiting_of. rewrite Hpc. simpl. change (occ x []) with 0. pose proof (occ_nonneg x (pending t).*2). lia.
Qed.

Lemma load_create id tid p w s r : load p w (create_send id tid s) r = load p w s r.
Proof. done. Qed.

Lemma create_kept id tid p w s :
  dget (reqs_need_send s) tid = None → kept p w s → kept p w (create_send id tid s).
Proof.
  intros Htid Hk. pose proof (k_counted _ _ _ Hk) as Hc.
  assert (Hc' := create_counted id tid p w s Htid Hc).
  assert (Hlen : length (heap (create_send id tid s)) = S (length (heap s))) by (simpl; rewrite length_app; simpl; lia).
  assert (Hold : ∀ r, (r < length (heap s))%nat → registered s r → registered (create_send id tid s) r).
  { intros r Hr Hreg. unfold registered, tid_of in *. rewrite send_of_create, decide_False by lia. simpl.
    rewrite dget_dset_ne; [done|]. intros Heq. rewrite <- Heq in Hreg. congruence. }
  assert (Hused : ∀ r, 0 < load p w s r → (r < length (heap s))%nat).
  { intros r Hr. apply (c_refs _ _ _ Hc). unfold load in Hr. unfold used. rewrite !occ_pos.
    pose proof (tally_nonneg writing_of r s). pose proof (tally_nonneg failed_of r s).
    pose proof (tally_nonneg waiting_of r s). pose proof (occ_nonneg r w). pose proof (occ_nonneg r p). lia. }
  destruct Hk as [_ Ha Hl Hs Hn Hw Hrk Hact (refs & Hfin & Hnd & Hrefs)].
  assert (Hold' : ∀ r, writes_to w s r ∨ r ∈ p ∨ 0 < tally waiting_of r s → (r < length (heap s))%nat).
  { intros r Hr. apply Hused. unfold load, writes_to in *. rewrite !occ_pos in Hr.
    pose proof (tally_nonneg writing_of r s). pose proof (tally_nonneg failed_of r s).
    pose proof (tally_nonneg waiting_of r s). pose proof (occ_nonneg r w). pose proof (occ_nonneg r p). lia. }
  split; [done|done| | | | |done| |].
  - intros r Hr. rewrite load_create. change (asked (create_send id tid s) ?x) with (asked s x).
    unfold tid_of. rewrite send_of_create. case_decide as Hd; [|apply Hl; lia]. simpl.
    destruct (decide (0 < load p w s r)) as [Hlo|Hlo]; [apply Hused in Hlo; lia|].
    assert (0 ≤ asked s tid); [|lia]. apply sumZ_fmap_nonneg. intros. apply cnt_nonneg.
  - intros r. rewrite send_of_create. by case_decide.
  - intros r. rewrite send_of_create. case_decide; [by left|done].
  - intros r Hr. change (writes_to w s r) in Hr. rewrite send_of_create, decide_False; [by apply Hw|].
    assert (r < length (heap s))%nat by auto. lia.
  - intros r Hr. assert (Hlt : (r < length (heap s))%nat).
    { apply Hold'. destruct Hr as [[_ Hr]|Hr]; [right; exact Hr|left; exact Hr]. }
    apply Hold; [done|]. apply Hact. unfold active in *. rewrite send_of_create, decide_False in Hr by lia. exact Hr.
  - exists refs. split_and!; [|done|].
    + simpl. rewrite Hfin. apply list_fmap_ext. intros j r Hj%list_elem_of_lookup_2.
      rewrite send_of_create, decide_False; [done|]. apply Hrefs in Hj as [? _]. lia.
    + intros r Hr. apply Hrefs in Hr as [Hr Hnr]. rewrite Hlen. split; [lia|]. intros Hreg. apply Hnr.
      unfold registered, tid_of in *. rewrite send_of_create, decide_False in Hreg by lia. simpl in Hreg.
      destruct (decide (tid = sm_transfer_id (send_of s r))) as [Heq|Hne]; [|by rewrite dget_dset_ne in Hreg].
      rewrite <- Heq, dget_dset_eq in Hreg. injection Hreg as Hreg. lia.
Qed.

(** ** The steps *)

Lemma registered_unique p w s r r' : counted p w s → registered s r → registered s r' → tid_of s r = tid_of s r' → r = r'.
Proof. unfold registered. intros _ H1 H2 E. rewrite E in H1. congruence. Qed.

Lemma occ_dset r (pend : list (string * nat)) d x :
  occ r (dset pend d x).*2 ≤ occ r pend.*2 + (if decide (x = r) then 1 else 0).
Proof.
  induction pend as [|[d' x'] pend IH].
  - unfold dset. csimpl. rewrite occ_cons. unfold occ, cnt; simpl. lia.
  - change (dset ((d', x') :: pend) d x) with (if decide (d = d') then (d', x) :: pend else (d', x') :: dset pend d x).
    pose proof (occ_nonneg r pend.*2). destruct (decide (d = d')); csimpl; rewrite !occ_cons;
      destruct (decide (x = r)), (decide (x' = r)); lia.
Qed.

Lemma pendings_kept l s pend s' pend' :
  kept [] [] s → (∀ x, x ∈ pend.*2 → registered s x) → foldl add_pending (s, pend) l = (s', pend') →
  kept [] [] s' ∧ contacts s' = contacts s ∧ (∀ x, x ∈ pend'.*2 → registered s' x) ∧
  (∀ r, registered s r → registered s' r ∧ tid_of s' r = tid_of s r) ∧
  (∀ r, occ r pend'.*2 ≤ occ r pend.*2 +
     cnt (λ e : string * (string * list (list Z)), bool_decide (e.2.1 = tid_of s' r)) l).
Proof.
  revert s pend. induction l as [|[d [tid bl]] l IH]; intros s pend Hk Hp H; cbn [foldl] in H.
  { simplify_eq. split_and!; try done. intros r. change (cnt _ []) with 0. lia. }
  unfold add_pending in H at 2. set (s1 := if is_some _ then s else _) in *.
  assert (Hs1 : kept [] [] s1 ∧ contacts s1 = contacts s ∧ is_some (dget (reqs_need_send s1) tid) = true ∧
                ∀ r, registered s r → registered s1 r ∧ tid_of s1 r = tid_of s r).
  { unfold s1. destruct (is_some _) eqn:E; [done|]. apply is_some_dget in E. split; [by apply create_kept|].
    split; [done|]. split; [simpl; by rewrite dget_dset_eq|]. intros r Hr.
    assert (Hlt : (r < length (heap s))%nat) by by apply (c_reg _ _ _ (k_counted _ _ _ Hk)) in Hr as [? _].
    assert (Htid : tid_of (create_send "" tid s) r = tid_of s r) by (unfold tid_of; by rewrite send_of_create, decide_False by lia).
    split; [|done]. unfold registered in *. rewrite Htid. simpl. rewrite dget_dset_ne; [done|].
    intros Heq. rewrite <- Heq in Hr. congruence. }
  destruct Hs1 as (Hk1 & <- & Hsome & Hold). destruct (dget (reqs_need_send s1) tid) as [x|] eqn:Ex; [|done]. simpl in H.
  assert (Hx : registered s1 x ∧ tid_of s1 x = tid).
  { pose proof (c_reg _ _ _ (k_counted _ _ _ Hk1) _ _ Ex) as [_ Ht]. split; [|done]. unfold registered, tid_of. by rewrite Ht. }
  destruct (IH s1 (dset pend d x) Hk1) as (Hk' & Hc' & Hp' & Hold' & Hocc); [|done|].
  { intros y (e & -> & He)%list_elem_of_fmap. apply elem_of_dset in He as [->|[He _]]; [apply Hx|].
    apply Hold, Hp. by apply list_elem_of_fmap_2. }
  split_and!; [done|done|done| |].
  - intros r Hr. destruct (Hold r Hr) as [H1 E1]. destruct (Hold' r H1) as [H2 E2]. split; [done|congruence].
  - intros r. specialize (Hocc r). rewrite cnt_cons. simpl. pose proof (occ_dset r pend d x).
    destruct (decide (x = r)) as [->|]; [|destruct (bool_decide _); simpl; lia].
    rewrite bool_decide_true; [simpl; lia|]. destruct Hx as [Hx Ht]. rewrite <- Ht. symmetry. by apply Hold'.
Qed.

Lemma start_kept target tgi c m s :
  kept [] [] s → (∀ ranks, target (remote_tp_size m) = Ok ranks → zlen ranks = n) →
  (∀ tid, asked s tid + names tid m ≤ n) → kept [] [] (start_contact target tgi c m s).
Proof.
  intros Hk Hrank Hasked.
  assert (Hadd : ∀ s1 t, kept [] [] s1 → contacts s1 = contacts s → meta t = m → writing_of t = [] → failed_of t = [] →
    (waiting_of t ≠ [] → zlen (remote_tp_ranks t) = n) → (∀ x, x ∈ waiting_of t → registered s1 x) →
    (∀ r, occ r (waiting_of t) ≤ names (tid_of s1 r) m) → kept [] [] (add_contact t s1)).
  { intros s1 t Hk1 Hc1 Hm Hw Hf Hran Hreg Hocc. destruct Hk1 as [Hc Ha Hl Hs Hn Hwr Hrk Hact Hfin].
    assert (Hask : ∀ tid, asked (add_contact t s1) tid = asked s1 tid + names tid m).
    { intros tid. unfold asked, add_contact; simpl. rewrite fmap_app, sumZ_app. simpl. rewrite Hm. lia. }
    split; [| | |done|done| | | |done].
    - eapply (add_contact_counted (waiting_of t)); [done|done|done|]. destruct Hc as [Hd Hcr Hrf Hsd].
      split; [done..| |done]. intros r [Hr|Hr]; [|apply Hrf; by right]. by apply Hreg, Hcr in Hr as [? _].
    - intros tid. rewrite Hask. unfold asked. rewrite Hc1. apply Hasked.
    - intros r Hr. rewrite Hask. specialize (Hl r Hr). specialize (Hocc r). unfold load in *. rewrite !tally_add, Hw, Hf.
      change (occ r []) with 0 in *. change (send_of (add_contact t s1) r) with (send_of s1 r).
      change (tid_of (add_contact t s1) r) with (tid_of s1 r). lia.
    - intros r [Hr|Hr]; [by apply elem_of_nil in Hr|]. apply Hwr. right. rewrite tally_add, Hw in Hr.
      change (occ r []) with 0 in Hr. lia.
    - intros t0. simpl. rewrite elem_of_app, list_elem_of_singleton. intros [Ht0| ->]; [by apply Hrk|done].
    - intros r Hr. destruct (decide (r ∈ waiting_of t)) as [Hin|Hin]; [by apply Hreg|]. apply occ_zero in Hin.
      apply Hact. unfold active, writes_to in *. rewrite !tally_add, Hw, Hin in Hr. change (occ r []) with 0 in Hr.
      rewrite !Z.add_0_r in Hr. exact Hr. }
  unfold start_contact. destruct (check_contact _ _ _ _) as [[[ranks regs]|why]|e] eqn:Echk.
  - destruct (foldl add_pending (s, []) (req_blocks m)) as [s1 pend] eqn:E.
    apply pendings_kept in E as (Hk1 & Hc1 & Hreg & _ & Hocc); [|done|intros x Hx; by apply elem_of_nil in Hx].
    assert (Hranks : zlen ranks = n).
    { apply Hrank. unfold check_contact in Echk. apply rbind_Ok in Echk as (ranks' & Ht & Echk). rewrite Ht.
      destruct (negb _); [by inv_ok|]. inv_ok. destruct (align_transfer_regions _ _ _) as [[??] [?|]]; inv_ok; [done|].
      destruct x1; inv_ok; simplify_eq. done. }
    apply Hadd; [done|done|done| | |by intros _| |]; unfold writing_of, failed_of, waiting_of; simpl.
    + by destruct pend.
    + by destruct pend.
    + intros x. destruct pend; [by intros Hx%elem_of_nil|]. by apply Hreg.
    + intros r. specialize (Hocc r). destruct pend; [apply cnt_nonneg|]. exact Hocc.
  - apply Hadd; [done..| |]; [intros x Hx; by apply elem_of_nil in Hx|intros; apply cnt_nonneg].
  - apply Hadd; [done..| |]; [intros x Hx; by apply elem_of_nil in Hx|intros; apply cnt_nonneg].
Qed.

Lemma unregister_none s d' (f : nat → string) :
  set_finished_sending (λ q, q ++ (f <$> [])) (set_reqs_need_send (λ _, d') s) = set_reqs_need_send (λ _, d') s.
Proof. unfold set_finished_sending, set_reqs_need_send; simpl. by rewrite app_nil_r. Qed.

(** The transfers a metadata object drops were not announced, and are not
    announced by it. *)
Definition drops_unannounced (m : MooncakeConnectorMetadata) (s : sender) : Prop :=
  ∀ tid, tid ∈ meta_not_processed m →
    (∀ r, dget (reqs_need_send s) tid = Some r → ready (send_of s r) = false) ∧
    (∀ id bl, (id, (tid, bl)) ∈ reqs_to_send m → bl = []).

Lemma record_kept m s : drops_unannounced m s → kept [] [] s → kept [] [] (record_send_reqs m s).1.
Proof.
  intros Hm Hk. unfold record_send_reqs.
  set (P := λ s, kept [] [] s ∧ ∀ tid r, tid ∈ meta_not_processed m → dget (reqs_need_send s) tid = Some r → ready (send_of s r) = false).
  assert (H1 : P (each (record_one m) s (reqs_to_send m)).1).
  { apply each_ind; [|split; [done|intros tid r Ht; by apply Hm]].
    clear Hk. intros s1 [id [tid bl]] Hin [Hk Hr]. unfold record_one. destruct bl as [|b bl]; simpl.
    - destruct (is_some _) eqn:E; [done|]. apply is_some_dget in E. split; [by apply create_kept|].
      intros tid' r Ht'. rewrite send_of_create. case_decide as Hd; [done|]. simpl.
      destruct (decide (tid = tid')) as [<-|Hne]; [rewrite dget_dset_eq; intros [= <-]; done|].
      rewrite dget_dset_ne by done. by apply Hr.
    - destruct (dget (reqs_need_send s1) tid) as [r|] eqn:E; [|done]. simpl.
      assert (Hni : tid ∉ meta_not_processed m) by (intros Ht; apply Hm in Ht as [_ Ht]; by apply Ht in Hin).
      pose proof (c_reg _ _ _ (k_counted _ _ _ Hk) _ _ E) as [Hlt Htid]. split.
      + eapply kept_alter; [exact Hk| |done| |done|done|apply (k_sent _ _ _ Hk)|apply (k_need _ _ _ Hk)|].
        * unfold registered, tid_of. by rewrite Htid.
        * eapply (counted_alter _ _ [] []); [done|done|simpl; lia|done|done|apply (k_counted _ _ _ Hk)].
        * intros Hw. split; [|done]. by apply (k_write _ _ _ Hk) in Hw as [? _].
      + intros tid' r' Ht' Hr'. rewrite send_of_alter. case_decide as Hd; [|by eapply Hr]. destruct Hd as [-> _]. simpl in Hr'.
        apply (c_reg _ _ _ (k_counted _ _ _ Hk)) in Hr' as [_ Hr']. congruence. }
  destruct (each (record_one m) s (reqs_to_send m)) as [s1 [e|]]; [apply H1|]. simpl in H1.
  assert (H2 : P (each drop_one s1 (elements (meta_not_processed m))).1); [|apply H2].
  apply each_ind; [|done]. clear. intros s tid Hin [Hk Hr]. apply elem_of_elements in Hin. unfold drop_one.
  destruct (dget (reqs_need_send s) tid) as [r|] eqn:E; [|done]. simpl.
  pose proof (c_reg _ _ _ (k_counted _ _ _ Hk) _ _ E) as [Hlt Htid].
  assert (Hnr : ready (send_of s r) = false) by by eapply Hr. split.
  - eapply (kept_unregister [] [] [r] [] (ddel (reqs_need_send s) tid)) in Hk as Hk'.
    + rewrite unregister_none in Hk'. exact Hk'.
    + apply (counted_pop _ _ _ id), Hk.
    + intros r' ->%list_elem_of_singleton. split; [unfold registered, tid_of; by rewrite Htid|].
      intros [[Hrd _]|Hw]; [congruence|]. apply (k_write _ _ _ Hk) in Hw as [_ ?]. congruence.
    + apply list_subseteq_nil.
    + constructor.
    + intros r' Hreg Hne. rewrite dget_ddel_ne; [done|]. intros Heq. unfold registered in Hreg.
      rewrite <- Heq, E in Hreg. set_solver.
    + intros tid' r' Hr'. destruct (decide (tid = tid')) as [<-|Hne]; [by rewrite dget_ddel_eq in Hr'|].
      rewrite dget_ddel_ne in Hr' by done. split; [done|]. intros ->%list_elem_of_singleton. apply Hne.
      apply (c_reg _ _ _ (k_counted _ _ _ Hk)) in Hr' as [_ Hr']. congruence.
  - intros tid' r' Ht' Hr'. simpl in Hr'. destruct (decide (tid = tid')) as [<-|Hne]; [by rewrite dget_ddel_eq in Hr'|].
    rewrite dget_ddel_ne in Hr' by done. by eapply Hr.
Qed.

Lemma ddels_lookup (l : list (string * nat)) (d : list (string * nat)) tid :
  dget (foldl (λ d (e : string * nat), ddel d e.1) d l) tid = if decide (tid ∈ l.*1) then None else dget d tid.
Proof.
  revert d. induction l as [|e l IH]; intros d; [by rewrite decide_False by (intros H; by apply elem_of_nil in H)|].
  cbn [foldl]. rewrite IH. csimpl. destruct (decide (tid ∈ l.*1)) as [Hin|Hin]; [by rewrite decide_True by (by right)|].
  destruct (decide (e.1 = tid)) as [<-|Hne].
  - by rewrite dget_ddel_eq, decide_True by (by left).
  - rewrite dget_ddel_ne, decide_False; [done| |done]. intros [?|?]%elem_of_cons; congruence.
Qed.

(** No contact still waits for an entry that has expired. *)
Definition timely (s : sender) : Prop :=
  ∀ tid r, dget (reqs_need_send s) tid = Some r → is_expired s (send_of s r) = true → tally waiting_of r s = 0.

Lemma sweep_kept s : timely s → kept [] [] s → kept [] [] (sweep_expired_sends s).
Proof.
  intros Ht Hk. pose proof (k_counted _ _ _ Hk) as Hc. unfold sweep_expired_sends.
  set (gone := filter (λ e : string * nat, is_expired s (send_of s e.2) = true) (reqs_need_send s)).
  assert (Hgone : ∀ e, e ∈ gone → dget (reqs_need_send s) e.1 = Some e.2 ∧ is_expired s (send_of s e.2) = true).
  { intros [tid r] [Hx Hin]%list_elem_of_filter. split; [|done]. apply elem_of_dget; [apply (c_dict _ _ _ Hc)|done]. }
  assert (Htid : ∀ e, e ∈ gone → tid_of s e.2 = e.1) by (intros e [He _]%Hgone; by apply (c_reg _ _ _ Hc) in He as [_ ?]).
  assert (Hrefs : ∀ r, r ∈ gone.*2 → registered s r ∧ ¬ active [] [] s r).
  { intros r (e & -> & He)%list_elem_of_fmap. unfold registered. rewrite (Htid _ He). split; [by apply Hgone|].
    apply Hgone in He as [Hreg Hx]. pose proof (Ht _ _ Hreg Hx) as Hw. unfold is_expired in Hx.
    apply andb_true_iff in Hx as [_ Hs]. apply Z.eqb_eq in Hs. rewrite (c_sending _ _ _ Hc) in Hs.
    change (occ e.2 []) with 0 in Hs. unfold active, writes_to. pose proof (tally_nonneg writing_of e.2 s).
    pose proof (tally_nonneg failed_of e.2 s).
    intros [[_ [Hin|?]]|[Hin|?]]; [by apply elem_of_nil in Hin|lia|by apply elem_of_nil in Hin|lia]. }
  assert (Hnd : NoDup gone.*2).
  { assert (Hsub : gone.*1 `sublist_of` (reqs_need_send s).*1) by apply fmap_sublist, sublist_filter.
    assert (Hnd1 : NoDup gone.*1) by (eapply sublist_NoDup; [apply (c_dict _ _ _ Hc)|exact Hsub]).
    apply NoDup_fmap_2_strong; [|by eapply NoDup_fmap_1].
    intros e e' He He' Heq. pose proof (Htid _ He) as H1. pose proof (Htid _ He') as H2. destruct e, e'; simpl in *. congruence. }
  eapply (kept_unregister [] [] gone.*2 gone.*2 (foldl (λ d (e : string * nat), ddel d e.1) (reqs_need_send s) gone)) in Hk as Hk'.
  - rewrite <- list_fmap_compose in Hk'. exact Hk'.
  - by apply ddels_counted.
  - exact Hrefs.
  - done.
  - done.
  - intros r Hreg Hne. rewrite ddels_lookup, decide_False; [done|]. intros (e & Heq & He)%list_elem_of_fmap.
    apply Hne, list_elem_of_fmap. exists e. split; [|done]. apply Hgone in He as [He _]. unfold registered in Hreg. congruence.
  - intros tid r. rewrite ddels_lookup. case_decide as Hd; [done|]. intros Hr. split; [done|].
    intros (e & -> & He)%list_elem_of_fmap. apply Hd, list_elem_of_fmap. exists e. split; [|done].
    rewrite <- (Htid _ He). by apply (c_reg _ _ _ Hc) in Hr as [_ ?].
Qed.

Section run.
Context (mtk : list Z → Z → list Z) (target : Z → result (list Z)) (tgi : string → Z) (c : worker_config).

(** What the rest of the system does: all decoders have [n] ranks that contact
    this one, each asks for a transfer once; the engine drops only requests it
    has not announced; entries do not expire under a contact that waits. *)
Definition proper (s : sender) (e : event) : Prop :=
  match e with
  | Record m => drops_unannounced m s
  | Contact m => (∀ ranks, target (remote_tp_size m) = Ok ranks → zlen ranks = n) ∧ ∀ tid, asked s tid + names tid m ≤ n
  | Sweep => timely s
  | _ => True
  end.

Inductive served : sender → Prop :=
  | served_init : served init_sender
  | served_step s e s' : served s → proper s e → send_step mtk target tgi c s e = Some s' → served s'.

Lemma step_kept s e s' : proper s e → send_step mtk target tgi c s e = Some s' → kept [] [] s → kept [] [] s'.
Proof.
  intros Hp H Hk. destruct e as [m|m|i don|i|i ret| |d|]; simpl in H.
  - simplify_eq. by apply record_kept.
  - simplify_eq. destruct Hp. by apply start_kept.
  - destruct (contacts s !! i) as [t|] eqn:Hi; [|done]. simpl in H. destruct (pc t) eqn:Hpc; try done.
    destruct (finished_waits t don s) eqn:Hd; [|done]. simplify_eq. by apply wake_kept.
  - destruct (contacts s !! i) as [t|] eqn:Hi; [|done]. simpl in H. destruct (pc t) eqn:Hpc; try done.
    destruct (forallb _ _); [|done]. simplify_eq. by apply timeout_kept.
  - destruct (contacts s !! i) as [t|] eqn:Hi; [|done]. simpl in H. destruct (pc t) eqn:Hpc; try done.
    simplify_eq. by eapply written_kept.
  - simplify_eq. by apply sweep_kept.
  - destruct (0 <=? d); simplify_eq. destruct Hk as [[] ????????]. by split.
  - simplify_eq. destruct Hk as [[] ??????? (refs & Hfin & Hrefs)]. split; [by split|done..|].
    exists refs. split; [|exact Hrefs]. simpl. by rewrite app_nil_r.
Qed.

Lemma served_kept s : 0 ≤ n → served s → kept [] [] s.
Proof.
  intros Hn. induction 1 as [|s e s' _ IH Hp Hs]; [|by eapply step_kept].
  split; [apply init_counted|done| | | | | | |].
  - intros r Hr. simpl in Hr. lia.
  - intros r. by rewrite send_of_ge by (simpl; lia).
  - intros r. left. by rewrite send_of_ge by (simpl; lia).
  - intros r [Hr|Hr]; [by apply elem_of_nil in Hr|]. unfold tally in Hr; simpl in Hr. lia.
  - intros t Ht. by apply elem_of_nil in Ht.
  - intros r [[_ [Hr|Hr]]|[Hr|Hr]]; [by apply elem_of_nil in Hr| |by apply elem_of_nil in Hr|]; unfold tally in Hr; simpl in Hr; lia.
  - exists []. split_and!; [done|constructor|intros r Hr; by apply elem_of_nil in Hr].
Qed.
End run.
End kept.
