(* ===== verification/P2PAnswers.v ===== *)
(** * The raw sender of the P2P connector: every request is answered

    What a contact sends back: each request it asked for is named in exactly
    one reply or logged as expired, and the last reply says that it is over. *)

From S2P Require Import Prelude Messages Transfer P2PPlan P2PSched P2PSend P2PSendThms.

#[local] Arguments ddel : simpl never.
#[local] Arguments dset : simpl never.

(** ** The errors of a plan *)

Lemma request_params_errs mtk c m regs acc id locals acc' :
  request_params mtk c m regs acc (id, locals) = Ok acc' →
  err_reqs acc' = err_reqs acc ∨ err_reqs acc' = err_reqs acc ++ [id].
Proof.
  unfold request_params. intros H. inv_ok. destruct (forallb _ _); inv_ok; [by left|].
  destruct (negb _); inv_ok; [by right|].
  match goal with H : match ?r with _ => _ end = _ |- _ => destruct r end; inv_ok; [|by right].
  destruct (forallb _ _); inv_ok; by left.
Qed.

Lemma plan_errs mtk c ready m lr rr p :
  build_transfer_params mtk c ready m lr rr = Ok p → err_reqs p `sublist_of` ready.*1.
Proof.
  intros H. eapply (rfold_seen (λ pre acc, err_reqs acc `sublist_of` pre.*1)); [| |exact H]; [|apply sublist_nil_l].
  intros pre [id locals] acc acc' _ IH Hs. rewrite fmap_app. apply request_params_errs in Hs as [->| ->].
  - by apply sublist_inserts_r.
  - by apply sublist_app.
Qed.

(** ** The answers of a contact *)

Definition answers (t : contact) : list string := replies t ≫= λ r, rs_ok_reqs r ++ rs_err_reqs r.

Definition asked_ids (t : contact) : list string := (req_blocks (meta t)).*1.

(** The requests it has not answered yet. *)
Definition remaining (t : contact) : list string :=
  match pc t with
  | Waiting => (pending t).*1
  | Writing rdy _ => rdy.*1 ++ (pending t).*1
  | _ => []
  end.

Definition accounted (t : contact) : Prop := answers t ++ expired t ++ remaining t ≡ₚ asked_ids t.

Definition going (l : list MooncakeXferResponse) : Prop := Forall (λ r, rs_status r = CONTINUE) l.

Definition ended (status : MooncakeXferResponseStatus) (t : contact) : Prop :=
  ∃ l r, replies t = l ++ [r] ∧ going l ∧ rs_status r = status.

(** A contact that asks for no request twice. *)
Definition good (t : contact) : Prop :=
  match pc t with
  | Waiting => going (replies t) ∧ accounted t
  | Writing rdy p => going (replies t) ∧ accounted t ∧ err_reqs p `sublist_of` rdy.*1
  | Done => (∃ why, replies t = [error_response why]) ∨ asked_ids t = [] ∧ replies t = [] ∨ ended FINISH t ∧ accounted t
  | Failed _ => ended ERROR t
  end.

Lemma answers_reply r t : answers (reply r t) = answers t ++ rs_ok_reqs r ++ rs_err_reqs r.
Proof. unfold answers, reply; simpl. rewrite bind_app. simpl. by rewrite app_nil_r. Qed.

(** Good and bad requests together are the ready ones. *)
Lemma ok_and_err (rdy : list (string * nat)) errs :
  NoDup rdy.*1 → errs `sublist_of` rdy.*1 → (filter (λ e, e.1 ∉ errs) rdy).*1 ++ errs ≡ₚ rdy.*1.
Proof.
  intros Hnd Hsub. apply NoDup_Permutation; [|done|].
  - apply NoDup_app. split_and!.
    + eapply sublist_NoDup; [exact Hnd|]. by apply fmap_sublist, sublist_filter.
    + intros x (e & -> & [He _]%list_elem_of_filter)%list_elem_of_fmap. done.
    + by eapply sublist_NoDup.
  - intros x. rewrite elem_of_app. split.
    + intros [(e & -> & [_ He]%list_elem_of_filter)%list_elem_of_fmap|Hx]; [by apply list_elem_of_fmap_2|].
      by eapply elem_of_sublist.
    + intros (e & -> & He)%list_elem_of_fmap. destruct (decide (e.1 ∈ errs)); [by right|left].
      apply list_elem_of_fmap. exists e. split; [done|]. by apply list_elem_of_filter.
Qed.

(** The reply of a turn ends or continues the contact. *)
Lemma finish_good i t rdy p ret s s' :
  going (replies t) → NoDup (asked_ids t) → err_reqs p `sublist_of` rdy.*1 →
  answers t ++ expired t ++ rdy.*1 ++ (pending t).*1 ≡ₚ asked_ids t →
  finish_turn i t rdy p ret s = s' →
  ∃ t', s' = set_contact i t' (foldl (settle (if ret =? 0 then err_reqs p else err_reqs p ++ (filter (λ e, e.1 ∉ err_reqs p) rdy).*1)) s rdy) ∧
    meta t' = meta t ∧ good t'.
Proof.
  intros Hg Hnd Hsub Hperm <-. destruct (finish_turn_eq i t rdy p ret s) as (errs & r & -> & -> & Hok & Herr & Hst).
  eexists. split; [reflexivity|]. unfold turn_done. split; [done|].
  assert (Hrdy : NoDup rdy.*1).
  { rewrite <- Hperm in Hnd. apply NoDup_app in Hnd as (_ & _ & Hnd). apply NoDup_app in Hnd as (_ & _ & Hnd).
    by apply NoDup_app in Hnd as (? & _ & _). }
  assert (Hnames : rs_ok_reqs r ++ rs_err_reqs r ≡ₚ rdy.*1).
  { rewrite Hok, Herr. pose proof (ok_and_err rdy _ Hrdy Hsub) as Hp. destruct (ret =? 0); [done|]. simpl.
    by rewrite Permutation_app_comm. }
  assert (Hacc : answers (reply r t) ++ expired t ++ (pending t).*1 ≡ₚ asked_ids t).
  { rewrite answers_reply, Hnames, <- Hperm, <- !app_assoc. f_equiv. rewrite !app_assoc. f_equiv.
    apply Permutation_app_comm. }
  unfold good. destruct (pending t) as [|e pend] eqn:Ep; simpl.
  - right; right. split; [exists (replies t), r; done|]. unfold accounted, remaining; simpl. exact Hacc.
  - split; [apply Forall_app; split; [done|by constructor]|]. unfold accounted, remaining; simpl. by rewrite Ep.
Qed.

Lemma fail_good t rdy e : going (replies t) → good (set_pc (Failed rdy) (reply (error_response (Raised e)) t)).
Proof. intros Hg. exists (replies t), (error_response (Raised e)). done. Qed.

(** ** The waits of a turn *)

Lemma collect_ids ranks don s rdy exps s' rdy' exps' :
  foldl (collect ranks) (s, rdy, exps) don = (s', rdy', exps') →
  rdy'.*1 ++ exps' ≡ₚ don.*1 ++ rdy.*1 ++ exps ∧ contacts s' = contacts s.
Proof.
  revert s rdy exps. induction don as [|e don IH]; intros s rdy exps H; cbn [foldl] in H; [by simplify_eq|].
  unfold collect at 2 in H. destruct (is_some _); apply IH in H as [-> ->]; (split; [|done]); csimpl.
  - rewrite fmap_app. csimpl. by rewrite !Permutation_middle, <- app_assoc.
  - by rewrite !app_assoc, (Permutation_app_comm _ [_]).
Qed.

Lemma pending_perm (don pend : list (string * nat)) :
  NoDup pend.*1 → NoDup don → (∀ e, e ∈ don → e ∈ pend) →
  don.*1 ++ (filter (λ e, e.1 ∉ don.*1) pend).*1 ≡ₚ pend.*1.
Proof.
  intros Hp Hd Hin.
  assert (Hpe : filter (λ e, e.1 ∈ don.*1) pend ≡ₚ don).
  { apply NoDup_Permutation; [by apply NoDup_filter, (NoDup_fmap_1 fst)|done|]. intros e. rewrite list_elem_of_filter. split.
    - intros [(e' & Heq & He')%list_elem_of_fmap He]. apply Hin in He' as Hp'.
      assert (e = e') as ->; [|done]. destruct e as [k v], e' as [k' v']. simpl in Heq. subst k'. f_equal.
      pose proof (elem_of_dget pend k v Hp He). pose proof (elem_of_dget pend k v' Hp Hp'). congruence.
    - intros He. split; [by apply list_elem_of_fmap_2|auto]. }
  rewrite <- Hpe at 1. rewrite <- fmap_app. apply fmap_Permutation, (filter_app_complement (λ e : string * nat, e.1 ∈ don.*1)).
Qed.

Lemma wake_good mtk c i t don s :
  pc t = Waiting → good t → NoDup (asked_ids t) → finished_waits t don s = true →
  ∃ t', contacts (wake mtk c i t don s) = <[i := t']> (contacts s) ∧ meta t' = meta t ∧ good t'.
Proof.
  intros Hpc Hg Hnd Hd. unfold good in Hg. rewrite Hpc in Hg. destruct Hg as [Hg Hacc].
  unfold accounted, remaining in Hacc. rewrite Hpc in Hacc. apply finished_waits_spec in Hd as (_ & Hdn & Hd).
  unfold wake. set (t1 := drop_done don.*1 t).
  destruct (foldl (collect (remote_tp_ranks t1)) (s, [], []) don) as [[s1 rdy] exps] eqn:E.
  apply collect_ids in E as [Hids Hc]. simpl in Hids. rewrite app_nil_r in Hids.
  assert (Hpn : NoDup (pending t).*1).
  { rewrite <- Hacc in Hnd. apply NoDup_app in Hnd as (_ & _ & Hnd). by apply NoDup_app in Hnd as (_ & _ & ?). }
  assert (Hperm : answers (log_expired exps t1) ++ expired (log_expired exps t1) ++ rdy.*1 ++ (pending (log_expired exps t1)).*1
                  ≡ₚ asked_ids t).
  { change (answers (log_expired exps t1)) with (answers t). simpl.
    rewrite <- Hacc, <- (pending_perm don (pending t)) by (try done; intros e He; by apply Hd).
    rewrite <- Hids, <- !app_assoc. do 2 f_equiv. rewrite !app_assoc. f_equiv. apply Permutation_app_comm. }
  destruct (build_transfer_params _ _ _ _ _ _) as [p|e] eqn:Ep.
  - assert (Hsub : err_reqs p `sublist_of` rdy.*1).
    { apply plan_errs in Ep. by rewrite <- list_fmap_compose in Ep. }
    destruct (copies p).
    + destruct (finish_good i (log_expired exps t1) rdy p 0 s1 _ Hg Hnd Hsub Hperm eq_refl) as (t' & -> & Hm & Hg').
      exists t'. split; [|done]. simpl. f_equal. rewrite <- Hc. clear.
      generalize (err_reqs p). revert s1. induction rdy as [|e rdy IH]; intros s l; [done|]. cbn [foldl]. rewrite IH.
      unfold settle. case_bool_decide; [done|]. by destruct (_ && _).
    + eexists. split; [simpl; by rewrite Hc|]. split; [done|]. simpl. split_and!; [done| |done].
      unfold accounted, remaining. simpl. exact Hperm.
  - eexists. split; [simpl; by rewrite Hc|]. split; [done|]. by apply fail_good.
Qed.

Lemma settles_contacts errs rdy s : contacts (foldl (settle errs) s rdy) = contacts s.
Proof.
  revert s. induction rdy as [|e rdy IH]; intros s; [done|]. cbn [foldl]. rewrite IH.
  unfold settle. case_bool_decide; [done|]. by destruct (_ && _).
Qed.

Lemma written_good i t rdy p ret s :
  pc t = Writing rdy p → good t → NoDup (asked_ids t) →
  ∃ t', contacts (match ret with Ok z => finish_turn i t rdy p z s | Err e => fail_contact i t rdy e s end)
          = <[i := t']> (contacts s) ∧ meta t' = meta t ∧ good t'.
Proof.
  intros Hpc Hg Hnd. unfold good in Hg. rewrite Hpc in Hg. destruct Hg as (Hg & Hacc & Hsub).
  unfold accounted, remaining in Hacc. rewrite Hpc in Hacc. destruct ret as [z|e].
  - destruct (finish_good i t rdy p z s _ Hg Hnd Hsub Hacc eq_refl) as (t' & -> & Hm & Hg').
    exists t'. split; [|done]. simpl. by rewrite settles_contacts.
  - eexists. split; [done|]. split; [done|]. by apply fail_good.
Qed.

Lemma timeout_good t : pc t = Waiting → good t →
  good (set_pc Done (reply (mkResponse FINISH [] (pending t).*1 (Some TimedOut)) t)).
Proof.
  intros Hpc Hg. unfold good in Hg. rewrite Hpc in Hg. destruct Hg as [Hg Hacc]. right; right. split.
  - eexists _, _. split; [done|]. done.
  - unfold accounted, remaining in *. rewrite Hpc in Hacc. simpl. rewrite <- Hacc.
    change (answers (set_pc Done ?x)) with (answers x). rewrite answers_reply. simpl. rewrite app_nil_r, <- app_assoc. f_equiv.
    apply Permutation_app_comm.
Qed.

(** What a turn changes, whatever the contact asks for. *)
Lemma finish_meta i t rdy p ret s :
  ∃ t', contacts (finish_turn i t rdy p ret s) = <[i := t']> (contacts s) ∧ meta t' = meta t.
Proof.
  destruct (finish_turn_eq i t rdy p ret s) as (errs & r & -> & _). eexists. split; [simpl; by rewrite settles_contacts|].
  unfold turn_done. done.
Qed.

Lemma wake_meta mtk c i t don s :
  ∃ t', contacts (wake mtk c i t don s) = <[i := t']> (contacts s) ∧ meta t' = meta t.
Proof.
  unfold wake. destruct (foldl _ _ don) as [[s1 rdy] exps] eqn:E. apply collect_ids in E as [_ Hc].
  destruct (build_transfer_params _ _ _ _ _ _) as [p|e]; [destruct (copies p)|].
  - destruct (finish_meta i (log_expired exps (drop_done don.*1 t)) rdy p 0 s1) as (t' & -> & Hm). exists t'. by rewrite Hc.
  - eexists. split; [simpl; by rewrite Hc|done].
  - eexists. split; [simpl; by rewrite Hc|done].
Qed.

Lemma written_meta i t rdy p ret s :
  ∃ t', contacts (match ret with Ok z => finish_turn i t rdy p z s | Err e => fail_contact i t rdy e s end)
          = <[i := t']> (contacts s) ∧ meta t' = meta t.
Proof. destruct ret as [z|e]; [apply finish_meta|]. eexists. split; done. Qed.

(** ** The start of a contact *)

Lemma pendings_ids l s pend s' pend' :
  foldl add_pending (s, pend) l = (s', pend') → NoDup (pend.*1 ++ l.*1) →
  pend'.*1 = pend.*1 ++ l.*1 ∧ contacts s' = contacts s.
Proof.
  revert s pend. induction l as [|[d [tid bl]] l IH]; intros s pend H Hnd; cbn [foldl] in H.
  { simplify_eq. split; [|done]. simpl. by rewrite app_nil_r. }
  unfold add_pending in H at 2. csimpl in Hnd.
  assert (Hd : d ∉ pend.*1) by (apply NoDup_app in Hnd as (_ & Hnd & _); intros Hin; apply Hnd in Hin; set_solver).
  assert (Hset : ∀ x, (dset pend d x).*1 = pend.*1 ++ [d]).
  { intros x. pose proof (dkeys_dset pend d x) as Hk. unfold dkeys in Hk. rewrite Hk. by rewrite (proj2 (dget_None _ _) Hd). }
  apply IH in H as [-> Hc]; rewrite Hset, <- app_assoc; [|done]. split; [done|]. rewrite Hc. by destruct (is_some _).
Qed.

Lemma start_good target tgi c m s :
  NoDup (req_blocks m).*1 →
  ∃ t, contacts (start_contact target tgi c m s) = contacts s ++ [t] ∧ meta t = m ∧ good t.
Proof.
  intros Hnd. unfold start_contact. destruct (check_contact _ _ _ _) as [[[ranks regs]|why]|e].
  - destruct (foldl add_pending (s, []) (req_blocks m)) as [s1 pend] eqn:E. apply pendings_ids in E as [Hp Hc]; [|done].
    simpl in Hp. eexists. split; [simpl; by rewrite Hc|]. split; [done|]. unfold good. destruct pend as [|e pend]; simpl.
    + right; left. split; [|done]. unfold asked_ids; simpl. by rewrite <- Hp.
    + split; [constructor|]. unfold accounted, remaining, answers, asked_ids; simpl. by rewrite <- Hp.
  - eexists. split; [done|]. split; [done|]. left. by exists why.
  - eexists. split; [done|]. split; [done|]. exists [], (error_response (Raised e)). split_and!; [done|constructor|done].
Qed.

(** ** Executions *)

Definition all_good (s : sender) : Prop := ∀ t, t ∈ contacts s → NoDup (asked_ids t) → good t.

Lemma all_good_insert i t t' s s' :
  contacts s !! i = Some t → contacts s' = <[i := t']> (contacts s) → meta t' = meta t → (NoDup (asked_ids t) → good t → good t') →
  all_good s → all_good s'.
Proof.
  intros Hi Hs Hm Ht' Hg t0. rewrite Hs. intros [->|Ht0]%elem_of_insert_inv; [|by apply Hg].
  intros Hnd. unfold asked_ids in Hnd. rewrite Hm in Hnd. apply Ht'; [done|]. apply Hg; [by eapply list_elem_of_lookup_2|done].
Qed.

(** A step of a contact: its outcome in any case, and when it asks for no
    request twice. *)
Lemma all_good_step i t s s' :
  contacts s !! i = Some t →
  (∃ t', contacts s' = <[i := t']> (contacts s) ∧ meta t' = meta t) →
  (good t → NoDup (asked_ids t) → ∃ t', contacts s' = <[i := t']> (contacts s) ∧ meta t' = meta t ∧ good t') →
  all_good s → all_good s'.
Proof.
  intros Hi (t' & Hs & Hm) Hgood Hg. eapply all_good_insert; [exact Hi|exact Hs|exact Hm| |exact Hg].
  intros Hnd Ht. destruct (Hgood Ht Hnd) as (t'' & Hs' & _ & Hg'). rewrite Hs in Hs'.
  assert (t' = t'') as ->; [|done]. apply lookup_lt_Some in Hi.
  assert (<[i := t']> (contacts s) !! i = <[i := t'']> (contacts s) !! i) as E by by rewrite Hs'.
  rewrite !list_lookup_insert_eq in E by done. congruence.
Qed.

Section run.
Context (mtk : list Z → Z → list Z) (target : Z → result (list Z)) (tgi : string → Z) (c : worker_config).

Lemma each_contacts {A} (f : sender → A → sender * option exn) l s :
  (∀ s a, contacts (f s a).1 = contacts s) → contacts (each f s l).1 = contacts s.
Proof.
  intros Hf. apply (each_ind (λ s', contacts s' = contacts s)); [|done]. intros s' a _ Hs. by rewrite Hf.
Qed.

Lemma record_contacts m s : contacts (record_send_reqs m s).1 = contacts s.
Proof.
  unfold record_send_reqs. pose proof (each_contacts (record_one m) (reqs_to_send m) s) as H1.
  destruct (each (record_one m) s (reqs_to_send m)) as [s1 [e|]]; simpl in H1.
  - apply H1. intros s2 [id [tid [|b bl]]]; simpl; [by destruct (is_some _)|by destruct (dget _ _)].
  - rewrite each_contacts; [apply H1|]; [intros s2 [id [tid [|b bl]]]; simpl; [by destruct (is_some _)|by destruct (dget _ _)]|].
    intros s2 tid. unfold drop_one. by destruct (dget _ _).
Qed.

(** The contacts of a step: one more, one changed, or the same. *)
Lemma step_good s e s' : send_step mtk target tgi c s e = Some s' → all_good s → all_good s'.
Proof.
  intros H Hg. destruct e as [m|m|i don|i|i ret| |d|]; simpl in H.
  - simplify_eq. unfold all_good. by rewrite record_contacts.
  - simplify_eq. intros t Ht Hnd. destruct (decide (NoDup (req_blocks m).*1)) as [Hm|Hm].
    + destruct (start_good target tgi c m s Hm) as (t1 & Hc & _ & Hg1). rewrite Hc in Ht.
      apply elem_of_app in Ht as [Ht| ->%list_elem_of_singleton]; [by apply Hg|done].
    + unfold start_contact in Ht. destruct (check_contact _ _ _ _) as [[[ranks regs]|why]|e];
        [destruct (foldl add_pending _ _) as [s1 pend] eqn:E|..]; simpl in Ht.
      2, 3: apply elem_of_app in Ht as [Ht| ->%list_elem_of_singleton]; [by apply Hg|done].
      apply elem_of_app in Ht as [Ht| ->%list_elem_of_singleton]; [|done]. apply Hg; [|done].
      assert (Hc : ∀ l s pend s' pend', foldl add_pending (s, pend) l = (s', pend') → contacts s' = contacts s).
      { clear. induction l as [|[d [tid bl]] l IH]; intros s pend s' pend' H; cbn [foldl] in H; [by simplify_eq|].
        unfold add_pending in H at 2. apply IH in H. rewrite H. by destruct (is_some _). }
      by rewrite <- (Hc _ _ _ _ _ E).
  - destruct (contacts s !! i) as [t|] eqn:Hi; [|done]. simpl in H. destruct (pc t) eqn:Hpc; try done.
    destruct (finished_waits t don s) eqn:Hd; [|done]. simplify_eq.
    eapply all_good_step; [exact Hi|apply wake_meta| |done]. intros Hgt Hnd. by apply wake_good.
  - destruct (contacts s !! i) as [t|] eqn:Hi; [|done]. simpl in H. destruct (pc t) eqn:Hpc; try done.
    destruct (forallb _ _); [|done]. simplify_eq.
    eapply all_good_insert; [exact Hi|done|done| |done]. intros _ Hgt. by apply timeout_good.
  - destruct (contacts s !! i) as [t|] eqn:Hi; [|done]. simpl in H. destruct (pc t) eqn:Hpc; try done. simplify_eq.
    eapply all_good_step; [exact Hi|apply written_meta| |done]. intros Hgt Hnd. by apply written_good.
  - by simplify_eq.
  - destruct (0 <=? d); by simplify_eq.
  - by simplify_eq.
Qed.

Lemma run_good s es s' : send_run mtk target tgi c s es = Some s' → all_good s → all_good s'.
Proof.
  revert s. induction es as [|e es IH]; intros s H Hg; simpl in H; [by simplify_eq|].
  destruct (send_step mtk target tgi c s e) eqn:E; [|done]. simpl in H. eapply IH; [done|]. by eapply step_good.
Qed.
End run.
