(* ===== verification/P2PSendProps.v ===== *)
(** * The raw sender of the P2P connector: properties

    The properties of [P2PSend], among them executions in which an exception
    leaks the blocks of a request, in which blocks are sent after they were
    given back, and in which an aborted request stops the bookkeeping. *)

From S2P Require Import Prelude Messages Transfer P2PPlan P2PSched P2PSchedThms P2PSend P2PSendThms P2PSendSafe P2PAnswers.

(** ** A small deployment

    One producer rank, two decoder ranks, one layer of attention. *)
Definition ex_worker : worker_config :=
  mkWorkerConfig (mkPlanConfig [false] 0 1 0 1 false) [4096] [256] [256] ["model.layers.0.attn"] [0] [0].
Definition ex_targets (size : Z) : result (list Z) := Ok (seqZ 0 size).
Definition ex_kernel (l : list Z) (_ : Z) : list Z := l.

(** What rank [rank] of the decoder asks for. *)
Definition ex_ask (rank : Z) (blocks : list (string * (string * list (list Z)))) : MooncakeXferMetadata :=
  mkXfer "decoder" 9000 2 rank blocks [65536] [128] [128] ["model.layers.0.attn"] [0] [0] 1.

Definition ex_announce (id tid : string) (blocks : list (list Z)) : P2PSend.event :=
Record (mkMeta [] [(id, (tid, blocks))] ∅ [(id, Some 16)]).

Notation ex_run := (send_run ex_kernel ex_targets (λ _, 0) ex_worker).
Notation ex_served := (served 2 ex_kernel ex_targets (λ _, 0) ex_worker).

(** The state after some events. *)
Definition ex_after (es : list P2PSend.event) : sender := default init_sender (ex_run init_sender es).

(** ** Properties *)

(** In every execution [sending] of an entry is the number of ready
    requests on it that are being written, plus those whose handling ended in
    an exception: an exception leaves the counter raised for ever. *)
Theorem raw_sending_exact mtk target tgi c es s :
  send_run mtk target tgi c init_sender es = Some s →
  ∀ r, sending (send_of s r) = tally writing_of r s + tally failed_of r s.
Proof.
  intros H r. assert (Hc : counted [] [] s) by (eapply run_counted; [exact H|apply init_counted]).
  rewrite (c_sending _ _ _ Hc). change (occ r []) with 0. lia.
Qed.

(** Rank 0 asks for two transfers; the first is announced and written. *)
Definition ex_writing : list P2PSend.event :=
  [Contact (ex_ask 0 [("d1", ("t1", [[7; 8]])); ("d2", ("t2", [[9]]))]); ex_announce "p1" "t1" [[1; 2]];
   Ready 0 [("d1", 0%nat)]].

Lemma raw_sending_exact_witness :
  ex_run init_sender ex_writing = Some (ex_after ex_writing) ∧ tally writing_of 0 (ex_after ex_writing) = 1 ∧
  ∀ r, sending (send_of (ex_after ex_writing) r) = tally writing_of r (ex_after ex_writing) + tally failed_of r (ex_after ex_writing).
Proof.
  split; [vm_compute; reflexivity|]. split; [vm_compute; reflexivity|].
  apply (raw_sending_exact ex_kernel ex_targets (λ _, 0) ex_worker ex_writing). vm_compute. reflexivity.
Defined.

(** C27 Blocks are not given back while they are read: when every decoder rank
    asks for a transfer once, the engine drops no request it has announced and
    no entry expires under a contact that waits for it, the engine is told
    about an entry at most once, and every entry that is being written is
    still registered and has not been reported. *)
Theorem raw_blocks_kept n mtk target tgi c s :
  0 ≤ n → served n mtk target tgi c s →
  ∃ refs, reported s refs ∧
    ∀ t rdy p e, t ∈ contacts s → pc t = Writing rdy p → e ∈ rdy →
      registered s e.2 ∧ ready (send_of s e.2) = true ∧ e.2 ∉ refs.
Proof.
  intros Hn Hs. apply served_kept in Hs as [_ _ _ _ _ Hw _ Hact (refs & Hr)]; [|done]. exists refs. split; [done|].
  intros t rdy p e Ht Hpc He. assert (Hwr : writes_to [] s e.2).
  { right. apply list_elem_of_lookup in Ht as [i Hi]. pose proof (tally_ge writing_of e.2 _ _ _ Hi) as Hge.
    assert (Hin : e.2 ∈ writing_of t) by (unfold writing_of; rewrite Hpc; by apply list_elem_of_fmap_2).
    apply occ_pos in Hin. lia. }
  assert (Hreg : registered s e.2) by (apply Hact; by right).
  split_and!; [done|by apply Hw|]. intros Hin. destruct Hr as (_ & _ & Hr). by apply Hr in Hin as [_ ?].
Qed.

Lemma ex_names_le tid m k : (length (req_blocks m) <= k)%nat → names tid m ≤ Z.of_nat k.
Proof.
  unfold names. intros H. assert (Hle : ∀ l, cnt (λ e : string * (string * list (list Z)), bool_decide (e.2.1 = tid)) l ≤ zlen l).
  { induction l as [|e l IH]; [done|]. rewrite cnt_cons. unfold zlen in *. simpl. destruct (bool_decide _); simpl; lia. }
  specialize (Hle (req_blocks m)). unfold zlen in Hle. lia.
Qed.

Lemma raw_blocks_kept_witness :
  let s := ex_after ex_writing in
  ex_served s ∧ (pc <$> contacts s !! 0%nat) ≠ Some Waiting ∧
  ∃ refs, reported s refs ∧
    ∀ t rdy p e, t ∈ contacts s → pc t = Writing rdy p → e ∈ rdy →
      registered s e.2 ∧ ready (send_of s e.2) = true ∧ e.2 ∉ refs.
Proof.
  assert (Hs : ex_served (ex_after ex_writing)).
  { apply (served_step _ _ _ _ _ (ex_after (take 2 ex_writing)) (Ready 0 [("d1", 0%nat)])); [|exact I|vm_compute; reflexivity].
    apply (served_step _ _ _ _ _ (ex_after (take 1 ex_writing)) (ex_announce "p1" "t1" [[1; 2]])); [| |vm_compute; reflexivity].
    2: { intros tid Htid. by apply not_elem_of_empty in Htid. }
    apply (served_step _ _ _ _ _ init_sender (Contact (ex_ask 0 [("d1", ("t1", [[7; 8]])); ("d2", ("t2", [[9]]))])));
      [constructor| |vm_compute; reflexivity].
    split; [intros ranks [= <-]; reflexivity|]. intros tid. apply (ex_names_le tid _ 2). simpl. lia. }
  split; [exact Hs|]. split; [vm_compute; discriminate|].
  apply (raw_blocks_kept 2 ex_kernel ex_targets (λ _, 0) ex_worker); [lia|exact Hs].
Defined.

(** *** An exception leaks the blocks of a request *)

(** What goes on when nobody contacts the worker any more. *)
Definition background (e : P2PSend.event) : Prop := match e with Sweep | Tick _ | GetFinished => True | _ => False end.

(** Nothing changes for a worker none of whose entries can expire. *)
Definition same_entries (s0 s : sender) : Prop :=
  heap s = heap s0 ∧ reqs_need_send s = reqs_need_send s0 ∧
  engine_finished s ++ finished_sending s = engine_finished s0 ++ finished_sending s0.

Lemma filter_none {A} (P : A → Prop) `{!∀ x, Decision (P x)} (l : list A) : (∀ x, x ∈ l → ¬ P x) → filter P l = [].
Proof. induction l as [|x l IH]; intros Hl; [reflexivity|]. rewrite filter_cons_False by set_solver. apply IH. set_solver. Qed.

Lemma background_run mtk target tgi c s0 es s s' :
  (∀ e, e ∈ reqs_need_send s0 → sending (send_of s0 e.2) ≠ 0 ∨ expire_time (send_of s0 e.2) = None) → Forall background es →
  same_entries s0 s → send_run mtk target tgi c s es = Some s' → same_entries s0 s'.
Proof.
  intros Hs0 Hes. revert s. induction Hes as [|e es He _ IH]; intros s Hs Hrun; simpl in Hrun; [by simplify_eq|].
  destruct (send_step mtk target tgi c s e) as [s1|] eqn:E; [|done]. simpl in Hrun. apply (IH s1); [|done].
  destruct Hs as (Hh & Hr & Hf). destruct e; try done; simpl in E; simplify_eq.
  - unfold sweep_expired_sends. rewrite filter_none; [unfold same_entries; simpl; by rewrite app_nil_r|].
    intros e Hin Hx. rewrite Hr in Hin. apply Hs0 in Hin. unfold is_expired in Hx. rewrite !andb_true_iff in Hx.
    destruct Hx as [[_ Hx] Hz]. apply Z.eqb_eq in Hz. unfold send_of in *. rewrite Hh in Hx, Hz. destruct Hin as [?|Hin]; [done|].
    by rewrite Hin in Hx.
  - destruct (0 <=? d); simplify_eq. done.
  - split_and!; [done|done|]. simpl. by rewrite app_nil_r.
Qed.

(** Both transfers are announced; writing the second raises. *)
Definition ex_raising : list P2PSend.event :=
  [Contact (ex_ask 0 [("d1", ("t1", [[7; 8]]))]); ex_announce "p1" "t1" [[1; 2]];
   Ready 0 [("d1", 0%nat)]; Written 0 (Err (RuntimeError "transport"))].

(** An exception leaks the blocks of a request: the engine keeps the blocks
    of p1 until the worker reports it; the write raises, the decoder is told
    of an error, and then, however long the worker goes on sweeping, it never
    reports p1, because the entry still counts the write that failed. *)
Theorem failed_write_leaks :
  ∃ s, ex_run init_sender ex_raising = Some s ∧
    (p_req_id <$> heap s) = ["p1"] ∧ (rs_status <$> (contacts s ≫= replies)) = [ERROR] ∧
    ∀ es s', Forall background es → ex_run s es = Some s' → engine_finished s' ++ finished_sending s' = [].
Proof.
  exists (ex_after ex_raising). split; [vm_compute; reflexivity|]. split; [vm_compute; reflexivity|].
  split; [vm_compute; reflexivity|]. intros es s' Hes H. eapply (background_run _ _ _ _ (ex_after ex_raising)) in H as (_ & _ & H);
    [rewrite H; vm_compute; reflexivity| |exact Hes|done].
  - intros e He. left. assert (E : reqs_need_send (ex_after ex_raising) = [("t1", 0%nat)]) by (vm_compute; reflexivity).
    rewrite E in He. apply list_elem_of_singleton in He as ->. vm_compute. discriminate.
Qed.

(** *** Blocks are sent after they were given back *)

(** Rank 0 asks for two transfers. While it writes the first, the second is
    announced, expires and is reported to the engine, and rank 1 asks for it
    anew. *)
Definition ex_stale : list P2PSend.event :=
  ex_writing ++
  [ex_announce "p2" "t2" [[3]]; Tick 481; Sweep; GetFinished; Contact (ex_ask 1 [("d2", ("t2", [[9]]))]);
   Written 0 (Ok 0); Ready 0 [("d2", 1%nat)]].

(** Blocks are sent after they were given back: a contact checks that the
    id of its transfer is registered, not that its own entry is. If the entry
    expired while the contact was writing another request, and another rank
    has registered the id again, the blocks that the engine was told it may
    free are read, and the decoder gets them as good. *)
Theorem stale_blocks_sent :
  ∃ s, ex_run init_sender ex_stale = Some s ∧ engine_finished s = ["p2"] ∧
    (∃ t p, contacts s !! 0%nat = Some t ∧ pc t = Writing [("d2", 1%nat)] p ∧
       copies p = [mkCopy (4096 + 3 * 256) (65536 + 9 * 128) 128]) ∧
    ∃ s', ex_run s [Written 0 (Ok 0)] = Some s' ∧
      (∃ t, contacts s' !! 0%nat = Some t ∧ rs_ok_reqs <$> replies t = [["d1"]; ["d2"]]).
Proof.
  exists (ex_after ex_stale). split; [vm_compute; reflexivity|]. split; [vm_compute; reflexivity|]. split.
  - eexists _, _. split; [vm_compute; reflexivity|]. split; reflexivity.
  - exists (ex_after (ex_stale ++ [Written 0 (Ok 0)])). split; [vm_compute; reflexivity|].
    eexists. split; [vm_compute; reflexivity|]. reflexivity.
Qed.

(** *** An aborted request stops the bookkeeping *)

(** Two requests of a prefiller: p2 is scheduled in one step and aborted, and
    p1 is aborted before it was ever scheduled. *)
Definition ex_aborted_calls : list P2PSchedThms.event :=
  let params tid := mkKVParams false true (Some tid) None None false in
  [New 1 (ex_request "p2" (params "t2")); Allocated 1 [[3]] 0; Scheduled; New 0 (ex_request "p1" (params "t1"));
   Finished 0 []; Finished 1 [[3]]; Scheduled].

Definition metas (l : list output) : list MooncakeConnectorMetadata :=
  l ≫= λ o, match o with Metadata m => [m] | _ => [] end.

(** An aborted request stops the bookkeeping: the scheduler drops a request
    that was aborted before it was scheduled as well, the worker, which never
    heard of it, raises, and the other dropped request keeps its entry for
    ever; only the session helper ignores an unknown transfer. *)
Theorem unscheduled_abort_raises :
  let x := after id ex_prefiller P2PSched.init_sched ex_aborted_calls in
  steps id ex_prefiller P2PSched.init_sched ex_aborted_calls x.1 x.2 ∧
  ∃ m1 m2, metas x.2 = [m1; m2] ∧
    let s1 := (record_send_reqs m1 init_sender).1 in
    let (s2, e) := record_send_reqs m2 s1 in
    meta_not_processed m2 = {["t1"; "t2"]} ∧ e = Some KeyError ∧ dkeys (reqs_need_send s2) = ["t2"] ∧
    ∀ es s', Forall background es → ex_run s2 es = Some s' → reqs_need_send s' = reqs_need_send s2.
Proof.
  split; [apply after_steps; vm_compute; reflexivity|].
  eexists _, _. split; [vm_compute; reflexivity|]. split; [vm_compute; reflexivity|]. split; [vm_compute; reflexivity|].
  split; [vm_compute; reflexivity|]. intros es s' Hes H.
  eapply background_run in H as (_ & H & _); [exact H| |exact Hes|done].
  intros e He. right. vm_compute in He. apply list_elem_of_singleton in He as ->. vm_compute. reflexivity.
Qed.

(** C28 Every request is answered: in every execution a contact that is over
    was refused with one error, or ended with FINISH after replies that say
    CONTINUE and name each of its requests exactly once, as good or as bad,
    except those that expired before they were sent, which no reply names; a
    contact whose handling raised ends with ERROR. *)
Theorem contact_answered mtk target tgi c es s t :
  send_run mtk target tgi c init_sender es = Some s → t ∈ contacts s → NoDup (asked_ids t) → asked_ids t ≠ [] →
  (pc t = Done → (∃ why, replies t = [error_response why]) ∨
                 ended FINISH t ∧ answers t ++ expired t ≡ₚ asked_ids t) ∧
  (∀ rdy, pc t = Failed rdy → ended ERROR t).
Proof.
  intros H Ht Hnd Hne. assert (Hg : all_good s) by (eapply run_good; [exact H|]; intros t0 Ht0; by apply elem_of_nil in Ht0).
  specialize (Hg t Ht Hnd). unfold good in Hg. split; [intros Hpc|intros rdy Hpc]; rewrite Hpc in Hg; [|done].
  destruct Hg as [Hw|[[He _]|[He Hacc]]]; [by left|done|right]. split; [done|].
  unfold accounted, remaining in Hacc. rewrite Hpc in Hacc. by rewrite app_nil_r in Hacc.
Qed.

(** The first request is written, the second never becomes ready. *)
Definition ex_answered : list P2PSend.event := ex_writing ++ [Written 0 (Ok 0); Timeout 0].
Definition ex_contact : contact :=
  default (mkContact (ex_ask 0 []) ([], []) [] [] Done [] []) (contacts (ex_after ex_answered) !! 0%nat).

Lemma contact_answered_witness :
  pc ex_contact = Done ∧ (rs_status <$> replies ex_contact) = [CONTINUE; FINISH] ∧
  (rs_ok_reqs <$> replies ex_contact) = [["d1"]; []] ∧ (rs_err_reqs <$> replies ex_contact) = [[]; ["d2"]] ∧
  ((pc ex_contact = Done → (∃ why, replies ex_contact = [error_response why]) ∨
                 ended FINISH ex_contact ∧ answers ex_contact ++ expired ex_contact ≡ₚ asked_ids ex_contact) ∧
   (∀ rdy, pc ex_contact = Failed rdy → ended ERROR ex_contact)).
Proof.
  do 4 (split; [vm_compute; reflexivity|]).
  apply (contact_answered ex_kernel ex_targets (λ _, 0) ex_worker ex_answered (ex_after ex_answered)).
  - vm_compute. reflexivity.
  - apply list_elem_of_lookup. exists 0%nat. vm_compute. reflexivity.
  - change (NoDup ["d1"; "d2"]). apply NoDup_cons. split; [|apply NoDup_singleton]. by intros ?%list_elem_of_singleton.
  - vm_compute. discriminate.
Defined.
