(* ===== verification/StoreData.v ===== *)
(** * The Mooncake store: keys, layouts, chunks and request metadata

    [mooncake/store/data.py] and [mooncake/store/protocol.py]. Tensors and
    block hashes are the libraries'; a tensor is the record of what the code
    reads of it, a block hash its bytes. NumPy's fixed-width arithmetic is
    written out. *)

From S2P Require Import Prelude PyData.

(** ** Bytes *)

(** [n.to_bytes(k, "big")] *)
Fixpoint be (k : nat) (n : Z) : list Z :=
  match k with
  | O => []
  | S k => (n / 256 ^ Z.of_nat k) mod 256 :: be k n
  end.

Definition to_bytes (k : nat) (n : Z) : result (list Z) :=
  let? _ := raise_if (negb ((0 <=? n) && (n <? 256 ^ Z.of_nat k))) OverflowError in Ok (be k n).

(** [int.from_bytes(b, "big")] *)
Definition from_bytes (b : list Z) : Z := foldl (λ acc x, acc * 256 + x) 0 b.

(** [l[i:j]] for non-negative bounds. *)
Definition slice {A} (l : list A) (i j : Z) : list A :=
  take (Z.to_nat (j - i)) (drop (Z.to_nat i) l).

Definition byte (z : Z) : Prop := 0 ≤ z < 256.

(** ** The lookup response *)

Record TailKeyBoundary := mkBoundary { tb_group_id : Z; tb_num_tokens : Z }.

Record MooncakeLookupResult := mkLookup {
  hit_length : Z;
  tail_key_boundaries : list TailKeyBoundary
}.

Definition TAIL_KEY_BOUNDARY_ENTRY_SIZE : Z := 8.

Definition encode_boundary (b : TailKeyBoundary) : result (list Z) :=
  let? g := to_bytes 4 (tb_group_id b) in
  let? n := to_bytes 4 (tb_num_tokens b) in Ok (g ++ n).

Definition encode_lookup_response (r : MooncakeLookupResult) : result (list Z) :=
  let? h := to_bytes 4 (hit_length r) in
  match tail_key_boundaries r with
  | [] => Ok h
  | l => rfold (λ payload b, let? e := encode_boundary b in Ok (payload ++ e)) h l
  end.

Definition decode_boundary (payload : list Z) (offset : Z) : TailKeyBoundary :=
  mkBoundary (from_bytes (slice payload offset (offset + 4)))
    (from_bytes (slice payload (offset + 4) (offset + 8))).

(** [range(4, n, 8)] *)
Definition boundary_offsets (n : Z) : list Z :=
  (λ i, 4 + TAIL_KEY_BOUNDARY_ENTRY_SIZE * i) <$>
    seqZ 0 ((n - 4 + TAIL_KEY_BOUNDARY_ENTRY_SIZE - 1) / TAIL_KEY_BOUNDARY_ENTRY_SIZE).

Definition decode_lookup_response (payload : list Z) : result MooncakeLookupResult :=
  let n := zlen payload in
  let? _ := raise_if ((n <? 4) || negb ((n - 4) mod TAIL_KEY_BOUNDARY_ENTRY_SIZE =? 0))
              (ValueError "Invalid Mooncake lookup response") in
  let h := from_bytes (slice payload 0 4) in
  if n =? 4 then Ok (mkLookup h [])
  else Ok (mkLookup h (decode_boundary payload <$> boundary_offsets n)).

(** ** Keys *)

Record KeyMetadata := mkKeyMetadata {
  model_name : string;
  tp_rank : Z;
  pcp_rank : Z;
  dcp_rank : Z;
  pp_rank : Z;
  group_id : Z;
  cache_prefix : string;
  store_namespace : string
}.

(** A [RankNamespace]. *)
Abbreviation rank_namespace := (Z * Z * Z * Z)%type.

(** [build_prefix]; the keyword arguments override the metadata's ranks. *)
Definition build_prefix (m : KeyMetadata) (tp pcp dcp pp : option Z) : string :=
  ((if String.eqb (cache_prefix m) "" then "" else cache_prefix m ++ "@")
   ++ model_name m ++ store_namespace m
   ++ "@tp_rank:" ++ str_of_Z (default (tp_rank m) tp)
   ++ "@pcp" ++ str_of_Z (default (pcp_rank m) pcp)
   ++ "@dcp" ++ str_of_Z (default (dcp_rank m) dcp)
   ++ "@pp_rank:" ++ str_of_Z (default (pp_rank m) pp)
   ++ "@group:" ++ str_of_Z (group_id m))%string.

Definition build_key_string (key_prefix chunk_hash : string) : string :=
  (key_prefix ++ "@" ++ chunk_hash)%string.

Record PoolKey := mkPoolKey { key_metadata : KeyMetadata; chunk_hash : string }.

Definition pool_key_to_string (k : PoolKey) : string :=
  build_key_string (build_prefix (key_metadata k) None None None None) (chunk_hash k).

(** [bytes.hex()] *)
Definition nibble (z : Z) : Ascii.ascii :=
  Ascii.ascii_of_nat (Z.to_nat (if z <? 10 then 48 + z else 87 + z)).

Fixpoint hex (b : list Z) : string :=
  match b with
  | [] => ""
  | x :: b => String (nibble (x / 16)) (String (nibble (x mod 16)) (hex b))
  end.

Abbreviation block_hash := (list Z).

(** ** Hashes *)

(** [BlobBlockHashes]: fixed-size hashes in a flat buffer. *)
Record BlobBlockHashes := mkBlob { blob : list Z; hash_len : Z }.

Definition blob_len (b : BlobBlockHashes) : Z :=
  if hash_len b =? 0 then 0 else zlen (blob b) / hash_len b.

Definition blob_get (b : BlobBlockHashes) (idx : Z) : result block_hash :=
  let n := blob_len b in
  let idx := if idx <? 0 then idx + n else idx in
  let? _ := raise_if (negb ((0 <=? idx) && (idx <? n))) IndexError in
  let off := idx * hash_len b in
  Ok (slice (blob b) off (off + hash_len b)).

(** Element [idx] of [chunk_hashes_for_block_size]: the hash of chunk [idx],
    its last constituent hash ([_CompactChunkHashList._get_value_at]). *)
Definition chunk_hash_at (hashes : list block_hash) (hash_block_size block_size idx : Z) :
    result block_hash :=
  if block_size =? hash_block_size then py_index hashes idx
  else
    let? r := py_mod block_size hash_block_size in
    let? _ := assert_ (r =? 0) in
    let scale := block_size / hash_block_size in
    py_index hashes (idx * scale + scale - 1).

(** ** NumPy integers

    An array of 64-bit integers raises on an element out of range and wraps
    in its arithmetic; its division and remainder by zero are zero. *)
Definition i64 (z : Z) : result Z :=
  if (- 2 ^ 63 <=? z) && (z <? 2 ^ 63) then Ok z else Err OverflowError.
Definition u64 (z : Z) : result Z :=
  if (0 <=? z) && (z <? 2 ^ 64) then Ok z else Err OverflowError.
Definition wrap_i64 (z : Z) : Z := (z + 2 ^ 63) mod 2 ^ 64 - 2 ^ 63.
Definition wrap_u64 (z : Z) : Z := z mod 2 ^ 64.
Definition np_mod (a b : Z) : Z := if b =? 0 then 0 else a mod b.
Definition np_div (a b : Z) : Z := if b =? 0 then 0 else wrap_i64 (a / b).

(** ** Tensors, as far as the layouts read them

    Shape and strides in elements; [t_storage] is the address and the byte
    size of the underlying storage. *)
Record tensor := mkTensor {
  t_shape : list Z;
  t_stride : list Z;
  t_element_size : Z;
  t_data_ptr : Z;
  t_storage : Z * Z
}.

(** [t[0]] and [t[:, i]] *)
Definition tensor_first (t : tensor) : tensor :=
  mkTensor (drop 1 (t_shape t)) (drop 1 (t_stride t)) (t_element_size t) (t_data_ptr t)
    (t_storage t).

Definition drop_dim1 (l : list Z) : list Z := take 1 l ++ drop 2 l.

Definition tensor_head (t : tensor) (i : Z) : tensor :=
  mkTensor (drop_dim1 (t_shape t)) (drop_dim1 (t_stride t)) (t_element_size t)
    (t_data_ptr t + i * nth 1 (t_stride t) 0 * t_element_size t) (t_storage t).

Definition stride0 (t : tensor) : Z := nth 0 (t_stride t) 0.

(** ** Store layouts

    What every [StoreLayout] has. *)
Record layout_base := mkLayoutBase {
  l_metadata : KeyMetadata;
  l_block_size : Z;
  l_hash_block_size : Z
}.

Abbreviation values := (list (list Z) * list (list Z) * list Z)%type.

(** *** One object per rank *)

Record RankLocalStoreLayout := mkRankLocal {
  rl_base : layout_base;
  rl_key_prefix : string;
  kv_caches_base_addr : list Z;
  block_len : list Z
}.

Definition rank_local (m : KeyMetadata) (block_size hash_block_size : Z) : RankLocalStoreLayout :=
  mkRankLocal (mkLayoutBase m block_size hash_block_size) (build_prefix m None None None None)
    [] [].

Definition rank_local_key_for (l : RankLocalStoreLayout) (shard_id : Z) (h : block_hash) :
    result string :=
  let? _ := assert_ (shard_id =? 0) in Ok (build_key_string (rl_key_prefix l) (hex h)).

Definition rank_local_lookup_prefixes (l : RankLocalStoreLayout) (ns : list rank_namespace) :
    list string :=
  (λ n : rank_namespace, let '(tp, pcp, dcp, pp) := n in
     build_prefix (l_metadata (rl_base l)) (Some tp) (Some pcp) (Some dcp) (Some pp)) <$> ns.

Definition set_regions (addrs lens : list Z) (l : RankLocalStoreLayout) : RankLocalStoreLayout :=
  mkRankLocal (rl_base l) (rl_key_prefix l) addrs lens.

Section register.
Context (is_non_overlapping_and_dense : tensor → bool).

(** The accumulator is [base_addrs] with [block_lens]; the addresses in it are
    the set [seen_region_ptrs]. *)
Definition add_region (addr len : Z) (acc : list (Z * Z)) : list (Z * Z) :=
  if bool_decide (addr ∈ acc.*1) then acc else acc ++ [(addr, len)].

Definition add_cache (num_blocks : Z) (acc : list (Z * Z)) (cache : tensor) :
    result (list (Z * Z)) :=
  let (storage_addr, storage_len) := t_storage cache in
  if negb (is_non_overlapping_and_dense (tensor_first cache)) then
    rfold (λ acc i,
      let head := tensor_head cache i in
      let? _ := assert_ (is_non_overlapping_and_dense (tensor_first head)) in
      Ok (add_region (t_data_ptr head) (stride0 head * t_element_size head) acc))
      acc (seqZ 0 (nth 1 (t_shape cache) 0))
  else if stride0 cache * t_element_size cache * num_blocks =? storage_len then
    if bool_decide (storage_addr ∈ acc.*1) then Ok acc
    else let? len := py_div storage_len num_blocks in Ok (acc ++ [(storage_addr, len)])
  else Ok (add_region (t_data_ptr cache) (stride0 cache * t_element_size cache) acc).

Definition rank_local_register (caches : list tensor) (num_blocks : Z)
    (l : RankLocalStoreLayout) : result RankLocalStoreLayout :=
  let? acc := rfold (add_cache num_blocks) [] caches in
  Ok (set_regions acc.*1 acc.*2 l).

End register.

(** [blen]: the block length of each region. *)
Definition region_lens (l : RankLocalStoreLayout) : result (list Z) :=
  rmap (λ i, let? j := py_mod i (zlen (block_len l)) in py_index (block_len l) j)
    (seqZ 0 (zlen (kv_caches_base_addr l))).

(** The block holding each chunk. *)
Definition chunk_blocks (block_size : Z) (block_ids : list Z) (starts : list Z) : result (list Z) :=
  rmap (λ s, py_index block_ids (np_div s block_size)) starts.

Definition rank_local_prepare (l : RankLocalStoreLayout) (chunks : list (Z * Z))
    (block_ids shard_ids : list Z) : result values :=
  match chunks with
  | [] => Ok ([], [], [])
  | _ =>
      let bs := l_block_size (rl_base l) in
      let? _ := assert_ ((zlen chunks =? zlen shard_ids) && forallb (Z.eqb 0) shard_ids) in
      let? base := rmap i64 (kv_caches_base_addr l) in
      let? blen := region_lens l in
      let? blen := rmap i64 blen in
      let? starts := rmap i64 chunks.*1 in
      let? ends := rmap i64 chunks.*2 in
      let spans := zip_with (λ e s, wrap_i64 (e - s)) ends starts in
      let? _ := assert_ (forallb (λ n, np_mod n (l_hash_block_size (rl_base l)) =? 0) spans) in
      let? bids := chunk_blocks bs block_ids starts in
      let? bids := rmap i64 bids in
      let addrs := (λ b, zip_with (λ a n, wrap_i64 (a + wrap_i64 (b * n))) base blen) <$> bids in
      let counts := (λ n, np_div (wrap_i64 (wrap_i64 (n + bs) - 1)) bs) <$> spans in
      Ok (addrs, (λ c, (λ n, wrap_i64 (n * c)) <$> blen) <$> counts, bids)
  end.

Definition rank_local_prepare_block (l : RankLocalStoreLayout) (block_id : Z) :
    result (list Z * list Z) :=
  let? blen := region_lens l in
  Ok (zip_with (λ a n, a + block_id * n) (kv_caches_base_addr l) blen, blen).

(** *** Objects shared by TP sizes

    [sharded_format] tells the two subclasses apart; [sh_templates] holds per
    local shard its segments: address base, block stride and size. *)
Inductive sharded_format := LBHNC | LBNHC.

Definition store_format (f : sharded_format) : string :=
  match f with LBHNC => "tp_shared_lbhnc" | LBNHC => "tp_shared_lbnhc" end.

Record TPShardedStoreLayout := mkSharded {
  sh_base : layout_base;
  sh_format : sharded_format;
  shards_per_rank : Z;
  store_shard_ids : list Z;
  store_tp_size : Z;
  heads_per_store_shard : Z;
  local_num_kv_heads : Z;
  sh_templates : list (list (Z * Z * Z))
}.

Definition shared_namespace (f : sharded_format) (store_tp_size pp_size : Z) : string :=
  ("@store_tp:" ++ str_of_Z store_tp_size ++ "@store_pp:" ++ str_of_Z pp_size
   ++ "@store_format:" ++ store_format f)%string.

Definition sharded (f : sharded_format) (m : KeyMetadata)
    (block_size hash_block_size local_tp_size store_tp_size tp_rank num_kv_heads : Z) :
    result TPShardedStoreLayout :=
  let? per_rank := py_div store_tp_size local_tp_size in
  let? heads := py_div num_kv_heads store_tp_size in
  let? local_heads := py_div num_kv_heads local_tp_size in
  Ok (mkSharded (mkLayoutBase m block_size hash_block_size) f per_rank
        (seqZ (tp_rank * per_rank) per_rank) store_tp_size heads local_heads
        (replicate (Z.to_nat per_rank) [])).

Definition sharded_key_for (l : TPShardedStoreLayout) (shard_id : Z) (h : block_hash) :
    result string :=
  if bool_decide (shard_id ∈ store_shard_ids l) then
    Ok (build_key_string (build_prefix (l_metadata (sh_base l)) (Some shard_id) None None None)
          (hex h))
  else Err KeyError.

(** [sorted({...})] *)
Definition sorted_set (l : list Z) : list Z := isort Z.leb (remove_dups l).

Definition sharded_lookup_prefixes (l : TPShardedStoreLayout) (ns : list rank_namespace) :
    list string :=
  let pp_ranks := sorted_set (snd <$> ns) in
  seqZ 0 (store_tp_size l) ≫= λ shard,
    (λ pp, build_prefix (l_metadata (sh_base l)) (Some shard) None None (Some pp)) <$> pp_ranks.

Definition has_packed_strides (l : TPShardedStoreLayout)
    (head_stride token_stride content_bytes : Z) : bool :=
  match sh_format l with
  | LBHNC => (token_stride =? content_bytes) &&
             (head_stride =? l_block_size (sh_base l) * content_bytes)
  | LBNHC => (head_stride =? content_bytes) &&
             (token_stride =? local_num_kv_heads l * content_bytes)
  end.

(** [_shard_segments]: offsets and sizes. *)
Definition shard_segments (l : TPShardedStoreLayout)
    (head_start head_stride token_stride content_bytes : Z) : list (Z * Z) :=
  match sh_format l with
  | LBHNC => [(head_start * head_stride, heads_per_store_shard l * head_stride)]
  | LBNHC =>
      (λ t, (t * token_stride + head_start * head_stride,
             heads_per_store_shard l * content_bytes)) <$> seqZ 0 (l_block_size (sh_base l))
  end.

(** The segments of one cache in local shard [i]. *)
Definition cache_segments (l : TPShardedStoreLayout) (c : tensor)
    (block_stride head_stride token_stride content_bytes : Z) (i : nat) : list (Z * Z * Z) :=
  (λ s : Z * Z, (t_data_ptr c + s.1, block_stride, s.2)) <$>
    shard_segments l (Z.of_nat i * heads_per_store_shard l) head_stride token_stride content_bytes.

(** The body of the loop over the caches. *)
Definition register_cache (l : TPShardedStoreLayout) (num_blocks : Z)
    (templates : list (list (Z * Z * Z))) (c : tensor) : result (list (list (Z * Z * Z))) :=
  match t_shape c, t_stride c with
  | [n; heads; tokens; content], [s0; s1; s2; s3] =>
      let? _ := raise_if (negb ((n =? num_blocks) && (heads =? local_num_kv_heads l) &&
                                (tokens =? l_block_size (sh_base l))))
                  (ValueError "TP-shared Mooncake store requires packed KV caches") in
      let e := t_element_size c in
      let? _ := raise_if (negb (s3 * e =? e) || negb (has_packed_strides l (s1 * e) (s2 * e) (content * e)))
                  (ValueError "TP-shared Mooncake store requires packed KV layout") in
      Ok (imap (λ i t, t ++ cache_segments l c (s0 * e) (s1 * e) (s2 * e) (content * e) i) templates)
  | _, _ => Err (ValueError "TP-shared Mooncake store requires packed KV caches")
  end.

Definition set_templates (ts : list (list (Z * Z * Z))) (l : TPShardedStoreLayout) :
    TPShardedStoreLayout :=
  mkSharded (sh_base l) (sh_format l) (shards_per_rank l) (store_shard_ids l) (store_tp_size l)
    (heads_per_store_shard l) (local_num_kv_heads l) ts.

(** The final step turns the templates into unsigned 64-bit arrays. *)
Definition u64_segment (s : Z * Z * Z) : result (Z * Z * Z) :=
  let '(a, b, n) := s in
  let? a := u64 a in let? b := u64 b in let? n := u64 n in Ok (a, b, n).

Definition sharded_register (caches : list tensor) (num_blocks : Z) (l : TPShardedStoreLayout) :
    result TPShardedStoreLayout :=
  let? ts := rfold (register_cache l num_blocks)
               (replicate (Z.to_nat (shards_per_rank l)) []) caches in
  let? ts := rmap (rmap u64_segment) ts in
  Ok (set_templates ts l).

Definition sharded_prepare (l : TPShardedStoreLayout) (chunks : list (Z * Z))
    (block_ids shard_ids : list Z) : result values :=
  match chunks with
  | [] => Ok ([], [], [])
  | _ =>
      let bs := l_block_size (sh_base l) in
      let? _ := raise_if (negb (zlen chunks =? zlen shard_ids))
                  (ValueError "Each Store chunk must have one shard ID") in
      let? starts := rmap i64 chunks.*1 in
      let? ends := rmap i64 chunks.*2 in
      let? _ := raise_if (negb (forallb (Z.eqb bs) (zip_with (λ e s, wrap_i64 (e - s)) ends starts)))
                  (ValueError "TP-shared Mooncake store requires full KV blocks") in
      let? first := py_index (store_shard_ids l) 0 in
      let? locals := rmap (λ s, i64 (s - first)) shard_ids in
      let? _ := raise_if (existsb (λ i, (i <? 0) || (shards_per_rank l <=? i)) locals)
                  (ValueError "Store shard is not owned by this TP rank") in
      let? bids := chunk_blocks bs block_ids starts in
      let? bids := rmap u64 bids in
      let? rows := rmap (py_index (sh_templates l)) locals in
      Ok (zip_with (λ b row, (λ s : Z * Z * Z, wrap_u64 (s.1.1 + wrap_u64 (b * s.1.2))) <$> row)
            bids rows,
          (λ row : list (Z * Z * Z), snd <$> row) <$> rows, bids)
  end.

(** ** Chunks of tokens

    [ChunkedTokenDatabase.process_tokens], as the list it generates. The code
    raises lazily, at the chunk whose hash is missing. *)
Section chunks.
Context `{CD : !CeilDiv}.

Record chunk := mkChunk { ch_start : Z; ch_end : Z; ch_hash : block_hash }.

Definition effective_hash_block_size (block_size : Z) (hash_block_size : option Z) : Z :=
  match hash_block_size with Some h => if h =? 0 then block_size else h | None => block_size end.

Definition check_database (block_size : Z) (hash_block_size : option Z) : result unit :=
  let? r := py_mod block_size (effective_hash_block_size block_size hash_block_size) in
  raise_if (negb (r =? 0)) (ValueError "block_size must be a multiple of hash_block_size").

(** The ids of the chunks the loop yields. *)
Definition chunk_ids (block_size token_len mask_num : Z) (mask : option (list bool))
    (put_step put_step_rank : Z) : list Z :=
  let start := Z.max 0 (cdiv mask_num block_size) in
  let stop := cdiv token_len block_size in
  let stop := match mask with Some m => Z.min stop (start + zlen m) | None => stop end in
  filter (λ i, Is_true (
    match mask with Some m => nth (Z.to_nat (i - start)) m false | None => true end &&
    (i mod put_step =? put_step_rank))) (seqZ start (stop - start)).

Definition process_tokens (block_size hash_block_size token_len : Z) (hashes : list block_hash)
    (mask_num : Z) (mask : option (list bool)) (put_step put_step_rank : Z) :
    result (list chunk) :=
  let? _ := assert_ (0 <? put_step) in
  match hashes with
  | [] => Ok []
  | _ =>
      let? _ := assert_ (token_len mod hash_block_size =? 0) in
      let? _ := assert_ (token_len / hash_block_size <=? zlen hashes) in
      rmap (λ i,
        let start_idx := i * block_size in
        let end_idx := Z.min (start_idx + block_size) token_len in
        let? h := py_index hashes (end_idx / hash_block_size - 1) in
        Ok (mkChunk start_idx end_idx h))
        (chunk_ids block_size token_len mask_num mask put_step put_step_rank)
  end.

End chunks.

(** ** Request state *)

Record LoadSpec := mkLoadSpec {
  vllm_cached_tokens : Z;
  kvpool_cached_tokens : Z;
  can_load : bool;
  ls_token_len : Z;
  ls_boundaries : list TailKeyBoundary
}.

Record RequestTracker := mkTracker {
  tr_req_id : string;
  tr_token_len : Z;
  allocated_block_ids : list (list Z);
  num_saved_tokens : Z;
  tr_token_ids : option (list Z);
  has_pending_offload : bool;
  prefill_end_tokens : Z
}.

Definition tracker_reset (t : RequestTracker) : RequestTracker :=
  mkTracker (tr_req_id t) 0 [] 0 None false 0.

(** [update], given one list of new blocks per group. *)
Definition tracker_update (new_block_ids : list (list Z)) (t : RequestTracker) :
    result RequestTracker :=
  let? _ := raise_if (negb (zlen new_block_ids =? zlen (allocated_block_ids t)))
              (ValueError "Group count mismatch") in
  Ok (mkTracker (tr_req_id t) (tr_token_len t)
        (zip_with app (allocated_block_ids t) new_block_ids) (num_saved_tokens t)
        (tr_token_ids t) (has_pending_offload t) (prefill_end_tokens t)).

Record ReqMeta := mkReqMeta {
  rm_req_id : string;
  token_len_chunk : Z;
  rm_block_ids : list (list Z);
  rm_block_hashes : list block_hash;
  can_save : bool;
  rm_load_spec : option LoadSpec;
  rm_token_ids : option (list Z);
  token_ids_start : Z;
  num_prompt_tokens : Z;
  store_job_id : option Z;
  boundary_state_offloads : option (list (Z * Z * Z))
}.

Section tracker.
Context `{CD : !CeilDiv}.

(** [from_request_tracker]: the metadata, if any, and the tracker after it. *)
Definition from_request_tracker (t : RequestTracker) (block_size : Z)
    (load_spec : option LoadSpec) (skip_save : bool) (hashes : list block_hash) :
    result (option ReqMeta * RequestTracker) :=
  let start := num_saved_tokens t in
  let chunk_boundary := cdiv (start + 1) block_size * block_size in
  let? blocks := py_div (tr_token_len t) block_size in
  let to_save := blocks * block_size in
  let loads := match load_spec with Some l => can_load l | None => false end in
  let skip_save := skip_save || (to_save <? chunk_boundary) || loads in
  if skip_save && negb (bool_decide (is_Some load_spec)) then Ok (None, t)
  else
    let t' := if skip_save then t
              else mkTracker (tr_req_id t) (tr_token_len t) (allocated_block_ids t) to_save
                     (tr_token_ids t) (has_pending_offload t) (prefill_end_tokens t) in
    let token_ids := match tr_token_ids t with
                     | Some (x :: l) => if skip_save then None else Some (slice (x :: l) start to_save)
                     | _ => None
                     end in
    Ok (Some (mkReqMeta (tr_req_id t) to_save (allocated_block_ids t) hashes (negb skip_save)
                (if loads then load_spec else None) token_ids start (prefill_end_tokens t)
                None None), t').

End tracker.

(** [MooncakeStoreWorkerMetadata]: per job, the ranks done with it. *)
Definition aggregate (a b : list (Z * Z)) : list (Z * Z) :=
  foldl (λ acc e, dset acc e.1 (default 0 (dget acc e.1) + e.2)) a b.
