(* ===== verification/StoreThms.v ===== *)
(** * Properties of the store's keys, layouts, chunks and lookup protocol *)

From S2P Require Import Prelude PyData StoreData.

(** ** Big-endian integers *)

Lemma from_bytes_acc acc b :
  foldl (λ acc x, acc * 256 + x) acc b = acc * 256 ^ zlen b + from_bytes b.
Proof.
  unfold from_bytes. revert acc. induction b as [|x b IH]; intros acc; [unfold zlen; cbn [foldl length Z.of_nat]; lia|].
  cbn [foldl]. rewrite IH, (IH (0 * 256 + x)). unfold zlen. cbn [length].
  rewrite Nat2Z.inj_succ, Z.pow_succ_r by lia. ring.
Qed.

Lemma from_bytes_cons x b : from_bytes (x :: b) = x * 256 ^ zlen b + from_bytes b.
Proof.
  change (from_bytes (x :: b)) with (foldl (λ acc x, acc * 256 + x) (0 * 256 + x) b).
  rewrite from_bytes_acc. ring.
Qed.

Lemma from_bytes_bounds b : Forall byte b → 0 ≤ from_bytes b < 256 ^ zlen b.
Proof.
  unfold zlen. induction 1 as [|x b Hx _ IH]; [done|].
  rewrite from_bytes_cons. unfold zlen. cbn [length]. rewrite Nat2Z.inj_succ, Z.pow_succ_r by lia.
  unfold byte in Hx. nia.
Qed.

Lemma be_length k n : length (be k n) = k.
Proof. induction k; simpl; auto. Qed.

Lemma be_bytes k n : Forall byte (be k n).
Proof. induction k; constructor; [unfold byte; apply Z.mod_pos_bound; lia|done]. Qed.

Lemma be_mod k n m : n mod 256 ^ Z.of_nat k = m mod 256 ^ Z.of_nat k → be k n = be k m.
Proof.
  revert n m. induction k as [|k IH]; intros n m H; [done|]. simpl.
  rewrite Nat2Z.inj_succ, Z.pow_succ_r, Z.mul_comm in H by lia.
  assert (Hp : 0 < 256 ^ Z.of_nat k) by lia.
  rewrite !Z.rem_mul_r in H by lia.
  assert (n mod 256 ^ Z.of_nat k = m mod 256 ^ Z.of_nat k ∧
          (n / 256 ^ Z.of_nat k) mod 256 = (m / 256 ^ Z.of_nat k) mod 256) as [E1 E2].
  { pose proof (Z.mod_pos_bound n _ Hp). pose proof (Z.mod_pos_bound m _ Hp).
    apply and_comm, (Z.div_mod_unique (256 ^ Z.of_nat k)); [by left|by left|lia]. }
  f_equal; auto.
Qed.

Lemma be_from_bytes b : Forall byte b → be (length b) (from_bytes b) = b.
Proof.
  induction 1 as [|x b Hx Hb IH]; [done|]. rewrite from_bytes_cons. cbn [length be].
  pose proof (from_bytes_bounds b Hb) as Hf. unfold zlen in *. f_equal.
  - rewrite Z.div_add_l by lia. rewrite Z.div_small, Z.add_0_r by lia. by apply Z.mod_small.
  - trans (be (length b) (from_bytes b)); [|done]. apply be_mod.
    by rewrite Z.add_comm, Z.mod_add by lia.
Qed.

Lemma from_bytes_be k n : 0 ≤ n < 256 ^ Z.of_nat k → from_bytes (be k n) = n.
Proof.
  revert n. induction k as [|k IH]; intros n H.
  { change (256 ^ Z.of_nat 0) with 1 in H. unfold from_bytes. cbn [foldl be]. lia. }
  cbn [be]. rewrite from_bytes_cons. unfold zlen. rewrite be_length.
  rewrite Nat2Z.inj_succ, Z.pow_succ_r in H by lia.
  assert (Hp : 0 < 256 ^ Z.of_nat k) by lia.
  rewrite (be_mod k n (n mod 256 ^ Z.of_nat k)) by (by rewrite Z.mod_mod by lia).
  rewrite IH by (apply Z.mod_pos_bound; lia).
  rewrite Z.mod_small.
  - rewrite Z.mul_comm. symmetry. apply Z.div_mod. lia.
  - split; [apply Z.div_pos; lia|apply Z.div_lt_upper_bound; lia].
Qed.

Lemma to_bytes_Ok k n b : to_bytes k n = Ok b ↔ 0 ≤ n < 256 ^ Z.of_nat k ∧ b = be k n.
Proof.
  unfold to_bytes. rewrite rbind_Ok. split.
  - intros (u & H & [= <-]). apply raise_if_Ok in H. zbool. split; [lia|done].
  - intros [H ->]. exists tt. split; [|done]. apply raise_if_Ok. 
    apply negb_false_iff, andb_true_iff. split; [apply Z.leb_le; lia|apply Z.ltb_lt; lia].
Qed.

(** ** The lookup response *)

Definition word (n : Z) : Prop := 0 ≤ n < 256 ^ 4.

Definition boundary_ok (b : TailKeyBoundary) : Prop := word (tb_group_id b) ∧ word (tb_num_tokens b).

Definition boundary_bytes (b : TailKeyBoundary) : list Z :=
  be 4 (tb_group_id b) ++ be 4 (tb_num_tokens b).

Lemma encode_boundary_Ok b e : encode_boundary b = Ok e ↔ boundary_ok b ∧ e = boundary_bytes b.
Proof.
  unfold encode_boundary, boundary_ok, boundary_bytes. split.
  - intros (g & [? ->]%to_bytes_Ok & (n & [? ->]%to_bytes_Ok & [= <-])%rbind_Ok)%rbind_Ok. done.
  - intros [[H1 H2] ->]. apply rbind_Ok. eexists. split; [by apply to_bytes_Ok|].
    apply rbind_Ok. eexists. split; [by apply to_bytes_Ok|done].
Qed.

Lemma encode_fold_Ok l h p :
  rfold (λ payload b, let? e := encode_boundary b in Ok (payload ++ e)) h l = Ok p ↔
  Forall boundary_ok l ∧ p = h ++ concat (boundary_bytes <$> l).
Proof.
  revert h. induction l as [|b l IH]; intros h; cbn [rfold fmap list_fmap concat].
  - rewrite app_nil_r. split; [intros [= ->]; done|intros [_ ->]; done].
  - rewrite Forall_cons. split.
    + intros (q & (e & [? ->]%encode_boundary_Ok & [= <-])%rbind_Ok & [? ->]%IH)%rbind_Ok.
      by rewrite app_assoc.
    + intros [[? ?] ->]. apply rbind_Ok. exists (h ++ boundary_bytes b). split.
      * apply rbind_Ok. exists (boundary_bytes b). split; [by apply encode_boundary_Ok|done].
      * apply IH. by rewrite app_assoc.
Qed.

Lemma encode_Ok r p :
  encode_lookup_response r = Ok p ↔
  word (hit_length r) ∧ Forall boundary_ok (tail_key_boundaries r) ∧
  p = be 4 (hit_length r) ++ concat (boundary_bytes <$> tail_key_boundaries r).
Proof.
  assert (E : encode_lookup_response r = (let? h := to_bytes 4 (hit_length r) in
    rfold (λ payload b, let? e := encode_boundary b in Ok (payload ++ e)) h (tail_key_boundaries r))).
  { unfold encode_lookup_response. by destruct (tail_key_boundaries r). }
  rewrite E, rbind_Ok. split.
  - intros (h & [? ->]%to_bytes_Ok & [? ->]%encode_fold_Ok). done.
  - intros (? & ? & ->). eexists. split; [by apply to_bytes_Ok|]. by apply encode_fold_Ok.
Qed.

(** The entries of a payload, without offsets. *)
Fixpoint parse (k : nat) (p : list Z) : list TailKeyBoundary :=
  match k with
  | O => []
  | S k => mkBoundary (from_bytes (take 4 p)) (from_bytes (take 4 (drop 4 p))) :: parse k (drop 8 p)
  end.

Lemma decode_parse k pre p :
  length p = (8 * k)%nat →
  decode_boundary (pre ++ p) <$> ((λ i, zlen pre + 8 * i) <$> seqZ 0 (Z.of_nat k)) = parse k p.
Proof.
  revert pre p. induction k as [|k IH]; intros pre p H; [done|].
  rewrite Nat2Z.inj_succ, seqZ_cons, Z.pred_succ by lia. rewrite <- (fmap_add_seqZ 1 0).
  cbn [fmap list_fmap parse].
  f_equal.
  - unfold decode_boundary, slice, zlen. rewrite !Z.mul_0_r, !Z.add_0_r.
    replace (Z.to_nat (Z.of_nat (length pre) + 4 - Z.of_nat (length pre))) with 4%nat by lia.
    replace (Z.to_nat (Z.of_nat (length pre) + 8 - (Z.of_nat (length pre) + 4))) with 4%nat by lia.
    rewrite Nat2Z.id. replace (Z.to_nat (Z.of_nat (length pre) + 4)) with (length pre + 4)%nat by lia.
    rewrite drop_app_length, <- drop_drop, drop_app_length. done.
  - rewrite <- (IH (pre ++ take 8 p) (drop 8 p)) by (rewrite length_drop; lia).
    rewrite <- app_assoc, take_drop, <- !list_fmap_compose. apply list_fmap_ext. intros i x _.
    unfold zlen. rewrite length_app, length_take, Nat.min_l by lia. simpl. f_equal. lia.
Qed.

Lemma be4 b : length b = 4%nat → Forall byte b → be 4 (from_bytes b) = b.
Proof. intros H ?. change (be 4) with (be (id 4%nat)). unfold id. rewrite <- H. by apply be_from_bytes. Qed.

Lemma split4 (A R : list Z) : length A = 4%nat → take 4 (A ++ R) = A ∧ drop 4 (A ++ R) = R.
Proof. intros <-. by rewrite take_app_length, drop_app_length. Qed.

Lemma parse_concat l : Forall boundary_ok l → parse (length l) (concat (boundary_bytes <$> l)) = l.
Proof.
  induction 1 as [|b l [H1 H2] _ IH]; [done|]. cbn [length parse].
  assert (E : concat (boundary_bytes <$> b :: l) =
    be 4 (tb_group_id b) ++ be 4 (tb_num_tokens b) ++ concat (boundary_bytes <$> l))
    by (cbn [fmap list_fmap concat]; unfold boundary_bytes at 1; by rewrite app_assoc).
  rewrite E. change 8%nat with (4 + 4)%nat. rewrite <- drop_drop.
  destruct (split4 (be 4 (tb_group_id b)) (be 4 (tb_num_tokens b) ++ concat (boundary_bytes <$> l)))
    as [-> ->]; [by rewrite be_length|].
  destruct (split4 (be 4 (tb_num_tokens b)) (concat (boundary_bytes <$> l)))
    as [-> ->]; [by rewrite be_length|].
  rewrite !from_bytes_be, IH by done. by destruct b.
Qed.

Lemma concat_parse k p :
  length p = (8 * k)%nat → Forall byte p →
  Forall boundary_ok (parse k p) ∧ concat (boundary_bytes <$> parse k p) = p.
Proof.
  revert p. induction k as [|k IH]; intros p Hl Hb.
  - destruct p; [|done]. by split.
  - destruct (IH (drop 8 p)) as [IH1 IH2]; [rewrite length_drop; lia|by apply Forall_drop|].
    assert (H4 : Forall byte (take 4 p)) by by apply Forall_take.
    assert (H8 : Forall byte (take 4 (drop 4 p))) by by apply Forall_take, Forall_drop.
    assert (L4 : length (take 4 p) = 4%nat) by (rewrite length_take; lia).
    assert (L8 : length (take 4 (drop 4 p)) = 4%nat) by (rewrite length_take, length_drop; lia).
    cbn [parse fmap list_fmap concat]. rewrite IH2. split.
    + constructor; [|done]. split; cbn; unfold word.
      * pose proof (from_bytes_bounds _ H4). unfold zlen in *. by rewrite L4 in *.
      * pose proof (from_bytes_bounds _ H8). unfold zlen in *. by rewrite L8 in *.
    + unfold boundary_bytes. cbn [tb_group_id tb_num_tokens].
      rewrite !be4 by done. change 8%nat with (4 + 4)%nat. rewrite <- drop_drop, <- app_assoc.
      by rewrite take_drop, take_drop.
Qed.

(** Decoding, without offsets. *)
Lemma decode_Ok p r :
  decode_lookup_response p = Ok r ↔
  ∃ k, length p = (4 + 8 * k)%nat ∧
    r = mkLookup (from_bytes (take 4 p)) (parse k (drop 4 p)).
Proof.
  unfold decode_lookup_response, TAIL_KEY_BOUNDARY_ENTRY_SIZE.
  assert (Hk : ∀ k, length p = (4 + 8 * k)%nat →
    (if zlen p =? 4 then Ok (mkLookup (from_bytes (slice p 0 4)) [])
     else Ok (mkLookup (from_bytes (slice p 0 4)) (decode_boundary p <$> boundary_offsets (zlen p))))
    = Ok (mkLookup (from_bytes (take 4 p)) (parse k (drop 4 p)))).
  { intros k Hl. change (slice p 0 4) with (take 4 p). unfold zlen. rewrite Hl.
    destruct k as [|k]; [done|]. case_bool; [zbool; lia|]. do 2 f_equal.
    rewrite <- (decode_parse (S k) (take 4 p) (drop 4 p)) by (rewrite length_drop; lia).
    rewrite take_drop. f_equal. unfold boundary_offsets, TAIL_KEY_BOUNDARY_ENTRY_SIZE.
    replace ((Z.of_nat (4 + 8 * S k) - 4 + 8 - 1) / 8) with (Z.of_nat (S k)).
    - apply list_fmap_ext. intros i x _. unfold zlen. rewrite length_take. lia.
    - apply Z.div_unique with 7; lia. }
  rewrite rbind_Ok. split.
  - intros (u & H & Hr). apply raise_if_Ok in H. zbool.
    assert (∃ k, length p = (4 + 8 * k)%nat) as [k Hl].
    { assert (Hd : (8 | zlen p - 4)) by (by apply Z.mod_divide). destruct Hd as [k Hd]. exists (Z.to_nat k). unfold zlen in *. lia. }
    exists k. split; [done|]. rewrite (Hk k Hl) in Hr. by apply Ok_inj in Hr.
  - intros (k & Hl & ->). exists tt. split; [|by apply Hk]. apply raise_if_Ok.
    apply orb_false_iff. unfold zlen. rewrite Hl. split; [apply Z.ltb_ge; lia|].
    apply negb_false_iff, Z.eqb_eq, Z.mod_divide; [done|]. exists (Z.of_nat k). lia.
Qed.

(** C13 Lookup response: a payload is the encoding of a result exactly when
    its elements are bytes and it decodes to that result. So encoding followed
    by decoding returns the result, no two results share a payload, and every
    payload the decoder accepts is an encoding. *)
Theorem lookup_response_round_trip r p :
  encode_lookup_response r = Ok p ↔ Forall byte p ∧ decode_lookup_response p = Ok r.
Proof.
  rewrite encode_Ok, decode_Ok. split.
  - intros (Hh & Hb & ->). split.
    + apply Forall_app. split; [apply be_bytes|]. apply Forall_concat, Forall_fmap, Forall_forall.
      intros b _. apply Forall_app; split; apply be_bytes.
    + exists (length (tail_key_boundaries r)).
      destruct (split4 (be 4 (hit_length r)) (concat (boundary_bytes <$> tail_key_boundaries r)))
        as [-> ->]; [by rewrite be_length|].
      rewrite from_bytes_be, parse_concat by done. split; [|by destruct r].
      rewrite length_app, be_length. f_equal. clear Hb. induction (tail_key_boundaries r); [done|].
      cbn [fmap list_fmap concat length]. rewrite length_app, IHl. unfold boundary_bytes at 1.
      rewrite length_app, !be_length. lia.
  - intros (Hb & k & Hl & ->). cbn [hit_length tail_key_boundaries].
    destruct (concat_parse k (drop 4 p)) as [H1 ->];
      [rewrite length_drop; lia|by apply Forall_drop|].
    assert (H4 : Forall byte (take 4 p)) by by apply Forall_take.
    assert (L4 : length (take 4 p) = 4%nat) by (rewrite length_take; lia).
    rewrite be4 by done. split_and!; [|done|by rewrite take_drop].
    pose proof (from_bytes_bounds _ H4) as H. unfold zlen in H. by rewrite L4 in H.
Qed.

(** ** Keys *)

(** The character [@]. *)
Definition at_sign : Ascii.ascii := Ascii.Ascii false false false false false false true false.

Fixpoint no_at (s : string) : bool :=
  match s with
  | EmptyString => true
  | String c s => negb (Ascii.eqb c at_sign) && no_at s
  end.

(** The part up to the first separator is determined. *)
Lemma cut_at s1 s2 r1 r2 :
  no_at s1 = true → no_at s2 = true →
  (s1 ++ String at_sign r1)%string = (s2 ++ String at_sign r2)%string → s1 = s2 ∧ r1 = r2.
Proof.
  revert s2. induction s1 as [|c s1 IH]; intros [|c2 s2] H1 H2 H.
  - by simplify_eq/=.
  - injection H as <- _. discriminate.
  - injection H as -> _. discriminate.
  - cbn [String.append] in H. injection H as <- H. cbn [no_at] in *. zbool.
    destruct (IH s2) as [-> ->]; auto.
Qed.

Lemma all_digits_no_at s : all_digits s = true → no_at s = true.
Proof.
  induction s as [|c s IH]; [done|]. cbn. intros [Hc Hs]%andb_true_iff. rewrite IH by done.
  rewrite andb_true_r. apply negb_true_iff. apply not_true_iff_false. intros ->%Ascii.eqb_eq.
  vm_compute in Hc. discriminate.
Qed.

Lemma str_of_Z_no_at z : no_at (str_of_Z z) = true.
Proof.
  unfold str_of_Z. destruct (Z.to_int z) as [u|u]; cbn.
  all: apply all_digits_no_at, nilzero_digits.
Qed.

(** A field [@tag<number>] followed by another field. *)
Lemma field_inj a b r1 r2 :
  (str_of_Z a ++ String at_sign r1)%string = (str_of_Z b ++ String at_sign r2)%string →
  a = b ∧ r1 = r2.
Proof.
  intros H. apply cut_at in H as [H1 H2]; [|apply str_of_Z_no_at..].
  by apply str_of_Z_inj in H1.
Qed.

Lemma append_assoc (a b c : string) : ((a ++ b) ++ c = a ++ (b ++ c))%string.
Proof. induction a as [|x a IH]; [done|]. exact (f_equal (String x) IH). Qed.

(** The common start of a key. *)
Definition key_space (m : KeyMetadata) : string * string * string :=
  (cache_prefix m, model_name m, store_namespace m).

Lemma pool_key_inj k1 k2 :
  key_space (key_metadata k1) = key_space (key_metadata k2) →
  pool_key_to_string k1 = pool_key_to_string k2 → k1 = k2.
Proof.
  destruct k1 as [[m1 tp1 pcp1 dcp1 pp1 g1 c1 n1] h1], k2 as [[m2 tp2 pcp2 dcp2 pp2 g2 c2 n2] h2].
  unfold key_space, pool_key_to_string, build_key_string, build_prefix. cbn [key_metadata chunk_hash
    cache_prefix model_name store_namespace tp_rank pcp_rank dcp_rank pp_rank group_id default].
  intros [= -> -> ->] H. rewrite !append_assoc in H.
  do 4 apply (inj (String.append _)) in H.
  apply field_inj in H as [-> H]. apply (inj (String.append "pcp")) in H.
  apply field_inj in H as [-> H]. apply (inj (String.append "dcp")) in H.
  apply field_inj in H as [-> H]. apply (inj (String.append "pp_rank:")) in H.
  apply field_inj in H as [-> H]. apply (inj (String.append "group:")) in H.
  apply field_inj in H as [-> ->]. done.
Qed.

Definition with_ranks (m : KeyMetadata) (tp pcp dcp pp : Z) : KeyMetadata :=
  mkKeyMetadata (model_name m) tp pcp dcp pp (group_id m) (cache_prefix m) (store_namespace m).

Lemma build_prefix_ranks m tp pcp dcp pp :
  build_prefix m tp pcp dcp pp =
  build_prefix (with_ranks m (default (tp_rank m) tp) (default (pcp_rank m) pcp)
    (default (dcp_rank m) dcp) (default (pp_rank m) pp)) None None None None.
Proof. done. Qed.

(** Prefixes of one key space tell the ranks and the group apart. *)
Lemma build_prefix_inj m1 m2 :
  key_space m1 = key_space m2 →
  build_prefix m1 None None None None = build_prefix m2 None None None None → m1 = m2.
Proof.
  intros Hs Hp. enough (mkPoolKey m1 "" = mkPoolKey m2 "") by congruence.
  apply pool_key_inj; [done|]. unfold pool_key_to_string. cbn. by rewrite Hp.
Qed.

(** Keys: within one deployment (cache prefix, model and store namespace)
    two pool keys have the same text only if they agree on all ranks, the group
    and the hash; no two blocks share an object of the store. *)
Theorem pool_key_injective k1 k2 :
  key_space (key_metadata k1) = key_space (key_metadata k2) →
  pool_key_to_string k1 = pool_key_to_string k2 → k1 = k2.
Proof. apply pool_key_inj. Qed.

Definition ex_metadata : KeyMetadata := mkKeyMetadata "llama" 1 0 0 2 3 "prod" "".

Lemma pool_key_injective_witness :
  pool_key_to_string (mkPoolKey ex_metadata (hex [171; 16])) =
    "prod@llama@tp_rank:1@pcp0@dcp0@pp_rank:2@group:3@ab10"%string ∧
  mkPoolKey ex_metadata (hex [171; 16]) = mkPoolKey ex_metadata "ab10".
Proof.
  split; [vm_compute; reflexivity|]. apply pool_key_injective; vm_compute; reflexivity.
Defined.

(** ** Shared layouts *)

Lemma sumZ_fmap_add {A} (f g : A → Z) l :
  sumZ ((λ x, f x + g x) <$> l) = sumZ (f <$> l) + sumZ (g <$> l).
Proof. induction l as [|x l IH]; csimpl; [done|]. rewrite IH. lia. Qed.

Lemma sumZ_swap {A B} (f : A → B → Z) l1 l2 :
  sumZ ((λ x, sumZ (f x <$> l2)) <$> l1) = sumZ ((λ y, sumZ ((λ x, f x y) <$> l1)) <$> l2).
Proof.
  induction l1 as [|x l1 IH]; csimpl.
  - induction l2; csimpl; [done|]. lia.
  - rewrite IH, <- sumZ_fmap_add. done.
Qed.

(** [n] pieces of [len] bytes cover [n * len] bytes once. *)
Lemma pieces_cover lo len b (n : nat) :
  0 ≤ len →
  sumZ ((λ i : nat, ind (lo + Z.of_nat i * len) len b) <$> seq 0 n) = ind lo (Z.of_nat n * len) b.
Proof.
  intros Hlen. induction n as [|n IH]; [cbn [seq fmap list_fmap sumZ]; rewrite Z.mul_0_l;
    destruct (ind_spec lo 0 b); lia|].
  rewrite seq_S, fmap_app, sumZ_app, IH. cbn [fmap list_fmap sumZ]. rewrite Z.add_0_r.
  rewrite ind_split by lia. f_equal. lia.
Qed.

(** How many segments of the templates hold byte [b] of block 0. *)
Definition seg_count (b : Z) (row : list (Z * Z * Z)) : Z :=
  sumZ ((λ s : Z * Z * Z, ind s.1.1 s.2 b) <$> row).

Definition holders (b : Z) (ts : list (list (Z * Z * Z))) : Z := sumZ (seg_count b <$> ts).

Definition content_bytes (c : tensor) : Z := nth 3 (t_shape c) 0 * t_element_size c.

Definition block_bytes (l : TPShardedStoreLayout) (c : tensor) : Z :=
  local_num_kv_heads l * l_block_size (sh_base l) * content_bytes c.

Lemma holders_imap b (seg : nat → list (Z * Z * Z)) ts :
  holders b (imap (λ i t, t ++ seg i) ts) =
  holders b ts + sumZ ((λ i, seg_count b (seg i)) <$> seq 0 (length ts)).
Proof.
  unfold holders. revert seg. induction ts as [|t ts IH]; intros seg; [done|].
  specialize (IH (λ i, seg (S i))).
  change (imap (λ i t, t ++ seg i) (t :: ts)) with
    ((t ++ seg 0%nat) :: imap (λ i t, t ++ seg (S i)) ts).
  cbn [length seq fmap list_fmap sumZ]. rewrite IH.
  rewrite <- (fmap_S_seq 0), <- list_fmap_compose. unfold compose, seg_count.
  rewrite fmap_app, sumZ_app. lia.
Qed.

Section shards.
Context (l : TPShardedStoreLayout).
Hypothesis Hper : 0 ≤ shards_per_rank l.
Hypothesis Hheads : shards_per_rank l * heads_per_store_shard l = local_num_kv_heads l.
Hypothesis Hheads_pos : 0 ≤ heads_per_store_shard l.
Hypothesis Hbs : 0 ≤ l_block_size (sh_base l).

Lemma cache_covered c s0 hs ts b :
  0 ≤ content_bytes c → has_packed_strides l hs ts (content_bytes c) = true →
  sumZ ((λ i, seg_count b (cache_segments l c s0 hs ts (content_bytes c) i)) <$>
          seq 0 (Z.to_nat (shards_per_rank l)))
  = ind (t_data_ptr c) (block_bytes l c) b.
Proof.
  intros Hc Hp. unfold has_packed_strides in Hp. unfold cache_segments, shard_segments, seg_count, block_bytes.
  set (h := heads_per_store_shard l) in *. set (cb := content_bytes c) in *.
  set (bs := l_block_size (sh_base l)) in *.
  destruct (sh_format l); apply andb_true_iff in Hp as [->%Z.eqb_eq ->%Z.eqb_eq].
  - replace (local_num_kv_heads l * bs * cb)
      with (Z.of_nat (Z.to_nat (shards_per_rank l)) * (h * (bs * cb))) by (rewrite Z2Nat.id by done; nia).
    rewrite <- pieces_cover by nia. f_equal. apply list_fmap_ext. intros i x _. cbn.
    rewrite Z.add_0_r. f_equal. lia.
  - trans (sumZ ((λ i : nat, sumZ ((λ t : nat,
      ind (t_data_ptr c + (Z.of_nat t * (local_num_kv_heads l * cb) + Z.of_nat i * h * cb)) (h * cb) b)
        <$> seq 0 (Z.to_nat bs))) <$> seq 0 (Z.to_nat (shards_per_rank l)))).
    { f_equal. apply list_fmap_ext. intros i x _. unfold seqZ. rewrite <- !list_fmap_compose.
      f_equal. apply list_fmap_ext. intros j y _. unfold compose. cbn [fst snd]. by rewrite Z.add_0_r. }
    rewrite sumZ_swap.
    replace (local_num_kv_heads l * bs * cb)
      with (Z.of_nat (Z.to_nat bs) * (local_num_kv_heads l * cb)) by (rewrite Z2Nat.id by done; nia).
    rewrite <- pieces_cover by nia. f_equal. apply list_fmap_ext. intros i x _.
    replace (local_num_kv_heads l * cb)
      with (Z.of_nat (Z.to_nat (shards_per_rank l)) * (h * cb)) at 2 by (rewrite Z2Nat.id by done; nia).
    rewrite <- pieces_cover by nia. f_equal. apply list_fmap_ext. intros j y _. f_equal. lia.
Qed.

(** Where token [t] of the global head [g] is in block 0 of a cache. *)
Definition head_address (l : TPShardedStoreLayout) (rank : Z) (c : tensor) (g t : Z) : Z :=
  t_data_ptr c + (g - rank * local_num_kv_heads l) * (nth 1 (t_stride c) 0 * t_element_size c)
               + t * (nth 2 (t_stride c) 0 * t_element_size c).

(** The global heads of store shard [s], token by token, in all caches: how
    often byte [b] is one of theirs. *)
Definition head_bytes (l : TPShardedStoreLayout) (rank s b : Z) (c : tensor) : Z :=
  sumZ ((λ t, sumZ ((λ g, ind (head_address l rank c g t) (content_bytes c) b) <$>
    seqZ (s * heads_per_store_shard l) (heads_per_store_shard l))) <$> seqZ 0 (l_block_size (sh_base l))).

Lemma sumZ_seqZ_pieces lo len b k n :
  0 ≤ len → 0 ≤ n → sumZ ((λ g, ind (lo + (g - k) * len) len b) <$> seqZ k n) = ind lo (n * len) b.
Proof.
  intros Hlen Hn. rewrite <- (Z2Nat.id n) at 2 by done. rewrite <- pieces_cover by done. unfold seqZ. rewrite <- list_fmap_compose.
  f_equal. apply list_fmap_ext. intros i x _. unfold compose. f_equal. lia.
Qed.

(** The segments of local shard [i] are the heads of store shard [s]. *)
Lemma cache_shard c rank i s b s0 hs ts :
  nth 1 (t_stride c) 0 * t_element_size c = hs → nth 2 (t_stride c) 0 * t_element_size c = ts →
  0 ≤ content_bytes c → has_packed_strides l hs ts (content_bytes c) = true →
  s * heads_per_store_shard l = rank * local_num_kv_heads l + Z.of_nat i * heads_per_store_shard l →
  seg_count b (cache_segments l c s0 hs ts (content_bytes c) i) = head_bytes l rank s b c.
Proof.
  intros Eh Et Hc Hp Hs. unfold head_bytes, head_address. rewrite Eh, Et. unfold has_packed_strides in Hp. unfold cache_segments, shard_segments, seg_count.
  set (h := heads_per_store_shard l) in *. set (cb := content_bytes c) in *. set (bs := l_block_size (sh_base l)) in *.
  destruct (sh_format l); apply andb_true_iff in Hp as [->%Z.eqb_eq ->%Z.eqb_eq].
  - (* per head: the tokens of a head follow one another *)
    rewrite sumZ_swap. cbn. rewrite Z.add_0_r.
    rewrite <- (sumZ_seqZ_pieces (t_data_ptr c + Z.of_nat i * h * (bs * cb)) (bs * cb) b (s * h) h) by nia.
    f_equal. apply list_fmap_ext. intros j g _.
    rewrite <- (sumZ_seqZ_pieces (t_data_ptr c + Z.of_nat i * h * (bs * cb) + (g - s * h) * (bs * cb)) cb b 0 bs) by nia.
    f_equal. apply list_fmap_ext. intros j' t _. f_equal. nia.
  - (* per token: the heads of a token follow one another *)
    rewrite <- !list_fmap_compose. f_equal. apply list_fmap_ext. intros j t _. unfold compose. cbn [fst snd].
    rewrite <- (sumZ_seqZ_pieces (t_data_ptr c + (t * (local_num_kv_heads l * cb) + Z.of_nat i * h * cb)) cb b (s * h) h) by nia.
    f_equal. apply list_fmap_ext. intros j' g _. f_equal. nia.
Qed.

Lemma register_cache_holders nb ts c ts' b :
  length ts = Z.to_nat (shards_per_rank l) → 0 ≤ content_bytes c →
  register_cache l nb ts c = Ok ts' →
  length ts' = length ts ∧ holders b ts' = holders b ts + ind (t_data_ptr c) (block_bytes l c) b.
Proof.
  intros Hlen Hc H. unfold register_cache in H.
  destruct (t_shape c) as [|n [|heads [|tokens [|content [|]]]]] eqn:Hs; try discriminate.
  destruct (t_stride c) as [|s0 [|s1 [|s2 [|s3 [|]]]]]; try discriminate.
  inv_ok. zbool. rewrite length_imap. split; [done|]. rewrite holders_imap, Hlen. f_equal.
  assert (content * t_element_size c = content_bytes c) as E by (unfold content_bytes; by rewrite Hs).
  rewrite E in *. by apply cache_covered.
Qed.

Lemma register_holders nb caches ts ts' b :
  length ts = Z.to_nat (shards_per_rank l) → Forall (λ c, 0 ≤ content_bytes c) caches →
  rfold (register_cache l nb) ts caches = Ok ts' →
  holders b ts' = holders b ts + sumZ ((λ c, ind (t_data_ptr c) (block_bytes l c) b) <$> caches).
Proof.
  revert ts. induction caches as [|c caches IH]; intros ts Hlen Hc H; cbn [rfold] in H.
  - apply Ok_inj in H as ->. cbn. lia.
  - apply rbind_Ok in H as (ts1 & H1 & H). apply Forall_cons in Hc as [Hc Hcs].
    eapply register_cache_holders in H1 as [Hl H1]; [|done|done].
    apply IH in H; [|congruence|done]. cbn [fmap list_fmap sumZ]. rewrite H, H1. lia.
Qed.

Lemma register_cache_shard rank nb ts c ts' i s row b :
  0 ≤ content_bytes c → register_cache l nb ts c = Ok ts' → ts !! i = Some row →
  s * heads_per_store_shard l = rank * local_num_kv_heads l + Z.of_nat i * heads_per_store_shard l →
  ∃ row', ts' !! i = Some row' ∧ seg_count b row' = seg_count b row + head_bytes l rank s b c.
Proof.
  intros Hc H Hi Hs. unfold register_cache in H.
  destruct (t_shape c) as [|n [|heads [|tokens [|content [|]]]]] eqn:Hsh; try discriminate.
  destruct (t_stride c) as [|s0 [|s1 [|s2 [|s3 [|]]]]] eqn:Hst; try discriminate.
  inv_ok. zbool. rewrite list_lookup_imap, Hi. eexists. split; [reflexivity|].
  assert (content * t_element_size c = content_bytes c) as E by (unfold content_bytes; by rewrite Hsh).
  rewrite E in *. unfold seg_count at 1. rewrite fmap_app, sumZ_app. f_equal.
  apply cache_shard; try done; by rewrite Hst.
Qed.

Lemma register_shard rank nb caches i s b : ∀ ts ts' row,
  Forall (λ c, 0 ≤ content_bytes c) caches → rfold (register_cache l nb) ts caches = Ok ts' → ts !! i = Some row →
  s * heads_per_store_shard l = rank * local_num_kv_heads l + Z.of_nat i * heads_per_store_shard l →
  ∃ row', ts' !! i = Some row' ∧ seg_count b row' = seg_count b row + sumZ (head_bytes l rank s b <$> caches).
Proof.
  induction caches as [|c caches IH]; intros ts ts' row Hc H Hi Hs; cbn [rfold] in H.
  - apply Ok_inj in H as ->. exists row. split; [done|]. cbn. lia.
  - apply rbind_Ok in H as (ts1 & H1 & H). apply Forall_cons in Hc as [Hc Hcs].
    eapply (register_cache_shard rank) with (b := b) in H1 as (row1 & Hi1 & E1); [|done..].
    destruct (IH _ _ _ Hcs H Hi1 Hs) as (row' & Hi' & E'). exists row'. split; [done|]. csimpl. rewrite E', E1. lia.
Qed.

End shards.

Lemma u64_segment_Ok s s' : u64_segment s = Ok s' → s' = s.
Proof.
  destruct s as [[a b] n]. unfold u64_segment, u64. intros H. inv_ok.
  repeat case_bool; simplify_eq. congruence.
Qed.

Lemma rmap_id {A} (f : A → result A) l l' : (∀ x y, f x = Ok y → y = x) → rmap f l = Ok l' → l' = l.
Proof.
  intros Hf. revert l'. induction l as [|x l IH]; intros l' H; cbn in H; inv_ok; [done|].
  f_equal; eauto.
Qed.

(** C14 Shared layout: for divisible TP sizes and packed caches, in the
    head-major and in the token-major format, the segments registered under
    store shard [s] are exactly the bytes of the global heads from
    [s * heads_per_store_shard], token by token and each once, in the caches of
    whichever rank owns the shard; and together the shards of a rank cover
    every byte of its KV block exactly once. *)
Theorem store_shards_partition f m bs hbs local_tp store_tp rank heads l caches nb l' :
  sharded f m bs hbs local_tp store_tp rank heads = Ok l →
  0 < local_tp → 0 < store_tp → (local_tp | store_tp) → (store_tp | heads) → 0 ≤ heads → 0 ≤ bs →
  Forall (λ c, 0 ≤ content_bytes c) caches → sharded_register caches nb l = Ok l' →
  (∀ i s, store_shard_ids l !! i = Some s → ∃ row, sh_templates l' !! i = Some row ∧
     ∀ b, seg_count b row = sumZ (head_bytes l rank s b <$> caches)) ∧
  (∀ b, holders b (sh_templates l') =
        sumZ ((λ c, ind (t_data_ptr c) (block_bytes l c) b) <$> caches)).
Proof.
  intros Hl Hlt Hst [k Hk] [h Hh] Hheads Hbs Hc Hr. unfold sharded in Hl.
  rewrite !(proj2 (py_div_Ok _ _ _)) in Hl by (split; [lia|reflexivity]). cbn in Hl.
  assert (Ek : store_tp / local_tp = k) by (symmetry; apply Z.div_unique_exact; lia).
  assert (Eh : heads / store_tp = h) by (symmetry; apply Z.div_unique_exact; lia).
  assert (Elh : heads / local_tp = h * k) by (symmetry; apply Z.div_unique_exact; nia).
  rewrite Ek, Eh, Elh in Hl. apply Ok_inj in Hl as <-. assert (0 < k) by nia. assert (0 ≤ h) by nia.
  unfold sharded_register in Hr. cbn [shards_per_rank] in Hr.
  apply rbind_Ok in Hr as (ts & Hts & (ts' & Hts' & [= <-])%rbind_Ok).
  apply rmap_id in Hts' as ->; [|intros ??; apply rmap_id; apply u64_segment_Ok]. cbn [sh_templates set_templates store_shard_ids]. split.
  - intros i s [-> Hi]%lookup_seqZ. match type of Hts with rfold (register_cache ?l0 _) _ _ = _ => set (L := l0) in * end.
    assert (Hrow : ∀ b, ∃ row, ts !! i = Some row ∧ seg_count b row = seg_count b [] + sumZ (head_bytes L rank (rank * k + Z.of_nat i) b <$> caches)).
    { intros b. eapply register_shard; [..|exact Hts| |]; cbn; try done; try lia. apply lookup_replicate. split; [done|lia]. }
    destruct (Hrow 0) as (row & Hrw & _). exists row. split; [done|]. intros b. destruct (Hrow b) as (row' & Hrw' & Hb). simplify_eq. exact Hb.
  - intros b. eapply register_holders in Hts as ->; cbn; try done; try lia; [|by rewrite length_replicate].
    unfold holders. rewrite fmap_replicate. cbn.
    assert (sumZ (replicate (Z.to_nat k) 0) = 0) as ->; [|lia].
    induction (Z.to_nat k); [done|]. cbn. lia.
Qed.

(** Two ranks of eight heads, shared by stores of TP size four. *)
Definition ex_cache (ptr : Z) : tensor := mkTensor [2; 4; 2; 3] [24; 3; 12; 1] 2 ptr (ptr, 96).

Definition ex_sharded : TPShardedStoreLayout :=
  match sharded LBNHC ex_metadata 2 2 2 4 1 8 with
  | Ok l => l
  | Err _ => mkSharded (mkLayoutBase ex_metadata 0 0) LBNHC 0 [] 0 0 0 []
  end.

Definition ex_registered : TPShardedStoreLayout :=
  match sharded_register [ex_cache 1000; ex_cache 2000] 2 ex_sharded with
  | Ok l => l
  | Err _ => ex_sharded
  end.

Lemma store_shards_partition_witness :
  sh_templates ex_registered =
    [[(1000, 48, 12); (1024, 48, 12); (2000, 48, 12); (2024, 48, 12)];
     [(1012, 48, 12); (1036, 48, 12); (2012, 48, 12); (2036, 48, 12)]] ∧
  (∀ i s, store_shard_ids ex_sharded !! i = Some s → ∃ row, sh_templates ex_registered !! i = Some row ∧
     ∀ b, seg_count b row = sumZ (head_bytes ex_sharded 1 s b <$> [ex_cache 1000; ex_cache 2000])) ∧
  (∀ b, holders b (sh_templates ex_registered) =
        sumZ ((λ c, ind (t_data_ptr c) (block_bytes ex_sharded c) b) <$>
                [ex_cache 1000; ex_cache 2000])).
Proof.
  split; [vm_compute; reflexivity|].
  apply (store_shards_partition LBNHC ex_metadata 2 2 2 4 1 8 ex_sharded _ 2 ex_registered).
  - vm_compute. reflexivity.
  - lia.
  - lia.
  - by exists 2.
  - by exists 2.
  - lia.
  - lia.
  - repeat constructor; vm_compute; discriminate.
  - vm_compute. reflexivity.
Defined.

(** ** Chunks of tokens *)

Section chunks.
Context `{CD : !CeilDiv}.
Context (bs hbs len mask_num : Z) (hashes : list block_hash) (mask : option (list bool)).

(** What the loop yields for chunk [i]. *)
Definition chunk_result (i : Z) : result chunk :=
  let? h := py_index hashes (Z.min (i * bs + bs) len / hbs - 1) in
  Ok (mkChunk (i * bs) (Z.min (i * bs + bs) len) h).

Lemma chunk_ids_step n r :
  chunk_ids bs len mask_num mask n r =
  filter (λ i, i mod n = r) (chunk_ids bs len mask_num mask 1 0).
Proof.
  unfold chunk_ids. rewrite list_filter_filter. apply list_filter_iff. intros i.
  rewrite Z.mod_1_r, andb_true_r, !Is_true_true, andb_true_iff, Z.eqb_eq. tauto.
Qed.

Lemma chunk_ids_range n r i :
  i ∈ chunk_ids bs len mask_num mask n r → 0 ≤ i ∧ cdiv mask_num bs ≤ i < cdiv len bs.
Proof.
  unfold chunk_ids. intros [_ Hi]%list_elem_of_filter. apply elem_of_seqZ in Hi.
  destruct mask; lia.
Qed.

(** A list split by remainders. *)
Lemma residues_perm n (l : list Z) :
  0 < n → concat ((λ r, filter (λ i, i mod n = r) l) <$> seqZ 0 n) ≡ₚ l.
Proof.
  intros Hn. induction l as [|x l IH].
  - assert (∀ k, concat ((λ r, filter (λ i, i mod n = r) []) <$> seqZ 0 k) = []) as ->; [|done].
    intros k. induction (seqZ 0 k); done.
  - trans (x :: concat ((λ r, filter (λ i, i mod n = r) l) <$> seqZ 0 n)); [|by rewrite IH].
    clear IH.
    assert (Hx : x mod n ∈ seqZ 0 n) by (apply elem_of_seqZ; pose proof (Z.mod_pos_bound x n); lia).
    assert (Hnd := NoDup_seqZ 0 n).
    apply list_elem_of_split in Hx as (l1 & l2 & Heq). rewrite Heq in *.
    apply NoDup_app in Hnd as (_ & Hd & [Hni _]%NoDup_cons).
    assert (Hskip : ∀ k : list Z, x mod n ∉ k →
      (λ r, filter (λ i, i mod n = r) (x :: l)) <$> k = (λ r, filter (λ i, i mod n = r) l) <$> k).
    { intros k Hk. apply list_fmap_ext. intros j r Hr%list_elem_of_lookup_2.
      rewrite filter_cons_False; [done|]. intros E. apply Hk. by rewrite E. }
    rewrite !fmap_app, !fmap_cons, !concat_app. rewrite !Hskip; [|done|].
    + cbn [concat]. rewrite filter_cons_True by done. cbn. solve_Permutation.
    + intros Hin. apply (Hd _ Hin). set_solver.
Qed.

Lemma process_eq n r :
  0 < n → hashes ≠ [] → len mod hbs = 0 → len / hbs ≤ zlen hashes →
  process_tokens bs hbs len hashes mask_num mask n r =
  rmap chunk_result (chunk_ids bs len mask_num mask n r).
Proof.
  intros Hn Hh H1 H2. unfold process_tokens.
  rewrite (proj2 (Z.ltb_lt 0 n)), (proj2 (Z.eqb_eq _ _) H1), (proj2 (Z.leb_le _ _) H2) by done.
  unfold assert_, raise_if. cbn [rbind negb]. case_match eqn:E; [congruence|].
  unfold chunk_result. by rewrite E.
Qed.

Lemma chunk_result_Ok i :
  0 < bs → 0 < hbs → (hbs | bs) → len mod hbs = 0 → len / hbs ≤ zlen hashes →
  0 ≤ i < cdiv len bs →
  ∃ h, hashes !! Z.to_nat (Z.min (i * bs + bs) len / hbs - 1) = Some h ∧
    chunk_result i = Ok (mkChunk (i * bs) (Z.min (i * bs + bs) len) h) ∧
    i * bs < Z.min (i * bs + bs) len.
Proof.
  intros Hbs Hhbs [q Hq] Hm Hlen Hi. pose proof (cdiv_bounds len bs Hbs) as [Hc _].
  assert (Hlt : i * bs < len) by nia. set (e := Z.min (i * bs + bs) len).
  apply Z.mod_divide in Hm as [k Hk]; [|lia].
  assert (∃ d, e = d * hbs ∧ 1 ≤ d ≤ k) as (d & Hd & Hdk).
  { unfold e. destruct (Z.min_spec (i * bs + bs) len) as [[? ->]|[? ->]].
    - exists (i * q + q). split; [nia|nia].
    - exists k. split; [done|]. nia. }
  assert (Hdiv : e / hbs = d) by (rewrite Hd; apply Z.div_mul; lia).
  assert (len / hbs = k) by (rewrite Hk; apply Z.div_mul; lia).
  unfold chunk_result. fold e. rewrite Hdiv, py_index_nonneg by lia. unfold zlen in *.
  destruct (lookup_lt_is_Some_2 hashes (Z.to_nat (d - 1))) as [h Hh]; [lia|].
  exists h. split; [done|]. rewrite Hh. split; [done|]. unfold e. lia.
Qed.

(** What the loop yields, as a total function. *)
Definition nth_chunk (i : Z) : chunk :=
  mkChunk (i * bs) (Z.min (i * bs + bs) len)
    (default [] (hashes !! Z.to_nat (Z.min (i * bs + bs) len / hbs - 1))).

Lemma process_total n r :
  0 < bs → 0 < hbs → (hbs | bs) → 0 < n → hashes ≠ [] → len mod hbs = 0 → len / hbs ≤ zlen hashes →
  process_tokens bs hbs len hashes mask_num mask n r =
  Ok (nth_chunk <$> chunk_ids bs len mask_num mask n r).
Proof.
  intros ??? Hn Hh H1 H2. rewrite process_eq by done. apply rmap_Ok, Forall2_fmap_r, Forall_Forall2_diag.
  apply Forall_forall. intros i Hi%chunk_ids_range.
  destruct (chunk_result_Ok i) as (h & Hl & E & _);
    [done..|lia|]. unfold compose. rewrite E. unfold nth_chunk. by rewrite Hl.
Qed.

End chunks.

(** Token chunks: the ranks of a put group split the chunks of a request
    between them, each chunk to exactly one rank; every chunk is non-empty,
    block-aligned and keyed by the hash of its last token's hash block, which
    for a full chunk is the compact hash the lookup side uses; and without a
    mask the chunks tile the tokens of the request. *)
Theorem process_tokens_partition `{!CeilDiv} bs hbs len mask_num hashes mask n all :
  0 < bs → 0 < hbs → (hbs | bs) → 0 < n →
  process_tokens bs hbs len hashes mask_num mask 1 0 = Ok all →
  (∃ parts, rmap (λ r, process_tokens bs hbs len hashes mask_num mask n r) (seqZ 0 n) = Ok parts ∧
     concat parts ≡ₚ all) ∧
  (∀ c, c ∈ all → ∃ i, ch_start c = i * bs ∧ 0 ≤ ch_start c < ch_end c ∧ ch_end c ≤ ch_start c + bs ∧
     ch_end c ≤ len ∧ hashes !! Z.to_nat (ch_end c / hbs - 1) = Some (ch_hash c) ∧
     (ch_end c = ch_start c + bs → chunk_hash_at hashes hbs bs i = Ok (ch_hash c))) ∧
  (hashes ≠ [] → mask = None → mask_num = 0 → 0 ≤ len →
     tiled 0 ((λ c, (ch_start c, ch_end c - ch_start c)) <$> all) len).
Proof.
  intros Hbs Hhbs Hdiv Hn Hall.
  destruct (decide (hashes = [])) as [->|Hh].
  { cbn in Hall. apply Ok_inj in Hall as <-. split_and!; [|set_solver|done].
    exists ((λ _, []) <$> seqZ 0 n). split.
    - apply rmap_Ok, Forall2_fmap_r, Forall_Forall2_diag, Forall_forall. intros r _.
      unfold compose, process_tokens. by rewrite (proj2 (Z.ltb_lt 0 n)).
    - induction (seqZ 0 n); done. }
  assert (len mod hbs = 0 ∧ len / hbs ≤ zlen hashes) as [Hm Hl].
  { unfold process_tokens in Hall. destruct hashes as [|h hashes]; [done|]. cbn in Hall. inv_ok. by zbool. }
  rewrite process_total in Hall by (try lia; done). apply Ok_inj in Hall as <-.
  split_and!.
  - exists ((λ r, nth_chunk bs hbs len hashes <$> chunk_ids bs len mask_num mask n r) <$> seqZ 0 n). split.
    + apply rmap_Ok, Forall2_fmap_r, Forall_Forall2_diag, Forall_forall. intros r _.
      unfold compose. by rewrite process_total by done.
    + trans (nth_chunk bs hbs len hashes <$> concat
        ((λ r, filter (λ i, i mod n = r) (chunk_ids bs len mask_num mask 1 0)) <$> seqZ 0 n));
        [|by rewrite residues_perm].
      rewrite fmap_concat, <- list_fmap_compose. f_equiv.
      match goal with |- ?x ≡ₚ ?y => assert (x = y) as ->; [|done] end. apply list_fmap_ext.
      intros j r _. unfold compose. by rewrite chunk_ids_step.
  - intros c (i & -> & Hi%chunk_ids_range)%list_elem_of_fmap. exists i.
    destruct (chunk_result_Ok bs hbs len hashes i) as (h & Hlk & _ & Hlt); [done..|lia|].
    unfold nth_chunk. cbn. rewrite Hlk. cbn. split_and!; try done; try nia.
    intros Hfull. rewrite Hfull in Hlk. destruct Hdiv as [q Hq].
    assert (E : (i * bs + bs) / hbs = i * q + q) by (rewrite Hq; symmetry; apply Z.div_unique_exact; nia).
    rewrite E in Hlk. unfold chunk_hash_at. assert (0 < q) by nia. case_bool; zbool.
    + assert (q = 1) as -> by nia. rewrite py_index_nonneg by lia.
      replace (i * 1 + 1 - 1) with i in Hlk by lia. by rewrite Hlk.
    + rewrite (proj2 (py_mod_Ok bs hbs 0)) by (split; [lia|rewrite Hq; symmetry; apply Z.mod_mul; lia]).
      assert (bs / hbs = q) as -> by (rewrite Hq; apply Z.div_mul; lia). cbn [rbind assert_ raise_if Z.eqb negb].
      rewrite py_index_nonneg by nia. by rewrite Hlk.
  - intros _ -> -> H0. pose proof (cdiv_bounds 0 bs Hbs). pose proof (cdiv_bounds len bs Hbs).
    assert (chunk_ids bs len 0 None 1 0 = seqZ 0 (cdiv len bs)) as ->.
    { unfold chunk_ids. assert (cdiv 0 bs = 0) as -> by nia. rewrite Z.max_id, Z.sub_0_r.
      apply filter_all. intros j _. by rewrite Z.mod_1_r. }
    assert (0 ≤ cdiv len bs) by nia. rewrite <- list_fmap_compose.
    assert (Ht := windows_tiled len bs (cdiv len bs)).
    erewrite list_fmap_ext; [apply Ht; nia|]. intros j x _. unfold compose, nth_chunk. cbn. f_equal. lia.
Qed.

Definition ex_hashes : list block_hash := [[1]; [2]; [3]; [4]; [5]].

Lemma process_tokens_partition_witness :
  process_tokens 4 2 10 ex_hashes 0 None 1 0 =
    Ok [mkChunk 0 4 [2]; mkChunk 4 8 [4]; mkChunk 8 10 [5]] ∧
  tiled 0 [(0, 4); (4, 4); (8, 2)] 10.
Proof.
  assert (H : process_tokens 4 2 10 ex_hashes 0 None 1 0 =
    Ok [mkChunk 0 4 [2]; mkChunk 4 8 [4]; mkChunk 8 10 [5]]) by (vm_compute; reflexivity).
  split; [exact H|].
  apply (process_tokens_partition 4 2 10 0 ex_hashes None 2) in H; try lia; [|by exists 2].
  destruct H as (_ & _ & H). apply H; done.
Defined.

(** ** Request metadata *)

(** Save and load metadata: one step's metadata never asks for both a save
    and a load; a load is one the scheduler confirmed; a save ends on a block
    boundary, strictly after what was saved before and within the scheduled
    tokens, and is recorded in the tracker, which no other case changes; and
    when nothing is emitted although saving was allowed, fewer tokens than one
    block are pending. *)
Theorem request_meta_ok `{!CeilDiv} t bs load_spec skip hashes m t' :
  0 < bs → (bs | num_saved_tokens t) →
  from_request_tracker t bs load_spec skip hashes = Ok (m, t') →
  match m with
  | Some m =>
      (can_save m = true → rm_load_spec m = None ∧ skip = false ∧
         token_len_chunk m = num_saved_tokens t' ∧
         num_saved_tokens t < num_saved_tokens t' ≤ tr_token_len t ∧
         (bs | num_saved_tokens t') ∧ tr_token_len t - num_saved_tokens t' < bs) ∧
      (∀ l, rm_load_spec m = Some l → load_spec = Some l ∧ can_load l = true) ∧
      (can_save m = false → t' = t)
  | None => t' = t ∧ load_spec = None ∧ (skip = false → tr_token_len t - num_saved_tokens t < bs)
  end.
Proof.
  intros Hbs [k Hk] Hr. unfold from_request_tracker in Hr.
  rewrite (proj2 (py_div_Ok _ _ (tr_token_len t / bs))) in Hr by (split; [lia|done]).
  cbn [rbind] in Hr. set (start := num_saved_tokens t) in *.
  pose proof (cdiv_bounds (start + 1) bs Hbs) as Hc. set (c := cdiv (start + 1) bs) in *.
  assert (c = k + 1) as Ec by nia. clearbody c. subst c.
  pose proof (Z.div_mod (tr_token_len t) bs ltac:(lia)).
  pose proof (Z.mod_pos_bound (tr_token_len t) bs Hbs).
  set (b := tr_token_len t / bs) in *.
  set (loads := match load_spec with Some l => can_load l | None => false end) in *.
  destruct (skip || (b * bs <? (k + 1) * bs) || loads) eqn:Hs; cbn [andb] in Hr.
  - destruct (bool_decide (is_Some load_spec)) eqn:Hl; cbn [negb] in Hr; injection Hr as <- <-.
    + apply bool_decide_eq_true in Hl as [l ->]. cbn. split_and!; [done| |done].
      intros l' Hl'. unfold loads in Hl'. destruct (can_load l) eqn:E; [|done]. by injection Hl' as <-.
    + apply bool_decide_eq_false in Hl. split_and!; [done|by destruct load_spec; [destruct Hl; eauto|]|].
      intros ->. assert (loads = false) as E.
      { unfold loads. destruct load_spec; [destruct Hl; eauto|done]. }
      rewrite E, orb_false_r in Hs. cbn in Hs. apply Z.ltb_lt in Hs.
      assert (b < k + 1) by nia. nia.
  - injection Hr as <- <-. apply orb_false_iff in Hs as [Hs Hl]. apply orb_false_iff in Hs as [-> Hs].
    apply Z.ltb_ge in Hs. rewrite Hl. cbn. split_and!; [|done|done]. intros _.
    split_and!; try done; [nia|nia|by exists b|nia].
Qed.

Definition ex_tracker : RequestTracker := mkTracker "r" 42 [[7; 8; 9]] 16 None false 48.

Lemma request_meta_ok_witness :
  (∃ m t', from_request_tracker ex_tracker 16 None false [] = Ok (Some m, t') ∧
     can_save m = true ∧ num_saved_tokens t' = 32) ∧
  16 < 32 ≤ 42.
Proof.
  split; [do 2 eexists; split; [vm_compute; reflexivity|done]|].
  assert (H := request_meta_ok ex_tracker 16 None false []).
  destruct (from_request_tracker ex_tracker 16 None false []) as [[[m|] t']|] eqn:E;
    try (vm_compute in E; discriminate).
  specialize (H _ _ ltac:(lia) ltac:(by exists 1) eq_refl) as (H & _).
  vm_compute in E. injection E as <- <-. apply H. reflexivity.
Defined.

(** ** Rank-local values *)

Lemma rmap_i64 l l' : rmap i64 l = Ok l' → l' = l.
Proof. apply rmap_id. intros x y. unfold i64. case_match; congruence. Qed.

Lemma region_lens_eq l :
  length (block_len l) = length (kv_caches_base_addr l) → region_lens l = Ok (block_len l).
Proof.
  intros Hlen. unfold region_lens. apply rmap_Ok, Forall2_same_length_lookup_2.
  { rewrite length_seqZ. unfold zlen. lia. }
  intros i x y [-> Hx]%lookup_seqZ Hy. unfold zlen in *.
  rewrite (proj2 (py_mod_Ok _ _ (Z.of_nat i))).
  - cbn [rbind]. rewrite py_index_nonneg by lia. by rewrite ?Z.add_0_l, Nat2Z.id, Hy.
  - split; [lia|]. symmetry. apply Z.mod_small. lia.
Qed.

Lemma wrap_small z : 0 ≤ z < 2 ^ 63 → wrap_i64 z = z.
Proof. intros H. unfold wrap_i64. rewrite Z.mod_small; lia. Qed.

(** Transfer values: for registered regions that hold [num_blocks] blocks
    in the 64-bit address space, and chunks of whole or partial blocks, every
    address is that of the chunk's block in its region, and the bytes moved
    stay inside that block. *)
Theorem rank_local_prepare_ok l chunks block_ids shard_ids num_blocks addrs sizes bids :
  0 < l_block_size (rl_base l) → length (block_len l) = length (kv_caches_base_addr l) →
  Forall (λ r, 0 ≤ r.1 ∧ 0 < r.2 ∧ r.1 + r.2 * num_blocks < 2 ^ 63)
    (zip (kv_caches_base_addr l) (block_len l)) →
  Forall (λ b, 0 ≤ b < num_blocks) block_ids →
  Forall (λ c, 0 ≤ c.1 < c.2 ∧ c.2 ≤ c.1 + l_block_size (rl_base l) ∧
               c.2 + l_block_size (rl_base l) < 2 ^ 63) chunks →
  rank_local_prepare l chunks block_ids shard_ids = Ok (addrs, sizes, bids) →
  ∀ j c, chunks !! j = Some c →
  ∃ b, bids !! j = Some b ∧ block_ids !! Z.to_nat (c.1 / l_block_size (rl_base l)) = Some b ∧
    addrs !! j = Some (zip_with (λ a n, a + b * n) (kv_caches_base_addr l) (block_len l)) ∧
    sizes !! j = Some (block_len l).
Proof.
  intros Hbs Hlen Hreg Hids Hch H j [st en] Hj. unfold rank_local_prepare in H.
  set (bs := l_block_size (rl_base l)) in *.
  destruct chunks as [|c0 cs] eqn:Ec; [done|]. rewrite <- Ec in *. clear Ec c0 cs.
  apply rbind_Ok in H as ([] & _ & H).
  apply rbind_Ok in H as (base & Hb & H). apply rmap_i64 in Hb as ->.
  apply rbind_Ok in H as (blen & Hl & H). rewrite region_lens_eq in Hl by done. injection Hl as <-.
  apply rbind_Ok in H as (blen & Hl & H). apply rmap_i64 in Hl as ->.
  apply rbind_Ok in H as (starts & Hs & H). apply rmap_i64 in Hs as ->.
  apply rbind_Ok in H as (ends & He & H). apply rmap_i64 in He as ->.
  apply rbind_Ok in H as ([] & _ & H).
  apply rbind_Ok in H as (bs1 & Hblk & H). apply rbind_Ok in H as (bs2 & Hb & H).
  apply rmap_i64 in Hb as ->. injection H as <- <- <-.
  assert (Hc := Forall_lookup_1 _ _ _ _ Hch Hj). cbn in Hc.
  assert (Hq : 0 ≤ st / bs < 2 ^ 63).
  { split; [apply Z.div_pos; lia|]. apply Z.div_lt_upper_bound; nia. }
  assert (np_div st bs = st / bs) as Hdiv.
  { unfold np_div. rewrite (proj2 (Z.eqb_neq bs 0)) by lia. by apply wrap_small. }
  apply rmap_Ok in Hblk. eapply Forall2_lookup_l in Hblk as (b & Hb & Hblk);
    [|by rewrite list_lookup_fmap, Hj]. cbn [fst] in Hblk.
  rewrite Hdiv, py_index_nonneg in Hblk by lia.
  destruct (block_ids !! _) as [b'|] eqn:Hib; [|done]. cbn in Hblk. injection Hblk as ->.
  assert (Hbb := Forall_lookup_1 _ _ _ _ Hids Hib). cbn in Hbb.
  assert (Hregion : ∀ i a n, kv_caches_base_addr l !! i = Some a → block_len l !! i = Some n →
    0 ≤ a ∧ 0 < n ∧ a + n * num_blocks < 2 ^ 63).
  { intros i a n Ha Hn. apply (Forall_lookup_1 _ _ i (a, n) Hreg). by rewrite lookup_zip_with, Ha, Hn. }
  exists b. split_and!; [done|done| |].
  - rewrite list_lookup_fmap, Hb. cbn. f_equal. apply list_eq. intros i. rewrite !lookup_zip_with.
    destruct (kv_caches_base_addr l !! i) as [a|] eqn:Ha; [|done].
    destruct (block_len l !! i) as [n|] eqn:Hn; [|done]. cbn.
    destruct (Hregion _ _ _ Ha Hn) as (? & ? & ?). rewrite (wrap_small (b * n)) by nia.
    by rewrite wrap_small by nia.
  - rewrite !list_lookup_fmap, lookup_zip_with, !list_lookup_fmap, Hj. cbn.
    rewrite (wrap_small (en - st)), (wrap_small (en - st + bs)), (wrap_small (en - st + bs - 1)) by lia.
    assert (np_div (en - st + bs - 1) bs = 1) as ->.
    { unfold np_div. rewrite (proj2 (Z.eqb_neq bs 0)) by lia.
      assert ((en - st + bs - 1) / bs = 1) as -> by (symmetry; apply (Z.div_unique _ _ _ (en - st - 1)); lia).
      by apply wrap_small. }
    f_equal. rewrite <- (list_fmap_id (block_len l)) at 2. apply list_fmap_ext. intros i n Hn.
    destruct (lookup_lt_is_Some_2 (kv_caches_base_addr l) i) as [a Ha].
    { rewrite <- Hlen. by eapply lookup_lt_Some. }
    destruct (Hregion _ _ _ Ha Hn) as (? & ? & ?). change (id n) with n. rewrite Z.mul_1_r. apply wrap_small.
    assert (n * 1 ≤ n * num_blocks) by (apply Z.mul_le_mono_nonneg_l; lia). lia.
Qed.

Definition ex_local : RankLocalStoreLayout :=
  set_regions [4096; 8192] [64; 32] (rank_local ex_metadata 16 16).

Lemma rank_local_prepare_ok_witness :
  rank_local_prepare ex_local [(0, 16); (16, 32)] [3; 1] [0; 0] =
    Ok ([[4288; 8288]; [4160; 8224]], [[64; 32]; [64; 32]], [3; 1]) ∧
  ∃ b, [3; 1] !! 1%nat = Some b ∧ [3; 1] !! Z.to_nat (16 / 16) = Some b ∧
    [[4288; 8288]; [4160; 8224]] !! 1%nat = Some (zip_with (λ a n, a + b * n) [4096; 8192] [64; 32]) ∧
    [[64; 32]; [64; 32]] !! 1%nat = Some [64; 32].
Proof.
  split; [vm_compute; reflexivity|].
  assert (H : rank_local_prepare ex_local [(0, 16); (16, 32)] [3; 1] [0; 0] =
    Ok ([[4288; 8288]; [4160; 8224]], [[64; 32]; [64; 32]], [3; 1])) by (vm_compute; reflexivity).
  apply (rank_local_prepare_ok _ _ _ _ 4 _ _ _) with (j := 1%nat) (c := (16, 32)) in H; [exact H|..].
  - reflexivity.
  - reflexivity.
  - repeat (apply Forall_cons; split; [cbn; lia|]). constructor.
  - repeat (apply Forall_cons; split; [lia|]). constructor.
  - repeat (apply Forall_cons; split; [cbn; lia|]). constructor.
  - reflexivity.
Defined.
