(* ===== verification/StoreCoord.v ===== *)
(** * The Mooncake store: the cache-hit coordinator

    [mooncake/store/coordinator.py]. vLLM's specs are records of the attributes
    the code reads, with the rest of a spec in [sp_rest] since specs are
    compared as wholes; its per-spec managers are the class [Managers]. A
    manager returns blocks of the pool it is given, so a block is the pool's
    null block or its present one. *)

From S2P Require Import Prelude StoreData.

(** ** vLLM's specs and managers *)

Inductive spec_class := FullAttentionSpec | MambaSpec (mamba_cache_mode : string) | OtherSpec.

Record KVCacheSpec := mkSpec {
  sp_class : spec_class;
  sp_block_size : Z;
  sp_rest : Z
}.

#[global] Instance spec_class_eq_dec : EqDecision spec_class.
Proof. solve_decision. Defined.
#[global] Instance spec_eq_dec : EqDecision KVCacheSpec.
Proof. solve_decision. Defined.

(** [UniformTypeKVCacheSpecs] holds one spec per layer; at least one. *)
Inductive group_spec := Single (s : KVCacheSpec) | Uniform (s : KVCacheSpec) (rest : list KVCacheSpec).

Record KVCacheGroupSpec := mkGroupSpec {
  kv_cache_spec : group_spec;
  prefix_cacheable : bool;
  group_block_size : Z;
  is_eagle_group : bool
}.

Definition is_full (s : KVCacheSpec) : bool :=
  match sp_class s with FullAttentionSpec => true | _ => false end.
Definition is_mamba (s : KVCacheSpec) : bool :=
  match sp_class s with MambaSpec _ => true | _ => false end.

Definition unwrap_spec (g : KVCacheGroupSpec) : KVCacheSpec :=
  match kv_cache_spec g with Single s => s | Uniform s _ => s end.

(** ** The pool *)

Inductive block := NullBlock | PresentBlock.

#[global] Instance block_eq_dec : EqDecision block.
Proof. solve_decision. Defined.

Record ExternalCachedBlockPool := mkPool {
  pool_exists : option (gset (Z * block_hash));
  pool_hash_block_size : Z
}.

Definition get_cached_block (p : ExternalCachedBlockPool) (h : block_hash) (group_ids : list Z) :
    option (list block) :=
  match pool_exists p with
  | None => Some (replicate (length group_ids) PresentBlock)
  | Some e => if forallb (λ g, bool_decide ((g, h) ∈ e)) group_ids
              then Some (replicate (length group_ids) PresentBlock) else None
  end.

Definition contains (p : ExternalCachedBlockPool) (group_id : Z) (h : block_hash) : bool :=
  match pool_exists p with Some e => bool_decide ((group_id, h) ∈ e) | None => false end.

Class Managers := {
  manager : Type;
  #[global] manager_eq_dec :: EqDecision manager;
  get_manager_class : KVCacheSpec → option manager;
  supports_fine_grained_hash_lookup : manager → bool;
  (** hashes, [max_length], group ids, pool, spec, [drop_eagle_block],
      [alignment_tokens] *)
  manager_hit : manager → list block_hash → Z → list Z → ExternalCachedBlockPool → KVCacheSpec →
    bool → Z → result (list (list block) * Z);
  (** [start_block], [end_block], [alignment_tokens], spec, [use_eagle],
      [retention_interval], [reachable_boundaries] *)
  reachable_block_mask : manager → Z → Z → Z → KVCacheSpec → bool → option Z → list Z →
    result (option (list bool))
}.

(** ** The coordinator *)

Section coordinator.
Context `{CD : !CeilDiv} `{M : !Managers}.

Record StoreSpecGroup := mkGroup {
  sg_spec : KVCacheSpec;
  group_ids : list Z;
  manager_cls : manager;
  group_use_eagle : bool
}.

Record coordinator := mkCoord {
  kv_cache_groups : list KVCacheGroupSpec;
  mamba_group_ids : gset Z;
  hash_block_size : Z;
  lcm_block_size : Z;
  enable_partial_hash_hits : bool;
  retention_interval : option Z;
  attention_groups : list StoreSpecGroup;
  eagle_group_ids : gset Z
}.

Definition enumerate {A} (l : list A) : list (Z * A) := zip (seqZ 0 (zlen l)) l.

Definition partial_hash_hits_enabled (groups : list KVCacheGroupSpec)
    (hash_block_size dcp_world_size : Z) : bool :=
  existsb (λ g, let s := unwrap_spec g in
    match sp_class s with
    | MambaSpec mode =>
        String.eqb mode "align" &&
        (((dcp_world_size =? 1) && (hash_block_size <? sp_block_size s)) ||
         ((1 <? dcp_world_size) && (hash_block_size <=? sp_block_size s)))
    | _ => false
    end) groups.

Definition set_eagle (g : StoreSpecGroup) : StoreSpecGroup :=
  mkGroup (sg_spec g) (group_ids g) (manager_cls g) true.

(** One group joins the spec group with its spec, or starts one. *)
Definition add_group (acc : list StoreSpecGroup) (e : Z * KVCacheGroupSpec) :
    result (list StoreSpecGroup) :=
  let (i, g) := e in
  if negb (prefix_cacheable g) then Ok acc
  else
    let spec := unwrap_spec g in
    let? m := of_option AssertionError (get_manager_class spec) in
    match list_find (λ x, sg_spec x = spec) acc with
    | Some (idx, x) =>
        let? _ := assert_ (bool_decide (m = manager_cls x)) in
        Ok (<[idx := mkGroup (sg_spec x) (group_ids x ++ [i]) (manager_cls x)
                       (group_use_eagle x || is_eagle_group g)]> acc)
    | None => Ok (acc ++ [mkGroup spec [i] m (is_eagle_group g)])
    end.

Definition verify_and_split_kv_cache_groups (groups : list KVCacheGroupSpec) (use_eagle : bool) :
    result (list StoreSpecGroup) :=
  let? l := rfold add_group [] (enumerate groups) in
  let l := filter (λ g, Is_true (is_full (sg_spec g))) l ++
           filter (λ g, Is_true (negb (is_full (sg_spec g)))) l in
  Ok (if use_eagle && negb (existsb group_use_eagle l) then set_eagle <$> l else l).

(** [all(...)] over a generator whose elements may raise. *)
Fixpoint rall {A} (f : A → result bool) (l : list A) : result bool :=
  match l with
  | [] => Ok true
  | x :: l => let? b := f x in if b then rall f l else Ok false
  end.

Definition divides (a b : Z) : result bool := let? r := py_mod a b in Ok (r =? 0).

Definition make_coordinator (groups : list KVCacheGroupSpec) (scheduler_block_size hbs : Z)
    (use_eagle : bool) (retention : option Z) (dcp_world_size : Z) : result coordinator :=
  let cacheable := filter (λ g, Is_true (prefix_cacheable g)) groups in
  let? ok := rall (λ g, divides (group_block_size g) hbs) cacheable in
  let? _ := assert_ ok in
  let? ok := divides scheduler_block_size hbs in
  let? _ := assert_ ok in
  let? ok := rall (λ g, divides scheduler_block_size (group_block_size g)) cacheable in
  let? _ := assert_ ok in
  let? l := verify_and_split_kv_cache_groups groups use_eagle in
  Ok (mkCoord groups
        (list_to_set (omap (λ e : Z * KVCacheGroupSpec,
           if is_mamba (unwrap_spec e.2) then Some e.1 else None) (enumerate groups)))
        hbs scheduler_block_size (partial_hash_hits_enabled groups hbs dcp_world_size) retention l
        (list_to_set (concat (group_ids <$> filter (λ g, Is_true (group_use_eagle g)) l)))).

Definition alignment (c : coordinator) : Z :=
  if enable_partial_hash_hits c then hash_block_size c else lcm_block_size c.

Definition align_lookup_length (c : coordinator) (length : Z) : result Z :=
  let? q := py_div length (alignment c) in Ok (q * alignment c).

(** ** Masks *)

Definition group_mask (c : coordinator) (aligned_token_len start_token : Z)
    (retention : option Z) (num_prompt_tokens : option Z) (exclude_mamba : bool)
    (e : Z * KVCacheGroupSpec) : result (option (list bool)) :=
  let spec := unwrap_spec e.2 in
  let? end_chunk := py_div aligned_token_len (sp_block_size spec) in
  let start_chunk := Z.min end_chunk (Z.max 0 (cdiv start_token (sp_block_size spec))) in
  if exclude_mamba && is_mamba spec then
    Ok (Some (replicate (Z.to_nat (end_chunk - start_chunk)) false))
  else
    let? m := of_option AssertionError (get_manager_class spec) in
    let boundaries := match num_prompt_tokens with None => [] | Some n => [n - 1] end in
    let? mask := reachable_block_mask m start_chunk end_chunk (lcm_block_size c) spec
                   (bool_decide (e.1 ∈ eagle_group_ids c)) retention boundaries in
    match mask with
    | Some l => let? _ := assert_ (zlen l =? end_chunk - start_chunk) in Ok mask
    | None => Ok mask
    end.

Definition reachable_masks (c : coordinator) (aligned_token_len start_token : Z)
    (retention : option Z) (num_prompt_tokens : option Z) (exclude_mamba : bool) :
    result (list (option (list bool))) :=
  let? r := py_mod aligned_token_len (alignment c) in
  let? _ := assert_ (r =? 0) in
  rmap (group_mask c aligned_token_len start_token retention num_prompt_tokens exclude_mamba)
    (enumerate (kv_cache_groups c)).

Definition store_mask (c : coordinator) (aligned_token_len start_token : Z)
    (num_prompt_tokens : option Z) : result (list (option (list bool))) :=
  reachable_masks c aligned_token_len start_token (retention_interval c) num_prompt_tokens true.

Definition lookup_mask (c : coordinator) (aligned_token_len : Z) :
    result (list (option (list bool))) :=
  reachable_masks c aligned_token_len 0 None None false.

(** ** The longest hit *)

(** [hit_blocks_by_group], [hit_length_by_group] and [eagle_verified]. *)
Record hits := mkHits {
  hit_blocks_by_group : list (option (list block));
  hit_length_by_group : list Z;
  eagle_verified : gset Z
}.

Section hit.
Context (c : coordinator) (block_hashes : list block_hash) (max_length : Z)
  (pool : ExternalCachedBlockPool) (apply_eagle : bool).

Definition query (g : StoreSpecGroup) (length : Z) (drop : bool) : result (list (list block) * Z) :=
  manager_hit (manager_cls g) block_hashes length (group_ids g) pool (sg_spec g) drop (alignment c).

Definition eagle_margin (g : StoreSpecGroup) : Z :=
  if enable_partial_hash_hits c && supports_fine_grained_hash_lookup (manager_cls g) &&
     (hash_block_size c <? sp_block_size (sg_spec g))
  then hash_block_size c else sp_block_size (sg_spec g).

(** [for gid, blocks in zip(group_ids, hit_blocks, strict=True)] *)
Definition record_hit (ids : list Z) (blocks : list (list block)) (length : Z) (h : hits) :
    result hits :=
  if negb (zlen ids =? zlen blocks) then
    Err (ValueError "zip() arguments have different lengths")
  else
    Ok (foldl (λ h (e : Z * list block),
          mkHits (<[Z.to_nat e.1 := Some e.2]> (hit_blocks_by_group h))
            (<[Z.to_nat e.1 := length]> (hit_length_by_group h)) (eagle_verified h))
          h (zip ids blocks)).

Definition probe (st : Z * hits) (e : Z * StoreSpecGroup) : result (Z * hits) :=
  let (curr, h) := st in
  let (idx, g) := e in
  let? first := py_index (group_ids g) 0 in
  let? cached := py_index (hit_blocks_by_group h) first in
  if is_full (sg_spec g) && bool_decide (is_Some cached) then
    let? n := py_index (hit_length_by_group h) first in Ok (Z.min curr n, h)
  else
    let drop := apply_eagle && group_use_eagle g && negb (bool_decide (idx ∈ eagle_verified h)) in
    let length := if drop && negb (is_mamba (sg_spec g))
                  then Z.min (curr + eagle_margin g) max_length else curr in
    let? r := query g length drop in
    let verified := if drop then eagle_verified h ∪ {[idx]}
                    else if r.2 <? curr then ∅ else eagle_verified h in
    let? h := record_hit (group_ids g) r.1 r.2
                (mkHits (hit_blocks_by_group h) (hit_length_by_group h) verified) in
    Ok (r.2, h).

Definition is_simple_hybrid : bool :=
  match attention_groups c with [g; _] => is_full (sg_spec g) | _ => false end.

(** The [while True] loop; [None] when the fuel runs out. *)
Fixpoint converge (fuel : nat) (length : Z) (h : hits) : option (result (Z * hits)) :=
  match fuel with
  | O => None
  | S fuel =>
      match rfold probe (length, h) (enumerate (attention_groups c)) with
      | Err e => Some (Err e)
      | Ok (curr, h) =>
          if length <=? curr then Some (Ok (length, h))
          else if is_simple_hybrid then Some (Ok (curr, h))
          else converge fuel curr h
      end
  end.

(** [del l[n:]] *)
Definition del_from {A} (l : list A) (n : Z) : list A :=
  take (Z.to_nat (if n <? 0 then zlen l + n else n)) l.

Definition truncate_group (length : Z) (blocks : list (option (list block))) (g : StoreSpecGroup) :
    result (list (option (list block))) :=
  if negb (is_full (sg_spec g)) then Ok blocks
  else
    let n := cdiv length (sp_block_size (sg_spec g)) in
    rfold (λ bs gid,
      let? full := py_index bs gid in
      let? full := of_option AssertionError full in
      Ok (<[Z.to_nat gid := Some (del_from full n)]> bs)) blocks (group_ids g).

Definition no_hits : hits :=
  mkHits ((λ _, None) <$> kv_cache_groups c) ((λ _, 0) <$> kv_cache_groups c) ∅.

(** Enough fuel for lengths that decrease to 0. *)
Definition hit_fuel : nat := S (Z.to_nat max_length).

Definition find_hit_blocks : option (result (list (list block) * Z)) :=
  match attention_groups c with
  | [g] =>
      Some (let? r := query g max_length (apply_eagle && group_use_eagle g) in
            let? h := record_hit (group_ids g) r.1 r.2 no_hits in
            Ok (default [] <$> hit_blocks_by_group h, r.2))
  | groups =>
      r ← converge hit_fuel max_length no_hits;
      Some (let? r := r in
            let? blocks := rfold (truncate_group r.1) (hit_blocks_by_group r.2) groups in
            Ok (default [] <$> blocks, r.1))
  end.

Definition find_longest_cache_hit : option (result (list (list bool) * Z)) :=
  r ← find_hit_blocks;
  Some (let? r := (r : result (list (list block) * Z)) in
        Ok ((λ blks : list block, (λ b, negb (bool_decide (b = NullBlock))) <$> blks) <$> r.1, r.2)).

End hit.

Definition load_mask (c : coordinator) (block_hashes : list block_hash) (token_len : Z) :
    option (result (list (list bool))) :=
  r ← find_longest_cache_hit c block_hashes token_len (mkPool None (hash_block_size c)) false;
  Some (let? r := r in Ok r.1).

End coordinator.
