(* ===== verification/StoreCoordThms.v ===== *)
(** * Properties of the store's cache-hit coordinator

    The grouping of the KV cache groups by spec, and the search for a hit that
    all groups agree on: it ends, and its result is one every group found. *)

From S2P Require Import Prelude StoreData StoreThms StoreCoord.

Lemma enumerate_lookup {A} (l : list A) i x :
  (i, x) ∈ enumerate l ↔ 0 ≤ i ∧ l !! Z.to_nat i = Some x.
Proof.
  unfold enumerate. rewrite list_elem_of_lookup. setoid_rewrite lookup_zip_Some.
  setoid_rewrite lookup_seqZ. split.
  - intros (k & (Hk & _) & Hx). cbn in Hk, Hx. subst i. replace (Z.to_nat (0 + Z.of_nat k)) with k by lia.
    split; [lia|done].
  - intros [Hi Hx]. exists (Z.to_nat i). assert (Hl := lookup_lt_Some _ _ _ Hx).
    cbn. split; [|done]. unfold zlen. lia.
Qed.

Lemma enumerate_NoDup {A} (l : list A) : NoDup (enumerate l).*1.
Proof.
  unfold enumerate. rewrite fst_zip; [apply NoDup_seqZ|]. rewrite length_seqZ. unfold zlen. lia.
Qed.

(** ** Grouping by spec *)

Section split.
Context `{CD : !CeilDiv} `{M : !Managers}.

Abbreviation entry := (Z * KVCacheGroupSpec)%type.

Definition of_spec (s : KVCacheSpec) (e : entry) : bool :=
  prefix_cacheable e.2 && bool_decide (unwrap_spec e.2 = s).

(** The spec group of [s]: all cacheable groups with that spec, in order. *)
Definition spec_members (s : KVCacheSpec) (l : list entry) : list entry :=
  filter (λ e, Is_true (of_spec s e)) l.

Record group_ok (l : list entry) (g : StoreSpecGroup) : Prop := {
  go_ids : group_ids g = (spec_members (sg_spec g) l).*1;
  go_manager : get_manager_class (sg_spec g) = Some (manager_cls g);
  go_eagle : group_use_eagle g = existsb (λ e : entry, is_eagle_group e.2) (spec_members (sg_spec g) l)
}.

Record split_ok (l : list entry) (acc : list StoreSpecGroup) : Prop := {
  so_specs : NoDup (sg_spec <$> acc);
  so_elem : ∀ s, s ∈ sg_spec <$> acc ↔ spec_members s l ≠ [];
  so_groups : Forall (group_ok l) acc
}.

Lemma elem_of_members s l e : e ∈ spec_members s l ↔ of_spec s e = true ∧ e ∈ l.
Proof. unfold spec_members. rewrite list_elem_of_filter. by rewrite Is_true_true. Qed.

Lemma spec_members_snoc s l e :
  spec_members s (l ++ [e]) = spec_members s l ++ (if of_spec s e then [e] else []).
Proof.
  unfold spec_members. rewrite filter_app. f_equal. rewrite filter_cons, filter_nil.
  destruct (of_spec s e); [rewrite decide_True by done|rewrite decide_False by naive_solver]; done.
Qed.

Lemma group_ok_other l e g : of_spec (sg_spec g) e = false → group_ok l g → group_ok (l ++ [e]) g.
Proof. intros E [H1 H2 H3]. split; rewrite ?spec_members_snoc, ?E, ?app_nil_r; done. Qed.

Lemma existsb_snoc {A} (f : A → bool) l x : existsb f (l ++ [x]) = existsb f l || f x.
Proof. rewrite existsb_app. cbn. by rewrite orb_false_r. Qed.

Lemma add_group_ok l acc e acc' : split_ok l acc → add_group acc e = Ok acc' → split_ok (l ++ [e]) acc'.
Proof.
  destruct e as [i g]. intros [H1 H2 H3] H. unfold add_group in H.
  destruct (prefix_cacheable g) eqn:Hc; cbn [negb] in H.
  2:{ apply Ok_inj in H as <-.
      assert (E : ∀ s, of_spec s (i, g) = false) by (intros; unfold of_spec; cbn; by rewrite Hc).
      split; [done| |].
      - intros s. rewrite spec_members_snoc, E, app_nil_r. apply H2.
      - eapply Forall_impl; [done|]. intros x. by apply group_ok_other. }
  apply rbind_Ok in H as (m & Hm & H). apply of_option_Ok in Hm.
  set (spec := unwrap_spec g) in *.
  assert (E : ∀ s, of_spec s (i, g) = bool_decide (spec = s)) by (intros; unfold of_spec; cbn; by rewrite Hc).
  destruct (list_find _ acc) as [[idx x]|] eqn:Hf.
  - apply list_find_Some in Hf as (Hx & Hs & _).
    apply rbind_Ok in H as (u & _ & H). apply Ok_inj in H as <-.
    assert (Hok := proj1 (Forall_lookup _ _) H3 _ _ Hx).
    assert (Hspecs : sg_spec <$> <[idx:=mkGroup (sg_spec x) (group_ids x ++ [i]) (manager_cls x)
                       (group_use_eagle x || is_eagle_group g)]> acc = sg_spec <$> acc).
    { rewrite list_fmap_insert. cbn. apply list_insert_id. by rewrite list_lookup_fmap, Hx. }
    split.
    + by rewrite Hspecs.
    + intros s. rewrite Hspecs, H2, spec_members_snoc, E. case_bool_decide as Es; [|by rewrite app_nil_r].
      subst s. split; [by destruct (spec_members spec l)|]. intros _. apply H2. rewrite <- Hs.
      apply list_elem_of_fmap. exists x. split; [done|]. by eapply list_elem_of_lookup_2.
    + apply Forall_lookup. intros k y. destruct (decide (k = idx)) as [->|Hne].
      * rewrite list_lookup_insert_eq by (by eapply lookup_lt_Some). intros [= <-].
        destruct Hok as [G1 G2 G3]. split; cbn; rewrite ?spec_members_snoc, ?E, ?Hs, ?bool_decide_true by done.
        -- rewrite fmap_app, <- Hs. cbn. by rewrite G1.
        -- by rewrite <- Hs.
        -- rewrite existsb_snoc, <- Hs, <- G3. done.
      * rewrite list_lookup_insert_ne by done. intros Hy.
        apply group_ok_other; [|by eapply (Forall_lookup_1 _ _ _ _ H3)]. rewrite E. apply bool_decide_false.
        intros Es. apply Hne. eapply (NoDup_lookup _ _ _ (sg_spec y) H1);
          rewrite list_lookup_fmap; [by rewrite Hy|by rewrite Hx, <- Es, <- Hs].
  - apply Ok_inj in H as <-. apply list_find_None in Hf.
    assert (Hnew : spec ∉ sg_spec <$> acc).
    { intros (x & Hx & Hin)%list_elem_of_fmap. rewrite Forall_forall in Hf. by eapply Hf. }
    assert (Hempty : spec_members spec l = []).
    { destruct (spec_members spec l) eqn:El; [done|]. exfalso. apply Hnew, H2. by rewrite El. }
    split.
    + rewrite fmap_app. cbn. apply NoDup_app. split_and!; [done| |by apply NoDup_singleton].
      intros s Hs ->%list_elem_of_singleton. done.
    + intros s. rewrite fmap_app, elem_of_app. csimpl. rewrite list_elem_of_singleton, H2, spec_members_snoc, E.
      case_bool_decide as Es; [|rewrite app_nil_r; naive_solver].
      split; [|by right]. intros _. by destruct (spec_members s l).
    + apply Forall_app. split.
      * apply Forall_forall. intros x Hx. apply group_ok_other; [|by eapply Forall_forall in H3].
        rewrite E. apply bool_decide_false. intros Es. apply Hnew. rewrite Es. by apply list_elem_of_fmap_2.
      * apply Forall_singleton. split; cbn; rewrite ?spec_members_snoc, ?E, ?bool_decide_true, ?Hempty by done.
        -- done.
        -- done.
        -- cbn. by rewrite orb_false_r.
Qed.

Lemma split_Permutation (f : StoreSpecGroup → bool) l :
  filter (λ g, Is_true (f g)) l ++ filter (λ g, Is_true (negb (f g))) l ≡ₚ l.
Proof.
  induction l as [|x l IH]; [done|]. rewrite !filter_cons.
  destruct (f x) eqn:E; cbn [negb].
  - rewrite decide_True, decide_False by naive_solver. cbn. by rewrite IH.
  - rewrite decide_False, decide_True by naive_solver. by rewrite <- Permutation_middle, IH.
Qed.

Lemma split_ok_perm l acc acc' : acc' ≡ₚ acc → split_ok l acc → split_ok l acc'.
Proof.
  intros Hp [H1 H2 H3]. split.
  - by rewrite Hp.
  - intros s. by rewrite Hp.
  - by rewrite Hp.
Qed.

Definition any_eagle (l : list entry) : bool :=
  existsb (λ e : entry, prefix_cacheable e.2 && is_eagle_group e.2) l.

(** Some spec group is flagged exactly when some cacheable group is. *)
Lemma split_any_eagle l acc : split_ok l acc → existsb group_use_eagle acc = any_eagle l.
Proof.
  intros [_ H2 H3]. apply eq_true_iff_eq. unfold any_eagle. rewrite !existsb_exists. split.
  - intros (g & Hg%list_elem_of_In & He). rewrite Forall_forall in H3. destruct (H3 _ Hg) as [_ _ G].
    rewrite G in He. apply existsb_exists in He as (e & He%list_elem_of_In & Hf).
    apply elem_of_members in He as [[Hc _]%andb_true_iff Hin]. exists e. split; [by apply list_elem_of_In|].
    by rewrite Hc, Hf.
  - intros (e & He%list_elem_of_In & [Hc Hf]%andb_true_iff).
    assert (Hin : e ∈ spec_members (unwrap_spec e.2) l).
    { apply elem_of_members. split; [|done]. unfold of_spec. by rewrite Hc, bool_decide_true. }
    assert (Hs : unwrap_spec e.2 ∈ sg_spec <$> acc) by (apply H2; by destruct (spec_members _ l); [set_solver|]).
    apply list_elem_of_fmap in Hs as (g & Hg & Hga). exists g. split; [by apply list_elem_of_In|].
    rewrite Forall_forall in H3. destruct (H3 _ Hga) as [_ _ G]. rewrite G. apply existsb_exists.
    exists e. split; [|done]. apply list_elem_of_In. by rewrite <- Hg.
Qed.

(** The spec groups of a list of groups. *)
Record spec_groups (use_eagle : bool) (l : list entry) (acc : list StoreSpecGroup) : Prop := {
  sp_specs : NoDup (sg_spec <$> acc);
  sp_elem : ∀ s, s ∈ sg_spec <$> acc ↔ spec_members s l ≠ [];
  sp_group : ∀ g, g ∈ acc →
    group_ids g = (spec_members (sg_spec g) l).*1 ∧
    get_manager_class (sg_spec g) = Some (manager_cls g) ∧
    group_use_eagle g = existsb (λ e : entry, is_eagle_group e.2) (spec_members (sg_spec g) l) ||
                        (use_eagle && negb (any_eagle l));
  sp_full_first : ∃ l1 l2, acc = l1 ++ l2 ∧ Forall (λ g, is_full (sg_spec g) = true) l1 ∧
    Forall (λ g, is_full (sg_spec g) = false) l2
}.

Lemma full_first (l : list StoreSpecGroup) :
  ∃ l1 l2, filter (λ g, Is_true (is_full (sg_spec g))) l ++
           filter (λ g, Is_true (negb (is_full (sg_spec g)))) l = l1 ++ l2 ∧
    Forall (λ g, is_full (sg_spec g) = true) l1 ∧ Forall (λ g, is_full (sg_spec g) = false) l2.
Proof.
  eexists _, _. split; [done|]. split; apply Forall_forall.
  - intros g [Hg _]%list_elem_of_filter. by apply Is_true_eq_true.
  - intros g [Hg _]%list_elem_of_filter. apply negb_prop_elim in Hg. by destruct (is_full _).
Qed.

Lemma verify_and_split_ok groups use_eagle l :
  verify_and_split_kv_cache_groups groups use_eagle = Ok l → spec_groups use_eagle (enumerate groups) l.
Proof.
  unfold verify_and_split_kv_cache_groups. intros (acc & Hacc & H)%rbind_Ok.
  assert (Hok : split_ok (enumerate groups) acc).
  { revert Hacc. apply (rfold_seen split_ok); [intros ???? _; apply add_group_ok|].
    split; [constructor|set_solver|constructor]. }
  apply (split_ok_perm _ _ _ (split_Permutation (λ g, is_full (sg_spec g)) acc)) in Hok.
  destruct (full_first acc) as (l1 & l2 & El & Hl1 & Hl2). rewrite El in *. apply Ok_inj in H as <-.
  assert (Ha := split_any_eagle _ _ Hok). rewrite Ha. destruct Hok as [H1 H2 H3].
  destruct (use_eagle && negb _) eqn:E.
  - assert (Es : sg_spec <$> (set_eagle <$> l1 ++ l2) = sg_spec <$> l1 ++ l2) by (by rewrite <- list_fmap_compose).
    split; rewrite ?Es; [done|done| |].
    + intros g (g' & -> & Hg)%list_elem_of_fmap. rewrite Forall_forall in H3. destruct (H3 _ Hg) as [G1 G2 _].
      cbn. by rewrite E, orb_true_r.
    + exists (set_eagle <$> l1), (set_eagle <$> l2). split; [by rewrite fmap_app|]. by rewrite !Forall_fmap.
  - split; [done|done| |by exists l1, l2].
    intros g Hg. rewrite Forall_forall in H3. destruct (H3 _ Hg) as [G1 G2 G3]. by rewrite E, orb_false_r.
Qed.

End split.

(** ** The search for a hit *)

Section hit.
Context `{CD : !CeilDiv} `{M : !Managers}.
Context (c : coordinator) (block_hashes : list block_hash) (max_length : Z)
  (pool : ExternalCachedBlockPool) (apply_eagle : bool).

Abbreviation query := (query c block_hashes pool).
Abbreviation probe := (probe c block_hashes max_length pool apply_eagle).
Abbreviation converge := (converge c block_hashes max_length pool apply_eagle).

(** What the search relies on: the groups' ids are positions in the list of
    groups, and no two groups share one. *)
Record coord_ok : Prop := {
  co_ids : ∀ g, g ∈ attention_groups c → group_ids g ≠ [] ∧ NoDup (group_ids g) ∧
    ∀ i, i ∈ group_ids g → 0 ≤ i ∧ (Z.to_nat i < length (kv_cache_groups c))%nat;
  co_disjoint : ∀ k1 k2 g1 g2 i, attention_groups c !! k1 = Some g1 →
    attention_groups c !! k2 = Some g2 → i ∈ group_ids g1 → i ∈ group_ids g2 → k1 = k2
}.

Lemma spec_groups_coord use_eagle :
  spec_groups use_eagle (enumerate (kv_cache_groups c)) (attention_groups c) → coord_ok.
Proof.
  intros [H1 H2 H3 _]. split.
  - intros g Hg. destruct (H3 _ Hg) as [-> _]. split_and!.
    + assert (Hs := proj1 (H2 (sg_spec g)) ltac:(by apply list_elem_of_fmap_2)).
      intros E%fmap_nil_inv. done.
    + eapply sublist_NoDup; [apply (enumerate_NoDup (kv_cache_groups c))|].
      apply fmap_sublist, sublist_filter.
    + intros i ([i' kg] & -> & [_ [Hi Hin]%enumerate_lookup]%elem_of_members)%list_elem_of_fmap.
      cbn. split; [lia|]. by eapply lookup_lt_Some.
  - intros k1 k2 g1 g2 i Hg1 Hg2 Hi1 Hi2.
    assert (Hs : ∀ g k, attention_groups c !! k = Some g → i ∈ group_ids g →
      ∃ kg, kv_cache_groups c !! Z.to_nat i = Some kg ∧ unwrap_spec kg = sg_spec g).
    { intros g k Hg Hi. destruct (H3 g) as [E _]; [by eapply list_elem_of_lookup_2|]. rewrite E in Hi.
      apply list_elem_of_fmap in Hi as ([i' kg] & -> & [Hof Hin%enumerate_lookup]%list_elem_of_filter).
      exists kg. split; [by apply Hin|]. unfold of_spec in Hof. apply andb_prop_elim in Hof as [_ Hof].
      by apply bool_decide_unpack in Hof. }
    destruct (Hs _ _ Hg1 Hi1) as (kg & Hk & E1), (Hs _ _ Hg2 Hi2) as (kg' & Hk' & E2).
    eapply (NoDup_lookup _ _ _ (sg_spec g1) H1); rewrite list_lookup_fmap; [by rewrite Hg1|].
    rewrite Hg2. cbn. congruence.
Qed.

(** *** The loop ends *)

Definition lens_ok (h : hits) : Prop := Forall (λ n, 0 ≤ n) (hit_length_by_group h).

Lemma record_hit_lens ids blocks r h h' :
  0 ≤ r → lens_ok h → record_hit ids blocks r h = Ok h' → lens_ok h'.
Proof.
  intros Hr Hh. unfold record_hit. destruct (negb _); [done|]. intros [= <-].
  revert h Hh. induction (zip ids blocks) as [|e l IH]; intros h Hh; [done|]. cbn [foldl]. apply IH.
  unfold lens_ok. cbn. by apply Forall_insert.
Qed.

Definition nonneg_hits : Prop := ∀ g len drop bss r,
  g ∈ attention_groups c → query g len drop = Ok (bss, r) → 0 ≤ r.

Lemma probe_lens curr h idx g curr' h' :
  nonneg_hits → g ∈ attention_groups c → 0 ≤ curr → lens_ok h →
  probe (curr, h) (idx, g) = Ok (curr', h') → 0 ≤ curr' ∧ lens_ok h'.
Proof.
  intros Hn Hg Hcurr Hh H. cbn in H. apply rbind_Ok in H as (i & _ & (o & _ & H)%rbind_Ok).
  destruct (_ && bool_decide _).
  - apply rbind_Ok in H as (n & Hl & H). apply Ok_inj in H. injection H as <- <-. split; [|done].
    unfold py_index in Hl. destruct (_ <? 0); [done|]. apply of_option_Ok in Hl.
    apply (Forall_lookup_1 _ _ _ _ Hh) in Hl. lia.
  - apply rbind_Ok in H as ([bss r] & Hq & (h1 & Hr & H)%rbind_Ok). apply Ok_inj in H.
    injection H as <- <-. apply Hn in Hq; [|done]. split; [done|]. by eapply record_hit_lens in Hr.
Qed.
Lemma elem_of_enumerate_groups e :
  e ∈ enumerate (attention_groups c) → attention_groups c !! Z.to_nat e.1 = Some e.2.
Proof. destruct e as [i g]. by intros [_ H]%enumerate_lookup. Qed.

Lemma pass_lens length h curr' h' :
  nonneg_hits → 0 ≤ length → lens_ok h →
  rfold probe (length, h) (enumerate (attention_groups c)) = Ok (curr', h') → 0 ≤ curr' ∧ lens_ok h'.
Proof.
  intros Hn Hl Hh.
  apply (rfold_seen (λ _ st, 0 ≤ st.1 ∧ lens_ok st.2) probe _ (length, h) (curr', h')); [|done].
  intros pre [idx g] [curr h1] [curr1 h2] Hpre [H1 H2] H. eapply probe_lens; [done| |done..].
  apply (elem_of_prefix _ _ (idx, g)) in Hpre; [|set_solver].
  apply elem_of_enumerate_groups in Hpre. by eapply list_elem_of_lookup_2.
Qed.

Lemma converge_total fuel length h :
  nonneg_hits → 0 ≤ length → lens_ok h → (Z.to_nat length < fuel)%nat →
  is_Some (converge fuel length h).
Proof.
  intros Hn. revert length h. induction fuel as [|fuel IH]; intros length h Hl Hh Hf; [lia|].
  cbn [StoreCoord.converge].
  destruct (rfold _ _ _) as [[curr h1]|e] eqn:E; [|eauto].
  apply pass_lens in E as [Hcurr Hh1]; [|done..].
  destruct (Z.leb_spec length curr); [eauto|]. destruct (is_simple_hybrid c); [eauto|].
  apply IH; [done|done|lia].
Qed.

Lemma converge_more fuel n length h r :
  converge fuel length h = Some r → converge (fuel + n) length h = Some r.
Proof.
  revert length h. induction fuel as [|fuel IH]; intros length h; [done|]. cbn [Nat.add StoreCoord.converge].
  destruct (rfold _ _ _) as [[curr h1]|e]; [|done].
  destruct (length <=? curr); [done|]. destruct (is_simple_hybrid c); [done|]. apply IH.
Qed.

Lemma no_hits_lens : lens_ok (no_hits c).
Proof. unfold lens_ok, no_hits. cbn. apply Forall_fmap, Forall_true. intros; cbn; lia. Qed.

(** *** What it finds *)

Definition blocks_at (h : hits) (gid : Z) : option (option (list block)) :=
  hit_blocks_by_group h !! Z.to_nat gid.
Definition length_at (h : hits) (gid : Z) : option Z := hit_length_by_group h !! Z.to_nat gid.

Definition shape (h : hits) : Prop :=
  length (hit_blocks_by_group h) = length (kv_cache_groups c) ∧
  length (hit_length_by_group h) = length (kv_cache_groups c).

Definition in_range (i : Z) : Prop := 0 ≤ i ∧ (Z.to_nat i < length (kv_cache_groups c))%nat.

Lemma record_hit_ok ids bss r h h' :
  shape h → NoDup ids → (∀ i, i ∈ ids → in_range i) → record_hit ids bss r h = Ok h' →
  shape h' ∧ Forall2 (λ i bs, blocks_at h' i = Some (Some bs) ∧ length_at h' i = Some r) ids bss ∧
  ∀ i, 0 ≤ i → i ∉ ids → blocks_at h' i = blocks_at h i ∧ length_at h' i = length_at h i.
Proof.
  unfold record_hit. intros Hs Hnd Hr. destruct (Z.eqb_spec (zlen ids) (zlen bss)) as [El|]; [|done].
  cbn. intros [= <-]. revert bss El h Hs. induction Hnd as [|i ids Hi _ IH]; intros [|bs bss] El h Hs;
    try (unfold zlen in El; cbn in El; lia).
  - cbn. split_and!; [done|constructor|done].
  - cbn [zip zip_with foldl]. set (h1 := mkHits _ _ _).
    assert (Hs1 : shape h1) by (unfold shape, h1; cbn; by rewrite !length_insert).
    assert (Hi0 : in_range i) by (apply Hr; set_solver).
    destruct (IH ltac:(set_solver) bss ltac:(unfold zlen in *; cbn in El; lia) h1 Hs1) as (G1 & G2 & G3).
    split_and!; [done| |].
    + constructor; [|done]. destruct Hi0 as [? Hlt], Hs as [Hb Hl].
      destruct (G3 i ltac:(lia) Hi) as [-> ->]. unfold blocks_at, length_at, h1. cbn.
      split; apply list_lookup_insert_eq; lia.
    + intros j Hj Hnj. destruct (G3 j Hj ltac:(set_solver)) as [-> ->]. unfold blocks_at, length_at, h1. cbn.
      destruct Hi0 as [? _]. assert (Z.to_nat i ≠ Z.to_nat j) by (intros E; apply Hnj; set_unfold; left; lia).
      by rewrite !list_lookup_insert_ne.
Qed.

(** The managers' contract: a hit is not longer than asked for, and one that
    drops the last block ends a block before it. *)
Record manager_laws : Prop := {
  ml_bounds g len drop bss r :
    g ∈ attention_groups c → query g len drop = Ok (bss, r) → 0 ≤ r ≤ Z.max 0 len;
  ml_drop g len bss r :
    g ∈ attention_groups c → is_mamba (sg_spec g) = false → query g len true = Ok (bss, r) →
    r ≤ Z.max 0 (len - eagle_margin c g)
}.

(** Group [g] has the blocks of a hit of length [r]. *)
Definition found (h : hits) (g : StoreSpecGroup) (r : Z) (bss : list (list block)) : Prop :=
  (∃ len drop, len ≤ max_length ∧ query g len drop = Ok (bss, r)) ∧ 0 ≤ r ≤ max_length ∧
  Forall2 (λ i bs, blocks_at h i = Some (Some bs) ∧ length_at h i = Some r) (group_ids g) bss.

Definition hits_ok (h : hits) : Prop :=
  shape h ∧ ∀ g, g ∈ attention_groups c →
    (∀ i, i ∈ group_ids g → blocks_at h i = Some None) ∨ ∃ r bss, found h g r bss.

Lemma found_same h h' g r bss :
  (∀ i, i ∈ group_ids g → blocks_at h' i = blocks_at h i ∧ length_at h' i = length_at h i) →
  found h g r bss → found h' g r bss.
Proof.
  intros Hi (Hq & Hr & Hf). split_and!; [done|lia|lia|].
  eapply Forall2_impl_in; [exact Hf|]. intros i bs Hin [H1 H2]. by destruct (Hi i Hin) as [-> ->].
Qed.

Section probe.
Hypothesis Hok : coord_ok.
Hypothesis Hlaws : manager_laws.

(** What one probe of group number [idx] does. *)
Record probed (idx : nat) (g : StoreSpecGroup) (curr : Z) (h : hits) (curr' : Z) (h' : hits) : Prop := {
  pr_ok : hits_ok h';
  pr_curr : 0 ≤ curr' ≤ curr;
  pr_found : ∃ r bss, found h' g r bss ∧ curr' ≤ r ∧ (is_full (sg_spec g) = false → r = curr');
  pr_keep : ∀ k g' r bss, attention_groups c !! k = Some g' → k ≠ idx →
    found h g' r bss → found h' g' r bss
}.

Lemma query_bound g (curr : Z) bss r (drop : bool) :
  g ∈ attention_groups c → 0 ≤ curr ≤ max_length →
  query g (if drop && negb (is_mamba (sg_spec g)) then Z.min (curr + eagle_margin c g) max_length
           else curr) drop = Ok (bss, r) → 0 ≤ r ≤ curr.
Proof.
  intros Hg Hcurr Hq. assert (Hb := ml_bounds Hlaws _ _ _ _ _ Hg Hq). destruct drop; cbn in Hq, Hb.
  - destruct (is_mamba _) eqn:Em; cbn in Hq, Hb; [lia|]. apply (ml_drop Hlaws) in Hq; [|done..]. lia.
  - lia.
Qed.

Lemma probe_ok idx g curr h curr' h' :
  attention_groups c !! idx = Some g → hits_ok h → 0 ≤ curr ≤ max_length →
  probe (curr, h) (Z.of_nat idx, g) = Ok (curr', h') → probed idx g curr h curr' h'.
Proof.
  intros Hidx Hh Hcurr H. assert (Hg : g ∈ attention_groups c) by by eapply list_elem_of_lookup_2.
  destruct (co_ids Hok _ Hg) as (Hne & Hnd & Hrange).
  destruct (group_ids g) as [|i ids] eqn:Ei; [done|]. rewrite <- Ei in *.
  assert (Hin : i ∈ group_ids g) by (rewrite Ei; set_solver).
  destruct (Hrange _ Hin) as [Hi0 Hilt]. cbn in H. apply rbind_Ok in H as (first & Hfirst & (o & Ho & H)%rbind_Ok).
  rewrite Ei in Hfirst. cbn in Hfirst. apply Ok_inj in Hfirst as <-.
  rewrite py_index_nonneg in Ho by done. apply of_option_Ok in Ho.
  destruct (is_full (sg_spec g) && bool_decide (is_Some o)) eqn:Ec.
  - apply andb_true_iff in Ec as [Ef [bs ->]%bool_decide_eq_true].
    apply rbind_Ok in H as (n & Hn & H). apply Ok_inj in H. injection H as <- <-.
    rewrite py_index_nonneg in Hn by done. apply of_option_Ok in Hn.
    destruct (proj2 Hh g Hg) as [Hnone|(r & bss & Hf)]; [apply Hnone in Hin; unfold blocks_at in Hin; congruence|].
    assert (r = n) as ->.
    { destruct Hf as (_ & _ & Hf). rewrite Ei in Hf. apply Forall2_cons_inv_l in Hf as (b & l & [_ Hl] & _).
      unfold length_at in Hl. congruence. }
    split; [done|destruct Hf as (_ & ? & _); lia| |done]. exists n, bss. split_and!; [done|lia|congruence].
  - apply rbind_Ok in H as ([bss r] & Hq & (h1 & Hr & H)%rbind_Ok). apply Ok_inj in H. injection H as <- <-.
    assert (Hb := query_bound _ _ _ _ _ Hg Hcurr Hq).
    apply record_hit_ok in Hr as (Hs & Hf & Hkeep); [|apply Hh|done|by intros j Hj; apply Hrange].
    assert (Hsame : ∀ k g', attention_groups c !! k = Some g' → k ≠ idx → ∀ j, j ∈ group_ids g' →
      blocks_at h1 j = blocks_at h j ∧ length_at h1 j = length_at h j).
    { intros k g' Hk Hne' j Hj. apply Hkeep; [|by intros Hj'; apply Hne'; eapply (co_disjoint Hok)].
      apply (co_ids Hok g'); [by eapply list_elem_of_lookup_2|done]. }
    assert (Hfound : found h1 g r bss).
    { split_and!; [|lia|lia|exact Hf]. eexists _, _. split; [|exact Hq].
      match goal with |- (if ?b then _ else _) ≤ _ => destruct b end; lia. }
    split; [|done| |].
    + split; [done|]. intros g' Hg'. destruct (list_elem_of_lookup_1 _ _ Hg') as [k Hk].
      destruct (decide (k = idx)) as [->|Hne']; [right; exists r, bss; congruence|].
      destruct (proj2 Hh g' Hg') as [Hnone|(r' & bss' & Hf')].
      * left. intros j Hj. rewrite (proj1 (Hsame _ _ Hk Hne' _ Hj)). by apply Hnone.
      * right. exists r', bss'. by eapply found_same; [apply (Hsame _ _ Hk Hne')|].
    + exists r, bss. split_and!; [done|lia|done].
    + intros k g' r' bss' Hk Hne'. apply found_same. by apply (Hsame k).
Qed.

Lemma enumerate_at {A} (l : list A) k e :
  enumerate l !! k = Some e → e.1 = Z.of_nat k ∧ l !! k = Some e.2.
Proof.
  destruct e as [i x]. unfold enumerate. rewrite lookup_zip_Some, lookup_seqZ. cbn. intros ((-> & _) & ->).
  split; [lia|done].
Qed.

(** After a pass over a list of groups, from length [start]. *)
Definition passed (start : Z) (pre : list (Z * StoreSpecGroup)) (st : Z * hits) : Prop :=
  hits_ok st.2 ∧ 0 ≤ st.1 ≤ start ∧
  ∀ k e, pre !! k = Some e → ∃ r bss, found st.2 e.2 r bss ∧ st.1 ≤ r ∧
    (is_full (sg_spec e.2) = false → r ≤ start ∧ (S k = length pre → r = st.1)).

Lemma pass_ok start h st :
  hits_ok h → 0 ≤ start ≤ max_length →
  rfold probe (start, h) (enumerate (attention_groups c)) = Ok st →
  passed start (enumerate (attention_groups c)) st.
Proof.
  intros Hh Hs. apply (rfold_seen (passed start)).
  2:{ split_and!; cbn; [done|lia|lia|]. intros k e. by rewrite lookup_nil. }
  intros pre [i g] [curr h1] [curr1 h2] Hpre (H1 & H2 & H3) H. cbn in H1, H2, H3.
  destruct (enumerate_at (attention_groups c) (length pre) (i, g)) as [E Hg].
  { eapply prefix_lookup_Some; [|exact Hpre]. rewrite lookup_app_r by done. by rewrite Nat.sub_diag. }
  cbn in E, Hg. subst i. apply probe_ok in H as [P1 P2 (r & bss & P3 & P4 & P5) P6]; [|done|done|lia].
  split_and!; cbn; [done|lia|lia|]. intros k e Hk. apply lookup_app_Some in Hk as [Hk|[Hlen Hk]].
  - assert (Hlt := lookup_lt_Some _ _ _ Hk).
    destruct (enumerate_at (attention_groups c) k e) as [_ Hg'].
    { eapply prefix_lookup_Some; [|exact Hpre]. by rewrite lookup_app_l. }
    destruct (H3 _ _ Hk) as (r' & bss' & F1 & F2 & F3). exists r', bss'. split_and!.
    + eapply P6; [done|lia|done].
    + lia.
    + intros Hf. rewrite length_app. cbn. split; [by apply F3|lia].
  - destruct (k - length pre)%nat eqn:Ek; [|done]. injection Hk as <-. exists r, bss. cbn.
    split_and!; [done|done|]. intros Hf. rewrite (P5 Hf). split; [lia|done].
Qed.

(** Every group has the blocks of a hit of at least [len], and one of exactly
    [len] unless it is a full-attention group. *)
Definition agreed (h : hits) (len : Z) : Prop :=
  0 ≤ len ≤ max_length ∧ ∀ g, g ∈ attention_groups c → ∃ r bss, found h g r bss ∧ len ≤ r ∧
    (is_full (sg_spec g) = false → r = len).

Lemma converge_agreed fuel start h len h' :
  hits_ok h → 0 ≤ start ≤ max_length → converge fuel start h = Some (Ok (len, h')) →
  hits_ok h' ∧ agreed h' len.
Proof.
  revert start h. induction fuel as [|fuel IH]; intros start h Hh Hs H; [done|].
  cbn [StoreCoord.converge] in H. destruct (rfold _ _ _) as [[curr h1]|e] eqn:E; [|done].
  apply pass_ok in E as (H1 & H2 & H3); [|done|lia]. cbn in H1, H2, H3.
  assert (Hall : ∀ k g, attention_groups c !! k = Some g → ∃ r bss, found h1 g r bss ∧ curr ≤ r ∧
    (is_full (sg_spec g) = false → r ≤ start ∧ (S k = length (attention_groups c) → r = curr))).
  { intros k g Hg. destruct (enumerate (attention_groups c) !! k) as [e|] eqn:Ek.
    - destruct (enumerate_at _ _ _ Ek) as [_ Hg']. assert (g = e.2) as -> by congruence.
      destruct (H3 _ _ Ek) as (r & bss & ? & ? & Hr). exists r, bss. split_and!; [done|done|].
      intros Hf. destruct (Hr Hf) as [? Hl]. split; [done|]. intros El. apply Hl. rewrite El.
      unfold enumerate. rewrite length_zip, length_seqZ. unfold zlen. lia.
    - exfalso. apply lookup_ge_None in Ek. apply lookup_lt_Some in Hg.
      unfold enumerate in Ek. rewrite length_zip, length_seqZ in Ek. unfold zlen in Ek. lia. }
  destruct (Z.leb_spec start curr).
  - injection H as <- <-. split; [done|]. split; [lia|]. intros g [k Hk]%list_elem_of_lookup_1.
    destruct (Hall _ _ Hk) as (r & bss & ? & ? & Hr). exists r, bss. split_and!; [done|lia|].
    intros Hf. destruct (Hr Hf). lia.
  - destruct (is_simple_hybrid c) eqn:Eh; [|by eapply IH in H; [|done|lia]].
    injection H as <- <-. split; [done|]. split; [lia|]. unfold is_simple_hybrid in Eh.
    destruct (attention_groups c) as [|g1 [|g2 [|]]] eqn:Eg; try done.
    intros g [k Hk]%list_elem_of_lookup_1. destruct (Hall _ _ Hk) as (r & bss & ? & ? & Hr).
    exists r, bss. split_and!; [done|lia|]. intros Hf.
    destruct k as [|[|k]]; cbn in Hk; [congruence| |done]. by apply Hr.
Qed.

(** *** Truncation *)

Definition cut (len : Z) (g : StoreSpecGroup) (bs : list block) : list block :=
  del_from bs (cdiv len (sp_block_size (sg_spec g))).

Lemma truncate_ids (n : Z) ids (bs bs' : list (option (list block))) :
  NoDup ids → (∀ i, i ∈ ids → 0 ≤ i) →
  rfold (λ bs gid, let? full := py_index bs gid in
                   let? full := of_option AssertionError full in
                   Ok (<[Z.to_nat gid := Some (del_from full n)]> bs)) bs ids = Ok bs' →
  ∀ i, 0 ≤ i → bs' !! Z.to_nat i =
    if bool_decide (i ∈ ids) then fmap (λ b, del_from b n) <$> bs !! Z.to_nat i else bs !! Z.to_nat i.
Proof.
  intros Hnd. revert bs. induction Hnd as [|j ids Hj _ IH]; intros bs Hr H i Hi.
  - cbn in H. apply Ok_inj in H as <-. done.
  - cbn [rfold] in H. apply rbind_Ok in H as (b1 & H1 & H). apply IH with (i := i) in H; [|set_solver|done].
    rewrite H. clear H IH. assert (Hj0 : 0 ≤ j) by (apply Hr; set_solver).
    apply rbind_Ok in H1 as (o & Ho & (full & Hf & H1)%rbind_Ok). apply Ok_inj in H1 as <-.
    rewrite py_index_nonneg in Ho by done. apply of_option_Ok in Ho, Hf. subst o.
    destruct (decide (i = j)) as [->|Hne].
    + rewrite bool_decide_false, bool_decide_true by set_solver.
      rewrite list_lookup_insert_eq by (by eapply lookup_lt_Some). by rewrite Ho.
    + rewrite list_lookup_insert_ne by lia. rewrite (bool_decide_ext (i ∈ j :: ids) (i ∈ ids)) by set_solver.
      done.
Qed.

Lemma truncate_ok len (bs bs' : list (option (list block))) :
  rfold (truncate_group len) bs (attention_groups c) = Ok bs' →
  ∀ g i, g ∈ attention_groups c → i ∈ group_ids g → bs' !! Z.to_nat i =
    if is_full (sg_spec g) then fmap (cut len g) <$> bs !! Z.to_nat i else bs !! Z.to_nat i.
Proof.
  intros H. cut (∀ k g i, attention_groups c !! k = Some g → i ∈ group_ids g → bs' !! Z.to_nat i =
    if (k <? length (attention_groups c))%nat && is_full (sg_spec g)
    then fmap (cut len g) <$> bs !! Z.to_nat i else bs !! Z.to_nat i).
  { intros Hc g i [k Hk]%list_elem_of_lookup_1 Hi. rewrite (Hc _ _ _ Hk Hi), (proj2 (Nat.ltb_lt _ _)); [done|].
    by eapply lookup_lt_Some. }
  revert H. apply (rfold_seen (λ pre b, ∀ k g i, attention_groups c !! k = Some g → i ∈ group_ids g →
    b !! Z.to_nat i = if (k <? length pre)%nat && is_full (sg_spec g)
    then fmap (cut len g) <$> bs !! Z.to_nat i else bs !! Z.to_nat i)).
  2:{ intros. done. }
  intros pre g b1 b2 Hpre IH H k g' i Hk Hi.
  assert (Hg : attention_groups c !! length pre = Some g).
  { eapply prefix_lookup_Some; [|exact Hpre]. rewrite lookup_app_r by done. by rewrite Nat.sub_diag. }
  destruct (co_ids Hok g) as (_ & Hnd & Hr); [by eapply list_elem_of_lookup_2|].
  destruct (co_ids Hok g') as (_ & _ & Hr'); [by eapply list_elem_of_lookup_2|].
  assert (Hb2 : b2 !! Z.to_nat i = if bool_decide (k = length pre) && is_full (sg_spec g')
    then fmap (cut len g') <$> b1 !! Z.to_nat i else b1 !! Z.to_nat i).
  { unfold truncate_group in H. destruct (is_full (sg_spec g)) eqn:Ef; cbn [negb] in H.
    - rewrite (truncate_ids _ _ _ _ Hnd (λ j Hj, proj1 (Hr j Hj)) H i (proj1 (Hr' _ Hi))).
      destruct (decide (k = length pre)) as [->|Hne].
      + assert (g' = g) as -> by congruence. by rewrite Ef, !bool_decide_true.
      + rewrite !bool_decide_false; [done|done|]. intros Hi'. apply Hne. by eapply (co_disjoint Hok).
    - apply Ok_inj in H as <-. case_bool_decide; [|done]. subst k.
      assert (g' = g) as -> by congruence. by rewrite Ef. }
  rewrite Hb2, (IH _ _ _ Hk Hi), length_app. change (length [g]) with 1%nat. destruct (is_full (sg_spec g')); [|by rewrite !andb_false_r].
  rewrite !andb_true_r. case_bool_decide; destruct (Nat.ltb_spec k (length pre)), (Nat.ltb_spec k (length pre + 1)); try lia; done.
Qed.

Lemma no_hits_ok : hits_ok (no_hits c).
Proof.
  split; [split; cbn; by rewrite length_fmap|]. intros g Hg. left. intros i Hi.
  destruct (co_ids Hok g Hg) as (_ & _ & Hr). destruct (Hr i Hi) as [_ Hlt].
  unfold blocks_at. cbn. apply lookup_lt_is_Some_2 in Hlt as [kg Hk]. by rewrite list_lookup_fmap, Hk.
Qed.

End probe.

(** What a search reports for group [g]: the blocks of a hit of length [r],
    cut to the length all groups agree on. *)
Definition reported (g : StoreSpecGroup) (len : Z) (bs : list block) : list block :=
  if is_full (sg_spec g) && negb (length (attention_groups c) =? 1)%nat then cut len g bs else bs.

Lemma find_many :
  length (attention_groups c) ≠ 1%nat →
  find_hit_blocks c block_hashes max_length pool apply_eagle =
  match converge (hit_fuel max_length) max_length (no_hits c) with
  | Some r => Some (let? r := r in
      let? blocks := rfold (truncate_group r.1) (hit_blocks_by_group r.2) (attention_groups c) in
      Ok (default [] <$> blocks, r.1))
  | None => None
  end.
Proof. unfold find_hit_blocks. by destruct (attention_groups c) as [|g [|]]. Qed.

Lemma find_ok blocks len :
  coord_ok → manager_laws → 0 ≤ max_length →
  find_hit_blocks c block_hashes max_length pool apply_eagle = Some (Ok (blocks, len)) →
  0 ≤ len ≤ max_length ∧ ∀ g, g ∈ attention_groups c → ∃ n drop bss r,
    n ≤ max_length ∧ query g n drop = Ok (bss, r) ∧ len ≤ r ∧ (is_full (sg_spec g) = false → r = len) ∧
    Forall2 (λ i bs, blocks !! Z.to_nat i = Some (reported g len bs)) (group_ids g) bss.
Proof.
  intros Hok Hlaws Hmax H. destruct (decide (length (attention_groups c) = 1%nat)) as [E1|E1].
  - unfold find_hit_blocks in H. destruct (attention_groups c) as [|g [|]] eqn:Eg; try done.
    apply (inj Some) in H. apply rbind_Ok in H as ([bss r] & Hq & (h & Hr & H)%rbind_Ok).
    apply Ok_inj in H. injection H as <- <-. assert (Hg : g ∈ attention_groups c) by (rewrite Eg; set_solver).
    destruct (co_ids Hok g Hg) as (_ & Hnd & Hrange). assert (Hb := ml_bounds Hlaws _ _ _ _ _ Hg Hq).
    apply record_hit_ok in Hr as (_ & Hf & _); [|by split; cbn; rewrite length_fmap|done|done].
    split; [cbn; lia|]. intros g' ->%list_elem_of_singleton. eexists max_length, _, bss, r.
    split_and!; [done|exact Hq|done|done|]. eapply Forall2_impl; [exact Hf|]. intros i bs [Hi _].
    unfold blocks_at in Hi. rewrite list_lookup_fmap, Hi. unfold reported. rewrite Eg. cbn.
    by rewrite andb_false_r.
  - rewrite find_many in H by done. destruct (converge _ _ _) as [[[len' h]|e]|] eqn:E; [|done..].
    apply (inj Some) in H. apply rbind_Ok in H as ([len1 h1] & [= <- <-] & (bs & Ht & H)%rbind_Ok).
    apply Ok_inj in H. injection H as <- <-. cbn in Ht.
    apply converge_agreed in E as [Hh [Hl Ha]]; [|done|done|by apply no_hits_ok|lia].
    split; [done|]. intros g Hg. destruct (Ha g Hg) as (r & bss & ((n & drop & Hn & Hq) & _ & Hf) & Hr & Hfull).
    exists n, drop, bss, r. split_and!; [done..|].
    eapply Forall2_impl_in; [exact Hf|]. intros i b Hi [Hb _]. unfold blocks_at in Hb.
    rewrite list_lookup_fmap, (truncate_ok Hok Hlaws _ _ _ Ht _ _ Hg Hi), Hb. unfold reported.
    rewrite (proj2 (Nat.eqb_neq _ _) E1), andb_true_r. by destruct (is_full _).
Qed.

End hit.

(** ** The properties *)

Section props.
Context `{CD : !CeilDiv} `{M : !Managers}.

Lemma rall_true {A} (f : A → result bool) l : rall f l = Ok true → ∀ x, x ∈ l → f x = Ok true.
Proof.
  induction l as [|y l IH]; [set_solver|]. cbn. intros (b & Hb & H)%rbind_Ok x. destruct b; [|done].
  intros [->|Hx]%elem_of_cons; [done|by apply IH].
Qed.

Lemma divides_true a b : divides a b = Ok true → b ≠ 0 ∧ a mod b = 0.
Proof.
  unfold divides. intros (r & [Hb ->]%py_mod_Ok & H)%rbind_Ok. apply Ok_inj in H.
  split; [done|]. by apply Z.eqb_eq.
Qed.

(** (functional): a coordinator that is built has one spec group per spec
    of the cacheable groups, full attention first, which lists exactly the
    groups with that spec in order, has its manager, and is flagged for
    EAGLE when one of its groups is, or all are when the engine uses EAGLE and
    no group says so; block sizes divide as the hit search needs. *)
Theorem coordinator_groups (groups : list KVCacheGroupSpec) (sbs hbs : Z) (use_eagle : bool)
    (retention : option Z) (dcp : Z) (c : coordinator) :
  make_coordinator groups sbs hbs use_eagle retention dcp = Ok c →
  kv_cache_groups c = groups ∧
  spec_groups use_eagle (enumerate groups) (attention_groups c) ∧
  (∀ g, g ∈ groups → prefix_cacheable g = true →
     group_block_size g mod hbs = 0 ∧ sbs mod group_block_size g = 0) ∧ sbs mod hbs = 0.
Proof.
  unfold make_coordinator. intros (b1 & H1 & (u1 & H2 & H)%rbind_Ok)%rbind_Ok.
  apply rbind_Ok in H as (b2 & H3 & (u2 & H4 & (b3 & H5 & (u3 & H6 & H)%rbind_Ok)%rbind_Ok)%rbind_Ok).
  apply rbind_Ok in H as (l & Hl & H). apply Ok_inj in H as <-.
  apply assert_Ok in H2 as ->. apply assert_Ok in H4 as ->. apply assert_Ok in H6 as ->.
  split_and!; [done|by apply verify_and_split_ok| |by apply (divides_true _ _ H3)].
  intros g Hg Hc. assert (Hin : g ∈ filter (λ g, Is_true (prefix_cacheable g)) groups)
    by (apply list_elem_of_filter; split; [by rewrite Hc|done]).
  apply (rall_true _ _ H1) in Hin as Hd1. apply (rall_true _ _ H5) in Hin as Hd2.
  apply divides_true in Hd1, Hd2. naive_solver.
Qed.

Lemma find_hit_total (c : coordinator) (block_hashes : list block_hash)
    (max_length : Z) (pool : ExternalCachedBlockPool) (apply_eagle : bool) :
  0 ≤ max_length → nonneg_hits c block_hashes pool →
  is_Some (find_hit_blocks c block_hashes max_length pool apply_eagle).
Proof.
  intros Hmax Hn.
  destruct (converge_total c block_hashes max_length pool apply_eagle (hit_fuel max_length) max_length
    (no_hits c) Hn Hmax (no_hits_lens c)) as [r Hr]; [unfold hit_fuel; lia|].
  destruct (decide (length (attention_groups c) = 1%nat)) as [E|E].
  - unfold find_hit_blocks. by destruct (attention_groups c) as [|g [|]].
  - rewrite find_many, Hr by done. eauto.
Qed.

(** C16 (termination): the search for a hit returns, whatever the groups and
    the pool, as long as hit lengths are not negative: the loop makes at most
    [max_length + 1] passes, and more are not needed. *)
Theorem find_hit_terminates (c : coordinator) (block_hashes : list block_hash)
    (max_length : Z) (pool : ExternalCachedBlockPool) (apply_eagle : bool) :
  0 ≤ max_length → nonneg_hits c block_hashes pool →
  is_Some (find_hit_blocks c block_hashes max_length pool apply_eagle) ∧
  ∀ n, converge c block_hashes max_length pool apply_eagle (hit_fuel max_length + n) max_length (no_hits c) =
       converge c block_hashes max_length pool apply_eagle (hit_fuel max_length) max_length (no_hits c).
Proof.
  intros Hmax Hn. split; [by apply find_hit_total|].
  destruct (converge_total c block_hashes max_length pool apply_eagle (hit_fuel max_length) max_length
    (no_hits c) Hn Hmax (no_hits_lens c)) as [r Hr]; [unfold hit_fuel; lia|].
  intros n. rewrite Hr. by apply converge_more.
Qed.

Lemma made_coord_ok (groups : list KVCacheGroupSpec) (sbs hbs : Z) (use_eagle : bool)
    (retention : option Z) (dcp : Z) (c : coordinator) :
  make_coordinator groups sbs hbs use_eagle retention dcp = Ok c → coord_ok c.
Proof.
  intros Hc. unfold make_coordinator in Hc.
  apply rbind_Ok in Hc as (b1 & _ & (u1 & _ & (b2 & _ & (u2 & _ & Hc)%rbind_Ok)%rbind_Ok)%rbind_Ok).
  apply rbind_Ok in Hc as (b3 & _ & (u3 & _ & (l & Hl & Hc)%rbind_Ok)%rbind_Ok).
  apply Ok_inj in Hc as <-. eapply spec_groups_coord. by apply verify_and_split_ok in Hl.
Qed.

(** C17 (functional): when managers keep their contract, a hit is at most as
    long as asked for, and every group can serve it: each group's blocks are
    those a query of its manager found, with a hit of exactly the reported
    length, or, for a full-attention group, at least that length and cut to
    it. *)
Theorem hit_agreed (groups : list KVCacheGroupSpec) (sbs hbs : Z) (use_eagle : bool)
    (retention : option Z) (dcp : Z) (c : coordinator) (block_hashes : list block_hash)
    (max_length : Z) (pool : ExternalCachedBlockPool) (apply_eagle : bool)
    (blocks : list (list block)) (len : Z) :
  make_coordinator groups sbs hbs use_eagle retention dcp = Ok c →
  manager_laws c block_hashes pool → 0 ≤ max_length →
  find_hit_blocks c block_hashes max_length pool apply_eagle = Some (Ok (blocks, len)) →
  0 ≤ len ≤ max_length ∧ ∀ g, g ∈ attention_groups c → ∃ n drop bss r,
    n ≤ max_length ∧ query c block_hashes pool g n drop = Ok (bss, r) ∧ len ≤ r ∧
    (is_full (sg_spec g) = false → r = len) ∧
    Forall2 (λ i bs, blocks !! Z.to_nat i = Some (reported c g len bs)) (group_ids g) bss.
Proof. intros Hc. by eapply find_ok, made_coord_ok. Qed.

End props.

(** ** An instance

    Managers that find the longest cached prefix: a full-attention group needs
    all its blocks, any other only the last. *)

Definition leading (hashes : list block_hash) (len : Z) (ids : list Z) (pool : ExternalCachedBlockPool)
    (bs : Z) : list Z :=
  (fix go l := match l with
    | [] => []
    | i :: l =>
        match chunk_hash_at hashes (pool_hash_block_size pool) bs i with
        | Ok h => if bool_decide (is_Some (get_cached_block pool h ids)) then i :: go l else []
        | Err _ => []
        end
    end) (seqZ 0 (len / bs)).

Definition ex_hit (full : bool) (hashes : list block_hash) (len : Z) (ids : list Z)
    (pool : ExternalCachedBlockPool) (s : KVCacheSpec) (drop : bool) (_ : Z) :
    result (list (list block) * Z) :=
  let n := length (leading hashes len ids pool (sp_block_size s)) in
  let n := if drop then pred n else n in
  let blocks := if full then replicate n PresentBlock
                else match n with O => [] | S n => replicate n NullBlock ++ [PresentBlock] end in
  Ok (replicate (length ids) blocks, Z.of_nat n * sp_block_size s).

#[local] Instance ex_managers : Managers := {|
  manager := bool;
  get_manager_class := λ s, Some (is_full s);
  supports_fine_grained_hash_lookup := λ _, false;
  manager_hit := ex_hit;
  reachable_block_mask := λ _ _ _ _ _ _ _ _, Ok None
|}.

Definition ex_groups : list KVCacheGroupSpec :=
  let full := Single (mkSpec FullAttentionSpec 4 0) in
  let other k := Single (mkSpec OtherSpec 8 k) in
  [mkGroupSpec (other 0) true 8 false; mkGroupSpec full true 4 true;
   mkGroupSpec (other 1) true 8 false; mkGroupSpec full true 4 false].

Definition ex_coord : coordinator :=
  match make_coordinator ex_groups 8 4 false None 1 with
  | Ok c => c
  | Err _ => mkCoord [] ∅ 0 0 false None [] ∅
  end.

Definition ex_block_hashes : list block_hash := [[1]; [2]; [3]; [4]; [5]; [6]].

(** Group 0 has the first block, group 2 the first two. *)
Definition ex_pool : ExternalCachedBlockPool :=
  mkPool (Some (list_to_set ((λ h, (1, h)) <$> ex_block_hashes) ∪ list_to_set ((λ h, (3, h)) <$> ex_block_hashes)
                ∪ {[(0, [2]); (2, [2]); (2, [4])]})) 4.

Lemma leading_length hashes len ids pool bs :
  0 < bs → Z.of_nat (length (leading hashes len ids pool bs)) * bs ≤ Z.max 0 len.
Proof.
  intros Hbs. unfold leading.
  assert (H : Z.of_nat (length (seqZ 0 (len / bs))) * bs ≤ Z.max 0 len).
  { rewrite length_seqZ. pose proof (Z.div_mod len bs). pose proof (Z.mod_pos_bound len bs Hbs). nia. }
  revert H. generalize (seqZ 0 (len / bs)) as l. intros l H. etrans; [|exact H].
  apply Z.mul_le_mono_nonneg_r; [lia|]. clear H. induction l as [|i l IH]; [done|].
  destruct (chunk_hash_at _ _ _ _); [|cbn; lia]. case_bool_decide; cbn in *; lia.
Qed.

Lemma ex_hit_bound full hashes len ids pool s d al bss r :
  0 < sp_block_size s → ex_hit full hashes len ids pool s d al = Ok (bss, r) →
  0 ≤ r ≤ Z.max 0 len ∧ (d = true → r ≤ Z.max 0 (len - sp_block_size s)).
Proof.
  intros Hp. unfold ex_hit. intros [= _ <-].
  pose proof (leading_length hashes len ids pool _ Hp). split; [destruct d; nia|intros ->; nia].
Qed.

Lemma ex_coord_groups : attention_groups ex_coord =
  [mkGroup (mkSpec FullAttentionSpec 4 0) [1; 3] true true; mkGroup (mkSpec OtherSpec 8 0) [0] false false;
   mkGroup (mkSpec OtherSpec 8 1) [2] false false].
Proof. reflexivity. Qed.

Lemma ex_laws hashes pool : manager_laws ex_coord hashes pool.
Proof.
  assert (Hbs : ∀ g, g ∈ attention_groups ex_coord → 0 < sp_block_size (sg_spec g) ∧
    eagle_margin ex_coord g = sp_block_size (sg_spec g)).
  { assert (E : enable_partial_hash_hits ex_coord = false) by (vm_compute; reflexivity).
    unfold eagle_margin. rewrite E. apply Forall_forall. rewrite ex_coord_groups.
    repeat (apply Forall_cons_2; [split; reflexivity|]). apply Forall_nil_2. }
  split.
  - intros g len d bss r [Hp _]%Hbs H.
    exact (proj1 (ex_hit_bound (manager_cls g) hashes len (group_ids g) pool (sg_spec g) d
      (alignment ex_coord) bss r Hp H)).
  - intros g len bss r [Hp Hm]%Hbs _ H. rewrite Hm.
    exact (proj2 (ex_hit_bound (manager_cls g) hashes len (group_ids g) pool (sg_spec g) true
      (alignment ex_coord) bss r Hp H) eq_refl).
Qed.

Lemma coordinator_groups_witness :
  (sg_spec <$> attention_groups ex_coord) =
    [mkSpec FullAttentionSpec 4 0; mkSpec OtherSpec 8 0; mkSpec OtherSpec 8 1] ∧
  (group_ids <$> attention_groups ex_coord) = [[1; 3]; [0]; [2]] ∧ 8 mod 4 = 0.
Proof.
  split; [by vm_compute|]. split; [by vm_compute|].
  destruct (coordinator_groups ex_groups 8 4 false None 1 ex_coord) as (_ & _ & _ & H); [reflexivity|].
  exact H.
Defined.

Lemma find_hit_terminates_witness :
  is_Some (find_hit_blocks ex_coord ex_block_hashes 24 ex_pool true).
Proof.
  apply (find_hit_terminates ex_coord ex_block_hashes 24 ex_pool true); [lia|].
  intros g len drop bss r Hg H. by apply (ml_bounds _ _ _ (ex_laws _ _) _ _ _ _ _ Hg H).
Defined.

Lemma hit_agreed_witness :
  find_hit_blocks ex_coord ex_block_hashes 24 ex_pool true =
    Some (Ok ([[PresentBlock]; [PresentBlock; PresentBlock]; [PresentBlock];
               [PresentBlock; PresentBlock]], 8)) ∧
  ∀ g, g ∈ attention_groups ex_coord → ∃ n drop bss r,
    n ≤ 24 ∧ query ex_coord ex_block_hashes ex_pool g n drop = Ok (bss, r) ∧ 8 ≤ r.
Proof.
  assert (H24 : 0 ≤ 24) by lia.
  assert (Hc : make_coordinator ex_groups 8 4 false None 1 = Ok ex_coord) by reflexivity.
  assert (E : find_hit_blocks ex_coord ex_block_hashes 24 ex_pool true =
    Some (Ok ([[PresentBlock]; [PresentBlock; PresentBlock]; [PresentBlock];
               [PresentBlock; PresentBlock]], 8))) by by vm_compute.
  split; [exact E|]. intros g Hg.
  destruct (hit_agreed ex_groups 8 4 false None 1 ex_coord ex_block_hashes 24 ex_pool true _ _
    Hc (ex_laws _ _) H24 E) as [_ H].
  destruct (H g Hg) as (n & drop & bss & r & H1 & H2 & H3 & _).
  exists n, drop, bss, r. exact (conj H1 (conj H2 H3)).
Defined.
