(* ===== verification/StoreWorker.v ===== *)
(** * The Mooncake store: the worker's sending thread

    [mooncake/store/worker.py], class [KVCacheStoreSendingThread] and the
    helpers it uses. The thread handles one store job at a time while the
    engine's thread adds jobs, retires requests and collects completions, so
    [_handle_request] is a task with a program counter: one step is the code up
    to the next lock or call to the store. The store's answers, or the
    exception it raises, come with the step. Timings and statistics are left
    out. *)

From Stdlib Require Import Ascii.
From S2P Require Import Prelude StoreData StoreCoord.

(** ** Token databases *)

Inductive StoreLayout :=
  | RankLocal (l : RankLocalStoreLayout)
  | TPSharded (l : TPShardedStoreLayout).

Definition layout_base_of (l : StoreLayout) : layout_base :=
  match l with RankLocal l => rl_base l | TPSharded l => sh_base l end.

Definition local_shard_ids (l : StoreLayout) : list Z :=
  match l with RankLocal _ => [0] | TPSharded l => store_shard_ids l end.

Definition layout_key_for (l : StoreLayout) (shard_id : Z) (h : block_hash) : result string :=
  match l with
  | RankLocal l => rank_local_key_for l shard_id h
  | TPSharded l => sharded_key_for l shard_id h
  end.

Definition prepare_values (l : StoreLayout) (chunks : list (Z * Z)) (block_ids shard_ids : list Z) :
    result values :=
  match l with
  | RankLocal l => rank_local_prepare l chunks block_ids shard_ids
  | TPSharded l => sharded_prepare l chunks block_ids shard_ids
  end.

Definition lookup_key_prefixes (l : StoreLayout) (ns : list rank_namespace) : list string :=
  match l with
  | RankLocal l => rank_local_lookup_prefixes l ns
  | TPSharded l => sharded_lookup_prefixes l ns
  end.

Record token_db := mkDb {
  db_metadata : KeyMetadata;
  db_block_size : Z;
  db_hash_block_size : Z;
  db_layout : StoreLayout
}.

Definition rank_local_layout (d : token_db) : result RankLocalStoreLayout :=
  match db_layout d with
  | RankLocal l => Ok l
  | TPSharded _ => Err (RuntimeError "This operation requires a rank-local Store layout")
  end.

Definition db_key_for (d : token_db) (h : block_hash) : result string :=
  let? l := rank_local_layout d in rank_local_key_for l 0 h.

Definition prepare_value_for_block (d : token_db) (block_id : Z) : result (list Z * list Z) :=
  let? l := rank_local_layout d in rank_local_prepare_block l block_id.

(** [key.rsplit("@", 1)[-1]] *)
Fixpoint has_at (s : string) : bool :=
  match s with
  | EmptyString => false
  | String c s => Ascii.eqb c "@"%char || has_at s
  end.

Fixpoint after_last_at (s : string) : string :=
  match s with
  | EmptyString => ""
  | String c s' =>
      if has_at s' then after_last_at s' else if Ascii.eqb c "@"%char then s' else s
  end.

Definition make_mooncake_group_id (m : KeyMetadata) (chunk_hash : string) : string :=
  ("vllm-mooncake-store:" ++ (if String.eqb (cache_prefix m) "" then "" else cache_prefix m ++ "@")
   ++ model_name m ++ store_namespace m ++ "@" ++ chunk_hash)%string.

(** ** The thread *)

Definition MOONCAKE_NO_AVAILABLE_HANDLE : Z := -200.

Record put := mkPut {
  p_key : string;
  p_addr : list Z;
  p_size : list Z;
  p_metadata : KeyMetadata
}.

(** One entry of the parallel lists [starts], [ends], [keys],
    [group_indices], [store_shard_ids] and [event_specs]. *)
Record item := mkItem {
  i_start : Z;
  i_end : Z;
  i_key : string;
  i_group : Z;
  i_shard : Z;
  i_hash : block_hash
}.

Record BlockStored := mkStored {
  ev_block_hash : Z;
  ev_parent : option Z;
  ev_token_ids : list Z;
  ev_block_size : Z;
  ev_group : Z
}.

(** The calls to the store: keys, and for a put the addresses, the sizes and
    the group ids. *)
Inductive call :=
  | CallExists (keys : list string)
  | CallPut (keys : list string) (addrs sizes : list (list Z)) (groups : option (list string)).

(** The locals of [_handle_request]. *)
Record locals := mkLocals {
  save_completed : bool;
  token_len : Z;
  event_token_ids : option (list Z);
  event_start : Z
}.

(** Where the task stands; [res] is [None] after an exception of the put. *)
Inductive pc :=
  | KLive
  | KRetry
  | KSkip
  | KBoundary
  | KBoundaryExists (puts : list put)
  | KBoundaryPut (puts : list put)
  | KBoundaryMark
  | KBoundaryClear
  | KSave
  | KExists (plan : list item)
  | KPut (plan : list item)
  | KMark (plan : list item) (res : list Z)
  | KRecord (plan : list item) (stored : bool)
  | KClear (plan : list item)
  | KEvents (plan : list item) (res : list Z)
  | KFinally
  | KFinish.

Record task := mkTask { t_job : ReqMeta; t_locals : locals; t_pc : pc }.

Record sender := mkSender {
  request_queue : list ReqMeta;
  running : option task;
  stored_requests : list (string * gset Z);
  completed_saves : list (Z * Z);
  store_pressure : bool;
  skip_store_requests : gset string;
  saved_offset : list (string * Z);
  retry_token_ids : list (string * (Z * list Z));
  kv_events : list BlockStored;
  calls : list call
}.

Definition set_request_queue (f : list ReqMeta → list ReqMeta) (c : sender) : sender :=
  mkSender (f (request_queue c)) (running c) (stored_requests c) (completed_saves c)
    (store_pressure c) (skip_store_requests c) (saved_offset c) (retry_token_ids c) (kv_events
    c) (calls c).
Definition set_running (f : option task → option task) (c : sender) : sender :=
  mkSender (request_queue c) (f (running c)) (stored_requests c) (completed_saves c)
    (store_pressure c) (skip_store_requests c) (saved_offset c) (retry_token_ids c) (kv_events
    c) (calls c).
Definition set_stored_requests (f : list (string * gset Z) → list (string * gset Z)) (c : sender) : sender :=
  mkSender (request_queue c) (running c) (f (stored_requests c)) (completed_saves c)
    (store_pressure c) (skip_store_requests c) (saved_offset c) (retry_token_ids c) (kv_events
    c) (calls c).
Definition set_completed_saves (f : list (Z * Z) → list (Z * Z)) (c : sender) : sender :=
  mkSender (request_queue c) (running c) (stored_requests c) (f (completed_saves c))
    (store_pressure c) (skip_store_requests c) (saved_offset c) (retry_token_ids c) (kv_events
    c) (calls c).
Definition set_store_pressure (f : bool → bool) (c : sender) : sender :=
  mkSender (request_queue c) (running c) (stored_requests c) (completed_saves c) (f
    (store_pressure c)) (skip_store_requests c) (saved_offset c) (retry_token_ids c) (kv_events
    c) (calls c).
Definition set_skip_store_requests (f : gset string → gset string) (c : sender) : sender :=
  mkSender (request_queue c) (running c) (stored_requests c) (completed_saves c)
    (store_pressure c) (f (skip_store_requests c)) (saved_offset c) (retry_token_ids c)
    (kv_events c) (calls c).
Definition set_saved_offset (f : list (string * Z) → list (string * Z)) (c : sender) : sender :=
  mkSender (request_queue c) (running c) (stored_requests c) (completed_saves c)
    (store_pressure c) (skip_store_requests c) (f (saved_offset c)) (retry_token_ids c)
    (kv_events c) (calls c).
Definition set_retry_token_ids (f : list (string * (Z * list Z)) → list (string * (Z * list Z))) (c : sender) : sender :=
  mkSender (request_queue c) (running c) (stored_requests c) (completed_saves c)
    (store_pressure c) (skip_store_requests c) (saved_offset c) (f (retry_token_ids c))
    (kv_events c) (calls c).
Definition set_kv_events (f : list BlockStored → list BlockStored) (c : sender) : sender :=
  mkSender (request_queue c) (running c) (stored_requests c) (completed_saves c)
    (store_pressure c) (skip_store_requests c) (saved_offset c) (retry_token_ids c) (f
    (kv_events c)) (calls c).
Definition set_calls (f : list call → list call) (c : sender) : sender :=
  mkSender (request_queue c) (running c) (stored_requests c) (completed_saves c)
    (store_pressure c) (skip_store_requests c) (saved_offset c) (retry_token_ids c) (kv_events
    c) (f (calls c)).

Definition init_sender : sender := mkSender [] None [] [] false ∅ [] [] [] [].

Definition log_call (a : call) : sender → sender := set_calls (λ l, l ++ [a]).

(** ** The ledger *)

(** [self.stored_requests.get(req_id, ())] *)
Definition jobs_of (s : sender) (req_id : string) : gset Z := default ∅ (dget (stored_requests s) req_id).

Definition live (m : ReqMeta) (s : sender) : bool :=
  match store_job_id m with
  | Some j => bool_decide (j ∈ jobs_of s (rm_req_id m))
  | None => false
  end.

Definition add_request (m : ReqMeta) (s : sender) : result sender :=
  let? j := of_option AssertionError (store_job_id m) in
  Ok (set_request_queue (λ q, q ++ [m])
        (set_stored_requests (λ d, dset d (rm_req_id m) (jobs_of s (rm_req_id m) ∪ {[j]})) s)).

Definition delete_finished_stored_request (req_id : string) (s : sender) : sender :=
  set_retry_token_ids (λ d, ddel d req_id) (set_saved_offset (λ d, ddel d req_id)
    (set_skip_store_requests (λ k, k ∖ {[req_id]}) (set_stored_requests (λ d, ddel d req_id) s))).

Definition finish_store_job (m : ReqMeta) (s : sender) : result sender :=
  let? j := of_option AssertionError (store_job_id m) in
  let s := match dget (stored_requests s) (rm_req_id m) with
           | Some l => set_stored_requests (λ d, dset d (rm_req_id m) (l ∖ {[j]})) s
           | None => s
           end in
  Ok (set_completed_saves (λ d, dset d j (default 0 (dget d j) + 1)) s).

Definition take_completed_saves (s : sender) : list (Z * Z) * sender :=
  (completed_saves s, set_completed_saves (λ _, []) s).

Definition record_saved (m : ReqMeta) (n : Z) (s : sender) : sender :=
  if live m s then set_saved_offset (λ d, dset d (rm_req_id m) n) s else s.

Definition get_retry_token_ids (m : ReqMeta) (s : sender) : option (Z * list Z) :=
  if live m s then dget (retry_token_ids s) (rm_req_id m) else None.

Definition update_retry_token_ids (m : ReqMeta) (l : locals) (s : sender) : sender :=
  if negb (live m s) then s
  else if save_completed l then set_retry_token_ids (λ d, ddel d (rm_req_id m)) s
  else match event_token_ids l with
       | Some ids => set_retry_token_ids (λ d, dset d (rm_req_id m) (event_start l, ids)) s
       | None => s
       end.

Definition should_skip_request (req_id : string) (s : sender) : bool :=
  store_pressure s && bool_decide (req_id ∈ skip_store_requests s).

(** [_mark_request_skipped_for_pressure], whose result is only logged. *)
Definition mark_request_skipped (m : ReqMeta) (s : sender) : sender :=
  let s := set_store_pressure (λ _, true) s in
  if live m s then set_skip_store_requests (λ k, k ∪ {[rm_req_id m]}) s else s.

(** [_clear_store_pressure]; when there is nothing to clear this changes
    nothing either. *)
Definition clear_store_pressure (s : sender) : sender :=
  set_skip_store_requests (λ _, ∅) (set_store_pressure (λ _, false) s).

Definition update_kv_event (l : list BlockStored) : sender → sender := set_kv_events (λ k, k ++ l).

Definition get_kv_events (s : sender) : list BlockStored * sender :=
  (kv_events s, set_kv_events (λ _, []) s).

Section thread.
Context `{CD : !CeilDiv} `{M : !Managers}.
Context (maybe_convert_block_hash : block_hash → Z) (NULL_BLOCK_ID : Z).

Record sender_config := mkSenderConfig {
  sc_coord : coordinator;
  token_databases : list token_db;
  sc_tp_rank : Z;
  group_put_steps : list Z;
  group_participates : list bool;
  enable_kv_event : bool;
  use_group_ids : bool
}.

Context (c : sender_config).

(** ** Boundary states *)

Definition db_at (g : Z) : result token_db := py_index (token_databases c) g.

(** Whether this rank stores chunk [i] of group [g]. *)
Definition in_put_step (g i : Z) : result bool :=
  let? put_step := py_index (group_put_steps c) g in
  let? r := py_mod (sc_tp_rank c + g) put_step in
  let? k := py_mod i put_step in Ok (k =? r).

Definition snapshot_put (m : ReqMeta) (acc : list put) (e : Z * Z * Z) : result (list put) :=
  let '(g, b, boundary) := e in
  if (boundary =? 0) || (b =? NULL_BLOCK_ID) then Ok acc
  else
    let? q := py_div boundary (hash_block_size (sc_coord c)) in
    let hash_idx := q - 1 in
    if zlen (rm_block_hashes m) <=? hash_idx then Ok acc
    else
      let? db := db_at g in
      let? k := py_div boundary (db_block_size db) in
      let? mine := in_put_step g (k - 1) in
      if negb mine then Ok acc
      else
        let? v := prepare_value_for_block db b in
        let? h := py_index (rm_block_hashes m) hash_idx in
        let? key := db_key_for db h in
        Ok (acc ++ [mkPut key v.1 v.2 (db_metadata db)]).

Definition boundary_snapshot_puts (m : ReqMeta) (entries : list (Z * Z * Z)) : result (list put) :=
  rfold (snapshot_put m) [] entries.

(** The block that backs chunk [i] of group [g] in the partial tail. *)
Definition tail_block (m : ReqMeta) (offloads : list (Z * Z)) (g i valid_end boundary : Z)
    (group_blocks : list Z) : result (option Z) :=
  match dget offloads g with
  | Some b => Ok (if valid_end =? boundary then Some b else None)
  | None =>
      if bool_decide (g ∈ mamba_group_ids (sc_coord c)) then Ok None
      else if i <? zlen group_blocks then let? b := py_index group_blocks i in Ok (Some b)
      else Ok None
  end.

Definition tail_put (m : ReqMeta) (offloads : list (Z * Z)) (boundary g : Z) (db : token_db)
    (group_blocks : list Z) (acc : list put) (i : Z) : result (list put) :=
  let? mine := in_put_step g i in
  if negb mine then Ok acc
  else
    let valid_end := Z.min ((i + 1) * db_block_size db) boundary in
    let? q := py_div valid_end (hash_block_size (sc_coord c)) in
    let? h := py_index (rm_block_hashes m) (q - 1) in
    let? b := tail_block m offloads g i valid_end boundary group_blocks in
    match b with
    | None => Ok acc
    | Some b =>
        if b =? NULL_BLOCK_ID then Ok acc
        else
          let? v := prepare_value_for_block db b in
          let? key := db_key_for db h in
          Ok (acc ++ [mkPut key v.1 v.2 (db_metadata db)])
    end.

Definition tail_group (m : ReqMeta) (offloads : list (Z * Z)) (boundary saved : Z)
    (acc : list put) (e : Z * token_db) : result (list put) :=
  let (g, db) := e in
  let? p := py_index (group_participates c) g in
  if negb p then Ok acc
  else
    let? group_blocks := py_index (rm_block_ids m) g in
    let last_block := cdiv boundary (db_block_size db) - 1 in
    let? first := py_div saved (db_block_size db) in
    let first := Z.min first last_block in
    rfold (tail_put m offloads boundary g db group_blocks) acc
      (seqZ first (last_block + 1 - first)).

Definition sub_block_tail_puts (m : ReqMeta) (entries : list (Z * Z * Z)) (s : sender) :
    result (list put) :=
  match entries with
  | [] => Err (ValueError "Sub-block partial-tail offloads for one request must share a boundary")
  | (_, _, boundary) :: _ =>
      let? _ := raise_if (negb (forallb (λ e : Z * Z * Z, e.2 =? boundary) entries))
        (ValueError "Sub-block partial-tail offloads for one request must share a boundary") in
      if boundary =? 0 then Ok []
      else
      let? q := py_div boundary (hash_block_size (sc_coord c)) in
      if zlen (rm_block_hashes m) <=? q - 1 then Ok []
      else
        let offloads := foldl (λ d (e : Z * Z * Z), dset d e.1.1 e.1.2) [] entries in
        let saved := default 0 (dget (saved_offset s) (rm_req_id m)) in
        rfold (tail_group m offloads boundary saved) [] (enumerate (token_databases c))
  end.

(** Whether an entry is at a block boundary of its group. *)
Definition block_aligned (e : Z * Z * Z) : result bool :=
  let? db := db_at e.1.1 in
  let? r := py_mod e.2 (db_block_size db) in Ok (r =? 0).

Definition boundary_puts (m : ReqMeta) (offloads : list (Z * Z * Z)) (s : sender) :
    result (list put) :=
  let? kinds := rmap (λ e, let? b := block_aligned e in Ok (e, b)) offloads in
  let snapshots := (λ e : Z * Z * Z * bool, e.1) <$> filter (λ e, Is_true e.2) kinds in
  let sub_block := (λ e : Z * Z * Z * bool, e.1) <$> filter (λ e, Is_true (negb e.2)) kinds in
  let? puts := boundary_snapshot_puts m snapshots in
  match sub_block with
  | [] => Ok puts
  | _ => if enable_partial_hash_hits (sc_coord c)
         then let? tail := sub_block_tail_puts m sub_block s in Ok (puts ++ tail)
         else Ok puts
  end.

(** [[i for i, e in enumerate(exists) if e != 1]] *)
Definition missing (l : list Z) : list nat :=
  omap (λ e : nat * Z, if e.2 =? 1 then None else Some e.1) (imap pair l).

Definition failed (l : list Z) : list nat :=
  omap (λ e : nat * Z, if e.2 <? 0 then Some e.1 else None) (imap pair l).

Definition select {A} (l : list A) (ids : list nat) : result (list A) :=
  rmap (λ i, of_option IndexError (l !! i)) ids.

Definition put_group_ids (puts : list put) : option (list string) :=
  if use_group_ids c
  then Some ((λ p, make_mooncake_group_id (p_metadata p) (after_last_at (p_key p))) <$> puts)
  else None.

(** ** The normal save *)

(** The chunks of one group that have a block, with every local shard. *)
Definition chunk_items (m : ReqMeta) (g : Z) (db : token_db) (group_blocks : list Z) (ch : chunk) :
    result (list item) :=
  let? i := py_div (ch_start ch) (db_block_size db) in
  let? available := if zlen group_blocks <=? i then Ok false
                    else let? b := py_index group_blocks i in Ok (negb (b =? NULL_BLOCK_ID)) in
  if negb available then Ok []
  else rmap (λ shard,
    let? key := layout_key_for (db_layout db) shard (ch_hash ch) in
    Ok (mkItem (ch_start ch) (ch_end ch) key g shard (ch_hash ch))) (local_shard_ids (db_layout db)).

Definition group_items (m : ReqMeta) (n save_start : Z) (masks : list (option (list bool)))
    (acc : list item) (e : Z * token_db) : result (list item) :=
  let (g, db) := e in
  let? p := py_index (group_participates c) g in
  if negb p then Ok acc
  else
    let? put_step := py_index (group_put_steps c) g in
    let? r := py_mod (sc_tp_rank c + g) put_step in
    let? group_blocks := py_index (rm_block_ids m) g in
    let? mask := py_index masks g in
    let? chunks := process_tokens (db_block_size db) (db_hash_block_size db) n (rm_block_hashes m)
                     save_start mask put_step r in
    let? l := rmap (chunk_items m g db group_blocks) chunks in
    Ok (acc ++ concat l).

Definition save_plan (m : ReqMeta) (n save_start : Z) : result (list item) :=
  let? masks := store_mask (sc_coord c) n save_start (Some (num_prompt_tokens m)) in
  rfold (group_items m n save_start masks) [] (enumerate (token_databases c)).

(** The addresses and sizes of the plan, group by group. *)
Definition prepare_group (m : ReqMeta) (plan : list item) (acc : list (list Z) * list (list Z))
    (e : Z * token_db) : result (list (list Z) * list (list Z)) :=
  let (g, db) := e in
  match filter (λ x, i_group x = g) plan with
  | [] => Ok acc
  | l =>
      let? blocks := py_index (rm_block_ids m) g in
      let? v := prepare_values (db_layout db) ((λ x, (i_start x, i_end x)) <$> l) blocks
                  (i_shard <$> l) in
      Ok (acc.1 ++ v.1.1, acc.2 ++ v.1.2)
  end.

Definition prepare_plan (m : ReqMeta) (plan : list item) : result (list (list Z) * list (list Z)) :=
  rfold (prepare_group m plan) ([], []) (enumerate (token_databases c)).

Definition item_group_ids (plan : list item) : result (option (list string)) :=
  if use_group_ids c
  then
    let? l := rmap (λ x, let? db := db_at (i_group x) in
                         Ok (make_mooncake_group_id (db_metadata db) (after_last_at (i_key x)))) plan in
    Ok (Some l)
  else Ok None.

(** ** Events

    One event per logical block of the plan, when no shard of it failed. *)
Definition spec_of (x : item) : Z * Z * Z * block_hash := (i_start x, i_end x, i_group x, i_hash x).

Definition event_ok (plan : list item) (failures : list nat) (e : Z * Z * Z * block_hash) : bool :=
  forallb (λ p : nat * item, negb (bool_decide (spec_of p.2 = e) && bool_decide (p.1 ∈ failures)))
    (imap pair plan).

Fixpoint distinct {A} `{EqDecision A} (l : list A) : list A :=
  match l with
  | [] => []
  | x :: l => x :: filter (λ y, y ≠ x) (distinct l)
  end.

Definition event_tokens (l : locals) (s e : Z) : list Z :=
  match event_token_ids l with
  | Some ids => if (event_start l <=? s) && (e <=? event_start l + zlen ids)
                then slice ids (s - event_start l) (e - event_start l) else []
  | None => []
  end.

Definition stored_event (m : ReqMeta) (l : locals) (e : Z * Z * Z * block_hash) : result BlockStored :=
  let '(st, en, g, h) := e in
  let? db := db_at g in
  let? parent := if 0 <? st then
                   let? q := py_div st (db_hash_block_size db) in
                   let? h := py_index (rm_block_hashes m) (q - 1) in
                   Ok (Some (maybe_convert_block_hash h))
                 else Ok None in
  Ok (mkStored (maybe_convert_block_hash h) parent (event_tokens l st en) (db_block_size db) g).

Definition stored_events (m : ReqMeta) (l : locals) (plan : list item) (res : list Z) :
    result (list BlockStored) :=
  rmap (stored_event m l) (filter (λ e, Is_true (event_ok plan (failed res) e)) (distinct (spec_of <$> plan))).

(** ** Handling a job *)

Inductive reply :=
  | NoReply
  | Exists (r : option (list Z))
  | Put (r : option (list Z)).

Definition goto (k : pc) (t : task) : task := mkTask (t_job t) (t_locals t) k.

Definition with_locals (l : locals) (t : task) : task := mkTask (t_job t) l (t_pc t).

Definition after_boundary (t : task) : task :=
  goto (if token_len (t_locals t) =? 0 then KFinally else KSave) t.

(** Continue with the value, or leave through [finally]. *)
Definition try {A} (r : result A) (t : task) (s : sender) (k : A → sender * task) : sender * task :=
  match r with Ok a => k a | Err _ => (s, goto KFinally t) end.

Definition has_no_handle (res : list Z) : bool :=
  existsb (λ v, (v <? 0) && (v =? MOONCAKE_NO_AVAILABLE_HANDLE)) res.

Definition live_step (t : task) (s : sender) : sender * task :=
  let m := t_job t in
  try (py_div (token_len_chunk m) (lcm_block_size (sc_coord c))) t s (λ q,
    let l := mkLocals (save_completed (t_locals t)) (q * lcm_block_size (sc_coord c))
               (event_token_ids (t_locals t)) (event_start (t_locals t)) in
    (s, goto (if negb (live m s) then KFinally else if enable_kv_event c then KRetry else KSkip)
          (with_locals l t))).

Definition retry_step (t : task) (s : sender) : sender * task :=
  let l := t_locals t in
  let l := match get_retry_token_ids (t_job t) s, event_token_ids l with
           | Some (start, ids), Some new =>
               if start + zlen ids =? event_start l
               then mkLocals (save_completed l) (token_len l) (Some (ids ++ new)) start else l
           | _, _ => l
           end in
  (s, goto KSkip (with_locals l t)).

Definition skip_step (t : task) (s : sender) : sender * task :=
  (s, if should_skip_request (rm_req_id (t_job t)) s then goto KFinally t
      else match boundary_state_offloads (t_job t) with
           | Some _ => goto KBoundary t
           | None => after_boundary t
           end).

Definition boundary_step (t : task) (s : sender) : sender * task :=
  let m := t_job t in
  match boundary_state_offloads m, rm_block_hashes m with
  | None, _ | Some [], _ | _, [] => (s, after_boundary t)
  | Some offloads, _ =>
      try (boundary_puts m offloads s) t s (λ puts,
        match puts with
        | [] => (s, after_boundary t)
        | _ => (log_call (CallExists (p_key <$> puts)) s, goto (KBoundaryExists puts) t)
        end)
  end.

Definition boundary_exists_step (puts : list put) (r : list Z) (t : task) (s : sender) :
    sender * task :=
  match missing r with
  | [] => (s, after_boundary t)
  | l => try (select puts l) t s (λ puts,
      (log_call (CallPut (p_key <$> puts) (p_addr <$> puts) (p_size <$> puts) (put_group_ids puts)) s,
       goto (KBoundaryPut puts) t))
  end.

Definition boundary_put_step (r : list Z) (t : task) (s : sender) : sender * task :=
  (s, goto match failed r with
           | [] => KBoundaryClear
           | _ => if has_no_handle r then KBoundaryMark else KFinally
           end t).

Definition save_step (t : task) (s : sender) : sender * task :=
  let m := t_job t in
  try (save_plan m (token_len (t_locals t)) (default 0 (dget (saved_offset s) (rm_req_id m)))) t s
    (λ plan, match plan with
             | [] => (s, goto (KRecord [] false) t)
             | _ => (log_call (CallExists (i_key <$> plan)) s, goto (KExists plan) t)
             end).

Definition exists_step (plan : list item) (r : list Z) (t : task) (s : sender) : sender * task :=
  match missing r with
  | [] => (s, goto (KRecord plan false) t)
  | l =>
      try (if (length l =? length plan)%nat then Ok plan else select plan l) t s (λ plan,
      try (item_group_ids plan) t s (λ groups,
      try (prepare_plan (t_job t) plan) t s (λ v,
        (log_call (CallPut (i_key <$> plan) v.1 v.2 groups) s, goto (KPut plan) t))))
  end.

Definition events_pc (plan : list item) (res : list Z) : pc :=
  if enable_kv_event c then KEvents plan res else KFinally.

Definition put_step (plan : list item) (r : list Z) (t : task) (s : sender) : sender * task :=
  (s, goto match failed r with
           | [] => KRecord plan true
           | _ => if has_no_handle r then KMark plan r else events_pc plan r
           end t).

Definition record_step (plan : list item) (stored : bool) (t : task) (s : sender) : sender * task :=
  let l := t_locals t in
  (record_saved (t_job t) (token_len l) s,
   goto (if stored then KClear plan else KFinally)
     (with_locals (mkLocals true (token_len l) (event_token_ids l) (event_start l)) t)).

Definition events_step (plan : list item) (res : list Z) (t : task) (s : sender) : sender * task :=
  try (stored_events (t_job t) (t_locals t) plan res) t s (λ l, (update_kv_event l s, goto KFinally t)).

Definition finally_step (t : task) (s : sender) : sender * task :=
  (if enable_kv_event c && negb (token_len (t_locals t) =? 0)
   then update_retry_token_ids (t_job t) (t_locals t) s else s, goto KFinish t).

(** One step of the task; [None] when it waits for another answer. *)
Definition task_step (r : reply) (t : task) (s : sender) : option (sender * task) :=
  match t_pc t, r with
  | KLive, NoReply => Some (live_step t s)
  | KRetry, NoReply => Some (retry_step t s)
  | KSkip, NoReply => Some (skip_step t s)
  | KBoundary, NoReply => Some (boundary_step t s)
  | KBoundaryExists puts, Exists (Some r) => Some (boundary_exists_step puts r t s)
  | KBoundaryExists _, Exists None => Some (s, goto KFinally t)
  | KBoundaryPut _, Put (Some r) => Some (boundary_put_step r t s)
  | KBoundaryPut _, Put None => Some (s, goto KFinally t)
  | KBoundaryMark, NoReply => Some (mark_request_skipped (t_job t) s, goto KFinally t)
  | KBoundaryClear, NoReply => Some (clear_store_pressure s, after_boundary t)
  | KSave, NoReply => Some (save_step t s)
  | KExists plan, Exists (Some r) => Some (exists_step plan r t s)
  | KExists _, Exists None => Some (s, goto KFinally t)
  | KPut plan, Put (Some r) => Some (put_step plan r t s)
  | KPut _, Put None => Some (s, goto KFinally t)
  | KMark plan res, NoReply => Some (mark_request_skipped (t_job t) s, goto (events_pc plan res) t)
  | KRecord plan stored, NoReply => Some (record_step plan stored t s)
  | KClear plan, NoReply => Some (clear_store_pressure s, goto (events_pc plan []) t)
  | KEvents plan res, NoReply => Some (events_step plan res t s)
  | KFinally, NoReply => Some (finally_step t s)
  | _, _ => None
  end.

Definition start_task (m : ReqMeta) : task :=
  mkTask m (mkLocals false 0 (rm_token_ids m) (token_ids_start m)) KLive.

(** One step of the thread's loop. *)
Definition thread_step (r : reply) (s : sender) : option sender :=
  match running s with
  | None =>
      match request_queue s, r with
      | m :: q, NoReply => Some (set_request_queue (λ _, q) (set_running (λ _, Some (start_task m)) s))
      | _, _ => None
      end
  | Some t =>
      match t_pc t, r with
      | KFinish, NoReply =>
          match finish_store_job (t_job t) s with
          | Ok s => Some (set_running (λ _, None) s)
          | Err _ => None
          end
      | KFinish, _ => None
      | _, _ => '(s', t') ← task_step r t s; Some (set_running (λ _, Some t') s')
      end
  end.

(** What happens to the thread: its own steps, and the engine thread's calls,
    between any two of them. *)
Inductive sender_event :=
  | EStep (r : reply)
  | EAdd (m : ReqMeta)
  | ERetire (req_id : string)
  | ETake
  | EEvents.

Definition sender_run (e : sender_event) (s : sender) : option sender :=
  match e with
  | EStep r => thread_step r s
  | EAdd m => match add_request m s with Ok s => Some s | Err _ => None end
  | ERetire id => Some (delete_finished_stored_request id s)
  | ETake => Some (take_completed_saves s).2
  | EEvents => Some (get_kv_events s).2
  end.

End thread.
