(* ===== verification/StoreWorkerThms.v ===== *)
(** * Properties of the store's sending thread

    Every job handed to the thread is reported exactly once, whatever the
    store answers; and a rank's resume offset only moves over keys the store
    has confirmed. *)

From S2P Require Import Prelude StoreData StoreThms StoreCoord StoreCoordThms StoreWorker.

(** ** Jobs *)

Definition has_job (j : Z) (m : ReqMeta) : bool := bool_decide (store_job_id m = Some j).

(** How often job [j] is queued, running, or done and not yet collected. *)
Definition outstanding (j : Z) (s : sender) : Z :=
  cnt (has_job j) (request_queue s) +
  match running s with Some t => Z.b2z (has_job j (t_job t)) | None => 0 end +
  reports j (completed_saves s).

#[local] Arguments cnt : simpl never.
#[local] Arguments reports : simpl never.
#[local] Arguments has_job : simpl never.

Section thread.
Context `{CD : !CeilDiv} `{M : !Managers}.
Context (maybe_convert_block_hash : block_hash → Z) (NULL_BLOCK_ID : Z) (c : sender_config).

Abbreviation task_step := (task_step maybe_convert_block_hash NULL_BLOCK_ID c).
Abbreviation thread_step := (thread_step maybe_convert_block_hash NULL_BLOCK_ID c).
Abbreviation sender_run := (sender_run maybe_convert_block_hash NULL_BLOCK_ID c).

(** What a step of the task leaves alone. *)
Record same_ledger (s s' : sender) : Prop := {
  sl_queue : request_queue s' = request_queue s;
  sl_running : running s' = running s;
  sl_stored : stored_requests s' = stored_requests s;
  sl_completed : completed_saves s' = completed_saves s
}.

#[local] Instance same_ledger_refl : Reflexive same_ledger.
Proof. by split. Qed.

(** How far a task is from its end. *)
Definition to_go (k : pc) : nat :=
  match k with
  | KLive => 16 | KRetry => 15 | KSkip => 14 | KBoundary => 13 | KBoundaryExists _ => 12
  | KBoundaryPut _ => 11 | KBoundaryClear => 10 | KSave => 9 | KExists _ => 8 | KPut _ => 7
  | KRecord _ _ => 6 | KClear _ => 5 | KMark _ _ => 5 | KEvents _ _ => 4 | KBoundaryMark => 4
  | KFinally => 3 | KFinish => 2
  end.

(** A step of the task: the ledger and the job stay, and the end is nearer. *)
Definition advances (t : task) (s : sender) (r : sender * task) : Prop :=
  same_ledger s r.1 ∧ t_job r.2 = t_job t ∧ (to_go (t_pc r.2) < to_go (t_pc t))%nat.

Lemma try_advances {A} (x : result A) t s k :
  (3 < to_go (t_pc t))%nat → (∀ a, advances t s (k a)) → advances t s (try x t s k).
Proof. intros Ht Hk. destruct x; [apply Hk|]. split_and!; [done|done|exact Ht]. Qed.

Lemma after_boundary_go t : (to_go (t_pc (after_boundary t)) ≤ 9)%nat.
Proof. unfold after_boundary. cbn. case_match; cbn; lia. Qed.

Lemma boundary_advances t s : (9 < to_go (t_pc t))%nat → advances t s (s, after_boundary t).
Proof.
  intros Ht. split_and!; [done|done|]. assert (Ha := after_boundary_go t). cbn [snd]. lia.
Qed.

Lemma goto_advances t s s' k :
  same_ledger s s' → (to_go k < to_go (t_pc t))%nat → advances t s (s', goto k t).
Proof. intros Hs Hk. by split_and!. Qed.

(** Steps that only change the state outside the ledger. *)
Lemma same_setter s s' :
  request_queue s' = request_queue s → running s' = running s →
  stored_requests s' = stored_requests s → completed_saves s' = completed_saves s → same_ledger s s'.
Proof. by split. Qed.

Lemma same_record m n s : same_ledger s (record_saved m n s).
Proof. unfold record_saved. by destruct (live m s). Qed.

Lemma same_mark m s : same_ledger s (mark_request_skipped m s).
Proof. unfold mark_request_skipped. by destruct (live m _). Qed.

Lemma same_retry m l s : same_ledger s (update_retry_token_ids m l s).
Proof.
  unfold update_retry_token_ids. destruct (live m s); [|done].
  destruct (save_completed l); [done|]. by destruct (event_token_ids l).
Qed.

Lemma events_pc_go plan res : (to_go (events_pc c plan res) ≤ 4)%nat.
Proof. unfold events_pc. case_match; cbn; lia. Qed.

Lemma boundary_step_advances t s : t_pc t = KBoundary → advances t s (boundary_step NULL_BLOCK_ID c t s).
Proof.
  intros Ht. assert (H : (9 < to_go (t_pc t))%nat) by (rewrite Ht; cbn; lia).
  assert (Hb := boundary_advances t s H). unfold boundary_step.
  destruct (boundary_state_offloads (t_job t)) as [[|e l]|]; try exact Hb.
  destruct (rm_block_hashes (t_job t)); [exact Hb|]. apply try_advances; [lia|].
  intros [|p puts]; [exact Hb|]. apply goto_advances; [done|rewrite Ht; cbn; lia].
Qed.

Lemma boundary_exists_advances puts r t s :
  t_pc t = KBoundaryExists puts → advances t s (boundary_exists_step c puts r t s).
Proof.
  intros Ht. unfold boundary_exists_step. destruct (missing r).
  - apply boundary_advances. rewrite Ht. cbn. lia.
  - apply try_advances; [rewrite Ht; cbn; lia|]. intros puts'.
    apply goto_advances; [done|rewrite Ht; cbn; lia].
Qed.

Lemma exists_step_advances plan r t s : t_pc t = KExists plan → advances t s (exists_step c plan r t s).
Proof.
  intros Ht. unfold exists_step. destruct (missing r).
  - apply goto_advances; [done|rewrite Ht; cbn; lia].
  - do 3 (apply try_advances; [rewrite Ht; cbn; lia|intros ?]).
    apply goto_advances; [done|rewrite Ht; cbn; lia].
Qed.

Lemma task_step_advances r t s x : task_step r t s = Some x → advances t s x.
Proof.
  destruct (t_pc t) eqn:Ht; unfold StoreWorker.task_step; rewrite Ht; destruct r as [|[r|]|[r|]]; try done;
    intros [= <-]; try (apply goto_advances; [done|rewrite Ht; cbn; lia]).
  - apply try_advances; [rewrite Ht; cbn; lia|]. intros q.
    split_and!; [done|done|]. rewrite Ht. cbn. repeat case_match; cbn; lia.
  - split_and!; [done|done|rewrite Ht; cbn; lia].
  - unfold skip_step. destruct (should_skip_request _ _); [apply goto_advances; [done|rewrite Ht; cbn; lia]|].
    destruct (boundary_state_offloads _); [apply goto_advances; [done|rewrite Ht; cbn; lia]|].
    apply boundary_advances. rewrite Ht. cbn. lia.
  - by apply boundary_step_advances.
  - by apply boundary_exists_advances.
  - apply goto_advances; [done|]. rewrite Ht. repeat case_match; cbn; lia.
  - apply goto_advances; [apply same_mark|rewrite Ht; cbn; lia].
  - split_and!; [done|done|]. assert (Ha := after_boundary_go t). rewrite Ht. cbn [snd to_go]. lia.
  - apply try_advances; [rewrite Ht; cbn; lia|]. intros [|x plan];
      (apply goto_advances; [done|rewrite Ht; cbn; lia]).
  - by apply exists_step_advances.
  - apply goto_advances; [done|]. assert (Ha := events_pc_go plan r). rewrite Ht.
    repeat case_match; cbn [to_go] in *; lia.
  - apply goto_advances; [apply same_mark|]. assert (Ha := events_pc_go plan res). rewrite Ht. cbn [to_go]. lia.
  - split_and!; [apply same_record|done|]. rewrite Ht. cbn. case_match; cbn; lia.
  - split_and!; [done|done|]. assert (Ha := events_pc_go plan []). rewrite Ht. cbn [snd t_pc goto to_go]. lia.
  - apply try_advances; [rewrite Ht; cbn; lia|]. intros l. apply goto_advances; [done|rewrite Ht; cbn; lia].
  - apply goto_advances; [|rewrite Ht; cbn; lia]. case_match; [apply same_retry|done].
Qed.

(** ** The ledger of jobs *)

Lemma outstanding_ledger j s s' :
  same_ledger s s' → outstanding j s' = outstanding j s.
Proof. intros [H1 H2 _ H4]. unfold outstanding. by rewrite H1, H2, H4. Qed.

Lemma finish_ok m s s' :
  finish_store_job m s = Ok s' → ∃ j, store_job_id m = Some j ∧ request_queue s' = request_queue s ∧
    running s' = running s ∧ completed_saves s' = dset (completed_saves s) j (default 0 (dget (completed_saves s) j) + 1).
Proof.
  unfold finish_store_job. intros (j & Hj%of_option_Ok & H)%rbind_Ok. apply Ok_inj in H as <-.
  exists j. split; [done|]. by case_match.
Qed.

(** A step of the thread: it takes a job from the queue, advances its task, or
    ends it with a report. *)
Inductive stepped (r : reply) (s s' : sender) : Prop :=
  | st_start m q :
      running s = None → request_queue s = m :: q → s' = set_request_queue (λ _, q) (set_running (λ _, Some (start_task m)) s) →
      stepped r s s'
  | st_task t t' s1 :
      running s = Some t → task_step r t s = Some (s1, t') → s' = set_running (λ _, Some t') s1 → stepped r s s'
  | st_finish t s1 :
      running s = Some t → t_pc t = KFinish → finish_store_job (t_job t) s = Ok s1 →
      s' = set_running (λ _, None) s1 → stepped r s s'.

Lemma thread_stepped r s s' : thread_step r s = Some s' → stepped r s s'.
Proof.
  unfold StoreWorker.thread_step. destruct (running s) as [t|] eqn:Hr.
  - assert (t_pc t = KFinish ∨ t_pc t ≠ KFinish) as [Hk|Hk]
      by (destruct (t_pc t); try (right; done); by left).
    + rewrite Hk. destruct r; try done. destruct (finish_store_job _ _) as [s1|] eqn:Hf; [|done].
      intros [= <-]. by eapply st_finish.
    + intros H. assert (H' : (task_step r t s ≫= λ '(s', t'), Some (set_running (λ _, Some t') s')) = Some s')
        by (destruct (t_pc t); done).
      apply bind_Some in H' as ([s1 t'] & Ht & [= <-]). by eapply st_task.
  - destruct (request_queue s) as [|m q] eqn:Hq; [done|]. destruct r; try done. intros [= <-]. by eapply st_start.
Qed.

Lemma outstanding_stepped j r s s' : stepped r s s' → outstanding j s' = outstanding j s.
Proof.
  intros [m q Hr Hq ->|t t' s1 Hr Ht ->|t s1 Hr _ Hf ->]; unfold outstanding.
  - cbn. rewrite Hr, Hq, cnt_cons. lia.
  - apply task_step_advances in Ht as ([H1 _ _ H4] & Hj & _). cbn in H1, H4, Hj |- *.
    by rewrite H1, H4, Hr, Hj.
  - apply finish_ok in Hf as (j' & Hj & H1 & _ & H3). cbn. rewrite H1, H3, Hr, reports_bump.
    unfold has_job. rewrite Hj. destruct (Z.eqb_spec j' j) as [->|Hne].
    + rewrite bool_decide_true by done. cbn. lia.
    + rewrite bool_decide_false by congruence. cbn. lia.
Qed.

Lemma outstanding_run j e s s' :
  sender_run e s = Some s' →
  outstanding j s' = outstanding j s +
    match e with
    | EAdd m => Z.b2z (has_job j m)
    | ETake => - reports j (completed_saves s)
    | _ => 0
    end.
Proof.
  destruct e as [r|m|id| |]; cbn.
  - intros H%thread_stepped. rewrite (outstanding_stepped j _ _ _ H). lia.
  - unfold add_request. destruct (of_option _ _); [|done]. intros [= <-]. unfold outstanding. cbn.
    rewrite cnt_app, cnt_cons. change (cnt (has_job j) []) with 0. lia.
  - intros [= <-]. unfold outstanding. cbn. lia.
  - intros [= <-]. unfold outstanding. cbn. change (reports j []) with 0. lia.
  - intros [= <-]. unfold outstanding. cbn. lia.
Qed.

(** ** The queue drains *)

Definition jobs_ok (s : sender) : Prop :=
  Forall (λ m, is_Some (store_job_id m)) (request_queue s) ∧
  match running s with Some t => is_Some (store_job_id (t_job t)) | None => True end.

Definition idle (s : sender) : Prop := request_queue s = [] ∧ running s = None.

Definition reply_for (oracle : sender → option (list Z)) (s : sender) : reply :=
  match running s with
  | Some t =>
      match t_pc t with
      | KBoundaryExists _ | KExists _ => Exists (oracle s)
      | KBoundaryPut _ | KPut _ => Put (oracle s)
      | _ => NoReply
      end
  | None => NoReply
  end.

(** The thread left alone with a store that answers by [oracle]. *)
Fixpoint drive (oracle : sender → option (list Z)) (fuel : nat) (s : sender) : sender :=
  match fuel with
  | O => s
  | S fuel => match thread_step (reply_for oracle s) s with
              | Some s' => drive oracle fuel s'
              | None => s
              end
  end.

Definition work (s : sender) : nat :=
  17 * length (request_queue s) + match running s with Some t => to_go (t_pc t) | None => 0 end.

Lemma stepped_work r s s' : stepped r s s' → jobs_ok s → (work s' < work s)%nat ∧ jobs_ok s'.
Proof.
  intros [m q Hr Hq ->|t t' s1 Hr Ht ->|t s1 Hr Hk Hf ->] [H1 H2]; unfold work, jobs_ok; cbn.
  - rewrite Hr, Hq in *. cbn. split; [lia|]. inversion H1. done.
  - apply task_step_advances in Ht as ([G1 _ _ _] & Hj & Hg). cbn in G1, Hj, Hg.
    rewrite G1, Hr, Hj in *. split; [lia|done].
  - apply finish_ok in Hf as (j & _ & G1 & _). rewrite G1, Hr, Hk in *. cbn. split; [lia|done].
Qed.

Lemma thread_progress oracle s : jobs_ok s → ¬ idle s → is_Some (thread_step (reply_for oracle s) s).
Proof.
  intros [H1 H2] Hi. destruct (running s) as [t|] eqn:Hr.
  - assert (Hs : t_pc t ≠ KFinish → is_Some (task_step (reply_for oracle s) t s)).
    { unfold reply_for, StoreWorker.task_step. rewrite Hr. intros Hk.
      destruct (t_pc t); try destruct (oracle s); eauto; done. }
    unfold StoreWorker.thread_step. rewrite Hr. destruct (t_pc t) eqn:Hk;
      try (destruct Hs as [[s' t'] Hx]; [done|]; rewrite Hx; cbn; eauto).
    unfold reply_for. rewrite Hr, Hk. destruct H2 as [j Hj]. unfold finish_store_job. rewrite Hj. cbn. eauto.
  - unfold StoreWorker.thread_step, reply_for. rewrite Hr. destruct (request_queue s) eqn:Hq; [|eauto].
    exfalso. by apply Hi.
Qed.

Lemma drive_idle oracle fuel s :
  jobs_ok s → (work s ≤ fuel)%nat →
  idle (drive oracle fuel s) ∧ ∀ j, outstanding j (drive oracle fuel s) = outstanding j s.
Proof.
  revert s. induction fuel as [|fuel IH]; intros s Hok Hw; cbn.
  - split; [|done]. unfold work in Hw. split; [destruct (request_queue s); [done|cbn in Hw; lia]|].
    destruct (running s) as [t|]; [|done]. destruct (t_pc t); cbn in Hw; lia.
  - destruct (thread_step _ s) as [s'|] eqn:E.
    + apply thread_stepped in E. destruct (stepped_work _ _ _ E Hok) as [Hw' Hok'].
      destruct (IH s' Hok' ltac:(lia)) as [Hi Ho]. split; [done|]. intros j.
      by rewrite Ho, (outstanding_stepped j _ _ _ E).
    + split; [|done]. destruct (request_queue s) eqn:Hq, (running s) eqn:Hr.
      all: try (destruct (thread_progress oracle s Hok) as [x Hx];
                [intros [Q R]; congruence|congruence]).
      by split.
Qed.

(** ** Executions

    The jobs added, the reports collected, and the keys of normal saves that
    the store confirmed: present, or put without an error. Jobs are new, and
    the store answers one value per key. *)

Definition confirmed_keys (ok : Z → bool) (plan : list item) (r : list Z) : list string :=
  omap (λ e : item * Z, if ok e.2 then Some (i_key e.1) else None) (zip plan r).

Definition confirms (e : sender_event) (s : sender) : list string :=
  match e, running s with
  | EStep (Exists (Some r)), Some t =>
      match t_pc t with KExists plan => confirmed_keys (λ v, v =? 1) plan r | _ => [] end
  | EStep (Put (Some r)), Some t =>
      match t_pc t with KPut plan => confirmed_keys (λ v, negb (v <? 0)) plan r | _ => [] end
  | _, _ => []
  end.

Definition fitting (e : sender_event) (s : sender) : bool :=
  match e, running s with
  | EStep (Exists (Some r)), Some t =>
      match t_pc t with KExists plan => (length r =? length plan)%nat | _ => true end
  | EStep (Put (Some r)), Some t =>
      match t_pc t with KPut plan => (length r =? length plan)%nat | _ => true end
  | _, _ => true
  end.

Definition adds (e : sender_event) : list ReqMeta := match e with EAdd m => [m] | _ => [] end.

Definition takes (e : sender_event) (s : sender) : list (Z * Z) :=
  match e with ETake => completed_saves s | _ => [] end.

Definition fresh_job (added : list ReqMeta) (e : sender_event) : bool :=
  match e with EAdd m => negb (bool_decide (store_job_id m ∈ store_job_id <$> added)) | _ => true end.

Inductive sender_exec : list ReqMeta → list (Z * Z) → list string → sender → Prop :=
  | exec_init : sender_exec [] [] [] init_sender
  | exec_event added taken conf s e s' :
      sender_exec added taken conf s → fresh_job added e = true → fitting e s = true →
      sender_run e s = Some s' →
      sender_exec (added ++ adds e) (taken ++ takes e s) (conf ++ confirms e s) s'.

Lemma jobs_ok_run e s s' : jobs_ok s → sender_run e s = Some s' → jobs_ok s'.
Proof.
  destruct e as [r|m|id| |]; cbn.
  - intros Hok H%thread_stepped. by eapply stepped_work.
  - intros [H1 H2]. unfold add_request. destruct (store_job_id m) as [j|] eqn:Hj; [|done]. intros [= <-].
    split; [|done]. cbn. apply Forall_app. split; [done|]. by apply Forall_singleton.
  - by intros H [= <-].
  - by intros H [= <-].
  - by intros H [= <-].
Qed.

Lemma exec_ledger added taken conf s :
  sender_exec added taken conf s →
  jobs_ok s ∧ ∀ j, outstanding j s + reports j taken = cnt (has_job j) added.
Proof.
  induction 1 as [|added taken conf s e s' _ [IH1 IH2] _ _ Hrun].
  - split; [by split; [constructor|]|done].
  - split; [by eapply jobs_ok_run|]. intros j.
    rewrite (outstanding_run j _ _ _ Hrun), reports_app, cnt_app, <- IH2.
    destruct e; cbn [adds takes]; rewrite ?cnt_cons; change (cnt (has_job j) []) with 0;
      change (reports j []) with 0; lia.
Qed.

(** ** The resume offset *)

Definition offset (m : ReqMeta) (s : sender) : Z := default 0 (dget (saved_offset s) (rm_req_id m)).

Definition covered (t : task) (s : sender) (conf : list string) (P : item → Prop) : Prop :=
  ∃ plan, save_plan NULL_BLOCK_ID c (t_job t) (token_len (t_locals t)) (offset (t_job t) s) = Ok plan ∧
    ∀ x, x ∈ plan → P x ∨ i_key x ∈ conf.

Definition plan_ok (t : task) (s : sender) (conf : list string) : Prop :=
  match t_pc t with
  | KExists plan => save_plan NULL_BLOCK_ID c (t_job t) (token_len (t_locals t)) (offset (t_job t) s) = Ok plan
  | KPut plan => covered t s conf (.∈ plan)
  | KRecord _ _ => covered t s conf (λ _, False)
  | _ => True
  end.

Record offsets_ok (added : list ReqMeta) (conf : list string) (s : sender) : Prop := {
  oo_queue : ∀ m, m ∈ request_queue s → m ∈ added;
  oo_running : ∀ t, running s = Some t → t_job t ∈ added ∧ (live (t_job t) s = true → plan_ok t s conf)
}.

Lemma missing_spec r i : i ∈ missing r ↔ ∃ v, r !! i = Some v ∧ v ≠ 1.
Proof.
  unfold missing. rewrite list_elem_of_omap. split.
  - intros ([k v] & Hin & H). apply list_elem_of_lookup in Hin as [n Hn].
    rewrite list_lookup_imap in Hn. destruct (r !! n) eqn:Hr; [|done]. injection Hn as -> ->.
    cbn in H. destruct (Z.eqb_spec v 1); [done|]. injection H as <-. by exists v.
  - intros (v & Hr & Hv). exists (i, v). split.
    + apply list_elem_of_lookup. exists i. by rewrite list_lookup_imap, Hr.
    + cbn. by destruct (Z.eqb_spec v 1).
Qed.

Lemma failed_nil r i v : failed r = [] → r !! i = Some v → ¬ v < 0.
Proof.
  intros Hf Hr Hv. assert (Hin : i ∈ failed r); [|rewrite Hf in Hin; set_solver].
  unfold failed. apply list_elem_of_omap. exists (i, v). split.
  - apply list_elem_of_lookup. exists i. by rewrite list_lookup_imap, Hr.
  - cbn. by rewrite (proj2 (Z.ltb_lt v 0)).
Qed.

Lemma confirmed_elem ok plan r i x v :
  plan !! i = Some x → r !! i = Some v → ok v = true → i_key x ∈ confirmed_keys ok plan r.
Proof.
  intros Hx Hr Hv. unfold confirmed_keys. apply list_elem_of_omap. exists (x, v). split.
  - apply list_elem_of_lookup. exists i. apply lookup_zip_Some. done.
  - cbn. by rewrite Hv.
Qed.

Lemma reply_at {A} (plan : list A) (r : list Z) i x :
  length r = length plan → plan !! i = Some x → ∃ v, r !! i = Some v.
Proof. intros Hl Hx. apply lookup_lt_is_Some_2. rewrite Hl. by eapply lookup_lt_Some. Qed.

(** After the store said what exists, the rest of the plan is put. *)
Lemma exists_covers plan plan' r x :
  length r = length plan →
  (if (length (missing r) =? length plan)%nat then Ok plan else select plan (missing r)) = Ok plan' →
  x ∈ plan → x ∈ plan' ∨ i_key x ∈ confirmed_keys (λ v, v =? 1) plan r.
Proof.
  intros Hl H Hx. destruct (_ =? _)%nat; [apply Ok_inj in H as ->; by left|].
  apply list_elem_of_lookup in Hx as [i Hi]. destruct (reply_at _ _ _ _ Hl Hi) as [v Hv].
  destruct (decide (v = 1)) as [->|Hne]; [right; by eapply confirmed_elem|left].
  assert (Hm : i ∈ missing r) by (apply missing_spec; eauto).
  apply rmap_Ok in H. apply list_elem_of_lookup in Hm as [k Hk].
  destruct (Forall2_lookup_l _ _ _ _ _ H Hk) as (y & Hy & E%of_option_Ok).
  rewrite Hi in E. injection E as ->. by eapply list_elem_of_lookup_2.
Qed.

(** Only the normal save's steps lead to a state with a plan. *)
Definition has_plan (k : pc) : bool :=
  match k with KExists _ | KPut _ | KRecord _ _ => true | _ => false end.

Lemma no_plan_ok t s conf : has_plan (t_pc t) = false → plan_ok t s conf.
Proof. unfold plan_ok. by destruct (t_pc t). Qed.

Lemma try_cases {A} (P : sender * task → Prop) (x : result A) t s k :
  P (s, goto KFinally t) → (∀ a, x = Ok a → P (k a)) → P (try x t s k).
Proof. destruct x; cbn; auto. Qed.

Lemma step_no_plan r t s x :
  task_step r t s = Some x → match t_pc t with KSave | KExists _ | KPut _ => False | _ => True end →
  has_plan (t_pc x.2) = false.
Proof.
  intros H Hk. unfold StoreWorker.task_step in H.
  assert (Ha : has_plan (t_pc (after_boundary t)) = false) by (unfold after_boundary; by destruct (token_len _ =? 0)).
  assert (He : ∀ plan res, has_plan (events_pc c plan res) = false) by (intros; unfold events_pc; by destruct (enable_kv_event c)).
  destruct (t_pc t) eqn:Ht; try done; destruct r as [|[r|]|[r|]]; try done; injection H as <-; try done.
  - apply (try_cases (λ x, has_plan (t_pc x.2) = false)); [done|]. intros q _. cbn.
    destruct (live _ _); [|done]. by destruct (enable_kv_event c).
  - unfold skip_step. cbn. destruct (should_skip_request _ _); [done|]. destruct (boundary_state_offloads _); [done|exact Ha].
  - unfold boundary_step. destruct (boundary_state_offloads _) as [[|o l]|]; [exact Ha| |exact Ha].
    destruct (rm_block_hashes _); [exact Ha|]. apply (try_cases (λ x, has_plan (t_pc x.2) = false)); [done|]. by intros [|p puts] _.
  - unfold boundary_exists_step. destruct (missing r); [exact Ha|]. by apply (try_cases (λ x, has_plan (t_pc x.2) = false)).
  - cbn. destruct (failed r); [done|]. by destruct (has_no_handle r).
  - apply He.
  - cbn. by destruct stored.
  - apply He.
  - apply (try_cases (λ x, has_plan (t_pc x.2) = false)); done.
Qed.

Lemma step_offset r t s x :
  task_step r t s = Some x →
  saved_offset x.1 = saved_offset s ∨
  (∃ plan stored, t_pc t = KRecord plan stored) ∧ live (t_job t) s = true ∧
  saved_offset x.1 = dset (saved_offset s) (rm_req_id (t_job t)) (token_len (t_locals t)).
Proof.
  intros H. unfold StoreWorker.task_step in H.
  assert (Ht : ∀ A (y : result A) k, (∀ a, saved_offset (k a).1 = saved_offset s) →
    saved_offset (try y t s k).1 = saved_offset s) by (intros A [a|e] k Hk; cbn; auto).
  destruct (t_pc t) eqn:Hk; destruct r as [|[r|]|[r|]]; try done; injection H as <-; try by left.
  - left. by apply Ht.
  - left. unfold boundary_step. destruct (boundary_state_offloads _) as [[|o l]|]; [done| |done].
    destruct (rm_block_hashes _); [done|]. apply Ht. by intros [|p puts].
  - left. unfold boundary_exists_step. destruct (missing r); [done|]. by apply Ht.
  - left. cbn. unfold mark_request_skipped. by case_match.
  - left. apply Ht. intros a. by case_match.
  - left. unfold exists_step. case_match; [done|]. do 3 (apply Ht; intros). done.
  - left. cbn. unfold mark_request_skipped. by case_match.
  - cbn. unfold record_saved. destruct (live (t_job t) s); [right|by left]. split; [eauto|done].
  - left. by apply Ht.
  - left. cbn. case_match; [|done]. unfold update_retry_token_ids. by repeat case_match.
Qed.

Lemma plan_step r t s s' t' conf :
  task_step r t s = Some (s', t') → running s = Some t → fitting (EStep r) s = true →
  plan_ok t s conf → plan_ok t' s' (conf ++ confirms (EStep r) s).
Proof.
  intros H Hr Hfit Hp. assert (Hpc : has_plan (t_pc t') = false ∨ match t_pc t with KSave | KExists _ | KPut _ => True | _ => False end).
  { assert (Hn := step_no_plan _ _ _ _ H). destruct (t_pc t); auto. }
  destruct Hpc as [Hpc|Hpc]; [by apply no_plan_ok|].
  unfold StoreWorker.task_step in H. unfold fitting, confirms in *. rewrite Hr in *. unfold plan_ok in Hp.
  destruct (t_pc t) as [| | | | | | | | |plan|plan| | | | | |] eqn:Hk; try done; destruct r as [|[r|]|[r|]]; try done;
    apply (inj Some) in H; try (injection H as <- <-; by apply no_plan_ok).
  - revert H. unfold save_step, try. destruct (save_plan _ _ _ _ _) as [plan|] eqn:Es.
    2:{ intros [= <- <-]. by apply no_plan_ok. }
    destruct plan as [|x plan]; intros [= <- <-]; unfold plan_ok; cbn.
    + exists []. split; [exact Es|]. set_solver.
    + exact Es.
  - apply Nat.eqb_eq in Hfit. revert H. unfold exists_step. destruct (missing r) as [|k ks] eqn:Em.
    + intros [= <- <-]. exists plan. split; [exact Hp|]. intros x Hx. right. apply elem_of_app. right.
      destruct (exists_covers plan [] r x Hfit) as [[]%elem_of_nil|]; [|done|done].
      rewrite Em. by destruct plan; [set_solver|].
    + rewrite <- Em. unfold try at 1. destruct (if (_ =? _)%nat then _ else _) as [plan'|] eqn:Es.
      2:{ intros [= <- <-]. by apply no_plan_ok. }
      unfold try. destruct (item_group_ids c plan'); [|intros [= <- <-]; by apply no_plan_ok].
      destruct (prepare_plan c (t_job t) plan'); [|intros [= <- <-]; by apply no_plan_ok].
      intros [= <- <-]. exists plan. split; [exact Hp|]. intros x Hx.
      destruct (exists_covers _ _ _ _ Hfit Es Hx); [by left|right; set_solver].
  - apply Nat.eqb_eq in Hfit. cbn in H. injection H as <- <-. destruct (failed r) eqn:Ef.
    + destruct Hp as (P & HP & Hc). exists P. split; [exact HP|]. intros x [Hx|Hx]%Hc; right; [|set_solver].
      apply list_elem_of_lookup in Hx as [i Hi]. destruct (reply_at _ _ _ _ Hfit Hi) as [v Hv].
      apply elem_of_app. right. eapply confirmed_elem; [done..|]. apply negb_true_iff, Z.ltb_ge.
      assert (Hn := failed_nil _ _ _ Ef Hv). lia.
    + apply no_plan_ok. cbn. unfold events_pc. by repeat case_match.
Qed.

Lemma live_stored m s s' : stored_requests s' = stored_requests s → live m s' = live m s.
Proof. intros E. unfold live, jobs_of. by rewrite E. Qed.

Lemma live_add m m' s s' :
  add_request m' s = Ok s' → store_job_id m ≠ store_job_id m' → live m s' = true → live m s = true.
Proof.
  unfold add_request. destruct (store_job_id m') as [j'|]; [|done]. intros [= <-] Hne.
  unfold live, jobs_of. cbn. destruct (store_job_id m) as [j|]; [|done].
  destruct (decide (rm_req_id m = rm_req_id m')) as [E|E].
  - rewrite E, dget_dset_eq. cbn. rewrite !bool_decide_eq_true. set_solver.
  - by rewrite dget_dset_ne.
Qed.

Lemma live_retire m id s :
  live m (delete_finished_stored_request id s) = true →
  live m s = true ∧ offset m (delete_finished_stored_request id s) = offset m s.
Proof.
  unfold live, jobs_of, offset. destruct (store_job_id m) as [j|]; [|done].
  change (stored_requests (delete_finished_stored_request id s)) with (ddel (stored_requests s) id).
  change (saved_offset (delete_finished_stored_request id s)) with (ddel (saved_offset s) id).
  destruct (decide (rm_req_id m = id)) as [<-|Hne].
  - rewrite dget_ddel_eq. cbn. rewrite bool_decide_eq_true. set_solver.
  - by rewrite !dget_ddel_ne by done.
Qed.

Lemma plan_ok_offset t s s' conf : offset (t_job t) s' = offset (t_job t) s → plan_ok t s conf → plan_ok t s' conf.
Proof. unfold plan_ok, covered. by intros ->. Qed.

Lemma exec_offsets added taken conf s : sender_exec added taken conf s → offsets_ok added conf s.
Proof.
  induction 1 as [|added taken conf s e s' _ [IH1 IH2] Hfresh Hfit Hrun].
  { split; [by intros m ?%elem_of_nil|by intros t [=]]. }
  destruct e as [r|m|id| |]; cbn [adds]; rewrite ?app_nil_r; cbn in Hrun.
  - assert (Hs := thread_stepped _ _ _ Hrun). destruct Hs as [m q Hr Hq ->|t t' s1 Hr Ht' ->|t s1 Hr Hk Hf ->].
    + split; cbn; [intros; apply IH1; rewrite Hq; set_solver|]. intros t [= <-]. split; [|done].
      apply IH1. rewrite Hq. cbn. set_solver.
    + destruct (task_step_advances _ _ _ _ Ht') as ([G1 G2 G3 G4] & Hj & _). cbn in G1, G2, G3, G4, Hj.
      destruct (IH2 _ Hr) as [Hin Hp]. split; cbn.
      * intros m. rewrite G1. apply IH1.
      * intros t2 [= <-]. rewrite Hj. split; [done|]. intros Hl.
        apply (plan_ok_offset _ s1); [done|]. eapply plan_step; [exact Ht'|done|exact Hfit|].
        apply Hp. by rewrite <- (live_stored _ s s1).
    + apply finish_ok in Hf as (j & _ & G1 & _). split; cbn; [intros m; rewrite G1; apply IH1|done].
  - destruct (add_request m s) as [s1|] eqn:Ha; [|done]. injection Hrun as <-. assert (Ha' := Ha).
    unfold add_request in Ha'. destruct (store_job_id m) as [j|] eqn:Hj; [|done]. injection Ha' as <-. split; cbn.
    + intros m'. rewrite !elem_of_app, !list_elem_of_singleton. intros [H| ->]; auto.
    + intros t Hr. destruct (IH2 _ Hr) as [Hin Hp]. split; [set_solver|]. intros Hl.
      apply Hp. eapply live_add; [exact Ha| |exact Hl]. rewrite Hj. intros E.
      apply negb_true_iff, bool_decide_eq_false in Hfresh. apply Hfresh. rewrite Hj, <- E.
      by apply list_elem_of_fmap_2.
  - injection Hrun as <-. split; cbn; [exact IH1|]. intros t Hr. destruct (IH2 _ Hr) as [Hin Hp].
    split; [done|]. intros [Hl Ho]%live_retire. eapply plan_ok_offset; [exact Ho|auto].
  - injection Hrun as <-. split; cbn; [exact IH1|exact IH2].
  - injection Hrun as <-. split; cbn; [exact IH1|exact IH2].
Qed.

End thread.

(** ** An execution

    One full-attention group of 4-token blocks; a job saves two blocks, the
    first of which the store has already. *)

#[local] Existing Instance ex_managers.

Definition ex_spec : KVCacheSpec := mkSpec FullAttentionSpec 4 0.

Definition ex_save_coord : coordinator :=
  mkCoord [mkGroupSpec (Single ex_spec) true 4 false] ∅ 4 4 false None [] ∅.

Definition ex_key_metadata : KeyMetadata := mkKeyMetadata "model" 0 0 0 0 0 "" "".

Definition ex_layout : StoreLayout :=
  RankLocal (set_regions [1000] [64] (rank_local ex_key_metadata 4 4)).

Definition ex_sender_config : sender_config :=
  mkSenderConfig ex_save_coord [mkDb ex_key_metadata 4 4 ex_layout] 0 [1] [true] false false.

Definition ex_job (j : Z) : ReqMeta :=
  mkReqMeta "r" 8 [[5; 6]] [[10]; [11]] true None None 0 8 (Some j) None.

Definition ex_step (e : sender_event)
    (x : option (list ReqMeta * list (Z * Z) * list string * sender)) :
    option (list ReqMeta * list (Z * Z) * list string * sender) :=
  '(added, taken, conf, s) ← x;
  if fresh_job added e && fitting e s then
    s' ← sender_run (λ _, 0) 0 ex_sender_config e s;
    Some (added ++ adds e, taken ++ takes e s, conf ++ confirms e s, s')
  else None.

Definition ex_run (es : list sender_event) : option (list ReqMeta * list (Z * Z) * list string * sender) :=
  foldr ex_step (Some ([], [], [], init_sender)) (rev es).

Lemma ex_run_exec es added taken conf s :
  ex_run es = Some (added, taken, conf, s) →
  sender_exec (λ _, 0) 0 ex_sender_config added taken conf s.
Proof.
  unfold ex_run. generalize (rev es) as l. intros l. revert added taken conf s.
  induction l as [|e l IH]; cbn [foldr]; intros added taken conf s H; [injection H as <- <- <- <-; constructor|].
  unfold ex_step at 1 in H. destruct (foldr _ _ _) as [[[[a t] k] s0]|]; [|done]. cbn in H.
  destruct (fresh_job a e) eqn:E1; [|done]. destruct (fitting e s0) eqn:E2; [|done]. cbn in H.
  apply bind_Some in H as (s1 & Hs & [= <- <- <- <-]). eapply exec_event; [by apply IH|done..].
Qed.

Definition ex_save_events : list sender_event :=
  [EAdd (ex_job 0); EStep NoReply; EStep NoReply; EStep NoReply; EStep NoReply; EStep (Exists (Some [1; 0]));
   EStep (Put (Some [0]))].

Definition ex_at (es : list sender_event) : list ReqMeta * list (Z * Z) * list string * sender :=
  default ([], [], [], init_sender) (ex_run es).

Lemma ex_at_exec es : is_Some (ex_run es) →
  sender_exec (λ _, 0) 0 ex_sender_config (ex_at es).1.1.1 (ex_at es).1.1.2 (ex_at es).1.2 (ex_at es).2.
Proof. unfold ex_at. intros [[[[added taken] conf] s] E]. rewrite E. exact (ex_run_exec es _ _ _ _ E). Qed.

(** ** The properties *)

(** C18 (liveness): in every execution, once the thread is left alone it works
    off its queue within a bounded number of steps, whatever the store answers
    or raises, and every job ever added has been reported exactly as often as
    it was added. *)
Theorem store_jobs_reported `{CD : !CeilDiv} `{M : !Managers} (conv : block_hash → Z)
    (NULL_BLOCK_ID : Z) (c : sender_config) (oracle : sender → option (list Z))
    (added : list ReqMeta) (taken : list (Z * Z)) (conf : list string) (s : sender) :
  sender_exec conv NULL_BLOCK_ID c added taken conf s →
  let s' := drive conv NULL_BLOCK_ID c oracle (work s) s in
  idle s' ∧ ∀ j, reports j (completed_saves s') + reports j taken = cnt (has_job j) added.
Proof.
  intros [Hok Hled]%exec_ledger. destruct (drive_idle conv NULL_BLOCK_ID c oracle (work s) s Hok) as [Hi Ho]; [lia|].
  split; [done|]. intros j. rewrite <- Hled, <- Ho. destruct Hi as [Q R]. unfold outstanding. rewrite Q, R.
  change (cnt (has_job j) []) with 0. lia.
Qed.

Lemma store_jobs_reported_witness :
  let s := (ex_at (ex_save_events ++ [EAdd (ex_job 1)])).2 in
  let s' := drive (λ _, 0) 0 ex_sender_config (λ _, None) (work s) s in
  idle s' ∧ reports 0 (completed_saves s') + 0 = 1 ∧ reports 1 (completed_saves s') + 0 = 1.
Proof.
  destruct (store_jobs_reported _ _ _ (λ _, None) _ _ _ _ (ex_at_exec (ex_save_events ++ [EAdd (ex_job 1)])
    ltac:(vm_compute; eauto))) as [Hi Hr].
  split; [exact Hi|]. split; [exact (Hr 0)|exact (Hr 1)].
Defined.

(** (safety): when a request's resume offset moves, it is a live job that
    moves it, to the end of its save, and the store has confirmed every key of
    the save from the previous offset to there. *)
Theorem offset_confirmed `{CD : !CeilDiv} `{M : !Managers} (conv : block_hash → Z)
    (NULL_BLOCK_ID : Z) (c : sender_config) (added : list ReqMeta) (taken : list (Z * Z))
    (conf : list string) (s : sender) (r : reply) (s' : sender) (req_id : string) :
  sender_exec conv NULL_BLOCK_ID c added taken conf s →
  thread_step conv NULL_BLOCK_ID c r s = Some s' →
  dget (saved_offset s') req_id ≠ dget (saved_offset s) req_id →
  ∃ m n plan, m ∈ added ∧ rm_req_id m = req_id ∧ live m s = true ∧
    dget (saved_offset s') req_id = Some n ∧
    save_plan NULL_BLOCK_ID c m n (default 0 (dget (saved_offset s) req_id)) = Ok plan ∧
    ∀ x, x ∈ plan → i_key x ∈ conf.
Proof.
  intros [_ IH]%exec_offsets Hs%thread_stepped Hne.
  destruct Hs as [m q Hr Hq ->|t t' s1 Hr Ht' ->|t s1 Hr Hk Hf ->]; [done| |].
  - cbn in Hne |- *. destruct (step_offset _ _ _ _ _ _ _ Ht') as [E|(Hk & Hl & E)]; cbn in E; [congruence|].
    destruct (IH _ Hr) as [Hin Hp]. destruct Hk as (pl & stored & Hk). specialize (Hp Hl).
    unfold plan_ok in Hp. rewrite Hk in Hp. destruct Hp as (plan & HP & Hc).
    assert (req_id = rm_req_id (t_job t)) as ->.
    { destruct (decide (req_id = rm_req_id (t_job t))); [done|]. rewrite E, dget_dset_ne in Hne; done. }
    exists (t_job t), (token_len (t_locals t)), plan. split_and!; [done..| |exact HP|].
    + by rewrite E, dget_dset_eq.
    + intros x Hx. by destruct (Hc x Hx).
  - cbn in Hne. exfalso. apply Hne. unfold finish_store_job in Hf. destruct (store_job_id _); [|done].
    injection Hf as <-. by case_match.
Qed.

Lemma offset_confirmed_witness :
  dget (saved_offset (ex_at (ex_save_events ++ [EStep NoReply])).2) "r" = Some 8 ∧
  ∃ m n plan, m ∈ [ex_job 0] ∧ save_plan 0 ex_sender_config m n 0 = Ok plan ∧
    ∀ x, x ∈ plan → i_key x ∈ (ex_at ex_save_events).1.2.
Proof.
  split; [by vm_compute|].
  destruct (offset_confirmed (λ _, 0) 0 ex_sender_config _ _ _ _ NoReply
    (ex_at (ex_save_events ++ [EStep NoReply])).2 "r" (ex_at_exec ex_save_events ltac:(vm_compute; eauto)))
    as (m & n & plan & Hm & _ & _ & _ & HP & Hc);
    [vm_compute; reflexivity|vm_compute; discriminate|].
  exists m, n, plan. exact (conj Hm (conj HP Hc)).
Defined.
