(* ===== verification/StoreLoad.v ===== *)
(** * The Mooncake store: the worker's receiving threads

    [mooncake/store/worker.py], class [KVCacheStoreRecvingThread] and the
    helpers that plan a load. The threads of a rank share one request queue; a
    load is a plan of one or more GET batches, then a task that waits for the
    store's answer to each batch. As in [StoreWorker], one step is the code up
    to the next lock or call to the store. *)

From S2P Require Import Prelude PyData StoreData StoreCoord StoreWorker.

(** ** Staging budget *)

Definition DIRECT_IO_ALIGNMENT : Z := 4096.
Definition DIRECT_IO_PADDING_BYTES : Z := 2 * DIRECT_IO_ALIGNMENT.
Definition DEFAULT_MOONCAKE_DISK_STAGING_BUFFER_BYTES : Z := 1280 * 1024 * 1024.

Definition align_up (value alignment : Z) : Z := (value + alignment - 1) / alignment * alignment.

Definition estimate_staging_bytes (size_list : list Z) : Z :=
  align_up (sumZ size_list) DIRECT_IO_ALIGNMENT + DIRECT_IO_PADDING_BYTES.

(** [ratio] is [envs.VLLM_MOONCAKE_DISK_STAGING_USABLE_RATIO]; [int] of an
    infinity or a NaN raises. *)
Definition usable_budget (ratio : float) (raw_budget_bytes : Z) : result Z :=
  let? n := of_option OverflowError (F.trunc (F.mul (F.of_Z raw_budget_bytes) ratio)) in
  Ok (Z.max 1 n).

(** ** Splitting a load *)

Record batch := mkBatch {
  b_keys : list string;
  b_addrs : list (list Z);
  b_sizes : list (list Z)
}.

Record split_state := mkSplit {
  batches : list batch;
  current : batch;
  batch_bytes : Z
}.

Definition flush (st : split_state) : split_state :=
  match b_keys (current st) with
  | [] => st
  | _ => mkSplit (batches st ++ [current st]) (mkBatch [] [] []) 0
  end.

Definition push_key (key : string) (addr size : list Z) (n : Z) (st : split_state) : split_state :=
  let b := current st in
  mkSplit (batches st)
    (mkBatch (b_keys b ++ [key]) (b_addrs b ++ [addr]) (b_sizes b ++ [size])) (batch_bytes st + n).

Definition push_alone (key : string) (addr size : list Z) (st : split_state) : split_state :=
  let st := flush st in
  mkSplit (batches st ++ [mkBatch [key] [addr] [size]]) (current st) (batch_bytes st).

Definition flush_full (usable n : Z) (st : split_state) : split_state :=
  match b_keys (current st) with
  | [] => st
  | _ => if usable <? batch_bytes st + n then flush st else st
  end.

(** The loop over [zip(keys, addrs, sizes, strict=True)]. *)
Fixpoint split_loop (usable raw : Z) (st : split_state) (keys : list string)
    (addrs sizes : list (list Z)) : result (list batch * option string) :=
  match keys, addrs, sizes with
  | [], [], [] => Ok (batches (flush st), None)
  | key :: keys, addr :: addrs, size :: sizes =>
      let n := estimate_staging_bytes size in
      if raw <? n then Ok ([], Some key)
      else if usable <? n then split_loop usable raw (push_alone key addr size st) keys addrs sizes
      else split_loop usable raw (push_key key addr size n (flush_full usable n st)) keys addrs sizes
  | _, _, _ => Err (ValueError "zip() arguments have different lengths")
  end.

Definition split_disk_offload_load_batches (keys : list string) (addrs sizes : list (list Z))
    (usable raw : Z) : result (list batch * option string) :=
  split_loop usable raw (mkSplit [] (mkBatch [] [] []) 0) keys addrs sizes.

Definition rotate_list {A} (l : list A) (offset : nat) : list A := drop offset l ++ take offset l.

(** ** The plan *)

(** The parallel lists [key_list], [addr_list], [size_list], [block_id_list]. *)
Record load_lists := mkLists {
  key_list : list string;
  addr_list : list (list Z);
  size_list : list (list Z);
  block_id_list : list Z
}.

(** One element of [load_batches]. *)
Record load_batch := mkLoad { lb_batch : batch; lb_blocks : list Z }.

Inductive load_plan :=
  | Oversized (block_ids : list Z)
  | Batches (l : list load_batch).

Section loader.
Context `{CD : !CeilDiv} `{M : !Managers}.

(** [budget]: the usable and the raw staging budget, if the store offloads to
    disk. *)
Record load_config := mkLoadConfig {
  lc_coord : coordinator;
  lc_databases : list token_db;
  lc_block_size : Z;
  lc_tp_rank : Z;
  lc_participates : list bool;
  budget : option (Z * Z)
}.

Context (c : load_config).

(** [mask_num] of a request, and its load spec. *)
Definition load_start (m : ReqMeta) : result (LoadSpec * Z) :=
  let? spec := of_option AttributeError (rm_load_spec m) in
  let? q := py_div (vllm_cached_tokens spec) (lc_block_size c) in
  Ok (spec, q * lc_block_size c).

Definition boundaries_of (spec : LoadSpec) : list (Z * Z) :=
  foldl (λ d b, dset d (tb_group_id b) (tb_num_tokens b)) [] (ls_boundaries spec).

(** The keys, the spans and the shards that one chunk adds. *)
Definition load_chunk (m : ReqMeta) (spec : LoadSpec) (g : Z) (db : token_db) (mask : list bool)
    (acc : list (string * (Z * Z) * Z)) (ch : chunk) : result (list (string * (Z * Z) * Z)) :=
  let? i := py_div (ch_start ch) (db_block_size db) in
  let? wanted := if zlen mask <=? i then Ok false else py_index mask i in
  if negb wanted then Ok acc
  else
    let boundary := if ch_end ch =? ls_token_len spec then dget (boundaries_of spec) g else None in
    let? h := match boundary with
              | Some n => let? q := py_div n (db_hash_block_size db) in
                          py_index (rm_block_hashes m) (q - 1)
              | None => Ok (ch_hash ch)
              end in
    let? l := rmap (λ shard, let? key := layout_key_for (db_layout db) shard h in
                             Ok (key, (ch_start ch, ch_end ch), shard)) (local_shard_ids (db_layout db)) in
    Ok (acc ++ l).

Definition load_group (m : ReqMeta) (spec : LoadSpec) (mask_num : Z) (masks : list (list bool))
    (acc : load_lists) (e : Z * token_db) : result load_lists :=
  let (g, db) := e in
  let? p := py_index (lc_participates c) g in
  if negb p then Ok acc
  else
    let? mask := py_index masks g in
    let? chunks := process_tokens (db_block_size db) (db_hash_block_size db) (ls_token_len spec)
                     (rm_block_hashes m) mask_num None 1 0 in
    let? l := rfold (load_chunk m spec g db mask) [] chunks in
    let? blocks := py_index (rm_block_ids m) g in
    let? v := prepare_values (db_layout db) ((λ x : string * (Z * Z) * Z, x.1.2) <$> l) blocks l.*2 in
    Ok (mkLists (key_list acc ++ ((λ x : string * (Z * Z) * Z, x.1.1) <$> l)) (addr_list acc ++ v.1.1)
          (size_list acc ++ v.1.2) (block_id_list acc ++ v.2)).

Definition rotate_lists (l : load_lists) : result load_lists :=
  let? k := py_mod (lc_tp_rank c) (zlen (key_list l)) in
  let k := Z.to_nat k in
  Ok (mkLists (rotate_list (key_list l) k) (rotate_list (addr_list l) k) (rotate_list (size_list l) k)
        (rotate_list (block_id_list l) k)).

(** Give every batch the next block ids. *)
Fixpoint attach_blocks (offset : nat) (l : list batch) (block_ids : list Z) : list load_batch :=
  match l with
  | [] => []
  | b :: l => mkLoad b (take (length (b_keys b)) (drop offset block_ids)) ::
              attach_blocks (offset + length (b_keys b)) l block_ids
  end.

Definition whole (l : load_lists) : load_plan :=
  Batches [mkLoad (mkBatch (key_list l) (addr_list l) (size_list l)) (block_id_list l)].

Definition plan_batches (l : load_lists) : result load_plan :=
  match budget c with
  | None => Ok (whole l)
  | Some (usable, raw) =>
      if usable <? sumZ (estimate_staging_bytes <$> size_list l) then
        let? r := split_disk_offload_load_batches (key_list l) (addr_list l) (size_list l) usable raw in
        Ok match r.2 with
           | Some _ => Oversized (block_id_list l)
           | None => Batches (attach_blocks 0 r.1 (block_id_list l))
           end
      else Ok (whole l)
  end.

(** The four lists of the request; the [option] is [load_mask]'s fuel. *)
Definition gather_load (m : ReqMeta) : option (result load_lists) :=
  match load_start m with
  | Err e => Some (Err e)
  | Ok (spec, mask_num) =>
      r ← load_mask (lc_coord c) (rm_block_hashes m) (ls_token_len spec);
      Some (let? masks := (r : result (list (list bool))) in
            rfold (load_group m spec mask_num masks) (mkLists [] [] [] []) (enumerate (lc_databases c)))
  end.

Definition plan_load (m : ReqMeta) : option (result load_plan) :=
  r ← gather_load m;
  Some (let? l := (r : result load_lists) in let? l := rotate_lists l in plan_batches l).

(** ** The threads *)

(** Where the task stands; [LFail] is about to record load errors. *)
Inductive lpc :=
  | LPlan
  | LGet (b : load_batch) (rest : list load_batch)
  | LFail (block_ids : list Z)
  | LFinish.

Record load_task := mkLoadTask { lt_job : ReqMeta; lt_pc : lpc }.

Record loader := mkLoader {
  loading : option load_task;
  finished_requests : gset string;
  invalid_block_ids : gset Z
}.

(** The threads of a rank and their queue. *)
Record loaders := mkLoaders {
  recv_request_queue : list ReqMeta;
  kv_recv_threads : list loader
}.

Definition init_loaders (num_recv_threads : Z) : loaders :=
  mkLoaders [] (replicate (Z.to_nat (Z.max 1 num_recv_threads)) (mkLoader None ∅ ∅)).

Definition next_batch (l : list load_batch) : lpc :=
  match l with b :: rest => LGet b rest | [] => LFinish end.

(** The blocks of the keys the store failed to load. *)
Definition failed_blocks (res blocks : list Z) : list Z :=
  omap (λ e : Z * Z, if e.1 <? 0 then Some e.2 else None) (zip res blocks).

(** The answer to a batch; [None] after an exception of the store. The strict
    [zip] raises on lists of different lengths. *)
Definition got (b : load_batch) (rest : list load_batch) (r : option (list Z)) : lpc :=
  match r with
  | None => LFail (lb_blocks b)
  | Some res =>
      if negb ((length res =? length (b_keys (lb_batch b)))%nat &&
               (length (lb_blocks b) =? length (b_keys (lb_batch b)))%nat)
      then LFail (lb_blocks b)
      else match failed_blocks res (lb_blocks b) with
           | [] => next_batch rest
           | l => LFail l
           end
  end.

Definition at_lpc (k : lpc) (t : load_task) (s : loader) : loader :=
  mkLoader (Some (mkLoadTask (lt_job t) k)) (finished_requests s) (invalid_block_ids s).

(** One step of a thread with a task. The answer [r] is for a pending batch
    only. An exception of the plan is logged by [run], which drops the request. *)
Definition load_step (r : option (option (list Z))) (t : load_task) (s : loader) : option loader :=
  match lt_pc t, r with
  | LPlan, None =>
      p ← plan_load (lt_job t);
      Some match (p : result load_plan) with
           | Err _ => mkLoader None (finished_requests s) (invalid_block_ids s)
           | Ok (Oversized ids) => at_lpc (LFail ids) t s
           | Ok (Batches l) => at_lpc (next_batch l) t s
           end
  | LGet b rest, Some r => Some (at_lpc (got b rest r) t s)
  | LFail ids, None =>
      Some (mkLoader (Some (mkLoadTask (lt_job t) LFinish)) (finished_requests s)
              (invalid_block_ids s ∪ list_to_set ids))
  | LFinish, None =>
      Some (mkLoader None (finished_requests s ∪ {[rm_req_id (lt_job t)]}) (invalid_block_ids s))
  | _, _ => None
  end.

Definition set_thread (i : nat) (l : loader) (s : loaders) : loaders :=
  mkLoaders (recv_request_queue s) (<[i := l]> (kv_recv_threads s)).

Definition get_and_clear_finished_requests (l : loader) : gset string * loader :=
  (finished_requests l, mkLoader (loading l) ∅ (invalid_block_ids l)).

Definition get_and_clear_load_errors (l : loader) : gset Z * loader :=
  (invalid_block_ids l, mkLoader (loading l) (finished_requests l) ∅).

(** What happens: a step of a thread, a request queued by [start_load_kv], and
    the engine thread collecting the results of one thread. *)
Inductive load_event :=
  | LStep (i : nat) (r : option (option (list Z)))
  | LPut (m : ReqMeta)
  | LFinished (i : nat)
  | LErrors (i : nat).

Definition load_run (e : load_event) (s : loaders) : option loaders :=
  match e with
  | LPut m => Some (mkLoaders (recv_request_queue s ++ [m]) (kv_recv_threads s))
  | LStep i r =>
      l ← kv_recv_threads s !! i;
      match loading l, recv_request_queue s, r with
      | Some t, _, _ => l' ← load_step r t l; Some (set_thread i l' s)
      | None, m :: q, None =>
          Some (set_thread i (mkLoader (Some (mkLoadTask m LPlan)) (finished_requests l)
                  (invalid_block_ids l)) (mkLoaders q (kv_recv_threads s)))
      | None, _, _ => None
      end
  | LFinished i => l ← kv_recv_threads s !! i; Some (set_thread i (get_and_clear_finished_requests l).2 s)
  | LErrors i => l ← kv_recv_threads s !! i; Some (set_thread i (get_and_clear_load_errors l).2 s)
  end.

End loader.
