(* ===== verification/StoreLoadThms.v ===== *)
(** * Properties of the store's receiving threads

    A load that is split into batches loses no key and keeps its budgets; a
    request that is reported as loaded has all its keys or a recorded load
    error; every planned load is reported; and what the threads do not report. *)

From S2P Require Import Prelude StoreData StoreThms StoreCoord StoreCoordThms StoreWorker StoreLoad.

(** ** Splitting *)

Definition batch_bytes_of (b : batch) : Z := sumZ (estimate_staging_bytes <$> b_sizes b).

(** A batch of a split: parallel, not empty, and within the usable budget
    unless it is a single key, which is within the raw budget. *)
Record batch_ok (usable raw : Z) (b : batch) : Prop := {
  bo_addrs : length (b_addrs b) = length (b_keys b);
  bo_sizes : length (b_sizes b) = length (b_keys b);
  bo_keys : b_keys b ≠ [];
  bo_fits : batch_bytes_of b ≤ usable ∨ (length (b_keys b) = 1%nat ∧ batch_bytes_of b ≤ raw)
}.

Definition keys_of (st : split_state) : list string := concat (b_keys <$> batches st) ++ b_keys (current st).
Definition addrs_of (st : split_state) : list (list Z) := concat (b_addrs <$> batches st) ++ b_addrs (current st).
Definition sizes_of (st : split_state) : list (list Z) := concat (b_sizes <$> batches st) ++ b_sizes (current st).

Section split.
Context (usable raw : Z).

(** The loop's invariant. *)
Record split_ok (st : split_state) : Prop := {
  so_batches : Forall (batch_ok usable raw) (batches st);
  so_addrs : length (b_addrs (current st)) = length (b_keys (current st));
  so_sizes : length (b_sizes (current st)) = length (b_keys (current st));
  so_bytes : batch_bytes st = batch_bytes_of (current st);
  so_fits : b_keys (current st) ≠ [] → batch_bytes st ≤ usable
}.

Lemma flush_ok st : split_ok st → split_ok (flush st) ∧ b_keys (current (flush st)) = [] ∧
  keys_of (flush st) = keys_of st ∧ addrs_of (flush st) = addrs_of st ∧ sizes_of (flush st) = sizes_of st.
Proof.
  intros Hs. unfold flush. destruct (b_keys (current st)) eqn:E; [by split_and!|].
  destruct Hs as [H1 H2 H3 H4 H5]. split; [split; cbn; try done|].
  - apply Forall_app. split; [done|]. constructor; [|done].
    split; [done|done|congruence|left; rewrite <- H4; apply H5; congruence].
  - split; [done|]. unfold keys_of, addrs_of, sizes_of. cbn.
    by rewrite !fmap_app, !concat_app, !app_nil_r; cbn; rewrite !app_nil_r.
Qed.

Lemma current_empty st : split_ok st → b_keys (current st) = [] → current st = mkBatch [] [] [].
Proof.
  intros [_ H2 H3 _ _] E. rewrite E in *. destruct (current st) as [k a z]. cbn in *. subst.
  apply nil_length_inv in H2, H3. by subst.
Qed.

Lemma push_alone_ok key addr size st :
  split_ok st → estimate_staging_bytes size ≤ raw →
  split_ok (push_alone key addr size st) ∧ keys_of (push_alone key addr size st) = keys_of st ++ [key] ∧
  addrs_of (push_alone key addr size st) = addrs_of st ++ [addr] ∧
  sizes_of (push_alone key addr size st) = sizes_of st ++ [size].
Proof.
  intros (Hs & E & Hk & Ha & Hz)%flush_ok Hraw. rewrite <- Hk, <- Ha, <- Hz. unfold push_alone.
  assert (Ec := current_empty _ Hs E). destruct Hs as [H1 H2 H3 H4 H5].
  split; [split; try done|].
  - apply Forall_app. split; [done|]. constructor; [|done]. split; [done|done|done|].
    right. split; [done|]. unfold batch_bytes_of. cbn. lia.
  - unfold keys_of, addrs_of, sizes_of. cbn. rewrite !Ec. cbn.
    by rewrite !fmap_app, !concat_app, !app_nil_r.
Qed.

Lemma flush_full_ok n st : split_ok st → split_ok (flush_full usable n st) ∧
  (b_keys (current (flush_full usable n st)) ≠ [] → batch_bytes (flush_full usable n st) + n ≤ usable) ∧
  keys_of (flush_full usable n st) = keys_of st ∧ addrs_of (flush_full usable n st) = addrs_of st ∧
  sizes_of (flush_full usable n st) = sizes_of st.
Proof.
  intros Hs. unfold flush_full. destruct (b_keys (current st)) eqn:E; [by split_and!|].
  destruct (Z.ltb_spec usable (batch_bytes st + n)); [|by split_and!].
  destruct (flush_ok st Hs) as (Hf & Ef & Hk). split_and!; [done|by rewrite Ef|apply Hk..].
Qed.

Lemma push_key_ok key addr size n st :
  n = estimate_staging_bytes size → n ≤ usable →
  split_ok st → (b_keys (current st) ≠ [] → batch_bytes st + n ≤ usable) →
  split_ok (push_key key addr size n st) ∧ keys_of (push_key key addr size n st) = keys_of st ++ [key] ∧
  addrs_of (push_key key addr size n st) = addrs_of st ++ [addr] ∧
  sizes_of (push_key key addr size n st) = sizes_of st ++ [size].
Proof.
  intros Hn Hle Hs Hfit. assert (Hc := current_empty st Hs). destruct Hs as [H1 H2 H3 H4 H5].
  split; [split; try done|].
  - cbn. rewrite !length_app, H2. done.
  - cbn. rewrite !length_app, H3. done.
  - unfold batch_bytes_of. cbn. rewrite fmap_app, sumZ_app. cbn. rewrite H4. unfold batch_bytes_of. lia.
  - intros _. cbn. destruct (b_keys (current st)) eqn:E; [|by apply Hfit].
    rewrite H4, Hc by done.
    cbn [set_thread recv_request_queue kv_recv_threads fmap list_fmap sum_list]. cbn. lia.
  - unfold keys_of, addrs_of, sizes_of. cbn. by rewrite !app_assoc.
Qed.

(** What the loop returns from a state, on parallel lists. *)
Lemma split_loop_ok keys addrs sizes st :
  split_ok st → length addrs = length keys → length sizes = length keys →
  ∃ bs o, split_loop usable raw st keys addrs sizes = Ok (bs, o) ∧
    match o with
    | Some key => bs = [] ∧ ∃ i size, keys !! i = Some key ∧ sizes !! i = Some size ∧
        raw < estimate_staging_bytes size
    | None => Forall (batch_ok usable raw) bs ∧ Forall (λ size, estimate_staging_bytes size ≤ raw) sizes ∧
        concat (b_keys <$> bs) = keys_of st ++ keys ∧ concat (b_addrs <$> bs) = addrs_of st ++ addrs ∧
        concat (b_sizes <$> bs) = sizes_of st ++ sizes
    end.
Proof.
  revert addrs sizes st. induction keys as [|key keys IH]; intros addrs sizes st Hs Ha Hz.
  - apply nil_length_inv in Ha, Hz. subst. cbn. eexists _, None. split; [done|].
    destruct (flush_ok st Hs) as (Hf & Ef & <- & <- & <-). rewrite !app_nil_r.
    unfold keys_of, addrs_of, sizes_of. assert (Ec := current_empty _ Hf Ef). rewrite !Ec. cbn.
    rewrite !app_nil_r. split_and!; [apply Hf|done..].
  - destruct addrs as [|addr addrs], sizes as [|size sizes]; try done. cbn. set (n := estimate_staging_bytes size).
    destruct (Z.ltb_spec raw n) as [Hr|Hr].
    { eexists _, _. split; [done|]. split; [done|]. exists 0%nat, size. done. }
    assert (Hnext : ∃ st', split_ok st' ∧ keys_of st' = keys_of st ++ [key] ∧ addrs_of st' = addrs_of st ++ [addr] ∧
      sizes_of st' = sizes_of st ++ [size] ∧
      (if usable <? n then split_loop usable raw (push_alone key addr size st) keys addrs sizes
       else split_loop usable raw (push_key key addr size n (flush_full usable n st)) keys addrs sizes) =
      split_loop usable raw st' keys addrs sizes).
    { destruct (Z.ltb_spec usable n).
      - eexists. destruct (push_alone_ok key addr size st Hs Hr) as (? & ? & ? & ?). by split_and!.
      - exists (push_key key addr size n (flush_full usable n st)). destruct (flush_full_ok n st Hs) as (Hf & Hb & <- & <- & <-).
        destruct (push_key_ok key addr size n _ eq_refl ltac:(lia) Hf Hb) as (? & ? & ? & ?). by split_and!. }
    destruct Hnext as (st' & Hs' & Ek & Ea & Ez & ->).
    destruct (IH addrs sizes st' Hs' ltac:(cbn in *; lia) ltac:(cbn in *; lia)) as (bs & o & H & Ho).
    exists bs, o. split; [done|]. destruct o as [k|].
    + destruct Ho as (-> & i & z & Hk & Hi & Hlt). split; [done|]. by exists (S i), z.
    + destruct Ho as (H1 & H2 & -> & -> & ->). rewrite Ek, Ea, Ez, <- !app_assoc. split_and!; [done| |done..].
      by constructor.
Qed.

Lemma init_split_ok : split_ok (mkSplit [] (mkBatch [] [] []) 0).
Proof. by split. Qed.

End split.

(** ** Plans *)

Lemma rmap_lengths {A B} (f : A → result B) l bs n : length l = n → rmap f l = Ok bs → length bs = n.
Proof. intros <-. apply rmap_length. Qed.

Lemma prepare_values_lengths l chunks block_ids shard_ids v :
  prepare_values l chunks block_ids shard_ids = Ok v →
  length v.1.1 = length chunks ∧ length v.1.2 = length chunks ∧ length v.2 = length chunks.
Proof.
  destruct l as [l|l]; cbn.
  - unfold rank_local_prepare. destruct chunks as [|ch chunks]; [by intros [= <-]|].
    generalize (ch :: chunks) as cs. intros cs H. inv_ok. cbn.
    rewrite !length_fmap, length_zip_with.
    repeat match goal with H : rmap _ _ = Ok _ |- _ => apply rmap_length in H end.
    unfold chunk_blocks in *. repeat match goal with H : rmap _ _ = Ok _ |- _ => apply rmap_length in H end.
    rewrite !length_fmap in *. lia.
  - unfold sharded_prepare. destruct chunks as [|ch chunks]; [by intros [= <-]|].
    generalize (ch :: chunks) as cs. intros cs H. apply rbind_Ok in H as (u & Hn & H).
    apply raise_if_Ok, negb_false_iff, Z.eqb_eq in Hn. inv_ok. cbn.
    unfold chunk_blocks, zlen in *. repeat match goal with H : rmap _ _ = Ok _ |- _ => apply rmap_length in H end.
    rewrite !length_fmap, length_zip_with in *. lia.
Qed.

(** The four lists are parallel. *)
Definition parallel (l : load_lists) : Prop :=
  length (addr_list l) = length (key_list l) ∧ length (size_list l) = length (key_list l) ∧
  length (block_id_list l) = length (key_list l).

(** The batches of a plan: none empty, a block for each key. *)
Definition plan_ok (p : load_plan) : Prop :=
  match p with
  | Oversized ids => ids ≠ []
  | Batches l => l ≠ [] ∧ Forall (λ b, b_keys (lb_batch b) ≠ [] ∧
      length (lb_blocks b) = length (b_keys (lb_batch b))) l
  end.

#[local] Arguments zlen : simpl never.

Section thread.
Context `{CD : !CeilDiv} `{M : !Managers} (c : load_config).

Abbreviation plan_load := (plan_load c).
Abbreviation load_run := (load_run c).
Abbreviation load_step := (load_step c).

Lemma load_group_parallel m spec n masks acc e acc' :
  parallel acc → load_group c m spec n masks acc e = Ok acc' → parallel acc'.
Proof.
  intros (H1 & H2 & H3) H. destruct e as [g db]. cbn in H. apply rbind_Ok in H as (p & _ & H).
  destruct p; cbn in H; [|by apply Ok_inj in H as <-].
  apply rbind_Ok in H as (mask & _ & (chunks & _ & (l & _ & (blocks & _ & (v & Hv & H)%rbind_Ok)%rbind_Ok)%rbind_Ok)%rbind_Ok).
  apply Ok_inj in H as <-. apply prepare_values_lengths in Hv as (L1 & L2 & L3).
  unfold parallel. cbn. rewrite !length_app, !length_fmap in *. lia.
Qed.

Lemma gather_parallel m l : gather_load c m = Some (Ok l) → parallel l.
Proof.
  unfold gather_load. destruct (load_start c m) as [[spec n]|]; [|done].
  intros (r & _ & [= H])%bind_Some. apply rbind_Ok in H as (masks & _ & H).
  revert H. apply rfold_ind; [|done]. intros. by eapply load_group_parallel.
Qed.

Lemma length_rotate {A} (l : list A) k : length (rotate_list l k) = length l.
Proof. unfold rotate_list. rewrite length_app, length_take, length_drop. lia. Qed.

Lemma rotate_parallel l l' : parallel l → rotate_lists c l = Ok l' → parallel l' ∧ key_list l' ≠ [].
Proof.
  unfold rotate_lists. intros (H1 & H2 & H3) (k & Hk & H)%rbind_Ok. apply Ok_inj in H as <-.
  apply py_mod_Ok in Hk as [Hk _]. unfold parallel. cbn. rewrite !length_rotate. split; [done|].
  intros E%(f_equal length). rewrite length_rotate in E. unfold zlen in Hk. cbn in E. lia.
Qed.

Lemma attach_ok off l ids :
  Forall (λ b, b_keys b ≠ []) l →
  (off + length (concat (b_keys <$> l)) ≤ length ids)%nat →
  Forall (λ b, b_keys (lb_batch b) ≠ [] ∧ length (lb_blocks b) = length (b_keys (lb_batch b)))
    (attach_blocks off l ids).
Proof.
  revert off. induction l as [|b l IH]; intros off Hl Hlen; [constructor|]. inversion Hl as [|? ? Hb Hl']. subst.
  cbn in *. rewrite length_app in Hlen. constructor; [|apply IH; [done|lia]]. cbn. split; [done|].
  rewrite length_take, length_drop. lia.
Qed.

Lemma plan_batches_ok l p : parallel l → key_list l ≠ [] → plan_batches c l = Ok p → plan_ok p.
Proof.
  intros (H1 & H2 & H3) Hk H.
  assert (Hw : plan_ok (whole l)) by (cbn; repeat constructor; done).
  assert (Hb : block_id_list l ≠ []) by (destruct (block_id_list l), (key_list l); done).
  unfold plan_batches in H. destruct (budget c) as [[usable raw]|]; [|by apply Ok_inj in H as <-].
  destruct (usable <? _); [|by apply Ok_inj in H as <-].
  destruct (split_loop_ok usable raw _ _ _ _ (init_split_ok usable raw) H1 H2) as (bs & o & E & Ho).
  unfold split_disk_offload_load_batches in H. rewrite E in H. cbn in H. apply Ok_inj in H as <-.
  destruct o as [k|]; [done|]. destruct Ho as (Hok & _ & Hc & _). cbn in Hc. split.
  - destruct bs; [|done]. cbn in Hc. by rewrite <- Hc in Hk.
  - apply attach_ok; [|rewrite Hc; lia]. eapply Forall_impl; [exact Hok|]. by intros b [].
Qed.

Lemma plan_load_ok m p : plan_load m = Some (Ok p) → plan_ok p.
Proof.
  unfold StoreLoad.plan_load. intros ([l|] & Hl & H)%bind_Some; [|done]. cbn in H. apply (inj Some) in H.
  apply rbind_Ok in H as (l' & Hr & H). apply gather_parallel in Hl.
  destruct (rotate_parallel _ _ Hl Hr). by eapply plan_batches_ok.
Qed.

(** ** Executions

    With the requests queued, the keys loaded for each request, and what the
    engine has collected: finished requests and load errors. *)

Definition loaded_keys (req_id : string) (b : load_batch) (r : list Z) : list (string * string) :=
  omap (λ e : string * Z, if e.2 <? 0 then None else Some (req_id, e.1)) (zip (b_keys (lb_batch b)) r).

Definition loads (e : load_event) (s : loaders) : list (string * string) :=
  match e with
  | LStep i (Some (Some r)) =>
      match kv_recv_threads s !! i with
      | Some (mkLoader (Some (mkLoadTask m (LGet b _))) _ _) => loaded_keys (rm_req_id m) b r
      | _ => []
      end
  | _ => []
  end.

Definition queued (e : load_event) : list ReqMeta := match e with LPut m => [m] | _ => [] end.

Definition collected (e : load_event) (s : loaders) : gset string :=
  match e with LFinished i => default ∅ (finished_requests <$> kv_recv_threads s !! i) | _ => ∅ end.

Definition errors (e : load_event) (s : loaders) : gset Z :=
  match e with LErrors i => default ∅ (invalid_block_ids <$> kv_recv_threads s !! i) | _ => ∅ end.

Record trace := mkTrace {
  tr_queued : list ReqMeta;
  tr_loaded : list (string * string);
  tr_finished : gset string;
  tr_errors : gset Z
}.

Definition extend (h : trace) (e : load_event) (s : loaders) : trace :=
  mkTrace (tr_queued h ++ queued e) (tr_loaded h ++ loads e s) (tr_finished h ∪ collected e s)
    (tr_errors h ∪ errors e s).

Inductive load_exec : trace → loaders → Prop :=
  | lexec_start n : load_exec (mkTrace [] [] ∅ ∅) (init_loaders n)
  | lexec_event h s e s' : load_exec h s → load_run e s = Some s' → load_exec (extend h e s) s'.

(** Reported, or about to be: collected, or still with a thread. *)
Definition reported (h : trace) (s : loaders) (req_id : string) : Prop :=
  req_id ∈ tr_finished h ∨ ∃ i l, kv_recv_threads s !! i = Some l ∧ req_id ∈ finished_requests l.

Definition recorded (h : trace) (s : loaders) (b : Z) : Prop :=
  b ∈ tr_errors h ∨ ∃ i l, kv_recv_threads s !! i = Some l ∧ b ∈ invalid_block_ids l.

(** How a load ends: with every key loaded, or with a batch that fails: the
    batches before it are loaded, and so is each of its keys unless its block
    is recorded; at least one is. An oversized load records all its blocks. *)
Definition all_loaded (m : ReqMeta) (loaded : list (string * string)) (l : list load_batch) : Prop :=
  ∀ b key, b ∈ l → key ∈ b_keys (lb_batch b) → (rm_req_id m, key) ∈ loaded.

Definition fails_at (m : ReqMeta) (loaded : list (string * string)) (bad : Z → Prop) (b : load_batch) : Prop :=
  (∃ blk, blk ∈ lb_blocks b ∧ bad blk) ∧
  ∀ i key blk, b_keys (lb_batch b) !! i = Some key → lb_blocks b !! i = Some blk →
    (rm_req_id m, key) ∈ loaded ∨ bad blk.

Definition outcome (m : ReqMeta) (loaded : list (string * string)) (bad : Z → Prop) : Prop :=
  ∃ p, plan_load m = Some (Ok p) ∧
    match p with
    | Oversized ids => ∀ b, b ∈ ids → bad b
    | Batches l => all_loaded m loaded l ∨
        ∃ pre b post, l = pre ++ b :: post ∧ all_loaded m loaded pre ∧ fails_at m loaded bad b
    end.

Lemma all_loaded_mono m k k' l : k ⊆ k' → all_loaded m k l → all_loaded m k' l.
Proof. unfold all_loaded. set_solver. Qed.

Lemma outcome_mono m k k' (bad bad' : Z → Prop) :
  k ⊆ k' → (∀ b, bad b → bad' b) → outcome m k bad → outcome m k' bad'.
Proof.
  intros Hk Hb (p & Hp & H). exists p. split; [done|]. destruct p as [ids|l]; [auto|].
  destruct H as [H|(pre & b & post & -> & H1 & (blk & H2 & H3) & H4)]; [left; by eapply all_loaded_mono|right].
  exists pre, b, post. split; [done|]. split; [by eapply all_loaded_mono|]. split; [eauto|].
  intros i key blk' Hi Hj. destruct (H4 _ _ _ Hi Hj); [left; set_solver|right; auto].
Qed.

(** What a task knows at each point. *)
Definition task_ok (t : load_task) (loaded : list (string * string)) (bad : Z → Prop) : Prop :=
  let m := lt_job t in
  match lt_pc t with
  | LPlan => True
  | LGet b rest => ∃ pre, plan_load m = Some (Ok (Batches (pre ++ b :: rest))) ∧ all_loaded m loaded pre
  | LFail ids => outcome m loaded (λ b, b ∈ ids)
  | LFinish => outcome m loaded bad
  end.

Lemma task_ok_mono t k k' (bad bad' : Z → Prop) :
  k ⊆ k' → (∀ b, bad b → bad' b) → task_ok t k bad → task_ok t k' bad'.
Proof.
  intros Hk Hb. unfold task_ok. destruct (lt_pc t); [done| | |].
  - intros (pre & Hp & Hl). exists pre. split; [done|]. by eapply all_loaded_mono.
  - by apply outcome_mono.
  - by apply outcome_mono.
Qed.

Lemma loaded_keys_elem m b r i key v :
  b_keys (lb_batch b) !! i = Some key → r !! i = Some v → 0 ≤ v →
  (rm_req_id m, key) ∈ loaded_keys (rm_req_id m) b r.
Proof.
  intros Hk Hv H. apply list_elem_of_omap. exists (key, v). split.
  - apply list_elem_of_lookup. exists i. apply lookup_zip_with_Some. by exists key, v.
  - cbn. by rewrite (proj2 (Z.ltb_ge v 0)).
Qed.

Lemma failed_blocks_elem r ids i v b :
  r !! i = Some v → ids !! i = Some b → v < 0 → b ∈ failed_blocks r ids.
Proof.
  intros Hv Hb H. apply list_elem_of_omap. exists (v, b). split.
  - apply list_elem_of_lookup. exists i. apply lookup_zip_with_Some. by exists v, b.
  - cbn. by rewrite (proj2 (Z.ltb_lt v 0)).
Qed.

Lemma failed_blocks_sub r ids b : b ∈ failed_blocks r ids → b ∈ ids.
Proof.
  intros ([v b'] & H & Hb)%list_elem_of_omap. cbn in Hb. destruct (v <? 0); [|done].
  injection Hb as ->. by apply elem_of_zip_r in H.
Qed.

Lemma all_loaded_snoc m k pre b :
  all_loaded m k pre → (∀ key, key ∈ b_keys (lb_batch b) → (rm_req_id m, key) ∈ k) → all_loaded m k (pre ++ [b]).
Proof.
  intros Hp Hb b' key Hin Hk. apply elem_of_app in Hin as [Hin| ->%list_elem_of_singleton]; [by eapply Hp|auto].
Qed.

(** A batch that fails as a whole. *)
Lemma batch_lost m b rest pre k :
  plan_load m = Some (Ok (Batches (pre ++ b :: rest))) → all_loaded m k pre →
  outcome m k (λ x, x ∈ lb_blocks b).
Proof.
  intros Hp Hl. eexists. split; [exact Hp|]. right. exists pre, b, rest. split_and!; [done..|].
  apply plan_load_ok in Hp as [_ [_ [[Hk Hlen] _]%Forall_cons]%Forall_app]. split.
  - destruct (lb_blocks b) as [|x l]; [by destruct (b_keys (lb_batch b))|].
    exists x. split; apply list_elem_of_here.
  - intros i key blk _ Hi. right. by eapply list_elem_of_lookup_2.
Qed.

Lemma got_ok m b rest pre k r bad :
  plan_load m = Some (Ok (Batches (pre ++ b :: rest))) → all_loaded m k pre →
  task_ok (mkLoadTask m (got b rest r))
    (k ++ match r with Some res => loaded_keys (rm_req_id m) b res | None => [] end) bad.
Proof.
  intros Hp Hl. assert (Hlost := batch_lost _ _ _ _ _ Hp Hl). destruct r as [res|]; cbn; [|by rewrite app_nil_r].
  set (k' := k ++ loaded_keys (rm_req_id m) b res).
  assert (Hl' : all_loaded m k' pre) by (eapply all_loaded_mono; [|done]; set_solver).
  destruct (_ && _) eqn:E; cbn [negb].
  2:{ eapply outcome_mono; [| |exact Hlost]; [set_solver|done]. }
  apply andb_true_iff in E as [E1%Nat.eqb_eq E2%Nat.eqb_eq].
  assert (Hkey : ∀ i key blk, b_keys (lb_batch b) !! i = Some key → lb_blocks b !! i = Some blk →
    (rm_req_id m, key) ∈ k' ∨ blk ∈ failed_blocks res (lb_blocks b)).
  { intros i key blk Hk Hb. destruct (lookup_lt_is_Some_2 res i) as [v Hv].
    { apply lookup_lt_Some in Hk. lia. }
    destruct (Z.lt_ge_cases v 0); [right; by eapply failed_blocks_elem|].
    left. apply elem_of_app. right. by eapply loaded_keys_elem. }
  destruct (failed_blocks res (lb_blocks b)) as [|x l] eqn:Ef.
  - assert (Hall : all_loaded m k' (pre ++ [b])).
    { apply all_loaded_snoc; [done|]. intros key [i Hi]%list_elem_of_lookup.
      destruct (lookup_lt_is_Some_2 (lb_blocks b) i) as [blk Hb]; [apply lookup_lt_Some in Hi; lia|].
      destruct (Hkey _ _ _ Hi Hb) as [|[]%elem_of_nil]; done. }
    destruct rest as [|b' rest]; cbn.
    + exists (Batches (pre ++ [b])). auto.
    + exists (pre ++ [b]). split; [|done]. by rewrite <- app_assoc.
  - cbn. exists (Batches (pre ++ b :: rest)). split; [done|]. right. exists pre, b, rest. split_and!; [done..|].
    split; [|exact Hkey]. exists x. split; [|apply list_elem_of_here].
    apply (failed_blocks_sub res). rewrite Ef. apply list_elem_of_here.
Qed.

(** ** The invariant *)

Record loads_ok (h : trace) (s : loaders) : Prop := {
  lo_queue : ∀ m, m ∈ recv_request_queue s → m ∈ tr_queued h;
  lo_tasks : ∀ i l t, kv_recv_threads s !! i = Some l → loading l = Some t →
    lt_job t ∈ tr_queued h ∧ task_ok t (tr_loaded h) (recorded h s);
  lo_done : ∀ r, reported h s r →
    ∃ m, m ∈ tr_queued h ∧ rm_req_id m = r ∧ outcome m (tr_loaded h) (recorded h s)
}.

(** A step that keeps what is recorded keeps what the tasks know; a thread's
    new task and new reports have to be justified. *)
Lemma loads_ok_step h h' s s' :
  loads_ok h s →
  tr_queued h ⊆ tr_queued h' → tr_loaded h ⊆ tr_loaded h' → (∀ b, recorded h s b → recorded h' s' b) →
  (∀ m, m ∈ recv_request_queue s' → m ∈ recv_request_queue s ∨ m ∈ tr_queued h') →
  (∀ i l t, kv_recv_threads s' !! i = Some l → loading l = Some t →
    (∃ l0, kv_recv_threads s !! i = Some l0 ∧ loading l0 = Some t) ∨
    (lt_job t ∈ tr_queued h' ∧ task_ok t (tr_loaded h') (recorded h' s'))) →
  (∀ r, reported h' s' r → reported h s r ∨
    ∃ m, m ∈ tr_queued h' ∧ rm_req_id m = r ∧ outcome m (tr_loaded h') (recorded h' s')) →
  loads_ok h' s'.
Proof.
  intros [H1 H2 H3] Hq Hl Hrec Hqueue Htask Hrep. split.
  - intros m [Hm|Hm]%Hqueue; [|done]. apply Hq, H1, Hm.
  - intros i l t Hi Ht. destruct (Htask _ _ _ Hi Ht) as [(l0 & Hi0 & Ht0)|]; [|done].
    destruct (H2 _ _ _ Hi0 Ht0). split; [by apply Hq|]. by eapply task_ok_mono.
  - intros r [Hr|]%Hrep; [|done]. destruct (H3 _ Hr) as (m & Hm & Hid & Ho). exists m.
    split_and!; [by apply Hq|done|]. by eapply outcome_mono.
Qed.

(** Replacing thread [i] by [l']: what is recorded and reported. *)
Lemma thread_lookup s i l l' j k :
  kv_recv_threads s !! i = Some l → kv_recv_threads (set_thread i l' s) !! j = Some k →
  (j = i ∧ k = l') ∨ (j ≠ i ∧ kv_recv_threads s !! j = Some k).
Proof.
  intros Hi Hj. cbn in Hj. destruct (decide (i = j)) as [<-|Hne].
  - rewrite list_lookup_insert_eq in Hj by (by eapply lookup_lt_Some). left. naive_solver.
  - rewrite list_lookup_insert_ne in Hj by done. auto.
Qed.

Lemma recorded_thread h h' s i l l' q :
  kv_recv_threads s !! i = Some l → tr_errors h ⊆ tr_errors h' →
  invalid_block_ids l ⊆ tr_errors h' ∪ invalid_block_ids l' →
  ∀ b, recorded h s b → recorded h' (set_thread i l' (mkLoaders q (kv_recv_threads s))) b.
Proof.
  intros Hi He Hl b [Hb|(j & k & Hj & Hb)]; [left; set_solver|].
  assert (Hi' : kv_recv_threads (set_thread i l' (mkLoaders q (kv_recv_threads s))) !! i = Some l').
  { cbn. apply list_lookup_insert_eq. by eapply lookup_lt_Some. }
  destruct (decide (i = j)) as [<-|Hne].
  - assert (k = l) as -> by congruence.
    apply Hl, elem_of_union in Hb as [Hb|Hb]; [by left|right; eauto].
  - right. exists j, k. split; [|done]. cbn. by rewrite list_lookup_insert_ne.
Qed.

Lemma reported_thread h h' s i l l' q r :
  kv_recv_threads s !! i = Some l → tr_finished h' ⊆ tr_finished h ∪ finished_requests l →
  reported h' (set_thread i l' (mkLoaders q (kv_recv_threads s))) r →
  reported h s r ∨ r ∈ finished_requests l'.
Proof.
  intros Hi Hf [Hr|(j & k & Hj & Hr)].
  - left. apply Hf, elem_of_union in Hr as [Hr|Hr]; [by left|right; eauto].
  - destruct (thread_lookup (mkLoaders q (kv_recv_threads s)) i l l' j k Hi Hj) as [[-> ->]|[_ Hk]]; [by right|].
    left. right. eauto.
Qed.

(** Thread [i], holding [l], steps to [l'] and the queue to [q]. *)
Lemma loads_ok_thread h h' s i l l' q :
  loads_ok h s → kv_recv_threads s !! i = Some l →
  tr_queued h' = tr_queued h → tr_loaded h ⊆ tr_loaded h' → tr_errors h ⊆ tr_errors h' →
  tr_finished h' ⊆ tr_finished h ∪ finished_requests l →
  invalid_block_ids l ⊆ tr_errors h' ∪ invalid_block_ids l' →
  (∀ m, m ∈ q → m ∈ recv_request_queue s) →
  let s' := set_thread i l' (mkLoaders q (kv_recv_threads s)) in
  (∀ t, loading l' = Some t → loading l = Some t ∨
     (lt_job t ∈ tr_queued h ∧ task_ok t (tr_loaded h') (recorded h' s'))) →
  (∀ r, r ∈ finished_requests l' → r ∈ finished_requests l ∨
     ∃ m, m ∈ tr_queued h ∧ rm_req_id m = r ∧ outcome m (tr_loaded h') (recorded h' s')) →
  loads_ok h' s'.
Proof.
  intros Hok Hi Hq Hl He Hf Hinv Hqueue s' Htask Hfin.
  apply (loads_ok_step h h' s s' Hok); rewrite ?Hq; [done|done|by eapply recorded_thread|auto| |].
  - intros j k t Hj Ht. destruct (thread_lookup (mkLoaders q (kv_recv_threads s)) i l l' j k Hi Hj)
      as [[-> ->]|[_ Hk]]; [|left; by exists k].
    destruct (Htask _ Ht); [left; eauto|by right].
  - intros r [Hr|Hr]%(reported_thread h h' s i l l' q r Hi Hf); [by left|].
    destruct (Hfin _ Hr) as [Hr'|]; [|by right]. left. right. eauto.
Qed.

(** A step of a task. *)
Lemma load_step_ok h s i l t r l' :
  loads_ok h s → kv_recv_threads s !! i = Some l → loading l = Some t → load_step r t l = Some l' →
  loads_ok (extend h (LStep i r) s) (set_thread i l' (mkLoaders (recv_request_queue s) (kv_recv_threads s))).
Proof.
  intros Hok Hi Ht Hs. destruct (lo_tasks _ _ Hok _ _ _ Hi Ht) as [Hin Hto].
  assert (Hr : invalid_block_ids l ⊆ (tr_errors h ∪ ∅) ∪ invalid_block_ids l' ∧
    (∀ b, b ∈ invalid_block_ids l' → recorded (extend h (LStep i r) s)
       (set_thread i l' (mkLoaders (recv_request_queue s) (kv_recv_threads s))) b)).
  { split; [|intros b Hb; right; exists i, l'; split; [|done];
      cbn; apply list_lookup_insert_eq; by eapply lookup_lt_Some].
    unfold StoreLoad.load_step in Hs. destruct (lt_pc t), r; try done; cbn in Hs;
      repeat (apply bind_Some in Hs as ([[ids|b]|] & _ & Hs)); injection Hs as <-; cbn; set_solver. }
  destruct Hr as [Hinv Hrec].
  apply (loads_ok_thread h _ s i l l'); try done; [by cbn; rewrite app_nil_r|cbn; set_solver|cbn; set_solver|cbn; set_solver| |].
  - intros t' Ht'. right. revert Hs Ht' Hrec. unfold StoreLoad.load_step. unfold task_ok in Hto.
    destruct (lt_pc t) as [|b rest|ids|] eqn:Hk, r as [r|]; try done; cbn.
    + intros (p & Hp & [= <-])%bind_Some. destruct p as [[ids|bs]|]; cbn; [| |done].
      * intros [= <-] _. split; [done|]. exists (Oversized ids). auto.
      * intros [= <-] _. split; [done|]. apply plan_load_ok in Hp as Hpo. destruct bs as [|b bs]; [by destruct Hpo|].
        exists []. split; [done|]. by intros ? ? ?%elem_of_nil.
    + intros [= <-] [= <-] _. split; [done|]. destruct Hto as (pre & Hp & Hl). rewrite Hi.
      assert (Hg := got_ok (lt_job t) b rest pre (tr_loaded h) r (recorded (extend h (LStep i (Some r)) s)
        (set_thread i (at_lpc (got b rest r) t l) (mkLoaders (recv_request_queue s) (kv_recv_threads s)))) Hp Hl).
      destruct l as [[[m k]|] F I]; [|done]. injection Ht as <-. cbn in Hk. subst k. exact Hg.
    + intros [= <-] [= <-] Hrec. split; [done|]. cbn. rewrite app_nil_r. eapply outcome_mono; [done| |exact Hto].
      intros b Hb. apply Hrec. cbn. set_solver.
    + by intros [= <-].
  - intros r' Hr'. revert Hs Hr'. unfold StoreLoad.load_step. unfold task_ok in Hto.
    destruct (lt_pc t) as [|b rest|ids|] eqn:Hk, r as [r|]; try done; cbn.
    + intros (p & Hp & [= <-])%bind_Some. destruct p as [[ids|bs]|]; cbn; auto.
    + intros [= <-]. auto.
    + intros [= <-]. auto.
    + intros Hl'. apply (inj Some) in Hl' as <-. cbn. intros [Hr'|Hr']%elem_of_union; [by left|right].
      apply elem_of_singleton in Hr' as ->. exists (lt_job t). split_and!; [done..|].
      rewrite app_nil_r. eapply outcome_mono; [done| |exact Hto].
      apply (recorded_thread h _ s i l _ _ Hi); cbn; set_solver.
Qed.

Lemma exec_loads h s : load_exec h s → loads_ok h s.
Proof.
  assert (Heta : ∀ s i l, set_thread i l s = set_thread i l (mkLoaders (recv_request_queue s) (kv_recv_threads s)))
    by (by intros []).
  induction 1 as [n|h s e s' _ IH H].
  { assert (Hn : ∀ i l, replicate (Z.to_nat (Z.max 1 n)) (mkLoader None ∅ ∅) !! i = Some l → l = mkLoader None ∅ ∅).
    { intros i l Hi. by apply lookup_replicate in Hi as [-> _]. }
    split; cbn; [set_solver| |].
    - by intros i l t ->%Hn.
    - intros r [Hr|(i & l & Hi & Hr)]; [set_solver|]. cbn in Hi. apply Hn in Hi as ->. set_solver. }
  destruct e as [i r|m|i|i]; cbn in H.
  - apply bind_Some in H as (l & Hi & H). destruct (loading l) as [t|] eqn:Ht.
    + apply bind_Some in H as (l' & Hs & [= <-]). rewrite Heta. by eapply load_step_ok.
    + destruct (recv_request_queue s) as [|m q] eqn:Hq; [done|]. destruct r; [done|]. injection H as <-.
      apply (loads_ok_thread h _ s i l); try done; cbn; try set_solver.
      * by rewrite app_nil_r.
      * rewrite Hq. set_solver.
      * intros t [= <-]. right. split; [|done]. apply (lo_queue _ _ IH). rewrite Hq. set_solver.
  - injection H as <-. apply (loads_ok_step h _ s _ IH); cbn; try set_solver.
    + intros b [Hb|Hb]; [left; cbn; set_solver|by right].
    + intros r [Hr|Hr]; left; [left; cbn in Hr; set_solver|by right].
  - apply bind_Some in H as (l & Hi & [= <-]). rewrite Heta.
    apply (loads_ok_thread h _ s i l); cbn; rewrite ?Hi, ?app_nil_r; cbn; done || set_solver.
  - apply bind_Some in H as (l & Hi & [= <-]). rewrite Heta.
    apply (loads_ok_thread h _ s i l); cbn; rewrite ?Hi, ?app_nil_r; cbn; done || set_solver.
Qed.

(** ** The queue drains *)

Definition plan_cost (m : ReqMeta) : nat :=
  match plan_load m with Some (Ok (Batches l)) => length l | _ => 0 end + 3.

Definition task_cost (t : load_task) : nat :=
  match lt_pc t with
  | LPlan => plan_cost (lt_job t)
  | LGet _ rest => length rest + 3
  | LFail _ => 2
  | LFinish => 1
  end.

Definition thread_cost (l : loader) : nat := match loading l with Some t => task_cost t | None => 0 end.

Definition load_work (s : loaders) : nat :=
  sum_list ((λ m, S (plan_cost m)) <$> recv_request_queue s) + sum_list (thread_cost <$> kv_recv_threads s).

(** A thread that has a task, or one that may take the next request. *)
Definition pick (s : loaders) : option nat :=
  match list_find (λ l, is_Some (loading l)) (kv_recv_threads s) with
  | Some (i, _) => Some i
  | None => match recv_request_queue s with [] => None | _ => Some 0%nat end
  end.

Definition answer_for (oracle : loaders → option (list Z)) (i : nat) (s : loaders) : option (option (list Z)) :=
  match kv_recv_threads s !! i with
  | Some (mkLoader (Some (mkLoadTask _ (LGet _ _))) _ _) => Some (oracle s)
  | _ => None
  end.

(** The threads left alone with a store that answers by [oracle]. *)
Fixpoint drive_loads (oracle : loaders → option (list Z)) (fuel : nat) (s : loaders) : loaders :=
  match fuel, pick s with
  | S fuel, Some i =>
      match load_run (LStep i (answer_for oracle i s)) s with
      | Some s' => drive_loads oracle fuel s'
      | None => s
      end
  | _, _ => s
  end.

Definition loads_idle (s : loaders) : Prop :=
  recv_request_queue s = [] ∧ ∀ i l, kv_recv_threads s !! i = Some l → loading l = None.

(** Where a queued request is, as long as it is neither reported nor dropped
    for a plan that raises. *)
Definition accounted (h : trace) (s : loaders) (m : ReqMeta) : Prop :=
  m ∈ recv_request_queue s ∨
  (∃ i l t, kv_recv_threads s !! i = Some l ∧ loading l = Some t ∧ lt_job t = m) ∨
  reported h s (rm_req_id m) ∨ ∀ p, plan_load m ≠ Some (Ok p).

Lemma next_batch_cost l t : (task_cost (mkLoadTask t (next_batch l)) ≤ length l + 2)%nat.
Proof. destruct l; cbn; lia. Qed.

Lemma got_cost b rest r t : (task_cost (mkLoadTask t (got b rest r)) ≤ length rest + 2)%nat.
Proof.
  unfold got. destruct r as [res|]; [|cbn; lia]. destruct (negb _); [cbn; lia|].
  destruct (failed_blocks _ _); [apply next_batch_cost|cbn; lia].
Qed.

(** A step of a task brings its end nearer; the request stays with the thread,
    is reported, or its plan raises. *)
Lemma load_step_cost r t l l' :
  loading l = Some t → load_step r t l = Some l' →
  (thread_cost l' < thread_cost l)%nat ∧ finished_requests l ⊆ finished_requests l' ∧
  ((∃ t', loading l' = Some t' ∧ lt_job t' = lt_job t) ∨ rm_req_id (lt_job t) ∈ finished_requests l' ∨
   ∀ p, plan_load (lt_job t) ≠ Some (Ok p)).
Proof.
  intros Ht. unfold StoreLoad.load_step. unfold thread_cost at 2. rewrite Ht. unfold task_cost, plan_cost.
  destruct (lt_pc t) as [|b rest|ids|] eqn:Hk, r as [r|]; try done.
  - intros (p & Hp & [= <-])%bind_Some. rewrite Hp. destruct p as [[ids|bs]|]; cbn.
    + split_and!; [lia|done|left; eauto].
    + assert (Hc := next_batch_cost bs (lt_job t)). split_and!; [cbn; lia|done|left; eauto].
    + split_and!; [cbn; lia|done|right; right; naive_solver].
  - intros [= <-]. assert (Hc := got_cost b rest r (lt_job t)). split_and!; [cbn; lia|done|left; cbn; eauto].
  - intros [= <-]. split_and!; [cbn; lia|done|left; cbn; eauto].
  - intros H. apply (inj Some) in H as <-. split_and!; [cbn; lia|cbn; set_solver|right; left; cbn; set_solver].
Qed.

Lemma sum_thread s i l l' :
  kv_recv_threads s !! i = Some l →
  (sum_list (thread_cost <$> <[i := l']> (kv_recv_threads s)) + thread_cost l =
   sum_list (thread_cost <$> kv_recv_threads s) + thread_cost l')%nat.
Proof.
  revert i. induction (kv_recv_threads s) as [|x ls IH]; intros i Hi; [done|].
  destruct i as [|i]; [injection Hi as ->; cbn; lia|]. specialize (IH _ Hi).
  change (<[S i := l']> (x :: ls)) with (x :: <[i := l']> ls). rewrite !fmap_cons. cbn [sum_list]. lia.
Qed.

Lemma step_work i r s s' : load_run (LStep i r) s = Some s' → (load_work s' < load_work s)%nat.
Proof.
  cbn. intros (l & Hi & H)%bind_Some. unfold load_work. destruct (loading l) as [t|] eqn:Ht.
  - apply bind_Some in H as (l' & Hs & [= <-]). destruct (load_step_cost _ _ _ _ Ht Hs) as [Hc _].
    assert (Hsum := sum_thread s i l l' Hi). cbn. lia.
  - destruct (recv_request_queue s) as [|m q]; [done|]. destruct r; [done|]. injection H as <-.
    set (l' := mkLoader _ _ _). assert (Hsum := sum_thread s i l l' Hi).
    assert (thread_cost l = 0%nat) as E by (unfold thread_cost; by rewrite Ht).
    assert (thread_cost l' = plan_cost m) as E' by done.
    cbn [set_thread recv_request_queue kv_recv_threads fmap list_fmap sum_list]. cbn. lia.
Qed.

(** Replacing thread [i] keeps the requests it does not hold accounted for. *)
Lemma accounted_thread h h' s i l l' q m :
  kv_recv_threads s !! i = Some l → tr_finished h ⊆ tr_finished h' →
  finished_requests l ⊆ tr_finished h' ∪ finished_requests l' →
  (m ∈ recv_request_queue s → m ∈ q ∨ ∃ t, loading l' = Some t ∧ lt_job t = m) →
  (∀ t, loading l = Some t → (∃ t', loading l' = Some t' ∧ lt_job t' = lt_job t) ∨
     rm_req_id (lt_job t) ∈ finished_requests l' ∨ ∀ p, plan_load (lt_job t) ≠ Some (Ok p)) →
  accounted h s m → accounted h' (set_thread i l' (mkLoaders q (kv_recv_threads s))) m.
Proof.
  intros Hi Hf Hfl Hq Ht Ha.
  assert (Hi' : kv_recv_threads (set_thread i l' (mkLoaders q (kv_recv_threads s))) !! i = Some l').
  { cbn. apply list_lookup_insert_eq. by eapply lookup_lt_Some. }
  assert (Hj' : ∀ j, j ≠ i → kv_recv_threads (set_thread i l' (mkLoaders q (kv_recv_threads s))) !! j = kv_recv_threads s !! j).
  { intros j Hj. cbn. by rewrite list_lookup_insert_ne. }
  destruct Ha as [[Hm|(t & Ht' & Hm)]%Hq|[(j & k & t & Hj & Hk & <-)|[[Hr|(j & k & Hj & Hr)]|Hp]]]; [by left| | | | |].
  - right; left. by exists i, l', t.
  - destruct (decide (j = i)) as [->|Hne].
    + assert (k = l) as -> by congruence. destruct (Ht _ Hk) as [(t' & Ht1 & Ht2)|[Hr|Hp]].
      * right; left. by exists i, l', t'.
      * right; right; left. right. eauto.
      * by right; right; right.
    + right; left. exists j, k, t. by rewrite Hj'.
  - right; right; left. left. set_solver.
  - right; right; left. destruct (decide (j = i)) as [->|Hne].
    + assert (k = l) as -> by congruence. apply Hfl, elem_of_union in Hr as [Hr|Hr]; [by left|right; eauto].
    + right. exists j, k. by rewrite Hj'.
  - by right; right; right.
Qed.

Lemma exec_accounted h s : load_exec h s → ∀ m, m ∈ tr_queued h → accounted h s m.
Proof.
  assert (Heta : ∀ s i l, set_thread i l s = set_thread i l (mkLoaders (recv_request_queue s) (kv_recv_threads s)))
    by (by intros []).
  induction 1 as [n|h s e s' _ IH H]; [by intros m ?%elem_of_nil|]. intros m Hm.
  destruct e as [i r|m'|i|i]; cbn in H, Hm; rewrite ?app_nil_r in Hm.
  - apply bind_Some in H as (l & Hi & H). specialize (IH m Hm). destruct (loading l) as [t|] eqn:Ht.
    + apply bind_Some in H as (l' & Hs & [= <-]). destruct (load_step_cost _ _ _ _ Ht Hs) as (_ & Hf & Hd).
      rewrite Heta. eapply (accounted_thread h); [exact Hi|cbn; set_solver|set_solver|by left| |exact IH].
      intros t' Ht'. assert (t' = t) as -> by congruence. exact Hd.
    + destruct (recv_request_queue s) as [|m' q] eqn:Hq; [done|]. destruct r; [done|]. injection H as <-.
      eapply (accounted_thread h); [exact Hi|cbn; set_solver|cbn; set_solver| |by rewrite Ht|exact IH].
      rewrite Hq. intros [->|Hin]%elem_of_cons; [right; cbn; eauto|by left].
  - injection H as <-. apply elem_of_app in Hm as [Hm| ->%list_elem_of_singleton].
    + destruct (IH m Hm) as [Hq|[Ht|[[Hr|Hr]|Hp]]].
      * left. cbn. set_solver.
      * right; left. exact Ht.
      * right; right; left. left. cbn. set_solver.
      * right; right; left. by right.
      * by right; right; right.
    + left. cbn. set_solver.
  - apply bind_Some in H as (l & Hi & [= <-]). rewrite Heta.
    eapply (accounted_thread h); [exact Hi|cbn; set_solver|cbn; rewrite Hi; cbn; set_solver|by left| |by apply IH].
    intros t Ht. left. cbn. eauto.
  - apply bind_Some in H as (l & Hi & [= <-]). rewrite Heta.
    eapply (accounted_thread h); [exact Hi|cbn; set_solver|cbn; set_solver|by left| |by apply IH].
    intros t Ht. left. cbn. eauto.
Qed.

(** The steps that [drive_loads] makes. *)
Inductive load_steps : trace → loaders → trace → loaders → Prop :=
  | lsteps_refl h s : load_steps h s h s
  | lsteps_step h s e s' h2 s2 i r :
      e = LStep i r → load_run e s = Some s' → load_steps (extend h e s) s' h2 s2 → load_steps h s h2 s2.

Lemma steps_exec h s h' s' : load_steps h s h' s' → load_exec h s → load_exec h' s' ∧
  tr_queued h' = tr_queued h ∧ tr_finished h' = tr_finished h ∧ tr_errors h' = tr_errors h.
Proof.
  induction 1 as [|h s e s' h2 s2 i r -> Hr _ IH]; [done|]. intros He.
  destruct (IH (lexec_event _ _ _ _ He Hr)) as (H1 & -> & -> & ->). split; [done|].
  cbn. by rewrite app_nil_r, !(right_id_L ∅ (∪)).
Qed.

Lemma pick_progress oracle h s i :
  load_exec h s → (∀ m, m ∈ tr_queued h → is_Some (plan_load m)) →
  kv_recv_threads s ≠ [] → pick s = Some i → is_Some (load_run (LStep i (answer_for oracle i s)) s).
Proof.
  intros He Hp Hne Hi. assert (Hok := exec_loads _ _ He). unfold pick in Hi.
  destruct (list_find _ _) as [[j l]|] eqn:Hf.
  - injection Hi as ->. apply list_find_Some in Hf as (Hl & [t Ht] & _). unfold answer_for. cbn. rewrite Hl. cbn. rewrite Ht.
    destruct (lo_tasks _ _ Hok _ _ _ Hl Ht) as [Hin _]. destruct (Hp _ Hin) as [p Hpl].
    destruct l as [l F I]. cbn in Ht. subst l. destruct t as [m k]. cbn in Hpl. unfold StoreLoad.load_step.
    destruct k; cbn; rewrite ?Hpl; cbn; eauto.
  - apply list_find_None in Hf. destruct (recv_request_queue s) as [|m q] eqn:Hq; [done|]. injection Hi as <-.
    destruct (kv_recv_threads s) as [|l ls] eqn:Hls; [done|]. apply Forall_cons in Hf as [Hl _].
    assert (loading l = None) as El by (destruct (loading l); [destruct Hl; eauto|done]).
    unfold answer_for. cbn. rewrite Hls. cbn. rewrite El, Hq. destruct l as [t F I]. cbn in El. subst t. cbn. eauto.
Qed.

Lemma pick_idle s : pick s = None → loads_idle s.
Proof.
  unfold pick. destruct (list_find _ _) as [[j l]|] eqn:Hf; [done|]. apply list_find_None in Hf.
  destruct (recv_request_queue s) eqn:Hq; [|done]. intros _. split; [done|]. intros i l Hi.
  rewrite Forall_lookup in Hf. specialize (Hf _ _ Hi). destruct (loading l); [destruct Hf; eauto|done].
Qed.

Lemma run_threads e s s' : load_run e s = Some s' → length (kv_recv_threads s') = length (kv_recv_threads s).
Proof.
  destruct e as [i r|m|i|i]; cbn.
  - intros (l & Hi & H)%bind_Some. destruct (loading l).
    + apply bind_Some in H as (l' & _ & [= <-]). cbn. by rewrite length_insert.
    + destruct (recv_request_queue s); [done|]. destruct r; [done|]. injection H as <-. cbn. by rewrite length_insert.
  - by intros [= <-].
  - intros (l & _ & [= <-])%bind_Some. cbn. by rewrite length_insert.
  - intros (l & _ & [= <-])%bind_Some. cbn. by rewrite length_insert.
Qed.

Lemma exec_threads h s : load_exec h s → kv_recv_threads s ≠ [].
Proof.
  intros He Hn%(f_equal length). revert Hn. induction He as [n|h s e s' _ IH H]; cbn.
  - rewrite length_replicate. lia.
  - rewrite (run_threads _ _ _ H). done.
Qed.

Lemma drive_loads_idle oracle fuel h s :
  load_exec h s → (∀ m, m ∈ tr_queued h → is_Some (plan_load m)) → (load_work s ≤ fuel)%nat →
  loads_idle (drive_loads oracle fuel s) ∧ ∃ h', load_steps h s h' (drive_loads oracle fuel s).
Proof.
  revert h s. induction fuel as [|fuel IH]; intros h s He Hp Hw; cbn [drive_loads].
  - split; [|eexists; constructor]. apply pick_idle. destruct (pick s) as [i|] eqn:Hi; [|done].
    destruct (pick_progress oracle _ _ _ He Hp (exec_threads _ _ He) Hi) as [s' Hs]. apply step_work in Hs. lia.
  - destruct (pick s) as [i|] eqn:Hi; [|split; [by apply pick_idle|eexists; constructor]].
    destruct (pick_progress oracle _ _ _ He Hp (exec_threads _ _ He) Hi) as [s' Hs].
    rewrite Hs. assert (Hlt := step_work _ _ _ _ Hs).
    destruct (IH (extend h (LStep i (answer_for oracle i s)) s) s') as [Hd (h' & Hst)]; [by econstructor| |lia|].
    { cbn. by rewrite app_nil_r. }
    split; [done|]. exists h'. by econstructor.
Qed.

(** Non-negative hit lengths make [load_mask] return. *)
Lemma plan_load_total m :
  (∀ spec, rm_load_spec m = Some spec → 0 ≤ ls_token_len spec) →
  nonneg_hits (lc_coord c) (rm_block_hashes m) (mkPool None (hash_block_size (lc_coord c))) →
  is_Some (plan_load m).
Proof.
  intros Hlen Hn. unfold StoreLoad.plan_load, gather_load, load_start.
  destruct (rm_load_spec m) as [spec|]; [|cbn; eauto]. cbn.
  destruct (py_div _ _); cbn; [|eauto].
  destruct (find_hit_total (lc_coord c) (rm_block_hashes m) (ls_token_len spec)
    (mkPool None (hash_block_size (lc_coord c))) false) as [r Hr]; [by apply Hlen|done|].
  unfold load_mask, find_longest_cache_hit. rewrite Hr. cbn. eauto.
Qed.

End thread.

(** ** An execution

    Rank 1 loads three blocks of one full-attention group; with a staging
    budget of one block per batch, the load is split in three. *)

#[local] Existing Instance ex_managers.

Definition ex_load_coord : coordinator :=
  match make_coordinator [mkGroupSpec (Single (mkSpec FullAttentionSpec 4 0)) true 4 false] 4 4 false None 1 with
  | Ok c => c
  | Err _ => mkCoord [] ∅ 0 0 false None [] ∅
  end.

Definition ex_load_db : token_db :=
  let m := mkKeyMetadata "model" 0 0 0 0 0 "" "" in
  mkDb m 4 4 (RankLocal (set_regions [1000] [64] (rank_local m 4 4))).

Definition ex_load_config (budget : option (Z * Z)) : load_config :=
  mkLoadConfig ex_load_coord [ex_load_db] 4 1 [true] budget.

Definition ex_load : ReqMeta :=
  mkReqMeta "r" 12 [[5; 6; 7]] [[10]; [11]; [12]] false (Some (mkLoadSpec 0 12 true 12 [])) None 0 12
    None None.

Definition ex_budget : option (Z * Z) := Some (12288, 100000).

Definition ex_load_run (budget : option (Z * Z)) (es : list load_event) : option (trace * loaders) :=
  foldl (λ x e, '(h, s) ← x; s' ← load_run (ex_load_config budget) e s; Some (extend h e s, s'))
    (Some (mkTrace [] [] ∅ ∅, init_loaders 1)) es.

Lemma ex_load_exec budget es h s :
  ex_load_run budget es = Some (h, s) → load_exec (ex_load_config budget) h s.
Proof.
  revert h s. induction es as [|e es IH] using rev_ind; intros h s; unfold ex_load_run.
  - intros [= <- <-]. constructor.
  - rewrite foldl_app. cbn [foldl]. intros ([h0 s0] & H & (s' & Hs & [= <- <-])%bind_Some)%bind_Some.
    econstructor; [by apply IH|done].
Qed.

(** One batch, the middle key of which is missing. *)
Definition ex_whole_events : list load_event :=
  [LPut ex_load; LStep 0 None; LStep 0 None; LStep 0 (Some (Some [64; -1; 64])); LStep 0 None; LStep 0 None;
   LErrors 0; LFinished 0].

(** Three batches, the first of which fails. *)
Definition ex_split_events : list load_event :=
  [LPut ex_load; LStep 0 None; LStep 0 None; LStep 0 (Some (Some [-1])); LStep 0 None; LStep 0 None;
   LErrors 0; LFinished 0].

Definition ex_load_at (budget : option (Z * Z)) (es : list load_event) : trace * loaders :=
  default (mkTrace [] [] ∅ ∅, init_loaders 1) (ex_load_run budget es).

Lemma ex_load_at_exec budget es : is_Some (ex_load_run budget es) →
  load_exec (ex_load_config budget) (ex_load_at budget es).1 (ex_load_at budget es).2.
Proof. unfold ex_load_at. intros [[h s] E]. rewrite E. exact (ex_load_exec _ _ _ _ E). Qed.

(** ** The properties *)

(** C19 (bounds): splitting a load of parallel lists either names a key that
    exceeds the raw staging budget, or gives non-empty parallel batches that
    together are the load in order, each within the usable budget unless it
    is a single key, which is within the raw budget; it never raises. *)
Theorem load_split_ok (keys : list string) (addrs sizes : list (list Z)) (usable raw : Z) :
  length addrs = length keys → length sizes = length keys →
  ∃ bs o, split_disk_offload_load_batches keys addrs sizes usable raw = Ok (bs, o) ∧
    match o with
    | Some key => bs = [] ∧ ∃ i size, keys !! i = Some key ∧ sizes !! i = Some size ∧
        raw < estimate_staging_bytes size
    | None => Forall (batch_ok usable raw) bs ∧ Forall (λ size, estimate_staging_bytes size ≤ raw) sizes ∧
        concat (b_keys <$> bs) = keys ∧ concat (b_addrs <$> bs) = addrs ∧ concat (b_sizes <$> bs) = sizes
    end.
Proof. intros Ha Hz. exact (split_loop_ok usable raw keys addrs sizes _ (init_split_ok usable raw) Ha Hz). Qed.

Lemma load_split_ok_witness :
  ∃ bs o, split_disk_offload_load_batches ["a"; "b"; "c"] [[0]; [1]; [2]] [[64]; [8192]; [64]] 12288 16384 =
      Ok (bs, o) ∧ o = None ∧ concat (b_keys <$> bs) = ["a"; "b"; "c"].
Proof.
  destruct (load_split_ok ["a"; "b"; "c"] [[0]; [1]; [2]] [[64]; [8192]; [64]] 12288 16384 eq_refl eq_refl)
    as (bs & o & E & Ho).
  exists bs, o. vm_compute in E. injection E as <- <-. destruct Ho as (_ & _ & Hk & _). by split_and!.
Defined.

(** C20 (safety): in every execution, when a request is reported as loaded,
    either every key of its plan has been loaded, or a batch of it failed: all
    batches before that one were loaded, and of that one every key was loaded
    or its block is recorded as a load error, and at least one block is. *)
Theorem load_reported_ok `{CD : !CeilDiv} `{M : !Managers} (c : load_config) (h : trace) (s : loaders)
    (req_id : string) :
  load_exec c h s → reported h s req_id →
  ∃ m, m ∈ tr_queued h ∧ rm_req_id m = req_id ∧ outcome c m (tr_loaded h) (recorded h s).
Proof. intros He Hr. exact (lo_done _ _ _ (exec_loads _ _ _ He) _ Hr). Qed.

Lemma load_reported_ok_witness :
  let h := (ex_load_at None ex_whole_events).1 in
  let s := (ex_load_at None ex_whole_events).2 in
  tr_finished h = {["r"]} ∧
  ∃ m, m ∈ [ex_load] ∧ outcome (ex_load_config None) m (tr_loaded h) (recorded h s).
Proof.
  split; [by vm_compute|].
  destruct (load_reported_ok _ _ _ "r" (ex_load_at_exec None ex_whole_events ltac:(vm_compute; eauto)))
    as (m & Hm & _ & Ho).
  - left. vm_compute. reflexivity.
  - exists m. exact (conj Hm Ho).
Defined.

(** (liveness): when managers find no negative hits, the receiving threads
    left alone work off the queue in a bounded number of steps, whatever the
    store answers or raises, and every request queued so far whose plan does
    not raise has been reported. *)
Theorem loads_all_reported `{CD : !CeilDiv} `{M : !Managers} (c : load_config)
    (oracle : loaders → option (list Z)) (h : trace) (s : loaders) :
  load_exec c h s →
  (∀ m, m ∈ tr_queued h → (∀ spec, rm_load_spec m = Some spec → 0 ≤ ls_token_len spec) ∧
     nonneg_hits (lc_coord c) (rm_block_hashes m) (mkPool None (hash_block_size (lc_coord c)))) →
  let s' := drive_loads c oracle (load_work c s) s in
  loads_idle s' ∧
  ∀ m p, m ∈ tr_queued h → plan_load c m = Some (Ok p) → reported h s' (rm_req_id m).
Proof.
  intros He Hm. destruct (drive_loads_idle c oracle (load_work c s) h s He) as [Hi (h' & Hst)]; [|lia|].
  { intros m [H1 H2]%Hm. by apply plan_load_total. }
  split; [done|]. intros m p Hin Hp. apply steps_exec in Hst as (He' & Hq & Hf & _); [|done].
  destruct (exec_accounted _ _ _ He' m) as [Hqu|[(i & l & t & Hl & Ht & _)|[Hr|Hn]]]; [by rewrite Hq| | | |].
  - destruct Hi as [E _]. rewrite E in Hqu. by apply elem_of_nil in Hqu.
  - destruct Hi as [_ E]. by rewrite (E _ _ Hl) in Ht.
  - unfold reported in *. by rewrite Hf in Hr.
  - by destruct (Hn p).
Qed.

Lemma loads_all_reported_witness :
  let h := (ex_load_at ex_budget [LPut ex_load]).1 in
  let s := (ex_load_at ex_budget [LPut ex_load]).2 in
  let s' := drive_loads (ex_load_config ex_budget) (λ _, Some [64]) (load_work (ex_load_config ex_budget) s) s in
  loads_idle s' ∧ reported h s' "r".
Proof.
  assert (Hg : ∀ g, g ∈ attention_groups ex_load_coord → 0 < sp_block_size (sg_spec g)).
  { apply Forall_forall. apply Forall_cons_2; [reflexivity|apply Forall_nil_2]. }
  destruct (loads_all_reported _ (λ _, Some [64]) _ _ (ex_load_at_exec ex_budget [LPut ex_load] ltac:(vm_compute; eauto)))
    as [Hi Hr].
  - intros m Hm. apply list_elem_of_singleton in Hm as ->. split.
    + intros spec [= <-]. discriminate.
    + intros g len drop bss r Hin H. exact (proj1 (proj1 (ex_hit_bound (manager_cls g) _ len (group_ids g) _ (sg_spec g) drop
        (alignment ex_load_coord) bss r (Hg g Hin) H))).
  - split; [exact Hi|]. destruct (plan_load (ex_load_config ex_budget) ex_load) as [[p|e]|] eqn:E.
    + exact (Hr ex_load p (list_elem_of_here _ _) E).
    + exfalso. vm_compute in E. discriminate E.
    + exfalso. vm_compute in E. discriminate E.
Defined.

(** (error): an execution in which a request is reported as loaded
    although its first block was never asked for and is not recorded as a load
    error: the batch before failed, and the loop leaves the rest of the load
    without recording it. *)
Theorem load_break_lost :
  ∃ c h s key blk, load_exec c h s ∧ rm_req_id ex_load ∈ tr_finished h ∧
    (∃ l b i, plan_load c ex_load = Some (Ok (Batches l)) ∧ b ∈ l ∧
       b_keys (lb_batch b) !! i = Some key ∧ lb_blocks b !! i = Some blk) ∧
    head (concat (rm_block_ids ex_load)) = Some blk ∧
    ("r", key) ∉ tr_loaded h ∧ ¬ recorded h s blk ∧ recv_request_queue s = [].
Proof.
  exists (ex_load_config ex_budget), (ex_load_at ex_budget ex_split_events).1,
    (ex_load_at ex_budget ex_split_events).2, "model@tp_rank:0@pcp0@dcp0@pp_rank:0@group:0@0a", 5.
  split; [apply ex_load_at_exec; vm_compute; eauto|]. split; [by vm_compute|]. split.
  - eexists _, (mkLoad (mkBatch ["model@tp_rank:0@pcp0@dcp0@pp_rank:0@group:0@0a"] [[1320]] [[64]]) [5]), 0%nat.
    split; [vm_compute; reflexivity|]. split; [set_solver|done].
  - split; [reflexivity|]. split; [apply (proj1 (bool_decide_eq_false _)); vm_compute; reflexivity|].
    split; [|vm_compute; reflexivity]. intros [H|([|i] & l & Hi & H)].
    + apply (proj2 (bool_decide_eq_true _)) in H. vm_compute in H. discriminate H.
    + vm_compute in Hi. injection Hi as <-. apply (proj2 (bool_decide_eq_true _)) in H. vm_compute in H. discriminate H.
    + vm_compute in Hi. discriminate Hi.
Qed.

(** A load whose plan has no key divides by zero before the [try], so [run]
    logs the error and the request is never reported. *)
Definition ex_masked : ReqMeta :=
  mkReqMeta "r" 12 [[5; 6; 7]] [[10]; [11]; [12]] false (Some (mkLoadSpec 12 12 true 12 [])) None 0 12
    None None.

Lemma empty_load_hangs :
  plan_load (ex_load_config None) ex_masked = Some (Err ZeroDivisionError) ∧
  snd <$> ex_load_run None [LPut ex_masked; LStep 0 None; LStep 0 None] = Some (init_loaders 1).
Proof. split; vm_compute; reflexivity. Qed.
