(* ===== verification/StoreLookup.v ===== *)
(** * The Mooncake store: layouts of a deployment and the lookup

    [mooncake/store/worker.py], class [MooncakeStoreWorker]: which ranks store a
    group and under which key prefixes, and the lookup of a prefix in the store,
    with the frames of [LookupKeyClient] and [LookupKeyServer]. What vLLM's spec
    classes tell apart and the length of its hash views are parameters. *)

From Stdlib Require Import Ascii.
From S2P Require Import Prelude PyData StoreData StoreCoord StoreWorker.

(** vLLM's classes: [type(spec) is FullAttentionSpec], and [isinstance] of the
    two MLA specs; an object whose class is [FullAttentionSpec] itself is of no
    subclass. [hash_view_len] is [len] of a [BlockHashListWithBlockSize] over a
    number of hashes with a scale factor. *)
Class SpecKinds := {
  is_exact_full : KVCacheSpec → bool;
  is_mla : KVCacheSpec → bool;
  exact_full_class : ∀ s, is_exact_full s = true → is_full s = true ∧ is_mla s = false;
  hash_view_len : Z → Z → Z
}.

(** ** Configuration values *)

Definition is_true (j : option json) : bool := match j with Some (JBool true) => true | _ => false end.

(** [math.lcm( *l)] *)
Definition lcm_of (l : list Z) : Z := foldl Z.lcm 1 l.

Definition resolve_store_tp_size (extra : list (string * json)) : option Z :=
  if is_true (dget extra "enable_store_tp_lcm")
  then match dget extra "prefill_tp_sizes" with
       | Some (JList l) =>
           match l with
           | [] => None
           | _ => if forallb (λ j, match as_int j with Some z => 0 <? z | None => false end) l
                  then Some (lcm_of (omap as_int l)) else None
           end
       | _ => None
       end
  else match dget extra "store_tp_size" with
       | Some j => z ← as_int j; if 0 <? z then Some z else None
       | None => None
       end.

(** [str(extra.get(k, "False")).lower() == "true"]; only a bool or a string
    can be written so. *)
Definition says_true (extra : list (string * json)) (k : string) : bool :=
  match dget extra k with
  | Some (JBool b) => b
  | Some (JStr s) => String.eqb (lower s) "true"
  | _ => false
  end.

(** vLLM's [KVCacheLayout]. *)
Inductive kv_cache_layout := Shardable (f : sharded_format) | OtherLayout (name : string).

Definition layout_name (l : kv_cache_layout) : string :=
  match l with
  | Shardable LBHNC => "LBHNC"
  | Shardable LBNHC => "LBNHC"
  | OtherLayout n => n
  end.

(** ** The worker's place in the deployment *)

Record deployment := mkDeployment {
  tp_size : Z;
  pp_size : Z;
  pcp_size : Z;
  dcp_size : Z;
  num_kv_head : Z;
  worker_groups : list KVCacheGroupSpec
}.

Section deployment.
Context `{CD : !CeilDiv} `{SK : !SpecKinds}.
Context (d : deployment).

Definition supports_tp_sharded (l : option sharded_format) (extra : list (string * json)) : bool :=
  match l with
  | None => false
  | Some _ =>
      if negb (pcp_size d =? 1) || negb (dcp_size d =? 1) || negb (zlen (worker_groups d) =? 1) then false
      else match worker_groups d with
           | g :: _ => match kv_cache_spec g with Single s => is_exact_full s | Uniform _ _ => false end
           | [] => false
           end && negb (says_true extra "enable_cross_layers_blocks")
  end.

Definition present (j : option json) : bool :=
  match j with Some JNull | None => false | Some _ => true end.

(** [_select_store_layout]: the store's TP size, the namespace, the layout
    class. *)
Definition select_store_layout (extra : list (string * json)) (layout : kv_cache_layout) :
    result (option Z * string * option sharded_format) :=
  let lcm_enabled := is_true (dget extra "enable_store_tp_lcm") in
  let fallback := (None, "@store_pp:" ++ str_of_Z (pp_size d) ++ "@store_format:rank_local_tp" ++
    str_of_Z (tp_size d) ++ "_layout_" ++ layout_name layout, None)%string in
  if negb (lcm_enabled || present (dget extra "store_tp_size")) then Ok (None, "", None)
  else
    let cls := match layout with Shardable f => Some f | OtherLayout _ => None end in
    match resolve_store_tp_size extra, cls with
    | Some n, Some f =>
        let? divides := if tp_size d <=? n then let? r := py_mod n (tp_size d) in Ok (r =? 0) else Ok false in
        if divides && supports_tp_sharded cls extra then
          let? r := py_mod (num_kv_head d) n in
          if r =? 0 then Ok (Some n, shared_namespace f n (pp_size d), Some f)
          else if num_kv_head d =? 1
          then Ok (None, "@store_pp:" ++ str_of_Z (pp_size d) ++ "@store_format:tp_shared_mqa", None)%string
          else Ok fallback
        else Ok fallback
    | Some n, None =>
        let? _ := if tp_size d <=? n then let? r := py_mod n (tp_size d) in Ok (r =? 0) else Ok false in Ok fallback
    | None, _ => Ok fallback
    end.

(** [_spec_tp_replication_factor] *)
Definition inner_specs (g : KVCacheGroupSpec) : list KVCacheSpec :=
  match kv_cache_spec g with Single s => [s] | Uniform s rest => s :: rest end.

Definition tp_replication_factor (g : KVCacheGroupSpec) : result Z :=
  if 1 <? dcp_size d then Ok 1
  else if existsb is_mamba (inner_specs g) then Ok 1
  else if forallb is_mla (inner_specs g) then Ok (tp_size d)
  else let? q := py_div (tp_size d) (num_kv_head d) in Ok (Z.max 1 q).

Definition group_tp_replication_factors : result (list Z) :=
  rmap tp_replication_factor (worker_groups d).

(** The ranks of one worker. *)
Record rank := mkRank { r_tp : Z; r_pcp : Z; r_dcp : Z; r_pp : Z }.

(** The [metadata] of [__init__]. *)
Definition worker_metadata (model prefix namespace : string) (r : rank) : KeyMetadata :=
  mkKeyMetadata model (r_tp r) (r_pcp r) (r_dcp r) (r_pp r) 0 prefix namespace.

(** One database of [_build_token_databases]. *)
Definition group_metadata (metadata : KeyMetadata) (group_id tp_rank : Z) : KeyMetadata :=
  mkKeyMetadata (model_name metadata) tp_rank (pcp_rank metadata) (dcp_rank metadata) (pp_rank metadata)
    group_id (cache_prefix metadata) (store_namespace metadata).

Definition build_database (metadata : KeyMetadata) (r : rank) (hash_block_size : Z)
    (layout : option (sharded_format * Z)) (factors : list Z) (e : Z * KVCacheGroupSpec) :
    result token_db :=
  let (g, group) := e in
  let bs := group_block_size group in
  let hbs := if prefix_cacheable group then hash_block_size else bs in
  match layout with
  | None =>
      let? factor := py_index factors g in
      let? tp := py_div (r_tp r) factor in
      let m := group_metadata metadata g tp in
      let? _ := check_database bs (Some hbs) in
      let hbs := effective_hash_block_size bs (Some hbs) in
      Ok (mkDb m bs hbs (RankLocal (rank_local m bs hbs)))
  | Some (f, n) =>
      let m := group_metadata metadata g (r_tp r) in
      let? l := sharded f m bs hbs (tp_size d) n (r_tp r) (num_kv_head d) in
      let? _ := check_database bs (Some hbs) in
      Ok (mkDb m bs (effective_hash_block_size bs (Some hbs)) (TPSharded l))
  end.

Definition build_token_databases (metadata : KeyMetadata) (r : rank) (hash_block_size : Z)
    (layout : option (sharded_format * Z)) : result (list token_db) :=
  let? factors := group_tp_replication_factors in
  rmap (build_database metadata r hash_block_size layout factors) (enumerate (worker_groups d)).

(** [rank_namespaces] of [_init_lookup_key_prefixes] *)
Definition rank_namespaces (factor : Z) : result (list rank_namespace) :=
  if 1 <? dcp_size d then
    Ok (seqZ 0 (pcp_size d) ≫= λ pcp, seqZ 0 (tp_size d) ≫= λ tp,
          (λ pp, (tp, pcp, tp mod dcp_size d, pp)) <$> seqZ 0 (pp_size d))
  else
    if pcp_size d <=? 0 then Ok []
    else
      let? n := py_div (tp_size d) factor in
      Ok (seqZ 0 (pcp_size d) ≫= λ pcp, seqZ 0 n ≫= λ shard,
            (λ pp, (shard, pcp, 0, pp)) <$> seqZ 0 (pp_size d)).

Definition init_lookup_key_prefixes (dbs : list token_db) : result (list (list string)) :=
  let? factors := group_tp_replication_factors in
  rmap (λ e : Z * token_db,
    let? factor := py_index factors e.1 in
    let? ns := rank_namespaces factor in
    Ok (lookup_key_prefixes (db_layout e.2) ns)) (enumerate dbs).

End deployment.

(** ** The lookup *)

Section lookup.
Context `{CD : !CeilDiv} `{M : !Managers} `{SK : !SpecKinds}.

Record lookup_config := mkLookupConfig {
  capacity_only : bool;
  lk_coord : coordinator;
  lk_hash_block_size : Z;
  token_dbs : list token_db;
  lk_groups : list KVCacheGroupSpec;
  lookup_prefixes : list (list string)
}.

Context (c : lookup_config) (block_hashes : list block_hash).

(** What is looked up for one group: the index of each hash that may be
    there, with the hash. *)
Definition fine_units (token_len : Z) : result (list block_hash) :=
  let? q := py_div token_len (lk_hash_block_size c) in
  rmap (py_index block_hashes) (seqZ 0 (Z.min (zlen block_hashes) q)).

Definition spec_hashes_len (block_size : Z) : result Z :=
  let hbs := hash_block_size (lk_coord c) in
  if block_size =? hbs then Ok (zlen block_hashes)
  else
    let? r := py_mod block_size hbs in
    let? _ := assert_ (r =? 0) in
    Ok (hash_view_len (zlen block_hashes) (block_size / hbs)).

Definition coarse_units (token_len : Z) (mask : option (list bool)) (db : token_db)
    (g : KVCacheGroupSpec) : result (list block_hash) :=
  let? n := spec_hashes_len (group_block_size g) in
  let max_chunks := Z.min n (cdiv token_len (db_block_size db)) in
  let limit := match mask with None => max_chunks | Some m => Z.min max_chunks (zlen m) end in
  let ids := filter (λ i, Is_true match mask with None => true | Some m => nth (Z.to_nat i) m false end)
               (seqZ 0 limit) in
  rmap (chunk_hash_at block_hashes (hash_block_size (lk_coord c)) (group_block_size g)) ids.

(** The candidates of one group: for each hash its group, the hash and the
    keys, one per prefix. *)
Definition candidate : Type := Z * block_hash * list string.

Definition group_candidates (token_len : Z) (masks : option (list (option (list bool))))
    (e : Z * token_db) : result (list candidate) :=
  let (g, db) := e in
  let? group := py_index (lk_groups c) g in
  if negb (prefix_cacheable group) then Ok []
  else
    let? prefixes := py_index (lookup_prefixes c) g in
    let? hashes := match masks with
                   | None => fine_units token_len
                   | Some ms => let? m := py_index ms g in coarse_units token_len m db group
                   end in
    Ok ((λ h, (g, h, (λ p, build_key_string p (hex h)) <$> prefixes)) <$> hashes).

Definition candidates (token_len : Z) : result (list candidate) :=
  let? masks := if enable_partial_hash_hits (lk_coord c) then Ok None
                else let? ms := lookup_mask (lk_coord c) token_len in Ok (Some ms) in
  let? l := rmap (group_candidates token_len masks) (enumerate (token_dbs c)) in
  Ok (concat l).

Definition candidate_keys (l : list candidate) : list string := concat (snd <$> l).

(** [all(res[pos + j] == 1 for j in range(count))] *)
Definition all_present (res : list Z) (pos count : Z) : result bool :=
  rall (λ j, let? v := py_index res (pos + j) in Ok (v =? 1)) (seqZ 0 count).

Definition add_present (res : list Z) (acc : Z * gset (Z * block_hash)) (x : candidate) :
    result (Z * gset (Z * block_hash)) :=
  let count := zlen x.2 in
  let? b := all_present res acc.1 count in
  Ok (acc.1 + count, if b then acc.2 ∪ {[x.1]} else acc.2).

Definition exists_set (l : list candidate) (res : list Z) : result (gset (Z * block_hash)) :=
  let? acc := rfold (add_present res) (0, ∅) l in Ok acc.2.

(** The inner [for ... else] of [_tail_key_boundaries]: the first hash of the
    pool between the hit and the end of its chunk. *)
Fixpoint first_tail_key (pool : ExternalCachedBlockPool) (g : Z) (ids : list Z) : result Z :=
  match ids with
  | [] => Err AssertionError
  | i :: ids =>
      let? h := py_index block_hashes i in
      if contains pool g h then Ok ((i + 1) * lk_hash_block_size c) else first_tail_key pool g ids
  end.

Definition tail_boundary (hit_length : Z) (pool : ExternalCachedBlockPool) (idx : Z)
    (e : Z * token_db) : result (option TailKeyBoundary) :=
  let (g, db) := e in
  let? group := py_index (lk_groups c) g in
  if negb (prefix_cacheable group) then Ok None
  else
    let chunk_id := cdiv hit_length (db_block_size db) - 1 in
    let? h := py_index block_hashes idx in
    let hit := contains pool g h in
    let? _ := if negb (enable_partial_hash_hits (lk_coord c)) then assert_ hit else Ok () in
    if hit then Ok (Some (mkBoundary g hit_length))
    else
      let? q := py_div ((chunk_id + 1) * db_block_size db) (lk_hash_block_size c) in
      let stop := Z.min q (zlen block_hashes) in
      let? n := first_tail_key pool g (seqZ (idx + 1) (stop - (idx + 1))) in
      Ok (Some (mkBoundary g n)).

Definition tail_key_boundaries_of (hit_length : Z) (pool : ExternalCachedBlockPool) :
    result (list TailKeyBoundary) :=
  if hit_length <=? 0 then Ok []
  else
    let? q := py_div hit_length (lk_hash_block_size c) in
    let? l := rmap (tail_boundary hit_length pool (q - 1)) (enumerate (token_dbs c)) in
    Ok (omap id l).

(** The hit of a pool, below the request's end; [None] stands for the early
    [return MooncakeLookupResult(0)]. *)
Definition pool_hit (num_tokens token_len : Z) (pool : ExternalCachedBlockPool) :
    option (result (option Z)) :=
  r ← find_longest_cache_hit (lk_coord c) block_hashes token_len pool true;
  match (r : result (list (list bool) * Z)) with
  | Err e => Some (Err e)
  | Ok (_, hit) =>
      if num_tokens <=? hit then
        match align_lookup_length (lk_coord c) (num_tokens - 1) with
        | Err e => Some (Err e)
        | Ok usable =>
            if usable <=? 0 then Some (Ok None)
            else
              r ← find_longest_cache_hit (lk_coord c) block_hashes usable pool true;
              Some (let? x := (r : result (list (list bool) * Z)) in Ok (Some x.2))
        end
      else Some (Ok (Some hit))
  end.

(** The lookup up to the store's answer, and from it: [None] is an exception
    of the store. *)
Definition lookup_request (num_tokens : Z) : result (option (Z * list candidate)) :=
  if capacity_only c then Ok None
  else
    let? token_len := align_lookup_length (lk_coord c) num_tokens in
    if bool_decide (block_hashes = []) || (token_len <=? 0) then Ok None
    else
      let? l := candidates token_len in
      match candidate_keys l with
      | [] => Ok None
      | _ => Ok (Some (token_len, l))
      end.

Definition lookup_answer (num_tokens token_len : Z) (l : list candidate) (res : option (list Z)) :
    option (result MooncakeLookupResult) :=
  match res with
  | None => Some (Ok (mkLookup 0 []))
  | Some res =>
      match exists_set l res with
      | Err e => Some (Err e)
      | Ok found =>
          let pool := mkPool (Some found) (lk_hash_block_size c) in
          r ← pool_hit num_tokens token_len pool;
          Some (let? hit := (r : result (option Z)) in
                match hit with
                | None => Ok (mkLookup 0 [])
                | Some hit => let? bs := tail_key_boundaries_of hit pool in Ok (mkLookup hit bs)
                end)
      end
  end.

(** [lookup] with a store that answers by [batch_is_exist]; the outer
    [option] is the coordinator's fuel. *)
Definition lookup (batch_is_exist : list string → option (list Z)) (num_tokens : Z) :
    option (result MooncakeLookupResult) :=
  match lookup_request num_tokens with
  | Err e => Some (Err e)
  | Ok None => Some (Ok (mkLookup 0 []))
  | Ok (Some (token_len, l)) => lookup_answer num_tokens token_len l (batch_is_exist (candidate_keys l))
  end.

End lookup.

(** ** The lookup channel

    The frames [LookupKeyClient._lookup] sends and [LookupKeyServer] reads. *)

Definition request_frames (num_tokens : Z) (block_hashes : list block_hash) : result (list Z * list Z * list Z) :=
  let hash_len := match block_hashes with h :: _ => zlen h | [] => 0 end in
  let? n := to_bytes 4 num_tokens in
  let? k := to_bytes 2 hash_len in
  Ok (n, k, concat block_hashes).

Definition read_frames (f : list Z * list Z * list Z) : Z * BlobBlockHashes :=
  let '(n, k, b) := f in (from_bytes n, mkBlob b (from_bytes k)).

(** The hashes a [BlobBlockHashes] holds, as the code indexes them. *)
Definition blob_hashes (b : BlobBlockHashes) : result (list block_hash) :=
  rmap (blob_get b) (seqZ 0 (blob_len b)).
