(* ===== verification/StoreLookupThms.v ===== *)
(** * Properties of the store's layouts and lookup

    The key prefixes a lookup asks about are those the ranks of the deployment
    store under, and each block of each of them is stored by exactly one rank;
    a lookup reports a prefix the store has confirmed; the lookup channel's
    frames round-trip. *)

From S2P Require Import Prelude PyData StoreData StoreThms StoreCoord StoreCoordThms StoreWorker StoreLookup.

(** ** The deployment *)

(** The prefixes under which a database stores. *)
Definition db_prefixes (db : token_db) : list string :=
  match db_layout db with
  | RankLocal l => [rl_key_prefix l]
  | TPSharded l =>
      (λ s, build_prefix (l_metadata (sh_base l)) (Some s) None None None) <$> store_shard_ids l
  end.

Section deployment.
Context `{CD : !CeilDiv} `{SK : !SpecKinds} (d : deployment) (model prefix namespace : string)
  (hash_block_size : Z).

Record in_deployment (r : rank) : Prop := {
  id_tp : 0 ≤ r_tp r < tp_size d;
  id_pcp : 0 ≤ r_pcp r < pcp_size d;
  id_pp : 0 ≤ r_pp r < pp_size d;
  id_dcp : r_dcp r = if 1 <? dcp_size d then r_tp r mod dcp_size d else 0
}.

Definition dbs_of (layout : option (sharded_format * Z)) (r : rank) : result (list token_db) :=
  build_token_databases d (worker_metadata model prefix namespace r) r hash_block_size layout.

(** Rank [r] stores group [g] under prefix [p]. *)
Definition stores_under (layout : option (sharded_format * Z)) (g : nat) (p : string) (r : rank) : Prop :=
  in_deployment r ∧ ∃ dbs db, dbs_of layout r = Ok dbs ∧ dbs !! g = Some db ∧ p ∈ db_prefixes db.

Definition key_meta (g tp pcp dcp pp : Z) : KeyMetadata := mkKeyMetadata model tp pcp dcp pp g prefix namespace.

Definition prefix_text (m : KeyMetadata) : string := build_prefix m None None None None.

Lemma prefix_text_inj g tp pcp dcp pp tp' pcp' dcp' pp' :
  prefix_text (key_meta g tp pcp dcp pp) = prefix_text (key_meta g tp' pcp' dcp' pp') →
  tp = tp' ∧ pcp = pcp' ∧ dcp = dcp' ∧ pp = pp'.
Proof. intros H%build_prefix_inj; [|done]. by injection H. Qed.

(** The layout that a configuration selects. *)
Definition selected (sel : option Z * string * option sharded_format) : option (sharded_format * Z) :=
  match sel with
  | (Some n, _, Some f) => Some (f, n)
  | _ => None
  end.

(** What every deployment satisfies. *)
Record deployment_ok : Prop := {
  do_tp : 0 < tp_size d;
  do_heads : 0 < num_kv_head d;
  do_split : (num_kv_head d | tp_size d) ∨ tp_size d < num_kv_head d
}.

Lemma replication_divides g f :
  deployment_ok → tp_replication_factor d g = Ok f → 0 < f ∧ (f | tp_size d) ∧ (1 < dcp_size d → f = 1).
Proof.
  intros [Htp Hkv Hs]. unfold tp_replication_factor. destruct (Z.ltb_spec 1 (dcp_size d)).
  { intros [= <-]. split_and!; [lia|apply Z.divide_1_l|done]. }
  destruct (existsb _ _); [intros [= <-]; split_and!; [lia|apply Z.divide_1_l|lia]|].
  destruct (forallb _ _); [intros [= <-]; split_and!; [lia|done|lia]|].
  intros (q & [Hq ->]%py_div_Ok & Hr%Ok_inj)%rbind_Ok. subst f. split_and!; [lia| |lia].
  destruct Hs as [[k Hk]|Hlt].
  - rewrite Hk, Z.div_mul by lia. rewrite Z.max_r by nia. apply Z.divide_factor_l.
  - rewrite Z.div_small by lia. apply Z.divide_1_l.
Qed.

Lemma factors_at factors g f :
  deployment_ok → group_tp_replication_factors d = Ok factors → py_index factors g = Ok f → 0 ≤ g →
  0 < f ∧ (f | tp_size d) ∧ (1 < dcp_size d → f = 1).
Proof.
  intros Hd Hf Hg Hge. rewrite py_index_nonneg in Hg by done. apply of_option_Ok in Hg.
  apply rmap_Ok in Hf. destruct (Forall2_lookup_r _ _ _ _ _ Hf Hg) as (group & _ & Hr).
  by eapply replication_divides.
Qed.

(** A database without and with shards. *)
Lemma build_local r factors g group db :
  build_database d (worker_metadata model prefix namespace r) r hash_block_size None factors (g, group) = Ok db →
  ∃ f, py_index factors g = Ok f ∧ f ≠ 0 ∧
    db_prefixes db = [prefix_text (key_meta g (r_tp r / f) (r_pcp r) (r_dcp r) (r_pp r))] ∧
    ∀ ns, lookup_key_prefixes (db_layout db) ns =
      (λ n : rank_namespace, let '(tp, pcp, dcp, pp) := n in prefix_text (key_meta g tp pcp dcp pp)) <$> ns.
Proof.
  cbn. intros (f & Hf & (tp & [Hne ->]%py_div_Ok & (u & _ & H)%rbind_Ok)%rbind_Ok)%rbind_Ok.
  apply Ok_inj in H as <-. exists f. split_and!; [done|done|done|]. intros ns. apply list_fmap_ext.
  by intros ? [[[? ?] ?] ?] _.
Qed.

Lemma build_local_other r r' factors g group db :
  build_database d (worker_metadata model prefix namespace r) r hash_block_size None factors (g, group) = Ok db →
  ∃ db', build_database d (worker_metadata model prefix namespace r') r' hash_block_size None factors (g, group) = Ok db'.
Proof.
  cbn. intros (f & Hf & (tp & [Hne _]%py_div_Ok & (u & Hu & H)%rbind_Ok)%rbind_Ok)%rbind_Ok.
  rewrite Hf. cbn. unfold py_div. rewrite (proj2 (Z.eqb_neq _ _) Hne). cbn. rewrite Hu. cbn. eauto.
Qed.

(** The shards of a rank, and what a rank looks up. *)
Lemma build_sharded r factors fmt n g group db :
  build_database d (worker_metadata model prefix namespace r) r hash_block_size (Some (fmt, n)) factors (g, group) = Ok db →
  tp_size d ≠ 0 ∧
  db_prefixes db = (λ s, prefix_text (key_meta g s (r_pcp r) (r_dcp r) (r_pp r))) <$>
    seqZ (r_tp r * (n / tp_size d)) (n / tp_size d) ∧
  ∀ ns, lookup_key_prefixes (db_layout db) ns = seqZ 0 n ≫= λ s,
    (λ pp, prefix_text (key_meta g s (r_pcp r) (r_dcp r) pp)) <$> sorted_set (snd <$> ns).
Proof.
  cbn. intros (l & Hl & (u & _ & H)%rbind_Ok)%rbind_Ok. apply Ok_inj in H as <-. revert Hl. unfold sharded.
  intros (per & [Hne ->]%py_div_Ok & (heads & _ & (lh & _ & Hl)%rbind_Ok)%rbind_Ok)%rbind_Ok.
  apply Ok_inj in Hl as <-. split_and!; [done|done|]. intros ns. done.
Qed.

Lemma build_other r r' layout factors g group db :
  build_database d (worker_metadata model prefix namespace r) r hash_block_size layout factors (g, group) = Ok db →
  ∃ db', build_database d (worker_metadata model prefix namespace r') r' hash_block_size layout factors (g, group) = Ok db'.
Proof.
  destruct layout as [[fmt n]|]; [|by apply build_local_other]. cbn.
  intros (l & Hl & (u & Hu & _)%rbind_Ok)%rbind_Ok. revert Hl. unfold sharded.
  intros (per & Hp & (heads & Hh & (lh & Hlh & Hl)%rbind_Ok)%rbind_Ok)%rbind_Ok.
  rewrite Hp. cbn. rewrite Hh. cbn. rewrite Hlh. cbn. rewrite Hu. cbn. eauto.
Qed.

Lemma dbs_lookup layout r dbs g db :
  dbs_of layout r = Ok dbs → dbs !! g = Some db →
  ∃ factors group, group_tp_replication_factors d = Ok factors ∧ worker_groups d !! g = Some group ∧
    build_database d (worker_metadata model prefix namespace r) r hash_block_size layout factors (Z.of_nat g, group) = Ok db.
Proof.
  unfold dbs_of, build_token_databases. intros (factors & Hf & H)%rbind_Ok Hg. apply rmap_Ok in H.
  destruct (Forall2_lookup_r _ _ _ _ _ H Hg) as ([i group] & He & Hb). apply enumerate_at in He as [Hi He]. cbn in Hi, He. subst i.
  exists factors, group. split_and!; [done|exact He|exact Hb].
Qed.

Lemma dbs_other layout r r' dbs : dbs_of layout r = Ok dbs → ∃ dbs', dbs_of layout r' = Ok dbs' ∧ length dbs' = length dbs.
Proof.
  unfold dbs_of, build_token_databases. intros (factors & -> & H)%rbind_Ok. cbn [rbind].
  revert dbs H. induction (enumerate (worker_groups d)) as [|[g group] l IH]; intros dbs H; cbn [rmap] in *.
  - apply Ok_inj in H as <-. by exists [].
  - apply rbind_Ok in H as (db & Hb & (bs & Hbs & H)%rbind_Ok). apply Ok_inj in H as <-.
    destruct (build_other r r' _ _ _ _ _ Hb) as [db' Hb']. destruct (IH _ Hbs) as (bs' & Hbs' & Hl).
    rewrite Hb'. cbn [rbind]. rewrite Hbs'. cbn [rbind]. eexists. split; [done|]. cbn. by rewrite Hl.
Qed.

Lemma namespaces_elem {A} (f : Z → Z → Z → A) np nt npp x :
  x ∈ (seqZ 0 np ≫= λ pcp, seqZ 0 nt ≫= λ tp, f tp pcp <$> seqZ 0 npp) ↔
  ∃ tp pcp pp, x = f tp pcp pp ∧ 0 ≤ tp < nt ∧ 0 ≤ pcp < np ∧ 0 ≤ pp < npp.
Proof.
  split.
  - intros (pcp & (tp & (pp & -> & Hpp%elem_of_seqZ)%list_elem_of_fmap & Htp%elem_of_seqZ)%list_elem_of_bind
      & Hpcp%elem_of_seqZ)%list_elem_of_bind. exists tp, pcp, pp. split; [done|lia].
  - intros (tp & pcp & pp & -> & ? & ? & ?). apply list_elem_of_bind. exists pcp. split; [|apply elem_of_seqZ; lia].
    apply list_elem_of_bind. exists tp. split; [|apply elem_of_seqZ; lia]. apply list_elem_of_fmap_2, elem_of_seqZ. lia.
Qed.

(** The namespaces of a replication factor are the ranks', merged by it. *)
Lemma rank_namespaces_elem f ns tp pcp dcp pp :
  0 < tp_size d → 0 < f → (f | tp_size d) → (1 < dcp_size d → f = 1) → rank_namespaces d f = Ok ns →
  (tp, pcp, dcp, pp) ∈ ns ↔
  ∃ r, in_deployment r ∧ tp = r_tp r / f ∧ pcp = r_pcp r ∧ dcp = r_dcp r ∧ pp = r_pp r.
Proof.
  intros Htp Hf [k Hk] Hdcp. unfold rank_namespaces. destruct (Z.ltb_spec 1 (dcp_size d)) as [Hd|Hd].
  - intros [= <-]. rewrite (Hdcp Hd). setoid_rewrite Z.div_1_r.
    rewrite (namespaces_elem (λ tp pcp pp, (tp, pcp, tp mod dcp_size d, pp))). split.
    + intros (tp' & pcp' & pp' & [= -> -> -> ->] & H1 & H2 & H3).
      exists (mkRank tp' pcp' (tp' mod dcp_size d) pp'). split_and!; try done.
      split; cbn; [lia..|]. by rewrite (proj2 (Z.ltb_lt _ _) Hd).
    + intros (r & [H1 H2 H3 H4] & -> & -> & -> & ->). rewrite (proj2 (Z.ltb_lt _ _) Hd) in H4. rewrite H4.
      by exists (r_tp r), (r_pcp r), (r_pp r).
  - destruct (Z.leb_spec (pcp_size d) 0) as [Hp|Hp].
    { intros [= <-]. split; [by intros ?%elem_of_nil|]. intros (r & [_ H2 _ _] & _). lia. }
    intros (n & [_ ->]%py_div_Ok & H)%rbind_Ok. apply Ok_inj in H as <-.
    rewrite (namespaces_elem (λ tp pcp pp, (tp, pcp, 0, pp))), Hk, Z.div_mul by lia. split.
    + intros (tp' & pcp' & pp' & [= -> -> -> ->] & H1 & H2 & H3).
      exists (mkRank (tp' * f) pcp' 0 pp'). cbn. rewrite Z.div_mul by lia. split_and!; try done.
      split; cbn; [nia|lia..|]. by rewrite (proj2 (Z.ltb_ge _ _) Hd).
    + intros (r & [H1 H2 H3 H4] & -> & -> & -> & ->). rewrite (proj2 (Z.ltb_ge _ _) Hd) in H4. rewrite H4.
      exists (r_tp r / f), (r_pcp r), (r_pp r). split; [done|]. split; [|done]. split.
      * apply Z.div_pos; lia.
      * apply Z.div_lt_upper_bound; lia.
Qed.

(** The rank that puts chunk [i] among the replicas of a group: the put steps
    of the sending thread are the replication factors. *)
Context `{M : !Managers} (coord : coordinator).

Definition turn (factors : list Z) (g : nat) (i : Z) (r : rank) : Prop :=
  in_put_step (mkSenderConfig coord [] (r_tp r) factors [] false false) (Z.of_nat g) i = Ok true.

Lemma turn_iff factors g i r f :
  py_index factors (Z.of_nat g) = Ok f → f ≠ 0 →
  turn factors g i r ↔ i mod f = (r_tp r + Z.of_nat g) mod f.
Proof.
  intros Hf Hne. unfold turn, in_put_step. cbn. rewrite Hf. cbn. unfold py_mod.
  rewrite (proj2 (Z.eqb_neq _ _) Hne). cbn. split.
  - by intros H%Ok_inj%Z.eqb_eq.
  - intros ->. by rewrite Z.eqb_refl.
Qed.

(** The prefixes [ps] of group [g] are those of the ranks, and every chunk of
    each has exactly one rank that stores it. *)
Definition lookup_exact (layout : option (sharded_format * Z)) (factors : list Z) (g : nat)
    (ps : list string) : Prop :=
  (∀ p, p ∈ ps ↔ ∃ r, stores_under layout g p r) ∧
  ∀ p i, p ∈ ps → ∃ r, (stores_under layout g p r ∧ turn factors g i r) ∧
    ∀ r', stores_under layout g p r' ∧ turn factors g i r' → r' = r.

Lemma init_prefixes_at dbs pss g ps :
  init_lookup_key_prefixes d dbs = Ok pss → pss !! g = Some ps →
  ∃ factors f ns db, group_tp_replication_factors d = Ok factors ∧ py_index factors (Z.of_nat g) = Ok f ∧
    rank_namespaces d f = Ok ns ∧ dbs !! g = Some db ∧ ps = lookup_key_prefixes (db_layout db) ns.
Proof.
  unfold init_lookup_key_prefixes. intros (factors & Hf & H)%rbind_Ok Hg. apply rmap_Ok in H.
  destruct (Forall2_lookup_r _ _ _ _ _ H Hg) as ([i db] & He & Hb). apply enumerate_at in He as [Hi He]. cbn in Hi, He. subst i.
  apply rbind_Ok in Hb as (f & Hfg & (ns & Hns & Hb%Ok_inj)%rbind_Ok). subst ps. by exists factors, f, ns, db.
Qed.

(** One of the [f] ranks of a namespace has its turn. *)
Lemma turn_unique f k g i : 0 < f → ∃ tp, (tp / f = k ∧ i mod f = (tp + g) mod f) ∧
  ∀ tp', tp' / f = k ∧ i mod f = (tp' + g) mod f → tp' = tp.
Proof.
  intros Hf. exists (k * f + (i - g) mod f). assert (Hb := Z.mod_pos_bound (i - g) f Hf). split; [split|].
  - rewrite Z.div_add_l, Z.div_small by lia. lia.
  - rewrite <- Z.add_assoc, Z.add_comm, Z.mod_add, Zplus_mod_idemp_l by lia. f_equal. lia.
  - intros tp' [Hk Hm]. assert (Hd := Z.div_mod tp' f ltac:(lia)). rewrite Hk in Hd.
    enough (tp' mod f = (i - g) mod f) by lia. rewrite Zminus_mod, Hm, <- Zminus_mod. f_equal. lia.
Qed.

(** A rank without shards: what it stores under. *)
Lemma stores_local g p r r0 dbs0 db0 factors f :
  dbs_of None r0 = Ok dbs0 → dbs0 !! g = Some db0 → group_tp_replication_factors d = Ok factors →
  py_index factors (Z.of_nat g) = Ok f →
  stores_under None g p r ↔
  in_deployment r ∧ p = prefix_text (key_meta (Z.of_nat g) (r_tp r / f) (r_pcp r) (r_dcp r) (r_pp r)).
Proof.
  intros H0 Hg0 Hfac Hf. unfold stores_under. split.
  - intros (Hr & dbs & db & Hd & Hg & Hp). split; [done|].
    destruct (dbs_lookup _ _ _ _ _ Hd Hg) as (fac & group & Hfac' & _ & Hb). assert (fac = factors) as -> by congruence.
    destruct (build_local _ _ _ _ _ Hb) as (f' & Hf' & _ & E & _). assert (f' = f) as -> by congruence.
    rewrite E in Hp. by apply list_elem_of_singleton in Hp.
  - intros [Hr ->]. split; [done|]. destruct (dbs_other _ r0 r _ H0) as (dbs & Hd & Hl).
    destruct (lookup_lt_is_Some_2 dbs g) as [db Hg]; [rewrite Hl; by eapply lookup_lt_Some|].
    exists dbs, db. split_and!; [done|done|].
    destruct (dbs_lookup _ _ _ _ _ Hd Hg) as (fac & group & Hfac' & _ & Hb). assert (fac = factors) as -> by congruence.
    destruct (build_local _ _ _ _ _ Hb) as (f' & Hf' & _ & E & _). assert (f' = f) as -> by congruence.
    rewrite E. apply list_elem_of_here.
Qed.

Lemma local_exact r0 dbs pss g ps factors :
  deployment_ok → dbs_of None r0 = Ok dbs → init_lookup_key_prefixes d dbs = Ok pss → pss !! g = Some ps →
  group_tp_replication_factors d = Ok factors → lookup_exact None factors g ps.
Proof.
  intros Hok Hdbs Hi Hg Hfac. destruct (init_prefixes_at _ _ _ _ Hi Hg) as (fac & f & ns & db & Hfac' & Hf & Hns & Hdb & ->).
  assert (fac = factors) as -> by congruence.
  destruct (factors_at _ _ _ Hok Hfac Hf ltac:(lia)) as (Hf0 & Hdiv & Hdcp).
  destruct (dbs_lookup _ _ _ _ _ Hdbs Hdb) as (fac & group & Hfac'' & _ & Hb). assert (fac = factors) as -> by congruence.
  destruct (build_local _ _ _ _ _ Hb) as (? & _ & _ & _ & Hl). rewrite Hl.
  assert (Hn := λ tp pcp dcp pp, rank_namespaces_elem f ns tp pcp dcp pp (do_tp Hok) Hf0 Hdiv Hdcp Hns).
  assert (Hs := λ p r, stores_local g p r _ _ _ _ _ Hdbs Hdb Hfac Hf).
  assert (Hps : ∀ p, p ∈ ((λ n : rank_namespace, let '(tp, pcp, dcp, pp) := n in
    prefix_text (key_meta (Z.of_nat g) tp pcp dcp pp)) <$> ns) ↔ ∃ r, stores_under None g p r).
  { intros p. rewrite list_elem_of_fmap. split.
    - intros ([[[tp pcp] dcp] pp] & -> & (r & Hr & -> & -> & -> & ->)%Hn). exists r. by apply Hs.
    - intros (r & [Hr ->]%Hs). exists (r_tp r / f, r_pcp r, r_dcp r, r_pp r). split; [done|]. apply Hn. by exists r. }
  split; [exact Hps|]. intros p i (r & [Hr ->]%Hs)%Hps.
  destruct (turn_unique f (r_tp r / f) (Z.of_nat g) i Hf0) as (tp & [Htp Hturn] & Hu).
  assert (Hin : in_deployment (mkRank tp (r_pcp r) (if 1 <? dcp_size d then tp mod dcp_size d else 0) (r_pp r))).
  { destruct Hr as [H1 H2 H3 H4]. split; cbn; [|done..]. destruct Hdiv as [k Hk].
    assert (Hd1 := Z.div_mod tp f ltac:(lia)). assert (Hd2 := Z.mod_pos_bound tp f Hf0). rewrite Htp in Hd1.
    assert (r_tp r / f < k) by (apply Z.div_lt_upper_bound; lia). assert (0 ≤ r_tp r / f) by (apply Z.div_pos; lia). nia. }
  eexists. split; [split; [apply Hs; split; [exact Hin|]|by apply (turn_iff factors g i _ f Hf ltac:(lia))]|].
  - cbn. rewrite Htp. enough ((if 1 <? dcp_size d then tp mod dcp_size d else 0) = r_dcp r) as -> by done.
    rewrite (id_dcp _ Hr). destruct (Z.ltb_spec 1 (dcp_size d)) as [Hd|]; [|done].
    rewrite (Hdcp Hd), !Z.div_1_r in Htp. by rewrite Htp.
  - intros r' [[Hr' E]%Hs Ht'%(turn_iff factors g i _ f Hf ltac:(lia))].
    apply prefix_text_inj in E as (E1 & E2 & E3 & E4).
    assert (Hr'' := id_dcp _ Hr'). destruct r' as [t p c q]. cbn in *. subst p q.
    assert (t = tp) as -> by (by apply Hu). by rewrite Hr''.
Qed.

(** A sharded layout is selected for one full-attention group, with the store's
    shards divided among the ranks and heads enough for every rank. *)
Lemma select_sharded extra cl n ns f :
  0 < tp_size d → select_store_layout d extra cl = Ok (Some n, ns, Some f) →
  pcp_size d = 1 ∧ dcp_size d = 1 ∧ tp_size d ≤ n ∧ (tp_size d | n) ∧ (n | num_kv_head d) ∧
  ∃ g s, worker_groups d = [g] ∧ kv_cache_spec g = Single s ∧ is_exact_full s = true.
Proof.
  intros Htp. unfold select_store_layout. destruct (negb _); [done|].
  destruct (resolve_store_tp_size extra) as [n'|]; [|by destruct cl].
  destruct cl as [f'|]; [|destruct (Z.leb_spec (tp_size d) n'); intros (? & ? & ?)%rbind_Ok; done].
  intros (b & Hb & H)%rbind_Ok. destruct (b && _) eqn:E; [|done]. apply andb_true_iff in E as [-> E].
  apply rbind_Ok in H as (r & [Hr0 Hr]%py_mod_Ok & H). destruct (Z.eqb_spec r 0) as [Hz|]; [|by destruct (num_kv_head d =? 1)].
  apply Ok_inj in H. injection H as -> <- ->.
  destruct (Z.leb_spec (tp_size d) n); [|done]. apply rbind_Ok in Hb as (k & [_ Hk]%py_mod_Ok & Hb).
  apply Ok_inj, Z.eqb_eq in Hb. revert E. cbn. destruct (Z.eqb_spec (pcp_size d) 1); [|done].
  destruct (Z.eqb_spec (dcp_size d) 1); [|done]. destruct (Z.eqb_spec (zlen (worker_groups d)) 1) as [Hz1|]; [|done].
  cbn. intros [E _]%andb_true_iff. destruct (worker_groups d) as [|g [|]] eqn:Hw; [done| |].
  2:{ unfold zlen in Hz1. cbn in Hz1. lia. }
  destruct (kv_cache_spec g) as [s|] eqn:Hs; [|done].
  split_and!; [done|done|lia|apply Z.mod_divide; lia|apply Z.mod_divide; lia|]. by exists g, s.
Qed.

Lemma sharded_factor extra cl n ns f g fac :
  deployment_ok → select_store_layout d extra cl = Ok (Some n, ns, Some f) →
  group_tp_replication_factors d = Ok fac → py_index fac (Z.of_nat g) = Ok 1 ∨ worker_groups d !! g = None.
Proof.
  intros [Htp Hkv _] H Hf. destruct (select_sharded _ _ _ _ _ Htp H) as (_ & Hd & Hle & _ & Hn & gr & s & Hw & Hs & Hex).
  destruct (worker_groups d !! g) as [x|] eqn:Hg; [left|by right].
  rewrite Hw in Hg. destruct g as [|g]; [|done]. injection Hg as <-.
  revert Hf. unfold group_tp_replication_factors. rewrite Hw. cbn. intros (x & Hx & Hf)%rbind_Ok.
  cbn in Hf. apply Ok_inj in Hf as <-. enough (x = 1) as -> by done. revert Hx. unfold tp_replication_factor, inner_specs.
  rewrite Hs, Hd. cbn. destruct (exact_full_class s Hex) as [Hfull ->].
  assert (is_mamba s = false) as -> by (unfold is_full, is_mamba in *; by destruct (sp_class s)). cbn.
  intros (q & [_ ->]%py_div_Ok & Hx%Ok_inj)%rbind_Ok. subst x. apply Z.divide_pos_le in Hn; [|done].
  enough (tp_size d / num_kv_head d ≤ 1) by lia. apply Z.lt_succ_r, Z.div_lt_upper_bound; nia.
Qed.

Lemma grid_elem {A} (f : Z → Z → A) n l x :
  x ∈ (seqZ 0 n ≫= λ s, f s <$> l) ↔ ∃ s y, x = f s y ∧ 0 ≤ s < n ∧ y ∈ l.
Proof.
  split.
  - intros (s & (y & -> & Hy)%list_elem_of_fmap & Hs%elem_of_seqZ)%list_elem_of_bind. by exists s, y.
  - intros (s & y & -> & Hs & Hy). apply list_elem_of_bind. exists s. split; [|by apply elem_of_seqZ].
    by apply list_elem_of_fmap_2.
Qed.

Lemma sorted_set_elem l x : x ∈ sorted_set l ↔ x ∈ l.
Proof. unfold sorted_set. by rewrite isort_perm, elem_of_remove_dups. Qed.

(** A rank with shards: what it stores under. *)
Lemma stores_sharded f n g p r r0 dbs0 db0 :
  dbs_of (Some (f, n)) r0 = Ok dbs0 → dbs0 !! g = Some db0 →
  stores_under (Some (f, n)) g p r ↔
  in_deployment r ∧ ∃ s, p = prefix_text (key_meta (Z.of_nat g) s (r_pcp r) (r_dcp r) (r_pp r)) ∧
    r_tp r * (n / tp_size d) ≤ s < r_tp r * (n / tp_size d) + n / tp_size d.
Proof.
  intros H0 Hg0. unfold stores_under. split.
  - intros (Hr & dbs & db & Hd & Hg & Hp). split; [done|].
    destruct (dbs_lookup _ _ _ _ _ Hd Hg) as (fac & group & _ & _ & Hb).
    destruct (build_sharded _ _ _ _ _ _ _ Hb) as (_ & E & _). rewrite E in Hp.
    apply list_elem_of_fmap in Hp as (s & -> & Hs%elem_of_seqZ). by exists s.
  - intros (Hr & s & -> & Hs). split; [done|]. destruct (dbs_other _ r0 r _ H0) as (dbs & Hd & Hl).
    destruct (lookup_lt_is_Some_2 dbs g) as [db Hg]; [rewrite Hl; by eapply lookup_lt_Some|].
    exists dbs, db. split_and!; [done|done|].
    destruct (dbs_lookup _ _ _ _ _ Hd Hg) as (fac & group & _ & _ & Hb).
    destruct (build_sharded _ _ _ _ _ _ _ Hb) as (_ & E & _). rewrite E.
    apply list_elem_of_fmap. exists s. split; [done|]. by apply elem_of_seqZ.
Qed.

Lemma sharded_exact extra cl n ns f r0 dbs pss g ps factors :
  deployment_ok → in_deployment r0 → select_store_layout d extra cl = Ok (Some n, ns, Some f) →
  dbs_of (Some (f, n)) r0 = Ok dbs → init_lookup_key_prefixes d dbs = Ok pss → pss !! g = Some ps →
  group_tp_replication_factors d = Ok factors → lookup_exact (Some (f, n)) factors g ps.
Proof.
  intros Hok Hr0 Hsel Hdbs Hi Hg Hfac. assert (Htp := do_tp Hok).
  destruct (select_sharded _ _ _ _ _ Htp Hsel) as (Hpcp & Hdcp & Hle & [per Hper] & _).
  destruct (init_prefixes_at _ _ _ _ Hi Hg) as (fac & f1 & nsp & db & Hfac' & Hf1 & Hns & Hdb & ->).
  assert (fac = factors) as -> by congruence.
  destruct (dbs_lookup _ _ _ _ _ Hdbs Hdb) as (fac & group & _ & Hgroup & Hb).
  assert (f1 = 1) as ->.
  { destruct (sharded_factor _ _ _ _ _ g _ Hok Hsel Hfac) as [H|H]; [congruence|by rewrite H in Hgroup]. }
  destruct (build_sharded _ _ _ _ _ _ _ Hb) as (_ & _ & Hl). rewrite Hl.
  assert (Hn := λ tp pcp dcp pp, rank_namespaces_elem 1 nsp tp pcp dcp pp Htp Z.lt_0_1 (Z.divide_1_l _) (λ _, eq_refl) Hns).
  assert (Hs := λ p r, stores_sharded f n g p r _ _ _ Hdbs Hdb).
  assert (Hd : ∀ r, in_deployment r → r_pcp r = 0 ∧ r_dcp r = 0).
  { intros r [_ H2 _ H4]. rewrite Hdcp in H4. split; [lia|done]. }
  assert (n / tp_size d = per) as Hq by (rewrite Hper; apply Z.div_mul; lia).
  assert (0 < per) as Hper0 by nia. rewrite Hq in Hs. destruct (Hd _ Hr0) as [Ep0 Ed0].
  assert (Hps : ∀ p, p ∈ (seqZ 0 n ≫= λ s, (λ pp, prefix_text (key_meta (Z.of_nat g) s (r_pcp r0) (r_dcp r0) pp)) <$>
    sorted_set (snd <$> nsp)) ↔ ∃ r, stores_under (Some (f, n)) g p r).
  { intros p. rewrite grid_elem, Ep0, Ed0. split.
    - intros (s & pp & -> & Hsn & (x & -> & Hx)%sorted_set_elem%list_elem_of_fmap).
      destruct x as [[[tp pcp] dcp] pp]. apply Hn in Hx as (r & Hr & _ & _ & _ & ->). cbn [snd].
      assert (Hr' : in_deployment (mkRank (s / per) 0 0 (r_pp r))).
      { destruct Hr as [H1 H2 H3 H4]. split; cbn; [|lia|done|by rewrite Hdcp].
        split; [apply Z.div_pos; lia|apply Z.div_lt_upper_bound; lia]. }
      eexists. apply Hs. split; [exact Hr'|]. exists s. split; [done|]. cbn.
      assert (Hm := Z.div_mod s per ltac:(lia)). assert (Hb' := Z.mod_pos_bound s per Hper0). lia.
    - intros (r & (Hr & s & -> & Hsr)%Hs). destruct (Hd _ Hr) as [-> ->]. destruct Hr as [H1 H2 H3 H4].
      exists s, (r_pp r). split; [done|]. split; [nia|].
      apply sorted_set_elem, list_elem_of_fmap. exists (r_tp r / 1, r_pcp r, r_dcp r, r_pp r). split; [done|].
      apply Hn. exists r. by split_and!. }
  split; [exact Hps|]. intros p i (r & Hr)%Hps. exists r. split.
  - split; [done|]. apply (turn_iff factors g i _ 1 Hf1); [done|]. by rewrite !Z.mod_1_r.
  - intros r' [Hr' _]. apply Hs in Hr as (Hr & s & -> & Hsr), Hr' as (Hr' & s' & E & Hsr').
    apply prefix_text_inj in E as (<- & Ep & Ed & Epp). destruct r as [t p c q], r' as [t' p' c' q']. cbn in *. subst.
    enough (t = t') as -> by done. nia.
Qed.

End deployment.

(** ** The answer of the store *)

Section lookup.
Context `{CD : !CeilDiv} `{M : !Managers} `{SK : !SpecKinds} (c : lookup_config) (block_hashes : list block_hash).

(** The store has answered 1 for [key]. *)
Definition answered (l : list candidate) (res : list Z) (key : string) : Prop :=
  ∃ i, candidate_keys l !! i = Some key ∧ res !! i = Some 1.

Lemma all_present_true res pos count :
  0 ≤ pos → all_present res pos count = Ok true → ∀ j, 0 ≤ j < count → res !! Z.to_nat (pos + j) = Some 1.
Proof.
  intros Hp H j Hj. assert (Hx := rall_true _ _ H j ltac:(by apply elem_of_seqZ; lia)). cbn in Hx.
  apply rbind_Ok in Hx as (v & Hv & Hx%Ok_inj). apply Z.eqb_eq in Hx as ->.
  rewrite py_index_nonneg in Hv by lia. by apply of_option_Ok in Hv.
Qed.

Lemma exists_set_sound l res found x :
  exists_set l res = Ok found → x ∈ found →
  ∃ y, y ∈ l ∧ y.1 = x ∧ ∀ key, key ∈ y.2 → answered l res key.
Proof.
  unfold exists_set. intros ([pos acc] & H & <-%Ok_inj)%rbind_Ok. cbn [snd].
  enough (pos = zlen (candidate_keys l) ∧ ∀ x, x ∈ acc → ∃ y, y ∈ l ∧ y.1 = x ∧
    ∀ key, key ∈ y.2 → answered l res key) as [_ Hx] by apply Hx.
  revert H. apply (rfold_seen (λ pre (a : Z * gset (Z * block_hash)), a.1 = zlen (candidate_keys pre) ∧
    ∀ x, x ∈ a.2 → ∃ y, y ∈ pre ∧ y.1 = x ∧ ∀ key, key ∈ y.2 → answered l res key) (add_present res) l (0, ∅) (pos, acc)).
  - intros pre y [p a] [p' a'] Hpre [Hp Ha] H. cbn in Hp, Ha. unfold add_present in H.
    apply rbind_Ok in H as (b & Hb & H%Ok_inj). cbn in Hb. injection H as <- <-. cbn [fst snd].
    assert (Hc : ∀ q, candidate_keys (q ++ [y]) = candidate_keys q ++ y.2).
    { intros q. unfold candidate_keys. rewrite fmap_app, concat_app. cbn. by rewrite app_nil_r. }
    split; [rewrite Hc; unfold zlen in *; rewrite length_app; lia|]. intros z Hz.
    assert (z ∈ a ∨ b = true ∧ z = y.1) as [Hz'|[-> ->]] by (destruct b; set_solver).
    { destruct (Ha _ Hz') as (y' & Hy' & ?). exists y'. set_solver. }
    exists y. split; [set_solver|]. split; [done|]. intros key [k Hk]%list_elem_of_lookup.
    exists (Z.to_nat p + k)%nat. split.
    + destruct Hpre as [post ->]. unfold candidate_keys. rewrite fmap_app, concat_app.
      rewrite lookup_app_l.
      2:{ change (concat (snd <$> pre ++ [y])) with (candidate_keys (pre ++ [y])). rewrite Hc, length_app.
          apply lookup_lt_Some in Hk. unfold zlen in Hp. lia. }
      change (concat (snd <$> pre ++ [y])) with (candidate_keys (pre ++ [y])). rewrite Hc, Hp. unfold zlen.
      rewrite Nat2Z.id, lookup_app_r by lia. by rewrite Nat.add_comm, Nat.add_sub.
    + replace (Z.to_nat p + k)%nat with (Z.to_nat (p + Z.of_nat k)) by (unfold zlen in Hp; lia).
      eapply all_present_true; [unfold zlen in Hp; lia|exact Hb|]. apply lookup_lt_Some in Hk. unfold zlen. lia.
  - split; [done|]. set_solver.
Qed.

(** The keys of a candidate: the hash under every prefix of its group. *)
Lemma candidates_keys token_len l y :
  candidates c block_hashes token_len = Ok l → y ∈ l →
  ∃ ps, py_index (lookup_prefixes c) y.1.1 = Ok ps ∧ y.2 = (λ p, build_key_string p (hex y.1.2)) <$> ps.
Proof.
  unfold candidates. intros (masks & _ & (ls & H & <-%Ok_inj)%rbind_Ok)%rbind_Ok Hy.
  apply list_elem_of_In, in_concat in Hy as (l' & Hl%list_elem_of_In & Hy%list_elem_of_In).
  apply list_elem_of_lookup in Hl as [k Hl]. apply rmap_Ok in H.
  destruct (Forall2_lookup_r _ _ _ _ _ H Hl) as ([g db] & _ & Hb). unfold group_candidates in Hb.
  apply rbind_Ok in Hb as (group & _ & Hb). destruct (negb _); [apply Ok_inj in Hb as <-; by apply elem_of_nil in Hy|].
  apply rbind_Ok in Hb as (ps & Hps & (hs & _ & <-%Ok_inj)%rbind_Ok).
  apply list_elem_of_fmap in Hy as (h & -> & _). by exists ps.
Qed.

(** A key the pool confirms: the store has it under every prefix. *)
Definition confirmed (l : list candidate) (res : list Z) (g : Z) (h : block_hash) : Prop :=
  ∃ ps, py_index (lookup_prefixes c) g = Ok ps ∧
    ∀ p, p ∈ ps → answered l res (build_key_string p (hex h)).

Lemma found_confirmed token_len l res found g h :
  candidates c block_hashes token_len = Ok l → exists_set l res = Ok found → (g, h) ∈ found →
  confirmed l res g h.
Proof.
  intros Hl Hf Hx. destruct (exists_set_sound _ _ _ _ Hf Hx) as ([[g' h'] ks] & Hy & [= -> ->] & Ha).
  destruct (candidates_keys _ _ _ Hl Hy) as (ps & Hps & E). cbn in Hps, E. exists ps. split; [done|].
  intros p Hp. apply Ha. cbn. rewrite E. by apply (list_elem_of_fmap_2 (λ p, build_key_string p (hex h))).
Qed.

(** The boundary of one group: its key is in the pool, at the hit or later in
    the hit's chunk. *)
Lemma first_tail_key_ok pool g ids n :
  first_tail_key c block_hashes pool g ids = Ok n →
  ∃ i h, i ∈ ids ∧ n = (i + 1) * lk_hash_block_size c ∧ py_index block_hashes i = Ok h ∧ contains pool g h = true.
Proof.
  induction ids as [|i ids IH]; cbn; [done|]. intros (h & Hh & H)%rbind_Ok.
  destruct (contains pool g h) eqn:E; [apply Ok_inj in H as <-; exists i, h; set_solver|].
  destruct (IH H) as (j & h' & ? & ?). exists j, h'. set_solver.
Qed.

Definition boundary_at (pool : ExternalCachedBlockPool) (hit : Z) (g : Z) (db : token_db) (b : TailKeyBoundary) : Prop :=
  tb_group_id b = g ∧ hit ≤ tb_num_tokens b ≤ Z.max hit (cdiv hit (db_block_size db) * db_block_size db) ∧
  ∃ h, py_index block_hashes (tb_num_tokens b / lk_hash_block_size c - 1) = Ok h ∧ contains pool g h = true.

Lemma tail_boundary_ok hit pool g db b :
  0 < lk_hash_block_size c → 0 < hit →
  tail_boundary c block_hashes hit pool (hit / lk_hash_block_size c - 1) (g, db) = Ok (Some b) →
  boundary_at pool hit g db b.
Proof.
  intros Hhbs Hhit. unfold tail_boundary. intros (group & _ & H)%rbind_Ok. destruct (negb _); [done|].
  apply rbind_Ok in H as (h & Hh & (u & _ & H)%rbind_Ok). destruct (contains pool g h) eqn:E.
  - apply Ok_inj in H. injection H as <-. split; [done|]. cbn. split; [lia|]. by exists h.
  - apply rbind_Ok in H as (q & [_ Hq]%py_div_Ok & (n & Hn & H%Ok_inj)%rbind_Ok). injection H as <-.
    apply first_tail_key_ok in Hn as (i & h' & Hi%elem_of_seqZ & -> & Hh' & Hc). split; [done|]. cbn.
    rewrite Z.div_mul by lia. split; [|exists h'; by rewrite Z.add_simpl_r].
    assert (Hd := Z.div_mod hit (lk_hash_block_size c) ltac:(lia)).
    assert (Hm := Z.mod_pos_bound hit (lk_hash_block_size c) Hhbs). split; [nia|].
    assert (i + 1 ≤ q) by lia. subst q.
    assert ((i + 1) * lk_hash_block_size c ≤ (cdiv hit (db_block_size db) - 1 + 1) * db_block_size db).
    { trans (((cdiv hit (db_block_size db) - 1 + 1) * db_block_size db) / lk_hash_block_size c * lk_hash_block_size c); [nia|].
      rewrite Z.mul_comm. apply Z.mul_div_le. lia. }
    rewrite Z.sub_simpl_r in *. lia.
Qed.

Lemma tail_boundaries_ok hit pool bs :
  0 < lk_hash_block_size c → 0 < hit → tail_key_boundaries_of c block_hashes hit pool = Ok bs →
  (∀ b, b ∈ bs → ∃ g db, token_dbs c !! Z.to_nat g = Some db ∧ boundary_at pool hit g db b) ∧
  (∀ g db, token_dbs c !! g = Some db → (∃ grp, lk_groups c !! g = Some grp ∧ prefix_cacheable grp = true) →
     ∃ b, b ∈ bs ∧ tb_group_id b = Z.of_nat g).
Proof.
  intros Hhbs Hhit. unfold tail_key_boundaries_of. rewrite (proj2 (Z.leb_gt _ _) Hhit).
  intros (q & [_ ->]%py_div_Ok & (l & H & <-%Ok_inj)%rbind_Ok)%rbind_Ok. apply rmap_Ok in H. split.
  - intros b (o & Ho & E)%list_elem_of_omap. cbn in E. subst o. apply list_elem_of_lookup in Ho as [k Hk].
    destruct (Forall2_lookup_r _ _ _ _ _ H Hk) as ([g db] & He & Hb).
    exists g, db. split; [|by apply tail_boundary_ok].
    assert ((g, db) ∈ enumerate (token_dbs c)) as [_ Hx]%enumerate_lookup by (by eapply list_elem_of_lookup_2). done.
  - intros g db Hg (grp & Hgrp & Hcache).
    assert (He : enumerate (token_dbs c) !! g = Some (Z.of_nat g, db)).
    { unfold enumerate. apply lookup_zip_Some. split; [|done]. apply lookup_seqZ. split; [done|].
      apply lookup_lt_Some in Hg. unfold zlen. lia. }
    destruct (Forall2_lookup_l _ _ _ _ _ H He) as (o & Ho & Hb).
    assert (∃ b, o = Some b ∧ tb_group_id b = Z.of_nat g) as (b & -> & Hbg).
    { revert Hb. unfold tail_boundary. rewrite py_index_nonneg, Nat2Z.id, Hgrp by lia. cbn [of_option rbind].
      rewrite Hcache. cbn [negb]. intros (h & _ & (u & _ & Hb)%rbind_Ok)%rbind_Ok.
      destruct (contains pool (Z.of_nat g) h).
      - apply Ok_inj in Hb as <-. eauto.
      - apply rbind_Ok in Hb as (q' & _ & (n & _ & <-%Ok_inj)%rbind_Ok). eauto. }
    exists b. split; [|done]. apply list_elem_of_omap. exists (Some b). split; [|done]. by eapply list_elem_of_lookup_2.
Qed.

(** A hit below the request's end. *)
Lemma pool_hit_bound num_tokens token_len pool hit :
  coord_ok (lk_coord c) → manager_laws (lk_coord c) block_hashes pool → 0 < alignment (lk_coord c) →
  0 ≤ token_len → pool_hit c block_hashes num_tokens token_len pool = Some (Ok (Some hit)) →
  0 ≤ hit < num_tokens.
Proof.
  intros Hok Hlaws Hal Hlen. unfold pool_hit.
  assert (Hfind : ∀ n r, 0 ≤ n → find_longest_cache_hit (lk_coord c) block_hashes n pool true = Some (Ok r) → 0 ≤ r.2 ≤ n).
  { intros n r Hn. unfold find_longest_cache_hit. intros ([[bl len]|] & Hf & [= <-])%bind_Some. cbn.
    by apply (find_ok (lk_coord c) block_hashes n pool true bl len). }
  intros ([[m hit0]|] & Hf & H)%bind_Some; [|done]. apply Hfind in Hf; [|done]. cbn in Hf.
  destruct (Z.leb_spec num_tokens hit0); [|injection H as ->; lia].
  unfold align_lookup_length, py_div in H. rewrite (proj2 (Z.eqb_neq _ _)) in H by lia. cbn in H.
  destruct (Z.leb_spec ((num_tokens - 1) / alignment (lk_coord c) * alignment (lk_coord c)) 0); [done|].
  apply bind_Some in H as ([[m' hit1]|] & Hf' & H); [|done]. injection H as <-. apply Hfind in Hf'; [|lia]. cbn in *.
  assert ((num_tokens - 1) / alignment (lk_coord c) * alignment (lk_coord c) ≤ num_tokens - 1); [|lia].
  rewrite Z.mul_comm. apply Z.mul_div_le. lia.
Qed.

End lookup.

(** ** The lookup channel *)

Lemma blob_slice (n : nat) (hs : list block_hash) (i : nat) h :
  (∀ h, h ∈ hs → length h = n) → hs !! i = Some h →
  slice (concat hs) (Z.of_nat (i * n)) (Z.of_nat (i * n) + Z.of_nat n) = h.
Proof.
  intros Hn Hi. unfold slice. rewrite Nat2Z.id. replace (Z.to_nat _) with n by lia.
  rewrite <- (take_drop_middle _ _ _ Hi), concat_app. cbn.
  assert (Hl : length (concat (take i hs)) = (i * n)%nat).
  { apply lookup_lt_Some in Hi. assert (Ht : length (take i hs) = i) by (rewrite length_take; lia).
    assert (Hs : ∀ h, h ∈ take i hs → length h = n).
    { intros h' (k & Hk & _)%elem_of_take. apply Hn. by eapply list_elem_of_lookup_2. }
    rewrite <- Ht at 2. clear -Hs. induction (take i hs) as [|x l IH]; [done|]. cbn. rewrite length_app, IH by set_solver.
    rewrite (Hs x); [done|]. set_solver. }
  rewrite <- Hl, drop_app_length. rewrite take_app_length'; [done|]. symmetry. apply Hn. by eapply list_elem_of_lookup_2.
Qed.

Lemma blob_round_trip (n : nat) (hs : list block_hash) :
  (0 < n)%nat → (∀ h, h ∈ hs → length h = n) → blob_hashes (mkBlob (concat hs) (Z.of_nat n)) = Ok hs.
Proof.
  intros Hn Hs. assert (Hlen : zlen (concat hs) = zlen hs * Z.of_nat n).
  { unfold zlen. induction hs as [|h hs IH]; [done|]. cbn. rewrite length_app, (Hs h) by set_solver.
    rewrite Nat2Z.inj_add, IH by set_solver. lia. }
  assert (Hb : blob_len (mkBlob (concat hs) (Z.of_nat n)) = zlen hs).
  { unfold blob_len. cbn. rewrite (proj2 (Z.eqb_neq _ _)) by lia. rewrite Hlen, Z.div_mul by lia. done. }
  unfold blob_hashes. rewrite Hb. apply rmap_Ok, Forall2_same_length_lookup. split.
  { rewrite length_seqZ. unfold zlen. lia. }
  intros k i h [-> _]%lookup_seqZ Hk. unfold blob_get. rewrite Hb. cbn [blob hash_len].
  apply lookup_lt_Some in Hk as Hlt. rewrite (proj2 (Z.ltb_ge (0 + Z.of_nat k) 0)) by lia.
  unfold raise_if. rewrite (proj2 (Z.leb_le 0 _)), (proj2 (Z.ltb_lt _ (zlen hs))) by (unfold zlen; lia). cbn [andb negb rbind].
  f_equal. rewrite Z.add_0_l. replace (Z.of_nat k * Z.of_nat n) with (Z.of_nat (k * n)) by lia. by apply blob_slice.
Qed.

(** ** The properties *)

(** C21 (equivalence): for every configuration of the store's layout, the key
    prefixes a rank looks up for a group are exactly those under which some
    rank of the deployment stores that group; and for every chunk and every
    prefix exactly one rank stores the chunk under it. *)
Theorem lookup_prefixes_stored `{CD : !CeilDiv} `{M : !Managers} `{SK : !SpecKinds} (d : deployment)
    (model prefix : string) (hash_block_size : Z) (coord : coordinator)
    (extra : list (string * json)) (cl : kv_cache_layout) (sel : option Z * string * option sharded_format)
    (r : rank) (dbs : list token_db) (pss : list (list string)) (factors : list Z) (g : nat) (ps : list string) :
  deployment_ok d → in_deployment d r → select_store_layout d extra cl = Ok sel →
  dbs_of d model prefix sel.1.2 hash_block_size (selected sel) r = Ok dbs →
  init_lookup_key_prefixes d dbs = Ok pss → group_tp_replication_factors d = Ok factors → pss !! g = Some ps →
  lookup_exact d model prefix sel.1.2 hash_block_size coord (selected sel) factors g ps.
Proof.
  intros Hok Hr Hsel Hdbs Hi Hf Hg. destruct sel as [[[n|] ns] [f|]]; cbn [selected fst snd] in *.
  - by eapply sharded_exact.
  - by eapply local_exact.
  - by eapply local_exact.
  - by eapply local_exact.
Qed.

(** C22 (safety): what a lookup reports. Nothing, or a hit below the request's
    end such that every cacheable group has a boundary, at the hit or later in
    the hit's last chunk, and the store has answered that the hash of each
    boundary is present under every prefix of its group. *)
Theorem lookup_confirmed `{CD : !CeilDiv} `{M : !Managers} `{SK : !SpecKinds} (c : lookup_config)
    (groups : list KVCacheGroupSpec) (sbs hbs : Z) (use_eagle : bool) (retention : option Z) (dcp : Z)
    (block_hashes : list block_hash) (batch_is_exist : list string → option (list Z)) (num_tokens : Z)
    (r : MooncakeLookupResult) :
  make_coordinator groups sbs hbs use_eagle retention dcp = Ok (lk_coord c) →
  (∀ pool, manager_laws (lk_coord c) block_hashes pool) →
  0 < alignment (lk_coord c) → 0 < lk_hash_block_size c →
  lookup c block_hashes batch_is_exist num_tokens = Some (Ok r) →
  r = mkLookup 0 [] ∨
  0 < hit_length r < num_tokens ∧ ∃ l res, batch_is_exist (candidate_keys l) = Some res ∧
    (∀ b, b ∈ tail_key_boundaries r → ∃ db h, token_dbs c !! Z.to_nat (tb_group_id b) = Some db ∧
       hit_length r ≤ tb_num_tokens b ≤
         Z.max (hit_length r) (cdiv (hit_length r) (db_block_size db) * db_block_size db) ∧
       py_index block_hashes (tb_num_tokens b / lk_hash_block_size c - 1) = Ok h ∧
       confirmed c l res (tb_group_id b) h) ∧
    ∀ g db, token_dbs c !! g = Some db →
      (∃ grp, lk_groups c !! g = Some grp ∧ prefix_cacheable grp = true) →
      ∃ b, b ∈ tail_key_boundaries r ∧ tb_group_id b = Z.of_nat g.
Proof.
  intros Hc%made_coord_ok Hlaws Hal Hhbs. unfold lookup.
  destruct (lookup_request c block_hashes num_tokens) as [[[token_len l]|]|] eqn:Hreq; [|by intros [= <-]; left|done].
  assert (0 < token_len ∧ candidates c block_hashes token_len = Ok l) as [Hlen Hl].
  { unfold lookup_request in Hreq. destruct (capacity_only c); [done|]. apply rbind_Ok in Hreq as (n & _ & Hreq).
    destruct (_ || _) eqn:E; [done|]. apply orb_false_iff in E as [_ E%Z.leb_gt].
    apply rbind_Ok in Hreq as (l' & Hl' & Hreq). destruct (candidate_keys l'); [done|]. apply Ok_inj in Hreq.
    injection Hreq as -> ->. done. }
  unfold lookup_answer. destruct (batch_is_exist (candidate_keys l)) as [res|] eqn:Hres; [|by intros [= <-]; left].
  destruct (exists_set l res) as [found|] eqn:Hf; [|done]. set (pool := mkPool (Some found) (lk_hash_block_size c)).
  intros ([[hit|]|] & Hhit & H)%bind_Some; [|by injection H as <-; left|done]. apply (inj Some) in H. cbn in H.
  apply rbind_Ok in H as (bs & Hbs & <-%Ok_inj).
  assert (Hb := pool_hit_bound c block_hashes _ _ pool hit Hc (Hlaws pool) Hal (Z.lt_le_incl _ _ Hlen) Hhit).
  destruct (Z.leb_spec hit 0) as [Hz|Hpos].
  { left. unfold tail_key_boundaries_of in Hbs. rewrite (proj2 (Z.leb_le _ _) Hz) in Hbs. apply Ok_inj in Hbs as <-.
    f_equal. lia. }
  right. split; [cbn; lia|]. exists l, res. split; [done|]. cbn [hit_length tail_key_boundaries].
  destruct (tail_boundaries_ok c block_hashes hit pool bs Hhbs Hpos Hbs) as [H1 H2]. split; [|exact H2].
  intros b (g & db & Hdb & Hg & Hn & h & Hh & Hin)%H1. exists db, h. rewrite Hg. split_and!; [done|lia..|done|].
  eapply found_confirmed; [done|exact Hf|]. by apply bool_decide_eq_true in Hin.
Qed.

(** The request a lookup client sends is the one the server
    reads, when the hashes have one positive length that fits its two bytes,
    and the number of tokens its four. *)
Theorem lookup_request_round_trip (num_tokens : Z) (n : nat) (hs : list block_hash) :
  0 ≤ num_tokens < 2 ^ 32 → (0 < n)%nat → Z.of_nat n < 2 ^ 16 → (∀ h, h ∈ hs → length h = n) →
  ∃ f, request_frames num_tokens hs = Ok f ∧ (read_frames f).1 = num_tokens ∧
    blob_hashes (read_frames f).2 = Ok hs.
Proof.
  intros Ht Hn Hn2 Hs. unfold request_frames.
  set (k := match hs with h :: _ => zlen h | [] => 0 end).
  assert (Hk : k = Z.of_nat n ∨ hs = [] ∧ k = 0).
  { unfold k. destruct hs as [|h hs]; [auto|]. left. unfold zlen. rewrite (Hs h); [done|]. apply list_elem_of_here. }
  assert (Hk2 : 0 ≤ k < 2 ^ 16) by (destruct Hk as [->|[_ ->]]; lia). clearbody k.
  assert (E1 : to_bytes 4 num_tokens = Ok (be 4 num_tokens)) by (apply to_bytes_Ok; split; [exact Ht|done]).
  assert (E2 : to_bytes 2 k = Ok (be 2 k)) by (apply to_bytes_Ok; split; [exact Hk2|done]).
  rewrite E1, E2. cbn [rbind]. eexists. split; [done|]. cbn [read_frames fst snd].
  rewrite (from_bytes_be 4 num_tokens Ht), (from_bytes_be 2 k Hk2).
  split; [done|]. destruct Hk as [->|[-> ->]]; [by apply blob_round_trip|done].
Qed.

(** ** Examples

    Four ranks with two KV heads: two replicas of each of two namespaces. *)

#[local] Existing Instance ex_managers.

#[local] Instance ex_kinds : SpecKinds := {|
  is_exact_full := is_full;
  is_mla := λ _, false;
  exact_full_class := λ s H, conj H eq_refl;
  hash_view_len := Z.div
|}.

Definition ex_group : KVCacheGroupSpec := mkGroupSpec (Single (mkSpec FullAttentionSpec 4 0)) true 4 false.

Definition ex_deployment : deployment := mkDeployment 4 1 1 1 2 [ex_group].

Definition ex_rank : rank := mkRank 3 0 0 0.

Definition ex_lookup_coord : coordinator :=
  match make_coordinator [ex_group] 4 4 false None 1 with
  | Ok c => c
  | Err _ => mkCoord [] ∅ 0 0 false None [] ∅
  end.

Definition ex_dbs : list token_db :=
  match dbs_of ex_deployment "model" "" "" 4 None ex_rank with Ok l => l | Err _ => [] end.

Definition ex_prefixes : list (list string) :=
  match init_lookup_key_prefixes ex_deployment ex_dbs with Ok l => l | Err _ => [] end.

Lemma lookup_prefixes_stored_witness :
  ex_prefixes = [["model@tp_rank:0@pcp0@dcp0@pp_rank:0@group:0"; "model@tp_rank:1@pcp0@dcp0@pp_rank:0@group:0"]] ∧
  ∃ ps, lookup_exact ex_deployment "model" "" "" 4 ex_lookup_coord None [2] 0 ps ∧ ps ∈ ex_prefixes.
Proof.
  split; [by vm_compute|]. eexists. split.
  - apply (lookup_prefixes_stored ex_deployment "model" "" 4 ex_lookup_coord [] (OtherLayout "X") (None, "", None)
      ex_rank ex_dbs ex_prefixes [2] 0); try (vm_compute; reflexivity).
    + split; [done|done|]. left. by exists 2.
    + by split; cbn.
  - vm_compute. apply list_elem_of_here.
Defined.

Lemma ex_lookup_laws hashes pool : manager_laws ex_lookup_coord hashes pool.
Proof.
  assert (Hg : ∀ g, g ∈ attention_groups ex_lookup_coord → 0 < sp_block_size (sg_spec g) ∧
    eagle_margin ex_lookup_coord g = sp_block_size (sg_spec g)).
  { apply Forall_forall. apply Forall_cons_2; [split; reflexivity|apply Forall_nil_2]. }
  split.
  - intros g len d bss r [Hp _]%Hg H.
    exact (proj1 (ex_hit_bound (manager_cls g) hashes len (group_ids g) pool (sg_spec g) d
      (alignment ex_lookup_coord) bss r Hp H)).
  - intros g len bss r [Hp Hm]%Hg _ H. rewrite Hm.
    exact (proj2 (ex_hit_bound (manager_cls g) hashes len (group_ids g) pool (sg_spec g) true
      (alignment ex_lookup_coord) bss r Hp H) eq_refl).
Qed.

Definition ex_lookup_config : lookup_config :=
  mkLookupConfig false ex_lookup_coord 4 ex_dbs [ex_group] ex_prefixes.

Definition ex_exist (keys : list string) : option (list Z) := Some (replicate (length keys) 1).

Definition ex_hashes : list block_hash := [[10]; [11]; [12]].

Lemma lookup_confirmed_witness :
  lookup ex_lookup_config ex_hashes ex_exist 12 = Some (Ok (mkLookup 8 [mkBoundary 0 8])) ∧
  ∃ l res h, ex_exist (candidate_keys l) = Some res ∧ py_index ex_hashes 1 = Ok h ∧
    confirmed ex_lookup_config l res 0 h.
Proof.
  assert (E : lookup ex_lookup_config ex_hashes ex_exist 12 = Some (Ok (mkLookup 8 [mkBoundary 0 8])))
    by reflexivity.
  split; [exact E|].
  destruct (lookup_confirmed ex_lookup_config [ex_group] 4 4 false None 1 ex_hashes ex_exist 12 _
    eq_refl (ex_lookup_laws ex_hashes) ltac:(reflexivity) ltac:(reflexivity) E) as [[=]|(_ & l & res & Hres & Hb & _)].
  destruct (Hb _ (list_elem_of_here _ _)) as (db & h & _ & _ & Hh & Hc). exists l, res, h.
  exact (conj Hres (conj Hh Hc)).
Defined.

Lemma lookup_request_round_trip_witness :
  ∃ f, request_frames 12 ex_hashes = Ok f ∧ (read_frames f).1 = 12 ∧ blob_hashes (read_frames f).2 = Ok ex_hashes.
Proof.
  apply (lookup_request_round_trip 12 1 ex_hashes); [lia|lia|done|].
  unfold ex_hashes. intros h Hh. repeat (apply elem_of_cons in Hh as [->|Hh]; [done|]). by apply elem_of_nil in Hh.
Defined.
