(* ===== verification/StoreSched.v ===== *)
(** * The Mooncake store: the scheduler side

    [mooncake/store/scheduler.py], class [MooncakeStoreScheduler]. What vLLM
    hands over (requests, the scheduler's output) is a record of what the code
    reads; [Request] objects change between calls, so a call gets the
    attributes they have then. The calls to vLLM's block pool are logged, as
    are the client's [discard]s. The lookup itself is a remote call whose
    answer is an argument.

    A tracker and the metadata made from it share the tracker's block lists;
    the metadata leaves the process at the end of the step, before the next
    update of the tracker, so the model copies. *)

From S2P Require Import Prelude StoreData.

(** ** What vLLM hands over *)

Record Request := mkRequest {
  rq_num_tokens : Z;
  rq_block_hashes : list block_hash;
  rq_num_computed_tokens : Z;
  rq_all_token_ids : list Z
}.

Record NewRequestData := mkNewRequest {
  nr_req_id : string;
  nr_num_computed_tokens : Z;
  nr_block_ids : list (list Z);
  nr_prompt_token_ids : option (list Z);
  nr_prefill_token_ids : option (list Z)
}.

(** One entry of the parallel lists of [CachedRequestData]; no new blocks
    ([None] or an empty tuple) is [[]]. *)
Record CachedRequest := mkCached {
  cd_req_id : string;
  cd_new_block_ids : list (list Z);
  cd_resumed : bool;
  cd_num_computed_tokens : Z
}.

(** (group, block, boundary tokens) *)
Abbreviation offload := (Z * Z * Z)%type.

Record BlockState := mkBlockState {
  bs_boundary_state_offloads : list (string * list offload);
  get_block_ids : string → option (list (list Z))
}.

Record SchedulerOutput := mkOutput {
  finished_req_ids : list string;
  preempted_req_ids : list string;
  scheduled_new_reqs : list NewRequestData;
  num_scheduled_tokens : list (string * Z);
  scheduled_cached_reqs : list CachedRequest;
  kv_connector_block_state : option BlockState
}.

(** ** The scheduler *)

Record config := mkConfig {
  kv_role : string;
  load_async : bool;
  enable_lookup : bool;
  save_decode_cache : bool;
  enable_kv_events : bool;
  store_group_ids : list Z;
  block_size : Z;
  hash_block_size : Z;
  enable_partial_hash_hits : bool;
  boundary_state_group_ids : gset Z;
  num_workers : Z
}.

Inductive action :=
  | Discard (req_id : string)
  | Touch (block_ids : list Z)
  | Free (block_ids : list Z).

(** [unfinished] is [_unfinished_requests] without the request objects;
    [pinned] is [_pinned_saves]; [pool_bound] tells whether
    [bind_gpu_block_pool] was called. *)
Record sched := mkSched {
  load_specs : list (string * LoadSpec);
  trackers : list (string * RequestTracker);
  unfinished : list (string * list (list Z));
  unfinished_ids : gset string;
  finished_tails : list (string * ReqMeta);
  next_store_job_id : Z;
  pinned : list (Z * (list Z * Z));
  pool_bound : bool;
  log : list action
}.

Definition set_load_specs (f : list (string * LoadSpec) → list (string * LoadSpec)) (c : sched) : sched :=
  mkSched (f (load_specs c)) (trackers c) (unfinished c) (unfinished_ids c) (finished_tails c)
    (next_store_job_id c) (pinned c) (pool_bound c) (log c).
Definition set_trackers (f : list (string * RequestTracker) → list (string * RequestTracker)) (c : sched) : sched :=
  mkSched (load_specs c) (f (trackers c)) (unfinished c) (unfinished_ids c) (finished_tails c)
    (next_store_job_id c) (pinned c) (pool_bound c) (log c).
Definition set_unfinished (f : list (string * list (list Z)) → list (string * list (list Z))) (c : sched) : sched :=
  mkSched (load_specs c) (trackers c) (f (unfinished c)) (unfinished_ids c) (finished_tails c)
    (next_store_job_id c) (pinned c) (pool_bound c) (log c).
Definition set_unfinished_ids (f : gset string → gset string) (c : sched) : sched :=
  mkSched (load_specs c) (trackers c) (unfinished c) (f (unfinished_ids c)) (finished_tails c)
    (next_store_job_id c) (pinned c) (pool_bound c) (log c).
Definition set_finished_tails (f : list (string * ReqMeta) → list (string * ReqMeta)) (c : sched) : sched :=
  mkSched (load_specs c) (trackers c) (unfinished c) (unfinished_ids c) (f (finished_tails c))
    (next_store_job_id c) (pinned c) (pool_bound c) (log c).
Definition set_next_store_job_id (f : Z → Z) (c : sched) : sched :=
  mkSched (load_specs c) (trackers c) (unfinished c) (unfinished_ids c) (finished_tails c) (f
    (next_store_job_id c)) (pinned c) (pool_bound c) (log c).
Definition set_pinned (f : list (Z * (list Z * Z)) → list (Z * (list Z * Z))) (c : sched) : sched :=
  mkSched (load_specs c) (trackers c) (unfinished c) (unfinished_ids c) (finished_tails c)
    (next_store_job_id c) (f (pinned c)) (pool_bound c) (log c).
Definition set_pool_bound (f : bool → bool) (c : sched) : sched :=
  mkSched (load_specs c) (trackers c) (unfinished c) (unfinished_ids c) (finished_tails c)
    (next_store_job_id c) (pinned c) (f (pool_bound c)) (log c).
Definition set_log (f : list action → list action) (c : sched) : sched :=
  mkSched (load_specs c) (trackers c) (unfinished c) (unfinished_ids c) (finished_tails c)
    (next_store_job_id c) (pinned c) (pool_bound c) (f (log c)).

Definition init_sched : sched := mkSched [] [] [] ∅ [] 0 [] false [].

Definition bind_gpu_block_pool : sched → sched := set_pool_bound (λ _, true).

Definition act (a : action) : sched → sched := set_log (λ l, l ++ [a]).

(** [_store_group_id_by_kv_cache_group_id.get] *)
Definition store_group (c : config) (group : Z) : option Z :=
  dget (foldl (λ d e, dset d e.2 e.1) [] (zip (seqZ 0 (zlen (store_group_ids c))) (store_group_ids c)))
    group.

Definition is_consumer (c : config) : bool := String.eqb (kv_role c) "kv_consumer".

(** [tuple(block_ids[group_id] for group_id in self._store_group_ids)] *)
Definition project (c : config) (block_ids : list (list Z)) : result (list (list Z)) :=
  rmap (py_index block_ids) (store_group_ids c).

(** ** Cache hits *)

(** The answer: the tokens to allocate ([None]: ask again later) and whether
    they load asynchronously. [lookup] is what the client returns. *)
Definition get_num_new_matched_tokens (c : config) (req_id : string) (num_tokens : Z)
    (num_computed_tokens : Z) (lookup : option MooncakeLookupResult) (s : sched) :
    option Z * bool * sched :=
  let align := if enable_partial_hash_hits c then hash_block_size c else block_size c in
  if negb (enable_lookup c) then (Some 0, false, s)
  else if num_tokens <? align then (Some 0, false, s)
  else
    match lookup with
    | None => (None, false, s)
    | Some r =>
        let need := if hit_length r <? num_computed_tokens then 0
                    else hit_length r - num_computed_tokens in
        if need <=? 0 then (Some 0, false, s)
        else (Some need, load_async c,
              set_load_specs (λ d, dset d req_id
                (mkLoadSpec num_computed_tokens (hit_length r) false 0 (tail_key_boundaries r))) s)
    end.

Definition with_can_load (b : bool) (l : LoadSpec) : LoadSpec :=
  mkLoadSpec (vllm_cached_tokens l) (kvpool_cached_tokens l) b (ls_token_len l) (ls_boundaries l).

(** [block_ids] is [blocks.get_block_ids(group_ids=...)]. *)
Definition update_state_after_alloc (req_id : string) (block_ids : list (list Z))
    (num_external_tokens : Z) (s : sched) : result sched :=
  let local := if 0 <? num_external_tokens then block_ids else [] in
  let s := set_unfinished_ids (λ u, u ∪ {[req_id]}) (set_unfinished (λ d, dset d req_id local) s) in
  match dget (load_specs s) req_id with
  | None => Ok s
  | Some l =>
      if num_external_tokens =? 0 then
        Ok (set_load_specs (λ d, dset d req_id (with_can_load false l)) s)
      else
        let? _ := assert_ ((0 <? num_external_tokens) &&
          (num_external_tokens =? kvpool_cached_tokens l - vllm_cached_tokens l)) in
        Ok (set_load_specs (λ d, dset d req_id (with_can_load true l)) s)
  end.

(** ** One step's metadata *)

Definition finish_request (s : sched) (req_id : string) : sched :=
  set_load_specs (λ d, ddel d req_id) (set_trackers (λ d, ddel d req_id)
    (set_unfinished (λ d, ddel d req_id) (set_unfinished_ids (λ u, u ∖ {[req_id]})
       (act (Discard req_id) s)))).

Definition preempt_request (s : sched) (req_id : string) : sched :=
  let s := set_load_specs (λ d, ddel d req_id) s in
  let s := match dget (trackers s) req_id with
           | Some t => set_trackers (λ d, dset d req_id (tracker_reset t)) s
           | None => s
           end in
  set_unfinished (λ d, ddel d req_id) s.

Definition new_req_prefill_tokens (r : NewRequestData) : result (list Z) :=
  match nr_prefill_token_ids r with
  | Some l => Ok l
  | None => of_option AssertionError (nr_prompt_token_ids r)
  end.

Section build.
Context `{CD : !CeilDiv}.
Context (NULL_BLOCK_ID : Z) (c : config) (requests : string → Request).

Abbreviation metas := (list ReqMeta).

(** [from_request_tracker] for the tracker of [req_id], which it stores. *)
Definition emit (req_id : string) (t : RequestTracker) (load_spec : option LoadSpec)
    (skip_save : bool) (acc : metas * sched) : result (metas * sched) :=
  let? r := from_request_tracker t (block_size c) load_spec skip_save
              (rq_block_hashes (requests req_id)) in
  let s := set_trackers (λ d, dset d req_id r.2) acc.2 in
  Ok (match r.1 with Some m => acc.1 ++ [m] | None => acc.1 end, s).

(** A tracker for a prefill of [tokens], [n] of them scheduled. *)
Definition prefill_tracker (req_id : string) (n : Z) (blocks : list (list Z)) (tokens : list Z) :
    RequestTracker :=
  mkTracker req_id n blocks 0 (if enable_kv_events c then Some (slice tokens 0 n) else None) false
    (zlen tokens).

Definition new_request (out : SchedulerOutput) (acc : metas * sched) (r : NewRequestData) :
    result (metas * sched) :=
  let id := nr_req_id r in
  let s := acc.2 in
  let load_spec := dget (load_specs s) id in
  let s := set_load_specs (λ d, ddel d id) s in
  let? scheduled := of_option KeyError (dget (num_scheduled_tokens out) id) in
  let n := nr_num_computed_tokens r + scheduled in
  let? _ := assert_ (bool_decide (is_Some (dget (unfinished s) id))) in
  let? blocks := project c (nr_block_ids r) in
  let? tokens := new_req_prefill_tokens r in
  emit id (prefill_tracker id n blocks tokens) load_spec (is_consumer c) (acc.1, s).

Definition resumed_request (out : SchedulerOutput) (acc : metas * sched) (id : string)
    (blocks : list (list Z)) : result (metas * sched) :=
  match blocks with
  | [] => Ok acc
  | _ =>
      let s := acc.2 in
      let load_spec := dget (load_specs s) id in
      let s := set_load_specs (λ d, ddel d id) s in
      let? _ := of_option TypeError (dget (unfinished s) id) in
      let? scheduled := of_option KeyError (dget (num_scheduled_tokens out) id) in
      let tokens := rq_all_token_ids (requests id) in
      emit id (prefill_tracker id (rq_num_computed_tokens (requests id) + scheduled) blocks tokens)
        load_spec (is_consumer c) (acc.1, s)
  end.

(** The tracker with the step's new tokens. *)
Definition extend_tokens (id : string) (n : Z) (t : RequestTracker) : RequestTracker :=
  let new := slice (rq_all_token_ids (requests id)) (tr_token_len t) (tr_token_len t + n) in
  mkTracker (tr_req_id t) (tr_token_len t + zlen new) (allocated_block_ids t) (num_saved_tokens t)
    ((λ l, l ++ new) <$> tr_token_ids t) (has_pending_offload t) (prefill_end_tokens t).

Definition running_request (out : SchedulerOutput) (acc : metas * sched) (r : CachedRequest)
    (blocks : list (list Z)) : result (metas * sched) :=
  let id := cd_req_id r in
  let? t := of_option KeyError (dget (trackers acc.2) id) in
  let is_decode := prefill_end_tokens t <=? cd_num_computed_tokens r in
  if is_decode && negb (save_decode_cache c) then Ok acc
  else
    let? n := of_option KeyError (dget (num_scheduled_tokens out) id) in
    let? _ := of_option (ValueError "not in _unfinished_requests") (dget (unfinished acc.2) id) in
    let t := extend_tokens id n t in
    let? t := match blocks with [] => Ok t | _ => tracker_update blocks t end in
    let s := set_trackers (λ d, dset d id t) acc.2 in
    if is_consumer c && negb is_decode then Ok (acc.1, s)
    else emit id t None false (acc.1, s).

Definition cached_request (out : SchedulerOutput) (acc : metas * sched) (r : CachedRequest) :
    result (metas * sched) :=
  let? blocks := match cd_new_block_ids r with [] => Ok [] | l => project c l end in
  if cd_resumed r then resumed_request out acc (cd_req_id r) blocks
  else running_request out acc r blocks.

(** A load confirmed for a request that is not scheduled yet. *)
Definition pending_load (out : SchedulerOutput) (acc : metas * sched)
    (e : string * list (list Z)) : result (metas * sched) :=
  let (id, blocks) := e in
  if bool_decide (id ∈ nr_req_id <$> scheduled_new_reqs out) ||
     bool_decide (id ∈ cd_req_id <$> scheduled_cached_reqs out) then Ok acc
  else
    let load_spec := dget (load_specs acc.2) id in
    let s := set_load_specs (λ d, ddel d id) acc.2 in
    match load_spec with
    | Some l =>
        if can_load l then
          emit id (mkTracker id (kvpool_cached_tokens l) blocks 0 None false 0) load_spec false
            (acc.1, s)
        else Ok (acc.1, s)
    | None => Ok (acc.1, s)
    end.

(** ** Boundary states *)

Definition with_offloads (l : list offload) (m : ReqMeta) : ReqMeta :=
  mkReqMeta (rm_req_id m) (token_len_chunk m) (rm_block_ids m) (rm_block_hashes m) (can_save m)
    (rm_load_spec m) (rm_token_ids m) (token_ids_start m) (num_prompt_tokens m) (store_job_id m)
    (Some l).

Definition with_block_ids (l : list (list Z)) (m : ReqMeta) : ReqMeta :=
  mkReqMeta (rm_req_id m) (token_len_chunk m) l (rm_block_hashes m) (can_save m)
    (rm_load_spec m) (rm_token_ids m) (token_ids_start m) (num_prompt_tokens m) (store_job_id m)
    (boundary_state_offloads m).

Definition with_job (j : Z) (m : ReqMeta) : ReqMeta :=
  mkReqMeta (rm_req_id m) (token_len_chunk m) (rm_block_ids m) (rm_block_hashes m) (can_save m)
    (rm_load_spec m) (rm_token_ids m) (token_ids_start m) (num_prompt_tokens m) (Some j)
    (boundary_state_offloads m).

Definition mark_offload (t : RequestTracker) : RequestTracker :=
  mkTracker (tr_req_id t) (tr_token_len t) (allocated_block_ids t) (num_saved_tokens t)
    (tr_token_ids t) true (prefill_end_tokens t).

(** The store group of a group that offloads boundary states. *)
Definition boundary_group (g : Z) : option Z :=
  match store_group c g with
  | Some sg => if bool_decide (sg ∈ boundary_state_group_ids c) then Some sg else None
  | None => None
  end.

Definition accept_offload (t : RequestTracker) (e : offload) : option offload :=
  let '(g, b, boundary) := e in
  if (prefill_end_tokens t <? boundary) || (b =? NULL_BLOCK_ID) then None
  else (λ sg, (sg, b, boundary)) <$> boundary_group g.

(** The index of the last metadata of the step that saves [id]. *)
Definition save_meta (id : string) (ms : metas) : option nat :=
  last (omap (λ e : nat * ReqMeta,
    if String.eqb (rm_req_id e.2) id && can_save e.2 then Some e.1 else None)
    (imap pair ms)).

(** [saves] are the metadata present when the loop starts, whose positions
    do not change. *)
Definition offload_request (saves : metas) (acc : metas * sched) (e : string * list offload) :
    metas * sched :=
  let (id, entries) := e in
  match dget (trackers acc.2) id, dget (unfinished acc.2) id with
  | Some t, Some _ =>
      match omap (accept_offload t) entries with
      | [] => acc
      | accepted =>
          let s := set_trackers (λ d, dset d id (mark_offload t)) acc.2 in
          match save_meta id saves with
          | Some i => (alter (with_offloads accepted) i acc.1, s)
          | None =>
              (acc.1 ++ [mkReqMeta id 0 (allocated_block_ids t) (rq_block_hashes (requests id))
                           true None None 0 (prefill_end_tokens t) None (Some accepted)], s)
          end
      end
  | _, _ => acc
  end.

Definition handle_boundary_state_offloads (l : list (string * list offload)) (acc : metas * sched) :
    metas * sched :=
  foldl (offload_request acc.1) acc l.

(** ** Save jobs *)

Definition apply_current_save_block_ids (out : SchedulerOutput) (ms : metas) : result metas :=
  if negb (existsb can_save ms) then Ok ms
  else
    let? bs := of_option AssertionError (kv_connector_block_state out) in
    rmap (λ m,
      if can_save m then
        let? ids := of_option AssertionError (get_block_ids bs (rm_req_id m)) in
        let? ids := project c ids in Ok (with_block_ids ids m)
      else Ok m) ms.

(** The blocks a job may read: its boundary states, and every block of the
    groups that save by position. *)
Definition job_blocks (m : ReqMeta) : list Z :=
  ((λ e : offload, e.1.2) <$> default [] (boundary_state_offloads m)) ++
  concat (imap (λ g group, if bool_decide (Z.of_nat g ∈ boundary_state_group_ids c) then []
                           else filter (λ b, b ≠ NULL_BLOCK_ID) group) (rm_block_ids m)).

(** [list(dict.fromkeys(l))] *)
Fixpoint fromkeys (l : list Z) : list Z :=
  match l with
  | [] => []
  | x :: l => x :: filter (λ y, y ≠ x) (fromkeys l)
  end.

Definition pin (j : Z) (ids : list Z) (s : sched) : sched :=
  act (Touch ids) (set_pinned (λ d, dset d j (ids, num_workers c)) s).

Definition reference_block (acc : metas * sched) (m : ReqMeta) : result (metas * sched) :=
  let (ms, s) := acc in
  if negb (can_save m) then Ok (ms ++ [m], s)
  else
    let? _ := assert_ (pool_bound s) in
    match store_job_id m with
    | Some j =>
        let? _ := assert_ (bool_decide (is_Some (dget (pinned s) j))) in Ok (ms ++ [m], s)
    | None =>
        let j := next_store_job_id s in
        let s := set_next_store_job_id (λ n, n + 1) s in
        let offloaded := (λ e : offload, e.1.2) <$> default [] (boundary_state_offloads m) in
        let? _ := assert_ (negb (bool_decide (NULL_BLOCK_ID ∈ offloaded))) in
        let ids := fromkeys (job_blocks m) in
        let s := match ids with [] => s | _ => pin j ids s end in
        Ok (ms ++ [with_job j m], s)
    end.

Definition reference_save_blocks (ms : metas) (s : sched) : result (metas * sched) :=
  rfold reference_block ([], s) ms.

(** [build_connector_meta], but for the two id sets it copies. *)
Definition build_connector_meta (out : SchedulerOutput) (s : sched) : result (metas * sched) :=
  let s := foldl finish_request s (finished_req_ids out) in
  let s := foldl preempt_request s (preempted_req_ids out) in
  let? acc := rfold (new_request out) ([], s) (scheduled_new_reqs out) in
  let? acc := if negb (is_consumer c) || save_decode_cache c
              then rfold (cached_request out) acc (scheduled_cached_reqs out) else Ok acc in
  let? acc := rfold (pending_load out) acc (unfinished acc.2) in
  let acc := match kv_connector_block_state out with
             | Some bs => if is_consumer c then acc
                          else handle_boundary_state_offloads (bs_boundary_state_offloads bs) acc
             | None => acc
             end in
  let? ms := apply_current_save_block_ids out acc.1 in
  let ms := ms ++ (finished_tails acc.2).*2 in
  reference_save_blocks ms (set_finished_tails (λ _, []) acc.2).

(** ** A finished request's partial tail *)

Definition remap_offload (e : offload) : option offload :=
  let '(g, b, boundary) := e in
  if b =? NULL_BLOCK_ID then None else (λ sg, (sg, b, boundary)) <$> boundary_group g.

Definition register_finished_partial_tail (req_id : string) (block_ids : list (list Z))
    (offloads : list offload) (s : sched) : result sched :=
  if is_consumer c then Ok s
  else
    match offloads, dget (trackers s) req_id with
    | [], _ | _, None => Ok s
    | (_, _, boundary) :: _, Some t =>
        if negb (existsb (λ g : list Z, negb (bool_decide (g = []))) block_ids) then Ok s
        else
          let? _ := raise_if (negb (forallb (λ e : offload, e.2 =? boundary) offloads))
                      (ValueError "Partial-tail offloads for one request must share a boundary") in
          if prefill_end_tokens t <? boundary then Ok s
          else
            match mapM remap_offload offloads with
            | None => Ok s
            | Some remapped =>
                let ids := fromkeys ((λ e : offload, e.1.2) <$> offloads) in
                let? _ := assert_ (pool_bound s) in
                let? _ := assert_ (negb (bool_decide (is_Some (dget (finished_tails s) req_id)))) in
                let j := next_store_job_id s in
                let s := pin j ids (set_next_store_job_id (λ n, n + 1) s) in
                let? blocks := project c block_ids in
                let m := mkReqMeta req_id 0 blocks (rq_block_hashes (requests req_id)) true None None 0
                           (prefill_end_tokens t) (Some j) (Some remapped) in
                Ok (set_trackers (λ d, dset d req_id (mark_offload t))
                      (set_finished_tails (λ d, dset d req_id m) s))
            end
    end.

(** ** Completions *)

Definition complete_save (s : sched) (e : Z * Z) : result sched :=
  let (j, count) := e in
  match dget (pinned s) j with
  | None => Ok s
  | Some (ids, remaining) =>
      let remaining := remaining - count in
      if 0 <? remaining then Ok (set_pinned (λ d, dset d j (ids, remaining)) s)
      else
        let? _ := assert_ (remaining =? 0) in
        Ok (act (Free (reverse ids)) (set_pinned (λ d, ddel d j) s))
  end.

(** [completed] is the workers' [completed_saves]. *)
Definition update_connector_output (completed : list (Z * Z)) (s : sched) : result sched :=
  let? _ := assert_ (pool_bound s) in rfold complete_save s completed.

Definition has_pending_push_work (s : sched) : bool := negb (bool_decide (pinned s = [])).

(** ** Executions *)

Inductive sched_op :=
  | OBind
  | OMatch (req_id : string) (num_tokens num_computed : Z) (lookup : option MooncakeLookupResult)
  | OAlloc (req_id : string) (block_ids : list (list Z)) (num_external : Z)
  | OBuild (out : SchedulerOutput)
  | OTail (req_id : string) (block_ids : list (list Z)) (offloads : list offload)
  | OComplete (completed : list (Z * Z)).

Definition run_op (o : sched_op) (s : sched) : result sched :=
  match o with
  | OBind => Ok (bind_gpu_block_pool s)
  | OMatch id n k lookup => Ok (get_num_new_matched_tokens c id n k lookup s).2
  | OAlloc id blocks n => update_state_after_alloc id blocks n s
  | OBuild out => let? r := build_connector_meta out s in Ok r.2
  | OTail id blocks offloads => register_finished_partial_tail id blocks offloads s
  | OComplete completed => update_connector_output completed s
  end.

End build.

(** Executions; the attributes of the requests vary from call to call. *)
Inductive sched_runs `{!CeilDiv} (NULL_BLOCK_ID : Z) (c : config) : sched → Prop :=
  | sched_init : sched_runs NULL_BLOCK_ID c init_sched
  | sched_step requests o s s' :
      sched_runs NULL_BLOCK_ID c s → run_op NULL_BLOCK_ID c requests o s = Ok s' →
      sched_runs NULL_BLOCK_ID c s'.
