(* ===== verification/StoreSchedThms.v ===== *)
(** * The store scheduler's block references

    The calls to the block pool implement a reference count: a block is
    referenced once for each unfinished store job that may read it. *)

From S2P Require Import Prelude StoreData StoreSched StoreThms.

(** ** References

    The net effect of the logged calls on block [b]'s reference count. *)
Definition refs_of (b : Z) (a : action) : Z :=
  match a with
  | Touch ids => cnt (Z.eqb b) ids
  | Free ids => - cnt (Z.eqb b) ids
  | Discard _ => 0
  end.

Definition net (b : Z) (l : list action) : Z := sumZ (refs_of b <$> l).

Definition holds_block (b : Z) (e : Z * (list Z * Z)) : bool := bool_decide (b ∈ e.2.1).

Lemma holds_eq b j ids n : holds_block b (j, (ids, n)) = bool_decide (b ∈ ids).
Proof. done. Qed.

(** The unfinished jobs that reference [b]. *)
Definition holders (b : Z) (s : sched) : Z := cnt (holds_block b) (pinned s).

#[local] Arguments net : simpl never.
#[local] Arguments cnt : simpl never.

Lemma net_app b l1 l2 : net b (l1 ++ l2) = net b l1 + net b l2.
Proof. unfold net. by rewrite fmap_app, sumZ_app. Qed.

Lemma net_touch b ids : net b [Touch ids] = cnt (Z.eqb b) ids.
Proof. unfold net. cbn. lia. Qed.

Lemma net_free b ids : net b [Free ids] = - cnt (Z.eqb b) ids.
Proof. unfold net. cbn. lia. Qed.

Lemma cnt_eqb_nodup b ids : NoDup ids → cnt (Z.eqb b) ids = Z.b2z (bool_decide (b ∈ ids)).
Proof.
  induction 1 as [|x ids Hx _ IH]; [done|]. rewrite cnt_cons, IH.
  destruct (Z.eqb_spec b x) as [->|Hne].
  - rewrite (bool_decide_false (x ∈ ids)), bool_decide_true by set_solver. done.
  - simpl. do 2 case_bool_decide; set_solver.
Qed.

(** ** The invariant *)

Record pins_ok (s : sched) : Prop := {
  po_dict : dict_ok (pinned s);
  po_next : ∀ j p, (j, p) ∈ pinned s → j < next_store_job_id s;
  po_jobs : ∀ j ids n, (j, (ids, n)) ∈ pinned s → NoDup ids ∧ 0 < n;
  po_net : ∀ b, net b (log s) = holders b s
}.

(** What leaves the references alone. *)
Definition quiet_pins (s s' : sched) : Prop :=
  pinned s' = pinned s ∧ next_store_job_id s' = next_store_job_id s ∧
  pool_bound s' = pool_bound s ∧ finished_tails s' = finished_tails s ∧
  ∀ b, net b (log s') = net b (log s).

#[global] Instance quiet_pins_refl : Reflexive quiet_pins.
Proof. by split. Qed.
#[global] Instance quiet_pins_trans : Transitive quiet_pins.
Proof. intros s1 s2 s3 (E1 & E2 & E3 & E4 & E5) (F1 & F2 & F3 & F4 & F5). split_and!; congruence. Qed.

Lemma pins_ext s s' :
  pinned s' = pinned s → next_store_job_id s' = next_store_job_id s →
  (∀ b, net b (log s') = net b (log s)) → pins_ok s → pins_ok s'.
Proof.
  intros E1 E2 E3 [H1 H2 H3 H4]. unfold holders in *.
  split; unfold holders; rewrite ?E1, ?E2; auto. intros b. by rewrite E3.
Qed.

Lemma pins_quiet s s' : quiet_pins s s' → pins_ok s → pins_ok s'.
Proof. intros (E1 & E2 & _ & _ & E3). by apply pins_ext. Qed.

Lemma pins_foldl {A} (f : sched → A → sched) l s :
  (∀ s a, quiet_pins s (f s a)) → quiet_pins s (foldl f s l).
Proof.
  intros Hf. revert s. induction l as [|a l IH]; intros s; [done|]. cbn. etrans; [apply Hf|apply IH].
Qed.

Section sched.
Context `{CD : !CeilDiv}.
Context (NULL_BLOCK_ID : Z) (c : config) (requests : string → Request).

(** The same for a stage of the step, which only makes metadata without a
    store job. *)
Definition quiet_acc (acc acc' : list ReqMeta * sched) : Prop :=
  quiet_pins acc.2 acc'.2 ∧
  (Forall (λ m, store_job_id m = None) acc.1 → Forall (λ m, store_job_id m = None) acc'.1).

#[local] Instance quiet_acc_refl : Reflexive quiet_acc.
Proof. by split. Qed.
#[local] Instance quiet_acc_trans : Transitive quiet_acc.
Proof. intros a1 a2 a3 [E1 E2] [F1 F2]. split; [by etrans|auto]. Qed.

Lemma quiet_rfold {A} (f : list ReqMeta * sched → A → result (list ReqMeta * sched)) l acc acc' :
  (∀ acc a acc', f acc a = Ok acc' → quiet_acc acc acc') → rfold f acc l = Ok acc' → quiet_acc acc acc'.
Proof.
  intros Hf. apply (rfold_ind (quiet_acc acc)); [|done]. intros s a s' H ?%Hf. by etrans.
Qed.

Lemma from_tracker_nojob t bs l skip h m t' :
  from_request_tracker t bs l skip h = Ok (Some m, t') → store_job_id m = None.
Proof.
  unfold from_request_tracker. intros (k & _ & H)%rbind_Ok. case_match; [done|].
  apply Ok_inj in H. by injection H as <- _.
Qed.

Lemma quiet_emit id t l skip acc acc' s :
  emit c requests id t l skip (acc.1, s) = Ok acc' → quiet_pins acc.2 s → quiet_acc acc acc'.
Proof.
  unfold emit. intros ([m t'] & Hm & [= <-])%rbind_Ok Hq. split; [by etrans|]. cbn. intros Ha.
  destruct m as [m|]; [|done]. apply Forall_app. split; [done|]. constructor; [|done].
  by eapply from_tracker_nojob.
Qed.

Lemma quiet_state acc s : quiet_pins acc.2 s → quiet_acc acc (acc.1, s).
Proof. by split. Qed.

Lemma quiet_finish s id : quiet_pins s (finish_request s id).
Proof.
  split_and!; [done..|]. intros b.
  change (log (finish_request s id)) with (log s ++ [Discard id]). rewrite net_app.
  change (net b [Discard id]) with 0. lia.
Qed.

Lemma quiet_preempt s id : quiet_pins s (preempt_request s id).
Proof. unfold preempt_request. cbn. by case_match. Qed.

Lemma quiet_new out acc r acc' : new_request c requests out acc r = Ok acc' → quiet_acc acc acc'.
Proof.
  unfold new_request. intros (n & _ & (u & _ & (bl & _ & (tk & _ & H)%rbind_Ok)%rbind_Ok)%rbind_Ok)%rbind_Ok.
  by eapply quiet_emit.
Qed.

Lemma quiet_cached out acc r acc' : cached_request c requests out acc r = Ok acc' → quiet_acc acc acc'.
Proof.
  unfold cached_request. intros (blocks & _ & H)%rbind_Ok.
  destruct (cd_resumed r).
  - unfold resumed_request in H. destruct blocks; [by apply Ok_inj in H as ->|].
    apply rbind_Ok in H as (? & _ & (? & _ & H)%rbind_Ok). by eapply quiet_emit.
  - unfold running_request in H. apply rbind_Ok in H as (t & _ & H).
    destruct (_ && _); [by apply Ok_inj in H as ->|].
    apply rbind_Ok in H as (? & _ & (? & _ & (? & _ & H)%rbind_Ok)%rbind_Ok).
    destruct (_ && _); [by apply Ok_inj in H as <-|]. by eapply quiet_emit.
Qed.

Lemma quiet_pending out acc e acc' : pending_load c requests out acc e = Ok acc' → quiet_acc acc acc'.
Proof.
  unfold pending_load. destruct e as [id blocks]. intros H.
  destruct (_ || _); [by apply Ok_inj in H as ->|].
  destruct (dget (load_specs acc.2) id) as [l|]; [|by apply Ok_inj in H as <-].
  destruct (can_load l); [|by apply Ok_inj in H as <-]. by eapply quiet_emit.
Qed.

Lemma quiet_offloads l acc :
  quiet_acc acc (handle_boundary_state_offloads NULL_BLOCK_ID c requests l acc).
Proof.
  unfold handle_boundary_state_offloads. generalize acc.1 at 1 as saves. intros saves.
  revert acc. induction l as [|[id entries] l IH]; intros acc; [done|]. cbn [foldl].
  etrans; [|apply IH]. unfold offload_request. repeat case_match; try done.
  - split; [done|]. cbn. intros Ha. apply Forall_alter; [done|]. by intros.
  - split; [done|]. cbn. intros Ha. apply Forall_app. split; [done|]. by repeat constructor.
Qed.

(** ** Pinning and releasing *)

Lemma elem_of_fromkeys x l : x ∈ fromkeys l ↔ x ∈ l.
Proof.
  induction l as [|y l IH]; [done|]. cbn. rewrite !elem_of_cons, list_elem_of_filter, IH.
  destruct (decide (x = y)); naive_solver.
Qed.

Lemma NoDup_fromkeys l : NoDup (fromkeys l).
Proof.
  induction l as [|y l IH]; cbn; constructor; [|by apply NoDup_filter].
  rewrite list_elem_of_filter. naive_solver.
Qed.

Hypothesis Hworkers : 0 < num_workers c.

Lemma pins_pin s ids :
  NoDup ids → pins_ok s →
  pins_ok (pin c (next_store_job_id s) ids (set_next_store_job_id (λ n, n + 1) s)).
Proof.
  intros Hids [H1 H2 H3 H4]. set (j := next_store_job_id s).
  assert (Hnew : dget (pinned s) j = None).
  { apply dget_None. intros ([j' p] & E & Hj)%list_elem_of_fmap. apply H2 in Hj.
    cbn in E. unfold j in E. lia. }
  split; cbn.
  - by apply dict_ok_dset.
  - intros j' p [[= -> ->]|[Hp _]]%elem_of_dset; [unfold j; lia|]. apply H2 in Hp. lia.
  - intros j' ids' n [[= -> -> ->]|[Hp _]]%elem_of_dset; [done|]. by eapply H3.
  - intros b. rewrite net_app, H4. unfold holders. cbn. rewrite cnt_dset, Hnew by done.
    rewrite holds_eq, net_touch, cnt_eqb_nodup by done. lia.
Qed.

Lemma pins_complete s e s' : pins_ok s → complete_save s e = Ok s' → pins_ok s'.
Proof.
  intros Hok H. assert (Hok' := Hok). destruct Hok' as [H1 H2 H3 H4].
  unfold complete_save in H. destruct e as [j count].
  destruct (dget (pinned s) j) as [[ids n]|] eqn:Hj; [|by apply Ok_inj in H as ->].
  assert (Hin := Hj). apply dget_elem_of in Hin. destruct (H3 _ _ _ Hin) as [Hnd Hn].
  destruct (Z.ltb_spec 0 (n - count)).
  - apply Ok_inj in H as <-. split; cbn.
    + by apply dict_ok_dset.
    + intros j' p [[= -> ->]|[Hp _]]%elem_of_dset; [by eapply H2|]. by apply H2 in Hp.
    + intros j' ids' n' [[= -> -> ->]|[Hp _]]%elem_of_dset; [done|]. by eapply H3.
    + intros b. rewrite H4. unfold holders. cbn. rewrite cnt_dset, Hj by done. rewrite !holds_eq. lia.
  - apply rbind_Ok in H as (u & Hz & H). apply Ok_inj in H as <-. split; cbn.
    + by apply dict_ok_ddel.
    + intros j' p [_ Hp]%list_elem_of_filter. by eapply H2.
    + intros j' ids' n' [_ Hp]%list_elem_of_filter. by eapply H3.
    + intros b. rewrite net_app, H4. unfold holders. cbn.
      rewrite (cnt_ddel _ _ _ _ H1 Hj), holds_eq, net_free.
      rewrite (cnt_eqb_nodup b (reverse ids)) by (by rewrite reverse_Permutation).
      assert (bool_decide (b ∈ reverse ids) = bool_decide (b ∈ ids)) as ->
        by (apply bool_decide_ext; apply elem_of_reverse). lia.
Qed.

(** ** A step *)

Definition held_by (s : sched) (j b : Z) : Prop :=
  ∃ ids n, dget (pinned s) j = Some (ids, n) ∧ b ∈ ids.

(** What [_reference_save_blocks] guarantees for a metadata it leaves. *)
Definition saved (s : sched) (m m' : ReqMeta) : Prop :=
  can_save m' = can_save m ∧
  (can_save m = true → ∃ j, store_job_id m' = Some j ∧ j < next_store_job_id s ∧
     (store_job_id m = None →
        job_blocks NULL_BLOCK_ID c m' = job_blocks NULL_BLOCK_ID c m ∧
        ∀ b, b ∈ job_blocks NULL_BLOCK_ID c m → held_by s j b) ∧
     (is_Some (store_job_id m) → m' = m ∧ is_Some (dget (pinned s) j))).

(** Later jobs keep the earlier ones. *)
Definition grows (s s' : sched) : Prop :=
  pins_ok s' ∧ next_store_job_id s ≤ next_store_job_id s' ∧
  ∀ j, j < next_store_job_id s → dget (pinned s') j = dget (pinned s) j.

Lemma saved_grows s s' m m' : grows s s' → saved s m m' → saved s' m m'.
Proof.
  intros (_ & Hn & Hd) [H1 H2]. split; [done|]. intros Hc. destruct (H2 Hc) as (j & ? & Hj & H3 & H4).
  exists j. split_and!; [done|lia| |].
  - intros Hno. destruct (H3 Hno) as [? Hb]. split; [done|]. intros b Hbb.
    unfold held_by. rewrite Hd by done. by apply Hb.
  - rewrite Hd by done. done.
Qed.

Lemma reference_block_ok ms s m ms' s' :
  pins_ok s → reference_block NULL_BLOCK_ID c (ms, s) m = Ok (ms', s') →
  grows s s' ∧ ∃ m', ms' = ms ++ [m'] ∧ saved s' m m'.
Proof.
  intros Hok H. cbn in H. destruct (can_save m) eqn:Hc; cbn in H.
  2:{ apply Ok_inj in H. injection H as <- <-. split; [done|]. exists m. split; [done|].
      split; [done|]. congruence. }
  apply rbind_Ok in H as (u1 & _ & H). destruct (store_job_id m) as [j|] eqn:Hj.
  - apply rbind_Ok in H as (u2 & Hp & H). apply assert_Ok, bool_decide_eq_true in Hp as [p Hp].
    apply Ok_inj in H. injection H as <- <-. split; [done|]. exists m. split; [done|]. split; [done|].
    intros _. exists j. split_and!; [done| | |].
    + apply dget_elem_of in Hp. by apply (po_next _ Hok) in Hp.
    + congruence.
    + intros _. by rewrite Hp.
  - apply rbind_Ok in H as (u2 & Hnull & H). apply Ok_inj in H. injection H as <- <-.
    set (j := next_store_job_id s). set (ids := fromkeys (job_blocks NULL_BLOCK_ID c m)).
    assert (Hs : grows s match ids with
      | [] => set_next_store_job_id (λ n, n + 1) s
      | _ => pin c j ids (set_next_store_job_id (λ n, n + 1) s) end ∧
      (ids ≠ [] → dget (pinned match ids with
      | [] => set_next_store_job_id (λ n, n + 1) s
      | _ => pin c j ids (set_next_store_job_id (λ n, n + 1) s) end) j = Some (ids, num_workers c)) ∧
      next_store_job_id match ids with
      | [] => set_next_store_job_id (λ n, n + 1) s
      | _ => pin c j ids (set_next_store_job_id (λ n, n + 1) s) end = j + 1).
    { assert (Hnd : NoDup ids) by apply NoDup_fromkeys. clearbody ids. destruct ids as [|x ids].
      - split_and!; [|done|done]. split_and!; [|cbn; lia|done].
        destruct Hok as [H1 H2 H3 H4]. split; cbn; auto. intros j' p Hp%H2. lia.
      - split_and!; [|intros _; apply dget_dset_eq|done].
        split_and!; [by apply pins_pin|cbn; lia|]. intros j' Hj'. cbn.
        apply dget_dset_ne. unfold j. lia. }
    destruct Hs as (Hg & Hd & Hn). split; [exact Hg|]. exists (with_job j m). split; [done|].
    split; [done|]. intros _. exists j. split_and!; [done|rewrite Hn; lia| |intros [? ?]; congruence].
    intros _. split; [done|]. intros b Hb. exists ids, (num_workers c).
    apply elem_of_fromkeys in Hb. split; [|exact Hb]. apply Hd. intros E. fold ids in Hb. rewrite E in Hb.
    set_solver.
Qed.

Lemma reference_save_ok ms s ms' s' :
  pins_ok s → reference_save_blocks NULL_BLOCK_ID c ms s = Ok (ms', s') →
  grows s s' ∧ Forall2 (saved s') ms ms'.
Proof.
  intros Hok H. unfold reference_save_blocks in H.
  cut (∀ pre pre', Forall2 (saved s) pre' pre → rfold (reference_block NULL_BLOCK_ID c) (pre, s) ms = Ok (ms', s') →
    grows s s' ∧ Forall2 (saved s') (pre' ++ ms) ms').
  { intros Hc. destruct (Hc [] [] ltac:(constructor) H). done. }
  clear H. revert s Hok. induction ms as [|m ms IH]; intros s Hok pre pre' Hpre H.
  - cbn in H. apply Ok_inj in H. injection H as <- <-. rewrite app_nil_r. split; [|done].
    split; [done|]. split; [lia|done].
  - cbn [rfold] in H. apply rbind_Ok in H as ([ms1 s1] & H1 & H).
    apply reference_block_ok in H1 as (Hg & m' & -> & Hm); [|done].
    change (pre' ++ m :: ms) with (pre' ++ [m] ++ ms). rewrite app_assoc.
    destruct (IH s1 (proj1 Hg) (pre ++ [m']) (pre' ++ [m])) as [Hg' Hf]; [|done|].
    + apply Forall2_app; [|by constructor]. eapply Forall2_impl; [done|]. intros x y. by apply saved_grows.
    + split; [|done]. destruct Hg as (_ & ? & Hd), Hg' as (? & ? & Hd'). split_and!; [done|lia|].
      intros j Hj. rewrite Hd' by lia. by apply Hd.
Qed.

(** ** The pending tails

    A finished request's tail keeps its job's boundary states pinned until
    the metadata goes out. *)

Definition offload_blocks (m : ReqMeta) : list Z :=
  (λ e : offload, e.1.2) <$> default [] (boundary_state_offloads m).

Definition tail_ok (s : sched) (m : ReqMeta) : Prop :=
  can_save m = true ∧ ∃ j, store_job_id m = Some j ∧ j < next_store_job_id s ∧
    ∀ ids n, dget (pinned s) j = Some (ids, n) → ∀ b, b ∈ offload_blocks m → b ∈ ids.

Record refs_ok (s : sched) : Prop := {
  ro_pins : pins_ok s;
  ro_tails : ∀ id m, (id, m) ∈ finished_tails s → tail_ok s m
}.

Lemma refs_quiet s s' : quiet_pins s s' → refs_ok s → refs_ok s'.
Proof.
  intros Hq [Hp Ht]. split; [by eapply pins_quiet|]. destruct Hq as (E1 & E2 & _ & E4 & _).
  intros id m. rewrite E4. intros (? & j & ? & ? & ?)%Ht. split; [done|]. exists j. by rewrite E1, E2.
Qed.

Lemma tail_grows s s' m : grows s s' → tail_ok s m → tail_ok s' m.
Proof.
  intros (_ & Hn & Hd) (? & j & ? & ? & H). split; [done|]. exists j. split_and!; [done|lia|]. by rewrite Hd.
Qed.

Lemma refs_init : refs_ok init_sched.
Proof.
  split; [split|]; cbn; try (by intros); [constructor|set_solver..].
Qed.

Lemma remap_keeps_block e e' : remap_offload NULL_BLOCK_ID c e = Some e' → e'.1.2 = e.1.2.
Proof.
  destruct e as [[g b] boundary]. unfold remap_offload. case_match; [done|].
  intros (sg & _ & ->)%fmap_Some. done.
Qed.

Lemma remap_keeps_blocks l l' :
  mapM (remap_offload NULL_BLOCK_ID c) l = Some l' →
  (λ e : offload, e.1.2) <$> l' = (λ e : offload, e.1.2) <$> l.
Proof.
  intros H%mapM_Some. induction H as [|e e' l l' He _ IH]; [done|]. csimpl.
  by rewrite IH, (remap_keeps_block _ _ He).
Qed.

Lemma pin_grows s ids :
  NoDup ids → pins_ok s →
  grows s (pin c (next_store_job_id s) ids (set_next_store_job_id (λ n, n + 1) s)).
Proof.
  intros Hnd Hok. split_and!; [by apply pins_pin|cbn; lia|]. intros j Hj. cbn.
  apply dget_dset_ne. lia.
Qed.

(** The effect of [register_finished_partial_tail], if it has one. *)
Record tail_made (id : string) (s s' : sched) (ids : list Z) (m : ReqMeta) : Prop := {
  tm_bound : pool_bound s = true;
  tm_absent : dget (finished_tails s) id = None;
  tm_pinned : pinned s' = dset (pinned s) (next_store_job_id s) (ids, num_workers c);
  tm_next : next_store_job_id s' = next_store_job_id s + 1;
  tm_tails : finished_tails s' = dset (finished_tails s) id m;
  tm_pool : pool_bound s' = true;
  tm_log : log s' = log s ++ [Touch ids];
  tm_save : can_save m = true;
  tm_job : store_job_id m = Some (next_store_job_id s);
  tm_nodup : NoDup ids;
  tm_ids : ∀ b, b ∈ offload_blocks m → b ∈ ids
}.

Lemma tail_cases id blocks offloads s s' :
  register_finished_partial_tail NULL_BLOCK_ID c requests id blocks offloads s = Ok s' →
  s' = s ∨ ∃ ids m, tail_made id s s' ids m.
Proof.
  intros H. unfold register_finished_partial_tail in H.
  destruct (is_consumer c); [left; by apply Ok_inj in H|].
  destruct offloads as [|[[g b] boundary] l] eqn:El; [left; by apply Ok_inj in H|]. rewrite <- El in H.
  destruct (dget (trackers s) id) as [t|]; [|left; by apply Ok_inj in H].
  destruct (negb (existsb _ _)); [left; by apply Ok_inj in H|].
  apply rbind_Ok in H as (u1 & _ & H). destruct (_ <? _); [left; by apply Ok_inj in H|].
  destruct (mapM _ _) as [l'|] eqn:Hl'; [|left; by apply Ok_inj in H].
  apply rbind_Ok in H as (u2 & Hb%assert_Ok & (u3 & Ha & (bl & _ & H)%rbind_Ok)%rbind_Ok).
  apply Ok_inj in H as <-. right. eexists _, _. split; try done.
  - apply assert_Ok, negb_true_iff, bool_decide_eq_false in Ha. destruct (dget _ _); [by destruct Ha|done].
  - apply NoDup_fromkeys.
  - intros b' Hb'. apply elem_of_fromkeys. unfold offload_blocks in Hb'. cbn in Hb'.
    by rewrite (remap_keeps_blocks _ _ Hl') in Hb'.
Qed.

Lemma refs_tail id blocks offloads s s' :
  refs_ok s → register_finished_partial_tail NULL_BLOCK_ID c requests id blocks offloads s = Ok s' →
  refs_ok s'.
Proof.
  intros Hok [->|(ids & m & [_ _ Ep En Et _ El Hc Hj Hnd Hi])]%tail_cases; [done|]. destruct Hok as [Hp Ht].
  set (s1 := pin c (next_store_job_id s) ids (set_next_store_job_id (λ n, n + 1) s)).
  split; [apply (pins_ext s1 s' Ep En); [intros b; by rewrite El|by apply pins_pin]|].
  intros id' m'. rewrite Et. intros [[= -> ->]|[Hm _]]%elem_of_dset.
  - split; [done|]. exists (next_store_job_id s). rewrite En, Ep. split_and!; [done|lia|].
    intros ids' n. rewrite dget_dset_eq. intros [= <- _]. exact Hi.
  - destruct (Ht _ _ Hm) as (? & j & ? & ? & Hb). split; [done|]. exists j. rewrite En, Ep. split_and!; [done|lia|].
    by rewrite dget_dset_ne by lia.
Qed.

Lemma refs_complete s e s' : refs_ok s → complete_save s e = Ok s' → refs_ok s'.
Proof.
  intros [Hp Ht] H. split; [by eapply pins_complete|]. intros id m Hm.
  assert (E : finished_tails s' = finished_tails s ∧ next_store_job_id s' = next_store_job_id s ∧
    ∀ j ids n, dget (pinned s') j = Some (ids, n) → ∃ n', dget (pinned s) j = Some (ids, n')).
  { unfold complete_save in H. destruct e as [j count].
    destruct (dget (pinned s) j) as [[ids n]|] eqn:Hj; [|apply Ok_inj in H as <-; by eauto].
    destruct (0 <? n - count).
    - apply Ok_inj in H as <-. split_and!; [done..|]. intros j' ids' n'. cbn.
      destruct (decide (j' = j)) as [->|Hne]; [|rewrite dget_dset_ne by done; eauto].
      rewrite dget_dset_eq. intros [= <- _]. eauto.
    - apply rbind_Ok in H as (u & _ & H). apply Ok_inj in H as <-. split_and!; [done..|].
      intros j' ids' n'. cbn. destruct (decide (j' = j)) as [->|Hne].
      + by rewrite dget_ddel_eq.
      + rewrite dget_ddel_ne by done. eauto. }
  destruct E as (E1 & E2 & E3). rewrite E1 in Hm. destruct (Ht _ _ Hm) as (? & j & ? & ? & Hb).
  split; [done|]. exists j. split_and!; [done|by rewrite E2|]. intros ids n (n' & Hn)%E3. by eapply Hb.
Qed.

(** ** Building the metadata *)

Lemma current_ids_ok out ms ms' :
  apply_current_save_block_ids c out ms = Ok ms' →
  Forall (λ m, store_job_id m = None) ms → Forall (λ m, store_job_id m = None) ms'.
Proof.
  unfold apply_current_save_block_ids. destruct (negb _); [by intros [= ->]|].
  intros (bs & _ & H)%rbind_Ok. apply rmap_Ok in H.
  induction H as [|m m' ms ms' Hm _ IH]; [done|]. inversion 1; subst. constructor; [|by apply IH].
  destruct (can_save m); [|by apply Ok_inj in Hm as <-].
  apply rbind_Ok in Hm as (ids & _ & (ids' & _ & Hm)%rbind_Ok). by apply Ok_inj in Hm as <-.
Qed.

(** The stages of [build_connector_meta] up to [_reference_save_blocks]. *)
Lemma build_stages out s ms s' :
  build_connector_meta NULL_BLOCK_ID c requests out s = Ok (ms, s') →
  ∃ ms0 s0, quiet_pins s s0 ∧ Forall (λ m, store_job_id m = None) ms0 ∧
    reference_save_blocks NULL_BLOCK_ID c (ms0 ++ (finished_tails s0).*2)
      (set_finished_tails (λ _, []) s0) = Ok (ms, s').
Proof.
  unfold build_connector_meta. cbv zeta. intros (a1 & H1 & H)%rbind_Ok.
  apply rbind_Ok in H as (a2 & H2 & (a3 & H3 & H)%rbind_Ok). apply rbind_Ok in H as (ms1 & H4 & H).
  set (a4 := match kv_connector_block_state out with Some bs => _ | None => a3 end) in *.
  assert (Q : quiet_acc ([], foldl preempt_request (foldl finish_request s (finished_req_ids out))
                   (preempted_req_ids out)) a4).
  { etrans; [eapply quiet_rfold; [|exact H1]; intros ???; apply quiet_new|].
    transitivity a2; [|transitivity a3].
    - destruct (_ || _); [|by apply Ok_inj in H2 as ->].
      eapply quiet_rfold; [|exact H2]. intros ???; apply quiet_cached.
    - eapply quiet_rfold; [|exact H3]. intros ???; apply quiet_pending.
    - unfold a4. destruct (kv_connector_block_state out) as [bs|]; [|reflexivity].
      destruct (is_consumer c); [reflexivity|apply quiet_offloads]. }
  exists ms1, a4.2. split_and!; [| |exact H].
  - etrans; [|apply Q]. cbn. etrans; [by eapply pins_foldl, quiet_finish|by eapply pins_foldl, quiet_preempt].
  - eapply current_ids_ok; [exact H4|]. by apply Q.
Qed.

Lemma reference_save_frame ms s ms' s' :
  reference_save_blocks NULL_BLOCK_ID c ms s = Ok (ms', s') →
  finished_tails s' = finished_tails s ∧ pool_bound s' = pool_bound s.
Proof.
  unfold reference_save_blocks.
  apply (rfold_ind (λ acc, finished_tails acc.2 = finished_tails s ∧ pool_bound acc.2 = pool_bound s));
    [|done].
  intros [pre s1] m acc Hs1 H. cbn in H. destruct (can_save m); cbn in H; [|by apply Ok_inj in H as <-].
  apply rbind_Ok in H as (u & _ & H). destruct (store_job_id m).
  - apply rbind_Ok in H as (u' & _ & H). by apply Ok_inj in H as <-.
  - apply rbind_Ok in H as (u' & _ & H). apply Ok_inj in H as <-. by destruct (fromkeys _).
Qed.

(** What the metadata of a step promise: the metadata made in the step, then
    the pending tails. *)
Lemma build_ok out s ms s' :
  pins_ok s → build_connector_meta NULL_BLOCK_ID c requests out s = Ok (ms, s') →
  grows s s' ∧ finished_tails s' = [] ∧ pool_bound s' = pool_bound s ∧
  ∃ ms0 ms1 ms2, ms = ms1 ++ ms2 ∧ Forall (λ m, store_job_id m = None) ms0 ∧
    Forall2 (saved s') ms0 ms1 ∧ Forall2 (saved s') (finished_tails s).*2 ms2.
Proof.
  intros Hok (ms0 & s0 & Hq & Hno & H)%build_stages.
  assert (Hok0 : pins_ok (set_finished_tails (λ _, []) s0)).
  { eapply pins_ext; [..|eapply pins_quiet; [exact Hq|done]]; done. }
  destruct (reference_save_frame _ _ _ _ H) as [Ht Hb].
  apply reference_save_ok in H as [Hg Hs]; [|done].
  destruct Hq as (E1 & E2 & E3 & E4 & _). rewrite E4 in Hs.
  apply Forall2_app_inv_l in Hs as (ms1 & ms2 & H1 & H2 & ->).
  split_and!; [|done|by rewrite Hb|by exists ms0, ms1, ms2].
  destruct Hg as (? & Hn & Hd). cbn in Hn, Hd. split_and!; [done|lia|].
  intros j. rewrite <- E1, <- E2. apply Hd.
Qed.

(** The pending tails go out as they are. *)
Lemma saved_tails s s' l l' :
  (∀ m, m ∈ l → tail_ok s m) → Forall2 (saved s') l l' → l' = l ∧ Forall (λ m, saved s' m m) l.
Proof.
  intros Htail H. induction H as [|m m' l l' Hm _ IH]; [done|].
  destruct IH as [-> Hl]; [intros; apply Htail; set_solver|].
  destruct (Htail m ltac:(set_solver)) as (Hc & j & Hj & _). assert (Hm' := Hm).
  destruct Hm' as [_ Hs]. destruct (Hs Hc) as (j' & _ & _ & _ & Hs').
  destruct (Hs' ltac:(eauto)) as [-> _]. split; [done|]. by constructor.
Qed.

Lemma refs_step o s s' : refs_ok s → run_op NULL_BLOCK_ID c requests o s = Ok s' → refs_ok s'.
Proof.
  intros Hok H. assert (Hself : ∀ s', quiet_pins s s' → refs_ok s') by (intros; by eapply refs_quiet).
  destruct o; cbn in H.
  - apply Ok_inj in H as <-. destruct Hok as [Hp Ht]. split; [|exact Ht].
    eapply pins_ext; [..|exact Hp]; done.
  - apply Ok_inj in H as <-. unfold get_num_new_matched_tokens.
    repeat case_match; try done; by apply Hself; repeat split.
  - unfold update_state_after_alloc in H. destruct (dget _ _) as [l|].
    + destruct (num_external =? 0).
      * apply Ok_inj in H as <-. by apply Hself; repeat split.
      * apply rbind_Ok in H as (u & _ & H). apply Ok_inj in H as <-.
        by apply Hself; repeat split.
    + apply Ok_inj in H as <-. by apply Hself; repeat split.
  - apply rbind_Ok in H as ([ms s1] & H & [= <-]). destruct Hok as [Hp Ht].
    apply build_ok in H as (Hg & Hn & _ & _); [|done]. split; [apply Hg|]. cbn. rewrite Hn. set_solver.
  - by eapply refs_tail.
  - unfold update_connector_output in H. apply rbind_Ok in H as (u & _ & H).
    revert H. apply (rfold_ind refs_ok); [|done]. intros ???. apply refs_complete.
Qed.

End sched.

Lemma refs_reachable `{CD : !CeilDiv} NULL_BLOCK_ID c s :
  0 < num_workers c → sched_runs NULL_BLOCK_ID c s → refs_ok s.
Proof. intros Hw. induction 1; [by apply (refs_init c)|by eapply refs_step]. Qed.

Lemma held_referenced s j b : pins_ok s → held_by s j b → 0 < net b (log s).
Proof.
  intros Hok (ids & n & Hj & Hb). rewrite (po_net _ Hok). unfold holders.
  enough (1 ≤ cnt (holds_block b) (pinned s)) by lia.
  eapply cnt_pos; [by apply dget_elem_of in Hj|]. rewrite holds_eq. by apply bool_decide_true.
Qed.

(** ** Releases *)

(** The reports of [completed] are the missing ones. *)
Definition all_reported (completed : list (Z * Z)) (s : sched) : Prop :=
  ∀ j ids n, dget (pinned s) j = Some (ids, n) → reports j completed = n.

(** Processing a list of completions while [other j] reports of job [j] are
    still missing. *)
Lemma complete_list l s (other : Z → Z) :
  pins_ok s → Forall (λ e : Z * Z, 0 < e.2) l → (∀ j, 0 ≤ other j) →
  (∀ j ids n, dget (pinned s) j = Some (ids, n) → n = reports j l + other j) →
  ∃ s', rfold complete_save s l = Ok s' ∧ pins_ok s' ∧
    (next_store_job_id s' = next_store_job_id s ∧ finished_tails s' = finished_tails s ∧
     pool_bound s' = pool_bound s) ∧
    ∀ j ids n, dget (pinned s') j = Some (ids, n) → n = other j.
Proof.
  intros Hok Hl Hother. revert s Hok. induction Hl as [|[j k] l Hk Hl IH]; intros s Hok Hall.
  - exists s. split_and!; try done.
  - cbn in Hk.
    assert (Hrest : ∀ j' ids n, dget (pinned s) j' = Some (ids, n) → j' ≠ j → n = reports j' l + other j').
    { intros j' ids n Hj Hne. rewrite (Hall _ _ _ Hj), reports_cons. cbn. by destruct (Z.eqb_spec j j'). }
    assert (Hstep : ∃ s1, complete_save s (j, k) = Ok s1 ∧
      (next_store_job_id s1 = next_store_job_id s ∧ finished_tails s1 = finished_tails s ∧
       pool_bound s1 = pool_bound s) ∧
      ∀ j' ids n, dget (pinned s1) j' = Some (ids, n) → n = reports j' l + other j').
    { unfold complete_save. destruct (dget (pinned s) j) as [[ids n]|] eqn:Hj.
      - assert (Hn := Hall _ _ _ Hj). rewrite reports_cons in Hn. cbn in Hn. rewrite Z.eqb_refl in Hn.
        pose proof (reports_nonneg j l Hl). specialize (Hother j). destruct (Z.ltb_spec 0 (n - k)).
        + eexists. split_and!; [done..|]. intros j' ids' n'. cbn. destruct (decide (j' = j)) as [->|Hne].
          * rewrite dget_dset_eq. intros [= _ <-]. lia.
          * rewrite dget_dset_ne by done. intros. by eapply Hrest.
        + replace (n - k) with 0 by lia. eexists. split_and!; [done..|]. intros j' ids' n'.
          change (pinned _) with (ddel (pinned s) j). destruct (decide (j' = j)) as [->|Hne].
          * by rewrite dget_ddel_eq.
          * rewrite dget_ddel_ne by done. intros. by eapply Hrest.
      - eexists. split_and!; [done..|]. intros j' ids n H'. eapply Hrest; [done|congruence]. }
    destruct Hstep as (s1 & H1 & Hf & Hall1). cbn [rfold]. rewrite H1.
    destruct (IH s1 ltac:(by eapply pins_complete) Hall1) as (s' & ? & ? & ? & ?). exists s'.
    destruct_and!. split_and!; try done; congruence.
Qed.

(** ** An execution

    Two workers, a group that saves by position and one that offloads
    boundary states; one request of two blocks, then its tail. *)

Definition ex_config : config :=
  mkConfig "kv_both" true true false false [0; 1] 4 4 true {[1]} 2.

Definition ex_request : string → Request :=
  λ _, mkRequest 8 [[10]; [11]] 0 [1; 2; 3; 4; 5; 6; 7; 8].

Definition ex_output : SchedulerOutput :=
  mkOutput [] [] [mkNewRequest "r" 0 [[5; 6]; [0; 7]] (Some [1; 2; 3; 4; 5; 6; 7; 8]) None]
    [("r", 8)] [] (Some (mkBlockState [("r", [(1, 7, 8)])] (λ _, Some [[5; 6]; [0; 7]]))).

Definition ex_next : SchedulerOutput := mkOutput ["r"] [] [] [] [] (Some (mkBlockState [] (λ _, None))).

Definition ex_ops : list sched_op :=
  [OBind; OAlloc "r" [[]; []] 0; OBuild ex_output; OTail "r" [[5; 6]; [0; 7]] [(1, 7, 8)];
   OBuild ex_next].

Definition ex_state (k : nat) : sched :=
  match rfold (λ s o, run_op 0 ex_config ex_request o s) init_sched (take k ex_ops) with
  | Ok s => s
  | Err _ => init_sched
  end.

Lemma ex_reachable k : sched_runs 0 ex_config (ex_state k).
Proof.
  unfold ex_state. destruct (rfold _ _ _) as [s|] eqn:E; [|by constructor].
  revert E. apply (rfold_ind (sched_runs 0 ex_config)); [|by constructor].
  intros s1 o s2 ? H. by eapply sched_step.
Qed.

(** ** The properties *)

(** C15 (refinement): in every execution of the scheduler, the calls it made
    to the block pool amount to a reference count in which each block is
    referenced once for every unfinished store job that holds it; jobs have
    distinct identifiers below the next one, hold no block twice, and each
    still waits for a report. *)
Theorem pins_refine_refcounts `{CD : !CeilDiv} (NULL_BLOCK_ID : Z) (c : config) (s : sched) :
  0 < num_workers c → sched_runs NULL_BLOCK_ID c s →
  (∀ b, net b (log s) = cnt (holds_block b) (pinned s)) ∧
  NoDup (pinned s).*1 ∧
  ∀ j ids n, (j, (ids, n)) ∈ pinned s → j < next_store_job_id s ∧ NoDup ids ∧ 0 < n.
Proof.
  intros Hw [[H1 H2 H3 H4] _]%refs_reachable; [|done]. split_and!; [exact H4|exact H1|].
  intros j ids n Hin. split; [by eapply H2|by eapply H3].
Qed.

Lemma pins_refine_refcounts_witness :
  pinned (ex_state 4) = [(0, ([7; 5; 6], 2)); (1, ([7], 2))] ∧ net 7 (log (ex_state 4)) = 2.
Proof.
  split; [by vm_compute|].
  destruct (pins_refine_refcounts 0 ex_config (ex_state 4) eq_refl (ex_reachable 4)) as [H _].
  rewrite H. by vm_compute.
Defined.

(** Every metadata of a step that saves has a store job. For
    one made in the step, the job holds every block the worker may read: the
    boundary states and the blocks of the groups saved by position; for a
    finished request's tail, the boundary states. The held blocks are
    referenced in the pool when the step's metadata leave the scheduler. *)
Theorem saves_pinned `{CD : !CeilDiv} (NULL_BLOCK_ID : Z) (c : config)
    (requests : string → Request) (out : SchedulerOutput) (s : sched) (ms : list ReqMeta) (s' : sched) :
  0 < num_workers c → sched_runs NULL_BLOCK_ID c s →
  build_connector_meta NULL_BLOCK_ID c requests out s = Ok (ms, s') →
  ∃ ms1, ms = ms1 ++ (finished_tails s).*2 ∧
    (∀ m, m ∈ ms1 → can_save m = true → ∃ j, store_job_id m = Some j ∧
       ∀ b, b ∈ job_blocks NULL_BLOCK_ID c m → held_by s' j b ∧ 0 < net b (log s')) ∧
    (∀ m, m ∈ (finished_tails s).*2 → ∃ j, store_job_id m = Some j ∧
       ∀ b, b ∈ offload_blocks m → held_by s' j b ∧ 0 < net b (log s')).
Proof.
  intros Hw [Hp Ht]%refs_reachable H; [|done].
  apply build_ok in H as (Hg & _ & _ & ms0 & ms1 & ms2 & -> & Hno & H1 & H2); [|done..].
  assert (Href := λ j b, held_referenced s' j b (proj1 Hg)).
  assert (Htail : ∀ m, m ∈ (finished_tails s).*2 → tail_ok s m).
  { intros m ([id m'] & -> & Hm)%list_elem_of_fmap. by eapply Ht. }
  assert (E := saved_tails NULL_BLOCK_ID c Hw s s' _ _ Htail H2).
  destruct E as [-> Hself]. exists ms1. split_and!; [done| |].
  - intros m' Hm' Hc. apply list_elem_of_lookup in Hm' as [i Hi].
    destruct (Forall2_lookup_r _ _ _ _ _ H1 Hi) as (m & Hm & Hc' & Hs). rewrite Hc in Hc'.
    destruct (Hs (eq_sym Hc')) as (j & Hj & _ & Hb & _). exists j. split; [done|].
    rewrite Forall_lookup in Hno. destruct (Hb (Hno _ _ Hm)) as [-> Hh]. eauto.
  - intros m Hm. destruct (Htail _ Hm) as (Hc & j & Hj & Hlt & Hb). exists j. split; [done|].
    rewrite Forall_forall in Hself. destruct (Hself _ Hm) as [_ Hs].
    destruct (Hs Hc) as (j' & Hj' & _ & _ & Hs'). destruct (Hs' ltac:(eauto)) as [_ [[ids n] Hp']].
    assert (j' = j) as -> by congruence. intros b Hbb.
    assert (Hh : held_by s' j b).
    { exists ids, n. split; [done|]. apply (Hb ids n); [|done]. by rewrite <- (proj2 (proj2 Hg)). }
    eauto.
Qed.

Lemma saves_pinned_witness :
  length (finished_tails (ex_state 4)) = 1%nat ∧
  ∀ m, m ∈ (finished_tails (ex_state 4)).*2 → ∃ j, store_job_id m = Some j ∧
    ∀ b, b ∈ offload_blocks m → 0 < net b (log (ex_state 5)).
Proof.
  split; [by vm_compute|].
  destruct (build_connector_meta 0 ex_config ex_request ex_next (ex_state 4)) as [[ms s']|] eqn:E;
    [|by vm_compute in E].
  destruct (saves_pinned 0 ex_config ex_request ex_next (ex_state 4) ms s' eq_refl (ex_reachable 4) E)
    as (ms1 & _ & _ & H).
  assert (ex_state 5 = s') as -> by (vm_compute in E |- *; congruence).
  intros m (j & Hj & Hb)%H. exists j. split; [done|]. intros b ?%Hb. naive_solver.
Defined.

(** Once every job's missing reports have arrived, in any
    order and split into any positive counts, the completion succeeds, no
    job is pending and no block is referenced any more. *)
Theorem pins_released `{CD : !CeilDiv} (NULL_BLOCK_ID : Z) (c : config) (s : sched)
    (completed : list (Z * Z)) :
  0 < num_workers c → sched_runs NULL_BLOCK_ID c s → pool_bound s = true →
  Forall (λ e : Z * Z, 0 < e.2) completed → all_reported completed s →
  ∃ s', update_connector_output completed s = Ok s' ∧ has_pending_push_work s' = false ∧
    ∀ b, net b (log s') = 0.
Proof.
  intros Hw [Hp _]%refs_reachable Hb Hc Hall; [|done].
  destruct (complete_list completed s (λ _, 0) Hp Hc) as (s' & Hs & Hp' & _ & Hn); [done| |].
  { intros j ids n Hj. rewrite (Hall _ _ _ Hj). lia. }
  assert (E : pinned s' = []).
  { destruct (pinned s') as [|[j [ids n]] d] eqn:Ed; [done|].
    assert (Hin : (j, (ids, n)) ∈ pinned s') by (rewrite Ed; set_solver).
    destruct (po_jobs _ Hp' _ _ _ Hin) as [_ Hpos].
    enough (n = 0) by lia. apply (Hn j ids), elem_of_dget; [|set_solver].
    rewrite <- Ed. apply (po_dict _ Hp'). }
  exists s'. unfold update_connector_output, has_pending_push_work. rewrite Hb, E. split_and!; [done|done|].
  intros b. by rewrite (po_net _ Hp'), (eq_refl : holders b s' = cnt (holds_block b) (pinned s')), E.
Qed.

Lemma pins_released_witness :
  has_pending_push_work (ex_state 5) = true ∧
  ∃ s', update_connector_output [(1, 1); (0, 2); (1, 1)] (ex_state 5) = Ok s' ∧
    has_pending_push_work s' = false ∧ ∀ b, net b (log s') = 0.
Proof.
  split; [by vm_compute|]. apply (pins_released 0 ex_config (ex_state 5));
    [done|apply ex_reachable|by vm_compute|by repeat constructor|].
  assert (E : pinned (ex_state 5) = [(0, ([7; 5; 6], 2)); (1, ([7], 2))]) by by vm_compute.
  intros j ids n Hj%dget_elem_of. rewrite E in Hj.
  apply elem_of_cons in Hj as [[= -> _ ->]|[[= -> _ ->]|[]%elem_of_nil]%elem_of_cons]; done.
Defined.
