(* ===== verification/StoreRank.v ===== *)
(** * The Mooncake store: a worker and its threads

    [mooncake/store/worker.py], class [MooncakeStoreWorker]: what the engine
    calls on a rank. [start_load_kv] and [wait_for_save] hand the metadata of a
    step to the threads; [get_finished], [get_block_ids_with_load_errors],
    [build_connector_worker_meta] and [get_kv_events] collect what they did. *)

From S2P Require Import Prelude PyData StoreData StoreCoord StoreWorker StoreLoad.

(** [can_put], [_capacity_only] and [load_async] of the constructor. *)
Record role_flags := mkFlags {
  can_put : bool;
  rk_capacity_only : bool;
  rk_load_async : bool
}.

(** [flag(k, default)] is the truth of [extra_config.get(k, default)]. *)
Definition flags_of (kv_role : string) (flag : string → bool → bool) : role_flags :=
  let put := String.eqb kv_role "kv_producer" || String.eqb kv_role "kv_both" ||
             flag "save_decode_cache" false in
  mkFlags put (String.eqb kv_role "kv_consumer" && negb (flag "enable_lookup" true) && negb put)
    (flag "load_async" true).

Record worker := mkWorker {
  kv_send_thread : option sender;
  recv_threads : loaders;
  finished_store_req : gset string
}.

(** After [register_kv_caches]: the sending thread is there if the rank puts. *)
Definition init_worker (f : role_flags) (num_recv_threads : Z) : worker :=
  mkWorker (if can_put f then Some init_sender else None) (init_loaders num_recv_threads) ∅.

Definition set_sender (s : sender) (w : worker) : worker :=
  mkWorker (Some s) (recv_threads w) (finished_store_req w).

Definition set_recv (l : loaders) (w : worker) : worker :=
  mkWorker (kv_send_thread w) l (finished_store_req w).

Section worker.
Context `{CD : !CeilDiv} `{M : !Managers}.
Context (maybe_convert_block_hash : block_hash → Z) (NULL_BLOCK_ID : Z).

Record worker_config := mkWorkerConfig {
  flags : role_flags;
  sends : sender_config;
  loads_with : load_config
}.

Context (c : worker_config).

(** ** Handing a step's metadata to the threads *)

(** [load_spec.token_len = load_spec.kvpool_cached_tokens] *)
Definition with_token_len (m : ReqMeta) (l : LoadSpec) : ReqMeta :=
  mkReqMeta (rm_req_id m) (token_len_chunk m) (rm_block_ids m) (rm_block_hashes m) (can_save m)
    (Some (mkLoadSpec (vllm_cached_tokens l) (kvpool_cached_tokens l) (can_load l)
             (kvpool_cached_tokens l) (ls_boundaries l)))
    (rm_token_ids m) (token_ids_start m) (num_prompt_tokens m) (store_job_id m)
    (boundary_state_offloads m).

Definition to_load (m : ReqMeta) : option ReqMeta :=
  match rm_load_spec m with
  | Some l => if can_load l then Some (with_token_len m l) else None
  | None => None
  end.

(** The requests are queued before the assertion fails. *)
Definition start_load_kv (requests : list ReqMeta) (w : worker) : worker * result unit :=
  if rk_capacity_only (flags c) then (w, Ok ())
  else
    let q := recv_threads w in
    (set_recv (mkLoaders (recv_request_queue q ++ omap to_load requests) (kv_recv_threads q)) w,
     assert_ (rk_load_async (flags c))).

Definition queue_save (w : worker) (m : ReqMeta) : result worker :=
  let? s := of_option AssertionError (kv_send_thread w) in
  let? s := add_request m s in Ok (set_sender s w).

Definition wait_for_save (requests : list ReqMeta) (w : worker) : result worker :=
  if rk_capacity_only (flags c) || negb (can_put (flags c)) then Ok w
  else rfold queue_save w (filter (λ m, Is_true (can_save m)) requests).

(** ** Collecting *)

(** Retire the ledger entry of a request, or remember it while jobs of it are
    queued. *)
Definition close_ended (id : string) (w : worker) (s : sender) : worker :=
  if bool_decide (jobs_of s id = ∅)
  then mkWorker (Some (delete_finished_stored_request id s)) (recv_threads w) (finished_store_req w ∖ {[id]})
  else mkWorker (Some s) (recv_threads w) (finished_store_req w ∪ {[id]}).

Definition close_request (w : worker) (id : string) : worker :=
  match kv_send_thread w with Some s => close_ended id w s | None => w end.

Definition close_ended_store_requests (finished : gset string) (preempted : list string) (w : worker) :
    result worker :=
  let? s := of_option AssertionError (kv_send_thread w) in
  let w := set_sender (foldl (λ s id, delete_finished_stored_request id s) s preempted) w in
  Ok (foldl close_request w (elements (finished ∪ finished_store_req w))).

(** All threads' finished requests. *)
Definition drain_finished (q : loaders) : gset string * loaders :=
  (⋃ (finished_requests <$> kv_recv_threads q),
   mkLoaders (recv_request_queue q) ((λ l, (get_and_clear_finished_requests l).2) <$> kv_recv_threads q)).

Definition drain_errors (q : loaders) : gset Z * loaders :=
  (⋃ (invalid_block_ids <$> kv_recv_threads q),
   mkLoaders (recv_request_queue q) ((λ l, (get_and_clear_load_errors l).2) <$> kv_recv_threads q)).

(** The loaded requests; no request is ever reported as sent. *)
Definition get_finished (finished : gset string) (preempted : list string) (w : worker) :
    result (gset string * worker) :=
  if rk_capacity_only (flags c) then Ok (∅, w)
  else
    let? w := if can_put (flags c) then close_ended_store_requests finished preempted w else Ok w in
    if rk_load_async (flags c)
    then let (done, q) := drain_finished (recv_threads w) in Ok (done, set_recv q w)
    else Ok (∅, w).

Definition get_block_ids_with_load_errors (w : worker) : gset Z * worker :=
  let (ids, q) := drain_errors (recv_threads w) in (ids, set_recv q w).

(** [None] when there is nothing to report. *)
Definition build_connector_worker_meta (w : worker) : option (list (Z * Z)) * worker :=
  match kv_send_thread w with
  | None => (None, w)
  | Some s =>
      let (saves, s) := take_completed_saves s in
      (match saves with [] => None | _ => Some saves end, set_sender s w)
  end.

Definition worker_kv_events (w : worker) : list BlockStored * worker :=
  match kv_send_thread w with
  | Some s => if enable_kv_event (sends c) then let (l, s) := get_kv_events s in (l, set_sender s w)
              else ([], w)
  | None => ([], w)
  end.

(** ** Executions

    A call of the engine or a step of one of the threads. *)
Inductive worker_event :=
  | WLoad (requests : list ReqMeta)
  | WSave (requests : list ReqMeta)
  | WFinished (finished : gset string) (preempted : list string)
  | WErrors
  | WMeta
  | WEvents
  | WSend (r : reply)
  | WRecv (i : nat) (r : option (option (list Z))).

Definition worker_run (e : worker_event) (w : worker) : option worker :=
  match e with
  | WLoad l => Some (start_load_kv l w).1
  | WSave l => match wait_for_save l w with Ok w => Some w | Err _ => None end
  | WFinished f p => match get_finished f p w with Ok r => Some r.2 | Err _ => None end
  | WErrors => Some (get_block_ids_with_load_errors w).2
  | WMeta => Some (build_connector_worker_meta w).2
  | WEvents => Some (worker_kv_events w).2
  | WSend r =>
      s ← kv_send_thread w;
      s ← thread_step maybe_convert_block_hash NULL_BLOCK_ID (sends c) r s;
      Some (set_sender s w)
  | WRecv i r => q ← load_run (loads_with c) (LStep i r) (recv_threads w); Some (set_recv q w)
  end.

End worker.
