(* ===== verification/StoreSystem.v ===== *)
(** * The Mooncake store: scheduler and workers together

    What vLLM does between the parts: the metadata of a step
    ([MooncakeStoreConnector.build_connector_meta], [store/connector.py]) goes
    to every rank, the ranks' [build_connector_worker_meta] come back, may be
    aggregated, and reach the scheduler's [update_connector_output]. The
    metadata of a step and the reports wait in queues, so a rank may be any
    number of steps behind. *)

From S2P Require Import Prelude PyData StoreData StoreCoord StoreWorker StoreLoad StoreRank StoreSched.

(** A rank with the metadata it has not seen yet. *)
Record link := mkLink { inbox : list (list ReqMeta); rk_worker : worker }.

(** [tail_jobs] are the jobs that [register_finished_partial_tail] made; no
    code reads it. *)
Record system := mkSystem {
  sy_sched : sched;
  ranks : list link;
  pending : list (list (Z * Z));
  tail_jobs : gset Z
}.

Definition set_sy_sched (s : sched) (y : system) : system :=
  mkSystem s (ranks y) (pending y) (tail_jobs y).
Definition set_ranks (l : list link) (y : system) : system :=
  mkSystem (sy_sched y) l (pending y) (tail_jobs y).
Definition set_pending (l : list (list (Z * Z))) (y : system) : system :=
  mkSystem (sy_sched y) (ranks y) l (tail_jobs y).
Definition set_tail_jobs (l : gset Z) (y : system) : system :=
  mkSystem (sy_sched y) (ranks y) (pending y) l.

Section system.
Context `{CD : !CeilDiv} `{M : !Managers}.
Context (maybe_convert_block_hash : block_hash → Z) (NULL_BLOCK_ID : Z).

(** The scheduler's configuration, and one per rank. *)
Context (c : config) (cs : list worker_config) (num_recv_threads : Z).

Definition init_system : system :=
  mkSystem init_sched ((λ k, mkLink [] (init_worker (flags k) num_recv_threads)) <$> cs) [] ∅.

Abbreviation worker_run := (worker_run maybe_convert_block_hash NULL_BLOCK_ID).

(** ** The scheduler's side *)

(** The calls that neither send metadata nor take reports. *)
Definition is_local (o : sched_op) : bool :=
  match o with OBind | OMatch _ _ _ _ | OAlloc _ _ _ => true | _ => false end.

Definition sched_call (requests : string → Request) (o : sched_op) (y : system) : option system :=
  if is_local o
  then match run_op NULL_BLOCK_ID c requests o (sy_sched y) with
       | Ok s => Some (set_sy_sched s y)
       | Err _ => None
       end
  else None.

Definition broadcast (ms : list ReqMeta) (l : list link) : list link :=
  (λ r, mkLink (inbox r ++ [ms]) (rk_worker r)) <$> l.

Definition build_step (requests : string → Request) (out : SchedulerOutput) (y : system) : option system :=
  match build_connector_meta NULL_BLOCK_ID c requests out (sy_sched y) with
  | Ok (ms, s) => Some (set_ranks (broadcast ms (ranks y)) (set_sy_sched s y))
  | Err _ => None
  end.

Definition tail_step (requests : string → Request) (req_id : string) (block_ids : list (list Z))
    (offloads : list offload) (y : system) : option system :=
  match register_finished_partial_tail NULL_BLOCK_ID c requests req_id block_ids offloads (sy_sched y) with
  | Ok s => Some (set_tail_jobs (tail_jobs y ∪ list_to_set (omap store_job_id (finished_tails s).*2))
                    (set_sy_sched s y))
  | Err _ => None
  end.

(** The engine hands report [i] to the scheduler. *)
Definition complete_step (i : nat) (y : system) : option system :=
  completed ← pending y !! i;
  match update_connector_output completed (sy_sched y) with
  | Ok s => Some (set_pending (delete i (pending y)) (set_sy_sched s y))
  | Err _ => None
  end.

(** ** The ranks' side *)

Definition set_worker (k : nat) (r : link) (w : worker) (y : system) : system :=
  set_ranks (<[k := mkLink (inbox r) w]> (ranks y)) y.

(** Rank [k] comes to the next metadata. *)
Definition save_step (k : nat) (y : system) : option system :=
  r ← ranks y !! k;
  wc ← cs !! k;
  match inbox r with
  | [] => None
  | ms :: rest =>
      w ← worker_run wc (WSave ms) (rk_worker r);
      Some (set_ranks (<[k := mkLink rest w]> (ranks y)) y)
  end.

(** The other events of a rank but the reports. *)
Definition is_private (e : worker_event) : bool := match e with WSave _ | WMeta => false | _ => true end.

Definition rank_step (k : nat) (e : worker_event) (y : system) : option system :=
  r ← ranks y !! k;
  wc ← cs !! k;
  if is_private e then w ← worker_run wc e (rk_worker r); Some (set_worker k r w y) else None.

Definition collect_step (k : nat) (y : system) : option system :=
  r ← ranks y !! k;
  let (report, w) := build_connector_worker_meta (rk_worker r) in
  let y := set_worker k r w y in
  Some match report with Some l => set_pending (pending y ++ [l]) y | None => y end.

(** vLLM aggregates report [j] into report [i]. *)
Definition merge_step (i j : nat) (y : system) : option system :=
  if bool_decide (i = j) then None
  else
    a ← pending y !! i;
    b ← pending y !! j;
    Some (set_pending (delete j (<[i := aggregate a b]> (pending y))) y).

(** ** Executions *)

Inductive system_event :=
  | SCall (requests : string → Request) (o : sched_op)
  | SBuild (requests : string → Request) (out : SchedulerOutput)
  | STail (requests : string → Request) (req_id : string) (block_ids : list (list Z)) (offloads : list offload)
  | SComplete (i : nat)
  | SSave (k : nat)
  | SRank (k : nat) (e : worker_event)
  | SCollect (k : nat)
  | SMerge (i j : nat).

Definition system_run (e : system_event) (y : system) : option system :=
  match e with
  | SCall requests o => sched_call requests o y
  | SBuild requests out => build_step requests out y
  | STail requests id blocks offloads => tail_step requests id blocks offloads y
  | SComplete i => complete_step i y
  | SSave k => save_step k y
  | SRank k e => rank_step k e y
  | SCollect k => collect_step k y
  | SMerge i j => merge_step i j y
  end.

Definition run_all (es : list system_event) (y : system) : option system :=
  foldl (λ y e, y ≫= system_run e) (Some y) es.

Inductive system_reach : system → Prop :=
  | reach_init : system_reach init_system
  | reach_step e y y' : system_reach y → system_run e y = Some y' → system_reach y'.

End system.
