(* ===== verification/StoreSystemThms.v ===== *)
(** * Properties of the store's scheduler and workers together

    The counts the scheduler keeps for a job are exactly the reports still on
    their way, so no report is refused, no block is released under a job, and
    when everything has been reported nothing stays referenced. *)

From S2P Require Import Prelude PyData StoreData StoreThms StoreCoord StoreCoordThms StoreWorker StoreWorkerThms StoreLoad StoreRank StoreSched StoreSchedThms StoreSystem.

#[local] Arguments cnt : simpl never.
#[local] Arguments reports : simpl never.
#[local] Arguments has_job : simpl never.
#[local] Arguments outstanding : simpl never.

(** ** The jobs a step makes *)

Definition saves (j : Z) (m : ReqMeta) : bool := can_save m && has_job j m.

Lemma has_job_iff j m : has_job j m = true ↔ store_job_id m = Some j.
Proof. apply bool_decide_eq_true. Qed.

Lemma saves_with_job j k m : can_save m = true → saves j (with_job k m) = (k =? j).
Proof.
  intros Hc. unfold saves, has_job. cbn [can_save with_job store_job_id]. rewrite Hc. cbn [andb].
  destruct (Z.eqb_spec k j); [by apply bool_decide_true; f_equal|apply bool_decide_false; congruence].
Qed.

Section sched.
Context `{CD : !CeilDiv}.
Context (NULL_BLOCK_ID : Z) (c : config).

(** One new job per metadata that saves and has none; its references wait for
    every worker. *)
Record referenced (s s' : sched) (ms ms' : list ReqMeta) : Prop := {
  rf_next : next_store_job_id s ≤ next_store_job_id s';
  rf_cnt j : cnt (saves j) ms' = cnt (saves j) ms +
               Z.b2z ((next_store_job_id s <=? j) && (j <? next_store_job_id s'));
  rf_pinned j ids n : dget (pinned s') j = Some (ids, n) →
    dget (pinned s) j = Some (ids, n) ∨ next_store_job_id s ≤ j < next_store_job_id s' ∧ n = num_workers c;
  rf_bound : next_store_job_id s < next_store_job_id s' → pool_bound s' = true
}.

Lemma reference_block_counts ms s m ms' s' :
  reference_block NULL_BLOCK_ID c (ms, s) m = Ok (ms', s') → referenced s s' (ms ++ [m]) ms'.
Proof.
  intros H. assert (Hsame : referenced s s (ms ++ [m]) (ms ++ [m])).
  { split; [lia| |by left|lia]. intros j.
    destruct (Z.leb_spec (next_store_job_id s) j), (Z.ltb_spec j (next_store_job_id s)); cbn; lia. }
  cbn in H. destruct (can_save m) eqn:Hc; cbn in H; [|by apply Ok_inj in H; injection H as <- <-].
  apply rbind_Ok in H as (u & Hu%assert_Ok & H). destruct (store_job_id m) as [k|] eqn:Hk.
  - apply rbind_Ok in H as (u' & _ & H). by apply Ok_inj in H; injection H as <- <-.
  - apply rbind_Ok in H as (u' & _ & H). apply Ok_inj in H. injection H as <- <-.
    set (ids := fromkeys _). clearbody ids. split; try (destruct ids; cbn; lia).
    + intros j. rewrite !cnt_app, !cnt_cons, !saves_with_job by done.
      assert (saves j m = false) as -> by (unfold saves, has_job; rewrite Hk; by rewrite andb_false_r).
      destruct ids; cbn; destruct (Z.eqb_spec (next_store_job_id s) j);
        destruct (Z.leb_spec (next_store_job_id s) j), (Z.ltb_spec j (next_store_job_id s + 1)); cbn; lia.
    + destruct ids as [|x ids]; cbn; [by left|]. intros j ids' n Hp.
      destruct (decide (j = next_store_job_id s)) as [->|Hne].
      * rewrite dget_dset_eq in Hp. injection Hp as <- <-. right. split; [lia|done].
      * rewrite dget_dset_ne in Hp by done. by left.
    + intros _. by destruct ids.
Qed.

Lemma referenced_trans s1 s2 s3 l1 l2 ms1 ms2 :
  referenced s1 s2 l1 ms1 → referenced s2 s3 (ms1 ++ l2) ms2 → (pool_bound s2 = pool_bound s3) →
  referenced s1 s3 (l1 ++ l2) ms2.
Proof.
  intros [N1 C1 P1 B1] [N2 C2 P2 B2] Hb. split; [lia| | |].
  - intros j. rewrite C2, !cnt_app, C1. enough (Z.b2z ((next_store_job_id s1 <=? j) && (j <? next_store_job_id s3)) =
      Z.b2z ((next_store_job_id s1 <=? j) && (j <? next_store_job_id s2)) +
      Z.b2z ((next_store_job_id s2 <=? j) && (j <? next_store_job_id s3))) by lia.
    destruct (Z.leb_spec (next_store_job_id s1) j), (Z.ltb_spec j (next_store_job_id s2)),
      (Z.leb_spec (next_store_job_id s2) j), (Z.ltb_spec j (next_store_job_id s3)); cbn; lia.
  - intros j ids n [[|[? ->]]%P1|[? ->]]%P2; [by left|right; split; [lia|done]..].
  - intros Hlt. destruct (decide (next_store_job_id s2 < next_store_job_id s3)); [auto|].
    rewrite <- Hb. apply B1. lia.
Qed.

Lemma reference_block_bound ms s m ms' s' :
  reference_block NULL_BLOCK_ID c (ms, s) m = Ok (ms', s') → pool_bound s' = pool_bound s.
Proof.
  cbn. destruct (can_save m); cbn; [|by intros [= <- <-]]. intros (u & _ & H)%rbind_Ok.
  destruct (store_job_id m); apply rbind_Ok in H as (u' & _ & H); apply Ok_inj in H; injection H as <- <-; [done|].
  by destruct (fromkeys _).
Qed.

Lemma reference_save_counts ms s ms' s' :
  reference_save_blocks NULL_BLOCK_ID c ms s = Ok (ms', s') → referenced s s' ms ms'.
Proof.
  unfold reference_save_blocks. intros H.
  cut (∀ s0 pre done, referenced s0 s done pre → rfold (reference_block NULL_BLOCK_ID c) (pre, s) ms = Ok (ms', s') →
    referenced s0 s' (done ++ ms) ms').
  { intros Hc. apply (Hc s [] []); [|done]. split; [lia| |by left|lia].
    intros j. destruct (Z.leb_spec (next_store_job_id s) j), (Z.ltb_spec j (next_store_job_id s)); cbn; lia. }
  clear H. revert s. induction ms as [|m ms IH]; intros s s0 pre done Hd H.
  - cbn in H. apply Ok_inj in H. injection H as <- <-. by rewrite app_nil_r.
  - cbn [rfold] in H. apply rbind_Ok in H as ([ms1 s1] & H1 & H).
    change (done ++ m :: ms) with (done ++ [m] ++ ms). rewrite app_assoc. eapply IH; [|exact H].
    eapply referenced_trans; [exact Hd|by apply reference_block_counts|].
    symmetry. by eapply reference_block_bound.
Qed.

End sched.

(** ** What a worker's event does to its sending thread *)

Definition holds_job (m : ReqMeta) (s : sender) : Prop :=
  m ∈ request_queue s ∨ ∃ t, running s = Some t ∧ t_job t = m.

Definition sender_ok (s : sender) : Prop :=
  jobs_ok s ∧ Forall (λ e : Z * Z, 0 < e.2) (completed_saves s).

Record thread_effect (s s' : sender) (added : list ReqMeta) (taken : list (Z * Z)) : Prop := {
  te_ok : sender_ok s → sender_ok s';
  te_out j : outstanding j s' = outstanding j s + cnt (has_job j) added - reports j taken;
  te_jobs m : holds_job m s' → holds_job m s ∨ m ∈ added
}.

Lemma effect_refl s : thread_effect s s [] [].
Proof. split; [done| |by left]. intros j. change (reports j []) with 0. rewrite cnt_nil. lia. Qed.

Lemma effect_trans s1 s2 s3 a1 a2 t1 t2 :
  thread_effect s1 s2 a1 t1 → thread_effect s2 s3 a2 t2 → thread_effect s1 s3 (a1 ++ a2) (t1 ++ t2).
Proof.
  intros [O1 C1 J1] [O2 C2 J2]. split; [auto| |].
  - intros j. rewrite C2, C1, cnt_app, reports_app. lia.
  - intros m [[H|H]%J1|H]%J2; rewrite elem_of_app; auto.
Qed.

Section rank.
Context `{CD : !CeilDiv} `{M : !Managers}.
Context (conv : block_hash → Z) (NULL_BLOCK_ID : Z) (wc : worker_config).

Lemma positive_run e s s' :
  Forall (λ e : Z * Z, 0 < e.2) (completed_saves s) → sender_run conv NULL_BLOCK_ID (sends wc) e s = Some s' →
  Forall (λ e : Z * Z, 0 < e.2) (completed_saves s').
Proof.
  intros Hs H. destruct e as [r|m|id| |]; cbn in H.
  - apply thread_stepped in H as [m q Hr Hq ->|t t' s1 Hr Ht ->|t s1 Hr _ Hf ->]; [done| |].
    + apply task_step_advances in Ht as ([_ _ _ H4] & _ & _). cbn in H4 |- *. by rewrite H4.
    + apply finish_ok in Hf as (j & _ & _ & _ & H3). cbn. rewrite H3. apply Forall_forall.
      intros e [->|[He _]]%elem_of_dset.
      * cbn. destruct (dget (completed_saves s) j) as [n|] eqn:Hn; cbn; [|lia]. apply dget_elem_of in Hn.
        rewrite Forall_forall in Hs. apply Hs in Hn. cbn in Hn. lia.
      * rewrite Forall_forall in Hs. by apply Hs.
  - destruct (add_request m s) as [x|] eqn:E; [|done]. injection H as <-. unfold add_request in E.
    apply rbind_Ok in E as (j & _ & <-%Ok_inj). done.
  - by injection H as <-.
  - injection H as <-. constructor.
  - by injection H as <-.
Qed.

Lemma holds_run e s s' m :
  sender_run conv NULL_BLOCK_ID (sends wc) e s = Some s' → holds_job m s' → holds_job m s ∨ m ∈ adds e.
Proof.
  intros H. unfold holds_job. destruct e as [r|m'|id| |]; cbn in H.
  - apply thread_stepped in H as [m' q Hr Hq ->|t t' s1 Hr Ht ->|t s1 Hr _ Hf ->].
    + cbn. rewrite Hr, Hq. intros [Hm|(t & [= <-] & <-)]; left; left; cbn; set_solver.
    + apply task_step_advances in Ht as ([H1 _ _ _] & Hj & _). cbn in H1, Hj |- *. rewrite H1, Hr.
      intros [Hm|(t1 & [= <-] & <-)]; left; [by left|right]. exists t. by rewrite Hj.
    + apply finish_ok in Hf as (j & _ & H1 & _ & _). cbn. rewrite H1. intros [Hm|(t1 & [=] & _)]. by left; left.
  - destruct (add_request m' s) as [x|] eqn:E; [|done]. injection H as <-. unfold add_request in E.
    apply rbind_Ok in E as (j & _ & <-%Ok_inj). cbn. set_solver.
  - injection H as <-. by left.
  - injection H as <-. by left.
  - injection H as <-. by left.
Qed.

Lemma effect_run e s s' :
  sender_run conv NULL_BLOCK_ID (sends wc) e s = Some s' → thread_effect s s' (adds e) (takes e s).
Proof.
  intros H. split.
  - intros [H1 H2]. split; [by eapply jobs_ok_run|by eapply positive_run].
  - intros j. rewrite (outstanding_run _ _ _ j e s s' H).
    destruct e; cbn [adds takes]; rewrite ?cnt_cons, ?cnt_nil; change (reports j []) with 0; lia.
  - intros m. by apply holds_run.
Qed.

(** What the engine sees of an event: the jobs added and the reports taken. *)
Definition event_adds (e : worker_event) : list ReqMeta :=
  match e with WSave l => filter (λ m, Is_true (can_save m)) l | _ => [] end.

Definition event_takes (e : worker_event) (s : sender) : list (Z * Z) :=
  match e with WMeta => completed_saves s | _ => [] end.

Lemma queue_effect l w w' s :
  rfold queue_save w l = Ok w' → kv_send_thread w = Some s →
  ∃ s', kv_send_thread w' = Some s' ∧ thread_effect s s' l [].
Proof.
  revert w s. induction l as [|m l IH]; intros w s H Hs.
  - apply Ok_inj in H as <-. exists s. split; [done|apply effect_refl].
  - cbn [rfold] in H. apply rbind_Ok in H as (w1 & Hq & H). unfold queue_save in Hq. rewrite Hs in Hq. cbn in Hq.
    apply rbind_Ok in Hq as (s1 & Ha & <-%Ok_inj).
    destruct (IH _ s1 H eq_refl) as (s' & Hs' & He). exists s'. split; [done|].
    apply (effect_trans _ s1 _ [m] l [] []); [|done].
    apply (effect_run (EAdd m)). cbn. by rewrite Ha.
Qed.

Lemma retire_effect ids s : thread_effect s (foldl (λ s id, delete_finished_stored_request id s) s ids) [] [].
Proof.
  revert s. induction ids as [|id ids IH]; intros s; [apply effect_refl|]. cbn [foldl].
  apply (effect_trans _ (delete_finished_stored_request id s) _ [] [] [] []); [|apply IH].
  by apply (effect_run (ERetire id)).
Qed.

Lemma close_effect ids w s :
  kv_send_thread w = Some s →
  ∃ s', kv_send_thread (foldl close_request w ids) = Some s' ∧ thread_effect s s' [] [].
Proof.
  revert w s. induction ids as [|id ids IH]; intros w s Hs; cbn [foldl].
  - exists s. split; [done|apply effect_refl].
  - assert (∃ s1, kv_send_thread (close_request w id) = Some s1 ∧ thread_effect s s1 [] []) as (s1 & H1 & E1).
    { unfold close_request, close_ended. rewrite Hs. case_bool_decide; cbn; eexists; split; try done.
      - by apply (effect_run (ERetire id)).
      - apply effect_refl. }
    destruct (IH _ _ H1) as (s' & Hs' & E'). exists s'. split; [done|].
    by apply (effect_trans _ s1 _ [] [] [] []).
Qed.

Lemma finished_effect f p w s w' :
  get_finished wc f p w = Ok w' → kv_send_thread w = Some s →
  ∃ s', kv_send_thread w'.2 = Some s' ∧ thread_effect s s' [] [].
Proof.
  intros H Hs. unfold get_finished in H.
  destruct (rk_capacity_only _); [apply Ok_inj in H as <-; exists s; split; [done|apply effect_refl]|].
  apply rbind_Ok in H as (w1 & Hw & H).
  assert (∃ s', kv_send_thread w1 = Some s' ∧ thread_effect s s' [] []) as (s' & H1 & E1).
  { destruct (can_put _); [|apply Ok_inj in Hw as <-; exists s; split; [done|apply effect_refl]].
    unfold close_ended_store_requests in Hw. rewrite Hs in Hw. cbn in Hw. apply Ok_inj in Hw as <-.
    edestruct (close_effect (elements (f ∪ finished_store_req w))) as (s' & Hs' & E').
    2:{ exists s'. split; [exact Hs'|]. eapply (effect_trans _ _ _ [] [] [] []); [|exact E']. apply retire_effect. }
    done. }
  exists s'. destruct (rk_load_async _); cbn in H; apply Ok_inj in H as <-; done.
Qed.

Lemma worker_effect e w w' s :
  can_put (flags wc) = true → rk_capacity_only (flags wc) = false →
  worker_run conv NULL_BLOCK_ID wc e w = Some w' → kv_send_thread w = Some s →
  ∃ s', kv_send_thread w' = Some s' ∧ thread_effect s s' (event_adds e) (event_takes e s).
Proof.
  intros Hput Hcap H Hs. assert (Hsame : w' = w → ∃ s', kv_send_thread w' = Some s' ∧ thread_effect s s' [] [])
    by (intros ->; exists s; split; [done|apply effect_refl]).
  assert (Hrecv : ∀ q, w' = set_recv q w → ∃ s', kv_send_thread w' = Some s' ∧ thread_effect s s' [] [])
    by (intros q ->; exists s; split; [done|apply effect_refl]).
  destruct e as [l|l|f p| | | |r|i r]; cbn in H; cbn [event_adds event_takes].
  - injection H as <-. unfold start_load_kv in *. destruct (rk_capacity_only _); [by apply Hsame|by eapply Hrecv].
  - destruct (wait_for_save wc l w) as [w1|] eqn:E; [|done]. injection H as <-. unfold wait_for_save in E.
    rewrite Hcap, Hput in E. cbn in E. by eapply queue_effect.
  - destruct (get_finished wc f p w) as [r|] eqn:E; [|done]. injection H as <-. by eapply finished_effect.
  - injection H as <-. by eapply Hrecv.
  - injection H as <-. unfold build_connector_worker_meta. rewrite Hs. cbn. eexists. split; [done|].
    by apply (effect_run ETake).
  - injection H as <-. unfold worker_kv_events. rewrite Hs. destruct (enable_kv_event _); cbn; eexists; (split; [done|]).
    + by apply (effect_run EEvents).
    + apply effect_refl.
  - rewrite Hs in H. cbn in H. apply bind_Some in H as (s1 & H1 & [= <-]). exists s1. split; [done|].
    by apply (effect_run (EStep r)).
  - apply bind_Some in H as (q & _ & [= <-]). by eapply Hrecv.
Qed.

End rank.

(** ** Jobs on their way *)

(** How often job [j] is at a rank: in the metadata it has not seen, queued,
    running, or done and not collected. *)
Definition at_rank (j : Z) (r : link) : Z :=
  sumZ ((λ ms, cnt (saves j) ms) <$> inbox r) +
  match kv_send_thread (rk_worker r) with Some s => outstanding j s | None => 0 end.

(** The reports of job [j] that the scheduler will still get. *)
Definition in_flight (n : Z) (j : Z) (y : system) : Z :=
  sumZ (at_rank j <$> ranks y) + sumZ (reports j <$> pending y) +
  n * cnt (has_job j) (finished_tails (sy_sched y)).*2.

(** A metadata whose blocks rank [r] may still read. *)
Definition in_hand (m : ReqMeta) (r : link) : Prop :=
  (∃ ms, ms ∈ inbox r ∧ m ∈ ms ∧ can_save m = true) ∨
  (∃ s, kv_send_thread (rk_worker r) = Some s ∧ holds_job m s).

Lemma outstanding_nonneg j s : sender_ok s → 0 ≤ outstanding j s.
Proof.
  intros [_ H]. unfold outstanding. pose proof (cnt_nonneg (has_job j) (request_queue s)).
  pose proof (reports_nonneg j _ H). destruct (running s) as [t|]; [destruct (has_job j (t_job t))|]; cbn [Z.b2z]; lia.
Qed.

Lemma outstanding_holds j m s : sender_ok s → holds_job m s → store_job_id m = Some j → 1 ≤ outstanding j s.
Proof.
  intros [_ H] Hm Hj%has_job_iff. unfold outstanding. pose proof (cnt_nonneg (has_job j) (request_queue s)).
  pose proof (reports_nonneg j _ H). destruct Hm as [Hm|(t & -> & ->)].
  - pose proof (cnt_pos (has_job j) _ _ Hm Hj). destruct (running s) as [t|]; [destruct (has_job j (t_job t))|]; cbn [Z.b2z]; lia.
  - rewrite Hj. cbn. lia.
Qed.

Definition link_ok (r : link) : Prop :=
  ∃ s, kv_send_thread (rk_worker r) = Some s ∧ sender_ok s.

Lemma at_rank_nonneg j r : link_ok r → 0 ≤ at_rank j r.
Proof.
  intros (s & Hs & Ho). unfold at_rank. rewrite Hs. pose proof (outstanding_nonneg j s Ho).
  assert (0 ≤ sumZ ((λ ms, cnt (saves j) ms) <$> inbox r)); [|lia].
  apply sumZ_fmap_nonneg. intros. apply cnt_nonneg.
Qed.

Lemma at_rank_holds j m r : link_ok r → in_hand m r → store_job_id m = Some j → 1 ≤ at_rank j r.
Proof.
  intros (s & Hs & Ho) Hm Hj. unfold at_rank. rewrite Hs. pose proof (outstanding_nonneg j s Ho).
  assert (Hc : ∀ ms : list ReqMeta, ms ∈ inbox r → 0 ≤ cnt (saves j) ms) by (intros; apply cnt_nonneg).
  destruct Hm as [(ms & Hms & Hm & Hsv)|(s' & Hs' & Hm)].
  - assert (Hge := sumZ_ge (λ ms, cnt (saves j) ms) _ ms Hc Hms). cbn in Hge.
    assert (saves j m = true) by (unfold saves; rewrite Hsv; by apply has_job_iff).
    pose proof (cnt_pos (saves j) _ _ Hm ltac:(done)). lia.
  - rewrite Hs in Hs'. injection Hs' as <-. pose proof (outstanding_holds j m s Ho Hm Hj).
    assert (0 ≤ sumZ ((λ ms, cnt (saves j) ms) <$> inbox r)); [|lia].
    apply sumZ_fmap_nonneg. intros. apply cnt_nonneg.
Qed.

Lemma cnt_filter_saves j l : cnt (has_job j) (filter (λ m, Is_true (can_save m)) l) = cnt (saves j) l.
Proof.
  induction l as [|m l IH]; [done|]. rewrite filter_cons, cnt_cons. unfold saves at 1.
  destruct (can_save m); cbn [andb Is_true]; [|done].
  rewrite decide_True by done. by rewrite cnt_cons, IH.
Qed.

Lemma reports_aggregate j a b : reports j (aggregate a b) = reports j a + reports j b.
Proof.
  unfold aggregate. revert a. induction b as [|[k n] b IH]; intros a; cbn [foldl]; [change (reports j []) with 0; lia|].
  rewrite IH, reports_cons. cbn [fst snd]. rewrite reports_bump. lia.
Qed.

Lemma aggregate_positive a b :
  Forall (λ e : Z * Z, 0 < e.2) a → Forall (λ e : Z * Z, 0 < e.2) b → Forall (λ e : Z * Z, 0 < e.2) (aggregate a b).
Proof.
  unfold aggregate. revert a. induction b as [|[k n] b IH]; intros a Ha Hb; cbn [foldl]; [done|].
  apply Forall_cons in Hb as [Hn Hb]. cbn in Hn. apply IH; [|done]. apply Forall_forall.
  rewrite Forall_forall in Ha. intros e [->|[He _]]%elem_of_dset; [|by apply Ha]. cbn.
  destruct (dget a k) as [n'|] eqn:E; cbn; [|lia]. apply dget_elem_of, Ha in E. cbn in E. lia.
Qed.

Lemma at_rank_broadcast ms j l :
  sumZ (at_rank j <$> broadcast ms l) = sumZ (at_rank j <$> l) + zlen l * cnt (saves j) ms.
Proof.
  induction l as [|r l IH]; [done|]. change (broadcast ms (r :: l)) with (mkLink (inbox r ++ [ms]) (rk_worker r) :: broadcast ms l).
  rewrite !fmap_cons, !sumZ_cons, IH. unfold at_rank at 1 3. cbn [inbox rk_worker].
  rewrite fmap_app, sumZ_app, fmap_cons, sumZ_cons. unfold zlen. cbn [fmap list_fmap length].
  change (sumZ []) with 0. lia.
Qed.

(** Completions leave the references of a job whose reports are not all in. *)
Lemma complete_keeps l s s' j ids n :
  Forall (λ e : Z * Z, 0 < e.2) l → rfold complete_save s l = Ok s' →
  dget (pinned s) j = Some (ids, n) → reports j l < n →
  dget (pinned s') j = Some (ids, n - reports j l).
Proof.
  intros Hl. revert s n. induction Hl as [|[k x] l Hx Hl IH]; intros s n H Hj Hn.
  - apply Ok_inj in H as <-. change (reports j []) with 0. by rewrite Z.sub_0_r.
  - cbn [rfold] in H. apply rbind_Ok in H as (s1 & H1 & H). rewrite reports_cons in *. cbn [fst snd] in *.
    pose proof (reports_nonneg j l Hl). unfold complete_save in H1. destruct (Z.eqb_spec k j) as [->|Hne].
    + rewrite Hj in H1. rewrite (proj2 (Z.ltb_lt 0 (n - x))) in H1 by lia. apply Ok_inj in H1 as <-.
      rewrite Z.sub_add_distr. apply (IH _ _ H); [apply dget_dset_eq|lia].
    + apply (IH _ _ H); [|lia]. destruct (dget (pinned s) k) as [[ids' m]|]; [|by apply Ok_inj in H1 as <-].
      destruct (0 <? m - x).
      * apply Ok_inj in H1 as <-. cbn. by rewrite dget_dset_ne.
      * apply rbind_Ok in H1 as (u & _ & <-%Ok_inj). change (pinned _) with (ddel (pinned s) k).
        by rewrite dget_ddel_ne.
Qed.

(** ** The invariant *)

Section system.
Context `{CD : !CeilDiv} `{M : !Managers}.
Context (conv : block_hash → Z) (NULL_BLOCK_ID : Z) (c : config) (cs : list worker_config) (num_recv_threads : Z).

(** Every worker puts, and the scheduler counts them. *)
Hypothesis Hworkers : num_workers c = zlen cs.
Hypothesis Hsome : cs ≠ [].
Hypothesis Hputs : ∀ wc, wc ∈ cs → can_put (flags wc) = true ∧ rk_capacity_only (flags wc) = false.

Abbreviation in_flight := (in_flight (num_workers c)).

(** The blocks that a metadata's job holds: of a finished request's tail only
    the boundary states. *)
Definition needed (m : ReqMeta) (j : Z) (y : system) : list Z :=
  if bool_decide (j ∈ tail_jobs y) then offload_blocks m else job_blocks NULL_BLOCK_ID c m.

Definition kept (m : ReqMeta) (y : system) : Prop :=
  ∃ j, store_job_id m = Some j ∧ ∀ b, b ∈ needed m j y → held_by (sy_sched y) j b.

Record sys_ok (y : system) : Prop := {
  so_refs : refs_ok (sy_sched y);
  so_len : length (ranks y) = length cs;
  so_links r : r ∈ ranks y → link_ok r;
  so_pending l : l ∈ pending y → l ≠ [] ∧ Forall (λ e : Z * Z, 0 < e.2) l;
  so_fresh j : ¬ 0 ≤ j < next_store_job_id (sy_sched y) → in_flight j y = 0;
  so_next : 0 ≤ next_store_job_id (sy_sched y);
  so_bound : 0 < next_store_job_id (sy_sched y) → pool_bound (sy_sched y) = true;
  so_count j ids n : dget (pinned (sy_sched y)) j = Some (ids, n) → n = in_flight j y;
  so_kept m r : r ∈ ranks y → in_hand m r → kept m y;
  so_tails m j : m ∈ (finished_tails (sy_sched y)).*2 → store_job_id m = Some j →
    j ∈ tail_jobs y ∧ ∀ b, b ∈ offload_blocks m → held_by (sy_sched y) j b;
  so_tail_jobs j : j ∈ tail_jobs y → j < next_store_job_id (sy_sched y)
}.

Lemma workers_pos : 0 < num_workers c.
Proof. rewrite Hworkers. destruct cs; [done|]. unfold zlen. cbn. lia. Qed.

Lemma in_flight_parts j y : sys_ok y →
  0 ≤ sumZ (at_rank j <$> ranks y) ∧ 0 ≤ sumZ (reports j <$> pending y) ∧
  0 ≤ cnt (has_job j) (finished_tails (sy_sched y)).*2.
Proof.
  intros Hy. split_and!; [| |apply cnt_nonneg]; apply sumZ_fmap_nonneg.
  - intros r Hr. by apply at_rank_nonneg, (so_links _ Hy).
  - intros l Hl. by apply reports_nonneg, (so_pending _ Hy).
Qed.

Lemma init_ok : sys_ok (init_system cs num_recv_threads).
Proof.
  assert (Hin : ∀ r, r ∈ ranks (init_system cs num_recv_threads) →
    inbox r = [] ∧ kv_send_thread (rk_worker r) = Some init_sender).
  { intros r (wc & -> & Hwc)%list_elem_of_fmap. split; [done|]. cbn.
    by rewrite (proj1 (Hputs _ Hwc)). }
  assert (Hz : ∀ j, in_flight j (init_system cs num_recv_threads) = 0).
  { intros j. unfold in_flight. cbn [pending sy_sched init_system finished_tails init_sched].
    change (cnt (has_job j) ([] : list (string * ReqMeta)).*2) with 0.
    change (sumZ (reports j <$> [])) with 0. enough (sumZ (at_rank j <$> ranks (init_system cs num_recv_threads)) = 0) by lia.
    revert Hin. generalize (ranks (init_system cs num_recv_threads)). intros l.
    induction l as [|r l IH]; intros Hin; [done|]. rewrite fmap_cons, sumZ_cons, IH by set_solver.
    destruct (Hin r ltac:(set_solver)) as [H1 H2]. unfold at_rank. rewrite H1, H2. done. }
  split.
  - apply (refs_init c). apply workers_pos.
  - cbn. apply length_fmap.
  - intros r [_ H]%Hin. exists init_sender. split; [done|]. split; [|constructor]. split; [constructor|done].
  - set_solver.
  - intros j _. apply Hz.
  - done.
  - cbn. lia.
  - done.
  - intros m r [H1 H2]%Hin [(ms & Hms & _)|(s & Hs & Hm)]; [rewrite H1 in Hms; set_solver|].
    rewrite H2 in Hs. injection Hs as <-. destruct Hm as [Hm|(t & [=] & _)]. by apply elem_of_nil in Hm.
  - intros m j Hm. by apply elem_of_nil in Hm.
  - set_solver.
Qed.

(** ** Steps of the ranks *)

Lemma update_link y k r r' pend :
  sys_ok y → ranks y !! k = Some r → link_ok r' →
  (∀ l, l ∈ pend → l ≠ [] ∧ Forall (λ e : Z * Z, 0 < e.2) l) →
  (∀ j, at_rank j r' + sumZ (reports j <$> pend) = at_rank j r + sumZ (reports j <$> pending y)) →
  (∀ m, in_hand m r' → in_hand m r) →
  sys_ok (mkSystem (sy_sched y) (<[k := r']> (ranks y)) pend (tail_jobs y)).
Proof.
  intros Hy Hk Hl Hp Hj Hm.
  assert (Hf : ∀ j, in_flight j (mkSystem (sy_sched y) (<[k := r']> (ranks y)) pend (tail_jobs y)) = in_flight j y).
  { intros j. unfold in_flight. cbn [ranks pending sy_sched]. rewrite (sumZ_insert _ _ _ _ _ Hk).
    specialize (Hj j). lia. }
  assert (Hin : ∀ r1, r1 ∈ <[k := r']> (ranks y) → r1 = r' ∨ r1 ∈ ranks y).
  { intros r1 (i & Hi)%list_elem_of_lookup. apply list_lookup_insert_Some in Hi as [(_ & -> & _)|[_ Hi]]; [by left|].
    right. by eapply list_elem_of_lookup_2. }
  split; cbn [ranks pending sy_sched tail_jobs]; try apply Hy.
  - rewrite length_insert. apply Hy.
  - intros r1 [->|H]%Hin; [done|]. by apply (so_links _ Hy).
  - done.
  - intros j Hn. rewrite Hf. by apply Hy.
  - intros j ids n Hd. rewrite Hf. by eapply (so_count _ Hy).
  - intros m r1 [->|H]%Hin Hh.
    + apply (so_kept _ Hy _ r); [by eapply list_elem_of_lookup_2|auto].
    + by apply (so_kept _ Hy _ r1).
Qed.

Lemma link_of y k r : sys_ok y → ranks y !! k = Some r → ∃ s, kv_send_thread (rk_worker r) = Some s ∧ sender_ok s.
Proof. intros Hy Hk. apply (so_links _ Hy). by eapply list_elem_of_lookup_2. Qed.

Lemma save_ok k y y' :
  sys_ok y → save_step conv NULL_BLOCK_ID cs k y = Some y' → sys_ok y'.
Proof.
  intros Hy H. unfold save_step in H. apply bind_Some in H as (r & Hr & H). apply bind_Some in H as (wc & Hwc & H).
  destruct (inbox r) as [|ms rest] eqn:Hi; [done|]. apply bind_Some in H as (w & Hw & [= <-]).
  destruct (link_of y k r Hy Hr) as (s & Hs & Ho). destruct (Hputs wc) as [Hp Hc]; [by eapply list_elem_of_lookup_2|].
  destruct (worker_effect conv NULL_BLOCK_ID wc _ _ _ s Hp Hc Hw Hs) as (s' & Hs' & [E1 E2 E3]).
  apply (update_link y k r _ (pending y) Hy Hr).
  - exists s'. split; [done|auto].
  - apply (so_pending _ Hy).
  - intros j. unfold at_rank. cbn [inbox rk_worker]. rewrite Hs, Hs', Hi, E2. cbn [event_adds event_takes].
    rewrite cnt_filter_saves, fmap_cons, sumZ_cons. change (reports j []) with 0. lia.
  - intros m [(ms' & H1 & H2 & H3)|(s1 & H1 & H2)].
    + left. exists ms'. rewrite Hi. set_solver.
    + cbn in H1. rewrite Hs' in H1. injection H1 as <-. apply E3 in H2 as [H2|H2]; [by right; exists s|].
      left. exists ms. rewrite Hi. apply list_elem_of_filter in H2 as [H2 H2'].
      split_and!; [set_solver|done|by apply Is_true_true].
Qed.

Lemma rank_ok k e y y' :
  sys_ok y → rank_step conv NULL_BLOCK_ID cs k e y = Some y' → sys_ok y'.
Proof.
  intros Hy H. unfold rank_step in H. apply bind_Some in H as (r & Hr & H). apply bind_Some in H as (wc & Hwc & H).
  destruct (is_private e) eqn:He; [|done]. apply bind_Some in H as (w & Hw & [= <-]).
  destruct (link_of y k r Hy Hr) as (s & Hs & Ho). destruct (Hputs wc) as [Hp Hc]; [by eapply list_elem_of_lookup_2|].
  destruct (worker_effect conv NULL_BLOCK_ID wc _ _ _ s Hp Hc Hw Hs) as (s' & Hs' & [E1 E2 E3]).
  assert (event_adds e = [] ∧ event_takes e s = []) as [Ea Et] by by destruct e. rewrite Ea, Et in *.
  apply (update_link y k r _ (pending y) Hy Hr).
  - exists s'. split; [done|auto].
  - apply (so_pending _ Hy).
  - intros j. unfold at_rank. cbn [inbox rk_worker]. rewrite Hs, Hs', E2, cnt_nil. change (reports j []) with 0. lia.
  - intros m [H|(s1 & H1 & H2)]; [by left|]. cbn in H1. rewrite Hs' in H1. injection H1 as <-. right. exists s.
    apply E3 in H2 as [H2|H2]; [done|by apply elem_of_nil in H2].
Qed.

Lemma collect_ok k y y' : sys_ok y → collect_step k y = Some y' → sys_ok y'.
Proof.
  intros Hy H. unfold collect_step in H. apply bind_Some in H as (r & Hr & H).
  destruct (link_of y k r Hy Hr) as (s & Hs & Ho). unfold build_connector_worker_meta in H. rewrite Hs in H.
  cbn in H. injection H as <-.
  set (w := set_sender _ (rk_worker r)). set (pend := pending y ++ match completed_saves s with [] => [] | l => [l] end).
  assert (E : sys_ok (mkSystem (sy_sched y) (<[k := mkLink (inbox r) w]> (ranks y)) pend (tail_jobs y))).
  2:{ unfold pend in E. destruct (completed_saves s); [by rewrite app_nil_r in E|exact E]. }
  apply (update_link y k r _ pend Hy Hr).
  - eexists. split; [done|]. destruct Ho as [H1 _]. split; [exact H1|constructor].
  - intros l. unfold pend. rewrite elem_of_app. intros [Hl|Hl]; [by apply (so_pending _ Hy)|].
    destruct Ho as [_ Hpos]. destruct (completed_saves s) as [|e l'] eqn:El; [by apply elem_of_nil in Hl|].
    apply list_elem_of_singleton in Hl as ->. done.
  - intros j. unfold at_rank, pend. cbn [inbox rk_worker w set_sender kv_send_thread]. rewrite Hs.
    unfold outstanding. cbn [request_queue running completed_saves set_completed_saves].
    rewrite fmap_app, sumZ_app. change (reports j []) with 0.
    destruct (completed_saves s); cbn [fmap list_fmap]; rewrite ?sumZ_cons; change (sumZ []) with 0;
      change (reports j []) with 0; lia.
  - intros m [H|(s1 & H1 & H2)]; [by left|]. cbn in H1. injection H1 as <-. right. exists s. done.
Qed.

Lemma merge_ok i j y y' : sys_ok y → merge_step i j y = Some y' → sys_ok y'.
Proof.
  intros Hy H. unfold merge_step in H. case_bool_decide as Hne; [done|].
  apply bind_Some in H as (a & Ha & H). apply bind_Some in H as (b & Hb & [= <-]).
  destruct (ranks y) as [|r l] eqn:Er.
  { exfalso. apply Hsome, nil_length_inv. pose proof (so_len _ Hy) as Hl. by rewrite Er in Hl. }
  assert (Hr : ranks y !! 0%nat = Some r) by by rewrite Er.
  assert (E := update_link y 0 r r (delete j (<[i := aggregate a b]> (pending y))) Hy Hr).
  rewrite (list_insert_id _ _ _ Hr) in E. apply E.
  - apply (so_links _ Hy). by eapply list_elem_of_lookup_2.
  - assert (Hab : ∀ k l, pending y !! k = Some l → l ≠ [] ∧ Forall (λ e : Z * Z, 0 < e.2) l)
      by (intros k l' Hk; apply (so_pending _ Hy); by eapply list_elem_of_lookup_2).
    intros l' Hl. apply (elem_of_sublist _ (<[i := aggregate a b]> (pending y))) in Hl; [|apply sublist_delete].
    apply list_elem_of_lookup in Hl as [k Hk]. apply list_lookup_insert_Some in Hk as [(_ & <- & _)|[_ Hk]]; [|eauto].
    destruct (Hab _ _ Ha) as [Na Pa], (Hab _ _ Hb) as [Nb Pb]. split; [|by apply aggregate_positive].
    intros E'. destruct b as [|[q n] b]; [done|]. apply Forall_cons in Pb as [Hn Pb]. cbn in Hn.
    pose proof (reports_aggregate q a ((q, n) :: b)) as R. rewrite E', reports_cons in R. cbn [fst snd] in R.
    rewrite Z.eqb_refl in R. pose proof (reports_nonneg q _ Pa). pose proof (reports_nonneg q _ Pb).
    change (reports q []) with 0 in R. lia.
  - intros q. rewrite (sumZ_delete _ _ j b) by (by rewrite list_lookup_insert_ne).
    rewrite (sumZ_insert _ _ _ _ _ Ha), reports_aggregate. lia.
  - done.
Qed.

(** ** Steps of the scheduler *)

Lemma held_ext s s' j b : pinned s' = pinned s → held_by s j b → held_by s' j b.
Proof. unfold held_by. by intros ->. Qed.

(** What a scheduler step must respect when it makes jobs: the pins of old
    jobs stay, and each new job is counted once per worker. *)
Lemma update_sched y s ls tj :
  let y' := mkSystem s ls (pending y) tj in
  sys_ok y → refs_ok s → next_store_job_id (sy_sched y) ≤ next_store_job_id s →
  length ls = length cs → (∀ r, r ∈ ls → link_ok r) →
  (∀ j, j < next_store_job_id (sy_sched y) → in_flight j y' = in_flight j y ∧ dget (pinned s) j = dget (pinned (sy_sched y)) j) →
  (∀ j, next_store_job_id s ≤ j → in_flight j y' = 0) →
  (0 < next_store_job_id s → pool_bound s = true) →
  (∀ j ids n, next_store_job_id (sy_sched y) ≤ j → dget (pinned s) j = Some (ids, n) → n = in_flight j y') →
  (∀ m r, r ∈ ls → in_hand m r → kept m y') →
  (∀ m j, m ∈ (finished_tails s).*2 → store_job_id m = Some j →
     j ∈ tj ∧ ∀ b, b ∈ offload_blocks m → held_by s j b) →
  (∀ j, j ∈ tj → j < next_store_job_id s) →
  sys_ok y'.
Proof.
  intros y' Hy Hs Hn Hlen Hlinks Hold Hnew Hb Hc Hk Ht Htj.
  split; cbn [sy_sched ranks pending tail_jobs y']; try done.
  - apply (so_pending _ Hy).
  - intros j Hj. destruct (decide (next_store_job_id s ≤ j)); [by apply Hnew|].
    assert (j < 0) by lia. pose proof (so_next _ Hy). rewrite (proj1 (Hold j ltac:(lia))). apply (so_fresh _ Hy). lia.
  - pose proof (so_next _ Hy). lia.
  - intros j ids n Hj. destruct (decide (j < next_store_job_id (sy_sched y))) as [Hlt|Hge].
    + destruct (Hold j Hlt) as [-> Hd]. rewrite Hd in Hj. by eapply (so_count _ Hy).
    + eapply Hc; [lia|done].
Qed.

Lemma call_frame requests o s s' :
  is_local o = true → run_op NULL_BLOCK_ID c requests o s = Ok s' →
  pinned s' = pinned s ∧ next_store_job_id s' = next_store_job_id s ∧ finished_tails s' = finished_tails s ∧
  (pool_bound s = true → pool_bound s' = true).
Proof.
  intros Ho H. destruct o; try done; cbn in H.
  - by apply Ok_inj in H as <-.
  - apply Ok_inj in H as <-. unfold get_num_new_matched_tokens. by repeat case_match.
  - unfold update_state_after_alloc in H. destruct (dget _ _) as [l|]; [|by apply Ok_inj in H as <-].
    destruct (num_external =? 0); [by apply Ok_inj in H as <-|].
    apply rbind_Ok in H as (u & _ & H). by apply Ok_inj in H as <-.
Qed.

Lemma call_ok requests o y y' : sys_ok y → sched_call NULL_BLOCK_ID c requests o y = Some y' → sys_ok y'.
Proof.
  intros Hy H. unfold sched_call in H. destruct (is_local o) eqn:Ho; [|done].
  destruct (run_op _ _ _ _ _) as [s|] eqn:E; [|done]. injection H as <-.
  assert (Hr : refs_ok s) by (eapply (refs_step NULL_BLOCK_ID c requests); [apply workers_pos|apply (so_refs _ Hy)|exact E]).
  apply call_frame in E as (E1 & E2 & E3 & E4); [|done].
  assert (Hf : ∀ j, in_flight j (set_sy_sched s y) = in_flight j y) by (intros j; unfold in_flight; cbn; by rewrite E3).
  apply update_sched; try done.
  - by rewrite E2.
  - apply (so_len _ Hy).
  - apply (so_links _ Hy).
  - intros j _. split; [apply Hf|by rewrite E1].
  - intros j Hj. rewrite Hf. apply (so_fresh _ Hy). lia.
  - rewrite E2. intros Hb. by apply E4, (so_bound _ Hy).
  - intros j ids n _ Hj. rewrite Hf. eapply (so_count _ Hy). by rewrite <- E1.
  - intros m r Hin Hm. destruct (so_kept _ Hy m r Hin Hm) as (j & Hj & Hb). exists j. split; [done|].
    intros b Hbb. eapply held_ext; [exact E1|]. by apply Hb.
  - intros m j. rewrite E3. intros Hm Hj. destruct (so_tails _ Hy m j Hm Hj) as [H1 H2]. split; [done|].
    intros b Hb. eapply held_ext; [exact E1|]. by apply H2.
  - rewrite E2. apply (so_tail_jobs _ Hy).
Qed.

Lemma in_hand_job m r j y :
  sys_ok y → r ∈ ranks y → in_hand m r → store_job_id m = Some j →
  1 ≤ in_flight j y ∧ 0 ≤ j < next_store_job_id (sy_sched y).
Proof.
  intros Hy Hr Hm Hj. destruct (in_flight_parts j y Hy) as (_ & H2 & H3).
  assert (H1 := at_rank_holds j m r (so_links _ Hy r Hr) Hm Hj).
  assert (Hge := sumZ_ge (at_rank j) (ranks y) r (λ r' Hr', at_rank_nonneg j r' (so_links _ Hy r' Hr')) Hr).
  pose proof workers_pos. assert (1 ≤ in_flight j y) by (unfold in_flight; nia). split; [done|].
  destruct (decide (0 ≤ j < next_store_job_id (sy_sched y))) as [|Hn]; [done|].
  rewrite (so_fresh _ Hy j Hn) in *. lia.
Qed.

(** Old jobs keep their blocks when a step only adds jobs. *)
Lemma kept_old m r y y' :
  sys_ok y → r ∈ ranks y → in_hand m r →
  (∀ j, j < next_store_job_id (sy_sched y) →
     dget (pinned (sy_sched y')) j = dget (pinned (sy_sched y)) j ∧ (j ∈ tail_jobs y' ↔ j ∈ tail_jobs y)) →
  kept m y'.
Proof.
  intros Hy Hr Hm Hold. destruct (so_kept _ Hy m r Hr Hm) as (j & Hj & Hb). exists j. split; [done|].
  destruct (in_hand_job m r j y Hy Hr Hm Hj) as [_ Hlt]. destruct (Hold j ltac:(lia)) as [Hd Ht].
  intros b Hbb. unfold held_by. rewrite Hd. apply Hb. revert Hbb. unfold needed.
  by rewrite (bool_decide_ext _ _ Ht).
Qed.

Lemma tail_jobs_same y :
  sys_ok y → tail_jobs y ∪ list_to_set (omap store_job_id (finished_tails (sy_sched y)).*2) = tail_jobs y.
Proof.
  intros Hy. rewrite (comm_L (∪)). apply subseteq_union_1_L. intros j Hj%elem_of_list_to_set.
  apply list_elem_of_omap in Hj as (m & Hm & Hj). by apply (so_tails _ Hy m).
Qed.

Lemma tail_step_ok requests id blocks offloads y y' :
  sys_ok y → tail_step NULL_BLOCK_ID c requests id blocks offloads y = Some y' → sys_ok y'.
Proof.
  intros Hy H. unfold tail_step in H. destruct (register_finished_partial_tail _ _ _ _ _ _ _) as [s|] eqn:E; [|done].
  injection H as <-. assert (Hr : refs_ok s) by (eapply refs_tail; [apply workers_pos|apply (so_refs _ Hy)|exact E]).
  apply tail_cases in E as [->|(ids & m & [Hb0 Ha Ep En Et Hb El Hc Hj Hnd Hi])].
  { rewrite (tail_jobs_same y Hy). by destruct y. }
  set (j0 := next_store_job_id (sy_sched y)) in *. rewrite (dset_absent _ _ _ Ha) in Et.
  assert (Etj : tail_jobs y ∪ list_to_set (omap store_job_id (finished_tails s).*2) = tail_jobs y ∪ {[j0]}).
  { rewrite Et, fmap_app, omap_app, list_to_set_app_L, (assoc_L (∪)), (tail_jobs_same y Hy). cbn. rewrite Hj.
    cbn. by rewrite (right_id_L ∅ (∪)). }
  rewrite Etj. clear Etj. assert (Hold : ∀ j, j < j0 → dget (pinned s) j = dget (pinned (sy_sched y)) j).
  { intros j Hlt. rewrite Ep. apply dget_dset_ne. lia. }
  assert (Hf : ∀ j, in_flight j (mkSystem s (ranks y) (pending y) (tail_jobs y ∪ {[j0]})) =
    in_flight j y + num_workers c * Z.b2z (j =? j0)).
  { intros j. unfold in_flight. cbn [sy_sched ranks pending]. rewrite Et, fmap_app, cnt_app. cbn [fmap list_fmap snd].
    rewrite cnt_cons, cnt_nil. replace (has_job j m) with (j =? j0); [lia|]. unfold has_job. rewrite Hj.
    destruct (Z.eqb_spec j j0) as [->|]; symmetry; [by apply bool_decide_true|apply bool_decide_false; congruence]. }
  assert (Hz : in_flight j0 y = 0) by (apply (so_fresh _ Hy); lia).
  apply (update_sched y s (ranks y) (tail_jobs y ∪ {[j0]})); try done.
  - lia.
  - apply (so_len _ Hy).
  - apply (so_links _ Hy).
  - intros j Hlt. split; [|by apply Hold]. rewrite Hf. destruct (Z.eqb_spec j j0); cbn; lia.
  - intros j Hge. rewrite Hf, (so_fresh _ Hy) by lia. destruct (Z.eqb_spec j j0); cbn; lia.
  - intros j ids' n Hge Hd. rewrite Ep in Hd. destruct (decide (j = j0)) as [->|Hne].
    + rewrite dget_dset_eq in Hd. injection Hd as <- <-. rewrite Hf, Hz, Z.eqb_refl. cbn. lia.
    + rewrite dget_dset_ne in Hd by done. apply dget_elem_of, (po_next _ (ro_pins _ (so_refs _ Hy))) in Hd. lia.
  - intros m' r Hin Hm. apply (kept_old m' r y); [done..|]. intros j Hlt. cbn [sy_sched tail_jobs].
    split; [by apply Hold|]. assert (j ≠ j0) by lia. set_solver.
  - intros m' j. rewrite Et, fmap_app, elem_of_app. intros [Hm|Hm%list_elem_of_singleton] Hjm.
    + destruct (so_tails _ Hy m' j Hm Hjm) as [H1 H2]. split; [set_solver|]. intros b Hbb. unfold held_by.
      rewrite Hold by (by apply (so_tail_jobs _ Hy)). by apply H2.
    + cbn in Hm. subst m'. rewrite Hj in Hjm. injection Hjm as <-. split; [set_solver|]. intros b Hbb.
      exists ids, (num_workers c). rewrite Ep, dget_dset_eq. split; [done|by apply Hi].
  - intros j [Hj'|Hj']%elem_of_union; [apply (so_tail_jobs _ Hy) in Hj'; lia|].
    apply elem_of_singleton in Hj' as ->. lia.
Qed.

Lemma tail_in_flight m j y :
  sys_ok y → m ∈ (finished_tails (sy_sched y)).*2 → store_job_id m = Some j →
  1 ≤ num_workers c * cnt (has_job j) (finished_tails (sy_sched y)).*2.
Proof.
  intros _ Hm Hj%has_job_iff. pose proof (cnt_pos (has_job j) _ _ Hm Hj). pose proof workers_pos. nia.
Qed.

Lemma report_counted i l j y : sys_ok y → pending y !! i = Some l → reports j l ≤ sumZ (reports j <$> pending y).
Proof.
  intros Hy Hi. apply (sumZ_ge (reports j)); [|by eapply list_elem_of_lookup_2].
  intros l' Hl. by apply reports_nonneg, (so_pending _ Hy).
Qed.

Lemma report_bound i l y : sys_ok y → pending y !! i = Some l → pool_bound (sy_sched y) = true.
Proof.
  intros Hy Hi. destruct (so_pending _ Hy l) as [Hne Hpos]; [by eapply list_elem_of_lookup_2|].
  destruct l as [|[j n] l]; [done|]. assert (Hr := report_counted i _ j y Hy Hi).
  assert (Hn := reports_elem j n _ Hpos (list_elem_of_here _ _)).
  apply Forall_cons in Hpos as [Hp _]. cbn in Hp. destruct (in_flight_parts j y Hy) as (H1 & _ & H3).
  apply (so_bound _ Hy). destruct (decide (0 ≤ j < next_store_job_id (sy_sched y))) as [|Hf]; [lia|].
  apply (so_fresh _ Hy) in Hf. unfold in_flight in Hf. pose proof workers_pos. nia.
Qed.

(** A report on its way is never refused. *)
Lemma complete_ok i l y :
  sys_ok y → pending y !! i = Some l →
  ∃ s, update_connector_output l (sy_sched y) = Ok s ∧
    sys_ok (set_pending (delete i (pending y)) (set_sy_sched s y)).
Proof.
  intros Hy Hi. destruct (so_pending _ Hy l) as [_ Hpos]; [by eapply list_elem_of_lookup_2|].
  assert (Hb := report_bound i l y Hy Hi). pose proof workers_pos.
  assert (Hother : ∀ j, 0 ≤ in_flight j y - reports j l).
  { intros j. destruct (in_flight_parts j y Hy) as (? & ? & ?). pose proof (report_counted i l j y Hy Hi).
    unfold in_flight. nia. }
  destruct (complete_list l (sy_sched y) (λ j, in_flight j y - reports j l) (ro_pins _ (so_refs _ Hy)) Hpos Hother)
    as (s & Hs & _ & (E1 & E2 & E3) & Hn).
  { intros j ids n Hj. rewrite (so_count _ Hy _ _ _ Hj). lia. }
  assert (Hu : update_connector_output l (sy_sched y) = Ok s)
    by (unfold update_connector_output; by rewrite Hb).
  exists s. split; [exact Hu|]. set (y' := set_pending _ _).
  assert (Hf : ∀ j, in_flight j y' = in_flight j y - reports j l).
  { intros j. unfold in_flight, y'. cbn [sy_sched ranks pending set_pending set_sy_sched].
    rewrite E2, (sumZ_delete _ _ _ _ Hi). lia. }
  assert (Hheld : ∀ j b, 1 ≤ in_flight j y' → held_by (sy_sched y) j b → held_by s j b).
  { intros j b Hge (ids & n & Hj & Hbb). exists ids, (n - reports j l). split; [|done].
    eapply complete_keeps; [exact Hpos|exact Hs|exact Hj|]. rewrite (so_count _ Hy _ _ _ Hj), Hf in *. lia. }
  assert (Hparts : ∀ j r, r ∈ ranks y → at_rank j r ≤ in_flight j y' ∧
    num_workers c * cnt (has_job j) (finished_tails (sy_sched y)).*2 ≤ in_flight j y').
  { intros j r Hr. pose proof (sumZ_ge (at_rank j) _ r (λ r' Hr', at_rank_nonneg j r' (so_links _ Hy r' Hr')) Hr) as Hge.
    destruct (in_flight_parts j y Hy) as (? & ? & ?). pose proof (report_counted i l j y Hy Hi).
    pose proof (at_rank_nonneg j r (so_links _ Hy r Hr)). rewrite Hf. unfold in_flight. nia. }
  split; cbn [sy_sched ranks pending tail_jobs set_pending set_sy_sched y'].
  - eapply (refs_step NULL_BLOCK_ID c (λ _, mkRequest 0 [] 0 [])); [apply workers_pos|apply (so_refs _ Hy)|].
    by instantiate (1 := OComplete l).
  - apply (so_len _ Hy).
  - apply (so_links _ Hy).
  - intros l' Hl. apply (so_pending _ Hy). eapply elem_of_sublist; [exact Hl|apply sublist_delete].
  - intros j Hj. fold y'. rewrite E1 in Hj. assert (Hz := so_fresh _ Hy j Hj). specialize (Hother j).
    destruct (in_flight_parts j y Hy) as (? & ? & ?). pose proof (reports_nonneg j l Hpos). rewrite Hf. lia.
  - rewrite E1. apply (so_next _ Hy).
  - rewrite E3. by intros _.
  - intros j ids n Hj. fold y'. rewrite Hf. by eapply Hn.
  - intros m r Hr Hm. destruct (so_kept _ Hy m r Hr Hm) as (j & Hj & Hk). exists j. split; [done|].
    intros b Hbb. apply Hheld; [|by apply Hk]. etrans; [exact (at_rank_holds j m r (so_links _ Hy r Hr) Hm Hj)|].
    by apply Hparts.
  - intros m j. rewrite E2. intros Hm Hj. destruct (so_tails _ Hy m j Hm Hj) as [H1 H2]. split; [done|].
    intros b Hbb. apply Hheld; [|by apply H2]. destruct (ranks y) as [|r rs] eqn:Er.
    { exfalso. apply Hsome, nil_length_inv. pose proof (so_len _ Hy) as Hl. by rewrite Er in Hl. }
    etrans; [exact (tail_in_flight m j y Hy Hm Hj)|]. apply (Hparts j r). rewrite ?Er. set_solver.
  - rewrite E1. apply (so_tail_jobs _ Hy).
Qed.

Lemma broadcast_elem ms l r : r ∈ broadcast ms l → ∃ r0, r0 ∈ l ∧ r = mkLink (inbox r0 ++ [ms]) (rk_worker r0).
Proof. intros (r0 & -> & Hr)%list_elem_of_fmap. eauto. Qed.

Lemma cnt_no_jobs j l : Forall (λ m, store_job_id m = None) l → cnt (saves j) l = 0.
Proof.
  intros H. apply cnt_zero. intros m Hm. rewrite Forall_forall in H. unfold saves, has_job. rewrite (H m Hm).
  by rewrite andb_false_r.
Qed.

Lemma cnt_tails j y : sys_ok y →
  cnt (saves j) (finished_tails (sy_sched y)).*2 = cnt (has_job j) (finished_tails (sy_sched y)).*2.
Proof.
  intros Hy. apply cnt_ext. intros m ([id m'] & -> & Hm)%list_elem_of_fmap.
  destruct (ro_tails _ (so_refs _ Hy) _ _ Hm) as [Hc _]. unfold saves. cbn. by rewrite Hc.
Qed.

(** The metadata of a step: the jobs it makes, once each, and the pending
    tails as they are. *)
Lemma build_made requests out y ms s :
  sys_ok y → build_connector_meta NULL_BLOCK_ID c requests out (sy_sched y) = Ok (ms, s) →
  let new j := Z.b2z ((next_store_job_id (sy_sched y) <=? j) && (j <? next_store_job_id s)) in
  grows (sy_sched y) s ∧ finished_tails s = [] ∧
  (next_store_job_id (sy_sched y) < next_store_job_id s → pool_bound s = true) ∧
  pool_bound s = pool_bound (sy_sched y) ∧
  (∀ j, cnt (saves j) ms = cnt (has_job j) (finished_tails (sy_sched y)).*2 + new j) ∧
  (∀ j ids n, next_store_job_id (sy_sched y) ≤ j → dget (pinned s) j = Some (ids, n) → new j = 1 ∧ n = num_workers c) ∧
  (∀ m, m ∈ ms → can_save m = true →
     m ∈ (finished_tails (sy_sched y)).*2 ∨
     ∃ j, store_job_id m = Some j ∧ next_store_job_id (sy_sched y) ≤ j ∧
       ∀ b, b ∈ job_blocks NULL_BLOCK_ID c m → held_by s j b).
Proof.
  intros Hy H new. destruct (so_refs _ Hy) as [Hp Ht]. pose proof workers_pos as Hw.
  destruct (build_ok NULL_BLOCK_ID c requests Hw out _ ms s Hp H) as (Hg & Htl & Hb & ms0' & ms1 & ms2 & -> & Hno & H1 & H2).
  apply (build_stages NULL_BLOCK_ID c requests) in H as (ms0 & s0 & Hq & Hno0 & H).
  destruct Hq as (E1 & E2 & E3 & E4 & _). rewrite E4 in H.
  apply reference_save_counts in H as [N C P B]. cbn [next_store_job_id set_finished_tails pinned] in N, C, P, B.
  rewrite E2 in N, C, P, B. rewrite E1 in P.
  assert (Htail : ∀ m, m ∈ (finished_tails (sy_sched y)).*2 → tail_ok (sy_sched y) m).
  { intros m ([id m'] & -> & Hm)%list_elem_of_fmap. by eapply Ht. }
  destruct (saved_tails NULL_BLOCK_ID c Hw (sy_sched y) s _ _ Htail H2) as [-> _].
  assert (Hc : ∀ j, cnt (saves j) (ms1 ++ (finished_tails (sy_sched y)).*2) =
    cnt (has_job j) (finished_tails (sy_sched y)).*2 + new j).
  { intros j. rewrite C, !cnt_app, (cnt_no_jobs j ms0 Hno0), (cnt_tails j y Hy). unfold new. lia. }
  split_and!; [done|done|done|done|done| |].
  - intros j ids n Hge [Hd|[? ->]]%P.
    + apply dget_elem_of, (po_next _ Hp) in Hd. lia.
    + split; [|done]. unfold new. rewrite (proj2 (Z.leb_le _ _)), (proj2 (Z.ltb_lt j _)) by lia. done.
  - intros m Hm Hsv. apply elem_of_app in Hm as [Hm|Hm]; [right|by left].
    assert (Hm' := Hm). apply list_elem_of_lookup in Hm' as [i Hi].
    destruct (Forall2_lookup_r _ _ _ _ _ H1 Hi) as (m0 & Hm0 & Hc' & Hs). rewrite Hsv in Hc'.
    destruct (Hs (eq_sym Hc')) as (j & Hj & Hlt & Hbl & _). exists j. split; [done|].
    rewrite Forall_lookup in Hno. destruct (Hbl (Hno _ _ Hm0)) as [Ejb Hh]. split; [|by rewrite Ejb].
    destruct (Z.le_gt_cases (next_store_job_id (sy_sched y)) j) as [|Hold]; [done|exfalso].
    assert (saves j m = true) by (unfold saves; rewrite Hsv; by apply has_job_iff).
    pose proof (cnt_pos (saves j) _ _ Hm ltac:(done)) as Hpos. specialize (Hc j).
    rewrite cnt_app, (cnt_tails j y Hy) in Hc. unfold new in Hc.
    rewrite (proj2 (Z.leb_gt _ j) Hold) in Hc. cbn in Hc. lia.
Qed.

Lemma build_step_ok requests out y y' :
  sys_ok y → build_step NULL_BLOCK_ID c requests out y = Some y' → sys_ok y'.
Proof.
  intros Hy H. unfold build_step in H. destruct (build_connector_meta _ _ _ _ _) as [[ms s]|] eqn:E; [|done].
  injection H as <-. assert (Hr : refs_ok s).
  { apply (refs_step NULL_BLOCK_ID c requests workers_pos (OBuild out) _ s (so_refs _ Hy)). cbn. by rewrite E. }
  destruct (build_made _ _ _ _ _ Hy E) as (Hg & Ht & Hb & Hpb & Hc & Hp & Hm).
  destruct Hg as (_ & Hn & Hd). cbn zeta in *.
  assert (Hf : ∀ j, in_flight j (mkSystem s (broadcast ms (ranks y)) (pending y) (tail_jobs y)) =
    in_flight j y + num_workers c * Z.b2z ((next_store_job_id (sy_sched y) <=? j) && (j <? next_store_job_id s))).
  { intros j. unfold in_flight. cbn [sy_sched ranks pending]. rewrite Ht, at_rank_broadcast, Hc.
    change ([].*2) with (@nil ReqMeta). rewrite cnt_nil.
    assert (zlen (ranks y) = num_workers c) as -> by (rewrite Hworkers; unfold zlen; by rewrite (so_len _ Hy)). lia. }
  apply (update_sched y s (broadcast ms (ranks y)) (tail_jobs y)); try done.
  - unfold broadcast. rewrite length_fmap. apply (so_len _ Hy).
  - intros r (r0 & Hr0 & ->)%broadcast_elem. apply (so_links _ Hy _ Hr0).
  - intros j Hlt. split; [|by apply Hd]. rewrite Hf, (proj2 (Z.leb_gt _ j) Hlt). cbn. lia.
  - intros j Hge. rewrite Hf, (so_fresh _ Hy) by lia. rewrite (proj2 (Z.ltb_ge j _) Hge), andb_false_r. cbn. lia.
  - intros Hpos. destruct (decide (next_store_job_id (sy_sched y) < next_store_job_id s)); [auto|].
    rewrite Hpb. apply (so_bound _ Hy). lia.
  - intros j ids n Hge Hj. destruct (Hp j ids n Hge Hj) as [Hnew ->]. rewrite Hf, Hnew, (so_fresh _ Hy) by lia. lia.
  - intros m r (r0 & Hr0 & ->)%broadcast_elem [(ms' & Hms & Hin & Hsv)|Hh].
    + cbn in Hms. apply elem_of_app in Hms as [Hms|Hms%list_elem_of_singleton]; [|subst ms'].
      * apply (kept_old m r0 y); [done|done|left; eauto|]. intros j Hlt. split; [by apply Hd|done].
      * destruct (Hm m Hin Hsv) as [Htl|(j & Hj & Hge & Hb')].
        -- apply list_elem_of_fmap in Htl as ([id m'] & -> & Htl). cbn [snd].
           destruct (ro_tails _ (so_refs _ Hy) _ _ Htl) as (_ & j & Hj & Hlt & _).
           destruct (so_tails _ Hy m' j) as [Hjt Hbt]; [|done|].
           { apply list_elem_of_fmap. by exists (id, m'). }
           exists j. split; [done|]. unfold needed. rewrite bool_decide_true by done. intros b Hb'.
           unfold held_by. cbn [sy_sched]. rewrite Hd by done. by apply Hbt.
        -- exists j. split; [done|]. unfold needed. rewrite bool_decide_false; [done|].
           intros Htj. apply (so_tail_jobs _ Hy) in Htj. lia.
    + apply (kept_old m r0 y); [done|done|by right|]. intros j Hlt. split; [by apply Hd|done].
  - intros m j. rewrite Ht. intros Hm'. by apply elem_of_nil in Hm'.
  - intros j Hj. apply (so_tail_jobs _ Hy) in Hj. lia.
Qed.

Lemma system_ok y : system_reach conv NULL_BLOCK_ID c cs num_recv_threads y → sys_ok y.
Proof.
  induction 1 as [|e y y' _ Hy H]; [apply init_ok|]. destruct e; cbn in H.
  - by eapply call_ok.
  - by eapply build_step_ok.
  - by eapply tail_step_ok.
  - unfold complete_step in H. apply bind_Some in H as (l & Hl & H).
    destruct (complete_ok i l y Hy Hl) as (s & Hs & Hok). rewrite Hs in H. by injection H as <-.
  - by eapply save_ok.
  - by eapply rank_ok.
  - by eapply collect_ok.
  - by eapply merge_ok.
Qed.

(** ** Nothing is refused *)

Lemma add_ok m s : is_Some (store_job_id m) → ∃ s', add_request m s = Ok s' ∧
  request_queue s' = request_queue s ++ [m] ∧ running s' = running s ∧ completed_saves s' = completed_saves s.
Proof. intros [j Hj]. unfold add_request. rewrite Hj. cbn. by eexists. Qed.

Lemma queue_ok l w s :
  (∀ m, m ∈ l → is_Some (store_job_id m)) → kv_send_thread w = Some s →
  ∃ w' s', rfold queue_save w l = Ok w' ∧ kv_send_thread w' = Some s' ∧ request_queue s' = request_queue s ++ l ∧
    running s' = running s ∧ completed_saves s' = completed_saves s.
Proof.
  revert w s. induction l as [|m l IH]; intros w s Hl Hs.
  - exists w, s. by rewrite app_nil_r.
  - destruct (add_ok m s) as (s1 & Ha & H1 & H2 & H3); [apply Hl; set_solver|].
    destruct (IH (set_sender s1 w) s1) as (w' & s' & Hw & Hs' & G1 & G2 & G3); [set_solver|done|].
    exists w', s'. cbn [rfold]. unfold queue_save at 1. rewrite Hs. cbn [of_option rbind]. rewrite Ha. cbn [rbind].
    rewrite G1, G2, G3, H1, H2, H3, <- (assoc_L (++)). done.
Qed.

Lemma config_of y k r : sys_ok y → ranks y !! k = Some r → ∃ wc, cs !! k = Some wc ∧ wc ∈ cs.
Proof.
  intros Hy Hk. destruct (lookup_lt_is_Some_2 cs k) as [wc Hwc].
  - rewrite <- (so_len _ Hy). by eapply lookup_lt_Some.
  - exists wc. split; [done|by eapply list_elem_of_lookup_2].
Qed.

(** A rank takes the next metadata without an exception. *)
Lemma save_enabled k r ms rest y :
  sys_ok y → ranks y !! k = Some r → inbox r = ms :: rest →
  ∃ s w s', kv_send_thread (rk_worker r) = Some s ∧ kv_send_thread w = Some s' ∧
    save_step conv NULL_BLOCK_ID cs k y = Some (set_ranks (<[k := mkLink rest w]> (ranks y)) y) ∧
    request_queue s' = request_queue s ++ filter (λ m, Is_true (can_save m)) ms ∧
    running s' = running s ∧ completed_saves s' = completed_saves s.
Proof.
  intros Hy Hk Hi. destruct (link_of y k r Hy Hk) as (s & Hs & _). destruct (config_of y k r Hy Hk) as (wc & Hwc & Hin).
  destruct (Hputs wc Hin) as [Hp Hc].
  destruct (queue_ok (filter (λ m, Is_true (can_save m)) ms) (rk_worker r) s) as (w & s' & Hw & Hs' & H1 & H2 & H3);
    [|done|].
  - intros m [Hsv Hm]%list_elem_of_filter. destruct (so_kept _ Hy m r) as (j & Hj & _); [| |by rewrite Hj].
    + by eapply list_elem_of_lookup_2.
    + left. exists ms. rewrite Hi. split_and!; [set_solver|done|by apply Is_true_true].
  - exists s, w, s'. split_and!; try done. unfold save_step. rewrite Hk, Hwc. cbn [mbind option_bind].
    rewrite Hi. cbn [worker_run]. unfold wait_for_save. rewrite Hc, Hp. cbn [orb negb]. by rewrite Hw.
Qed.

(** ** Working off what is on its way *)

Definition link_work (r : link) : nat :=
  (list_sum ((λ ms : list ReqMeta, 1 + 51 * length ms) <$> inbox r) +
   match kv_send_thread (rk_worker r) with
   | Some s => 3 * work s + match completed_saves s with [] => 0 | _ => 2 end
   | None => 0
   end)%nat.

Definition system_work (y : system) : nat := (list_sum (link_work <$> ranks y) + length (pending y))%nat.

(** What rank [k] does next, when the store answers by [oracle]. *)
Definition link_event (oracle : sender → option (list Z)) (k : nat) (r : link) : option system_event :=
  match inbox r, kv_send_thread (rk_worker r) with
  | _ :: _, _ => Some (SSave k)
  | [], Some s =>
      match request_queue s, running s, completed_saves s with
      | [], None, [] => None
      | [], None, _ => Some (SCollect k)
      | _, _, _ => Some (SRank k (WSend (reply_for oracle s)))
      end
  | [], None => None
  end.

Definition next_event (oracle : sender → option (list Z)) (y : system) : option system_event :=
  match head (omap (λ e : nat * link, link_event oracle e.1 e.2) (imap pair (ranks y))), pending y with
  | Some e, _ => Some e
  | None, _ :: _ => Some (SComplete 0)
  | None, [] => None
  end.

Fixpoint settle (oracle : sender → option (list Z)) (fuel : nat) (y : system) : system :=
  match fuel with
  | O => y
  | S fuel =>
      match next_event oracle y with
      | None => y
      | Some e => match system_run conv NULL_BLOCK_ID c cs e y with
                  | Some y => settle oracle fuel y
                  | None => y
                  end
      end
  end.

Definition link_settled (r : link) : Prop :=
  inbox r = [] ∧ ∃ s, kv_send_thread (rk_worker r) = Some s ∧ idle s ∧ completed_saves s = [].

Definition settled (y : system) : Prop := (∀ r, r ∈ ranks y → link_settled r) ∧ pending y = [].

Lemma list_sum_insert (l : list link) k r r' :
  l !! k = Some r →
  (list_sum (link_work <$> <[k := r']> l) + link_work r = list_sum (link_work <$> l) + link_work r')%nat.
Proof.
  revert k. induction l as [|x l IH]; intros [|k]; [done..| |].
  - intros [= ->]. change (<[0%nat := r']> (r :: l)) with (r' :: l). rewrite !fmap_cons. cbn [list_sum foldr]. lia.
  - intros Hk%IH. change (<[S k := r']> (x :: l)) with (x :: <[k := r']> l). rewrite !fmap_cons.
    unfold list_sum in *. cbn [foldr]. lia.
Qed.

Lemma link_progress oracle k r y e :
  sys_ok y → ranks y !! k = Some r → link_event oracle k r = Some e →
  ∃ y', system_run conv NULL_BLOCK_ID c cs e y = Some y' ∧ (system_work y' < system_work y)%nat ∧
    finished_tails (sy_sched y') = finished_tails (sy_sched y).
Proof.
  intros Hy Hk He. destruct (link_of y k r Hy Hk) as (s & Hs & Ho). unfold link_event in He.
  destruct (inbox r) as [|ms rest] eqn:Hi.
  2:{ injection He as <-. destruct (save_enabled k r ms rest y Hy Hk Hi) as (s0 & w & s' & Hs0 & Hs' & Hrun & H1 & H2 & H3).
      rewrite Hs in Hs0. injection Hs0 as <-. exists (set_ranks (<[k := mkLink rest w]> (ranks y)) y).
      split_and!; [exact Hrun| |done]. unfold system_work. cbn [ranks pending set_ranks].
      pose proof (list_sum_insert (ranks y) k r (mkLink rest w) Hk) as E.
      assert (link_work (mkLink rest w) < link_work r)%nat; [|lia]. unfold link_work. cbn [inbox rk_worker].
      rewrite Hs, Hs', Hi, H3. unfold work. rewrite H1, H2, length_app, fmap_cons. unfold list_sum at 2. cbn [foldr].
      fold (list_sum ((λ ms0 : list ReqMeta, (1 + 51 * length ms0)%nat) <$> rest)).
      pose proof (length_filter (λ m, Is_true (can_save m)) ms). lia. }
  rewrite Hs in He.
  assert (Hstep : ¬ idle s → e = SRank k (WSend (reply_for oracle s)) → ∃ y', system_run conv NULL_BLOCK_ID c cs e y = Some y' ∧
    (system_work y' < system_work y)%nat ∧ finished_tails (sy_sched y') = finished_tails (sy_sched y)).
  { intros Hni ->. destruct (config_of y k r Hy Hk) as (wc & Hwc & _).
    destruct (thread_progress conv NULL_BLOCK_ID (sends wc) oracle s (proj1 Ho) Hni) as [s' Hs'].
    exists (set_worker k r (set_sender s' (rk_worker r)) y). split_and!; [| |done].
    - cbn [system_run]. unfold rank_step. rewrite Hk, Hwc. cbn [mbind option_bind is_private worker_run].
      rewrite Hs. cbn [mbind option_bind]. by rewrite Hs'.
    - unfold system_work. cbn [ranks pending set_ranks set_worker].
      pose proof (list_sum_insert (ranks y) k r (mkLink (inbox r) (set_sender s' (rk_worker r))) Hk) as E.
      assert (link_work (mkLink (inbox r) (set_sender s' (rk_worker r))) < link_work r)%nat; [|lia].
      unfold link_work. cbn [inbox rk_worker set_sender kv_send_thread]. rewrite Hs, Hi. cbn [fmap list_fmap list_sum foldr].
      apply thread_stepped in Hs'. destruct (stepped_work _ _ _ _ _ _ Hs' (proj1 Ho)) as [Hw _].
      destruct (completed_saves s'), (completed_saves s); lia. }
  destruct (request_queue s) as [|m q] eqn:Eq.
  - destruct (running s) as [t|] eqn:Er.
    + injection He as <-. apply Hstep; [|done]. intros [_ E]. congruence.
    + destruct (completed_saves s) as [|x l] eqn:Ec; [done|]. injection He as <-.
      eexists. split_and!.
      * cbn [system_run]. unfold collect_step. rewrite Hk. cbn [mbind option_bind].
        unfold build_connector_worker_meta. rewrite Hs. cbn [take_completed_saves]. by rewrite Ec.
      * unfold system_work. cbn [ranks pending set_pending set_ranks set_worker].
        rewrite length_app. cbn [length].
        pose proof (list_sum_insert (ranks y) k r (mkLink (inbox r) (set_sender (set_completed_saves (λ _, []) s) (rk_worker r))) Hk) as E.
        unfold link_work in E at 2 4. cbn [inbox rk_worker set_sender kv_send_thread] in E. rewrite Hs, Ec in E.
        unfold work in E. cbn [request_queue running set_completed_saves completed_saves] in E. rewrite Eq, Er in E. lia.
      * done.
  - injection He as <-. apply Hstep; [|by destruct (running s)]. intros [E _]. congruence.
Qed.

Lemma next_progress oracle y e :
  sys_ok y → next_event oracle y = Some e →
  ∃ y', system_run conv NULL_BLOCK_ID c cs e y = Some y' ∧ (system_work y' < system_work y)%nat ∧
    finished_tails (sy_sched y') = finished_tails (sy_sched y).
Proof.
  intros Hy He. unfold next_event in He. destruct (head _) as [e'|] eqn:Eh.
  - injection He as ->. assert (Hin : e ∈ omap (λ x : nat * link, link_event oracle x.1 x.2) (imap pair (ranks y))).
    { destruct (omap _ _) as [|e'' l]; [done|]. injection Eh as ->. apply list_elem_of_here. }
    apply list_elem_of_omap in Hin as ([k r] & Hkr & Hev). apply elem_of_lookup_imap in Hkr as (k' & r' & [= -> ->] & Hk).
    by eapply link_progress.
  - destruct (pending y) as [|l p] eqn:Ep; [done|]. injection He as <-.
    assert (Hi : pending y !! 0%nat = Some l) by by rewrite Ep.
    destruct (complete_ok 0 l y Hy Hi) as (s & Hs & _). exists (set_pending (delete 0%nat (pending y)) (set_sy_sched s y)).
    split_and!.
    + cbn [system_run]. unfold complete_step. rewrite Hi. cbn [mbind option_bind]. by rewrite Hs.
    + unfold system_work. cbn [ranks pending set_pending set_sy_sched]. rewrite Ep. cbn. lia.
    + cbn. unfold update_connector_output in Hs. apply rbind_Ok in Hs as (u & _ & Hs). revert Hs.
      apply (rfold_ind (λ s', finished_tails s' = finished_tails (sy_sched y))); [|done].
      intros s1 [j n] s2 H1 H2. unfold complete_save in H2. destruct (dget (pinned s1) j) as [[ids n']|];
        [|by apply Ok_inj in H2 as <-].
      destruct (0 <? n' - n); [by apply Ok_inj in H2 as <-|]. apply rbind_Ok in H2 as (u' & _ & H2). by apply Ok_inj in H2 as <-.
Qed.

Lemma none_settled oracle y : sys_ok y → next_event oracle y = None → settled y.
Proof.
  intros Hy He. unfold next_event in He.
  destruct (head _) eqn:Eh; [done|]. destruct (pending y) eqn:Ep; [|done]. split; [|done].
  intros r Hr. apply list_elem_of_lookup in Hr as [k Hk]. destruct (link_of y k r Hy Hk) as (s & Hs & _).
  assert (Hn : link_event oracle k r = None).
  { destruct (link_event oracle k r) as [e|] eqn:E; [|done]. exfalso.
    assert (Hin : e ∈ omap (λ x : nat * link, link_event oracle x.1 x.2) (imap pair (ranks y))).
    { apply list_elem_of_omap. exists (k, r). split; [|done]. apply elem_of_lookup_imap. eauto. }
    destruct (omap _ _); [by apply elem_of_nil in Hin|done]. }
  unfold link_event in Hn. rewrite Hs in Hn. destruct (inbox r) as [|ms l] eqn:Hi; [|done]. split; [done|].
  exists s. split; [done|]. destruct (request_queue s) eqn:Eq, (running s) eqn:Er, (completed_saves s) eqn:Ec; try done.
Qed.

Lemma settle_ok oracle fuel y :
  system_reach conv NULL_BLOCK_ID c cs num_recv_threads y → (system_work y ≤ fuel)%nat →
  let y' := settle oracle fuel y in
  system_reach conv NULL_BLOCK_ID c cs num_recv_threads y' ∧ settled y' ∧
  finished_tails (sy_sched y') = finished_tails (sy_sched y).
Proof.
  revert y. induction fuel as [|fuel IH]; intros y Hr Hw; cbn [settle]; cbv zeta.
  - split_and!; [done| |done]. apply (none_settled oracle); [by apply system_ok|].
    destruct (next_event oracle y) as [e|] eqn:E; [|done].
    destruct (next_progress oracle y e (system_ok y Hr) E) as (y' & _ & Hlt & _). lia.
  - destruct (next_event oracle y) as [e|] eqn:E.
    + destruct (next_progress oracle y e (system_ok y Hr) E) as (y' & Hrun & Hlt & Ht). rewrite Hrun.
      destruct (IH y') as (H1 & H2 & H3); [by eapply reach_step|lia|]. split_and!; [done|done|congruence].
    + split_and!; [done| |done]. by apply (none_settled oracle), E; apply system_ok.
Qed.

Lemma settled_no_pins y :
  sys_ok y → settled y → finished_tails (sy_sched y) = [] →
  pinned (sy_sched y) = [] ∧ ∀ b, net b (log (sy_sched y)) = 0.
Proof.
  intros Hy [Hl Hp] Ht. assert (Hz : ∀ j, in_flight j y = 0).
  { intros j. unfold in_flight. rewrite Hp, Ht. change (sumZ (reports j <$> [])) with 0.
    change (cnt (has_job j) ([] : list (string * ReqMeta)).*2) with 0.
    enough (sumZ (at_rank j <$> ranks y) = 0) by lia. revert Hl. generalize (ranks y). intros l.
    induction l as [|r l IH]; intros Hl; [done|]. rewrite fmap_cons, sumZ_cons, IH by set_solver.
    destruct (Hl r ltac:(set_solver)) as (Hi & s & Hs & [Hq Hr] & Hc). unfold at_rank, outstanding.
    by rewrite Hi, Hs, Hq, Hr, Hc. }
  assert (Hpins := ro_pins _ (so_refs _ Hy)). assert (E : pinned (sy_sched y) = []).
  { destruct (pinned (sy_sched y)) as [|[j [ids n]] d] eqn:Ed; [done|].
    assert (Hin : (j, (ids, n)) ∈ pinned (sy_sched y)) by (rewrite Ed; apply list_elem_of_here).
    destruct (po_jobs _ Hpins _ _ _ Hin) as [_ Hpos]. apply elem_of_dget in Hin; [|apply (po_dict _ Hpins)].
    apply (so_count _ Hy) in Hin. rewrite Hz in Hin. lia. }
  split; [done|]. intros b. rewrite (po_net _ Hpins). unfold holders. by rewrite E.
Qed.

End system.

(** Every worker puts and is counted by the scheduler. *)
Definition workers_ok `{M : !Managers} (c : config) (cs : list worker_config) : Prop :=
  num_workers c = zlen cs ∧ cs ≠ [] ∧
  ∀ wc, wc ∈ cs → can_put (flags wc) = true ∧ rk_capacity_only (flags wc) = false.

(** ** An execution

    Two ranks; a full-attention and a Mamba group, both of 8-token blocks with
    hashes of 4 tokens. A request of 12 tokens saves its first block; all is
    reported; it finishes and its tail is registered. *)

#[local] Existing Instance ex_managers.

Definition ex_hybrid_groups : list KVCacheGroupSpec :=
  [mkGroupSpec (Single (mkSpec FullAttentionSpec 8 0)) true 8 false;
   mkGroupSpec (Single (mkSpec (MambaSpec "align") 8 0)) true 8 false].

Definition ex_hybrid_coord : coordinator :=
  match make_coordinator ex_hybrid_groups 8 4 false None 1 with
  | Ok c => c
  | Err _ => mkCoord [] ∅ 0 0 false None [] ∅
  end.

Definition ex_hybrid_db (g base : Z) : token_db :=
  let m := mkKeyMetadata "model" 0 0 0 0 g "" "" in
  mkDb m 8 4 (RankLocal (set_regions [base] [64] (rank_local m 8 4))).

Definition ex_worker_config (tp_rank : Z) : worker_config :=
  let dbs := [ex_hybrid_db 0 1000; ex_hybrid_db 1 9000] in
  mkWorkerConfig (mkFlags true false true)
    (mkSenderConfig ex_hybrid_coord dbs tp_rank [1; 1] [true; true] false false)
    (mkLoadConfig ex_hybrid_coord dbs 8 tp_rank [true; true] None).

Definition ex_workers : list worker_config := [ex_worker_config 0; ex_worker_config 1].

Definition ex_sys_config : config := mkConfig "kv_both" true true false false [0; 1] 8 4 true {[1]} 2.

Definition ex_sys_requests : string → Request :=
  λ _, mkRequest 12 [[10]; [11]; [12]] 0 [1; 2; 3; 4; 5; 6; 7; 8; 9; 10; 11; 12].

Definition ex_first : SchedulerOutput :=
  mkOutput [] [] [mkNewRequest "r" 0 [[5; 6]; [0; 7]] (Some [1; 2; 3; 4; 5; 6; 7; 8; 9; 10; 11; 12]) None]
    [("r", 12)] [] (Some (mkBlockState [] (λ _, Some [[5; 6]; [0; 7]]))).

Definition ex_last : SchedulerOutput := mkOutput ["r"] [] [] [] [] (Some (mkBlockState [] (λ _, None))).

Definition ex_sys (es : list system_event) : system :=
  default (init_system ex_workers 1) (run_all (λ _, 0) 0 ex_sys_config ex_workers es (init_system ex_workers 1)).

Definition ex_saving : list system_event :=
  [SCall ex_sys_requests OBind; SCall ex_sys_requests (OAlloc "r" [[]; []] 0); SBuild ex_sys_requests ex_first].

Definition ex_settled : system :=
  settle (λ _, 0) 0 ex_sys_config ex_workers (λ _, Some [0]) (system_work (ex_sys ex_saving)) (ex_sys ex_saving).

(** The tail goes to rank 0, which finds its two keys missing and puts them. *)
Definition ex_tail_events : list system_event :=
  [STail ex_sys_requests "r" [[5; 6]; [0; 7]] [(1, 7, 12)]; SBuild ex_sys_requests ex_last; SSave 0] ++
  (SRank 0 <$> (WSend <$> [NoReply; NoReply; NoReply; NoReply; Exists (Some [0; 0])])).

Definition ex_tail : system :=
  default ex_settled (run_all (λ _, 0) 0 ex_sys_config ex_workers ex_tail_events ex_settled).

(** The puts a rank's task waits for. *)
Definition waiting_puts `{M : !Managers} (r : link) : option (list put) :=
  s ← kv_send_thread (rk_worker r);
  t ← running s;
  match t_pc t with KBoundaryPut puts => Some puts | _ => None end.

Definition ex_tail_puts : list put :=
  [mkPut "model@tp_rank:0@pcp0@dcp0@pp_rank:0@group:0@0c" [1384] [64] (mkKeyMetadata "model" 0 0 0 0 0 "" "");
   mkPut "model@tp_rank:0@pcp0@dcp0@pp_rank:0@group:1@0c" [9448] [64] (mkKeyMetadata "model" 0 0 0 0 1 "" "")].

Lemma ex_workers_ok : workers_ok ex_sys_config ex_workers.
Proof.
  split; [reflexivity|]. split; [discriminate|]. apply Forall_forall.
  repeat (apply Forall_cons_2; [split; reflexivity|]). apply Forall_nil_2.
Qed.

Lemma run_all_reach `{CD : !CeilDiv} `{M : !Managers} conv NULL_BLOCK_ID c cs n es y y' :
  system_reach conv NULL_BLOCK_ID c cs n y → run_all conv NULL_BLOCK_ID c cs es y = Some y' →
  system_reach conv NULL_BLOCK_ID c cs n y'.
Proof.
  unfold run_all. revert y'. induction es as [|e es IH] using rev_ind; intros y' Hy H.
  - by injection H as <-.
  - rewrite foldl_app in H. cbn [foldl] in H. apply bind_Some in H as (y1 & H1 & H2).
    eapply reach_step; [by apply IH|done].
Qed.

Lemma ex_sys_reach es : is_Some (run_all (λ _, 0) 0 ex_sys_config ex_workers es (init_system ex_workers 1)) →
  system_reach (λ _, 0) 0 ex_sys_config ex_workers 1 (ex_sys es).
Proof. unfold ex_sys. intros [y E]. rewrite E. eapply run_all_reach; [apply reach_init|exact E]. Qed.

Lemma ex_saving_reach : system_reach (λ _, 0) 0 ex_sys_config ex_workers 1 (ex_sys ex_saving).
Proof. apply ex_sys_reach. eexists. reflexivity. Qed.

Lemma ex_settled_reach : system_reach (λ _, 0) 0 ex_sys_config ex_workers 1 ex_settled.
Proof.
  destruct ex_workers_ok as (H1 & H2 & H3). unfold ex_settled.
  exact (proj1 (settle_ok (λ _, 0) 0 ex_sys_config ex_workers 1 H1 H2 H3 (λ _, Some [0]) _ _ ex_saving_reach
    (Nat.le_refl _))).
Qed.

Lemma run_default_reach `{CD : !CeilDiv} `{M : !Managers} conv NULL_BLOCK_ID c cs n es y :
  system_reach conv NULL_BLOCK_ID c cs n y →
  system_reach conv NULL_BLOCK_ID c cs n (default y (run_all conv NULL_BLOCK_ID c cs es y)).
Proof. intros Hy. destruct (run_all _ _ _ _ es y) as [y'|] eqn:E; [by eapply run_all_reach|exact Hy]. Qed.

Lemma ex_tail_reach : system_reach (λ _, 0) 0 ex_sys_config ex_workers 1 ex_tail.
Proof. exact (run_default_reach _ _ _ _ _ ex_tail_events _ ex_settled_reach). Qed.

(** ** The properties *)

(** C23 (safety): however far the ranks lag behind and whatever the store
    answers, as long as a metadata that saves waits at a rank, is queued there
    or is being handled, its store job holds the blocks made for it and they
    stay referenced in the block pool: the boundary states and the blocks of
    the groups saved by position, or of a finished request's tail the
    boundary states. *)
Theorem blocks_held_in_flight `{CD : !CeilDiv} `{M : !Managers} (conv : block_hash → Z)
    (NULL_BLOCK_ID : Z) (c : config) (cs : list worker_config) (n : Z) (y : system) (m : ReqMeta) (r : link) :
  workers_ok c cs → system_reach conv NULL_BLOCK_ID c cs n y → r ∈ ranks y → in_hand m r →
  ∃ j, store_job_id m = Some j ∧ ∀ b, b ∈ needed NULL_BLOCK_ID c m j y →
    held_by (sy_sched y) j b ∧ 0 < net b (log (sy_sched y)).
Proof.
  intros (H1 & H2 & H3) Hy Hr Hm. apply (system_ok _ _ _ _ _ H1 H2 H3) in Hy.
  destruct (so_kept _ _ _ _ Hy m r Hr Hm) as (j & Hj & Hb). exists j. split; [done|]. intros b Hbb.
  split; [by apply Hb|]. eapply held_referenced; [apply (so_refs _ _ _ _ Hy)|by apply Hb].
Qed.

(** (invariant): in every reachable state, the count the scheduler keeps
    for a job is the number of reports still to come, from metadata on its
    way, jobs at the ranks, reports on their way and tails not yet sent; so a
    report on its way is accepted, and a rank can always take its next
    metadata. *)
Theorem reports_exact `{CD : !CeilDiv} `{M : !Managers} (conv : block_hash → Z)
    (NULL_BLOCK_ID : Z) (c : config) (cs : list worker_config) (n : Z) (y : system) :
  workers_ok c cs → system_reach conv NULL_BLOCK_ID c cs n y →
  (∀ j ids k, dget (pinned (sy_sched y)) j = Some (ids, k) → k = in_flight (num_workers c) j y) ∧
  (∀ i, (i < length (pending y))%nat → is_Some (system_run conv NULL_BLOCK_ID c cs (SComplete i) y)) ∧
  (∀ k r, ranks y !! k = Some r → inbox r ≠ [] → is_Some (system_run conv NULL_BLOCK_ID c cs (SSave k) y)).
Proof.
  intros (H1 & H2 & H3) Hy. apply (system_ok _ _ _ _ _ H1 H2 H3) in Hy. split_and!.
  - apply (so_count _ _ _ _ Hy).
  - intros i [l Hi]%lookup_lt_is_Some_2. destruct (complete_ok _ _ _ H1 H2 H3 i l y Hy Hi) as (s & Hs & _).
    cbn. unfold complete_step. rewrite Hi. cbn. rewrite Hs. eauto.
  - intros k r Hk Hi. destruct (inbox r) as [|ms rest] eqn:E; [done|].
    destruct (save_enabled conv _ _ _ H1 H2 H3 k r ms rest y Hy Hk E) as (s & w & s' & _ & _ & H & _). cbn. rewrite H. eauto.
Qed.

(** C24 (liveness): from every reachable state without unsent tails, the
    ranks left alone work off what is on its way in a bounded number of steps,
    whatever the store answers or raises; then the scheduler has no pending
    push work and no block is referenced any more. *)
Theorem system_settles `{CD : !CeilDiv} `{M : !Managers} (conv : block_hash → Z)
    (NULL_BLOCK_ID : Z) (c : config) (cs : list worker_config) (n : Z)
    (oracle : sender → option (list Z)) (y : system) :
  workers_ok c cs → system_reach conv NULL_BLOCK_ID c cs n y → finished_tails (sy_sched y) = [] →
  let y' := settle conv NULL_BLOCK_ID c cs oracle (system_work y) y in
  settled y' ∧ has_pending_push_work (sy_sched y') = false ∧ ∀ b, net b (log (sy_sched y')) = 0.
Proof.
  intros (H1 & H2 & H3) Hy Ht y'.
  destruct (settle_ok conv NULL_BLOCK_ID c cs n H1 H2 H3 oracle (system_work y) y Hy ltac:(lia)) as (Hr & Hs & Ht').
  fold y' in Hr, Hs, Ht'. apply (system_ok _ _ _ _ _ H1 H2 H3) in Hr.
  destruct (settled_no_pins _ _ _ H1 H2 H3 y' Hr Hs) as [Hp Hn]; [by rewrite Ht'|]. split; [done|]. split; [|exact Hn].
  unfold has_pending_push_work. by rewrite Hp.
Qed.

Lemma blocks_held_in_flight_witness :
  ∃ m, head (inbox <$> ranks (ex_sys ex_saving)) = Some [[m]] ∧
    ∃ j, store_job_id m = Some j ∧ ∀ b, b ∈ needed 0 ex_sys_config m j (ex_sys ex_saving) →
      0 < net b (log (sy_sched (ex_sys ex_saving))).
Proof.
  eexists. split; [reflexivity|].
  edestruct (blocks_held_in_flight (λ _, 0) 0 ex_sys_config ex_workers 1 (ex_sys ex_saving)) as (j & Hj & Hb);
    [exact ex_workers_ok|exact ex_saving_reach|apply list_elem_of_here| |exists j; split; [exact Hj|]].
  - left. eexists. split; [apply list_elem_of_here|]. split; [apply list_elem_of_here|reflexivity].
  - intros b H. exact (proj2 (Hb b H)).
Defined.

Lemma reports_exact_witness :
  dget (pinned (sy_sched ex_tail)) 1 = Some ([7], 2) ∧ in_flight 2 1 ex_tail = 2.
Proof.
  assert (E : dget (pinned (sy_sched ex_tail)) 1 = Some ([7], 2)) by (vm_compute; reflexivity). split; [exact E|].
  symmetry. apply (proj1 (reports_exact (λ _, 0) 0 ex_sys_config ex_workers 1 ex_tail ex_workers_ok ex_tail_reach) 1 [7] 2 E).
Defined.

Lemma system_settles_witness :
  has_pending_push_work (sy_sched ex_tail) = true ∧
  has_pending_push_work (sy_sched (settle (λ _, 0) 0 ex_sys_config ex_workers (λ _, None) (system_work ex_tail) ex_tail)) = false.
Proof.
  split; [vm_compute; reflexivity|].
  assert (Ht : finished_tails (sy_sched ex_tail) = []) by (vm_compute; reflexivity).
  exact (proj1 (proj2 (system_settles (λ _, 0) 0 ex_sys_config ex_workers 1 (λ _, None) ex_tail ex_workers_ok
    ex_tail_reach Ht))).
Defined.

(** C25 (error): an execution in which rank 0 waits for the store to copy a
    block that no store job references: the request has finished, its store
    job holds the boundary state only, but the tail also covers a block of the
    full-attention group. *)
Theorem tail_block_unpinned :
  ∃ puts p, workers_ok ex_sys_config ex_workers ∧
    system_reach (λ _, 0) 0 ex_sys_config ex_workers 1 ex_tail ∧
    head (ranks ex_tail) ≫= waiting_puts = Some puts ∧ p ∈ puts ∧
    prepare_value_for_block (ex_hybrid_db 0 1000) 6 = Ok (p_addr p, p_size p) ∧
    dget (trackers (sy_sched ex_tail)) "r" = None ∧ net 6 (log (sy_sched ex_tail)) = 0.
Proof.
  exists ex_tail_puts, (mkPut "model@tp_rank:0@pcp0@dcp0@pp_rank:0@group:0@0c" [1384] [64]
    (mkKeyMetadata "model" 0 0 0 0 0 "" "")).
  split; [exact ex_workers_ok|]. split; [exact ex_tail_reach|].
  assert (E : head (ranks ex_tail) ≫= waiting_puts = Some ex_tail_puts) by (vm_compute; reflexivity).
  split; [exact E|]. split; [apply list_elem_of_here|]. split; [vm_compute; reflexivity|].
  split; vm_compute; reflexivity.
Qed.
