(* ===== verification/Workspace.v ===== *)
(** * Codec workspace

    [kvserve_v1/compression/runtime/memory.py]: the best-fit allocator that
    serves nvCOMP from a fixed byte buffer ([FixedWorkspaceAllocator]), the
    accounting allocator of the sizing probe ([_AuditAllocator]) and the
    process-wide registry that routes a request to its stream's allocator.

    A live allocation is a [_PoolAllocation] object; its finalizer releases it
    once. The allocator and its live allocations form the state of a step
    relation whose reachable states are shown to be safe. *)

From S2P Require Import Prelude RtLayout.

(** ** FixedWorkspaceAllocator *)

Module Pool.

(** A segment is an offset and a length. *)
Abbreviation segment := (Z * Z)%type.

Definition init_free (numel : Z) : list segment := [(0, numel)].

(** Tuples [(length, index, offset)] compare lexicographically. *)
Definition cand_ltb (x y : Z * nat * Z) : bool :=
  let '(l1, i1, o1) := x in
  let '(l2, i2, o2) := y in
  (l1 <? l2) || ((l1 =? l2) && ((i1 <? i2)%nat || ((i1 =? i2)%nat && (o1 <? o2)))).

(** Python's [min] of a non-empty list: the first smallest element. *)
Fixpoint py_min {A} (ltb : A → A → bool) (x : A) (l : list A) : A :=
  match l with
  | [] => x
  | y :: l => py_min ltb (if ltb y x then y else x) l
  end.

Definition candidates (size : Z) (free : list segment) : list (Z * nat * Z) :=
  filter (λ c, size ≤ c.1.1) (imap (λ index s, (s.2, index, s.1)) free).

(** [__call__]: the new free list and the allocation. *)
Definition alloc (nbytes : Z) (free : list segment) : result (list segment * segment) :=
  let size := round_up nbytes ALIGNMENT in
  match candidates size free with
  | [] => Err (ValueError "min() arg is an empty sequence")
  | c :: cs =>
      let '(length, index, offset) := py_min cand_ltb c cs in
      let rest := delete index free in
      Ok (if size <? length then rest ++ [(offset + size, length - size)] else rest,
          (offset, size))
  end.

Definition seg_leb (x y : segment) : bool :=
  (x.1 <? y.1) || ((x.1 =? y.1) && (x.2 <=? y.2)).

(** One turn of the merging loop. *)
Definition merge_step (merged : list segment) (cur : segment) : list segment :=
  match last merged with
  | Some (o, n) =>
      if o + n =? cur.1 then removelast merged ++ [(o, n + cur.2)] else merged ++ [cur]
  | None => [cur]
  end.

Definition release (offset nbytes : Z) (free : list segment) : list segment :=
  foldl merge_step [] (isort seg_leb (free ++ [(offset, nbytes)])).

(** ** The allocator with its live allocations *)

Record state := mkState { free : list segment; live : list segment }.

(** [least] bounds the requests from below. *)
Inductive step (least : Z) : state → state → Prop :=
  | step_alloc nbytes f a f' lv :
      least ≤ nbytes → alloc nbytes f = Ok (f', a) →
      step least (mkState f lv) (mkState f' (a :: lv))
  | step_release o n f lv1 lv2 :
      step least (mkState f (lv1 ++ (o, n) :: lv2)) (mkState (release o n f) (lv1 ++ lv2)).

Definition reachable (least numel : Z) : state → Prop :=
  rtc (step least) (mkState (init_free numel) []).

(** ** Coverage

    How many of the segments hold byte [b]. *)
Definition cov (l : list segment) (b : Z) : Z := sumZ ((λ s, ind s.1 s.2 b) <$> l).

Lemma cov_app l1 l2 b : cov (l1 ++ l2) b = cov l1 b + cov l2 b.
Proof. unfold cov. by rewrite fmap_app, sumZ_app. Qed.

Lemma cov_cons s l b : cov (s :: l) b = ind s.1 s.2 b + cov l b.
Proof. done. Qed.

Lemma cov_nil b : cov [] b = 0.
Proof. done. Qed.

Lemma cov_nonneg l b : 0 ≤ cov l b.
Proof.
  unfold cov. apply sumZ_nonneg, Forall_fmap, Forall_true. intros. simpl.
  apply ind_nonneg.
Qed.

#[global] Instance cov_Proper : Proper ((≡ₚ) ==> (=) ==> (=)) cov.
Proof. intros l1 l2 Hl ? b ->. unfold cov. by rewrite Hl. Qed.

Lemma cov_elem l s b : s ∈ l → ind s.1 s.2 b ≤ cov l b.
Proof.
  intros [l1 [l2 ->]]%list_elem_of_split. rewrite cov_app, cov_cons.
  pose proof (cov_nonneg l1 b). pose proof (cov_nonneg l2 b). lia.
Qed.

(** The safety invariant: every byte of the buffer is in exactly one segment,
    free or live, no byte outside it is in any, and offsets are aligned. *)
Record inv (numel : Z) (s : state) : Prop := {
  inv_cov : ∀ b, cov (free s ++ live s) b = ind 0 numel b;
  inv_len : Forall (λ x, 0 ≤ x.2) (free s ++ live s);
  inv_align : Forall (λ x, (ALIGNMENT | x.1)) (free s ++ live s);
  inv_size : Forall (λ x, (ALIGNMENT | x.2)) (live s)
}.

(** ** Allocation *)

Lemma candidates_elem size f l i o :
  (l, i, o) ∈ candidates size f ↔ size ≤ l ∧ f !! i = Some (o, l).
Proof.
  unfold candidates. rewrite list_elem_of_filter, elem_of_lookup_imap. simpl.
  split; [intros [? (j & [o' l'] & [= -> -> ->] & ?)]; done|].
  intros [??]. split; [done|]. by exists i, (o, l).
Qed.

Lemma py_min_elem {A} (ltb : A → A → bool) x l : py_min ltb x l ∈ x :: l.
Proof.
  revert x. induction l as [|y l IH]; simpl; intros x; [left|].
  specialize (IH (if ltb y x then y else x)). case_bool; set_solver.
Qed.

(** [min] returns a smallest element of a list under a strict weak order. *)
Lemma py_min_least {A} (ltb : A → A → bool) x l y :
  (∀ a b c, ltb a b = false → ltb b c = false → ltb a c = false) →
  (∀ a b, ltb a b = true → ltb b a = false) →
  (∀ a, ltb a a = false) →
  y ∈ x :: l → ltb y (py_min ltb x l) = false.
Proof.
  intros Htr Has Hirr. revert x.
  assert (Hle : ∀ l x, ltb x (py_min ltb x l) = false).
  { clear -Htr Has Hirr. induction l as [|z l IH]; simpl; intros x; [done|].
    case_bool; [|done]. eapply Htr; [|apply IH]. auto. }
  induction l as [|z l IH]; simpl; intros x Hy.
  - apply list_elem_of_singleton in Hy as ->. done.
  - apply elem_of_cons in Hy as [->|Hy].
    + case_bool; [|apply Hle]. eapply Htr; [|apply Hle]. auto.
    + apply elem_of_cons in Hy as [->|Hy]; [|apply IH; by right].
      case_bool; [apply Hle|]. eapply Htr; [eassumption|apply Hle].
Qed.

Lemma cand_ltb_spec l1 i1 o1 l2 i2 o2 :
  cand_ltb (l1, i1, o1) (l2, i2, o2) = true ↔
  l1 < l2 ∨ (l1 = l2 ∧ ((i1 < i2)%nat ∨ (i1 = i2 ∧ o1 < o2))).
Proof.
  unfold cand_ltb. rewrite !orb_true_iff, !andb_true_iff, !orb_true_iff,
    !andb_true_iff, !Z.ltb_lt, !Z.eqb_eq, Nat.ltb_lt, Nat.eqb_eq. done.
Qed.

Lemma cand_least x l y : y ∈ x :: l → cand_ltb y (py_min cand_ltb x l) = false.
Proof.
  apply py_min_least.
  - intros [[??]?] [[??]?] [[??]?]. rewrite <- !not_true_iff_false, !cand_ltb_spec. lia.
  - intros [[??]?] [[??]?]. rewrite <- not_true_iff_false, !cand_ltb_spec. lia.
  - intros [[??]?]. rewrite <- not_true_iff_false, !cand_ltb_spec. lia.
Qed.

(** What a successful allocation did: it took the segment at [index], whose
    length [len] is least among those that fit, and put the rest back. *)
Lemma alloc_Ok nbytes f f' o n :
  alloc nbytes f = Ok (f', (o, n)) →
  n = round_up nbytes ALIGNMENT ∧
  ∃ index len, f !! index = Some (o, len) ∧ n ≤ len ∧
    (∀ j o' len', f !! j = Some (o', len') → n ≤ len' → len ≤ len') ∧
    f' = delete index f ++ (if n <? len then [(o + n, len - n)] else []).
Proof.
  unfold alloc. destruct (candidates _ f) as [|c cs] eqn:E; [done|].
  destruct (py_min cand_ltb c cs) as [[len index] off] eqn:Em.
  intros [= <- <- <-]. split; [done|].
  pose proof (py_min_elem cand_ltb c cs) as Hin. rewrite Em, <- E in Hin.
  apply candidates_elem in Hin as [??]. exists index, len. split_and!; try done.
  - intros j o' len' Hj Hle.
    assert ((len', j, o') ∈ c :: cs) as Hc
      by (rewrite <- E; by apply candidates_elem).
    apply cand_least in Hc. rewrite Em in Hc.
    apply not_true_iff_false in Hc. rewrite cand_ltb_spec in Hc. lia.
  - case_bool; [done|by rewrite app_nil_r].
Qed.

Lemma alloc_Err nbytes f e :
  alloc nbytes f = Err e →
  ∀ j o len, f !! j = Some (o, len) → len < round_up nbytes ALIGNMENT.
Proof.
  unfold alloc. destruct (candidates _ f) as [|c cs] eqn:E.
  - intros _ j o len Hj. destruct (decide (round_up nbytes ALIGNMENT ≤ len)); [|lia].
    assert ((len, j, o) ∈ candidates (round_up nbytes ALIGNMENT) f) as Hc
      by by apply candidates_elem. rewrite E in Hc. set_solver.
  - by destruct (py_min _ _ _) as [[??]?].
Qed.

Lemma delete_split {A} (f : list A) i x :
  f !! i = Some x → f ≡ₚ x :: delete i f.
Proof. intros. by apply delete_Permutation. Qed.

Lemma alloc_perm nbytes f f' o n :
  alloc nbytes f = Ok (f', (o, n)) →
  ∃ len rest, n ≤ len ∧ f ≡ₚ (o, len) :: rest ∧
    f' = rest ++ (if n <? len then [(o + n, len - n)] else []).
Proof.
  intros (_ & i & len & Hi & Hle & _ & ->)%alloc_Ok.
  exists len, (delete i f). split_and!; [done|by apply delete_split|done].
Qed.

Lemma inv_alloc numel nbytes f a f' lv :
  0 ≤ nbytes → alloc nbytes f = Ok (f', a) →
  inv numel (mkState f lv) → inv numel (mkState f' (a :: lv)).
Proof.
  destruct a as [o n]. intros Hnb Hal [Hc Hl Ha Hs]. simpl in *.
  assert (Hn : n = round_up nbytes ALIGNMENT) by by apply alloc_Ok in Hal as [-> _].
  apply alloc_perm in Hal as (len & rest & Hle & Hp & ->).
  pose proof (round_up_ge ALIGNMENT ALIGNMENT_pos nbytes).
  assert ((ALIGNMENT | n)) by (rewrite Hn; auto with kvs).
  rewrite Hp in Hl, Ha. apply Forall_cons in Ha as [Hao Ha]. apply Forall_cons in Hl as [_ Hl].
  apply Forall_app in Ha as [??]. apply Forall_app in Hl as [??]. simpl in *.
  constructor; simpl.
  - intros b. rewrite <- Hc, Hp. rewrite ?cov_app, ?cov_cons, ?cov_app. simpl.
    case_bool; zbool; unfold cov at 2; csimpl.
    + pose proof (ind_split o n (len - n) b). replace (n + (len - n)) with len in * by lia. lia.
    + replace len with n by lia. lia.
  - repeat (apply Forall_app; split); try done; [|constructor; simpl; [lia|done]].
    case_bool; zbool; repeat constructor. simpl. lia.
  - repeat (apply Forall_app; split); try done; [|by constructor].
    case_bool; repeat constructor. simpl. by apply Z.divide_add_r.
  - by constructor.
Qed.

(** ** Release *)

Lemma last_split {A} (l : list A) x : last l = Some x → l = removelast l ++ [x].
Proof. intros [l' ->]%last_Some. by rewrite removelast_last. Qed.

Lemma merge_step_cov acc c b :
  Forall (λ x, 0 ≤ x.2) acc → 0 ≤ c.2 →
  cov (merge_step acc c) b = cov acc b + ind c.1 c.2 b.
Proof.
  intros Hacc Hc. unfold merge_step. destruct (last acc) as [[o n]|] eqn:E.
  - apply last_split in E. rewrite E in Hacc. apply Forall_app in Hacc as [_ Hn].
    apply Forall_cons in Hn as [Hn _]. simpl in Hn.
    assert (cov acc b = cov (removelast acc) b + ind o n b) as ->
      by (rewrite E at 1; rewrite cov_app, cov_cons, cov_nil; simpl; lia).
    case_bool; zbool; rewrite cov_app, cov_cons, cov_nil.
    + pose proof (ind_split o n c.2 b) as Hs. simpl. replace (o + n) with c.1 in Hs. lia.
    + assert (cov acc b = cov (removelast acc) b + ind o n b) as ->
        by (rewrite E at 1; rewrite cov_app, cov_cons, cov_nil; simpl; lia). lia.
  - apply last_None in E as ->. rewrite cov_cons, cov_nil. lia.
Qed.

(** Merging keeps any property of segments that joining adjacent ones keeps. *)
Lemma merge_step_Forall (P : segment → Prop) acc c :
  (∀ o n n', P (o, n) → P (o + n, n') → P (o, n + n')) →
  Forall P acc → P c → Forall P (merge_step acc c).
Proof.
  intros Hj Hacc Hc. unfold merge_step. destruct (last acc) as [[o n]|] eqn:E; [|by constructor].
  case_bool; zbool; [|apply Forall_app; split; [done|by constructor]].
  apply last_split in E. rewrite E in Hacc. apply Forall_app in Hacc as [? Hn].
  apply Forall_app. split; [done|]. apply Forall_cons in Hn as [Hn _].
  constructor; [|done]. apply Hj; [done|]. destruct c; simpl in *; by subst.
Qed.

Lemma merge_Forall (P : segment → Prop) acc l :
  (∀ o n n', P (o, n) → P (o + n, n') → P (o, n + n')) →
  Forall P acc → Forall P l → Forall P (foldl merge_step acc l).
Proof.
  intros Hj Hacc Hl. revert acc Hacc. induction Hl; simpl; [done|].
  auto using merge_step_Forall.
Qed.

Lemma merge_cov acc l b :
  Forall (λ x, 0 ≤ x.2) acc → Forall (λ x, 0 ≤ x.2) l →
  cov (foldl merge_step acc l) b = cov acc b + cov l b.
Proof.
  intros Hacc Hl. revert acc Hacc. induction Hl as [|c l Hc Hl IH]; simpl; intros acc Hacc.
  - rewrite cov_nil. lia.
  - rewrite IH, merge_step_cov, cov_cons; [lia|done..|].
    apply merge_step_Forall; [simpl; lia|done..].
Qed.

Lemma release_cov o n f b :
  Forall (λ x, 0 ≤ x.2) f → 0 ≤ n → cov (release o n f) b = cov f b + ind o n b.
Proof.
  intros Hf Hn. unfold release. rewrite merge_cov; [|constructor|].
  - rewrite isort_perm, cov_app, cov_cons, !cov_nil. simpl. lia.
  - rewrite isort_perm. apply Forall_app. split; [done|]. by constructor.
Qed.

Lemma release_Forall (P : segment → Prop) o n f :
  (∀ o n n', P (o, n) → P (o + n, n') → P (o, n + n')) →
  Forall P f → P (o, n) → Forall P (release o n f).
Proof.
  intros Hj Hf Hn. apply merge_Forall; [done|constructor|].
  rewrite isort_perm. apply Forall_app. auto.
Qed.

Lemma inv_release numel o n f lv1 lv2 :
  inv numel (mkState f (lv1 ++ (o, n) :: lv2)) →
  inv numel (mkState (release o n f) (lv1 ++ lv2)).
Proof.
  intros [Hc Hl Ha Hs]. simpl in *. rewrite <- Permutation_middle in *.
  apply Forall_app in Hl as [Hlf Hl]. apply Forall_cons in Hl as [Hn Hl].
  apply Forall_app in Ha as [Haf Ha]. apply Forall_cons in Ha as [Hao Ha].
  apply Forall_cons in Hs as [_ Hs]. simpl in *. constructor; simpl; [|..|done].
  - intros b. specialize (Hc b).
    rewrite <- Permutation_middle, cov_app, cov_cons in Hc. simpl in Hc.
    rewrite cov_app, release_cov by done. lia.
  - apply Forall_app. split; [|done]. apply release_Forall; simpl; [lia|done..].
  - apply Forall_app. split; [|done]. by apply release_Forall.
Qed.

Lemma reachable_inv least numel s :
  0 ≤ least → 0 ≤ numel → reachable least numel s → inv numel s.
Proof.
  intros Hleast Hn. revert s. apply rtc_ind_r.
  - constructor; simpl.
    + intros b. rewrite cov_cons, cov_nil. simpl. lia.
    + by constructor.
    + constructor; [apply Z.divide_0_r|done].
    + constructor.
  - intros y z _ Hst Hi. inversion Hst; subst.
    + eapply inv_alloc; [|done..]. lia.
    + by apply inv_release.
Qed.

(** ** Full coalescing *)

Lemma cov_pos l b : 0 < cov l b → ∃ s, s ∈ l ∧ s.1 ≤ b < s.1 + s.2.
Proof.
  induction l as [|s l IH]; [done|]. rewrite cov_cons. intros H.
  destruct (ind_spec s.1 s.2 b) as [[? _]|[? Hz]].
  - exists s. split; [left|done].
  - destruct IH as (s' & ? & ?); [lia|]. exists s'. split; [by right|done].
Qed.

Lemma seg_leb_total x y : seg_leb x y = true ∨ seg_leb y x = true.
Proof. unfold seg_leb. rewrite !orb_true_iff, !andb_true_iff, !Z.ltb_lt, !Z.eqb_eq, !Z.leb_le. lia. Qed.

Lemma seg_leb_trans x y z : seg_leb x y = true → seg_leb y z = true → seg_leb x z = true.
Proof. unfold seg_leb. rewrite !orb_true_iff, !andb_true_iff, !Z.ltb_lt, !Z.eqb_eq, !Z.leb_le. lia. Qed.

(** Sorted, non-empty segments that cover an interval exactly once tile it. *)
Lemma sorted_cov_tiled l lo hi :
  StronglySorted (leb_rel seg_leb) l → Forall (λ x, 0 < x.2) l → lo ≤ hi →
  (∀ b, cov l b = ind lo (hi - lo) b) → tiled lo l hi.
Proof.
  intros Hs. revert lo. induction Hs as [|[o n] l Hs IH Hle]; intros lo Hpos Hlh Hcov.
  - simpl. specialize (Hcov lo). destruct (ind_spec lo (hi - lo) lo); unfold cov in Hcov; simpl in Hcov; lia.
  - apply Forall_cons in Hpos as [Hn Hpos]. simpl in Hn.
    assert (Hin : ∀ b, o ≤ b < o + n → lo ≤ b < hi).
    { intros b Hb. specialize (Hcov b). rewrite cov_cons in Hcov. simpl in Hcov.
      pose proof (cov_nonneg l b). destruct (ind_spec o n b), (ind_spec lo (hi - lo) b); lia. }
    assert (o = lo) as ->.
    { pose proof (Hin o ltac:(lia)). specialize (Hcov lo).
      destruct (cov_pos ((o, n) :: l) lo) as (s & Hsl & Hsb).
      { rewrite Hcov. destruct (ind_spec lo (hi - lo) lo); lia. }
      apply elem_of_cons in Hsl as [->|Hsl]; simpl in *; [lia|].
      rewrite Forall_forall in Hle. specialize (Hle s Hsl). unfold leb_rel, seg_leb in Hle.
      rewrite orb_true_iff, andb_true_iff, Z.ltb_lt, Z.eqb_eq in Hle. simpl in Hle. lia. }
    pose proof (Hin (lo + n - 1) ltac:(lia)).
    simpl. split_and!; [done|done|]. apply IH; [done|lia|].
    intros b. specialize (Hcov b). rewrite cov_cons in Hcov. simpl in Hcov.
    pose proof (ind_split lo n (hi - (lo + n)) b) as Hsp.
    replace (n + (hi - (lo + n))) with (hi - lo) in Hsp by lia. lia.
Qed.

Lemma merge_tiled lo mid l hi :
  tiled mid l hi → foldl merge_step [(lo, mid - lo)] l = [(lo, hi - lo)].
Proof.
  revert mid. induction l as [|[o n] l IH]; simpl; intros mid; [by intros ->|].
  intros (-> & Hn & Ht). unfold merge_step at 2. simpl.
  rewrite (proj2 (Z.eqb_eq _ _)) by lia. simpl.
  replace (mid - lo + n) with (mid + n - lo) by lia. by apply IH.
Qed.

Lemma merge_all l numel : 0 < numel → tiled 0 l numel → foldl merge_step [] l = [(0, numel)].
Proof.
  destruct l as [|[o n] l]; simpl; [lia|]. intros Hn (-> & _ & Ht).
  pose proof (merge_tiled 0 (0 + n) l numel Ht) as H.
  by replace (0 + n - 0) with n in H by lia; replace (numel - 0) with numel in H by lia.
Qed.

Definition positive (s : state) : Prop := Forall (λ x : segment, 0 < x.2) (free s ++ live s).

Lemma positive_step numel s s' :
  inv numel s → positive s → step 1 s s' → positive s'.
Proof.
  unfold positive. intros Hinv H Hst. inversion Hst as [nbytes f [o n] f' lv Hnb Hal|]; subst; simpl in *.
  - assert (n = round_up nbytes ALIGNMENT) by by apply alloc_Ok in Hal as [-> _].
    pose proof (round_up_ge ALIGNMENT ALIGNMENT_pos nbytes).
    apply alloc_perm in Hal as (len & rest & Hle & Hp & ->). rewrite Hp in H.
    apply Forall_cons in H as [_ H]. apply Forall_app in H as [??].
    repeat (apply Forall_app; split); try done; [|constructor; simpl; [lia|done]].
    case_bool; zbool; repeat constructor. simpl. lia.
  - rewrite <- Permutation_middle in H. apply Forall_app in H as [? H].
    apply Forall_cons in H as [??]. apply Forall_app. split; [|done].
    apply release_Forall; simpl; [lia|done..].
Qed.

Lemma coalesced numel s :
  0 < numel → reachable 1 numel s →
  positive s ∧ (live s = [] → free s = [(0, numel)]).
Proof.
  intros Hn. revert s. apply rtc_ind_r.
  - split; [|done]. unfold positive, init_free. simpl. constructor; [simpl; lia|done].
  - intros y z Hxy Hyz [Hpos _].
    assert (Hiy : inv numel y) by (eapply (reachable_inv 1); [lia|lia|done]).
    assert (Hiz : inv numel z)
      by (eapply (reachable_inv 1); [lia|lia|by eapply rtc_r]).
    split; [exact (positive_step _ _ _ Hiy Hpos Hyz)|]. intros Hlive.
    inversion Hyz as [|o n f lv1 lv2]; subst; [done|]. simpl in *.
    apply app_eq_nil in Hlive as [-> ->]. simpl in *. unfold release.
    apply merge_all; [done|]. destruct Hiy as [Hc _ _ _]. simpl in Hc.
    apply sorted_cov_tiled; [|rewrite isort_perm; exact Hpos|lia|].
    + apply isort_sorted; [apply seg_leb_total|apply seg_leb_trans].
    + intros b. rewrite isort_perm, Z.sub_0_r. apply Hc.
Qed.

End Pool.

(** ** _AuditAllocator

    The accounting allocator of the sizing probe. *)
Module Audit_alloc.

Record audit_state := mkAudit { live_bytes : Z; peak_bytes : Z; requests : list Z }.

Definition audit_init : audit_state := mkAudit 0 0 [].

(** [__call__] and, at the allocation's finalizer, [release] of the bytes
    accounted for it. *)
Definition audit_call (nbytes : Z) (s : audit_state) : audit_state :=
  let accounted := round_up nbytes ALIGNMENT in
  let live := live_bytes s + accounted in
  mkAudit live (Z.max (peak_bytes s) live) (requests s ++ [nbytes]).

Definition audit_release (nbytes : Z) (s : audit_state) : audit_state :=
  mkAudit (live_bytes s - nbytes) (peak_bytes s) (requests s).

Inductive op := Call (nbytes : Z) | Release (accounted : Z).

Definition apply_op (s : audit_state) (o : op) : audit_state :=
  match o with
  | Call n => audit_call n s
  | Release n => audit_release n s
  end.

(** The live bytes after each prefix of the operations, the first included. *)
Fixpoint history (s : audit_state) (ops : list op) : list Z :=
  live_bytes s ::
  match ops with
  | [] => []
  | o :: ops => history (apply_op s o) ops
  end.

Definition op_ok (o : op) : Prop :=
  match o with Call _ => True | Release n => 0 ≤ n end.

Lemma peak_history s ops :
  Forall op_ok ops → live_bytes s ≤ peak_bytes s →
  let s' := foldl apply_op s ops in
  peak_bytes s' = foldr Z.max (peak_bytes s) (history s ops).
Proof.
  intros Hops. revert s. induction Hops as [|o ops Ho Hops IH]; simpl; intros s Hs; [lia|].
  destruct o as [n|n]; simpl in *.
  - rewrite IH by (simpl; lia). simpl. clear IH.
    set (v := live_bytes s + round_up n ALIGNMENT).
    assert (∀ l a, v ∈ l → foldr Z.max (Z.max a v) l = foldr Z.max a l ∧ v ≤ foldr Z.max a l)
      as Hm.
    { clear. intros l a. induction l as [|x l IH]; simpl; [set_solver|].
      intros [<-|Hin]%elem_of_cons.
      - assert (∀ l, foldr Z.max (Z.max a v) l = Z.max v (foldr Z.max a l)) as Hf
          by (clear; induction l as [|x l IH]; simpl; lia).
        rewrite Hf. lia.
      - destruct (IH Hin) as [-> ?]. lia. }
    assert (v ∈ history (audit_call n s) ops) as Hv by (destruct ops; left).
    assert (∀ l a, a ≤ foldr Z.max a l) as Hge
      by (clear; induction l as [|x l IH]; simpl; intros; [lia|specialize (IH a); lia]).
    destruct (Hm _ (peak_bytes s) Hv) as [-> _].
    specialize (Hge (history (audit_call n s) ops) (peak_bytes s)). lia.
  - rewrite IH by (simpl; lia). simpl.
    assert (∀ l a, a ≤ foldr Z.max a l) as Hge
      by (clear; induction l as [|x l IH]; simpl; intros; [lia|specialize (IH a); lia]).
    specialize (Hge (history (audit_release n s) ops) (peak_bytes s)). lia.
Qed.

End Audit_alloc.

(** ** The registry of stream allocators *)
Module Registry.

(** The module globals: the allocator of each stream, and whether nvCOMP's
    process-wide allocator is [_allocate_workspace]. *)
Record registry_state (A : Type) := mkReg { allocators : gmap Z A; installed : bool }.
Arguments mkReg {A}.
Arguments allocators {A}.
Arguments installed {A}.

Section registry.
Context {A : Type}.
Implicit Types s : registry_state A.

Definition register (new : gmap Z A) s : result (registry_state A) :=
    raise_if (negb (bool_decide (dom (allocators s) ∩ dom new = (∅ : gset Z))))
      (RuntimeError "nvCOMP stream already has a workspace allocator") ;?
    Ok (mkReg (new ∪ allocators s)
          (if bool_decide (allocators s = ∅) then true else installed s)).

Definition unregister (streams : list Z) s : registry_state A :=
    let left := foldr delete (allocators s) streams in
    mkReg left (if bool_decide (left = ∅) then false else installed s).

  (** [_allocate_workspace]: the stream's allocator, or [None] for the
      external fallback allocation. *)
Definition route (stream : Z) s : option A := allocators s !! stream.

  (** nvCOMP's allocator is installed exactly while some stream has one. *)
Definition reg_ok s : Prop := installed s = true ↔ allocators s ≠ ∅.

Lemma register_Ok new s s' :
    register new s = Ok s' →
    dom (allocators s) ∩ dom new = (∅ : gset Z) ∧ allocators s' = new ∪ allocators s.
  Proof.
    unfold register. intros H. inv_ok. split; [|done].
    match goal with H : negb _ = false |- _ =>
      by apply negb_false_iff, bool_decide_eq_true in H end.
  Qed.

Lemma foldr_delete_lookup (m : gmap Z A) l k :
    foldr delete m l !! k = if decide (k ∈ l) then None else m !! k.
  Proof.
    induction l as [|x l IH]; cbn [foldr].
    - rewrite decide_False; [done|]. set_solver.
    - destruct (decide (x = k)) as [->|].
      + rewrite lookup_delete_eq, decide_True; [done|]. by left.
      + rewrite lookup_delete_ne, IH by done. apply decide_ext.
        rewrite elem_of_cons. naive_solver.
  Qed.
End registry.

End Registry.

(** ** Properties *)

(** C7 nvCOMP memory safety: in every reachable state of a slot's workspace,
    two live allocations share no byte, every non-empty one lies inside the
    buffer, all are 256-byte aligned, and no free segment overlaps a live
    one. *)
Theorem workspace_safe numel s :
  0 ≤ numel → Pool.reachable 0 numel s →
  (∀ i j a a' b, i ≠ j → Pool.live s !! i = Some a → Pool.live s !! j = Some a' →
    ¬ (a.1 ≤ b < a.1 + a.2 ∧ a'.1 ≤ b < a'.1 + a'.2)) ∧
  (∀ a f b, a ∈ Pool.live s → f ∈ Pool.free s →
    ¬ (a.1 ≤ b < a.1 + a.2 ∧ f.1 ≤ b < f.1 + f.2)) ∧
  (∀ a, a ∈ Pool.live s → (ALIGNMENT | a.1) ∧ (0 < a.2 → 0 ≤ a.1 ∧ a.1 + a.2 ≤ numel)).
Proof.
  intros Hn Hr. destruct (Pool.reachable_inv 0 numel s) as [Hc Hl Ha _]; [lia|done..|].
  setoid_rewrite Pool.cov_app in Hc. split_and!.
  - intros i j a a' b Hij Hi Hj [??].
    specialize (Hc b). rewrite (delete_Permutation _ _ _ Hi), Pool.cov_cons in Hc.
    assert (a' ∈ delete i (Pool.live s)) as Hin.
    { apply list_elem_of_lookup. destruct (decide (j < i)%nat).
      - exists j. by rewrite list_lookup_delete_lt.
      - exists (j - 1)%nat. rewrite list_lookup_delete_ge by lia.
        by replace (S (j - 1)) with j by lia. }
    pose proof (Pool.cov_elem _ _ b Hin). pose proof (Pool.cov_nonneg (Pool.free s) b).
    destruct (ind_spec a.1 a.2 b), (ind_spec a'.1 a'.2 b), (ind_spec 0 numel b); lia.
  - intros a f b Hia Hif [??]. specialize (Hc b).
    pose proof (Pool.cov_elem _ _ b Hia). pose proof (Pool.cov_elem _ _ b Hif).
    destruct (ind_spec a.1 a.2 b), (ind_spec f.1 f.2 b), (ind_spec 0 numel b); lia.
  - intros a Hia. apply Forall_app in Ha as [_ Ha]. rewrite Forall_forall in Ha.
    split; [by apply Ha|]. intros Hpos.
    pose proof (Hc a.1) as H1. pose proof (Hc (a.1 + a.2 - 1)) as H2.
    pose proof (Pool.cov_elem _ _ a.1 Hia). pose proof (Pool.cov_elem _ _ (a.1 + a.2 - 1) Hia).
    pose proof (Pool.cov_nonneg (Pool.free s) a.1).
    pose proof (Pool.cov_nonneg (Pool.free s) (a.1 + a.2 - 1)).
    destruct (ind_spec a.1 a.2 a.1), (ind_spec a.1 a.2 (a.1 + a.2 - 1)),
      (ind_spec 0 numel a.1), (ind_spec 0 numel (a.1 + a.2 - 1)); lia.
Qed.

(** Two requests, then the first is released. *)
Definition ws_example : Pool.state :=
  Pool.mkState (Pool.release 0 256 [(768, 1280)]) [(256, 512)].

Lemma ws_example_reachable least : least ≤ 200 → Pool.reachable least 2048 ws_example.
Proof.
  intros Hl. unfold Pool.reachable.
  eapply rtc_l; [apply (Pool.step_alloc least 200 _ (0, 256) [(256, 1792)]); [lia|done]|].
  eapply rtc_l; [apply (Pool.step_alloc least 300 _ (256, 512) [(768, 1280)]); [lia|done]|].
  eapply rtc_l; [apply (Pool.step_release least 0 256 _ [(256, 512)] [])|]. apply rtc_refl.
Defined.

Lemma workspace_safe_witness :
  Pool.live ws_example = [(256, 512)] ∧
  ∀ a, a ∈ Pool.live ws_example → (ALIGNMENT | a.1) ∧ (0 < a.2 → 0 ≤ a.1 ∧ a.1 + a.2 ≤ 2048).
Proof.
  split; [reflexivity|].
  apply (workspace_safe 2048 ws_example); [lia|apply ws_example_reachable; lia].
Defined.

(** Best fit: a request of [nbytes] is served exactly when some free
    segment holds [nbytes] rounded up to 256, from a segment of least length
    among those, whose remainder goes back to the free list; otherwise the
    allocator raises and every free segment is too short. *)
Theorem alloc_best_fit nbytes f :
  match Pool.alloc nbytes f with
  | Ok (f', (o, n)) =>
      n = round_up nbytes ALIGNMENT ∧
      ∃ index len, f !! index = Some (o, len) ∧ n ≤ len ∧
        (∀ j o' len', f !! j = Some (o', len') → n ≤ len' → len ≤ len') ∧
        f' = delete index f ++ (if n <? len then [(o + n, len - n)] else [])
  | Err _ => ∀ j o len, f !! j = Some (o, len) → len < round_up nbytes ALIGNMENT
  end.
Proof.
  destruct (Pool.alloc nbytes f) as [[f' [o n]]|e] eqn:E.
  - by apply Pool.alloc_Ok.
  - by eapply Pool.alloc_Err.
Qed.

(** No fragmentation is permanent: whatever the order of (positive)
    requests and releases, once every allocation has been released the free
    list is again the one segment the buffer started with. *)
Theorem workspace_coalesces numel s :
  0 < numel → Pool.reachable 1 numel s → Pool.live s = [] →
  Pool.free s = Pool.init_free numel.
Proof. intros Hn Hr Hl. by apply (Pool.coalesced numel s Hn Hr). Qed.

Definition ws_drained : Pool.state :=
  Pool.mkState (Pool.release 256 512 (Pool.free ws_example)) [].

Lemma workspace_coalesces_witness :
  Pool.reachable 1 2048 ws_drained ∧ Pool.free ws_drained = [(0, 2048)].
Proof.
  assert (H : Pool.reachable 1 2048 ws_drained).
  { eapply rtc_r; [apply (ws_example_reachable 1); lia|].
    apply (Pool.step_release 1 256 512 _ [] []). }
  split; [exact H|]. apply (workspace_coalesces 2048 ws_drained); [lia|exact H|reflexivity].
Defined.

(** The probe's peak is exact: after any sequence of requests and
    releases, [peak_bytes] is the largest number of live bytes seen at any
    point of the sequence. *)
Theorem audit_peak_exact ops :
  Forall Audit_alloc.op_ok ops →
  Audit_alloc.peak_bytes (foldl Audit_alloc.apply_op Audit_alloc.audit_init ops) =
  foldr Z.max 0 (Audit_alloc.history Audit_alloc.audit_init ops).
Proof. intros H. by apply (Audit_alloc.peak_history Audit_alloc.audit_init ops H). Qed.

Lemma audit_peak_exact_witness :
  Audit_alloc.peak_bytes (foldl Audit_alloc.apply_op Audit_alloc.audit_init
    [Audit_alloc.Call 100; Audit_alloc.Call 300; Audit_alloc.Release 256;
     Audit_alloc.Call 1]) = 768.
Proof.
  rewrite audit_peak_exact; [reflexivity|]. repeat constructor; simpl; lia.
Defined.

(** Registering a manager's stream allocators and unregistering them
    restores the registry, nvCOMP's process-wide allocator included, and
    leaves every other stream's routing alone in between; a stream that
    already has an allocator is refused. *)
Theorem registry_round_trip {A} (new : gmap Z A) (s : Registry.registry_state A) streams :
  Registry.reg_ok s → new ≠ ∅ → list_to_set streams = (dom new : gset Z) →
  match Registry.register new s with
  | Ok s' =>
      Registry.reg_ok s' ∧ Registry.installed s' = true ∧
      (∀ k, Registry.route k s' = match new !! k with Some a => Some a | None => Registry.route k s end) ∧
      Registry.unregister streams s' = s
  | Err _ => ∃ k, is_Some (new !! k) ∧ is_Some (Registry.allocators s !! k)
  end.
Proof.
  unfold Registry.reg_ok, Registry.route. intros Hok Hne Hdom.
  destruct (Registry.register new s) as [s'|e] eqn:E.
  - pose proof (Registry.register_Ok _ _ _ E) as [Hdisj Hall].
    assert (Hi : Registry.installed s' = true).
    { unfold Registry.register in E. inv_ok. simpl. case_bool_decide; [done|]. tauto. }
    assert (Hne' : Registry.allocators s' ≠ ∅).
    { rewrite Hall. intros H0. apply Hne. apply map_eq. intros k.
      assert (Hk : (new ∪ Registry.allocators s) !! k = None) by (by rewrite H0).
      rewrite lookup_empty. by apply lookup_union_None in Hk as [??]. }
    split_and!; [tauto|done|..].
    + intros k. rewrite Hall, lookup_union. destruct (new !! k), (Registry.allocators s !! k); done.
    + assert (Hmap : foldr delete (Registry.allocators s') streams = Registry.allocators s).
      { apply map_eq. intros k. rewrite Registry.foldr_delete_lookup, Hall.
        assert (k ∈ streams ↔ is_Some (new !! k)) as Hk
          by (rewrite <- elem_of_dom, <- Hdom; symmetry; apply elem_of_list_to_set).
        case_decide as Hd.
        - apply Hk in Hd. destruct (Registry.allocators s !! k) eqn:Ea; [|done].
          assert (k ∈ dom (Registry.allocators s) ∩ (dom new : gset Z)); [|set_solver].
          apply elem_of_intersection. rewrite !elem_of_dom. eauto.
        - rewrite lookup_union_r; [done|]. apply eq_None_not_Some. tauto. }
      unfold Registry.unregister. rewrite Hmap. destruct s as [m b]; simpl in *. f_equal.
      case_bool_decide.
      * destruct b; [|done]. by destruct (proj1 Hok eq_refl).
      * rewrite Hi. symmetry. by apply Hok.
  - unfold Registry.register in E.
    destruct (bool_decide (dom (Registry.allocators s) ∩ dom new = (∅ : gset Z))) eqn:Eb; [done|].
    apply bool_decide_eq_false in Eb. apply set_choose_L in Eb as [k Hk].
    exists k. rewrite elem_of_intersection, !elem_of_dom in Hk. tauto.
Qed.

Lemma registry_round_trip_witness :
  Registry.unregister [7] (Registry.mkReg {[7 := true]} true) = Registry.mkReg ∅ false.
Proof.
  pose proof (registry_round_trip {[7 := true]} (Registry.mkReg ∅ false) [7]) as H.
  simpl in H. apply H.
  - split; [discriminate|intros []; reflexivity].
  - apply map_non_empty_singleton.
  - set_solver.
Defined.
