(* ===== verification/P2PRecv.v ===== *)
(** * The raw receiver of the P2P connector

    [mooncake_connector.py], class [MooncakeConnectorWorker] on a consumer
    without compression: the pulls of a step ([_start_load_kv]), the query for
    the addresses of a producer ([handle_new_engine_id],
    [_connect_to_prefiller_bootstrap]), the tasks that ask each producer
    worker ([receive_kv], [receive_kv_from_single_worker]), what their answers
    do ([process_pulling_result], [_handle_failed_recv]) and the reports to
    the engine. All run on one event loop; tasks are cut at their awaits.
    vLLM's [handshake_target_ranks], the answers of the bootstrap server and
    the socket are parameters. *)

From S2P Require Import Prelude Messages Transfer P2PPlan P2PSched P2PSend.

(** ** State *)

(** A pull request; the other fields of [PullReqMeta] do not change. *)
Record pull := mkPullState {
  pull_meta : PullReqMeta;
  pull_tasks_count : Z;
  failed : bool
}.

Definition new_pull (m : PullReqMeta) : pull := mkPullState m 0 false.
Definition set_count (n : Z) (p : pull) : pull := mkPullState (pull_meta p) n (failed p).
Definition set_failed (p : pull) : pull := mkPullState (pull_meta p) (pull_tasks_count p) true.

(** The requests of a step for one engine, by id; the objects are shared by
    all tasks. *)
Definition batch := list (string * nat).

(** [handle_new_engine_id]: created; querying the bootstrap server, or waiting
    for a query that another task made; gone. *)
Inductive boot_pc :=
  | Created
  | Querying (q : nat)
  | WaitQuery (q : nat)
  | BootDone.

Record boot := mkBoot { boot_engine : string; boot_batch : batch; boot_state : boot_pc }.

(** [receive_kv_from_single_worker], with the responses it has got. *)
Record worker := mkWorker {
  worker_addr : string;
  worker_batch : batch;
  open : bool;
  responses : list MooncakeXferResponse
}.

(** [remote_agents] maps an engine to its TP ranks, those to PP ranks and
    addresses; [queries] the addresses being queried and the query. *)
Record receiver := mkReceiver {
  pulls : list pull;
  remote_agents : list (string * list (Z * list (Z * string)));
  remote_sizes : list (string * Z);
  queries : list (string * nat);
  next_query : nat;
  boots : list boot;
  workers : list worker;
  finished_recving : list string;
  invalid_block_ids : list (list Z);
  engine_received : list string;
  engine_invalid : list Z
}.

Definition init_receiver : receiver := mkReceiver [] [] [] [] 0 [] [] [] [] [] [].

Definition set_pulls (f : list pull → list pull) (s : receiver) : receiver :=
  mkReceiver (f (pulls s)) (remote_agents s) (remote_sizes s) (queries s) (next_query s) (boots s) (workers s)
    (finished_recving s) (invalid_block_ids s) (engine_received s) (engine_invalid s).
Definition set_agents (f : list (string * list (Z * list (Z * string))) → list (string * list (Z * list (Z * string)))) (s : receiver) : receiver :=
  mkReceiver (pulls s) (f (remote_agents s)) (remote_sizes s) (queries s) (next_query s) (boots s) (workers s)
    (finished_recving s) (invalid_block_ids s) (engine_received s) (engine_invalid s).
Definition set_sizes (f : list (string * Z) → list (string * Z)) (s : receiver) : receiver :=
  mkReceiver (pulls s) (remote_agents s) (f (remote_sizes s)) (queries s) (next_query s) (boots s) (workers s)
    (finished_recving s) (invalid_block_ids s) (engine_received s) (engine_invalid s).
Definition set_queries (f : list (string * nat) → list (string * nat)) (n : nat) (s : receiver) : receiver :=
  mkReceiver (pulls s) (remote_agents s) (remote_sizes s) (f (queries s)) n (boots s) (workers s)
    (finished_recving s) (invalid_block_ids s) (engine_received s) (engine_invalid s).
Definition set_boots (f : list boot → list boot) (s : receiver) : receiver :=
  mkReceiver (pulls s) (remote_agents s) (remote_sizes s) (queries s) (next_query s) (f (boots s)) (workers s)
    (finished_recving s) (invalid_block_ids s) (engine_received s) (engine_invalid s).
Definition set_workers (f : list worker → list worker) (s : receiver) : receiver :=
  mkReceiver (pulls s) (remote_agents s) (remote_sizes s) (queries s) (next_query s) (boots s) (f (workers s))
    (finished_recving s) (invalid_block_ids s) (engine_received s) (engine_invalid s).
Definition put_finished (id : string) (s : receiver) : receiver :=
  mkReceiver (pulls s) (remote_agents s) (remote_sizes s) (queries s) (next_query s) (boots s) (workers s)
    (finished_recving s ++ [id]) (invalid_block_ids s) (engine_received s) (engine_invalid s).
Definition put_invalid (l : list Z) (s : receiver) : receiver :=
  mkReceiver (pulls s) (remote_agents s) (remote_sizes s) (queries s) (next_query s) (boots s) (workers s)
    (finished_recving s) (invalid_block_ids s ++ [l]) (engine_received s) (engine_invalid s).

Definition pull_of (s : receiver) (r : nat) : pull :=
  default (new_pull (mkPullMeta "" "" [] "" "" None)) (pulls s !! r).

Definition d_req_id (p : pull) : string := pm_d_req_id (pull_meta p).

(** ** Results *)

Definition fail_one (b : batch) (s : receiver) (req_id : string) : receiver :=
  match dget b req_id with
  | None => s
  | Some r =>
      let p := pull_of s r in
      if failed p then s
      else
        let s := set_pulls (alter set_failed r) s in
        match concat (pm_local_block_ids (pull_meta p)) with
        | [] => s
        | invalid => put_finished (d_req_id p) (put_invalid invalid s)
        end
  end.

Definition handle_failed_recv (b : batch) (req_ids : list string) (s : receiver) : receiver :=
  foldl (fail_one b) s req_ids.

(** One request of [ok_reqs]; an unknown id raises. *)
Definition ok_one (b : batch) (s : receiver) (req_id : string) : receiver * option exn :=
  match dget b req_id with
  | None => (s, Some KeyError)
  | Some r =>
      let p := pull_of s r in
      if failed p then (s, None)
      else
        let n := pull_tasks_count p - 1 in
        let s := set_pulls (alter (set_count n) r) s in
        (if n =? 0 then put_finished (d_req_id p) s else s, None)
  end.

Fixpoint each_ok (b : batch) (s : receiver) (l : list string) : receiver * option exn :=
  match l with
  | [] => (s, None)
  | id :: l => match ok_one b s id with
               | (s, None) => each_ok b s l
               | (s, Some e) => (s, Some e)
               end
  end.

Definition process_pulling_result (b : batch) (r : MooncakeXferResponse) (s : receiver) : receiver * option exn :=
  match each_ok b s (rs_ok_reqs r) with
  | (s, Some e) => (s, Some e)
  | (s, None) => (handle_failed_recv b (rs_err_reqs r) s, None)
  end.

Definition set_worker (i : nat) (w : worker) (s : receiver) : receiver := set_workers (λ l, <[i := w]> l) s.

Definition close (w : worker) : worker := mkWorker (worker_addr w) (worker_batch w) false (responses w).
Definition got (r : MooncakeXferResponse) (w : worker) : worker :=
  mkWorker (worker_addr w) (worker_batch w) (open w) (responses w ++ [r]).

(** A response to the task [i]. *)
Definition on_response (i : nat) (w : worker) (r : MooncakeXferResponse) (s : receiver) : receiver :=
  let w := got r w in
  match rs_status r with
  | ERROR => set_worker i (close w) (handle_failed_recv (worker_batch w) (worker_batch w).*1 s)
  | _ =>
      match process_pulling_result (worker_batch w) r s with
      | (s, Some _) => set_worker i (close w) (handle_failed_recv (worker_batch w) (worker_batch w).*1 s)
      | (s, None) => set_worker i (match rs_status r with FINISH => close w | _ => w end) s
      end
  end.

(** The socket fails or times out. *)
Definition on_socket_error (i : nat) (w : worker) (s : receiver) : receiver :=
  set_worker i (close w) (handle_failed_recv (worker_batch w) (worker_batch w).*1 s).

(** ** Asking the workers of a producer *)

Section recv.
Context (target_ranks : Z → result (list Z)) (pp_rank pp_size : Z).

Definition pp_ranks_of (pp_to_addr : list (Z * string)) : list Z :=
  if (pp_size =? zlen pp_to_addr) && is_some (dget pp_to_addr pp_rank) then [pp_rank]
  else isort Z.leb pp_to_addr.*1.

(** [worker_addrs] *)
Definition worker_addrs (s : receiver) (engine : string) : result (list string) :=
  let? size := of_option KeyError (dget (remote_sizes s) engine) in
  let? ranks := target_ranks size in
  let? addrs := rmap (λ rank,
    let? agents := of_option KeyError (dget (remote_agents s) engine) in
    let? pp_to_addr := of_option KeyError (dget agents rank) in
    rmap (λ pp, of_option KeyError (dget pp_to_addr pp)) (pp_ranks_of pp_to_addr)) ranks in
  Ok (concat addrs).

Definition receive_kv (engine : string) (b : batch) (s : receiver) : receiver * option exn :=
  match worker_addrs s engine with
  | Err e => (s, Some e)
  | Ok addrs =>
      let s := set_pulls (λ l, foldl (λ l (e : string * nat), alter (set_count (zlen addrs)) e.2 l) l b) s in
      (set_workers (λ l, l ++ ((λ a, mkWorker a b true []) <$> addrs)) s, None)
  end.

(** ** The pulls of a step *)

(** The metadata arrives as new objects. *)
Definition add_pulls (l : list (string * PullReqMeta)) (s : receiver) : receiver * batch :=
  (set_pulls (λ ps, ps ++ (new_pull ∘ snd <$> l)) s,
   imap (λ i e, (e.1, (length (pulls s) + i)%nat)) l).

Fixpoint start_load_kv (l : list (string * list (string * PullReqMeta))) (s : receiver) : receiver * option exn :=
  match l with
  | [] => (s, None)
  | (engine, metas) :: l =>
      let (s, b) := add_pulls metas s in
      if is_some (dget (remote_agents s) engine) then
        match receive_kv engine b s with
        | (s, Some e) => (s, Some e)
        | (s, None) => start_load_kv l s
        end
      else start_load_kv l (set_boots (λ bs, bs ++ [mkBoot engine b Created]) s)
  end.

(** The address of the first request of the batch. *)
Definition bootstrap_addr (s : receiver) (b : batch) : option string :=
  match b with [] => None | (_, r) :: _ => Some (pm_remote_bootstrap_addr (pull_meta (pull_of s r))) end.

Definition set_boot (i : nat) (b : boot) (pc : boot_pc) (s : receiver) : receiver :=
  set_boots (λ l, <[i := mkBoot (boot_engine b) (boot_batch b) pc]> l) s.

(** The first step of [handle_new_engine_id]. *)
Definition begin_boot (i : nat) (b : boot) (s : receiver) : receiver :=
  match bootstrap_addr s (boot_batch b) with
  | None => set_boot i b BootDone s
  | Some addr =>
      match dget (queries s) addr with
      | None => set_boot i b (Querying (next_query s)) (set_queries (λ d, dset d addr (next_query s)) (S (next_query s)) s)
      | Some q => set_boot i b (WaitQuery q) s
      end
  end.

(** What follows the query. *)
Definition end_boot (i : nat) (b : boot) (s : receiver) : receiver :=
  let s := set_boot i b BootDone s in
  if is_some (dget (remote_agents s) (boot_engine b)) then (receive_kv (boot_engine b) (boot_batch b) s).1
  else handle_failed_recv (boot_batch b) (boot_batch b).*1 s.

(** The entries of the bootstrap server's answer: an engine and its workers. *)
Definition add_agent (s : receiver) (e : string * list (Z * list (Z * string))) : receiver :=
  set_sizes (λ d, dset d e.1 (zlen e.2)) (set_agents (λ d, dset d e.1 e.2) s).

(** The query has ended, with an answer or an error; the waiting tasks are
    notified and the query is forgotten. *)
Definition end_query (i : nat) (b : boot) (addr : string) (answer : option (list (string * list (Z * list (Z * string)))))
    (s : receiver) : receiver :=
  let s := foldl add_agent s (default [] answer) in
  end_boot i b (set_queries (λ d, ddel d addr) (next_query s) s).

(** ** Reports *)

Definition get_finished (s : receiver) : receiver :=
  mkReceiver (pulls s) (remote_agents s) (remote_sizes s) (queries s) (next_query s) (boots s) (workers s)
    [] (invalid_block_ids s) (engine_received s ++ finished_recving s) (engine_invalid s).

Definition get_block_ids_with_load_errors (s : receiver) : receiver :=
  mkReceiver (pulls s) (remote_agents s) (remote_sizes s) (queries s) (next_query s) (boots s) (workers s)
    (finished_recving s) [] (engine_received s) (engine_invalid s ++ concat (invalid_block_ids s)).

(** ** Steps *)

Inductive event :=
  | StartLoad (l : list (string * list (string * PullReqMeta)))
  | BeginBoot (i : nat)
  | QueryDone (i : nat) (answer : option (list (string * list (Z * list (Z * string)))))
  | QueryWake (i : nat)
  | Response (i : nat) (r : MooncakeXferResponse)
  | SocketError (i : nat)
  | GetFinished
  | GetErrors.

Definition recv_step (s : receiver) (e : event) : option receiver :=
  match e with
  | StartLoad l => Some (start_load_kv l s).1
  | BeginBoot i =>
      b ← boots s !! i;
      match boot_state b with Created => Some (begin_boot i b s) | _ => None end
  | QueryDone i answer =>
      b ← boots s !! i;
      match boot_state b with
      | Querying q =>
          addr ← bootstrap_addr s (boot_batch b);
          if decide (dget (queries s) addr = Some q) then Some (end_query i b addr answer s) else None
      | _ => None
      end
  | QueryWake i =>
      b ← boots s !! i;
      match boot_state b with
      | WaitQuery q => if existsb (λ e : string * nat, bool_decide (e.2 = q)) (queries s) then None else Some (end_boot i b s)
      | _ => None
      end
  | Response i r =>
      w ← workers s !! i;
      if open w then Some (on_response i w r s) else None
  | SocketError i =>
      w ← workers s !! i;
      if open w then Some (on_socket_error i w s) else None
  | GetFinished => Some (get_finished s)
  | GetErrors => Some (get_block_ids_with_load_errors s)
  end.

Fixpoint recv_run (s : receiver) (es : list event) : option receiver :=
  match es with
  | [] => Some s
  | e :: es => s ← recv_step s e; recv_run s es
  end.

End recv.
