(* ===== verification/P2PRecvThms.v ===== *)
(** * The raw receiver of the P2P connector: invariants

    The reports of a pull and its counter, in terms of the answers its tasks
    have got. *)

From S2P Require Import Prelude Messages Transfer P2PPlan P2PSched P2PSend P2PRecv.

#[local] Arguments ddel : simpl never.
#[local] Arguments dset : simpl never.

(** ** Pulls *)

Lemma pull_of_alter f r s r' :
  pull_of (set_pulls (alter f r) s) r' = if decide (r = r' ∧ (r < length (pulls s))%nat) then f (pull_of s r) else pull_of s r'.
Proof.
  unfold pull_of; simpl. case_decide as Hd.
  - destruct Hd as [<- Hlt]. rewrite list_lookup_alter_eq. apply lookup_lt_is_Some_2 in Hlt as [m ->]. done.
  - destruct (decide (r = r')) as [<-|]; [|by rewrite list_lookup_alter_ne].
    rewrite list_lookup_alter_eq, (lookup_ge_None_2 (pulls s) r); [done|]. lia.
Qed.

Definition blocks_of (s : receiver) (r : nat) : list Z := concat (pm_local_block_ids (pull_meta (pull_of s r))).

(** The tasks that ask for pull [r], and how often their answers name it as
    good. *)
Definition tasks (s : receiver) (r : nat) : Z := cnt (λ w, bool_decide (r ∈ (worker_batch w).*2)) (workers s).

Definition names_ok (b : batch) (r : nat) (resp : MooncakeXferResponse) : Z :=
  cnt (λ id, bool_decide (dget b id = Some r)) (rs_ok_reqs resp).

Definition worker_oks (r : nat) (w : worker) : Z := sumZ (names_ok (worker_batch w) r <$> responses w).

Definition oks (s : receiver) (r : nat) : Z := sumZ (worker_oks r <$> workers s).

Lemma names_ok_nonneg b r resp : 0 ≤ names_ok b r resp.
Proof. apply cnt_nonneg. Qed.

Lemma dget_batch_ref (b : batch) id r : dget b id = Some r → r ∈ b.*2.
Proof. intros H. apply dget_elem_of in H. by apply (list_elem_of_fmap_2 snd) in H. Qed.

Lemma worker_oks_zero r w : r ∉ (worker_batch w).*2 → worker_oks r w = 0.
Proof.
  intros Hr. unfold worker_oks. induction (responses w) as [|resp l IH]; [done|]. rewrite fmap_cons, sumZ_cons, IH.
  unfold names_ok. rewrite cnt_zero; [done|]. intros id _. apply bool_decide_eq_false. by intros ?%dget_batch_ref.
Qed.

Lemma oks_zero s r : tasks s r = 0 → oks s r = 0.
Proof.
  unfold tasks, oks. induction (workers s) as [|w l IH]; [done|]. rewrite cnt_cons, fmap_cons, sumZ_cons.
  pose proof (cnt_nonneg (λ w, bool_decide (r ∈ (worker_batch w).*2)) l). destruct (bool_decide _) eqn:E; simpl; [lia|].
  intros Hz. rewrite IH, worker_oks_zero; [done| |lia]. by apply bool_decide_eq_false in E.
Qed.

(** The requests of a batch the receiver may still start. *)
Definition not_started (b : boot) : list nat := match boot_state b with BootDone => [] | _ => (boot_batch b).*2 end.

(** ** The invariant

    [log] are the reports so far, a pull and whether it was reported as good;
    [extra] counts the answers of a response under way; [fresh] are pulls that
    are being given to tasks. *)
Record accounts (log : list (nat * bool)) (extra : nat → Z) (fresh : list nat) (s : receiver) : Prop := {
  a_finished : engine_received s ++ finished_recving s = (λ e : nat * bool, d_req_id (pull_of s e.1)) <$> log;
  a_invalid : engine_invalid s ++ concat (invalid_block_ids s) =
    log ≫= λ e : nat * bool, if e.2 then [] else blocks_of s e.1;
  a_once : NoDup log;
  a_refs : ∀ r, r ∈ fresh ∨ 0 < tasks s r ∨ (∃ b, b ∈ boots s ∧ r ∈ (boot_batch b).*2) → (r < length (pulls s))%nat;
  a_bad : ∀ r, (r, false) ∈ log ↔ failed (pull_of s r) = true ∧ blocks_of s r ≠ [];
  a_count : ∀ r, failed (pull_of s r) = false → pull_tasks_count (pull_of s r) = tasks s r - oks s r - extra r;
  a_good : ∀ r, failed (pull_of s r) = false → ((r, true) ∈ log ↔ 0 < tasks s r ∧ tasks s r ≤ oks s r + extra r);
  a_fresh : NoDup ((boots s ≫= not_started) ++ fresh) ∧ ∀ r, r ∈ (boots s ≫= not_started) ++ fresh → tasks s r = 0
}.

Definition none (r : nat) : Z := 0.

(** ** Failures *)

Lemma fail_one_accounts log extra fresh b s id :
  (∀ r, r ∈ b.*2 → (r < length (pulls s))%nat) → accounts log extra fresh s →
  ∃ log', accounts log' extra fresh (fail_one b s id) ∧ workers (fail_one b s id) = workers s ∧
    boots (fail_one b s id) = boots s ∧ length (pulls (fail_one b s id)) = length (pulls s) ∧
    (∀ r, failed (pull_of s r) = true → failed (pull_of (fail_one b s id) r) = true) ∧
    (∀ r, dget b id = Some r → failed (pull_of (fail_one b s id) r) = true).
Proof.
  intros Hb Ha. unfold fail_one. destruct (dget b id) as [r|] eqn:Er; [|exists log; by split_and!].
  assert (Hr : (r < length (pulls s))%nat) by by eapply Hb, dget_batch_ref.
  destruct (failed (pull_of s r)) eqn:Ef; [exists log; split_and!; try done; intros r' [= <-]; done|].
  set (s1 := set_pulls (alter set_failed r) s).
  assert (Hof : ∀ r', pull_of s1 r' = if decide (r = r') then set_failed (pull_of s r) else pull_of s r').
  { intros r'. unfold s1. rewrite pull_of_alter. repeat case_decide; naive_solver. }
  assert (Hbl : ∀ r', blocks_of s1 r' = blocks_of s r').
  { intros r'. unfold blocks_of. rewrite Hof. case_decide; [by subst|done]. }
  assert (Hid : ∀ r', d_req_id (pull_of s1 r') = d_req_id (pull_of s r')).
  { intros r'. rewrite Hof. case_decide; [by subst|done]. }
  assert (Hfl : ∀ r', failed (pull_of s1 r') = true ↔ failed (pull_of s r') = true ∨ r' = r).
  { intros r'. rewrite Hof. case_decide; subst; simpl; naive_solver. }
  destruct Ha as [Hfin Hinv Hnd Href Hbad Hcnt Hgood Hfr].
  assert (Hnf : ∀ r', failed (pull_of s1 r') = false → failed (pull_of s r') = false ∧ pull_of s1 r' = pull_of s r').
  { intros r' H. destruct (decide (r = r')) as [<-|Hne].
    - rewrite Hof, decide_True in H by done. done.
    - rewrite Hof, decide_False in H |- * by done. done. }
  assert (Hnone : (r, false) ∉ log) by (intros Hin; apply Hbad in Hin as [? _]; congruence).
  fold (blocks_of s r). destruct (blocks_of s r) as [|z l] eqn:Ebl.
  - exists log. split_and!; try done.
    + split; [| |done| | | | |done].
      * change (engine_received s1 ++ finished_recving s1) with (engine_received s ++ finished_recving s). rewrite Hfin.
        apply list_fmap_ext. intros. by rewrite Hid.
      * change (engine_invalid s1 ++ concat (invalid_block_ids s1)) with (engine_invalid s ++ concat (invalid_block_ids s)).
        rewrite Hinv. apply list_bind_ext; [|done]. intros e. by rewrite Hbl.
      * intros r' Hr'. unfold s1. simpl. rewrite length_alter. by apply Href.
      * intros r'. rewrite Hbad, Hbl, Hfl. split; [naive_solver|]. intros [[?| ->] ?]; [done|congruence].
      * intros r' H. apply Hnf in H as [H ->]. by apply Hcnt.
      * intros r' H. apply Hnf in H as [H _]. by apply Hgood.
    + unfold s1; simpl. by rewrite length_alter.
    + intros r' H. apply Hfl. by left.
    + intros r' [= <-]. apply Hfl. by right.
  - set (s2 := put_finished (d_req_id (pull_of s r)) (put_invalid (z :: l) s1)).
    change (pull_of s2) with (pull_of s1). exists (log ++ [(r, false)]). split_and!; try done.
    + split; [| | | | | | |done].
      * change (engine_received s2 ++ finished_recving s2) with (engine_received s ++ finished_recving s ++ [d_req_id (pull_of s r)]).
        rewrite app_assoc, Hfin, fmap_app. change (pull_of s2) with (pull_of s1). simpl. rewrite Hid. f_equal.
        apply list_fmap_ext. intros. by rewrite Hid.
      * change (engine_invalid s2 ++ concat (invalid_block_ids s2)) with (engine_invalid s ++ concat (invalid_block_ids s ++ [z :: l])).
        rewrite concat_app, app_assoc, Hinv, bind_app. simpl. rewrite !app_nil_r. change (blocks_of s2 r) with (blocks_of s1 r).
        rewrite Hbl, Ebl. f_equal. apply list_bind_ext; [|done]. intros e. change (blocks_of s2) with (blocks_of s1). by rewrite Hbl.
      * apply NoDup_app. split_and!; [done| |apply NoDup_singleton]. intros e He ->%list_elem_of_singleton. done.
      * intros r' Hr'. change (pulls s2) with (pulls s1). unfold s1. simpl. rewrite length_alter. by apply Href.
      * intros r'. change (pull_of s2) with (pull_of s1). change (blocks_of s2) with (blocks_of s1).
        rewrite elem_of_app, list_elem_of_singleton, Hbad, Hbl, Hfl. split.
        -- intros [[? ?]|[= ->]]; [auto|]. split; [by right|]. by rewrite Ebl.
        -- intros [[?| ->] ?]; auto.
      * intros r' H. change (pull_of s2) with (pull_of s1) in *. apply Hnf in H as [H ->]. by apply Hcnt.
      * intros r' H. change (pull_of s2) with (pull_of s1) in *. apply Hnf in H as [H _].
        rewrite elem_of_app, list_elem_of_singleton. change (tasks s2) with (tasks s). change (oks s2) with (oks s).
        rewrite <- Hgood by done. naive_solver.
    + unfold s2, s1; simpl. by rewrite length_alter.
    + intros r' H. apply Hfl. by left.
    + intros r' [= <-]. apply Hfl. by right.
Qed.

Lemma handle_failed_accounts log extra fresh b s ids :
  (∀ r, r ∈ b.*2 → (r < length (pulls s))%nat) → accounts log extra fresh s →
  ∃ log', accounts log' extra fresh (handle_failed_recv b ids s) ∧ workers (handle_failed_recv b ids s) = workers s ∧
    (∀ r, failed (pull_of s r) = true → failed (pull_of (handle_failed_recv b ids s) r) = true) ∧
    (∀ id r, id ∈ ids → dget b id = Some r → failed (pull_of (handle_failed_recv b ids s) r) = true).
Proof.
  unfold handle_failed_recv. revert log s. induction ids as [|id ids IH]; intros log s Hb Ha.
  { exists log. split_and!; [done..|]. intros id r Hid. by apply elem_of_nil in Hid. }
  cbn [foldl]. destruct (fail_one_accounts log extra fresh b s id Hb Ha) as (log1 & Ha1 & Hw & _ & Hl & Hmono & Hid).
  destruct (IH log1 (fail_one b s id)) as (log2 & Ha2 & Hw2 & Hmono2 & Hids); [intros r Hr; rewrite Hl; by apply Hb|done|].
  exists log2. split_and!; [done|congruence|auto|].
  intros id' r [->|Hin]%elem_of_cons Hr; [by apply Hmono2, Hid|by eapply Hids].
Qed.

(** Pulls that failed have no account to keep. *)
Lemma accounts_extra log extra extra' fresh s :
  (∀ r, failed (pull_of s r) = false → extra' r = extra r) → accounts log extra fresh s → accounts log extra' fresh s.
Proof.
  intros He [Hfin Hinv Hnd Href Hbad Hcnt Hgood Hfr]. split; try done; intros r Hr; rewrite He by done; auto.
Qed.

(** ** Good answers *)

Definition one_ok (b : batch) (id : string) (r : nat) : Z := Z.b2z (bool_decide (dget b id = Some r)).

Lemma ok_one_accounts log extra fresh b s id s' e :
  (∀ r, r ∈ b.*2 → (r < length (pulls s))%nat ∧ 0 < tasks s r) → accounts log extra fresh s →
  ok_one b s id = (s', e) →
  (e = None ∨ dget b id = None) ∧ workers s' = workers s ∧ length (pulls s') = length (pulls s) ∧
  ∃ log', accounts log' (λ r, extra r + one_ok b id r) fresh s'.
Proof.
  intros Hb Ha H. unfold ok_one in H. destruct (dget b id) as [r|] eqn:Er.
  2: { simplify_eq. split_and!; [by right|done|done|]. exists log. eapply accounts_extra; [|done].
       intros r _. unfold one_ok. rewrite Er. simpl. lia. }
  destruct (Hb r) as [Hr Ht]; [by eapply dget_batch_ref|].
  assert (Hone : ∀ r', one_ok b id r' = if decide (r = r') then 1 else 0).
  { intros r'. unfold one_ok. rewrite Er. case_decide; [subst; by rewrite bool_decide_true|by rewrite bool_decide_false by congruence]. }
  destruct (failed (pull_of s r)) eqn:Ef.
  { simplify_eq. split_and!; [by left|done|done|]. exists log. eapply accounts_extra; [|done].
    intros r' Hr'. rewrite Hone, decide_False; [lia|]. intros ->. congruence. }
  set (n := pull_tasks_count (pull_of s r) - 1) in *. set (s1 := set_pulls (alter (set_count n) r) s) in *.
  assert (Hof : ∀ r', pull_of s1 r' = if decide (r = r') then set_count n (pull_of s r) else pull_of s r').
  { intros r'. unfold s1. rewrite pull_of_alter. repeat case_decide; naive_solver. }
  assert (Hbl : ∀ r', blocks_of s1 r' = blocks_of s r').
  { intros r'. unfold blocks_of. rewrite Hof. case_decide; [by subst|done]. }
  assert (Hid : ∀ r', d_req_id (pull_of s1 r') = d_req_id (pull_of s r')).
  { intros r'. rewrite Hof. case_decide; [by subst|done]. }
  assert (Hfl : ∀ r', failed (pull_of s1 r') = failed (pull_of s r')).
  { intros r'. rewrite Hof. case_decide; [by subst|done]. }
  destruct Ha as [Hfin Hinv Hnd Href Hbad Hcnt Hgood Hfr].
  pose proof (Hcnt r Ef) as Hc.
  assert (Hcnt' : ∀ r', failed (pull_of s1 r') = false →
    pull_tasks_count (pull_of s1 r') = tasks s r' - oks s r' - (extra r' + one_ok b id r')).
  { intros r' H'. rewrite Hfl in H'. specialize (Hcnt r' H'). rewrite Hof, Hone. case_decide; [subst; simpl|]; lia. }
  destruct (n =? 0) eqn:En; injection H as <- <-.
  - apply Z.eqb_eq in En. split_and!; [by left|done|by unfold s1; simpl; rewrite length_alter|].
    set (s2 := put_finished (d_req_id (pull_of s r)) s1). exists (log ++ [(r, true)]).
    assert (Hnew : (r, true) ∉ log) by (intros Hin; apply Hgood in Hin; [lia|done]).
    split; [| | | | |exact Hcnt'| |done].
    + change (engine_received s2 ++ finished_recving s2) with (engine_received s ++ finished_recving s ++ [d_req_id (pull_of s r)]).
      rewrite app_assoc, Hfin, fmap_app. change (pull_of s2) with (pull_of s1). simpl. rewrite Hid. f_equal.
      apply list_fmap_ext. intros. by rewrite Hid.
    + change (engine_invalid s2 ++ concat (invalid_block_ids s2)) with (engine_invalid s ++ concat (invalid_block_ids s)).
      rewrite Hinv, bind_app. simpl. rewrite app_nil_r. apply list_bind_ext; [|done]. intros e.
      change (blocks_of s2) with (blocks_of s1). by rewrite Hbl.
    + apply NoDup_app. split_and!; [done| |apply NoDup_singleton]. intros e He ->%list_elem_of_singleton. done.
    + intros r' Hr'. change (pulls s2) with (pulls s1). unfold s1. simpl. rewrite length_alter. by apply Href.
    + intros r'. change (pull_of s2) with (pull_of s1). change (blocks_of s2) with (blocks_of s1).
      rewrite elem_of_app, list_elem_of_singleton, Hfl, Hbl, <- Hbad. naive_solver.
    + intros r' H'. change (pull_of s2) with (pull_of s1) in H'. rewrite Hfl in H'. change (tasks s2) with (tasks s). change (oks s2) with (oks s).
      rewrite elem_of_app, list_elem_of_singleton, (Hgood r' H'), Hone. specialize (Hcnt r' H').
      case_decide as Hd; [subst r'; split; [lia|right; done]|]. rewrite Z.add_0_r. naive_solver.
  - apply Z.eqb_neq in En. split_and!; [by left|done|by unfold s1; simpl; rewrite length_alter|]. exists log.
    split; [| |done| | |exact Hcnt'| |done].
    + change (engine_received s1 ++ finished_recving s1) with (engine_received s ++ finished_recving s). rewrite Hfin.
      apply list_fmap_ext. intros. by rewrite Hid.
    + change (engine_invalid s1 ++ concat (invalid_block_ids s1)) with (engine_invalid s ++ concat (invalid_block_ids s)).
      rewrite Hinv. apply list_bind_ext; [|done]. intros e. by rewrite Hbl.
    + intros r' Hr'. unfold s1. simpl. rewrite length_alter. by apply Href.
    + intros r'. by rewrite Hfl, Hbl, <- Hbad.
    + intros r' H'. rewrite Hfl in H'. change (tasks s1) with (tasks s). change (oks s1) with (oks s).
      rewrite (Hgood r' H'), Hone. case_decide as Hd; [subst r'; lia|by rewrite Z.add_0_r].
Qed.

Lemma each_ok_accounts log extra fresh b s l s' e :
  (∀ r, r ∈ b.*2 → (r < length (pulls s))%nat ∧ 0 < tasks s r) → accounts log extra fresh s →
  each_ok b s l = (s', e) →
  workers s' = workers s ∧ length (pulls s') = length (pulls s) ∧
  ∃ log' extra', accounts log' extra' fresh s' ∧ (∀ r, r ∉ b.*2 → extra' r = extra r) ∧
    (e = None → ∀ r, extra' r = extra r + cnt (λ id, bool_decide (dget b id = Some r)) l).
Proof.
  revert log extra s. induction l as [|id l IH]; intros log extra s Hb Ha H; simpl in H.
  { simplify_eq. split_and!; [done..|]. exists log, extra. split_and!; [done..|]. intros _ r. change (cnt _ []) with 0. lia. }
  destruct (ok_one b s id) as [s1 [e1|]] eqn:E; apply (ok_one_accounts log extra fresh) in E as (He & Hw & Hl & log1 & Ha1); try done.
  - simplify_eq. destruct He as [?|He]; [done|]. split_and!; [done..|]. exists log1, (λ r, extra r + one_ok b id r).
    split_and!; [done| |done]. intros r _. unfold one_ok. rewrite He. simpl. lia.
  - destruct (IH log1 (λ r, extra r + one_ok b id r) s1) as (Hw2 & Hl2 & log2 & extra2 & Ha2 & Ho & Hn); [|done|done|].
    { intros r Hr. unfold tasks. rewrite Hw, Hl. by apply Hb. }
    split_and!; [congruence..|]. exists log2, extra2. split_and!; [done| |].
    + intros r Hr. rewrite Ho by done. unfold one_ok. rewrite bool_decide_false; [simpl; lia|]. by intros ?%dget_batch_ref.
    + intros He0 r. rewrite Hn, cnt_cons by done. unfold one_ok. lia.
Qed.

(** ** A response *)

Lemma tasks_pos s i w r : workers s !! i = Some w → r ∈ (worker_batch w).*2 → 0 < tasks s r.
Proof.
  intros Hi Hr. unfold tasks. pose proof (cnt_pos (λ w, bool_decide (r ∈ (worker_batch w).*2)) (workers s) w) as Hp.
  assert (1 ≤ cnt (λ w, bool_decide (r ∈ (worker_batch w).*2)) (workers s)); [|lia].
  apply Hp; [by eapply list_elem_of_lookup_2|by apply bool_decide_eq_true].
Qed.

(** Changing a task of the same batch. *)
Lemma set_worker_accounts log extra fresh i w w' s :
  workers s !! i = Some w → worker_batch w' = worker_batch w →
  (∀ r, failed (pull_of s r) = false → worker_oks r w' = worker_oks r w + extra r) →
  accounts log extra fresh s → accounts log none fresh (set_worker i w' s).
Proof.
  intros Hi Hb Ho [Hfin Hinv Hnd Href Hbad Hcnt Hgood Hfr].
  assert (Ht : ∀ r, tasks (set_worker i w' s) r = tasks s r).
  { intros r. unfold tasks. simpl. erewrite cnt_insert by done. rewrite Hb. lia. }
  assert (Hk : ∀ r, oks (set_worker i w' s) r = oks s r + worker_oks r w' - worker_oks r w).
  { intros r. unfold oks. simpl. by erewrite sumZ_insert. }
  split; [done|done|done| |done| | |].
  - intros r Hr. rewrite Ht in Hr. by apply Href.
  - intros r Hr. rewrite Ht, Hk, (Ho r Hr). unfold none. change (pull_of (set_worker i w' s) r) with (pull_of s r) in *.
    rewrite (Hcnt r Hr). lia.
  - intros r Hr. rewrite Ht, Hk, (Ho r Hr). unfold none. rewrite (Hgood r Hr).
    replace (oks s r + (worker_oks r w + extra r) - worker_oks r w + 0) with (oks s r + extra r) by lia. done.
  - destruct Hfr as [Hf1 Hf2]. split; [done|]. intros r Hr. rewrite Ht. by apply Hf2.
Qed.

Lemma worker_oks_got r resp w : worker_oks r (got resp w) = worker_oks r w + names_ok (worker_batch w) r resp.
Proof. unfold worker_oks, got; simpl. rewrite fmap_app, sumZ_app. simpl. lia. Qed.

Lemma batch_refs log extra fresh s i w :
  accounts log extra fresh s → workers s !! i = Some w → ∀ r, r ∈ (worker_batch w).*2 → (r < length (pulls s))%nat ∧ 0 < tasks s r.
Proof.
  intros Ha Hi r Hr. assert (Ht := tasks_pos s i w r Hi Hr). split; [|done]. apply (a_refs _ _ _ _ Ha). by right; left.
Qed.

Lemma fail_all_accounts log extra fresh s i w w' :
  workers s !! i = Some w → worker_batch w' = worker_batch w → NoDup (worker_batch w).*1 →
  (∀ r, r ∉ (worker_batch w).*2 → worker_oks r w' = worker_oks r w + extra r) →
  accounts log extra fresh s →
  ∃ log', accounts log' none fresh (set_worker i w' (handle_failed_recv (worker_batch w) (worker_batch w).*1 s)).
Proof.
  intros Hi Hb Hnd Ho Ha.
  destruct (handle_failed_accounts log extra fresh (worker_batch w) s (worker_batch w).*1) as (log' & Ha' & Hw & _ & Hall);
    [intros r Hr; by eapply batch_refs|done|].
  exists log'. eapply set_worker_accounts; [by rewrite Hw|done| |done].
  intros r Hr. apply Ho. intros (e & -> & He)%list_elem_of_fmap.
  rewrite (Hall e.1) in Hr; [done|by apply list_elem_of_fmap_2|]. destruct e as [k v]. by apply elem_of_dget.
Qed.

Lemma response_accounts log fresh i w resp s :
  workers s !! i = Some w → NoDup (worker_batch w).*1 → accounts log none fresh s →
  ∃ log', accounts log' none fresh (on_response i w resp s).
Proof.
  intros Hi Hnd Ha. unfold on_response. change (worker_batch (got resp w)) with (worker_batch w).
  assert (Hnr : ∀ r, r ∉ (worker_batch w).*2 → names_ok (worker_batch w) r resp = 0).
  { intros r Hr. unfold names_ok. apply cnt_zero. intros id _. apply bool_decide_eq_false. by intros ?%dget_batch_ref. }
  destruct (rs_status resp) eqn:Est.
  3: { eapply (fail_all_accounts _ none); [done|done|done| |done]. intros r Hr.
       change (worker_oks r (close (got resp w))) with (worker_oks r (got resp w)).
       rewrite worker_oks_got, Hnr by done. unfold none. lia. }
  all: unfold process_pulling_result; destruct (each_ok (worker_batch w) s (rs_ok_reqs resp)) as [s1 [e|]] eqn:E;
    eapply (each_ok_accounts log none fresh) in E as (Hw & Hl & log1 & extra1 & Ha1 & Ho & Hn); [|by eapply batch_refs|done| |by eapply batch_refs|done].
  1, 3: eapply (fail_all_accounts _ extra1); [by rewrite Hw|done|done| |done]; intros r Hr;
    change (worker_oks r (close (got resp w))) with (worker_oks r (got resp w)); rewrite worker_oks_got, Hnr, Ho by done; unfold none; lia.
  all: destruct (handle_failed_accounts log1 extra1 fresh (worker_batch w) s1 (rs_err_reqs resp)) as (log2 & Ha2 & Hw2 & _ & _);
    [intros r Hr; rewrite Hl; by eapply batch_refs|done|].
  all: exists log2; eapply set_worker_accounts; [by rewrite Hw2, Hw|done| |exact Ha2].
  all: intros r _; rewrite Hn by done; try change (worker_oks r (close (got resp w))) with (worker_oks r (got resp w));
    rewrite worker_oks_got; unfold none, names_ok; lia.
Qed.

(** ** Starting the tasks *)

Section recv.
Context (target : Z → result (list Z)) (pp_rank pp_size : Z).

Lemma counts_lookup (b : batch) n (l : list pull) r :
  foldl (λ l (e : string * nat), alter (set_count n) e.2 l) l b !! r =
  (λ p, if decide (r ∈ b.*2) then set_count n p else p) <$> l !! r.
Proof.
  revert l. induction b as [|e b IH]; intros l; cbn [foldl].
  { by destruct (l !! r). }
  rewrite IH. csimpl. assert (Hin : r ∈ e.2 :: b.*2 ↔ r = e.2 ∨ r ∈ b.*2) by apply elem_of_cons.
  destruct (decide (e.2 = r)) as [<-|Hne].
  - rewrite list_lookup_alter_eq. destruct (l !! e.2); [|done]. cbn. f_equal. repeat case_decide; tauto.
  - rewrite list_lookup_alter_ne by done. destruct (l !! r); [|done]. cbn. f_equal.
    assert (r ≠ e.2) by congruence. repeat case_decide; tauto.
Qed.

Lemma counts_length (b : batch) n (l : list pull) :
  length (foldl (λ l (e : string * nat), alter (set_count n) e.2 l) l b) = length l.
Proof. revert l. induction b as [|e b IH]; intros l; cbn [foldl]; [done|]. by rewrite IH, length_alter. Qed.

Lemma receive_kv_accounts log fresh b engine s s' e :
  accounts log none (b.*2 ++ fresh) s → receive_kv target pp_rank pp_size engine b s = (s', e) →
  accounts log none fresh s' ∧ boots s' = boots s.
Proof.
  intros Ha H. unfold receive_kv in H.
  assert (Hdrop : accounts log none fresh s).
  { destruct Ha as [Hfin Hinv Hnd Href Hbad Hcnt Hgood [Hf1 Hf2]]. split; try done.
    - intros r Hr. apply Href. rewrite elem_of_app. tauto.
    - split; [|intros r Hr; apply Hf2; rewrite !elem_of_app in *; tauto].
      eapply sublist_NoDup; [exact Hf1|]. apply sublist_app; [done|]. by apply sublist_inserts_l. }
  destruct (worker_addrs _ _ _ s engine) as [addrs|e1]; simplify_eq; [|by split]. split; [|done].
  set (n := zlen addrs). set (s1 := set_workers _ _).
  assert (Hof : ∀ r, pull_of s1 r = if decide (r ∈ b.*2 ∧ (r < length (pulls s))%nat) then set_count n (pull_of s r) else pull_of s r).
  { intros r. unfold pull_of, s1; simpl. rewrite counts_lookup. destruct (pulls s !! r) eqn:E; simpl.
    - apply lookup_lt_Some in E. repeat case_decide; naive_solver.
    - apply lookup_ge_None in E. rewrite decide_False; [done|]. lia. }
  assert (Hbl : ∀ r, blocks_of s1 r = blocks_of s r) by (intros r; unfold blocks_of; rewrite Hof; by case_decide).
  assert (Hid : ∀ r, d_req_id (pull_of s1 r) = d_req_id (pull_of s r)) by (intros r; rewrite Hof; by case_decide).
  assert (Hfl : ∀ r, failed (pull_of s1 r) = failed (pull_of s r)) by (intros r; rewrite Hof; by case_decide).
  assert (Hnew : ∀ r, tasks s1 r = tasks s r + (if decide (r ∈ b.*2) then n else 0) ∧ oks s1 r = oks s r).
  { intros r. unfold tasks, oks, s1; simpl. rewrite cnt_app, fmap_app, sumZ_app.
    assert (Hsum : sumZ (worker_oks r <$> ((λ a, mkWorker a b true []) <$> addrs)) = 0 ∧
      cnt (λ w, bool_decide (r ∈ (worker_batch w).*2)) ((λ a, mkWorker a b true []) <$> addrs) = if decide (r ∈ b.*2) then n else 0); [|lia].
    unfold n, zlen. clear. induction addrs as [|a addrs [IH1 IH2]]; [by case_decide|]. rewrite !fmap_cons, cnt_cons, sumZ_cons, IH1, IH2.
    unfold worker_oks; simpl. split; [done|]. destruct (decide (r ∈ b.*2)); [rewrite bool_decide_true by done|rewrite bool_decide_false by done]; simpl; lia. }
  destruct Ha as [Hfin Hinv Hnd Href Hbad Hcnt Hgood [Hf1 Hf2]].
  assert (Hzero : ∀ r, r ∈ b.*2 → tasks s r = 0 ∧ oks s r = 0).
  { intros r Hr. assert (tasks s r = 0) by (apply Hf2; rewrite !elem_of_app; auto). split; [done|by apply oks_zero]. }
  split.
  - change (engine_received s1 ++ finished_recving s1) with (engine_received s ++ finished_recving s). rewrite Hfin.
    apply list_fmap_ext. intros. by rewrite Hid.
  - change (engine_invalid s1 ++ concat (invalid_block_ids s1)) with (engine_invalid s ++ concat (invalid_block_ids s)).
    rewrite Hinv. apply list_bind_ext; [|done]. intros e. by rewrite Hbl.
  - done.
  - intros r Hr. unfold s1; simpl. rewrite counts_length. apply Href. rewrite elem_of_app. destruct Hr as [Hr|[Hr|Hr]]; [auto| |auto].
    destruct (Hnew r) as [E _]. rewrite E in Hr. case_decide; [auto|]. right; left. lia.
  - intros r. by rewrite Hfl, Hbl, <- Hbad.
  - intros r Hr. rewrite Hfl in Hr. destruct (Hnew r) as [-> ->]. specialize (Hcnt r Hr). rewrite Hof.
    destruct (decide (r ∈ b.*2)) as [Hin|Hin]; [|rewrite decide_False by tauto; rewrite Hcnt; unfold none; lia].
    destruct (Hzero r Hin) as [-> ->]. rewrite decide_True; [simpl; unfold none; lia|]. split; [done|].
    apply Href. left. rewrite elem_of_app. auto.
  - intros r Hr. rewrite Hfl in Hr. destruct (Hnew r) as [-> ->]. rewrite (Hgood r Hr).
    destruct (decide (r ∈ b.*2)) as [Hin|Hin]; [|lia].
    destruct (Hzero r Hin) as [-> ->]. unfold none. lia.
  - rewrite app_assoc, (Permutation_app_comm _ b.*2), <- app_assoc in Hf1. apply NoDup_app in Hf1 as (_ & Hdisj & Hf1).
    split; [done|]. intros r Hr. destruct (Hnew r) as [-> _]. rewrite decide_False; [rewrite Z.add_0_r; apply Hf2|].
    + rewrite !elem_of_app in *. tauto.
    + intros Hin. by apply Hdisj in Hin.
Qed.

(** ** The pulls of a step *)

Lemma add_pulls_accounts log fresh l s s' b :
  accounts log none fresh s → add_pulls l s = (s', b) →
  accounts log none (b.*2 ++ fresh) s' ∧ boots s' = boots s ∧ b.*1 = l.*1 ∧
  b.*2 = seq (length (pulls s)) (length l) ∧ length (pulls s') = (length (pulls s) + length l)%nat.
Proof.
  intros Ha H. unfold add_pulls in H. injection H as <- Hb.
  assert (Hb1 : b.*1 = l.*1).
  { rewrite <- Hb, fmap_imap. apply list_eq. intros i. rewrite list_lookup_imap, list_lookup_fmap. by destruct (l !! i). }
  assert (Hb2 : b.*2 = seq (length (pulls s)) (length l)).
  { rewrite <- Hb, fmap_imap. apply list_eq. intros i. rewrite list_lookup_imap. destruct (l !! i) eqn:E; simpl.
    - symmetry. apply lookup_seq. split; [done|]. by eapply lookup_lt_Some.
    - symmetry. apply lookup_seq_ge. by apply lookup_ge_None in E. }
  set (s1 := set_pulls _ s). assert (Hlen : length (pulls s1) = (length (pulls s) + length l)%nat).
  { unfold s1; simpl. by rewrite length_app, length_fmap. }
  split_and!; [|done..]. destruct Ha as [Hfin Hinv Hnd Href Hbad Hcnt Hgood [Hf1 Hf2]].
  assert (Hof : ∀ r, (r < length (pulls s))%nat → pull_of s1 r = pull_of s r).
  { intros r Hr. unfold pull_of, s1; simpl. by rewrite lookup_app_l. }
  assert (Hge : ∀ r, ¬ (r < length (pulls s))%nat → failed (pull_of s r) = false ∧ failed (pull_of s1 r) = false ∧
    pull_tasks_count (pull_of s1 r) = 0 ∧ tasks s r = 0).
  { intros r Hr. split_and!.
    - unfold pull_of. by rewrite lookup_ge_None_2 by lia.
    - unfold pull_of, s1; simpl. rewrite lookup_app_r, list_lookup_fmap by lia. by destruct (l !! _).
    - unfold pull_of, s1; simpl. rewrite lookup_app_r, list_lookup_fmap by lia. by destruct (l !! _).
    - destruct (decide (0 < tasks s r)) as [Ht|Ht]; [exfalso; apply Hr, Href; auto|].
      pose proof (cnt_nonneg (λ w, bool_decide (r ∈ (worker_batch w).*2)) (workers s)). unfold tasks in *. lia. }
  assert (Hlog : ∀ r g, (r, g) ∈ log → (r < length (pulls s))%nat).
  { intros r g Hin. destruct (decide (r < length (pulls s))%nat) as [|Hr]; [done|]. destruct (Hge r Hr) as (Hf & _ & _ & Ht).
    destruct g; [apply Hgood in Hin; [lia|done]|]. apply Hbad in Hin as [Hin _]. congruence. }
  split.
  - change (engine_received s1 ++ finished_recving s1) with (engine_received s ++ finished_recving s). rewrite Hfin.
    apply list_fmap_ext. intros j [r g] Hin%list_elem_of_lookup_2. simpl. rewrite Hof; [done|by eapply Hlog].
  - change (engine_invalid s1 ++ concat (invalid_block_ids s1)) with (engine_invalid s ++ concat (invalid_block_ids s)).
    rewrite Hinv. apply Forall_bind_ext, Forall_forall. intros [r g] Hin. unfold blocks_of. simpl. rewrite Hof; [done|by eapply Hlog].
  - done.
  - intros r. rewrite elem_of_app, Hb2. intros [[Hr|Hr]|Hr]; rewrite Hlen; [apply elem_of_seq in Hr; lia|..].
    + assert (r < length (pulls s))%nat by (apply Href; auto). lia.
    + assert (r < length (pulls s))%nat by (apply Href; auto). lia.
  - intros r. destruct (decide (r < length (pulls s))%nat) as [Hr|Hr]; [unfold blocks_of; rewrite Hof by done; apply Hbad|].
    destruct (Hge r Hr) as (_ & Hf & _). rewrite Hf. split; [intros Hin; by apply Hlog in Hin|naive_solver].
  - intros r. destruct (decide (r < length (pulls s))%nat) as [Hr|Hr]; [rewrite Hof by done; apply Hcnt|].
    destruct (Hge r Hr) as (_ & _ & -> & Ht). intros _. change (tasks s1 r) with (tasks s r). change (oks s1 r) with (oks s r).
    rewrite (oks_zero s r), Ht by done. done.
  - intros r. destruct (decide (r < length (pulls s))%nat) as [Hr|Hr]; [rewrite Hof by done; apply Hgood|].
    destruct (Hge r Hr) as (Hf & _ & _ & Ht). intros _. by apply Hgood.
  - assert (Hnew : ∀ r, r ∈ b.*2 → ¬ (r < length (pulls s))%nat) by (intros r; rewrite Hb2; intros Hr%elem_of_seq; lia).
    split.
    + rewrite app_assoc, (Permutation_app_comm _ b.*2), <- app_assoc. apply NoDup_app. split_and!; [rewrite Hb2; apply NoDup_seq| |done].
      intros r Hr Hin. apply Hnew in Hr. apply Hr. apply Href. rewrite elem_of_app in Hin. destruct Hin as [Hin|Hin]; [|by left].
      right; right. apply list_elem_of_bind in Hin as (b0 & Hin & Hb0). exists b0. split; [done|]. unfold not_started in Hin.
      destruct (boot_state b0); [done..|]. by apply elem_of_nil in Hin.
    + intros r Hr. change (tasks s1 r) with (tasks s r). rewrite !elem_of_app in Hr.
      destruct (decide (r ∈ b.*2)) as [Hin|Hin]; [by apply Hge, Hnew|]. apply Hf2. rewrite elem_of_app. tauto.
Qed.

(** ** The batches *)

(** No batch names a request twice: they were dicts. *)
Definition batches_ok (s : receiver) : Prop :=
  (∀ w, w ∈ workers s → NoDup (worker_batch w).*1) ∧ ∀ b, b ∈ boots s → NoDup (boot_batch b).*1.

Lemma not_started_set i b pc (l : list boot) :
  l !! i = Some b → pc = BootDone ∨ not_started (mkBoot (boot_engine b) (boot_batch b) pc) = not_started b →
  (l ≫= not_started) ≡ₚ (match pc with BootDone => not_started b | _ => [] end)
    ++ (<[i := mkBoot (boot_engine b) (boot_batch b) pc]> l ≫= not_started).
Proof.
  revert i. induction l as [|b0 l IH]; intros [|i] Hi Hpc; [done..| |].
  - simpl in Hi. injection Hi as ->. simpl. destruct Hpc as [->|Hpc]; [done|]. rewrite Hpc.
    destruct pc; [done..|]. change (not_started (mkBoot _ _ BootDone)) with (@nil nat) in Hpc. by rewrite <- Hpc.
  - cbn. simpl in Hi. rewrite (IH i Hi Hpc). rewrite !app_assoc. f_equiv; [apply Permutation_app_comm|done].
Qed.

Lemma set_boot_accounts log fresh fresh' i b pc s :
  boots s !! i = Some b → accounts log none fresh s →
  fresh' = (match pc with BootDone => not_started b | _ => [] end) ++ fresh →
  pc = BootDone ∨ not_started (mkBoot (boot_engine b) (boot_batch b) pc) = not_started b →
  accounts log none fresh' (set_boot i b pc s).
Proof.
  intros Hi [Hfin Hinv Hnd Href Hbad Hcnt Hgood [Hf1 Hf2]] -> Hpc.
  pose proof (not_started_set i b pc _ Hi Hpc) as Hp.
  assert (Hp2 : (boots (set_boot i b pc s) ≫= not_started) ++ (match pc with BootDone => not_started b | _ => [] end) ++ fresh
                ≡ₚ (boots s ≫= not_started) ++ fresh).
  { rewrite Hp. simpl. rewrite !app_assoc. f_equiv. apply Permutation_app_comm. }
  split; try done.
  - intros r Hr. apply Href. destruct Hr as [Hr|[Hr|(b0 & Hb0 & Hr)]]; [|auto|].
    + apply elem_of_app in Hr as [Hr|Hr]; [|auto]. right; right. exists b. split; [by eapply list_elem_of_lookup_2|].
      destruct pc; try by apply elem_of_nil in Hr. unfold not_started in Hr. destruct (boot_state b); try done. by apply elem_of_nil in Hr.
    + right; right. simpl in Hb0. apply elem_of_insert_inv in Hb0 as [->|Hb0]; [|by exists b0].
      exists b. split; [by eapply list_elem_of_lookup_2|done].
  - split; [by rewrite Hp2|]. intros r. rewrite Hp2. apply Hf2.
Qed.

Lemma set_boot_batches i b pc s : boots s !! i = Some b → batches_ok s → batches_ok (set_boot i b pc s).
Proof.
  intros Hi [Hw Hb]. split; [done|]. intros b0 [->|Hb0]%elem_of_insert_inv; [|by apply Hb].
  simpl. apply Hb. by eapply list_elem_of_lookup_2.
Qed.

Lemma receive_kv_batches engine b s s' e :
  NoDup b.*1 → batches_ok s → receive_kv target pp_rank pp_size engine b s = (s', e) → batches_ok s'.
Proof.
  intros Hb [Hw Hbs] H. unfold receive_kv in H. destruct (worker_addrs _ _ _ s engine); simplify_eq; [|by split].
  split; [|done]. intros w. simpl. rewrite elem_of_app. intros [?|Hin]; [by apply Hw|].
  apply list_elem_of_fmap in Hin as (x & -> & _). done.
Qed.

Lemma fail_one_frame b s id : workers (fail_one b s id) = workers s ∧ boots (fail_one b s id) = boots s.
Proof. unfold fail_one. destruct (dget b id); [|done]. destruct (failed _); [done|]. by destruct (concat _). Qed.

Lemma handle_failed_frame b ids s :
  workers (handle_failed_recv b ids s) = workers s ∧ boots (handle_failed_recv b ids s) = boots s.
Proof.
  unfold handle_failed_recv. revert s. induction ids as [|id ids IH]; intros s; [done|]. cbn [foldl].
  destruct (IH (fail_one b s id)) as [-> ->]. apply fail_one_frame.
Qed.

Lemma each_ok_frame b l s s' e : each_ok b s l = (s', e) → workers s' = workers s ∧ boots s' = boots s.
Proof.
  revert s. induction l as [|id l IH]; intros s H; simpl in H; [by simplify_eq|].
  destruct (ok_one b s id) as [s1 [e1|]] eqn:E.
  - unfold ok_one in E. destruct (dget b id); [|by simplify_eq]. destruct (failed _); simplify_eq.
  - apply IH in H as [-> ->]. unfold ok_one in E. destruct (dget b id); [|done]. destruct (failed _); simplify_eq; [done|].
    by destruct (_ =? _).
Qed.

Lemma set_worker_batches i w w' s : workers s !! i = Some w → worker_batch w' = worker_batch w → batches_ok s → batches_ok (set_worker i w' s).
Proof.
  intros Hi Hb [Hw Hbs]. split; [|done]. intros w0 [->|Hw0]%elem_of_insert_inv; [|by apply Hw].
  rewrite Hb. apply Hw. by eapply list_elem_of_lookup_2.
Qed.

Lemma batches_frame s s' : workers s' = workers s → boots s' = boots s → batches_ok s → batches_ok s'.
Proof. unfold batches_ok. by intros -> ->. Qed.

Lemma response_batches i w resp s : workers s !! i = Some w → batches_ok s → batches_ok (on_response i w resp s).
Proof.
  intros Hi Hb. unfold on_response, process_pulling_result. change (worker_batch (got resp w)) with (worker_batch w).
  assert (Hfail : ∀ s1 ids w', workers s1 = workers s → boots s1 = boots s → worker_batch w' = worker_batch w →
    batches_ok (set_worker i w' (handle_failed_recv (worker_batch w) ids s1))).
  { intros s1 ids w' Hw1 Hb1 Hw'. destruct (handle_failed_frame (worker_batch w) ids s1) as [E1 E2].
    eapply set_worker_batches; [by rewrite E1, Hw1|done|]. eapply batches_frame; [| |exact Hb]; congruence. }
  destruct (rs_status resp); [| |by apply Hfail];
    destruct (each_ok _ s (rs_ok_reqs resp)) as [s1 [e|]] eqn:E; apply each_ok_frame in E as [Hw1 Hb1]; by apply Hfail.
Qed.

(** ** The steps *)

Definition fine (log : list (nat * bool)) (s : receiver) : Prop := accounts log none [] s ∧ batches_ok s.

Lemma start_fine l log s : Forall (λ e : string * list (string * PullReqMeta), NoDup e.2.*1) l →
  fine log s → fine log (start_load_kv target pp_rank pp_size l s).1.
Proof.
  intros Hl. revert s. induction Hl as [|[engine metas] l Hm _ IH]; intros s [Ha Hb]; [done|]. simpl in Hm.
  cbn [start_load_kv]. destruct (add_pulls metas s) as [s1 b] eqn:E.
  assert (Hw1 : workers s1 = workers s ∧ boots s1 = boots s) by (unfold add_pulls in E; by simplify_eq).
  eapply add_pulls_accounts in E as (Ha1 & _ & Hb1 & Hb2 & _); [|exact Ha].
  assert (Hbk : batches_ok s1) by (eapply batches_frame; [| |exact Hb]; by destruct Hw1).
  destruct (is_some _).
  - destruct (receive_kv target pp_rank pp_size engine b s1) as [s2 [e|]] eqn:E2.
    all: assert (Hb3 : batches_ok s2) by (eapply receive_kv_batches; [|exact Hbk|exact E2]; by rewrite Hb1).
    all: eapply receive_kv_accounts in E2 as [Ha2 _]; [|exact Ha1]. 1: by split. by apply IH.
  - apply IH. split.
    + destruct Ha1 as [Hfin Hinv Hnd Href Hbad Hcnt Hgood [Hf1 Hf2]]. split; try done.
      * intros r Hr. apply Href. rewrite elem_of_app. destruct Hr as [Hr|[Hr|(b0 & Hb0 & Hr)]]; [auto..|].
        simpl in Hb0. apply elem_of_app in Hb0 as [Hb0| ->%list_elem_of_singleton]; [right; right; by exists b0|]. auto.
      * simpl. rewrite bind_app. simpl. rewrite <- app_assoc. change (not_started (mkBoot engine b Created)) with b.*2.
        rewrite !app_nil_r in *. done.
    + destruct Hbk as [Hw Hbs]. split; [done|]. intros b0. simpl. rewrite elem_of_app, list_elem_of_singleton.
      intros [?| ->]; [by apply Hbs|]. simpl. by rewrite Hb1.
Qed.

Lemma queries_accounts log fresh f n s : accounts log none fresh s → accounts log none fresh (set_queries f n s).
Proof. intros []. by split. Qed.

Lemma add_agents_accounts log fresh l s :
  accounts log none fresh s → accounts log none fresh (foldl add_agent s l) ∧
  workers (foldl add_agent s l) = workers s ∧ boots (foldl add_agent s l) = boots s.
Proof.
  revert s. induction l as [|e l IH]; intros s Ha; [done|]. cbn [foldl].
  destruct (IH (add_agent s e)) as (? & -> & ->); [by destruct Ha|done].
Qed.

Lemma end_boot_fine i b log s :
  boots s !! i = Some b → boot_state b ≠ BootDone → fine log s →
  ∃ log', fine log' (end_boot target pp_rank pp_size i b s).
Proof.
  intros Hi Hd [Ha Hb]. unfold end_boot.
  assert (Hns : not_started b = (boot_batch b).*2) by (unfold not_started; by destruct (boot_state b)).
  pose proof (set_boot_accounts log [] ((boot_batch b).*2 ++ []) i b BootDone s Hi Ha) as Ha1; rewrite Hns in Ha1; specialize (Ha1 eq_refl (or_introl eq_refl)).
  apply (set_boot_batches i b BootDone s Hi) in Hb as Hb1.
  assert (Hnd : NoDup (boot_batch b).*1) by (apply Hb; by eapply list_elem_of_lookup_2).
  change (remote_agents (set_boot i b BootDone s)) with (remote_agents s). destruct (is_some _).
  - destruct (receive_kv _ _ _ _ _ _) as [s2 e] eqn:E. exists log.
    split; [by eapply receive_kv_accounts in E as [? _]|by eapply receive_kv_batches].
  - destruct (handle_failed_accounts log none ((boot_batch b).*2 ++ []) (boot_batch b) (set_boot i b BootDone s) (boot_batch b).*1)
      as (log' & Ha2 & _); [|done|].
    { intros r Hr. apply (a_refs _ _ _ _ Ha1). left. by rewrite app_nil_r. }
    exists log'. destruct (handle_failed_frame (boot_batch b) (boot_batch b).*1 (set_boot i b BootDone s)) as [E1 E2].
    split; [|by eapply batches_frame].
    destruct Ha2 as [Hfin Hinv Hnd2 Href Hbad Hcnt Hgood [Hf1 Hf2]]. split; try done.
    + intros r Hr. apply Href. destruct Hr as [Hr|Hr]; [by apply elem_of_nil in Hr|auto].
    + rewrite app_nil_r. apply NoDup_app in Hf1 as (? & _). split; [done|]. intros r Hr. apply Hf2. apply elem_of_app. by left.
Qed.

Lemma begin_boot_fine i b log s :
  boots s !! i = Some b → boot_state b = Created → fine log s → fine log (begin_boot i b s).
Proof.
  intros Hi Hd [Ha Hb]. unfold begin_boot.
  assert (Hset : ∀ pc s1, boots s1 = boots s → accounts log none [] s1 → batches_ok s1 → pc ≠ BootDone → fine log (set_boot i b pc s1)).
  { intros pc s1 E Ha1 Hb1 Hpc. assert (Hi1 : boots s1 !! i = Some b) by by rewrite E. split; [|by apply set_boot_batches].
    eapply set_boot_accounts; [exact Hi1|exact Ha1|by destruct pc|right]. unfold not_started; simpl. rewrite Hd. by destruct pc. }
  destruct (bootstrap_addr s (boot_batch b)) as [addr|] eqn:E.
  - destruct (dget (queries s) addr); [by apply Hset|]. apply Hset; [done|by apply queries_accounts|done|done].
  - unfold bootstrap_addr in E. destruct (boot_batch b) as [|[??]] eqn:Eb; [|done]. split; [|by apply set_boot_batches].
    eapply set_boot_accounts; [exact Hi|exact Ha| |by left]. unfold not_started. by rewrite Hd, Eb.
Qed.

(** The metadata of a step names no request twice for one engine. *)
Definition meta_ok (e : event) : Prop :=
  match e with StartLoad l => Forall (λ e : string * list (string * PullReqMeta), NoDup e.2.*1) l | _ => True end.

Lemma step_fine s e s' log : recv_step target pp_rank pp_size s e = Some s' → meta_ok e → fine log s → ∃ log', fine log' s'.
Proof.
  intros H He Hf. destruct e as [l|i|i answer|i|i resp|i| |]; simpl in H.
  - simplify_eq. exists log. by apply start_fine.
  - destruct (boots s !! i) as [b|] eqn:Hi; [|done]. simpl in H. destruct (boot_state b) eqn:Hd; simplify_eq.
    exists log. by apply begin_boot_fine.
  - destruct (boots s !! i) as [b|] eqn:Hi; [|done]. simpl in H. destruct (boot_state b) eqn:Hd; try done.
    destruct (bootstrap_addr _ _) as [addr|]; [|done]. simpl in H. case_decide; simplify_eq. unfold end_query.
    destruct Hf as [Ha Hb]. destruct (add_agents_accounts log [] (default [] answer) s Ha) as (Ha1 & Hw & Hbs).
    apply (end_boot_fine _ _ log); [simpl; by rewrite Hbs|congruence|]. split; [by apply queries_accounts|]. by eapply batches_frame.
  - destruct (boots s !! i) as [b|] eqn:Hi; [|done]. simpl in H. destruct (boot_state b) eqn:Hd; try done.
    destruct (existsb _ _); simplify_eq. apply (end_boot_fine _ _ log); [done|congruence|done].
  - destruct (workers s !! i) as [w|] eqn:Hi; [|done]. simpl in H. destruct (open w); simplify_eq.
    destruct Hf as [Ha Hb]. destruct (response_accounts log [] i w resp s Hi) as [log' Ha1]; [apply Hb; by eapply list_elem_of_lookup_2|done|].
    exists log'. split; [done|]. by apply response_batches.
  - destruct (workers s !! i) as [w|] eqn:Hi; [|done]. simpl in H. destruct (open w); simplify_eq.
    destruct Hf as [Ha Hb]. unfold on_socket_error.
    destruct (fail_all_accounts log none [] s i w (close w)) as [log' Ha1]; [done|done|apply Hb; by eapply list_elem_of_lookup_2| |done|].
    { intros r _. change (worker_oks r (close w)) with (worker_oks r w). unfold none. lia. }
    exists log'. split; [done|]. destruct (handle_failed_frame (worker_batch w) (worker_batch w).*1 s) as [E1 E2].
    eapply set_worker_batches; [by rewrite E1|done|]. by eapply batches_frame.
  - simplify_eq. exists log. destruct Hf as [[] Hb]. split; [|done]. split; try done. simpl. by rewrite app_nil_r.
  - simplify_eq. exists log. destruct Hf as [[] Hb]. split; [|done]. split; try done. simpl. by rewrite app_nil_r.
Qed.

Lemma run_fine es s s' log :
  recv_run target pp_rank pp_size s es = Some s' → Forall meta_ok es → fine log s → ∃ log', fine log' s'.
Proof.
  revert s log. induction es as [|e es IH]; intros s log H Hm Hf; simpl in H; [simplify_eq; by exists log|].
  apply Forall_cons in Hm as [He Hm]. destruct (recv_step target pp_rank pp_size s e) as [s1|] eqn:E; [|done]. simpl in H.
  destruct (step_fine s e s1 log E He Hf) as [log1 Hf1]. by eapply IH.
Qed.

Lemma init_fine : fine [] init_receiver.
Proof.
  split; [|split; intros ? Hin; by apply elem_of_nil in Hin]. split; try done.
  - constructor.
  - intros r [Hr|[Hr|(b & Hb & _)]]; [by apply elem_of_nil in Hr|unfold tasks in Hr; simpl in Hr; change (cnt _ []) with 0 in Hr; lia|by apply elem_of_nil in Hb].
  - intros r. unfold pull_of; simpl. split; [intros Hin; by apply elem_of_nil in Hin|naive_solver].
  - intros r _. change (tasks init_receiver r) with 0. split; [intros Hin; by apply elem_of_nil in Hin|lia].
  - split; [constructor|]. intros r Hr. by apply elem_of_nil in Hr.
Qed.
End recv.
