(* ===== verification/P2PRecvProps.v ===== *)
(** * The raw receiver of the P2P connector: properties

    What the reports to the engine mean, and executions in which a request is
    reported twice, reported while a producer still writes its blocks, or
    never reported; the last two with the sender on the other side. *)

From S2P Require Import Prelude Messages Transfer P2PPlan P2PSched P2PSend P2PSendProps P2PRecv P2PRecvThms.

(** ** Properties *)

(** C29 What a report means: in every execution each pull is reported at most
    once as good and at most once as bad. A pull that has not failed has been
    reported exactly when every one of its tasks has been answered for it, as
    the answers count; a pull was reported as bad exactly when it failed and
    holds blocks, and the blocks given to the engine as invalid are those of
    the bad reports, in their order. *)
Theorem pull_reports target pp_rank pp_size es s :
  recv_run target pp_rank pp_size init_receiver es = Some s → Forall meta_ok es →
  ∃ log : list (nat * bool),
    engine_received s ++ finished_recving s = (λ e : nat * bool, d_req_id (pull_of s e.1)) <$> log ∧ NoDup log ∧
    (∀ r, failed (pull_of s r) = false → ((r, true) ∈ log ↔ 0 < tasks s r ∧ tasks s r ≤ oks s r)) ∧
    (∀ r, (r, false) ∈ log ↔ failed (pull_of s r) = true ∧ blocks_of s r ≠ []) ∧
    engine_invalid s ++ concat (invalid_block_ids s) = log ≫= λ e : nat * bool, if e.2 then [] else blocks_of s e.1.
Proof.
  intros H Hm. destruct (run_fine _ _ _ _ _ _ [] H Hm (init_fine target pp_rank)) as (log & [Hfin Hinv Hnd _ Hbad _ Hgood _] & _).
  exists log. split_and!; try done. intros r Hr. rewrite (Hgood r Hr). unfold none. by rewrite Z.add_0_r.
Qed.

(** A step with two requests for an engine of one or two ranks. *)
Definition ex_pull (id tid : string) (blocks : list (list Z)) : string * PullReqMeta :=
  (id, mkPullMeta id tid blocks "engine-0" "http://prefill" None).

Definition ex_agents (ranks : list Z) : list (string * list (Z * list (Z * string))) :=
  [("engine-0", (λ r, (r, [(0, "tcp://prefill")])) <$> ranks)].

Definition ex_start (l : list (string * PullReqMeta)) (ranks : list Z) : list P2PRecv.event :=
  [StartLoad [("engine-0", l)]; BeginBoot 0; QueryDone 0 (Some (ex_agents ranks))].

Notation ex_recv := (recv_run ex_targets 0 1).

Definition ex_received (es : list P2PRecv.event) : receiver := default init_receiver (ex_recv init_receiver es).

Definition ex_two : list (string * PullReqMeta) := [ex_pull "d1" "t1" [[7; 8]]; ex_pull "d2" "t2" [[9]]].

Definition ex_good : list P2PRecv.event :=
  ex_start ex_two [0] ++
  [Response 0 (mkResponse CONTINUE ["d1"] [] None); Response 0 (mkResponse FINISH [] ["d2"] (Some TimedOut)); P2PRecv.GetFinished].

Lemma pull_reports_witness :
  engine_received (ex_received ex_good) = ["d1"; "d2"] ∧ concat (invalid_block_ids (ex_received ex_good)) = [9] ∧
  ∃ log : list (nat * bool),
    engine_received (ex_received ex_good) ++ finished_recving (ex_received ex_good)
      = (λ e : nat * bool, d_req_id (pull_of (ex_received ex_good) e.1)) <$> log ∧ NoDup log ∧
    (∀ r, failed (pull_of (ex_received ex_good) r) = false →
       ((r, true) ∈ log ↔ 0 < tasks (ex_received ex_good) r ∧ tasks (ex_received ex_good) r ≤ oks (ex_received ex_good) r)) ∧
    (∀ r, (r, false) ∈ log ↔ failed (pull_of (ex_received ex_good) r) = true ∧ blocks_of (ex_received ex_good) r ≠ []) ∧
    engine_invalid (ex_received ex_good) ++ concat (invalid_block_ids (ex_received ex_good))
      = log ≫= λ e : nat * bool, if e.2 then [] else blocks_of (ex_received ex_good) e.1.
Proof.
  split; [vm_compute; reflexivity|]. split; [vm_compute; reflexivity|].
  apply (pull_reports ex_targets 0 1 ex_good); [vm_compute; reflexivity|].
  repeat constructor; simpl; rewrite ?list_elem_of_singleton; try done; by intros ?%elem_of_nil.
Defined.

(** A received request is reported again: the producer has answered for d1
    and the engine was told that it was received; then the socket fails, which
    fails every request of the step: d1 is reported a second time, and the
    blocks the engine already uses are given to it as invalid. *)
Theorem received_twice :
  ∃ s s', ex_recv init_receiver (ex_start ex_two [0] ++ [Response 0 (mkResponse CONTINUE ["d1"] [] None); P2PRecv.GetFinished]) = Some s ∧
    engine_received s = ["d1"] ∧ engine_invalid s = [] ∧
    ex_recv s [SocketError 0; P2PRecv.GetFinished; GetErrors] = Some s' ∧
    engine_received s' = ["d1"; "d1"; "d2"] ∧ engine_invalid s' = [7; 8; 9].
Proof.
  exists (ex_received (ex_start ex_two [0] ++ [Response 0 (mkResponse CONTINUE ["d1"] [] None); P2PRecv.GetFinished])),
    (ex_received (ex_start ex_two [0] ++ [Response 0 (mkResponse CONTINUE ["d1"] [] None);
    P2PRecv.GetFinished; SocketError 0; P2PRecv.GetFinished; GetErrors])).
  split; [vm_compute; reflexivity|]. split_and!; vm_compute; reflexivity.
Qed.

(** What another producer rank does meanwhile. *)
Definition ex_other_rank : list P2PSend.event :=
  [Contact (ex_ask 0 [("d1", ("t1", [[7; 8]]))]); ex_announce "p1" "t1" [[1; 2]]; Ready 0 [("d1", 0%nat)]].

(** A request is given back while it is written: one of two producer ranks
    answers that d1 failed; the decoder reports it and its blocks at once,
    while the other rank is writing into these very blocks, and ignores its
    answer. *)
Theorem reported_while_written :
  let start := ex_start [ex_pull "d1" "t1" [[7; 8]]] [0; 1] in
  ∃ s p, ex_recv init_receiver (start ++ [Response 1 (mkResponse FINISH [] ["d1"] (Some TimedOut)); P2PRecv.GetFinished; GetErrors]) = Some s ∧
    engine_received s = ["d1"] ∧ engine_invalid s = [7; 8] ∧ (P2PRecv.open <$> workers s !! 0%nat) = Some true ∧
    ex_run init_sender ex_other_rank = Some p ∧
    (∃ t plan, contacts p !! 0%nat = Some t ∧ pc t = Writing [("d1", 0%nat)] plan ∧
       dst <$> copies plan = [65536 + 7 * 128; 65536 + 8 * 128]) ∧
    ∃ p' r, ex_run p [Written 0 (Ok 0)] = Some p' ∧ (contacts p' ≫= replies) = [r] ∧ rs_ok_reqs r = ["d1"] ∧
      ∃ s', ex_recv s [Response 0 r; P2PRecv.GetFinished] = Some s' ∧ engine_received s' = ["d1"].
Proof.
  intros start. exists (ex_received (start ++ [Response 1 (mkResponse FINISH [] ["d1"] (Some TimedOut)); P2PRecv.GetFinished; GetErrors])),
    (ex_after ex_other_rank).
  do 5 (split; [vm_compute; reflexivity|]). split.
  { eexists _, _. split; [vm_compute; reflexivity|]. split; vm_compute; reflexivity. }
  exists (ex_after (ex_other_rank ++ [Written 0 (Ok 0)])). eexists. split; [vm_compute; reflexivity|]. split; [vm_compute; reflexivity|].
  split; [vm_compute; reflexivity|].
  exists (ex_received (start ++ [Response 1 (mkResponse FINISH [] ["d1"] (Some TimedOut)); P2PRecv.GetFinished; GetErrors;
    Response 0 (mkResponse FINISH ["d1"] [] None); P2PRecv.GetFinished])). split; vm_compute; reflexivity.
Qed.

(** The second request is announced and expires while the first is written. *)
Definition ex_expired : list P2PSend.event :=
  ex_writing ++ [ex_announce "p2" "t2" [[3]]; Tick 481; Sweep; P2PSend.GetFinished; Written 0 (Ok 0); Ready 0 [("d2", 1%nat)]].

(** A request is never reported: the producer's entry for d2 expires, so
    that its last answer names no request at all; the decoder takes the answer
    for the end, has no task left, and reports d2 neither as received nor as
    failed. *)
Theorem expired_never_reported :
  ∃ p, ex_run init_sender ex_expired = Some p ∧ engine_finished p = ["p2"] ∧
    ∃ r1 r2, (contacts p ≫= replies) = [r1; r2] ∧
    ∃ s, ex_recv init_receiver (ex_start ex_two [0] ++ [Response 0 r1; Response 0 r2; P2PRecv.GetFinished]) = Some s ∧
      engine_received s = ["d1"] ∧ failed (pull_of s 1) = false ∧
      Forall (λ w, P2PRecv.open w = false) (workers s) ∧ Forall (λ b, boot_state b = BootDone) (boots s).
Proof.
  exists (ex_after ex_expired). split; [vm_compute; reflexivity|]. split; [vm_compute; reflexivity|].
  eexists _, _. split; [vm_compute; reflexivity|].
  exists (ex_received (ex_start ex_two [0] ++ [Response 0 (mkResponse CONTINUE ["d1"] [] None); Response 0 (mkResponse FINISH [] [] None); P2PRecv.GetFinished])).
  split; [vm_compute; reflexivity|]. split; [vm_compute; reflexivity|]. split; [vm_compute; reflexivity|].
  split; vm_compute; repeat constructor.
Qed.
