(* ===== verification/Wire.v ===== *)
(** * The wire format of the v1 product

    [compression/wire.py]: compressed KV data as a dict of metadata and a list
    of byte tensors for NCCL, and back. A tensor is its shape, the name of its
    dtype and its bytes in contiguous order ([contiguous()] and the device are
    invisible); torch's table of dtypes is a class. *)

From S2P Require Import Prelude PyData.

(** ** Tensors *)

(** [getattr(torch, name)] and its [element_size()]. *)
Class Dtypes := {
  element_size : string → option Z;
  element_size_pos d k : element_size d = Some k → 0 < k;
  uint8_size : element_size "uint8" = Some 1
}.

Record tensor := mkTensor { shape : list Z; dtype : string; data : list Z }.

Definition prod (l : list Z) : Z := foldr Z.mul 1 l.

Definition numel (t : tensor) : Z := prod (shape t).

Section tensors.
Context `{D : !Dtypes}.

Definition itemsize (t : tensor) : Z := default 1 (element_size (dtype t)).

Definition nbytes (t : tensor) : Z := numel t * itemsize t.

(** A tensor as torch makes them. *)
Record tensor_ok (t : tensor) : Prop := {
  ok_dtype : is_Some (element_size (dtype t));
  ok_shape : Forall (λ n, 0 ≤ n) (shape t);
  ok_data : zlen (data t) = nbytes t
}.

Definition byte_tensor (l : list Z) : tensor := mkTensor [zlen l] "uint8" l.

(** [t.view(torch.uint8)]: a tensor without dimensions has no bytes to view
    unless its elements are bytes. *)
Definition view_uint8 (t : tensor) : result (list Z) :=
  raise_if (bool_decide (shape t = []) && negb (itemsize t =? 1)) (RuntimeError "view of a tensor without dimensions") ;?
  Ok (data t).

(** [b.view(dtype).reshape(shape)] of bytes at [offset] of their storage. *)
Definition view_as (dtype : string) (shape : list Z) (offset : Z) (b : list Z) : result tensor :=
  let? k := of_option AttributeError (element_size dtype) in
  raise_if (negb (offset mod k =? 0) || negb (zlen b mod k =? 0)) (RuntimeError "view of misaligned bytes") ;?
  raise_if (negb (forallb (λ n, 0 <=? n) shape) || negb (prod shape * k =? zlen b)) (RuntimeError "shape is invalid for the input") ;?
  Ok (mkTensor shape dtype b).

End tensors.

(** ** Python objects *)

Inductive key := KStr (s : string) | KInt (z : Z).

#[global] Instance key_eq_dec : EqDecision key.
Proof. solve_decision. Defined.

Inductive obj : Type :=
  | ONone
  | OBool (b : bool)
  | OInt (z : Z)
  | OFloat (f : float)
  | OStr (s : string)
  | OTensor (t : tensor)
  | OList (l : list obj)
  | OTuple (l : list obj)
  | ODict (d : list (key * obj)).

Definition meta_dict := list (key * obj).

Definition get (d : meta_dict) (k : string) : option obj := dget d (KStr k).

(** [d[k]] and [d.get(k)] of a value that must be a dict. *)
Definition as_dict (o : obj) : result meta_dict :=
  match o with ODict d => Ok d | _ => Err TypeError end.

Definition item (o : obj) (k : string) : result obj :=
  let? d := as_dict o in of_option KeyError (get d k).

Definition get_of (o : obj) (k : string) : result (option obj) :=
  match o with ODict d => Ok (get d k) | _ => Err AttributeError end.

Definition truthy_obj (o : obj) : bool :=
  match o with
  | ONone => false
  | OBool b => b
  | OInt z => negb (z =? 0)
  | OFloat f => negb (F.eqb f F.zero)
  | OStr s => negb (bool_decide (s = ""%string))
  | OTensor _ => true
  | OList l | OTuple l => match l with [] => false | _ => true end
  | ODict d => match d with [] => false | _ => true end
  end.

Definition obj_int (o : obj) : result Z :=
  match o with
  | OBool b => Ok (Z.b2z b)
  | OInt z => Ok z
  | OFloat f => of_option (ValueError "cannot convert float to integer") (F.trunc f)
  | OStr s => of_option (ValueError "invalid literal for int()") (int_of_str s)
  | _ => Err TypeError
  end.

Definition as_name (o : obj) : result string := match o with OStr s => Ok s | _ => Err TypeError end.

(** The elements of a list; nothing else is iterated over here. *)
Definition as_list (o : obj) : result (list obj) :=
  match o with OList l | OTuple l => Ok l | _ => Err TypeError end.

Definition as_shape (o : obj) : result (list Z) := let? l := as_list o in rmap obj_int l.

(** ** Compressed data and its wire form *)

Record CompressedKVData := mkKVData {
  cd_request_id : string;
  layer_id : Z;
  compressed_tensor : option tensor;
  metadata : obj;
  original_size : Z;
  compressed_size : Z;
  is_chunked : bool;
  chunks : option (list tensor);
  chunk_metadata : option (list obj)
}.

Record CompressedWire := mkWire {
  meta : meta_dict;
  body_chunks : list tensor;
  aux_tensors : list tensor
}.

(** ** Metadata *)

Definition AUX_PLACEHOLDER : string := "__kvserve_aux_tensor__".

(** A loop over items that puts tensors aside, and the values of a dict. *)
Definition aside {A} (f : A → list tensor → A * list tensor) : list A → list tensor → list A * list tensor :=
  fix go l aux :=
    match l with
    | [] => ([], aux)
    | x :: l => let (x, aux) := f x aux in let (l, aux) := go l aux in (x :: l, aux)
    end.

Definition on_value (f : obj → list tensor → obj * list tensor) (e : key * obj) (aux : list tensor) :
    (key * obj) * list tensor :=
  let (x, aux) := f e.2 aux in ((e.1, x), aux).

Fixpoint pack_qparams (o : obj) (aux : list tensor) : obj * list tensor :=
  match o with
  | OTensor t => (OList [OStr AUX_PLACEHOLDER; OInt (zlen aux)], aux ++ [t])
  | ODict d => let (d, aux) := aside (on_value pack_qparams) d aux in (ODict d, aux)
  | OList l | OTuple l => let (l, aux) := aside pack_qparams l aux in (OList l, aux)
  | _ => (o, aux)
  end.

Definition QPARAMS : string := "quantization_params".

Definition pack_metadata (o : obj) (aux : list tensor) : obj * list tensor :=
  match o with
  | ODict d =>
      match get d QPARAMS with
      | Some q => let (q, aux) := pack_qparams q aux in (ODict (dset d (KStr QPARAMS) q), aux)
      | None => (o, aux)
      end
  | _ => (o, aux)
  end.

Definition placeholder_index (o : obj) : option obj :=
  match o with
  | OList [OStr s; i] => if bool_decide (s = AUX_PLACEHOLDER) then Some i else None
  | _ => None
  end.

Fixpoint unpack_qparams (aux : list tensor) (o : obj) : result obj :=
  match placeholder_index o with
  | Some i => let? i := obj_int i in let? t := py_index aux i in Ok (OTensor t)
  | None =>
      match o with
      | ODict d => let? d := rmap (λ e : key * obj, let? x := unpack_qparams aux e.2 in Ok (e.1, x)) d in Ok (ODict d)
      | OList l => let? l := rmap (unpack_qparams aux) l in Ok (OList l)
      | _ => Ok o
      end
  end.

Definition unpack_metadata (aux : list tensor) (o : obj) : result obj :=
  match o with
  | ODict d =>
      match get d QPARAMS with
      | Some q => let? q := unpack_qparams aux q in Ok (ODict (dset d (KStr QPARAMS) q))
      | None => Ok o
      end
  | _ => Ok o
  end.

Fixpoint has_tensor (o : obj) : bool :=
  match o with
  | OTensor _ => true
  | ODict d => existsb (λ e : key * obj, has_tensor e.2) d
  | OList l | OTuple l => existsb has_tensor l
  | _ => false
  end.

Definition assert_no_tensor (d : meta_dict) : result unit := raise_if (has_tensor (ODict d)) TypeError.

(** ** Auxiliary tensors in one *)

Section wire.
Context `{D : !Dtypes} (repr : obj → string).

Definition ints (l : list Z) : obj := OList (OInt <$> l).

Definition aux_entry (offset : Z) (t : tensor) : obj :=
  ODict [(KStr "storage", OInt 0); (KStr "offset", OInt offset); (KStr "nbytes", OInt (nbytes t));
         (KStr "shape", ints (shape t)); (KStr "dtype", OStr (dtype t))].

(** The bytes so far, the layout table and the offset. *)
Definition add_aux (acc : list Z * list obj * Z) (t : tensor) : list Z * list obj * Z :=
  let '(bytes, layout, offset) := acc in
  let padding := (- offset) mod itemsize t in
  let offset := offset + padding in
  (bytes ++ replicate (Z.to_nat padding) 0 ++ data t, layout ++ [aux_entry offset t], offset + nbytes t).

Definition coalesce_aux_tensors (m : meta_dict) (aux : list tensor) : meta_dict * list tensor :=
  if (length aux <=? 1)%nat then (m, aux)
  else
    let '(bytes, layout, _) := foldl add_aux ([], [], 0) aux in
    (dset m (KStr "aux_layout") (ODict [(KStr "mode", OStr "coalesced_bytes"); (KStr "tensors", OList layout)]),
     [byte_tensor bytes]).

(** [l[start:end]] for bounds that are not negative *)
Definition slice {A} (l : list A) (start stop : Z) : list A := take (Z.to_nat (stop - start)) (drop (Z.to_nat start) l).

Definition expand_entry (storage : list Z) (o : obj) : result tensor :=
  let? s := get_of o "storage" in
  let? s := obj_int (default (OInt 0) s) in
  raise_if (negb (s =? 0)) (ValueError "Only single-storage aux_layout is supported") ;?
  let? start := item o "offset" in
  let? start := obj_int start in
  let? n := item o "nbytes" in
  let? n := obj_int n in
  let? d := item o "dtype" in
  let? d := as_name d in
  let? sh := item o "shape" in
  let? sh := as_shape sh in
  view_as d sh start (slice storage start (start + n)).

Definition expand_aux_tensors (wire_aux : list tensor) (aux_layout : option obj) : result (list tensor) :=
  match aux_layout with
  | None => Ok wire_aux
  | Some layout =>
      if negb (truthy_obj layout) then Ok wire_aux
      else
        let? mode := get_of layout "mode" in
        raise_if (match mode with Some (OStr s) => negb (bool_decide (s = "coalesced_bytes"%string)) | _ => true end)
          (ValueError "Unknown aux_layout mode") ;?
        match wire_aux with
        | [] => Ok []
        | t :: _ =>
            let? storage := view_uint8 t in
            let? entries := get_of layout "tensors" in
            let? entries := as_list (default (OList []) entries) in
            rmap (expand_entry storage) entries
        end
  end.

(** ** The body *)

(** [range(0, n, step)] *)
Definition range_step (n step : Z) : list Z := (λ i, i * step) <$> seqZ 0 ((n + step - 1) / step).

Definition split_tensor_bytes (t : tensor) (max_chunk_bytes : Z) : result (list tensor) :=
  raise_if (max_chunk_bytes <=? 0) (ValueError "max_chunk_bytes must be positive") ;?
  let? bytes := view_uint8 t in
  Ok ((λ start, byte_tensor (slice bytes start (start + max_chunk_bytes))) <$> range_step (zlen bytes) max_chunk_bytes).

Definition tensor_spec (t : tensor) : obj := ODict [(KStr "shape", ints (shape t)); (KStr "dtype", OStr (dtype t))].

Definition restore_tensor_from_bytes (bytes : list Z) (spec : obj) : result tensor :=
  let? d := item spec "dtype" in
  let? d := as_name d in
  let? sh := item spec "shape" in
  let? sh := as_shape sh in
  view_as d sh 0 bytes.

(** ** Building and restoring *)

(** The entries both kinds of data have. *)
Definition base_meta (c : CompressedKVData) (packed : obj) : meta_dict :=
  [(KStr "is_chunked", OBool (is_chunked c)); (KStr "layer_id", OInt (layer_id c));
   (KStr "original_size", OInt (original_size c)); (KStr "compressed_size", OInt (compressed_size c));
   (KStr "metadata", packed)].

Definition finish_wire (m : meta_dict) (body aux : list tensor) : result CompressedWire :=
  let (m, aux) := coalesce_aux_tensors m aux in
  let? _ := assert_no_tensor m in
  Ok (mkWire m body aux).

Definition build_wire (c : CompressedKVData) (max_chunk_bytes : Z) : result CompressedWire :=
  if is_chunked c then
    match chunks c, chunk_metadata c with
    | Some (x :: xs), Some (y :: ys) =>
        let (packed, aux) := pack_metadata (metadata c) [] in
        let (metas, aux) := aside pack_metadata (y :: ys) aux in
        finish_wire (base_meta c packed ++ [(KStr "chunk_metadata", OList metas); (KStr "body_mode", OStr "manager_chunks")])
          (x :: xs) aux
    | _, _ => Err (ValueError "Chunked CompressedKVData is missing chunks or metadata")
    end
  else
    match compressed_tensor c with
    | None => Err (ValueError "Non-chunked CompressedKVData is missing compressed_tensor")
    | Some body =>
        let? (body_chunks, body_mode) :=
          if max_chunk_bytes <? nbytes body
          then let? l := split_tensor_bytes body max_chunk_bytes in Ok (l, "byte_chunks"%string)
          else Ok ([body], "single"%string) in
        let (packed, aux) := pack_metadata (metadata c) [] in
        finish_wire (base_meta c packed ++ [(KStr "body_mode", OStr body_mode); (KStr "body_spec", tensor_spec body)])
          body_chunks aux
    end.

(** [str(o)] *)
Definition py_str (o : obj) : string :=
  match o with
  | OStr s => s
  | OInt z => str_of_Z z
  | ONone => "None"
  | OBool b => if b then "True" else "False"
  | _ => repr o
  end.

Definition request_id_of (m : obj) : string :=
  match m with
  | ODict d => match get d "request_id" with Some o => py_str o | None => "unknown" end
  | _ => "unknown"
  end.

Definition int_entry (m : meta_dict) (k : string) (d : Z) : result Z := obj_int (default (OInt d) (get m k)).

Definition restore_from_wire (w : CompressedWire) : result CompressedKVData :=
  let m := meta w in
  let? aux := expand_aux_tensors (aux_tensors w) (get m "aux_layout") in
  let? chunked := of_option KeyError (get m "is_chunked") in
  let? inner := unpack_metadata aux (default ONone (get m "metadata")) in
  let request_id := request_id_of inner in
  if truthy_obj chunked then
    let? layer := int_entry m "layer_id" (-1) in
    let? original := int_entry m "original_size" 0 in
    let? compressed := int_entry m "compressed_size" 0 in
    let? metas := as_list (default (OList []) (get m "chunk_metadata")) in
    let? metas := rmap (unpack_metadata aux) metas in
    Ok (mkKVData request_id layer None inner original compressed true (Some (body_chunks w)) (Some metas))
  else
    let? t :=
      match get m "body_mode" with
      | Some (OStr "byte_chunks") =>
          let? parts := rmap view_uint8 (body_chunks w) in
          let? spec := of_option KeyError (get m "body_spec") in
          raise_if (bool_decide (parts = [])) (RuntimeError "expected a non-empty list of Tensors") ;?
          restore_tensor_from_bytes (concat parts) spec
      | _ => of_option IndexError (head (body_chunks w))
      end in
    let? layer := int_entry m "layer_id" (-1) in
    let? original := int_entry m "original_size" 0 in
    let? compressed := int_entry m "compressed_size" 0 in
    Ok (mkKVData request_id layer (Some t) inner original compressed false None None).

End wire.
