(* ===== verification/WireThms.v ===== *)
(** * The wire format: round trip

    Packing puts the tensors of the quantization parameters aside and keeps
    their places; coalescing lays their bytes out so that each can be viewed
    again; splitting the body loses nothing. Together: what the consumer
    restores is what the producer built. *)

From S2P Require Import Prelude PyData Wire.

Section wire.
Context `{D : !Dtypes}.

(** ** What comes back *)

(** Tuples among the quantization parameters come back as lists. *)
Fixpoint normal (o : obj) : obj :=
  match o with
  | OList l | OTuple l => OList (map normal l)
  | ODict d => ODict (map (λ e : key * obj, (e.1, normal e.2)) d)
  | _ => o
  end.

Definition normal_meta (o : obj) : obj :=
  match o with
  | ODict d => match get d QPARAMS with Some q => ODict (dset d (KStr QPARAMS) (normal q)) | None => o end
  | _ => o
  end.

(** Quantization parameters whose tensors are proper and which have no list
    that looks like a placeholder. *)
Fixpoint clean (o : obj) : Prop :=
  match o with
  | OTensor t => tensor_ok t
  | OList l | OTuple l => placeholder_index (OList l) = None ∧ foldr (λ x P, clean x ∧ P) True l
  | ODict d => foldr (λ (e : key * obj) P, clean e.2 ∧ P) True d
  | _ => True
  end.

Definition qparams_of (o : obj) : obj :=
  match o with ODict d => default ONone (get d QPARAMS) | _ => ONone end.

(** [o] without its quantization parameters has no tensor. *)
Definition plain (o : obj) : Prop :=
  match o with ODict d => has_tensor (ODict (dset d (KStr QPARAMS) ONone)) = false | _ => has_tensor o = false end.

Definition meta_ok (o : obj) : Prop := clean (qparams_of o) ∧ plain o.

Lemma foldr_Forall {A} (P : A → Prop) l : foldr (λ x Q, P x ∧ Q) True l ↔ Forall P l.
Proof. induction l; simpl; [by split|]. by rewrite Forall_cons, IHl. Qed.

Definition compound (o : obj) : bool := match o with OList _ | OTuple _ | ODict _ => true | _ => false end.

Lemma obj_ind' (P : obj → Prop) :
  (∀ l, Forall P l → P (OList l)) → (∀ l, Forall P l → P (OTuple l)) →
  (∀ d : meta_dict, Forall (λ e : key * obj, P e.2) d → P (ODict d)) →
  (∀ o, compound o = false → P o) → ∀ o, P o.
Proof.
  intros Hl Ht Hd Hr. fix IH 1. intros o. destruct (compound o) eqn:E; [|exact (Hr o E)]. destruct o as [| | | | | |l|l|d]; try discriminate E.
  - apply Hl. induction l; constructor; auto.
  - apply Ht. induction l; constructor; auto.
  - apply Hd. induction d as [|[]]; constructor; auto.
Qed.

(** ** Packing *)

(** A value is packed to [p], its tensors [new] are put at the end of [aux],
    and whatever follows them, they are found again. *)
Definition packed_as {A B} (f : A → list tensor → A * list tensor) (g : list tensor → A → result B) (bad : A → bool)
    (R : A → A → Prop) (x : A) (y : B) : Prop :=
  ∀ aux, ∃ p new, f x aux = (p, aux ++ new) ∧ Forall tensor_ok new ∧ bad p = false ∧ R x p ∧
    ∀ ext, g ((aux ++ new) ++ ext) p = Ok y.

Lemma aside_spec {A B} f (g : list tensor → A → result B) bad R (n : A → B) l :
  Forall (λ x, packed_as f g bad R x (n x)) l →
  packed_as (aside f) (λ aux, rmap (g aux)) (existsb bad) (Forall2 R) l (map n l).
Proof.
  induction 1 as [|x l Hx Hl IH]; intros aux.
  - exists [], []. rewrite !app_nil_r. by repeat constructor.
  - destruct (Hx aux) as (p & new & Hf & Hok & Hb & HR & Hg).
    destruct (IH (aux ++ new)) as (l' & new' & Hf' & Hok' & Hb' & HR' & Hg').
    exists (p :: l'), (new ++ new'). simpl. rewrite Hf, Hf', Hb, Hb', !app_assoc. split_and!; try done.
    + by apply Forall_app.
    + by constructor.
    + intros ext. rewrite <- (app_assoc (aux ++ new) new' ext), Hg, (app_assoc (aux ++ new)). simpl. by rewrite Hg'.
Qed.

(** A string is packed as itself and nothing else becomes one. *)
Definition same_str (o p : obj) : Prop := ∀ s, p = OStr s → o = OStr s.

Lemma placeholder_index_list l l' :
  Forall2 same_str l l' → placeholder_index (OList l) = None → placeholder_index (OList l') = None.
Proof.
  intros H. destruct H as [|x y l l' Hxy H]; [done|]. destruct H as [|x2 y2 l l' _ H]; [by destruct y|].
  destruct H; [|by destruct y]. destruct y; try done. rewrite (Hxy s eq_refl). simpl. by case_bool_decide.
Qed.

Lemma placeholder_of i : placeholder_index (OList [OStr AUX_PLACEHOLDER; i]) = Some i.
Proof. reflexivity. Qed.

Lemma py_index_end (aux : list tensor) t ext : py_index ((aux ++ [t]) ++ ext) (zlen aux) = Ok t.
Proof.
  rewrite py_index_nonneg by (unfold zlen; lia). unfold zlen. rewrite Nat2Z.id, <- app_assoc.
  simpl. by rewrite (list_lookup_middle aux ext t (length aux)) by done.
Qed.

Notation packable := (λ o, packed_as pack_qparams unpack_qparams has_tensor same_str o (normal o)).

Lemma pack_list_spec l aux :
  placeholder_index (OList l) = None → Forall packable l →
  ∃ p new, (let (l', aux') := aside pack_qparams l aux in (OList l', aux')) = (p, aux ++ new) ∧ Forall tensor_ok new ∧
    has_tensor p = false ∧ (∀ s, p ≠ OStr s) ∧ ∀ ext, unpack_qparams ((aux ++ new) ++ ext) p = Ok (OList (map normal l)).
Proof.
  intros Hp Hl. destruct (aside_spec _ _ _ _ normal l Hl aux) as (l' & new & Hf & Hok & Hb & HR & Hg).
  exists (OList l'), new. rewrite Hf. split_and!; try done. intros ext. cbn [unpack_qparams].
  by rewrite (placeholder_index_list _ _ HR Hp), Hg.
Qed.

Lemma pack_value_spec (e : key * obj) :
  packable e.2 →
  packed_as (on_value pack_qparams) (λ aux (e : key * obj), let? x := unpack_qparams aux e.2 in Ok (e.1, x))
    (λ e : key * obj, has_tensor e.2) (λ _ _, True) e (e.1, normal e.2).
Proof.
  intros He aux. destruct (He aux) as (p & new & Hf & Hok & Hb & HR & Hg). exists (e.1, p), new.
  unfold on_value. rewrite Hf. split_and!; try done. intros ext. simpl. by rewrite Hg.
Qed.

Lemma pack_qparams_spec o : clean o → packable o.
Proof.
  revert o. apply (obj_ind' (λ o, clean o → packable o)); [intros l IH Hc aux|intros l IH Hc aux|intros d IH Hc aux|intros o Ho Hc aux].
  1, 2: destruct Hc as [Hp Hc%foldr_Forall];
    destruct (pack_list_spec l aux Hp) as (p & new & Hf & ? & ? & Hs & ?);
    [by eapply Forall_impl; [apply Forall_and; split; [exact IH|exact Hc]|intros ? [Hx ?]; auto]|];
    exists p, new; split_and!; try done; intros s ->; by destruct (Hs s).
  - apply foldr_Forall in Hc.
    destruct (aside_spec (on_value pack_qparams)
      (λ aux (e : key * obj), let? x := unpack_qparams aux e.2 in Ok (e.1, x)) (λ e : key * obj, has_tensor e.2) (λ _ _, True)
      (λ e : key * obj, (e.1, normal e.2)) d) with (aux := aux) as (d' & new & Hf & Hok & Hb & _ & Hg).
    { eapply Forall_impl; [apply Forall_and; split; [exact IH|exact Hc]|]. intros e [Hx ?]. apply pack_value_spec; auto. }
    exists (ODict d'), new. cbn [pack_qparams]. rewrite Hf. split_and!; try done. intros ext. cbn [unpack_qparams placeholder_index].
    by rewrite Hg.
  - destruct o as [| | | | |t| | |]; try done.
    1-5: eexists _, []; rewrite !app_nil_r; split_and!; try done; by intros ? ?.
    eexists _, [t]. split; [reflexivity|]. split; [by constructor|]. split; [done|]. split; [done|]. intros ext.
    cbn [unpack_qparams]. rewrite placeholder_of. simpl. by rewrite py_index_end.
Qed.

(** ** Metadata *)

Lemma dset_dset (d : meta_dict) k x y : dset (dset d k x) k y = dset d k y.
Proof.
  induction d as [|[k' z] d IH]; simpl; [by destruct (decide (k = k))|].
  destruct (decide (k = k')) as [->|]; simpl; [by destruct (decide (k' = k'))|].
  destruct (decide (k = k')); [done|]. by rewrite IH.
Qed.

Lemma has_tensor_dset d k x :
  has_tensor (ODict (dset d k ONone)) = false → has_tensor x = false → has_tensor (ODict (dset d k x)) = false.
Proof.
  simpl. intros Hd Hx. induction d as [|[k' z] d IH]; simpl in *; [by rewrite Hx|].
  destruct (decide (k = k')); simpl in *; [by rewrite Hx|]. apply orb_false_iff in Hd as [-> Hd]. by apply IH.
Qed.

Lemma has_tensor_absent d k : dget d k = None → has_tensor (ODict (dset d k ONone)) = false → has_tensor (ODict d) = false.
Proof. intros Hk. rewrite dset_absent by done. simpl. rewrite existsb_app. by intros [? _]%orb_false_iff. Qed.

Lemma pack_metadata_spec o : meta_ok o → packed_as pack_metadata unpack_metadata has_tensor (λ _ _, True) o (normal_meta o).
Proof.
  intros [Hc Hp] aux. destruct o as [| | | | | | | |d].
  1-8: eexists _, []; rewrite !app_nil_r; by repeat split.
  simpl in *. destruct (get d QPARAMS) as [q|] eqn:Eq.
  - destruct (pack_qparams_spec q Hc aux) as (p & new & Hf & Hok & Hb & _ & Hg). rewrite Hf.
    eexists _, new. split; [reflexivity|]. split; [done|]. split; [by apply has_tensor_dset|]. split; [done|].
    intros ext. simpl. unfold get. rewrite dget_dset_eq, Hg. simpl. by rewrite dset_dset.
  - eexists _, []. rewrite !app_nil_r. split_and!; try done; [by eapply has_tensor_absent|]. intros ext. simpl. by rewrite Eq.
Qed.

(** ** Coalescing *)

Lemma prod_nonneg l : Forall (λ n, 0 ≤ n) l → 0 ≤ prod l.
Proof. induction 1; simpl; lia. Qed.

Lemma as_shape_ints l : as_shape (ints l) = Ok l.
Proof. unfold as_shape, ints. cbn [as_list rbind]. induction l as [|z l IH]; [done|]. rewrite fmap_cons. cbn [rmap]. by rewrite IH. Qed.

Lemma has_tensor_ints l : has_tensor (ints l) = false.
Proof. unfold ints. cbn [has_tensor]. induction l as [|z l IH]; [done|]. by rewrite fmap_cons. Qed.

Lemma itemsize_pos t : 0 < itemsize t.
Proof. unfold itemsize. destruct (element_size (dtype t)) eqn:E; simpl; [by eapply element_size_pos|lia]. Qed.

Lemma view_as_data t off :
  tensor_ok t → off mod itemsize t = 0 → view_as (dtype t) (shape t) off (data t) = Ok t.
Proof.
  intros [[k Hk] Hs Hd] Ho. pose proof (itemsize_pos t) as Hpos.
  assert (Hi : itemsize t = k) by (unfold itemsize; by rewrite Hk). rewrite Hi in *.
  unfold nbytes, numel in Hd. rewrite Hi in Hd. unfold view_as. rewrite Hk. simpl. rewrite Ho, Hd, Z.mod_mul by lia. simpl.
  rewrite Z.eqb_refl. simpl.
  replace (forallb (λ n, 0 <=? n) (shape t)) with true; [by destruct t|].
  symmetry. apply forallb_forall. intros n Hn%list_elem_of_In. eapply Forall_forall in Hs; [|done]. by apply Z.leb_le.
Qed.

Lemma slice_app {A} (l1 l2 l3 : list A) a b :
  a = zlen l1 → b = a + zlen l2 → slice (l1 ++ l2 ++ l3) a b = l2.
Proof.
  intros -> ->. unfold slice, zlen. rewrite Nat2Z.id, drop_app_length.
  replace (Z.to_nat (Z.of_nat (length l1) + Z.of_nat (length l2) - Z.of_nat (length l1))) with (length l2) by lia.
  by rewrite take_app_length.
Qed.

Lemma expand_aux_entry t off pre post :
  tensor_ok t → off = zlen pre → off mod itemsize t = 0 → expand_entry (pre ++ data t ++ post) (aux_entry off t) = Ok t.
Proof.
  intros Ht Ho Hm. unfold expand_entry, aux_entry. simpl. rewrite as_shape_ints. simpl.
  rewrite slice_app; [by apply view_as_data|done|]. f_equal. symmetry. apply Ht.
Qed.

Lemma add_aux_loop aux bytes layout off b' l' o' :
  zlen bytes = off → Forall tensor_ok aux → foldl add_aux (bytes, layout, off) aux = (b', l', o') →
  zlen b' = o' ∧ (∃ bs, b' = bytes ++ bs) ∧ ∃ es, l' = layout ++ es ∧ existsb has_tensor es = false ∧ ∀ ext, rmap (expand_entry (b' ++ ext)) es = Ok aux.
Proof.
  intros Ho Hok. revert bytes layout off Ho. induction Hok as [|t aux Ht _ IH]; intros bytes layout off Ho; simpl.
  - intros [= <- <- <-]. split; [done|]. split; [exists []; by rewrite app_nil_r|]. exists []. by rewrite app_nil_r.
  - set (pad := (- off) mod itemsize t). pose proof (itemsize_pos t) as Hk. pose proof (Z.mod_pos_bound (- off) (itemsize t) Hk) as Hp.
    set (bytes' := bytes ++ replicate (Z.to_nat pad) 0). intros Hf. apply IH in Hf as (Hz & [bs Hb] & es & -> & Hn & Hes).
    + split; [done|]. split; [exists ((replicate (Z.to_nat pad) 0 ++ data t) ++ bs); rewrite Hb; by rewrite !app_assoc|].
      exists (aux_entry (off + pad) t :: es). rewrite <- app_assoc. split; [done|].
      split; [unfold aux_entry; cbn -[ints]; by rewrite has_tensor_ints|]. intros ext. cbn [rmap].
      replace (b' ++ ext) with (bytes' ++ data t ++ bs ++ ext) at 1 by (rewrite Hb; unfold bytes'; by rewrite !app_assoc).
      rewrite expand_aux_entry; [|done| |].
      * simpl. by rewrite Hes.
      * unfold bytes', zlen in *. rewrite length_app, length_replicate. lia.
      * unfold pad. rewrite Z.add_mod_idemp_r, Z.add_opp_diag_r by lia. apply Z.mod_0_l. lia.
    + rewrite <- Ho. destruct Ht as [_ _ Hd]. unfold zlen in *. rewrite !length_app, length_replicate. lia.
Qed.

Lemma get_dset_ne m k k' v : k ≠ k' → get (dset m (KStr k') v) k = get m k.
Proof. intros Hk. unfold get. rewrite dget_dset_ne; [done|congruence]. Qed.

Lemma has_tensor_spec t : has_tensor (tensor_spec t) = false.
Proof. unfold tensor_spec. cbn -[ints]. by rewrite has_tensor_ints. Qed.

(** Coalescing leaves at most one tensor, from which all of them come back. *)
Lemma coalesce_spec m aux m' aux' :
  Forall tensor_ok aux → get m "aux_layout" = None → has_tensor (ODict m) = false →
  coalesce_aux_tensors m aux = (m', aux') →
  (length aux' ≤ 1)%nat ∧ has_tensor (ODict m') = false ∧ (∀ k, k ≠ "aux_layout"%string → get m' k = get m k) ∧
  expand_aux_tensors aux' (get m' "aux_layout") = Ok aux.
Proof.
  intros Hok Hl Ht. unfold coalesce_aux_tensors. destruct (Nat.leb_spec (length aux) 1) as [Hn|Hn].
  { intros [= <- <-]. rewrite Hl. by repeat split. }
  destruct (foldl _ _ _) as [[b l] o] eqn:Ef. apply add_aux_loop in Ef as (_ & _ & es & -> & Hnt & Hes); [|done|done].
  intros [= <- <-]. split; [done|]. split.
  { apply has_tensor_dset; [|simpl].
    - unfold get in Hl. rewrite dset_absent by done. simpl in *. by rewrite existsb_app, Ht.
    - by rewrite orb_false_r. }
  split; [intros k Hk; by apply get_dset_ne|].
  unfold get. rewrite dget_dset_eq. simpl. specialize (Hes []). by rewrite app_nil_r in Hes.
Qed.

(** ** The body *)

Lemma concat_slices {A} (l : list A) m n :
  0 < m → 0 ≤ n → concat ((λ s, slice l s (s + m)) <$> ((λ i, i * m) <$> seqZ 0 n)) = take (Z.to_nat (n * m)) l.
Proof.
  intros Hm Hn. revert n Hn. apply natlike_ind; [done|]. intros n Hn IH.
  rewrite <- Z.add_1_r, seqZ_snoc, !fmap_app, concat_app, IH by done. csimpl. rewrite app_nil_r. unfold slice.
  replace (Z.to_nat ((0 + n) * m + m - (0 + n) * m)) with (Z.to_nat m) by lia.
  replace (Z.to_nat ((0 + n) * m)) with (Z.to_nat (n * m)) by lia.
  replace (Z.to_nat ((n + 1) * m)) with (Z.to_nat (n * m) + Z.to_nat m)%nat by nia. by rewrite take_take_drop.
Qed.

Lemma concat_ranges {A} (l : list A) m :
  0 < m → concat ((λ s, slice l s (s + m)) <$> range_step (zlen l) m) = l.
Proof.
  intros Hm. unfold range_step. pose proof (Z.div_mod (zlen l + m - 1) m ltac:(lia)).
  pose proof (Z.mod_pos_bound (zlen l + m - 1) m Hm). unfold zlen in *.
  assert (0 ≤ (Z.of_nat (length l) + m - 1) / m) by (apply Z.div_pos; lia).
  rewrite concat_slices by done. apply take_ge. nia.
Qed.

Lemma view_bytes l : view_uint8 (byte_tensor l) = Ok l.
Proof. reflexivity. Qed.

Lemma byte_tensor_size l : nbytes (byte_tensor l) = zlen l.
Proof. unfold nbytes, numel, itemsize. simpl. rewrite uint8_size. simpl. lia. Qed.

Lemma restore_spec t : tensor_ok t → restore_tensor_from_bytes (data t) (tensor_spec t) = Ok t.
Proof.
  intros Ht. unfold restore_tensor_from_bytes, tensor_spec. simpl. rewrite as_shape_ints. simpl.
  apply view_as_data; [done|]. apply Z.mod_0_l. pose proof (itemsize_pos t). lia.
Qed.

Lemma split_spec t m :
  0 < m → shape t ≠ [] → m < zlen (data t) →
  ∃ parts, split_tensor_bytes t m = Ok (byte_tensor <$> parts) ∧ concat parts = data t ∧ parts ≠ [] ∧ Forall (λ l, zlen l ≤ m) parts.
Proof.
  intros Hm Hs Hl. eexists ((λ s, slice (data t) s (s + m)) <$> range_step (zlen (data t)) m). split_and!.
  - unfold split_tensor_bytes, view_uint8. rewrite (proj2 (Z.leb_gt _ _) Hm), bool_decide_false by done. simpl.
    by rewrite <- list_fmap_compose.
  - by apply concat_ranges.
  - intros E. pose proof (concat_ranges (data t) m Hm) as Hc. rewrite E in Hc. rewrite <- Hc in Hl. unfold zlen in Hl. simpl in Hl. lia.
  - apply Forall_fmap, Forall_forall. intros s _. simpl. unfold slice, zlen. rewrite length_take. lia.
Qed.

(** ** The round trip *)

(** Data the wire format is made for: its metadata hold tensors among the
    quantization parameters only, and there is something to send. *)
Definition sendable (c : CompressedKVData) (max : Z) : Prop :=
  meta_ok (metadata c) ∧
  if is_chunked c then
    ∃ x xs y ys, chunks c = Some (x :: xs) ∧ chunk_metadata c = Some (y :: ys) ∧ Forall meta_ok (y :: ys)
  else ∃ t, compressed_tensor c = Some t ∧ tensor_ok t ∧ shape t ≠ [] ∧ 0 < max.

Definition received (repr : obj → string) (c : CompressedKVData) : CompressedKVData :=
  mkKVData (request_id_of repr (metadata c)) (layer_id c) (if is_chunked c then None else compressed_tensor c)
    (normal_meta (metadata c)) (original_size c) (compressed_size c) (is_chunked c)
    (if is_chunked c then chunks c else None)
    (if is_chunked c then map normal_meta <$> chunk_metadata c else None).

Lemma request_id_normal repr o : request_id_of repr (normal_meta o) = request_id_of repr o.
Proof.
  destruct o as [| | | | | | | |d]; try done. simpl. destruct (get d QPARAMS); [|done]. simpl. by rewrite get_dset_ne.
Qed.

(** What the end of [build_wire] makes of metadata and tensors put aside. *)
Lemma finish_wire_spec m body aux :
  Forall tensor_ok aux → get m "aux_layout" = None → has_tensor (ODict m) = false →
  ∃ w, finish_wire m body aux = Ok w ∧ body_chunks w = body ∧ (length (aux_tensors w) ≤ 1)%nat ∧
    (∀ k, k ≠ "aux_layout"%string → get (meta w) k = get m k) ∧
    expand_aux_tensors (aux_tensors w) (get (meta w) "aux_layout") = Ok aux.
Proof.
  intros Hok Hl Ht. unfold finish_wire. destruct (coalesce_aux_tensors m aux) as [m' aux'] eqn:E.
  apply coalesce_spec in E as (Hn & Ht' & Hg & He); try done. unfold assert_no_tensor. rewrite Ht'. simpl.
  eexists. split; [reflexivity|]. by repeat split.
Qed.

(** The entries the consumer reads. *)
Lemma base_meta_gets c p l k :
  get (base_meta c p ++ l) k =
  if decide (k = "is_chunked"%string) then Some (OBool (is_chunked c))
  else if decide (k = "layer_id"%string) then Some (OInt (layer_id c))
  else if decide (k = "original_size"%string) then Some (OInt (original_size c))
  else if decide (k = "compressed_size"%string) then Some (OInt (compressed_size c))
  else if decide (k = "metadata"%string) then Some p else get l k.
Proof.
  unfold get, base_meta. simpl.
  repeat match goal with |- context [decide (KStr k = KStr ?s)] =>
    destruct (decide (KStr k = KStr s)) as [[= ->]|?]; [by repeat case_decide|rewrite (decide_False (P := k = s)) by congruence] end.
  done.
Qed.

Lemma chunked_round_trip repr c max x xs y ys :
  is_chunked c = true → chunks c = Some (x :: xs) → chunk_metadata c = Some (y :: ys) → meta_ok (metadata c) → Forall meta_ok (y :: ys) →
  ∃ w, build_wire c max = Ok w ∧ restore_from_wire repr w = Ok (received repr c) ∧ (length (aux_tensors w) ≤ 1)%nat ∧ body_chunks w = x :: xs.
Proof.
  intros Hc Hx Hy Hm Hms. unfold build_wire. rewrite Hc, Hx, Hy.
  destruct (pack_metadata_spec _ Hm []) as (p & new & -> & Hok & Hb & _ & Hg).
  assert (Hl : Forall (λ o, packed_as pack_metadata unpack_metadata has_tensor (λ _ _, True) o (normal_meta o)) (y :: ys))
    by (eapply Forall_impl; [exact Hms|apply pack_metadata_spec]).
  destruct (aside_spec _ _ _ _ normal_meta _ Hl ([] ++ new)) as (l' & new' & -> & Hok' & Hb' & _ & Hg').
  destruct (finish_wire_spec (base_meta c p ++ [(KStr "chunk_metadata", OList l'); (KStr "body_mode", OStr "manager_chunks")])
    (x :: xs) (([] ++ new) ++ new')) as (w & -> & Hbody & Hn & Hget & He).
  { rewrite !Forall_app. by repeat split. }
  { by rewrite base_meta_gets. }
  { simpl. rewrite Hb. simpl. by rewrite Hb'. }
  exists w. split; [done|]. split; [|done]. unfold restore_from_wire. rewrite He, Hbody. unfold int_entry.
  rewrite !Hget by done. rewrite !base_meta_gets. simpl.
  specialize (Hg new'). simpl in Hg. rewrite Hc, Hg. simpl. specialize (Hg' []). rewrite app_nil_r in Hg'. simpl in Hg'. rewrite Hg'. simpl.
  unfold received. by rewrite Hc, Hx, Hy, request_id_normal.
Qed.

Lemma body_round_trip t max :
  tensor_ok t → shape t ≠ [] → 0 < max →
  ∃ body mode, (if max <? nbytes t then let? l := split_tensor_bytes t max in Ok (l, "byte_chunks"%string) else Ok ([t], "single"%string)) = Ok (body, mode) ∧
    Forall (λ b, nbytes b ≤ max) body ∧
    ((mode = "single"%string ∧ head body = Some t) ∨
     (mode = "byte_chunks"%string ∧ ∃ parts, rmap view_uint8 body = Ok parts ∧ parts ≠ [] ∧ concat parts = data t)).
Proof.
  intros Ht Hs Hm. destruct (Z.ltb_spec max (nbytes t)) as [Hn|Hn].
  - destruct (split_spec t max) as (parts & -> & Hc & Hne & Hf); [done|done|by rewrite (ok_data _ Ht)|].
    eexists _, _. split; [reflexivity|]. split; [apply Forall_fmap; eapply Forall_impl; [exact Hf|]; intros l Hl; simpl; by rewrite byte_tensor_size|].
    right. split; [done|]. exists parts. split; [|done]. clear. induction parts as [|l parts IH]; [done|]. rewrite fmap_cons. cbn [rmap]. by rewrite IH.
  - eexists _, _. split; [reflexivity|]. split; [by repeat constructor|by left].
Qed.

(** The pieces of the body: the manager's chunks go as they are, one tensor is
    split where it is larger than the limit. *)
Definition pieces_fit (c : CompressedKVData) (max : Z) (w : CompressedWire) : Prop :=
  if is_chunked c then chunks c = Some (body_chunks w) else Forall (λ t, nbytes t ≤ max) (body_chunks w).

Lemma wire_back repr c max :
  sendable c max →
  ∃ w, build_wire c max = Ok w ∧ restore_from_wire repr w = Ok (received repr c) ∧
    (length (aux_tensors w) ≤ 1)%nat ∧ pieces_fit c max w.
Proof.
  intros [Hm Hs]. destruct (is_chunked c) eqn:Hc.
  { destruct Hs as (x & xs & y & ys & Hx & Hy & Hms).
    destruct (chunked_round_trip repr c max x xs y ys) as (w & ? & ? & ? & Hb); try done. exists w. unfold pieces_fit. by rewrite Hc, Hb, Hx. }
  destruct Hs as (t & Ht & Hok & Hsh & Hmax). unfold build_wire. rewrite Hc, Ht.
  destruct (body_round_trip t max Hok Hsh Hmax) as (body & mode & -> & Hf & Hmode). cbn [rbind].
  destruct (pack_metadata_spec _ Hm []) as (p & new & -> & Hokn & Hb & _ & Hg).
  destruct (finish_wire_spec (base_meta c p ++ [(KStr "body_mode", OStr mode); (KStr "body_spec", tensor_spec t)]) body ([] ++ new))
    as (w & -> & Hbody & Hn & Hget & He); [done|by rewrite base_meta_gets|by cbn -[tensor_spec]; rewrite Hb, has_tensor_spec|].
  exists w. split; [done|]. split; [|unfold pieces_fit; by rewrite Hc, Hbody]. unfold restore_from_wire. rewrite He, Hbody. unfold int_entry.
  rewrite !Hget by done. rewrite !base_meta_gets. specialize (Hg []). rewrite app_nil_r in Hg. simpl in Hg. simpl. rewrite Hc, Hg. simpl.
  unfold received. rewrite Hc, Ht, request_id_normal.
  destruct Hmode as [[-> ->]|[-> (parts & -> & Hp & Hcat)]]; [done|]. simpl.
  rewrite bool_decide_false, Hcat by done. simpl. by rewrite restore_spec.
Qed.

(** C35 The wire format loses nothing: whatever the metadata, the sizes and
    the chunk limit, compressed data whose tensors outside the body sit among
    the quantization parameters can be built into a wire payload, and the
    consumer restores the same tensors in the same places (tuples as lists).
    At most one auxiliary tensor is sent. A body that is one tensor goes in
    pieces within the limit; the chunks of a body that the manager has split go
    as they are, whatever their size. *)
Theorem wire_round_trip repr c max :
  sendable c max →
  ∃ w, build_wire c max = Ok w ∧ restore_from_wire repr w = Ok (received repr c) ∧
    (length (aux_tensors w) ≤ 1)%nat ∧ pieces_fit c max w.
Proof. apply wire_back. Qed.

End wire.

(** ** An example *)

(** torch's dtypes the example needs. *)
Definition ex_size (d : string) : option Z :=
  if bool_decide (d = "uint8"%string) then Some 1
  else if bool_decide (d = "float16"%string) then Some 2
  else if bool_decide (d = "float32"%string) then Some 4 else None.

#[local] Instance ex_dtypes : Dtypes.
Proof.
  refine {| element_size := ex_size |}; [|done]. intros d k. unfold ex_size.
  repeat case_bool_decide; by intros [= <-].
Defined.

(** Three bytes and one float, so that the float's bytes are not aligned. *)
Definition ex_qparams : obj :=
  OTuple [ODict [(KStr "min", OTensor (mkTensor [3] "uint8" [1; 2; 3])); (KInt 0, OTensor (mkTensor [1; 1] "float32" [0; 0; 128; 63]))]].

Definition ex_data : CompressedKVData :=
  mkKVData "r1" 1 (Some (mkTensor [2; 3] "float16" (seqZ 0 12)))
    (ODict [(KStr "request_id", OStr "r1"); (KStr "quantization_params", ex_qparams)]) 24 12 false None None.

Lemma wire_round_trip_witness :
  (∃ w, build_wire ex_data 5 = Ok w ∧ data <$> body_chunks w = [[0; 1; 2; 3; 4]; [5; 6; 7; 8; 9]; [10; 11]] ∧
     data <$> aux_tensors w = [[1; 2; 3; 0; 0; 0; 128; 63]]) ∧
  ∃ w, build_wire ex_data 5 = Ok w ∧ restore_from_wire (λ _, ""%string) w = Ok (received (λ _, ""%string) ex_data) ∧
    (length (aux_tensors w) ≤ 1)%nat ∧ pieces_fit ex_data 5 w.
Proof.
  split; [eexists; split; [vm_compute; reflexivity|]; split; vm_compute; reflexivity|].
  assert (Hok : ∀ t, is_Some (ex_size (dtype t)) → forallb (λ n, 0 <=? n) (shape t) = true → zlen (data t) = nbytes t → tensor_ok t).
  { intros t Hd Hs Hl. split; [done| |done]. apply Forall_forall. intros n Hn. apply Z.leb_le.
    by eapply forallb_forall in Hs; [|by apply list_elem_of_In]. }
  apply (wire_round_trip (λ _, ""%string) ex_data 5). split.
  - split; [|reflexivity]. simpl. repeat split; apply Hok; (by eexists) || reflexivity.
  - eexists. split; [reflexivity|]. split; [apply Hok; [by eexists|reflexivity..]|done].
Defined.
