(* ===== verification/BitPack.v ===== *)
(** * The bit-packing codec

    [compression/codec/bitpack_codec.py]: the two Triton kernels lane by lane
    and the codec around them. Lane indices are 32-bit signed integers and
    loaded bytes 32-bit unsigned ones; [//] and [%] of a kernel truncate. A
    load outside its tensor or a failed device assertion invalidates the CUDA
    context: the lane has no value. *)

From S2P Require Import Prelude PyData.

(** ** Integers of a kernel *)

Definition u32 (z : Z) : Z := z mod 2 ^ 32.

Definition i32 (z : Z) : Z := (z + 2 ^ 31) mod 2 ^ 32 - 2 ^ 31.

(** [tl.load(l + i, mask, 0)] *)
Definition load (l : list Z) (i : Z) (mask : bool) : option Z :=
  if mask then (if 0 <=? i then l !! Z.to_nat i else None) else Some 0.

Definition HEADER_BYTES : Z := 16.
Definition MAGIC : Z := 0x0150424B.

Section kernels.
Context (N BITS : Z).

Definition packed_size : Z := (N * BITS + 7) / 8.

(** Byte [h] of the header. *)
Definition header_byte (h : Z) : Z :=
  if h <? 4 then Z.land (Z.shiftr MAGIC (h mod 4 * 8)) 255
  else if h =? 4 then BITS
  else if 8 <=? h then Z.land (Z.shiftr (N mod 2 ^ 64) (h mod 8 * 8)) 255
  else 0.

Definition header : list Z := header_byte <$> seqZ 0 HEADER_BYTES.

(** One symbol, checked and shifted into the byte. *)
Definition pack_symbol (source : list Z) (byte first offset : Z) (acc : option Z) (j : Z) : option Z :=
  packed ← acc;
  let shift := j * BITS - offset in
  value ← load source (first + j) ((byte <? packed_size) && (first + j <? N) && (shift <? 8));
  if value <? 2 ^ BITS then Some (Z.lor packed (u32 (Z.shiftl value shift))) else None.

(** [_pack]: byte [byte] of the payload. *)
Definition pack_lane (source : list Z) (byte : Z) : option Z :=
  let first := Z.quot (i32 (byte * 8)) BITS in
  let offset := Z.rem (i32 (byte * 8)) BITS in
  value ← load source first ((byte <? packed_size) && (first <? N));
  if value <? 2 ^ BITS then
    packed ← foldl (pack_symbol source byte first offset) (Some (Z.shiftr value offset)) (seqZ 1 ((7 + BITS - 1) / BITS));
    Some (packed mod 256)
  else None.

(** [_unpack]: symbol [i]. *)
Definition unpack_lane (source : list Z) (i : Z) : option Z :=
  let byte := Z.quot (i32 (i * BITS)) 8 in
  let offset := Z.rem (i32 (i * BITS)) 8 in
  lo ← load source (16 + byte) ((i <? N) && (byte <? packed_size));
  hi ← load source (16 + byte + 1) ((i <? N) && (byte + 1 <? packed_size) && (8 <? offset + BITS));
  Some (Z.land (Z.shiftr (Z.lor lo (u32 (Z.shiftl hi 8))) offset) (2 ^ BITS - 1) mod 256).

(** The lanes that store. *)
Definition pack_kernel (source : list Z) : option (list Z) :=
  bytes ← mapM (pack_lane source) (seqZ 0 packed_size);
  Some (header ++ bytes).

Definition unpack_kernel (source : list Z) : option (list Z) :=
  if bool_decide (take 16 source = header) then mapM (unpack_lane source) (seqZ 0 N) else None.

End kernels.

(** ** The codec *)

(** [kwargs.get("bitpack_bits", self.bitpack_bits)] *)
Definition width (bits : json) : result Z :=
  match bits with
  | JInt z => raise_if (negb ((1 <=? z) && (z <=? 8))) (ValueError "bitpack_bits must be an integer in [1, 8]") ;? Ok z
  | _ => Err (ValueError "bitpack_bits must be an integer in [1, 8]")
  end.

Definition device_assert {A} (o : option A) : result A := of_option (RuntimeError "device-side assert triggered") o.

(** [encode] of a CUDA tensor of bytes. *)
Definition encode (bits : json) (source : list Z) : result (list Z) :=
  let? b := width bits in
  device_assert (pack_kernel (zlen source) b source).

Definition natural (d : json) : option Z := match d with JInt z => if 0 <=? z then Some z else None | _ => None end.

Definition decode (bits : json) (compressed : list Z) (original_dtype : string) (original_shape : list json) : result (list Z) :=
  let? b := width bits in
  raise_if (negb (bool_decide (original_dtype = "uint8"%string ∨ original_dtype = "torch.uint8"%string))) TypeError ;?
  let? shape := of_option (ValueError "original_shape must contain nonnegative integers") (mapM natural original_shape) in
  let count := foldr Z.mul 1 shape in
  raise_if (negb (zlen compressed =? HEADER_BYTES + packed_size count b))
    (ValueError "BitPackCodec payload length does not match shape and bit width") ;?
  device_assert (unpack_kernel count b compressed).
