(* ===== verification/BitPackThms.v ===== *)
(** * The bit-packing codec: round trip

    Packed symbols form one stream of bits, symbol after symbol; both kernels
    are shown to agree with it. *)

From S2P Require Import Prelude PyData BitPack.

(** Bit [p] of the stream of the symbols of [l], [B] bits each. *)
Definition stream (B : Z) (l : list Z) (p : Z) : bool := Z.testbit (default 0 (l !! Z.to_nat (p / B))) (p mod B).

Section bits.
Context (B : Z) (l : list Z).
Notation N := (zlen l).

(** Symbols of the alphabet; every index of a lane that stores is exact. *)
Hypothesis HB : 1 ≤ B ≤ 8.
Hypothesis Hl : Forall (λ x, 0 ≤ x < 2 ^ B) l.
Hypothesis HN : N * B ≤ 2 ^ 31 - 8.

Lemma i32_id z : 0 ≤ z < 2 ^ 31 → i32 z = z.
Proof. intros. unfold i32. rewrite Z.mod_small by lia. lia. Qed.

Lemma size_bounds : 8 * packed_size N B - 7 ≤ N * B ≤ 8 * packed_size N B.
Proof. unfold packed_size. pose proof (Z.div_mod (N * B + 7) 8). pose proof (Z.mod_pos_bound (N * B + 7) 8). lia. Qed.

Lemma symbols_nonneg : 0 ≤ N.
Proof. unfold zlen. lia. Qed.

Notation symbol i := (default 0 (l !! Z.to_nat i)).

Lemma symbol_range i : 0 ≤ symbol i < 2 ^ B.
Proof.
  destruct (l !! Z.to_nat i) as [x|] eqn:E; simpl; [by eapply (Forall_lookup_1 _ _ _ _ Hl)|].
  pose proof (Z.pow_pos_nonneg 2 B). lia.
Qed.

Lemma symbol_high i r : B ≤ r → Z.testbit (symbol i) r = false.
Proof.
  intros Hr. pose proof (symbol_range i). destruct (Z.eq_dec (symbol i) 0) as [->|]; [by rewrite Z.testbit_0_l|].
  apply Z.bits_above_log2; [lia|]. pose proof (Z.log2_lt_pow2 (symbol i) B). lia.
Qed.

Lemma load_symbol i mask :
  0 ≤ i → load l i (mask && (i <? N)) = Some (if mask then symbol i else 0).
Proof.
  intros Hi. unfold load. destruct mask; simpl; [|done]. destruct (Z.ltb_spec i N) as [H|H].
  - rewrite (proj2 (Z.leb_le 0 i)) by done. unfold zlen in H.
    destruct (lookup_lt_is_Some_2 l (Z.to_nat i)) as [x ->]; [lia|done].
  - rewrite lookup_ge_None_2; [done|]. unfold zlen in H. lia.
Qed.

(** Bit [r] of the packed byte [b]: which symbol it comes from. *)
Lemma stream_split b r q :
  0 ≤ b → 0 ≤ r → q = (b * 8 mod B + r) / B →
  stream B l (8 * b + r) = Z.testbit (symbol (b * 8 / B + q)) (r - (q * B - b * 8 mod B)).
Proof.
  intros Hb Hr ->. pose proof (Z.div_mod (b * 8) B ltac:(lia)) as Hd.
  unfold stream. replace (8 * b + r) with (b * 8 mod B + r + b * 8 / B * B) by lia.
  rewrite Z.div_add, Z.mod_add by lia. f_equal.
  - f_equal. f_equal. f_equal. lia.
  - pose proof (Z.div_mod (b * 8 mod B + r) B). lia.
Qed.

(** The symbols after the first are or-ed in, each in its place. *)
Lemma pack_loop b first off acc n :
  0 ≤ b < packed_size N B → first = b * 8 / B → off = b * 8 mod B → 0 ≤ n → 0 ≤ acc →
  ∃ v, foldl (pack_symbol N B l b first off) (Some acc) (seqZ 1 n) = Some v ∧ 0 ≤ v ∧
    ∀ r, 0 ≤ r < 8 → Z.testbit v r =
      Z.testbit acc r || existsb (λ j, (j * B - off <=? r) && Z.testbit (symbol (first + j)) (r - (j * B - off))) (seqZ 1 n).
Proof.
  intros Hb Hf Ho Hn Ha. revert n Hn. apply natlike_ind.
  { exists acc. split_and!; try done. intros r Hr. simpl. by rewrite orb_false_r. }
  intros n Hn (v & Hv & Hv0 & IH). pose proof (Z.mod_pos_bound (b * 8) B ltac:(lia)).
  assert (0 ≤ first) by (subst; apply Z.div_pos; lia).
  rewrite <- Z.add_1_r, seqZ_snoc, foldl_app, Hv by done. simpl. set (sh := (1 + n) * B - off).
  assert (Hsh : 0 < sh) by (unfold sh; nia).
  replace ((b <? packed_size N B) && (first + (1 + n) <? N) && (sh <? 8)) with ((sh <? 8) && (first + (1 + n) <? N))
    by (rewrite (proj2 (Z.ltb_lt _ _) (proj2 Hb)); simpl; apply andb_comm).
  rewrite load_symbol by lia. simpl. set (x := if sh <? 8 then symbol (first + (1 + n)) else 0).
  assert (Hx : 0 ≤ x < 2 ^ B).
  { unfold x. destruct (sh <? 8); [apply symbol_range|]. pose proof (Z.pow_pos_nonneg 2 B). lia. }
  rewrite (proj2 (Z.ltb_lt _ _) (proj2 Hx)). eexists. split; [reflexivity|].
  assert (Hs0 : 0 ≤ Z.shiftl x sh) by (apply Z.shiftl_nonneg; lia).
  split; [apply Z.lor_nonneg; split; [done|]; apply Z.mod_pos_bound; lia|].
  intros r Hr. rewrite Z.lor_spec, IH by done. rewrite existsb_app. simpl. rewrite orb_false_r, orb_assoc. f_equal.
  unfold u32. rewrite Z.mod_pow2_bits_low, Z.shiftl_spec by lia. unfold x. fold sh.
  destruct (Z.leb_spec sh r).
  - rewrite (proj2 (Z.ltb_lt sh 8)) by lia. done.
  - simpl. apply Z.testbit_neg_r. lia.
Qed.

(** Exactly one of them holds bit [r] of the byte. *)
Lemma pick_symbol b r n :
  0 ≤ b → 0 ≤ r < 8 → (7 + B - 1) / B ≤ n →
  Z.testbit (symbol (b * 8 / B)) (r + b * 8 mod B)
    || existsb (λ j, (j * B - b * 8 mod B <=? r) && Z.testbit (symbol (b * 8 / B + j)) (r - (j * B - b * 8 mod B))) (seqZ 1 n)
  = stream B l (8 * b + r).
Proof.
  intros Hb Hr Hn. set (off := b * 8 mod B). pose proof (Z.mod_pos_bound (b * 8) B ltac:(lia)) as Ho. fold off in Ho.
  set (q := (off + r) / B). rewrite (stream_split b r q); [|lia|lia|done]. fold off.
  pose proof (Z.div_mod (off + r) B ltac:(lia)) as Hq. pose proof (Z.mod_pos_bound (off + r) B ltac:(lia)) as Hm. fold q in Hq.
  assert (H0 : 0 ≤ q) by (apply Z.div_pos; lia).
  apply eq_true_iff_eq. rewrite orb_true_iff, existsb_exists. split.
  - intros [Hf|(j & Hj%list_elem_of_In%elem_of_seqZ & [Hr'%Z.leb_le Hs]%andb_true_iff)].
    + destruct (Z.eq_dec q 0) as [->|Hq0]; [by replace (r - (0 * B - off)) with (r + off) by lia; rewrite Z.add_0_r|].
      rewrite symbol_high in Hf; [done|nia].
    + destruct (Z.lt_trichotomy j q) as [Hjq|[->|Hjq]]; [|done|nia]. rewrite symbol_high in Hs; [done|nia].
  - intros Hs. destruct (Z.eq_dec q 0) as [Hq0|Hq0].
    + left. rewrite Hq0 in Hs. rewrite Z.add_0_r in Hs. by replace (r + off) with (r - (0 * B - off)) by lia.
    + right. exists q. split; [apply list_elem_of_In, elem_of_seqZ; split; [lia|]|].
      * assert (q ≤ (7 + B - 1) / B) by (apply Z.div_le_mono; lia). lia.
      * rewrite Hs, andb_true_r. apply Z.leb_le. nia.
Qed.

Lemma pack_lane_spec b :
  0 ≤ b < packed_size N B →
  ∃ v, pack_lane N B l b = Some v ∧ 0 ≤ v < 256 ∧ ∀ r, 0 ≤ r < 8 → Z.testbit v r = stream B l (8 * b + r).
Proof.
  intros Hb. pose proof size_bounds. unfold pack_lane. rewrite i32_id by lia.
  rewrite Z.quot_div_nonneg, Z.rem_mod_nonneg by lia.
  assert (Hf : 0 ≤ b * 8 / B) by (apply Z.div_pos; lia).
  rewrite load_symbol by done. rewrite (proj2 (Z.ltb_lt _ _) (proj2 Hb)). simpl.
  pose proof (symbol_range (b * 8 / B)) as Hs. rewrite (proj2 (Z.ltb_lt _ _) (proj2 Hs)).
  pose proof (Z.mod_pos_bound (b * 8) B ltac:(lia)) as Ho.
  destruct (pack_loop b _ _ (Z.shiftr (symbol (b * 8 / B)) (b * 8 mod B)) ((7 + B - 1) / B) Hb eq_refl eq_refl)
    as (v & -> & Hv & Hbits); [apply Z.div_pos; lia|apply Z.shiftr_nonneg; lia|]. simpl.
  eexists. split; [reflexivity|]. split; [apply Z.mod_pos_bound; lia|]. intros r Hr.
  change 256 with (2 ^ 8). rewrite Z.mod_pow2_bits_low, Hbits, Z.shiftr_spec by lia. apply pick_symbol; lia.
Qed.

(** ** Unpacking *)

(** The payload: bytes that hold the stream. *)
Definition holds_stream (ps : list Z) : Prop :=
  zlen ps = packed_size N B ∧
  ∀ b, 0 ≤ b < packed_size N B →
    ∃ v, ps !! Z.to_nat b = Some v ∧ 0 ≤ v < 256 ∧ ∀ r, 0 ≤ r < 8 → Z.testbit v r = stream B l (8 * b + r).

Lemma load_byte h ps b :
  length h = 16%nat → 0 ≤ b → load (h ++ ps) (16 + b) true = ps !! Z.to_nat b.
Proof.
  intros Hh Hb. unfold load. rewrite (proj2 (Z.leb_le 0 (16 + b))) by lia.
  rewrite lookup_app_r by lia. f_equal. lia.
Qed.

Lemma byte_high v r : 0 ≤ v < 256 → 8 ≤ r → Z.testbit v r = false.
Proof.
  intros Hv Hr. destruct (Z.eq_dec v 0) as [->|]; [by rewrite Z.testbit_0_l|].
  apply Z.bits_above_log2; [lia|]. pose proof (Z.log2_lt_pow2 v 8). lia.
Qed.

Lemma stream_symbol i k : 0 ≤ i → 0 ≤ k < B → stream B l (i * B + k) = Z.testbit (symbol i) k.
Proof. intros. unfold stream. by rewrite Z.add_comm, Z.div_add, Z.mod_add, Z.div_small, Z.mod_small by lia. Qed.

(** Two neighbouring bytes hold the bits of a symbol. *)
Lemma window_bits v w off k :
  0 ≤ v < 256 → 0 ≤ off < 8 → 0 ≤ k → 0 ≤ w < 256 →
  Z.testbit (Z.shiftr (Z.lor v (u32 (Z.shiftl w 8))) off) k =
  if k + off <? 8 then Z.testbit v (k + off) else Z.testbit w (k + off - 8).
Proof.
  intros Hv Ho Hk Hw. unfold u32. rewrite Z.mod_small by (rewrite Z.shiftl_mul_pow2 by lia; lia).
  rewrite Z.shiftr_spec, Z.lor_spec, Z.shiftl_spec by lia. destruct (Z.ltb_spec (k + off) 8).
  - rewrite (Z.testbit_neg_r w) by lia. apply orb_false_r.
  - by rewrite (byte_high v) by lia.
Qed.

Lemma unpack_lane_spec h ps i :
  length h = 16%nat → holds_stream ps → 0 ≤ i < N → unpack_lane N B (h ++ ps) i = Some (symbol i).
Proof.
  intros Hh [_ Hps] Hi. pose proof size_bounds. unfold unpack_lane.
  assert (Hib : i * B + B ≤ N * B) by nia. rewrite i32_id by nia.
  rewrite Z.quot_div_nonneg, Z.rem_mod_nonneg by nia. set (b := i * B / 8). set (off := i * B mod 8).
  pose proof (Z.div_mod (i * B) 8 ltac:(lia)) as Hd. fold b off in Hd. pose proof (Z.mod_pos_bound (i * B) 8 ltac:(lia)) as Ho. fold off in Ho.
  assert (Hb0 : 0 ≤ b) by (apply Z.div_pos; nia). assert (Hb : b < packed_size N B) by lia.
  rewrite (proj2 (Z.ltb_lt i N)), (proj2 (Z.ltb_lt b _)) by lia. cbn [andb]. rewrite load_byte by done.
  destruct (Hps b) as (v & -> & Hv & Hvb); [lia|]. cbn [mbind option_bind].
  assert (Hw : ∃ w, load (h ++ ps) (16 + b + 1) ((b + 1 <? packed_size N B) && (8 <? off + B)) = Some w ∧ 0 ≤ w < 256 ∧
    (8 < off + B → ∀ r, 0 ≤ r < 8 → Z.testbit w r = stream B l (8 * (b + 1) + r))).
  { destruct (Z.ltb_spec 8 (off + B)) as [Hlt|Hge]; [|rewrite andb_false_r; exists 0; split; [done|lia]].
    rewrite (proj2 (Z.ltb_lt _ _)) by lia. cbn [andb]. rewrite <- Z.add_assoc, load_byte by lia.
    destruct (Hps (b + 1)) as (w & -> & Hw & Hwb); [lia|]. by exists w. }
  destruct Hw as (w & -> & Hw & Hwb). simpl. f_equal. apply Z.bits_inj'. intros k Hk.
  change 256 with (2 ^ 8).
  replace (2 ^ B - 1) with (Z.ones B) by (rewrite Z.ones_equiv; lia).
  destruct (Z.ltb_spec k B) as [Hkb|Hkb].
  - rewrite Z.mod_pow2_bits_low, Z.land_spec, Z.ones_spec_low, andb_true_r, window_bits, <- stream_symbol by lia.
    destruct (Z.ltb_spec (k + off) 8).
    + rewrite Hvb by lia. f_equal. lia.
    + rewrite Hwb by lia. f_equal. lia.
  - rewrite symbol_high by done. destruct (Z.ltb_spec k 8); [|apply Z.mod_pow2_bits_high; lia].
    rewrite Z.mod_pow2_bits_low, Z.land_spec, Z.ones_spec_high by lia. apply andb_false_r.
Qed.

(** Every lane of the packing kernel stores its byte of the stream. *)
Lemma pack_kernel_spec : ∃ ps, pack_kernel N B l = Some (header N B ++ ps) ∧ holds_stream ps.
Proof.
  assert (Hm : ∃ ps, mapM (pack_lane N B l) (seqZ 0 (packed_size N B)) = Some ps).
  { apply mapM_is_Some. apply Forall_forall. intros b Hb%elem_of_seqZ. destruct (pack_lane_spec b) as (v & Hv & _); [lia|by exists v]. }
  destruct Hm as [ps Hps]. exists ps. unfold pack_kernel. rewrite Hps. split; [done|].
  pose proof size_bounds. pose proof symbols_nonneg. apply mapM_Some in Hps. assert (Hlen := Forall2_length _ _ _ Hps). rewrite length_seqZ in Hlen.
  assert (0 ≤ packed_size N B) by nia. split; [unfold zlen at 1; lia|]. intros b Hb. destruct (pack_lane_spec b Hb) as (v & Hv & ? & ?). exists v. split; [|done].
  assert (Hb' : seqZ 0 (packed_size N B) !! Z.to_nat b = Some b) by (apply lookup_seqZ; lia).
  destruct (Forall2_lookup_l _ _ _ _ _ Hps Hb') as (v' & ? & Hv'). congruence.
Qed.

Lemma header_length n : length (header n B) = 16%nat.
Proof. unfold header. by rewrite length_fmap, length_seqZ. Qed.

Lemma unpack_kernel_spec ps : holds_stream ps → unpack_kernel N B (header N B ++ ps) = Some l.
Proof.
  intros Hps. unfold unpack_kernel. rewrite take_app_length' by (by rewrite header_length). rewrite bool_decide_true by done.
  apply mapM_Some. apply Forall2_same_length_lookup_2; [rewrite length_seqZ; unfold zlen; lia|].
  intros i x y Hi%lookup_seqZ Hy. destruct Hi as [-> Hi]. rewrite unpack_lane_spec by (apply header_length || done || lia).
  rewrite Z.add_0_l, Nat2Z.id, Hy. done.
Qed.

Lemma header_bytes n : Forall (λ x, 0 ≤ x < 256) (header n B).
Proof.
  apply Forall_fmap, Forall_forall. intros h _. simpl. unfold header_byte.
  assert (Hl255 : ∀ x, 0 ≤ Z.land x 255 < 256) by (intros x; change 255 with (Z.ones 8); rewrite Z.land_ones by lia; apply Z.mod_pos_bound; lia).
  repeat case_bool; try lia; apply Hl255.
Qed.

End bits.

(** Encoding checks every symbol: a lane reads the symbols whose first bit is
    in its byte. *)
Lemma pack_symbols_checked N B l byte first off js acc v j :
  foldl (pack_symbol N B l byte first off) acc js = Some v → j ∈ js →
  ∃ x, load l (first + j) ((byte <? packed_size N B) && (first + j <? N) && (j * B - off <? 8)) = Some x ∧ x < 2 ^ B.
Proof.
  revert acc. induction js as [|j' js IH]; intros acc Hf Hj; [by apply elem_of_nil in Hj|]. simpl in Hf.
  apply elem_of_cons in Hj as [->|Hj]; [|by eapply IH].
  destruct (pack_symbol N B l byte first off acc j') as [a|] eqn:E; [|exfalso; clear -Hf; induction js; [done|auto]].
  unfold pack_symbol in E. destruct acc as [p|]; [|done]. cbn [mbind option_bind] in E. destruct (load _ _ _) as [x|]; [|done]. cbn [mbind option_bind] in E.
  exists x. split; [done|]. by destruct (Z.ltb_spec x (2 ^ B)).
Qed.

Lemma encoded_symbols_fit B l p :
  1 ≤ B ≤ 8 → Forall (λ x, 0 ≤ x) l → zlen l * B ≤ 2 ^ 31 - 8 → pack_kernel (zlen l) B l = Some p → Forall (λ x, 0 ≤ x < 2 ^ B) l.
Proof.
  intros HB Hl HN Hp. apply Forall_lookup_2. intros k x Hx. split; [by eapply Forall_lookup_1 in Hl|].
  set (i := Z.of_nat k). assert (Hi : 0 ≤ i < zlen l) by (apply lookup_lt_Some in Hx; unfold i, zlen; lia).
  set (b := i * B / 8). pose proof (Z.div_mod (i * B) 8 ltac:(lia)) as Hd. pose proof (Z.mod_pos_bound (i * B) 8 ltac:(lia)) as Hm. fold b in Hd.
  assert (HiB : i * B + B ≤ zlen l * B) by nia. pose proof (size_bounds B l) as Hsz. assert (Hb : 0 ≤ b < packed_size (zlen l) B) by lia.
  unfold pack_kernel in Hp. destruct (mapM _ _) as [ps|] eqn:Em; [|done]. apply mapM_Some in Em.
  destruct (Forall2_lookup_l _ _ _ (Z.to_nat b) b Em) as (v & _ & Hv); [rewrite lookup_seqZ_lt by lia; f_equal; lia|].
  unfold pack_lane in Hv. rewrite i32_id, Z.quot_div_nonneg, Z.rem_mod_nonneg in Hv by lia.
  set (first := b * 8 / B) in Hv. pose proof (Z.div_mod (b * 8) B ltac:(lia)) as Hd1. pose proof (Z.mod_pos_bound (b * 8) B ltac:(lia)) as Hm1. fold first in Hd1.
  assert (Hf : 0 ≤ first ≤ i) by (split; [apply Z.div_pos; lia|nia]).
  assert (Hget : ∀ j, first + j = i → j * B - b * 8 mod B < 8 →
    load l (first + j) ((b <? packed_size (zlen l) B) && (first + j <? zlen l) && (j * B - b * 8 mod B <? 8)) = Some x).
  { intros j Hj H8. rewrite Hj, (proj2 (Z.ltb_lt b _)), (proj2 (Z.ltb_lt i _)), (proj2 (Z.ltb_lt _ 8)) by lia. unfold load. cbn [andb].
    rewrite (proj2 (Z.leb_le 0 i)) by lia. unfold i. by rewrite Nat2Z.id. }
  destruct (load l first _) as [y|] eqn:E0; [|done]. cbn [mbind option_bind] in Hv. destruct (Z.ltb_spec y (2 ^ B)) as [Hy|]; [|done].
  destruct (foldl _ _ _) as [a|] eqn:Ef; [|done]. destruct (decide (first = i)) as [Hfi|Hfi].
  - specialize (Hget 0 ltac:(lia) ltac:(nia)). rewrite Z.add_0_r in Hget. rewrite (proj2 (Z.ltb_lt (0 * B - _) 8)), andb_true_r in Hget by nia. congruence.
  - destruct (pack_symbols_checked _ _ _ _ _ _ _ _ _ (i - first) Ef) as (z & Hz & Hlt).
    + apply elem_of_seqZ. assert (i - first ≤ (7 + B - 1) / B) by (apply Z.div_le_lower_bound; nia). lia.
    + rewrite Hget in Hz by nia. congruence.
Qed.

Lemma bitpack_back b l shape :
  1 ≤ b ≤ 8 → Forall (λ x, 0 ≤ x < 2 ^ b) l → zlen l * b ≤ 2 ^ 31 - 8 →
  Forall (λ n, 0 ≤ n) shape → foldr Z.mul 1 shape = zlen l →
  ∃ p, encode (JInt b) l = Ok p ∧ zlen p = 16 + (zlen l * b + 7) / 8 ∧ Forall (λ x, 0 ≤ x < 256) p ∧
    decode (JInt b) p "uint8" (JInt <$> shape) = Ok l.
Proof.
  intros Hb Hl HN Hs Hp. destruct (pack_kernel_spec b l) as (ps & Hk & Hps); [done..|].
  exists (header (zlen l) b ++ ps). destruct Hps as [Hlen Hbytes].
  assert (Hz : zlen (header (zlen l) b ++ ps) = 16 + packed_size (zlen l) b).
  { unfold zlen in *. rewrite length_app, header_length. lia. }
  split; [|split; [done|split]].
  - unfold encode, width. rewrite !(proj2 (Z.leb_le _ _)) by lia. simpl. by rewrite Hk.
  - apply Forall_app. split; [by apply header_bytes|]. apply Forall_lookup_2. intros i x Hi.
    assert (Hi' : (i < length ps)%nat) by (by eapply lookup_lt_Some). unfold zlen in Hlen at 1.
    destruct (Hbytes (Z.of_nat i)) as (v & Hv & ? & _); [rewrite <- Hlen; lia|]. rewrite Nat2Z.id in Hv. congruence.
  - assert (Hu : unpack_kernel (zlen l) b (header (zlen l) b ++ ps) = Some l) by (by apply unpack_kernel_spec).
    remember (header (zlen l) b ++ ps) as p eqn:Ep. clear Ep Hk.
    unfold decode, width. rewrite !(proj2 (Z.leb_le _ _)) by lia. simpl.
    assert (Hm : mapM natural (JInt <$> shape) = Some shape).
    { apply mapM_Some. clear -Hs. induction Hs as [|n ns Hn _ IH]; csimpl; constructor; [|done]. simpl. by rewrite (proj2 (Z.leb_le 0 n)). }
    rewrite Hm. simpl. rewrite Hp, Hz. unfold HEADER_BYTES. rewrite Z.eqb_refl. simpl. by rewrite Hu.
Qed.

(** C36 The bit-packing codec is lossless: for every width from 1 to 8, symbols
    that fit the width are encoded without a failed assertion into bytes, as
    many as the header announces, and decoding them for a shape with as many
    elements gives the symbols back. The bit offsets are 32-bit integers,
    hence the bound on the payload. *)
Theorem bitpack_round_trip b l shape :
  1 ≤ b ≤ 8 → Forall (λ x, 0 ≤ x < 2 ^ b) l → zlen l * b ≤ 2 ^ 31 - 8 →
  Forall (λ n, 0 ≤ n) shape → foldr Z.mul 1 shape = zlen l →
  ∃ p, encode (JInt b) l = Ok p ∧ zlen p = 16 + (zlen l * b + 7) / 8 ∧ Forall (λ x, 0 ≤ x < 256) p ∧
    decode (JInt b) p "uint8" (JInt <$> shape) = Ok l.
Proof. apply bitpack_back. Qed.

Definition ex_symbols : list Z := [5; 0; 7; 3; 6; 1].

Lemma bitpack_round_trip_witness :
  encode (JInt 3) ex_symbols = Ok [75; 66; 80; 1; 3; 0; 0; 0; 6; 0; 0; 0; 0; 0; 0; 0; 197; 231; 0] ∧
  ∃ p, encode (JInt 3) ex_symbols = Ok p ∧ zlen p = 16 + (zlen ex_symbols * 3 + 7) / 8 ∧ Forall (λ x, 0 ≤ x < 256) p ∧
    decode (JInt 3) p "uint8" (JInt <$> [2; 3]) = Ok ex_symbols.
Proof.
  split; [vm_compute; reflexivity|]. apply (bitpack_round_trip 3 ex_symbols [2; 3]); [lia| |vm_compute; congruence| |reflexivity];
    repeat constructor; vm_compute; congruence.
Defined.

(** Beyond that bound the offsets wrap around: from the 2^28-th byte on the
    lane reads before its tensor. *)
Lemma large_payload_fails l : 2 ^ 28 < zlen l → encode (JInt 8) l = Err (RuntimeError "device-side assert triggered").
Proof.
  intros Hl. unfold encode, width. simpl. unfold pack_kernel.
  assert (Hlane : pack_lane (zlen l) 8 l (2 ^ 28) = None).
  { unfold pack_lane. change (i32 (2 ^ 28 * 8)) with (- 2 ^ 31). change (Z.quot (- 2 ^ 31) 8) with (- 2 ^ 28).
    unfold packed_size. rewrite (proj2 (Z.ltb_lt (2 ^ 28) _)), (proj2 (Z.ltb_lt (- 2 ^ 28) _)); [done|lia|].
    pose proof (Z.div_mod (zlen l * 8 + 7) 8). pose proof (Z.mod_pos_bound (zlen l * 8 + 7) 8). lia. }
  destruct (mapM _ _) as [ps|] eqn:E; [|done]. exfalso.
  assert (Hs : is_Some (mapM (pack_lane (zlen l) 8 l) (seqZ 0 (packed_size (zlen l) 8)))) by (by rewrite E).
  apply mapM_is_Some in Hs. eapply Forall_forall in Hs; [destruct Hs as [v Hv]; rewrite Hlane in Hv; done|].
  apply elem_of_seqZ. split; [lia|]. unfold packed_size.
  pose proof (Z.div_mod (zlen l * 8 + 7) 8). pose proof (Z.mod_pos_bound (zlen l * 8 + 7) 8). lia.
Qed.
