(* ===== verification/V1Transport.v ===== *)
(** * The NCCL transport of the v1 product

    [transport/nccl_transport.py]: a producer's queue of payloads, offered one
    at a time to the consumer, which grants staging credits, refuses for the
    moment, or fails the transfer; NCCL sends and receives on two ordered
    streams; completion threads that retire them. Threads are cut where they
    wait: at their queues, at the control socket and at CUDA events. What can
    raise or run out of memory is an argument of the operation. *)

From S2P Require Import Prelude PyData Wire.

(** ** Payloads *)

(** A tensor, or the dict of a compressed bundle. *)
Inductive payload :=
  | Raw (t : tensor)
  | Bundle (m : meta_dict) (body aux : list tensor).

Notation spec := (list Z * string)%type.

Definition spec_of (t : tensor) : spec := (shape t, dtype t).

(** The control messages. *)
Inductive put_msg :=
  | PUT (request_id : string) (layer_names : list string) (s : spec)
  | PUT_BUNDLE (request_id : string) (layer_names : list string) (m : meta_dict) (body_specs aux_specs : list spec).

Inductive ack := AckOk | AckOom | AckRetry.

Section sizes.
Context `{D : !Dtypes}.

Definition spec_nbytes (s : spec) : Z := prod s.1 * default 1 (element_size s.2).

Definition payload_nbytes (p : payload) : Z :=
  match p with
  | Raw t => nbytes t
  | Bundle _ body aux => sumZ (nbytes <$> body ++ aux)
  end.

Definition msg_nbytes (m : put_msg) : Z :=
  match m with
  | PUT _ _ s => spec_nbytes s
  | PUT_BUNDLE _ _ _ body aux => sumZ (spec_nbytes <$> body ++ aux)
  end.
End sizes.

(** An entry of the send queue. *)
Record item := mkItem {
  i_request_id : string;
  i_layer_names : list string;
  i_payload : payload;
  i_payload_bytes : Z
}.

Definition msg_rid (m : put_msg) : string := match m with PUT r _ _ | PUT_BUNDLE r _ _ _ _ => r end.
Definition msg_names (m : put_msg) : list string := match m with PUT _ l _ | PUT_BUNDLE _ l _ _ _ => l end.

(** What [_send_one] and [_send_bundle_one] announce. *)
Definition msg_of (i : item) : put_msg :=
  match i_payload i with
  | Raw t => PUT (i_request_id i) (i_layer_names i) (spec_of t)
  | Bundle m body aux => PUT_BUNDLE (i_request_id i) (i_layer_names i) m (spec_of <$> body) (spec_of <$> aux)
  end.

(** ** The producer *)

(** [current] is the item the send loop works on, [send_completions] the
    bytes of the sends not yet retired. *)
Record producer := mkProducer {
  send_queue : list item;
  send_inflight : Z;
  send_pending_bytes : Z;
  current : option item;
  send_completions : list Z
}.

Definition init_producer : producer := mkProducer [] 0 0 None [].

Section transport.
Context `{D : !Dtypes}.

(** [send] and [send_bundle] *)
Definition send (request_id : string) (layer_names : list string) (p : payload) (s : producer) : producer :=
  let n := payload_nbytes p in
  mkProducer (send_queue s ++ [mkItem request_id layer_names p n]) (send_inflight s) (send_pending_bytes s + n)
    (current s) (send_completions s).

Definition finish_send_item (payload_bytes : Z) (s : producer) : producer :=
  mkProducer (send_queue s) (send_inflight s - 1) (send_pending_bytes s - payload_bytes) (current s) (send_completions s).

Definition set_current (c : option item) (s : producer) : producer :=
  mkProducer (send_queue s) (send_inflight s) (send_pending_bytes s) c (send_completions s).

(** The loop takes the first item. *)
Definition take_item (s : producer) : option (item * producer) :=
  match current s, send_queue s with
  | None, i :: q => Some (i, mkProducer q (send_inflight s + 1) (send_pending_bytes s) (Some i) (send_completions s))
  | _, _ => None
  end.

(** A refused item goes before the next one of the same request, or last. *)
Fixpoint requeue (i : item) (q : list item) : list item :=
  match q with
  | [] => [i]
  | x :: q => if bool_decide (i_request_id x = i_request_id i) then i :: x :: q else x :: requeue i q
  end.

Definition retry_item (i : item) (s : producer) : producer :=
  mkProducer (requeue i (send_queue s)) (send_inflight s - 1) (send_pending_bytes s) None (send_completions s).

Definition queue_completion (n : Z) (s : producer) : producer :=
  mkProducer (send_queue s) (send_inflight s) (send_pending_bytes s) None (send_completions s ++ [n]).

(** Empty tensors of a bundle are not sent. *)
Definition nccl_sends (p : payload) : list tensor :=
  match p with
  | Raw t => [t]
  | Bundle _ body aux => filter (λ t, numel t ≠ 0) (body ++ aux)
  end.

(** The answer to the current item, and what is submitted to NCCL; [ok] tells
    whether submitting it raised. *)
Definition on_ack (i : item) (a : ack) (ok : bool) (s : producer) : list tensor * producer :=
  match a with
  | AckRetry => ([], retry_item i s)
  | AckOom => ([], finish_send_item (i_payload_bytes i) (set_current None s))
  | AckOk =>
      if ok then (nccl_sends (i_payload i), queue_completion (i_payload_bytes i) s)
      else ([], finish_send_item (i_payload_bytes i) (set_current None s))
  end.

(** [_send_completion_loop]: the event has completed or raised. *)
Definition retire_send (s : producer) : option producer :=
  match send_completions s with
  | [] => None
  | n :: l => Some (finish_send_item n (mkProducer (send_queue s) (send_inflight s) (send_pending_bytes s) (current s) l))
  end.

(** The conditions [wait_for_sent] and [wait_for_below] wait for. *)
Definition all_sent (s : producer) : bool := bool_decide (send_queue s = []) && (send_inflight s =? 0).

Definition below (max_pending_bytes : Z) (s : producer) : bool := send_pending_bytes s <=? max_pending_bytes.

(** ** The consumer *)

(** [received] maps a request to its payloads in order, [None] for a failed
    transfer; [recv_completions] are the receives not yet retired. *)
Record consumer := mkConsumer {
  comm : bool;
  capacity : Z;
  reserved : Z;
  expected : gset string;
  priority : option string;
  received : list (string * list (list string * option payload));
  recv_completions : list put_msg
}.

Definition init_consumer (recv_buffer_size : Z) : consumer := mkConsumer false (Z.max 1 recv_buffer_size) 0 ∅ None [] [].

Definition set_comm (s : consumer) : consumer :=
  mkConsumer true (capacity s) (reserved s) (expected s) (priority s) (received s) (recv_completions s).
Definition set_received (f : list (string * list (list string * option payload)) → list (string * list (list string * option payload)))
    (s : consumer) : consumer :=
  mkConsumer (comm s) (capacity s) (reserved s) (expected s) (priority s) (f (received s)) (recv_completions s).
Definition set_recv_completions (f : list put_msg → list put_msg) (s : consumer) : consumer :=
  mkConsumer (comm s) (capacity s) (reserved s) (expected s) (priority s) (received s) (f (recv_completions s)).
Definition set_credit (n : Z) (p : option string) (s : consumer) : consumer :=
  mkConsumer (comm s) (capacity s) n (expected s) p (received s) (recv_completions s).

(** [d[key].append(x)] on a dict of deques *)
Definition append {A} (d : list (string * list A)) (key : string) (l : list A) : list (string * list A) :=
  dset d key (default [] (dget d key) ++ l).

Definition drain_received (s : consumer) : list (string * list (list string * option payload)) * consumer :=
  (filter (λ e, e.2 ≠ []) (received s), set_received (λ _, []) s).

Definition release_received (request_id : string) (payload_bytes : Z) (s : consumer) : consumer :=
  if payload_bytes <=? 0 then s
  else set_credit (Z.max 0 (reserved s - payload_bytes))
         (if bool_decide (Some request_id = priority s) then None else priority s) s.

Definition set_expected_requests (l : list string) (s : consumer) : consumer :=
  mkConsumer (comm s) (capacity s) (reserved s) (list_to_set l) (priority s) (received s) (recv_completions s).

Definition full (payload_bytes : Z) (s : consumer) : bool :=
  (0 <? reserved s) && (capacity s <? reserved s + payload_bytes).

(** [_reserve_received(..., wait=False)] *)
Definition reserve_received (request_id : string) (payload_bytes : Z) (s : consumer) : option consumer :=
  if full payload_bytes s then
    if bool_decide (request_id ∈ expected s) && bool_decide (priority s = None)
    then Some (set_credit (reserved s + payload_bytes) (Some request_id) s)
    else None
  else Some (set_credit (reserved s + payload_bytes) (priority s) s).

Definition mark_failed (request_id : string) (s : consumer) : consumer :=
  set_received (λ d, append d request_id [([], None)]) s.

(** A PUT or PUT_BUNDLE: [alloc] tells whether its buffers could be
    allocated, [post] whether submitting the receives raised. *)
Definition on_put (m : put_msg) (alloc post : bool) (s : consumer) : ack * consumer :=
  if negb (comm s) then (AckOom, mark_failed (msg_rid m) s)
  else
    match reserve_received (msg_rid m) (msg_nbytes m) s with
    | None => (AckRetry, s)
    | Some s =>
        if negb alloc then (AckOom, mark_failed (msg_rid m) (release_received (msg_rid m) (msg_nbytes m) s))
        else (AckOk, if post then set_recv_completions (λ l, l ++ [m]) s else s)
    end.

(** ** Receiving *)

(** The bytes of the next tensor of the stream arrive in a buffer of as many
    bytes. *)
Definition recv_one (b : spec) (stream : list tensor) : option (tensor * list tensor) :=
  match stream with
  | [] => None
  | t :: rest => if zlen (data t) =? spec_nbytes b then Some (mkTensor b.1 b.2 (data t), rest) else None
  end.

Fixpoint recv_all (l : list spec) (stream : list tensor) : option (list tensor * list tensor) :=
  match l with
  | [] => Some ([], stream)
  | b :: l =>
      '(t, stream) ← (if prod b.1 =? 0 then Some (mkTensor b.1 b.2 [], stream) else recv_one b stream);
      '(ts, stream) ← recv_all l stream;
      Some (t :: ts, stream)
  end.

Definition recv_payload (m : put_msg) (stream : list tensor) : option (payload * list tensor) :=
  match m with
  | PUT _ _ b => '(t, stream) ← recv_one b stream; Some (Raw t, stream)
  | PUT_BUNDLE _ _ meta body aux =>
      '(bs, stream) ← recv_all body stream;
      '(xs, stream) ← recv_all aux stream;
      Some (Bundle meta bs xs, stream)
  end.

(** [_recv_completion_loop]: the first receive has completed, or its event
    raised. *)
Definition retire_recv (ok : bool) (stream : list tensor) (s : consumer) : option (list tensor * consumer) :=
  match recv_completions s with
  | [] => None
  | m :: l =>
      '(p, stream) ← recv_payload m stream;
      let s := set_recv_completions (λ _, l) s in
      Some (stream,
            if ok then set_received (λ d, append d (msg_rid m) [(msg_names m, Some p)]) s
            else mark_failed (msg_rid m) (release_received (msg_rid m) (msg_nbytes m) s))
  end.

End transport.
