(* ===== verification/V1Conn.v ===== *)
(** * The connector of the v1 product

    [connector/compressed_kv_connector.py]: the scheduler side (which requests
    to load or send in a step, with chunked prefill), the worker of a consumer
    ([start_load_kv], cut at each turn of its loop), and both workers with the
    transport between them. Request objects belong to the engine: the
    connector keeps a reference and reads the object when it needs it.
    Decompression is a parameter; what is written into the KV cache is a log
    of injections. *)

From S2P Require Import Prelude PyData Wire V1Transport.

(** ** Slots *)

(** [make_slot_mapping] of [utils/kv_utils.py] *)
Definition make_slot_mapping (token_ids block_ids : list Z) (block_size : Z) : list Z :=
  take (length token_ids) (block_ids ≫= λ b, (λ o, b * block_size + o) <$> seqZ 0 block_size).

(** ** The scheduler side *)

Module Sched.

(** What the connector reads of the engine's request; [transfer_id] is that
    of [kv_transfer_params], if the dict has one. *)
Record request := mkRequest {
  r_request_id : string;
  r_prompt_token_ids : list Z;
  all_token_ids : list Z;
  kv_transfer_id : option string
}.

Record new_req := mkNewReq {
  n_req_id : string;
  n_prompt_token_ids : option (list Z);
  n_block_ids : list (list Z);
  n_num_computed_tokens : Z
}.

(** An entry of [scheduled_cached_reqs]. *)
Record cached_req := mkCachedReq {
  c_req_id : string;
  c_num_computed_tokens : Z;
  c_new_block_ids : option (list (list Z));
  c_resumed : bool
}.

Record scheduler_output := mkOutput {
  scheduled_new_reqs : list new_req;
  scheduled_cached_reqs : list cached_req;
  num_scheduled_tokens : list (string * Z)
}.

Record ReqMeta := mkReqMeta {
  request_id : string;
  transfer_id : string;
  token_ids : list Z;
  block_ids : list Z;
  slot_mapping : list Z
}.

Record sched := mkSched {
  requests_need_load : list (string * (nat * list Z));
  request_transfer_ids : list (string * string);
  chunked_prefill : list (string * (list Z * list Z))
}.

Definition init_sched : sched := mkSched [] [] [].

Definition set_need_load (f : list (string * (nat * list Z)) → list (string * (nat * list Z))) (s : sched) : sched :=
  mkSched (f (requests_need_load s)) (request_transfer_ids s) (chunked_prefill s).
Definition set_transfer_ids (f : list (string * string) → list (string * string)) (s : sched) : sched :=
  mkSched (requests_need_load s) (f (request_transfer_ids s)) (chunked_prefill s).
Definition set_chunked (f : list (string * (list Z * list Z)) → list (string * (list Z * list Z))) (s : sched) : sched :=
  mkSched (requests_need_load s) (request_transfer_ids s) (f (chunked_prefill s)).

Section sched.
Context (is_producer : bool) (block_size : Z).

Definition add_request (rid tid : string) (tokens blocks : list Z) (m : list ReqMeta) : list ReqMeta :=
  m ++ [mkReqMeta rid tid tokens blocks (make_slot_mapping tokens blocks block_size)].

(** What [_resolve_transfer_id] notes, and what it returns. *)
Definition note_transfer_id (rid : string) (q : request) (s : sched) : sched :=
  match kv_transfer_id q with
  | Some t => if bool_decide (t = ""%string) then s else set_transfer_ids (λ d, dset d rid t) s
  | None => s
  end.

Definition resolved (rid : string) (s : sched) : string := default rid (dget (request_transfer_ids s) rid).

Definition get_num_new_matched_tokens (q : request) (num_computed_tokens : Z) : Z * bool :=
  if is_producer then (0, false)
  else
    let n := zlen (r_prompt_token_ids q) - 1 - num_computed_tokens in
    if n <=? 0 then (0, false) else (n, false).

(** [r] refers to the request object [q]; [blocks] are its block tables. *)
Definition update_state_after_alloc (r : nat) (q : request) (blocks : list (list Z)) (num_external_tokens : Z) (s : sched) :
    result sched :=
  let s := note_transfer_id (r_request_id q) q s in
  if negb is_producer && (0 <? num_external_tokens) then
    let? b := py_index blocks 0 in
    Ok (set_need_load (λ d, dset d (r_request_id q) (r, b)) s)
  else Ok s.

Definition new_request (o : scheduler_output) (acc : sched * list ReqMeta) (n : new_req) : result (sched * list ReqMeta) :=
  let (s, m) := acc in
  let id := n_req_id n in
  let prompt := default [] (n_prompt_token_ids n) in
  if is_producer then
    let? scheduled := of_option KeyError (dget (num_scheduled_tokens o) id) in
    let? b := py_index (n_block_ids n) 0 in
    if scheduled + n_num_computed_tokens n <? zlen prompt
    then Ok (set_chunked (λ d, dset d id (b, prompt)) s, m)
    else Ok (s, add_request id (resolved id s) prompt b m)
  else
    match dget (requests_need_load s) id with
    | Some _ =>
        let? b := py_index (n_block_ids n) 0 in
        Ok (set_need_load (λ d, ddel d id) s, add_request id (resolved id s) prompt b m)
    | None => Ok (s, m)
    end.

(** A producer's request whose prompt goes on. *)
Definition next_chunk (o : scheduler_output) (acc : sched * list ReqMeta) (e : cached_req) : result (sched * list ReqMeta) :=
  let (s, m) := acc in
  let id := c_req_id e in
  let? scheduled := of_option KeyError (dget (num_scheduled_tokens o) id) in
  let? (before, prompt) := of_option AssertionError (dget (chunked_prefill s) id) in
  let? new := of_option AssertionError (c_new_block_ids e) in
  let? b := py_index new 0 in
  let blocks := if c_resumed e then b else before ++ b in
  if scheduled + c_num_computed_tokens e <? zlen prompt
  then Ok (set_chunked (λ d, dset d id (blocks, prompt)) s, m)
  else Ok (set_chunked (λ d, ddel d id) s, add_request id (resolved id s) prompt blocks m).

(** A consumer's request that resumes after a preemption; [h] are the
    engine's objects. *)
Definition resumed_load (h : nat → request) (acc : sched * list ReqMeta) (e : cached_req) : result (sched * list ReqMeta) :=
  let (s, m) := acc in
  let id := c_req_id e in
  match dget (requests_need_load s) id with
  | None => Ok (s, m)
  | Some (r, _) =>
      let s := set_need_load (λ d, ddel d id) s in
      let? new := of_option AssertionError (c_new_block_ids e) in
      let? b := py_index new 0 in
      let s := note_transfer_id id (h r) s in
      Ok (s, add_request id (resolved id s) (take (Z.to_nat (c_num_computed_tokens e + 1)) (all_token_ids (h r))) b m)
  end.

(** The loop over the cached requests; a consumer leaves it at the first
    request that has not resumed. *)
Fixpoint cached_requests (h : nat → request) (o : scheduler_output) (acc : sched * list ReqMeta) (l : list cached_req) :
    result (sched * list ReqMeta) :=
  match l with
  | [] => Ok acc
  | e :: l =>
      if is_producer then let? acc := next_chunk o acc e in cached_requests h o acc l
      else if negb (c_resumed e) then Ok acc
      else let? acc := resumed_load h acc e in cached_requests h o acc l
  end.

Definition build_connector_meta (h : nat → request) (o : scheduler_output) (s : sched) : result (sched * list ReqMeta) :=
  let? acc := rfold (new_request o) (s, []) (scheduled_new_reqs o) in
  cached_requests h o acc (scheduled_cached_reqs o).

Definition request_finished (id : string) (s : sched) : sched :=
  let s := set_transfer_ids (λ d, ddel d id) (set_chunked (λ d, ddel d id) s) in
  if is_producer then s else set_need_load (λ d, ddel d id) s.

End sched.
End Sched.

(** ** The worker of a consumer *)

Module Worker.
Import Sched.

Definition SENTINEL : string := "__compressed__".

Definition add_sentinel (layer_names : list string) : list string := SENTINEL :: layer_names.

Definition is_compressed_layer_names (layer_names : list string) : bool :=
  match layer_names with n :: _ => bool_decide (n = SENTINEL) | [] => false end.

Definition strip_sentinel (layer_names : list string) : list string :=
  if is_compressed_layer_names layer_names then tail layer_names else layer_names.

(** A load that has been injected: the request, the layers and the stacked
    KV tensor. *)
Record injection := mkInjection { inj_req : ReqMeta; inj_layers : list string; inj_kv : tensor }.

(** [pending] is the list of the running [start_load_kv], if one runs;
    [raised] the exceptions that left it. *)
Record worker := mkWorker {
  worker_received : list (string * list (list string * option payload));
  pending : option (list ReqMeta);
  injected : list injection;
  raised : list exn
}.

Definition init_worker : worker := mkWorker [] None [] [].

Section worker.
Context `{D : !Dtypes} (repr : obj → string).
(** [None] where compression is not configured; [decompress] may fail. *)
Context (compressor : option (CompressedKVData → option tensor)).

Definition transport_failed : exn := RuntimeError "KV transport failed".

(** The payload of a transfer as the KV tensor of its layers. *)
Definition unpack (layer_names : list string) (p : option payload) : result (list string * tensor) :=
  match p with
  | None => Err transport_failed
  | Some p =>
      if is_compressed_layer_names layer_names then
        match compressor with
        | None => Err (RuntimeError "No KV decompressor configured")
        | Some decompress =>
            match p with
            | Raw _ => Err (RuntimeError "Invalid compressed KV payload")
            | Bundle m body aux =>
                let? c := restore_from_wire repr (mkWire m body aux) in
                let? kv := of_option (RuntimeError "KV decompression failed") (decompress c) in
                Ok (strip_sentinel layer_names, kv)
            end
        end
      else
        match p with
        | Raw t => Ok (layer_names, t)
        | Bundle _ _ _ => Err KeyError
        end
  end.

Definition payload_size (p : option payload) : Z := match p with Some p => payload_nbytes p | None => 0 end.

(** [self._worker_received_kv[key].extend(payloads)] for what was drained *)
Definition extend (d new : list (string * list (list string * option payload))) : list (string * list (list string * option payload)) :=
  foldl (λ d e, append d e.1 e.2) d new.

Definition drain (w : worker) (c : consumer) : worker * consumer :=
  let (new, c) := drain_received c in
  (mkWorker (extend (worker_received w) new) (pending w) (injected w) (raised w), c).

(** The first pending request with a payload, and the others. *)
Fixpoint next_ready (d : list (string * list (list string * option payload))) (l : list ReqMeta) : option (ReqMeta * list ReqMeta) :=
  match l with
  | [] => None
  | r :: l =>
      match dget d (transfer_id r) with
      | Some (_ :: _) => Some (r, l)
      | _ => '(x, l) ← next_ready d l; Some (x, r :: l)
      end
  end.

(** [popleft], and the key when nothing is left. *)
Definition pop_payload (key : string) (d : list (string * list (list string * option payload))) :
    option ((list string * option payload) * list (string * list (list string * option payload))) :=
  match dget d key with
  | Some (x :: l) => Some (x, match l with [] => ddel d key | _ => dset d key l end)
  | _ => None
  end.

(** After the last pending request the loop ends. *)
Definition set_pending (l : list ReqMeta) (w : worker) (c : consumer) : worker * consumer :=
  match l with
  | [] => (mkWorker (worker_received w) None (injected w) (raised w), set_expected_requests [] c)
  | _ => (mkWorker (worker_received w) (Some l) (injected w) (raised w), c)
  end.

(** [start_load_kv] up to its loop. *)
Definition start_load_kv (reqs : list ReqMeta) (w : worker) (c : consumer) : worker * consumer :=
  let (w, c) := drain w c in
  set_pending reqs w (set_expected_requests (transfer_id <$> reqs) c).

(** A turn of the loop: one ready request is injected and its credit given
    back, whatever happens; an exception leaves the loop. *)
Definition load_turn (l : list ReqMeta) (w : worker) (c : consumer) : worker * consumer :=
  let (w, c) := drain w c in
  match next_ready (worker_received w) l with
  | None => (w, c)
  | Some (r, rest) =>
      match pop_payload (transfer_id r) (worker_received w) with
      | None => (w, c)
      | Some ((names, p), d) =>
          let c := release_received (transfer_id r) (payload_size p) c in
          match unpack names p with
          | Err e => (mkWorker d None (injected w) (raised w ++ [e]), c)
          | Ok (names, kv) => set_pending rest (mkWorker d (pending w) (injected w ++ [mkInjection r names kv]) (raised w)) c
          end
      end
  end.

(** The turn that finds nothing ready after the deadline. *)
Definition load_timeout (l : list ReqMeta) (w : worker) (c : consumer) : option (worker * consumer) :=
  let (w, c) := drain w c in
  match next_ready (worker_received w) l with
  | Some _ => None
  | None =>
      Some (mkWorker (worker_received w) None (injected w) (raised w ++ [TimeoutError "Timed out waiting for KV transfers"]),
            set_expected_requests [] c)
  end.

(** ** Producer, transport and consumer *)

(** [control] and [answer] are the control socket, [stream] the tensors
    submitted to NCCL and not yet received. *)
Record system := mkSystem {
  p_state : producer;
  c_state : consumer;
  w_state : worker;
  control : option put_msg;
  answer : option ack;
  stream : list tensor
}.

Definition init_system (recv_buffer_size : Z) : system :=
  mkSystem init_producer (init_consumer recv_buffer_size) init_worker None None [].

Inductive event :=
  | Init
  | Send (request_id : string) (layer_names : list string) (p : payload)
  | Offer
  | Listen (alloc post : bool)
  | Answered (ok : bool)
  | SendRetired
  | RecvRetired (ok : bool)
  | StartLoad (reqs : list ReqMeta)
  | Turn
  | Deadline.

Definition with_worker (s : system) (x : worker * consumer) : system :=
  mkSystem (p_state s) x.2 x.1 (control s) (answer s) (stream s).

Definition sys_step (s : system) (e : event) : option system :=
  match e with
  | Init => Some (mkSystem (p_state s) (set_comm (c_state s)) (w_state s) (control s) (answer s) (stream s))
  | Send rid names p => Some (mkSystem (send rid names p (p_state s)) (c_state s) (w_state s) (control s) (answer s) (stream s))
  | Offer =>
      '(i, p) ← take_item (p_state s);
      Some (mkSystem p (c_state s) (w_state s) (Some (msg_of i)) (answer s) (stream s))
  | Listen alloc post =>
      m ← control s;
      let (a, c) := on_put m alloc post (c_state s) in
      Some (mkSystem (p_state s) c (w_state s) None (Some a) (stream s))
  | Answered ok =>
      a ← answer s;
      i ← current (p_state s);
      let (ts, p) := on_ack i a ok (p_state s) in
      Some (mkSystem p (c_state s) (w_state s) (control s) None (stream s ++ ts))
  | SendRetired =>
      p ← retire_send (p_state s);
      Some (mkSystem p (c_state s) (w_state s) (control s) (answer s) (stream s))
  | RecvRetired ok =>
      '(l, c) ← retire_recv ok (stream s) (c_state s);
      Some (mkSystem (p_state s) c (w_state s) (control s) (answer s) l)
  | StartLoad reqs =>
      match pending (w_state s) with
      | Some _ => None
      | None => Some (with_worker s (start_load_kv reqs (w_state s) (c_state s)))
      end
  | Turn =>
      l ← pending (w_state s);
      Some (with_worker s (load_turn l (w_state s) (c_state s)))
  | Deadline =>
      l ← pending (w_state s);
      x ← load_timeout l (w_state s) (c_state s);
      Some (with_worker s x)
  end.

Fixpoint sys_run (s : system) (es : list event) : option system :=
  match es with
  | [] => Some s
  | e :: es => s ← sys_step s e; sys_run s es
  end.

End worker.
End Worker.
