(* ===== verification/V1ConnThms.v ===== *)
(** * The v1 connector and its transport: invariants

    The queues, the socket, the stream and the buffers between producer and
    consumer hold every payload once and in order; what is counted is what
    they hold. *)

From S2P Require Import Prelude PyData Wire WireThms V1Transport V1Conn.
Import V1Conn.Worker V1Conn.Sched.

Notation entry := (list string * payload)%type.
Notation inbox := (list (string * list (list string * option payload))).

(** ** Dicts of deques *)

Section inbox.
Context `{D : !Dtypes}.

Definition inbox_bytes (d : inbox) : Z := sumZ ((λ e, sumZ ((λ x, payload_size x.2) <$> e.2)) <$> d).

Definition here (d : inbox) (t : string) : list (list string * option payload) := default [] (dget d t).

(** The payloads that have arrived for [t]. *)
Definition arrived (d : inbox) (t : string) : list entry := omap (λ x : list string * option payload, pair x.1 <$> x.2) (here d t).

Lemma here_cons k l d t : here ((k, l) :: d) t = if decide (t = k) then l else here d t.
Proof. unfold here. simpl. by destruct (decide (t = k)). Qed.

Lemma here_append d k l t : here (append d k l) t = if decide (t = k) then here d k ++ l else here d t.
Proof.
  unfold here, append. destruct (decide (t = k)) as [->|]; [by rewrite dget_dset_eq|by rewrite dget_dset_ne].
Qed.

Lemma inbox_bytes_dset d k l :
  inbox_bytes (dset d k l) = inbox_bytes d - sumZ ((λ x, payload_size x.2) <$> here d k) + sumZ ((λ x, payload_size x.2) <$> l).
Proof.
  unfold inbox_bytes, here. induction d as [|[k' l'] d IH]; simpl; [lia|].
  destruct (decide (k = k')) as [->|]; csimpl; [lia|]. rewrite IH. lia.
Qed.

Lemma inbox_bytes_append d k l : inbox_bytes (append d k l) = inbox_bytes d + sumZ ((λ x, payload_size x.2) <$> l).
Proof. unfold append. rewrite inbox_bytes_dset, fmap_app, sumZ_app. unfold here. lia. Qed.

Lemma inbox_bytes_ddel d k :
  dict_ok d → inbox_bytes (ddel d k) = inbox_bytes d - sumZ ((λ x, payload_size x.2) <$> here d k).
Proof.
  unfold inbox_bytes, here, dict_ok, dkeys. induction d as [|[k' l'] d IH]; [simpl; lia|]. csimpl. intros [Hk Hd]%NoDup_cons.
  unfold ddel in *. rewrite filter_cons. simpl. destruct (decide (k = k')) as [->|Hne].
  - rewrite decide_False by (intros []; done). rewrite IH by done.
    assert (Hn : dget d k' = None) by by apply dget_None. rewrite Hn. simpl. lia.
  - rewrite decide_True by done. csimpl. rewrite IH by done. lia.
Qed.

Lemma inbox_bytes_nonempty d : inbox_bytes (filter (λ e, e.2 ≠ []) d) = inbox_bytes d.
Proof.
  unfold inbox_bytes. induction d as [|[k l] d IH]; [done|]. rewrite filter_cons. simpl. destruct l; [|].
  - rewrite decide_False by (intros Hc; by apply Hc). csimpl. rewrite IH. done.
  - rewrite decide_True by done. csimpl. by rewrite IH.
Qed.

Lemma here_nonempty d t : dict_ok d → here (filter (λ e, e.2 ≠ []) d) t = here d t.
Proof.
  unfold here, dict_ok, dkeys. induction d as [|[k l] d IH]; [done|]. csimpl. intros [Hk Hd]%NoDup_cons.
  rewrite filter_cons. simpl. destruct (decide (t = k)) as [->|Hne].
  - destruct l; [|by rewrite decide_True by done; simpl; rewrite decide_True by done].
    rewrite decide_False by (intros Hc; by apply Hc). rewrite IH by done. by rewrite (proj2 (dget_None d k)).
  - destruct l; [rewrite decide_False by (intros Hc; by apply Hc); by apply IH|].
    rewrite decide_True by done. simpl. rewrite decide_False by done. by apply IH.
Qed.

Lemma dict_ok_append (d : inbox) k l : dict_ok d → dict_ok (append d k l).
Proof. apply dict_ok_dset. Qed.

Lemma dict_ok_filter (P : string * list (list string * option payload) → Prop) `{!∀ e, Decision (P e)} (d : inbox) :
  dict_ok d → dict_ok (filter P d).
Proof. unfold dict_ok, dkeys. intros Hd. eapply sublist_NoDup; [exact Hd|]. apply fmap_sublist, sublist_filter. Qed.

Lemma extend_spec (d new : inbox) :
  dict_ok d → dict_ok new →
  dict_ok (extend d new) ∧ inbox_bytes (extend d new) = inbox_bytes d + inbox_bytes new ∧
  ∀ t, here (extend d new) t = here d t ++ here new t.
Proof.
  unfold extend. revert d. induction new as [|[k l] new IH]; intros d Hd Hn.
  { simpl. split_and!; [done|unfold inbox_bytes; simpl; lia|]. intros t. by rewrite app_nil_r. }
  unfold dict_ok, dkeys in Hn. simpl in Hn. apply NoDup_cons in Hn as [Hk Hn].
  destruct (IH (append d k l)) as (H1 & H2 & H3); [by apply dict_ok_append|done|]. simpl. split; [done|]. split.
  - rewrite H2, inbox_bytes_append. unfold inbox_bytes. csimpl. lia.
  - intros t. rewrite H3, here_append, here_cons. destruct (decide (t = k)) as [->|]; [|done].
    unfold here at 2. rewrite (proj2 (dget_None new k)) by done. simpl. by rewrite app_nil_r.
Qed.

Lemma pop_payload_spec t d x d' :
  dict_ok d → pop_payload t d = Some (x, d') →
  dict_ok d' ∧ inbox_bytes d = payload_size x.2 + inbox_bytes d' ∧ here d t = x :: here d' t ∧ ∀ t', t' ≠ t → here d' t' = here d t'.
Proof.
  intros Hd. unfold pop_payload. destruct (dget d t) as [[|y l]|] eqn:E; [done| |done]. intros [= <- <-].
  assert (Hh : here d t = y :: l) by (unfold here; by rewrite E). destruct l as [|z l].
  - split; [by apply dict_ok_ddel|]. rewrite inbox_bytes_ddel, Hh by done. csimpl. split; [lia|]. unfold here.
    rewrite dget_ddel_eq. split; [done|]. intros t' Ht. by rewrite dget_ddel_ne.
  - split; [by apply dict_ok_dset|]. rewrite inbox_bytes_dset, Hh. csimpl. split; [lia|]. unfold here.
    rewrite dget_dset_eq. split; [done|]. intros t' Ht. by rewrite dget_dset_ne.
Qed.

Lemma arrived_app d1 d2 d3 t : here d3 t = here d1 t ++ here d2 t → arrived d3 t = arrived d1 t ++ arrived d2 t.
Proof. unfold arrived. intros ->. apply omap_app. Qed.

(** A property of all payloads of a dict. *)
Definition inbox_all (Q : list string * option payload → Prop) (d : inbox) : Prop := Forall (λ e, Forall Q e.2) d.

Lemma inbox_all_here Q d t : inbox_all Q d → Forall Q (here d t).
Proof.
  unfold here. destruct (dget d t) as [l|] eqn:E; simpl; [|done]. intros Hd. apply dget_elem_of in E.
  eapply Forall_forall in Hd; [|exact E]. done.
Qed.

Lemma inbox_all_dset Q d k l : inbox_all Q d → Forall Q l → inbox_all Q (dset d k l).
Proof.
  intros Hd Hl. apply Forall_forall. intros e He. apply elem_of_dset in He as [->|[He _]]; [done|].
  eapply Forall_forall in Hd; [|exact He]. done.
Qed.

Lemma inbox_all_append Q d k l : inbox_all Q d → Forall Q l → inbox_all Q (append d k l).
Proof. intros Hd Hl. apply inbox_all_dset; [done|]. apply Forall_app. split; [by apply inbox_all_here|done]. Qed.

Lemma inbox_all_filter Q (P : string * list (list string * option payload) → Prop) `{!∀ e, Decision (P e)} d :
  inbox_all Q d → inbox_all Q (filter P d).
Proof. intros Hd. apply Forall_forall. intros e [_ He]%list_elem_of_filter. by eapply Forall_forall in Hd. Qed.

Lemma inbox_all_extend Q d new : inbox_all Q d → inbox_all Q new → inbox_all Q (extend d new).
Proof.
  unfold extend. intros Hd Hn. revert d Hd. induction Hn as [|e new He _ IH]; intros d Hd; [done|]. simpl.
  by apply IH, inbox_all_append.
Qed.

Lemma inbox_all_pop Q t d x d' : inbox_all Q d → pop_payload t d = Some (x, d') → Q x ∧ inbox_all Q d'.
Proof.
  intros Hd. unfold pop_payload. pose proof (inbox_all_here Q d t Hd) as Hh. unfold here in Hh.
  destruct (dget d t) as [[|y l]|] eqn:E; [done| |done]. intros [= <- <-]. apply Forall_cons in Hh as [Hy Hl]. split; [done|].
  destruct l; [by apply inbox_all_filter|by apply inbox_all_dset].
Qed.

Definition sized (x : list string * option payload) : Prop := 0 ≤ payload_size x.2.

Lemma inbox_bytes_nonneg d : inbox_all sized d → 0 ≤ inbox_bytes d.
Proof.
  intros Hd. unfold inbox_bytes. apply sumZ_nonneg, Forall_fmap. eapply Forall_impl; [exact Hd|]. intros e He. simpl.
  by apply sumZ_nonneg, Forall_fmap.
Qed.

End inbox.

(** ** Payloads on their way *)

Definition payload_tensors (p : payload) : list tensor := match p with Raw t => [t] | Bundle _ body aux => body ++ aux end.

Section flow.
Context `{D : !Dtypes} (repr : obj → string) (compressor : option (CompressedKVData → option tensor)).

Definition payload_ok (p : payload) : Prop := Forall tensor_ok (payload_tensors p).

Definition item_ok (i : item) : Prop := payload_ok (i_payload i) ∧ i_payload_bytes i = payload_nbytes (i_payload i).

Lemma tensor_nbytes_nonneg t : tensor_ok t → 0 ≤ nbytes t.
Proof. intros Ht. rewrite <- (ok_data t Ht). unfold zlen. lia. Qed.

Lemma payload_nbytes_nonneg p : payload_ok p → 0 ≤ payload_nbytes p.
Proof.
  unfold payload_ok. destruct p as [t|m body aux]; simpl; intros Hp; [by apply Forall_singleton, tensor_nbytes_nonneg in Hp|].
  apply sumZ_nonneg, Forall_fmap. eapply Forall_impl; [exact Hp|]. apply tensor_nbytes_nonneg.
Qed.

Lemma msg_nbytes_of i : msg_nbytes (msg_of i) = payload_nbytes (i_payload i).
Proof.
  unfold msg_of. destruct (i_payload i); simpl; [done|]. by rewrite <- fmap_app, <- list_fmap_compose.
Qed.

Lemma msg_rid_of i : msg_rid (msg_of i) = i_request_id i.
Proof. unfold msg_of. by destruct (i_payload i). Qed.

Lemma msg_names_of i : msg_names (msg_of i) = i_layer_names i.
Proof. unfold msg_of. by destruct (i_payload i). Qed.

(** A receive takes what its send submitted. *)
Lemma recv_one_spec t rest : tensor_ok t → recv_one (spec_of t) (t :: rest) = Some (t, rest).
Proof.
  intros Ht. unfold recv_one. rewrite (proj2 (Z.eqb_eq _ _)); [by destruct t|]. apply Ht.
Qed.

Lemma recv_all_spec l rest :
  Forall tensor_ok l → recv_all (spec_of <$> l) (filter (λ t, numel t ≠ 0) l ++ rest) = Some (l, rest).
Proof.
  induction 1 as [|t l Ht _ IH]; [done|]. csimpl. rewrite filter_cons. destruct (Z.eqb_spec (prod (shape t)) 0) as [E|E].
  - rewrite decide_False by (intros Hn; by apply Hn). simpl. rewrite IH. simpl. do 3 f_equal.
    pose proof (ok_data t Ht) as Hd. unfold nbytes, numel in Hd. rewrite E in Hd. destruct t as [sh dt [|b da]]; [done|].
    unfold zlen in Hd. simpl in Hd. lia.
  - rewrite decide_True by done. cbn [app]. rewrite recv_one_spec by done. simpl. by rewrite IH.
Qed.

Lemma recv_payload_spec i rest :
  payload_ok (i_payload i) → recv_payload (msg_of i) (nccl_sends (i_payload i) ++ rest) = Some (i_payload i, rest).
Proof.
  unfold payload_ok, msg_of. destruct (i_payload i) as [t|m body aux]; cbn [payload_tensors recv_payload nccl_sends app].
  - intros Ht; rewrite Forall_singleton in Ht. by rewrite recv_one_spec.
  - intros [Hb Ha]%Forall_app. rewrite filter_app, <- app_assoc, recv_all_spec by done. cbn [mbind option_bind].
    by rewrite recv_all_spec.
Qed.

(** ** The line of a transfer *)

Definition entry_of (i : item) : entry := (i_layer_names i, i_payload i).

Definition entries (l : list item) (t : string) : list entry := entry_of <$> filter (λ i, i_request_id i = t) l.

Lemma entries_app l1 l2 t : entries (l1 ++ l2) t = entries l1 t ++ entries l2 t.
Proof. unfold entries. by rewrite filter_app, fmap_app. Qed.

Lemma entries_one i t : entries [i] t = if decide (i_request_id i = t) then [entry_of i] else [].
Proof. unfold entries. rewrite filter_cons. by destruct (decide (i_request_id i = t)). Qed.

Lemma entries_requeue i q t : entries (requeue i q) t = entries [i] t ++ entries q t.
Proof.
  induction q as [|x q IH]; simpl; [by rewrite app_nil_r|]. case_bool_decide as Hx; [by rewrite <- entries_app|].
  change (x :: requeue i q) with ([x] ++ requeue i q). change (x :: q) with ([x] ++ q).
  rewrite !entries_app, IH, !entries_one. destruct (decide (i_request_id i = t)) as [<-|]; [|done]. by rewrite decide_False.
Qed.

(** The item of the send loop until its receives are posted. *)
Definition offered (s : system) : list item :=
  match current (p_state s), answer s with
  | Some i, Some AckOk => []
  | Some i, _ => [i]
  | None, _ => []
  end.

(** The payloads of [t] that are still to be injected; [A] are the items whose
    receives are posted. *)
Definition line (A : list item) (s : system) (t : string) : list entry :=
  arrived (worker_received (w_state s)) t ++ arrived (received (c_state s)) t ++ entries A t ++ entries (offered s) t
    ++ entries (send_queue (p_state s)) t.

Definition loads (s : system) (t : string) : list (list string * tensor) :=
  (λ j, (inj_layers j, inj_kv j)) <$> filter (λ j, transfer_id (inj_req j) = t) (injected (w_state s)).

Definition sends (hist : list (string * entry)) (t : string) : list entry := snd <$> filter (λ e, e.1 = t) hist.

Definition unpacked (e : entry) (x : list string * tensor) : Prop := unpack repr compressor e.1 (Some e.2) = Ok x.

(** What the answer to the current item lets be submitted. *)
Definition to_submit (s : system) : list tensor :=
  match current (p_state s), answer s with
  | Some i, Some AckOk => nccl_sends (i_payload i)
  | _, _ => []
  end.

Definition submitted (A : list item) (s : system) : Prop := stream s ++ to_submit s = A ≫= λ i, nccl_sends (i_payload i).

(** At most one message is under way, that of the current item. *)
Definition phase (s : system) : Prop :=
  match current (p_state s) with
  | None => control s = None ∧ answer s = None
  | Some i => (control s = Some (msg_of i) ∧ answer s = None) ∨ (control s = None ∧ is_Some (answer s))
  end.

Record flow (hist : list (string * entry)) (A : list item) (s : system) : Prop := {
  f_phase : phase s;
  f_recv : recv_completions (c_state s) = msg_of <$> A;
  f_stream : submitted A s;
  f_items : Forall item_ok (A ++ offered s ++ send_queue (p_state s));
  f_current : ∀ i, current (p_state s) = Some i → item_ok i;
  f_dicts : dict_ok (received (c_state s)) ∧ dict_ok (worker_received (w_state s));
  f_credit : reserved (c_state s) = sumZ ((λ i, payload_nbytes (i_payload i)) <$> A) + inbox_bytes (received (c_state s))
                                  + inbox_bytes (worker_received (w_state s));
  f_sizes : inbox_all sized (received (c_state s)) ∧ inbox_all sized (worker_received (w_state s));
  f_line : ∀ t, ∃ l, Forall2 unpacked l (loads s t) ∧ sublist (l ++ line A s t) (sends hist t)
}.

(** ** Steps *)

(** The parts [flow] speaks of. *)
Definition same_flow (s s' : system) : Prop :=
  p_state s' = p_state s ∧ control s' = control s ∧ answer s' = answer s ∧ stream s' = stream s ∧
  recv_completions (c_state s') = recv_completions (c_state s) ∧ received (c_state s') = received (c_state s) ∧
  reserved (c_state s') = reserved (c_state s) ∧ worker_received (w_state s') = worker_received (w_state s) ∧
  injected (w_state s') = injected (w_state s).

Lemma flow_same hist A s s' : same_flow s s' → flow hist A s → flow hist A s'.
Proof.
  intros (Ep & Ec & Ea & Es & Er & Ercv & Ers & Ew & Ei) [? ? ? ? ? ? ? ? Hl].
  assert (Hoff : offered s' = offered s) by (unfold offered; by rewrite Ep, Ea).
  split; unfold phase, submitted, to_submit in *; rewrite ?Hoff, ?Ep, ?Ec, ?Ea, ?Es, ?Er, ?Ercv, ?Ers, ?Ew; try done.
  intros t. specialize (Hl t). unfold loads, line in *. by rewrite Hoff, Ep, Ercv, Ew, Ei.
Qed.

Lemma sends_app h1 h2 t : sends (h1 ++ h2) t = sends h1 t ++ sends h2 t.
Proof. unfold sends. by rewrite filter_app, fmap_app. Qed.

Lemma flow_send hist A s rid names p :
  payload_ok p → flow hist A s →
  flow (hist ++ [(rid, (names, p))]) A
    (mkSystem (send rid names p (p_state s)) (c_state s) (w_state s) (control s) (answer s) (stream s)).
Proof.
  intros Hp [? ? ? Hi ? ? ? ? Hl].
  set (s' := mkSystem _ _ _ _ _ _).
  assert (Hq : send_queue (p_state s') = send_queue (p_state s) ++ [mkItem rid names p (payload_nbytes p)]) by done.
  change (offered s) with (offered s') in Hi. split; try done.
  - rewrite Hq, !app_assoc. apply Forall_app. split; [by rewrite <- app_assoc|]. by repeat constructor.
  - intros t. destruct (Hl t) as (l & Hu & Hs). exists l. split; [done|]. unfold line. rewrite Hq. simpl.
    rewrite entries_app, sends_app, !app_assoc. apply sublist_app; [unfold line in Hs; by rewrite !app_assoc in Hs|].
    rewrite entries_one. unfold sends. rewrite filter_cons. simpl. by destruct (decide (rid = t)).
Qed.

Lemma flow_offer hist A s i p :
  flow hist A s → take_item (p_state s) = Some (i, p) →
  flow hist A (mkSystem p (c_state s) (w_state s) (Some (msg_of i)) (answer s) (stream s)).
Proof.
  intros [Hph ? Hst Hi ? ? ? ? Hl]. unfold take_item. unfold phase in Hph. unfold submitted, to_submit in Hst.
  destruct (current (p_state s)) eqn:Ec; [done|]. destruct Hph as [Hc Ha]. destruct (send_queue (p_state s)) as [|j q] eqn:Eq; [done|].
  intros [= <- <-]. assert (Hoff : offered s = []) by (unfold offered; by rewrite Ec).
  rewrite Hoff in Hi. split; try done.
  - left. done.
  - unfold submitted, to_submit. simpl. by rewrite Ha.
  - simpl. unfold offered. simpl. by rewrite Ha.
  - simpl. intros ? [= ->]. apply Forall_app in Hi as [_ Hi]. by apply Forall_cons in Hi as [? _].
  - intros t. destruct (Hl t) as (l & Hu & Hs). exists l. split; [done|]. unfold line in *. simpl. rewrite Hoff, Eq in Hs.
    change (j :: q) with ([j] ++ q) in Hs. rewrite entries_app in Hs. unfold offered. simpl. by rewrite Ha.
Qed.

Lemma on_put_cases m alloc c a c' :
  on_put m alloc true c = (a, c') → 0 ≤ msg_nbytes m → 0 ≤ reserved c →
  (a = AckOk ∧ recv_completions c' = recv_completions c ++ [m] ∧ reserved c' = reserved c + msg_nbytes m ∧ received c' = received c) ∨
  (a ≠ AckOk ∧ recv_completions c' = recv_completions c ∧ reserved c' = reserved c ∧
   (received c' = received c ∨ received c' = append (received c) (msg_rid m) [([], None)])).
Proof.
  intros H Hn Hr. unfold on_put, reserve_received in H.
  destruct (comm c); simpl in H; [|injection H as <- <-; right; by split_and!; [..|right]].
  assert (Hcase : ∀ pr, (if negb alloc then (AckOom, mark_failed (msg_rid m) (release_received (msg_rid m) (msg_nbytes m)
      (set_credit (reserved c + msg_nbytes m) pr c))) else (AckOk, set_recv_completions (λ l, l ++ [m]) (set_credit (reserved c + msg_nbytes m) pr c)))
      = (a, c') → (a = AckOk ∧ recv_completions c' = recv_completions c ++ [m] ∧ reserved c' = reserved c + msg_nbytes m ∧ received c' = received c) ∨
  (a ≠ AckOk ∧ recv_completions c' = recv_completions c ∧ reserved c' = reserved c ∧
   (received c' = received c ∨ received c' = append (received c) (msg_rid m) [([], None)]))).
  { intros pr. destruct alloc; simpl; intros [= <- <-]; [left; done|]. right. unfold release_received.
    destruct (Z.leb_spec (msg_nbytes m) 0); simpl; split_and!; try done; try lia; by right. }
  destruct (full (msg_nbytes m) c); [|by apply Hcase in H].
  destruct (bool_decide (msg_rid m ∈ expected c) && bool_decide (priority c = None)); [by apply Hcase in H|].
  injection H as <- <-. right. split_and!; try done. by left.
Qed.

Lemma flow_reserved_nonneg hist A s : flow hist A s → 0 ≤ reserved (c_state s).
Proof.
  intros [? ? ? Hi ? ? Hc [H1 H2] ?]. rewrite Hc. apply inbox_bytes_nonneg in H1, H2.
  apply Forall_app in Hi as [Hi _].
  assert (0 ≤ sumZ ((λ i, payload_nbytes (i_payload i)) <$> A)); [|lia].
  apply sumZ_nonneg, Forall_fmap. eapply Forall_impl; [exact Hi|]. intros i [Hp _]. by apply payload_nbytes_nonneg.
Qed.

Lemma arrived_none d k t : arrived (append d k [([], None)]) t = arrived d t.
Proof.
  unfold arrived. rewrite here_append. destruct (decide (t = k)) as [->|]; [|done]. rewrite omap_app. simpl. by rewrite app_nil_r.
Qed.

Lemma flow_listen hist A s m alloc a c :
  flow hist A s → control s = Some m → on_put m alloc true (c_state s) = (a, c) →
  ∃ A', flow hist A' (mkSystem (p_state s) c (w_state s) None (Some a) (stream s)).
Proof.
  intros Hf Hm Hput. pose proof (flow_reserved_nonneg _ _ _ Hf) as Hr. destruct Hf as [Hph Hrc Hst Hi Hcur [Hd Hdw] Hc [Hs1 Hs2] Hl].
  unfold phase in Hph. destruct (current (p_state s)) as [i|] eqn:Ec; [|destruct Hph; congruence].
  destruct Hph as [[Hctl Ha]|[Hctl _]]; [|congruence]. assert (m = msg_of i) as -> by congruence.
  destruct (Hcur i eq_refl) as [Hpi Hbi]. pose proof (payload_nbytes_nonneg _ Hpi) as Hn. rewrite <- msg_nbytes_of in Hn.
  assert (Hoff : offered s = [i]) by (unfold offered; by rewrite Ec, Ha). rewrite Hoff in Hi.
  unfold submitted, to_submit in Hst. rewrite Ec, Ha, app_nil_r in Hst.
  destruct (on_put_cases _ _ _ _ _ Hput Hn Hr) as [(-> & E1 & E2 & E3)|(Hok & E1 & E2 & E3)].
  - assert (Hoff' : offered (mkSystem (p_state s) c (w_state s) None (Some AckOk) (stream s)) = [])
      by (unfold offered; simpl; by rewrite Ec).
    exists (A ++ [i]). split; rewrite ?Hoff'; unfold phase, submitted, to_submit, line, loads; rewrite ?Hoff'; simpl; rewrite ?Ec, ?E3; try done.
    + right. split; [done|by eexists].
    + rewrite E1, Hrc, fmap_app. done.
    + rewrite bind_app. simpl. by rewrite app_nil_r, Hst.
    + by rewrite <- app_assoc.
    + rewrite E2, Hc, msg_nbytes_of, fmap_app, sumZ_app. csimpl. lia.
    + intros t. destruct (Hl t) as (l & Hu & Hs). exists l. split; [done|]. unfold line in Hs. rewrite Hoff in Hs.
      by rewrite entries_app, <- !app_assoc.
  - exists A. assert (Hoff' : offered (mkSystem (p_state s) c (w_state s) None (Some a) (stream s)) = [i])
      by (unfold offered; simpl; rewrite Ec; by destruct a).
    assert (Hrecv : dict_ok (received c) ∧ inbox_all sized (received c) ∧ inbox_bytes (received c) = inbox_bytes (received (c_state s)) ∧
      ∀ t, arrived (received c) t = arrived (received (c_state s)) t).
    { destruct E3 as [->| ->]; [done|]. split_and!; [by apply dict_ok_append|by apply inbox_all_append; [|by repeat constructor]| |].
      - rewrite inbox_bytes_append. csimpl. lia.
      - intros t. apply arrived_none. }
    destruct Hrecv as (Hd' & Hs' & Hb' & Har').
    split; rewrite ?Hoff'; unfold phase, submitted, to_submit, line; rewrite ?Hoff'; simpl; rewrite ?Ec; try done.
    + right. split; [done|by eexists].
    + by rewrite E1.
    + destruct a; [done|..]; by rewrite app_nil_r.
    + by rewrite E2, Hb'.
    + intros t. rewrite Har'. destruct (Hl t) as (l & Hu & Hs). exists l. split; [done|]. unfold line in Hs. by rewrite Hoff in Hs.
Qed.

Lemma Forall_requeue (P : item → Prop) i q : P i → Forall P q → Forall P (requeue i q).
Proof.
  intros Hi. induction 1 as [|x q Hx Hq IH]; simpl; [by repeat constructor|]. case_bool_decide; by repeat constructor.
Qed.

Lemma flow_answered hist A s a i ts p :
  flow hist A s → answer s = Some a → current (p_state s) = Some i → on_ack i a true (p_state s) = (ts, p) →
  flow hist A (mkSystem p (c_state s) (w_state s) (control s) None (stream s ++ ts)).
Proof.
  intros [Hph Hrc Hst Hi Hcur Hd Hc Hs Hl] Ha Hcr Hack. unfold phase in Hph. rewrite Hcr in Hph.
  destruct Hph as [[_ ?]|[Hctl _]]; [congruence|].
  assert (Hp : current p = None ∧ stream s ++ ts = (A ≫= λ i, nccl_sends (i_payload i)) ∧
    Forall item_ok (A ++ send_queue p) ∧
    ∀ t, sublist (entries (send_queue p) t) (entries (offered s) t ++ entries (send_queue (p_state s)) t)).
  { unfold submitted, to_submit, offered in *. rewrite Hcr, Ha in *. apply Forall_app in Hi as [HA Hi].
    apply Forall_app in Hi as [Hof Hq].
    destruct a; injection Hack as <- <-; simpl in *; split_and!; try done; try (by apply Forall_app; split).
    - intros t. by apply sublist_inserts_l.
    - apply Forall_app. split; [done|]. apply Forall_requeue; [by apply Forall_cons in Hof as [? _]|done].
    - intros t. by rewrite entries_requeue. }
  destruct Hp as (Hcn & Hstr & Hit & Hln).
  split; unfold phase, submitted, to_submit, offered; simpl; rewrite ?Hcn; try done.
  - by rewrite app_nil_r.
  - intros t. destruct (Hl t) as (l & Hu & Hsl). exists l. split; [done|]. etrans; [|exact Hsl]. unfold line, offered. simpl. rewrite Hcn.
    repeat (apply sublist_app; [done|]). simpl. apply Hln.
Qed.

Lemma flow_send_retired hist A s p :
  flow hist A s → retire_send (p_state s) = Some p →
  flow hist A (mkSystem p (c_state s) (w_state s) (control s) (answer s) (stream s)).
Proof.
  intros [Hph Hrc Hst Hi Hcur Hd Hc Hs Hl]. unfold retire_send. destruct (send_completions _); [done|].
  intros [= <-]. by split.
Qed.

Lemma recv_all_app l st ts st' rest : recv_all l st = Some (ts, st') → recv_all l (st ++ rest) = Some (ts, st' ++ rest).
Proof.
  revert st ts st'. induction l as [|b l IH]; intros st ts st'; simpl; [by intros [= <- <-]|].
  destruct (prod b.1 =? 0); simpl.
  - intros ([ts1 st1] & H1 & [= <- <-])%bind_Some. by rewrite (IH _ _ _ H1).
  - intros ([t1 st1] & H1 & ([ts2 st2] & H2 & [= <- <-])%bind_Some)%bind_Some.
    destruct st as [|x st]; [done|]. simpl in *. destruct (_ =? _); [|done]. injection H1 as <- <-. simpl. by rewrite (IH _ _ _ H2).
Qed.

Lemma recv_payload_app m st p st' rest : recv_payload m st = Some (p, st') → recv_payload m (st ++ rest) = Some (p, st' ++ rest).
Proof.
  destruct m as [r n b|r n me body aux]; simpl.
  - intros ([t st1] & H1 & [= <- <-])%bind_Some. destruct st as [|x st]; [done|]. simpl in *.
    destruct (_ =? _); [|done]. by injection H1 as <- <-.
  - intros ([ts1 st1] & H1 & ([ts2 st2] & H2 & [= <- <-])%bind_Some)%bind_Some.
    rewrite (recv_all_app _ _ _ _ rest H1). simpl. by rewrite (recv_all_app _ _ _ _ rest H2).
Qed.

Lemma arrived_append d k n p t :
  arrived (append d k [(n, Some p)]) t = arrived d t ++ (if decide (k = t) then [(n, p)] else []).
Proof.
  unfold arrived. rewrite here_append. destruct (decide (t = k)) as [->|Hne].
  - rewrite omap_app, decide_True by done. done.
  - rewrite decide_False by done. by rewrite app_nil_r.
Qed.

Lemma flow_recv_retired hist A s ok l c :
  flow hist A s → retire_recv ok (stream s) (c_state s) = Some (l, c) →
  ∃ A', flow hist A' (mkSystem (p_state s) c (w_state s) (control s) (answer s) l).
Proof.
  intros Hf. pose proof (flow_reserved_nonneg _ _ _ Hf) as Hr. destruct Hf as [Hph Hrc Hst Hi Hcur [Hd Hdw] Hc [Hs1 Hs2] Hl].
  unfold retire_recv. rewrite Hrc. destruct A as [|i A]; [done|]. csimpl. intros ([p st] & Hp & [= <- <-])%bind_Some.
  apply Forall_cons in Hi as [[Hpi Hbi] Hi]. unfold submitted in Hst. csimpl in Hst.
  apply (recv_payload_app _ _ _ _ (to_submit s)) in Hp. rewrite Hst, recv_payload_spec in Hp by done.
  injection Hp as <- Hst'. exists A. rewrite msg_rid_of, msg_names_of.
  pose proof (payload_nbytes_nonneg _ Hpi) as Hn. csimpl in Hc.
  apply inbox_bytes_nonneg in Hs1 as Hb1. apply inbox_bytes_nonneg in Hs2 as Hb2.
  assert (Hb3 : 0 ≤ sumZ ((λ i, payload_nbytes (i_payload i)) <$> A)).
  { apply sumZ_nonneg, Forall_fmap. apply Forall_app in Hi as [Hi _]. eapply Forall_impl; [exact Hi|].
    intros j [Hj _]. by apply payload_nbytes_nonneg. }
  set (c' := if ok then _ else _).
  assert (Hc' : recv_completions c' = msg_of <$> A ∧ dict_ok (received c') ∧ inbox_all sized (received c') ∧
    reserved c' = sumZ ((λ i, payload_nbytes (i_payload i)) <$> A) + inbox_bytes (received c') + inbox_bytes (worker_received (w_state s)) ∧
    ∀ t, sublist (arrived (received c') t ++ entries A t) (arrived (received (c_state s)) t ++ entries (i :: A) t)).
  { unfold c'. clear c'. destruct ok; simpl; split_and!; try done; try (by apply dict_ok_append).
    - by apply inbox_all_append; [|by repeat constructor].
    - rewrite inbox_bytes_append. csimpl. lia.
    - intros t. rewrite arrived_append. change (i :: A) with ([i] ++ A). rewrite entries_app, entries_one, <- app_assoc.
      by destruct (decide (i_request_id i = t)).
    - unfold release_received. by destruct (msg_nbytes _ <=? 0).
    - unfold release_received. destruct (msg_nbytes _ <=? 0); by apply dict_ok_append.
    - unfold release_received. destruct (msg_nbytes _ <=? 0); by apply inbox_all_append; [|by repeat constructor].
    - unfold release_received. rewrite msg_nbytes_of. destruct (Z.leb_spec (payload_nbytes (i_payload i)) 0); simpl;
        rewrite inbox_bytes_append; csimpl; lia.
    - intros t. unfold release_received. change (i :: A) with ([i] ++ A). rewrite entries_app.
      destruct (msg_nbytes _ <=? 0); simpl; rewrite arrived_none; apply sublist_app; try done; by apply sublist_inserts_l. }
  destruct Hc' as (E1 & E2 & E3 & E4 & E5).
  split; try done.
  intros t. destruct (Hl t) as (ls & Hu & Hsl). exists ls. split; [done|]. etrans; [|exact Hsl]. unfold line. simpl.
  repeat (apply sublist_app; [done|]). rewrite (app_assoc (arrived (received c') t)), (app_assoc (arrived (received (c_state s)) t)).
  by apply sublist_app.
Qed.

(** Draining moves what has arrived to the worker. *)
Lemma drain_eq s w c :
  drain (w_state s) (c_state s) = (w, c) →
  w = mkWorker (extend (worker_received (w_state s)) (filter (λ e, e.2 ≠ []) (received (c_state s)))) (pending (w_state s))
        (injected (w_state s)) (raised (w_state s)) ∧
  c = set_received (λ _, []) (c_state s).
Proof. unfold drain. simpl. by intros [= <- <-]. Qed.

Lemma flow_drain hist A s w c :
  flow hist A s → drain (w_state s) (c_state s) = (w, c) → flow hist A (with_worker s (w, c)).
Proof.
  intros [Hph Hrc Hst Hi Hcur [Hd Hdw] Hc [Hs1 Hs2] Hl] [-> ->]%drain_eq.
  destruct (extend_spec (worker_received (w_state s)) (filter (λ e, e.2 ≠ []) (received (c_state s)))) as (E1 & E2 & E3);
    [done|by apply dict_ok_filter|].
  split; try done; simpl.
  - split; [apply NoDup_nil_2|done].
  - rewrite E2, inbox_bytes_nonempty. unfold inbox_bytes at 1. simpl. lia.
  - split; [by apply Forall_nil_2|]. apply inbox_all_extend; [done|by apply inbox_all_filter].
  - intros t. destruct (Hl t) as (l & Hu & Hsl). exists l. split; [done|]. unfold line in *. simpl.
    rewrite (arrived_app (worker_received (w_state s)) (filter (λ e, e.2 ≠ []) (received (c_state s)))), <- app_assoc by apply E3.
    assert (Ha : arrived (filter (λ e, e.2 ≠ []) (received (c_state s))) t = arrived (received (c_state s)) t)
      by (unfold arrived; by rewrite here_nonempty).
    by rewrite Ha.
Qed.

Lemma set_pending_same l w c w' c' :
  set_pending l w c = (w', c') →
  worker_received w' = worker_received w ∧ injected w' = injected w ∧ raised w' = raised w ∧
  pending w' = (match l with [] => None | _ => Some l end) ∧
  c' = match l with [] => set_expected_requests [] c | _ => c end.
Proof. destruct l; by intros [= <- <-]. Qed.

Lemma flow_start hist A s reqs :
  flow hist A s → flow hist A (with_worker s (start_load_kv reqs (w_state s) (c_state s))).
Proof.
  intros Hf. unfold start_load_kv. destruct (drain _ _) as [w c] eqn:Ed. eapply flow_drain in Ed; [|exact Hf].
  destruct (set_pending _ _ _) as [w' c'] eqn:Es. apply set_pending_same in Es as (E1 & E2 & E3 & E4 & E5).
  eapply flow_same; [|exact Ed]. unfold same_flow. simpl. rewrite E1, E2, E5. by destruct reqs.
Qed.

Lemma flow_timeout hist A s l x :
  flow hist A s → load_timeout l (w_state s) (c_state s) = Some x → flow hist A (with_worker s x).
Proof.
  intros Hf. unfold load_timeout. destruct (drain _ _) as [w c] eqn:Ed. eapply flow_drain in Ed; [|exact Hf].
  destruct (next_ready _ _); [done|]. intros [= <-]. by eapply flow_same; [|exact Ed].
Qed.

Lemma loads_snoc s w c r names kv t :
  injected w = injected (w_state s) ++ [mkInjection r names kv] →
  loads (with_worker s (w, c)) t = loads s t ++ (if decide (transfer_id r = t) then [(names, kv)] else []).
Proof.
  intros E. unfold loads. simpl. rewrite E, filter_app, fmap_app. f_equal. rewrite filter_cons. simpl.
  by destruct (decide (transfer_id r = t)).
Qed.

(** A payload leaves the worker with its credit. *)
Lemma flow_pop hist A s r n p d w' c' :
  flow hist A s → pop_payload (transfer_id r) (worker_received (w_state s)) = Some ((n, p), d) →
  worker_received w' = d → c' = release_received (transfer_id r) (payload_size p) (c_state s) →
  (match unpack repr compressor n p with
   | Ok x => injected w' = injected (w_state s) ++ [mkInjection r x.1 x.2]
   | Err _ => injected w' = injected (w_state s)
   end) →
  flow hist A (with_worker s (w', c')).
Proof.
  intros [Hph Hrc Hst Hi Hcur [Hd Hdw] Hc [Hs1 Hs2] Hl] Hpop Ew -> Hinj.
  destruct (inbox_all_pop _ _ _ _ _ Hs2 Hpop) as [Hx Hs2'].
  apply pop_payload_spec in Hpop as (E1 & E2 & E3 & E4); [|done]. unfold sized in Hx. simpl in Hx, E2.
  apply inbox_bytes_nonneg in Hs1 as Hb1. apply inbox_bytes_nonneg in Hs2' as Hb2.
  assert (Hb3 : 0 ≤ sumZ ((λ i, payload_nbytes (i_payload i)) <$> A)).
  { apply sumZ_nonneg, Forall_fmap. apply Forall_app in Hi as [Hi _]. eapply Forall_impl; [exact Hi|].
    intros j [Hj _]. by apply payload_nbytes_nonneg. }
  split; unfold release_received; simpl; rewrite ?Ew; try done; try (destruct (_ <=? 0); done).
  - destruct (Z.leb_spec (payload_size p) 0); simpl; lia.
  - intros t. destruct (Hl t) as (l & Hu & Hsl). unfold line in Hsl.
    assert (Hline : line A (with_worker s (w', release_received (transfer_id r) (payload_size p) (c_state s))) t
      = arrived d t ++ arrived (received (c_state s)) t ++ entries A t ++ entries (offered s) t ++ entries (send_queue (p_state s)) t)
      by (unfold line, release_received; simpl; rewrite Ew; by destruct (_ <=? 0)).
    unfold release_received in Hline. rewrite Hline.
    destruct (decide (transfer_id r = t)) as [<-|Hne].
    + assert (Har : arrived (worker_received (w_state s)) (transfer_id r) =
        match p with Some p => [(n, p)] | None => [] end ++ arrived d (transfer_id r)).
      { unfold arrived. rewrite E3. change ((n, p) :: ?l) with ([(n, p)] ++ l). rewrite omap_app. by destruct p. }
      rewrite Har in Hsl. destruct (unpack repr compressor n p) as [[n' kv]|e] eqn:Eu.
      * destruct p as [p|]; [|done]. exists (l ++ [(n, p)]).
        erewrite loads_snoc by exact Hinj. rewrite decide_True by done. split; [by apply Forall2_app; [|repeat constructor]|].
        by rewrite <- app_assoc.
      * exists l. split; [unfold loads in *; simpl; by rewrite Hinj|]. etrans; [|exact Hsl].
        apply sublist_app; [done|]. rewrite <- app_assoc. by apply sublist_inserts_l.
    + exists l. assert (Har : arrived d t = arrived (worker_received (w_state s)) t) by (unfold arrived; by rewrite E4).
      rewrite Har. split; [|done]. destruct (unpack repr compressor n p) as [[n' kv]|e] eqn:Eu.
      * erewrite loads_snoc by exact Hinj. rewrite decide_False by done. by rewrite app_nil_r.
      * unfold loads in *. simpl. by rewrite Hinj.
Qed.

Lemma flow_turn hist A s l :
  flow hist A s → flow hist A (with_worker s (load_turn repr compressor l (w_state s) (c_state s))).
Proof.
  intros Hf. unfold load_turn. destruct (drain _ _) as [w c] eqn:Ed. eapply flow_drain in Ed; [|exact Hf].
  destruct (next_ready _ _) as [[r rest]|]; [|done].
  destruct (pop_payload (transfer_id r) (worker_received w)) as [[[n p] d]|] eqn:Ep; [|done].
  destruct (unpack repr compressor n p) as [[n' kv]|e] eqn:Eu.
  - destruct (set_pending _ _ _) as [w' c'] eqn:Es. apply set_pending_same in Es as (E1 & E2 & E3 & E4 & E5).
    eapply flow_same; [|eapply (flow_pop hist A (with_worker s (w, c)) r n p d w' (release_received (transfer_id r) (payload_size p) c));
      [exact Ed|exact Ep|done|done|by rewrite Eu]].
    unfold same_flow. simpl. rewrite E5. by destruct rest.
  - eapply (flow_pop hist A (with_worker s (w, c)) r n p d); [exact Ed|exact Ep|done|done|by rewrite Eu].
Qed.

(** ** Executions *)

(** Nothing raises while a transfer that was granted is submitted to NCCL, and
    tensors are proper. *)
Definition calm (e : event) : Prop :=
  match e with
  | Listen _ post => post = true
  | Answered ok => ok = true
  | Send _ _ p => payload_ok p
  | _ => True
  end.

Definition sent_by (e : event) : list (string * entry) :=
  match e with Send rid names p => [(rid, (names, p))] | _ => [] end.

Lemma step_flow hist A s e s' :
  flow hist A s → calm e → sys_step repr compressor s e = Some s' → ∃ A', flow (hist ++ sent_by e) A' s'.
Proof.
  intros Hf Hc. destruct e as [|rid names p| |alloc post|ok| |ok|reqs| |]; simpl in *; subst; rewrite ?app_nil_r.
  - intros [= <-]. exists A. by eapply flow_same; [|exact Hf].
  - intros [= <-]. exists A. by apply flow_send.
  - intros ([i p] & Hp & [= <-])%bind_Some. exists A. by eapply flow_offer.
  - intros (m & Hm & H)%bind_Some. destruct (on_put _ _ _ _) as [a c] eqn:E. injection H as <-. by eapply flow_listen.
  - intros (a & Ha & (i & Hi & H)%bind_Some)%bind_Some. destruct (on_ack _ _ _ _) as [ts p] eqn:E. injection H as <-.
    exists A. by eapply flow_answered.
  - intros (p & Hp & [= <-])%bind_Some. exists A. by eapply flow_send_retired.
  - intros ([l c] & Hp & [= <-])%bind_Some. by eapply flow_recv_retired.
  - destruct (pending (w_state s)); [done|]. intros [= <-]. exists A. by apply flow_start.
  - intros (l & Hp & [= <-])%bind_Some. exists A. by apply flow_turn.
  - intros (l & Hp & (x & Hx & [= <-])%bind_Some)%bind_Some. exists A. by eapply flow_timeout.
Qed.

Lemma run_flow hist A s es s' :
  flow hist A s → Forall calm es → sys_run repr compressor s es = Some s' → ∃ A', flow (hist ++ (es ≫= sent_by)) A' s'.
Proof.
  intros Hf Hc. revert hist A s Hf. induction Hc as [|e es He _ IH]; intros hist A s Hf; simpl.
  - intros [= <-]. exists A. by rewrite app_nil_r.
  - intros (s1 & H1 & H)%bind_Some. destruct (step_flow _ _ _ _ _ Hf He H1) as [A1 Hf1].
    destruct (IH _ _ _ Hf1 H) as [A' Hf']. exists A'. by rewrite <- app_assoc in Hf'.
Qed.

Lemma flow_init n : flow [] [] (init_system n).
Proof.
  split; try done; simpl.
  - split; apply NoDup_nil_2.
  - split; apply Forall_nil_2.
  - intros t. exists []. split; [constructor|done].
Qed.

End flow.
