(* ===== verification/V1ConnSafe.v ===== *)
(** * The v1 connector and its transport: what is guaranteed

    Credits, order and content of the payloads, the bound on the staging
    memory, the counters of the producer; and executions in which the promise
    of the retry queue is not kept, or a credit is lost. *)

From S2P Require Import Prelude PyData Wire WireThms V1Transport V1Conn V1ConnThms.
Import V1Conn.Worker V1Conn.Sched.

Section safe.
Context `{D : !Dtypes} (repr : obj → string) (compressor : option (CompressedKVData → option tensor)).

(** ** Staging memory *)

Definition held (s : system) (t : string) : Z :=
  sumZ (msg_nbytes <$> filter (λ m, msg_rid m = t) (recv_completions (c_state s)))
  + sumZ ((λ e : entry, payload_nbytes e.2) <$> arrived (received (c_state s)) t)
  + sumZ ((λ e : entry, payload_nbytes e.2) <$> arrived (worker_received (w_state s)) t).

Definition overflow (h : string → Z) (p : option string) : Z := match p with None => 0 | Some r => h r end.

Definition bounded (M : Z) (s : system) : Prop := reserved (c_state s) ≤ M + overflow (held s) (priority (c_state s)).

(** Giving back the credit of the only payload of a request. *)
Lemma release_bounded M h h' rid n c :
  (∀ t, t ≠ rid → h' t = h t) → (n ≤ 0 → h' rid = h rid) → (0 < n → h rid = n) → (∀ t, 0 ≤ h' t) → n ≤ reserved c →
  0 ≤ M → reserved c ≤ M + overflow h (priority c) →
  reserved (release_received rid n c) ≤ M + overflow h' (priority (release_received rid n c)).
Proof.
  intros Hne Hz Hp Hh Hn HM Hb. unfold release_received. destruct (Z.leb_spec n 0) as [Hle|Hgt]; simpl.
  - destruct (priority c) as [r|]; simpl in *; [|lia]. destruct (decide (r = rid)) as [->|]; [rewrite Hz by done; lia|rewrite Hne by done; lia].
  - case_bool_decide as Hr; [rewrite <- Hr in Hb; simpl in *; rewrite Hp in Hb by done; lia|].
    destruct (priority c) as [r|]; simpl in *; [rewrite Hne by congruence; lia|lia].
Qed.

(** Request ids are used once. *)
Definition once (hist : list (string * entry)) : Prop := NoDup hist.*1.

Lemma sends_once hist t : once hist → (length (sends hist t) ≤ 1)%nat.
Proof.
  unfold once, sends. rewrite length_fmap. induction hist as [|[r e] hist IH]; [simpl; lia|]. csimpl. intros [Hr Hn]%NoDup_cons.
  rewrite filter_cons. simpl. destruct (decide (r = t)) as [<-|]; [|by apply IH]. simpl.
  destruct (filter _ hist) as [|x l] eqn:E; [simpl; lia|]. exfalso. apply Hr.
  assert (Hx : x ∈ filter (λ e : string * entry, e.1 = r) hist) by (rewrite E; left).
  apply list_elem_of_filter in Hx as [<- Hx]. by apply list_elem_of_fmap_2.
Qed.

(** The payloads of a request on their way, by size. *)
Definition sizes (l : list entry) : Z := sumZ ((λ e : entry, payload_nbytes e.2) <$> l).

Lemma sizes_app l1 l2 : sizes (l1 ++ l2) = sizes l1 + sizes l2.
Proof. unfold sizes. by rewrite fmap_app, sumZ_app. Qed.

Lemma sizes_entries A t : sizes (entries A t) = sumZ (msg_nbytes <$> filter (λ m, msg_rid m = t) (msg_of <$> A)).
Proof.
  unfold sizes, entries. induction A as [|i A IH]; [done|]. csimpl. rewrite !filter_cons, msg_rid_of.
  destruct (decide (i_request_id i = t)); [|done]. csimpl. rewrite IH, msg_nbytes_of. done.
Qed.

Lemma held_eq hist A s t :
  flow repr compressor hist A s →
  held s t = sizes (entries A t) + sizes (arrived (received (c_state s)) t) + sizes (arrived (worker_received (w_state s)) t).
Proof. intros Hf. unfold held. rewrite (f_recv _ _ _ _ _ Hf), sizes_entries. done. Qed.

Lemma sizes_nonneg l : Forall (λ e : entry, 0 ≤ payload_nbytes e.2) l → 0 ≤ sizes l.
Proof. intros Hl. unfold sizes. by apply sumZ_nonneg, Forall_fmap. Qed.

Lemma arrived_sized d t : inbox_all sized d → Forall (λ e : entry, 0 ≤ payload_nbytes e.2) (arrived d t).
Proof.
  intros Hd. apply Forall_forall. intros e He. unfold arrived in He. apply list_elem_of_omap in He as (x & Hx & He).
  apply inbox_all_here with (t := t) in Hd. eapply Forall_forall in Hd; [|exact Hx].
  apply fmap_Some in He as (p & Hp & ->). unfold sized in Hd. by rewrite Hp in Hd.
Qed.

Lemma entries_sized A t : Forall item_ok A → Forall (λ e : entry, 0 ≤ payload_nbytes e.2) (entries A t).
Proof.
  intros HA. apply Forall_fmap, Forall_forall. intros i [_ Hi]%list_elem_of_filter.
  eapply Forall_forall in HA as [HA _]; [|exact Hi]. by apply payload_nbytes_nonneg.
Qed.

Lemma held_nonneg hist A s t : flow repr compressor hist A s → 0 ≤ held s t.
Proof.
  intros Hf. rewrite (held_eq _ _ _ _ Hf). pose proof (f_items _ _ _ _ _ Hf) as Hi. apply Forall_app in Hi as [Hi _].
  destruct (f_sizes _ _ _ _ _ Hf) as [H1 H2].
  pose proof (sizes_nonneg _ (entries_sized A t Hi)). pose proof (sizes_nonneg _ (arrived_sized _ t H1)).
  pose proof (sizes_nonneg _ (arrived_sized _ t H2)). lia.
Qed.

(** A request id that was used once is on its way at most once. *)
Lemma line_once hist A s t : flow repr compressor hist A s → once hist → (length (line A s t) ≤ 1)%nat.
Proof.
  intros Hf Ho. destruct (f_line _ _ _ _ _ Hf t) as (l & _ & Hs). apply sublist_length in Hs. rewrite length_app in Hs.
  pose proof (sends_once hist t Ho). lia.
Qed.

(** While it is offered nothing is held for it. *)
Lemma held_offered hist A s i :
  flow repr compressor hist A s → once hist → offered s = [i] → held s (i_request_id i) = 0.
Proof.
  intros Hf Ho Hof. pose proof (line_once _ _ _ (i_request_id i) Hf Ho) as Hn. unfold line in Hn.
  rewrite Hof, entries_one, decide_True in Hn by done. rewrite !length_app in Hn. simpl in Hn.
  rewrite (held_eq _ _ _ _ Hf).
  destruct (arrived (worker_received _) _); [|simpl in Hn; lia]. destruct (arrived (received _) _); [|simpl in Hn; lia].
  destruct (entries A _); [done|simpl in Hn; lia].
Qed.

Lemma single_size {A} (f : A → Z) (l : list A) x : (length l ≤ 1)%nat → x ∈ l → sumZ (f <$> l) = f x.
Proof. destruct l as [|y [|]]; simpl; intros ? Hx; [by apply elem_of_nil in Hx| |lia]. apply list_elem_of_singleton in Hx as ->. lia. Qed.

Lemma held_same s s' t :
  recv_completions (c_state s') = recv_completions (c_state s) → received (c_state s') = received (c_state s) →
  worker_received (w_state s') = worker_received (w_state s) → held s' t = held s t.
Proof. unfold held. by intros -> -> ->. Qed.

Lemma bounded_same M s s' :
  recv_completions (c_state s') = recv_completions (c_state s) → received (c_state s') = received (c_state s) →
  worker_received (w_state s') = worker_received (w_state s) → reserved (c_state s') = reserved (c_state s) →
  priority (c_state s') = priority (c_state s) → bounded M s → bounded M s'.
Proof.
  intros E1 E2 E3 E4 E5. unfold bounded. rewrite E4, E5. destruct (priority (c_state s)) as [r|]; simpl; [|done].
  by rewrite (held_same s s').
Qed.

Lemma bounded_drain M hist A s w c :
  flow repr compressor hist A s → drain (w_state s) (c_state s) = (w, c) → bounded M s → bounded M (with_worker s (w, c)).
Proof.
  intros Hf Hd Hb. pose proof (flow_drain _ _ _ _ _ _ _ Hf Hd) as Hf'. unfold bounded in *.
  assert (Hh : ∀ t, held (with_worker s (w, c)) t = held s t).
  { intros t. rewrite (held_eq _ _ _ _ Hf), (held_eq _ _ _ _ Hf'). destruct (f_dicts _ _ _ _ _ Hf) as [H1 H2].
    apply drain_eq in Hd as [-> ->]. simpl.
    destruct (extend_spec (worker_received (w_state s)) (filter (λ e, e.2 ≠ []) (received (c_state s)))) as (_ & _ & E3);
      [done|by apply dict_ok_filter|].
    rewrite (arrived_app _ _ _ t (E3 t)).
    assert (Ha : arrived (filter (λ e, e.2 ≠ []) (received (c_state s))) t = arrived (received (c_state s)) t)
      by (unfold arrived; by rewrite here_nonempty).
    rewrite Ha, sizes_app. unfold sizes at 2. simpl. lia. }
  apply drain_eq in Hd as [_ ->]. simpl in *. destruct (priority (c_state s)) as [r|]; simpl in *; [|done].
  by rewrite Hh.
Qed.

Lemma held_failed s s' rid t :
  recv_completions (c_state s') = recv_completions (c_state s) → received (c_state s') = append (received (c_state s)) rid [([], None)] →
  worker_received (w_state s') = worker_received (w_state s) → held s' t = held s t.
Proof. unfold held. intros -> -> ->. by rewrite arrived_none. Qed.

(** How a message is granted: as there is room, or as the priority. *)
Definition grant (n : Z) (rid : string) (c : consumer) (pr : option string) : Prop :=
  (pr = priority c ∧ (reserved c ≤ 0 ∨ reserved c + n ≤ capacity c)) ∨ (pr = Some rid ∧ priority c = None).

Lemma bounded_grant M s s' i pr :
  bounded M s → (∀ t, 0 ≤ held s t) → held s (i_request_id i) = 0 → payload_nbytes (i_payload i) ≤ M → capacity (c_state s) ≤ M →
  0 ≤ payload_nbytes (i_payload i) → grant (payload_nbytes (i_payload i)) (i_request_id i) (c_state s) pr →
  c_state s' = set_recv_completions (λ l, l ++ [msg_of i]) (set_credit (reserved (c_state s) + payload_nbytes (i_payload i)) pr (c_state s)) →
  w_state s' = w_state s → bounded M s'.
Proof.
  intros Hb Hh0 H0 Hi Hc Hn Hpr Ec Ew. unfold bounded in *. rewrite Ec. simpl. set (n := payload_nbytes (i_payload i)) in *.
  assert (Hh : ∀ t, held s' t = held s t + (if decide (i_request_id i = t) then n else 0)).
  { intros t. unfold held. rewrite Ec, Ew. simpl. rewrite filter_app, fmap_app, sumZ_app, filter_cons, filter_nil, msg_rid_of.
    destruct (decide (i_request_id i = t)); csimpl; rewrite ?msg_nbytes_of; fold n; lia. }
  destruct Hpr as [[-> Hr]|[-> Hr]].
  - destruct (priority (c_state s)) as [r|]; simpl in *; [|lia]. rewrite Hh. specialize (Hh0 r). destruct (decide (_ = r)); lia.
  - rewrite Hr in Hb. simpl in *. rewrite Hh, decide_True by done. lia.
Qed.

Lemma bounded_oom M s s' rid n pr :
  bounded M s → (∀ t, 0 ≤ held s t) → held s rid = 0 → capacity (c_state s) ≤ M → 0 ≤ M → 0 ≤ n → 0 ≤ reserved (c_state s) → grant n rid (c_state s) pr →
  c_state s' = mark_failed rid (release_received rid n (set_credit (reserved (c_state s) + n) pr (c_state s))) →
  w_state s' = w_state s → bounded M s'.
Proof.
  intros Hb Hh0 H0 Hc HM Hn Hr Hpr Ec Ew.
  assert (Hh : ∀ t, held s' t = held s t).
  { intros t. apply (held_failed _ _ rid); rewrite ?Ec, ?Ew; unfold release_received; by destruct (n <=? 0). }
  unfold bounded in *. rewrite Ec. unfold release_received. destruct (Z.leb_spec n 0); simpl.
  - destruct Hpr as [[-> Hp]|[-> Hp]]; [destruct (priority (c_state s)) as [r|]; simpl in *; rewrite ?Hh; lia|].
    rewrite Hp in Hb. simpl in *. rewrite Hh. lia.
  - case_bool_decide as Hrid; simpl; destruct Hpr as [[-> Hp]|[-> Hp]].
    + rewrite <- Hrid in Hb. simpl in Hb. lia.
    + rewrite Hp in Hb. simpl in Hb. lia.
    + destruct (priority (c_state s)) as [r|]; simpl in *; rewrite ?Hh; lia.
    + done.
Qed.

Lemma reserve_grant rid n c c' :
  reserve_received rid n c = Some c' → ∃ pr, grant n rid c pr ∧ c' = set_credit (reserved c + n) pr c.
Proof.
  unfold reserve_received. destruct (full n c) eqn:Efull.
  - destruct (bool_decide (rid ∈ expected c)); [|done]. simpl. case_bool_decide; [|done]. intros [= <-]. eexists. by split; [right|].
  - intros [= <-]. exists (priority c). split; [|done]. left. split; [done|]. unfold full in Efull.
    apply andb_false_iff in Efull as [?%Z.ltb_ge|?%Z.ltb_ge]; lia.
Qed.

Lemma bounded_put M hist A s i alloc a c :
  flow repr compressor hist A s → once hist → offered s = [i] → payload_nbytes (i_payload i) ≤ M → capacity (c_state s) ≤ M → 0 ≤ M →
  on_put (msg_of i) alloc true (c_state s) = (a, c) → bounded M s →
  bounded M (mkSystem (p_state s) c (w_state s) None (Some a) (stream s)).
Proof.
  intros Hf Ho Hof HiM HcM HM Hput Hb. pose proof (held_offered _ _ _ _ Hf Ho Hof) as H0.
  pose proof (flow_reserved_nonneg _ _ _ _ _ Hf) as Hr. pose proof (λ t, held_nonneg _ _ _ t Hf) as Hh.
  pose proof (f_items _ _ _ _ _ Hf) as Hit. rewrite Hof, Forall_app, Forall_app, Forall_singleton in Hit. destruct Hit as (_ & [Hpi _] & _).
  pose proof (payload_nbytes_nonneg _ Hpi) as Hn. unfold on_put in Hput. rewrite msg_rid_of, msg_nbytes_of in Hput.
  destruct (comm (c_state s)); simpl in Hput.
  - destruct (reserve_received _ _ _) as [c'|] eqn:E; [|injection Hput as <- <-; by eapply bounded_same; [..|exact Hb]].
    apply reserve_grant in E as (pr & Hpr & ->). destruct alloc; injection Hput as <- <-.
    + by eapply bounded_grant.
    + by eapply bounded_oom.
  - injection Hput as <- <-. unfold bounded in *. simpl. destruct (priority (c_state s)) as [r|]; simpl in *; [|done].
    by rewrite (held_failed s _ (i_request_id i)).
Qed.

(** What is held for a request is at most one payload. *)
Lemma held_single hist A s t :
  flow repr compressor hist A s → once hist →
  (entries A t = [] → arrived (received (c_state s)) t = [] → arrived (worker_received (w_state s)) t = [] → held s t = 0) ∧
  ∀ e, e ∈ entries A t ++ arrived (received (c_state s)) t ++ arrived (worker_received (w_state s)) t → held s t = payload_nbytes e.2.
Proof.
  intros Hf Ho. pose proof (line_once _ _ _ t Hf Ho) as Hn. unfold line in Hn. rewrite !length_app in Hn.
  rewrite (held_eq _ _ _ _ Hf). split; [by intros -> -> ->|]. intros e He.
  rewrite <- Z.add_assoc, <- !sizes_app. unfold sizes. apply (single_size (λ e : entry, payload_nbytes e.2)); [|done].
  rewrite !length_app. lia.
Qed.

Lemma held_bounded hist A s t B :
  flow repr compressor hist A s → once hist → Forall (λ e, payload_nbytes e.2.2 ≤ B) hist → 0 ≤ B → held s t ≤ B.
Proof.
  intros Hf Ho HB H0. destruct (held_single _ _ _ t Hf Ho) as [Hz He].
  assert (Hcase : entries A t ++ arrived (received (c_state s)) t ++ arrived (worker_received (w_state s)) t = [] ∨
    ∃ e, e ∈ entries A t ++ arrived (received (c_state s)) t ++ arrived (worker_received (w_state s)) t)
    by (destruct (_ ++ _) as [|e l]; [by left|right; exists e; left]).
  destruct Hcase as [(E1 & (E2 & E3)%app_nil)%app_nil|[e Hel]]; [by rewrite Hz|]. rewrite (He e Hel).
  destruct (f_line _ _ _ _ _ Hf t) as (l & _ & Hs). assert (Hin : e ∈ sends hist t).
  { eapply elem_of_sublist; [|exact Hs]. unfold line. set_solver. }
  unfold sends in Hin. apply list_elem_of_fmap in Hin as ([r x] & -> & [_ Hin]%list_elem_of_filter).
  by eapply Forall_forall in HB; [|exact Hin].
Qed.

Lemma items_nonneg A : Forall item_ok A → 0 ≤ sumZ ((λ i, payload_nbytes (i_payload i)) <$> A).
Proof. intros HA. apply sumZ_nonneg, Forall_fmap. eapply Forall_impl; [exact HA|]. intros j [Hj _]. by apply payload_nbytes_nonneg. Qed.

Lemma bounded_recv_retired M hist A s ok l c :
  flow repr compressor hist A s → once hist → 0 ≤ M → retire_recv ok (stream s) (c_state s) = Some (l, c) → bounded M s →
  bounded M (mkSystem (p_state s) c (w_state s) (control s) (answer s) l).
Proof.
  intros Hf Ho HM Hr Hb. pose proof Hf as [Hph Hrc Hst Hi Hcur Hd Hc Hs Hl].
  pose proof (λ t, held_nonneg _ _ _ t Hf) as Hh0. pose proof (flow_reserved_nonneg _ _ _ _ _ Hf) as Hr0.
  unfold retire_recv in Hr. rewrite Hrc in Hr. destruct A as [|i A]; [done|]. csimpl in Hr.
  apply bind_Some in Hr as ([p st] & Hp & [= <- <-]).
  apply Forall_cons in Hi as [[Hpi Hbi] Hi]. unfold submitted in Hst. csimpl in Hst.
  apply (recv_payload_app _ _ _ _ (to_submit s)) in Hp. rewrite Hst, recv_payload_spec in Hp by done. injection Hp as <- _.
  rewrite msg_rid_of, msg_nbytes_of, msg_names_of. set (s' := mkSystem _ _ _ _ _ _).
  assert (Ho' : held s (i_request_id i) = payload_nbytes (i_payload i)).
  { apply (proj2 (held_single _ _ _ (i_request_id i) Hf Ho) (entry_of i)). change (i :: A) with ([i] ++ A).
    rewrite entries_app, entries_one, decide_True by done. left. }
  destruct ok.
  - assert (Hh : ∀ t, held s' t = held s t).
    { intros t. unfold held, s'. simpl. rewrite Hrc, arrived_append, fmap_app, sumZ_app. csimpl. rewrite filter_cons, msg_rid_of.
      destruct (decide (i_request_id i = t)); csimpl; rewrite ?msg_nbytes_of; lia. }
    unfold bounded in *. simpl. destruct (priority (c_state s)) as [r|]; simpl in *; rewrite ?Hh; lia.
  - assert (Hh : ∀ t, held s' t = held s t - if decide (i_request_id i = t) then payload_nbytes (i_payload i) else 0).
    { intros t. unfold held, s'. unfold release_received. destruct (payload_nbytes (i_payload i) <=? 0); simpl;
        rewrite arrived_none, Hrc; csimpl; rewrite filter_cons, msg_rid_of;
        destruct (decide (i_request_id i = t)); csimpl; rewrite ?msg_nbytes_of; lia. }
    apply (release_bounded M (held s) (held s') (i_request_id i) (payload_nbytes (i_payload i)) (set_recv_completions (λ _, msg_of <$> A) (c_state s))).
    + intros t Ht. rewrite Hh, decide_False by done. lia.
    + intros Hle. rewrite Hh, decide_True by done. pose proof (payload_nbytes_nonneg _ Hpi). lia.
    + by intros _.
    + intros t. rewrite Hh. destruct (decide _) as [<-|]; [lia|]. specialize (Hh0 t). lia.
    + simpl. rewrite Hc. csimpl. destruct Hs as [H1%inbox_bytes_nonneg H2%inbox_bytes_nonneg].
      assert (0 ≤ sumZ ((λ i, payload_nbytes (i_payload i)) <$> A)); [|lia]. apply Forall_app in Hi as [Hi _].
      by apply items_nonneg.
    + done.
    + exact Hb.
Qed.

Lemma arrived_pop d t n p d' :
  dict_ok d → pop_payload t d = Some ((n, p), d') →
  ∀ t', arrived d t' = (if decide (t' = t) then match p with Some p => [(n, p)] | None => [] end else []) ++ arrived d' t'.
Proof.
  intros Hd Hp t'. apply pop_payload_spec in Hp as (_ & _ & E1 & E2); [|done]. unfold arrived.
  destruct (decide (t' = t)) as [->|Hne]; [rewrite E1; by destruct p|by rewrite E2].
Qed.

Lemma bounded_pop M hist A s r n p d w' :
  flow repr compressor hist A s → once hist → 0 ≤ M →
  pop_payload (transfer_id r) (worker_received (w_state s)) = Some ((n, p), d) → worker_received w' = d → bounded M s →
  bounded M (with_worker s (w', release_received (transfer_id r) (payload_size p) (c_state s))).
Proof.
  intros Hf Ho HM Hpop Ew Hb. pose proof (λ t, held_nonneg _ _ _ t Hf) as Hh0. destruct (f_dicts _ _ _ _ _ Hf) as [_ Hdw].
  destruct (f_sizes _ _ _ _ _ Hf) as [Hs1 Hs2]. pose proof (f_credit _ _ _ _ _ Hf) as Hc.
  pose proof (arrived_pop _ _ _ _ _ Hdw Hpop) as Har. pose proof (f_items _ _ _ _ _ Hf) as Hi. apply Forall_app in Hi as [Hi _].
  destruct (inbox_all_pop _ _ _ _ _ Hs2 Hpop) as [Hx%Z.le_ge Hs2'].
  pose proof (proj1 (proj2 (pop_payload_spec _ _ _ _ Hdw Hpop))) as Hby. simpl in Hx, Hby.
  apply inbox_bytes_nonneg in Hs1 as Hb1. apply inbox_bytes_nonneg in Hs2' as Hb2. pose proof (items_nonneg _ Hi).
  set (s' := with_worker _ _).
  assert (Hh : ∀ t, held s' t = held s t - if decide (t = transfer_id r) then payload_size p else 0).
  { intros t. unfold held, s'. simpl. rewrite Ew, (Har t). unfold release_received.
    destruct (payload_size p <=? 0); simpl; destruct (decide (t = transfer_id r)); destruct p; csimpl; lia. }
  apply (release_bounded M (held s) (held s') (transfer_id r) (payload_size p) (c_state s)); try done; try lia.
  - intros t Ht. rewrite Hh, decide_False by done. lia.
  - intros Hle. rewrite Hh, decide_True by done. lia.
  - intros Hgt. destruct p as [p|]; [|simpl in Hgt; lia].
    apply (proj2 (held_single _ _ _ (transfer_id r) Hf Ho) (n, p)). rewrite (Har (transfer_id r)), decide_True by done. set_solver.
  - intros t. rewrite Hh. specialize (Hh0 t). destruct (decide (t = transfer_id r)) as [->|]; [|lia].
    assert (held s' (transfer_id r) = held s (transfer_id r) - payload_size p) as Hs' by (rewrite Hh, decide_True; done).
    rewrite <- Hs'. unfold held, s'. simpl. rewrite Ew. unfold release_received.
    assert (He : recv_completions (if payload_size p <=? 0 then c_state s else set_credit (Z.max 0 (reserved (c_state s) - payload_size p))
      (if bool_decide (Some (transfer_id r) = priority (c_state s)) then None else priority (c_state s)) (c_state s)) = msg_of <$> A)
      by (rewrite <- (f_recv _ _ _ _ _ Hf); by destruct (_ <=? 0)).
    rewrite He, <- sizes_entries. pose proof (sizes_nonneg _ (entries_sized A (transfer_id r) Hi)).
    pose proof (sizes_nonneg _ (arrived_sized _ (transfer_id r) Hs2')). pose proof (sizes_nonneg _ (arrived_sized _ (transfer_id r) Hs1)).
    unfold sizes in *. destruct (payload_size p <=? 0); simpl; lia.
Qed.

Lemma bounded_turn M hist A s l :
  flow repr compressor hist A s → once hist → 0 ≤ M → bounded M s →
  bounded M (with_worker s (load_turn repr compressor l (w_state s) (c_state s))).
Proof.
  intros Hf Ho HM Hb. unfold load_turn. destruct (drain _ _) as [w c] eqn:Ed.
  assert (Hbd : bounded M (with_worker s (w, c))) by by eapply bounded_drain.
  eapply flow_drain in Ed; [|exact Hf].
  destruct (next_ready _ _) as [[r rest]|]; [|done].
  destruct (pop_payload (transfer_id r) (worker_received w)) as [[[n p] d]|] eqn:Ep; [|done].
  assert (Hpop : ∀ w', worker_received w' = d →
    bounded M (with_worker s (w', release_received (transfer_id r) (payload_size p) c)))
    by (intros w' Hw'; by eapply (bounded_pop M hist A (with_worker s (w, c)) r n p d w')).
  destruct (unpack repr compressor n p) as [[n' kv]|e]; [|by apply Hpop].
  destruct (set_pending _ _ _) as [w' c'] eqn:Es. apply set_pending_same in Es as (E1 & E2 & E3 & E4 & E5).
  eapply bounded_same; [..|apply (Hpop w'); by rewrite E1]; simpl; rewrite ?E5; by destruct rest.
Qed.

Lemma offered_item hist A s i :
  flow repr compressor hist A s → control s = Some (msg_of i) → current (p_state s) = Some i → offered s = [i].
Proof.
  intros Hf Hc Hi. pose proof (f_phase _ _ _ _ _ Hf) as Hph. unfold phase, offered in *. rewrite Hi in *.
  destruct Hph as [[_ ->]|[? _]]; [done|congruence].
Qed.

Lemma control_current hist A s m :
  flow repr compressor hist A s → control s = Some m → ∃ i, current (p_state s) = Some i ∧ m = msg_of i.
Proof.
  intros Hf Hm. pose proof (f_phase _ _ _ _ _ Hf) as Hph. unfold phase in *. destruct (current (p_state s)) as [i|]; [|destruct Hph; congruence].
  exists i. destruct Hph as [[? _]|[? _]]; split; congruence.
Qed.

(** What is offered was sent. *)
Lemma offered_sent hist A s i : flow repr compressor hist A s → offered s = [i] → (i_request_id i, entry_of i) ∈ hist.
Proof.
  intros Hf Hof. destruct (f_line _ _ _ _ _ Hf (i_request_id i)) as (l & _ & Hs).
  assert (Hin : entry_of i ∈ sends hist (i_request_id i)).
  { eapply elem_of_sublist; [|exact Hs]. unfold line. rewrite Hof, entries_one, decide_True by done. set_solver. }
  unfold sends in Hin. apply list_elem_of_fmap in Hin as ([r x] & -> & [E Hin]%list_elem_of_filter). simpl in *. by subst.
Qed.

Lemma capacity_put m alloc post c a c' : on_put m alloc post c = (a, c') → capacity c' = capacity c.
Proof.
  unfold on_put. destruct (comm c); simpl; [|by intros [= <- <-]]. destruct (reserve_received _ _ _) as [c1|] eqn:E; [|by intros [= <- <-]].
  apply reserve_grant in E as (pr & _ & ->). unfold release_received.
  destruct alloc; simpl; intros [= <- <-]; [by destruct post|by destruct (msg_nbytes m <=? 0)].
Qed.

Lemma capacity_drain w c w' c' : drain w c = (w', c') → capacity c' = capacity c.
Proof. unfold drain. simpl. by intros [= <- <-]. Qed.

Lemma capacity_release rid n c : capacity (release_received rid n c) = capacity c.
Proof. unfold release_received. by destruct (n <=? 0). Qed.

Lemma capacity_step s e s' : sys_step repr compressor s e = Some s' → capacity (c_state s') = capacity (c_state s).
Proof.
  destruct e as [|rid names p| |alloc post|ok| |ok|reqs| |]; simpl.
  - by intros [= <-].
  - by intros [= <-].
  - by intros ([i p] & Hp & [= <-])%bind_Some.
  - intros (m & Hm & H)%bind_Some. destruct (on_put _ _ _ _) as [a c] eqn:E. injection H as <-. by eapply capacity_put.
  - intros (a & Ha & (i & Hi & H)%bind_Some)%bind_Some. destruct (on_ack _ _ _ _) as [ts p]. by injection H as <-.
  - by intros (p & Hp & [= <-])%bind_Some.
  - intros ([l c] & Hp & [= <-])%bind_Some. unfold retire_recv in Hp. destruct (recv_completions _) as [|m q]; [done|].
    apply bind_Some in Hp as ([p st] & _ & [= <- <-]). destruct ok; [done|]. simpl. by rewrite capacity_release.
  - destruct (pending (w_state s)); [done|]. intros [= <-]. unfold start_load_kv.
    destruct (drain _ _) as [w c] eqn:Ed. apply capacity_drain in Ed. by destruct reqs.
  - intros (l & Hp & [= <-])%bind_Some. simpl. unfold load_turn. destruct (drain _ _) as [w c] eqn:Ed.
    apply capacity_drain in Ed. destruct (next_ready _ _) as [[r rest]|]; [|done]. destruct (pop_payload _ _) as [[[n p] d]|]; [|done].
    destruct (unpack _ _ _ _) as [[n' kv]|x]; simpl; [|by rewrite capacity_release].
    by destruct rest; simpl; rewrite capacity_release.
  - intros (l & Hp & (x & Hx & [= <-])%bind_Some)%bind_Some. simpl. unfold load_timeout in Hx. destruct (drain _ _) as [w c] eqn:Ed.
    apply capacity_drain in Ed. destruct (next_ready _ _); [done|]. by injection Hx as <-.
Qed.

Lemma bounded_step M hist A s e s' :
  flow repr compressor hist A s → once hist → Forall (λ x, payload_nbytes x.2.2 ≤ M) hist → 0 ≤ M → capacity (c_state s) ≤ M →
  calm e → sys_step repr compressor s e = Some s' → bounded M s → bounded M s'.
Proof.
  intros Hf Ho HO HM Hcap Hc Hstep Hb. destruct e as [|rid names p| |alloc post|ok| |ok|reqs| |]; simpl in *; subst.
  - injection Hstep as <-. by eapply bounded_same; [..|exact Hb].
  - injection Hstep as <-. by eapply bounded_same; [..|exact Hb].
  - apply bind_Some in Hstep as ([i p] & Hp & [= <-]). by eapply bounded_same; [..|exact Hb].
  - apply bind_Some in Hstep as (m & Hm & H). destruct (on_put _ _ _ _) as [a c] eqn:E. injection H as <-.
    destruct (control_current _ _ _ _ Hf Hm) as (i & Hi & ->). pose proof (offered_item _ _ _ _ Hf Hm Hi) as Hof.
    pose proof (offered_sent _ _ _ _ Hf Hof) as Hin. eapply Forall_forall in HO; [|exact Hin].
    by eapply bounded_put.
  - apply bind_Some in Hstep as (a & Ha & (i & Hi & H)%bind_Some). destruct (on_ack _ _ _ _) as [ts p]. injection H as <-.
    by eapply bounded_same; [..|exact Hb].
  - apply bind_Some in Hstep as (p & Hp & [= <-]). by eapply bounded_same; [..|exact Hb].
  - apply bind_Some in Hstep as ([l c] & Hp & [= <-]). by eapply bounded_recv_retired.
  - destruct (pending (w_state s)); [done|]. injection Hstep as <-. unfold start_load_kv.
    destruct (drain _ _) as [w c] eqn:Ed. apply (bounded_drain M _ _ _ _ _ Hf Ed) in Hb.
    destruct reqs; (eapply bounded_same; [..|exact Hb]); done.
  - apply bind_Some in Hstep as (l & Hp & [= <-]). by eapply bounded_turn.
  - apply bind_Some in Hstep as (l & Hp & (x & Hx & [= <-])%bind_Some). unfold load_timeout in Hx.
    destruct (drain _ _) as [w c] eqn:Ed. apply (bounded_drain M _ _ _ _ _ Hf Ed) in Hb.
    destruct (next_ready _ _); [done|]. injection Hx as <-. by eapply bounded_same; [..|exact Hb].
Qed.

Lemma bounded_run M hist A s es s' :
  flow repr compressor hist A s → once (hist ++ (es ≫= sent_by)) → Forall (λ x, payload_nbytes x.2.2 ≤ M) (hist ++ (es ≫= sent_by)) →
  0 ≤ M → capacity (c_state s) ≤ M → Forall calm es → sys_run repr compressor s es = Some s' → bounded M s → bounded M s'.
Proof.
  intros Hf Ho HO HM Hcap Hc. revert hist A s Hf Ho HO Hcap. induction Hc as [|e es He _ IH]; intros hist A s Hf Ho HO Hcap; simpl.
  - by intros [= <-].
  - intros (s1 & H1 & H)%bind_Some Hb. simpl in Ho, HO. pose proof (capacity_step _ _ _ H1) as Hcs.
    destruct (step_flow _ _ _ _ _ _ _ Hf He H1) as [A1 Hf1]. rewrite app_assoc in Ho, HO.
    eapply IH; [exact Hf1|exact Ho|exact HO|lia|exact H|]. eapply bounded_step; [exact Hf|..]; try done.
    + unfold once in Ho. rewrite !fmap_app in Ho. apply NoDup_app in Ho as [Ho _]. by apply NoDup_app in Ho as [Ho _].
    + apply Forall_app in HO as [HO _]. by apply Forall_app in HO as [HO _].
Qed.

End safe.
