(* ===== verification/V1ConnLive.v ===== *)
(** * The v1 connector and its transport: a load completes

    Where nothing fails, no payload is lost, a credit is kept for the request
    that has the priority, and a refused payload goes behind the others: the
    threads can always finish a load whose payloads were sent. *)

From S2P Require Import Prelude PyData Wire WireThms V1Transport V1Conn V1ConnThms V1ConnSafe.
Import V1Conn.Worker V1Conn.Sched.

Section live.
Context `{D : !Dtypes} (repr : obj → string) (compressor : option (CompressedKVData → option tensor)).

Notation flow := (flow repr compressor).
Notation unpacked := (unpacked repr compressor).

(** ** Counts *)

Definition ids (l : list ReqMeta) : list string := transfer_id <$> l.

Definition pend (s : system) : list ReqMeta := default [] (pending (w_state s)).

(** The payloads of a request that are admitted, and that wait. *)
Definition held_n (s : system) (t : string) : nat :=
  length (filter (λ m, msg_rid m = t) (recv_completions (c_state s))) + length (arrived (received (c_state s)) t)
  + length (arrived (worker_received (w_state s)) t).

Definition wait_n (s : system) (t : string) : nat := length (entries (offered s) t) + length (entries (send_queue (p_state s)) t).

Lemma filter_msgs A t : length (filter (λ m, msg_rid m = t) (msg_of <$> A)) = length (entries A t).
Proof.
  unfold entries. rewrite length_fmap. induction A as [|i A IH]; [done|]. csimpl. rewrite !filter_cons, msg_rid_of.
  destruct (decide (i_request_id i = t)); simpl; by rewrite IH.
Qed.

Lemma count_line hist A s t : flow hist A s → length (line A s t) = (held_n s t + wait_n s t)%nat.
Proof.
  intros Hf. unfold held_n, wait_n. rewrite (f_recv _ _ _ _ _ Hf), filter_msgs. unfold line. rewrite !length_app. lia.
Qed.

(** Nothing fails, and a load asks for a transfer once. *)
Definition smooth (e : event) : Prop :=
  calm e ∧
  match e with
  | Listen alloc _ => alloc = true
  | RecvRetired ok => ok = true
  | StartLoad reqs => NoDup (ids reqs)
  | Deadline => False
  | _ => True
  end.

Definition good (hist : list (string * entry)) : Prop :=
  once hist ∧ Forall (λ x : string * entry, 0 < payload_nbytes x.2.2 ∧ ∃ y, unpacked x.2 y) hist.

Record live (hist : list (string * entry)) (s : system) : Prop := {
  v_flow : ∃ A, flow hist A s;
  v_comm : comm (c_state s) = true;
  v_answer : answer s ≠ Some AckOom;
  v_some : inbox_all (λ x, is_Some x.2) (received (c_state s)) ∧ inbox_all (λ x, is_Some x.2) (worker_received (w_state s));
  v_raised : raised (w_state s) = [];
  v_pending : pending (w_state s) ≠ Some [];
  v_ids : NoDup (ids (pend s));
  v_expected : ∀ t, t ∈ expected (c_state s) → t ∈ ids (pend s) ∨ loads s t ≠ [];
  v_wanted : ∀ t, t ∈ ids (pend s) → t ∈ expected (c_state s);
  v_priority : ∀ r, priority (c_state s) = Some r → r ∈ ids (pend s) ∧ (0 < held_n s r)%nat;
  v_count : ∀ t, (held_n s t + wait_n s t + length (loads s t) = length (sends hist t))%nat
}.

(** ** Steps *)

(** What a step must do to the rest, by the counts it changes. *)
Lemma live_step hist h s s' :
  live hist s → (∃ A, flow (hist ++ h) A s') →
  comm (c_state s') = true → answer s' ≠ Some AckOom →
  inbox_all (λ x, is_Some x.2) (received (c_state s')) ∧ inbox_all (λ x, is_Some x.2) (worker_received (w_state s')) →
  raised (w_state s') = [] → pending (w_state s') = pending (w_state s) → expected (c_state s') = expected (c_state s) →
  injected (w_state s') = injected (w_state s) →
  (∀ r, priority (c_state s') = Some r → r ∈ ids (pend s) ∧ (0 < held_n s' r)%nat) →
  (∀ t, (held_n s' t + wait_n s' t = held_n s t + wait_n s t + length (sends h t))%nat) →
  live (hist ++ h) s'.
Proof.
  intros [] Hf Hc Ha Hs Hr Ep Ee Ei Hpr Hn. assert (Hl : ∀ t, loads s' t = loads s t) by (intros t; unfold loads; by rewrite Ei).
  split; unfold pend in *; rewrite ?Ep, ?Ee; try done.
  - intros t. rewrite Hl. auto.
  - intros t. rewrite Hl, sends_app, length_app. specialize (Hn t). specialize (v_count0 t). lia.
Qed.

(** On a live system a grant does not fail, and the priority is an expected
    request. *)
Lemma put_live m c a c' :
  comm c = true → on_put m true true c = (a, c') →
  expected c' = expected c ∧ comm c' = true ∧ received c' = received c ∧
  ((a = AckRetry ∧ c' = c ∧ (msg_rid m ∉ expected c ∨ priority c ≠ None)) ∨
   (a = AckOk ∧ recv_completions c' = recv_completions c ++ [m] ∧
    (priority c' = priority c ∨ (priority c' = Some (msg_rid m) ∧ msg_rid m ∈ expected c)))).
Proof.
  intros Hc. unfold on_put, reserve_received. rewrite Hc. simpl.
  destruct (full _ _); [|intros [= <- <-]; simpl; split_and!; try done; right; split_and!; try done; by left].
  destruct (decide (msg_rid m ∈ expected c)) as [He|He]; [rewrite (bool_decide_true (_ ∈ _)) by done|rewrite (bool_decide_false (_ ∈ _)) by done].
  - simpl. case_bool_decide as Hp; intros [= <- <-]; simpl; split_and!; try done.
    + right. split_and!; try done. by right.
    + left. split_and!; try done. by right.
  - simpl. intros [= <- <-]. split_and!; try done. left. split_and!; try done. by left.
Qed.

Lemma live_send hist s rid names p :
  live hist s → payload_ok p → live (hist ++ [(rid, (names, p))])
    (mkSystem (send rid names p (p_state s)) (c_state s) (w_state s) (control s) (answer s) (stream s)).
Proof.
  intros Hl Hp. destruct (v_flow _ _ Hl) as [A Hf]. set (s' := mkSystem _ _ _ _ _ _).
  apply (live_step hist _ s); try done; try apply Hl.
  - exists A. by apply flow_send.
  - intros t. assert (Hh : held_n s' t = held_n s t) by done. rewrite Hh. unfold wait_n.
    change (offered s') with (offered s). simpl. rewrite entries_app, length_app, entries_one. unfold sends. rewrite filter_cons. simpl.
    destruct (decide (rid = t)); simpl; lia.
Qed.

Lemma live_offer hist s i p :
  live hist s → take_item (p_state s) = Some (i, p) →
  live hist (mkSystem p (c_state s) (w_state s) (Some (msg_of i)) (answer s) (stream s)).
Proof.
  intros Hl Htake. destruct (v_flow _ _ Hl) as [A Hf]. pose proof (flow_offer _ _ _ _ _ _ _ Hf Htake) as Hf'.
  rewrite <- (app_nil_r hist). set (s' := mkSystem _ _ _ _ _ _) in *.
  apply (live_step hist _ s); try done; try apply Hl.
  - exists A. by rewrite app_nil_r.
  - intros t. rewrite <- (count_line _ _ _ _ Hf), <- (count_line _ _ _ _ Hf'). simpl. rewrite Nat.add_0_r.
    pose proof (f_phase _ _ _ _ _ Hf) as Hph. unfold phase, take_item in *. destruct (current (p_state s)) eqn:Ec; [done|].
    destruct (send_queue (p_state s)) as [|j q] eqn:Eq; [done|]. injection Htake as <- <-. destruct Hph as [_ Ha].
    unfold line, offered. simpl. rewrite Ec, Ha, Eq. change (j :: q) with ([j] ++ q). by rewrite entries_app.
Qed.

(** A request on the line has not been loaded. *)
Lemma line_not_loaded hist s t : good hist → live hist s → (0 < held_n s t + wait_n s t)%nat → loads s t = [].
Proof.
  intros [Ho _] Hl Hn. pose proof (v_count _ _ Hl t) as Hc. pose proof (sends_once hist t Ho).
  destruct (loads s t); [done|]. simpl in Hc. lia.
Qed.

Lemma live_listen hist s i a c :
  good hist → live hist s → current (p_state s) = Some i → control s = Some (msg_of i) → on_put (msg_of i) true true (c_state s) = (a, c) →
  live hist (mkSystem (p_state s) c (w_state s) None (Some a) (stream s)) ∧
  ((a = AckRetry ∧ c = c_state s ∧ (i_request_id i ∉ expected (c_state s) ∨ priority (c_state s) ≠ None)) ∨
   (a = AckOk ∧ recv_completions c = recv_completions (c_state s) ++ [msg_of i])).
Proof.
  intros Hg Hl Hi Hctl Hput. destruct (v_flow _ _ Hl) as [A Hf]. pose proof (offered_item _ _ _ _ _ _ Hf Hctl Hi) as Hof.
  pose proof (flow_listen _ _ _ _ _ _ _ _ _ Hf Hctl Hput) as Hf'. set (s' := mkSystem _ _ _ _ _ _) in *.
  apply put_live in Hput as (E1 & E2 & E3 & Hput); [|apply Hl]. rewrite msg_rid_of in Hput.
  split; [|destruct Hput as [?|(? & ? & _)]; [by left|by right]].
  assert (Hh : ∀ t, held_n s' t = (held_n s t + match a with AckOk => if decide (i_request_id i = t) then 1 else 0 | _ => 0 end)%nat).
  { intros t. unfold held_n, s'. simpl. rewrite E3. destruct Hput as [(-> & -> & _)|(-> & -> & _)]; [lia|].
    rewrite filter_app, length_app, filter_cons, msg_rid_of. destruct (decide (i_request_id i = t)); simpl; lia. }
  rewrite <- (app_nil_r hist). apply (live_step hist _ s); try done; try apply Hl.
  - by rewrite app_nil_r.
  - destruct Hput as [(-> & _)|(-> & _)]; done.
  - simpl. rewrite E3. apply Hl.
  - intros r Hr. simpl in Hr. destruct Hput as [(-> & -> & _)|(-> & _ & Hp)]; [rewrite Hh, Nat.add_0_r; by apply Hl|].
    assert (Hcase : priority (c_state s) = Some r ∨ (i_request_id i = r ∧ r ∈ expected (c_state s))).
    { destruct Hp as [Hp|[Hp Hx]]; [left; congruence|]. right. rewrite Hp in Hr. by injection Hr as <-. }
    rewrite Hh. destruct Hcase as [Hp'|[<- He]]; [split; [by apply Hl|pose proof (proj2 (v_priority _ _ Hl r Hp')); lia]|].
    rewrite decide_True by done. split; [|lia]. destruct (v_expected _ _ Hl _ He) as [?|Hne]; [done|]. exfalso. apply Hne.
    apply (line_not_loaded hist); try done. unfold wait_n. rewrite Hof, entries_one, decide_True by done. simpl. lia.
  - intros t. rewrite Hh. unfold wait_n. rewrite Hof, entries_one. unfold offered, s'. simpl. rewrite Hi.
    destruct Hput as [(-> & _)|(-> & _)]; simpl; rewrite ?entries_one; destruct (decide (i_request_id i = t)); simpl; lia.
Qed.

Lemma live_answered hist s a i ts p :
  live hist s → answer s = Some a → current (p_state s) = Some i → on_ack i a true (p_state s) = (ts, p) →
  live hist (mkSystem p (c_state s) (w_state s) (control s) None (stream s ++ ts)) ∧ current p = None ∧
  send_queue p = match a with AckRetry => requeue i (send_queue (p_state s)) | _ => send_queue (p_state s) end.
Proof.
  intros Hl Ha Hi Hack. destruct (v_flow _ _ Hl) as [A Hf]. pose proof (flow_answered _ _ _ _ _ _ _ _ _ Hf Ha Hi Hack) as Hf'.
  assert (Hp : a ≠ AckOom ∧ current p = None ∧ send_queue p = match a with AckRetry => requeue i (send_queue (p_state s)) | _ => send_queue (p_state s) end).
  { pose proof (v_answer _ _ Hl) as Hn. rewrite Ha in Hn. by destruct a; injection Hack as <- <-. }
  destruct Hp as (Hoom & Hcur & Hq). split; [|done]. set (s' := mkSystem _ _ _ _ _ _) in *.
  rewrite <- (app_nil_r hist). apply (live_step hist _ s); try done; try apply Hl.
  - exists A. by rewrite app_nil_r.
  - intros t. change (held_n s' t) with (held_n s t). unfold wait_n, offered, s'. simpl. rewrite Hcur, Hi, Ha, Hq.
    destruct a; [simpl; lia|done|]. rewrite entries_requeue, length_app. simpl. lia.
Qed.

Lemma live_send_retired hist s p :
  live hist s → retire_send (p_state s) = Some p →
  live hist (mkSystem p (c_state s) (w_state s) (control s) (answer s) (stream s)).
Proof.
  intros Hl Hp. destruct (v_flow _ _ Hl) as [A Hf]. pose proof (flow_send_retired _ _ _ _ _ _ Hf Hp) as Hf'.
  rewrite <- (app_nil_r hist). apply (live_step hist _ s); try done; try apply Hl.
  - exists A. by rewrite app_nil_r.
  - intros t. unfold retire_send in Hp. destruct (send_completions (p_state s)); [done|]. injection Hp as <-. simpl.
    by rewrite Nat.add_0_r.
Qed.

Lemma live_recv_retired hist s l c :
  live hist s → retire_recv true (stream s) (c_state s) = Some (l, c) →
  live hist (mkSystem (p_state s) c (w_state s) (control s) (answer s) l) ∧
  (∀ t, held_n (mkSystem (p_state s) c (w_state s) (control s) (answer s) l) t = held_n s t).
Proof.
  intros Hl Hr. destruct (v_flow _ _ Hl) as [A Hf]. pose proof (flow_recv_retired _ _ _ _ _ _ _ _ Hf Hr) as Hf'.
  set (s' := mkSystem _ _ _ _ _ _) in *. unfold retire_recv in Hr. destruct (recv_completions (c_state s)) as [|m q] eqn:Eq; [done|].
  apply bind_Some in Hr as ([p st] & _ & [= <- <-]).
  assert (Hh : ∀ t, held_n s' t = held_n s t).
  { intros t. unfold held_n, s'. simpl. rewrite Eq, arrived_append, length_app, filter_cons.
    destruct (decide (msg_rid m = t)); simpl; lia. }
  split; [|exact Hh]. rewrite <- (app_nil_r hist). apply (live_step hist _ s); try done; try apply Hl.
  - by rewrite app_nil_r.
  - simpl. split; [|apply Hl]. apply inbox_all_append; [apply Hl|]. apply Forall_singleton. by eexists.
  - intros r Hp. rewrite Hh. by apply Hl.
  - intros t. rewrite Hh. simpl. by rewrite Nat.add_0_r.
Qed.

Lemma live_drain hist s w c :
  live hist s → drain (w_state s) (c_state s) = (w, c) →
  live hist (with_worker s (w, c)) ∧ received c = [] ∧ (∀ t, held_n (with_worker s (w, c)) t = held_n s t) ∧
  pending w = pending (w_state s) ∧ injected w = injected (w_state s) ∧ raised w = raised (w_state s).
Proof.
  intros Hl Hd. destruct (v_flow _ _ Hl) as [A Hf]. pose proof (flow_drain _ _ _ _ _ _ _ Hf Hd) as Hf'.
  set (s' := with_worker _ _) in *. apply drain_eq in Hd as [-> ->].
  assert (Hh : ∀ t, held_n s' t = held_n s t).
  { intros t. destruct (f_dicts _ _ _ _ _ Hf) as [H1 H2].
    destruct (extend_spec (worker_received (w_state s)) (filter (λ e, e.2 ≠ []) (received (c_state s)))) as (_ & _ & E3);
      [done|by apply dict_ok_filter|]. unfold held_n, s'. simpl. rewrite (arrived_app _ _ _ t (E3 t)), length_app.
    assert (Ha : arrived (filter (λ e, e.2 ≠ []) (received (c_state s))) t = arrived (received (c_state s)) t)
      by (unfold arrived; by rewrite here_nonempty).
    rewrite Ha. change (length (arrived [] t)) with 0%nat. lia. }
  split; [|done]. rewrite <- (app_nil_r hist). apply (live_step hist _ s); try done; try apply Hl.
  - exists A. by rewrite app_nil_r.
  - destruct (v_some _ _ Hl) as [H1 H2]. split; [by apply Forall_nil_2|]. apply inbox_all_extend; [done|by apply inbox_all_filter].
  - intros r Hp. rewrite Hh. by apply Hl.
  - intros t. rewrite Hh. simpl. by rewrite Nat.add_0_r.
Qed.

Lemma live_start hist s reqs :
  live hist s → pending (w_state s) = None → NoDup (ids reqs) →
  live hist (with_worker s (start_load_kv reqs (w_state s) (c_state s))).
Proof.
  intros Hl Hp Hn. destruct (v_flow _ _ Hl) as [A Hf]. pose proof (flow_start _ _ _ _ _ reqs Hf) as Hf'.
  unfold start_load_kv in *. destruct (drain _ _) as [w c] eqn:Ed. destruct (live_drain _ _ _ _ Hl Ed) as ([] & Er & _ & E1 & E2 & E3).
  simpl in *. assert (Hpr : priority c = None).
  { destruct (priority c) as [r|]; [|done]. destruct (v_priority0 r eq_refl) as [Hr _]. unfold pend in Hr. simpl in Hr.
    rewrite E1, Hp in Hr. by apply elem_of_nil in Hr. }
  destruct reqs as [|r reqs]; simpl in *.
  - split; simpl; try done; [by exists A| |by rewrite Hpr].
    intros t Ht. by apply elem_of_nil in Ht.
  - split; unfold pend; simpl in *; try done; [by exists A| | |by rewrite Hpr].
    + intros t Ht. left. exact (proj1 (elem_of_list_to_set (C := gset string) t (ids (r :: reqs))) Ht).
    + intros t Ht. exact (proj2 (elem_of_list_to_set (C := gset string) t (ids (r :: reqs))) Ht).
Qed.

(** ** A turn of the loop *)

Lemma next_ready_spec d l r rest :
  next_ready d l = Some (r, rest) → ∃ x q, dget d (transfer_id r) = Some (x :: q) ∧ l ≡ₚ r :: rest.
Proof.
  revert r rest. induction l as [|y l IH]; simpl; [done|]. intros r rest.
  destruct (dget d (transfer_id y)) as [[|x q]|] eqn:E.
  - intros ([z l'] & (x & q & E' & Hp)%IH & [= -> <-])%bind_Some. exists x, q. split; [done|]. rewrite Hp. by constructor.
  - intros [= -> ->]. by exists x, q.
  - intros ([z l'] & (x & q & E' & Hp)%IH & [= -> <-])%bind_Some. exists x, q. split; [done|]. rewrite Hp. by constructor.
Qed.

Lemma next_ready_some d l r : r ∈ l → here d (transfer_id r) ≠ [] → is_Some (next_ready d l).
Proof.
  intros Hr Hh. induction l as [|y l IH]; [by apply elem_of_nil in Hr|]. simpl.
  apply elem_of_cons in Hr as [<-|Hr]; [unfold here in Hh; destruct (dget d (transfer_id r)) as [[|x q]|]; first [done|by eexists]|].
  destruct (IH Hr) as [[z l'] ->]. destruct (dget d (transfer_id y)) as [[|x q]|]; by eexists.
Qed.

(** What is on the line was sent. *)
Lemma line_sent hist s t e :
  live hist s → e ∈ arrived (worker_received (w_state s)) t → (t, e) ∈ hist.
Proof.
  intros Hl He. destruct (v_flow _ _ Hl) as [A Hf]. destruct (f_line _ _ _ _ _ Hf t) as (l & _ & Hs).
  assert (Hin : e ∈ sends hist t) by (eapply elem_of_sublist; [|exact Hs]; unfold line; set_solver).
  unfold sends in Hin. apply list_elem_of_fmap in Hin as ([r x] & -> & [E Hin]%list_elem_of_filter). simpl in *. by subst.
Qed.

(** The state after a payload is injected. *)
Definition after_pop (s : system) (r : ReqMeta) (rest : list ReqMeta) (d : inbox) (n : Z) (x : list string * tensor) : system :=
  with_worker s (set_pending rest
    (mkWorker d (pending (w_state s)) (injected (w_state s) ++ [mkInjection r x.1 x.2]) (raised (w_state s)))
    (release_received (transfer_id r) n (c_state s))).

Lemma after_pop_eqs s r rest d n x :
  0 < n →
  let s' := after_pop s r rest d n x in
  comm (c_state s') = comm (c_state s) ∧ answer s' = answer s ∧ received (c_state s') = received (c_state s) ∧
  worker_received (w_state s') = d ∧ raised (w_state s') = raised (w_state s) ∧
  pending (w_state s') = (match rest with [] => None | _ => Some rest end) ∧ pend s' = rest ∧
  expected (c_state s') = (match rest with [] => ∅ | _ => expected (c_state s) end) ∧
  priority (c_state s') = (if bool_decide (Some (transfer_id r) = priority (c_state s)) then None else priority (c_state s)) ∧
  recv_completions (c_state s') = recv_completions (c_state s) ∧ (∀ t, wait_n s' t = wait_n s t) ∧ p_state s' = p_state s ∧
  ∀ t, loads s' t = loads s t ++ (if decide (transfer_id r = t) then [x] else []).
Proof.
  intros Hn. unfold after_pop, release_received. rewrite (proj2 (Z.leb_gt n 0)) by done.
  destruct rest; simpl; split_and!; try done; intros t; (erewrite (loads_snoc s _ _ r x.1 x.2) by done); by destruct x.
Qed.

Lemma conn_live_pop hist s r rest n p d x :
  good hist → live hist s → (∃ A, flow hist A (after_pop s r rest d (payload_nbytes p) x)) →
  pend s ≡ₚ r :: rest → pop_payload (transfer_id r) (worker_received (w_state s)) = Some ((n, Some p), d) → 0 < payload_nbytes p →
  live hist (after_pop s r rest d (payload_nbytes p) x).
Proof.
  intros Hg Hl Hf' Hperm Hpop Hn. destruct (v_flow _ _ Hl) as [A Hf]. destruct (f_dicts _ _ _ _ _ Hf) as [_ Hdw].
  pose proof (arrived_pop _ _ _ _ _ Hdw Hpop) as Har.
  assert (Hid : ids (pend s) ≡ₚ transfer_id r :: ids rest) by (unfold ids; by rewrite Hperm).
  pose proof (v_ids _ _ Hl) as Hnd. rewrite Hid in Hnd. apply NoDup_cons in Hnd as [Hr Hnd].
  destruct (after_pop_eqs s r rest d (payload_nbytes p) x Hn) as (E1 & E2 & E3 & E4 & E5 & E6 & E7 & E8 & E9 & E10 & E11 & _ & E12).
  set (s' := after_pop _ _ _ _ _ _) in *.
  assert (Hh : ∀ t, held_n s t = (held_n s' t + if decide (t = transfer_id r) then 1 else 0)%nat).
  { intros t. unfold held_n. rewrite E3, E4, E10, (Har t), length_app. destruct (decide (t = transfer_id r)); simpl; lia. }
  split; rewrite ?E1, ?E2, ?E3, ?E4, ?E5, ?E6, ?E7; try apply Hl; try done.
  - split; [apply Hl|]. by eapply inbox_all_pop; [apply Hl|].
  - by destruct rest.
  - intros t Ht. rewrite E12. destruct (decide (transfer_id r = t)) as [<-|Hne]; [right; by destruct (loads s _)|].
    rewrite app_nil_r. rewrite E8 in Ht. destruct rest; [set_solver|].
    destruct (v_expected _ _ Hl t Ht) as [Hi|?]; [left|by right]. rewrite Hid in Hi. set_solver.
  - intros t Ht. rewrite E8. destruct rest; [by apply elem_of_nil in Ht|]. apply Hl. rewrite Hid. by right.
  - intros t Ht. rewrite E9 in Ht. case_bool_decide as Hp; [done|]. destruct (v_priority _ _ Hl t Ht) as [Hi Hh'].
    rewrite Hid in Hi. apply elem_of_cons in Hi as [->|Hi]; [by rewrite Ht in Hp|]. split; [done|]. rewrite Hh in Hh'.
    rewrite decide_False in Hh'; [lia|]. intros ->. by rewrite Ht in Hp.
  - intros t. rewrite <- (v_count _ _ Hl t), E11, E12, length_app, Hh. destruct (decide (transfer_id r = t)) as [->|Hne].
    + rewrite decide_True by done. simpl. lia.
    + rewrite decide_False by congruence. simpl. lia.
Qed.

Lemma unpacks hist s r n p d :
  good hist → live hist s → pop_payload (transfer_id r) (worker_received (w_state s)) = Some ((n, p), d) →
  ∃ q, p = Some q ∧ 0 < payload_nbytes q ∧ ∃ x, unpack repr compressor n (Some q) = Ok x.
Proof.
  intros [_ Hgood] Hl Hpop. destruct (inbox_all_pop _ _ _ _ _ (proj2 (v_some _ _ Hl)) Hpop) as [[q Hq] _]. simpl in Hq. subst p.
  exists q. split; [done|]. destruct (v_flow _ _ Hl) as [A Hf].
  pose proof (arrived_pop _ _ _ _ _ (proj2 (f_dicts _ _ _ _ _ Hf)) Hpop (transfer_id r)) as Har. rewrite decide_True in Har by done.
  assert (Hin : (transfer_id r, (n, q)) ∈ hist) by (apply (line_sent hist s); [done|]; rewrite Har; set_solver).
  exact (proj1 (Forall_forall _ _) Hgood _ Hin).
Qed.

(** The turn that finds nothing finds nothing of any pending request. *)
Lemma idle_turn hist s l w c :
  live hist s → drain (w_state s) (c_state s) = (w, c) → next_ready (worker_received w) l = None → ∀ r, r ∈ l →
  arrived (received (c_state s)) (transfer_id r) = [] ∧ arrived (worker_received (w_state s)) (transfer_id r) = [].
Proof.
  intros Hl Ed En r Hr. destruct (v_flow _ _ Hl) as [A Hf].
  destruct (decide (here (worker_received w) (transfer_id r) = [])) as [E|Hne];
    [|destruct (next_ready_some _ _ _ Hr Hne) as [? E]; congruence].
  destruct (f_dicts _ _ _ _ _ Hf) as [H1 H2]. apply drain_eq in Ed as [-> _]. simpl in E.
  destruct (extend_spec (worker_received (w_state s)) (filter (λ e, e.2 ≠ []) (received (c_state s)))) as (_ & _ & E3);
    [done|by apply dict_ok_filter|]. rewrite E3 in E. apply app_nil in E as [Ea Eb]. rewrite here_nonempty in Eb by done.
  unfold arrived. by rewrite Ea, Eb.
Qed.

Lemma live_turn hist s l :
  good hist → live hist s → pending (w_state s) = Some l →
  let s' := with_worker s (load_turn repr compressor l (w_state s) (c_state s)) in
  live hist s' ∧ p_state s' = p_state s ∧
  ((pend s' = l ∧ (∀ t, loads s' t = loads s t) ∧ ∀ r, r ∈ l → arrived (received (c_state s)) (transfer_id r) = [] ∧ arrived (worker_received (w_state s)) (transfer_id r) = []) ∨
   (∃ r, ids l ≡ₚ transfer_id r :: ids (pend s') ∧ loads s' (transfer_id r) ≠ [] ∧ ∀ t, t ≠ transfer_id r → loads s' t = loads s t)).
Proof.
  intros Hg Hl Hp. destruct (v_flow _ _ Hl) as [A Hf]. pose proof (flow_turn _ _ _ _ _ l Hf) as Hf'.
  unfold load_turn in *. destruct (drain _ _) as [w c] eqn:Ed.
  destruct (live_drain _ _ _ _ Hl Ed) as (Hl1 & Er & Hh & Ep & Ei & Era).
  set (s1 := with_worker s (w, c)) in *. assert (Hpd : pend s1 = l) by (unfold pend; simpl; by rewrite Ep, Hp).
  destruct (next_ready (worker_received w) l) as [[r rest]|] eqn:En.
  - apply next_ready_spec in En as (x & q & Hx & Hperm).
    destruct (pop_payload (transfer_id r) (worker_received w)) as [[[n p] d]|] eqn:Epop; [|unfold pop_payload in Epop; by rewrite Hx in Epop].
    destruct (unpacks _ s1 r n p d Hg Hl1 Epop) as (p' & -> & Hpos & y & Hy). cbv zeta. rewrite Hy in Hf' |- *. destruct y as [n' kv].
    assert (El : live hist (after_pop s1 r rest d (payload_nbytes p') (n', kv)))
      by (apply (conn_live_pop hist s1 r rest n p' d); [done|done|by exists A|by rewrite Hpd|done|done]).
    destruct (after_pop_eqs s1 r rest d (payload_nbytes p') (n', kv) Hpos) as (_ & _ & _ & _ & _ & _ & E7 & _ & _ & _ & _ & E11 & E12).
    split; [exact El|]. split; [exact E11|]. right. exists r. change (with_worker s _) with (after_pop s1 r rest d (payload_nbytes p') (n', kv)).
    split_and!; [rewrite E7; unfold ids; by rewrite Hperm| |].
    + rewrite E12, decide_True by done. by destruct (loads s1 _).
    + intros t Ht. rewrite E12, decide_False by congruence. rewrite app_nil_r. unfold loads. simpl. by rewrite Ei.
  - split; [exact Hl1|]. split; [done|]. left. split; [done|]. split; [intros t; unfold loads; simpl; by rewrite Ei|].
    by eapply idle_turn.
Qed.

(** ** Executions *)

Lemma live_of_step hist s e s' :
  good (hist ++ sent_by e) → live hist s → smooth e → sys_step repr compressor s e = Some s' → live (hist ++ sent_by e) s'.
Proof.
  intros Hg Hl [Hc Hs] Hstep. destruct (v_flow _ _ Hl) as [A Hf].
  destruct e as [|rid names p| |alloc post|ok| |ok|reqs| |]; simpl in *; subst; rewrite ?app_nil_r in *.
  - injection Hstep as <-. rewrite <- (app_nil_r hist). apply (live_step hist [] s); try done; try apply Hl.
    exists A. rewrite app_nil_r. by eapply flow_same; [|exact Hf].
  - injection Hstep as <-. by apply live_send.
  - apply bind_Some in Hstep as ([i p] & Hp & [= <-]). by apply live_offer.
  - apply bind_Some in Hstep as (m & Hm & H). destruct (on_put _ _ _ _) as [a c] eqn:E. injection H as <-.
    destruct (control_current _ _ _ _ _ _ Hf Hm) as (i & Hi & ->). by eapply live_listen.
  - apply bind_Some in Hstep as (a & Ha & (i & Hi & H)%bind_Some). destruct (on_ack _ _ _ _) as [ts p] eqn:E. injection H as <-.
    by eapply live_answered.
  - apply bind_Some in Hstep as (p & Hp & [= <-]). by apply live_send_retired.
  - apply bind_Some in Hstep as ([l c] & Hp & [= <-]). by apply live_recv_retired.
  - destruct (pending (w_state s)) eqn:Ep; [done|]. injection Hstep as <-. by apply live_start.
  - apply bind_Some in Hstep as (l & Hp & [= <-]). by apply (live_turn hist s l).
  - done.
Qed.

Lemma good_prefix h1 h2 : good (h1 ++ h2) → good h1.
Proof. intros [Ho Hf]. split; [|by apply Forall_app in Hf as [? _]]. unfold once in *. rewrite fmap_app in Ho. by apply NoDup_app in Ho as [? _]. Qed.

Lemma live_run hist s es s' :
  good (hist ++ (es ≫= sent_by)) → live hist s → Forall smooth es → sys_run repr compressor s es = Some s' →
  live (hist ++ (es ≫= sent_by)) s'.
Proof.
  intros Hg Hl Hs. revert hist s Hg Hl. induction Hs as [|e es He _ IH]; intros hist s Hg Hl; simpl in *.
  - intros [= <-]. by rewrite app_nil_r.
  - rewrite app_assoc in *. intros (s1 & H1 & H)%bind_Some. eapply IH; [done| |exact H].
    apply (live_of_step _ s); try done. by eapply good_prefix.
Qed.

Lemma conn_live_init n : live [] (mkSystem init_producer (set_comm (init_consumer n)) init_worker None None []).
Proof.
  split; try done.
  - exists []. eapply flow_same; [|apply (flow_init repr compressor n)]. done.
  - split; apply Forall_nil_2.
  - constructor.
  - intros t Ht. by apply elem_of_nil in Ht.
Qed.

(** ** Progress *)

(** The steps of the threads. *)
Definition thread (e : event) : Prop :=
  match e with Offer | Listen true true | Answered true | RecvRetired true | Turn => True | _ => False end.

Definition reach (s s' : system) : Prop := ∃ es, Forall thread es ∧ sys_run repr compressor s es = Some s'.

Lemma reach_refl s : reach s s.
Proof. exists []. done. Qed.

Lemma reach_step s e s' s'' : thread e → sys_step repr compressor s e = Some s' → reach s' s'' → reach s s''.
Proof. intros He Hs (es & Hes & Hr). exists (e :: es). split; [by constructor|]. simpl. by rewrite Hs. Qed.

Lemma sys_run_app s es1 es2 : sys_run repr compressor s (es1 ++ es2) = s1 ← sys_run repr compressor s es1; sys_run repr compressor s1 es2.
Proof.
  revert s. induction es1 as [|e es1 IH]; intros s; simpl; [done|]. destruct (sys_step repr compressor s e) as [s1|]; simpl; [apply IH|done].
Qed.

Lemma reach_trans s s' s'' : reach s s' → reach s' s'' → reach s s''.
Proof.
  intros (es1 & H1 & E1) (es2 & H2 & E2). exists (es1 ++ es2). split; [by apply Forall_app|]. by rewrite sys_run_app, E1.
Qed.

(** What is asked for was sent and is not loaded. *)
Definition wanted (hist : list (string * entry)) (s : system) : Prop :=
  ∀ t, t ∈ ids (pend s) → loads s t = [] ∧ sends hist t ≠ [].

(** A step of the transport leaves the load alone. *)
Definition keeps (s s' : system) : Prop :=
  pending (w_state s') = pending (w_state s) ∧ injected (w_state s') = injected (w_state s).

Definition moves (hist : list (string * entry)) (s s' : system) : Prop :=
  reach s s' ∧ live hist s' ∧ keeps s s'.

Lemma moves_trans hist s s' s'' : moves hist s s' → moves hist s' s'' → moves hist s s''.
Proof. intros (H1 & H2 & E1 & E2) (H3 & H4 & E3 & E4). split; [by eapply reach_trans|]. split; [done|]. split; congruence. Qed.

Lemma moves_refl hist s : live hist s → moves hist s s.
Proof. intros Hl. split; [apply reach_refl|]. done. Qed.

Lemma keeps_loads s s' t : keeps s s' → loads s' t = loads s t.
Proof. intros [_ E]. unfold loads. by rewrite E. Qed.

Lemma keeps_wanted hist s s' : keeps s s' → wanted hist s → wanted hist s'.
Proof. intros Hk Hw t Ht. rewrite (keeps_loads s) by done. apply Hw. destruct Hk as [E _]. unfold pend in *. by rewrite <- E. Qed.

Lemma wanted_line hist s t : live hist s → wanted hist s → t ∈ ids (pend s) → (0 < held_n s t + wait_n s t)%nat.
Proof.
  intros Hl Hw Ht. destruct (Hw t Ht) as [E Hn]. pose proof (v_count _ _ Hl t) as Hc. rewrite E in Hc.
  destruct (sends hist t); [done|]. simpl in Hc. lia.
Qed.

(** Every posted receive completes. *)
Lemma retire_all hist s :
  live hist s → current (p_state s) = None →
  ∃ s', moves hist s s' ∧ recv_completions (c_state s') = [] ∧ p_state s' = p_state s ∧ ∀ t, held_n s' t = held_n s t.
Proof.
  remember (length (recv_completions (c_state s))) as k eqn:Ek. revert s Ek. induction k as [|k IH]; intros s Ek Hl Hcur.
  { exists s. split; [by apply moves_refl|]. by destruct (recv_completions (c_state s)). }
  destruct (v_flow _ _ Hl) as [A Hf]. assert (Hr : is_Some (retire_recv true (stream s) (c_state s))).
  { unfold retire_recv. rewrite (f_recv _ _ _ _ _ Hf) in Ek |- *. destruct A as [|i A]; [done|]. csimpl.
    pose proof (f_items _ _ _ _ _ Hf) as Hi. apply Forall_cons in Hi as [[Hpi _] _].
    pose proof (f_stream _ _ _ _ _ Hf) as Hst. unfold submitted, to_submit in Hst. rewrite Hcur, app_nil_r in Hst.
    rewrite Hst. csimpl. rewrite recv_payload_spec by done. by eexists. }
  destruct Hr as [[l c] Hr]. destruct (live_recv_retired _ _ _ _ Hl Hr) as [Hl1 Hh].
  set (s1 := mkSystem _ _ _ _ _ _) in *. assert (Hstep : sys_step repr compressor s (RecvRetired true) = Some s1) by (simpl; by rewrite Hr).
  destruct (IH s1) as (s' & (H1 & H2 & H3) & H4 & H5 & H6); [|done|done|].
  { simpl. unfold retire_recv in Hr. destruct (recv_completions (c_state s)) as [|m q]; [done|].
    apply bind_Some in Hr as ([p st] & _ & [= _ <-]). simpl in *. lia. }
  exists s'. split; [split; [by eapply (reach_step _ (RecvRetired true))|]; split; [done|exact H3]|]. split; [done|]. split; [done|].
  intros t. by rewrite H6, Hh.
Qed.

(** The current item is answered. *)
Lemma settle hist s :
  good hist → live hist s → ∃ s', moves hist s s' ∧ current (p_state s') = None.
Proof.
  intros Hg Hl. destruct (current (p_state s)) as [i|] eqn:Hi; [|exists s; split; [by apply moves_refl|done]].
  assert (Hanswer : ∀ s a, live hist s → current (p_state s) = Some i → answer s = Some a → ∃ s', moves hist s s' ∧ current (p_state s') = None).
  { intros s1 a Hl1 Hi1 Ha. destruct (on_ack i a true (p_state s1)) as [ts p] eqn:E.
    destruct (live_answered _ _ _ _ _ _ Hl1 Ha Hi1 E) as (Hl2 & Hc & _).
    exists (mkSystem p (c_state s1) (w_state s1) (control s1) None (stream s1 ++ ts)). split; [|done]. split; [|done].
    apply (reach_step _ (Answered true) (mkSystem p (c_state s1) (w_state s1) (control s1) None (stream s1 ++ ts))); [done| |apply reach_refl].
    simpl. rewrite Ha, Hi1. simpl. by rewrite E. }
  destruct (v_flow _ _ Hl) as [A Hf]. pose proof (f_phase _ _ _ _ _ Hf) as Hph. unfold phase in Hph. rewrite Hi in Hph.
  destruct Hph as [[Hctl Ha]|[Hctl [a Ha]]]; [|by eapply Hanswer].
  destruct (on_put (msg_of i) true true (c_state s)) as [a c] eqn:E.
  destruct (live_listen _ _ _ _ _ Hg Hl Hi Hctl E) as [Hl1 _]. set (s1 := mkSystem _ _ _ _ _ _) in *.
  destruct (Hanswer s1 a Hl1 Hi eq_refl) as (s' & (Hr & Hl' & Hk) & Hc). exists s'. split; [|done]. split; [|done].
  apply (reach_step _ (Listen true true) s1); [done| |done]. simpl. rewrite Hctl. simpl. by rewrite E.
Qed.

Lemma requeue_last i q : entries q (i_request_id i) = [] → requeue i q = q ++ [i].
Proof.
  induction q as [|x q IH]; [done|]. change (x :: q) with ([x] ++ q). rewrite entries_app, entries_one.
  destruct (decide (i_request_id x = i_request_id i)) as [E|E]; [done|]. simpl. intros Hq. rewrite bool_decide_false by done. by rewrite IH.
Qed.

(** The first payload of the queue is admitted or goes to the end; that of an
    expected request is admitted unless another one has the priority. *)
Lemma offer_first hist s i q :
  good hist → live hist s → current (p_state s) = None → send_queue (p_state s) = i :: q →
  ∃ s', moves hist s s' ∧ current (p_state s') = None ∧
    ((send_queue (p_state s') = q ∧ (0 < held_n s' (i_request_id i))%nat) ∨
     (send_queue (p_state s') = q ++ [i] ∧ (i_request_id i ∉ expected (c_state s) ∨ priority (c_state s) ≠ None))).
Proof.
  intros Hg Hl Hcur Hq. destruct (v_flow _ _ Hl) as [A Hf]. pose proof (f_phase _ _ _ _ _ Hf) as Hph. unfold phase in Hph. rewrite Hcur in Hph.
  destruct Hph as [_ Ha]. assert (Htake : is_Some (take_item (p_state s))) by (unfold take_item; rewrite Hcur, Hq; by eexists).
  destruct Htake as [[j p] Htake]. pose proof (live_offer _ _ _ _ Hl Htake) as Hl1. set (s1 := mkSystem _ _ _ _ _ _) in *.
  assert (Hp : j = i ∧ send_queue p = q ∧ current p = Some i) by (unfold take_item in Htake; rewrite Hcur, Hq in Htake; by injection Htake as <- <-).
  destruct Hp as (-> & Hqp & Hip).
  destruct (on_put (msg_of i) true true (c_state s1)) as [a c] eqn:E.
  destruct (live_listen hist s1 i a c Hg Hl1 Hip eq_refl E) as [Hl2 Hput].
  set (s2 := mkSystem (p_state s1) c (w_state s1) None (Some a) (stream s1)) in Hl2.
  destruct (on_ack i a true (p_state s2)) as [ts p'] eqn:Eack.
  destruct (live_answered _ _ _ _ _ _ Hl2 eq_refl Hip Eack) as (Hl3 & Hc3 & Hq3).
  set (s3 := mkSystem p' (c_state s2) (w_state s2) (control s2) None (stream s2 ++ ts)). change (live hist s3) in Hl3.
  exists s3. split; [|split; [done|]].
  - split; [|done]. apply (reach_step _ Offer s1); [done|by simpl; rewrite Htake|].
    apply (reach_step _ (Listen true true) s2); [done|by cbn [sys_step control s1]; cbn [mbind option_bind]; change (c_state s) with (c_state s1); rewrite E|].
    apply (reach_step _ (Answered true) s3); [done| |apply reach_refl]. cbn [sys_step]. change (answer s2) with (Some a). cbn [mbind option_bind].
    change (current (p_state s2)) with (current p). rewrite Hip. cbn [mbind option_bind]. by rewrite Eack.
  - assert (Hon : entries q (i_request_id i) = []).
    { pose proof (v_count _ _ Hl (i_request_id i)) as Hc. pose proof (sends_once hist (i_request_id i) (proj1 Hg)).
      unfold wait_n in Hc. rewrite Hq in Hc. change (i :: q) with ([i] ++ q) in Hc. rewrite entries_app, entries_one, decide_True, length_app in Hc by done.
      simpl in Hc. destruct (entries q _); [done|simpl in Hc; lia]. }
    change (send_queue (p_state s2)) with (send_queue p) in Hq3. rewrite Hqp in Hq3. simpl. rewrite Hq3.
    destruct Hput as [(-> & -> & Hx)|(-> & Hx)].
    + right. split; [by apply requeue_last|exact Hx].
    + left. split; [done|]. unfold held_n. simpl. rewrite Hx, filter_app, length_app, filter_cons, msg_rid_of, decide_True by done. simpl. lia.
Qed.

(** The queue turns until a payload of the load is admitted. *)
Lemma rotate hist i q1 : ∀ s q2,
  good hist → live hist s → current (p_state s) = None → send_queue (p_state s) = q1 ++ i :: q2 → i_request_id i ∈ ids (pend s) →
  ∃ s', moves hist s s' ∧ current (p_state s') = None ∧ ∃ t, t ∈ ids (pend s) ∧ (0 < held_n s' t)%nat.
Proof.
  induction q1 as [|x q1 IH]; intros s q2 Hg Hl Hcur Hq Hi;
    (destruct (decide (Exists (λ t, (0 < held_n s t)%nat) (ids (pend s)))) as [(t & Ht)%Exists_exists|Hno];
      [exists s; split; [by apply moves_refl|]; split; [done|by exists t]|]);
    (assert (Hp : priority (c_state s) = None) by
      (destruct (priority (c_state s)) as [r|] eqn:E; [|done]; exfalso; apply Hno, Exists_exists; exists r; by apply Hl));
    cbn [app] in Hq; destruct (offer_first _ _ _ _ Hg Hl Hcur Hq) as (s1 & Hm & Hc1 & Hcase).
  - exists s1. split; [done|]. split; [done|]. exists (i_request_id i). split; [done|].
    destruct Hcase as [[_ ?]|[_ [Hne|Hne]]]; [done| |done]. exfalso. apply Hne. by apply Hl.
  - assert (Hq1 : ∃ q2', send_queue (p_state s1) = q1 ++ i :: q2').
    { destruct Hcase as [[-> _]|[-> _]]; [by eexists|]. exists (q2 ++ [x]). by rewrite <- app_assoc. }
    destruct Hq1 as [q2' Hq1]. destruct Hm as (Hr & Hl1 & Hk). assert (Hpd : pend s1 = pend s) by (unfold pend; by destruct Hk as [-> _]).
    destruct (IH s1 q2' Hg Hl1 Hc1 Hq1) as (s' & Hm' & Hc' & t & Ht & Hh); [by rewrite Hpd|].
    exists s'. split; [by eapply moves_trans; [|exact Hm']|]. split; [done|]. exists t. by rewrite Hpd in Ht.
Qed.

Lemma admit_wanted hist s :
  good hist → live hist s → wanted hist s → current (p_state s) = None → pend s ≠ [] →
  ∃ s', moves hist s s' ∧ current (p_state s') = None ∧ ∃ t, t ∈ ids (pend s) ∧ (0 < held_n s' t)%nat.
Proof.
  intros Hg Hl Hw Hcur Hne. assert (Hr : ∃ t, t ∈ ids (pend s)).
  { unfold ids. destruct (pend s) as [|r l]; [done|]. exists (transfer_id r). left. }
  destruct Hr as [t Ht]. pose proof (wanted_line _ _ _ Hl Hw Ht) as Hn.
  destruct (decide (0 < held_n s t)%nat) as [Hh|Hh]; [exists s; split; [by apply moves_refl|]; split; [done|by exists t]|].
  assert (Hin : entries (send_queue (p_state s)) t ≠ []).
  { intros E. unfold wait_n, offered in Hn. rewrite Hcur, E in Hn. simpl in Hn. lia. }
  assert (Hi : ∃ i, i ∈ send_queue (p_state s) ∧ i_request_id i = t).
  { unfold entries in Hin. destruct (filter _ _) as [|i l] eqn:E; [done|]. exists i.
    assert (Hx : i ∈ filter (λ i, i_request_id i = t) (send_queue (p_state s))) by (rewrite E; left).
    by apply list_elem_of_filter in Hx as [? ?]. }
  destruct Hi as (i & (q1 & q2 & Hq)%list_elem_of_split & <-). by eapply rotate.
Qed.

(** One payload of the load is injected. *)
Lemma consume hist s :
  good hist → live hist s → wanted hist s → pend s ≠ [] →
  ∃ s', reach s s' ∧ live hist s' ∧ wanted hist s' ∧ (length (pend s') < length (pend s))%nat ∧
    ∀ t, t ∈ ids (pend s) ∨ loads s t ≠ [] → t ∈ ids (pend s') ∨ loads s' t ≠ [].
Proof.
  intros Hg Hl Hw Hne. destruct (settle _ _ Hg Hl) as (s1 & (Hr1 & Hl1 & Hk1) & Hc1).
  assert (Hp1 : pend s1 = pend s) by (unfold pend; by destruct Hk1 as [-> _]).
  destruct (admit_wanted hist s1) as (s2 & (Hr2 & Hl2 & Hk2) & Hc2 & t & Ht & Hh); try done;
    [by eapply keeps_wanted|by rewrite Hp1|].
  destruct (retire_all _ _ Hl2 Hc2) as (s3 & (Hr3 & Hl3 & Hk3) & Hnil & _ & Hh3).
  assert (Hk : keeps s s3) by (destruct Hk1, Hk2, Hk3; split; congruence).
  assert (Hp3 : pending (w_state s3) = Some (pend s)).
  { destruct Hk as [-> _]. unfold pend in *. by destruct (pending (w_state s)). }
  destruct (live_turn hist s3 _ Hg Hl3 Hp3) as (Hl4 & _ & Hcase). set (s4 := with_worker _ _) in *.
  assert (Hr4 : reach s s4).
  { eapply reach_trans; [exact Hr1|]. eapply reach_trans; [exact Hr2|]. eapply reach_trans; [exact Hr3|].
    apply (reach_step _ Turn s4); [done|by simpl; rewrite Hp3|apply reach_refl]. }
  destruct Hcase as [(_ & _ & Hidle)|(r & Hperm & Hlr & Hlo)].
  - exfalso. rewrite Hp1 in Ht. unfold ids in Ht. apply list_elem_of_fmap in Ht as (r & -> & Hr).
    destruct (Hidle r Hr) as [E1 E2]. rewrite <- Hh3 in Hh. unfold held_n in Hh. rewrite Hnil, E1, E2 in Hh. simpl in Hh. lia.
  - exists s4. split; [done|]. split; [done|]. pose proof (v_ids _ _ Hl) as Hnd. rewrite Hperm in Hnd. apply NoDup_cons in Hnd as [Hnr _].
    assert (Hne' : ∀ t', t' ∈ ids (pend s4) → t' ≠ transfer_id r) by (intros t' Ht' ->; done).
    split; [|split].
    + intros t' Ht'. rewrite Hlo, (keeps_loads s) by auto. apply Hw. rewrite Hperm. by right.
    + apply Permutation_length in Hperm. unfold ids in Hperm. simpl in Hperm. rewrite !length_fmap in Hperm. lia.
    + intros t' Ht'. destruct (decide (t' = transfer_id r)) as [->|Hd]; [by right|].
      rewrite Hlo, (keeps_loads s) by done. rewrite Hperm in Ht'. set_solver.
Qed.

Lemma load_finishes hist s :
  good hist → live hist s → wanted hist s →
  ∃ s', reach s s' ∧ live hist s' ∧ pending (w_state s') = None ∧ ∀ t, t ∈ ids (pend s) ∨ loads s t ≠ [] → loads s' t ≠ [].
Proof.
  intros Hg. remember (length (pend s)) as k eqn:Ek. revert s Ek. induction (lt_wf k) as [k _ IH]. intros s -> Hl Hw.
  destruct (pend s) as [|r l] eqn:Ep.
  - exists s. split; [apply reach_refl|]. split; [done|]. split; [|intros t [Ht|?]; [by apply elem_of_nil in Ht|done]].
    unfold pend in Ep. pose proof (v_pending _ _ Hl) as Hn. destruct (pending (w_state s)); [simpl in Ep; by subst|done].
  - rewrite <- Ep in *. destruct (consume _ _ Hg Hl Hw) as (s1 & Hr1 & Hl1 & Hw1 & Hlt & Hmono); [by rewrite Ep|].
    destruct (IH _ Hlt s1 eq_refl Hl1 Hw1) as (s' & Hr & Hl' & Hp & Hdone). exists s'. split; [by eapply reach_trans|].
    split; [done|]. split; [done|]. intros t Ht. by apply Hdone, Hmono.
Qed.

End live.
