(* ===== verification/V1ConnProps.v ===== *)
(** * The v1 connector and its transport: properties

    What the producer and the consumer guarantee together, each with an
    execution it applies to. *)

From S2P Require Import Prelude PyData Wire WireThms V1Transport V1Conn V1ConnThms V1ConnSafe V1ConnLive.
Import V1Conn.Worker V1Conn.Sched.

(** ** Order, content and credits *)

Section props.
Context `{D : !Dtypes} (repr : obj → string) (compressor : option (CompressedKVData → option tensor)).

Notation run n es := (sys_run repr compressor (init_system n) es).

(** C39 What is injected into the KV cache for a transfer is what was sent for
    it: the loads of the transfer are the unpacked payloads of some of its
    sends, in the order they were sent, whatever buffers run out of memory,
    posted receives complete with an error, payloads are refused or loads time
    out; provided that nothing raises while a granted payload is submitted to
    NCCL on either side ([calm]), after which the streams of the two sides no
    longer match ([posting_failure_misaligns]). *)
Theorem payloads_in_order n es s t :
  Forall calm es → run n es = Some s →
  ∃ l, Forall2 (unpacked repr compressor) l (loads s t) ∧ sublist l (sends (es ≫= sent_by) t).
Proof.
  intros Hc Hr. destruct (run_flow _ _ _ _ _ _ _ (flow_init repr compressor n) Hc Hr) as [A Hf].
  destruct (f_line _ _ _ _ _ Hf t) as (l & Hl & Hs). exists l. split; [done|]. etrans; [|exact Hs]. by apply sublist_inserts_r.
Qed.

(** The staging credit is what the consumer holds: the bytes of the
    receives posted, of the payloads received and of those the worker took
    over, so nothing is reserved once all are gone. *)
Theorem credits_exact n es s :
  Forall calm es → run n es = Some s →
  reserved (c_state s) = sumZ (msg_nbytes <$> recv_completions (c_state s)) + inbox_bytes (received (c_state s))
                         + inbox_bytes (worker_received (w_state s)).
Proof.
  intros Hc Hr. destruct (run_flow _ _ _ _ _ _ _ (flow_init repr compressor n) Hc Hr) as [A Hf].
  rewrite (f_recv _ _ _ _ _ Hf), (f_credit _ _ _ _ _ Hf), <- list_fmap_compose. do 3 f_equal. apply list_fmap_ext.
  intros i x _. simpl. by rewrite msg_nbytes_of.
Qed.

(** C38 The staging memory is bounded: with transfer ids used once and payloads
    of at most [B] bytes, the bytes granted never exceed the capacity, or [B]
    where that is more, by more than [B], whatever the order of sends, loads,
    refusals, failed allocations and failed receives; provided that nothing
    raises while a granted payload is submitted to NCCL ([calm]), which would
    keep its credit ([posting_failure_leaks]). *)
Theorem staging_bounded n es s B :
  Forall calm es → once (es ≫= sent_by) → Forall (λ x, payload_nbytes x.2.2 ≤ B) (es ≫= sent_by) → 0 ≤ B →
  run n es = Some s → reserved (c_state s) ≤ Z.max (Z.max 1 n) B + B.
Proof.
  intros Hc Ho HB H0 Hr. set (M := Z.max (Z.max 1 n) B).
  destruct (run_flow _ _ _ _ _ _ _ (flow_init repr compressor n) Hc Hr) as [A Hf]. rewrite app_nil_l in Hf.
  assert (Hb : bounded M s).
  { apply (bounded_run repr compressor M [] [] (init_system n) es); [apply flow_init|done| |unfold M; lia|unfold M; simpl; lia|done|exact Hr|].
    - eapply Forall_impl; [exact HB|]. intros x Hx. unfold M. simpl in *. lia.
    - unfold bounded, M. simpl. lia. }
  unfold bounded in Hb. destruct (priority (c_state s)) as [r|]; simpl in Hb; [|lia].
  pose proof (held_bounded _ _ _ _ _ r B Hf Ho HB H0). lia.
Qed.

(** ** What the producer counts *)

Definition counted (p : producer) : Prop :=
  send_pending_bytes p = sumZ (i_payload_bytes <$> send_queue p) + from_option i_payload_bytes 0 (current p) + sumZ (send_completions p) ∧
  send_inflight p = (match current p with Some _ => 1 | None => 0 end) + zlen (send_completions p).

Lemma sumZ_requeue i q : sumZ (i_payload_bytes <$> requeue i q) = i_payload_bytes i + sumZ (i_payload_bytes <$> q).
Proof. induction q as [|x q IH]; simpl; [lia|]. case_bool_decide; csimpl; [lia|]. rewrite IH. lia. Qed.

Lemma counted_step s e s' : counted (p_state s) → sys_step repr compressor s e = Some s' → counted (p_state s').
Proof.
  unfold counted. intros [Hb Hn]. destruct e as [|rid names p| |alloc post|ok| |ok|reqs| |]; simpl.
  - by intros [= <-].
  - intros [= <-]. simpl. rewrite fmap_app, sumZ_app. csimpl. lia.
  - intros ([i p] & Hp & [= <-])%bind_Some. unfold take_item in Hp. destruct (current (p_state s)); [done|].
    destruct (send_queue (p_state s)) as [|j q]; [done|]. injection Hp as <- <-. csimpl in *. lia.
  - intros (m & _ & H)%bind_Some. destruct (on_put _ _ _ _). by injection H as <-.
  - intros (a & _ & (i & Hi & H)%bind_Some)%bind_Some. rewrite Hi in *. destruct (on_ack i a ok (p_state s)) as [ts p] eqn:E.
    injection H as <-. simpl in *. destruct a; [destruct ok|..]; injection E as <- <-; simpl;
      rewrite ?sumZ_requeue, ?sumZ_app; unfold zlen; rewrite ?length_app; simpl; unfold zlen in Hn; lia.
  - intros (p & Hp & [= <-])%bind_Some. unfold retire_send in Hp. destruct (send_completions (p_state s)) as [|m q]; [done|].
    injection Hp as <-. simpl in *. unfold zlen in *. simpl in Hn. lia.
  - intros ([l c] & _ & [= <-])%bind_Some. done.
  - destruct (pending (w_state s)); [done|]. by intros [= <-].
  - by intros (l & _ & [= <-])%bind_Some.
  - by intros (l & _ & (x & _ & [= <-])%bind_Some)%bind_Some.
Qed.

(** C1 The producer's counters are exact in every execution, failures
    included: the pending bytes, which bound how far the model may run ahead,
    are those queued, being offered, and submitted but not retired, and
    [wait_for_sent] waits for exactly these. *)
Theorem pending_exact n es s :
  run n es = Some s →
  let p := p_state s in
  send_pending_bytes p = sumZ (i_payload_bytes <$> send_queue p) + from_option i_payload_bytes 0 (current p) + sumZ (send_completions p) ∧
  (all_sent p = true ↔ send_queue p = [] ∧ current p = None ∧ send_completions p = []).
Proof.
  intros Hr. assert (Hc : counted (p_state s)).
  { assert (H0 : counted (p_state (init_system n))) by done. revert H0 Hr. generalize (init_system n). induction es as [|e es IH]; intros s0 H0; simpl.
    - by intros [= <-].
    - intros (s1 & H1 & H)%bind_Some. eapply IH; [|exact H]. by eapply counted_step. }
  destruct Hc as [Hb Hn]. split; [exact Hb|]. unfold all_sent. rewrite andb_true_iff, bool_decide_eq_true, Z.eqb_eq, Hn. unfold zlen.
  destruct (current (p_state s)), (send_completions (p_state s)); simpl; split; intros H; destruct_and?; split_and?; try done; try lia.
Qed.

(** ** A load completes *)

(** C37 Where nothing fails, every transfer id is sent once, with a non-empty
    payload that can be unpacked, and the ranks are connected, a load whose
    transfers were sent and not loaded before completes by the steps of the transport's threads and of its own
    loop alone: whatever is queued before its payloads and however full the
    staging memory is, they are admitted, received and injected once each, as
    they were sent. *)
Theorem load_completes n es s l :
  once (es ≫= sent_by) → Forall (λ x : string * entry, 0 < payload_nbytes x.2.2 ∧ ∃ y, unpacked repr compressor x.2 y) (es ≫= sent_by) →
  Forall smooth es → run n (Init :: es) = Some s → pending (w_state s) = Some l →
  (∀ r, r ∈ l → sends (es ≫= sent_by) (transfer_id r) ≠ [] ∧ loads s (transfer_id r) = []) →
  ∃ es' s', Forall thread es' ∧ sys_run repr compressor s es' = Some s' ∧ pending (w_state s') = None ∧ raised (w_state s') = [] ∧
    ∀ r, r ∈ l → ∃ e x, (transfer_id r, e) ∈ es ≫= sent_by ∧ unpacked repr compressor e x ∧ loads s' (transfer_id r) = [x].
Proof.
  intros Ho Hu Hs Hr Hp Hl. assert (Hg : good repr compressor ([] ++ (es ≫= sent_by))) by done.
  pose proof (live_run _ _ _ _ _ _ Hg (conn_live_init repr compressor n) Hs Hr) as Hlive.
  destruct (load_finishes repr compressor _ s Hg Hlive) as (s' & (es' & Hes & Hr') & Hlive' & Hp' & Hdone).
  { intros t Ht. unfold pend in Ht. rewrite Hp in Ht. apply list_elem_of_fmap in Ht as (r & -> & Hin). destruct (Hl r Hin). by split. }
  exists es', s'. split; [done|]. split; [done|]. split; [done|]. split; [apply Hlive'|]. intros r Hin.
  assert (Hne : loads s' (transfer_id r) ≠ []).
  { apply Hdone. left. unfold pend. rewrite Hp. by apply list_elem_of_fmap_2. }
  destruct (v_flow _ _ _ _ Hlive') as [A Hf]. destruct (f_line _ _ _ _ _ Hf (transfer_id r)) as (le & Hle & Hsub).
  apply sublist_length in Hsub as Hlen. rewrite length_app in Hlen. pose proof (sends_once _ (transfer_id r) Ho) as H1.
  simpl in *. destruct Hle as [|e x le lx Hex Hle]; [done|]. apply Forall2_length in Hle.
  simpl in Hlen. destruct lx; [|simpl in Hle; lia]. exists e, x. split; [|done].
  assert (Hse : e ∈ sends (es ≫= sent_by) (transfer_id r)) by (eapply elem_of_sublist; [|exact Hsub]; left).
  unfold sends in Hse. apply list_elem_of_fmap in Hse as ([q y] & -> & [E Hy]%list_elem_of_filter). simpl in *. by subst.
Qed.

End props.

(** ** A concrete execution *)

#[local] Existing Instance ex_dtypes.

Definition ex_payload (b : Z) : payload := Raw (mkTensor [4] "uint8" [b; b; b; b]).

Definition ex_req (t : string) : ReqMeta := mkReqMeta t t [] [] [].

(** Two payloads of four bytes, of which the second is loaded; the staging
    memory holds one. *)
Definition ex_sends : list event := [Send "a" ["l0"] (ex_payload 1); Send "b" ["l0"] (ex_payload 2); StartLoad [ex_req "b"]].

Definition ex_transfer : list event := [Offer; Listen true true; Answered true; RecvRetired true].

Notation ex_run es := (sys_run (λ _, ""%string) None (init_system 4) es).

Definition ex_state (es : list event) : system := default (init_system 4) (ex_run es).

Lemma ex_sends_smooth : Forall smooth ex_sends.
Proof.
  assert (Hok : ∀ b, payload_ok (ex_payload b)).
  { intros b. apply Forall_singleton. split; [by eexists| |reflexivity]. apply Forall_singleton. lia. }
  apply Forall_cons; split; [split; [apply Hok|done]|]. apply Forall_cons; split; [split; [apply Hok|done]|].
  apply Forall_singleton. split; [done|]. apply NoDup_singleton.
Qed.

Lemma ex_transfer_smooth : Forall smooth ex_transfer.
Proof. repeat constructor. Qed.

Lemma smooth_calm es : Forall smooth es → Forall calm es.
Proof. intros He. eapply Forall_impl; [exact He|]. by intros e []. Qed.

Lemma ex_once : once (ex_sends ≫= sent_by).
Proof. unfold once. simpl. apply NoDup_cons. split; [by rewrite list_elem_of_singleton|apply NoDup_singleton]. Qed.

Lemma payloads_in_order_witness :
  let s := ex_state (Init :: ex_sends ++ ex_transfer ++ ex_transfer ++ [Turn]) in
  loads s "b" = [(["l0"], mkTensor [4] "uint8" [2; 2; 2; 2])] ∧
  ∃ l, Forall2 (unpacked (λ _, ""%string) None) l (loads s "b") ∧
    sublist l (sends ((Init :: ex_sends ++ ex_transfer ++ ex_transfer ++ [Turn]) ≫= sent_by) "b").
Proof.
  split; [vm_compute; reflexivity|]. apply (payloads_in_order _ _ 4).
  - apply smooth_calm. apply Forall_cons. split; [done|]. rewrite !Forall_app. split_and!; [apply ex_sends_smooth|apply ex_transfer_smooth..|by repeat constructor].
  - vm_compute. reflexivity.
Defined.

Lemma credits_exact_witness :
  let s := ex_state (Init :: ex_sends ++ ex_transfer ++ ex_transfer) in
  reserved (c_state s) = 8 ∧
  reserved (c_state s) = sumZ (msg_nbytes <$> recv_completions (c_state s)) + inbox_bytes (received (c_state s))
                         + inbox_bytes (worker_received (w_state s)).
Proof.
  split; [vm_compute; reflexivity|]. apply (credits_exact (λ _, ""%string) None 4 (Init :: ex_sends ++ ex_transfer ++ ex_transfer)).
  - apply smooth_calm. apply Forall_cons. split; [done|]. rewrite !Forall_app. split_and!; [apply ex_sends_smooth|apply ex_transfer_smooth..].
  - vm_compute. reflexivity.
Defined.

Lemma staging_bounded_witness :
  let s := ex_state (Init :: ex_sends ++ ex_transfer ++ ex_transfer) in
  reserved (c_state s) = 8 ∧ reserved (c_state s) ≤ Z.max (Z.max 1 4) 4 + 4.
Proof.
  split; [vm_compute; reflexivity|]. apply (staging_bounded (λ _, ""%string) None 4 (Init :: ex_sends ++ ex_transfer ++ ex_transfer)).
  - apply smooth_calm. apply Forall_cons. split; [done|]. rewrite !Forall_app. split_and!; [apply ex_sends_smooth|apply ex_transfer_smooth..].
  - exact ex_once.
  - apply Forall_cons. split; [vm_compute; discriminate|]. apply Forall_singleton. vm_compute. discriminate.
  - lia.
  - vm_compute. reflexivity.
Defined.

Lemma pending_exact_witness :
  let p := p_state (ex_state (Init :: ex_sends ++ [Offer])) in
  send_pending_bytes p = 8 ∧
  send_pending_bytes p = sumZ (i_payload_bytes <$> send_queue p) + from_option i_payload_bytes 0 (current p) + sumZ (send_completions p) ∧
  (all_sent p = true ↔ send_queue p = [] ∧ current p = None ∧ send_completions p = []).
Proof.
  split; [vm_compute; reflexivity|]. apply (pending_exact (λ _, ""%string) None 4 (Init :: ex_sends ++ [Offer])). vm_compute. reflexivity.
Defined.

(** The first payload fills the staging memory and is not asked for. *)
Lemma load_completes_witness :
  let s := ex_state (Init :: ex_sends ++ ex_transfer) in
  reserved (c_state s) = capacity (c_state s) ∧
  ∃ es' s', Forall thread es' ∧ sys_run (λ _, ""%string) None s es' = Some s' ∧ pending (w_state s') = None ∧ raised (w_state s') = [] ∧
    ∀ r, r ∈ [ex_req "b"] → ∃ e x, (transfer_id r, e) ∈ (ex_sends ++ ex_transfer) ≫= sent_by ∧ unpacked (λ _, ""%string) None e x ∧ loads s' (transfer_id r) = [x].
Proof.
  split; [vm_compute; reflexivity|]. apply (load_completes (λ _, ""%string) None 4 (ex_sends ++ ex_transfer)).
  - exact ex_once.
  - apply Forall_cons. split; [split; [reflexivity|by eexists]|]. apply Forall_singleton. split; [reflexivity|by eexists].
  - rewrite Forall_app. split; [apply ex_sends_smooth|apply ex_transfer_smooth].
  - vm_compute. reflexivity.
  - vm_compute. reflexivity.
  - intros r ->%list_elem_of_singleton. split; [discriminate|vm_compute; reflexivity].
Defined.

(** ** What the retry queue does not promise *)

(** Two payloads of "a" wait before one of "b", and "b" is to be loaded; the
    staging memory is full. *)
Definition ex_starved : list event :=
  [Init; Send "x" ["l0"] (ex_payload 0)] ++ ex_transfer ++ [SendRetired; Send "a" ["l0"] (ex_payload 1); Send "a" ["l1"] (ex_payload 2);
   Send "b" ["l0"] (ex_payload 3); StartLoad [ex_req "b"]].

(** What the threads and the loop may do before the deadline, failures
    included. *)
Definition before_deadline (e : event) : Prop := match e with Send _ _ _ | StartLoad _ | Deadline => False | _ => True end.

Definition starved (es : list event) : system := ex_state (ex_starved ++ es).

Definition starving (s : system) : Prop := s = starved [] ∨ s = starved [Offer] ∨ s = starved [Offer; Listen true true].

Lemma starved_step s e s' :
  starving s → before_deadline e → sys_step (λ _, ""%string) None s e = Some s' → starving s'.
Proof.
  intros Hs He Hstep. assert (Hs' : Some s' = Some (starved []) ∨ Some s' = Some (starved [Offer]) ∨ Some s' = Some (starved [Offer; Listen true true])).
  { destruct Hs as [->|[->| ->]]; destruct e as [| | |[] []|[]| |[]| | |]; try (exfalso; exact He);
      first [vm_compute in Hstep; discriminate Hstep|rewrite <- Hstep; clear Hstep s';
             first [left; vm_compute; reflexivity|right; left; vm_compute; reflexivity|right; right; vm_compute; reflexivity]]. }
  destruct Hs' as [E|[E|E]]; apply (inj Some) in E; [left|right; left|right; right]; exact E.
Qed.

(** C40 A refused payload goes before the next one of its transfer, so a
    transfer with two payloads waiting is not rotated: here the payload the
    running load waits for is admitted by no execution of the threads before
    the deadline, although it would be granted if it were offered. *)
Theorem retry_starves es s :
  Forall before_deadline es → sys_run (λ _, ""%string) None (init_system 4) (ex_starved ++ es) = Some s →
  pending (w_state s) = Some [ex_req "b"] ∧ loads s "b" = [] ∧
  ∀ i, i ∈ send_queue (p_state s) → i_request_id i = "b"%string → ∃ c, on_put (msg_of i) true true (c_state s) = (AckOk, c).
Proof.
  intros He Hr. assert (Hs : starving s).
  { rewrite sys_run_app in Hr. apply bind_Some in Hr as (s0 & H0 & Hr). assert (Hs0 : starving s0).
    { left. unfold starved, ex_state. by rewrite app_nil_r, H0. }
    clear H0. revert s0 Hs0 Hr. induction He as [|e es He _ IH]; intros s0 Hs0; simpl; [by intros [= <-]|].
    intros (s1 & H1 & Hr)%bind_Some. eapply IH; [|exact Hr]. by eapply starved_step. }
  assert (Hall : forallb (λ i, implb (bool_decide (i_request_id i = "b"%string))
      (match (on_put (msg_of i) true true (c_state s)).1 with AckOk => true | _ => false end)) (send_queue (p_state s)) = true)
    by (destruct Hs as [->|[->| ->]]; vm_compute; reflexivity).
  split; [destruct Hs as [->|[->| ->]]; vm_compute; reflexivity|]. split; [destruct Hs as [->|[->| ->]]; vm_compute; reflexivity|].
  intros i Hi Hb. eapply forallb_forall in Hall; [|by apply list_elem_of_In]. rewrite bool_decide_true in Hall by done.
  destruct (on_put _ _ _ _) as [[] c]; [by eexists|discriminate Hall..].
Qed.

Definition ex_rounds : list event := [Offer; Listen true true; Answered true; Offer; Listen true true; Answered true; Turn].

Lemma retry_starves_witness :
  let s := starved ex_rounds in
  (i_request_id <$> send_queue (p_state s)) = ["a"; "a"; "b"]%string ∧ pending (w_state s) = Some [ex_req "b"] ∧ loads s "b" = [] ∧
  ∀ i, i ∈ send_queue (p_state s) → i_request_id i = "b"%string → ∃ c, on_put (msg_of i) true true (c_state s) = (AckOk, c).
Proof.
  split; [vm_compute; reflexivity|]. refine (retry_starves ex_rounds (starved ex_rounds) _ _).
  - repeat constructor.
  - unfold starved, ex_state. vm_compute. reflexivity.
Defined.

(** A payload that was granted and whose receives cannot be posted keeps its
    credit, and the loader is not told. *)
Lemma posting_failure_leaks `{D : !Dtypes} m c a c' :
  on_put m true false c = (a, c') → a = AckOk →
  reserved c' = reserved c + msg_nbytes m ∧ recv_completions c' = recv_completions c ∧ received c' = received c.
Proof.
  unfold on_put. destruct (comm c); simpl; [|by intros [= <- <-]]. destruct (reserve_received _ _ _) as [c1|] eqn:E; [|by intros [= <- <-]].
  apply reserve_grant in E as (pr & _ & ->). by intros [= <- <-].
Qed.

(** Where the receives of "a" cannot be posted, the producer still sends "a",
    and the next receive, posted for "b", takes its bytes: "b" is loaded with
    what was sent for "a". *)
Lemma posting_failure_misaligns :
  let s := ex_state (Init :: ex_sends ++ [Offer; Listen true false; Answered true] ++ ex_transfer ++ [Turn]) in
  loads s "b" = [(["l0"%string], mkTensor [4] "uint8" [1; 1; 1; 1])] ∧ raised (w_state s) = [].
Proof. split; vm_compute; reflexivity. Qed.
