(* ===== verification/V1SchedThms.v ===== *)
(** * The scheduler side of the v1 connector: which transfers a step carries

    A prompt that is prefilled in chunks is sent once, when it is complete,
    with the blocks of all its chunks; a load is handed to the worker once, in
    the step that schedules its request; requests do not interfere. *)

From S2P Require Import Prelude PyData Wire V1Transport V1Conn.
Import V1Conn.Sched.

(** ** Slots *)

(** Each token has the slot of its place in its block. *)
Lemma make_slot_mapping_spec token_ids block_ids block_size :
  0 < block_size → zlen token_ids ≤ zlen block_ids * block_size →
  length (make_slot_mapping token_ids block_ids block_size) = length token_ids ∧
  ∀ i, 0 ≤ i < zlen token_ids →
    make_slot_mapping token_ids block_ids block_size !! Z.to_nat i
    = (λ b, b * block_size + i mod block_size) <$> block_ids !! Z.to_nat (i / block_size).
Proof.
  intros Hb Hn. unfold make_slot_mapping, zlen in *. set (f := λ b, (λ o, b * block_size + o) <$> seqZ 0 block_size).
  assert (Hf : ∀ b, length (f b) = Z.to_nat block_size) by (intros b; unfold f; by rewrite length_fmap, length_seqZ).
  assert (Hlen : length (block_ids ≫= f) = (length block_ids * Z.to_nat block_size)%nat).
  { clear Hn. induction block_ids as [|b l IH]; [done|]. csimpl. rewrite length_app, Hf, IH. lia. }
  split; [rewrite length_take, Hlen; nia|]. intros i Hi. rewrite lookup_take_lt by lia. destruct Hi as [H0 _].
  clear Hn Hlen token_ids. revert i H0. induction block_ids as [|b l IH]; intros i H0; [by rewrite !lookup_nil|]. csimpl.
  destruct (decide (i < block_size)) as [Hlt|Hge].
  - rewrite lookup_app_l by (rewrite Hf; lia). unfold f. rewrite list_lookup_fmap, lookup_seqZ_lt by lia.
    rewrite Z.div_small, Z.mod_small by lia. simpl. f_equal. lia.
  - rewrite lookup_app_r by (rewrite Hf; lia). rewrite Hf.
    replace (Z.to_nat i - Z.to_nat block_size)%nat with (Z.to_nat (i - block_size)) by lia. rewrite IH by lia.
    assert (E1 : (i - block_size) mod block_size = i mod block_size).
    { rewrite <- (Z.mod_add (i - block_size) 1) by lia. f_equal. lia. }
    assert (E2 : i / block_size = (i - block_size) / block_size + 1) by (rewrite <- Z.div_add by lia; f_equal; lia).
    rewrite E1, E2, Z2Nat.inj_add by (try apply Z.div_pos; lia). change (Z.to_nat 1) with 1%nat. by rewrite Nat.add_1_r.
Qed.

(** ** A step, request by request *)

(** The entries of a step are folded one after the other; what an entry leaves
    alone of another request stays. *)
Lemma fold_keyed {A B S} (f : S → A → result S) (key : A → string) (P : S → B) id l s s' :
  (∀ s a s', f s a = Ok s' → key a ≠ id → P s' = P s) → rfold f s l = Ok s' → NoDup (key <$> l) →
  (id ∉ key <$> l → P s' = P s) ∧
  ∀ a, a ∈ l → key a = id → ∃ s1 s2, f s1 a = Ok s2 ∧ P s1 = P s ∧ P s' = P s2.
Proof.
  intros Hf. revert s. induction l as [|x l IH]; intros s Hr Hnd; simpl in Hr.
  - injection Hr as ->. split; [done|]. intros a Ha. by apply elem_of_nil in Ha.
  - apply rbind_Ok in Hr as (s1 & H1 & Hr). csimpl in *. apply NoDup_cons in Hnd as [Hx Hnd].
    destruct (IH s1 Hr Hnd) as [Hout Hin]. split.
    + intros [Hne Hni]%not_elem_of_cons. rewrite Hout by done. by eapply Hf.
    + intros a [->|Ha]%elem_of_cons Hk.
      * exists s, s1. subst id. split_and!; auto.
      * destruct (Hin a Ha Hk) as (s2 & s3 & H2 & H3 & H4). exists s2, s3. split_and!; auto. rewrite H3. eapply Hf; [exact H1|].
        intros Hc. apply Hx. rewrite Hc, <- Hk. by apply list_elem_of_fmap_2.
Qed.

Definition metas (id : string) (m : list ReqMeta) : list ReqMeta := filter (λ x, request_id x = id) m.

Lemma metas_add id bs rid tid tokens blocks m :
  metas id (add_request bs rid tid tokens blocks m)
  = metas id m ++ (if decide (rid = id) then [mkReqMeta rid tid tokens blocks (make_slot_mapping tokens blocks bs)] else []).
Proof. unfold metas, add_request. rewrite filter_app, filter_cons. simpl. by destruct (decide (rid = id)). Qed.

(** What a step does of one request. *)
Definition mine (id : string) (acc : sched * list ReqMeta) : option (list Z * list Z) * option (nat * list Z) * option string * list ReqMeta :=
  (dget (chunked_prefill acc.1) id, dget (requests_need_load acc.1) id, dget (request_transfer_ids acc.1) id, metas id acc.2).

Inductive view := Absent | New (n : new_req) | Cached (e : cached_req).

Definition find_new (l : list new_req) (id : string) : option new_req := list_find (λ n, n_req_id n = id) l ≫= λ x, Some x.2.

Section sched.
Context (bs : Z) (h : nat → request).

Lemma new_request_other p o acc n acc' id : new_request p bs o acc n = Ok acc' → n_req_id n ≠ id → mine id acc' = mine id acc.
Proof.
  destruct acc as [s m]. unfold new_request, mine. intros H Hne. destruct p.
  - apply rbind_Ok in H as (k & _ & H). apply rbind_Ok in H as (b & _ & H). destruct (_ <? _); injection H as <-; simpl.
    + by rewrite dget_dset_ne.
    + by rewrite metas_add, decide_False, app_nil_r.
  - destruct (dget _ _) as [x|]; [|by injection H as <-]. apply rbind_Ok in H as (b & _ & H). injection H as <-. simpl.
    by rewrite metas_add, decide_False, app_nil_r, dget_ddel_ne.
Qed.

Lemma next_chunk_other o acc e acc' id : next_chunk bs o acc e = Ok acc' → c_req_id e ≠ id → mine id acc' = mine id acc.
Proof.
  destruct acc as [s m]. unfold next_chunk, mine. intros H Hne. apply rbind_Ok in H as (k & _ & H). apply rbind_Ok in H as ([b p] & _ & H).
  apply rbind_Ok in H as (nw & _ & H). apply rbind_Ok in H as (bl & _ & H). destruct (_ <? _); injection H as <-; simpl.
  - by rewrite dget_dset_ne.
  - by rewrite metas_add, decide_False, app_nil_r, dget_ddel_ne.
Qed.

Lemma resumed_load_other acc e acc' id : resumed_load bs h acc e = Ok acc' → c_req_id e ≠ id → mine id acc' = mine id acc.
Proof.
  destruct acc as [s m]. unfold resumed_load, mine. intros H Hne. destruct (dget _ _) as [[r x]|]; [|by injection H as <-].
  apply rbind_Ok in H as (nw & _ & H). apply rbind_Ok in H as (b & _ & H). injection H as <-. simpl.
  rewrite metas_add, decide_False, app_nil_r by done. unfold note_transfer_id. destruct (kv_transfer_id (h r)) as [t|]; [|by simpl; rewrite dget_ddel_ne].
  case_bool_decide; simpl; by rewrite ?dget_dset_ne, dget_ddel_ne.
Qed.

Lemma cached_producer o acc l : cached_requests true bs h o acc l = rfold (next_chunk bs o) acc l.
Proof. revert acc. induction l as [|e l IH]; intros acc; simpl; [done|]. destruct (next_chunk bs o acc e); [apply IH|done]. Qed.

(** The requests that have resumed come first. *)
Lemma cached_consumer o acc l1 l2 :
  Forall (λ e, c_resumed e = true) l1 → Forall (λ e, c_resumed e = false) l2 →
  cached_requests false bs h o acc (l1 ++ l2) = rfold (resumed_load bs h) acc l1.
Proof.
  intros H1 H2. revert acc. induction H1 as [|e l1 He _ IH]; intros acc; simpl.
  - destruct H2 as [|e l2 He _]; simpl; [done|]. by rewrite He.
  - rewrite He. simpl. destruct (resumed_load bs h acc e); [apply IH|done].
Qed.

(** ** Chunked prefill *)

Definition view_of (o : scheduler_output) (id : string) : view :=
  match list_find (λ n, n_req_id n = id) (scheduled_new_reqs o) with
  | Some (_, n) => New n
  | None => match list_find (λ e, c_req_id e = id) (scheduled_cached_reqs o) with Some (_, e) => Cached e | None => Absent end
  end.

(** A request is in a step once. *)
Definition distinct (o : scheduler_output) : Prop :=
  NoDup ((n_req_id <$> scheduled_new_reqs o) ++ (c_req_id <$> scheduled_cached_reqs o)).

#[global] Instance distinct_dec o : Decision (distinct o).
Proof. unfold distinct. apply _. Defined.

Lemma list_find_key {A} (key : A → string) (l : list A) id :
  match list_find (λ a, key a = id) l with
  | Some (_, a) => a ∈ l ∧ key a = id
  | None => id ∉ key <$> l
  end.
Proof.
  destruct (list_find _ l) as [[i a]|] eqn:E.
  - apply list_find_Some in E as (Hl & Hk & _). split; [by eapply list_elem_of_lookup_2|done].
  - apply list_find_None in E. intros (a & -> & Ha)%list_elem_of_fmap. by eapply Forall_forall in E; [|exact Ha].
Qed.

Lemma view_of_spec o id :
  distinct o →
  match view_of o id with
  | New n => n ∈ scheduled_new_reqs o ∧ n_req_id n = id ∧ id ∉ c_req_id <$> scheduled_cached_reqs o
  | Cached e => e ∈ scheduled_cached_reqs o ∧ c_req_id e = id ∧ id ∉ n_req_id <$> scheduled_new_reqs o
  | Absent => id ∉ n_req_id <$> scheduled_new_reqs o ∧ id ∉ c_req_id <$> scheduled_cached_reqs o
  end.
Proof.
  intros Hd. unfold view_of. pose proof (list_find_key n_req_id (scheduled_new_reqs o) id) as Hn.
  pose proof (list_find_key c_req_id (scheduled_cached_reqs o) id) as Hc.
  destruct (list_find _ (scheduled_new_reqs o)) as [[i n]|].
  - destruct Hn as [Hin Hk]. split_and!; try done. intros Hx. apply NoDup_app in Hd as (_ & Hd & _). apply (Hd id); [|done].
    subst id. by apply list_elem_of_fmap_2.
  - destruct (list_find _ (scheduled_cached_reqs o)) as [[i e]|]; [by destruct Hc|done].
Qed.

Definition scheduled (o : scheduler_output) (id : string) (v : view) : Z :=
  default 0 (dget (num_scheduled_tokens o) id)
  + match v with Absent => 0 | New n => n_num_computed_tokens n | Cached e => c_num_computed_tokens e end.

Definition blocks_of (v : view) : list Z :=
  default [] (match v with Absent => None | New n => head (n_block_ids n) | Cached e => c_new_block_ids e ≫= head end).

(** The blocks of the chunks so far; a resumed request has new ones. *)
Definition gather (before : list Z) (v : view) : list Z :=
  match v with
  | Absent => before
  | New _ => blocks_of v
  | Cached e => if c_resumed e then blocks_of v else before ++ blocks_of v
  end.

Definition sent_meta (id : string) (s : sched) (prompt blocks : list Z) : ReqMeta :=
  mkReqMeta id (resolved id s) prompt blocks (make_slot_mapping prompt blocks bs).

Lemma py_index_0 {A} (l : list A) x : py_index l 0 = Ok x → head l = Some x.
Proof. destruct l; [done|]. unfold py_index. simpl. by intros [= ->]. Qed.

(** One step of a producer. *)
Lemma producer_step o s s' m id :
  build_connector_meta true bs h o s = Ok (s', m) → distinct o →
  resolved id s' = resolved id s ∧
  match view_of o id with
  | Absent => dget (chunked_prefill s') id = dget (chunked_prefill s) id ∧ metas id m = []
  | New n =>
      let v := New n in let prompt := default [] (n_prompt_token_ids n) in
      if scheduled o id v <? zlen prompt
      then dget (chunked_prefill s') id = Some (gather [] v, prompt) ∧ metas id m = []
      else dget (chunked_prefill s') id = dget (chunked_prefill s) id ∧ metas id m = [sent_meta id s prompt (gather [] v)]
  | Cached e =>
      let v := Cached e in
      ∃ before prompt, dget (chunked_prefill s) id = Some (before, prompt) ∧
        if scheduled o id v <? zlen prompt
        then dget (chunked_prefill s') id = Some (gather before v, prompt) ∧ metas id m = []
        else dget (chunked_prefill s') id = None ∧ metas id m = [sent_meta id s prompt (gather before v)]
  end.
Proof.
  intros Hb Hd. unfold build_connector_meta in Hb. apply rbind_Ok in Hb as ([s1 m1] & H1 & H2). rewrite cached_producer in H2.
  pose proof (view_of_spec o id Hd) as Hv. pose proof Hd as Hd'. apply NoDup_app in Hd' as (Hn & _ & Hc).
  destruct (fold_keyed _ n_req_id (mine id) id _ _ _ (λ s a s', new_request_other true o s a s' id) H1 Hn) as [No Ni].
  destruct (fold_keyed _ c_req_id (mine id) id _ _ _ (λ s a s', next_chunk_other o s a s' id) H2 Hc) as [Co Ci].
  assert (E0 : mine id (s, []) = (dget (chunked_prefill s) id, dget (requests_need_load s) id, dget (request_transfer_ids s) id, [])) by done.
  unfold resolved. destruct (view_of o id) as [|n|e].
  - destruct Hv as [Hv1 Hv2]. rewrite (No Hv1), E0 in Co. injection (Co Hv2) as E1 E2 E3 E4. simpl in *. by rewrite E1, E3, E4.
  - destruct Hv as (Hv1 & Hk & Hv2). destruct (Ni n Hv1 Hk) as ([sa ma] & [sb mb] & Hs & Ea & Eb). rewrite Eb in Co.
    injection (Co Hv2) as E1 E2 E3 E4. injection Ea as A1 A2 A3 A4. simpl in *. rewrite E1, E3, E4, Hk in *. clear Co Ci No Ni.
    apply rbind_Ok in Hs as (k & Hk' & Hs). destruct (dget (num_scheduled_tokens o) id) as [k'|] eqn:En; [|done]. injection Hk' as ->.
    apply rbind_Ok in Hs as (b & Hbl%py_index_0 & Hs). unfold scheduled, gather, blocks_of. rewrite En, Hbl. simpl.
    destruct (_ <? _); injection Hs as <- <-; simpl.
    + by rewrite dget_dset_eq, A3, A4.
    + rewrite A1, A3. split; [done|]. split; [done|]. rewrite metas_add, A4, decide_True by done. unfold sent_meta, resolved. by rewrite A3.
  - destruct Hv as (Hv1 & Hk & Hv2). destruct (Ci e Hv1 Hk) as ([sa ma] & [sb mb] & Hs & Ea & Eb). rewrite (No Hv2), E0 in Ea.
    injection Eb as E1 E2 E3 E4. injection Ea as A1 A2 A3 A4. simpl in *. rewrite E1, E3, E4. unfold next_chunk in Hs. rewrite Hk in Hs. clear Co Ci No Ni.
    apply rbind_Ok in Hs as (k & Hk' & Hs). destruct (dget (num_scheduled_tokens o) id) as [k'|] eqn:En; [|done]. injection Hk' as ->.
    apply rbind_Ok in Hs as ([before prompt] & Hp & Hs). rewrite A1 in Hp. destruct (dget (chunked_prefill s) id) as [[b0 p0]|] eqn:Ech; [|done].
    injection Hp as -> ->. apply rbind_Ok in Hs as (nw & Hnw & Hs). destruct (c_new_block_ids e) as [nw'|] eqn:Ene; [|done]. injection Hnw as ->.
    apply rbind_Ok in Hs as (b & Hbl%py_index_0 & Hs). unfold scheduled, gather, blocks_of. rewrite En, Ene. simpl. rewrite Hbl. simpl.
    destruct (_ <? _) eqn:Elt; injection Hs as <- <-; simpl.
    + split; [by rewrite A3|]. exists before, prompt. split; [done|]. rewrite Elt. by rewrite dget_dset_eq, A4.
    + split; [by rewrite A3|]. exists before, prompt. split; [done|]. rewrite Elt. rewrite dget_ddel_eq. split; [done|].
      rewrite metas_add, A4, decide_True by done. unfold sent_meta, resolved. by rewrite A3.
Qed.

(** A producer's steps. *)
Fixpoint build_all (s : sched) (os : list scheduler_output) : result (sched * list (list ReqMeta)) :=
  match os with
  | [] => Ok (s, [])
  | o :: os =>
      let? (s, m) := build_connector_meta true bs h o s in
      let? (s, ms) := build_all s os in
      Ok (s, m :: ms)
  end.

Definition old (v : view) : Prop := match v with New _ => False | _ => True end.

Definition views (os : list scheduler_output) (id : string) : list view := (λ o, view_of o id) <$> os.

Definition sent (ms : list (list ReqMeta)) (id : string) : list ReqMeta := ms ≫= metas id.

Lemma chunks_none os : ∀ s s' ms id,
  build_all s os = Ok (s', ms) → Forall distinct os → Forall old (views os id) → dget (chunked_prefill s) id = None →
  Forall (λ v, v = Absent) (views os id) ∧ sent ms id = [] ∧ dget (chunked_prefill s') id = None.
Proof.
  induction os as [|o os IH]; intros s s' ms id Hb Hd Hv Hn; simpl in Hb; [by injection Hb as <- <-|].
  apply rbind_Ok in Hb as ([s1 m] & H1 & Hb). apply rbind_Ok in Hb as ([s2 ms'] & H2 & [= <- <-]).
  apply Forall_cons in Hd as [Hd1 Hd]. csimpl in *. apply Forall_cons in Hv as [Hv1 Hv].
  destruct (producer_step _ _ _ _ id H1 Hd1) as [_ Hs]. unfold old in Hv1. destruct (view_of o id) as [|n|e] eqn:Ev; [|done|].
  - destruct Hs as [E1 E2]. destruct (IH _ _ _ id H2 Hd Hv) as (E3 & E4 & E5); [congruence|].
    split; [by constructor|]. split; [|done]. unfold sent in *. csimpl. by rewrite E2, E4.
  - destruct Hs as (before & prompt & Hc & _). congruence.
Qed.

(** What is still to happen of a prompt whose chunks have [before]. *)
Definition whole (s s' : sched) (os : list scheduler_output) (ms : list (list ReqMeta)) (id : string) (before prompt : list Z) : Prop :=
  (sent ms id = [] ∧ dget (chunked_prefill s') id = Some (foldl gather before (views os id), prompt)) ∨
  ∃ k o, os !! k = Some o ∧ sent ms id = [sent_meta id s prompt (foldl gather before (take (S k) (views os id)))] ∧
    zlen prompt ≤ scheduled o id (view_of o id) ∧ Forall (λ v, v = Absent) (drop (S k) (views os id)) ∧
    dget (chunked_prefill s') id = None ∧
    ∀ j o, (j < k)%nat → os !! j = Some o → view_of o id ≠ Absent → scheduled o id (view_of o id) < zlen prompt.

(** A step that does not complete the prompt. *)
Lemma whole_cons s s1 s' o os m ms id before prompt :
  metas id m = [] → resolved id s1 = resolved id s → (view_of o id ≠ Absent → scheduled o id (view_of o id) < zlen prompt) →
  whole s1 s' os ms id (gather before (view_of o id)) prompt → whole s s' (o :: os) (m :: ms) id before prompt.
Proof.
  intros Hm Hr Hlt [[E1 E2]|(k & o' & E1 & E2 & E3 & E4 & E5 & E6)].
  - left. unfold sent in *. csimpl. by rewrite Hm, E1.
  - right. exists (S k), o'. unfold sent in *. csimpl. rewrite Hm, E2. unfold sent_meta. rewrite Hr. split_and!; try done.
    intros [|j] o2 Hj Ho; [by injection Ho as <-|]. by apply (E6 j); [lia|].
Qed.

(** The step that completes it. *)
Lemma whole_done s s' o os m ms id before prompt :
  metas id m = [sent_meta id s prompt (gather before (view_of o id))] → zlen prompt ≤ scheduled o id (view_of o id) →
  Forall (λ v, v = Absent) (views os id) → sent ms id = [] → dget (chunked_prefill s') id = None →
  whole s s' (o :: os) (m :: ms) id before prompt.
Proof.
  intros Hm Hle Hv Hs Hc. right. exists 0%nat, o. unfold sent in *. csimpl. rewrite Hm, Hs. split_and!; try done. lia.
Qed.

Lemma chunks_rest os : ∀ s s' ms id before prompt,
  build_all s os = Ok (s', ms) → Forall distinct os → Forall old (views os id) → dget (chunked_prefill s) id = Some (before, prompt) →
  whole s s' os ms id before prompt.
Proof.
  induction os as [|o os IH]; intros s s' ms id before prompt Hb Hd Hv Hn; simpl in Hb; [injection Hb as <- <-; by left|].
  apply rbind_Ok in Hb as ([s1 m] & H1 & Hb). apply rbind_Ok in Hb as ([s2 ms'] & H2 & [= <- <-]).
  apply Forall_cons in Hd as [Hd1 Hd]. csimpl in *. apply Forall_cons in Hv as [Hv1 Hv].
  destruct (producer_step _ _ _ _ id H1 Hd1) as [Hr Hs]. unfold old in Hv1. destruct (view_of o id) as [|n|e] eqn:Ev; [|done|].
  - destruct Hs as [E1 E2]. eapply whole_cons; [done|done|by rewrite Ev|]. rewrite Ev. eapply IH; [done..|simpl; congruence].
  - destruct Hs as (before' & prompt' & Hc & Hs). rewrite Hn in Hc. injection Hc as <- <-.
    destruct (Z.ltb_spec (scheduled o id (Cached e)) (zlen prompt)) as [Hlt|Hge]; destruct Hs as [E1 E2].
    + eapply whole_cons; [done|done|by rewrite Ev|]. rewrite Ev. by eapply IH.
    + destruct (chunks_none _ _ _ _ id H2 Hd Hv E1) as (E3 & E4 & E5). eapply whole_done; rewrite ?Ev; done.
Qed.

(** A producer sends a prompt once, when it is complete: from the step that
    first schedules it, nothing is handed to the worker before the step in
    which the scheduled tokens reach its end, that step hands over the whole
    prompt with the blocks of all its chunks (of all chunks since it last
    resumed from a preemption) in order, and no later step speaks of it,
    whatever other requests the steps carry. *)
Theorem chunks_sent_whole os s s' ms id n vs :
  build_all s os = Ok (s', ms) → Forall distinct os → dget (chunked_prefill s) id = None →
  views os id = New n :: vs → Forall old vs →
  whole s s' os ms id [] (default [] (n_prompt_token_ids n)).
Proof.
  intros Hb Hd Hn Hv Ho. destruct os as [|o os]; [done|]. csimpl in Hv. injection Hv as Ev Hv. simpl in Hb.
  apply rbind_Ok in Hb as ([s1 m] & H1 & Hb). apply rbind_Ok in Hb as ([s2 ms'] & H2 & [= <- <-]).
  apply Forall_cons in Hd as [Hd1 Hd]. destruct (producer_step _ _ _ _ id H1 Hd1) as [Hr Hs]. rewrite Ev in Hs. simpl in Hs.
  unfold views in Hv. rewrite <- Hv in Ho. destruct (Z.ltb_spec (scheduled o id (New n)) (zlen (default [] (n_prompt_token_ids n)))) as [Hlt|Hge];
    destruct Hs as [E1 E2].
  - eapply whole_cons; [done|done|by rewrite Ev|]. rewrite Ev. by eapply chunks_rest.
  - rewrite Hn in E1. destruct (chunks_none _ _ _ _ id H2 Hd Ho E1) as (E3 & E4 & E5). eapply whole_done; rewrite ?Ev; done.
Qed.

(** ** Loads *)

Lemma resolved_note id q s s1 :
  dget (request_transfer_ids s1) id = dget (request_transfer_ids s) id →
  resolved id (note_transfer_id id q s1) = resolved id (note_transfer_id id q s).
Proof.
  intros E. unfold resolved, note_transfer_id. destruct (kv_transfer_id q) as [t|]; [|by rewrite E].
  case_bool_decide; simpl; [by rewrite E|by rewrite !dget_dset_eq].
Qed.

(** What a step hands over of a request that has to be loaded. *)
Definition handed (o : scheduler_output) (s : sched) (id : string) : option ReqMeta :=
  match dget (requests_need_load s) id, view_of o id with
  | Some _, New n => Some (sent_meta id s (default [] (n_prompt_token_ids n)) (blocks_of (New n)))
  | Some (r, _), Cached e =>
      if c_resumed e
      then Some (sent_meta id (note_transfer_id id (h r) s) (take (Z.to_nat (c_num_computed_tokens e + 1)) (all_token_ids (h r))) (blocks_of (Cached e)))
      else None
  | _, _ => None
  end.

Lemma new_load o acc n acc' id :
  new_request false bs o acc n = Ok acc' → n_req_id n = id →
  match dget (requests_need_load acc.1) id with
  | Some _ => dget (requests_need_load acc'.1) id = None ∧
      metas id acc'.2 = metas id acc.2 ++ [sent_meta id acc.1 (default [] (n_prompt_token_ids n)) (blocks_of (New n))]
  | None => acc' = acc
  end.
Proof.
  destruct acc as [s m]. unfold new_request. intros H <-. simpl. destruct (dget _ _) as [x|]; [|by injection H as <-].
  apply rbind_Ok in H as (b & Hb%py_index_0 & [= <-]). simpl. rewrite dget_ddel_eq, metas_add, decide_True by done.
  unfold sent_meta, blocks_of. by rewrite Hb.
Qed.

Lemma resumed_one acc e acc' id :
  resumed_load bs h acc e = Ok acc' → c_req_id e = id →
  match dget (requests_need_load acc.1) id with
  | Some (r, _) => dget (requests_need_load acc'.1) id = None ∧
      metas id acc'.2 = metas id acc.2 ++ [sent_meta id (note_transfer_id id (h r) acc.1)
        (take (Z.to_nat (c_num_computed_tokens e + 1)) (all_token_ids (h r))) (blocks_of (Cached e))]
  | None => acc' = acc
  end.
Proof.
  destruct acc as [s m]. unfold resumed_load. intros H <-. simpl. destruct (dget _ _) as [[r x]|]; [|by injection H as <-].
  apply rbind_Ok in H as (nw & Hnw & H). destruct (c_new_block_ids e) as [l|] eqn:El; [|done]. injection Hnw as ->.
  apply rbind_Ok in H as (b & Hb%py_index_0 & [= <-]). simpl. rewrite metas_add, decide_True by done. split.
  - unfold note_transfer_id. destruct (kv_transfer_id (h r)); [case_bool_decide|]; simpl; by rewrite dget_ddel_eq.
  - unfold sent_meta, blocks_of. rewrite El. simpl. rewrite Hb. simpl. do 3 f_equal. by apply resolved_note.
Qed.

(** A consumer hands a load to the worker once, in the step that schedules
    its request, new or resumed, with the blocks that step allocated, the
    tokens it covers and the transfer id of its request; then the load is no
    longer noted. A step that does not schedule the request keeps the load for
    later, and requests without one are never loaded. *)
Theorem loads_handed_over o s s' m id l1 l2 :
  build_connector_meta false bs h o s = Ok (s', m) → distinct o →
  scheduled_cached_reqs o = l1 ++ l2 → Forall (λ e, c_resumed e = true) l1 → Forall (λ e, c_resumed e = false) l2 →
  metas id m = option_list (handed o s id) ∧
  dget (requests_need_load s') id = match handed o s id with Some _ => None | None => dget (requests_need_load s) id end.
Proof.
  intros Hb Hd Hl H1 H2. unfold build_connector_meta in Hb. apply rbind_Ok in Hb as ([s1 m1] & Hf1 & Hf2).
  rewrite Hl, cached_consumer in Hf2 by done. pose proof (view_of_spec o id Hd) as Hv. unfold distinct in Hd. rewrite Hl in Hv, Hd.
  apply NoDup_app in Hd as (Hn & _ & Hc). rewrite fmap_app in Hv, Hc. apply NoDup_app in Hc as (Hc & Hcd & _).
  destruct (fold_keyed _ n_req_id (mine id) id _ _ _ (λ s a s', new_request_other false o s a s' id) Hf1 Hn) as [No Ni].
  destruct (fold_keyed _ c_req_id (mine id) id _ _ _ (λ s a s', resumed_load_other s a s' id) Hf2 Hc) as [Co Ci].
  assert (E0 : mine id (s, []) = (dget (chunked_prefill s) id, dget (requests_need_load s) id, dget (request_transfer_ids s) id, [])) by done.
  unfold handed. destruct (view_of o id) as [|n|e].
  - destruct Hv as [Hv1 [Hv2 _]%not_elem_of_app]. rewrite (No Hv1), E0 in Co. injection (Co Hv2) as _ E2 _ E4. simpl in *. rewrite E2, E4.
    by destruct (dget (requests_need_load s) id) as [[r x]|].
  - destruct Hv as (Hv1 & Hk & [Hv2 _]%not_elem_of_app). destruct (Ni n Hv1 Hk) as (sa & sb & Hs & Ea & Eb). rewrite Eb in Co.
    rewrite E0 in Ea. injection (Co Hv2) as _ E2 _ E4. injection Ea as _ A2 A3 A4. simpl in *. rewrite E2, E4.
    pose proof (new_load _ _ _ _ _ Hs Hk) as Hx. rewrite A2, A4 in Hx. destruct (dget (requests_need_load s) id) as [x|].
    + destruct Hx as [-> ->]. unfold sent_meta, resolved. rewrite A3. by destruct x.
    + subst sb. by rewrite A2, A4.
  - destruct Hv as (Hv1 & Hk & Hv2). rewrite (No Hv2), E0 in Co, Ci. destruct (c_resumed e) eqn:Er.
    + assert (Hin : e ∈ l1).
      { apply elem_of_app in Hv1 as [?|He]; [done|]. eapply Forall_forall in H2; [|exact He]. simpl in H2. congruence. }
      destruct (Ci e Hin Hk) as (sa & sb & Hs & Ea & Eb). injection Eb as _ E2 _ E4. injection Ea as _ A2 A3 A4. simpl in *. rewrite E2, E4.
      pose proof (resumed_one _ _ _ _ Hs Hk) as Hx. rewrite A2, A4 in Hx. destruct (dget (requests_need_load s) id) as [[r x]|].
      * destruct Hx as [-> ->]. split; [|done]. simpl. unfold sent_meta. by rewrite (resolved_note id (h r) s sa.1).
      * subst sb. by rewrite A2, A4.
    + assert (Hout : id ∉ c_req_id <$> l1).
      { intros (e' & He' & Hin')%list_elem_of_fmap. apply elem_of_app in Hv1 as [Hin|Hin].
        - eapply Forall_forall in H1; [|exact Hin]. simpl in H1. congruence.
        - apply (Hcd id); [rewrite He'; by apply list_elem_of_fmap_2|subst id; by apply list_elem_of_fmap_2]. }
      injection (Co Hout) as _ E2 _ E4. simpl in *. rewrite E2, E4. by destruct (dget (requests_need_load s) id) as [[r x]|].
Qed.

End sched.

(** ** Concrete steps *)

Definition ex_request (_ : nat) : request := mkRequest "r" [1; 2; 3] [1; 2; 3; 4] (Some "t").

(** Five tokens in blocks of two: two chunks, with another request between. *)
Definition ex_steps : list scheduler_output :=
  [mkOutput [mkNewReq "r" (Some [1; 2; 3; 4; 5]) [[7; 8]] 0; mkNewReq "q" (Some [1]) [[6]] 0] [] [("r", 3); ("q", 1)]%string;
   mkOutput [mkNewReq "u" (Some [1]) [[5]] 0] [] [("u", 1)]%string;
   mkOutput [] [mkCachedReq "r" 3 (Some [[9]]) false] [("r", 2)]%string].

Lemma chunks_sent_whole_witness :
  let x := default (init_sched, []) (match build_all 2 ex_request init_sched ex_steps with Ok x => Some x | Err _ => None end) in
  sent x.2 "r" = [mkReqMeta "r" "r" [1; 2; 3; 4; 5] [7; 8; 9] [14; 15; 16; 17; 18]] ∧
  whole 2 init_sched x.1 ex_steps x.2 "r" [] [1; 2; 3; 4; 5].
Proof.
  split; [vm_compute; reflexivity|].
  apply (chunks_sent_whole 2 ex_request ex_steps init_sched _ _ "r" (mkNewReq "r" (Some [1; 2; 3; 4; 5]) [[7; 8]] 0)
    [Absent; Cached (mkCachedReq "r" 3 (Some [[9]]) false)]).
  - vm_compute. reflexivity.
  - refine (bool_decide_unpack _ _). vm_compute. exact I.
  - reflexivity.
  - vm_compute. reflexivity.
  - by repeat constructor.
Defined.

Lemma loads_handed_over_witness :
  let s := mkSched [("r"%string, (0%nat, [1]))] [] [] in
  let o := mkOutput [] [mkCachedReq "r" 2 (Some [[4; 5]]) true; mkCachedReq "q" 1 None false] [("r", 1)]%string in
  let x := default (init_sched, []) (match build_connector_meta false 2 ex_request o s with Ok x => Some x | Err _ => None end) in
  metas "r" x.2 = [mkReqMeta "r" "t" [1; 2; 3] [4; 5] [8; 9; 10]] ∧
  metas "r" x.2 = option_list (handed 2 ex_request o s "r") ∧
  dget (requests_need_load x.1) "r" = match handed 2 ex_request o s "r" with Some _ => None | None => dget (requests_need_load s) "r" end.
Proof.
  split; [vm_compute; reflexivity|].
  apply (loads_handed_over 2 ex_request (mkOutput [] [mkCachedReq "r" 2 (Some [[4; 5]]) true; mkCachedReq "q" 1 None false] [("r", 1)]%string)
    (mkSched [("r"%string, (0%nat, [1]))] [] []) _ _ "r" [mkCachedReq "r" 2 (Some [[4; 5]]) true] [mkCachedReq "q" 1 None false]).
  - vm_compute. reflexivity.
  - refine (bool_decide_unpack _ _). vm_compute. exact I.
  - reflexivity.
  - by repeat constructor.
  - by repeat constructor.
Defined.
