(* ===== verification/TensorOps.v ===== *)
(** * Tensor operations of the compression manager

    What [compression/compression_manager.py] does with whole tensors: indexing
    and slicing the layer dimension, filling a buffer layer by layer, and the
    permutations between the native and the codec layout, element by element
    on the bytes of [Wire]'s tensors (contiguous, row-major). *)

From S2P Require Import Prelude PyData Wire WireThms.

(** ** Indices *)

(** All indices of a shape, in row-major order, and where they are. *)
Fixpoint indices (sh : list Z) : list (list Z) :=
  match sh with
  | [] => [[]]
  | n :: sh => seqZ 0 n ≫= λ i, cons i <$> indices sh
  end.

Fixpoint flat (sh idx : list Z) : Z :=
  match sh, idx with
  | _ :: sh, i :: idx => i * prod sh + flat sh idx
  | _, _ => 0
  end.

(** [p[j]] is the dimension that becomes dimension [j]. *)
Definition pick (l : list Z) (p : list nat) : list Z := (λ a, nth a l 0) <$> p.

Fixpoint position (a : nat) (p : list nat) : nat :=
  match p with
  | [] => 0
  | b :: p => if decide (a = b) then 0 else S (position a p)
  end%nat.

(** The index of the source for an index of the result. *)
Definition source (p : list nat) (idx : list Z) : list Z := (λ a, nth (position a p) idx 0) <$> seq 0 (length p).

Section ops.
Context `{D : !Dtypes}.

(** The bytes of element [i]. *)
Definition elem (t : tensor) (i : Z) : list Z := slice (data t) (i * itemsize t) ((i + 1) * itemsize t).

(** [t.permute(p).contiguous()] *)
Definition permute (p : list nat) (t : tensor) : result tensor :=
  raise_if (negb (length p =? length (shape t))%nat) (RuntimeError "permute: number of dimensions") ;?
  Ok (mkTensor (pick (shape t) p) (dtype t) (indices (pick (shape t) p) ≫= λ idx, elem t (flat (shape t) (source p idx)))).

(** The bytes of [t[i]] *)
Definition row_bytes (t : tensor) : Z := prod (tail (shape t)) * itemsize t.

(** [t[a:b]] for [0 <= a <= b <= len(t)], and [t[i]] *)
Definition rows (t : tensor) (a b : Z) : tensor :=
  mkTensor ((b - a) :: tail (shape t)) (dtype t) (slice (data t) (a * row_bytes t) (b * row_bytes t)).

Definition row (t : tensor) (i : Z) : result tensor :=
  match shape t with
  | [] => Err IndexError
  | n :: sh =>
      raise_if (negb ((0 <=? i) && (i <? n))) IndexError ;?
      Ok (mkTensor sh (dtype t) (slice (data t) (i * row_bytes t) ((i + 1) * row_bytes t)))
  end.

(** A buffer [torch.empty((len(l),) + sh, dtype)] filled by [l]. *)
Definition stack (sh : list Z) (d : string) (l : list tensor) : tensor := mkTensor (zlen l :: sh) d (concat (data <$> l)).

(** [torch.cat(l, dim=0)]: tensors of one dtype and one row shape. *)
Definition cat (l : list tensor) : result tensor :=
  match l with
  | [] => Err (RuntimeError "expected a non-empty list of Tensors")
  | t :: _ =>
      raise_if (negb (forallb (λ x, bool_decide (dtype x = dtype t) && bool_decide (tail (shape x) = tail (shape t))) l))
        (RuntimeError "sizes of tensors must match") ;?
      raise_if (bool_decide (shape t = [])) (RuntimeError "zero-dimensional tensor cannot be concatenated") ;?
      Ok (mkTensor (sumZ ((λ x, hd 0 (shape x)) <$> l) :: tail (shape t)) (dtype t) (concat (data <$> l)))
  end.

(** ** Row-major order *)

Definition valid (sh idx : list Z) : Prop := Forall2 (λ n i, 0 ≤ i < n) sh idx.

Lemma length_indices sh : Forall (λ n, 0 ≤ n) sh → zlen (indices sh) = prod sh.
Proof.
  induction 1 as [|n sh Hn Hsh IH]; [done|]. simpl. unfold zlen in *.
  assert (H : ∀ l : list Z, length (l ≫= λ i, cons i <$> indices sh) = (length l * length (indices sh))%nat).
  { induction l as [|i l IHl]; [done|]. csimpl. rewrite length_app, length_fmap, IHl. done. }
  rewrite H, length_seqZ. fold (prod sh). pose proof (prod_nonneg sh Hsh). nia.
Qed.

Lemma indices_valid sh idx : idx ∈ indices sh → valid sh idx.
Proof.
  revert idx. induction sh as [|n sh IH]; intros idx; simpl.
  - rewrite list_elem_of_singleton. intros ->. constructor.
  - intros (i & Hidx & Hi)%list_elem_of_bind. apply list_elem_of_fmap in Hidx as (idx' & -> & Hidx'). apply elem_of_seqZ in Hi.
    constructor; [lia|by apply IH].
Qed.

Lemma flat_bound sh idx : valid sh idx → 0 ≤ flat sh idx < prod sh.
Proof.
  induction 1 as [|n i sh idx Hi Hv IH]; simpl; [lia|]. fold (prod sh). nia.
Qed.

Lemma bind_lookup {A B} (f : A → list B) (l : list A) (k i j : nat) x :
  (∀ y, y ∈ l → length (f y) = k) → l !! i = Some x → (j < k)%nat → (l ≫= f) !! (i * k + j)%nat = f x !! j.
Proof.
  revert i. induction l as [|y l IH]; intros i Hk Hl Hj; [by rewrite lookup_nil in Hl|]. csimpl.
  destruct i as [|i]; simpl in Hl.
  - injection Hl as ->. rewrite lookup_app_l; [done|]. rewrite (Hk x) by left. lia.
  - rewrite lookup_app_r by (rewrite (Hk y) by left; lia). rewrite (Hk y) by left.
    replace (S i * k + j - k)%nat with (i * k + j)%nat by lia. apply IH; [|done|done]. intros z Hz. apply Hk. by right.
Qed.

Lemma indices_lookup sh idx :
  Forall (λ n, 0 ≤ n) sh → valid sh idx → indices sh !! Z.to_nat (flat sh idx) = Some idx.
Proof.
  intros Hsh Hv. revert Hsh. induction Hv as [|n i sh idx Hi Hv IH]; intros Hsh; [done|]. apply Forall_cons in Hsh as [Hn Hsh]. simpl.
  pose proof (flat_bound sh idx Hv) as Hf. pose proof (length_indices sh Hsh) as Hl. unfold zlen in Hl.
  replace (Z.to_nat (i * prod sh + flat sh idx)) with (Z.to_nat i * length (indices sh) + Z.to_nat (flat sh idx))%nat by nia.
  rewrite (bind_lookup _ _ (length (indices sh)) _ _ i).
  - rewrite list_lookup_fmap, IH by done. done.
  - intros y _. by rewrite length_fmap.
  - rewrite lookup_seqZ_lt by lia. f_equal. lia.
  - lia.
Qed.

(** ** Elements *)

Lemma zlen_concat {A} (k : Z) (l : list (list A)) : Forall (λ c, zlen c = k) l → zlen (concat l) = zlen l * k.
Proof. induction 1 as [|c l Hc _ IH]; [done|]. simpl. unfold zlen in *. rewrite length_app. simpl. lia. Qed.

Lemma slice_concat {A} (l : list (list A)) (k i : Z) x :
  0 ≤ k → 0 ≤ i → Forall (λ c, zlen c = k) l → l !! Z.to_nat i = Some x → slice (concat l) (i * k) ((i + 1) * k) = x.
Proof.
  intros Hk Hi Hl Hx. rewrite <- (take_drop_middle l (Z.to_nat i) x Hx), concat_app. simpl.
  apply slice_app.
  - rewrite (zlen_concat k) by (by apply Forall_take). unfold zlen. rewrite length_take_le; [lia|]. apply lookup_lt_Some in Hx. lia.
  - eapply Forall_lookup_1 in Hl; [|exact Hx]. simpl in Hl. lia.
Qed.

Lemma length_elem t i : tensor_ok t → 0 ≤ i < numel t → zlen (elem t i) = itemsize t.
Proof.
  intros Ht Hi. unfold elem, slice, zlen. rewrite length_take, length_drop. pose proof (ok_data t Ht) as Hd. unfold nbytes, zlen in Hd.
  pose proof (itemsize_pos t). nia.
Qed.

(** The elements in row-major order are the tensor. *)
Lemma tensor_elems t : tensor_ok t → concat ((λ idx, elem t (flat (shape t) idx)) <$> indices (shape t)) = data t.
Proof.
  intros Ht. assert (Hr : ∀ sh, Forall (λ n, 0 ≤ n) sh → flat sh <$> indices sh = seqZ 0 (prod sh)).
  { intros sh Hsh. apply list_eq. intros k. rewrite list_lookup_fmap. pose proof (length_indices sh Hsh) as Hl. unfold zlen in Hl.
    destruct (indices sh !! k) as [idx|] eqn:E; simpl.
    - assert (Hv : valid sh idx) by (by apply indices_valid, list_elem_of_lookup_2 with k).
      pose proof (indices_lookup sh idx Hsh Hv) as E2. pose proof (flat_bound sh idx Hv) as Hb.
      assert (Hk : k = Z.to_nat (flat sh idx)).
      { eapply NoDup_lookup; [|exact E|exact E2]. clear. induction sh as [|n sh IH]; [apply NoDup_singleton|]. simpl.
        apply NoDup_bind; [| |apply NoDup_seqZ].
        - intros i j idx _ _ H1 H2. apply list_elem_of_fmap in H1 as (? & -> & _). apply list_elem_of_fmap in H2 as (? & [= ->] & _). done.
        - intros i _. apply NoDup_fmap; [intros ?? [= ->]; done|exact IH]. }
      rewrite Hk, lookup_seqZ_lt by lia. f_equal. lia.
    - apply lookup_ge_None in E. symmetry. apply lookup_ge_None. rewrite length_seqZ. lia. }
  change (λ idx, elem t (flat (shape t) idx)) with (elem t ∘ flat (shape t)). rewrite list_fmap_compose, Hr by apply Ht.
  unfold elem. assert (Hs : (λ i, slice (data t) (i * itemsize t) ((i + 1) * itemsize t)) <$> seqZ 0 (prod (shape t))
    = (λ s, slice (data t) s (s + itemsize t)) <$> ((λ i, i * itemsize t) <$> seqZ 0 (prod (shape t)))).
  { rewrite <- list_fmap_compose. apply list_fmap_ext. intros i x _. simpl. f_equal. lia. }
  rewrite Hs, concat_slices by (try apply itemsize_pos; apply prod_nonneg, Ht). apply take_ge.
  pose proof (ok_data t Ht) as Hd. unfold nbytes, numel, zlen in Hd. lia.
Qed.

Lemma bind_is_concat {A B} (f : A → list B) l : l ≫= f = concat (f <$> l).
Proof. induction l as [|x l IH]; [done|]. csimpl. by rewrite IH. Qed.

(** ** Permutations *)

Definition is_perm (p : list nat) (n : nat) : Prop := p ≡ₚ seq 0 n.

Lemma position_lookup a p : a ∈ p → p !! position a p = Some a.
Proof.
  induction p as [|b p IH]; intros Ha; [by apply elem_of_nil in Ha|]. simpl. destruct (decide (a = b)) as [->|Hne]; [done|].
  apply IH. by apply elem_of_cons in Ha as [?|?].
Qed.

Lemma pick_nth l p j a : p !! j = Some a → nth j (pick l p) 0 = nth a l 0.
Proof. intros Hp. unfold pick. apply nth_lookup_Some. by rewrite list_lookup_fmap, Hp. Qed.

Lemma pick_perm l p : is_perm p (length l) → pick l p ≡ₚ l.
Proof.
  intros Hp. unfold pick. rewrite Hp. assert (H : (λ a, nth a l 0) <$> seq 0 (length l) = l); [|by rewrite H].
  apply list_eq. intros i. rewrite list_lookup_fmap. destruct (decide (i < length l)%nat) as [Hi|Hi].
  - rewrite lookup_seq_lt by done. simpl. destruct (lookup_lt_is_Some_2 l i Hi) as [x Hx]. rewrite Hx. f_equal. by apply nth_lookup_Some.
  - rewrite lookup_seq_ge by lia. simpl. symmetry. apply lookup_ge_None. lia.
Qed.

Lemma prod_perm l1 l2 : l1 ≡ₚ l2 → prod l1 = prod l2.
Proof. unfold prod. induction 1; simpl; lia. Qed.

Lemma valid_nth sh idx a : valid sh idx → (a < length sh)%nat → 0 ≤ nth a idx 0 < nth a sh 0.
Proof.
  intros Hv. revert a. induction Hv as [|n i sh idx Hi _ IH]; intros a Ha; simpl in Ha; [lia|]. destruct a; [done|]. apply IH. lia.
Qed.

Lemma nth_valid sh idx : length idx = length sh → (∀ a, (a < length sh)%nat → 0 ≤ nth a idx 0 < nth a sh 0) → valid sh idx.
Proof.
  revert idx. induction sh as [|n sh IH]; intros [|i idx] Hl H; simpl in *; try done; [constructor|]. constructor.
  - by apply (H 0%nat); lia.
  - apply IH; [lia|]. intros a Ha. apply (H (S a)). lia.
Qed.

Lemma source_valid sh p idx : is_perm p (length sh) → valid (pick sh p) idx → valid sh (source p idx).
Proof.
  intros Hp Hv. pose proof (Permutation_length Hp) as Hlen. rewrite length_seq in Hlen. apply nth_valid.
  - unfold source. by rewrite length_fmap, length_seq.
  - intros a Ha. unfold source. assert (Hn : nth a ((λ a, nth (position a p) idx 0) <$> seq 0 (length p)) 0 = nth (position a p) idx 0).
    { apply nth_lookup_Some. rewrite list_lookup_fmap, lookup_seq_lt by lia. done. }
    rewrite Hn. assert (Hin : a ∈ p) by (rewrite Hp; apply elem_of_seq; lia). pose proof (position_lookup a p Hin) as Hpos.
    rewrite <- (pick_nth sh p _ _ Hpos). apply valid_nth; [done|]. unfold pick. rewrite length_fmap. by apply lookup_lt_Some in Hpos.
Qed.

Lemma permute_ok p t : tensor_ok t → is_perm p (length (shape t)) →
  ∃ t', permute p t = Ok t' ∧ tensor_ok t' ∧ shape t' = pick (shape t) p ∧ dtype t' = dtype t ∧
  ∀ idx, valid (shape t') idx → elem t' (flat (shape t') idx) = elem t (flat (shape t) (source p idx)).
Proof.
  intros Ht Hp. pose proof (Permutation_length Hp) as Hlen. rewrite length_seq in Hlen. unfold permute.
  rewrite Hlen, Nat.eqb_refl. simpl. eexists. split; [done|]. simpl. rewrite bind_is_concat.
  assert (Hsh : Forall (λ n, 0 ≤ n) (pick (shape t) p)) by (rewrite pick_perm by done; apply Ht).
  assert (Hchunks : Forall (λ c, zlen c = itemsize t) ((λ idx, elem t (flat (shape t) (source p idx))) <$> indices (pick (shape t) p))).
  { apply Forall_fmap, Forall_forall. intros idx Hidx. simpl. apply length_elem; [done|].
    apply flat_bound, source_valid; [done|]. by apply indices_valid. }
  split_and!; try done.
  - split; simpl; [apply Ht|done|]. unfold nbytes, numel, itemsize. simpl. fold (itemsize t).
    rewrite (zlen_concat (itemsize t)) by done. unfold zlen. rewrite length_fmap. pose proof (length_indices _ Hsh) as H. unfold zlen in H. by rewrite H.
  - intros idx Hv. unfold elem at 1, itemsize. simpl. fold (itemsize t).
    apply slice_concat; [pose proof (itemsize_pos t); lia|apply flat_bound; done|done|].
    by rewrite list_lookup_fmap, indices_lookup.
Qed.

(** A permutation undone by another one. *)
Definition undoes (q p : list nat) : Prop :=
  (λ a, nth a p 0%nat) <$> q = seq 0 (length p) ∧ ((λ a, position (position a p) q) <$> seq 0 (length p)) = seq 0 (length p) ∧ length q = length p.

Lemma pick_undo p q l : is_perm p (length l) → is_perm q (length l) → undoes q p → pick (pick l p) q = l.
Proof.
  intros Hp Hq (U1 & U2 & U3). assert (Hlp : length p = length l) by (rewrite Hp; by rewrite length_seq).
  unfold pick at 1. apply list_eq. intros j. rewrite list_lookup_fmap.
  assert (Hj : ((λ a, nth a p 0%nat) <$> q) !! j = seq 0 (length p) !! j) by by rewrite U1. rewrite list_lookup_fmap in Hj.
  destruct (decide (j < length p)%nat) as [Hlt|Hge].
  - rewrite lookup_seq_lt in Hj by done. destruct (q !! j) as [a|] eqn:Ea; [|done]. simpl in *. injection Hj as Hj.
    assert (Hpa : p !! a = Some j).
    { assert (a < length p)%nat by (assert (a ∈ q) as Hin by (by eapply list_elem_of_lookup_2); rewrite Hq in Hin; apply elem_of_seq in Hin; lia).
      destruct (lookup_lt_is_Some_2 p a) as [b Hb]; [done|]. rewrite Hb. f_equal. rewrite <- Hj. symmetry. by apply nth_lookup_Some. }
    rewrite (pick_nth _ _ _ _ Hpa). destruct (lookup_lt_is_Some_2 l j) as [x Hx]; [lia|]. rewrite Hx. f_equal. by apply nth_lookup_Some.
  - rewrite (lookup_ge_None_2 q) by lia. simpl. symmetry. apply lookup_ge_None. lia.
Qed.

Lemma source_undo p q idx : is_perm p (length idx) → undoes q p → source p (source q idx) = idx.
Proof.
  intros Hp (U1 & U2 & U3). assert (Hlp : length p = length idx) by (rewrite Hp; by rewrite length_seq).
  unfold source at 1. apply list_eq. intros a. rewrite list_lookup_fmap.
  assert (Ha : ((λ a, position (position a p) q) <$> seq 0 (length p)) !! a = seq 0 (length p) !! a) by by rewrite U2. rewrite list_lookup_fmap in Ha.
  destruct (decide (a < length p)%nat) as [Hlt|Hge].
  - rewrite lookup_seq_lt in Ha |- * by done. simpl in *. injection Ha as Ha.
    destruct (lookup_lt_is_Some_2 idx a) as [x Hx]; [lia|]. rewrite Hx. f_equal. apply nth_lookup_Some. unfold source.
    rewrite list_lookup_fmap, lookup_seq_lt; [simpl; f_equal; rewrite Ha; by apply nth_lookup_Some|].
    rewrite U3. assert (Hin : a ∈ p) by (rewrite Hp; apply elem_of_seq; lia). apply position_lookup, lookup_lt_Some in Hin. done.
  - rewrite lookup_seq_ge by lia. simpl. symmetry. apply lookup_ge_None. lia.
Qed.

Lemma permute_undo p q t t' :
  tensor_ok t → is_perm p (length (shape t)) → is_perm q (length (shape t)) → undoes q p → permute p t = Ok t' → permute q t' = Ok t.
Proof.
  intros Ht Hp Hq U E. destruct (permute_ok p t Ht Hp) as (t1 & E1 & Ht1 & Es & Ed & Hel). rewrite E in E1. injection E1 as <-.
  assert (Hl' : length (shape t') = length (shape t)) by (rewrite Es; apply Permutation_length, pick_perm, Hp).
  assert (Hlq : length q = length (shape t)) by (rewrite Hq; by rewrite length_seq).
  unfold permute. rewrite Hlq, Hl', Nat.eqb_refl. simpl. rewrite bind_is_concat.
  assert (Hsh : pick (shape t') q = shape t) by (rewrite Es; by apply pick_undo).
  rewrite Hsh, Ed. destruct t as [sh dt da]. simpl in *. do 2 f_equal.
  rewrite <- (tensor_elems (mkTensor sh dt da) Ht) at 1. f_equal. apply list_fmap_ext. intros k idx Hidx.
  assert (Hv : valid sh idx) by (by eapply indices_valid, list_elem_of_lookup_2).
  assert (Hv' : valid (pick sh p) (source q idx)).
  { apply source_valid; [|by rewrite <- Es, Hsh]. by rewrite <- Es, Hl'. }
  rewrite Es in Hel |- *. rewrite (Hel _ Hv'). simpl. do 2 f_equal. apply source_undo; [|done].
  apply Forall2_length in Hv. by rewrite <- Hv.
Qed.

(** ** Layers *)

(** The layers of one buffer have one shape and dtype. *)
Definition uniform (sh : list Z) (d : string) (l : list tensor) : Prop := Forall (λ t, tensor_ok t ∧ shape t = sh ∧ dtype t = d) l.

Lemma data_uniform sh d l : uniform sh d l → Forall (λ c, zlen c = prod sh * default 1 (element_size d)) (data <$> l).
Proof.
  intros Hl. apply Forall_fmap. eapply Forall_impl; [exact Hl|]. intros t (Ht & <- & <-). simpl. exact (ok_data t Ht).
Qed.

Lemma stack_ok sh d l : is_Some (element_size d) → Forall (λ n, 0 ≤ n) sh → uniform sh d l → tensor_ok (stack sh d l).
Proof.
  intros Hd Hsh Hl. split; simpl; [done|constructor; [unfold zlen; lia|done]|]. unfold nbytes, numel, itemsize. simpl. fold (prod sh).
  apply data_uniform in Hl. rewrite (zlen_concat _ _ Hl). unfold zlen. rewrite length_fmap. lia.
Qed.

Lemma row_stack sh d l i t : uniform sh d l → l !! Z.to_nat i = Some t → 0 ≤ i → row (stack sh d l) i = Ok t.
Proof.
  intros Hl Hi H0. unfold row, stack. simpl. apply lookup_lt_Some in Hi as Hlt. unfold zlen. rewrite (proj2 (Z.leb_le 0 i)), (proj2 (Z.ltb_lt i _)) by lia.
  simpl. unfold row_bytes, itemsize. simpl. fold (prod sh).
  pose proof (Forall_lookup_1 _ _ _ _ Hl Hi) as (Ht & Hs & Hd). rewrite (slice_concat (data <$> l) _ i (data t)); try done.
  - destruct t; simpl in *. by subst.
  - rewrite <- Hs, <- Hd. change (0 ≤ nbytes t). rewrite <- (ok_data t Ht). unfold zlen. lia.
  - by apply data_uniform.
  - by rewrite list_lookup_fmap, Hi.
Qed.

Lemma rows_stack sh d l a b :
  uniform sh d l → 0 ≤ a ≤ b → b ≤ zlen l → rows (stack sh d l) a b = stack sh d (take (Z.to_nat (b - a)) (drop (Z.to_nat a) l)).
Proof.
  intros Hl Ha Hb. unfold rows, stack. simpl. unfold row_bytes, itemsize. simpl. fold (prod sh). set (k := prod sh * _).
  assert (Hk : ∀ m, uniform sh d m → zlen (concat (data <$> m)) = zlen m * k).
  { intros m Hm. apply data_uniform in Hm. rewrite (zlen_concat _ _ Hm). unfold zlen. by rewrite length_fmap. }
  assert (Hm : zlen (take (Z.to_nat (b - a)) (drop (Z.to_nat a) l)) = b - a)
    by (unfold zlen in *; rewrite length_take, length_drop; lia).
  f_equal; [by rewrite Hm|].
  rewrite <- (take_drop (Z.to_nat a) l) at 1. rewrite <- (take_drop (Z.to_nat (b - a)) (drop (Z.to_nat a) l)) at 1.
  rewrite !fmap_app, !concat_app. apply slice_app.
  - rewrite Hk by (by apply Forall_take). unfold zlen in *. rewrite length_take. by rewrite Nat.min_l, Z2Nat.id by lia.
  - rewrite Hk by (by apply Forall_take, Forall_drop). rewrite Hm. lia.
Qed.

(** A tensor is the stack of its rows. *)
Lemma stack_rows t n sh :
  tensor_ok t → shape t = n :: sh →
  ∃ l, uniform sh (dtype t) l ∧ zlen l = n ∧ t = stack sh (dtype t) l ∧ rmap (row t) (seqZ 0 n) = Ok l.
Proof.
  intros Ht Hs. pose proof (ok_shape t Ht) as Hsh. rewrite Hs in Hsh. apply Forall_cons in Hsh as [Hn Hsh].
  pose proof (ok_data t Ht) as Hd. unfold nbytes, numel in Hd. rewrite Hs in Hd. simpl in Hd. fold (prod sh) in Hd.
  set (k := prod sh * itemsize t). pose proof (prod_nonneg sh Hsh). pose proof (itemsize_pos t).
  set (f := λ i, mkTensor sh (dtype t) (slice (data t) (i * k) ((i + 1) * k))). exists (f <$> seqZ 0 n).
  assert (Hlen : ∀ i, 0 ≤ i < n → zlen (slice (data t) (i * k) ((i + 1) * k)) = k).
  { intros i Hi. unfold slice, zlen in *. rewrite length_take, length_drop. unfold k in *. nia. }
  split_and!.
  - apply Forall_fmap, Forall_forall. intros i [Hi1 Hi2]%elem_of_seqZ. simpl. split_and!; try done. split; simpl; [apply Ht|done|].
    rewrite Hlen by lia. done.
  - unfold zlen. rewrite length_fmap, length_seqZ. lia.
  - unfold stack. rewrite <- list_fmap_compose. unfold zlen. rewrite length_fmap, length_seqZ, Z2Nat.id by done. destruct t as [ts td ta]. simpl in *. subst ts. f_equal.
    assert (Hsl : (λ i, data (f i)) <$> seqZ 0 n = (λ s, slice ta s (s + k)) <$> ((λ i, i * k) <$> seqZ 0 n)).
    { rewrite <- list_fmap_compose. apply list_fmap_ext. intros i x _. simpl. f_equal. lia. }
    unfold compose. rewrite Hsl. destruct (decide (k = 0)) as [Ek|Ek].
    + assert (ta = []) as -> by (unfold zlen in Hd; destruct ta; [done|]; simpl in Hd; unfold k in Ek; nia).
      symmetry. clear. induction (_ <$> seqZ 0 n) as [|x l IH]; [done|]. csimpl. rewrite IH. unfold slice. by rewrite drop_nil, take_nil.
    + rewrite concat_slices by (unfold k in *; nia). symmetry. apply take_ge. unfold zlen, k in *. nia.
  - apply rmap_Ok. apply Forall2_fmap_r, Forall2_same_length_lookup. split; [done|]. intros j i i' E1 E2.
    rewrite E1 in E2. injection E2 as <-. apply lookup_seqZ in E1 as [-> Hj]. unfold row. rewrite Hs.
    rewrite (proj2 (Z.leb_le 0 _)), (proj2 (Z.ltb_lt _ n)) by lia. simpl. unfold row_bytes. rewrite Hs. done.
Qed.

(** ** Permuting layers *)

Lemma slice_slice {A} (l : list A) a b c d : 0 ≤ a → 0 ≤ c ≤ d → a + d ≤ b → slice (slice l a b) c d = slice l (a + c) (a + d).
Proof.
  intros Ha Hc Hb. unfold slice. rewrite skipn_firstn_comm, take_take, drop_drop. f_equal; [lia|]. f_equal. lia.
Qed.

Lemma elem_stack sh d l i j t :
  uniform sh d l → Forall (λ n, 0 ≤ n) sh → l !! Z.to_nat i = Some t → 0 ≤ i → 0 ≤ j < prod sh → elem (stack sh d l) (i * prod sh + j) = elem t j.
Proof.
  intros Hl Hsh Hi H0 Hj. pose proof (Forall_lookup_1 _ _ _ _ Hl Hi) as (Ht & Hs & Hd). unfold elem, itemsize. simpl. rewrite Hd. set (k := default 1 (element_size d)).
  assert (Hk : 0 < k) by (unfold k; rewrite <- Hd; apply itemsize_pos). set (P := prod sh) in *.
  assert (Hdata : slice (concat (data <$> l)) (i * (P * k)) ((i + 1) * (P * k)) = data t).
  { apply slice_concat; [nia|done| |by rewrite list_lookup_fmap, Hi]. by apply data_uniform. }
  assert (H1 : 0 ≤ i * (P * k)) by (apply Z.mul_nonneg_nonneg; nia). assert (H2 : (j + 1) * k ≤ P * k) by nia.
  rewrite <- Hdata, slice_slice by nia. f_equal; ring.
Qed.

Lemma nth_S_pick n sh p : pick (n :: sh) (S <$> p) = pick sh p.
Proof. unfold pick. rewrite <- list_fmap_compose. done. Qed.

Lemma position_S a p : position (S a) (S <$> p) = position a p.
Proof.
  induction p as [|b p IH]; [done|]. csimpl. destruct (decide (a = b)) as [->|Hne]; [by rewrite decide_True|].
  by rewrite decide_False, IH by congruence.
Qed.

Lemma source_cons p i idx : source (0%nat :: (S <$> p)) (i :: idx) = i :: source p idx.
Proof.
  unfold source. cbn [length seq fmap list_fmap]. rewrite length_fmap. f_equal. rewrite <- fmap_S_seq, <- list_fmap_compose.
  apply list_fmap_ext. intros k a _. cbn [compose position]. rewrite decide_False by done. by rewrite position_S.
Qed.

Lemma is_perm_cons p n : is_perm p n → is_perm (0%nat :: (S <$> p)) (S n).
Proof. unfold is_perm. intros ->. simpl. by rewrite fmap_S_seq. Qed.

Lemma permute_data p t t' : permute p t = Ok t' → data t' = concat ((λ idx, elem t (flat (shape t) (source p idx))) <$> indices (pick (shape t) p)).
Proof. unfold permute. destruct (_ =? _)%nat; [|done]. intros [= <-]. simpl. by rewrite bind_is_concat. Qed.

Lemma permute_uniform p sh d l l' :
  uniform sh d l → is_perm p (length sh) → Forall2 (λ t t', permute p t = Ok t') l l' → uniform (pick sh p) d l'.
Proof.
  unfold uniform. intros Hl Hp Hll. induction Hll as [|t t' l l' E _ IH]; [constructor|]. apply Forall_cons in Hl as [(Ht & Hs & Hd) Hl].
  constructor; [|by apply IH]. rewrite <- Hs in Hp. destruct (permute_ok p t Ht Hp) as (t1 & E1 & Ht1 & Es & Ed & _).
  rewrite E in E1. injection E1 as <-. by rewrite Es, Ed, Hs.
Qed.

Lemma concat_bind {A B C} (g : B → list C) (f : A → list B) l : concat (g <$> (l ≫= f)) = concat ((λ x, concat (g <$> f x)) <$> l).
Proof. induction l as [|x l IH]; [done|]. csimpl. by rewrite fmap_app, concat_app, IH. Qed.

(** Permuting each layer permutes the buffer. *)
Lemma permute_stack p sh d l l' :
  uniform sh d l → Forall (λ n, 0 ≤ n) sh → is_perm p (length sh) → Forall2 (λ t t', permute p t = Ok t') l l' →
  permute (0%nat :: (S <$> p)) (stack sh d l) = Ok (stack (pick sh p) d l').
Proof.
  intros Hl Hsh Hp Hll. pose proof (Permutation_length Hp) as Hlp. rewrite length_seq in Hlp. unfold permute.
  change (length (0%nat :: (S <$> p))) with (S (length (S <$> p))). change (length (shape (stack sh d l))) with (S (length sh)).
  rewrite length_fmap, Hlp, Nat.eqb_refl. cbn [negb raise_if rbind].
  change (pick (shape (stack sh d l)) (0%nat :: (S <$> p))) with (zlen l :: pick (zlen l :: sh) (S <$> p)). rewrite nth_S_pick.
  pose proof (Forall2_length _ _ _ Hll) as Hlen. assert (Hz : zlen l' = zlen l) by (unfold zlen; lia).
  replace (stack (pick sh p) d l') with (mkTensor (zlen l :: pick sh p) d (concat (data <$> l'))) by (unfold stack; by rewrite Hz).
  do 2 f_equal. change (indices (zlen l :: pick sh p)) with (seqZ 0 (zlen l) ≫= λ i, cons i <$> indices (pick sh p)).
  rewrite bind_is_concat, concat_bind. f_equal. apply list_eq. intros k. rewrite !list_lookup_fmap.
  destruct (decide (k < length l)%nat) as [Hk|Hk]; [|rewrite (lookup_ge_None_2 l'), (lookup_ge_None_2 (seqZ _ _)); [done|rewrite length_seqZ; unfold zlen; lia|lia]].
  rewrite lookup_seqZ_lt by (unfold zlen; lia). destruct (lookup_lt_is_Some_2 l k Hk) as [t Ht]. destruct (Forall2_lookup_l _ _ _ _ _ Hll Ht) as (t' & Ht' & E).
  rewrite Ht'. cbn [fmap option_fmap option_map]. f_equal. rewrite (permute_data _ _ _ E), <- list_fmap_compose. f_equal.
  pose proof (Forall_lookup_1 _ _ _ _ Hl Ht) as (Hok & Hs & Hd). rewrite Hs. apply list_fmap_ext. intros j idx Hidx. cbn [compose].
  rewrite source_cons. cbn [flat shape stack]. apply (elem_stack sh d l); try done; [by replace (Z.to_nat (0 + Z.of_nat k)) with k by lia|lia|].
  apply flat_bound, source_valid; [done|]. by eapply indices_valid, list_elem_of_lookup_2.
Qed.

End ops.
