(* ===== verification/V1Manager.v ===== *)
(** * The compression manager of the v1 product

    [compression/compression_manager.py] and the public part of
    [compression/manager.py]: a KV tensor of all layers goes layer by layer
    through a transformer and a quantizer into one buffer, and the buffer
    through a codec; large tensors in chunks of layers. The three components
    are pluggable ([compression/components.py]) and are a class; so is torch's
    conversion when a tensor is copied into a buffer of another dtype or
    shape. Log lines and the release of buffers are not modelled. *)

From S2P Require Import Prelude PyData Wire TensorOps.

(** ** Components *)

(** The quantizers a manager may be given. *)
Inductive quantizer_class := KVServeQuantizer | TileLangFusedQuantizer | CenteredCodebookQuantizer.

(** An update may raise after it changed something. *)
Class Stages := {
  tr_state : Type;
  qu_state : Type;
  tr_new : meta_dict → result tr_state;
  qu_new : quantizer_class → meta_dict → result qu_state;
  tr_update : meta_dict → tr_state → tr_state * result unit;
  qu_update : meta_dict → qu_state → qu_state * result unit;
  transform : tr_state → Z → tensor → meta_dict → result tensor;
  inverse : tr_state → Z → tensor → meta_dict → result tensor;
  quantize : qu_state → Z → tensor → meta_dict → result (tensor * obj);
  (** with [out=]: the bytes written to the buffer *)
  quantize_out : qu_state → Z → tensor → meta_dict → result (list Z * obj);
  supports_out_buffer : qu_state → bool;
  dequantize : qu_state → Z → tensor → obj → meta_dict → result tensor
}.

Class Codecs := {
  co_state : Type;
  co_new : meta_dict → result co_state;
  co_update : meta_dict → co_state → co_state * result unit;
  encode : co_state → Z → tensor → meta_dict → result tensor;
  decode : co_state → Z → tensor → string → list Z → string → meta_dict → result tensor
}.

(** [buffer.copy_(t)] for a buffer of a dtype and a shape, with torch's
    conversion and broadcasting. *)
Class Casts := {
  copy_to : string → list Z → tensor → result tensor;
  copy_to_same t : copy_to (dtype t) (shape t) t = Ok t
}.

Record CompressionConfig := mkCompressionConfig {
  enabled : bool;
  transformer_config : option meta_dict;
  quantizer_config : option meta_dict;
  codec_config : option meta_dict;
  pipeline : option (list string);
  min_compress_size : Z
}.

(** What [decompress_all_layers] returns *)
Inductive decompressed := One (t : tensor) | Many (l : list tensor).

Section manager.
Context `{D : !Dtypes, K : !Stages, KC : !Codecs, C : !Casts}.
(** [os.environ.get("KVSERVE_CODEC_LAYOUT")], [str(t.device)], and the text
    of an exception. *)
Context (layout_env : option string) (device : string) (exn_text : exn → string).

Record manager := mkManager {
  config : CompressionConfig;
  transformer : option tr_state;
  quantizer : option qu_state;
  codec : option co_state;
  m_original_size : Z;
  m_compressed_size : Z
}.

Definition kwargs (o : option meta_dict) : result meta_dict := of_option TypeError o.

Definition in_pipeline (c : CompressionConfig) (name : string) : bool := bool_decide (name ∈ default [] (pipeline c)).

(** A component that is given, or none. *)
Definition make {S} (new : option (meta_dict → result S)) (c : option meta_dict) : result (option S) :=
  match new with Some new => let? kw := kwargs c in let? x := new kw in Ok (Some x) | None => Ok None end.

Definition required {S} (given : option S) (c : CompressionConfig) (name : string) : result unit :=
  raise_if (enabled c && in_pipeline c name && negb (bool_decide (is_Some given))) (ValueError "component required but not provided").

Definition new_manager (c : CompressionConfig) (t : bool) (q : option quantizer_class) (k : bool) : result manager :=
  let? tr := make (if t then Some tr_new else None) (transformer_config c) in
  let? qu := make (qu_new <$> q) (quantizer_config c) in
  let? co := make (if k then Some co_new else None) (codec_config c) in
  let? _ := required tr c "transformer" in
  let? _ := required qu c "quantizer" in
  let? _ := required co c "codec" in
  Ok (mkManager c tr qu co 0 0).

Definition updated {S} (upd : meta_dict → S → S * result unit) (c : option meta_dict) (x : option S) : option S * result unit :=
  match x, c with
  | None, _ => (None, Ok ())
  | Some x, None => (Some x, Err TypeError)
  | Some x, Some kw => let (x, r) := upd kw x in (Some x, r)
  end.

(** What is updated before an exception stays. *)
Definition update_config (c : CompressionConfig) (m : manager) : manager * result unit :=
  let with_ tr qu co := mkManager c tr qu co (m_original_size m) (m_compressed_size m) in
  let (tr, r) := updated tr_update (transformer_config c) (transformer m) in
  match r with
  | Err e => (with_ tr (quantizer m) (codec m), Err e)
  | Ok _ =>
      let (qu, r) := updated qu_update (quantizer_config c) (quantizer m) in
      match r with
      | Err e => (with_ tr qu (codec m), Err e)
      | Ok _ => let (co, r) := updated co_update (codec_config c) (codec m) in (with_ tr qu co, r)
      end
  end.

Definition codec_layout : string :=
  let layout := lower (rstrip (lstrip (default "permuted" layout_env))) in
  if bool_decide (layout = "native") || bool_decide (layout = "permuted") then layout else "permuted".

Definition quantizer_supports_out (m : manager) : bool := from_option supports_out_buffer false (quantizer m).

Definition native_to_permuted (t : tensor) : result tensor := permute [0; 1; 4; 2; 3; 5]%nat t.
Definition permuted_to_native (t : tensor) : result tensor := permute [0; 1; 3; 4; 2; 5]%nat t.

(** ** Compression *)

(** The shape of a layer in the codec's layout, and a layer in it. *)
Definition layer_pack_shape (layout : string) (sh : list Z) : result (list Z) :=
  if bool_decide (layout = "permuted")
  then raise_if (length sh <? 5)%nat IndexError ;? Ok (pick sh [0; 3; 1; 2; 4]%nat)
  else Ok sh.

Definition pack_layer_into_codec_buffer (t : tensor) (d : string) (sh : list Z) (layout : string) : result tensor :=
  let? t := (if bool_decide (layout = "permuted") then permute [0; 3; 1; 2; 4]%nat t else Ok t) in
  copy_to d sh t.

Definition component {S} (x : option S) : result S := of_option AttributeError x.

(** Transformer and quantizer on one layer; the parameters are those of the
    quantizer, if it is in the pipeline. *)
Definition forward (m : manager) (layer_id : Z) (x : tensor) : result (tensor * list obj) :=
  let? x :=
    (if in_pipeline (config m) "transformer"
     then let? t := component (transformer m) in let? kw := kwargs (transformer_config (config m)) in transform t layer_id x kw
     else Ok x) in
  if in_pipeline (config m) "quantizer"
  then let? q := component (quantizer m) in let? kw := kwargs (quantizer_config (config m)) in
       let? (y, p) := quantize q layer_id x kw in Ok (y, [p])
  else Ok (x, []).

(** [_quantize_layers_direct] *)
Definition quantize_layers_direct (m : manager) (x : tensor) (start_layer_id : Z) : result (tensor * list obj) :=
  let? q := component (quantizer m) in
  let? kw := kwargs (quantizer_config (config m)) in
  let? l := rmap (λ i, let? t := row x i in quantize_out q (start_layer_id + i) t kw) (seqZ 0 (hd 0 (shape x))) in
  Ok (mkTensor (shape x) "uint8" (concat l.*1), l.*2).

Definition use_direct_quant (m : manager) : bool :=
  in_pipeline (config m) "quantizer" && negb (in_pipeline (config m) "transformer") && quantizer_supports_out m.

(** The buffer for the codec and the quantization parameters. *)
Definition process_direct (m : manager) (x : tensor) (start : Z) : result (tensor * list obj) :=
  let? (native, params) := quantize_layers_direct m x start in
  let? b := (if bool_decide (codec_layout = "native") then Ok native else native_to_permuted native) in
  Ok (b, params).

Definition process_by_layer (m : manager) (x : tensor) (start : Z) : result (tensor * list obj) :=
  let? t := row x 0 in
  let? (first, p) := forward m start t in
  let? sh := layer_pack_shape codec_layout (shape first) in
  let? b0 := pack_layer_into_codec_buffer first (dtype first) sh codec_layout in
  let? l := rmap (λ i,
      let? t := row x i in
      let? (y, p) := forward m (start + i) t in
      let? b := pack_layer_into_codec_buffer y (dtype first) sh codec_layout in
      Ok (b, p)) (seqZ 1 (hd 0 (shape x) - 1)) in
  Ok (stack sh (dtype first) (b0 :: l.*1), p ++ concat l.*2).

Definition process (m : manager) (x : tensor) (start : Z) : result (tensor * list obj) :=
  if use_direct_quant m then process_direct m x start else process_by_layer m x start.

Definition put (k : string) (v : obj) (d : meta_dict) : meta_dict := dset d (KStr k) v.

(** [{**a, **b}] *)
Definition merge (a b : meta_dict) : meta_dict := foldl (λ d e, dset d e.1 e.2) a b.

(** What is noted about the stages and the buffer. *)
Definition note_stages (m : manager) (b : tensor) (params : list obj) (meta : meta_dict) : meta_dict :=
  let meta := put "codec_layout" (OStr codec_layout) meta in
  let meta := if negb (use_direct_quant m) && in_pipeline (config m) "transformer" then put "transformer_applied" (OBool true) meta else meta in
  let meta :=
    if in_pipeline (config m) "quantizer"
    then put "quantization_params" (OList params) (put "quantization_applied" (OBool true) meta) else meta in
  put "codec_dtype" (OStr (dtype b)) (put "codec_shape" (ints (shape b)) meta).

(** [reshape(-1).view(torch.uint8)] *)
Definition raw_bytes (t : tensor) : tensor := byte_tensor (data t).

(** A codec that raises is skipped. *)
Definition handle_codec_compression (m : manager) (b : tensor) (layer_id : Z) (meta : meta_dict) : tensor * meta_dict :=
  if in_pipeline (config m) "codec" then
    match (let? k := component (codec m) in let? kw := kwargs (codec_config (config m)) in encode k layer_id b kw) with
    | Ok t => (t, put "codec_applied" (OBool true) meta)
    | Err e => (raw_bytes b, put "codec_error" (OStr (exn_text e)) (put "codec_skipped" (OBool true) meta))
    end
  else (raw_bytes b, meta).

(** Layers [start, start + n) in one piece; [base] is what the caller notes
    first. *)
Definition compress_layers (m : manager) (x : tensor) (start : Z) (base : meta_dict) : result (tensor * meta_dict) :=
  let? (b, params) := process m x start in
  let (t, meta) := handle_codec_compression m b (start + hd 0 (shape x) - 1) (note_stages m b params base) in
  Ok (t, put "compressed_size" (OInt (nbytes t)) meta).

Definition base_metadata (request_id : string) (x : tensor) (metadata : meta_dict) : meta_dict :=
  merge [(KStr "request_id", OStr request_id); (KStr "original_dtype", OStr (dtype x)); (KStr "original_size", OInt (nbytes x));
         (KStr "device", OStr device); (KStr "start_layer_id", OInt 0); (KStr "num_layers", OInt (hd 0 (shape x)))] metadata.

Definition compress_single (m : manager) (x : tensor) (request_id : string) (metadata : meta_dict) : result CompressedKVData :=
  let? (t, meta) := compress_layers m x 0 (base_metadata request_id x metadata) in
  Ok (mkKVData request_id (hd 0 (shape x) - 1) (Some t) (ODict meta) (nbytes x) (nbytes t) false None None).

(** *** In chunks *)

Definition CHUNK_SIZE : Z := 8.

Definition chunk_metadata_base (request_id : string) (x : tensor) (num_chunks idx start stop : Z) (metadata : meta_dict) : meta_dict :=
  merge [(KStr "request_id", OStr request_id); (KStr "original_dtype", OStr (dtype x)); (KStr "device", OStr device);
         (KStr "start_layer_id", OInt start); (KStr "num_layers", OInt (stop - start)); (KStr "chunk_index", OInt idx);
         (KStr "total_chunks", OInt num_chunks)] metadata.

Definition num_chunks (num_layers : Z) : Z := (num_layers + CHUNK_SIZE - 1) / CHUNK_SIZE.

Definition compress_chunk (m : manager) (x : tensor) (request_id : string) (metadata : meta_dict) (idx : Z) : result (tensor * meta_dict) :=
  let start := idx * CHUNK_SIZE in
  let stop := Z.min (start + CHUNK_SIZE) (hd 0 (shape x)) in
  compress_layers m (rows x start stop) start
    (chunk_metadata_base request_id x (num_chunks (hd 0 (shape x))) idx start stop metadata).

Definition chunked_metadata (request_id : string) (x : tensor) (metadata : meta_dict) : meta_dict :=
  merge [(KStr "request_id", OStr request_id); (KStr "original_size", OInt (nbytes x)); (KStr "num_layers", OInt (hd 0 (shape x)));
         (KStr "is_chunked", OBool true); (KStr "num_chunks", OInt (num_chunks (hd 0 (shape x))))] metadata.

Definition compress_all_layers_chunked (m : manager) (x : tensor) (request_id : string) (metadata : meta_dict) : option CompressedKVData :=
  match rmap (compress_chunk m x request_id metadata) (seqZ 0 (num_chunks (hd 0 (shape x)))) with
  | Err _ => None
  | Ok l =>
      Some (mkKVData request_id (hd 0 (shape x) - 1) None (ODict (chunked_metadata request_id x metadata)) (nbytes x)
              (sumZ (nbytes <$> l.*1)) true (Some l.*1) (Some (ODict <$> l.*2)))
  end.

Definition CHUNK_THRESHOLD : Z := 500 * 1024 * 1024.

Definition set_sizes (original compressed : Z) (m : manager) : manager :=
  mkManager (config m) (transformer m) (quantizer m) (codec m) original compressed.

Definition disabled (c : CompressionConfig) : bool := negb (enabled c) || bool_decide (default [] (pipeline c) = []).

Definition compress_all_layers (x : tensor) (request_id : string) (c : CompressionConfig) (metadata : meta_dict) (m : manager) :
    manager * result (option CompressedKVData) :=
  let (m, r) := update_config c m in
  match r with
  | Err e => (m, Err e)
  | Ok _ =>
      if disabled c then (m, Ok None)
      else if negb (length (shape x) =? 6)%nat then (m, Ok None)
      else if nbytes x <? min_compress_size c then (m, Ok None)
      else if CHUNK_THRESHOLD <? nbytes x then (m, Ok (compress_all_layers_chunked m x request_id metadata))
      else
        match compress_single m x request_id metadata with
        | Ok d => (set_sizes (nbytes x) (compressed_size d) m, Ok (Some d))
        | Err _ => (set_sizes (nbytes x) 0 m, Ok None)
        end
  end.

(** ** Decompression *)

Definition name_of (o : option obj) : result string := match o with Some (OStr s) => Ok s | _ => Err TypeError end.

Definition handle_codec_decompression (m : manager) (t : tensor) (meta : meta_dict) (layer_id : Z) : result tensor :=
  let applied := from_option truthy_obj false (get meta "codec_applied") in
  if in_pipeline (config m) "codec" && applied then
    let? d := of_option AssertionError (get meta "codec_dtype") in
    let? sh := of_option AssertionError (get meta "codec_shape") in
    let? dev := of_option AssertionError (get meta "device") in
    let? d := as_name d in
    let? sh := as_shape sh in
    let? dev := as_name dev in
    let? k := component (codec m) in
    let? kw := kwargs (codec_config (config m)) in
    decode k layer_id t d sh dev kw
  else
    let? d := name_of (get meta "codec_dtype") in
    let? b := view_uint8 t in
    let? sh := of_option TypeError (get meta "codec_shape") in
    let? sh := as_shape sh in
    view_as d sh 0 b.

(** Quantizer and transformer undone on one layer. *)
Definition backward (m : manager) (layer_id : Z) (y : tensor) (p : option obj) : result tensor :=
  let? y :=
    (if in_pipeline (config m) "quantizer"
     then let? p := of_option TypeError p in let? q := component (quantizer m) in
          let? kw := kwargs (quantizer_config (config m)) in dequantize q layer_id y p kw
     else Ok y) in
  if in_pipeline (config m) "transformer"
  then let? t := component (transformer m) in let? kw := kwargs (transformer_config (config m)) in inverse t layer_id y kw
  else Ok y.

(** [getattr(torch, name, torch.bfloat16)] for the name of a dtype *)
Definition target_dtype (meta : meta_dict) : result string :=
  let? d := as_name (default (OStr "bfloat16") (get meta "original_dtype")) in
  Ok (match element_size d with Some _ => d | None => "bfloat16"%string end).

(** The codec's output in the native layout. *)
Definition to_native (meta : meta_dict) (b : tensor) : result tensor :=
  match default (OStr "permuted") (get meta "codec_layout") with
  | OStr s => if bool_decide (s = "permuted") then permuted_to_native b else Ok b
  | _ => Ok b
  end.

(** [None] where a parameter is missing. *)
Definition params_of (m : manager) (meta : meta_dict) (i : Z) : result (option (option obj)) :=
  if in_pipeline (config m) "quantizer" then
    let? l := of_option TypeError (get meta "quantization_params") in
    let? l := as_list l in
    let? p := py_index l i in
    Ok (match p with ONone => None | _ => Some (Some p) end)
  else Ok (Some None).

Definition chunk_params_of (m : manager) (meta : meta_dict) (i : Z) : result (option (option obj)) :=
  if in_pipeline (config m) "quantizer" then
    let? l := as_list (default (OList []) (get meta "quantization_params")) in
    Ok (match l !! Z.to_nat i with Some ONone | None => None | Some p => Some (Some p) end)
  else Ok (Some None).

(** The loop over the layers: [None] where it returns early. *)
Fixpoint restore_layers (m : manager) (params : Z → result (option (option obj))) (d : string) (sh : list Z) (b : tensor) (start : Z)
    (l : list Z) : result (option (list tensor)) :=
  match l with
  | [] => Ok (Some [])
  | i :: l =>
      let? y := row b i in
      let? p := params i in
      match p with
      | None => Ok None
      | Some p =>
          let? z := backward m (start + i) y p in
          let? z := copy_to d sh z in
          let? rest := restore_layers m params d sh b start l in
          Ok (match rest with Some zs => Some (z :: zs) | None => None end)
      end
  end.

Definition decompress_layers (m : manager) (params : Z → result (option (option obj))) (t : tensor) (meta : meta_dict) (codec_layer start n : Z) :
    result (option tensor) :=
  let? b := handle_codec_decompression m t meta codec_layer in
  let? b := to_native meta b in
  let sh := tail (shape b) in
  let? d := target_dtype meta in
  raise_if (n <? 0) (RuntimeError "negative dimension") ;?
  let? l := restore_layers m params d sh b start (seqZ 0 n) in
  Ok (stack sh d <$> l).

Definition meta_of (o : obj) : result meta_dict := match o with ODict d => Ok d | _ => Err AttributeError end.

Definition int_of (o : obj) : result Z := match o with OInt z => Ok z | OBool b => Ok (Z.b2z b) | _ => Err TypeError end.

Definition decompress_chunk (m : manager) (x : tensor * obj) : result (option tensor) :=
  let? meta := meta_of x.2 in
  let? start := int_of (default (OInt 0) (get meta "start_layer_id")) in
  let? n := int_of (default (OInt 8) (get meta "num_layers")) in
  decompress_layers m (chunk_params_of m meta) x.1 meta start start n.

(** A chunk that is not restored ends the loop. *)
Fixpoint decompress_chunks (m : manager) (l : list (tensor * obj)) : result (option (list tensor)) :=
  match l with
  | [] => Ok (Some [])
  | x :: l =>
      let? t := decompress_chunk m x in
      match t with
      | None => Ok None
      | Some t => let? rest := decompress_chunks m l in Ok (cons t <$> rest)
      end
  end.

Definition caught {A} (r : result (option A)) : option A := match r with Ok x => x | Err _ => None end.

Definition decompress_all_layers_chunked (m : manager) (c : CompressedKVData) : option (list tensor) :=
  match chunks c, chunk_metadata c with
  | Some (x :: xs), Some (y :: ys) =>
      caught (raise_if (length (y :: ys) <? length (x :: xs))%nat IndexError ;? decompress_chunks m (zip (x :: xs) (y :: ys)))
  | _, _ => None
  end.

Definition decompress_single (m : manager) (c : CompressedKVData) : result (option tensor) :=
  let? meta := meta_of (metadata c) in
  match get meta "num_layers" with
  | None | Some ONone => Ok None
  | Some n =>
      let? t := of_option AttributeError (compressed_tensor c) in
      let? n := int_of n in
      decompress_layers m (params_of m meta) t meta 0 0 n
  end.

Definition decompress_all_layers (c : CompressedKVData) (cfg : CompressionConfig) (m : manager) : manager * result (option decompressed) :=
  let (m, r) := update_config cfg m in
  match r with
  | Err e => (m, Err e)
  | Ok _ =>
      (m, Ok (if disabled cfg then None
              else if is_chunked c then Many <$> decompress_all_layers_chunked m c
              else One <$> caught (decompress_single m c)))
  end.

(** ** The adapter *)

Section adapter.
Context (num_kv_heads head_size : Z).

Definition adapter_meta (x : tensor) : meta_dict :=
  [(KStr "original_dtype", OStr (dtype x)); (KStr "original_shape", ints (shape x))].

(** [t.view(sh)] of a contiguous tensor *)
Definition view (sh : list Z) (t : tensor) : result tensor :=
  raise_if (negb (forallb (λ n, 0 <=? n) sh) || negb (prod sh =? numel t)) (RuntimeError "shape is invalid for the input") ;?
  Ok (mkTensor sh (dtype t) (data t)).

Definition six_dims (x : tensor) : result tensor :=
  match shape x with
  | [_; _; _; _; _; _] => Ok x
  | [num_layers; _; num_tokens; _] => view [num_layers; 2; 1; num_tokens; num_kv_heads; head_size] x
  | _ => Err (ValueError "Unsupported KV tensor rank for compression")
  end.

(** [compress] with one manager and its configuration *)
Definition adapter_compress (cfg : CompressionConfig) (x : tensor) (request_id : string) (m : manager) : manager * result (option CompressedKVData) :=
  match six_dims x with
  | Err e => (m, Err e)
  | Ok x6 => compress_all_layers x6 request_id cfg (adapter_meta x) m
  end.

(** [t.view(num_layers, 2, -1, kv_dim)] *)
Definition view_flat (t : tensor) : result tensor :=
  let? n := of_option IndexError (head (shape t)) in
  let k := n * 2 * (num_kv_heads * head_size) in
  raise_if ((k =? 0) || negb (numel t mod k =? 0)) (RuntimeError "shape is invalid for the input") ;?
  Ok (mkTensor [n; 2; numel t / k; num_kv_heads * head_size] (dtype t) (data t)).

Definition in_original_shape (meta : obj) (r : decompressed) : result tensor :=
  let? t := match r with One t => Ok t | Many l => cat l end in
  let? meta := meta_of meta in
  match get meta "original_shape" with
  | None | Some ONone => view_flat t
  | Some o => let? sh := as_shape o in view sh t
  end.

Definition adapter_decompress (cfg : CompressionConfig) (c : CompressedKVData) (m : manager) : manager * result (option tensor) :=
  let (m, r) := decompress_all_layers c cfg m in
  (m, let? x := r in
      match x with
      | None => Ok None
      | Some x => let? t := in_original_shape (metadata c) x in Ok (Some t)
      end).

End adapter.
End manager.
