(* ===== verification/V1ManagerThms.v ===== *)
(** * The compression manager: what comes back

    The fast path of the quantizer fills the same buffer as the loop over the
    layers; and whatever the pipeline, the layout of the codec's buffer and
    the number of chunks, decompression gives every layer as its own quantizer
    and transformer would, because codec, permutation and metadata lose
    nothing. What a codec and a quantizer with [out=] promise are classes. *)

From S2P Require Import Prelude PyData Wire WireThms TensorOps V1Manager.

(** ** Permutations of the two layouts *)

Notation to_perm := [0; 3; 1; 2; 4]%nat.
Notation fwd_perm := [0; 1; 4; 2; 3; 5]%nat.
Notation bwd_perm := [0; 1; 3; 4; 2; 5]%nat.

Lemma is_perm_dec p n : bool_decide (NoDup p) = true → forallb (λ a, a <? n)%nat p = true → length p = n → is_perm p n.
Proof.
  intros Hnd Hlt Hlen. apply bool_decide_eq_true in Hnd. unfold is_perm.
  apply submseteq_length_Permutation; [|rewrite length_seq; lia]. apply NoDup_submseteq; [done|].
  intros a Ha. apply elem_of_seq. apply forallb_forall with (x := a) in Hlt; [|by apply list_elem_of_In]. apply Nat.ltb_lt in Hlt. lia.
Qed.

Lemma to_perm_ok : is_perm to_perm 5.
Proof. by apply is_perm_dec; vm_compute. Qed.

Lemma fwd_perm_ok : is_perm fwd_perm 6.
Proof. by apply is_perm_dec; vm_compute. Qed.

Lemma bwd_perm_ok : is_perm bwd_perm 6.
Proof. by apply is_perm_dec; vm_compute. Qed.

Lemma bwd_undoes : undoes bwd_perm fwd_perm.
Proof. by repeat split. Qed.

(** ** Metadata *)

Lemma get_put k v d k' : get (put k v d) k' = if decide (k = k') then Some v else get d k'.
Proof.
  unfold get, put. destruct (decide (k = k')) as [->|Hne]; [by rewrite dget_dset_eq|]. apply dget_dset_ne. congruence.
Qed.

Lemma merge_get a b k v : get a k = Some v → Forall (λ e, e.1 = KStr k → e.2 = v) b → get (merge a b) k = Some v.
Proof.
  unfold merge. intros Ha Hb. revert a Ha. induction Hb as [|[k' v'] b Hv _ IH]; intros a Ha; [done|]. simpl. apply IH. unfold get.
  destruct (decide (k' = KStr k)) as [->|Hne]; [rewrite dget_dset_eq; f_equal; by apply Hv|by rewrite dget_dset_ne].
Qed.

Lemma merge_get_None a b k : get a k = None → Forall (λ e, e.1 ≠ KStr k) b → get (merge a b) k = None.
Proof.
  unfold merge. intros Ha Hb. revert a Ha. induction Hb as [|[k' v'] b Hv _ IH]; intros a Ha; [done|]. simpl. apply IH. unfold get.
  rewrite dget_dset_ne; [done|]. simpl in Hv. congruence.
Qed.

(** Entries of the caller that do not stand for something else. *)
Definition reserved : list string := ["device"; "num_layers"; "start_layer_id"; "codec_applied"].

Definition harmless (d : string) (md : meta_dict) : Prop :=
  Forall (λ e, (∀ k, k ∈ reserved → e.1 ≠ KStr k) ∧ (e.1 = KStr "original_dtype" → e.2 = OStr d)) md.

Lemma harmless_get d md k v a : harmless d md → k ∈ reserved → get a k = Some v → get (merge a md) k = Some v.
Proof.
  intros Hmd Hk Ha. apply merge_get; [done|]. eapply Forall_impl; [exact Hmd|]. intros e [He _] E. by destruct (He k Hk).
Qed.

(** ** What the components promise *)

Section manager.
Context `{D : !Dtypes, K : !Stages, KC : !Codecs, C : !Casts}.

(** With [out=] a quantizer writes what it would return, bytes of the layer's
    shape. *)
Class OutBuffers := {
  quantize_out_spec q i t kw : quantize_out q i t kw = (let? (y, p) := quantize q i t kw in Ok (data y, p));
  quantize_out_ok q i t kw y p :
    supports_out_buffer q = true → tensor_ok t → quantize q i t kw = Ok (y, p) → tensor_ok y ∧ dtype y = "uint8"%string ∧ shape y = shape t
}.

(** A codec decodes what it encoded, on its domain and device, whatever the
    layer id; [decodes k k' kw]: instance [k'] takes what [k] made with the
    parameters [kw]. *)
Class LosslessCodec := {
  codec_domain : co_state → meta_dict → tensor → Prop;
  codec_device : string → Prop;
  decodes : co_state → co_state → meta_dict → Prop;
  encode_ok k i b kw e : tensor_ok b → encode k i b kw = Ok e → tensor_ok e ∧ shape e ≠ [];
  codec_lossless kw k k' i j b e dev :
    decodes k k' kw → tensor_ok b → codec_domain k kw b → codec_device dev →
    encode k i b kw = Ok e → decode k' j e (dtype b) (shape b) dev kw = Ok b
}.

Context (layout_env : option string) (device : string) (exn_text : exn → string).

(** ** Layers and the buffer *)

(** The layers [l] of a tensor. *)
Definition layers_of (x : tensor) (l : list tensor) : Prop :=
  ∃ sh, uniform sh (dtype x) l ∧ x = stack sh (dtype x) l.

Lemma layers_row x l i : layers_of x l → 0 ≤ i → row x i = of_option IndexError (l !! Z.to_nat i).
Proof.
  intros (sh & Hl & ->) Hi. destruct (l !! Z.to_nat i) as [t|] eqn:E; [by eapply row_stack|].
  unfold row. simpl. apply lookup_ge_None in E. rewrite (proj2 (Z.leb_le 0 i)), (proj2 (Z.ltb_ge i _)) by (unfold zlen; lia). done.
Qed.

Lemma layers_len x l : layers_of x l → hd 0 (shape x) = zlen l.
Proof. by intros (sh & _ & ->). Qed.

Lemma layers_exist x : tensor_ok x → shape x ≠ [] → ∃ l, layers_of x l.
Proof.
  intros Hx Hs. destruct (shape x) as [|n sh] eqn:E; [done|].
  destruct (stack_rows x n sh Hx E) as (l & Hl & _ & Hst & _). exists l, sh. split; [|done]. by destruct x; simpl in *; subst.
Qed.

Lemma layers_rows x l a b : layers_of x l → 0 ≤ a ≤ b → b ≤ zlen l → layers_of (rows x a b) (slice l a b).
Proof.
  intros (sh & Hl & ->) Ha Hb. rewrite (rows_stack sh _ l a b) by done. exists sh. split; [|done].
  by apply Forall_take, Forall_drop.
Qed.

(** A loop whose body ends in a step that cannot fail. *)
Lemma rmap_post {A B B'} (f : A → result B) (f' : A → result B') (h : B → B') l :
  (∀ a, a ∈ l → f' a = (let? b := f a in Ok (h b))) → rmap f' l = (let? r := rmap f l in Ok (h <$> r)).
Proof.
  induction l as [|a l IH]; intros Hf; [done|]. cbn [rmap]. rewrite Hf by left. destruct (f a) as [b|e]; [|done]. cbn [rbind].
  rewrite IH by (intros; apply Hf; by right). by destruct (rmap f l).
Qed.

Definition codec_native : bool := bool_decide (codec_layout layout_env = "native"%string).

(** The buffer for the codec of a tensor in the native layout. *)
Definition lay_out (t : tensor) : result tensor := if codec_native then Ok t else native_to_permuted t.

Lemma codec_layout_cases : codec_layout layout_env = "native"%string ∨ codec_layout layout_env = "permuted"%string.
Proof. unfold codec_layout. repeat case_bool_decide; simpl; auto. Qed.

(** Transformer and quantizer on every layer. *)
Definition forward_layers (m : manager) (x : tensor) (start : Z) : result (list (tensor * list obj)) :=
  rmap (λ i, let? t := row x i in forward m (start + i) t) (seqZ 0 (hd 0 (shape x))).

(** The outputs for the layers have one shape and one dtype. *)
Definition uniform_outputs (m : manager) (x : tensor) (start : Z) (sh : list Z) (d : string) : Prop :=
  ∀ i t y p, row x i = Ok t → forward m (start + i) t = Ok (y, p) → tensor_ok y ∧ shape y = sh ∧ dtype y = d.

Definition packed_layer (y : tensor) : tensor :=
  if codec_native then y else match permute to_perm y with Ok b => b | Err _ => y end.

Definition packed_shape (sh : list Z) : list Z := if codec_native then sh else pick sh to_perm.

Lemma pack_layer_ok sh d y :
  length sh = 5%nat → tensor_ok y → shape y = sh → dtype y = d →
  layer_pack_shape (codec_layout layout_env) (shape y) = Ok (packed_shape sh) ∧
  pack_layer_into_codec_buffer y d (packed_shape sh) (codec_layout layout_env) = Ok (packed_layer y).
Proof.
  intros H5 Hy Hs Hd. unfold layer_pack_shape, pack_layer_into_codec_buffer, packed_shape, packed_layer, codec_native.
  destruct codec_layout_cases as [->| ->]; cbn -[permute pick].
  - split; [by rewrite Hs|]. rewrite <- Hs, <- Hd. apply copy_to_same.
  - rewrite Hs, H5. cbn -[permute pick]. split; [done|].
    destruct (permute_ok to_perm y Hy) as (b & -> & Hb & Hbs & Hbd & _); [rewrite Hs, H5; apply to_perm_ok|]. cbn -[pick].
    rewrite <- Hs, <- Hbs, <- Hd, <- Hbd. apply copy_to_same.
Qed.

Lemma lay_out_stack sh d ys :
  length sh = 5%nat → Forall (λ n, 0 ≤ n) sh → uniform sh d ys →
  lay_out (stack sh d ys) = Ok (stack (packed_shape sh) d (packed_layer <$> ys)).
Proof.
  intros H5 Hsh Hys. unfold lay_out, packed_shape, packed_layer. destruct codec_native; [by rewrite list_fmap_id|].
  apply (permute_stack to_perm); [done..|by rewrite H5; apply to_perm_ok|]. apply Forall2_fmap_r, Forall_Forall2_diag.
  eapply Forall_impl; [exact Hys|]. intros y (Hy & Hs & _). simpl.
  destruct (permute_ok to_perm y Hy) as (b & -> & _); [rewrite Hs, H5; apply to_perm_ok|done].
Qed.

Lemma forward_uniform m x start sh d r :
  uniform_outputs m x start sh d → forward_layers m x start = Ok r → uniform sh d r.*1.
Proof.
  intros HU Hr. unfold forward_layers in Hr. apply rmap_Ok in Hr. apply Forall_fmap, Forall_forall. intros [y p] Hin.
  apply list_elem_of_lookup in Hin as [k Hk]. destruct (Forall2_lookup_r _ _ _ _ _ Hr Hk) as (i & _ & Hi).
  apply rbind_Ok in Hi as (t & Ht & Hf). by eapply HU.
Qed.

(** The loop over the layers fills the buffer with their outputs. *)
Lemma by_layer_spec m x start sh d :
  0 < hd 0 (shape x) → length sh = 5%nat → Forall (λ n, 0 ≤ n) sh → uniform_outputs m x start sh d →
  process_by_layer layout_env m x start =
  (let? r := forward_layers m x start in let? b := lay_out (stack sh d r.*1) in Ok (b, concat r.*2)).
Proof.
  intros Hn H5 Hsh HU. pose proof (forward_uniform m x start sh d) as Hru. unfold process_by_layer, forward_layers in *.
  replace (hd 0 (shape x)) with (Z.succ (hd 0 (shape x) - 1)) in Hru |- * by lia. rewrite (seqZ_cons 0) in Hru |- * by lia.
  replace (Z.pred (Z.succ (hd 0 (shape x) - 1))) with (hd 0 (shape x) - 1) in Hru |- * by lia.
  replace (Z.succ (hd 0 (shape x) - 1) - 1) with (hd 0 (shape x) - 1) by lia.
  change (Z.succ 0) with 1 in *. cbn [rmap] in *. destruct (row x 0) as [t0|] eqn:E0; [|done]. cbn [rbind] in *.
  rewrite Z.add_0_r in Hru |- *. destruct (forward m start t0) as [[y0 p0]|] eqn:F0; [|done]. cbn [rbind] in *.
  destruct (HU 0 t0 y0 p0 E0) as (Hy0 & Hs0 & Hd0); [by rewrite Z.add_0_r|]. destruct (pack_layer_ok sh d y0 H5 Hy0 Hs0 Hd0) as [-> Hp].
  cbn [rbind]. rewrite Hd0, Hp. cbn [rbind].
  rewrite (rmap_post (λ i, let? t := row x i in forward m (start + i) t) _ (λ v, (packed_layer v.1, v.2))).
  - destruct (rmap _ _) as [r|]; [|done]. cbn [rbind] in *. specialize (Hru _ HU eq_refl). rewrite lay_out_stack by done. cbn [rbind].
    by rewrite !fmap_cons, <- !list_fmap_compose.
  - intros i _. destruct (row x i) as [t|] eqn:Et; [|done]. cbn [rbind]. destruct (forward m (start + i) t) as [[y p]|] eqn:Ef; [|done]. cbn [rbind].
    destruct (HU i t y p Et Ef) as (Hy & Hs & Hd). destruct (pack_layer_ok sh d y H5 Hy Hs Hd) as [_ ->]. done.
Qed.

Lemma rows_of x n sh i t : tensor_ok x → shape x = n :: sh → row x i = Ok t → tensor_ok t ∧ shape t = sh ∧ dtype t = dtype x.
Proof.
  intros Hx Hs Hr. destruct (stack_rows x n sh Hx Hs) as (l & Hl & _ & _ & Hrows). apply rmap_Ok in Hrows.
  unfold row in Hr. rewrite Hs in Hr. destruct (Z.leb_spec 0 i) as [H0|]; [|done]. destruct (Z.ltb_spec i n) as [H1|]; [|done]. simpl in Hr.
  destruct (Forall2_lookup_l _ _ _ (Z.to_nat i) i Hrows) as (t' & Ht' & E); [rewrite lookup_seqZ_lt by lia; f_equal; lia|].
  unfold row in E. rewrite Hs, (proj2 (Z.leb_le 0 i)), (proj2 (Z.ltb_lt i n)) in E by done. simpl in E. rewrite E in Hr. injection Hr as <-.
  by eapply Forall_lookup_1 in Hl.
Qed.

Lemma forward_layers_len m x start r : forward_layers m x start = Ok r → zlen r = Z.max 0 (hd 0 (shape x)).
Proof. intros Hr%rmap_length. unfold zlen. rewrite Hr, length_seqZ. lia. Qed.

(** *** The fast path *)

Lemma use_direct_forward m :
  use_direct_quant m = true →
  ∃ q, quantizer m = Some q ∧ supports_out_buffer q = true ∧ in_pipeline (config m) "quantizer" = true ∧
  ∀ i t, forward m i t = (let? kw := kwargs (quantizer_config (config m)) in let? (y, p) := quantize q i t kw in Ok (y, [p])).
Proof.
  unfold use_direct_quant. intros [[Hq Ht%negb_true_iff]%andb_prop Hs]%andb_prop. unfold quantizer_supports_out in Hs.
  destruct (quantizer m) as [q|] eqn:E; [|done]. exists q. split_and!; try done. intros i t. unfold forward. by rewrite Hq, Ht, E.
Qed.

Lemma direct_uniform `{!OutBuffers} m x start n sh :
  use_direct_quant m = true → tensor_ok x → shape x = n :: sh → uniform_outputs m x start sh "uint8".
Proof.
  intros Hd Hx Hs i t y p Ht Hf. destruct (use_direct_forward m Hd) as (q & _ & Hout & _ & Hfw). rewrite Hfw in Hf.
  apply rbind_Ok in Hf as (kw & _ & Hf). apply rbind_Ok in Hf as ([y' p'] & Hq & [= <- <-]).
  destruct (rows_of x n sh i t Hx Hs Ht) as (Hok & <- & _). apply (quantize_out_ok q) in Hq as (? & ? & ?); done.
Qed.

Lemma direct_spec `{!OutBuffers} m x start n sh :
  use_direct_quant m = true → tensor_ok x → shape x = n :: sh → 0 < n →
  quantize_layers_direct m x start = (let? r := forward_layers m x start in Ok (stack sh "uint8" r.*1, concat r.*2)).
Proof.
  intros Hd Hx Hs Hn. pose proof (forward_layers_len m x start) as Hlen. unfold quantize_layers_direct, forward_layers in *. rewrite Hs in Hlen |- *. cbn [hd] in *.
  destruct (use_direct_forward m Hd) as (q & -> & _ & _ & Hfw). cbn [component of_option rbind].
  destruct (kwargs _) as [kw|e]; cbn [rbind] in *.
  - rewrite (rmap_post (λ i, let? t := row x i in forward m (start + i) t) _ (λ v, (data v.1, default ONone (head v.2)))).
    + destruct (rmap _ _) as [r|] eqn:Er; [|done]. cbn [rbind]. rewrite <- !list_fmap_compose. unfold stack. rewrite <- list_fmap_compose. unfold compose. simpl.
      assert (Hz : zlen r.*1 = n) by (unfold zlen in *; rewrite length_fmap; specialize (Hlen r eq_refl); lia). rewrite Hz. do 2 f_equal.
      clear Hlen Hz. apply rmap_Ok in Er. induction Er as [|i [y p] il r Hi _ IH]; [done|]. csimpl. rewrite IH. f_equal.
      apply rbind_Ok in Hi as (t & _ & Hf). rewrite Hfw in Hf. apply rbind_Ok in Hf as ([y' p'] & _ & E). by injection E as _ <-.
    + intros i _. destruct (row x i) as [t|]; [|done]. cbn [rbind]. rewrite Hfw, quantize_out_spec. by destruct (quantize q _ t kw) as [[y p]|].
  - rewrite seqZ_cons by lia. cbn [rmap]. unfold row. rewrite Hs. cbn [hd]. destruct (Z.ltb_spec 0 n); [|lia]. simpl. by rewrite Hfw.
Qed.

Lemma direct_is_by_layer `{!OutBuffers} m x start n sh :
  use_direct_quant m = true → tensor_ok x → shape x = n :: sh → 0 < n → length sh = 5%nat →
  process_direct layout_env m x start = process_by_layer layout_env m x start.
Proof.
  intros Hd Hx Hs Hn H5. pose proof (ok_shape x Hx) as Hsh. rewrite Hs in Hsh. apply Forall_cons in Hsh as [_ Hsh].
  rewrite (by_layer_spec m x start sh "uint8"); [|by rewrite Hs|done|done|by eapply direct_uniform].
  unfold process_direct. rewrite (direct_spec m x start n sh) by done. by destruct (forward_layers m x start).
Qed.

(** C34 The fast path is a refactoring: for every tensor of layers, either
    layout of the codec's buffer and every quantizer that writes into a buffer
    what it would return, quantizing straight into one native buffer with one
    bulk permutation gives the same buffer and the same parameters as
    processing and permuting layer by layer, and the same exception where one
    is raised. *)
Theorem direct_quantization_equivalent `{!OutBuffers} m x start n sh :
  use_direct_quant m = true → tensor_ok x → shape x = n :: sh → 0 < n → length sh = 5%nat →
  process_direct layout_env m x start = process_by_layer layout_env m x start.
Proof. apply direct_is_by_layer. Qed.

Lemma process_spec `{!OutBuffers} m x start n sh0 sh d :
  tensor_ok x → shape x = n :: sh0 → 0 < n → length sh0 = 5%nat → length sh = 5%nat → Forall (λ n, 0 ≤ n) sh → uniform_outputs m x start sh d →
  process layout_env m x start = (let? r := forward_layers m x start in let? b := lay_out (stack sh d r.*1) in Ok (b, concat r.*2)).
Proof.
  intros Hx Hs Hn H50 H5 Hsh HU. rewrite <- (by_layer_spec m x start sh d) by (done || by rewrite Hs). unfold process.
  destruct (use_direct_quant m) eqn:E; [|done]. by eapply direct_is_by_layer.
Qed.

(** ** Layer by layer *)

(** What a layer is after its own way through the components of the producer
    and the consumer; [f] is what happens to the parameters in between. *)
Definition restored_layer (f : obj → obj) (m m' : manager) (d : string) (i : Z) (t : tensor) : result tensor :=
  let? (y, p) := forward m i t in
  let? z := backward m' i y (f <$> head p) in
  copy_to d (shape y) z.

Definition restored (f : obj → obj) (m m' : manager) (x : tensor) (start : Z) : result (list tensor) :=
  rmap (λ i, let? t := row x i in restored_layer f m m' (dtype x) (start + i) t) (seqZ 0 (hd 0 (shape x))).

Definition params_given (m : manager) (x : tensor) (start : Z) : Prop :=
  ∀ i t y p, row x i = Ok t → forward m (start + i) t = Ok (y, p) → ONone ∉ p.

(** One layer of what [forward] gave and what comes back of it. *)
Definition layer_back (f : obj → obj) (m' : manager) (d : string) (sh : list Z) (i : Z) (r : tensor * list obj) (z : tensor) : Prop :=
  ∃ z0, backward m' i r.1 (f <$> head r.2) = Ok z0 ∧ copy_to d sh z0 = Ok z.

Lemma restored_forward f m m' x start sh qd zs :
  uniform_outputs m x start sh qd → restored f m m' x start = Ok zs →
  ∃ r, forward_layers m x start = Ok r ∧ length zs = length r ∧
  ∀ k v z, r !! k = Some v → zs !! k = Some z → layer_back f m' (dtype x) sh (start + Z.of_nat k) v z.
Proof.
  intros HU Hz%rmap_Ok. unfold forward_layers. set (l := seqZ 0 _) in *.
  assert (Hlk : ∀ k i, l !! k = Some i → i = Z.of_nat k) by (intros k i Hk%lookup_seqZ; lia).
  assert (H : ∃ r, Forall2 (λ i v, (let? t := row x i in forward m (start + i) t) = Ok v) l r).
  { clear Hlk. induction Hz as [|i z l zs Hi _ [r IH]]; [by exists []|]. apply rbind_Ok in Hi as (t & Ht & Hr).
    apply rbind_Ok in Hr as ([y p] & Hf & _). exists ((y, p) :: r). constructor; [by rewrite Ht|done]. }
  destruct H as [r Hr]. exists r. split; [by apply rmap_Ok|]. split.
  { apply Forall2_length in Hz, Hr. congruence. }
  intros k v z Hv Hk. destruct (Forall2_lookup_r _ _ _ _ _ Hr Hv) as (i & Hi & Hfw). rewrite <- (Hlk k i Hi).
  pose proof (Forall2_lookup_lr _ _ _ _ _ _ Hz Hi Hk) as Hb. simpl in Hb.
  apply rbind_Ok in Hb as (t & Ht & Hb). rewrite Ht in Hfw. cbn [rbind] in Hfw. unfold restored_layer in Hb. rewrite Hfw in Hb.
  destruct v as [y p]. cbn [rbind] in Hb. destruct (HU i t y p Ht Hfw) as (_ & <- & _).
  apply rbind_Ok in Hb as (z0 & Hb & Hc). by exists z0.
Qed.

(** Parts of a tensor. *)
Lemma row_rows x n sh a b j :
  tensor_ok x → shape x = n :: sh → 0 ≤ a ≤ b → b ≤ n → row (rows x a b) j = if (0 <=? j) && (j <? b - a) then row x (a + j) else Err IndexError.
Proof.
  intros Hx Hs Ha Hb. pose proof (ok_shape x Hx) as Hsh. rewrite Hs in Hsh. apply Forall_cons in Hsh as [_ Hsh].
  unfold row at 1. cbn [rows shape]. destruct (Z.leb_spec 0 j) as [H0|]; [|done]. destruct (Z.ltb_spec j (b - a)) as [H1|]; [|done]. simpl.
  unfold row. rewrite Hs, (proj2 (Z.leb_le 0 (a + j))), (proj2 (Z.ltb_lt (a + j) n)) by lia. simpl. do 2 f_equal.
  assert (Hk : row_bytes (rows x a b) = row_bytes x) by (unfold row_bytes; cbn [shape rows tail]; by rewrite Hs). rewrite Hk.
  assert (0 ≤ row_bytes x). { unfold row_bytes. rewrite Hs. cbn [tail]. pose proof (prod_nonneg sh Hsh). pose proof (itemsize_pos x). nia. }
  cbn [rows data]. rewrite slice_slice by nia. f_equal; ring.
Qed.

Lemma rows_ok x n sh a b : tensor_ok x → shape x = n :: sh → 0 ≤ a ≤ b → b ≤ n → tensor_ok (rows x a b) ∧ shape (rows x a b) = (b - a) :: sh ∧ dtype (rows x a b) = dtype x.
Proof.
  intros Hx Hs Ha Hb. pose proof (ok_shape x Hx) as Hsh. rewrite Hs in Hsh. apply Forall_cons in Hsh as [Hn Hsh].
  destruct (stack_rows x n sh Hx Hs) as (l & Hl & Hz & Hst & _). unfold rows at 2 3. cbn [shape dtype]. rewrite Hs. split; [|done].
  rewrite Hst, (rows_stack sh _ l a b) by (done || lia). apply stack_ok; [apply Hx|done|]. by apply Forall_take, Forall_drop.
Qed.

Lemma rows_all x n sh : tensor_ok x → shape x = n :: sh → rows x 0 n = x.
Proof.
  intros Hx Hs. pose proof (ok_shape x Hx) as Hsh. rewrite Hs in Hsh. apply Forall_cons in Hsh as [Hn _].
  destruct (stack_rows x n sh Hx Hs) as (l & Hl & Hz & Hst & _). rewrite Hst, (rows_stack sh _ l 0 n) by (done || lia). f_equal.
  change (Z.to_nat 0) with 0%nat. rewrite drop_0. apply take_ge. unfold zlen in Hz. lia.
Qed.

Lemma restored_part f m m' x n sh a b zs :
  tensor_ok x → shape x = n :: sh → 0 ≤ a ≤ b → b ≤ n → restored f m m' x 0 = Ok zs → restored f m m' (rows x a b) a = Ok (slice zs a b).
Proof.
  intros Hx Hs Ha Hb Hz%rmap_Ok. unfold restored. rewrite Hs in Hz. cbn [rows shape hd dtype] in *. apply rmap_Ok.
  pose proof (Forall2_length _ _ _ Hz) as Hlen. rewrite length_seqZ in Hlen.
  apply Forall2_same_length_lookup. unfold slice. rewrite length_seqZ, length_take, length_drop. split; [lia|].
  intros k i z Hi%lookup_seqZ Hk. destruct Hi as [-> Hk']. rewrite lookup_take_lt, lookup_drop in Hk by lia. rewrite (row_rows x n sh) by done.
  rewrite (proj2 (Z.leb_le _ _)), (proj2 (Z.ltb_lt _ _)) by lia. simpl.
  eapply Forall2_lookup_lr in Hz; [|apply lookup_seqZ_lt|exact Hk]; [|lia]. simpl in Hz.
  replace (0 + Z.of_nat (Z.to_nat a + k)) with (a + (0 + Z.of_nat k)) in Hz by lia. exact Hz.
Qed.

(** ** Through the codec *)

(** What a consumer reads of the metadata of a buffer [e]: the tensor [t] in
    the native layout, the dtype and the layers of the result, and the
    parameters. *)
Record describes (m' : manager) (meta : meta_dict) (e t : tensor) (d : string) (start n : Z) (ps : list obj) : Prop := {
  ds_buffer : ∃ b, (∀ i, handle_codec_decompression m' e meta i = Ok b) ∧ to_native meta b = Ok t;
  ds_dtype : target_dtype meta = Ok d;
  ds_layers : get meta "num_layers" = Some (OInt n);
  ds_start : get meta "start_layer_id" = Some (OInt start);
  ds_params : in_pipeline (config m') "quantizer" = true → get meta QPARAMS = Some (OList ps)
}.

(** It depends on these entries only. *)
Definition read_keys : list string := ["codec_applied"; "codec_dtype"; "codec_shape"; "device"; "codec_layout"; "original_dtype"; "num_layers"; "start_layer_id"].

Lemma describes_same m' meta meta' e t d start n ps ps' :
  (∀ k, k ∈ read_keys → get meta' k = get meta k) →
  (in_pipeline (config m') "quantizer" = true → get meta' QPARAMS = Some (OList ps')) →
  describes m' meta e t d start n ps → describes m' meta' e t d start n ps'.
Proof.
  intros Hk Hp [(b & Hb & Hn) Hd Hl Hs _].
  assert (H : ∀ k, bool_decide (k ∈ read_keys) = true → get meta' k = get meta k) by (intros k E; apply bool_decide_eq_true in E; auto).
  split; [exists b; split| | | |done].
  - intros i. rewrite <- (Hb i). unfold handle_codec_decompression. by rewrite !H.
  - rewrite <- Hn. unfold to_native. by rewrite !H.
  - rewrite <- Hd. unfold target_dtype. by rewrite !H.
  - by rewrite H.
  - by rewrite H.
Qed.

Context `{L : !LosslessCodec}.

(** The consumer has the producer's configuration and a codec that takes what
    the producer's made. *)
Record agree (m m' : manager) : Prop := {
  ag_config : config m' = config m;
  ag_codec k kw : in_pipeline (config m) "codec" = true → codec m = Some k → codec_config (config m) = Some kw →
    ∃ k', codec m' = Some k' ∧ decodes k k' kw;
  ag_device : in_pipeline (config m) "codec" = true → codec_device device
}.

Definition in_domain (m : manager) (b : tensor) : Prop :=
  in_pipeline (config m) "codec" = true → ∀ k kw, codec m = Some k → codec_config (config m) = Some kw → codec_domain k kw b.

Lemma byte_tensor_ok l : tensor_ok (byte_tensor l).
Proof.
  split; simpl; [by rewrite uint8_size|constructor; [unfold zlen; lia|done]|by rewrite byte_tensor_size].
Qed.

Definition codec_keys : list string := ["codec_applied"; "codec_skipped"; "codec_error"].

(** Whether the codec is used, raises or is absent, the buffer comes back. *)
Lemma codec_back m m' b i meta e meta' :
  agree m m' → in_domain m b → tensor_ok b →
  get meta "codec_dtype" = Some (OStr (dtype b)) → get meta "codec_shape" = Some (ints (shape b)) →
  get meta "device" = Some (OStr device) → get meta "codec_applied" = None →
  handle_codec_compression exn_text m b i meta = (e, meta') →
  tensor_ok e ∧ shape e ≠ [] ∧ (∀ k, k ∉ codec_keys → get meta' k = get meta k) ∧
  ∀ j, handle_codec_decompression m' e meta' j = Ok b.
Proof.
  intros [Hc Hk Hdv] Hdom Hb Hd Hs Hdev Happ. unfold handle_codec_compression, handle_codec_decompression. rewrite Hc.
  assert (Hraw : ∀ meta1 dt, get meta1 "codec_dtype" = Some (OStr (dtype b)) → get meta1 "codec_shape" = Some (ints (shape b)) →
    (let? d := name_of (get meta1 "codec_dtype") in let? b' := view_uint8 (raw_bytes b) in
     let? sh := of_option TypeError (get meta1 "codec_shape") in let? sh := as_shape sh in view_as d sh dt b') = view_as (dtype b) (shape b) dt (data b)).
  { intros meta1 dt -> ->. unfold raw_bytes. rewrite view_bytes. cbn [name_of rbind of_option]. by rewrite as_shape_ints. }
  assert (Hview : view_as (dtype b) (shape b) 0 (data b) = Ok b) by (apply view_as_data; [done|apply Z.mod_0_l; pose proof (itemsize_pos b); lia]).
  destruct (in_pipeline (config m) "codec") eqn:Ep.
  2: { intros [= <- <-]. split; [apply byte_tensor_ok|]. split; [done|]. split; [done|]. intros j. cbn [andb]. by rewrite Hraw. }
  destruct (let? k := component (codec m) in _) as [e'|ex] eqn:Ee; intros [= <- <-].
  - apply rbind_Ok in Ee as (k & Hck & Ee). apply rbind_Ok in Ee as (kw & Hkw & Ee).
    destruct (codec m) as [k1|] eqn:Ecm; [|done]. injection Hck as ->. unfold kwargs in *. destruct (codec_config (config m)) as [kw1|] eqn:Ekw; [|done]. injection Hkw as ->.
    destruct (Hk k kw) as (k' & -> & Hdecs); [done..|].
    destruct (encode_ok k i b kw e') as [He Hse]; [done..|]. split; [done|]. split; [done|]. split.
    + intros x Hx. rewrite get_put. destruct (decide _) as [<-|]; [|done]. destruct Hx. by left.
    + intros j. rewrite !get_put. simpl. rewrite Hd, Hs, Hdev. cbn [of_option rbind]. rewrite as_shape_ints. cbn [as_name rbind component of_option].
      eapply codec_lossless; [exact Hdecs|done|by apply Hdom|by apply Hdv|exact Ee].
  - split; [apply byte_tensor_ok|]. split; [done|]. split.
    + intros x Hx. rewrite !get_put. unfold codec_keys in Hx. repeat (destruct (decide _) as [<-|]; [set_solver|]). done.
    + intros j. rewrite !get_put. simpl. rewrite Happ. cbn [from_option andb]. rewrite <- Hview. by rewrite <- (Hraw meta 0), Hd, Hs.
Qed.

(** The layout is undone. *)
Lemma lay_out_back meta t b :
  tensor_ok t → length (shape t) = 6%nat → lay_out t = Ok b → get meta "codec_layout" = Some (OStr (codec_layout layout_env)) →
  tensor_ok b ∧ to_native meta b = Ok t.
Proof.
  intros Ht H6 Hb Hg. unfold to_native, lay_out, codec_native in *. rewrite Hg. cbn [default].
  destruct codec_layout_cases as [E|E]; rewrite E in Hb |- *; [by injection Hb as <-|].
  rewrite bool_decide_false in Hb by done. cbn [id]. rewrite bool_decide_true by done.
  destruct (permute_ok fwd_perm t Ht) as (b' & Hb' & Hok & Hsb & _); [rewrite H6; apply fwd_perm_ok|].
  assert (b' = b) as -> by (apply Ok_inj; by rewrite <- Hb'). split; [done|].
  apply (permute_undo fwd_perm bwd_perm t b); [done|rewrite H6; apply fwd_perm_ok|rewrite H6; apply bwd_perm_ok|apply bwd_undoes|done].
Qed.

Lemma stages_get m b ps meta k :
  k ∉ ["codec_layout"; "transformer_applied"; "quantization_applied"; QPARAMS; "codec_shape"; "codec_dtype"] →
  get (note_stages layout_env m b ps meta) k = get meta k.
Proof.
  intros Hk. unfold note_stages.
  assert (Hne : ∀ s, bool_decide (s ∈ ["codec_layout"; "transformer_applied"; "quantization_applied"; QPARAMS; "codec_shape"; "codec_dtype"]) = true → s ≠ k)
    by (intros s Hs <-; apply bool_decide_eq_true in Hs; done).
  rewrite !get_put, !decide_False by by apply Hne.
  destruct (in_pipeline _ "quantizer"), (negb _ && _); by rewrite ?get_put, ?decide_False by by apply Hne.
Qed.

(** Compressing layers, seen by a consumer. *)
Lemma compress_layers_describes m m' x start base t b ps d n :
  agree m m' → in_domain m b → process layout_env m x start = Ok (b, ps) →
  tensor_ok t → length (shape t) = 6%nat → lay_out t = Ok b → is_Some (element_size d) →
  get base "original_dtype" = Some (OStr d) → get base "num_layers" = Some (OInt n) → get base "start_layer_id" = Some (OInt start) →
  get base "device" = Some (OStr device) → get base "codec_applied" = None →
  ∃ e meta, compress_layers layout_env exn_text m x start base = Ok (e, meta) ∧ tensor_ok e ∧ shape e ≠ [] ∧ describes m' meta e t d start n ps.
Proof.
  intros Hag Hdom Hp Ht H6 Hl [sz Hsz] Hd Hn Hs Hdev Happ. unfold compress_layers. rewrite Hp. cbn [rbind].
  set (meta0 := note_stages _ _ _ _ _).
  assert (G : ∀ k, bool_decide (k ∉ ["codec_layout"; "transformer_applied"; "quantization_applied"; QPARAMS; "codec_shape"; "codec_dtype"]) = true → get meta0 k = get base k).
  { intros k Hk. apply stages_get. by apply bool_decide_eq_true in Hk. }
  assert (Glay : get meta0 "codec_layout" = Some (OStr (codec_layout layout_env))).
  { unfold meta0, note_stages. rewrite !get_put. simpl. destruct (in_pipeline _ "quantizer"), (negb _ && _); rewrite ?get_put; simpl; rewrite ?get_put; done. }
  destruct (lay_out_back meta0 t b Ht H6 Hl Glay) as [Hb Hnat].
  destruct (handle_codec_compression _ _ _ _ _) as [e meta1] eqn:Ec.
  destruct (codec_back m m' b (start + hd 0 (shape x) - 1) meta0 e meta1 Hag Hdom Hb) as (He & Hse & G1 & Hdec); [..|exact Ec|].
  { unfold meta0, note_stages. by rewrite get_put. }
  { unfold meta0, note_stages. by rewrite !get_put. }
  { by rewrite G. }
  { by rewrite G. }
  eexists e, _. split; [done|]. split; [done|]. split; [done|].
  assert (G2 : ∀ k, bool_decide (k ∉ codec_keys) = true → get meta1 k = get meta0 k) by (intros k E; apply bool_decide_eq_true in E; auto).
  apply (describes_same m' meta1 _ e t d start n ps ps).
  - intros k Hk. rewrite get_put. destruct (decide _) as [<-|]; [|done]. apply (bool_decide_eq_true_2 _) in Hk. discriminate Hk.
  - intros Eq. rewrite get_put. simpl. rewrite G2 by done. unfold meta0, note_stages. rewrite (ag_config _ _ Hag) in Eq.
    rewrite !get_put. simpl. rewrite Eq, get_put. done.
  - split.
    + exists b. split; [done|]. rewrite <- Hnat. unfold to_native. by rewrite G2.
    + unfold target_dtype. rewrite G2, G, Hd by done. simpl. by rewrite Hsz.
    + by rewrite G2, G.
    + by rewrite G2, G.
    + intros Eq. rewrite G2 by done. unfold meta0, note_stages. rewrite (ag_config _ _ Hag) in Eq. rewrite !get_put. simpl. rewrite Eq, get_put. done.
Qed.

(** ** Back to layers *)

Lemma forward_params m i t y p :
  forward m i t = Ok (y, p) → if in_pipeline (config m) "quantizer" then ∃ q, p = [q] else p = [].
Proof.
  intros (x & _ & H)%rbind_Ok. destruct (in_pipeline _ "quantizer"); [|by injection H as _ <-].
  apply rbind_Ok in H as (q & _ & H). apply rbind_Ok in H as (kw & _ & H). apply rbind_Ok in H as ([y' p'] & _ & H).
  injection H as _ <-. by exists p'.
Qed.

Lemma forward_layers_params m x start r k v :
  params_given m x start → forward_layers m x start = Ok r → r !! k = Some v →
  if in_pipeline (config m) "quantizer" then ∃ q, v.2 = [q] ∧ q ≠ ONone ∧ concat r.*2 !! k = Some q else v.2 = [].
Proof.
  intros Hp Hr Hk. unfold forward_layers in Hr. apply rmap_Ok in Hr.
  assert (H : ∀ j u, r !! j = Some u → if in_pipeline (config m) "quantizer" then ∃ q, u.2 = [q] ∧ q ≠ ONone else u.2 = []).
  { intros j [y p] Hj. destruct (Forall2_lookup_r _ _ _ _ _ Hr Hj) as (i & _ & Hi). apply rbind_Ok in Hi as (t & Ht & Hf).
    pose proof (forward_params m _ _ _ _ Hf) as Hfp. specialize (Hp i t y p Ht Hf). destruct (in_pipeline _ _); [|done].
    destruct Hfp as [q ->]. exists q. split; [done|]. intros ->. apply Hp. by left. }
  pose proof (H k v Hk) as Hv. destruct (in_pipeline _ _); [|done]. destruct Hv as (q & Hv & Hq). exists q. split_and!; [done..|].
  clear Hr Hp. revert k Hk. induction r as [|u r IH]; intros k Hk; [done|]. destruct (H 0%nat u eq_refl) as (q0 & Hq0 & _). csimpl. rewrite Hq0.
  destruct k as [|k]; [injection Hk as ->; rewrite Hv in Hq0; by injection Hq0 as ->|]. simpl in *. apply IH; [|done]. intros j w Hj. by apply (H (S j)).
Qed.

Lemma restore_layers_ok m' params d sh b start zs l :
  Forall2 (λ i z, ∃ y p z0, row b i = Ok y ∧ params i = Ok (Some p) ∧ backward m' (start + i) y p = Ok z0 ∧ copy_to d sh z0 = Ok z) l zs →
  restore_layers m' params d sh b start l = Ok (Some zs).
Proof.
  induction 1 as [|i z l zs (y & p & z0 & Hr & Hp & Hb & Hc) _ IH]; [done|]. cbn [restore_layers].
  rewrite Hr. cbn [rbind]. rewrite Hp. cbn [rbind]. rewrite Hb. cbn [rbind]. rewrite Hc. cbn [rbind]. by rewrite IH.
Qed.

(** A consumer that reads the metadata restores every layer. *)
Lemma decompress_back f m m' x start sh qd r zs meta e ci n params :
  agree m m' → uniform_outputs m x start sh qd → params_given m x start → (∀ o, f o = ONone → o = ONone) →
  forward_layers m x start = Ok r → restored f m m' x start = Ok zs → n = hd 0 (shape x) → 0 ≤ n →
  describes m' meta e (stack sh qd r.*1) (dtype x) start n (f <$> concat r.*2) →
  params = params_of m' meta ∨ params = chunk_params_of m' meta →
  decompress_layers m' params e meta ci start n = Ok (Some (stack sh (dtype x) zs)).
Proof.
  intros Hag HU Hpg Hf Hr Hz Hn H0 [(b & Hb & Hnat) Hd Hl Hs Hps] Hparams. unfold decompress_layers. rewrite Hb. cbn [rbind]. rewrite Hnat. cbn [rbind].
  rewrite Hd. cbn [rbind]. rewrite (proj2 (Z.ltb_ge n 0)) by done. cbn [raise_if rbind].
  destruct (restored_forward f m m' x start sh qd zs HU Hz) as (r' & Hr' & Hlen & Hback). rewrite Hr in Hr'. injection Hr' as <-.
  pose proof (forward_layers_len _ _ _ _ Hr) as Hrl. rewrite <- Hn, Z.max_r in Hrl by done. pose proof (forward_uniform m x start sh qd r HU Hr) as Hru.
  change (tail (shape (stack sh qd r.*1))) with sh. rewrite (restore_layers_ok _ _ _ _ _ _ zs); [done|].
  apply Forall2_same_length_lookup. rewrite length_seqZ. unfold zlen in Hrl. split; [lia|]. intros k i z Hi%lookup_seqZ Hk. destruct Hi as [-> Hk'].
  destruct (lookup_lt_is_Some_2 r k) as [v Hv]; [lia|]. destruct (Hback k v z Hv Hk) as (z0 & Hbk & Hc).
  exists v.1, (f <$> head v.2), z0. rewrite Z.add_0_l. split_and!; try done.
  { eapply row_stack; [exact Hru| |lia]. rewrite Nat2Z.id, list_lookup_fmap, Hv. done. }
  pose proof (forward_layers_params m x start r k v Hpg Hr Hv) as Hq. rewrite <- (ag_config _ _ Hag) in Hq.
  destruct Hparams as [-> | ->]; unfold params_of, chunk_params_of; (destruct (in_pipeline (config m') "quantizer") eqn:Eq; [|by rewrite Hq]);
    destruct Hq as (q & -> & Hne & Hq); specialize (Hps eq_refl); unfold QPARAMS in Hps; rewrite Hps; cbn [of_option rbind default as_list head].
  - rewrite py_index_nonneg, Nat2Z.id, list_lookup_fmap, Hq by lia. cbn [rbind fmap option_fmap option_map of_option].
    destruct (f q) eqn:Ef; try done. by destruct Hne, (Hf q).
  - cbn [id as_list rbind]. rewrite Nat2Z.id, list_lookup_fmap, Hq. cbn [fmap option_fmap option_map]. destruct (f q) eqn:Ef; try done. by destruct Hne, (Hf q).
Qed.

(** ** A part of the layers *)

(** What the components and the configuration have to be like for a tensor. *)
Record compressible (m m' : manager) (x : tensor) (sh : list Z) (qd : string) : Prop := {
  cp_ok : tensor_ok x;
  cp_dims : ∃ n sh0, shape x = n :: sh0 ∧ 0 < n ∧ length sh0 = 5%nat;
  cp_agree : agree m m';
  cp_shape : length sh = 5%nat ∧ Forall (λ n, 0 ≤ n) sh;
  cp_dtype : is_Some (element_size qd);
  cp_uniform : uniform_outputs m x 0 sh qd;
  cp_params : params_given m x 0;
  cp_domain : ∀ a b buf ps, 0 ≤ a ≤ b → b ≤ hd 0 (shape x) → process layout_env m (rows x a b) a = Ok (buf, ps) → in_domain m buf
}.

(** What may happen to metadata on the way: [f] to the quantization
    parameters. *)
Definition carries (f : obj → obj) (meta meta' : meta_dict) : Prop :=
  (∀ k, k ≠ QPARAMS → get meta' k = get meta k) ∧ ∀ ps, get meta QPARAMS = Some (OList ps) → get meta' QPARAMS = Some (OList (f <$> ps)).

Lemma carries_describes f m' meta meta' e t d start n ps :
  carries f meta meta' → describes m' meta e t d start n ps → describes m' meta' e t d start n (f <$> ps).
Proof.
  intros [Hk Hq] Hd. apply (describes_same m' meta meta' e t d start n ps); [|intros E; apply Hq; by apply Hd|done].
  intros k Hin. apply Hk. intros ->. apply (bool_decide_eq_true_2 _) in Hin. discriminate Hin.
Qed.

(** Compressed and carried over, a part is restored. *)
Lemma part_restored `{!OutBuffers} f m m' x sh qd zs a b base :
  compressible m m' x sh qd → (∀ o, f o = ONone → o = ONone) → restored f m m' x 0 = Ok zs → 0 ≤ a < b → b ≤ hd 0 (shape x) →
  get base "original_dtype" = Some (OStr (dtype x)) → get base "num_layers" = Some (OInt (b - a)) → get base "start_layer_id" = Some (OInt a) →
  get base "device" = Some (OStr device) → get base "codec_applied" = None →
  ∃ e meta, compress_layers layout_env exn_text m (rows x a b) a base = Ok (e, meta) ∧ tensor_ok e ∧ shape e ≠ [] ∧
  get meta "num_layers" = Some (OInt (b - a)) ∧ get meta "start_layer_id" = Some (OInt a) ∧
  ∀ meta', carries f meta meta' → ∀ ci params, params = params_of m' meta' ∨ params = chunk_params_of m' meta' →
    decompress_layers m' params e meta' ci a (b - a) = Ok (Some (stack sh (dtype x) (slice zs a b))).
Proof.
  intros [Hx (n & sh0 & Hs & Hn & H5) Hag [Hsh5 Hsh] Hqd HU Hp Hdom] Hf Hz Hab Hbn Hd Hl Hst Hdev Happ. rewrite Hs in Hbn, Hdom. cbn [hd] in Hbn, Hdom.
  destruct (rows_ok x n sh0 a b Hx Hs) as (Hrx & Hrs & Hrd); [lia..|].
  assert (HUp : uniform_outputs m (rows x a b) a sh qd).
  { intros i t y p Ht Hfw. rewrite (row_rows x n sh0) in Ht by (done || lia). destruct (_ && _); [|done]. by apply (HU (a + i) t y p Ht). }
  assert (Hpp : params_given m (rows x a b) a).
  { intros i t y p Ht Hfw. rewrite (row_rows x n sh0) in Ht by (done || lia). destruct (_ && _); [|done]. by apply (Hp (a + i) t y p Ht). }
  pose proof (restored_part f m m' x n sh0 a b zs Hx Hs ltac:(lia) Hbn Hz) as Hzp.
  destruct (restored_forward f m m' _ a sh qd _ HUp Hzp) as (r & Hr & _ & _).
  pose proof (process_spec m _ a (b - a) sh0 sh qd Hrx Hrs ltac:(lia) H5 Hsh5 Hsh HUp) as Hpr. rewrite Hr in Hpr. cbn [rbind] in Hpr.
  pose proof (forward_uniform m _ a sh qd r HUp Hr) as Hru. rewrite (lay_out_stack sh qd r.*1 Hsh5 Hsh Hru) in Hpr. cbn [rbind] in Hpr.
  destruct (compress_layers_describes m m' (rows x a b) a base (stack sh qd r.*1) _ _ (dtype x) (b - a) Hag (Hdom a b _ _ ltac:(lia) Hbn Hpr) Hpr)
    as (e & meta & Hc & He & Hse & Hdesc); [by apply stack_ok|by simpl; rewrite Hsh5|by apply lay_out_stack|apply Hx|done..|].
  exists e, meta. split_and!; [done..|apply Hdesc|apply Hdesc|]. intros meta' Hcar ci params Hpar.
  rewrite <- Hrd. apply (decompress_back f m m' (rows x a b) a sh qd r); try done; [lia|].
  rewrite Hrd. by apply (carries_describes f m' meta).
Qed.

(** ** The whole tensor *)

(** What reaches the consumer of [c]. *)
Record sent (f : obj → obj) (c c' : CompressedKVData) : Prop := {
  se_chunked : is_chunked c' = is_chunked c;
  se_tensor : is_chunked c = false → compressed_tensor c' = compressed_tensor c;
  se_chunks : is_chunked c = true → chunks c' = chunks c;
  se_meta meta : metadata c = ODict meta → ∃ meta', metadata c' = ODict meta' ∧ carries f meta meta';
  se_metas metas : is_chunked c = true → chunk_metadata c = Some (ODict <$> metas) →
    ∃ metas', chunk_metadata c' = Some (ODict <$> metas') ∧ Forall2 (carries f) metas metas'
}.

(** The result in one tensor. *)
Definition gathered (r : decompressed) : result tensor := match r with One t => Ok t | Many l => cat l end.

Lemma rmap_exists {A B} (f : A → result B) (P : A → B → Prop) l :
  (∀ a, a ∈ l → ∃ b, f a = Ok b ∧ P a b) → ∃ bs, rmap f l = Ok bs ∧ Forall2 P l bs.
Proof.
  induction l as [|a l IH]; intros H; [by exists []|]. destruct (H a) as (b & Hb & HP); [by left|].
  destruct IH as (bs & Hbs & HPs); [intros; apply H; by right|]. exists (b :: bs). cbn [rmap]. rewrite Hb. cbn [rbind]. rewrite Hbs. by split; [|constructor].
Qed.

(** The entries a part starts with. *)
Lemma merged_base (base : meta_dict) d md start n :
  harmless d md →
  get base "original_dtype" = Some (OStr d) → get base "num_layers" = Some (OInt n) → get base "start_layer_id" = Some (OInt start) →
  get base "device" = Some (OStr device) → get base "codec_applied" = None →
  let g := get (merge base md) in
  g "original_dtype" = Some (OStr d) ∧ g "num_layers" = Some (OInt n) ∧ g "start_layer_id" = Some (OInt start) ∧
  g "device" = Some (OStr device) ∧ g "codec_applied" = None.
Proof.
  intros Hmd Hd Hn Hs Hdev Ha. assert (Hres : ∀ k, bool_decide (k ∈ reserved) = true → k ∈ reserved) by (intros k; apply bool_decide_eq_true_1).
  split_and!; simpl.
  - apply merge_get; [done|]. eapply Forall_impl; [exact Hmd|]. by intros e [_ He].
  - eapply harmless_get; [done|by apply Hres|done].
  - eapply harmless_get; [done|by apply Hres|done].
  - eapply harmless_get; [done|by apply Hres|done].
  - apply merge_get_None; [done|]. eapply Forall_impl; [exact Hmd|]. intros e [He _]. apply He. by apply Hres.
Qed.

Section round_trip.
Context `{!OutBuffers} (f : obj → obj) (m m' : manager) (x : tensor) (sh : list Z) (qd : string) (zs : list tensor) (md : meta_dict) (request_id : string).
Hypothesis Hcomp : compressible m m' x sh qd.
Hypothesis Hf : ∀ o, f o = ONone → o = ONone.
Hypothesis Hzs : restored f m m' x 0 = Ok zs.
Hypothesis Hmd : harmless (dtype x) md.

Lemma single_restored :
  ∃ e meta, compress_single layout_env device exn_text m x request_id md = Ok (mkKVData request_id (hd 0 (shape x) - 1) (Some e) (ODict meta) (nbytes x) (nbytes e) false None None) ∧
  tensor_ok e ∧ shape e ≠ [] ∧ compress_layers layout_env exn_text m x 0 (base_metadata device request_id x md) = Ok (e, meta) ∧
  ∀ c', is_chunked c' = false → compressed_tensor c' = Some e → (∃ meta', metadata c' = ODict meta' ∧ carries f meta meta') →
    decompress_single m' c' = Ok (Some (stack sh (dtype x) zs)).
Proof.
  destruct (cp_dims _ _ _ _ _ Hcomp) as (n & sh0 & Hs & Hn & _).
  destruct (merged_base [(KStr "request_id", OStr request_id); (KStr "original_dtype", OStr (dtype x)); (KStr "original_size", OInt (nbytes x));
    (KStr "device", OStr device); (KStr "start_layer_id", OInt 0); (KStr "num_layers", OInt (hd 0 (shape x)))]
    (dtype x) md 0 (hd 0 (shape x)) Hmd) as (G1 & G2 & G3 & G4 & G5); [done..|].
  destruct (part_restored f m m' x sh qd zs 0 n (base_metadata device request_id x md) Hcomp Hf Hzs) as (e & meta & Hc & He & Hse & Hml & Hms & Hback);
    [lia|by rewrite Hs|exact G1|unfold base_metadata; rewrite G2, Hs; simpl; do 2 f_equal; lia|exact G3|exact G4|exact G5|].
  rewrite (rows_all x n sh0 (cp_ok _ _ _ _ _ Hcomp) Hs) in Hc.
  assert (Hzl : slice zs 0 n = zs).
  { apply rmap_length in Hzs. rewrite length_seqZ, Hs in Hzs. simpl in Hzs. unfold slice. change (Z.to_nat 0) with 0%nat. rewrite drop_0. apply take_ge. lia. }
  rewrite Hzl, Z.sub_0_r in *. exists e, meta. split; [unfold compress_single; by rewrite Hc|]. split_and!; [done..|].
  intros c' Hch Hct (meta' & Hmeta & Hcar). unfold decompress_single. rewrite Hmeta, Hct. cbn [meta_of rbind].
  assert (Hnum : get meta' "num_layers" = Some (OInt n)) by (rewrite (proj1 Hcar); done). rewrite Hnum. cbn [of_option rbind int_of].
  apply Hback; [done|by left].
Qed.

(** The layers of chunk [idx]. *)
Definition chunk_stop (idx : Z) : Z := Z.min (idx * CHUNK_SIZE + CHUNK_SIZE) (hd 0 (shape x)).

Definition chunk_ok (idx : Z) (e : tensor * meta_dict) : Prop :=
  tensor_ok e.1 ∧ shape e.1 ≠ [] ∧
  ∀ meta', carries f e.2 meta' →
    decompress_chunk m' (e.1, ODict meta') = Ok (Some (stack sh (dtype x) (slice zs (idx * CHUNK_SIZE) (idx * CHUNK_SIZE + CHUNK_SIZE)))).

Lemma num_chunks_bound idx n : 0 < n → 0 ≤ idx < num_chunks n → 0 ≤ idx * CHUNK_SIZE < n.
Proof. unfold num_chunks, CHUNK_SIZE. intros Hn Hi. pose proof (Z.mul_div_le (n + 8 - 1) 8). lia. Qed.

Lemma chunk_restored idx :
  0 ≤ idx < num_chunks (hd 0 (shape x)) → ∃ e, compress_chunk layout_env device exn_text m x request_id md idx = Ok e ∧ chunk_ok idx e.
Proof.
  intros Hi. destruct (cp_dims _ _ _ _ _ Hcomp) as (n & sh0 & Hs & Hn & _). set (a := idx * CHUNK_SIZE). set (b := chunk_stop idx).
  assert (Ha : 0 ≤ a < n) by (apply num_chunks_bound; [done|by rewrite Hs in Hi]).
  assert (Hb : a < b ∧ b ≤ n ∧ b ≤ a + CHUNK_SIZE ∧ (b = a + CHUNK_SIZE ∨ b = n)) by (unfold b, chunk_stop, a in *; rewrite Hs; cbn [hd]; unfold CHUNK_SIZE in *; lia).
  unfold compress_chunk. fold a. change (Z.min (a + CHUNK_SIZE) (hd 0 (shape x))) with b.
  set (base := chunk_metadata_base _ _ _ _ _ _ _ _).
  destruct (merged_base [(KStr "request_id", OStr request_id); (KStr "original_dtype", OStr (dtype x)); (KStr "device", OStr device);
    (KStr "start_layer_id", OInt a); (KStr "num_layers", OInt (b - a)); (KStr "chunk_index", OInt idx);
    (KStr "total_chunks", OInt (num_chunks (hd 0 (shape x))))] (dtype x) md a (b - a) Hmd) as (G1 & G2 & G3 & G4 & G5); [done..|].
  destruct (part_restored f m m' x sh qd zs a b base Hcomp Hf Hzs) as (e & meta & Hc & He & Hse & Hml & Hms & Hback);
    [lia|rewrite Hs; cbn [hd]; lia|exact G1|exact G2|exact G3|exact G4|exact G5|].
  exists (e, meta). split; [done|]. split; [done|]. split; [done|]. intros meta' Hcar. cbn [fst snd] in *. unfold decompress_chunk. cbn [fst snd meta_of rbind].
  assert (G : get meta' "start_layer_id" = Some (OInt a) ∧ get meta' "num_layers" = Some (OInt (b - a))) by (by rewrite !(proj1 Hcar)).
  destruct G as [-> ->]. cbn [default int_of rbind id]. rewrite (Hback meta' Hcar); [|by right]. do 3 f_equal.
  unfold slice. destruct (proj2 (proj2 (proj2 Hb))) as [-> | ->]; [done|]. apply rmap_length in Hzs. rewrite length_seqZ, Hs in Hzs. cbn [hd] in Hzs.
  rewrite !take_ge by (rewrite length_drop; unfold CHUNK_SIZE in *; lia). done.
Qed.

Lemma decompress_chunks_ok il l ml :
  Forall2 chunk_ok il l → Forall2 (carries f) l.*2 ml →
  decompress_chunks m' (zip l.*1 (ODict <$> ml)) =
  Ok (Some ((λ idx, stack sh (dtype x) (slice zs (idx * CHUNK_SIZE) (idx * CHUNK_SIZE + CHUNK_SIZE))) <$> il)).
Proof.
  intros Hl. revert ml. induction Hl as [|idx [e meta] il l (_ & _ & Hok) _ IH]; intros ml Hml.
  - apply Forall2_nil_inv_l in Hml as ->. done.
  - rewrite fmap_cons in Hml. apply Forall2_cons_inv_l in Hml as (meta' & ml' & Hcar & Hml & ->). specialize (Hok meta' Hcar). cbn [fst] in Hok.
    csimpl. rewrite Hok. cbn [rbind]. by rewrite IH.
Qed.

(** Chunks put together are the layers. *)
Lemma chunks_gathered :
  cat ((λ idx, stack sh (dtype x) (slice zs (idx * CHUNK_SIZE) (idx * CHUNK_SIZE + CHUNK_SIZE))) <$> seqZ 0 (num_chunks (hd 0 (shape x)))) =
  Ok (stack sh (dtype x) zs).
Proof.
  destruct (cp_dims _ _ _ _ _ Hcomp) as (n & sh0 & Hs & Hn & _). pose proof Hzs as Hlen. apply rmap_length in Hlen. rewrite length_seqZ in Hlen.
  set (g := λ idx, slice zs (idx * CHUNK_SIZE) (idx * CHUNK_SIZE + CHUNK_SIZE)). set (il := seqZ 0 _).
  assert (Hcat : concat (g <$> il) = zs).
  { pose proof (concat_ranges zs CHUNK_SIZE ltac:(done)) as Hc. unfold range_step in Hc. rewrite <- list_fmap_compose in Hc.
    unfold il, num_chunks. replace (hd 0 (shape x)) with (zlen zs) by (unfold zlen; rewrite Hs in Hlen |- *; cbn [hd] in *; lia). exact Hc. }
  assert (Hne : il ≠ []).
  { intros E. rewrite E in Hcat. rewrite <- Hcat in Hlen. rewrite Hs in Hlen. cbn in Hlen. lia. }
  assert (Hall : ∀ h : Z → list tensor, cat ((λ i, stack sh (dtype x) (h i)) <$> il) = Ok (stack sh (dtype x) (concat (h <$> il)))); [|etrans; [apply (Hall g)|by rewrite Hcat]].
  intros h. destruct il as [|i il']; [done|]. unfold cat. csimpl. rewrite !bool_decide_true by done. cbn [andb].
  assert (Hfa : forallb (λ t, bool_decide (dtype t = dtype x) && bool_decide (tail (shape t) = sh)) ((λ j, stack sh (dtype x) (h j)) <$> il') = true).
  { apply forallb_forall. intros t Ht%list_elem_of_In. apply list_elem_of_fmap in Ht as (j & -> & _). simpl. by rewrite !bool_decide_true. }
  simpl in Hfa |- *. rewrite Hfa. simpl. unfold stack at 3. f_equal. f_equal.
  - f_equal. unfold zlen. rewrite length_app. clear. induction il' as [|j il' IH]; csimpl; [lia|]. rewrite length_app. unfold zlen in *. lia.
  - rewrite fmap_app, concat_app. f_equal. clear. induction il' as [|j il' IH]; [done|]. csimpl. by rewrite IH, fmap_app, concat_app.
Qed.

(** All chunks of a tensor. *)
Lemma all_chunks_restored :
  ∃ l, rmap (compress_chunk layout_env device exn_text m x request_id md) (seqZ 0 (num_chunks (hd 0 (shape x)))) = Ok l ∧
  Forall2 chunk_ok (seqZ 0 (num_chunks (hd 0 (shape x)))) l ∧ l ≠ [].
Proof.
  destruct (rmap_exists (compress_chunk layout_env device exn_text m x request_id md) chunk_ok (seqZ 0 (num_chunks (hd 0 (shape x))))) as (l & Hl & Hok).
  { intros idx [Hi1 Hi2]%elem_of_seqZ. apply chunk_restored. lia. }
  exists l. split_and!; [done..|]. intros ->. apply Forall2_length in Hok. rewrite length_seqZ in Hok. cbn in Hok.
  destruct (cp_dims _ _ _ _ _ Hcomp) as (n & sh0 & Hs & Hn & _). rewrite Hs in Hok. cbn [hd] in Hok. unfold num_chunks, CHUNK_SIZE in Hok.
  assert (1 ≤ (n + 8 - 1) / 8) by (apply Z.div_le_lower_bound; lia). lia.
Qed.

(** Whatever its size, the compressed form of the tensor is there. *)
Definition compressed_form (c : CompressedKVData) : Prop :=
  if is_chunked c then
    ∃ l, chunks c = Some l.*1 ∧ chunk_metadata c = Some (ODict <$> l.*2) ∧ metadata c = ODict (chunked_metadata request_id x md) ∧
    rmap (compress_chunk layout_env device exn_text m x request_id md) (seqZ 0 (num_chunks (hd 0 (shape x)))) = Ok l ∧
    Forall2 chunk_ok (seqZ 0 (num_chunks (hd 0 (shape x)))) l ∧ l ≠ []
  else
    ∃ e meta, compressed_tensor c = Some e ∧ metadata c = ODict meta ∧ tensor_ok e ∧ shape e ≠ [] ∧
    compress_layers layout_env exn_text m x 0 (base_metadata device request_id x md) = Ok (e, meta) ∧
    ∀ c', is_chunked c' = false → compressed_tensor c' = Some e → (∃ meta', metadata c' = ODict meta' ∧ carries f meta meta') →
      decompress_single m' c' = Ok (Some (stack sh (dtype x) zs)).

Lemma compressed_all cfg m0 :
  update_config cfg m0 = (m, Ok ()) → disabled cfg = false → min_compress_size cfg ≤ nbytes x →
  ∃ m1 c, compress_all_layers layout_env device exn_text x request_id cfg md m0 = (m1, Ok (Some c)) ∧ compressed_form c ∧
  (is_chunked c = (CHUNK_THRESHOLD <? nbytes x)) ∧ original_size c = nbytes x.
Proof.
  intros Hup Hen Hmin. destruct (cp_dims _ _ _ _ _ Hcomp) as (n & sh0 & Hs & Hn & H5).
  unfold compress_all_layers. rewrite Hup, Hen, Hs. cbn [length]. rewrite H5. cbn [Nat.eqb negb]. rewrite (proj2 (Z.ltb_ge _ _)) by done.
  destruct (Z.ltb_spec CHUNK_THRESHOLD (nbytes x)) as [Hbig|Hsmall].
  - unfold compress_all_layers_chunked. destruct all_chunks_restored as (l & Hl & Hok & Hne). rewrite Hl.
    eexists _, _. split; [done|]. split; [|done]. by exists l.
  - destruct single_restored as (e & meta & -> & He & Hse & Hcl & Hback). eexists _, _. split; [done|]. split; [|done]. by exists e, meta.
Qed.

Lemma decompressed_all cfg m0' c c' :
  update_config cfg m0' = (m', Ok ()) → disabled cfg = false → compressed_form c → sent f c c' →
  ∃ r, decompress_all_layers c' cfg m0' = (m', Ok (Some r)) ∧ gathered r = Ok (stack sh (dtype x) zs).
Proof.
  intros Hup Hen Hform [S1 S2 S3 S4 S5]. unfold decompress_all_layers. rewrite Hup, Hen, S1. unfold compressed_form in Hform. destruct (is_chunked c) eqn:Ec.
  - destruct Hform as (l & Hl & Hm & _ & _ & Hok & Hne). destruct (S5 l.*2 eq_refl Hm) as (ml & Hml & Hcar).
    pose proof (decompress_chunks_ok _ _ ml Hok Hcar) as Hd. pose proof (Forall2_length _ _ _ Hcar) as Hlen. rewrite length_fmap in Hlen.
    exists (Many ((λ idx, stack sh (dtype x) (slice zs (idx * CHUNK_SIZE) (idx * CHUNK_SIZE + CHUNK_SIZE))) <$> seqZ 0 (num_chunks (hd 0 (shape x))))).
    split; [|apply chunks_gathered]. unfold decompress_all_layers_chunked. rewrite S3, Hl, Hml by done.
    assert (Hlt : (length (ODict <$> ml) <? length l.*1)%nat = false) by (apply Nat.ltb_ge; rewrite !length_fmap; by apply Nat.eq_le_incl).
    destruct l as [|[e0 y0] l]; [done|]. destruct ml as [|y0' ml]; [done|]. rewrite !fmap_cons in Hlt, Hd |- *. cbn [fst snd] in *. by rewrite Hlt, Hd.
  - destruct Hform as (e & meta & He & Hm & _ & _ & _ & Hback). exists (One (stack sh (dtype x) zs)). split; [|done].
    rewrite (Hback c'); [done|done|by rewrite S2|by apply S4].
Qed.

End round_trip.

(** ** Over the wire *)

(** Metadata without tensors outside the quantization parameters. *)
Definition tidy (d : meta_dict) : Prop := has_tensor (ODict (dset d (KStr QPARAMS) ONone)) = false.

Lemma no_tensor_dset (d : meta_dict) k v : has_tensor (ODict d) = false → has_tensor v = false → has_tensor (ODict (dset d k v)) = false.
Proof.
  cbn [has_tensor]. intros Hd Hv. induction d as [|[k' v'] d IH]; cbn [dset existsb snd] in *; [by rewrite Hv|].
  apply orb_false_iff in Hd as [H1 H2]. destruct (decide (k = k')); cbn [existsb snd]; [by rewrite Hv|]. by rewrite H1, IH.
Qed.

Lemma tidy_dset k v d : tidy d → k = KStr QPARAMS ∨ has_tensor v = false → tidy (dset d k v).
Proof.
  unfold tidy. intros Hd Hv. destruct (decide (k = KStr QPARAMS)) as [->|Hk]; [by rewrite dset_dset|]. destruct Hv as [|Hv]; [done|].
  revert Hd. cbn [has_tensor]. induction d as [|[k' v'] d IH]; cbn [dset existsb snd].
  - intros _. rewrite decide_False by congruence. cbn [existsb snd]. by rewrite Hv.
  - destruct (decide (k = k')) as [<-|Hk']; cbn [dset].
    + rewrite !decide_False by congruence. cbn [existsb snd]. rewrite Hv. by intros [_ ?]%orb_false_iff.
    + destruct (decide (KStr QPARAMS = k')) as [<-|Hq]; cbn [existsb snd has_tensor orb]; [by intros; apply no_tensor_dset|].
      intros [-> H]%orb_false_iff. simpl. by apply IH.
Qed.

Lemma tidy_put k v d : tidy d → k = QPARAMS ∨ has_tensor v = false → tidy (put k v d).
Proof. intros Hd [->|Hv]; apply tidy_dset; auto. Qed.

Lemma tidy_merge a b : tidy a → Forall (λ e, has_tensor e.2 = false) b → tidy (merge a b).
Proof.
  unfold merge. intros Ha Hb. revert a Ha. induction Hb as [|e b Hv _ IH]; intros a Ha; [done|]. apply IH, tidy_dset; auto.
Qed.

Definition wireable (q : obj) : Prop := clean q ∧ ∃ d, q = ODict d.

Definition wireable_params (m : manager) (x : tensor) (start : Z) : Prop :=
  ∀ i t y p, row x i = Ok t → forward m (start + i) t = Ok (y, p) → Forall wireable p.

Lemma wireable_list l : Forall wireable l → clean (OList l).
Proof.
  intros Hl. split; [|apply foldr_Forall; eapply Forall_impl; [exact Hl|]; by intros q [? _]].
  destruct Hl as [|q l (_ & d & ->) Hl]; [done|]. destruct Hl as [|q' l _ Hl]; [done|]. by destruct Hl.
Qed.

Lemma forward_wireable m x start r : wireable_params m x start → forward_layers m x start = Ok r → Forall wireable (concat r.*2).
Proof.
  intros Hp Hr. unfold forward_layers in Hr. apply rmap_Ok in Hr. apply Forall_concat, Forall_fmap, Forall_forall. intros [y p] Hin.
  apply list_elem_of_lookup in Hin as [k Hk]. destruct (Forall2_lookup_r _ _ _ _ _ Hr Hk) as (i & _ & Hi).
  apply rbind_Ok in Hi as (t & Ht & Hf). exact (Hp i t y p Ht Hf).
Qed.

(** What compression notes, and that it can go over the wire. *)
Definition noted_keys : list string :=
  ["codec_layout"; "transformer_applied"; "quantization_applied"; QPARAMS; "codec_shape"; "codec_dtype";
   "codec_applied"; "codec_skipped"; "codec_error"; "compressed_size"].

Lemma compress_layers_meta m x start base e meta :
  compress_layers layout_env exn_text m x start base = Ok (e, meta) → tidy base → get base QPARAMS = None →
  (∀ b ps, process layout_env m x start = Ok (b, ps) → Forall wireable ps) →
  meta_ok (ODict meta) ∧ ∀ k, k ∉ noted_keys → get meta k = get base k.
Proof.
  unfold compress_layers. intros ([b ps] & Hp & H)%rbind_Ok Ht Hq Hw. specialize (Hw b ps Hp). destruct (handle_codec_compression _ _ _ _ _) as [e' meta1] eqn:Ec. injection H as <- <-.
  set (meta0 := note_stages _ _ _ _ _) in Ec.
  assert (H0 : tidy meta0 ∧ (get meta0 QPARAMS = None ∨ get meta0 QPARAMS = Some (OList ps))).
  { unfold meta0, note_stages. split.
    - repeat apply tidy_put; auto using has_tensor_ints. destruct (in_pipeline _ "quantizer"), (negb _ && _); repeat apply tidy_put; auto.
    - rewrite !get_put. simpl. destruct (in_pipeline _ "quantizer"); [right; by rewrite get_put|left]. destruct (negb _ && _); by rewrite !get_put. }
  assert (G0 := stages_get m b ps base). fold meta0 in G0. clearbody meta0.
  assert (H1 : tidy meta1 ∧ get meta1 QPARAMS = get meta0 QPARAMS ∧ ∀ k, k ∉ codec_keys → get meta1 k = get meta0 k).
  { unfold handle_codec_compression in Ec. destruct H0 as [H0 _]. unfold codec_keys.
    repeat case_match; injection Ec as <- <-; (split; [repeat apply tidy_put; auto|]); (split; [by rewrite ?get_put|]); intros k Hk; rewrite ?get_put; repeat case_decide; subst; set_solver. }
  destruct H0 as [_ H0], H1 as (T1 & Q1 & G1). split; [split|].
  - simpl. rewrite get_put. rewrite decide_False by done. rewrite Q1. destruct H0 as [-> | ->]; [done|]. by apply wireable_list.
  - apply tidy_put; auto.
  - unfold noted_keys. intros k Hk. rewrite get_put. destruct (decide _) as [<-|]; [set_solver|]. rewrite G1 by set_solver. apply G0. set_solver.
Qed.

(** The wire does this to metadata: tuples become lists among the
    quantization parameters. *)
Lemma normal_carries meta : ∃ meta', normal_meta (ODict meta) = ODict meta' ∧ carries normal meta meta'.
Proof.
  simpl. destruct (get meta QPARAMS) as [q|] eqn:E.
  - eexists. split; [done|]. split.
    + intros k Hk. by apply get_dset_ne.
    + intros ps Hps. rewrite E in Hps. injection Hps as ->. unfold get. by rewrite dget_dset_eq.
  - exists meta. split; [done|]. split; [done|]. intros ps Hps. by rewrite E in Hps.
Qed.

Lemma received_sent repr c : sent normal c (received repr c).
Proof.
  split; try done; simpl.
  - by intros ->.
  - by intros ->.
  - intros meta ->. apply normal_carries.
  - intros metas -> ->. cbn [fmap option_fmap option_map].
    assert (H : ∃ metas', map normal_meta (ODict <$> metas) = ODict <$> metas' ∧ Forall2 (carries normal) metas metas').
    { induction metas as [|meta metas (metas' & E & Hm)]; [by exists []|]. destruct (normal_carries meta) as (meta' & E' & Hc).
      exists (meta' :: metas').
      change (map normal_meta (ODict <$> meta :: metas)) with (normal_meta (ODict meta) :: map normal_meta (ODict <$> metas)). rewrite E, E'.
      by split; [|constructor]. }
    destruct H as (metas' & -> & Hm). by exists metas'.
Qed.

Lemma normal_none o : normal o = ONone → o = ONone.
Proof. by destruct o. Qed.

Lemma wireable_given m x start : wireable_params m x start → params_given m x start.
Proof. intros Hw i t y p Ht Hf Hin. pose proof (Hw i t y p Ht Hf) as H. eapply Forall_forall in H as [_ [d Hd]]; [|exact Hin]. done. Qed.

(** ** The adapter *)

Section adapter.
Context (num_kv_heads head_size : Z) (repr : obj → string).

Lemma six_dims_same x x6 :
  six_dims num_kv_heads head_size x = Ok x6 → dtype x6 = dtype x ∧ data x6 = data x ∧ prod (shape x6) = prod (shape x).
Proof.
  unfold six_dims, view. repeat (case_match; try done); try (intros [= <-]; split_and!; [done..|congruence]).
  intros (u & Hc & [= <-])%rbind_Ok. cbn [dtype data shape]. split_and!; try done.
  apply raise_if_Ok, orb_false_iff in Hc as [_ Hc]. apply negb_false_iff, Z.eqb_eq in Hc. rewrite Hc. unfold numel. congruence.
Qed.

Lemma adapter_meta_harmless x : harmless (dtype x) (adapter_meta x).
Proof.
  assert (Hres : ∀ s, bool_decide (s ∈ reserved) = false → ∀ k, k ∈ reserved → KStr s ≠ KStr k)
    by (intros s Hs k Hk [= ->]; apply bool_decide_eq_false in Hs; done).
  unfold adapter_meta. repeat apply Forall_cons_2; [..|done]; simpl; (split; [by apply Hres|done]).
Qed.

Lemma adapter_meta_tidy x a : tidy a → tidy (merge a (adapter_meta x)).
Proof. intros Ha. apply tidy_merge; [done|]. repeat constructor. apply has_tensor_ints. Qed.

Lemma adapter_meta_get x a k :
  k ≠ "original_dtype"%string → k ≠ "original_shape"%string → get (merge a (adapter_meta x)) k = get a k.
Proof. intros H1 H2. unfold merge, adapter_meta. simpl. unfold get. by rewrite !dget_dset_ne by congruence. Qed.

Lemma adapter_meta_shape x a : get (merge a (adapter_meta x)) "original_shape" = Some (ints (shape x)).
Proof. unfold merge, adapter_meta. simpl. unfold get. by rewrite dget_dset_eq. Qed.

(** What a caller may note about [x]. *)
Record caller_meta (x : tensor) (md : meta_dict) : Prop := {
  cm_harmless : harmless (dtype x) md;
  cm_tidy a : tidy a → tidy (merge a md);
  cm_params a : get (merge a md) QPARAMS = get a QPARAMS;
  cm_shape a : get (merge a md) "original_shape" = Some (ints (shape x))
}.

Lemma adapter_meta_ok x : caller_meta x (adapter_meta x).
Proof.
  split; [apply adapter_meta_harmless|apply adapter_meta_tidy| |apply adapter_meta_shape]. intros a. by apply adapter_meta_get.
Qed.

Section transfer.
Context `{!OutBuffers} (m m' : manager) (x x6 : tensor) (sh : list Z) (qd : string) (zs : list tensor) (request_id : string) (md : meta_dict).
Hypothesis Hcomp : compressible m m' x6 sh qd.
Hypothesis Hwire : wireable_params m x6 0.
Hypothesis Hsame : dtype x6 = dtype x.
Hypothesis Hmd : caller_meta x md.

(** The parameters of a part can go over the wire. *)
Lemma part_wireable a b : 0 ≤ a < b → b ≤ hd 0 (shape x6) → ∀ buf ps, process layout_env m (rows x6 a b) a = Ok (buf, ps) → Forall wireable ps.
Proof.
  intros Ha Hb buf ps Hp. destruct Hcomp as [Hx (n & sh0 & Hs & Hn & H5) _ [Hsh5 Hsh] _ HU _ _]. rewrite Hs in Hb. cbn [hd] in Hb.
  destruct (rows_ok x6 n sh0 a b Hx Hs) as (Hrx & Hrs & _); [lia..|].
  rewrite (process_spec m _ a (b - a) sh0 sh qd) in Hp; try done; [|lia|].
  - apply rbind_Ok in Hp as (r & Hr & Hp). apply rbind_Ok in Hp as (buf' & _ & Hp). injection Hp as _ <-. eapply forward_wireable; [|exact Hr].
    intros i t y p Ht Hfw. rewrite (row_rows x6 n sh0) in Ht by (done || lia). destruct (_ && _); [|done]. by apply (Hwire (a + i) t y p Ht).
  - intros i t y p Ht Hfw. rewrite (row_rows x6 n sh0) in Ht by (done || lia). destruct (_ && _); [|done]. by apply (HU (a + i) t y p Ht).
Qed.

(** Compressed data fit the wire, and the caller's notes are in them. *)
Lemma compressed_sendable f c max :
  0 < max → compressed_form f m m' x6 sh zs md request_id c →
  sendable c max ∧ ∃ meta, metadata c = ODict meta ∧ ∀ k v, k ∉ noted_keys → (∀ a, get (merge a md) k = Some v) → get meta k = Some v.
Proof.
  intros Hmax Hform. destruct (cp_dims _ _ _ _ _ Hcomp) as (n & sh0 & Hs & Hn & _). unfold compressed_form, sendable in *. destruct (is_chunked c).
  - destruct Hform as (l & Hl & Hm & Hmeta & Hcomps & _ & Hne). split.
    + split.
      * rewrite Hmeta. split; [|apply (cm_tidy _ _ Hmd); reflexivity].
        unfold chunked_metadata, qparams_of. by rewrite (cm_params _ _ Hmd).
      * destruct l as [|[e y] l]; [done|]. exists e, l.*1, (ODict y), (ODict <$> l.*2). split_and!; [done..|].
        rewrite <- fmap_cons. change (y :: l.*2) with ((e, y) :: l).*2. apply Forall_fmap, Forall_fmap, Forall_forall. intros [e1 y1] Hin. simpl.
        apply rmap_Ok in Hcomps. apply list_elem_of_lookup in Hin as [k Hk]. destruct (Forall2_lookup_r _ _ _ _ _ Hcomps Hk) as (idx & Hidx & Hc).
        apply lookup_seqZ in Hidx as [-> Hidx]. unfold compress_chunk in Hc.
        assert (Hb : 0 ≤ (0 + Z.of_nat k) * CHUNK_SIZE < n) by (apply num_chunks_bound; [done|rewrite Hs in Hidx; cbn [hd] in Hidx; lia]).
        apply compress_layers_meta in Hc as [Hc _]; [done|apply (cm_tidy _ _ Hmd); reflexivity|unfold chunk_metadata_base; by rewrite (cm_params _ _ Hmd)|].
        apply part_wireable; rewrite Hs; cbn [hd]; unfold CHUNK_SIZE in *; lia.
    + eexists. split; [exact Hmeta|]. intros k v _ Hv. apply Hv.
  - destruct Hform as (e & meta & He & Hmeta & Hok & Hse & Hc & _).
    apply compress_layers_meta in Hc as [Hmo Hg]; [|apply (cm_tidy _ _ Hmd); reflexivity|unfold base_metadata; by rewrite (cm_params _ _ Hmd)|].
    + split; [split; [by rewrite Hmeta|by exists e]|]. exists meta. split; [done|]. intros k v Hk Hv. rewrite Hg by done. apply Hv.
    + intros b ps. pose proof (λ H1 H2, part_wireable 0 n H1 H2 b ps) as Hpw. rewrite (rows_all x6 n sh0 (cp_ok _ _ _ _ _ Hcomp) Hs) in Hpw.
      apply Hpw; rewrite ?Hs; cbn [hd]; lia.
Qed.

(** Compressed, sent and decompressed. *)
Lemma transfer_back cfg max m0 m0' :
  tensor_ok x → prod (shape x6) = prod (shape x) → sh = tail (shape x6) →
  update_config cfg m0 = (m, Ok ()) → update_config cfg m0' = (m', Ok ()) → disabled cfg = false → min_compress_size cfg ≤ nbytes x6 →
  restored normal m m' x6 0 = Ok zs → 0 < max →
  ∃ m1 c w c',
    compress_all_layers layout_env device exn_text x6 request_id cfg md m0 = (m1, Ok (Some c)) ∧
    build_wire c max = Ok w ∧ restore_from_wire repr w = Ok c' ∧
    (∃ meta, metadata c' = ODict meta ∧ ∀ k v, k ∉ noted_keys → (∀ a, get (merge a md) k = Some v) → get meta k = Some v) ∧
    adapter_decompress num_kv_heads head_size cfg c' m0' = (m', Ok (Some (mkTensor (shape x) (dtype x) (concat (data <$> zs))))).
Proof.
  intros Hx Hprod Hsh Hup Hup' Hen Hmin Hzs Hmax.
  destruct (compressed_all normal m m' x6 sh qd zs md request_id Hcomp normal_none Hzs) with (cfg := cfg) (m0 := m0)
    as (m1 & c & Hc & Hform & _); [rewrite Hsame; apply Hmd|done..|].
  destruct (compressed_sendable normal c max Hmax Hform) as (Hsend & meta & Hmeta & Hget).
  destruct (wire_back repr c max Hsend) as (w & Hbuild & Hrestore & _). exists m1, c, w, (received repr c).
  split; [done|]. split; [done|]. split; [done|].
  destruct (normal_carries meta) as (meta' & Hn & Hcar).
  assert (Hmeta' : metadata (received repr c) = ODict meta') by (unfold received; cbn [metadata]; by rewrite Hmeta).
  assert (Hget' : ∀ k v, k ∉ noted_keys → (∀ a, get (merge a md) k = Some v) → get meta' k = Some v).
  { intros k v Hk Hv. rewrite (proj1 Hcar); [by apply Hget|]. intros ->. unfold noted_keys in Hk. set_solver. }
  split; [by exists meta'|].
  destruct (decompressed_all normal m m' x6 sh qd zs md request_id Hcomp Hzs cfg m0' c (received repr c) Hup' Hen Hform (received_sent repr c))
    as (r & Hr & Hg).
  unfold adapter_decompress. rewrite Hr. cbn [rbind]. unfold in_original_shape.
  change (match r with One t => Ok t | Many l => cat l end) with (gathered r). rewrite Hg. cbn [rbind]. rewrite Hmeta'. cbn [meta_of rbind].
  rewrite (Hget' "original_shape"%string (ints (shape x))); [|unfold noted_keys, QPARAMS; set_solver|apply (cm_shape _ _ Hmd)].
  change (match ints (shape x) with ONone => _ | _ => _ end) with (let? sh' := as_shape (ints (shape x)) in view sh' (stack sh (dtype x6) zs)).
  rewrite as_shape_ints. cbn [rbind]. unfold view.
  assert (Hnn : forallb (λ n, 0 <=? n) (shape x) = true).
  { apply forallb_forall. intros k Hk%list_elem_of_In. apply Z.leb_le. by apply (proj1 (Forall_forall _ _) (ok_shape x Hx)). }
  assert (Hnum : numel (stack sh (dtype x6) zs) = prod (shape x)).
  { destruct (cp_dims _ _ _ _ _ Hcomp) as (n & sh0 & Hs & Hn0 & _). rewrite <- Hprod. unfold numel. cbn [stack shape]. rewrite Hsh, Hs. cbn [tail].
    apply rmap_length in Hzs. rewrite length_seqZ, Hs in Hzs. cbn [hd] in Hzs. unfold zlen. rewrite Hzs, Z2Nat.id by lia. done. }
  rewrite Hnn, Hnum, Z.eqb_refl. cbn [negb orb raise_if rbind stack dtype data]. by rewrite Hsame.
Qed.

End transfer.

(** C30 What the consumer injects is what the components make of each layer,
    and nothing else is lost: a KV tensor of any shape the adapter takes is
    compressed, in one piece or in chunks, built into wire payloads of at
    most [max] bytes, restored from them and decompressed without an error to
    a tensor of its own shape and dtype whose layers are, in order, what
    quantizer and transformer give for that layer alone; for every pipeline,
    either layout of the codec's buffer, and also where the codec raises. *)
Theorem transfer_transparent `{!OutBuffers} cfg max m0 m m0' m' x x6 qd zs request_id :
  tensor_ok x → six_dims num_kv_heads head_size x = Ok x6 →
  update_config cfg m0 = (m, Ok ()) → update_config cfg m0' = (m', Ok ()) → disabled cfg = false → min_compress_size cfg ≤ nbytes x6 →
  compressible m m' x6 (tail (shape x6)) qd → wireable_params m x6 0 → restored normal m m' x6 0 = Ok zs → 0 < max →
  ∃ m1 c w c',
    adapter_compress layout_env device exn_text num_kv_heads head_size cfg x request_id m0 = (m1, Ok (Some c)) ∧
    build_wire c max = Ok w ∧ restore_from_wire repr w = Ok c' ∧
    adapter_decompress num_kv_heads head_size cfg c' m0' = (m', Ok (Some (mkTensor (shape x) (dtype x) (concat (data <$> zs))))).
Proof.
  intros Hx H6 Hup Hup' Hen Hmin Hcomp Hw Hzs Hmax. destruct (six_dims_same x x6 H6) as (Hd & _ & Hprod).
  destruct (transfer_back m m' x x6 _ qd zs request_id (adapter_meta x) Hcomp Hw Hd (adapter_meta_ok x) cfg max m0 m0')
    as (m1 & c & w & c' & Hc & Hb & Hr & _ & Hdec); [done..|].
  exists m1, c, w, c'. split; [unfold adapter_compress; by rewrite H6|done].
Qed.

End adapter.

End manager.
