(* ===== verification/V1Codec.v ===== *)
(** * The codec of the v1 product

    [compression/codec/kvserve_codec.py]: one of three codecs behind the
    interface of the compression manager, replaced or updated when the
    parameters change. The bit-packing codec is [BitPack]'s; the wrappers of
    nvCOMP and of the LC runtime, which call compiled libraries, are a class.
    Parameters named after other attributes of the object are not modelled. *)

From S2P Require Import Prelude PyData Wire BitPack V1Manager.

(** Python's [==]; tensors are not compared here. *)
Definition num_eqb (a b : obj) : bool :=
  match a, b with
  | OFloat f, OFloat g => F.eqb f g
  | OFloat f, x | x, OFloat f =>
      match F.trunc f, obj_int x with Some n, Ok z => (n =? z) && F.eqb (F.of_Z n) f | _, _ => false end
  | _, _ => match obj_int a, obj_int b with Ok x, Ok y => x =? y | _, _ => false end
  end.

Definition is_num (a : obj) : bool := match a with OBool _ | OInt _ | OFloat _ => true | _ => false end.

Fixpoint py_eq (a b : obj) : bool :=
  match a, b with
  | ONone, ONone => true
  | OStr s, OStr t => bool_decide (s = t)
  | OList l, OList k | OTuple l, OTuple k =>
      (fix go l k := match l, k with [], [] => true | x :: l, y :: k => py_eq x y && go l k | _, _ => false end) l k
  | ODict d, ODict e =>
      (length d =? length e)%nat && forallb (λ x : key * obj, match dget e x.1 with Some v => py_eq x.2 v | None => false end) d
  | _, _ => is_num a && is_num b && num_eqb a b
  end.

Class Backends := {
  nv_state : Type;
  nv_new : obj → meta_dict → result nv_state;
  nv_encode : nv_state → tensor → meta_dict → result tensor;
  nv_decode : nv_state → tensor → string → list Z → string → meta_dict → result tensor;
  lc_state : Type;
  lc_new : meta_dict → result lc_state;
  lc_update : meta_dict → lc_state → lc_state * result unit;
  lc_encode : lc_state → tensor → meta_dict → result tensor;
  lc_decode : lc_state → tensor → string → list Z → string → meta_dict → result tensor
}.

Section codec.
Context `{D : !Dtypes, B : !Backends}.
(** Whether a device is the CUDA device the payload is on. *)
Context (on_payload_device : string → bool).

(** ** The bit-packing codec *)

Definition symbol_width (o : option obj) (bits : Z) : json :=
  match o with None => JInt bits | Some (OInt z) => JInt z | Some _ => JNull end.

(** [_width] *)
Definition bp_width (kw : meta_dict) (bits : Z) : result Z := width (symbol_width (get kw "bitpack_bits") bits).

Definition check_tensor (t : tensor) : result unit :=
  raise_if (negb (bool_decide (dtype t = "uint8"%string))) TypeError.

Definition bp_encode (bits : Z) (t : tensor) (kw : meta_dict) : result tensor :=
  let? b := bp_width kw bits in
  let? _ := check_tensor t in
  let? p := BitPack.encode (JInt b) (data t) in
  Ok (byte_tensor p).

Definition bp_decode (bits : Z) (t : tensor) (d : string) (sh : list Z) (dev : string) (kw : meta_dict) : result tensor :=
  let? b := bp_width kw bits in
  let? _ := check_tensor t in
  raise_if (negb (on_payload_device dev)) (ValueError "BitPackCodec decodes on the payload's CUDA device") ;?
  let? l := BitPack.decode (JInt b) (data t) d (JInt <$> sh) in
  Ok (mkTensor sh "uint8" l).

(** ** The dispatch *)

Inductive backend := Nv (s : nv_state) | Lc (s : lc_state) | Bp (bits : Z).

Record kvserve_codec := mkCodec {
  codec_type : obj;
  nvcomp_algorithm : obj;
  lc_algorithm : obj;
  lc_meta_path : obj;
  codec_kwargs : meta_dict;
  inner : option backend
}.

Definition KVSERVE_CODEC_KEYS : list string := ["codec_type"; "nvcomp_algorithm"; "lc_algorithm"; "lc_meta_path"; "bitpack_bits"].

Definition nvcomp_codec_kwargs (kw : meta_dict) : meta_dict :=
  filter (λ e, e.1 ∉ KStr <$> KVSERVE_CODEC_KEYS) kw.

Definition one_of (o : obj) (l : list string) : bool :=
  match o with OStr s => bool_decide (s ∈ l) | _ => false end.

Definition is_name (o : obj) (s : string) : bool := one_of o [s].

Definition validate (c : kvserve_codec) : result unit :=
  raise_if (negb (one_of (codec_type c) ["nvcomp"; "lc"; "bitpack"])) AssertionError ;?
  raise_if (is_name (codec_type c) "nvcomp" &&
            negb (one_of (nvcomp_algorithm c) ["ANS"; "Bitcomp"; "Cascaded"; "Deflate"; "GDeflate"; "LZ4"; "Zstd"])) AssertionError.

Definition bp_new (kw : meta_dict) : result Z := bp_width kw 8.

(** The codec for the type of [c], from all parameters so far. *)
Definition build (c : kvserve_codec) : result backend :=
  if is_name (codec_type c) "nvcomp" then
    let? s := nv_new (nvcomp_algorithm c) (nvcomp_codec_kwargs (codec_kwargs c)) in Ok (Nv s)
  else if is_name (codec_type c) "lc" then let? s := lc_new (codec_kwargs c) in Ok (Lc s)
  else let? b := bp_new (codec_kwargs c) in Ok (Bp b).

Definition with_inner (b : option backend) (c : kvserve_codec) : kvserve_codec :=
  mkCodec (codec_type c) (nvcomp_algorithm c) (lc_algorithm c) (lc_meta_path c) (codec_kwargs c) b.

Definition kvserve_new (kw : meta_dict) : result kvserve_codec :=
  let c := mkCodec (default (OStr "nvcomp") (get kw "codec_type")) (default (OStr "ANS") (get kw "nvcomp_algorithm"))
             (default ONone (get kw "lc_algorithm")) (default ONone (get kw "lc_meta_path")) kw None in
  let? _ := validate c in
  let? b := build c in
  Ok (with_inner (Some b) c).

(** The attributes after [setattr], and [_codec_kwargs.update(kwargs)]. *)
Definition assigned (kw : meta_dict) (c : kvserve_codec) : kvserve_codec :=
  mkCodec (default (codec_type c) (get kw "codec_type")) (default (nvcomp_algorithm c) (get kw "nvcomp_algorithm"))
    (default (lc_algorithm c) (get kw "lc_algorithm")) (default (lc_meta_path c) (get kw "lc_meta_path"))
    (merge (codec_kwargs c) kw) (inner c).

(** [self.codec.update_params] with the new parameters; nvCOMP's wrapper has
    no such method. *)
Definition update_inner (kw : meta_dict) (b : backend) : backend * result unit :=
  match b with
  | Nv _ => (b, Err AttributeError)
  | Lc s => let (s, r) := lc_update kw s in (Lc s, r)
  | Bp bits => match bp_width kw bits with Ok w => (Bp w, Ok ()) | Err e => (b, Err e) end
  end.

Definition replace_inner (c : kvserve_codec) : kvserve_codec * result unit :=
  match build c with Ok b => (with_inner (Some b) c, Ok ()) | Err e => (c, Err e) end.

Definition kvserve_update (kw : meta_dict) (p : kvserve_codec) : kvserve_codec * result unit :=
  let c := assigned kw p in
  match validate c with
  | Err e => (c, Err e)
  | Ok _ =>
      match inner c with
      | Some b =>
          let same_type := py_eq (codec_type p) (codec_type c) in
          if is_name (codec_type c) "nvcomp" then
            if same_type && py_eq (nvcomp_algorithm c) (nvcomp_algorithm p) &&
               py_eq (ODict (nvcomp_codec_kwargs (codec_kwargs c))) (ODict (nvcomp_codec_kwargs (codec_kwargs p)))
            then (c, Ok ()) else replace_inner c
          else if is_name (codec_type c) "lc" then
            if same_type && py_eq (lc_algorithm c) (lc_algorithm p) && py_eq (lc_meta_path c) (lc_meta_path p)
            then let (b, r) := update_inner kw b in (with_inner (Some b) c, r) else replace_inner c
          else if same_type then let (b, r) := update_inner kw b in (with_inner (Some b) c, r)
          else replace_inner c
      | None => replace_inner c
      end
  end.

Definition backend_encode (b : backend) (t : tensor) (kw : meta_dict) : result tensor :=
  match b with Nv s => nv_encode s t kw | Lc s => lc_encode s t kw | Bp bits => bp_encode bits t kw end.

Definition backend_decode (b : backend) (t : tensor) (d : string) (sh : list Z) (dev : string) (kw : meta_dict) : result tensor :=
  match b with Nv s => nv_decode s t d sh dev kw | Lc s => lc_decode s t d sh dev kw | Bp bits => bp_decode bits t d sh dev kw end.

#[export] Instance kvserve_codecs : Codecs := {|
  co_state := kvserve_codec;
  co_new := kvserve_new;
  co_update := kvserve_update;
  encode c _ t kw := let? b := of_option AttributeError (inner c) in backend_encode b t kw;
  decode c _ t d sh dev kw := let? b := of_option AttributeError (inner c) in backend_decode b t d sh dev kw
|}.

End codec.
