(* ===== verification/V1CodecThms.v ===== *)
(** * The codec: parameters and losslessness

    A codec that is given the parameters it was made with stays as it is; so
    the instances of producer and consumer, made and updated from one
    configuration, take each other's payloads, and the codec is lossless in
    the sense of the compression manager as soon as the compiled libraries
    behind it are. *)

From S2P Require Import Prelude PyData Wire WireThms BitPack BitPackThms TensorOps V1Manager V1ManagerThms V1Codec.

Section codec.
Context `{D : !Dtypes, B : !Backends} (on_payload_device : string → bool).

(** What the wrappers of the compiled libraries promise. *)
Class LosslessBackends := {
  nv_decodes : nv_state → nv_state → meta_dict → Prop;
  nv_domain : nv_state → meta_dict → tensor → Prop;
  nv_new_decodes a kw kw' s s' : nv_new a kw = Ok s → nv_new a kw = Ok s' → nv_decodes s s' kw';
  nv_encode_ok s t kw e : tensor_ok t → nv_encode s t kw = Ok e → tensor_ok e ∧ shape e ≠ [];
  nv_lossless s s' t kw e dev : nv_decodes s s' kw → tensor_ok t → nv_domain s kw t → on_payload_device dev = true →
    nv_encode s t kw = Ok e → nv_decode s' e (dtype t) (shape t) dev kw = Ok t;
  lc_update_same kw s : lc_new kw = Ok s → lc_update kw s = (s, Ok ());
  lc_decodes : lc_state → lc_state → meta_dict → Prop;
  lc_domain : lc_state → meta_dict → tensor → Prop;
  lc_new_decodes kw kw' s s' : lc_new kw = Ok s → lc_new kw = Ok s' → lc_decodes s s' kw';
  lc_encode_ok s t kw e : tensor_ok t → lc_encode s t kw = Ok e → tensor_ok e ∧ shape e ≠ [];
  lc_lossless s s' t kw e dev : lc_decodes s s' kw → tensor_ok t → lc_domain s kw t → on_payload_device dev = true →
    lc_encode s t kw = Ok e → lc_decode s' e (dtype t) (shape t) dev kw = Ok t
}.

(** ** Unchanged parameters *)

(** Parameters with different keys that equal themselves (NaN does not). *)
Definition proper_kwargs (kw : meta_dict) : Prop := dict_ok kw ∧ Forall (λ e, py_eq e.2 e.2 = true) kw.

Lemma merge_same kw : dict_ok kw → merge kw kw = kw.
Proof.
  intros Hd. unfold merge. assert (H : ∀ l (d : meta_dict), (∀ e, e ∈ l → dget d e.1 = Some e.2) → foldl (λ d e, dset d e.1 e.2) d l = d).
  { induction l as [|[k v] l IH]; intros d Hl; [done|]. simpl.
    assert (Hs : dset d k v = d).
    { specialize (Hl (k, v) ltac:(by left)). simpl in Hl. clear -Hl. induction d as [|[k' v'] d IH]; [done|]. simpl in *.
      destruct (decide (k = k')) as [->|]; [congruence|]. by rewrite IH. }
    rewrite Hs. apply IH. intros e He. apply Hl. by right. }
  apply H. intros [k v] He. by apply elem_of_dget.
Qed.

Lemma py_eq_dict kw : proper_kwargs kw → py_eq (ODict kw) (ODict kw) = true.
Proof.
  intros [Hd Hv]. cbn [py_eq]. rewrite Nat.eqb_refl. simpl. apply forallb_forall. intros [k v] Hin%list_elem_of_In. simpl.
  rewrite (elem_of_dget kw k v) by done. by eapply (proj1 (Forall_forall _ _) Hv) in Hin.
Qed.

Lemma proper_filter P `{!∀ e, Decision (P e)} kw : proper_kwargs kw → proper_kwargs (filter P kw).
Proof.
  intros [Hd Hv]. split.
  - unfold dict_ok, dkeys in *. eapply sublist_NoDup; [exact Hd|apply fmap_sublist, sublist_filter].
  - apply Forall_forall. intros e [_ He]%list_elem_of_filter. by eapply (proj1 (Forall_forall _ _) Hv) in He.
Qed.

Lemma py_eq_refl_entry kw k v : proper_kwargs kw → get kw k = Some v → py_eq v v = true.
Proof. intros [_ Hv] Hg. apply dget_elem_of in Hg. by eapply (proj1 (Forall_forall _ _) Hv) in Hg. Qed.

Lemma py_eq_default kw k s : proper_kwargs kw → py_eq (default (OStr s) (get kw k)) (default (OStr s) (get kw k)) = true.
Proof. intros Hkw. destruct (get kw k) eqn:E; simpl; [by eapply py_eq_refl_entry|by rewrite bool_decide_true]. Qed.

Lemma py_eq_default_none kw k : proper_kwargs kw → py_eq (default ONone (get kw k)) (default ONone (get kw k)) = true.
Proof. intros Hkw. destruct (get kw k) eqn:E; simpl; [by eapply py_eq_refl_entry|done]. Qed.

(** A new codec: its attributes are those of its parameters. *)
Lemma kvserve_new_spec kw c :
  kvserve_new kw = Ok c →
  let base := mkCodec (default (OStr "nvcomp") (get kw "codec_type")) (default (OStr "ANS") (get kw "nvcomp_algorithm"))
    (default ONone (get kw "lc_algorithm")) (default ONone (get kw "lc_meta_path")) kw None in
  validate base = Ok () ∧ ∃ b, build base = Ok b ∧ c = with_inner (Some b) base.
Proof.
  unfold kvserve_new. intros H. apply rbind_Ok in H as ([] & Hv & H). apply rbind_Ok in H as (b & Hb & [= <-]). split; [done|]. by exists b.
Qed.

Lemma assigned_same kw b base :
  base = mkCodec (default (OStr "nvcomp") (get kw "codec_type")) (default (OStr "ANS") (get kw "nvcomp_algorithm"))
    (default ONone (get kw "lc_algorithm")) (default ONone (get kw "lc_meta_path")) kw None →
  dict_ok kw → assigned kw (with_inner b base) = with_inner b base.
Proof.
  intros -> Hd. unfold assigned, with_inner. simpl. rewrite merge_same by done.
  by destruct (get kw "codec_type"), (get kw "nvcomp_algorithm"), (get kw "lc_algorithm"), (get kw "lc_meta_path").
Qed.

Lemma update_same `{!LosslessBackends} kw c : proper_kwargs kw → kvserve_new kw = Ok c → kvserve_update kw c = (c, Ok ()).
Proof.
  intros Hkw Hc. apply kvserve_new_spec in Hc as (Hv & b & Hb & ->). set (base := mkCodec _ _ _ _ _ _) in *.
  assert (Hval : validate (with_inner (Some b) base) = Ok ()) by exact Hv. unfold kvserve_update.
  rewrite (assigned_same kw (Some b) base), Hval by (done || apply Hkw). cbn [inner with_inner codec_type nvcomp_algorithm lc_algorithm lc_meta_path codec_kwargs base].
  rewrite !py_eq_default, !py_eq_default_none, py_eq_dict by (done || by apply proper_filter). cbn [andb].
  unfold build in Hb. cbn [codec_type codec_kwargs base] in Hb.
  destruct (is_name _ "nvcomp"); [done|]. destruct (is_name _ "lc").
  - apply rbind_Ok in Hb as (s & Hs & [= <-]). cbn [update_inner]. by rewrite (lc_update_same kw s).
  - apply rbind_Ok in Hb as (w & Hw & [= <-]). cbn [update_inner]. unfold bp_new, bp_width in *.
    assert (Hsame : width (symbol_width (get kw "bitpack_bits") w) = Ok w); [|by rewrite Hsame].
    unfold width, symbol_width in *. destruct (get kw "bitpack_bits") as [[]|]; try done; apply rbind_Ok in Hw as (u & Hr & [= <-]); by rewrite Hr.
Qed.

(** ** Lossless *)

Lemma bp_width_range kw bits w : bp_width kw bits = Ok w → 1 ≤ w ≤ 8.
Proof.
  unfold bp_width, width. destruct (symbol_width _ _); try done. intros (u & Hr & [= <-])%rbind_Ok. apply raise_if_Ok, negb_false_iff, andb_prop in Hr as [?%Z.leb_le ?%Z.leb_le]. lia.
Qed.

Definition bp_domain (bits : Z) (kw : meta_dict) (t : tensor) : Prop :=
  Forall (λ x, 0 ≤ x) (data t) ∧ ∀ w, bp_width kw bits = Ok w → zlen (data t) * w ≤ 2 ^ 31 - 8.

(** Symbols that do not fit the width are refused, all others come back. *)
Lemma bp_lossless bits bits' kw t e dev :
  bp_width kw bits = bp_width kw bits' → tensor_ok t → bp_domain bits kw t → on_payload_device dev = true →
  bp_encode bits t kw = Ok e → bp_decode on_payload_device bits' e (dtype t) (shape t) dev kw = Ok t.
Proof.
  intros Hw Ht [Hpos HN] Hdev H. unfold bp_encode, bp_decode in *. rewrite <- Hw. destruct (bp_width kw bits) as [w|] eqn:Ew; [|done].
  specialize (HN w eq_refl). apply bp_width_range in Ew as Hr. cbn [rbind] in H |- *. destruct (check_tensor t) as [[]|] eqn:Ec; [|done].
  cbn [rbind] in H. apply rbind_Ok in H as (p & Hp & [= <-]). unfold check_tensor in Ec |- *. apply raise_if_Ok, negb_false_iff, bool_decide_eq_true in Ec.
  cbn [byte_tensor dtype data]. rewrite bool_decide_true, Hdev by done. cbn [negb raise_if rbind].
  pose proof Hp as Hk. unfold BitPack.encode, width in Hk. rewrite !(proj2 (Z.leb_le _ _)) in Hk by lia. cbn [andb negb raise_if rbind] in Hk.
  destruct (pack_kernel _ _ _) as [q|] eqn:Ek; [|done]. apply encoded_symbols_fit in Ek; [|lia|done|done].
  assert (Hnum : foldr Z.mul 1 (shape t) = zlen (data t)).
  { rewrite (ok_data t Ht). unfold nbytes, itemsize. rewrite Ec, uint8_size. simpl. unfold numel, prod. lia. }
  destruct (bitpack_back w (data t) (shape t) Hr Ek HN (ok_shape t Ht) Hnum) as (p' & Hp' & _ & _ & Hd).
  rewrite Hp in Hp'. injection Hp' as <-. rewrite Ec, Hd. cbn [rbind]. destruct t; simpl in *. by subst.
Qed.

Definition kv_decodes `{!LosslessBackends} (c c' : kvserve_codec) (kw : meta_dict) : Prop :=
  match inner c, inner c' with
  | Some (Nv s), Some (Nv s') => nv_decodes s s' kw
  | Some (Lc s), Some (Lc s') => lc_decodes s s' kw
  | Some (Bp b), Some (Bp b') => bp_width kw b = bp_width kw b'
  | _, _ => False
  end.

Definition kv_domain `{!LosslessBackends} (c : kvserve_codec) (kw : meta_dict) (t : tensor) : Prop :=
  match inner c with
  | Some (Nv s) => nv_domain s kw t
  | Some (Lc s) => lc_domain s kw t
  | Some (Bp b) => bp_domain b kw t
  | None => True
  end.

#[export] Instance kvserve_lossless `{!LosslessBackends} : LosslessCodec (KC := kvserve_codecs on_payload_device).
Proof.
  refine {| codec_domain := kv_domain : @co_state (kvserve_codecs on_payload_device) → _; codec_device dev := on_payload_device dev = true; decodes := kv_decodes : @co_state (kvserve_codecs on_payload_device) → _ |}.
  - intros c i t kw e Ht He. cbn [encode kvserve_codecs] in He. destruct (inner c) as [[s|s|b]|]; cbn [of_option rbind backend_encode] in He;
      [by eapply nv_encode_ok|by eapply lc_encode_ok| |done].
    unfold bp_encode in He. inv_ok. split; [apply byte_tensor_ok|done].
  - intros kw c c' i j t e dev Hdec Ht Hdom Hdev He. cbn [encode decode kvserve_codecs] in *. unfold kv_decodes, kv_domain in *.
    destruct (inner c) as [[s|s|b]|]; destruct (inner c') as [[s'|s'|b']|]; try done; cbn [of_option rbind backend_encode backend_decode] in *.
    + by eapply nv_lossless.
    + by eapply lc_lossless.
    + by apply (bp_lossless b b').
Defined.

(** Updates of an unchanged configuration are harmless, and both ends
    agree: updated any number of times with the parameters it was made with,
    a codec keeps its type, its parameters and its state, without an
    exception; and whatever two instances made from the same parameters went
    through in this way, the one decodes what the other encoded. *)
Theorem codec_kept `{!LosslessBackends} kw c c' n :
  proper_kwargs kw → kvserve_new kw = Ok c → kvserve_new kw = Ok c' →
  Nat.iter n (λ s, (kvserve_update kw s.1)) (c, Ok ()) = (c, Ok ()) ∧ kv_decodes c c' kw.
Proof.
  intros Hkw Hc Hc'. split.
  - induction n as [|n IH]; [done|]. simpl. rewrite IH. by apply update_same.
  - apply kvserve_new_spec in Hc as (_ & b & Hb & ->). apply kvserve_new_spec in Hc' as (_ & b' & Hb' & ->).
    unfold kv_decodes, build in *. cbn [inner with_inner codec_type nvcomp_algorithm codec_kwargs] in *.
    destruct (is_name _ "nvcomp"); [inv_ok; by eapply nv_new_decodes|]. destruct (is_name _ "lc"); inv_ok; [by eapply lc_new_decodes|congruence].
Qed.

(** A switch that fails sticks: when nvCOMP's codec cannot be replaced by a
    bit-packing one because its width is wrong, the type is the new one and
    the instance the old one, and every later update, also with parameters
    that are right, goes to the old instance, which has no update. *)
Lemma failed_switch_sticks c s kw e :
  codec_type c = OStr "nvcomp" → inner c = Some (Nv s) → get kw "codec_type" = Some (OStr "bitpack") → bp_new (merge (codec_kwargs c) kw) = Err e →
  ∃ c1, kvserve_update kw c = (c1, Err e) ∧ ∀ good, get good "codec_type" = Some (OStr "bitpack") → (kvserve_update good c1).2 = Err AttributeError.
Proof.
  intros Hc Hi Hkw He. exists (assigned kw c). unfold kvserve_update. split.
  - unfold validate, replace_inner, build, assigned. cbn [codec_type inner codec_kwargs]. rewrite Hkw, Hc, Hi. cbn -[merge bp_new]. by rewrite He.
  - intros good Hg. unfold validate, assigned. cbn [codec_type inner]. rewrite Hg, Hkw, Hi. done.
Qed.

End codec.
