(* ===== verification/V1ManagerProps.v ===== *)
(** * The compression manager: an example

    The properties of [V1ManagerThms] and [V1CodecThms] at work: a quantizer
    that keeps three bits of each half-precision number, with [out=], and the
    bit-packing codec of width three, on two layers of two tokens and three
    heads, in the permuted layout. *)

From S2P Require Import Prelude PyData Wire WireThms BitPack TensorOps V1Manager V1ManagerThms V1Codec V1CodecThms.

#[local] Existing Instance ex_dtypes.

#[local] Instance ex_backends : Backends := {|
  nv_state := unit; nv_new _ _ := Err (RuntimeError "no GPU"); nv_encode _ _ _ := Err AssertionError; nv_decode _ _ _ _ _ _ := Err AssertionError;
  lc_state := unit; lc_new _ := Err (RuntimeError "no GPU"); lc_update _ s := (s, Ok ()); lc_encode _ _ _ := Err AssertionError; lc_decode _ _ _ _ _ _ := Err AssertionError
|}.

Definition ex_payload_device (d : string) : bool := bool_decide (d = "cuda:0"%string).

#[local] Instance ex_lossless : LosslessBackends ex_payload_device.
Proof. by refine {| nv_decodes _ _ _ := False; nv_domain _ _ _ := True; lc_decodes _ _ _ := False; lc_domain _ _ _ := True |}. Defined.

#[local] Instance ex_codecs : Codecs := kvserve_codecs ex_payload_device.

(** The high bits of little-endian 16-bit numbers, and back. *)
Fixpoint high_bits (l : list Z) : list Z := match l with _ :: h :: l => h / 32 :: high_bits l | _ => [] end.

Definition ex_quantize (t : tensor) : result (tensor * obj) :=
  if bool_decide (dtype t = "float16"%string) then
    Ok (mkTensor (shape t) "uint8" (high_bits (data t)),
        ODict [(KStr "axes", OTuple [OInt 0]); (KStr "scale", OTensor (mkTensor [1] "uint8" [32]))])
  else Err TypeError.

Definition ex_dequantize (t : tensor) : result tensor :=
  Ok (mkTensor (shape t) "float16" (data t ≫= λ s, [0; s * 32])).

#[local] Instance ex_stages : Stages := {|
  tr_state := unit; qu_state := unit; tr_new _ := Ok tt; qu_new _ _ := Ok tt; tr_update _ s := (s, Ok ()); qu_update _ s := (s, Ok ());
  transform _ _ t _ := Ok t; inverse _ _ t _ := Ok t;
  quantize _ _ t _ := ex_quantize t; quantize_out _ _ t _ := let? (y, p) := ex_quantize t in Ok (data y, p);
  supports_out_buffer _ := true; dequantize _ _ t _ _ := ex_dequantize t
|}.

#[local] Instance ex_casts : Casts.
Proof.
  refine {| copy_to d sh t := if bool_decide (dtype t = d ∧ shape t = sh) then Ok t else Err (RuntimeError "copy_") |}.
  intros t. by rewrite bool_decide_true.
Defined.

Lemma high_bits_length n l : length l = (2 * n)%nat → length (high_bits l) = n.
Proof.
  revert l. induction n as [|n IH]; intros [|x [|h l]] Hl; simpl in *; try lia. f_equal. apply IH. lia.
Qed.

Lemma ex_quantize_ok t y p : tensor_ok t → ex_quantize t = Ok (y, p) → tensor_ok y ∧ dtype y = "uint8"%string ∧ shape y = shape t.
Proof.
  intros Ht. unfold ex_quantize. destruct (bool_decide_reflect (dtype t = "float16"%string)) as [Hd|]; [|done]. intros [= <- _]. split; [|done].
  pose proof (ok_shape t Ht) as Hsh. split; simpl; [by eexists|done|]. pose proof (ok_data t Ht) as Hl. unfold nbytes, itemsize in *. rewrite Hd in Hl. simpl in *.
  change (default 1 (ex_size "float16")) with 2 in Hl. change (default 1 (ex_size "uint8")) with 1. pose proof (prod_nonneg _ Hsh). unfold numel, zlen in *. simpl.
  rewrite (high_bits_length (Z.to_nat (prod (shape t)))); lia.
Qed.

#[local] Instance ex_out : OutBuffers.
Proof. split; [done|]. intros q i t kw y p _ Ht Hq. by apply (ex_quantize_ok t y p). Defined.

(** ** A transfer *)

Definition ex_config : CompressionConfig :=
  mkCompressionConfig true None (Some [(KStr "impl", OStr "tilelang_fused"); (KStr "tp_rank", OInt 0); (KStr "tensor_parallel_size", OInt 1)]) (Some [(KStr "codec_type", OStr "bitpack"); (KStr "bitpack_bits", OInt 3)]) (Some ["quantizer"; "codec"]) 0.

Definition ex_new : manager := match new_manager ex_config false (Some TileLangFusedQuantizer) true with Ok m => m | Err _ => mkManager ex_config None None None 0 0 end.

Definition ex_x : tensor := mkTensor [2; 2; 2; 3] "float16" ((λ i, i * 5) <$> seqZ 0 48).

Definition ex_x6 : tensor := mkTensor [2; 2; 1; 2; 3; 1] "float16" ((λ i, i * 5) <$> seqZ 0 48).

Definition ex_restored : list tensor :=
  match restored normal ex_new ex_new ex_x6 0 with Ok l => l | Err _ => [] end.

Definition ex_error (_ : exn) : string := "".

#[local] Instance tensor_ok_dec t : Decision (tensor_ok t).
Proof.
  destruct (decide (is_Some (element_size (dtype t)) ∧ Forall (λ n, 0 ≤ n) (shape t) ∧ zlen (data t) = nbytes t)) as [(H1 & H2 & H3)|Hn];
    [left; by split|right; intros [H1 H2 H3]; by apply Hn].
Defined.

Lemma ex_params i t y p : forward ex_new i t = Ok (y, p) → Forall wireable p.
Proof.
  unfold forward. simpl. unfold ex_quantize. destruct (bool_decide _); [|done]. simpl. intros [= _ <-]. constructor; [|done].
  split; [|by eexists]. simpl. split_and!; try done. refine (bool_decide_unpack (tensor_ok (mkTensor [1] "uint8" [32])) _). vm_compute. exact I.
Qed.

Lemma ex_compressible : compressible None "cuda:0" ex_new ex_new ex_x6 (tail (shape ex_x6)) "uint8".
Proof.
  assert (Hok : tensor_ok ex_x6) by (refine (bool_decide_unpack _ _); vm_compute; exact I). split.
  - exact Hok.
  - by exists 2, [2; 1; 2; 3; 1].
  - split; [done| |done]. intros k kw _ Hk Hkw. exists k. split; [done|]. vm_compute in Hk. injection Hk as <-. reflexivity.
  - split; [done|]. refine (bool_decide_unpack _ _). vm_compute. exact I.
  - by eexists.
  - by apply (direct_uniform ex_new ex_x6 0 2).
  - apply wireable_given. intros i t y p _. apply ex_params.
  - intros a b buf ps Ha Hb Hp _ k kw Hk Hkw. vm_compute in Hk. injection Hk as <-. vm_compute in Hkw. injection Hkw as <-.
    change (hd 0 (shape ex_x6)) with 2 in Hb. change (bp_domain 3 [(KStr "codec_type", OStr "bitpack"); (KStr "bitpack_bits", OInt 3)] buf).
    assert (Hab : (a = 0 ∨ a = 1 ∨ a = 2) ∧ (b = 0 ∨ b = 1 ∨ b = 2)) by lia. unfold bp_domain.
    destruct Hab as [[->|[->| ->]] [->|[->| ->]]]; try lia; vm_compute in Hp; apply Ok_inj in Hp; injection Hp as <- _;
      (split; [refine (bool_decide_unpack _ _); vm_compute; exact I|intros w Hw; vm_compute in Hw; injection Hw as <-; vm_compute; discriminate]).
Qed.

Lemma ex_updated : update_config ex_config ex_new = (ex_new, Ok ()).
Proof. reflexivity. Qed.

Lemma transfer_transparent_witness :
  take 8 <$> (data <$> ex_restored) = [[0; 0; 0; 0; 0; 0; 0; 32]; [0; 96; 0; 128; 0; 128; 0; 128]] ∧
  ∃ m1 c w c',
    adapter_compress None "cuda:0" ex_error 3 1 ex_config ex_x "r1" ex_new = (m1, Ok (Some c)) ∧
    build_wire c 8 = Ok w ∧ restore_from_wire (λ _, ""%string) w = Ok c' ∧
    adapter_decompress 3 1 ex_config c' ex_new = (ex_new, Ok (Some (mkTensor (shape ex_x) (dtype ex_x) (concat (data <$> ex_restored))))).
Proof.
  split; [vm_compute; reflexivity|].
  apply (transfer_transparent None "cuda:0" ex_error 3 1 (λ _, ""%string) ex_config 8 ex_new ex_new ex_new ex_new ex_x ex_x6 "uint8" ex_restored "r1").
  - refine (bool_decide_unpack _ _). vm_compute. exact I.
  - reflexivity.
  - exact ex_updated.
  - exact ex_updated.
  - reflexivity.
  - vm_compute. discriminate.
  - exact ex_compressible.
  - intros i t y p _. apply ex_params.
  - vm_compute. reflexivity.
  - lia.
Defined.

Lemma direct_quantization_equivalent_witness :
  (∃ b ps, process_direct None ex_new ex_x6 0 = Ok (b, ps) ∧ shape b = [2; 2; 3; 1; 2; 1] ∧ take 6 (data b) = [0; 1; 0; 1; 0; 1]) ∧
  process_direct None ex_new ex_x6 0 = process_by_layer None ex_new ex_x6 0.
Proof.
  split; [eexists _, _; split; [vm_compute; reflexivity|split; reflexivity]|].
  apply (direct_quantization_equivalent None ex_new ex_x6 0 2 [2; 1; 2; 3; 1]); [vm_compute; reflexivity| |reflexivity|lia|reflexivity].
  refine (bool_decide_unpack _ _). vm_compute. exact I.
Defined.

(** Three updates of a bit-packing codec. *)
Definition ex_kwargs : meta_dict := [(KStr "codec_type", OStr "bitpack"); (KStr "bitpack_bits", OInt 3)].

Definition ex_codec : kvserve_codec := mkCodec (OStr "bitpack") (OStr "ANS") ONone ONone ex_kwargs (Some (Bp 3)).

Lemma codec_kept_witness :
  kvserve_new ex_kwargs = Ok ex_codec ∧
  Nat.iter 3 (λ s, kvserve_update ex_kwargs s.1) (ex_codec, Ok ()) = (ex_codec, Ok ()) ∧ kv_decodes ex_payload_device ex_codec ex_codec ex_kwargs.
Proof.
  split; [reflexivity|]. apply (codec_kept ex_payload_device ex_kwargs ex_codec ex_codec 3); [|reflexivity..].
  split; [refine (bool_decide_unpack _ _); vm_compute; exact I|repeat constructor].
Defined.
