(* ===== verification/Controller.v ===== *)
(** * The online controller of the v1 product

    [compression/controller/]: profiles and their library, the analytical
    latency model, the bandit statistics, and the choice of a profile for a
    request. Numbers are binary64 floats (a JSON integer as the float it
    converts to in the arithmetic here); the library is a JSON document of the
    documented form. What [random] returns is an argument. *)

From Stdlib Require Import Ascii.
From S2P Require Import Prelude PyData Wire.

(** [a / b] of floats *)
Definition fdiv (a b : float) : result float := if F.eqb b F.zero then Err ZeroDivisionError else Ok (F.div a b).

(** ** [profile.py] *)

Record Profile := mkProfile {
  profile_id : string;
  compression_config : obj;
  compression_ratio : float;
  harmonic_speed : float;
  critical_bandwidth_mbps : option float;
  accuracy : float
}.

(** [(1 - 1/cr) * S] *)
Definition benefit_bound (p : Profile) : result float :=
  let? q := fdiv F.one (compression_ratio p) in Ok (F.mul (F.sub F.one q) (harmonic_speed p)).

(** The default of [dict.get] is evaluated first. *)
Definition critical_bandwidth (p : Profile) : result float :=
  let? b := benefit_bound p in Ok (default b (critical_bandwidth_mbps p)).

(** ** [analytical_model.py] *)

Definition MIB : float := F.of_Z (1024 * 1024).
Definition THOUSAND : float := F.of_Z 1000.

Definition predict_latency (p : Profile) (V_bytes B_mbps T_model_ms : float) : result float :=
  let? V_mb := fdiv V_bytes MIB in
  let? a := fdiv V_mb (harmonic_speed p) in
  let T_codec_ms := F.mul a THOUSAND in
  let? b := fdiv (F.mul V_mb (compression_ratio p)) B_mbps in
  let T_transfer_ms := F.mul b THOUSAND in
  Ok (F.add (F.add T_model_ms T_codec_ms) T_transfer_ms).

Definition predict_baseline_latency (V_bytes B_mbps T_model_ms : float) : result float :=
  let? V_mb := fdiv V_bytes MIB in
  let? b := fdiv V_mb B_mbps in
  Ok (F.add T_model_ms (F.mul b THOUSAND)).

Definition check_benefit (p : Profile) (B_mbps : float) : result bool :=
  let? b := benefit_bound p in Ok (F.ltb B_mbps b).

Definition compute_speedup (p : Profile) (V_bytes B_mbps T_model_ms : float) : result float :=
  let? T_0 := predict_baseline_latency V_bytes B_mbps T_model_ms in
  let? T_p := predict_latency p V_bytes B_mbps T_model_ms in
  fdiv T_0 T_p.

(** ** [bandit_state.py] *)

Definition arm : Type := Z * Z * string.

Record BanditState := mkBandit { alpha : float; state : list (arm * (Z * float)) }.

Definition get_stats (b : BanditState) (a : arm) : Z * float := default (0, F.zero) (dget (state b) a).

Definition bandit_update (a : arm) (delta_obs : float) (b : BanditState) : BanditState :=
  let (N, old) := get_stats b a in
  let new := F.add (F.mul (F.sub F.one (alpha b)) old) (F.mul (alpha b) delta_obs) in
  mkBandit (alpha b) (dset (state b) a (N + 1, new)).

Definition get_usage_count (b : BanditState) (a : arm) : Z := (get_stats b a).1.
Definition get_residual (b : BanditState) (a : arm) : float := (get_stats b a).2.
Definition reset (b : BanditState) : BanditState := mkBandit (alpha b) [].
Definition get_total_states (b : BanditState) : Z := zlen (state b).

(** What is written to and read from the file, as JSON keeps it: one dict
    with string keys. *)
Record bandit_file := mkFile { f_alpha : float; f_state : list (string * (Z * float)) }.

Definition arm_key (a : arm) : string :=
  let '(bucket_id, interval_id, pid) := a in str_of_Z bucket_id +:+ "_" +:+ str_of_Z interval_id +:+ "_" +:+ pid.

Definition save (b : BanditState) : bandit_file :=
  mkFile (alpha b) (foldl (λ d e, dset d (arm_key e.1) e.2) [] (state b)).

(** [s.split('_', 2)]: the parts. *)
Fixpoint split_once (s : string) : option (string * string) :=
  match s with
  | EmptyString => None
  | String c s =>
      if Ascii.eqb c "_"%char then Some (EmptyString, s)
      else match split_once s with Some (a, b) => Some (String c a, b) | None => None end
  end.

Definition split_key (s : string) : option (string * string * string) :=
  '(a, s) ← split_once s; '(b, c) ← split_once s; Some (a, b, c).

Definition load_entry (e : string * (Z * float)) (d : list (arm * (Z * float))) : result (list (arm * (Z * float))) :=
  match split_key e.1 with
  | None => Ok d
  | Some (a, b, c) =>
      let? i := of_option (ValueError "invalid literal for int()") (int_of_str a) in
      let? j := of_option (ValueError "invalid literal for int()") (int_of_str b) in
      Ok (dset d (i, j, c) e.2)
  end.

(** An entry that raises leaves those before it. *)
Fixpoint load_entries (l : list (string * (Z * float))) (d : list (arm * (Z * float))) : list (arm * (Z * float)) * result unit :=
  match l with
  | [] => (d, Ok ())
  | e :: l => match load_entry e d with Ok d => load_entries l d | Err x => (d, Err x) end
  end.

Definition load (f : bandit_file) : BanditState * result unit :=
  let (d, r) := load_entries (f_state f) [] in (mkBandit (f_alpha f) d, r).

(** ** [profile_library.py] *)

Record Interval := mkInterval {
  interval_id : Z;
  x_range : float * float;
  candidate_profile_ids : list string;
  model_optimal_profile_id : option string
}.

Record Bucket := mkBucket {
  bucket_id : Z;
  acc_range : float * float;
  bandwidth_intervals : list Interval;
  pareto_profiles : list Profile
}.

Record ProfileLibrary := mkLibrary { accuracy_buckets : list Bucket; profile_map : list (string * Profile) }.

Definition build_profile_index (l : list Bucket) : list (string * Profile) :=
  foldl (λ d p, dset d (profile_id p) p) [] (l ≫= pareto_profiles).

Definition new_library (l : list Bucket) : result ProfileLibrary :=
  let m := build_profile_index l in
  raise_if (bool_decide (length l = 0%nat)) (ValueError "Profile library has no accuracy buckets") ;?
  Ok (mkLibrary l m).

(** [min(l, key=f)]: the first of the least, by [<] on the keys. *)
Definition py_min {A} (f : A → float) (x : A) (l : list A) : A :=
  foldl (λ best y, if F.ltb (f y) (f best) then y else best) x l.

Definition fmin (a b : float) : float := if F.ltb b a then b else a.

Definition bucket_distance (acc_req : float) (b : Bucket) : float :=
  fmin (F.abs (F.sub (acc_range b).1 acc_req)) (F.abs (F.sub (acc_range b).2 acc_req)).

Definition within (r : float * float) (x : float) : bool := F.leb r.1 x && F.ltb x r.2.

Definition find_bucket (lib : ProfileLibrary) (acc_req : float) : option Bucket :=
  match list_find (λ b, within (acc_range b) acc_req = true) (accuracy_buckets lib) with
  | Some (_, b) => Some b
  | None => match accuracy_buckets lib with [] => None | b :: l => Some (py_min (bucket_distance acc_req) b l) end
  end.

Definition find_interval (b : Bucket) (B_mbps : float) : result (option Interval) :=
  let? x := fdiv F.one B_mbps in
  Ok (match list_find (λ i, within (x_range i) x = true) (bandwidth_intervals b) with
      | Some (_, i) => Some i
      | None => last (bandwidth_intervals b)
      end).

Definition get_profile (lib : ProfileLibrary) (pid : string) : option Profile := dget (profile_map lib) pid.

Definition get_candidate_profiles (lib : ProfileLibrary) (i : Interval) : list Profile :=
  omap (get_profile lib) (candidate_profile_ids i).

Definition get_optimal_profile (lib : ProfileLibrary) (i : Interval) : option Profile :=
  match model_optimal_profile_id i with
  | Some pid => if bool_decide (pid = ""%string) then None else get_profile lib pid
  | None => None
  end.

Definition get_bucket_info (lib : ProfileLibrary) (id : Z) : option Bucket :=
  snd <$> list_find (λ b, bucket_id b = id) (accuracy_buckets lib).

(** ** [online_controller.py] *)

Record OnlineController := mkController {
  library : ProfileLibrary;
  epsilon : float;
  bandit : BanditState;
  total_decisions : Z;
  exploit_count : Z;
  explore_count : Z;
  no_compression_count : Z
}.

Definition new_controller (lib : ProfileLibrary) (eps al : float) : OnlineController :=
  mkController lib eps (mkBandit al []) 0 0 0 0.

Record Prediction := mkPrediction { p_profile : Profile; T_hat : float; T_eff : float; delta_bar : float; speedup : float }.

(** The context of a decision; the entries that only repeat arguments are
    left out. *)
Inductive context :=
  | NoCompression (reason : string)
  | Selected (c_arm : arm) (p : Prediction) (explored : bool) (num_candidates : Z) (baseline : float).

Section select.
Context (V_bytes B_mbps T_model_ms T_SLO_ms : float).

Definition rfilter {A} (f : A → result bool) : list A → result (list A) :=
  fix go l := match l with [] => Ok [] | x :: l => let? b := f x in let? l := go l in Ok (if b then x :: l else l) end.

Definition predict_one (b : BanditState) (bid iid : Z) (baseline : float) (d : list (string * Prediction)) (p : Profile) :
    result (list (string * Prediction)) :=
  let? t := predict_latency p V_bytes B_mbps T_model_ms in
  let delta := (get_stats b (bid, iid, profile_id p)).2 in
  let eff := F.add t delta in
  if F.leb eff T_SLO_ms
  then let? s := fdiv baseline eff in Ok (dset d (profile_id p) (mkPrediction p t eff delta s))
  else Ok d.

(** Which prediction: [pick] is the index [random.choice] draws. *)
Definition choose (eps r : float) (pick : nat) (x : string * Prediction) (l : list (string * Prediction)) : (string * Prediction) * bool :=
  if F.ltb r eps then (nth pick (x :: l) x, true) else (py_min (λ e, T_eff e.2) x l, false).

(** The decision without the counters: [inl] is a reason. *)
Definition decide_profile (c : OnlineController) (acc_req r : float) (pick : nat) : result (string + (Profile * context)) :=
  match find_bucket (library c) acc_req with
  | None => Ok (inl "no_matching_bucket")
  | Some bk =>
      let? iv := find_interval bk B_mbps in
      match iv with
      | None => Ok (inl "no_matching_interval")
      | Some iv =>
          match get_candidate_profiles (library c) iv with
          | [] => Ok (inl "no_candidates")
          | candidates =>
              let? candidates := rfilter (λ p, check_benefit p B_mbps) candidates in
              match candidates with
              | [] => Ok (inl "no_benefit")
              | _ =>
                  let? baseline := predict_baseline_latency V_bytes B_mbps T_model_ms in
                  let? predictions := rfold (predict_one (bandit c) (bucket_id bk) (interval_id iv) baseline) [] candidates in
                  match predictions with
                  | [] => Ok (inl "slo_violation")
                  | x :: l =>
                      let '(e, explored) := choose (epsilon c) r pick x l in
                      Ok (inr (p_profile e.2, Selected (bucket_id bk, interval_id iv, e.1) e.2 explored (zlen candidates) baseline))
                  end
              end
          end
      end
  end.

Definition counted (total none explore exploit : Z) (c : OnlineController) : OnlineController :=
  mkController (library c) (epsilon c) (bandit c) (total_decisions c + total) (exploit_count c + exploit) (explore_count c + explore)
    (no_compression_count c + none).

Definition select_profile (acc_req r : float) (pick : nat) (c : OnlineController) : OnlineController * result (option Profile * context) :=
  match decide_profile c acc_req r pick with
  | Err e => (counted 1 0 0 0 c, Err e)
  | Ok (inl reason) => (counted 1 1 0 0 c, Ok (None, NoCompression reason))
  | Ok (inr (p, Selected a pr true n b)) => (counted 1 0 1 0 c, Ok (Some p, Selected a pr true n b))
  | Ok (inr (p, ctx)) => (counted 1 0 0 1 c, Ok (Some p, ctx))
  end.

End select.

Definition update (ctx : context) (T_obs_ms : float) (c : OnlineController) : OnlineController :=
  match ctx with
  | NoCompression _ => c
  | Selected a p _ _ _ =>
      mkController (library c) (epsilon c) (bandit_update a (F.sub T_obs_ms (T_hat p)) (bandit c)) (total_decisions c) (exploit_count c)
        (explore_count c) (no_compression_count c)
  end.

Definition reset_statistics (c : OnlineController) : OnlineController := mkController (library c) (epsilon c) (bandit c) 0 0 0 0.

Definition save_state (c : OnlineController) : bandit_file := save (bandit c).

Definition load_state (f : bandit_file) (c : OnlineController) : OnlineController * result unit :=
  let (b, r) := load f in
  (mkController (library c) (epsilon c) b (total_decisions c) (exploit_count c) (explore_count c) (no_compression_count c), r).

(** [get_statistics]: the two rates. *)
Definition compression_rate (c : OnlineController) : float :=
  if 0 <? total_decisions c then F.div (F.of_Z (total_decisions c - no_compression_count c)) (F.of_Z (total_decisions c)) else F.zero.

Definition exploitation_rate (c : OnlineController) : float :=
  if 0 <? exploit_count c + explore_count c then F.div (F.of_Z (exploit_count c)) (F.of_Z (exploit_count c + explore_count c)) else F.zero.
