(* ===== verification/ControllerThms.v ===== *)
(** * The online controller: properties

    A profile that is chosen is one of the candidates, passes the benefit
    condition and meets the latency objective; exploitation takes the least
    corrected latency; every decision is counted once; the learned state
    survives its file. And what the latency model predicts contradicts the
    benefit condition. *)

From Stdlib Require Import Ascii SpecFloat.
From S2P Require Import Prelude PyData Wire Controller.

(** ** The order of floats *)

(** Sign, exponent and mantissa, compared in this order. *)
Definition rank (f : float) : option (Z * Z * Z) :=
  match f with
  | S754_nan => None
  | S754_infinity s => Some (if s then -2 else 2, 0, 0)
  | S754_zero _ => Some (0, 0, 0)
  | S754_finite s m e => Some (if s then (-1, - e, Z.neg m) else (1, e, Z.pos m))
  end.

Definition lex (a b : Z * Z * Z) : Prop :=
  let '(s1, e1, m1) := a in let '(s2, e2, m2) := b in s1 < s2 ∨ s1 = s2 ∧ (e1 < e2 ∨ e1 = e2 ∧ m1 < m2).

Lemma ltb_rank a b : F.ltb a b = true ↔ ∃ x y, rank a = Some x ∧ rank b = Some y ∧ lex x y.
Proof.
  split.
  - unfold F.ltb, SFltb. intros H. destruct a as [sa|sa| |sa ma ea], b as [sb|sb| |sb mb eb]; simpl in *; try discriminate H;
      (eexists _, _; split; [reflexivity|]; split; [reflexivity|]); try (destruct sa); try (destruct sb); simpl in *; try discriminate H; try lia.
    all: destruct (Z.compare_spec ea eb) as [->|He|He]; try discriminate H; try lia.
    all: change (Pos.compare_cont Eq ma mb) with (Pos.compare ma mb) in H; destruct (Pos.compare_spec ma mb); try discriminate H; lia.
  - intros (x & y & Ha & Hb & Hl). unfold F.ltb, SFltb. destruct a as [sa|sa| |sa ma ea], b as [sb|sb| |sb mb eb]; simpl in *; try discriminate Ha; try discriminate Hb;
      injection Ha as <-; injection Hb as <-; try (destruct sa); try (destruct sb); simpl in *; try lia; try done.
    all: destruct (Z.compare_spec ea eb) as [->|He|He]; try lia; try done.
    all: change (Pos.compare_cont Eq ma mb) with (Pos.compare ma mb); destruct (Pos.compare_spec ma mb); try lia; done.
Qed.

Lemma ltb_trans a b c : F.ltb a b = true → F.ltb b c = true → F.ltb a c = true.
Proof.
  rewrite !ltb_rank. intros ([[x1 x2] x3] & y & Hx & Hy & Hl) (y' & [[z1 z2] z3] & Hy' & Hz & Hl'). rewrite Hy in Hy'. injection Hy' as <-.
  destruct y as [[y1 y2] y3]. eexists _, _. split; [exact Hx|]. split; [exact Hz|]. simpl in *. lia.
Qed.

Lemma ltb_irrefl a : F.ltb a a = false.
Proof.
  destruct (F.ltb a a) eqn:E; [|done]. apply ltb_rank in E as (x & y & Hx & Hy & Hl). rewrite Hx in Hy. injection Hy as <-.
  destruct x as [[x1 x2] x3]. simpl in Hl. lia.
Qed.

(** [min] gives an element none is below. *)
Lemma py_min_spec {A} (f : A → float) x l : py_min f x l ∈ x :: l ∧ ∀ y, y ∈ x :: l → F.ltb (f y) (f (py_min f x l)) = false.
Proof.
  unfold py_min. induction l as [|z l [IH1 IH2]] using rev_ind.
  - split; [by left|]. intros y ->%list_elem_of_singleton. apply ltb_irrefl.
  - rewrite foldl_app. simpl. set (best := foldl _ _ _) in *. destruct (F.ltb (f z) (f best)) eqn:E.
    + split; [right; apply elem_of_app; right; by left|]. intros y Hy. destruct (F.ltb (f y) (f z)) eqn:E2; [|done].
      assert (Hyb : y ∈ x :: l ∨ y = z) by set_solver. destruct Hyb as [Hyb| ->]; [|by rewrite ltb_irrefl in E2].
      pose proof (ltb_trans _ _ _ E2 E) as E3. by rewrite IH2 in E3.
    + split; [set_solver|]. intros y Hy. assert (Hyb : y ∈ x :: l ∨ y = z) by set_solver. destruct Hyb as [Hyb| ->]; [by apply IH2|done].
Qed.

(** ** The library *)

Lemma profile_index_ok l : ∀ pid p, dget (build_profile_index l) pid = Some p → profile_id p = pid.
Proof.
  unfold build_profile_index. generalize (l ≫= pareto_profiles). intros ps.
  assert (H : ∀ d, (∀ pid p, dget d pid = Some p → profile_id p = pid) →
    ∀ pid p, dget (foldl (λ d p, dset d (profile_id p) p) d ps) pid = Some p → profile_id p = pid); [|by apply H].
  induction ps as [|q ps IH]; intros d Hd; [done|]. simpl. apply IH. intros pid p Hp.
  destruct (decide (profile_id q = pid)) as [<-|Hne]; [rewrite dget_dset_eq in Hp; congruence|]. rewrite dget_dset_ne in Hp by done. by apply Hd.
Qed.

Definition library_ok (lib : ProfileLibrary) : Prop := ∃ l, new_library l = Ok lib.

Lemma get_profile_id lib pid p : library_ok lib → get_profile lib pid = Some p → profile_id p = pid.
Proof.
  intros [l Hl] Hp. unfold new_library in Hl. apply rbind_Ok in Hl as (u & _ & Hl). injection Hl as <-. by apply (profile_index_ok l).
Qed.

Lemma candidates_same lib iv p q :
  library_ok lib → p ∈ get_candidate_profiles lib iv → q ∈ get_candidate_profiles lib iv → profile_id p = profile_id q → p = q.
Proof.
  intros Hl Hp Hq E. apply list_elem_of_omap in Hp as (i & _ & Hp). apply list_elem_of_omap in Hq as (j & _ & Hq).
  pose proof (get_profile_id _ _ _ Hl Hp). pose proof (get_profile_id _ _ _ Hl Hq). congruence.
Qed.

(** A library has a bucket for every accuracy, also one none contains. *)
Lemma find_bucket_total lib acc : library_ok lib → is_Some (find_bucket lib acc).
Proof.
  intros [l Hl]. unfold new_library in Hl. apply rbind_Ok in Hl as (u & Hr & Hl). injection Hl as <-.
  apply raise_if_Ok, bool_decide_eq_false in Hr. unfold find_bucket. cbn [accuracy_buckets]. destruct (list_find _ _) as [[i b]|]; [by eexists|].
  destruct l; [done|by eexists].
Qed.

(** The bucket a request is served from: the first one that contains its
    accuracy, and one of the closest where none does. *)
Definition bucket_for (lib : ProfileLibrary) (acc : float) (bk : Bucket) : Prop :=
  bk ∈ accuracy_buckets lib ∧
  (within (acc_range bk) acc = true ∨
   ∀ b, b ∈ accuracy_buckets lib → within (acc_range b) acc = false ∧ F.ltb (bucket_distance acc b) (bucket_distance acc bk) = false).

(** ... and the interval: one that contains [1 / B], and the last one where
    none does. *)
Definition interval_for (bk : Bucket) (B : float) (iv : Interval) : Prop :=
  ∃ x, fdiv F.one B = Ok x ∧ iv ∈ bandwidth_intervals bk ∧
  (within (x_range iv) x = true ∨ last (bandwidth_intervals bk) = Some iv ∧ ∀ i, i ∈ bandwidth_intervals bk → within (x_range i) x = false).

Lemma find_none {A} (f : A → bool) l : list_find (λ x, f x = true) l = None → ∀ x, x ∈ l → f x = false.
Proof. intros H x Hx. apply list_find_None in H. rewrite Forall_forall in H. apply not_true_iff_false, (H x Hx). Qed.

Lemma find_bucket_for lib acc bk : find_bucket lib acc = Some bk → bucket_for lib acc bk.
Proof.
  unfold find_bucket, bucket_for. destruct (list_find _ _) as [[i b]|] eqn:E.
  - intros [= ->]. apply list_find_Some in E as (Hi & Hw & _). apply list_elem_of_lookup_2 in Hi. split; [done|by left].
  - destruct (accuracy_buckets lib) as [|b l]; [done|]. intros [= <-]. destruct (py_min_spec (bucket_distance acc) b l) as [Hin Hmin].
    split; [done|]. right. intros b' Hb'. split; [by apply (find_none _ _ E)|by apply Hmin].
Qed.

Lemma find_interval_for bk B iv : find_interval bk B = Ok (Some iv) → interval_for bk B iv.
Proof.
  unfold find_interval, interval_for. intros (x & Hx & H)%rbind_Ok. exists x. split; [done|]. destruct (list_find _ _) as [[i b]|] eqn:E.
  - injection H as ->. apply list_find_Some in E as (Hi & Hw & _). apply list_elem_of_lookup_2 in Hi. split; [done|by left].
  - injection H as H. split; [by apply last_Some_elem_of|]. right. split; [done|]. intros i. apply (find_none _ _ E).
Qed.

(** ** The choice *)

Section select.
Context (V_bytes B_mbps T_model_ms T_SLO_ms : float).

Lemma rfilter_spec {A} (f : A → result bool) l l' :
  rfilter f l = Ok l' → ∀ x, x ∈ l' ↔ x ∈ l ∧ f x = Ok true.
Proof.
  revert l'. induction l as [|a l IH]; intros l' H x; simpl in H.
  - injection H as <-. set_solver.
  - apply rbind_Ok in H as (b & Hb & H). apply rbind_Ok in H as (l1 & Hl & H). injection H as <-. specialize (IH l1 Hl x).
    destruct b; [rewrite elem_of_cons, IH|rewrite IH]; rewrite (elem_of_cons l); split; intros Hx; try tauto.
    + destruct Hx as [->|Hx]; [by split; [left|]|tauto].
    + destruct Hx as [[->|Hx] Hf]; [congruence|tauto].
Qed.

(** The corrected latency of a profile, where it meets the objective. *)
Definition effective (b : BanditState) (bid iid : Z) (p : Profile) (t e : float) : Prop :=
  predict_latency p V_bytes B_mbps T_model_ms = Ok t ∧ e = F.add t (get_stats b (bid, iid, profile_id p)).2 ∧ F.leb e T_SLO_ms = true.

Definition predictions_ok (b : BanditState) (bid iid : Z) (l : list Profile) (d : list (string * Prediction)) : Prop :=
  (∀ k pr, (k, pr) ∈ d → k = profile_id (p_profile pr) ∧ p_profile pr ∈ l ∧ effective b bid iid (p_profile pr) (T_hat pr) (T_eff pr)) ∧
  (∀ p t e, p ∈ l → effective b bid iid p t e → profile_id p ∈ d.*1).

Lemma predictions_spec b bid iid base l d :
  rfold (predict_one V_bytes B_mbps T_model_ms T_SLO_ms b bid iid base) [] l = Ok d → predictions_ok b bid iid l d.
Proof.
  apply rfold_seen.
  - intros pre p s s' _ [IH1 IH2] H. unfold predict_one in H. apply rbind_Ok in H as (t & Ht & H).
    destruct (F.leb _ _) eqn:El.
    + apply rbind_Ok in H as (sp & _ & H). injection H as <-. split.
      * intros k pr Hin. apply elem_of_dset in Hin as [[= -> ->]|[Hin _]]; [split; [done|]; split; [apply elem_of_app; right; by left|done]|].
        destruct (IH1 k pr Hin) as (? & ? & ?). split; [done|]. split; [apply elem_of_app; by left|done].
      * intros q t' e Hq He. change (dset s _ _).*1 with (dkeys (dset s (profile_id p) (mkPrediction p t (F.add t (get_stats b (bid, iid, profile_id p)).2) (get_stats b (bid, iid, profile_id p)).2 sp))).
        rewrite dkeys_dset. apply elem_of_app in Hq as [Hq|Hq%list_elem_of_singleton].
        -- specialize (IH2 q t' e Hq He). destruct (dget s _); [done|]. apply elem_of_app. by left.
        -- subst q. destruct (dget s (profile_id p)) eqn:E; [|apply elem_of_app; right; by left]. apply dget_elem_of in E. apply list_elem_of_fmap. by eexists (_, _).
    + injection H as <-. split.
      * intros k pr Hin. destruct (IH1 k pr Hin) as (? & ? & ?). split; [done|]. split; [apply elem_of_app; by left|done].
      * intros q t' e Hq He. apply elem_of_app in Hq as [Hq|Hq%list_elem_of_singleton]; [by eapply IH2|]. subst q.
        destruct He as (Ht' & -> & Hle). rewrite Ht in Ht'. injection Ht' as <-. congruence.
  - split; intros *; by rewrite ?elem_of_nil.
Qed.

(** The profiles a decision may choose. *)
Definition eligible (c : OnlineController) (bk : Bucket) (iv : Interval) (p : Profile) (t e : float) : Prop :=
  p ∈ get_candidate_profiles (library c) iv ∧ check_benefit p B_mbps = Ok true ∧ effective (bandit c) (bucket_id bk) (interval_id iv) p t e.

Lemma decide_inl c acc r pick reason bk iv p t e :
  decide_profile V_bytes B_mbps T_model_ms T_SLO_ms c acc r pick = Ok (inl reason) →
  find_bucket (library c) acc = Some bk → find_interval bk B_mbps = Ok (Some iv) → ¬ eligible c bk iv p t e.
Proof.
  unfold decide_profile. intros H Hbk Hiv (Hc & Hb & He). rewrite Hbk, Hiv in H. cbn [rbind] in H.
  destruct (get_candidate_profiles _ iv) as [|q qs] eqn:Ec; [by apply elem_of_nil in Hc|]. apply rbind_Ok in H as (l & Hl & H).
  assert (Hin : p ∈ l) by (by eapply rfilter_spec).
  destruct l as [|q' l]; [by apply elem_of_nil in Hin|]. apply rbind_Ok in H as (base & _ & H). apply rbind_Ok in H as (d & Hd & H).
  apply predictions_spec in Hd as [_ Hd]. specialize (Hd p t e Hin He). destruct d as [|x d]; [by apply elem_of_nil in Hd|].
  by destruct (choose _ _ _ _ _).
Qed.

Lemma decide_inr c acc r pick p ctx :
  library_ok (library c) → decide_profile V_bytes B_mbps T_model_ms T_SLO_ms c acc r pick = Ok (inr (p, ctx)) →
  ∃ bk iv pr n base, find_bucket (library c) acc = Some bk ∧ find_interval bk B_mbps = Ok (Some iv) ∧
    ctx = Selected (bucket_id bk, interval_id iv, profile_id p) pr (F.ltb r (epsilon c)) n base ∧
    eligible c bk iv p (T_hat pr) (T_eff pr) ∧
    (F.ltb r (epsilon c) = false → ∀ q t e, eligible c bk iv q t e → F.ltb e (T_eff pr) = false).
Proof.
  intros Hlib. unfold decide_profile. destruct (find_bucket _ acc) as [bk|]; [|done]. intros H. apply rbind_Ok in H as (iv & Hiv & H).
  destruct iv as [iv|]; [|done]. destruct (get_candidate_profiles _ iv) as [|q0 qs] eqn:Ec; [done|]. rewrite <- Ec in *. clear Ec.
  apply rbind_Ok in H as (l & Hl & H). destruct l as [|q' l'] eqn:El; [done|]. rewrite <- El in *.
  apply rbind_Ok in H as (base & _ & H). apply rbind_Ok in H as (d & Hd & H). apply predictions_spec in Hd as [Hd1 Hd2].
  destruct d as [|x d]; [done|]. destruct (choose _ _ _ _ _) as [e0 ex] eqn:Ech. injection H as <- <-.
  pose proof (rfilter_spec _ _ _ Hl) as Hf.
  assert (Hx : e0 ∈ x :: d ∧ ex = F.ltb r (epsilon c) ∧ (ex = false → e0 = py_min (λ e, T_eff e.2) x d)).
  { unfold choose in Ech. destruct (F.ltb r (epsilon c)); injection Ech as <- <-; (split; [|done]).
    - destruct (nth_in_or_default pick (x :: d) x) as [Hin|E]; [by apply list_elem_of_In|]. change (nth pick (x :: d) x ∈ x :: d). rewrite E. by left.
    - apply (py_min_spec (λ e, T_eff e.2) x d). }
  destruct Hx as (He0 & -> & Hmin). destruct e0 as [k pr]. destruct (Hd1 k pr He0) as (-> & Hin & Heff). cbn [fst snd].
  apply Hf in Hin as [Hcand Hben]. exists bk, iv, pr. eexists _, _. split_and!; try done.
  intros Hex q t e (Hcq & Hbq & Heq). assert (Hql : q ∈ l) by (by apply Hf). specialize (Hd2 q t e Hql Heq).
  apply list_elem_of_fmap in Hd2 as ([k2 pr2] & Hk2 & Hin2). destruct (Hd1 k2 pr2 Hin2) as (Hk2' & Hp2 & Heff2). simpl in Hk2. subst k2.
  apply Hf in Hp2 as [Hc2 _]. assert (Eq : p_profile pr2 = q) by (eapply candidates_same; [done|exact Hc2|exact Hcq|congruence]). rewrite Eq in Heff2.
  assert (Ee : e = T_eff pr2). { destruct Heff2 as (Ht2 & -> & _), Heq as (Ht & -> & _). congruence. } subst e.
  pose proof (proj2 (py_min_spec (λ e, T_eff e.2) x d) _ Hin2) as Hm. simpl in Hm. rewrite <- (Hmin Hex) in Hm. exact Hm.
Qed.

(** C31 What the controller decides: a profile it chooses is a candidate of the
    interval and the bucket the request is served from (the closest bucket where
    none contains the accuracy, the last interval where none contains [1 / B]),
    passes the benefit condition and meets the latency objective by the code's
    own corrected prediction, [T_model + V/S + V*cr/B] plus the learned residual,
    and when the controller exploits no eligible candidate has a smaller one;
    when it decides against compression no candidate was eligible. The context
    tells which arm to update. The documented prediction divides by [cr] and may
    order the candidates the other way ([worse_profile_exploited]). *)
Theorem decision_sound c acc r pick c' p ctx :
  library_ok (library c) → select_profile V_bytes B_mbps T_model_ms T_SLO_ms acc r pick c = (c', Ok (p, ctx)) →
  match p with
  | Some p => ∃ bk iv pr n base, bucket_for (library c) acc bk ∧ interval_for bk B_mbps iv ∧
      ctx = Selected (bucket_id bk, interval_id iv, profile_id p) pr (F.ltb r (epsilon c)) n base ∧
      eligible c bk iv p (T_hat pr) (T_eff pr) ∧
      (F.ltb r (epsilon c) = false → ∀ q t e, eligible c bk iv q t e → F.ltb e (T_eff pr) = false)
  | None => ∀ bk iv q t e, find_bucket (library c) acc = Some bk → find_interval bk B_mbps = Ok (Some iv) → ¬ eligible c bk iv q t e
  end.
Proof.
  intros Hlib. unfold select_profile. destruct (decide_profile _ _ _ _ _ _ _ _) as [[reason|[p0 ctx0]]|] eqn:E; [|  |done].
  - intros [= _ <- <-] bk iv q t e. by apply decide_inl with (acc := acc) (r := r) (pick := pick) (reason := reason).
  - intros H. assert (Hp : p = Some p0 ∧ ctx = ctx0) by (destruct ctx0 as [|a pr [] n b]; by injection H as _ <- <-). destruct Hp as [-> ->].
    apply decide_inr with (1 := Hlib) in E as (bk & iv & pr & n & base & Hbk & Hiv & Hrest). exists bk, iv, pr, n, base.
    split; [by apply find_bucket_for|]. split; [by apply find_interval_for|exact Hrest].
Qed.

End select.

(** ** Counters *)

Inductive decision := Decision_ (V B T SLO acc r : float) (pick : nat) | Feedback (ctx : context) (T_obs : float).

Definition decision_step (s : OnlineController * Z) (d : decision) : OnlineController * Z :=
  let (c, raised) := s in
  match d with
  | Decision_ V B T SLO acc r pick =>
      let (c, res) := select_profile V B T SLO acc r pick c in (c, match res with Ok _ => raised | Err _ => raised + 1 end)
  | Feedback ctx t => (update ctx t c, raised)
  end.

Lemma counters_step s d :
  let t := λ s : OnlineController * Z, total_decisions s.1 - no_compression_count s.1 - explore_count s.1 - exploit_count s.1 - s.2 in
  t (decision_step s d) = t s.
Proof.
  destruct s as [c n], d as [V B T SLO acc r pick|ctx o]; simpl.
  - unfold select_profile. destruct (decide_profile _ _ _ _ _ _ _ _) as [[?|[? [|? ? [] ? ?]]]|]; simpl; lia.
  - by destruct ctx.
Qed.

Lemma counters_run lib eps al ds :
  let s := foldl decision_step (new_controller lib eps al, 0) ds in
  total_decisions s.1 = no_compression_count s.1 + explore_count s.1 + exploit_count s.1 + s.2.
Proof.
  simpl. assert (H : ∀ s, let t := λ s : OnlineController * Z, total_decisions s.1 - no_compression_count s.1 - explore_count s.1 - exploit_count s.1 - s.2 in t (foldl decision_step s ds) = t s).
  { induction ds as [|d ds IH]; intros s; [done|]. simpl in *. rewrite IH. apply counters_step. }
  specialize (H (new_controller lib eps al, 0)). simpl in H. lia.
Qed.

(** ** The file of the learned state *)

Lemma split_once_app a s : all_digits a = true ∨ (∃ b, a = String "-"%char b ∧ all_digits b = true) → split_once (a +:+ String "_"%char s) = Some (a, s).
Proof.
  assert (Hd : ∀ b, all_digits b = true → split_once (b +:+ String "_"%char s) = Some (b, s)).
  { induction b as [|c b IH]; [done|]. simpl. intros [Hc Hb]%andb_true_iff. rewrite (IH Hb).
    destruct (Ascii.eqb_spec c "_"%char) as [->|]; [discriminate Hc|done]. }
  intros [Ha|(b & -> & Hb)]; [by apply Hd|]. simpl. by rewrite (Hd b Hb).
Qed.

Lemma str_of_Z_digits z : all_digits (str_of_Z z) = true ∨ (∃ b, str_of_Z z = String "-"%char b ∧ all_digits b = true).
Proof.
  unfold str_of_Z. destruct (Z.to_int z) as [u|u]; simpl; [left|right; eexists; split; [done|]]; apply nilzero_digits.
Qed.

Lemma split_arm_key i j p : split_key (arm_key (i, j, p)) = Some (str_of_Z i, str_of_Z j, p).
Proof.
  unfold split_key, arm_key. change ("_" +:+ ?x) with (String "_"%char x).
  rewrite split_once_app by apply str_of_Z_digits. simpl. change ("_" +:+ p) with (String "_"%char p).
  by rewrite split_once_app by apply str_of_Z_digits.
Qed.

#[export] Instance arm_key_inj : Inj (=) (=) arm_key.
Proof.
  intros [[i j] p] [[i' j'] p'] E. apply (f_equal split_key) in E. rewrite !split_arm_key in E. injection E as Ei Ej ->.
  by apply str_of_Z_inj in Ei as ->; apply str_of_Z_inj in Ej as ->.
Qed.

Lemma saved_entries (d : list (arm * (Z * float))) : dict_ok d → foldl (λ d e, dset d (arm_key e.1) e.2) [] d = (λ e, (arm_key e.1, e.2)) <$> d.
Proof.
  induction d as [|e d IH] using rev_ind; intros Hd; [done|]. rewrite foldl_app, fmap_app. unfold dict_ok, dkeys in Hd. rewrite fmap_app in Hd.
  apply NoDup_app in Hd as (Hd & Hne & _). simpl. rewrite IH by done. apply dset_absent, dget_None. unfold dkeys. rewrite <- list_fmap_compose.
  intros (e' & Ee & He')%list_elem_of_fmap. simpl in Ee. apply (inj arm_key) in Ee. apply (Hne e.1); [|by left].
  rewrite Ee. by apply list_elem_of_fmap_2.
Qed.

Lemma load_saved (d acc : list (arm * (Z * float))) :
  dict_ok (acc ++ d) → load_entries ((λ e, (arm_key e.1, e.2)) <$> d) acc = (acc ++ d, Ok ()).
Proof.
  revert acc. induction d as [|[[[i j] p] v] d IH]; intros acc Hd; [by rewrite app_nil_r|]. rewrite fmap_cons. cbn [load_entries].
  unfold load_entry. cbn [fst snd]. rewrite split_arm_key, !int_of_str_of_Z. cbn [of_option rbind].
  rewrite dset_absent.
  - rewrite IH; rewrite <- app_assoc; done.
  - apply dget_None. unfold dict_ok, dkeys in *. rewrite fmap_app in Hd. apply NoDup_app in Hd as (_ & Hne & _). intros Hin. apply (Hne _ Hin). by left.
Qed.

(** C32 What the bandit has learned survives a restart: loading a saved state
    gives the state, whatever the ids of buckets and intervals and whatever
    characters the profile ids have. *)
Theorem learned_state_round_trip b : dict_ok (state b) → load (save b) = (b, Ok ()).
Proof.
  intros Hd. unfold load, save. cbn [f_state f_alpha]. rewrite saved_entries, load_saved by done. by destruct b.
Qed.

Lemma learned_state_round_trip_witness :
  let b := mkBandit (F.make 1 (-2)) [((0, 12, "llama_T0_Q2_C1"%string), (3, F.make 5 (-1))); ((-1, 2, "_"%string), (1, F.zero))] in
  (f_state (save b)).*1 = ["0_12_llama_T0_Q2_C1"%string; "-1_2__"%string] ∧ load (save b) = (b, Ok ()).
Proof.
  split; [vm_compute; reflexivity|]. apply learned_state_round_trip. refine (bool_decide_unpack _ _). vm_compute. exact I.
Defined.

Lemma learned_ok b a d : dict_ok (state b) → dict_ok (state (bandit_update a d b)).
Proof. intros Hb. unfold bandit_update. destruct (get_stats b a). by apply dict_ok_dset. Qed.

(** An update is seen by its arm only: one use more, and the moving average. *)
Lemma updated_stats b a d a' :
  get_stats (bandit_update a d b) a' =
  if decide (a' = a) then ((get_stats b a).1 + 1, F.add (F.mul (F.sub F.one (alpha b)) (get_stats b a).2) (F.mul (alpha b) d)) else get_stats b a'.
Proof.
  unfold bandit_update. destruct (get_stats b a) as [N o] eqn:E. unfold get_stats at 1. cbn [state]. destruct (decide (a' = a)) as [->|Hne].
  - by rewrite dget_dset_eq.
  - rewrite dget_dset_ne; [done|congruence].
Qed.

(** ** An example *)

Definition ex_fast : Profile := mkProfile "cr4" ONone (F.of_Z 4) (F.of_Z 1000) None (F.make 3 (-2)).
Definition ex_slow : Profile := mkProfile "cr2" ONone (F.of_Z 2) (F.of_Z 500) None (F.make 3 (-2)).

Definition ex_buckets : list Bucket :=
  [mkBucket 7 (F.make 1 (-1), F.one) [mkInterval 3 (F.zero, F.one) ["cr4"; "gone"; "cr2"]%string None] [ex_fast; ex_slow]].

Definition ex_library : ProfileLibrary := match new_library ex_buckets with Ok l => l | Err _ => mkLibrary [] [] end.

Definition ex_controller : OnlineController := new_controller ex_library (F.div F.one (F.of_Z 10)) (F.make 1 (-2)).

(** 100 MiB over 100 MB/s; [random()] gives one half, [choice] is not used. *)
Definition ex_select := select_profile (F.of_Z (100 * 1024 * 1024)) (F.of_Z 100) F.zero (F.of_Z 1000000) (F.make 3 (-2)) (F.make 1 (-1)) 0.

Lemma decision_sound_witness :
  library_ok ex_library ∧
  ∃ c' p ctx, ex_select ex_controller = (c', Ok (Some p, ctx)) ∧ profile_id p = "cr2"%string ∧ exploit_count c' = 1 ∧
  ∃ bk iv pr n base, bucket_for (library ex_controller) (F.make 3 (-2)) bk ∧ interval_for bk (F.of_Z 100) iv ∧
      ctx = Selected (bucket_id bk, interval_id iv, profile_id p) pr (F.ltb (F.make 1 (-1)) (epsilon ex_controller)) n base ∧
      eligible (F.of_Z (100 * 1024 * 1024)) (F.of_Z 100) F.zero (F.of_Z 1000000) ex_controller bk iv p (T_hat pr) (T_eff pr) ∧
      (F.ltb (F.make 1 (-1)) (epsilon ex_controller) = false → ∀ q t e,
        eligible (F.of_Z (100 * 1024 * 1024)) (F.of_Z 100) F.zero (F.of_Z 1000000) ex_controller bk iv q t e → F.ltb e (T_eff pr) = false).
Proof.
  assert (Hlib : library_ok ex_library) by (exists ex_buckets; vm_compute; reflexivity). split; [exact Hlib|].
  eexists _, _, _. split; [vm_compute; reflexivity|]. split; [reflexivity|]. split; [reflexivity|].
  refine (decision_sound (F.of_Z (100 * 1024 * 1024)) (F.of_Z 100) F.zero (F.of_Z 1000000) ex_controller (F.make 3 (-2)) (F.make 1 (-1)) 0 _ (Some _) _ Hlib _).
  vm_compute. reflexivity.
Defined.

(** The formula of the module's documentation, [T_model + V/S + V/(B*cr)]. *)
Definition documented_latency (p : Profile) (V_bytes B_mbps T_model_ms : float) : result float :=
  let? V_mb := fdiv V_bytes MIB in
  let? a := fdiv V_mb (harmonic_speed p) in
  let? b := fdiv V_mb (F.mul B_mbps (compression_ratio p)) in
  Ok (F.add (F.add T_model_ms (F.mul a THOUSAND)) (F.mul b THOUSAND)).

(** The latency model contradicts the benefit condition: it multiplies the
    volume by the ratio the condition divides by. Of two profiles with
    benefit, compressing four and two times, the controller predicts for both
    more than the latency without compression, and exploits the one that the
    documented formula puts last. *)
Theorem worse_profile_exploited :
  let V := F.of_Z (100 * 1024 * 1024) in let B := F.of_Z 100 in
  check_benefit ex_fast B = Ok true ∧ check_benefit ex_slow B = Ok true ∧
  predict_baseline_latency V B F.zero = Ok (F.of_Z 1000) ∧
  predict_latency ex_fast V B F.zero = Ok (F.of_Z 4100) ∧ predict_latency ex_slow V B F.zero = Ok (F.of_Z 2200) ∧
  documented_latency ex_fast V B F.zero = Ok (F.of_Z 350) ∧ documented_latency ex_slow V B F.zero = Ok (F.of_Z 700) ∧
  ∃ ctx, (ex_select ex_controller).2 = Ok (Some ex_slow, ctx).
Proof. split_and!; [vm_compute; reflexivity..|]. eexists. vm_compute. reflexivity. Qed.
