(* ===== verification/V1Adapter.v ===== *)
(** * The compression adapter of the v1 product

    [compression/manager.py]: from a configuration to a manager, the managers
    cached by configuration, and the mode in which the online controller
    chooses a configuration for every request and the consumer finds it in
    the metadata. Configurations have the documented types; a value of another
    type is an error at once. The library file, [json.dumps] and the text of
    floats in strings are arguments. *)

From S2P Require Import Prelude PyData Wire TensorOps V1Manager Controller.

(** ** Configurations *)

Definition is_str (s : string) (o : obj) : bool := match o with OStr t => bool_decide (t = s) | _ => false end.

Definition opt_is (s : string) (o : option obj) : bool := from_option (is_str s) false o.

(** [cfg.get(k) or {}], a dict *)
Definition sub_dict (cfg : meta_dict) (k : string) : result meta_dict :=
  match get cfg k with
  | Some o => if truthy_obj o then of_option AttributeError (match o with ODict d => Some d | _ => None end) else Ok []
  | None => Ok []
  end.

(** [list(cfg.get("pipeline", []))] *)
Definition pipeline_of (cfg : meta_dict) : result (list obj) := as_list (default (OList []) (get cfg "pipeline")).

Definition has_stage (s : string) (l : list obj) : bool := existsb (is_str s) l.

Definition is_tilelang_fused (cfg : meta_dict) : result bool :=
  if opt_is "tilelang_fused" (get cfg "impl") then Ok true
  else if opt_is "tilelang_fused" (get cfg "quantizer_impl") then Ok true
  else let? qc := sub_dict cfg "quantizer_config" in Ok (opt_is "tilelang_fused" (get qc "impl")).

Definition not_none (o : option obj) : option obj := match o with Some ONone | None => None | Some x => Some x end.

Definition is_present (d : meta_dict) (k : string) : bool := bool_decide (is_Some (get d k)).

(** The transformer's seed goes to the fused quantizer. *)
Definition fuse_transformer (cfg qc : meta_dict) : result meta_dict :=
  let? tc := sub_dict cfg "transformer_config" in
  raise_if (negb (is_str "hadamard" (default (OStr "hadamard") (get tc "transform_type"))))
    (ValueError "tilelang_fused only fuses the Hadamard transformer") ;?
  let seed := default (OInt 0x3333) (get tc "seed") in
  let explicit := not_none (match get qc "base_seed" with Some o => Some o | None => get qc "seed" end) in
  let? _ :=
    match explicit with
    | Some e =>
        if is_present tc "seed" then
          let? a := obj_int e in let? b := obj_int seed in
          raise_if (negb (a =? b)) (ValueError "Conflicting transformer seed and fused quantizer seed")
        else Ok ()
    | None => Ok ()
    end in
  Ok (if is_present qc "base_seed" then qc else put "base_seed" (default seed explicit) qc).

Definition normalize_config (cfg : meta_dict) : result meta_dict :=
  let? fused := is_tilelang_fused cfg in
  if negb fused then Ok cfg
  else
    let? qc := sub_dict cfg "quantizer_config" in
    raise_if (opt_is "centered_codebook" (get qc "impl")) (ValueError "centered_codebook cannot use the tilelang_fused implementation") ;?
    let? pipeline := pipeline_of cfg in
    raise_if (negb (has_stage "quantizer" pipeline)) (ValueError "tilelang_fused requires a quantizer pipeline stage") ;?
    let qc := put "impl" (OStr "tilelang_fused") qc in
    let? qc := (if has_stage "transformer" pipeline then fuse_transformer cfg qc else Ok qc) in
    let pipeline := if has_stage "transformer" pipeline then filter (λ o, is_str "transformer" o = false) pipeline else pipeline in
    Ok (put "pipeline" (OList pipeline) (put "quantizer_config" (ODict qc) cfg)).

Definition opt_dict (o : option obj) : result (option meta_dict) :=
  match o with Some (ODict d) => Ok (Some d) | Some ONone | None => Ok None | Some _ => Err TypeError end.

Definition stage_names (o : option obj) : result (option (list string)) :=
  match o with
  | None => Ok (Some [])
  | Some ONone => Ok None
  | Some o => let? l := as_list o in let? l := rmap as_name l in Ok (Some l)
  end.

Section adapter.
Context `{D : !Dtypes, K : !Stages, KC : !Codecs, C : !Casts}.
Context (layout_env : option string) (device : string) (exn_text : exn → string).
Context (num_kv_heads head_size tp_rank tp_size : Z) (model_name : option string).
(** [json.dumps(cfg, sort_keys=True, default=str)], [float(s)] of a string,
    and the library in a file. *)
Context (cfg_key : meta_dict → string) (float_of_str : string → option float) (read_library : obj → result ProfileLibrary).

(** What [_make_config] reads of a normalized configuration *)
Definition config_of (cfg : meta_dict) : result CompressionConfig :=
  let? qc := opt_dict (get cfg "quantizer_config") in
  let qc := (λ d, put "tensor_parallel_size" (OInt tp_size) (put "tp_rank" (OInt tp_rank) d)) <$> qc in
  let? pl := stage_names (get cfg "pipeline") in
  let? tc := opt_dict (get cfg "transformer_config") in
  let? cc := opt_dict (get cfg "codec_config") in
  let? n := int_of (default (OInt 0) (get cfg "min_compress_size")) in
  Ok (mkCompressionConfig (truthy_obj (default (OBool true) (get cfg "enabled"))) tc qc cc pl n).

Definition make_config (cfg : meta_dict) : result CompressionConfig :=
  let? cfg := normalize_config cfg in config_of cfg.

Definition quantizer_of (cfg : meta_dict) : result quantizer_class :=
  let? fused := is_tilelang_fused cfg in
  if fused then Ok TileLangFusedQuantizer
  else let? qc := sub_dict cfg "quantizer_config" in
       Ok (if opt_is "centered_codebook" (get qc "impl") then CenteredCodebookQuantizer else KVServeQuantizer).

Definition build_manager (cfg : meta_dict) : result manager :=
  let? cfg := normalize_config cfg in
  let? pipeline := pipeline_of cfg in
  let? q := (if has_stage "quantizer" pipeline then let? q := quantizer_of cfg in Ok (Some q) else Ok None) in
  let? c := make_config cfg in
  new_manager c (has_stage "transformer" pipeline) q (has_stage "codec" pipeline).

(** ** The adapter *)

Inductive mode := Fixed (m : manager) (cfg : CompressionConfig) | Controlled (c : OnlineController) (service : meta_dict).

Record adapter := mkAdapter {
  a_mode : mode;
  last_contexts : list (string * (float * context));
  manager_cache : list (string * (manager * CompressionConfig))
}.

Definition DEFAULT_COMPRESSION_CONFIG : meta_dict :=
  [(KStr "enabled", OBool true); (KStr "pipeline", OList [OStr "quantizer"; OStr "codec"]);
   (KStr "quantizer_config", ODict
      [(KStr "model_name", OStr "Llama-3.1-8B-Instruct"); (KStr "hybrid_ratio", OFloat (F.div (F.of_Z 8) (F.of_Z 10)));
       (KStr "high_key_max_value", OInt 12); (KStr "high_value_max_value", OInt 8); (KStr "low_key_max_value", OInt 6);
       (KStr "low_value_max_value", OInt 4); (KStr "axis_key", OStr "channel"); (KStr "axis_value", OStr "token"); (KStr "split_type", OStr "head")]);
   (KStr "codec_config", ODict [(KStr "codec_type", OStr "nvcomp"); (KStr "nvcomp_algorithm", OStr "ANS"); (KStr "data_type", OStr "|u1")]);
   (KStr "min_compress_size", OInt 1024)].

Definition patch_model_name (cfg : meta_dict) : meta_dict :=
  match model_name, get cfg "quantizer_config" with
  | Some n, Some (ODict qc) => if bool_decide (n = ""%string) then cfg else put "quantizer_config" (ODict (put "model_name" (OStr n) qc)) cfg
  | _, _ => cfg
  end.

Definition fixed_adapter (cfg : meta_dict) : result adapter :=
  let? m := build_manager cfg in let? c := make_config cfg in Ok (mkAdapter (Fixed m c) [] []).

(** [float(o)] *)
Definition obj_float (o : obj) : result float :=
  match o with
  | OFloat f => Ok f
  | OInt z => Ok (F.of_Z z)
  | OBool b => Ok (F.of_Z (Z.b2z b))
  | OStr s => of_option (ValueError "could not convert string to float") (float_of_str s)
  | _ => Err TypeError
  end.

Definition float_entry (d : meta_dict) (k : string) (f : float) : result float := obj_float (default (OFloat f) (get d k)).

Definition init_controller (d : meta_dict) : result adapter :=
  let? path := of_option KeyError (get d "library_path") in
  let? lib := read_library path in
  let? eps := float_entry d "epsilon" (F.div F.one (F.of_Z 10)) in
  let? al := float_entry d "alpha" (F.div F.one (F.of_Z 5)) in
  let? service := as_dict (default (ODict []) (get d "service_config")) in
  Ok (mkAdapter (Controlled (new_controller lib eps al) service) [] []).

Definition new_adapter (spec : obj) : result adapter :=
  if is_str "default" spec then fixed_adapter (patch_model_name DEFAULT_COMPRESSION_CONFIG)
  else
    let? d := as_dict spec in
    if opt_is "controller" (get d "mode") then init_controller d else fixed_adapter d.

Definition with_mode (m : mode) (a : adapter) : adapter := mkAdapter m (last_contexts a) (manager_cache a).
Definition with_contexts (l : list (string * (float * context))) (a : adapter) : adapter := mkAdapter (a_mode a) l (manager_cache a).
Definition with_cache (l : list (string * (manager * CompressionConfig))) (a : adapter) : adapter := mkAdapter (a_mode a) (last_contexts a) l.

Definition get_cached_manager (cfg : meta_dict) (a : adapter) : result (adapter * (manager * CompressionConfig)) :=
  match dget (manager_cache a) (cfg_key cfg) with
  | Some e => Ok (a, e)
  | None =>
      let? m := build_manager cfg in
      let? c := make_config cfg in
      Ok (with_cache (dset (manager_cache a) (cfg_key cfg) (m, c)) a, (m, c))
  end.

(** The cached manager is an object: what a call changes stays in the cache. *)
Definition put_back (cfg : meta_dict) (m : manager) (c : CompressionConfig) (a : adapter) : adapter :=
  with_cache (dset (manager_cache a) (cfg_key cfg) (m, c)) a.

Definition CONTEXT_TTL_S : float := F.of_Z 300.

Definition evict_stale_contexts (now : float) (a : adapter) : adapter :=
  with_contexts (filter (λ e, F.ltb e.2.1 (F.sub now CONTEXT_TTL_S) = false) (last_contexts a)) a.

(** The draws of the controller, and the times [time.monotonic()] gives. *)
Record draws := mkDraws { d_random : float; d_pick : nat; d_now : float; d_later : float }.

Definition INF : float := SpecFloat.S754_infinity false.

Definition select_for (c : OnlineController) (service : meta_dict) (x : tensor) (d : draws) : OnlineController * result (option Profile * context) :=
  match (let? b := float_entry service "bandwidth_mbps" (F.of_Z 10000) in
         let? t := float_entry service "t_model_ms" F.zero in
         let? slo := float_entry service "slo_ms" INF in
         let? acc := float_entry service "accuracy_requirement" (F.div (F.of_Z 9) (F.of_Z 10)) in
         Ok (b, t, slo, acc)) with
  | Err e => (c, Err e)
  | Ok (b, t, slo, acc) => select_profile (F.of_Z (nbytes x)) b t slo acc (d_random d) (d_pick d) c
  end.

(** With the manager of a configuration. *)
Definition with_manager {A} (cfg : meta_dict) (f : manager → CompressionConfig → manager * result A) (a : adapter) : adapter * result A :=
  match get_cached_manager cfg a with
  | Err e => (a, Err e)
  | Ok (a, (m, c)) => let (m, r) := f m c in (put_back cfg m c a, r)
  end.

Definition ctrl_meta (meta : meta_dict) (p : Profile) : meta_dict := put "ctrl_profile_cfg" (Controller.compression_config p) meta.

Definition compress_controller (c : OnlineController) (service : meta_dict) (x : tensor) (request_id : string) (meta : meta_dict) (d : draws) (a : adapter) :
    adapter * result (option CompressedKVData) :=
  let (c, r) := select_for c service x d in
  let a := with_mode (Controlled c service) a in
  match r with
  | Err e => (a, Err e)
  | Ok (p, ctx) =>
      let a := evict_stale_contexts (d_later d) (with_contexts (dset (last_contexts a) request_id (d_now d, ctx)) a) in
      match p with
      | None => (a, Ok None)
      | Some p =>
          match as_dict (Controller.compression_config p) with
          | Err e => (a, Err e)
          | Ok cfg => with_manager cfg (λ m c, compress_all_layers layout_env device exn_text x request_id c (ctrl_meta meta p) m) a
          end
      end
  end.

Definition compress (x : tensor) (request_id : string) (d : draws) (a : adapter) : adapter * result (option CompressedKVData) :=
  match six_dims num_kv_heads head_size x with
  | Err e => (a, Err e)
  | Ok x6 =>
      match a_mode a with
      | Controlled c service => compress_controller c service x6 request_id (adapter_meta x) d a
      | Fixed m cfg =>
          let (m, r) := compress_all_layers layout_env device exn_text x6 request_id cfg (adapter_meta x) m in (with_mode (Fixed m cfg) a, r)
      end
  end.

Definition decompress (c : CompressedKVData) (a : adapter) : adapter * result (option tensor) :=
  match a_mode a with
  | Fixed m cfg => let (m, r) := adapter_decompress num_kv_heads head_size cfg c m in (with_mode (Fixed m cfg) a, r)
  | Controlled _ _ =>
      match meta_of (metadata c) with
      | Err e => (a, Err e)
      | Ok meta =>
          match not_none (get meta "ctrl_profile_cfg") with
          | None => (a, Ok None)
          | Some o =>
              match as_dict o with
              | Err e => (a, Err e)
              | Ok cfg => with_manager cfg (λ m cc, adapter_decompress num_kv_heads head_size cc c m) a
              end
          end
      end
  end.

Definition update_controller (request_id : string) (observed : float) (a : adapter) : adapter :=
  match a_mode a with
  | Fixed _ _ => a
  | Controlled c service =>
      match dget (last_contexts a) request_id with
      | None => a
      | Some (_, ctx) => with_contexts (ddel (last_contexts a) request_id) (with_mode (Controlled (update ctx observed c) service) a)
      end
  end.

End adapter.
