(* ===== verification/V1AdapterThms.v ===== *)
(** * The compression adapter: properties

    Normalizing a configuration twice changes nothing, so a manager is built
    with the configuration it is used with; in the mode of the controller the
    consumer needs nothing but what is in the metadata; and the contexts kept
    for feedback stay fresh. *)

From S2P Require Import Prelude PyData Wire WireThms TensorOps V1Manager V1ManagerThms Controller ControllerThms V1Adapter.

(** ** Configurations *)

Lemma put_same k v d : get d k = Some v → put k v d = d.
Proof.
  unfold get, put. induction d as [|[k' v'] d IH]; [done|]. cbn [dget dset]. destruct (decide (KStr k = k')) as [<-|]; [intros [= ->]; done|].
  intros H. by rewrite IH.
Qed.

Lemma sub_dict_put k qc cfg : qc ≠ [] → sub_dict (put k (ODict qc) cfg) k = Ok qc.
Proof. intros Hq. unfold sub_dict. rewrite get_put, decide_True by done. by destruct qc. Qed.

Lemma is_str_eq s o : is_str s o = true ↔ o = OStr s.
Proof. destruct o; simpl; try (split; congruence). rewrite bool_decide_eq_true. split; congruence. Qed.

Lemma no_stage_left s l : has_stage s (filter (λ o, is_str s o = false) l) = false.
Proof.
  unfold has_stage. apply not_true_iff_false. intros (o & Ho & Hs)%existsb_exists. apply list_elem_of_In, list_elem_of_filter in Ho as [Hf _]. congruence.
Qed.

Lemma other_stage_left s s' l : s ≠ s' → has_stage s' (filter (λ o, is_str s o = false) l) = has_stage s' l.
Proof.
  intros Hne. unfold has_stage. apply eq_true_iff_eq. rewrite !existsb_exists. split; intros (o & Ho & Hs); exists o; (split; [|done]).
  - apply list_elem_of_In, list_elem_of_filter in Ho as [_ Ho]. by apply list_elem_of_In.
  - apply list_elem_of_In, list_elem_of_filter. split; [|by apply list_elem_of_In]. apply is_str_eq in Hs as ->. simpl. apply bool_decide_eq_false. congruence.
Qed.

(** What normalization of a fused configuration gives. *)
Record fused_normal (cfg : meta_dict) : Prop := {
  fn_quantizer : ∃ qc, get cfg "quantizer_config" = Some (ODict qc) ∧ get qc "impl" = Some (OStr "tilelang_fused");
  fn_pipeline : ∃ l, get cfg "pipeline" = Some (OList l) ∧ has_stage "quantizer" l = true ∧ has_stage "transformer" l = false
}.

Lemma fuse_transformer_impl cfg qc qc' : fuse_transformer cfg qc = Ok qc' → get qc' "impl" = get qc "impl".
Proof. unfold fuse_transformer. intros H. inv_ok. destruct (is_present qc "base_seed"); [done|]. rewrite get_put. done. Qed.

Lemma normalize_fused cfg cfg' : is_tilelang_fused cfg = Ok true → normalize_config cfg = Ok cfg' → fused_normal cfg'.
Proof.
  intros Hf. unfold normalize_config. rewrite Hf. cbn [rbind negb]. intros H.
  apply rbind_Ok in H as (qc & Hqc & H). apply rbind_Ok in H as (u & _ & H). apply rbind_Ok in H as (l & Hl & H). apply rbind_Ok in H as (u' & Hq & H).
  apply rbind_Ok in H as (qc' & Hqc' & H). injection H as <-. apply raise_if_Ok, negb_false_iff in Hq.
  assert (Himpl : get qc' "impl" = Some (OStr "tilelang_fused")).
  { destruct (has_stage "transformer" l); [rewrite (fuse_transformer_impl _ _ _ Hqc')|injection Hqc' as <-]; by rewrite get_put. }
  split.
  - exists qc'. rewrite get_put. simpl. by rewrite get_put.
  - eexists. rewrite get_put. split; [done|]. destruct (has_stage "transformer" l) eqn:Et; [|by rewrite Et].
    rewrite other_stage_left, no_stage_left by done. done.
Qed.

Lemma fused_normal_fixed cfg : fused_normal cfg → normalize_config cfg = Ok cfg.
Proof.
  intros [(qc & Hqc & Himpl) (l & Hl & Hq & Ht)]. unfold normalize_config, is_tilelang_fused.
  assert (Hsub : sub_dict cfg "quantizer_config" = Ok qc) by (unfold sub_dict; rewrite Hqc; by destruct qc).
  rewrite Hsub. cbn [rbind]. rewrite Himpl. assert (E : (if opt_is "tilelang_fused" (get cfg "impl") then Ok true
    else if opt_is "tilelang_fused" (get cfg "quantizer_impl") then Ok true else Ok (opt_is "tilelang_fused" (Some (OStr "tilelang_fused")))) = Ok true)
    by (by repeat case_match).
  rewrite E. cbn [rbind negb]. unfold pipeline_of. rewrite Hl. cbn [default id as_list rbind]. cbn -[put has_stage filter]. rewrite Hq, Ht. cbn [negb raise_if rbind].
  rewrite (put_same "impl"), (put_same "quantizer_config"), (put_same "pipeline") by done. done.
Qed.

Lemma normalize_idempotent cfg cfg' : normalize_config cfg = Ok cfg' → normalize_config cfg' = Ok cfg'.
Proof.
  intros H. destruct (is_tilelang_fused cfg) as [[]|] eqn:E.
  - by apply fused_normal_fixed, (normalize_fused cfg).
  - pose proof H as H'. unfold normalize_config in H'. rewrite E in H'. cbn in H'. injection H' as <-. exact H.
  - unfold normalize_config in H. by rewrite E in H.
Qed.

Lemma stage_names_list o l : as_list o = Ok l → stage_names (Some o) = (let? names := rmap as_name l in Ok (Some names)).
Proof. destruct o; try done; simpl; by intros [= ->]. Qed.

Lemma names_stage l names s : rmap as_name l = Ok names → bool_decide (s ∈ names) = has_stage s l.
Proof.
  intros Hn%rmap_Ok. unfold has_stage. induction Hn as [|o n l names Ho _ IH]; [done|]. cbn [existsb]. rewrite <- IH.
  destruct o; try done. injection Ho as ->. cbn [is_str]. apply eq_true_iff_eq. rewrite orb_true_iff, !bool_decide_eq_true, elem_of_cons. naive_solver.
Qed.

(** Noting one thing more about a tensor. *)
Lemma caller_meta_note x md k v :
  caller_meta x md → k ∉ reserved → k ∉ [QPARAMS; "original_shape"%string; "original_dtype"%string] → has_tensor v = false → get md k = None →
  caller_meta x (put k v md).
Proof.
  intros [Hh Ht Hp Hs] Hk Hne Hv Hfresh.
  assert (Hm : ∀ a, merge a (put k v md) = put k v (merge a md)) by (intros a; unfold put, merge; by rewrite dset_absent, foldl_app by done).
  split.
  - unfold harmless, put. rewrite dset_absent by done. apply Forall_app_2; [done|]. constructor; [|done]. simpl. split; [by intros k' Hk' [= ->]|]. intros [= ->]. set_solver.
  - intros a Ha. rewrite Hm. apply tidy_put; auto.
  - intros a. rewrite Hm, get_put, decide_False by (intros ->; set_solver). apply Hp.
  - intros a. rewrite Hm, get_put, decide_False by (intros ->; set_solver). apply Hs.
Qed.

Lemma ctrl_meta_ok x p : has_tensor (Controller.compression_config p) = false → caller_meta x (ctrl_meta (adapter_meta x) p).
Proof.
  intros Hp. apply caller_meta_note; [apply adapter_meta_ok|unfold reserved; set_solver|unfold QPARAMS; set_solver|done|reflexivity].
Qed.

Lemma profile_cfg_free : "ctrl_profile_cfg"%string ∉ noted_keys.
Proof. unfold noted_keys, QPARAMS. set_solver. Qed.

Section adapter.
Context `{D : !Dtypes, K : !Stages, KC : !Codecs, C : !Casts}.
Context (layout_env : option string) (device : string) (exn_text : exn → string).
Context (num_kv_heads head_size tp_rank tp_size : Z) (model_name : option string).
Context (cfg_key : meta_dict → string) (float_of_str : string → option float) (read_library : obj → result ProfileLibrary).

Lemma new_manager_spec c t q k m :
  new_manager c t q k = Ok m →
  config m = c ∧ (t = true → is_Some (transformer m)) ∧ (is_Some q → is_Some (quantizer m)) ∧ (k = true → is_Some (codec m)).
Proof.
  unfold new_manager, make. intros H. apply rbind_Ok in H as (tr & Ht & H). apply rbind_Ok in H as (qu & Hq & H). apply rbind_Ok in H as (co & Hc & H). inv_ok.
  simpl. split_and!; [done|..].
  - intros ->. inv_ok. by eexists.
  - intros [y ->]. simpl in Hq. inv_ok. by eexists.
  - intros ->. inv_ok. by eexists.
Qed.

Lemma stage_in_pipeline cfg c l s :
  config_of tp_rank tp_size cfg = Ok c → pipeline_of cfg = Ok l → in_pipeline c s = has_stage s l.
Proof.
  unfold config_of, pipeline_of. intros Hc Hl. apply rbind_Ok in Hc as (? & _ & Hc). apply rbind_Ok in Hc as (pl & Hpl & Hc). inv_ok.
  unfold in_pipeline. cbn [pipeline]. destruct (get cfg "pipeline") as [o|].
  - cbn [default id from_option] in Hl. rewrite (stage_names_list _ _ Hl) in Hpl. apply rbind_Ok in Hpl as (names & Hn & Hpl). injection Hpl as <-. by apply names_stage.
  - injection Hpl as <-. injection Hl as <-. done.
Qed.

(** A manager is built with the configuration it is used with: whatever
    the configuration, normalizing it at construction and again per request
    gives one result, also where the transformer is fused into the quantizer;
    and every stage of the resulting pipeline has its component. *)
Theorem built_as_used cfg m :
  build_manager tp_rank tp_size cfg = Ok m →
  make_config tp_rank tp_size cfg = Ok (config m) ∧
  (in_pipeline (config m) "transformer" = true → is_Some (transformer m)) ∧
  (in_pipeline (config m) "quantizer" = true → is_Some (quantizer m)) ∧
  (in_pipeline (config m) "codec" = true → is_Some (codec m)).
Proof.
  unfold build_manager, make_config. intros H. apply rbind_Ok in H as (cfg' & Hn & H). apply rbind_Ok in H as (l & Hl & H).
  apply rbind_Ok in H as (q & Hq & H). apply rbind_Ok in H as (c & Hc & H). rewrite (normalize_idempotent _ _ Hn) in Hc. cbn [rbind] in Hc.
  apply new_manager_spec in H as (-> & Ht & Hqu & Hco). rewrite Hn. cbn [rbind]. split; [done|].
  rewrite !(stage_in_pipeline cfg' c l) by done. split_and!; [done| |done].
  intros E. apply Hqu. rewrite E in Hq. apply rbind_Ok in Hq as (qc & _ & Hq). injection Hq as <-. by eexists.
Qed.

(** ** The mode of the controller *)

Notation get_manager := (get_cached_manager tp_rank tp_size cfg_key).
Notation a_compress := (compress layout_env device exn_text num_kv_heads head_size tp_rank tp_size cfg_key float_of_str).
Notation a_decompress := (decompress num_kv_heads head_size tp_rank tp_size cfg_key).

(** The cache does not see modes and contexts. *)
Lemma get_manager_same cfg a a' e b :
  manager_cache a = manager_cache b → get_manager cfg a = Ok (a', e) →
  a_mode a' = a_mode a ∧ ∃ b', get_manager cfg b = Ok (b', e).
Proof.
  unfold get_cached_manager. intros <- H. destruct (dget (manager_cache a) (cfg_key cfg)) as [e'|] eqn:E; [injection H as <- ->; eauto|].
  apply rbind_Ok in H as (m & -> & H). apply rbind_Ok in H as (c & -> & H). injection H as <- <-. cbn [rbind]. eauto.
Qed.

(** What [compress] does once a profile is selected *)
Lemma compress_controlled a x x6 request_id d c c1 service p ctx cfg a1 m0 conf m1 r :
  a_mode a = Controlled c service → six_dims num_kv_heads head_size x = Ok x6 → select_for float_of_str c service x6 d = (c1, Ok (Some p, ctx)) →
  Controller.compression_config p = ODict cfg → get_manager cfg a = Ok (a1, (m0, conf)) →
  compress_all_layers layout_env device exn_text x6 request_id conf (ctrl_meta (adapter_meta x) p) m0 = (m1, Ok r) →
  ∃ a', a_compress x request_id d a = (a', Ok r).
Proof.
  intros Ha H6 Hsel Hcfg Hm Hc. unfold compress. rewrite H6, Ha. unfold compress_controller. rewrite Hsel, Hcfg. cbn [as_dict]. unfold with_manager.
  edestruct get_manager_same as [_ [b' Hb]]; [|exact Hm|rewrite Hb]; [done|]. rewrite Hc. by eexists.
Qed.

Lemma ctrl_meta_noted x p a : get (merge a (ctrl_meta (adapter_meta x) p)) "ctrl_profile_cfg" = Some (Controller.compression_config p).
Proof. unfold merge, ctrl_meta, adapter_meta. cbn [foldl fst snd put dset decide]. unfold get. apply dget_dset_eq. Qed.

(** C33 In the mode of the controller the consumer needs nothing of the
    producer but the wire: whatever profile the producer's controller selects,
    a consumer with a library, bandit state and cache of its own finds the
    profile's configuration in the metadata it received, builds (or takes from
    its cache) the manager for it, and restores the tensor in its shape and
    dtype, layer by layer what quantizer and transformer give. *)
Theorem controlled_transfer_transparent `{L : !LosslessCodec, !OutBuffers} (repr : obj → string) max ap ac ac1 ap1 c0 c1 service cc sc x x6 request_id d p ctx cfg conf m0 m m0' m' qd zs :
  a_mode ap = Controlled c0 service → a_mode ac = Controlled cc sc →
  tensor_ok x → six_dims num_kv_heads head_size x = Ok x6 →
  select_for float_of_str c0 service x6 d = (c1, Ok (Some p, ctx)) →
  Controller.compression_config p = ODict cfg → has_tensor (ODict cfg) = false →
  get_manager cfg ap = Ok (ap1, (m0, conf)) → get_manager cfg ac = Ok (ac1, (m0', conf)) →
  update_config conf m0 = (m, Ok ()) → update_config conf m0' = (m', Ok ()) → disabled conf = false → min_compress_size conf ≤ nbytes x6 →
  compressible layout_env device m m' x6 (tail (shape x6)) qd → wireable_params m x6 0 → restored normal m m' x6 0 = Ok zs → 0 < max →
  ∃ ap' c w c' ac',
    a_compress x request_id d ap = (ap', Ok (Some c)) ∧ build_wire c max = Ok w ∧ restore_from_wire repr w = Ok c' ∧
    a_decompress c' ac = (ac', Ok (Some (mkTensor (shape x) (dtype x) (concat (data <$> zs))))) ∧ a_mode ac' = Controlled cc sc.
Proof.
  intros Hap Hac Hx H6 Hsel Hcfg Hht Hmp Hmc Hup Hup' Hen Hmin Hcomp Hw Hzs Hmax. destruct (six_dims_same num_kv_heads head_size x x6 H6) as (Hd & _ & Hprod).
  assert (Hmd : caller_meta x (ctrl_meta (adapter_meta x) p)) by (apply ctrl_meta_ok; by rewrite Hcfg).
  destruct (transfer_back layout_env device exn_text num_kv_heads head_size repr m m' x x6 _ qd zs request_id _ Hcomp Hw Hd Hmd conf max m0 m0')
    as (m1 & c & w & c' & Hc & Hb & Hr & (meta & Hmeta & Hget) & Hdec); [done..|].
  assert (Hfind : get meta "ctrl_profile_cfg" = Some (ODict cfg)).
  { apply Hget; [apply profile_cfg_free|]. intros a. rewrite <- Hcfg. apply ctrl_meta_noted. }
  destruct (compress_controlled ap x x6 request_id d c0 c1 service p ctx cfg ap1 m0 conf m1 (Some c)) as [ap' Hap']; [done..|].
  exists ap', c, w, c', (put_back cfg_key cfg m' conf ac1). do 3 (split; [done|]).
  destruct (get_manager_same cfg ac ac1 _ ac eq_refl Hmc) as [Hmode _]. split; [|by rewrite <- Hac].
  unfold decompress. rewrite Hac, Hmeta. cbn [meta_of]. rewrite Hfind. cbn [not_none as_dict]. unfold with_manager. by rewrite Hmc, Hdec.
Qed.

End adapter.
