(* ===== verification/V1AdapterProps.v ===== *)
(** * The compression adapter: an example

    The properties of [V1AdapterThms] at work, with the quantizer and the codec
    of [V1ManagerProps]: a configuration with a fused transformer, and a
    controller that selects a profile for which the consumer builds a manager. *)

From S2P Require Import Prelude PyData Wire WireThms BitPack TensorOps V1Manager V1ManagerThms V1Codec V1CodecThms V1ManagerProps Controller ControllerThms V1Adapter V1AdapterThms.

#[local] Existing Instance ex_dtypes.
#[local] Existing Instance ex_backends.
#[local] Existing Instance ex_lossless.
#[local] Existing Instance ex_codecs.
#[local] Existing Instance ex_stages.
#[local] Existing Instance ex_casts.
#[local] Existing Instance ex_out.
#[local] Existing Instance tensor_ok_dec.

(** A pipeline whose transformer goes into the quantizer *)
Definition ex_cfg : meta_dict :=
  [(KStr "pipeline", OList [OStr "transformer"; OStr "quantizer"; OStr "codec"]);
   (KStr "transformer_config", ODict [(KStr "seed", OInt 5)]);
   (KStr "quantizer_config", ODict [(KStr "impl", OStr "tilelang_fused")]);
   (KStr "codec_config", ODict [(KStr "codec_type", OStr "bitpack"); (KStr "bitpack_bits", OInt 3)])].

Definition ex_built : manager := match build_manager 0 1 ex_cfg with Ok m => m | Err _ => ex_new end.

Lemma built_as_used_witness :
  quantizer_config (config ex_built) =
    Some [(KStr "impl", OStr "tilelang_fused"); (KStr "base_seed", OInt 5); (KStr "tp_rank", OInt 0); (KStr "tensor_parallel_size", OInt 1)] ∧
  make_config 0 1 ex_cfg = Ok (config ex_built) ∧
  (in_pipeline (config ex_built) "transformer" = true → is_Some (transformer ex_built)) ∧
  (in_pipeline (config ex_built) "quantizer" = true → is_Some (quantizer ex_built)) ∧
  (in_pipeline (config ex_built) "codec" = true → is_Some (codec ex_built)).
Proof. split; [reflexivity|]. apply (built_as_used 0 1 ex_cfg ex_built). reflexivity. Defined.

(** A profile of the library, and two adapters that know nothing of each
    other. *)
Definition ex_profile_cfg : meta_dict :=
  [(KStr "pipeline", OList [OStr "quantizer"; OStr "codec"]);
   (KStr "quantizer_config", ODict [(KStr "impl", OStr "tilelang_fused")]);
   (KStr "codec_config", ODict [(KStr "codec_type", OStr "bitpack"); (KStr "bitpack_bits", OInt 3)])].

Definition ex_profile : Profile := mkProfile "bp3" (ODict ex_profile_cfg) (F.of_Z 4) (F.of_Z 1000) None (F.make 3 (-2)).

Definition ex_profiles : ProfileLibrary :=
  match new_library [mkBucket 7 (F.make 1 (-1), F.one) [mkInterval 3 (F.zero, F.one) ["bp3"%string] None] [ex_profile]] with
  | Ok l => l | Err _ => mkLibrary [] [] end.

Definition ex_service : meta_dict := [(KStr "bandwidth_mbps", OInt 100); (KStr "accuracy_requirement", OFloat (F.make 3 (-2)))].

Definition ex_producer : adapter := mkAdapter (Controlled (new_controller ex_profiles F.zero (F.make 1 (-2))) ex_service) [] [].
Definition ex_consumer : adapter := mkAdapter (Controlled (new_controller (mkLibrary [] []) F.zero F.zero) []) [] [].

Definition ex_draws : draws := mkDraws (F.make 1 (-1)) 0 (F.of_Z 10) (F.of_Z 11).

Definition ex_selection := select_for (λ _, None) (new_controller ex_profiles F.zero (F.make 1 (-2))) ex_service ex_x6 ex_draws.

Lemma ex_manager a : manager_cache a = [] → get_cached_manager 0 1 (λ _, ""%string) ex_profile_cfg a = Ok (put_back (λ _, ""%string) ex_profile_cfg ex_new ex_config a, (ex_new, ex_config)).
Proof. destruct a as [? ? c]. simpl. intros ->. reflexivity. Qed.

Lemma ex_x_ok : tensor_ok ex_x.
Proof. refine (bool_decide_unpack _ _). vm_compute. exact I. Qed.

Lemma controlled_transfer_transparent_witness :
  ∃ ap' c w c' ac',
    compress None "cuda:0" ex_error 3 1 0 1 (λ _, ""%string) (λ _, None) ex_x "r1" ex_draws ex_producer = (ap', Ok (Some c)) ∧
    build_wire c 8 = Ok w ∧ restore_from_wire (λ _, ""%string) w = Ok c' ∧
    decompress 3 1 0 1 (λ _, ""%string) c' ex_consumer =
      (ac', Ok (Some (mkTensor (shape ex_x) (dtype ex_x) (concat (data <$> ex_restored))))) ∧
    a_mode ac' = a_mode ex_consumer.
Proof.
  eapply (controlled_transfer_transparent None "cuda:0" ex_error 3 1 0 1 (λ _, ""%string) (λ _, None) (λ _, ""%string) 8 ex_producer ex_consumer
    _ _ _ _ ex_service (new_controller (mkLibrary [] []) F.zero F.zero) [] ex_x ex_x6 "r1" ex_draws ex_profile _ ex_profile_cfg ex_config ex_new ex_new ex_new ex_new "uint8" ex_restored).
  - reflexivity.
  - reflexivity.
  - exact ex_x_ok.
  - reflexivity.
  - vm_compute. reflexivity.
  - reflexivity.
  - reflexivity.
  - by apply ex_manager.
  - by apply ex_manager.
  - exact ex_updated.
  - exact ex_updated.
  - reflexivity.
  - vm_compute. discriminate.
  - exact ex_compressible.
  - intros i t y p _. apply ex_params.
  - vm_compute. reflexivity.
  - lia.
Defined.
