(* ===== verification/Buffers.v ===== *)
(** * Byte buffers and views

    The preallocated arenas of the fixed-profile runtime: byte ranges that are
    read and written, the 16-bit numbers stored in them, and the row-major
    views of [torch.Tensor.view]. What a write leaves alone is [changes];
    [holds] says what is stored where. *)

From S2P Require Import Prelude.

(** ** Reading and writing *)

Definition in_buffer (b : list Z) (o n : Z) : bool := (0 <=? o) && (0 <=? n) && ((n =? 0) || (o + n <=? zlen b)).

(** [b[o:o+n].view(...)]: a slice that is cut off does not have the size. *)
Definition read (b : list Z) (o n : Z) : result (list Z) :=
  raise_if (negb (in_buffer b o n)) (RuntimeError "shape is invalid for input") ;?
  Ok (take (Z.to_nat n) (drop (Z.to_nat o) b)).

Definition overwrite (b : list Z) (o : nat) (l : list Z) : list Z := take o b ++ l ++ drop (o + length l) b.

(** [b[o:o+len(l)].copy_(l)] *)
Definition write (b : list Z) (o : Z) (l : list Z) : result (list Z) :=
  raise_if (negb (in_buffer b o (zlen l))) (RuntimeError "size of tensor must match") ;?
  Ok (if bool_decide (l = []) then b else overwrite b (Z.to_nat o) l).

(** [b[o:o+n].zero_()] *)
Definition clear (b : list Z) (o n : Z) : list Z :=
  overwrite b (Z.to_nat o) (replicate (length (take (Z.to_nat n) (drop (Z.to_nat o) b))) 0).

(** A 16-bit number, by its two bytes. *)
Notation elem := (Z * Z)%type.

Definition bytes_of (l : list elem) : list Z := l ≫= λ e, [e.1; e.2].

Fixpoint elems_of (l : list Z) : list elem := match l with a :: b :: l => (a, b) :: elems_of l | _ => [] end.

Definition read16 (b : list Z) (o n : Z) : result (list elem) := let? l := read b o (2 * n) in Ok (elems_of l).
Definition write16 (b : list Z) (o : Z) (l : list elem) : result (list Z) := write b o (bytes_of l).

(** ** What is stored, and what is left alone *)

Definition holds (b : list Z) (o : Z) (l : list Z) : Prop := 0 ≤ o ∧ ∀ k x, l !! k = Some x → b !! (Z.to_nat o + k)%nat = Some x.

(** At most the windows [ws] differ. *)
Definition changes (ws : list (Z * Z)) (b b' : list Z) : Prop :=
  length b' = length b ∧ ∀ i : nat, (∀ w, w ∈ ws → ¬ (w.1 ≤ Z.of_nat i < w.1 + w.2)) → b' !! i = b !! i.

Definition apart (o n : Z) (w : Z * Z) : Prop := o + n ≤ w.1 ∨ w.1 + w.2 ≤ o.

Lemma changes_refl ws b : changes ws b b.
Proof. by split. Qed.

Lemma changes_trans ws1 ws2 b1 b2 b3 : changes ws1 b1 b2 → changes ws2 b2 b3 → changes (ws1 ++ ws2) b1 b3.
Proof.
  intros [H1 E1] [H2 E2]. split; [congruence|]. intros i Hi. rewrite E2, E1; [done|..]; intros w Hw; apply Hi, elem_of_app; auto.
Qed.

(** Windows may be enlarged. *)
Lemma changes_within ws ws' b b' :
  (∀ w, w ∈ ws → w.2 ≤ 0 ∨ ∃ w', w' ∈ ws' ∧ w'.1 ≤ w.1 ∧ w.1 + w.2 ≤ w'.1 + w'.2) → changes ws b b' → changes ws' b b'.
Proof.
  intros Hws [Hl E]. split; [done|]. intros i Hi. apply E. intros w Hw Hin. destruct (Hws w Hw) as [?|(w' & Hw' & ?)]; [lia|]. apply (Hi w' Hw'). lia.
Qed.

Lemma changes_join ws b1 b2 b3 : changes ws b1 b2 → changes ws b2 b3 → changes ws b1 b3.
Proof.
  intros H1 H2. eapply changes_within; [|exact (changes_trans _ _ _ _ _ H1 H2)]. intros w Hw. right. exists w. split; [set_solver|lia].
Qed.

Lemma changes_zlen ws b b' : changes ws b b' → zlen b' = zlen b.
Proof. intros [H _]. unfold zlen. lia. Qed.

Lemma holds_changes ws b b' o l : holds b o l → changes ws b b' → (∀ w, w ∈ ws → apart o (zlen l) w) → holds b' o l.
Proof.
  intros [Ho H] [_ E] Hw. split; [done|]. intros k x Hk. rewrite E; [by apply H|]. intros w Hin. apply lookup_lt_Some in Hk. specialize (Hw w Hin).
  unfold apart, zlen in Hw. lia.
Qed.

(** Two buffers agree in a window. *)
Definition same_in (w : Z * Z) (b b' : list Z) : Prop := ∀ i : nat, w.1 ≤ Z.of_nat i < w.1 + w.2 → b' !! i = b !! i.

Lemma holds_same w b b' o l : holds b o l → same_in w b b' → w.1 ≤ o → o + zlen l ≤ w.1 + w.2 → holds b' o l.
Proof.
  intros [Ho H] E H1 H2. split; [done|]. intros k x Hk. rewrite E; [by apply H|]. apply lookup_lt_Some in Hk. unfold zlen in H2. lia.
Qed.

Lemma changes_same ws b b' w : changes ws b b' → (∀ v, v ∈ ws → w.1 + w.2 ≤ v.1) → same_in w b b'.
Proof. intros [_ E] Hw i Hi. apply E. intros v Hv. specialize (Hw v Hv). lia. Qed.

Lemma same_in_sub w w' b b' : same_in w b b' → w.1 ≤ w'.1 → w'.1 + w'.2 ≤ w.1 + w.2 → same_in w' b b'.
Proof. intros E H1 H2 i Hi. apply E. lia. Qed.

Lemma holds_both w b b' l : holds b w.1 l → holds b' w.1 l → w.2 = zlen l → same_in w b b'.
Proof.
  intros [Ho H] [_ H'] Hl i Hi. rewrite Hl in Hi. unfold zlen in Hi. destruct (lookup_lt_is_Some_2 l (i - Z.to_nat w.1)) as [x Hx]; [lia|].
  apply H in Hx as E. apply H' in Hx as E'. replace i with (Z.to_nat w.1 + (i - Z.to_nat w.1))%nat by lia. congruence.
Qed.

Lemma holds_nil b o : 0 ≤ o → holds b o [].
Proof. by split. Qed.

Lemma holds_app b o l1 l2 : holds b o (l1 ++ l2) ↔ holds b o l1 ∧ holds b (o + zlen l1) l2.
Proof.
  unfold holds, zlen. split.
  - intros [Ho H]. split_and!; [done| |lia|].
    + intros k x Hk. apply H. by rewrite lookup_app_l by (by apply lookup_lt_Some in Hk).
    + intros k x Hk. replace (Z.to_nat (o + Z.of_nat (length l1)) + k)%nat with (Z.to_nat o + (length l1 + k))%nat by lia. apply H.
      rewrite lookup_app_r by lia. by replace (length l1 + k - length l1)%nat with k by lia.
  - intros [[Ho H1] [_ H2]]. split; [done|]. intros k x [Hk|[Hl Hk]]%lookup_app_Some; [by apply H1|]. apply H2 in Hk. rewrite <- Hk. f_equal. lia.
Qed.

Lemma holds_bound b o l : holds b o l → l ≠ [] → o + zlen l ≤ zlen b.
Proof.
  intros [Ho H] Hl. destruct (lookup_lt_is_Some_2 l (length l - 1)) as [x Hx]; [destruct l; simpl in *; [done|lia]|].
  apply H, lookup_lt_Some in Hx. unfold zlen. destruct l; simpl in *; [done|lia].
Qed.

Lemma in_buffer_true b o n : in_buffer b o n = true ↔ 0 ≤ o ∧ 0 ≤ n ∧ (n = 0 ∨ o + n ≤ zlen b).
Proof. unfold in_buffer. rewrite !andb_true_iff, orb_true_iff, !Z.leb_le, Z.eqb_eq. naive_solver. Qed.

Lemma zlen_nonneg {A} (l : list A) : 0 ≤ zlen l.
Proof. unfold zlen. lia. Qed.

Lemma read_holds b o n l : holds b o l → n = zlen l → read b o n = Ok l.
Proof.
  intros H ->. unfold read. rewrite (proj2 (in_buffer_true b o (zlen l))).
  - cbn [negb raise_if rbind]. destruct H as [Ho H]. f_equal. apply list_eq. intros k. destruct (l !! k) as [x|] eqn:Hk.
    + rewrite lookup_take_lt by (apply lookup_lt_Some in Hk; unfold zlen; lia). rewrite lookup_drop. by apply H.
    + apply lookup_take_None. right. apply lookup_ge_None in Hk. unfold zlen. lia.
  - split; [apply H|]. split; [apply zlen_nonneg|]. destruct (decide (l = [])) as [->|Hl]; [by left|right]. by apply holds_bound.
Qed.

Lemma read_Ok b o n l : read b o n = Ok l → holds b o l ∧ zlen l = n.
Proof.
  unfold read. intros H. apply rbind_Ok in H as (u & Hc & H). injection H as <-. apply raise_if_Ok, negb_false_iff, in_buffer_true in Hc as (Ho & Hn & Hl). unfold zlen in *. split.
  - split; [lia|]. intros k x Hk. apply lookup_take_Some in Hk as [Hk _]. by rewrite lookup_drop in Hk.
  - rewrite length_take, length_drop. lia.
Qed.

Lemma length_overwrite b o l : (o + length l ≤ length b)%nat → length (overwrite b o l) = length b.
Proof. intros H. unfold overwrite. rewrite !length_app, length_take, length_drop. lia. Qed.

Lemma overwrite_in b o l k x : (o + length l ≤ length b)%nat → l !! k = Some x → overwrite b o l !! (o + k)%nat = Some x.
Proof.
  intros H Hk. pose proof (lookup_lt_Some _ _ _ Hk). unfold overwrite. rewrite lookup_app_r; rewrite length_take; [|lia].
  rewrite lookup_app_l by lia. rewrite <- Hk. f_equal. lia.
Qed.

Lemma overwrite_out b o l (i : nat) : (o + length l ≤ length b)%nat → (i < o ∨ o + length l ≤ i)%nat → overwrite b o l !! i = b !! i.
Proof.
  intros H [Hi|Hi]; unfold overwrite.
  - rewrite lookup_app_l by (rewrite length_take; lia). by rewrite lookup_take_lt.
  - rewrite !lookup_app_r by (rewrite length_take; lia). rewrite lookup_drop, length_take. f_equal. lia.
Qed.

Lemma write_ok b o l : 0 ≤ o → o + zlen l ≤ zlen b → ∃ b', write b o l = Ok b' ∧ holds b' o l ∧ changes [(o, zlen l)] b b'.
Proof.
  intros Ho Hl. unfold write. rewrite (proj2 (in_buffer_true b o (zlen l))) by (pose proof (zlen_nonneg l); lia).
  cbn [negb raise_if rbind]. eexists. split; [done|]. case_bool_decide as E; [subst l|].
  - split; [by apply holds_nil|apply changes_refl].
  - unfold zlen in *. split.
    + split; [done|]. intros k x Hk. apply overwrite_in; [lia|done].
    + split; [apply length_overwrite; lia|]. intros i Hi. apply overwrite_out; [lia|]. specialize (Hi _ ltac:(by apply list_elem_of_singleton)). simpl in Hi. lia.
Qed.

Lemma write_Ok b o l b' : write b o l = Ok b' → holds b' o l ∧ changes [(o, zlen l)] b b'.
Proof.
  intros H. pose proof H as Hw. unfold write in Hw. apply rbind_Ok in Hw as (u & Hc & Hw). apply raise_if_Ok, negb_false_iff, in_buffer_true in Hc as (Ho & _ & Hb).
  destruct (decide (l = [])) as [->|Hne].
  - rewrite bool_decide_true in Hw by done. injection Hw as <-. split; [by apply holds_nil|apply changes_refl].
  - destruct Hb as [Hb|Hb]; [destruct l; done|]. destruct (write_ok b o l) as (b2 & E & ? & ?); [done..|]. rewrite E in H. injection H as <-. done.
Qed.

Lemma clear_spec b o n : 0 ≤ o → 0 ≤ n → o + n ≤ zlen b → holds (clear b o n) o (replicate (Z.to_nat n) 0) ∧ changes [(o, n)] b (clear b o n).
Proof.
  intros Ho Hn Hb. unfold clear, zlen in *. rewrite length_take, length_drop. replace (Z.to_nat n `min` (length b - Z.to_nat o))%nat with (Z.to_nat n) by lia.
  assert (Hle : (Z.to_nat o + length (replicate (Z.to_nat n) 0%Z) ≤ length b)%nat) by (rewrite length_replicate; lia). split.
  - split; [done|]. intros k x Hk. apply overwrite_in; [exact Hle|exact Hk].
  - split; [by apply length_overwrite|]. intros i Hi. apply overwrite_out; [done|]. rewrite length_replicate.
    specialize (Hi _ ltac:(by apply list_elem_of_singleton)). simpl in Hi. lia.
Qed.

(** ** 16-bit numbers *)

Lemma elems_of_bytes l : elems_of (bytes_of l) = l.
Proof. unfold bytes_of. induction l as [|[x y] l IH]; [done|]. csimpl. by rewrite IH. Qed.

Lemma zlen_bytes_of l : zlen (bytes_of l) = 2 * zlen l.
Proof. unfold bytes_of, zlen. induction l as [|e l IH]; [done|]. csimpl. lia. Qed.

Lemma bytes_of_app l k : bytes_of (l ++ k) = bytes_of l ++ bytes_of k.
Proof. unfold bytes_of. apply bind_app. Qed.

Definition holds16 (b : list Z) (o : Z) (l : list elem) : Prop := holds b o (bytes_of l).

Lemma read16_holds b o n l : holds16 b o l → n = zlen l → read16 b o n = Ok l.
Proof. intros H ->. unfold read16. rewrite (read_holds b o _ (bytes_of l)) by (rewrite ?zlen_bytes_of; done). cbn [rbind]. by rewrite elems_of_bytes. Qed.

Lemma write16_ok b o l :
  0 ≤ o → o + 2 * zlen l ≤ zlen b → ∃ b', write16 b o l = Ok b' ∧ holds16 b' o l ∧ changes [(o, 2 * zlen l)] b b'.
Proof. intros. unfold write16, holds16. rewrite <- zlen_bytes_of in *. by apply write_ok. Qed.

Lemma even_split l n : zlen l = 2 * n → ∃ k, l = bytes_of k ∧ zlen k = n.
Proof.
  intros H. exists (elems_of l). assert (Hn : n = Z.of_nat (Z.to_nat n)) by (unfold zlen in H; lia). rewrite Hn in H |- *. clear Hn.
  revert l H. induction (Z.to_nat n) as [|m IH]; intros l H.
  - destruct l; [done|unfold zlen in *; simpl in *; lia].
  - destruct l as [|x [|y l]]; unfold zlen in *; simpl in *; [lia..|]. destruct (IH l) as [E El]; [lia|]. split; [|lia].
    unfold bytes_of in *. csimpl. by rewrite <- E.
Qed.

(** Whatever is in a range of even size can be read as numbers. *)
Lemma read16_any b o n : 0 ≤ o → 0 ≤ n → o + 2 * n ≤ zlen b → ∃ l, read16 b o n = Ok l ∧ zlen l = n ∧ holds16 b o l.
Proof.
  intros Ho Hn Hb. assert (E : ∃ l, read b o (2 * n) = Ok l) by (unfold read; rewrite (proj2 (in_buffer_true b o (2 * n))) by lia; by eexists).
  destruct E as [l E]. apply read_Ok in E as [Hh Hl]. destruct (even_split _ n Hl) as (k & -> & Hk). exists k. split; [by apply read16_holds|done].
Qed.

(** A write inside the windows that may change *)
Lemma write16_in ws b0 b o l :
  changes ws b0 b → (∃ w, w ∈ ws ∧ w.1 ≤ o ∧ o + 2 * zlen l ≤ w.1 + w.2) → 0 ≤ o → o + 2 * zlen l ≤ zlen b →
  ∃ b', write16 b o l = Ok b' ∧ holds16 b' o l ∧ changes [(o, 2 * zlen l)] b b' ∧ changes ws b0 b'.
Proof.
  intros Hc (w & Hw & H1 & H2) Ho Hb. destruct (write16_ok b o l Ho Hb) as (b' & E & Hh & Hch). exists b'. split_and!; try done.
  eapply changes_join; [exact Hc|]. eapply changes_within; [|exact Hch]. intros v ->%list_elem_of_singleton. right. by exists w.
Qed.

Lemma holds16_apart b b' o l o2 n2 : holds16 b o l → changes [(o2, n2)] b b' → apart o (2 * zlen l) (o2, n2) → holds16 b' o l.
Proof.
  intros Hh Hc Ha. eapply holds_changes; [exact Hh|exact Hc|]. intros w ->%list_elem_of_singleton. by rewrite zlen_bytes_of.
Qed.

(** ** Views *)

Fixpoint chunk {A} (n k : nat) (l : list A) : list (list A) :=
  match n with
  | O => []
  | S n => take k l :: chunk n k (drop k l)
  end.

Lemma length_chunk {A} n k (l : list A) : length (chunk n k l) = n.
Proof. revert l. induction n as [|n IH]; intros l; [done|]. simpl. by rewrite IH. Qed.

Definition view3 {A} (a b c : nat) (l : list A) : list (list (list A)) := chunk b c <$> chunk a (b * c) l.
Definition view4 {A} (a b c d : nat) (l : list A) : list (list (list (list A))) := view3 b c d <$> chunk a (b * c * d) l.

Definition flat3 {A} (x : list (list (list A))) : list A := concat (@concat A <$> x).
Definition flat4 {A} (x : list (list (list (list A)))) : list A := concat (flat3 <$> x).

(** [x.transpose] of the first two dimensions; [n] is the second. *)
Definition transpose {A} (n : nat) (x : list (list (list A))) : list (list (list A)) := (λ j, (λ r, nth j r []) <$> x) <$> seq 0 n.

Lemma length_bind_uniform {A C} (f : A → list C) (l : list A) k : (∀ x, length (f x) = k) → length (l ≫= f) = (length l * k)%nat.
Proof. intros Hk. induction l as [|x l IH]; [done|]. csimpl. rewrite length_app, IH, Hk. lia. Qed.

(** ** Shapes *)

Definition dims2 {A} (a b : nat) (x : list (list A)) : Prop := length x = a ∧ Forall (λ r, length r = b) x.
Definition dims3 {A} (a b c : nat) (x : list (list (list A))) : Prop := length x = a ∧ Forall (dims2 b c) x.
Definition dims4 {A} (a b c d : nat) (x : list (list (list (list A)))) : Prop := length x = a ∧ Forall (dims3 b c d) x.

Lemma length_concat_uniform {A} k (x : list (list A)) : Forall (λ r, length r = k) x → length (concat x) = (length x * k)%nat.
Proof. induction 1 as [|r x Hr _ IH]; [done|]. simpl. rewrite length_app. lia. Qed.

Lemma chunk_concat {A} k (x : list (list A)) : Forall (λ r, length r = k) x → chunk (length x) k (concat x) = x.
Proof.
  induction 1 as [|r x Hr _ IH]; [done|]. simpl. rewrite take_app_length', drop_app_length' by done. by rewrite IH.
Qed.

Lemma concat_chunk {A} n k (l : list A) : length l = (n * k)%nat → concat (chunk n k l) = l ∧ dims2 n k (chunk n k l).
Proof.
  revert l. induction n as [|n IH]; intros l Hl; simpl.
  - destruct l; [done|simpl in *; lia].
  - destruct (IH (drop k l)) as [E [El Ef]]; [rewrite length_drop; lia|]. rewrite E. split; [apply take_drop|]. split; [simpl; lia|].
    constructor; [rewrite length_take; lia|done].
Qed.

Lemma length_flat3 {A} a b c (x : list (list (list A))) : dims3 a b c x → length (flat3 x) = (a * (b * c))%nat.
Proof.
  intros [<- Hx]. unfold flat3. rewrite (length_concat_uniform (b * c)); [by rewrite length_fmap|]. apply Forall_fmap. eapply Forall_impl; [exact Hx|].
  intros y [<- Hy]. simpl. by apply length_concat_uniform.
Qed.

Lemma view3_flat3 {A} a b c (x : list (list (list A))) : dims3 a b c x → view3 a b c (flat3 x) = x.
Proof.
  intros [<- Hx]. unfold view3, flat3. rewrite <- (length_fmap (@concat A) x), chunk_concat.
  - rewrite <- list_fmap_compose. induction Hx as [|y x [<- Hy] _ IH]; [done|]. csimpl. rewrite IH. by rewrite chunk_concat.
  - apply Forall_fmap. eapply Forall_impl; [exact Hx|]. intros y [<- Hy]. simpl. by apply length_concat_uniform.
Qed.

Lemma flat3_view3 {A} a b c (l : list A) : length l = (a * (b * c))%nat → flat3 (view3 a b c l) = l ∧ dims3 a b c (view3 a b c l).
Proof.
  intros Hl. destruct (concat_chunk a (b * c) l Hl) as [E [El Ef]]. unfold view3, flat3. rewrite <- list_fmap_compose.
  assert (H : Forall (λ r : list A, concat (chunk b c r) = r ∧ dims2 b c (chunk b c r)) (chunk a (b * c) l)).
  { eapply Forall_impl; [exact Ef|]. intros r Hr. by apply concat_chunk. }
  split; [|split; [by rewrite length_fmap|apply Forall_fmap; eapply Forall_impl; [exact H|by intros r []]]].
  rewrite <- E at 2. f_equal. rewrite <- (list_fmap_id (chunk a (b * c) l)) at 2. apply list_fmap_ext. intros i r Hi. simpl.
  by apply (Forall_lookup_1 _ _ _ _ H Hi).
Qed.

Lemma length_flat4 {A} a b c d (x : list (list (list (list A)))) : dims4 a b c d x → length (flat4 x) = (a * (b * c * d))%nat.
Proof.
  intros [<- Hx]. unfold flat4. rewrite (length_concat_uniform (b * c * d)); [by rewrite length_fmap|]. apply Forall_fmap. eapply Forall_impl; [exact Hx|].
  intros y Hy. simpl. rewrite (length_flat3 b c d) by done. lia.
Qed.

Lemma view4_flat4 {A} a b c d (x : list (list (list (list A)))) : dims4 a b c d x → view4 a b c d (flat4 x) = x.
Proof.
  intros [<- Hx]. unfold view4, flat4. rewrite <- (length_fmap flat3 x), chunk_concat.
  - rewrite <- list_fmap_compose. induction Hx as [|y x Hy _ IH]; [done|]. csimpl. rewrite IH. by rewrite view3_flat3.
  - apply Forall_fmap. eapply Forall_impl; [exact Hx|]. intros y Hy. simpl. rewrite (length_flat3 b c d) by done. lia.
Qed.

Lemma flat4_view4 {A} a b c d (l : list A) : length l = (a * (b * c * d))%nat → flat4 (view4 a b c d l) = l ∧ dims4 a b c d (view4 a b c d l).
Proof.
  intros Hl. destruct (concat_chunk a (b * c * d) l Hl) as [E [El Ef]]. unfold view4, flat4. rewrite <- list_fmap_compose.
  assert (H : Forall (λ r : list A, flat3 (view3 b c d r) = r ∧ dims3 b c d (view3 b c d r)) (chunk a (b * c * d) l)).
  { eapply Forall_impl; [exact Ef|]. intros r Hr. apply flat3_view3. simpl in Hr. lia. }
  split; [|split; [by rewrite length_fmap|apply Forall_fmap; eapply Forall_impl; [exact H|by intros r []]]].
  rewrite <- E at 2. f_equal. rewrite <- (list_fmap_id (chunk a (b * c * d) l)) at 2. apply list_fmap_ext. intros i r Hi. simpl.
  by apply (Forall_lookup_1 _ _ _ _ H Hi).
Qed.

Lemma flat4_concat {A} (x : list (list (list (list A)))) : flat4 x = flat3 (concat x).
Proof. unfold flat4, flat3. induction x as [|y x IH]; [done|]. csimpl. by rewrite IH, fmap_app, concat_app. Qed.

(** All rows of a view of blocks *)
Lemma dims_concat {A} a b c d (x : list (list (list (list A)))) : dims4 a b c d x → dims3 (a * b) c d (concat x).
Proof.
  intros [<- Hx]. split.
  - apply length_concat_uniform. eapply Forall_impl; [exact Hx|]. by intros y [].
  - apply Forall_concat. eapply Forall_impl; [exact Hx|]. by intros y [].
Qed.

Lemma dims3_transpose {A} a b c (x : list (list (list A))) : dims3 a b c x → dims3 b a c (transpose b x).
Proof.
  intros [<- Hx]. unfold transpose. split; [by rewrite length_fmap, length_seq|]. apply Forall_fmap, Forall_forall. intros j Hj. apply elem_of_seq in Hj. simpl.
  split; [by rewrite length_fmap|]. apply Forall_fmap. eapply Forall_impl; [exact Hx|]. intros y [<- Hy]. simpl.
  apply (proj1 (Forall_forall _ _) Hy). apply list_elem_of_In, nth_In. lia.
Qed.

Lemma transpose_transpose {A} a b c (x : list (list (list A))) : dims3 a b c x → transpose a (transpose b x) = x.
Proof.
  intros [<- Hx]. apply list_eq. intros i. unfold transpose at 1. rewrite list_lookup_fmap. destruct (x !! i) as [y|] eqn:Hi.
  - pose proof (lookup_lt_Some _ _ _ Hi) as Hlt. rewrite lookup_seq_lt by done. simpl. f_equal. unfold transpose. rewrite <- list_fmap_compose.
    pose proof (Forall_lookup_1 _ _ _ _ Hx Hi) as [<- _]. apply list_eq. intros j. rewrite list_lookup_fmap. destruct (y !! j) as [z|] eqn:Hj.
    + rewrite lookup_seq_lt by (by apply lookup_lt_Some in Hj). simpl. f_equal. rewrite (nth_lookup_Some _ i [] (nth j y [])); [by apply nth_lookup_Some|].
      rewrite list_lookup_fmap, Hi. done.
    + rewrite lookup_seq_ge; [done|]. by apply lookup_ge_None in Hj.
  - rewrite lookup_seq_ge; [done|]. by apply lookup_ge_None in Hi.
Qed.
