(* ===== verification/RtPipeline.v ===== *)
(** * The compression pipeline of the fixed-profile runtime

    [compression/runtime/pipeline.py], [codec.py] and the part of [manager.py]
    that calls them, with the Python backend: gathering the blocks of every
    layer, reordering heads, the Hadamard transform, quantization into the
    arenas, raw tails, the codec, and all of it back. The kernels of one call
    run on one stream, in the order of the calls. A cache is held as its K and
    its V part, which are disjoint ranges of one tensor. An exception gives no
    result: what it leaves in the arenas is not used. *)

From S2P Require Import Prelude PyData RtConfig RtLayout Buffers.

(** Heads by numbers; of one token, and of the tokens of a block by head *)
Notation vec := (list elem).
Notation token := (list vec).
Notation block := (list (list vec)).

(** ** The arithmetic of [torch.bfloat16], and the fused kernel where the
    tensors are on a CUDA device *)
Class Bf16 := {
  bf_add : elem → elem → elem;
  bf_sub : elem → elem → elem;
  bf_mul : elem → elem → elem;
  bf_amin : vec → elem;
  bf_amax : vec → elem;
  bf_clamp_min : elem → elem;          (* [clamp_(min=1e-5)] *)
  bf_div_int : elem → Z → elem;
  bf_reciprocal : elem → elem;
  bf_round : elem → elem;
  bf_clamp : Z → elem → elem;          (* [clamp_(0, n)] *)
  bf_isqrt : Z → elem → elem;          (* [mul_(1 / sqrt(n))] *)
  to_uint8 : elem → Z;
  of_uint8 : Z → elem;
  fused_hadamard : option (Z → vec → vec)
}.

(** nvCOMP's ANS, for data of a size it was configured for *)
Class Ans := {
  ans_encode : list Z → result (list Z);
  ans_decode : Z → list Z → result (list Z)
}.

(** ** Data *)

Record CompressionSlotBuffers := mkSlot {
  arena_a : list Z;
  arena_b : list Z;
  aux : list Z;
  block_indices : list (list Z);
  raw_tail : option (list Z)
}.

Definition with_a (a : list Z) (s : CompressionSlotBuffers) := mkSlot a (arena_b s) (aux s) (block_indices s) (raw_tail s).
Definition with_b (b : list Z) (s : CompressionSlotBuffers) := mkSlot (arena_a s) b (aux s) (block_indices s) (raw_tail s).
Definition with_aux (x : list Z) (s : CompressionSlotBuffers) := mkSlot (arena_a s) (arena_b s) x (block_indices s) (raw_tail s).
Definition with_indices (i : list (list Z)) (s : CompressionSlotBuffers) := mkSlot (arena_a s) (arena_b s) (aux s) i (raw_tail s).
Definition with_tail (t : list Z) (s : CompressionSlotBuffers) := mkSlot (arena_a s) (arena_b s) (aux s) (block_indices s) (Some t).

Notation cache_key := (string * KVPart)%type.
Notation caches := (list (cache_key * list block)).

(** [first_group] is [next(iter(fa_group_indices))]: the order of a set is not
    specified. *)
Record CompressionPipeline := mkPipeline {
  p_layout : CompressionLayout;
  first_group : option Z;
  blocks_per_logical : Z;
  signs : list (cache_key * token);
  head_orders : list (string * list Z);
  identity_orders : gset string;
  stages : list string;
  codec_sizes : list Z
}.

Record EncodedChunk := mkChunk { codec_bytes : Z; u8_bytes : Z; chunk_tail_bytes : Z }.

Notation "'num' z" := (Z.to_nat z) (at level 9, only parsing).

Definition index_select {A} (l : list A) (ids : list Z) : result (list A) :=
  rmap (λ i, raise_if (i <? 0) IndexError ;? of_option IndexError (l !! num i)) ids.

Definition index_copy {A} (ids : list Z) (src dst : list A) : result (list A) :=
  raise_if (negb (forallb (λ i, (0 <=? i) && (i <? zlen dst)) ids)) IndexError ;?
  Ok (foldl (λ d e, <[num (e.1 : Z) := e.2]> d) dst (zip ids src)).

(** ** The Hadamard transform *)

Section numbers.
Context `{B : !Bf16}.

(** One pass over pairs of halves of [2 * step] numbers *)
Definition butterfly (step : nat) (v : vec) : vec :=
  concat ((λ c, let e := take step c in let o := drop step c in zip_with bf_add e o ++ zip_with bf_sub e o)
            <$> chunk (length v / (2 * step)) (2 * step) v).

(** The loop with its two buffers: [flip] tells that [src] is the output. *)
Fixpoint fwht_loop (fuel : nat) (size step : Z) (inputs outputs : vec) (flip : bool) : vec * vec * bool :=
  match fuel with
  | O => (inputs, outputs, flip)
  | S fuel =>
      if step <? size then
        if flip then fwht_loop fuel size (2 * step) (butterfly (num step) outputs) outputs false
        else fwht_loop fuel size (2 * step) inputs (butterfly (num step) inputs) true
      else (inputs, outputs, flip)
  end.

Definition fwht_cpu (size : Z) (inputs outputs : vec) : vec * vec :=
  let '(i, o, flip) := fwht_loop (num size) size 1 inputs outputs false in
  let o := if flip then o else i in
  (i, bf_isqrt size <$> o).

(** [_hadamard_transform], with the checks of [cpp_backend.hadamard_transform] *)
Definition hadamard_transform (a : list Z) (inp out numel size : Z) : result (list Z) :=
  match fused_hadamard with
  | Some f =>
      raise_if (negb (is_pow2 size)) (ValueError "Hadamard requires a power-of-two head size") ;?
      if numel =? 0 then Ok a
      else
        raise_if ((inp <? out + 2 * numel) && (out <? inp + 2 * numel)) (ValueError "Hadamard input and output must not overlap") ;?
        let? x := read16 a inp numel in
        write16 a out (f size x)
  | None =>
      let? x := read16 a inp numel in
      let? y := read16 a out numel in
      let (x, y) := fwht_cpu size x y in
      let? a := write16 a inp x in
      write16 a out y
  end.

(** ** Quantization of the tokens of one section *)

Definition narrow {A} (start count : Z) (row : list A) : list A := take (num count) (drop (num start) row).
Definition widen {A} (start : Z) (new row : list A) : list A := take (num start) row ++ new ++ drop (num start + length new) row.

(** The section of the first rows replaced *)
Definition update_rows {A} (start : Z) (new rows : list (list A)) : list (list A) := zip_with (widen start) new rows ++ drop (length new) rows.

Definition u8_of (rows : list token) : list (list (list Z)) := (λ r : token, (λ h : vec, to_uint8 <$> h) <$> r) <$> rows.

Definition valid_rows {A} (rows : list A) (valid : Z) : list A := if zlen rows =? valid then rows else take (num valid) rows.

Definition reduce (ax : QuantAxis) (f : vec → elem) (heads size : Z) (rows : list token) : vec :=
  match ax with
  | Channel => seqZ 0 heads ≫= λ j, (λ k, f ((λ r, nth (num k) (nth (num j) r []) (0, 0)) <$> rows)) <$> seqZ 0 size
  | Token => (λ r, f (concat r)) <$> rows
  | Tensor => [f (concat (@concat _ <$> rows))]
  end.

Definition aux_numel (ax : QuantAxis) (heads size : Z) (n : Z) : Z :=
  match ax with Channel => heads * size | Token => n | Tensor => 1 end.

(** The parameter that is broadcast to number [k] of head [j] of row [i]. *)
Definition param (ax : QuantAxis) (size : Z) (i j k : nat) (p : vec) : elem :=
  nth (match ax with Channel => j * num size + k | Token => i | Tensor => 0 end)%nat p (0, 0).

Definition broadcast {X Y} (ax : QuantAxis) (size : Z) (f : X → elem → elem → Y) (rows : list (list (list X))) (p q : vec) : list (list (list Y)) :=
  imap (λ i r, imap (λ j h, imap (λ k x, f x (param ax size i j k p) (param ax size i j k q)) h) r) rows.

Definition inverse_scales (levels : Z) (M m : vec) : vec := zip_with (λ M m, bf_div_int (bf_clamp_min (bf_sub M m)) (levels - 1)) M m.

Definition to_symbol (levels : Z) (x m r : elem) : elem := bf_clamp (levels - 1) (bf_round (bf_mul (bf_sub x m) r)).

Definition of_symbol (x : Z) (m s : elem) : elem := bf_add (bf_mul (of_uint8 x) s) m.

(** ** The stages *)

Section pipeline.
Context (P : CompressionPipeline).

Definition stage (s : string) : bool := bool_decide (s ∈ stages P).

Definition kernel_tokens (x : LayerPartLayout) : Z := part_block_size x / blocks_per_logical P.

Definition key_of (x : LayerPartLayout) : cache_key := (layer_name x, kv_part x).

Definition cache_part (C : caches) (x : LayerPartLayout) : result (list block) := of_option KeyError (dget C (key_of x)).

Definition physical_ids (logical : list Z) : list Z := logical ≫= λ l, (λ o, l * blocks_per_logical P + o) <$> seqZ 0 (blocks_per_logical P).

Definition index_tensor (s : CompressionSlotBuffers) (logical : list Z) (row : Z) : result CompressionSlotBuffers :=
  let? storage := py_index (block_indices s) row in
  raise_if (zlen storage <? zlen (physical_ids logical)) (RuntimeError "size of tensor must match") ;?
  Ok (with_indices (<[num row := physical_ids logical ++ drop (length (physical_ids logical)) storage]> (block_indices s)) s).

(** For every group the row and the count: a view of the slot's indices. *)
Definition group_indices_step (st : CompressionSlotBuffers * list (Z * (Z * Z))) (e : Z * list Z) :
    result (CompressionSlotBuffers * list (Z * (Z * Z))) :=
  let '(s, ix) := st in
  match e.2, index_rows_by_group (p_layout P) !! e.1 with
  | _ :: _, Some row => let? s := index_tensor s e.2 row in Ok (s, dset ix e.1 (row, zlen (physical_ids e.2)))
  | _, _ => Ok (s, ix)
  end.

Definition group_indices (s : CompressionSlotBuffers) (ids : list (list Z)) : result (CompressionSlotBuffers * list (Z * (Z * Z))) :=
  rfold group_indices_step (s, []) (zip (seqZ 0 (zlen ids)) ids).

Definition indices_of (s : CompressionSlotBuffers) (ix : list (Z * (Z * Z))) (x : LayerPartLayout) : result (list Z) :=
  let? (row, count) := of_option KeyError (dget ix (group_index x)) in
  let? storage := py_index (block_indices s) row in
  Ok (take (num count) storage).

(** The numbers of a layer part of [n] physical blocks, and the two views *)
Definition raw_numel (x : LayerPartLayout) (n : Z) : Z := n * kernel_tokens x * num_heads x * part_head_size x.

Definition off_a (x : LayerPartLayout) : Z := raw_offset x.
Definition off_b (x : LayerPartLayout) : Z := scratch_stride (p_layout P) + raw_offset x.

Definition scratch_of (x : LayerPartLayout) (n : Z) (l : vec) : list block := view4 (num n) (num (num_heads x)) (num (kernel_tokens x)) (num (part_head_size x)) l.
Definition canonical_of (x : LayerPartLayout) (n : Z) (l : vec) : list (list token) :=
  view4 (num n) (num (kernel_tokens x)) (num (num_heads x)) (num (part_head_size x)) l.

Definition gather_rearrange (C : caches) (s : CompressionSlotBuffers) (x : LayerPartLayout) (ids : list Z) : result (CompressionSlotBuffers * bool) :=
  let? source := cache_part C x in
  let? blocks := index_select source ids in
  if bool_decide (layer_name x ∈ identity_orders P) then
    let in_b := stage "transformer" in
    let? a := write16 (arena_a s) (if in_b then off_b x else off_a x) (flat4 (transpose (num (kernel_tokens x)) <$> blocks)) in
    Ok (with_a a s, in_b)
  else
    let? a := write16 (arena_a s) (off_a x) (flat4 blocks) in
    let? order := of_option KeyError (dget (head_orders P) (layer_name x)) in
    let? scratch := read16 a (off_a x) (raw_numel x (zlen ids)) in
    let source_canonical := transpose (num (kernel_tokens x)) <$> scratch_of x (zlen ids) scratch in
    let? ordered := rmap (rmap (λ row, index_select row order)) source_canonical in
    let? a := write16 a (off_b x) (flat4 ordered) in
    Ok (with_a a s, true).

Definition mul_signs (sg : token) (rows : list token) : list token := zip_with (zip_with bf_mul) sg <$> rows.

Definition hadamard_forward (s : CompressionSlotBuffers) (x : LayerPartLayout) (n : Z) : result CompressionSlotBuffers :=
  let? sg := of_option KeyError (dget (signs P) (key_of x)) in
  let? b := read16 (arena_a s) (off_b x) (raw_numel x n) in
  let? a := write16 (arena_a s) (off_b x) (flat3 (mul_signs sg (concat (canonical_of x n b)))) in
  let? a := hadamard_transform a (off_b x) (off_a x) (raw_numel x n) (part_head_size x) in
  Ok (with_a a s).

(** The aux buffer: parameters, and temporaries in its upper half *)
Definition temporary (o : Z) : Z := o + aux_arena_bytes (p_layout P) / 2.

Definition zero_rest (buf : list Z) (o n valid : Z) : result (list Z) :=
  let? l := read16 buf o n in
  write16 buf o (take (num valid) l ++ replicate (num (n - valid)) (0, 0)).

(** Minimum, scale and, in the upper half, the inverse of the scale *)
Definition section_parameters (buf : list Z) (x : LayerPartLayout) (n valid : Z) (sec : QuantSection) (source : list token) : result (list Z) :=
  let rd f := reduce (axis sec) f (head_count sec) (part_head_size x) source in
  let count := aux_numel (axis sec) (head_count sec) (part_head_size x) (zlen source) in
  let? buf := (if bool_decide (axis sec = Token) then
                 let? buf := zero_rest buf (aux_min_offset sec) (n * kernel_tokens x) valid in
                 zero_rest buf (aux_scale_offset sec) (n * kernel_tokens x) valid
               else Ok buf) in
  let? buf := write16 buf (aux_min_offset sec) (rd bf_amin) in
  let? buf := write16 buf (temporary (aux_min_offset sec)) (rd bf_amax) in
  let? M := read16 buf (temporary (aux_min_offset sec)) count in
  let? buf := write16 buf (temporary (aux_scale_offset sec)) M in
  let? m := read16 buf (aux_min_offset sec) count in
  let? M := read16 buf (temporary (aux_scale_offset sec)) count in
  let? buf := write16 buf (temporary (aux_scale_offset sec)) (inverse_scales (num_levels sec) M m) in
  let? inv := read16 buf (temporary (aux_scale_offset sec)) count in
  let? buf := write16 buf (aux_scale_offset sec) inv in
  write16 buf (temporary (aux_scale_offset sec)) (bf_reciprocal <$> inv).

Definition u8_start (x : LayerPartLayout) : Z := u8_base (p_layout P) + u8_offset x.

Definition u8_rows (s : CompressionSlotBuffers) (x : LayerPartLayout) (n : Z) : result (list (list (list Z))) :=
  let? u := read (arena_b s) (u8_start x) (raw_numel x n) in
  Ok (concat (view4 (num n) (num (kernel_tokens x)) (num (num_heads x)) (num (part_head_size x)) u)).

Definition canonical_rows (s : CompressionSlotBuffers) (x : LayerPartLayout) (n : Z) : result (list token) :=
  let? l := read16 (arena_a s) (off_a x) (raw_numel x n) in
  Ok (concat (canonical_of x n l)).

Definition quantize_section (x : LayerPartLayout) (n valid : Z) (s : CompressionSlotBuffers) (sec : QuantSection) : result CompressionSlotBuffers :=
  let size := part_head_size x in
  let? rows := canonical_rows s x n in
  let source := narrow (head_start sec) (head_count sec) <$> valid_rows rows valid in
  let count := aux_numel (axis sec) (head_count sec) size (zlen source) in
  let? buf := section_parameters (aux s) x n valid sec source in
  let? m := read16 buf (aux_min_offset sec) count in
  let? r := read16 buf (temporary (aux_scale_offset sec)) count in
  let symbols := broadcast (axis sec) size (to_symbol (num_levels sec)) source m r in
  let? a := write16 (arena_a s) (off_a x) (flat3 (update_rows (head_start sec) symbols rows)) in
  let? old := u8_rows s x n in
  let? b := write (arena_b s) (u8_start x) (flat3 (update_rows (head_start sec) (u8_of symbols) old)) in
  Ok (with_aux buf (with_b b (with_a a s))).

Definition quantize (s : CompressionSlotBuffers) (x : LayerPartLayout) (n valid : Z) : result CompressionSlotBuffers :=
  rfold (quantize_section x n valid) s (sections x).

Definition dequantize_section (x : LayerPartLayout) (n valid : Z) (s : CompressionSlotBuffers) (sec : QuantSection) : result CompressionSlotBuffers :=
  let size := part_head_size x in
  let? symbols := u8_rows s x n in
  let source := narrow (head_start sec) (head_count sec) <$> valid_rows symbols valid in
  let count := aux_numel (axis sec) (head_count sec) size (zlen source) in
  let? m := read16 (aux s) (aux_min_offset sec) count in
  let? sc := read16 (aux s) (aux_scale_offset sec) count in
  let? rows := canonical_rows s x n in
  let? a := write16 (arena_a s) (off_a x) (flat3 (update_rows (head_start sec) (broadcast (axis sec) size of_symbol source m sc) rows)) in
  Ok (with_a a s).

Definition dequantize (s : CompressionSlotBuffers) (x : LayerPartLayout) (n valid : Z) : result CompressionSlotBuffers :=
  rfold (dequantize_section x n valid) s (sections x).

Definition scatter_cache (C : caches) (x : LayerPartLayout) (ids : list Z) (blocks : list block) : result caches :=
  let? c := cache_part C x in
  let? c := index_copy ids blocks c in
  Ok (dset C (key_of x) c).

Definition inverse_hadamard_scatter (C : caches) (s : CompressionSlotBuffers) (x : LayerPartLayout) (ids : list Z) :
    result (caches * CompressionSlotBuffers) :=
  let n := zlen ids in
  let numel := raw_numel x n in
  let? a := (if stage "transformer" then
               let? a := hadamard_transform (arena_a s) (off_a x) (off_b x) numel (part_head_size x) in
               let? sg := of_option KeyError (dget (signs P) (key_of x)) in
               let? b := read16 a (off_b x) numel in
               write16 a (off_b x) (flat3 (mul_signs sg (concat (canonical_of x n b))))
             else
               let? l := read16 (arena_a s) (off_a x) numel in
               write16 (arena_a s) (off_b x) l) in
  let? order := of_option KeyError (dget (head_orders P) (layer_name x)) in
  let? b := read16 a (off_b x) numel in
  let? l := read16 a (off_a x) numel in
  let unordered := transpose (num (kernel_tokens x)) <$> scratch_of x n l in
  let? blocks := rmap (λ e, rmap (λ e, index_copy order e.1 e.2) (zip e.1 e.2)) (zip (canonical_of x n b) unordered) in
  let scratch := transpose (num (num_heads x)) <$> blocks in
  let? a := write16 a (off_a x) (flat4 scratch) in
  let? C := scatter_cache C x ids scratch in
  Ok (C, with_a a s).

(** ** Raw tails *)

Definition tail_ids (ids : list Z) : list Z := drop (length ids - num (blocks_per_logical P)) ids.

(** The tokens of the tail in physical block [p] *)
Definition tail_count (x : LayerPartLayout) (remaining : Z) : Z := Z.min remaining (kernel_tokens x).

Definition pack_block (x : LayerPartLayout) (scratch : list block) (offset : Z) (st : list Z * Z * Z) (p : Z) : result (list Z * Z * Z) :=
  let '(buf, source_offset, remaining) := st in
  let count := tail_count x remaining in
  if count <=? 0 then Ok st
  else
    let source := (take (num count) : list vec → _) <$> nth (num p) scratch [] in
    let? buf := write16 buf (offset + source_offset) (flat3 source) in
    Ok (buf, source_offset + 2 * zlen (flat3 source), remaining - count).

Definition pack_raw_tail (C : caches) (s : CompressionSlotBuffers) (x : LayerPartLayout) (ids : list Z) (valid offset : Z) : result (CompressionSlotBuffers * Z) :=
  let tail := valid mod part_block_size x in
  if tail =? 0 then Ok (s, offset)
  else
    let? buf := of_option AssertionError (raw_tail s) in
    let? source := cache_part C x in
    let? blocks := index_select source (tail_ids ids) in
    raise_if (negb (zlen blocks =? blocks_per_logical P)) (RuntimeError "size of tensor must match") ;?
    let? a := write16 (arena_a s) (off_a x) (flat4 blocks) in
    let? l := read16 a (off_a x) (raw_numel x (blocks_per_logical P)) in
    let scratch := scratch_of x (blocks_per_logical P) l in
    let? (buf, source_offset, _) := rfold (pack_block x scratch offset) (buf, 0, tail) (seqZ 0 (blocks_per_logical P)) in
    Ok (with_tail buf (with_a a s), offset + source_offset).

Definition apply_block (x : LayerPartLayout) (buf : list Z) (offset : Z) (st : list block * Z * Z) (p : Z) : result (list block * Z * Z) :=
  let '(scratch, source_offset, remaining) := st in
  let count := tail_count x remaining in
  if count <=? 0 then Ok st
  else
    let numel := num_heads x * count * part_head_size x in
    let? l := read16 buf (offset + source_offset) numel in
    let new := view3 (num (num_heads x)) (num count) (num (part_head_size x)) l in
    let old := nth (num p) scratch [] in
    Ok (<[num p := zip_with (λ n o, n ++ drop (length n) o) new old]> scratch, source_offset + 2 * numel, remaining - count).

Definition apply_raw_tail (C : caches) (s : CompressionSlotBuffers) (x : LayerPartLayout) (ids : list Z) (valid offset : Z) :
    result (caches * CompressionSlotBuffers * Z) :=
  let tail := valid mod part_block_size x in
  if tail =? 0 then Ok (C, s, offset)
  else
    let? buf := of_option AssertionError (raw_tail s) in
    let numel := raw_numel x (blocks_per_logical P) in
    let scratch := scratch_of x (blocks_per_logical P) (replicate (num numel) (0, 0)) in
    let? (scratch, source_offset, _) := rfold (apply_block x buf offset) (scratch, 0, tail) (seqZ 0 (blocks_per_logical P)) in
    let? a := write16 (arena_a s) (off_a x) (flat4 scratch) in
    let? C := scatter_cache C x (tail_ids ids) scratch in
    Ok (C, with_a a s, offset + source_offset).

(** ** A chunk *)

Definition quantized : bool := stage "quantizer".

(** [valid_tokens_by_group[g]] *)
Definition tokens_of (tokens : list (Z * Z)) (g : Z) : result Z := of_option KeyError (dget tokens g).

Definition token_count (tokens : list (Z * Z)) (g : Z) : Z := default 0 (dget tokens g).

(** The groups that [raw_tail_bytes] and [has_body] look up *)
Definition groups_known (tokens : list (Z * Z)) (kv : KVPart) : result unit :=
  rfold (λ _ x, let? _ := tokens_of tokens (group_index x) in Ok ()) () (parts (p_layout P) kv).

(** [has_body] stops at the first group with a body. *)
Fixpoint any_body (tokens : list (Z * Z)) (l : list LayerPartLayout) : result bool :=
  match l with
  | [] => Ok false
  | x :: l => let? n := tokens_of tokens (group_index x) in if part_block_size x <=? n then Ok true else any_body tokens l
  end.

(** The bytes of a part that go to the codec, and of its parameters *)
Definition data_bytes (kv : KVPart) (tokens : list (Z * Z)) : Z :=
  if has_body (p_layout P) (token_count tokens) then
    sel kv (if quantized then u8_bytes_by_part (p_layout P) else raw_bytes_by_part (p_layout P))
  else 0.

Definition aux_bytes (kv : KVPart) (tokens : list (Z * Z)) : Z :=
  if has_body (p_layout P) (token_count tokens) && quantized then sel kv (aux_bytes_by_part (p_layout P)) else 0.

Definition body_tokens (x : LayerPartLayout) (valid : Z) : Z := valid - valid mod part_block_size x.
Definition body_blocks (x : LayerPartLayout) (valid : Z) : Z := body_tokens x valid / part_block_size x * blocks_per_logical P.

(** Where a part goes without the quantizer *)
Definition packed_start (x : LayerPartLayout) : Z := u8_base (p_layout P) + u8_offset x * 2.

Definition pack_raw (s : CompressionSlotBuffers) (x : LayerPartLayout) (n : Z) : result CompressionSlotBuffers :=
  let? l := read16 (arena_a s) (off_a x) (raw_numel x n) in
  let? b := write (arena_b s) (packed_start x) (bytes_of l) in
  Ok (with_b b s).

Definition transform_stage (s : CompressionSlotBuffers) (x : LayerPartLayout) (n : Z) (in_b : bool) : result CompressionSlotBuffers :=
  if stage "transformer" then hadamard_forward s x n
  else if in_b then
    let? l := read16 (arena_a s) (off_b x) (raw_numel x n) in
    let? a := write16 (arena_a s) (off_a x) l in
    Ok (with_a a s)
  else Ok s.

Definition encode_body (C : caches) (s : CompressionSlotBuffers) (x : LayerPartLayout) (ids : list Z) (valid : Z) : result CompressionSlotBuffers :=
  let? (s, in_b) := gather_rearrange C s x ids in
  let? s := transform_stage s x (zlen ids) in_b in
  if quantized then quantize s x (zlen ids) valid else pack_raw s x (zlen ids).

Definition encode_part (C : caches) (tokens : list (Z * Z)) (ix : list (Z * (Z * Z))) (st : CompressionSlotBuffers * Z) (x : LayerPartLayout) :
    result (CompressionSlotBuffers * Z) :=
  let '(s, offset) := st in
  let? valid := tokens_of tokens (group_index x) in
  let? ids := indices_of s ix x in
  let? (s, offset) := pack_raw_tail C s x ids valid offset in
  if body_tokens x valid =? 0 then Ok (s, offset)
  else
    let? s := encode_body C s x (take (num (body_blocks x valid)) ids) (body_tokens x valid) in
    Ok (s, offset).

Context `{A : !Ans}.

(** [ANSCodec.encode] and [decode] *)
Definition codec_encode (source output : list Z) (n : Z) : result (list Z * Z) :=
  let? x := read source 0 n in
  raise_if (negb (bool_decide (n ∈ codec_sizes P))) KeyError ;?
  let? y := ans_encode x in
  let? out := write output 0 y in
  Ok (out, zlen y).

Definition codec_decode (source output : list Z) (n_codec n : Z) : result (list Z) :=
  let? y := read source 0 n_codec in
  raise_if (negb (bool_decide (n ∈ codec_sizes P))) KeyError ;?
  let? x := ans_decode n y in
  write output 0 x.

(** [_aggregate_segments]: the ids of the groups of all parts *)
Definition segments_known (ids : list (list Z)) (kv : KVPart) : result unit :=
  rfold (λ _ x, let? _ := py_index ids (group_index x) in Ok ()) () (parts (p_layout P) kv).

(** The stream starts at [u8_base] in arena B. *)
Definition stream_of (s : CompressionSlotBuffers) : list Z := drop (num (u8_base (p_layout P))) (arena_b s).
Definition with_stream (l : list Z) (s : CompressionSlotBuffers) : CompressionSlotBuffers :=
  with_b (take (num (u8_base (p_layout P))) (arena_b s) ++ l) s.

(** The bodies of the two loops over the segments; the offset of a segment is
    the sum of the bytes before it. *)
Definition encode_segment (C : caches) (ix : list (Z * (Z * Z))) (st : CompressionSlotBuffers * Z) (x : LayerPartLayout) :
    result (CompressionSlotBuffers * Z) :=
  let '(s, offset) := st in
  let? c := cache_part C x in
  let? phys := indices_of s ix x in
  let? blocks := index_select c phys in
  let? a := write16 (arena_a s) offset (flat4 blocks) in
  Ok (with_a a s, offset + 2 * raw_numel x (zlen phys)).

Definition decode_segment (s : CompressionSlotBuffers) (ix : list (Z * (Z * Z))) (st : caches * Z) (x : LayerPartLayout) : result (caches * Z) :=
  let '(C, offset) := st in
  let? phys := indices_of s ix x in
  let? l := read16 (arena_a s) offset (raw_numel x (zlen phys)) in
  let? C := scatter_cache C x phys (scratch_of x (zlen phys) l) in
  Ok (C, offset + 2 * raw_numel x (zlen phys)).

Definition encode_aggregate (C : caches) (s : CompressionSlotBuffers) (ids : list (list Z)) (kv : KVPart) : result (CompressionSlotBuffers * EncodedChunk) :=
  segments_known ids kv ;?
  let? (s, ix) := group_indices s ids in
  let? (s, offset) := rfold (encode_segment C ix) (s, 0) (parts (p_layout P) kv) in
  Ok (s, mkChunk offset offset 0).

Definition decode_aggregate (C : caches) (s : CompressionSlotBuffers) (ids : list (list Z)) (kv : KVPart) : result (caches * CompressionSlotBuffers) :=
  segments_known ids kv ;?
  let? (s, ix) := group_indices s ids in
  let? (C, _) := rfold (decode_segment s ix) (C, 0) (parts (p_layout P) kv) in
  Ok (C, s).

(** [encode] where [_use_cpp] is false; the log lines are left out. *)
Definition encode (C : caches) (s : CompressionSlotBuffers) (ids : list (list Z)) (kv : KVPart) (tokens : list (Z * Z)) :
    result (CompressionSlotBuffers * EncodedChunk) :=
  groups_known tokens kv ;?
  let? first := of_option StopIteration (first_group P) in
  let? _ := py_index ids first in
  let tail_bytes := raw_tail_bytes (p_layout P) kv (token_count tokens) in
  if stage "aggregate" then encode_aggregate C s ids kv
  else
    let? _ := any_body tokens (parts (p_layout P) KPart) in
    let n := data_bytes kv tokens in
    let s := with_b (clear (arena_b s) (u8_base (p_layout P)) n) s in
    let s := with_aux (clear (aux s) 0 (aux_bytes kv tokens)) s in
    let? (s, ix) := group_indices s ids in
    let? (s, offset) := rfold (encode_part C tokens ix) (s, 0) (parts (p_layout P) kv) in
    if (n =? 0) || negb (stage "codec") then
      let? l := read (arena_b s) (u8_base (p_layout P)) n in
      let? a := write (arena_a s) 0 l in
      Ok (with_a a s, mkChunk n n tail_bytes)
    else
      let? (a, size) := codec_encode (stream_of s) (arena_a s) n in
      Ok (with_a a s, mkChunk size n offset).

Definition decode_body (C : caches) (s : CompressionSlotBuffers) (x : LayerPartLayout) (ids : list Z) (valid : Z) : result (caches * CompressionSlotBuffers) :=
  let n := zlen ids in
  let? s := (if quantized then dequantize s x n valid
             else
               let? u := read (arena_b s) (packed_start x) (2 * raw_numel x n) in
               let? a := write (arena_a s) (off_a x) u in
               Ok (with_a a s)) in
  inverse_hadamard_scatter C s x ids.

Definition decode_part (tokens : list (Z * Z)) (ix : list (Z * (Z * Z))) (st : caches * CompressionSlotBuffers * Z) (x : LayerPartLayout) :
    result (caches * CompressionSlotBuffers * Z) :=
  let '(C, s, offset) := st in
  let? valid := tokens_of tokens (group_index x) in
  let? ids := indices_of s ix x in
  let? (C, s) := (if body_tokens x valid =? 0 then Ok (C, s)
                  else decode_body C s x (take (num (body_blocks x valid)) ids) (body_tokens x valid)) in
  apply_raw_tail C s x ids valid offset.

(** [decode] where [_use_cpp] is false; an event stands for the result. *)
Definition decode (C : caches) (s : CompressionSlotBuffers) (ids : list (list Z)) (kv : KVPart) (n_codec n : Z) (tokens : list (Z * Z)) :
    result (caches * CompressionSlotBuffers) :=
  if stage "aggregate" then decode_aggregate C s ids kv
  else
    let? s := (if negb (n =? 0) && stage "codec" then
                 let? l := codec_decode (arena_a s) (stream_of s) n_codec n in Ok (with_stream l s)
               else
                 let? l := read (arena_a s) 0 n in
                 let? b := write (arena_b s) (u8_base (p_layout P)) l in
                 Ok (with_b b s)) in
    let? (s, ix) := group_indices s ids in
    let? (C, s, _) := rfold (decode_part tokens ix) (C, s, 0) (parts (p_layout P) kv) in
    Ok (C, s).

(** ** The checks of [CompressionRuntime] *)

(** [data_bytes] of the manager, with tokens of groups that may be missing *)
Definition runtime_data_bytes (kv : KVPart) (tokens : list (Z * Z)) : Z :=
  if stage "aggregate" then
    sumZ ((λ x, (token_count tokens (group_index x) + part_block_size x - 1) / part_block_size x * num_heads x * part_block_size x * part_head_size x * 2)
            <$> parts (p_layout P) kv)
  else data_bytes kv tokens.

Definition runtime_decode (C : caches) (s : CompressionSlotBuffers) (ids : list (list Z)) (kv : KVPart) (n_codec n : Z) (tokens : list (Z * Z)) :
    result (caches * CompressionSlotBuffers) :=
  let? _ := (if stage "aggregate" then Ok false else any_body tokens (parts (p_layout P) KPart)) in
  raise_if (negb (n =? runtime_data_bytes kv tokens)) (ValueError "Compressed chunk has an incompatible decoded size") ;?
  raise_if (negb ((0 <=? n_codec) && (n_codec <=? zlen (arena_a s)))) (ValueError "Compressed chunk exceeds receive buffer capacity") ;?
  raise_if (negb (stage "codec") && negb (n_codec =? n)) (ValueError "Unencoded chunk payload size does not match its layout") ;?
  decode C s ids kv n_codec n tokens.

End pipeline.
End numbers.
