(* ===== verification/RtPipelineOps.v ===== *)
(** * The compression pipeline: its operations

    What each stage leaves in the arenas, against a specification without
    arenas: the Hadamard transform with its two buffers, the reordering of
    heads and its inverse, and the quantization of a section. *)

From S2P Require Import Prelude PyData RtConfig RtLayout Buffers RtPipeline.

Notation "'num' z" := (Z.to_nat z) (at level 9, only parsing).

(** ** The Hadamard transform *)

(** A kernel returns as many numbers as it is given. *)
Class FusedLaw `{!Bf16} := fused_length : ∀ f, fused_hadamard = Some f → ∀ n v, length (f n v) = length v.

Section hadamard.
Context `{B : !Bf16, F : !FusedLaw}.

Fixpoint fwht_steps (fuel : nat) (size step : Z) (v : vec) : vec :=
  match fuel with
  | O => v
  | S fuel => if step <? size then fwht_steps fuel size (2 * step) (butterfly (num step) v) else v
  end.

Definition fwht (size : Z) (v : vec) : vec :=
  match fused_hadamard with Some f => f size v | None => bf_isqrt size <$> fwht_steps (num size) size 1 v end.

(** The two buffers hold the passes in turn. *)
Lemma fwht_loop_spec fuel size step i o flip :
  let '(i', o', flip') := fwht_loop fuel size step i o flip in
  (if flip' then o' else i') = fwht_steps fuel size step (if flip then o else i).
Proof.
  revert step i o flip. induction fuel as [|fuel IH]; intros step i o flip; [done|]. cbn [fwht_loop fwht_steps]. destruct (step <? size); [|done].
  destruct flip; apply IH.
Qed.

(** More fuel than [size] changes nothing: the loop has ended. *)
Lemma fwht_loop_fuel fuel : ∀ k size step i o flip, 0 < step → size ≤ step * 2 ^ Z.of_nat fuel →
  fwht_loop (fuel + k) size step i o flip = fwht_loop fuel size step i o flip.
Proof.
  induction fuel as [|fuel IH]; intros k size step i o flip Hs Hf.
  - destruct k as [|k]; [done|]. cbn [fwht_loop Nat.add]. by rewrite (proj2 (Z.ltb_ge step size)) by (simpl in Hf; lia).
  - cbn [fwht_loop Nat.add]. destruct (step <? size); [|done]. assert (size ≤ 2 * step * 2 ^ Z.of_nat fuel) by (rewrite Nat2Z.inj_succ, Z.pow_succ_r in Hf by lia; lia).
    destruct flip; apply IH; lia.
Qed.

Lemma fwht_fuel_enough k size i o flip : fwht_loop (num size + k) size 1 i o flip = fwht_loop (num size) size 1 i o flip.
Proof. apply fwht_loop_fuel; [lia|]. destruct (decide (0 ≤ size)); [|pose proof (Z.pow_nonneg 2 (Z.of_nat (num size))); lia]. rewrite Z2Nat.id by done. pose proof (Z.pow_gt_lin_r 2 size). lia. Qed.

Lemma length_butterfly step v : (0 < step)%nat → (2 * step | length v)%nat → length (butterfly step v) = length v.
Proof.
  intros Hs [q Hq]. unfold butterfly. rewrite Hq, Nat.div_mul by lia.
  destruct (concat_chunk q (2 * step) v Hq) as [_ [Hl Hf]]. rewrite (length_concat_uniform (2 * step)); [rewrite length_fmap; lia|].
  apply Forall_fmap. eapply Forall_impl; [exact Hf|]. intros c Hc. simpl in Hc |- *. rewrite length_app, !length_zip_with, length_take, length_drop. lia.
Qed.

Lemma is_pow2_spec n : is_pow2 n = true → ∃ k, n = 2 ^ Z.of_nat k.
Proof.
  unfold is_pow2. intros H%negb_true_iff. apply orb_false_iff in H as [H1 H2]. apply negb_false_iff in H2. zbool.
  exists (Z.to_nat (Z.log2 n)). rewrite Z2Nat.id by apply Z.log2_nonneg. destruct (Z.log2_spec n) as [Hlo Hhi]; [lia|].
  destruct (decide (n = 2 ^ Z.log2 n)) as [|Hne]; [done|]. exfalso.
  assert (Hb : Z.testbit (Z.land n (n - 1)) (Z.log2 n) = true).
  { rewrite Z.land_spec, Z.bit_log2 by lia. assert (E : Z.log2 (n - 1) = Z.log2 n) by (apply Z.log2_unique; [apply Z.log2_nonneg|lia]).
    rewrite <- E at 1. rewrite Z.bit_log2; [done|]. pose proof (Z.log2_nonneg n). pose proof (Z.pow_pos_nonneg 2 (Z.log2 n)). lia. }
  rewrite H2, Z.bits_0 in Hb. done.
Qed.

Lemma fwht_steps_length fuel j k v :
  (2 ^ k | length v)%nat → length (fwht_steps fuel (2 ^ Z.of_nat k) (2 ^ Z.of_nat j) v) = length v.
Proof.
  revert j v. induction fuel as [|fuel IH]; intros j v Hv; [done|]. cbn [fwht_steps]. case_bool; [|done]. zbool.
  assert (Hjk : (j < k)%nat) by (match goal with H : _ < _ |- _ => apply Z.pow_lt_mono_r_iff in H; lia end).
  assert (Hn : num (2 ^ Z.of_nat j) = (2 ^ j)%nat) by (rewrite <- (Nat2Z.id (2 ^ j)), Nat2Z.inj_pow; done). rewrite Hn.
  assert (Hd : (2 * 2 ^ j | length v)%nat).
  { replace (2 * 2 ^ j)%nat with (2 ^ S j)%nat by done. etransitivity; [|exact Hv]. exists (2 ^ (k - S j))%nat. rewrite <- Nat.pow_add_r. f_equal. lia. }
  assert (Hl : length (butterfly (2 ^ j) v) = length v) by (apply length_butterfly; [apply Nat.neq_0_lt_0, Nat.pow_nonzero; lia|done]).
  replace (2 * 2 ^ Z.of_nat j) with (2 ^ Z.of_nat (S j)) by (rewrite Nat2Z.inj_succ, Z.pow_succ_r; lia).
  rewrite IH; [done|by rewrite Hl].
Qed.

(** The passes end: more fuel changes nothing. *)
Lemma fwht_steps_done fuel size step v : 0 < step → size ≤ step * 2 ^ Z.of_nat fuel → fwht_steps (S fuel) size step v = fwht_steps fuel size step v.
Proof.
  revert step v. induction fuel as [|fuel IH]; intros step v Hs Hf.
  - cbn [fwht_steps]. case_bool; [zbool; simpl in Hf; lia|done].
  - change (fwht_steps (S (S fuel)) size step v) with (if step <? size then fwht_steps (S fuel) size (2 * step) (butterfly (num step) v) else v).
    rewrite IH; [done|lia|]. rewrite Nat2Z.inj_succ, Z.pow_succ_r in Hf by lia. lia.
Qed.

Lemma length_fwht size v : is_pow2 size = true → (num size | length v)%nat → length (fwht size v) = length v.
Proof.
  intros [k ->]%is_pow2_spec Hv. unfold fwht. destruct fused_hadamard as [f|] eqn:E; [by apply fused_length|]. rewrite length_fmap.
  apply (fwht_steps_length _ 0). assert (Hn : num (2 ^ Z.of_nat k) = (2 ^ k)%nat) by (rewrite <- (Nat2Z.id (2 ^ k)), Nat2Z.inj_pow; done). by rewrite Hn in Hv.
Qed.

Lemma fwht_loop_length fuel j k i o flip :
  (2 ^ k | length i)%nat → length o = length i →
  let '(i', o', _) := fwht_loop fuel (2 ^ Z.of_nat k) (2 ^ Z.of_nat j) i o flip in length i' = length i ∧ length o' = length i.
Proof.
  revert j i o flip. induction fuel as [|fuel IH]; intros j i o flip Hi Ho; [done|]. cbn [fwht_loop]. case_bool; [|done]. zbool.
  assert (Hjk : (j < k)%nat) by (match goal with H : _ < _ |- _ => apply Z.pow_lt_mono_r_iff in H; lia end).
  assert (Hn : num (2 ^ Z.of_nat j) = (2 ^ j)%nat) by (rewrite <- (Nat2Z.id (2 ^ j)), Nat2Z.inj_pow; done). rewrite Hn.
  assert (Hd : (2 * 2 ^ j | length i)%nat).
  { replace (2 * 2 ^ j)%nat with (2 ^ S j)%nat by done. etransitivity; [|exact Hi]. exists (2 ^ (k - S j))%nat. rewrite <- Nat.pow_add_r. f_equal. lia. }
  assert (Hl : ∀ v, length v = length i → length (butterfly (2 ^ j) v) = length i).
  { intros v Hv. rewrite <- Hv. apply length_butterfly; [apply Nat.neq_0_lt_0, Nat.pow_nonzero; lia|by rewrite Hv]. }
  replace (2 * 2 ^ Z.of_nat j) with (2 ^ Z.of_nat (S j)) by (rewrite Nat2Z.inj_succ, Z.pow_succ_r; lia).
  destruct flip.
  - specialize (IH (S j) (butterfly (2 ^ j) o) o false). rewrite (Hl o Ho) in IH. by apply IH.
  - apply IH; [done|by apply Hl].
Qed.

(** The transform in an arena *)
Lemma hadamard_transform_spec a inp out numel size x :
  is_pow2 size = true → (num size | length x)%nat → holds16 a inp x → numel = zlen x →
  0 ≤ inp → 0 ≤ out → inp + 2 * numel ≤ zlen a → out + 2 * numel ≤ zlen a → apart inp (2 * numel) (out, 2 * numel) →
  ∃ a', hadamard_transform a inp out numel size = Ok a' ∧ holds16 a' out (fwht size x) ∧ changes [(inp, 2 * numel); (out, 2 * numel)] a a'.
Proof.
  intros Hp Hd Hx Hn Hi Ho Hbi Hbo Hap. assert (Hlen : zlen (fwht size x) = numel) by (rewrite Hn; unfold zlen; by rewrite length_fwht).
  unfold hadamard_transform, fwht in *. destruct fused_hadamard as [f|] eqn:Ef.
  - rewrite Hp. cbn [negb raise_if rbind]. case_bool; zbool.
    + exists a. split; [done|]. split; [|apply changes_refl]. destruct (f size x); [by apply holds_nil|]. unfold zlen in Hlen; simpl in Hlen; lia.
    + rewrite (proj2 (andb_false_iff _ _)) by (unfold apart in Hap; simpl in Hap; destruct Hap; [right|left]; apply Z.ltb_ge; lia). cbn [raise_if rbind].
      rewrite (read16_holds _ _ _ x) by done. cbn [rbind]. destruct (write16_ok a out (f size x)) as (a' & -> & Hh & Hc); [done|by rewrite Hlen|].
      exists a'. split; [done|]. split; [done|]. eapply changes_within; [|exact Hc]. intros w Hw%list_elem_of_singleton. right. eexists. split; [right; left|]. subst w. simpl. rewrite Hlen. lia.
  - rewrite (read16_holds _ _ _ x) by done. cbn [rbind]. destruct (read16_any a out numel) as (y & -> & Hy & _); [done|rewrite Hn; apply zlen_nonneg|done|]. cbn [rbind].
    unfold fwht_cpu. pose proof (fwht_loop_spec (num size) size 1 x y false) as Hs. destruct (is_pow2_spec size Hp) as [k Hk].
    assert (Hnum : num size = (2 ^ k)%nat) by (rewrite Hk, <- (Nat2Z.id (2 ^ k)), Nat2Z.inj_pow; done).
    pose proof (fwht_loop_length (num size) 0 k x y false) as Hl. rewrite <- Hk in Hl. change (2 ^ Z.of_nat 0) with 1 in Hl.
    destruct (fwht_loop (num size) size 1 x y false) as [[i o] flip]. destruct Hl as [Hli Hlo]; [by rewrite <- Hnum|unfold zlen in *; lia|]. cbn beta iota.
    cbn [andb] in Hs. change (if false then y else x) with x in Hs. rewrite Hs.
    destruct (write16_ok a inp i) as (a1 & -> & _ & Hc1); [done|unfold zlen in *; by rewrite Hli, <- Hn|]. cbn [rbind].
    destruct (write16_ok a1 out (bf_isqrt size <$> fwht_steps (num size) size 1 x)) as (a2 & -> & Hh2 & Hc2); [done|by rewrite (changes_zlen _ _ _ Hc1), Hlen|].
    exists a2. split; [done|]. split; [done|]. eapply changes_within; [|exact (changes_trans _ _ _ _ _ Hc1 Hc2)].
    intros w [->%list_elem_of_singleton| ->%list_elem_of_singleton]%elem_of_app; right; [exists (inp, 2 * numel)|exists (out, 2 * numel)]; (split; [set_solver|]); simpl; rewrite ?Hlen; unfold zlen in *; rewrite ?Hli; lia.
Qed.

End hadamard.

(** ** Selecting and placing by index *)

Definition picked {A} (l : list A) (ids : list Z) : list A := omap (λ i, l !! num i) ids.
Definition placed {A} (ids : list Z) (src dst : list A) : list A := foldl (λ d e, <[num e.1 := e.2]> d) dst (zip ids src).

Definition in_range {A} (l : list A) (ids : list Z) : Prop := Forall (λ i, 0 ≤ i < zlen l) ids.

Lemma index_select_ok {A} (l : list A) ids : in_range l ids → index_select l ids = Ok (picked l ids) ∧ length (picked l ids) = length ids.
Proof.
  unfold index_select, picked. induction 1 as [|i ids Hi _ [IH IL]]; [done|]. cbn [rmap]. rewrite (proj2 (Z.ltb_ge i 0)) by lia.
  destruct (lookup_lt_is_Some_2 l (num i)) as [x Hx]; [unfold zlen in Hi; lia|]. csimpl. rewrite Hx. cbn [raise_if rbind of_option]. rewrite IH. cbn [rbind]. split; [done|simpl; by rewrite IL].
Qed.

Lemma picked_lookup {A} (l : list A) ids k i : in_range l ids → ids !! k = Some i → picked l ids !! k = l !! num i.
Proof.
  unfold picked. intros H. revert k. induction H as [|j ids Hj _ IH]; intros k Hk; [done|]. csimpl.
  destruct (lookup_lt_is_Some_2 l (num j)) as [x Hx]; [unfold zlen in Hj; lia|]. rewrite Hx. destruct k as [|k]; simpl in *; [by injection Hk as ->|by apply IH].
Qed.

Lemma Forall_picked {A} (Q : A → Prop) l ids : Forall Q l → Forall Q (picked l ids).
Proof.
  intros H. apply Forall_forall. intros x (i & _ & Hi)%list_elem_of_omap. by apply (Forall_lookup_1 _ _ _ _ H Hi).
Qed.

Lemma picked_fmap {A C} (f : A → C) l ids : picked (f <$> l) ids = f <$> picked l ids.
Proof. unfold picked. induction ids as [|i ids IH]; [done|]. csimpl. rewrite list_lookup_fmap. destruct (l !! num i); simpl; by rewrite IH. Qed.

Lemma length_placed {A} ids (src dst : list A) : length (placed ids src dst) = length dst.
Proof.
  unfold placed. revert dst. induction (zip ids src) as [|e l IH]; intros dst; [done|]. simpl. rewrite IH. by rewrite length_insert.
Qed.

Lemma index_copy_ok {A} ids (src dst : list A) : in_range dst ids → index_copy ids src dst = Ok (placed ids src dst).
Proof.
  intros H. unfold index_copy. rewrite (proj2 (forallb_forall _ _)); [done|]. intros i Hi%list_elem_of_In. apply (proj1 (Forall_forall _ _) H) in Hi. apply andb_true_iff. rewrite Z.leb_le, Z.ltb_lt. lia.
Qed.

Lemma Forall_placed {A} (Q : A → Prop) ids src dst : Forall Q src → Forall Q dst → Forall Q (placed ids src dst).
Proof.
  unfold placed. revert src dst. induction ids as [|i ids IH]; intros [|x src] dst Hs Hd; simpl; try done. apply Forall_cons in Hs as [Hx Hs]. apply IH; [done|].
  by apply Forall_insert.
Qed.

Lemma placed_out {A} ids (src dst : list A) (k : nat) : (∀ i, i ∈ ids → num i ≠ k) → placed ids src dst !! k = dst !! k.
Proof.
  unfold placed. revert src dst. induction ids as [|i ids IH]; intros [|x src] dst H; simpl; try done. unfold placed in IH. rewrite IH by set_solver.
  apply list_lookup_insert_ne. apply H. left.
Qed.

Lemma placed_in {A} ids (src dst : list A) (k : nat) i x :
  NoDup ids → in_range dst ids → ids !! k = Some i → src !! k = Some x → placed ids src dst !! num i = Some x.
Proof.
  revert src dst k. induction ids as [|j ids IH]; intros [|y src] dst k Hnd Hr Hk Hx; try done.
  apply NoDup_cons in Hnd as [Hj Hnd]. apply Forall_cons in Hr as [Hjr Hr]. change (placed (j :: ids) (y :: src) dst) with (placed ids src (<[num j := y]> dst)).
  destruct k as [|k]; simpl in Hk, Hx.
  - injection Hk as ->. injection Hx as ->. rewrite placed_out.
    + apply list_lookup_insert_eq. unfold zlen in Hjr. lia.
    + intros i' Hi' E. apply Hj. replace i with i'; [done|]. apply (proj1 (Forall_forall _ _) Hr) in Hi'. lia.
  - apply (IH src _ k); try done. unfold in_range, zlen in *. by rewrite length_insert.
Qed.

(** An order of the heads: the place of every element is determined. *)
Definition is_order (n : nat) (order : list Z) : Prop := order ≡ₚ seqZ 0 (Z.of_nat n).

Lemma order_range {A} n order (l : list A) : is_order n order → length l = n → in_range l order.
Proof. intros Ho <-. unfold is_order in Ho. apply Forall_forall. intros i Hi. rewrite Ho in Hi. apply elem_of_seqZ in Hi. unfold zlen. lia. Qed.

Lemma order_length n order : is_order n order → length order = n.
Proof. intros Ho. rewrite (Permutation_length Ho), length_seqZ. lia. Qed.

Lemma order_nodup n order : is_order n order → NoDup order.
Proof. intros Ho. unfold is_order in Ho. rewrite Ho. apply NoDup_seqZ. Qed.

Lemma placed_order {A} n order (src dst x : list A) :
  is_order n order → length dst = n → length x = n → picked x order = src → placed order src dst = x.
Proof.
  intros Ho Hd Hx <-. apply list_eq. intros k. destruct (decide (k < n)%nat) as [Hk|Hk].
  - destruct (list_elem_of_lookup_1 order (Z.of_nat k)) as [j Hj]; [unfold is_order in Ho; rewrite Ho; apply elem_of_seqZ; lia|].
    destruct (lookup_lt_is_Some_2 x k) as [y Hy]; [lia|]. rewrite Hy. rewrite <- (Nat2Z.id k) at 1. apply (placed_in _ _ _ j).
    + by eapply order_nodup.
    + by eapply order_range.
    + done.
    + rewrite (picked_lookup _ _ _ (Z.of_nat k)) by (done || by eapply order_range). by rewrite Nat2Z.id.
  - rewrite !lookup_ge_None_2; [done|lia|]. rewrite length_placed. lia.
Qed.

Definition unpermuted {A} (order : list Z) (row : list A) : list A := placed order row row.

Lemma placed_unpermuted {A} n order (src dst : list A) :
  is_order n order → length dst = n → length src = n → placed order src dst = unpermuted order src ∧ picked (unpermuted order src) order = src.
Proof.
  intros Ho Hd Hs. assert (Hp : picked (unpermuted order src) order = src).
  { apply list_eq. intros k. destruct (order !! k) as [i|] eqn:Hk.
    - rewrite (picked_lookup _ _ _ i) by (done || (eapply order_range; [done|by unfold unpermuted; rewrite length_placed])).
      destruct (lookup_lt_is_Some_2 src k) as [y Hy]; [rewrite Hs, <- (order_length n order Ho); by eapply lookup_lt_Some|]. rewrite Hy. eapply placed_in; [by eapply order_nodup| |done..].
      by eapply order_range.
    - apply lookup_ge_None in Hk. rewrite (order_length n order Ho) in Hk. rewrite !lookup_ge_None_2; [done|lia|].
      rewrite (proj2 (index_select_ok _ _ (order_range n order (unpermuted order src) Ho ltac:(unfold unpermuted; by rewrite length_placed)))). by rewrite (order_length n order Ho). }
  split; [|done]. apply (placed_order n); try done. unfold unpermuted. by rewrite length_placed.
Qed.

Lemma unpermuted_picked {A} n order (x : list A) : is_order n order → length x = n → unpermuted order (picked x order) = x.
Proof.
  intros Ho Hx. apply (placed_order n); try done.
  rewrite (proj2 (index_select_ok _ _ (order_range n order x Ho Hx))). by eapply order_length.
Qed.

Lemma seqZ_order n : is_order n (seqZ 0 (Z.of_nat n)).
Proof. unfold is_order. reflexivity. Qed.

Lemma picked_identity {A} (x : list A) : picked x (seqZ 0 (Z.of_nat (length x))) = x.
Proof.
  pose proof (order_range _ _ x (seqZ_order (length x)) eq_refl) as Hr. pose proof (proj2 (index_select_ok x _ Hr)) as Hl. rewrite length_seqZ in Hl.
  apply list_eq. intros k. destruct (decide (k < length x)%nat) as [Hk|Hk].
  - rewrite (picked_lookup _ _ _ (Z.of_nat k)); [by rewrite Nat2Z.id|done|by apply lookup_seqZ_lt; lia].
  - rewrite !lookup_ge_None_2; [done|lia|lia].
Qed.
