(* ===== verification/RtPipelineThms.v ===== *)
(** * The compression pipeline against a specification without arenas

    What a layer part becomes on its way, as functions of the tokens of its
    blocks ([ordered], [forward], [requantized], [backward], [blocks_of]), and
    that each stage of the pipeline computes them inside the windows the
    layout gives it. *)

From S2P Require Import Prelude PyData RtConfig RtLayout Buffers RtPipeline RtPipelineOps.

#[global] Opaque chunk.

Section stages.
Context `{B : !Bf16, F : !FusedLaw} (P : CompressionPipeline) (chunk_blocks : Z).

#[local] Notation lay := (p_layout P).
#[local] Notation bpl := (blocks_per_logical P).
#[local] Notation H x := (num (num_heads x)).
#[local] Notation T x := (num (kernel_tokens P x)).
#[local] Notation D x := (num (part_head_size x)).

Definition order_of (x : LayerPartLayout) : list Z := default [] (dget (head_orders P) (layer_name x)).
Definition signs_of (x : LayerPartLayout) : token := default [] (dget (signs P) (key_of x)).

(** What the stages need to know of a layer part. *)
Record part_fits (x : LayerPartLayout) : Prop := {
  pf_bpl : 0 < bpl;
  pf_block : 0 < part_block_size x ∧ (bpl | part_block_size x);
  pf_heads : 0 < num_heads x;
  pf_size : 0 < part_head_size x;
  pf_bytes : raw_bytes x = chunk_blocks * part_block_size x * num_heads x * part_head_size x * 2;
  pf_raw : 0 ≤ raw_offset x ∧ raw_offset x + raw_bytes x ≤ scratch_stride lay ∧
           scratch_stride lay + raw_offset x + raw_bytes x ≤ u8_base lay ∧ u8_base lay ≤ arena_bytes lay;
  pf_order : dget (head_orders P) (layer_name x) = Some (order_of x) ∧ is_order (H x) (order_of x) ∧
             (layer_name x ∈ identity_orders P → order_of x = seqZ 0 (num_heads x));
  pf_signs : stage P "transformer" = true → is_pow2 (part_head_size x) = true ∧ dget (signs P) (key_of x) = Some (signs_of x) ∧ dims2 (H x) (D x) (signs_of x)
}.

Definition win_a (x : LayerPartLayout) : Z * Z := (off_a x, raw_bytes x).
Definition win_b (x : LayerPartLayout) : Z * Z := (off_b P x, raw_bytes x).

Lemma kernel_tokens_pos x : part_fits x → 0 < kernel_tokens P x ∧ kernel_tokens P x * bpl = part_block_size x.
Proof.
  intros [Hb [Hbs [q Hq]] _ _ _ _ _ _]. unfold kernel_tokens. rewrite Hq, Z.div_mul by lia. nia.
Qed.

Lemma raw_numel_nat x n : part_fits x → raw_numel P x (Z.of_nat n) = Z.of_nat (n * T x * (H x * D x)).
Proof. intros Hx. unfold raw_numel. pose proof (kernel_tokens_pos x Hx). destruct Hx. rewrite !Nat2Z.inj_mul, !Z2Nat.id by lia. ring. Qed.

(** A chunk fits the two scratch windows. *)
Lemma raw_fits x n :
  part_fits x → Z.of_nat n ≤ chunk_blocks * bpl →
  0 ≤ 2 * raw_numel P x (Z.of_nat n) ≤ raw_bytes x ∧ 0 ≤ off_a x ∧ off_a x + raw_bytes x ≤ off_b P x ∧ off_b P x + raw_bytes x ≤ u8_base lay ∧
  u8_base lay ≤ arena_bytes lay.
Proof.
  intros Hx Hn. pose proof (kernel_tokens_pos x Hx) as [Hk Hkb]. destruct Hx as [? ? ? ? Hbytes Hraw _ _]. unfold off_a, off_b. rewrite Hbytes in *.
  assert (Hle : Z.of_nat n * kernel_tokens P x ≤ chunk_blocks * part_block_size x) by nia. unfold raw_numel.
  assert (0 < num_heads x * part_head_size x) by nia. split; [|lia]. split; [|nia].
  apply Z.mul_nonneg_nonneg; [lia|]. repeat apply Z.mul_nonneg_nonneg; lia.
Qed.

Lemma zlen_rows x n (rows : list token) : part_fits x → dims3 (n * T x) (H x) (D x) rows → zlen (flat3 rows) = raw_numel P x (Z.of_nat n).
Proof. intros Hx Hr. unfold zlen. by rewrite (length_flat3 _ _ _ _ Hr), raw_numel_nat. Qed.

(** ** Gathering *)

Definition ordered (x : LayerPartLayout) (blocks : list block) : list token :=
  (λ row, picked row (order_of x)) <$> concat (transpose (T x) <$> blocks).

Lemma transposed_dims n h t d (blocks : list block) : dims4 n h t d blocks → dims4 n t h d (transpose t <$> blocks).
Proof. intros [<- Hb]. split; [by rewrite length_fmap|]. apply Forall_fmap. eapply Forall_impl; [exact Hb|]. intros b. apply dims3_transpose. Qed.

Lemma picked_dims n d order (row : token) : is_order n order → dims2 n d row → dims2 n d (picked row order).
Proof.
  intros Ho [Hr Hd]. split; [|by apply Forall_picked]. rewrite (proj2 (index_select_ok row order (order_range n order row Ho Hr))). by eapply order_length.
Qed.

Lemma ordered_dims x n blocks : part_fits x → dims4 n (H x) (T x) (D x) blocks → dims3 (n * T x) (H x) (D x) (ordered x blocks).
Proof.
  intros Hx Hb. destruct (dims_concat _ _ _ _ _ (transposed_dims _ _ _ _ _ Hb)) as [Hl Hf]. split; [by rewrite <- Hl; apply length_fmap|].
  apply Forall_fmap. eapply Forall_impl; [exact Hf|]. intros r Hr. apply picked_dims; [|done]. apply (pf_order x Hx).
Qed.

Lemma rmap_fmap {X Y} (f : X → result Y) g l : (∀ x, x ∈ l → f x = Ok (g x)) → rmap f l = Ok (g <$> l).
Proof. induction l as [|x l IH]; intros Hf; [done|]. cbn [rmap]. rewrite Hf by left. cbn [rbind]. rewrite IH by (intros; apply Hf; by right). done. Qed.

Lemma gather_spec C s x ids c :
  part_fits x → dget C (key_of x) = Some c → Forall (dims3 (H x) (T x) (D x)) c → in_range c ids → zlen ids ≤ chunk_blocks * bpl →
  zlen (arena_a s) = arena_bytes lay →
  ∃ a in_b, gather_rearrange P C s x ids = Ok (with_a a s, in_b) ∧ changes [win_a x; win_b x] (arena_a s) a ∧
    holds16 a (if in_b then off_b P x else off_a x) (flat3 (ordered x (picked c ids))) ∧ (stage P "transformer" = true → in_b = true).
Proof.
  intros Hx Hc Hdims Hr Hn Ha. destruct (index_select_ok c ids Hr) as [Hsel Hlen].
  assert (Hb : dims4 (length ids) (H x) (T x) (D x) (picked c ids)) by (split; [done|by apply Forall_picked]).
  pose proof (ordered_dims x _ _ Hx Hb) as Ho. pose proof (zlen_rows x _ _ Hx Ho) as Hz. destruct (raw_fits x (length ids) Hx Hn) as (Hfit & Hga & Hgb & Hgu & Hgt).
  destruct (pf_order x Hx) as (Hord & His & Hid). unfold gather_rearrange, cache_part. rewrite Hc. cbn [of_option rbind]. rewrite Hsel. cbn [rbind].
  case_bool_decide as Ei.
  - assert (Hflat : flat4 (transpose (T x) <$> picked c ids) = flat3 (ordered x (picked c ids))).
    { rewrite flat4_concat. f_equal. unfold ordered. rewrite (Hid Ei). symmetry. rewrite <- (list_fmap_id (concat _)) at 2. apply list_fmap_ext. intros i r Hi.
      destruct (dims_concat _ _ _ _ _ (transposed_dims _ _ _ _ _ Hb)) as [_ Hf]. apply (Forall_lookup_1 _ _ _ _ Hf) in Hi as [Hi _]. simpl.
      pose proof (pf_heads x Hx). replace (num_heads x) with (Z.of_nat (length r)) by lia. apply picked_identity. }
    rewrite Hflat. set (o := if stage P "transformer" then off_b P x else off_a x).
    destruct (write16_ok (arena_a s) o (flat3 (ordered x (picked c ids)))) as (a & -> & Hh & Hch); [unfold o; case_match; lia|rewrite Hz; unfold o; case_match; lia|].
    exists a, (stage P "transformer"). cbn [rbind]. split; [done|]. split; [|by split]. eapply changes_within; [|exact Hch].
    intros w ->%list_elem_of_singleton. right. simpl. rewrite Hz. unfold o. destruct (stage P "transformer"); [exists (win_b x)|exists (win_a x)]; simpl; split_and!; try lia; set_solver.
  - assert (Hzb : zlen (flat4 (picked c ids)) = raw_numel P x (Z.of_nat (length ids))).
    { unfold zlen. rewrite (length_flat4 _ _ _ _ _ Hb), raw_numel_nat by done. lia. }
    destruct (write16_ok (arena_a s) (off_a x) (flat4 (picked c ids))) as (a & -> & Hh & Hch); [lia..|]. cbn [rbind]. rewrite Hord. cbn [of_option rbind].
    rewrite (read16_holds a _ _ _ Hh) by done. cbn [rbind]. unfold scratch_of. unfold zlen at 1. rewrite Nat2Z.id, view4_flat4 by done.
    pose proof (transposed_dims _ _ _ _ _ Hb) as Ht.
    rewrite (rmap_fmap _ (λ b, (λ row, picked row (order_of x)) <$> b)).
    2:{ intros b Hin. apply rmap_fmap. intros row Hrow. apply index_select_ok. eapply order_range; [done|].
        destruct Ht as [_ Ht]. apply (proj1 (Forall_forall _ _) Ht) in Hin as [_ Hin]. apply (proj1 (Forall_forall _ _) Hin) in Hrow as [Hrow _]. done. }
    cbn [rbind]. rewrite flat4_concat. rewrite <- fmap_concat. fold (ordered x (picked c ids)).
    destruct (write16_ok a (off_b P x) (flat3 (ordered x (picked c ids)))) as (a2 & -> & Hh2 & Hch2); [lia|rewrite (changes_zlen _ _ _ Hch); lia|].
    exists a2, true. cbn [rbind]. split; [done|]. split; [|done]. eapply changes_within; [|exact (changes_trans _ _ _ _ _ Hch Hch2)].
    intros w [->%list_elem_of_singleton| ->%list_elem_of_singleton]%elem_of_app; right; [exists (win_a x)|exists (win_b x)]; simpl; split_and!; try lia; set_solver.
Qed.

(** ** The transform *)

Definition forward (x : LayerPartLayout) (rows : list token) : list token :=
  if stage P "transformer" then view3 (length rows) (H x) (D x) (fwht (part_head_size x) (flat3 (mul_signs (signs_of x) rows))) else rows.

Definition backward (x : LayerPartLayout) (rows : list token) : list token :=
  if stage P "transformer" then mul_signs (signs_of x) (view3 (length rows) (H x) (D x) (fwht (part_head_size x) (flat3 rows))) else rows.

Lemma mul_signs_dims n h d sg (rows : list token) : dims2 h d sg → dims3 n h d rows → dims3 n h d (mul_signs sg rows).
Proof.
  intros [Hs Hsd] [Hl Hf]. split; [by unfold mul_signs; rewrite length_fmap|]. apply Forall_fmap. eapply Forall_impl; [exact Hf|]. intros r [Hr Hrd]. simpl. split.
  - rewrite length_zip_with. lia.
  - apply Forall_forall. intros v Hv. apply list_elem_of_lookup in Hv as [k Hk]. apply lookup_zip_with_Some in Hk as (a & b & -> & Ha & Hb).
    apply (Forall_lookup_1 _ _ _ _ Hsd) in Ha. apply (Forall_lookup_1 _ _ _ _ Hrd) in Hb. simpl in *. rewrite length_zip_with. lia.
Qed.

Lemma fwht_flat x n (rows : list token) :
  part_fits x → stage P "transformer" = true → dims3 n (H x) (D x) rows →
  length (fwht (part_head_size x) (flat3 rows)) = length (flat3 rows) ∧ (D x | length (flat3 rows))%nat.
Proof.
  intros Hx Ht Hr. destruct (pf_signs x Hx Ht) as (Hp & _). rewrite (length_flat3 _ _ _ _ Hr).
  assert (Hdiv : (D x | n * (H x * D x))%nat) by (exists (n * H x)%nat; lia). split; [|done].
  rewrite length_fwht; rewrite ?(length_flat3 _ _ _ _ Hr); done.
Qed.

Lemma forward_dims x n rows : part_fits x → dims3 n (H x) (D x) rows → dims3 n (H x) (D x) (forward x rows).
Proof.
  intros Hx Hr. unfold forward. destruct (stage P "transformer") eqn:Ht; [|done]. destruct (pf_signs x Hx Ht) as (_ & _ & Hs).
  pose proof (mul_signs_dims _ _ _ _ _ Hs Hr) as Hm. destruct Hr as [Hl _]. rewrite Hl. apply flat3_view3. rewrite (proj1 (fwht_flat x n _ Hx Ht Hm)). by apply length_flat3.
Qed.

Lemma backward_dims x n rows : part_fits x → dims3 n (H x) (D x) rows → dims3 n (H x) (D x) (backward x rows).
Proof.
  intros Hx Hr. unfold backward. destruct (stage P "transformer") eqn:Ht; [|done]. destruct (pf_signs x Hx Ht) as (_ & _ & Hs).
  apply mul_signs_dims; [done|]. pose proof Hr as [Hl _]. rewrite Hl. apply flat3_view3. rewrite (proj1 (fwht_flat x n _ Hx Ht Hr)). by apply length_flat3.
Qed.

(** The rows of a view are the rows that were stored. *)
Lemma canonical_rows_of x n rows : part_fits x → dims3 (n * T x) (H x) (D x) rows → concat (canonical_of P x (Z.of_nat n) (flat3 rows)) = rows.
Proof.
  intros Hx Hr. pose proof (concat_chunk n (T x) rows ltac:(apply Hr)) as [E [El Ef]].
  assert (Hd : dims4 n (T x) (H x) (D x) (chunk n (T x) rows)).
  { split; [done|]. apply Forall_forall. intros b Hb. split; [by apply (proj1 (Forall_forall _ _) Ef)|]. destruct Hr as [_ Hr]. rewrite <- E in Hr. apply Forall_concat in Hr.
    by apply (proj1 (Forall_forall _ _) Hr). }
  unfold canonical_of. rewrite Nat2Z.id. rewrite <- E at 1. rewrite <- flat4_concat, view4_flat4 by done. exact E.
Qed.

Lemma transform_spec s x n rows (in_b : bool) :
  part_fits x → Z.of_nat n ≤ chunk_blocks * bpl → zlen (arena_a s) = arena_bytes lay → dims3 (n * T x) (H x) (D x) rows →
  holds16 (arena_a s) (if in_b then off_b P x else off_a x) (flat3 rows) → (stage P "transformer" = true → in_b = true) →
  ∃ a, transform_stage P s x (Z.of_nat n) in_b = Ok (with_a a s) ∧ changes [win_a x; win_b x] (arena_a s) a ∧ holds16 a (off_a x) (flat3 (forward x rows)).
Proof.
  intros Hx Hn Ha Hr Hh Hb. pose proof (zlen_rows x _ _ Hx Hr) as Hz. destruct (raw_fits x n Hx Hn) as (Hfit & Hga & Hgb & Hgu & Hgt). unfold transform_stage, forward.
  destruct (stage P "transformer") eqn:Ht.
  - rewrite (Hb eq_refl) in Hh. destruct (pf_signs x Hx Ht) as (Hp & Hsg & Hs). unfold hadamard_forward. rewrite Hsg. cbn [of_option rbind].
    rewrite (read16_holds _ _ _ _ Hh) by done. cbn [rbind]. rewrite canonical_rows_of by done.
    pose proof (mul_signs_dims _ _ _ _ _ Hs Hr) as Hm. pose proof (zlen_rows x _ _ Hx Hm) as Hzm.
    destruct (write16_ok (arena_a s) (off_b P x) (flat3 (mul_signs (signs_of x) rows))) as (a & -> & Hh2 & Hc2); [lia..|]. cbn [rbind].
    destruct (hadamard_transform_spec a (off_b P x) (off_a x) (raw_numel P x (Z.of_nat n)) (part_head_size x) (flat3 (mul_signs (signs_of x) rows)))
      as (a3 & -> & Hh3 & Hc3); [done|by apply (fwht_flat x (n * T x))|done|done|lia|lia|rewrite (changes_zlen _ _ _ Hc2); lia..|unfold apart; simpl; lia|].
    exists a3. cbn [rbind]. split; [done|]. split.
    + eapply changes_within; [|exact (changes_trans _ _ _ _ _ Hc2 Hc3)]. intros w [->%list_elem_of_singleton|Hw]%elem_of_app; right.
      * exists (win_b x). simpl. split; [set_solver|lia].
      * apply elem_of_cons in Hw as [->| ->%list_elem_of_singleton]; [exists (win_b x)|exists (win_a x)]; simpl; (split; [set_solver|lia]).
    + destruct (flat3_view3 (n * T x) (H x) (D x) (fwht (part_head_size x) (flat3 (mul_signs (signs_of x) rows)))) as [E _].
      { rewrite (proj1 (fwht_flat x _ _ Hx Ht Hm)). by apply length_flat3. }
      destruct Hr as [Hl _]. by rewrite Hl, E.
  - destruct in_b.
    + rewrite (read16_holds _ _ _ _ Hh) by done. cbn [rbind]. destruct (write16_ok (arena_a s) (off_a x) (flat3 rows)) as (a & -> & Hh2 & Hc2); [lia..|].
      exists a. cbn [rbind]. split; [done|]. split; [|done]. eapply changes_within; [|exact Hc2]. intros w ->%list_elem_of_singleton. right. exists (win_a x). simpl. split; [set_solver|lia].
    + exists (arena_a s). split; [by destruct s|]. split; [apply changes_refl|done].
Qed.

End stages.
