(* ===== verification/RtQuantThms.v ===== *)
(** * Quantization in the arenas

    A section of the heads is replaced without touching the others
    ([update_rows]); quantizing the sections of a part one after the other
    leaves, for each of them, the symbols of its own tokens, minima and scales;
    dequantizing them puts the parts side by side ([glue]). *)

From S2P Require Import Prelude PyData RtConfig RtLayout Buffers RtPipeline RtPipelineOps RtPipelineThms.

(** ** Replacing some columns *)

Section columns.
Context {X : Type}.
Implicit Types row new : list X.

Lemma narrow_length o c row : 0 ≤ o → 0 ≤ c → o + c ≤ zlen row → length (narrow o c row) = num c.
Proof. unfold narrow, zlen. intros. rewrite length_take, length_drop. lia. Qed.

Lemma widen_length o new row : 0 ≤ o → o + zlen new ≤ zlen row → length (widen o new row) = length row.
Proof. unfold widen, zlen. intros. rewrite !length_app, length_take, length_drop. lia. Qed.

Lemma widen_in o c new row : 0 ≤ o → zlen new = c → o + c ≤ zlen row → narrow o c (widen o new row) = new.
Proof.
  unfold narrow, widen, zlen. intros Ho Hc Hl. rewrite drop_app_length' by (rewrite length_take; lia). rewrite take_app_length' by lia. done.
Qed.

Lemma widen_out o new row o2 c2 :
  0 ≤ o → 0 ≤ o2 → 0 ≤ c2 → o + zlen new ≤ zlen row → o2 + c2 ≤ o ∨ o + zlen new ≤ o2 → narrow o2 c2 (widen o new row) = narrow o2 c2 row.
Proof.
  unfold narrow, widen, zlen. intros Ho Ho2 Hc2 Hl Hap. apply list_eq. intros k. destruct (decide (k < num c2)%nat) as [Hk|Hk].
  - rewrite !lookup_take_lt, !lookup_drop by done. destruct Hap as [Hap|Hap].
    + rewrite lookup_app_l by (rewrite length_take; lia). by rewrite lookup_take_lt by lia.
    + rewrite !lookup_app_r by (rewrite ?length_take; lia). rewrite lookup_drop, length_take. f_equal. lia.
  - rewrite !lookup_ge_None_2; [done|rewrite length_take; lia..].
Qed.

Lemma Forall_widen (Q : X → Prop) o new row : Forall Q new → Forall Q row → Forall Q (widen o new row).
Proof. intros Hn Hr. unfold widen. apply Forall_app_2; [by apply Forall_take|]. apply Forall_app_2; [done|by apply Forall_drop]. Qed.

End columns.

Section updates.
Context {X : Type} (n h d : nat) (o c : Z).
Implicit Types new rows : list (list (list X)).
Hypothesis Ho : 0 ≤ o.
Hypothesis Hc : 0 ≤ c.
Hypothesis Hh : o + c ≤ Z.of_nat h.

Lemma narrow_dims rows : dims3 n h d rows → dims3 n (num c) d (narrow o c <$> rows).
Proof.
  intros [Hl Hf]. split; [by rewrite length_fmap|]. apply Forall_fmap. eapply Forall_impl; [exact Hf|]. intros r [Hr Hd]. simpl.
  split; [apply narrow_length; unfold zlen; lia|]. unfold narrow. by apply Forall_take, Forall_drop.
Qed.

Lemma update_rows_ind (Q : list (list X) → list (list X) → list (list X) → Prop) new rows :
  dims3 n (num c) d new → dims3 n h d rows → (∀ a r, dims2 (num c) d a → dims2 h d r → Q a r (widen o a r)) →
  Forall2 (λ ar u, Q ar.1 ar.2 u) (zip new rows) (update_rows o new rows).
Proof.
  intros [Hn Hnf] [Hr Hrf] HQ. unfold update_rows. rewrite drop_ge, app_nil_r by lia. clear Hn Hr. revert rows Hrf.
  induction Hnf as [|a new Ha _ IH]; intros rows Hrf; [constructor|]. destruct Hrf as [|r rows Hrd Hrf]; constructor; [by apply HQ|by apply IH].
Qed.

Lemma update_dims new rows : dims3 n (num c) d new → dims3 n h d rows → dims3 n h d (update_rows o new rows).
Proof.
  intros Hn Hr. pose proof (update_rows_ind (λ _ _ u, dims2 h d u) new rows Hn Hr) as H. destruct Hn as [Hn _]. pose proof Hr as [Hrl _]. split.
  - unfold update_rows. rewrite drop_ge, app_nil_r, length_zip_with by lia. lia.
  - assert (HF : Forall2 (λ (_ : list (list X) * list (list X)) u, dims2 h d u) (zip new rows) (update_rows o new rows)).
    { apply H. intros a r [Ha Haf] [Hrr Hrf]. split; [rewrite widen_length; unfold zlen; lia|by apply Forall_widen]. }
    clear -HF. induction HF; by constructor.
Qed.

Lemma update_in new rows : dims3 n (num c) d new → dims3 n h d rows → narrow o c <$> update_rows o new rows = new.
Proof.
  intros Hn Hr. assert (HF : Forall2 (λ (ar : list (list X) * list (list X)) u, narrow o c u = ar.1) (zip new rows) (update_rows o new rows)).
  { apply (update_rows_ind (λ a _ u, narrow o c u = a)); [done..|]. intros a r [Ha _] [Hrr _]. apply widen_in; unfold zlen; lia. }
  rewrite <- (fst_zip new rows) at 2 by (destruct Hn, Hr; lia). clear -HF. induction HF as [|ar u l k E _ IH]; [done|]. csimpl. by rewrite E, IH.
Qed.

Lemma update_out new rows o2 c2 :
  dims3 n (num c) d new → dims3 n h d rows → 0 ≤ o2 → 0 ≤ c2 → o2 + c2 ≤ o ∨ o + c ≤ o2 →
  narrow o2 c2 <$> update_rows o new rows = narrow o2 c2 <$> rows.
Proof.
  intros Hn Hr Ho2 Hc2 Hap.
  assert (HF : Forall2 (λ (ar : list (list X) * list (list X)) u, narrow o2 c2 u = narrow o2 c2 ar.2) (zip new rows) (update_rows o new rows)).
  { apply (update_rows_ind (λ _ r u, narrow o2 c2 u = narrow o2 c2 r)); [done..|]. intros a r [Ha _] [Hrr _]. apply widen_out; unfold zlen; lia. }
  rewrite <- (snd_zip new rows) at 2 by (destruct Hn, Hr; lia). clear -HF. induction HF as [|ar u l k E _ IH]; [done|]. csimpl. by rewrite E, IH.
Qed.

End updates.

(** ** Sections side by side *)

Definition glue {X} (n : nat) (l : list (list (list X))) : list (list X) := foldr (zip_with app) (replicate n []) l.

Lemma narrow_split {X} (row : list X) lo c hi :
  0 ≤ lo → 0 ≤ c → lo + c ≤ hi → narrow lo (hi - lo) row = narrow lo c row ++ narrow (lo + c) (hi - (lo + c)) row.
Proof.
  intros. unfold narrow. rewrite <- (take_drop (num c) (take (num (hi - lo)) (drop (num lo) row))). rewrite take_take, skipn_firstn_comm, drop_drop. f_equal.
  - f_equal. lia.
  - f_equal; [lia|]. f_equal. lia.
Qed.

(** Tiled sections put side by side are the rows. *)
Lemma glue_tiled {X} (rows : list (list X)) lo l hi :
  0 ≤ lo → tiled lo l hi → glue (length rows) ((λ e, narrow e.1 e.2 <$> rows) <$> l) = narrow lo (hi - lo) <$> rows.
Proof.
  revert lo. induction l as [|[o c] l IH]; intros lo Hlo Ht; simpl in Ht.
  - subst hi. replace (lo - lo) with 0 by lia. cbn [fmap list_fmap glue foldr]. clear. induction rows as [|r rows IH]; [done|]. csimpl. f_equal. exact IH.
  - destruct Ht as (-> & Hc & Ht). csimpl. rewrite (IH (lo + c)) by (done || lia). pose proof (tiled_le _ _ _ Ht) as Hle. clear IH Ht.
    induction rows as [|r rows IH]; [done|]. csimpl. rewrite IH. f_equal. symmetry. by apply narrow_split; lia.
Qed.

Lemma narrow_all {X} (n h d : nat) (rows : list (list (list X))) : dims3 n h d rows → narrow 0 (Z.of_nat h) <$> rows = rows.
Proof.
  intros [_ Hf]. induction Hf as [|r rows [Hr _] _ IH]; [done|]. csimpl. rewrite IH. f_equal. unfold narrow. rewrite drop_0. apply take_ge. lia.
Qed.

(** ** One section *)

Section quantization.
Context `{B : !Bf16, F : !FusedLaw} (P : CompressionPipeline) (chunk_blocks : Z).

#[local] Notation lay := (p_layout P).
#[local] Notation H x := (num (num_heads x)).
#[local] Notation T x := (num (kernel_tokens P x)).
#[local] Notation D x := (num (part_head_size x)).

Definition section_of {X} (sec : QuantSection) (rows : list (list X)) : list (list X) := narrow (head_start sec) (head_count sec) <$> rows.

Definition minima (x : LayerPartLayout) (sec : QuantSection) (source : list token) : vec :=
  reduce (axis sec) bf_amin (head_count sec) (part_head_size x) source.

Definition scales (x : LayerPartLayout) (sec : QuantSection) (source : list token) : vec :=
  inverse_scales (num_levels sec) (reduce (axis sec) bf_amax (head_count sec) (part_head_size x) source) (minima x sec source).

Definition symbols (x : LayerPartLayout) (sec : QuantSection) (source : list token) : list token :=
  broadcast (axis sec) (part_head_size x) (to_symbol (num_levels sec)) source (minima x sec source) (bf_reciprocal <$> scales x sec source).

Definition decoded (x : LayerPartLayout) (sec : QuantSection) (source : list token) : list token :=
  broadcast (axis sec) (part_head_size x) of_symbol (u8_of (symbols x sec source)) (minima x sec source) (scales x sec source).

Definition half : Z := aux_arena_bytes lay / 2.

(** The parameters of a section have their own ranges in the lower half. *)
Record section_fits (x : LayerPartLayout) (sec : QuantSection) : Prop := {
  sf_heads : 0 ≤ head_start sec ∧ 0 < head_count sec ∧ head_start sec + head_count sec ≤ num_heads x;
  sf_aux : 0 ≤ aux_min_offset sec ∧ aux_min_offset sec + section_aux_bytes chunk_blocks x sec ≤ aux_scale_offset sec ∧
           aux_scale_offset sec + section_aux_bytes chunk_blocks x sec ≤ half ∧ half + half ≤ aux_arena_bytes lay
}.

Lemma reduce_length ax f heads size rows : 0 ≤ heads → 0 ≤ size → zlen (reduce ax f heads size rows) = aux_numel ax heads size (zlen rows).
Proof.
  intros Hh Hs. unfold zlen. destruct ax; simpl; [|by rewrite length_fmap|done].
  rewrite (length_bind_uniform _ _ (num size)); [rewrite length_seqZ; lia|]. intros j. by rewrite length_fmap, length_seqZ.
Qed.

Lemma aux_numel_fits x sec n :
  part_fits P chunk_blocks x → section_fits x sec → Z.of_nat n ≤ chunk_blocks * blocks_per_logical P →
  0 ≤ 2 * aux_numel (axis sec) (head_count sec) (part_head_size x) (Z.of_nat (n * T x)) ≤ section_aux_bytes chunk_blocks x sec.
Proof.
  intros Hx [Hh _] Hn. destruct (kernel_tokens_pos P _ x Hx) as [Hk Hkb]. pose proof (pf_size _ _ x Hx) as Hps. unfold section_aux_bytes.
  rewrite Nat2Z.inj_mul, Z2Nat.id by lia. destruct (axis sec); simpl; [nia| |lia].
  assert (Z.of_nat n * kernel_tokens P x ≤ chunk_blocks * part_block_size x) by nia. nia.
Qed.

Lemma inverse_scales_length levels M m : zlen M = zlen m → zlen (inverse_scales levels M m) = zlen m.
Proof. unfold inverse_scales, zlen. rewrite length_zip_with. lia. Qed.

Lemma zero_rest_all ws b0 b o n :
  changes ws b0 b → (∃ w, w ∈ ws ∧ w.1 ≤ o ∧ o + 2 * n ≤ w.1 + w.2) → 0 ≤ o → 0 ≤ n → o + 2 * n ≤ zlen b →
  ∃ b', zero_rest b o n n = Ok b' ∧ changes ws b0 b'.
Proof.
  intros Hc Hw Ho Hn Hb. unfold zero_rest. destruct (read16_any b o n Ho Hn Hb) as (l & -> & Hl & _). cbn [rbind].
  replace (n - n) with 0 by lia. simpl. rewrite app_nil_r, take_ge by (unfold zlen in Hl; lia).
  destruct (write16_in ws b0 b o l) as (b' & E & _ & _ & Hc'); rewrite ?Hl; try done. by exists b'.
Qed.

(** With the axis [token] the unused parameters are cleared first: none are. *)
Lemma token_rows_cleared buf x n sec (source : list token) N :
  0 < kernel_tokens P x → 0 ≤ aux_min_offset sec ∧ aux_min_offset sec + N ≤ aux_scale_offset sec ∧ aux_scale_offset sec + N ≤ half ∧ half + half ≤ aux_arena_bytes lay →
  zlen buf = aux_arena_bytes lay → length source = (n * T x)%nat → 2 * aux_numel (axis sec) (head_count sec) (part_head_size x) (zlen source) ≤ N →
  ∃ b, (if bool_decide (axis sec = Token) then
      let? buf := zero_rest buf (aux_min_offset sec) (Z.of_nat n * kernel_tokens P x) (zlen source) in
      zero_rest buf (aux_scale_offset sec) (Z.of_nat n * kernel_tokens P x) (zlen source) else Ok buf) = Ok b ∧
    changes [(aux_min_offset sec, N); (aux_scale_offset sec, N); (half, aux_arena_bytes lay - half)] buf b.
Proof.
  intros Hk Ha Hb Hlen HN. set (ws := [_; _; _]). case_bool_decide as Et; [|exists buf; split; [done|apply changes_refl]].
  assert (Hv : zlen source = Z.of_nat n * kernel_tokens P x) by (unfold zlen; rewrite Hlen; lia). rewrite Et in HN. simpl in HN. rewrite Hv in *.
  destruct (zero_rest_all ws buf buf (aux_min_offset sec) (Z.of_nat n * kernel_tokens P x)) as (b1 & -> & Hc1);
    [apply changes_refl|exists (aux_min_offset sec, N); simpl; split; [left|lia]|lia|nia|lia|]. cbn [rbind].
  apply (zero_rest_all ws buf b1); [done|exists (aux_scale_offset sec, N); simpl; split; [right; left|lia]|lia|nia|rewrite (changes_zlen _ _ _ Hc1); lia].
Qed.

Lemma section_parameters_spec buf x n sec source :
  part_fits P chunk_blocks x → section_fits x sec → Z.of_nat n ≤ chunk_blocks * blocks_per_logical P → zlen buf = aux_arena_bytes lay →
  length source = (n * T x)%nat →
  ∃ buf', section_parameters P buf x (Z.of_nat n) (zlen source) sec source = Ok buf' ∧
    changes [(aux_min_offset sec, section_aux_bytes chunk_blocks x sec); (aux_scale_offset sec, section_aux_bytes chunk_blocks x sec); (half, aux_arena_bytes lay - half)] buf buf' ∧
    holds16 buf' (aux_min_offset sec) (minima x sec source) ∧ holds16 buf' (aux_scale_offset sec) (scales x sec source) ∧
    holds16 buf' (temporary P (aux_scale_offset sec)) (bf_reciprocal <$> scales x sec source).
Proof.
  intros Hx Hs Hn Hb Hlen. pose proof (aux_numel_fits x sec n Hx Hs Hn) as Hna. destruct Hs as [Hh Ha]. pose proof (pf_size _ _ x Hx) as Hd.
  destruct (kernel_tokens_pos P _ x Hx) as [Hk Hkb]. unfold section_parameters.
  set (N := section_aux_bytes chunk_blocks x sec) in *. set (count := aux_numel (axis sec) (head_count sec) (part_head_size x) (zlen source)).
  assert (Hcount : 0 ≤ 2 * count ≤ N) by (unfold count, zlen; by rewrite Hlen).
  set (ws := [(aux_min_offset sec, N); (aux_scale_offset sec, N); (half, aux_arena_bytes lay - half)]).
  destruct (token_rows_cleared buf x n sec source N Hk Ha Hb Hlen ltac:(apply Hcount)) as (b0 & -> & Hc0). fold ws in Hc0.
  cbn [rbind]. pose proof (changes_zlen _ _ _ Hc0) as Hl0.
  assert (Hmin : zlen (minima x sec source) = count) by (apply reduce_length; lia).
  set (maxima := reduce (axis sec) bf_amax (head_count sec) (part_head_size x) source).
  assert (Hmax : zlen maxima = count) by (apply reduce_length; lia).
  assert (Hsc : zlen (scales x sec source) = count) by (unfold scales; rewrite inverse_scales_length; [done|by rewrite Hmin]).
  assert (Hinmin : ∃ w, w ∈ ws ∧ w.1 ≤ aux_min_offset sec ∧ aux_min_offset sec + 2 * count ≤ w.1 + w.2) by (exists (aux_min_offset sec, N); simpl; split; [left|lia]).
  assert (Hinsc : ∃ w, w ∈ ws ∧ w.1 ≤ aux_scale_offset sec ∧ aux_scale_offset sec + 2 * count ≤ w.1 + w.2) by (exists (aux_scale_offset sec, N); simpl; split; [right; left|lia]).
  assert (Hintmp : ∀ o, 0 ≤ o → o + 2 * count ≤ half → ∃ w, w ∈ ws ∧ w.1 ≤ temporary P o ∧ temporary P o + 2 * count ≤ w.1 + w.2).
  { intros o Ho Hoc. exists (half, aux_arena_bytes lay - half). unfold temporary. fold half. simpl. split; [by do 2 right; left|lia]. }
  assert (Htmp : ∀ o, temporary P o = o + half) by done.
  fold (minima x sec source). fold maxima. fold count.
  destruct (write16_in ws buf b0 (aux_min_offset sec) (minima x sec source)) as (b1 & -> & Hm1 & W1 & Hc1); [done|by rewrite Hmin|lia|lia|].
  cbn [rbind]. pose proof (changes_zlen _ _ _ Hc1) as Hl1.
  destruct (write16_in ws buf b1 (temporary P (aux_min_offset sec)) maxima) as (b2 & -> & Hx2 & W2 & Hc2); [done|rewrite Hmax; apply Hintmp; lia|rewrite Htmp; lia|rewrite Htmp; lia|].
  cbn [rbind]. pose proof (changes_zlen _ _ _ Hc2) as Hl2. pose proof (holds16_apart _ _ _ _ _ _ Hm1 W2 ltac:(unfold apart; simpl; rewrite Htmp; lia)) as Hm2.
  rewrite (read16_holds _ _ _ _ Hx2) by done. cbn [rbind].
  destruct (write16_in ws buf b2 (temporary P (aux_scale_offset sec)) maxima) as (b3 & -> & Hx3 & W3 & Hc3); [done|rewrite Hmax; apply Hintmp; lia|rewrite Htmp; lia|rewrite Htmp; lia|].
  cbn [rbind]. pose proof (changes_zlen _ _ _ Hc3) as Hl3. pose proof (holds16_apart _ _ _ _ _ _ Hm2 W3 ltac:(unfold apart; simpl; rewrite Htmp; lia)) as Hm3.
  rewrite (read16_holds _ _ _ _ Hm3) by done. cbn [rbind]. rewrite (read16_holds _ _ _ _ Hx3) by done. cbn [rbind]. fold (scales x sec source).
  change (inverse_scales (num_levels sec) maxima (minima x sec source)) with (scales x sec source).
  destruct (write16_in ws buf b3 (temporary P (aux_scale_offset sec)) (scales x sec source)) as (b4 & -> & Hs4 & W4 & Hc4); [done|rewrite Hsc; apply Hintmp; lia|rewrite Htmp; lia|rewrite Htmp; lia|].
  cbn [rbind]. pose proof (changes_zlen _ _ _ Hc4) as Hl4. pose proof (holds16_apart _ _ _ _ _ _ Hm3 W4 ltac:(unfold apart; simpl; rewrite Htmp; lia)) as Hm4.
  rewrite (read16_holds _ _ _ _ Hs4) by done. cbn [rbind].
  destruct (write16_in ws buf b4 (aux_scale_offset sec) (scales x sec source)) as (b5 & -> & Hs5 & W5 & Hc5); [done|by rewrite Hsc|lia|lia|].
  cbn [rbind]. pose proof (changes_zlen _ _ _ Hc5) as Hl5. pose proof (holds16_apart _ _ _ _ _ _ Hm4 W5 ltac:(unfold apart; simpl; lia)) as Hm5.
  assert (Hrc : zlen (bf_reciprocal <$> scales x sec source) = count) by (unfold zlen in *; rewrite length_fmap; done).
  destruct (write16_in ws buf b5 (temporary P (aux_scale_offset sec)) (bf_reciprocal <$> scales x sec source)) as (b6 & -> & Hr6 & W6 & Hc6);
    [done|rewrite Hrc; apply Hintmp; lia|rewrite Htmp; lia|rewrite Htmp, Hrc; lia|].
  exists b6. split; [done|]. split; [done|]. split; [|split; [|done]].
  - apply (holds16_apart _ _ _ _ _ _ Hm5 W6). unfold apart. simpl. rewrite Htmp. lia.
  - apply (holds16_apart _ _ _ _ _ _ Hs5 W6). unfold apart. simpl. rewrite Htmp. lia.
Qed.

(** ** The sections of a part *)

Lemma broadcast_dims {X Y} ax size (f : X → elem → elem → Y) a b c (rows : list (list (list X))) p q :
  dims3 a b c rows → dims3 a b c (broadcast ax size f rows p q).
Proof.
  intros [Hl Hf]. unfold broadcast. split; [by rewrite length_imap|]. apply Forall_lookup_2. intros i r' Hi. rewrite list_lookup_imap in Hi.
  destruct (rows !! i) as [r|] eqn:Er; [|done]. injection Hi as <-. apply (Forall_lookup_1 _ _ _ _ Hf) in Er as [Hr Hrd]. split; [by rewrite length_imap|].
  apply Forall_lookup_2. intros j h' Hj. rewrite list_lookup_imap in Hj. destruct (r !! j) as [v|] eqn:Ej; [|done]. injection Hj as <-.
  rewrite length_imap. by apply (Forall_lookup_1 _ _ _ _ Hrd) in Ej.
Qed.

Lemma u8_of_dims a b c rows : dims3 a b c rows → dims3 a b c (u8_of rows).
Proof.
  intros [Hl Hf]. unfold u8_of. split; [by rewrite length_fmap|]. apply Forall_fmap. eapply Forall_impl; [exact Hf|]. intros r [Hr Hrd]. simpl. split; [by rewrite length_fmap|].
  apply Forall_fmap. eapply Forall_impl; [exact Hrd|]. intros v Hv. simpl. by rewrite length_fmap.
Qed.

Lemma valid_rows_all {X} (rows : list X) : valid_rows rows (zlen rows) = rows.
Proof. unfold valid_rows. by rewrite Z.eqb_refl. Qed.

Lemma canonical_rows_holds s x n rows :
  part_fits P chunk_blocks x → dims3 (n * T x) (H x) (D x) rows → holds16 (arena_a s) (off_a x) (flat3 rows) → canonical_rows P s x (Z.of_nat n) = Ok rows.
Proof.
  intros Hx Hr Hh. unfold canonical_rows. rewrite (read16_holds _ _ _ _ Hh) by (symmetry; by eapply zlen_rows). cbn [rbind]. by erewrite canonical_rows_of.
Qed.

Lemma u8_zlen x n (rows : list (list (list Z))) :
  part_fits P chunk_blocks x → dims3 (n * T x) (H x) (D x) rows → zlen (flat3 rows) = raw_numel P x (Z.of_nat n).
Proof. intros Hx Hr. unfold zlen. by rewrite (length_flat3 _ _ _ _ Hr), (raw_numel_nat P chunk_blocks). Qed.

Lemma u8_view x n (rows : list (list (list Z))) :
  dims3 (n * T x) (H x) (D x) rows → concat (view4 n (T x) (H x) (D x) (flat3 rows)) = rows.
Proof.
  intros Hr. pose proof (concat_chunk n (T x) rows ltac:(apply Hr)) as [E [El Ef]].
  assert (Hd : dims4 n (T x) (H x) (D x) (chunk n (T x) rows)).
  { split; [done|]. apply Forall_forall. intros b Hb. split; [by apply (proj1 (Forall_forall _ _) Ef)|]. destruct Hr as [_ Hr]. rewrite <- E in Hr. apply Forall_concat in Hr.
    by apply (proj1 (Forall_forall _ _) Hr). }
  rewrite <- E at 1. rewrite <- flat4_concat, view4_flat4 by done. exact E.
Qed.

Lemma u8_rows_holds s x n rows :
  part_fits P chunk_blocks x → dims3 (n * T x) (H x) (D x) rows → holds (arena_b s) (u8_start P x) (flat3 rows) → u8_rows P s x (Z.of_nat n) = Ok rows.
Proof.
  intros Hx Hr Hh. unfold u8_rows. rewrite (read_holds _ _ _ _ Hh) by (symmetry; by eapply u8_zlen). cbn [rbind]. by rewrite Nat2Z.id, u8_view.
Qed.

(** What a section's turn leaves *)
Definition section_stored (x : LayerPartLayout) (sec : QuantSection) (rows : list token) (U : list (list (list Z))) (ax : list Z) : Prop :=
  section_of sec U = u8_of (symbols x sec (section_of sec rows)) ∧
  holds16 ax (aux_min_offset sec) (minima x sec (section_of sec rows)) ∧ holds16 ax (aux_scale_offset sec) (scales x sec (section_of sec rows)).

Lemma quantize_section_spec s x n sec rows R U :
  part_fits P chunk_blocks x → section_fits x sec → Z.of_nat n ≤ chunk_blocks * blocks_per_logical P →
  zlen (arena_a s) = arena_bytes lay → zlen (aux s) = aux_arena_bytes lay → u8_start P x + raw_numel P x (Z.of_nat n) ≤ zlen (arena_b s) → 0 ≤ u8_start P x →
  dims3 (n * T x) (H x) (D x) R → dims3 (n * T x) (H x) (D x) U → section_of sec R = section_of sec rows →
  holds16 (arena_a s) (off_a x) (flat3 R) → holds (arena_b s) (u8_start P x) (flat3 U) →
  let new := symbols x sec (section_of sec rows) in
  ∃ a b ax, quantize_section P x (Z.of_nat n) (Z.of_nat (n * T x)) s sec = Ok (mkSlot a b ax (block_indices s) (raw_tail s)) ∧
    changes [win_a x] (arena_a s) a ∧ changes [(u8_start P x, raw_numel P x (Z.of_nat n))] (arena_b s) b ∧
    changes [(aux_min_offset sec, section_aux_bytes chunk_blocks x sec); (aux_scale_offset sec, section_aux_bytes chunk_blocks x sec); (half, aux_arena_bytes lay - half)] (aux s) ax ∧
    holds16 a (off_a x) (flat3 (update_rows (head_start sec) new R)) ∧ holds b (u8_start P x) (flat3 (update_rows (head_start sec) (u8_of new) U)) ∧
    dims3 (n * T x) (H x) (D x) (update_rows (head_start sec) new R) ∧ dims3 (n * T x) (H x) (D x) (update_rows (head_start sec) (u8_of new) U) ∧
    section_stored x sec rows (update_rows (head_start sec) (u8_of new) U) ax.
Proof.
  intros Hx Hs Hn Ha Hax Hb Hb0 HR HU Hsec Hra Hrb new. pose proof (sf_heads _ _ Hs) as Hh. pose proof (pf_heads _ _ x Hx) as Hp.
  destruct (raw_fits P chunk_blocks x n Hx Hn) as (Hfit & Hga & Hgb & Hgu & Hgt).
  assert (Hsd : dims3 (n * T x) (num (head_count sec)) (D x) (section_of sec rows)) by (rewrite <- Hsec; apply (narrow_dims _ (H x)); lia || done).
  assert (Hnew : dims3 (n * T x) (num (head_count sec)) (D x) new) by (by apply broadcast_dims).
  pose proof (u8_of_dims _ _ _ _ Hnew) as Hnewu.
  assert (HR' : dims3 (n * T x) (H x) (D x) (update_rows (head_start sec) new R)) by (apply (update_dims _ _ _ _ (head_count sec)); lia || done).
  assert (HU' : dims3 (n * T x) (H x) (D x) (update_rows (head_start sec) (u8_of new) U)) by (apply (update_dims _ _ _ _ (head_count sec)); lia || done).
  assert (Hzl : zlen (section_of sec rows) = Z.of_nat (n * T x)) by (unfold zlen; f_equal; apply Hsd).
  unfold quantize_section. rewrite (canonical_rows_holds s x n R) by done. cbn [rbind].
  replace (valid_rows R (Z.of_nat (n * T x))) with R by (replace (Z.of_nat (n * T x)) with (zlen R) by (unfold zlen; f_equal; apply HR); by rewrite valid_rows_all).
  fold (section_of sec R). rewrite Hsec.
  destruct (section_parameters_spec (aux s) x n sec (section_of sec rows)) as (ax & Hpar & Hcx & Hm & Hsc & Hr); [done..|apply Hsd|].
  rewrite Hzl in Hpar. rewrite Hpar. cbn [rbind]. rewrite (read16_holds _ _ _ _ Hm) by (symmetry; apply reduce_length; lia || (pose proof (pf_size _ _ x Hx) as Hps; lia)). cbn [rbind].
  assert (Hrl : zlen (bf_reciprocal <$> scales x sec (section_of sec rows)) = aux_numel (axis sec) (head_count sec) (part_head_size x) (zlen (section_of sec rows))).
  { pose proof (pf_size _ _ x Hx) as Hps. unfold zlen at 1. rewrite length_fmap. fold (zlen (scales x sec (section_of sec rows))). unfold scales. rewrite inverse_scales_length; unfold minima; rewrite !reduce_length by lia; done. }
  rewrite (read16_holds _ _ _ _ Hr) by done. cbn [rbind]. fold (symbols x sec (section_of sec rows)). fold new.
  destruct (write16_ok (arena_a s) (off_a x) (flat3 (update_rows (head_start sec) new R))) as (a & -> & Hha & Hca);
    [lia|rewrite (zlen_rows P chunk_blocks x n) by done; lia|]. cbn [rbind]. rewrite (u8_rows_holds s x n U) by done. cbn [rbind].
  destruct (write_ok (arena_b s) (u8_start P x) (flat3 (update_rows (head_start sec) (u8_of new) U))) as (b & -> & Hhb & Hcb);
    [lia|rewrite (u8_zlen x n) by done; lia|]. cbn [rbind]. exists a, b, ax. split; [done|]. rewrite (zlen_rows P chunk_blocks x n) in Hca by done.
  rewrite (u8_zlen x n) in Hcb by done. split; [|split_and!; try done].
  - eapply changes_within; [|exact Hca]. intros w ->%list_elem_of_singleton. right. exists (win_a x). simpl. split; [set_solver|lia].
  - split; [|done]. apply (update_in (n * T x) (H x) (D x)); lia || done.
Qed.

Definition ranges (secs : list QuantSection) : list (Z * Z) := (λ sec, (head_start sec, head_count sec)) <$> secs.

(** The sections tile the heads from [lo] on and have their parameters in
    order between [alo] and [ahi]. *)
Record sections_fit (x : LayerPartLayout) (secs : list QuantSection) (lo alo ahi : Z) : Prop := {
  ss_heads : tiled lo (ranges secs) (num_heads x);
  ss_lo : 0 ≤ lo;
  ss_aux : packed alo (section_regions (section_aux_bytes chunk_blocks x) secs) ahi;
  ss_bounds : 0 ≤ alo ∧ ahi ≤ half ∧ half + half ≤ aux_arena_bytes lay
}.

Lemma sections_fit_cons x sec secs lo alo ahi :
  sections_fit x (sec :: secs) lo alo ahi →
  section_fits x sec ∧ head_start sec = lo ∧ alo ≤ aux_min_offset sec ∧
  sections_fit x secs (lo + head_count sec) (aux_scale_offset sec + section_aux_bytes chunk_blocks x sec) ahi ∧
  aux_scale_offset sec + section_aux_bytes chunk_blocks x sec ≤ ahi.
Proof.
  intros [Ht Hlo Hp Hb]. destruct Ht as (Hs & Hc & Ht). destruct Hp as (H1 & H2 & H3 & H4 & Hp). pose proof (tiled_le _ _ _ Ht). pose proof (packed_le _ _ _ Hp).
  split; [split; lia|]. split; [done|]. split; [done|]. split; [|done]. split; [done|lia|done|lia].
Qed.

Lemma stored_later x sec rows U U' ax ax' lo n :
  part_fits P chunk_blocks x → section_fits x sec → Z.of_nat n ≤ chunk_blocks * blocks_per_logical P → length rows = (n * T x)%nat →
  section_stored x sec rows U ax → (∀ o c, 0 ≤ o → 0 ≤ c → o + c ≤ lo → narrow o c <$> U' = narrow o c <$> U) → head_start sec + head_count sec ≤ lo →
  ∀ ws, changes ws ax ax' → (∀ w, w ∈ ws → aux_scale_offset sec + section_aux_bytes chunk_blocks x sec ≤ w.1) → section_stored x sec rows U' ax'.
Proof.
  intros Hx Hs Hn Hl (Hu & Hm & Hsc) HU Hlo ws Hc Hw. pose proof (aux_numel_fits x sec n Hx Hs Hn) as Hna. pose proof (pf_size _ _ x Hx) as Hps. destruct Hs as [Hh Ha].
  assert (Hz : zlen (section_of sec rows) = Z.of_nat (n * T x)) by (unfold zlen, section_of; by rewrite length_fmap, Hl).
  assert (Hzm : zlen (minima x sec (section_of sec rows)) = aux_numel (axis sec) (head_count sec) (part_head_size x) (Z.of_nat (n * T x))) by (unfold minima; rewrite reduce_length, Hz by lia; done).
  split; [unfold section_of; rewrite (HU _ _) by lia; exact Hu|]. split.
  - eapply holds_changes; [exact Hm|exact Hc|]. intros w Hin. specialize (Hw w Hin). left. rewrite zlen_bytes_of, Hzm. lia.
  - eapply holds_changes; [exact Hsc|exact Hc|]. intros w Hin. specialize (Hw w Hin). left. rewrite zlen_bytes_of. unfold scales.
    rewrite inverse_scales_length by (rewrite Hzm, reduce_length, Hz by lia; done). rewrite Hzm. lia.
Qed.

Lemma quantize_loop x n rows secs : ∀ lo alo ahi s R U,
  part_fits P chunk_blocks x → sections_fit x secs lo alo ahi → Z.of_nat n ≤ chunk_blocks * blocks_per_logical P → length rows = (n * T x)%nat →
  zlen (arena_a s) = arena_bytes lay → zlen (aux s) = aux_arena_bytes lay → u8_start P x + raw_numel P x (Z.of_nat n) ≤ zlen (arena_b s) → 0 ≤ u8_start P x →
  dims3 (n * T x) (H x) (D x) R → dims3 (n * T x) (H x) (D x) U → (∀ o c, lo ≤ o → 0 ≤ c → narrow o c <$> R = narrow o c <$> rows) →
  holds16 (arena_a s) (off_a x) (flat3 R) → holds (arena_b s) (u8_start P x) (flat3 U) →
  ∃ a b ax U', rfold (quantize_section P x (Z.of_nat n) (Z.of_nat (n * T x))) s secs = Ok (mkSlot a b ax (block_indices s) (raw_tail s)) ∧
    changes [win_a x] (arena_a s) a ∧ changes [(u8_start P x, raw_numel P x (Z.of_nat n))] (arena_b s) b ∧
    changes [(alo, ahi - alo); (half, aux_arena_bytes lay - half)] (aux s) ax ∧
    dims3 (n * T x) (H x) (D x) U' ∧ holds b (u8_start P x) (flat3 U') ∧ Forall (λ sec, section_stored x sec rows U' ax) secs ∧
    (∀ o c, 0 ≤ o → 0 ≤ c → o + c ≤ lo → narrow o c <$> U' = narrow o c <$> U).
Proof.
  induction secs as [|sec secs IH]; intros lo alo ahi s R U Hx Hss Hn Hl Ha Hax Hb Hb0 HR HU Heq Hra Hrb.
  - exists (arena_a s), (arena_b s), (aux s), U. split; [by destruct s|]. split_and!; try done; apply changes_refl.
  - destruct (sections_fit_cons _ _ _ _ _ _ Hss) as (Hs & Hst & Halo & Hss' & Hahi). pose proof (sf_heads _ _ Hs) as Hh. pose proof (sf_aux _ _ Hs) as Haux.
    assert (Hsec : section_of sec R = section_of sec rows) by (apply Heq; lia).
    destruct (quantize_section_spec s x n sec rows R U) as (a & b & ax & E & Hca & Hcb & Hcx & Hha & Hhb & HR' & HU' & Hst1); [done..|].
    cbn [rfold]. rewrite E. cbn [rbind]. set (s1 := mkSlot a b ax (block_indices s) (raw_tail s)). set (new := symbols x sec (section_of sec rows)) in *.
    assert (Hsd : dims3 (n * T x) (num (head_count sec)) (D x) (section_of sec rows)) by (rewrite <- Hsec; apply (narrow_dims _ (H x)); lia || done).
    assert (Hnew : dims3 (n * T x) (num (head_count sec)) (D x) new) by (by apply broadcast_dims). pose proof (u8_of_dims _ _ _ _ Hnew) as Hnewu.
    destruct (IH (lo + head_count sec) (aux_scale_offset sec + section_aux_bytes chunk_blocks x sec) ahi s1 (update_rows (head_start sec) new R) (update_rows (head_start sec) (u8_of new) U))
      as (a' & b' & ax' & U' & E' & Hca' & Hcb' & Hcx' & HdU & HhU & Hall & Hold); try done; simpl.
    { by rewrite (changes_zlen _ _ _ Hca). } { by rewrite (changes_zlen _ _ _ Hcx). } { by rewrite (changes_zlen _ _ _ Hcb). }
    { intros o c Ho Hc. rewrite (update_out (n * T x) (H x) (D x) (head_start sec) (head_count sec)); [apply Heq; lia|lia..|done|done|lia|lia|lia]. }
    exists a', b', ax', U'. split; [done|]. split; [by eapply changes_join|]. split; [by eapply changes_join|]. split; [|split; [done|split; [done|split]]].
    + assert (HA : 0 ≤ section_aux_bytes chunk_blocks x sec) by apply (ss_aux _ _ _ _ _ Hss). eapply changes_within; [|exact (changes_trans _ _ _ _ _ Hcx Hcx')]. simpl.
      intros w Hw. assert (Hin : w = (aux_min_offset sec, section_aux_bytes chunk_blocks x sec) ∨ w = (aux_scale_offset sec, section_aux_bytes chunk_blocks x sec) ∨
        w = (half, aux_arena_bytes lay - half) ∨ w = (aux_scale_offset sec + section_aux_bytes chunk_blocks x sec, ahi - (aux_scale_offset sec + section_aux_bytes chunk_blocks x sec))) by set_solver.
      destruct Hin as [->|[->|[->| ->]]]; right; [exists (alo, ahi - alo)|exists (alo, ahi - alo)|exists (half, aux_arena_bytes lay - half)|exists (alo, ahi - alo)]; simpl; (split; [set_solver|lia]).
    + constructor; [|done]. eapply (stored_later x sec rows _ U' ax ax'); try done; [lia|]. intros w Hw. destruct (ss_bounds _ _ _ _ _ Hss) as (? & ? & ?).
      apply elem_of_cons in Hw as [->| ->%list_elem_of_singleton]; simpl; lia.
    + intros o c Ho Hc Hoc. rewrite Hold by lia. apply (update_out (n * T x) (H x) (D x) (head_start sec) (head_count sec)); lia || done.
Qed.

(** Every section of the tokens, quantized and dequantized *)
Definition requantized (x : LayerPartLayout) (rows : list token) : list token :=
  glue (length rows) ((λ sec, decoded x sec (section_of sec rows)) <$> sections x).

Lemma dequantize_section_spec s x n sec rows R U :
  part_fits P chunk_blocks x → section_fits x sec → Z.of_nat n ≤ chunk_blocks * blocks_per_logical P → length rows = (n * T x)%nat →
  zlen (arena_a s) = arena_bytes lay → dims3 (n * T x) (H x) (D x) R → dims3 (n * T x) (H x) (D x) U →
  holds16 (arena_a s) (off_a x) (flat3 R) → holds (arena_b s) (u8_start P x) (flat3 U) → section_stored x sec rows U (aux s) →
  ∃ a, dequantize_section P x (Z.of_nat n) (Z.of_nat (n * T x)) s sec = Ok (with_a a s) ∧ changes [win_a x] (arena_a s) a ∧
    holds16 a (off_a x) (flat3 (update_rows (head_start sec) (decoded x sec (section_of sec rows)) R)) ∧
    dims3 (n * T x) (num (head_count sec)) (D x) (decoded x sec (section_of sec rows)).
Proof.
  intros Hx Hs Hn Hl Ha HR HU Hra Hrb (HsU & Hm & Hsc). destruct Hs as [Hh Haux]. pose proof (pf_size _ _ x Hx) as Hps. pose proof (pf_heads _ _ x Hx) as Hph.
  destruct (raw_fits P chunk_blocks x n Hx Hn) as (Hfit & Hga & Hgb & Hgu & Hgt).
  assert (Hz : zlen (section_of sec rows) = Z.of_nat (n * T x)) by (unfold zlen, section_of; by rewrite length_fmap, Hl).
  assert (HzU : zlen (section_of sec U) = Z.of_nat (n * T x)) by (unfold zlen, section_of; rewrite length_fmap; f_equal; apply HU).
  assert (Hd : dims3 (n * T x) (num (head_count sec)) (D x) (decoded x sec (section_of sec rows))).
  { apply broadcast_dims. rewrite <- HsU. apply (narrow_dims _ (H x)); lia || done. }
  assert (HR' : dims3 (n * T x) (H x) (D x) (update_rows (head_start sec) (decoded x sec (section_of sec rows)) R)) by (apply (update_dims _ _ _ _ (head_count sec)); lia || done).
  assert (Hzm : zlen (minima x sec (section_of sec rows)) = aux_numel (axis sec) (head_count sec) (part_head_size x) (Z.of_nat (n * T x))) by (unfold minima; rewrite reduce_length, Hz by lia; done).
  assert (Hzs : zlen (scales x sec (section_of sec rows)) = aux_numel (axis sec) (head_count sec) (part_head_size x) (Z.of_nat (n * T x))).
  { unfold scales. rewrite inverse_scales_length by (rewrite Hzm, reduce_length, Hz by lia; done). exact Hzm. }
  unfold dequantize_section. rewrite (u8_rows_holds s x n U) by done. cbn [rbind].
  replace (valid_rows U (Z.of_nat (n * T x))) with U by (replace (Z.of_nat (n * T x)) with (zlen U) by (unfold zlen; f_equal; apply HU); by rewrite valid_rows_all).
  fold (section_of sec U). rewrite HzU. rewrite (read16_holds _ _ _ _ Hm) by (by rewrite Hzm). cbn [rbind]. rewrite (read16_holds _ _ _ _ Hsc) by (by rewrite Hzs). cbn [rbind].
  rewrite (canonical_rows_holds s x n R) by done. cbn [rbind]. rewrite HsU. fold (decoded x sec (section_of sec rows)).
  destruct (write16_ok (arena_a s) (off_a x) (flat3 (update_rows (head_start sec) (decoded x sec (section_of sec rows)) R))) as (a & -> & Hha & Hca);
    [lia|rewrite (zlen_rows P chunk_blocks x n) by done; lia|]. exists a. cbn [rbind]. split; [done|]. split; [|done].
  rewrite (zlen_rows P chunk_blocks x n) in Hca by done. eapply changes_within; [|exact Hca]. intros w ->%list_elem_of_singleton. right. exists (win_a x). simpl. split; [set_solver|lia].
Qed.

Lemma dequantize_loop x n rows U secs : ∀ lo alo ahi s R,
  part_fits P chunk_blocks x → sections_fit x secs lo alo ahi → Z.of_nat n ≤ chunk_blocks * blocks_per_logical P → length rows = (n * T x)%nat →
  zlen (arena_a s) = arena_bytes lay → dims3 (n * T x) (H x) (D x) R → dims3 (n * T x) (H x) (D x) U →
  holds16 (arena_a s) (off_a x) (flat3 R) → holds (arena_b s) (u8_start P x) (flat3 U) → Forall (λ sec, section_stored x sec rows U (aux s)) secs →
  ∃ a R', rfold (dequantize_section P x (Z.of_nat n) (Z.of_nat (n * T x))) s secs = Ok (with_a a s) ∧ changes [win_a x] (arena_a s) a ∧
    dims3 (n * T x) (H x) (D x) R' ∧ holds16 a (off_a x) (flat3 R') ∧ Forall (λ sec, section_of sec R' = decoded x sec (section_of sec rows)) secs ∧
    (∀ o c, 0 ≤ o → 0 ≤ c → o + c ≤ lo → narrow o c <$> R' = narrow o c <$> R).
Proof.
  induction secs as [|sec secs IH]; intros lo alo ahi s R Hx Hss Hn Hl Ha HR HU Hra Hrb Hst.
  - exists (arena_a s), R. split; [by destruct s|]. by split_and!.
  - destruct (sections_fit_cons _ _ _ _ _ _ Hss) as (Hs & Hst0 & _ & Hss' & _). pose proof (sf_heads _ _ Hs) as Hh. apply Forall_cons in Hst as [Hst1 Hst].
    destruct (dequantize_section_spec s x n sec rows R U) as (a & E & Hca & Hha & Hd); [done..|]. cbn [rfold]. rewrite E. cbn [rbind].
    set (new := decoded x sec (section_of sec rows)) in *.
    destruct (IH (lo + head_count sec) _ _ (with_a a s) (update_rows (head_start sec) new R) Hx Hss') as (a' & R' & E' & Hca' & HdR & HhR & Hall & Hold); try done; simpl.
    { by rewrite (changes_zlen _ _ _ Hca). } { apply (update_dims _ _ _ _ (head_count sec)); lia || done. }
    exists a', R'. split; [done|]. split; [by eapply changes_join|]. split; [done|]. split; [done|]. split.
    + constructor; [|done]. unfold section_of at 1. rewrite Hold by lia. apply (update_in (n * T x) (H x) (D x)); lia || done.
    + intros o c Ho Hc Hoc. rewrite Hold by lia. apply (update_out (n * T x) (H x) (D x) (head_start sec) (head_count sec)); lia || done.
Qed.

(** All sections of a part *)
Lemma dequantize_spec s x n rows U alo ahi :
  part_fits P chunk_blocks x → sections_fit x (sections x) 0 alo ahi → Z.of_nat n ≤ chunk_blocks * blocks_per_logical P → length rows = (n * T x)%nat →
  zlen (arena_a s) = arena_bytes lay → dims3 (n * T x) (H x) (D x) U →
  holds (arena_b s) (u8_start P x) (flat3 U) → Forall (λ sec, section_stored x sec rows U (aux s)) (sections x) →
  ∃ a, dequantize P s x (Z.of_nat n) (Z.of_nat (n * T x)) = Ok (with_a a s) ∧ changes [win_a x] (arena_a s) a ∧
    holds16 a (off_a x) (flat3 (requantized x rows)) ∧ dims3 (n * T x) (H x) (D x) (requantized x rows).
Proof.
  intros Hx Hss Hn Hl Ha HU Hrb Hst. destruct (raw_fits P chunk_blocks x n Hx Hn) as (Hfit & Hga & Hgb & Hgu & Hgt).
  destruct (read16_any (arena_a s) (off_a x) (raw_numel P x (Z.of_nat n))) as (l & _ & Hll & Hhl); [lia..|].
  destruct (flat3_view3 (n * T x) (H x) (D x) l) as [El Hdl]; [rewrite (raw_numel_nat P chunk_blocks) in Hll by done; unfold zlen in Hll; lia|].
  destruct (dequantize_loop x n rows U (sections x) 0 alo ahi s (view3 (n * T x) (H x) (D x) l)) as (a & R & E & Hca & HdR & HhR & Hall & _); try done; [by rewrite El|].
  assert (ER : requantized x rows = R).
  { unfold requantized. rewrite <- (narrow_all _ _ _ _ HdR). pose proof (glue_tiled R 0 (ranges (sections x)) (num_heads x) ltac:(lia) (ss_heads _ _ _ _ _ Hss)) as Hg.
    pose proof (pf_heads _ _ x Hx) as Hph. rewrite Z2Nat.id by lia. replace (num_heads x - 0) with (num_heads x) in Hg by lia. rewrite <- Hg. f_equal; [rewrite Hl; symmetry; apply HdR|].
    unfold ranges. rewrite <- list_fmap_compose. apply list_fmap_ext. intros i sec Hi. by apply (Forall_lookup_1 _ _ _ _ Hall) in Hi. }
  exists a. rewrite ER. done.
Qed.

End quantization.
