(* ===== verification/RtBodyThms.v ===== *)
(** * A layer part through the pipeline and back

    The body of a part, its complete blocks, through all stages into the
    stream ([encode_body_spec]) and from the stream back into the cache
    ([decode_body_spec]); the tokens of an incomplete last block, which go
    uncompressed ([pack_raw_tail_spec], [apply_raw_tail_spec]). *)

From S2P Require Import Prelude PyData RtConfig RtLayout Buffers RtPipeline RtPipelineOps RtPipelineThms RtQuantThms.

Section body.
Context `{B : !Bf16, F : !FusedLaw} (P : CompressionPipeline) (chunk_blocks : Z).

#[local] Notation lay := (p_layout P).
#[local] Notation bpl := (blocks_per_logical P).
#[local] Notation H x := (num (num_heads x)).
#[local] Notation T x := (num (kernel_tokens P x)).
#[local] Notation D x := (num (part_head_size x)).

(** Where the body of a part is kept in the stream. *)
Definition window (x : LayerPartLayout) : Z * Z :=
  if quantized P then (u8_start P x, part_numel x) else (packed_start P x, raw_bytes x).

Definition body_stored (x : LayerPartLayout) (n : nat) (rows : list token) (b ax : list Z) : Prop :=
  if quantized P then
    ∃ U, dims3 (n * T x) (H x) (D x) U ∧ holds b (u8_start P x) (flat3 U) ∧ Forall (λ sec, section_stored x sec rows U ax) (sections x)
  else holds16 b (packed_start P x) (flat3 rows).

Record body_fits (x : LayerPartLayout) (alo ahi : Z) : Prop := {
  bf_part : part_fits P chunk_blocks x;
  bf_window : 0 ≤ (window x).1 ∧ (window x).1 + (window x).2 ≤ arena_bytes lay;
  bf_aux : if quantized P then sections_fit P chunk_blocks x (sections x) 0 alo ahi else alo ≤ ahi
}.

(** The windows of the aux buffer that a part may change *)
Definition aux_windows (alo ahi : Z) : list (Z * Z) := [(alo, ahi - alo); (half P, aux_arena_bytes lay - half P)].

Lemma part_numel_fits x n : part_fits P chunk_blocks x → Z.of_nat n ≤ chunk_blocks * bpl → raw_numel P x (Z.of_nat n) ≤ part_numel x ∧ raw_bytes x = 2 * part_numel x.
Proof.
  intros Hx Hn. destruct (raw_fits P chunk_blocks x n Hx Hn) as (Hfit & _). unfold part_numel. rewrite (pf_bytes _ _ x Hx) in *.
  rewrite Z.div_mul by lia. lia.
Qed.

Lemma store_spec s x n rows alo ahi :
  body_fits x alo ahi → Z.of_nat n ≤ chunk_blocks * bpl →
  zlen (arena_a s) = arena_bytes lay → zlen (arena_b s) = arena_bytes lay → zlen (aux s) = aux_arena_bytes lay →
  dims3 (n * T x) (H x) (D x) rows → holds16 (arena_a s) (off_a x) (flat3 rows) →
  ∃ a b ax, (if quantized P then quantize P s x (Z.of_nat n) (Z.of_nat (n * T x)) else pack_raw P s x (Z.of_nat n)) = Ok (mkSlot a b ax (block_indices s) (raw_tail s)) ∧
    changes [win_a x] (arena_a s) a ∧ changes [window x] (arena_b s) b ∧ changes (aux_windows alo ahi) (aux s) ax ∧ body_stored x n rows b ax.
Proof.
  intros [Hx Hw Haux] Hn Ha Hb Hax Hr Hh. destruct (part_numel_fits x n Hx Hn) as [Hpn Hrb]. pose proof (zlen_rows P chunk_blocks x n rows Hx Hr) as Hz.
  destruct (raw_fits P chunk_blocks x n Hx Hn) as (Hfit & _).
  unfold window, body_stored in *. destruct (quantized P); cbn [fst snd] in Hw.
  - assert (HU : ∃ U : list Z, zlen U = raw_numel P x (Z.of_nat n) ∧ holds (arena_b s) (u8_start P x) U).
    { assert (E : ∃ l, read (arena_b s) (u8_start P x) (raw_numel P x (Z.of_nat n)) = Ok l) by (unfold read; rewrite (proj2 (in_buffer_true _ _ _)) by lia; by eexists).
      destruct E as [l E]. apply read_Ok in E as [E1 E2]. by exists l. }
    destruct HU as (Ul & HUl & HUh). destruct (flat3_view3 (n * T x) (H x) (D x) Ul) as [EU HUd]; [rewrite (raw_numel_nat P chunk_blocks) in HUl by done; unfold zlen in HUl; lia|].
    destruct (quantize_loop P chunk_blocks x n rows (sections x) 0 alo ahi s rows (view3 (n * T x) (H x) (D x) Ul))
      as (a & b & ax & U & E & Hca & Hcb & Hcx & HdU & HhU & Hall & _); try done; [apply Hr|lia|lia|by rewrite EU|].
    exists a, b, ax. split; [exact E|]. split; [done|]. split; [|split; [exact Hcx|by exists U]].
    eapply changes_within; [|exact Hcb]. intros w ->%list_elem_of_singleton. right. eexists. split; [by left|]. simpl. lia.
  - unfold pack_raw. rewrite (read16_holds _ _ _ _ Hh) by done. cbn [rbind].
    destruct (write16_ok (arena_b s) (packed_start P x) (flat3 rows)) as (b & Hwr & Hhb & Hcb); [lia|rewrite Hz; lia|]. unfold write16 in Hwr. rewrite Hwr. cbn [rbind].
    exists (arena_a s), b, (aux s). split; [done|]. split; [apply changes_refl|]. split; [|split; [apply changes_refl|done]].
    eapply changes_within; [|exact Hcb]. intros w ->%list_elem_of_singleton. right. eexists. split; [by left|]. simpl. rewrite Hz. lia.
Qed.

(** What the stream holds of the blocks of a body *)
Definition sent (x : LayerPartLayout) (blocks : list block) : list token := forward P x (ordered P x blocks).

Lemma encode_body_spec C s x ids c alo ahi :
  body_fits x alo ahi → dget C (key_of x) = Some c → Forall (dims3 (H x) (T x) (D x)) c → in_range c ids → zlen ids ≤ chunk_blocks * bpl →
  zlen (arena_a s) = arena_bytes lay → zlen (arena_b s) = arena_bytes lay → zlen (aux s) = aux_arena_bytes lay →
  ∃ a b ax, encode_body P C s x ids (zlen ids * kernel_tokens P x) = Ok (mkSlot a b ax (block_indices s) (raw_tail s)) ∧
    changes [win_a x; win_b P x] (arena_a s) a ∧ changes [window x] (arena_b s) b ∧ changes (aux_windows alo ahi) (aux s) ax ∧
    body_stored x (length ids) (sent x (picked c ids)) b ax.
Proof.
  intros Hf Hc Hd Hr Hn Ha Hb Hax. pose proof (bf_part _ _ _ Hf) as Hx. destruct (kernel_tokens_pos P _ x Hx) as [Hk _].
  destruct (gather_spec P chunk_blocks C s x ids c) as (a1 & in_b & E1 & Hc1 & Hh1 & Ht); [done..|].
  assert (Hbd : dims4 (length ids) (H x) (T x) (D x) (picked c ids)) by (split; [by apply index_select_ok|by apply Forall_picked]).
  pose proof (ordered_dims P chunk_blocks x _ _ Hx Hbd) as Ho. unfold encode_body. rewrite E1. cbn [rbind].
  destruct (transform_spec P chunk_blocks (with_a a1 s) x (length ids) (ordered P x (picked c ids)) in_b) as (a2 & E2 & Hc2 & Hh2);
    [done|done|by simpl; rewrite (changes_zlen _ _ _ Hc1)|done..|].
  unfold zlen at 1. rewrite E2. cbn [rbind]. simpl in Hc2.
  destruct (store_spec (with_a a2 (with_a a1 s)) x (length ids) (sent x (picked c ids)) alo ahi) as (a & b & ax & E3 & Hc3 & Hcb & Hcx & Hst);
    [done|done|simpl; by rewrite (changes_zlen _ _ _ Hc2), (changes_zlen _ _ _ Hc1)|done|done|by eapply forward_dims|done|].
  replace (zlen ids * kernel_tokens P x) with (Z.of_nat (length ids * T x)) by (unfold zlen; lia). unfold zlen. rewrite E3.
  exists a, b, ax. split; [done|]. split; [|done]. simpl in Hc3. eapply changes_join; [exact Hc1|]. eapply changes_join; [exact Hc2|].
  eapply changes_within; [|exact Hc3]. intros w ->%list_elem_of_singleton. right. exists (win_a x). split; [by left|lia].
Qed.

(** ** Back *)

(** The blocks of a body from its ordered tokens *)
Definition blocks_of (x : LayerPartLayout) (n : nat) (rows : list token) : list block :=
  (λ b, transpose (H x) (unpermuted (order_of P x) <$> b)) <$> chunk n (T x) rows.

Lemma placed_rows x (src dst : list (list token)) n :
  part_fits P chunk_blocks x → dims4 n (T x) (H x) (D x) src → dims4 n (T x) (H x) (D x) dst →
  rmap (λ e, rmap (λ e, index_copy (order_of P x) e.1 e.2) (zip e.1 e.2)) (zip src dst) = Ok (fmap (M:=list) (fmap (M:=list) (unpermuted (order_of P x))) src).
Proof.
  intros Hx [Hs Hsf] [Hd Hdf]. destruct (pf_order _ _ x Hx) as (_ & Ho & _). set (g := unpermuted (order_of P x)).
  rewrite (rmap_fmap _ (λ e, g <$> e.1)).
  - f_equal. rewrite <- (fst_zip src dst) at 2 by lia. rewrite <- list_fmap_compose. done.
  - intros [b1 b2] Hin. pose proof Hin as Hin2. apply elem_of_zip_l, (proj1 (Forall_forall _ _) Hsf) in Hin as [Hb1 Hb1f]. apply elem_of_zip_r, (proj1 (Forall_forall _ _) Hdf) in Hin2 as [Hb2 Hb2f]. cbn [fst snd].
    rewrite (rmap_fmap _ (λ e, g e.1)).
    + f_equal. rewrite <- (fst_zip b1 b2) at 2 by lia. by rewrite <- list_fmap_compose.
    + intros [r1 r2] Hr. pose proof Hr as Hr2. apply elem_of_zip_l, (proj1 (Forall_forall _ _) Hb1f) in Hr as [Hr1 _]. apply elem_of_zip_r, (proj1 (Forall_forall _ _) Hb2f) in Hr2 as [Hr2 _]. cbn [fst snd].
      rewrite index_copy_ok by (by eapply order_range). f_equal. by eapply placed_unpermuted.
Qed.

Lemma unpermuted_dims n d order (row : token) : dims2 n d row → dims2 n d (unpermuted order row).
Proof. intros [Hr Hd]. unfold unpermuted. split; [by rewrite length_placed|by apply Forall_placed]. Qed.

Lemma blocks_dims x n rows : dims3 (n * T x) (H x) (D x) rows → dims4 n (T x) (H x) (D x) (chunk n (T x) rows) ∧ dims4 n (H x) (T x) (D x) (blocks_of x n rows).
Proof.
  intros Hr. pose proof (concat_chunk n (T x) rows ltac:(apply Hr)) as [E [El Ef]].
  assert (Hd : dims4 n (T x) (H x) (D x) (chunk n (T x) rows)).
  { split; [done|]. apply Forall_forall. intros b Hb. split; [by apply (proj1 (Forall_forall _ _) Ef)|]. destruct Hr as [_ Hr]. rewrite <- E in Hr. apply Forall_concat in Hr.
    by apply (proj1 (Forall_forall _ _) Hr). }
  split; [done|]. destruct Hd as [Hl Hf]. split; [by unfold blocks_of; rewrite length_fmap|]. unfold blocks_of. apply Forall_fmap. eapply Forall_impl; [exact Hf|].
  intros b [Hbl Hbf]. simpl. apply dims3_transpose. split; [by rewrite length_fmap|]. apply Forall_fmap. eapply Forall_impl; [exact Hbf|]. intros r. apply unpermuted_dims.
Qed.

Definition put_blocks (C : caches) (x : LayerPartLayout) (c : list block) (ids : list Z) (blocks : list block) : caches :=
  dset C (key_of x) (placed ids blocks c).

Lemma scatter_spec C x ids blocks c : dget C (key_of x) = Some c → in_range c ids → scatter_cache C x ids blocks = Ok (put_blocks C x c ids blocks).
Proof. intros Hc Hr. unfold scatter_cache, cache_part. rewrite Hc. cbn [of_option rbind]. by rewrite index_copy_ok. Qed.

Lemma inverse_transform_spec s x n rows :
  part_fits P chunk_blocks x → Z.of_nat n ≤ chunk_blocks * bpl → zlen (arena_a s) = arena_bytes lay → dims3 (n * T x) (H x) (D x) rows →
  holds16 (arena_a s) (off_a x) (flat3 rows) →
  ∃ a, (if stage P "transformer" then
               let? a := hadamard_transform (arena_a s) (off_a x) (off_b P x) (raw_numel P x (Z.of_nat n)) (part_head_size x) in
               let? sg := of_option KeyError (dget (signs P) (key_of x)) in
               let? b := read16 a (off_b P x) (raw_numel P x (Z.of_nat n)) in
               write16 a (off_b P x) (flat3 (mul_signs sg (concat (canonical_of P x (Z.of_nat n) b))))
             else
               let? l := read16 (arena_a s) (off_a x) (raw_numel P x (Z.of_nat n)) in
               write16 (arena_a s) (off_b P x) l) = Ok a ∧
    changes [win_a x; win_b P x] (arena_a s) a ∧ holds16 a (off_b P x) (flat3 (backward P x rows)).
Proof.
  intros Hx Hn Ha Hr Hh. pose proof (zlen_rows P chunk_blocks x n rows Hx Hr) as Hz. destruct (raw_fits P chunk_blocks x n Hx Hn) as (Hfit & Hga & Hgb & Hgu & Hgt). unfold backward.
  destruct (stage P "transformer") eqn:Ht.
  - destruct (pf_signs _ _ x Hx Ht) as (Hp & Hsg & Hs). destruct (fwht_flat P chunk_blocks x _ _ Hx Ht Hr) as [Hfl Hfd].
    destruct (hadamard_transform_spec (arena_a s) (off_a x) (off_b P x) (raw_numel P x (Z.of_nat n)) (part_head_size x) (flat3 rows))
      as (a1 & -> & Hh1 & Hc1); [done..|lia|lia|lia|unfold apart; simpl; lia|]. cbn [rbind]. rewrite Hsg. cbn [of_option rbind].
    rewrite (read16_holds _ _ _ _ Hh1) by (unfold zlen in *; rewrite Hfl; done). cbn [rbind].
    set (y := view3 (n * T x) (H x) (D x) (fwht (part_head_size x) (flat3 rows))).
    destruct (flat3_view3 (n * T x) (H x) (D x) (fwht (part_head_size x) (flat3 rows))) as [Ey Hy]; [rewrite Hfl; by apply length_flat3|]. fold y in Ey, Hy.
    rewrite <- Ey, (canonical_rows_of P chunk_blocks) by done. replace (length rows) with (n * T x)%nat by (symmetry; apply Hr). rewrite Ey. fold y.
    pose proof (mul_signs_dims _ _ _ _ _ Hs Hy) as Hm. pose proof (zlen_rows P chunk_blocks x n _ Hx Hm) as Hzm.
    destruct (write16_ok a1 (off_b P x) (flat3 (mul_signs (signs_of P x) y))) as (a2 & -> & Hh2 & Hc2); [lia|rewrite Hzm, (changes_zlen _ _ _ Hc1); lia|].
    exists a2. split; [done|]. split; [|done]. eapply changes_within; [|exact (changes_trans _ _ _ _ _ Hc1 Hc2)].
    intros w [Hw| ->%list_elem_of_singleton]%elem_of_app; right; [|exists (win_b P x); simpl; split; [set_solver|lia]].
    apply elem_of_cons in Hw as [->| ->%list_elem_of_singleton]; [exists (win_a x)|exists (win_b P x)]; simpl; (split; [set_solver|lia]).
  - rewrite (read16_holds _ _ _ _ Hh) by done. cbn [rbind]. destruct (write16_ok (arena_a s) (off_b P x) (flat3 rows)) as (a & -> & Hh2 & Hc2); [lia..|].
    exists a. split; [done|]. split; [|done]. eapply changes_within; [|exact Hc2]. intros w ->%list_elem_of_singleton. right. exists (win_b P x). simpl. split; [set_solver|lia].
Qed.

Lemma inverse_spec C s x ids c rows :
  part_fits P chunk_blocks x → dget C (key_of x) = Some c → in_range c ids → zlen ids ≤ chunk_blocks * bpl →
  zlen (arena_a s) = arena_bytes lay → dims3 (length ids * T x) (H x) (D x) rows → holds16 (arena_a s) (off_a x) (flat3 rows) →
  ∃ a, inverse_hadamard_scatter P C s x ids = Ok (put_blocks C x c ids (blocks_of x (length ids) (backward P x rows)), with_a a s) ∧ zlen a = arena_bytes lay.
Proof.
  intros Hx Hc Hr Hn Ha Hrows Hh. destruct (raw_fits P chunk_blocks x (length ids) Hx Hn) as (Hfit & Hga & Hgb & Hgu & Hgt).
  destruct (inverse_transform_spec s x (length ids) rows) as (a1 & E1 & Hc1 & Hh1); [done..|]. pose proof (changes_zlen _ _ _ Hc1) as Hl1.
  pose proof (backward_dims P chunk_blocks x _ _ Hx Hrows) as Hbd. destruct (pf_order _ _ x Hx) as (Hord & His & _). unfold inverse_hadamard_scatter.
  change (zlen ids) with (Z.of_nat (length ids)). rewrite E1. cbn [rbind]. rewrite Hord. cbn [of_option rbind].
  rewrite (read16_holds _ _ _ _ Hh1) by (symmetry; by eapply zlen_rows). cbn [rbind].
  destruct (read16_any a1 (off_a x) (raw_numel P x (Z.of_nat (length ids)))) as (l & -> & Hll & _); [lia..|]. cbn [rbind].
  destruct (blocks_dims x (length ids) (backward P x rows) Hbd) as [Hcd Hbl].
  assert (Hcan : canonical_of P x (Z.of_nat (length ids)) (flat3 (backward P x rows)) = chunk (length ids) (T x) (backward P x rows)).
  { unfold canonical_of. rewrite Nat2Z.id. rewrite <- (proj1 (concat_chunk (length ids) (T x) (backward P x rows) ltac:(apply Hbd))) at 1. rewrite <- flat4_concat. by apply view4_flat4. }
  rewrite Hcan. assert (Hdst : dims4 (length ids) (T x) (H x) (D x) (transpose (T x) <$> scratch_of P x (Z.of_nat (length ids)) l)).
  { apply transposed_dims. unfold scratch_of. rewrite Nat2Z.id. apply flat4_view4. rewrite (raw_numel_nat P chunk_blocks) in Hll by done. unfold zlen in Hll. lia. }
  rewrite (placed_rows x _ _ (length ids)) by done. cbn [rbind]. rewrite <- list_fmap_compose. change (transpose (H x) ∘ fmap (unpermuted (order_of P x)) <$> chunk (length ids) (T x) (backward P x rows)) with (blocks_of x (length ids) (backward P x rows)).
  assert (Hzb : zlen (flat4 (blocks_of x (length ids) (backward P x rows))) = raw_numel P x (Z.of_nat (length ids))).
  { unfold zlen. rewrite (length_flat4 _ _ _ _ _ Hbl), (raw_numel_nat P chunk_blocks) by done. lia. }
  destruct (write16_ok a1 (off_a x) (flat4 (blocks_of x (length ids) (backward P x rows)))) as (a2 & -> & _ & Hc2); [lia..|]. cbn [rbind].
  rewrite (scatter_spec C x ids _ c) by done. cbn [rbind]. exists a2. split; [done|]. rewrite (changes_zlen _ _ _ Hc2). lia.
Qed.

(** What the consumer makes of the blocks of a body *)
Definition returned (x : LayerPartLayout) (n : nat) (blocks : list block) : list block :=
  blocks_of x n (backward P x (if quantized P then requantized x (sent x blocks) else sent x blocks)).

Lemma decode_body_spec C s x ids c blocks alo ahi :
  body_fits x alo ahi → dget C (key_of x) = Some c → in_range c ids → zlen ids ≤ chunk_blocks * bpl →
  zlen (arena_a s) = arena_bytes lay → dims4 (length ids) (H x) (T x) (D x) blocks → body_stored x (length ids) (sent x blocks) (arena_b s) (aux s) →
  ∃ a, decode_body P C s x ids (zlen ids * kernel_tokens P x) = Ok (put_blocks C x c ids (returned x (length ids) blocks), with_a a s) ∧ zlen a = arena_bytes lay.
Proof.
  intros Hf Hc Hr Hn Ha Hb Hst. pose proof (bf_part _ _ _ Hf) as Hx. destruct (kernel_tokens_pos P _ x Hx) as [Hk _].
  destruct (raw_fits P chunk_blocks x (length ids) Hx Hn) as (Hfit & Hga & Hgb & Hgu & Hgt).
  assert (Hsd : dims3 (length ids * T x) (H x) (D x) (sent x blocks)) by (eapply forward_dims, ordered_dims; done).
  assert (Hload : ∃ a rows, (if quantized P then dequantize P s x (zlen ids) (zlen ids * kernel_tokens P x)
      else let? u := read (arena_b s) (packed_start P x) (2 * raw_numel P x (zlen ids)) in let? a := write (arena_a s) (off_a x) u in Ok (with_a a s)) = Ok (with_a a s) ∧
    zlen a = arena_bytes lay ∧ rows = (if quantized P then requantized x (sent x blocks) else sent x blocks) ∧ dims3 (length ids * T x) (H x) (D x) rows ∧ holds16 a (off_a x) (flat3 rows)).
  { unfold body_stored in Hst. pose proof (bf_aux _ _ _ Hf) as Hss. destruct (quantized P).
    - destruct Hst as (U & HU & HhU & Hall). destruct (dequantize_spec P chunk_blocks s x (length ids) (sent x blocks) U alo ahi) as (a & E & Hca & Hha & Hd); try done; [apply Hsd|].
      exists a. eexists. split; [replace (zlen ids * kernel_tokens P x) with (Z.of_nat (length ids * T x)) by (unfold zlen; lia); exact E|].
      split; [by rewrite (changes_zlen _ _ _ Hca)|]. split; [done|]. by split.
    - pose proof (zlen_rows P chunk_blocks x _ _ Hx Hsd) as Hz. rewrite (read_holds _ _ _ _ Hst) by (rewrite zlen_bytes_of, Hz; done). cbn [rbind].
      destruct (write16_ok (arena_a s) (off_a x) (flat3 (sent x blocks))) as (a & Hw & Hha & Hca); [lia|rewrite Hz; lia|]. unfold write16 in Hw. rewrite Hw.
      exists a. eexists. split; [done|]. split; [by rewrite (changes_zlen _ _ _ Hca)|]. split; [done|]. by split. }
  destruct Hload as (a & rows & E & Hla & Hrows & Hd & Hha). unfold decode_body. rewrite E. cbn [rbind].
  destruct (inverse_spec C (with_a a s) x ids c rows) as (a2 & E2 & Hl2); [done..|]. rewrite E2. exists a2. unfold returned. rewrite <- Hrows. done.
Qed.

End body.
