(* ===== verification/RtTailThms.v ===== *)
(** * Raw tails and whole chunks

    The tokens of an incomplete last block go as they are: what is packed is,
    per physical block, the tokens in use of every head, and what the consumer
    puts into its block is those tokens and zeros behind them. With the body of
    [RtBodyThms] this gives a chunk: the indices of all groups in their rows, the
    loops over the parts of a chunk on both sides, and the chunk as a whole. *)

From S2P Require Import Prelude PyData RtConfig RtLayout Buffers RtPipeline RtPipelineOps RtPipelineThms RtQuantThms RtBodyThms.

Lemma concat_replicate {A} n m (x : A) : concat (replicate n (replicate m x)) = replicate (n * m) x.
Proof. induction n as [|n IH]; [done|]. simpl. by rewrite IH, replicate_add. Qed.

Lemma flat3_replicate {A} a b c (x : A) : flat3 (replicate a (replicate b (replicate c x))) = replicate (a * (b * c)) x.
Proof. unfold flat3. rewrite fmap_replicate, concat_replicate. apply concat_replicate. Qed.

Lemma flat4_replicate {A} a b c d (x : A) : flat4 (replicate a (replicate b (replicate c (replicate d x)))) = replicate (a * (b * (c * d))) x.
Proof. unfold flat4. rewrite fmap_replicate, flat3_replicate. apply concat_replicate. Qed.

Lemma dims4_replicate {A} a b c d (x : A) : dims4 a b c d (replicate a (replicate b (replicate c (replicate d x)))).
Proof.
  split; [apply length_replicate|]. apply Forall_replicate. split; [apply length_replicate|]. apply Forall_replicate. split; [apply length_replicate|].
  apply Forall_replicate, length_replicate.
Qed.

Lemma insert_middle {A} (l : list A) x y r : <[length l := y]> (l ++ x :: r) = (l ++ [y]) ++ r.
Proof. rewrite insert_app_r_alt by lia. rewrite Nat.sub_diag. simpl. by rewrite <- app_assoc. Qed.

Section tails.
Context `{B : !Bf16, F : !FusedLaw} (P : CompressionPipeline) (chunk_blocks : Z).

#[local] Notation lay := (p_layout P).
#[local] Notation bpl := (blocks_per_logical P).
#[local] Notation H x := (num (num_heads x)).
#[local] Notation T x := (num (kernel_tokens P x)).
#[local] Notation D x := (num (part_head_size x)).

(** The numbers of the first [rem] tokens *)
Fixpoint tail_elems (x : LayerPartLayout) (blocks : list block) (rem : Z) : vec :=
  match blocks with
  | [] => []
  | b :: blocks =>
      let c := tail_count P x rem in
      if c <=? 0 then [] else flat3 ((take (num c) : list vec → list vec) <$> (b : list (list vec))) ++ tail_elems x blocks (rem - c)
  end.

Definition zero_token (x : LayerPartLayout) : vec := replicate (D x) (0, 0).

(** The tokens in use, and zeros *)
Fixpoint restored_tail (x : LayerPartLayout) (blocks : list block) (rem : Z) : list block :=
  match blocks with
  | [] => []
  | b :: blocks =>
      let c := tail_count P x rem in
      ((λ h : list vec, take (num c) h ++ replicate (T x - num c) (zero_token x)) <$> (b : list (list vec))) :: restored_tail x blocks (rem - Z.max 0 c)
  end.

Lemma take_dims x (b : block) c :
  part_fits P chunk_blocks x → dims3 (H x) (T x) (D x) b → 0 ≤ c ≤ kernel_tokens P x → dims3 (H x) (num c) (D x) ((take (num c) : list vec → list vec) <$> b).
Proof.
  intros Hx [Hl Hf] Hc. split; [by rewrite length_fmap|]. apply Forall_fmap. eapply Forall_impl; [exact Hf|]. intros h [Hh Hd]. simpl.
  split; [rewrite length_take; lia|by apply Forall_take].
Qed.

Lemma tail_elems_length x blocks rem :
  part_fits P chunk_blocks x → Forall (dims3 (H x) (T x) (D x)) blocks → 0 ≤ rem ≤ zlen blocks * kernel_tokens P x →
  zlen (tail_elems x blocks rem) = rem * num_heads x * part_head_size x.
Proof.
  intros Hx Hb. destruct (kernel_tokens_pos P _ x Hx) as [Hk _]. pose proof (pf_heads _ _ x Hx) as Hh. pose proof (pf_size _ _ x Hx) as Hd.
  revert rem. induction Hb as [|b blocks Hbd _ IH]; intros rem Hr.
  - unfold zlen in *. simpl in *. nia.
  - cbn [tail_elems]. unfold tail_count in *. case_bool; zbool.
    + assert (rem = 0) by lia. subst rem. unfold zlen. simpl. lia.
    + assert (Hc : 0 ≤ rem `min` kernel_tokens P x ≤ kernel_tokens P x) by lia. pose proof (take_dims x b _ Hx Hbd Hc) as Htd.
      unfold zlen at 1. rewrite length_app, Nat2Z.inj_add, (length_flat3 _ _ _ _ Htd). fold (zlen (tail_elems x blocks (rem - rem `min` kernel_tokens P x))).
      rewrite IH by (unfold zlen in *; simpl in *; nia). rewrite !Nat2Z.inj_mul, !Z2Nat.id by lia. ring.
Qed.

Lemma tail_elems_0 x blocks : part_fits P chunk_blocks x → tail_elems x blocks 0 = [].
Proof. intros Hx. destruct (kernel_tokens_pos P _ x Hx) as [Hk _]. destruct blocks; [done|]. cbn [tail_elems]. unfold tail_count. rewrite Z.min_l by lia. done. Qed.

Lemma pack_done x scratch offset ps buf so rem : rem ≤ 0 → rfold (pack_block P x scratch offset) (buf, so, rem) ps = Ok (buf, so, rem).
Proof.
  intros Hr. induction ps as [|p ps IH]; [done|]. cbn [rfold pack_block]. unfold tail_count. rewrite (proj2 (Z.leb_le _ 0)) by lia. exact IH.
Qed.

Lemma pack_blocks_loop x scratch offset blocks : ∀ p buf so rem,
  part_fits P chunk_blocks x → Forall (dims3 (H x) (T x) (D x)) scratch → drop p scratch = blocks → 0 ≤ offset + so → 0 ≤ rem ≤ zlen blocks * kernel_tokens P x →
  offset + so + 2 * zlen (tail_elems x blocks rem) ≤ zlen buf →
  ∃ buf' rem', rfold (pack_block P x scratch offset) (buf, so, rem) (seqZ (Z.of_nat p) (zlen blocks)) = Ok (buf', so + 2 * zlen (tail_elems x blocks rem), rem') ∧
    changes [(offset + so, 2 * zlen (tail_elems x blocks rem))] buf buf' ∧ holds16 buf' (offset + so) (tail_elems x blocks rem).
Proof.
  induction blocks as [|b blocks IH]; intros p buf so rem Hx Hs Hp Ho Hr Hb.
  - exists buf, rem. split; [simpl; unfold zlen; simpl; do 3 f_equal; lia|]. split; [apply changes_refl|by apply holds_nil].
  - assert (Hpb : scratch !! p = Some b) by (rewrite <- (Nat.add_0_r p), <- lookup_drop, Hp; done). pose proof (Forall_lookup_1 _ _ _ _ Hs Hpb) as Hbd.
    assert (Hseq : seqZ (Z.of_nat p) (zlen (b :: blocks)) = Z.of_nat p :: seqZ (Z.of_nat (S p)) (zlen blocks)) by (unfold zlen; simpl length; rewrite seqZ_cons by lia; f_equal; f_equal; lia).
    destruct (decide (rem ≤ 0)) as [Hle|Hgt].
    { exists buf, rem. rewrite pack_done by done. cbn [tail_elems] in *. rewrite (proj2 (Z.leb_le (tail_count P x rem) 0)) by (unfold tail_count; lia). split; [unfold zlen; simpl; do 3 f_equal; lia|].
      split; [apply changes_refl|by apply holds_nil]. }
    destruct (kernel_tokens_pos P _ x Hx) as [Hk _]. cbn [tail_elems] in *. rewrite Hseq. cbn [rfold pack_block]. set (c := tail_count P x rem) in *.
    assert (Hc : 0 < c ≤ kernel_tokens P x ∧ c ≤ rem) by (unfold c, tail_count; lia). rewrite (proj2 (Z.leb_gt c 0)) in * by lia.
    rewrite Nat2Z.id, (nth_lookup_Some _ _ _ _ Hpb). set (src := flat3 (take (num c) <$> b)) in *.
    assert (Hzl : zlen (src ++ tail_elems x blocks (rem - c)) = zlen src + zlen (tail_elems x blocks (rem - c))) by (unfold zlen; rewrite length_app; lia). rewrite Hzl in *.
    pose proof (zlen_nonneg src). pose proof (zlen_nonneg (tail_elems x blocks (rem - c))).
    destruct (write16_ok buf (offset + so) src) as (b1 & Hw & Hh1 & Hc1); [done|lia|]. rewrite Hw. cbn [rbind].
    destruct (IH (S p) b1 (so + 2 * zlen src) (rem - c)) as (b2 & rem' & E2 & Hc2 & Hh2); try done; [|lia| |rewrite (changes_zlen _ _ _ Hc1); lia|].
    + rewrite <- Nat.add_1_r, <- drop_drop, Hp. done.
    + unfold zlen in *. simpl in *. unfold c, tail_count in *. nia.
    + exists b2, rem'. rewrite E2. split; [do 3 f_equal; lia|]. split.
      * eapply changes_within; [|exact (changes_trans _ _ _ _ _ Hc1 Hc2)]. intros w [->%list_elem_of_singleton| ->%list_elem_of_singleton]%elem_of_app; right; (eexists; split; [by left|simpl; lia]).
      * unfold holds16. rewrite bytes_of_app. apply holds_app. rewrite zlen_bytes_of. split; [|replace (offset + so + 2 * zlen src) with (offset + (so + 2 * zlen src)) by lia; done].
        apply (holds16_apart _ _ _ _ _ _ Hh1 Hc2). unfold apart. simpl. lia.
Qed.

(** The bytes of a part's tail, and its place *)
Definition tail_bytes (x : LayerPartLayout) (valid : Z) : Z := 2 * ((valid mod part_block_size x) * num_heads x * part_head_size x).

Lemma tail_bounds x valid : part_fits P chunk_blocks x → 0 ≤ valid mod part_block_size x < bpl * kernel_tokens P x.
Proof. intros Hx. destruct (kernel_tokens_pos P _ x Hx) as [_ Hk]. pose proof (pf_block _ _ x Hx) as [Hb _]. pose proof (Z.mod_pos_bound valid (part_block_size x) Hb). lia. Qed.

Lemma tail_ids_length (ids : list Z) : 0 < bpl → bpl ≤ zlen ids → zlen (tail_ids P ids) = bpl.
Proof. intros H1 H2. unfold tail_ids, zlen in *. rewrite length_drop. lia. Qed.

Lemma tail_ids_range {X} (c : list X) ids : in_range c ids → in_range c (tail_ids P ids).
Proof. intros Hr. unfold tail_ids. by apply Forall_drop. Qed.

Lemma pack_raw_tail_spec C s x ids c valid offset t :
  part_fits P chunk_blocks x → 1 ≤ chunk_blocks → dget C (key_of x) = Some c → Forall (dims3 (H x) (T x) (D x)) c → in_range c ids → bpl ≤ zlen ids →
  zlen (arena_a s) = arena_bytes lay → raw_tail s = Some t → 0 ≤ offset → offset + tail_bytes x valid ≤ zlen t →
  ∃ a t', pack_raw_tail P C s x ids valid offset = Ok (mkSlot a (arena_b s) (aux s) (block_indices s) (Some t'), offset + tail_bytes x valid) ∧
    zlen a = arena_bytes lay ∧ changes [(offset, tail_bytes x valid)] t t' ∧
    holds16 t' offset (tail_elems x (picked c (tail_ids P ids)) (valid mod part_block_size x)).
Proof.
  intros Hx Hcb Hc Hd Hr Hids Ha Ht Ho Hb. pose proof (tail_bounds x valid Hx) as Htb. pose proof (pf_bpl _ _ x Hx) as Hbp. unfold pack_raw_tail.
  destruct (Z.eqb_spec (valid mod part_block_size x) 0) as [E0|Hne].
  - exists (arena_a s), t. unfold tail_bytes. rewrite E0, tail_elems_0 by done. split; [destruct s; simpl in *; subst; do 2 f_equal; lia|].
    split; [done|]. split; [apply changes_refl|by apply holds_nil].
  - set (tl := valid mod part_block_size x) in *. set (tids := tail_ids P ids). pose proof (tail_ids_length ids Hbp Hids) as Htl. fold tids in Htl.
    assert (Htr : in_range c tids) by (by apply tail_ids_range). destruct (index_select_ok c tids Htr) as [Hsel Hlen].
    rewrite Ht. cbn [of_option rbind]. unfold cache_part. rewrite Hc. cbn [of_option rbind]. fold tids. rewrite Hsel. cbn [rbind].
    set (blocks := picked c tids) in *. assert (Hzb : zlen blocks = bpl) by (unfold zlen in *; lia). rewrite Hzb, Z.eqb_refl. cbn [negb raise_if rbind].
    assert (Hbd : dims4 (num bpl) (H x) (T x) (D x) blocks) by (split; [unfold zlen in Hzb; lia|by apply Forall_picked]).
    destruct (raw_fits P chunk_blocks x (num bpl) Hx) as (Hfit & Hga & Hgb & Hgu & Hgt); [nia|].
    assert (Hzf : zlen (flat4 blocks) = raw_numel P x (Z.of_nat (num bpl))) by (unfold zlen; rewrite (length_flat4 _ _ _ _ _ Hbd), (raw_numel_nat P chunk_blocks) by done; lia).
    assert (Hbn : Z.of_nat (num bpl) = bpl) by lia. rewrite Hbn in *.
    destruct (write16_ok (arena_a s) (off_a x) (flat4 blocks)) as (a & -> & Hha & Hca); [lia..|]. cbn [rbind]. rewrite (read16_holds _ _ _ _ Hha) by done. cbn [rbind].
    replace (scratch_of P x bpl (flat4 blocks)) with blocks by (unfold scratch_of; by rewrite view4_flat4).
    assert (Hzt : zlen (tail_elems x blocks tl) = tl * num_heads x * part_head_size x) by (apply tail_elems_length; [done|apply Hbd|rewrite Hzb; lia]).
    destruct (pack_blocks_loop x blocks offset blocks 0 t 0 tl) as (t' & rem' & E & Hct & Hht); [done|apply Hbd|done|lia|rewrite Hzb; lia|unfold tail_bytes in Hb; fold tl in Hb; lia|].
    rewrite Hzb in E. change (Z.of_nat 0) with 0 in E. rewrite E. cbn [rbind]. rewrite Z.add_0_r in Hct, Hht.
    exists a, t'. unfold tail_bytes. fold tl. rewrite Hzt in *. split; [done|]. split; [by rewrite (changes_zlen _ _ _ Hca)|done].
Qed.

(** ** Back *)

Definition zero_block (x : LayerPartLayout) : block := replicate (H x) (replicate (T x) (zero_token x)).

Lemma restored_rest x blocks : part_fits P chunk_blocks x → Forall (dims3 (H x) (T x) (D x)) blocks →
  ∀ rem, rem ≤ 0 → restored_tail x blocks rem = replicate (length blocks) (zero_block x).
Proof.
  intros Hx. induction 1 as [|b blocks [Hb _] _ IH]; intros rem Hr; [done|]. cbn [restored_tail length replicate]. rewrite IH by (unfold tail_count; lia). f_equal.
  unfold zero_block. rewrite <- Hb. replace (num (tail_count P x rem)) with 0%nat by (unfold tail_count; lia). clear. simpl. rewrite Nat.sub_0_r.
  induction (b : list (list vec)) as [|h l IH]; [done|]. csimpl. by rewrite IH.
Qed.

Lemma merged_block x (b : block) c :
  dims3 (H x) (T x) (D x) b → 0 ≤ c ≤ kernel_tokens P x →
  zip_with (λ n o : list vec, n ++ drop (length n) o) ((take (num c) : list vec → list vec) <$> b) (zero_block x) =
  (λ h : list vec, take (num c) h ++ replicate (T x - num c) (zero_token x)) <$> b.
Proof.
  intros [Hl Hf] Hc. unfold zero_block. rewrite <- Hl. clear Hl. induction Hf as [|h b [Hh _] _ IH]; [done|]. csimpl. rewrite IH. f_equal. f_equal.
  rewrite length_take, drop_replicate. f_equal. lia.
Qed.

Lemma apply_loop x buf offset blocks : ∀ done so rem,
  part_fits P chunk_blocks x → Forall (dims3 (H x) (T x) (D x)) blocks → 0 ≤ rem ≤ zlen blocks * kernel_tokens P x →
  holds16 buf (offset + so) (tail_elems x blocks rem) →
  ∃ rem', rfold (apply_block P x buf offset) (done ++ replicate (length blocks) (zero_block x), so, rem) (seqZ (zlen done) (zlen blocks)) =
    Ok (done ++ restored_tail x blocks rem, so + 2 * zlen (tail_elems x blocks rem), rem').
Proof.
  induction blocks as [|b blocks IH]; intros dn so rem Hx Hb Hr Hh.
  - exists rem. simpl. unfold zlen. simpl. do 3 f_equal. lia.
  - pose proof Hb as Hb0. apply Forall_cons in Hb as [Hbd Hb]. destruct (kernel_tokens_pos P _ x Hx) as [Hk _]. pose proof (pf_heads _ _ x Hx) as Hph. pose proof (pf_size _ _ x Hx) as Hps.
    assert (Hseq : seqZ (zlen dn) (zlen (b :: blocks)) = zlen dn :: seqZ (zlen dn + 1) (zlen blocks)) by (unfold zlen; simpl length; rewrite seqZ_cons by lia; f_equal; f_equal; lia).
    destruct (decide (rem ≤ 0)) as [Hle|Hgt].
    { exists rem. rewrite (restored_rest x (b :: blocks)) by done. assert (Hdone : ∀ ps st, rfold (apply_block P x buf offset) (st, so, rem) ps = Ok (st, so, rem)).
      { intros ps st. induction ps as [|p ps IHp]; [done|]. cbn [rfold apply_block]. rewrite (proj2 (Z.leb_le (tail_count P x rem) 0)) by (unfold tail_count; lia). exact IHp. }
      rewrite Hdone. cbn [tail_elems]. rewrite (proj2 (Z.leb_le (tail_count P x rem) 0)) by (unfold tail_count; lia). unfold zlen. simpl. do 3 f_equal. lia. }
    rewrite Hseq. cbn [rfold apply_block tail_elems restored_tail length replicate] in *. set (c := tail_count P x rem) in *.
    assert (Hc : 0 < c ≤ kernel_tokens P x ∧ c ≤ rem) by (unfold c, tail_count; lia). rewrite (proj2 (Z.leb_gt c 0)) in * by lia.
    pose proof (take_dims x b c Hx Hbd ltac:(lia)) as Htd. set (src := (take (num c) : list vec → list vec) <$> b) in *.
    assert (Hzs : zlen (flat3 src) = num_heads x * c * part_head_size x) by (unfold zlen; rewrite (length_flat3 _ _ _ _ Htd), !Nat2Z.inj_mul, !Z2Nat.id by lia; ring).
    unfold holds16 in Hh. rewrite bytes_of_app in Hh. apply holds_app in Hh as [Hh1 Hh2]. rewrite zlen_bytes_of in Hh2.
    rewrite (read16_holds buf (offset + so) _ (flat3 src)) by done. cbn [rbind]. rewrite view3_flat3 by done.
    replace (num (zlen dn)) with (length dn) by (unfold zlen; lia). rewrite nth_middle, insert_middle.
    pose proof (merged_block x b c Hbd ltac:(lia)) as Hmb. fold src in Hmb. rewrite Hmb.
    destruct (IH (dn ++ [(λ h : list vec, take (num c) h ++ replicate (T x - num c) (zero_token x)) <$> b]) (so + 2 * zlen (flat3 src)) (rem - c)) as (rem' & E); try done.
    + unfold zlen in *. simpl in *. unfold c, tail_count in *. nia.
    + unfold holds16. replace (offset + (so + 2 * zlen (flat3 src))) with (offset + so + 2 * zlen (flat3 src)) by lia. exact Hh2.
    + exists rem'. rewrite Hzs in E. replace (zlen (dn ++ [_])) with (zlen dn + 1) in E by (unfold zlen; rewrite length_app; simpl; lia). fold (zlen dn). rewrite E.
      rewrite <- app_assoc. simpl. replace (Z.max 0 c) with c by lia.
      assert (Hza : zlen (flat3 src ++ tail_elems x blocks (rem - c)) = zlen (flat3 src) + zlen (tail_elems x blocks (rem - c))) by (unfold zlen; rewrite length_app; lia).
      rewrite Hza, <- Hzs. do 3 f_equal. lia.
Qed.

Lemma zero_scratch x n : scratch_of P x (Z.of_nat n) (replicate (n * (H x * (T x * D x))) (0, 0)) = replicate n (zero_block x).
Proof.
  unfold scratch_of, zero_block, zero_token. rewrite Nat2Z.id, <- flat4_replicate. apply view4_flat4, dims4_replicate.
Qed.

Lemma restored_dims x blocks : part_fits P chunk_blocks x → Forall (dims3 (H x) (T x) (D x)) blocks →
  ∀ rem, dims4 (length blocks) (H x) (T x) (D x) (restored_tail x blocks rem).
Proof.
  intros Hx. destruct (kernel_tokens_pos P _ x Hx) as [Hk _]. induction 1 as [|b blocks [Hb Hbf] _ IH]; intros rem; [by split|].
  destruct (IH (rem - Z.max 0 (tail_count P x rem))) as [Hl Hf]. cbn [restored_tail]. split; [simpl; by rewrite Hl|]. constructor; [|done]. split; [by rewrite length_fmap|].
  apply Forall_fmap. eapply Forall_impl; [exact Hbf|]. intros h [Hh Hd]. simpl. split.
  - rewrite length_app, length_take, length_replicate. unfold tail_count. lia.
  - apply Forall_app_2; [by apply Forall_take|]. apply Forall_replicate, length_replicate.
Qed.

(** The cache of a part after its tail *)
Definition put_tail (C : caches) (x : LayerPartLayout) (c : list block) (ids : list Z) (blocks : list block) (valid : Z) : caches :=
  if valid mod part_block_size x =? 0 then C else put_blocks C x c (tail_ids P ids) (restored_tail x blocks (valid mod part_block_size x)).

Lemma apply_raw_tail_spec C s x ids c valid offset t blocks :
  part_fits P chunk_blocks x → 1 ≤ chunk_blocks → dget C (key_of x) = Some c → in_range c ids → bpl ≤ zlen ids →
  zlen (arena_a s) = arena_bytes lay → raw_tail s = Some t → dims4 (num bpl) (H x) (T x) (D x) blocks →
  holds16 t offset (tail_elems x blocks (valid mod part_block_size x)) →
  ∃ a, apply_raw_tail P C s x ids valid offset = Ok (put_tail C x c ids blocks valid, with_a a s, offset + tail_bytes x valid) ∧ zlen a = arena_bytes lay.
Proof.
  intros Hx Hcb Hc Hr Hids Ha Ht Hbd Hh. pose proof (tail_bounds x valid Hx) as Htb. pose proof (pf_bpl _ _ x Hx) as Hbp. unfold apply_raw_tail, put_tail.
  destruct (Z.eqb_spec (valid mod part_block_size x) 0) as [E0|Hne].
  - exists (arena_a s). unfold tail_bytes. rewrite E0. split; [destruct s; simpl in *; do 2 f_equal; lia|done].
  - set (tl := valid mod part_block_size x) in *. rewrite Ht. cbn [of_option rbind]. destruct (kernel_tokens_pos P _ x Hx) as [Hk _].
    pose proof (pf_heads _ _ x Hx) as Hph. pose proof (pf_size _ _ x Hx) as Hps. destruct Hbd as [Hbl Hbf].
    assert (Hbn : bpl = Z.of_nat (length blocks)) by (unfold zlen in *; lia).
    replace (num (raw_numel P x bpl)) with (length blocks * (H x * (T x * D x)))%nat by (rewrite Hbn, (raw_numel_nat P chunk_blocks) by done; lia).
    rewrite Hbn, zero_scratch, <- Hbn.
    destruct (apply_loop x t offset blocks [] 0 tl) as (rem' & E); [done|done|unfold zlen; lia|by rewrite Z.add_0_r|].
    simpl app in E. change (zlen []) with 0 in E. replace (zlen blocks) with bpl in E by (unfold zlen; lia). rewrite E. cbn [rbind].
    pose proof (restored_dims x blocks Hx Hbf tl) as Hrd. destruct (raw_fits P chunk_blocks x (length blocks) Hx) as (Hfit & Hga & Hgb & Hgu & Hgt); [nia|].
    assert (Hzf : zlen (flat4 (restored_tail x blocks tl)) = raw_numel P x (Z.of_nat (length blocks))) by (unfold zlen; rewrite (length_flat4 _ _ _ _ _ Hrd), (raw_numel_nat P chunk_blocks) by done; lia).
    destruct (write16_ok (arena_a s) (off_a x) (flat4 (restored_tail x blocks tl))) as (a & -> & _ & Hca); [lia..|]. cbn [rbind].
    rewrite (scatter_spec C x _ _ c) by (try apply tail_ids_range; done). cbn [rbind].
    exists a. unfold tail_bytes. fold tl. rewrite tail_elems_length by (done || (unfold zlen; lia)). split; [do 3 f_equal; lia|]. by rewrite (changes_zlen _ _ _ Hca).
Qed.

End tails.

(** ** A chunk through the pipeline *)

Section chunk.
Context `{B : !Bf16, F : !FusedLaw} (P : CompressionPipeline) (chunk_blocks : Z).

#[local] Notation lay := (p_layout P).
#[local] Notation bpl := (blocks_per_logical P).
#[local] Notation H x := (num (num_heads x)).
#[local] Notation T x := (num (kernel_tokens P x)).
#[local] Notation D x := (num (part_head_size x)).

(** ** Indices *)

(** Rows that are different and large enough for the ids of their groups. *)
Record indices_fit (rows : list (list Z)) (ids : list (list Z)) : Prop := {
  if_inj g g' r : index_rows_by_group lay !! g = Some r → index_rows_by_group lay !! g' = Some r → g = g';
  if_rows g r l : index_rows_by_group lay !! g = Some r → ids !! num g = Some l → 0 ≤ g →
    0 ≤ r ∧ ∃ storage, rows !! num r = Some storage ∧ zlen (physical_ids P l) ≤ zlen storage
}.

Definition indexed (s : CompressionSlotBuffers) (ix : list (Z * (Z * Z))) (g : Z) (l : list Z) : Prop :=
  ∃ r storage, index_rows_by_group lay !! g = Some r ∧ 0 ≤ r ∧ dget ix g = Some (r, zlen (physical_ids P l)) ∧ block_indices s !! num r = Some storage ∧
    take (length (physical_ids P l)) storage = physical_ids P l.

Lemma index_tensor_spec s l r storage :
  0 ≤ r → block_indices s !! num r = Some storage → zlen (physical_ids P l) ≤ zlen storage →
  index_tensor P s l r = Ok (with_indices (<[num r := physical_ids P l ++ drop (length (physical_ids P l)) storage]> (block_indices s)) s).
Proof.
  intros Hr Hs Hl. unfold index_tensor. rewrite (py_index_nonneg _ _ Hr), Hs. cbn [rbind of_option]. by rewrite (proj2 (Z.ltb_ge _ _) Hl).
Qed.

Lemma fit_insert rows ids r l storage :
  indices_fit rows ids → 0 ≤ r → rows !! num r = Some storage → length l = length storage → indices_fit (<[num r := l]> rows) ids.
Proof.
  intros [Hi Hr] H0 Hs Hl. split; [exact Hi|]. intros g r' l' Hg Hl' Hg0. destruct (Hr g r' l' Hg Hl' Hg0) as (Hr0 & st & Hst & Hle). split; [done|].
  destruct (decide (num r = num r')) as [E|E].
  - rewrite <- E. rewrite list_lookup_insert_eq by (by eapply lookup_lt_Some). eexists. split; [done|]. rewrite <- E, Hs in Hst. injection Hst as <-. unfold zlen in *. lia.
  - rewrite list_lookup_insert_ne by done. eauto.
Qed.

Lemma indexed_later s ix g l r g' l' storage storage' :
  (∀ a b r, index_rows_by_group lay !! a = Some r → index_rows_by_group lay !! b = Some r → a = b) → g ≠ g' →
  index_rows_by_group lay !! g' = Some r → 0 ≤ r → block_indices s !! num r = Some storage →
  indexed s ix g l → indexed (with_indices (<[num r := storage']> (block_indices s)) s) (dset ix g' (r, zlen (physical_ids P l'))) g l.
Proof.
  intros Hinj Hne Hr' Hr0' Hs' (r0 & st & Hr & Hr0 & Hix & Hst & Ht). exists r0, st. split; [done|]. split; [done|]. split; [by rewrite dget_dset_ne|].
  split; [|done]. simpl. rewrite list_lookup_insert_ne; [done|]. intros E. apply Hne. apply (Hinj g g' r0 Hr). replace r0 with r by lia. done.
Qed.

Lemma group_indices_loop ids : ∀ l k s ix,
  drop k ids = l → indices_fit (block_indices s) ids →
  (∀ g l', (g < k)%nat → ids !! g = Some l' → l' ≠ [] → is_Some (index_rows_by_group lay !! Z.of_nat g) → indexed s ix (Z.of_nat g) l') →
  ∃ i ix', rfold (group_indices_step P) (s, ix) (zip (seqZ (Z.of_nat k) (zlen l)) l) = Ok (with_indices i s, ix') ∧
    ∀ g l', ids !! g = Some l' → l' ≠ [] → is_Some (index_rows_by_group lay !! Z.of_nat g) → indexed (with_indices i s) ix' (Z.of_nat g) l'.
Proof.
  induction l as [|x l IH]; intros k s ix Hd Hf Hdone.
  - exists (block_indices s), ix. split; [by destruct s|]. intros g l' Hg. replace (with_indices (block_indices s) s) with s by (by destruct s). apply Hdone; [|done].
    apply lookup_lt_Some in Hg. assert (length (drop k ids) = 0%nat) as Hz by (by rewrite Hd). rewrite length_drop in Hz. lia.
  - assert (Hx : ids !! k = Some x) by (rewrite <- (Nat.add_0_r k), <- lookup_drop, Hd; done).
    assert (Hd' : drop (S k) ids = l) by (rewrite <- Nat.add_1_r, <- drop_drop, Hd; done).
    replace (seqZ (Z.of_nat k) (zlen (x :: l))) with (Z.of_nat k :: seqZ (Z.of_nat (S k)) (zlen l)) by (unfold zlen; simpl length; rewrite (seqZ_cons (Z.of_nat k)) by lia; f_equal; f_equal; lia).
    cbn [zip zip_with rfold]. unfold group_indices_step at 1. cbn [fst snd].
    assert (Hskip : (x = [] ∨ index_rows_by_group lay !! Z.of_nat k = None) → ∃ i ix', rfold (group_indices_step P) (s, ix) (zip (seqZ (Z.of_nat (S k)) (zlen l)) l) = Ok (with_indices i s, ix') ∧
      ∀ g l', ids !! g = Some l' → l' ≠ [] → is_Some (index_rows_by_group lay !! Z.of_nat g) → indexed (with_indices i s) ix' (Z.of_nat g) l').
    { intros Hno. apply IH; [done|done|]. intros g l' Hg Hl Hne Hrow. destruct (decide (g = k)) as [->|]; [|apply Hdone; try done; lia].
      rewrite Hx in Hl. injection Hl as <-. destruct Hno as [->|Hno]; [done|]. rewrite Hno in Hrow. by destruct Hrow. }
    destruct x as [|a x]; [apply Hskip; by left|]. destruct (index_rows_by_group lay !! Z.of_nat k) as [r|] eqn:Er; [|apply Hskip; by right].
    clear Hskip. destruct (if_rows _ _ Hf (Z.of_nat k) r (a :: x) Er) as (Hr0 & storage & Hst & Hle); [by rewrite Nat2Z.id|lia|].
    set (y := a :: x) in *. rewrite (index_tensor_spec s y r storage) by done. cbn [rbind].
    set (new := physical_ids P y ++ drop (length (physical_ids P y)) storage).
    assert (Hnew : length new = length storage) by (unfold new, zlen in *; rewrite length_app, length_drop; lia).
    destruct (IH (S k) (with_indices (<[num r := new]> (block_indices s)) s) (dset ix (Z.of_nat k) (r, zlen (physical_ids P y)))) as (i & ix' & E & Hall);
      [done|by apply (fit_insert _ _ _ _ storage)| |].
    + intros g l' Hg Hl Hne Hrow. destruct (decide (g = k)) as [->|Hgk].
      * rewrite Hx in Hl. injection Hl as <-. exists r, new. split; [done|]. split; [done|]. split; [by rewrite dget_dset_eq|]. simpl.
        split; [apply list_lookup_insert_eq; by eapply lookup_lt_Some|]. unfold new. apply take_app_length.
      * apply (indexed_later s ix _ _ r _ _ storage); try done; [apply (if_inj _ _ Hf)|lia|]. apply Hdone; try done. lia.
    + exists i, ix'. split; [exact E|]. done.
Qed.

Lemma group_indices_spec s ids :
  indices_fit (block_indices s) ids →
  ∃ i ix, group_indices P s ids = Ok (with_indices i s, ix) ∧
    ∀ g l, 0 ≤ g → ids !! num g = Some l → l ≠ [] → is_Some (index_rows_by_group lay !! g) → indexed (with_indices i s) ix g l.
Proof.
  intros Hf. destruct (group_indices_loop ids ids 0 s []) as (i & ix & E & Hall); [done|done|lia|]. exists i, ix. split; [exact E|].
  intros g l Hg Hl Hne Hrow. replace g with (Z.of_nat (num g)) in * by lia. rewrite Nat2Z.id in Hl. by apply Hall.
Qed.

Lemma indices_of_spec s ix x l : indexed s ix (group_index x) l → indices_of s ix x = Ok (physical_ids P l).
Proof.
  intros (r & st & Hr & Hr0 & Hix & Hst & Ht). unfold indices_of. rewrite Hix. cbn [of_option rbind]. rewrite (py_index_nonneg _ _ Hr0), Hst. cbn [of_option rbind].
  f_equal. rewrite <- Ht at 2. f_equal. unfold zlen. lia.
Qed.

End chunk.
