(* ===== verification/RtLoopThms.v ===== *)
(** * The loops over the parts of a chunk

    One part encoded and decoded ([encode_part_spec], [decode_part_spec]), and
    all parts of a chunk one after the other: what a part has stored in the
    stream, in the parameters and in the raw tail is left alone by the parts
    after it ([encode_loop], [decode_loop]). *)

From S2P Require Import Prelude PyData RtConfig RtLayout Buffers RtPipeline RtPipelineOps RtPipelineThms RtQuantThms RtBodyThms RtTailThms.

Section loops.
Context `{B : !Bf16, F : !FusedLaw} (P : CompressionPipeline) (chunk_blocks : Z).

#[local] Notation lay := (p_layout P).
#[local] Notation bpl := (blocks_per_logical P).
#[local] Notation H x := (num (num_heads x)).
#[local] Notation T x := (num (kernel_tokens P x)).
#[local] Notation D x := (num (part_head_size x)).
#[local] Notation nbody x valid := (num (body_blocks P x valid)).

Definition mem_ok (s : CompressionSlotBuffers) : Prop :=
  zlen (arena_a s) = arena_bytes lay ∧ zlen (arena_b s) = arena_bytes lay ∧ zlen (aux s) = aux_arena_bytes lay.

(** The blocks of [valid] tokens *)
Definition block_count (x : LayerPartLayout) (valid : Z) : Z := (valid + part_block_size x - 1) / part_block_size x.

(** One side of a transfer of a part: its cache and its blocks *)
Record part_side (C : caches) (x : LayerPartLayout) (c : list block) (ids : list Z) (valid : Z) : Prop := {
  ps_cache : dget C (key_of x) = Some c;
  ps_dims : Forall (dims3 (H x) (T x) (D x)) c;
  ps_range : in_range c ids;
  ps_tokens : 0 < valid;
  ps_count : zlen ids = block_count x valid * bpl;
  ps_chunk : block_count x valid ≤ chunk_blocks
}.

Lemma body_numbers x c C ids valid :
  part_fits P chunk_blocks x → part_side C x c ids valid →
  0 ≤ body_blocks P x valid ∧ body_blocks P x valid ≤ zlen ids ∧ bpl ≤ zlen ids ∧ zlen ids ≤ chunk_blocks * bpl ∧ 1 ≤ chunk_blocks ∧
  body_tokens x valid = body_blocks P x valid * kernel_tokens P x ∧ 0 ≤ body_tokens x valid ∧ body_tokens x valid ≤ valid ∧
  (body_tokens x valid ≠ 0 → part_block_size x ≤ valid).
Proof.
  intros Hx [_ _ _ Hv Hc Hk]. destruct (kernel_tokens_pos P _ x Hx) as [Hkt Hkb]. pose proof (pf_bpl _ _ x Hx) as Hb. destruct (pf_block _ _ x Hx) as [Hbs _].
  unfold body_blocks, body_tokens, block_count in *. set (bs := part_block_size x) in *.
  pose proof (Z.div_mod valid bs ltac:(lia)) as Hd. pose proof (Z.mod_pos_bound valid bs Hbs) as Hm. set (q := valid / bs) in *. set (r := valid mod bs) in *.
  assert (Hq : (valid - r) / bs = q) by (rewrite Hd; replace (bs * q + r - r) with (q * bs) by lia; apply Z.div_mul; lia). rewrite Hq.
  assert (0 ≤ q) by (unfold q; apply Z.div_pos; lia).
  assert (Hle : q ≤ (valid + bs - 1) / bs) by (unfold q; apply Z.div_le_mono; lia).
  assert (H1 : 1 ≤ (valid + bs - 1) / bs) by (apply Z.div_le_lower_bound; lia).
  split_and!; try nia. intros Hne. assert (1 ≤ q) by nia. nia.
Qed.

Definition part_stored (x : LayerPartLayout) (valid : Z) (c : list block) (ids : list Z) (b ax t : list Z) (off : Z) : Prop :=
  (body_tokens x valid ≠ 0 → body_stored P x (nbody x valid) (sent P x (picked c (take (nbody x valid) ids))) b ax) ∧
  holds16 t off (tail_elems P x (picked c (tail_ids P ids)) (valid mod part_block_size x)).

Lemma body_side x c C ids valid :
  part_fits P chunk_blocks x → part_side C x c ids valid →
  let ids' := take (nbody x valid) ids in
  length ids' = nbody x valid ∧ zlen ids' = body_blocks P x valid ∧ in_range c ids' ∧ zlen ids' ≤ chunk_blocks * bpl ∧ body_tokens x valid = zlen ids' * kernel_tokens P x.
Proof.
  intros Hx Hs. destruct (body_numbers _ _ _ _ _ Hx Hs) as (H0 & H1 & H2 & H3 & H4 & H5 & _). simpl.
  assert (Hl : length (take (nbody x valid) ids) = nbody x valid) by (rewrite length_take; unfold zlen in *; lia).
  assert (Hz : zlen (take (nbody x valid) ids) = body_blocks P x valid) by (unfold zlen; rewrite Hl; lia).
  split_and!; [done|done|apply Forall_take, Hs|lia|lia].
Qed.

(** ** Encoding *)

Lemma encode_part_spec C tokens ix s off x c ids valid alo ahi t :
  body_fits P chunk_blocks x alo ahi → part_side C x c ids valid → tokens_of tokens (group_index x) = Ok valid → indices_of s ix x = Ok ids →
  mem_ok s → raw_tail s = Some t → 0 ≤ off → off + tail_bytes x valid ≤ zlen t →
  ∃ s' t', encode_part P C tokens ix (s, off) x = Ok (s', off + tail_bytes x valid) ∧ mem_ok s' ∧ block_indices s' = block_indices s ∧ raw_tail s' = Some t' ∧
    changes [window P x] (arena_b s) (arena_b s') ∧ changes (aux_windows P alo ahi) (aux s) (aux s') ∧ changes [(off, tail_bytes x valid)] t t' ∧
    part_stored x valid c ids (arena_b s') (aux s') t' off.
Proof.
  intros Hf Hs Hv Hix (Ha & Hb & Hax) Ht Hoff Hlen. pose proof (bf_part _ _ _ _ _ Hf) as Hx. destruct (body_numbers _ _ _ _ _ Hx Hs) as (H0 & H1 & H2 & H3 & H4 & _).
  destruct (body_side _ _ _ _ _ Hx Hs) as (Hl & Hz & Hr & Hn & Htk). unfold encode_part. rewrite Hv. cbn [rbind]. rewrite Hix. cbn [rbind].
  destruct (pack_raw_tail_spec P chunk_blocks C s x ids c valid off t) as (a & t' & -> & Hza & Hct & Hht); try done; [apply Hs..|]. cbn [rbind].
  case_bool; zbool.
  - exists (mkSlot a (arena_b s) (aux s) (block_indices s) (Some t')), t'. split; [done|]. split; [by split_and!|]. split; [done|]. split; [done|].
    split; [apply changes_refl|]. split; [apply changes_refl|]. split; [done|]. split; [done|exact Hht].
  - set (s1 := mkSlot a (arena_b s) (aux s) (block_indices s) (Some t')).
    destruct (encode_body_spec P chunk_blocks C s1 x (take (nbody x valid) ids) c alo ahi) as (a2 & b2 & ax2 & E & Hca & Hcb & Hcx & Hst); try done; [apply Hs..|].
    rewrite Htk, E. cbn [rbind]. exists (mkSlot a2 b2 ax2 (block_indices s) (Some t')), t'. split; [done|]. rewrite Hl in Hst.
    split; [split_and!; simpl; [by rewrite (changes_zlen _ _ _ Hca)|by rewrite (changes_zlen _ _ _ Hcb)|by rewrite (changes_zlen _ _ _ Hcx)]|].
    split; [done|]. split; [done|]. split; [done|]. split; [done|]. split; [done|]. split; [intros _; exact Hst|exact Hht].
Qed.

(** What a part has stored is in its windows. *)
Lemma sections_fit_each x secs : ∀ lo alo ahi,
  sections_fit P chunk_blocks x secs lo alo ahi →
  Forall (λ sec, section_fits P chunk_blocks x sec ∧ alo ≤ aux_min_offset sec ∧ aux_scale_offset sec + section_aux_bytes chunk_blocks x sec ≤ ahi) secs.
Proof.
  induction secs as [|sec secs IH]; intros lo alo ahi Hs; [constructor|]. destruct (sections_fit_cons _ _ _ _ _ _ _ _ Hs) as (Hf & _ & Hm & Hr & Hle).
  constructor; [by split|]. eapply Forall_impl; [by eapply IH|]. intros sec' (Hf' & H1 & H2). pose proof (sf_aux _ _ _ _ Hf). pose proof (sf_aux _ _ _ _ Hf').
  split_and!; try done. destruct (ss_aux _ _ _ _ _ _ _ Hs) as (? & ? & ? & _). lia.
Qed.

Lemma section_stored_same x sec n rows U ax ax' alo ahi :
  part_fits P chunk_blocks x → section_fits P chunk_blocks x sec → Z.of_nat n ≤ chunk_blocks * bpl → length rows = (n * T x)%nat →
  alo ≤ aux_min_offset sec → aux_scale_offset sec + section_aux_bytes chunk_blocks x sec ≤ ahi →
  section_stored x sec rows U ax → same_in (alo, ahi - alo) ax ax' → section_stored x sec rows U ax'.
Proof.
  intros Hx Hs Hn Hl Hlo Hhi (Hu & Hm & Hsc) He. pose proof (aux_numel_fits P chunk_blocks x sec n Hx Hs Hn) as Hna. pose proof (pf_size _ _ x Hx) as Hps. destruct Hs as [Hh Ha].
  assert (Hz : zlen (section_of sec rows) = Z.of_nat (n * T x)) by (unfold zlen, section_of; by rewrite length_fmap, Hl).
  assert (Hzm : zlen (minima x sec (section_of sec rows)) = aux_numel (axis sec) (head_count sec) (part_head_size x) (Z.of_nat (n * T x))) by (unfold minima; rewrite reduce_length, Hz by lia; done).
  split; [done|]. split; (eapply holds_same; [eassumption|exact He|simpl; lia|simpl; rewrite zlen_bytes_of]).
  - rewrite Hzm. lia.
  - unfold scales. rewrite inverse_scales_length by (rewrite Hzm, reduce_length, Hz by lia; done). rewrite Hzm. lia.
Qed.

Lemma body_stored_same x n rows b b' ax ax' alo ahi :
  body_fits P chunk_blocks x alo ahi → Z.of_nat n ≤ chunk_blocks * bpl → dims3 (n * T x) (H x) (D x) rows → body_stored P x n rows b ax →
  same_in (window P x) b b' → same_in (alo, ahi - alo) ax ax' → body_stored P x n rows b' ax'.
Proof.
  intros [Hx _ Hss] Hn Hd Hst Hb Hax. destruct (part_numel_fits P chunk_blocks x n Hx Hn) as [Hpn Hrb].
  unfold body_stored, window in *. destruct (quantized P).
  - destruct Hst as (U & HU & Hh & Hall). exists U. split; [done|]. split.
    + eapply holds_same; [exact Hh|exact Hb|done|]. simpl. unfold zlen. rewrite (length_flat3 _ _ _ _ HU). rewrite (raw_numel_nat P chunk_blocks) in Hpn by done. lia.
    + pose proof (sections_fit_each _ _ _ _ _ Hss) as Hse. apply Forall_forall. intros sec Hin. apply (proj1 (Forall_forall _ _) Hall) in Hin as Hsec.
      apply (proj1 (Forall_forall _ _) Hse) in Hin as (Hsf & Hlo & Hhi). eapply section_stored_same; try done. apply Hd.
  - eapply holds_same; [exact Hst|exact Hb|done|]. simpl. rewrite zlen_bytes_of, (zlen_rows P chunk_blocks x n) by done. lia.
Qed.

Lemma sent_dims x n blocks : part_fits P chunk_blocks x → dims4 n (H x) (T x) (D x) blocks → dims3 (n * T x) (H x) (D x) (sent P x blocks).
Proof. intros Hx Hb. unfold sent. apply (forward_dims P chunk_blocks); [done|]. by apply (ordered_dims P chunk_blocks). Qed.

Lemma tail_stored_bytes x c C ids valid :
  part_fits P chunk_blocks x → part_side C x c ids valid →
  2 * zlen (tail_elems P x (picked c (tail_ids P ids)) (valid mod part_block_size x)) = tail_bytes x valid.
Proof.
  intros Hx Hs. destruct (body_numbers _ _ _ _ _ Hx Hs) as (_ & _ & H2 & _). pose proof (pf_bpl _ _ x Hx). pose proof (tail_bounds P chunk_blocks x valid Hx).
  rewrite (tail_elems_length P chunk_blocks); [done|done|apply Forall_picked, Hs|].
  unfold zlen at 1. rewrite (proj2 (index_select_ok c _ (tail_ids_range P c ids (ps_range _ _ _ _ _ Hs)))). fold (zlen (tail_ids P ids)). rewrite tail_ids_length by lia. lia.
Qed.

Lemma part_stored_same x c C ids valid b b' ax ax' t t' off alo ahi :
  body_fits P chunk_blocks x alo ahi → part_side C x c ids valid → part_stored x valid c ids b ax t off →
  (body_tokens x valid ≠ 0 → same_in (window P x) b b' ∧ same_in (alo, ahi - alo) ax ax') → same_in (off, tail_bytes x valid) t t' →
  part_stored x valid c ids b' ax' t' off.
Proof.
  intros Hf Hs [Hb Ht] Hc Hct. pose proof (bf_part _ _ _ _ _ Hf) as Hx. destruct (body_side _ _ _ _ _ Hx Hs) as (Hl & Hz & Hr & Hn & _). split.
  - intros Hne. destruct (Hc Hne) as [Hcb Hcx]. eapply body_stored_same; [exact Hf| | |by apply Hb|exact Hcb|exact Hcx].
    + rewrite <- Hl. exact Hn.
    + apply sent_dims; [done|]. split; [rewrite (proj2 (index_select_ok _ _ Hr)); exact Hl|apply Forall_picked, Hs].
  - eapply holds_same; [exact Ht|exact Hct|done|]. simpl. rewrite zlen_bytes_of, (tail_stored_bytes _ _ _ _ _ Hx Hs). lia.
Qed.

(** ** All parts *)

Definition cache_of (C : caches) (x : LayerPartLayout) : list block := default [] (dget C (key_of x)).
Definition phys_of (ids : list (list Z)) (x : LayerPartLayout) : list Z := physical_ids P (default [] (ids !! num (group_index x))).
Definition valid_of (tokens : list (Z * Z)) (x : LayerPartLayout) : Z := token_count tokens (group_index x).

Definition side (C : caches) (ids : list (list Z)) (tokens : list (Z * Z)) (x : LayerPartLayout) : Prop :=
  part_side C x (cache_of C x) (phys_of ids x) (valid_of tokens x) ∧ tokens_of tokens (group_index x) = Ok (valid_of tokens x).

(** The parts have their windows one after the other. *)
Fixpoint parts_fit (wlo alo : Z) (l : list LayerPartLayout) (whi ahi : Z) : Prop :=
  match l with
  | [] => wlo ≤ whi ∧ alo ≤ ahi
  | x :: l => ∃ amid, body_fits P chunk_blocks x alo amid ∧ wlo ≤ (window P x).1 ∧ amid ≤ half P ∧ parts_fit ((window P x).1 + (window P x).2) amid l whi ahi
  end.

Lemma body_fits_order x alo ahi : 1 ≤ chunk_blocks → body_fits P chunk_blocks x alo ahi → alo ≤ ahi ∧ 0 ≤ (window P x).2.
Proof.
  intros Hcb [Hx Hw Hss]. pose proof (pf_bpl _ _ x Hx). split.
  - destruct (quantized P); [|done]. eapply packed_le, Hss.
  - destruct (part_numel_fits P chunk_blocks x 0 Hx) as [H1 H2]; [nia|]. rewrite (raw_numel_nat P chunk_blocks) in H1 by done. unfold window. destruct (quantized P); simpl in *; lia.
Qed.

Lemma parts_fit_order l : ∀ wlo alo whi ahi, 1 ≤ chunk_blocks → parts_fit wlo alo l whi ahi → wlo ≤ whi ∧ alo ≤ ahi.
Proof.
  induction l as [|x l IH]; intros wlo alo whi ahi Hcb; [done|]. intros (amid & Hf & Hw & _ & Hp). destruct (body_fits_order x alo amid Hcb Hf). destruct (IH _ _ _ _ Hcb Hp). lia.
Qed.

(** The raw tails of the parts follow one another. *)
Definition tails (tokens : list (Z * Z)) (l : list LayerPartLayout) : Z := sumZ ((λ x, tail_bytes x (valid_of tokens x)) <$> l).

Fixpoint all_stored (C : caches) (ids : list (list Z)) (tokens : list (Z * Z)) (b ax t : list Z) (off : Z) (l : list LayerPartLayout) : Prop :=
  match l with
  | [] => True
  | x :: l => part_stored x (valid_of tokens x) (cache_of C x) (phys_of ids x) b ax t off ∧ all_stored C ids tokens b ax t (off + tail_bytes x (valid_of tokens x)) l
  end.

Lemma tail_bytes_nonneg x valid : part_fits P chunk_blocks x → 0 ≤ tail_bytes x valid.
Proof.
  intros Hx. pose proof (tail_bounds P chunk_blocks x valid Hx). pose proof (pf_heads _ _ x Hx). pose proof (pf_size _ _ x Hx). unfold tail_bytes.
  apply Z.mul_nonneg_nonneg; [lia|]. repeat apply Z.mul_nonneg_nonneg; lia.
Qed.

Lemma tails_nonneg tokens l : ∀ wlo alo whi ahi, parts_fit wlo alo l whi ahi → 0 ≤ tails tokens l.
Proof.
  induction l as [|x l IH]; intros wlo alo whi ahi; [done|]. intros (amid & Hf & _ & _ & Hp). unfold tails. csimpl.
  pose proof (tail_bytes_nonneg x (valid_of tokens x) (bf_part _ _ _ _ _ Hf)). pose proof (IH _ _ _ _ Hp) as Hl. unfold tails in Hl. lia.
Qed.

Lemma indices_of_same s s' ix x : block_indices s' = block_indices s → indices_of s' ix x = indices_of s ix x.
Proof. intros E. unfold indices_of. by rewrite E. Qed.

(** One window of two that follow one another *)
Lemma changes_span b0 b1 b2 lo o n mid hi :
  changes [(o, n)] b0 b1 → changes [(mid, hi - mid)] b1 b2 → lo ≤ o → o + n ≤ mid → mid ≤ hi → lo ≤ mid → o + n ≤ hi → changes [(lo, hi - lo)] b0 b2.
Proof.
  intros H1 H2 ?????. eapply changes_within; [|exact (changes_trans _ _ _ _ _ H1 H2)].
  intros w [->%list_elem_of_singleton| ->%list_elem_of_singleton]%elem_of_app; right; (eexists; split; [by left|]); simpl; lia.
Qed.

Lemma aux_span alo amid ahi b0 b1 b2 :
  changes (aux_windows P alo amid) b0 b1 → changes (aux_windows P amid ahi) b1 b2 → alo ≤ amid → amid ≤ ahi → changes (aux_windows P alo ahi) b0 b2.
Proof.
  intros H1 H2 ??. eapply changes_within; [|exact (changes_trans _ _ _ _ _ H1 H2)]. unfold aux_windows.
  intros w [[->| ->%list_elem_of_singleton]%elem_of_cons|[->| ->%list_elem_of_singleton]%elem_of_cons]%elem_of_app; right;
    [exists (alo, ahi - alo)|eexists; split; [right; by left|done]|exists (alo, ahi - alo)|eexists; split; [right; by left|done]]; (split; [by left|]); simpl; lia.
Qed.

Lemma encode_loop C ids tokens ix whi ahi l : ∀ wlo alo off s t,
  1 ≤ chunk_blocks → parts_fit wlo alo l whi ahi → Forall (side C ids tokens) l → Forall (λ x, indices_of s ix x = Ok (phys_of ids x)) l →
  mem_ok s → raw_tail s = Some t → 0 ≤ off → off + tails tokens l ≤ zlen t →
  ∃ s' t', rfold (encode_part P C tokens ix) (s, off) l = Ok (s', off + tails tokens l) ∧ mem_ok s' ∧ block_indices s' = block_indices s ∧ raw_tail s' = Some t' ∧
    changes [(wlo, whi - wlo)] (arena_b s) (arena_b s') ∧ changes (aux_windows P alo ahi) (aux s) (aux s') ∧ changes [(off, tails tokens l)] t t' ∧
    all_stored C ids tokens (arena_b s') (aux s') t' off l.
Proof.
  induction l as [|x l IH]; intros wlo alo off s t Hcb Hp Hs Hix Hm Ht Hoff Hlen.
  - exists s, t. cbn [rfold]. unfold tails. cbn. rewrite Z.add_0_r. split_and!; try done; apply changes_refl.
  - destruct Hp as (amid & Hf & Hw & Hah & Hp). apply Forall_cons in Hs as [[Hs Hv] Hsl]. apply Forall_cons in Hix as [Hi Hil].
    pose proof (bf_part _ _ _ _ _ Hf) as Hx. pose proof (tail_bytes_nonneg x (valid_of tokens x) Hx) as Htb. pose proof (tails_nonneg tokens l _ _ _ _ Hp) as Htl.
    assert (Et : tails tokens (x :: l) = tail_bytes x (valid_of tokens x) + tails tokens l) by done. rewrite Et in *.
    destruct (encode_part_spec C tokens ix s off x _ _ _ alo amid t Hf Hs Hv Hi Hm Ht Hoff) as (s1 & t1 & E1 & Hm1 & Hb1 & Ht1 & Hcb1 & Hcx1 & Hct1 & Hst1); [lia|].
    destruct (IH ((window P x).1 + (window P x).2) amid (off + tail_bytes x (valid_of tokens x)) s1 t1) as (s2 & t2 & E2 & Hm2 & Hb2 & Ht2 & Hcb2 & Hcx2 & Hct2 & Hst2); try done.
    + eapply Forall_impl; [exact Hil|]. intros y Hy. by rewrite (indices_of_same s s1).
    + lia.
    + rewrite (changes_zlen _ _ _ Hct1). lia.
    + destruct (body_fits_order x alo amid Hcb Hf) as [Ho1 Ho2]. destruct (parts_fit_order l _ _ _ _ Hcb Hp) as [Ho3 Ho4].
      exists s2, t2. cbn [rfold]. rewrite E1. cbn [rbind]. rewrite E2, Z.add_assoc. split; [done|]. split; [done|]. split; [congruence|]. split; [done|].
      split; [eapply (changes_span _ _ _ wlo (window P x).1 (window P x).2); [by rewrite <- surjective_pairing|exact Hcb2|lia..]|].
      split; [by eapply aux_span|]. split.
      { replace (tail_bytes x (valid_of tokens x) + tails tokens l) with (off + (tail_bytes x (valid_of tokens x) + tails tokens l) - off) by lia.
        eapply (changes_span _ _ _ _ _ _ (off + tail_bytes x (valid_of tokens x))); [exact Hct1| |lia..]. replace (off + (tail_bytes x (valid_of tokens x) + tails tokens l) - (off + tail_bytes x (valid_of tokens x))) with (tails tokens l) by lia. exact Hct2. }
      split; [|exact Hst2]. eapply part_stored_same; [exact Hf|exact Hs|exact Hst1|intros _; split; [eapply changes_same; [exact Hcb2|]|eapply changes_same; [exact Hcx2|]]|eapply changes_same; [exact Hct2|]].
      * intros w ->%list_elem_of_singleton. done.
      * unfold aux_windows. intros w [->| ->%list_elem_of_singleton]%elem_of_cons; simpl; lia.
      * intros w ->%list_elem_of_singleton. done.
Qed.

(** What is stored is stored wherever the bytes are the same. *)
Lemma all_stored_same C ids tokens b b' ax ax' t t' whi ahi l : ∀ wlo alo off,
  1 ≤ chunk_blocks → parts_fit wlo alo l whi ahi → Forall (side C ids tokens) l → all_stored C ids tokens b ax t off l →
  ((∃ x, x ∈ l ∧ body_tokens x (valid_of tokens x) ≠ 0) → same_in (wlo, whi - wlo) b b' ∧ same_in (alo, ahi - alo) ax ax') → same_in (off, tails tokens l) t t' →
  all_stored C ids tokens b' ax' t' off l.
Proof.
  induction l as [|x l IH]; intros wlo alo off Hcb Hp Hs Hst Hbody Ht; [done|]. destruct Hp as (amid & Hf & Hw & Hah & Hp). apply Forall_cons in Hs as [[Hs Hv] Hsl].
  destruct Hst as [Hst Hstl]. pose proof (tail_bytes_nonneg x (valid_of tokens x) (bf_part _ _ _ _ _ Hf)) as Htb. pose proof (tails_nonneg tokens l _ _ _ _ Hp) as Htl.
  assert (Et : tails tokens (x :: l) = tail_bytes x (valid_of tokens x) + tails tokens l) by done. rewrite Et in Ht.
  destruct (body_fits_order x alo amid Hcb Hf) as [Ho1 Ho2]. destruct (parts_fit_order l _ _ _ _ Hcb Hp) as [Ho3 Ho4]. split.
  - eapply part_stored_same; [exact Hf|exact Hs|exact Hst| |eapply same_in_sub; [exact Ht|simpl; lia..]].
    intros Hne. destruct Hbody as [Hb Hx]; [exists x; split; [by left|done]|]. split; (eapply same_in_sub; [eassumption|simpl; lia..]).
  - eapply IH; [done|exact Hp|done|done| |eapply same_in_sub; [exact Ht|simpl; lia..]].
    intros (y & Hy & Hne). destruct Hbody as [Hb Hx]; [exists y; split; [by right|done]|]. split; (eapply same_in_sub; [eassumption|simpl; lia..]).
Qed.

(** ** Decoding *)

(** The consumer's caches after a part: the blocks of the body as the stages
    give them back, and the tokens of the tail. *)
Definition receive_body (E : caches) (dest : list Z) (valid : Z) (c : list block) (ids : list Z) (x : LayerPartLayout) : caches :=
  if body_tokens x valid =? 0 then E
  else put_blocks E x (cache_of E x) (take (nbody x valid) dest) (returned P x (nbody x valid) (picked c (take (nbody x valid) ids))).

Definition receive_part (E : caches) (dest : list Z) (valid : Z) (c : list block) (ids : list Z) (x : LayerPartLayout) : caches :=
  let E := receive_body E dest valid c ids x in
  put_tail P E x (cache_of E x) dest (picked c (tail_ids P ids)) valid.

Lemma receive_body_cache E dest valid c ids x :
  is_Some (dget E (key_of x)) → dget (receive_body E dest valid c ids x) (key_of x) = Some (cache_of (receive_body E dest valid c ids x) x).
Proof. intros [e He]. unfold receive_body, cache_of. case_match; [by rewrite He|]. unfold put_blocks. by rewrite !dget_dset_eq. Qed.

Lemma receive_body_length E dest valid c ids x : length (cache_of (receive_body E dest valid c ids x) x) = length (cache_of E x).
Proof. unfold receive_body, cache_of. case_match; [done|]. unfold put_blocks. rewrite dget_dset_eq. simpl. by rewrite length_placed. Qed.

Lemma receive_part_other E dest valid c ids x y : key_of x ≠ y → dget (receive_part E dest valid c ids x) y = dget E y.
Proof.
  intros Hne. unfold receive_part, put_tail, receive_body, put_blocks. repeat case_match; rewrite ?dget_dset_ne by done; done.
Qed.

Lemma in_range_length {X} (c c' : list X) ids : length c' = length c → in_range c ids → in_range c' ids.
Proof. unfold in_range, zlen. by intros ->. Qed.

Lemma decode_part_spec E C tokens ix s off x e c dest ids valid alo ahi t :
  body_fits P chunk_blocks x alo ahi → part_side C x c ids valid → part_side E x e dest valid → tokens_of tokens (group_index x) = Ok valid → indices_of s ix x = Ok dest →
  mem_ok s → raw_tail s = Some t → part_stored x valid c ids (arena_b s) (aux s) t off →
  ∃ a, decode_part P tokens ix (E, s, off) x = Ok (receive_part E dest valid c ids x, with_a a s, off + tail_bytes x valid) ∧ zlen a = arena_bytes lay.
Proof.
  intros Hf Hs Hd Hv Hix (Ha & Hb & Hax) Ht [Hst Htl]. pose proof (bf_part _ _ _ _ _ Hf) as Hx. destruct (body_numbers _ _ _ _ _ Hx Hd) as (_ & _ & Hdb & _ & Hcb & _ & Hbt & _).
  destruct (body_numbers _ _ _ _ _ Hx Hs) as (_ & _ & Hsb & _). pose proof (pf_bpl _ _ x Hx) as Hbpl.
  destruct (body_side _ _ _ _ _ Hx Hs) as (Hl & _ & Hr & _). destruct (body_side _ _ _ _ _ Hx Hd) as (Hl2 & Hz2 & Hr2 & Hn2 & Htk).
  assert (He : cache_of E x = e) by (unfold cache_of; by rewrite (ps_cache _ _ _ _ _ Hd)).
  unfold decode_part. rewrite Hv. cbn [rbind]. rewrite Hix. cbn [rbind].
  assert (Hbody : ∃ a, (if body_tokens x valid =? 0 then Ok (E, s) else decode_body P E s x (take (nbody x valid) dest) (body_tokens x valid)) =
    Ok (receive_body E dest valid c ids x, with_a a s) ∧ zlen a = arena_bytes lay).
  { unfold receive_body. case_bool; zbool; [exists (arena_a s); split; [by destruct s|done]|]. rewrite Htk, He.
    assert (Hst' : body_stored P x (length (take (nbody x valid) dest)) (sent P x (picked c (take (nbody x valid) ids))) (arena_b s) (aux s)) by (rewrite Hl2; by apply Hst).
    destruct (decode_body_spec P chunk_blocks E s x (take (nbody x valid) dest) e _ alo ahi Hf (ps_cache _ _ _ _ _ Hd) Hr2 Hn2 Ha ltac:(split; [rewrite Hl2, (proj2 (index_select_ok _ _ Hr)); exact Hl|apply Forall_picked, Hs]) Hst')
      as (a & Eq & Hza). exists a. rewrite Eq, Hl2. done. }
  destruct Hbody as (a & -> & Hza). cbn [rbind].
  destruct (apply_raw_tail_spec P chunk_blocks (receive_body E dest valid c ids x) (with_a a s) x dest (cache_of (receive_body E dest valid c ids x) x) valid off t (picked c (tail_ids P ids)))
    as (a2 & Eq & Hza2); try done.
  - apply receive_body_cache. rewrite (ps_cache _ _ _ _ _ Hd). by eexists.
  - eapply in_range_length; [apply receive_body_length|]. rewrite He. apply Hd.
  - split; [|apply Forall_picked, Hs]. rewrite (proj2 (index_select_ok c _ (tail_ids_range P c ids (ps_range _ _ _ _ _ Hs)))).
    pose proof (tail_ids_length P ids Hbpl Hsb) as Hti. unfold zlen in Hti. lia.
  - exists a2. by rewrite Eq.
Qed.

(** The caches after all parts *)
Definition receive (C : caches) (ids dest : list (list Z)) (tokens : list (Z * Z)) (E : caches) (l : list LayerPartLayout) : caches :=
  foldl (λ E x, receive_part E (phys_of dest x) (valid_of tokens x) (cache_of C x) (phys_of ids x) x) E l.

Lemma part_side_other E E' x c ids valid : dget E' (key_of x) = dget E (key_of x) → part_side E x c ids valid → part_side E' x c ids valid.
Proof. intros Hg [? ? ? ? ? ?]. split; try done. by rewrite Hg. Qed.

Lemma side_other E E' ids tokens x : dget E' (key_of x) = dget E (key_of x) → side E ids tokens x → side E' ids tokens x.
Proof. intros Hg [Hs Hv]. split; [|done]. unfold cache_of. rewrite Hg. by eapply part_side_other. Qed.

Lemma decode_loop C ids dest tokens ix whi ahi l : ∀ wlo alo E off s t,
  parts_fit wlo alo l whi ahi → NoDup (key_of <$> l) → Forall (side C ids tokens) l → Forall (side E dest tokens) l → Forall (λ x, indices_of s ix x = Ok (phys_of dest x)) l →
  mem_ok s → raw_tail s = Some t → all_stored C ids tokens (arena_b s) (aux s) t off l →
  ∃ a, rfold (decode_part P tokens ix) (E, s, off) l = Ok (receive C ids dest tokens E l, with_a a s, off + tails tokens l) ∧ zlen a = arena_bytes lay.
Proof.
  induction l as [|x l IH]; intros wlo alo E off s t Hp Hnd Hs Hd Hix Hm Ht Hst.
  - exists (arena_a s). cbn [rfold]. unfold tails. cbn. rewrite Z.add_0_r. split; [by destruct s|apply Hm].
  - destruct Hp as (amid & Hf & Hw & Hah & Hp). apply Forall_cons in Hs as [[Hs Hv] Hsl]. apply Forall_cons in Hix as [Hi Hil]. apply Forall_cons in Hd as [[Hd _] Hdl].
    rewrite fmap_cons in Hnd. apply NoDup_cons in Hnd as [Hni Hnd]. destruct Hst as [Hst Hstl].
    destruct (decode_part_spec E C tokens ix s off x _ _ _ _ _ alo amid t Hf Hs Hd Hv Hi Hm Ht Hst) as (a & Eq & Hza).
    set (E1 := receive_part E (phys_of dest x) (valid_of tokens x) (cache_of C x) (phys_of ids x) x) in *.
    destruct (IH _ _ E1 (off + tail_bytes x (valid_of tokens x)) (with_a a s) t Hp Hnd Hsl) as (a2 & Eq2 & Hza2); try done.
    + apply Forall_forall. intros y Hy. eapply side_other; [|by apply (proj1 (Forall_forall _ _) Hdl)]. apply receive_part_other.
      intros Ek. apply Hni. rewrite Ek. by apply list_elem_of_fmap_2.
    + split_and!; [done|apply Hm|apply Hm].
    + exists a2. cbn [rfold]. rewrite Eq. cbn [rbind]. rewrite Eq2. unfold receive, tails. csimpl. rewrite Z.add_assoc. done.
Qed.

End loops.
