(* ===== verification/RtCodecThms.v ===== *)
(** * A chunk, encoded and decoded

    [encode] with the codec, and [decode] of what was delivered: the
    consumer's caches are the ones [receive] specifies. The last section says
    the same of the aggregate transport, which sends whole blocks
    ([receive_whole]). *)

From S2P Require Import Prelude PyData RtConfig RtLayout Buffers RtPipeline RtPipelineOps RtPipelineThms RtQuantThms RtBodyThms RtTailThms RtLoopThms.

Section chunks.
Context `{B : !Bf16, F : !FusedLaw, A : !Ans} (P : CompressionPipeline) (chunk_blocks : Z).

#[local] Notation lay := (p_layout P).
#[local] Notation bpl := (blocks_per_logical P).

(** The bytes of a part of a chunk with a body, and of its parameters *)
Definition full_bytes (kv : KVPart) : Z := sel kv (if quantized P then u8_bytes_by_part lay else raw_bytes_by_part lay).
Definition full_aux (kv : KVPart) : Z := if quantized P then sel kv (aux_bytes_by_part lay) else 0.

(** nvCOMP compresses data of the sizes it was configured for, into no more
    than an arena, and gives it back. *)
Definition codec_lawful : Prop :=
  ∀ x, zlen x ∈ codec_sizes P → ∃ y, ans_encode x = Ok y ∧ zlen y ≤ arena_bytes lay ∧ ans_decode (zlen x) y = Ok x.

Record chunk_fits (kv : KVPart) : Prop := {
  cf_blocks : 1 ≤ chunk_blocks;
  cf_parts : parts_fit P chunk_blocks (u8_base lay) 0 (parts lay kv) (u8_base lay + full_bytes kv) (full_aux kv);
  cf_stream : 0 ≤ u8_base lay ∧ 0 ≤ full_bytes kv ∧ u8_base lay + full_bytes kv ≤ arena_bytes lay;
  cf_aux : 0 ≤ full_aux kv ≤ aux_arena_bytes lay;
  cf_codec : stage P "codec" = true → full_bytes kv ∈ codec_sizes P;
  cf_keys : NoDup (key_of <$> parts lay kv);
  cf_rows x : x ∈ layer_parts lay → 0 ≤ group_index x ∧ is_Some (index_rows_by_group lay !! group_index x);
  cf_pairs x : x ∈ parts lay kv → ∃ y, y ∈ parts lay KPart ∧ group_index y = group_index x ∧ part_block_size y = part_block_size x;
  cf_first : ∃ x, x ∈ parts lay kv ∧ first_group P = Some (group_index x)
}.

(** A transfer of the blocks [ids] with [tokens] tokens, on one side *)
Definition sides (C : caches) (ids : list (list Z)) (tokens : list (Z * Z)) : Prop := Forall (side P chunk_blocks C ids tokens) (layer_parts lay).

Definition slot_ok (s : CompressionSlotBuffers) (ids : list (list Z)) (tokens : list (Z * Z)) (kv : KVPart) : Prop :=
  mem_ok P s ∧ indices_fit P (block_indices s) ids ∧ ∃ t, raw_tail s = Some t ∧ raw_tail_bytes lay kv (token_count tokens) ≤ zlen t.

Lemma parts_sub kv x : x ∈ parts lay kv → x ∈ layer_parts lay.
Proof. unfold parts. intros [_ H]%list_elem_of_filter. done. Qed.

Lemma sides_parts C ids tokens kv : sides C ids tokens → Forall (side P chunk_blocks C ids tokens) (parts lay kv).
Proof. intros Hs. apply Forall_forall. intros x Hx%parts_sub. by apply (proj1 (Forall_forall _ _) Hs). Qed.

Lemma tails_eq tokens kv : raw_tail_bytes lay kv (token_count tokens) = tails tokens (parts lay kv).
Proof. unfold raw_tail_bytes, tails. f_equal. apply list_fmap_ext. intros i x _. unfold tail_bytes, valid_of. ring. Qed.

Lemma fold_known {X Y} (f : X → result Y) l : Forall (λ x, is_Ok (f x)) l → rfold (λ (_ : unit) x, let? _ := f x in Ok ()) () l = Ok ().
Proof. induction 1 as [|x l [v Hv] _ IH]; [done|]. cbn [rfold]. rewrite Hv. cbn [rbind]. exact IH. Qed.

Lemma any_body_spec tokens l :
  Forall (λ x, tokens_of tokens (group_index x) = Ok (valid_of tokens x)) l →
  any_body tokens l = Ok (existsb (λ x, part_block_size x <=? valid_of tokens x) l).
Proof. induction 1 as [|x l Hx _ IH]; [done|]. cbn [any_body existsb]. rewrite Hx. cbn [rbind]. case_match; [done|]. exact IH. Qed.

Lemma side_ids C ids tokens x :
  part_fits P chunk_blocks x → side P chunk_blocks C ids tokens x → ∃ l, ids !! num (group_index x) = Some l ∧ l ≠ [] ∧ phys_of P ids x = physical_ids P l.
Proof.
  intros Hx [Hs _]. destruct (body_numbers _ _ _ _ _ _ _ Hx Hs) as (_ & _ & Hb & _). pose proof (pf_bpl _ _ x Hx). unfold phys_of in *.
  destruct (ids !! num (group_index x)) as [l|]; simpl in *; [|unfold zlen in Hb; simpl in Hb; lia].
  exists l. split; [done|]. split; [|done]. intros ->. unfold zlen in Hb. simpl in Hb. lia.
Qed.

Lemma parts_fit_each l : ∀ wlo alo whi ahi, parts_fit P chunk_blocks wlo alo l whi ahi → Forall (part_fits P chunk_blocks) l.
Proof. induction l as [|x l IH]; intros wlo alo whi ahi; [constructor|]. intros (amid & Hf & _ & _ & Hp). constructor; [apply Hf|by eapply IH]. Qed.

(** The indices of all parts *)
Lemma indices_ready s ids tokens kv C :
  chunk_fits kv → sides C ids tokens → indices_fit P (block_indices s) ids →
  ∃ i ix, group_indices P s ids = Ok (with_indices i s, ix) ∧ Forall (λ x, indices_of (with_indices i s) ix x = Ok (phys_of P ids x)) (parts lay kv).
Proof.
  intros Hc Hs Hf. destruct (group_indices_spec P s ids Hf) as (i & ix & E & Hall). exists i, ix. split; [exact E|]. apply Forall_forall. intros x Hx.
  pose proof (parts_fit_each _ _ _ _ _ (cf_parts _ Hc)) as Hpf. pose proof (sides_parts _ _ _ kv Hs) as Hss.
  destruct (side_ids C ids tokens x) as (l & Hl & Hne & ->); [by apply (proj1 (Forall_forall _ _) Hpf)|by apply (proj1 (Forall_forall _ _) Hss)|].
  destruct (cf_rows _ Hc x (parts_sub _ _ Hx)) as [Hg Hr]. apply (indices_of_spec P). by apply Hall.
Qed.

(** A part has a body only if the chunk has. *)
Lemma has_body_any C ids tokens kv x :
  chunk_fits kv → sides C ids tokens → x ∈ parts lay kv → body_tokens x (valid_of tokens x) ≠ 0 → has_body lay (token_count tokens) = true.
Proof.
  intros Hc Hs Hx Hne. pose proof (parts_fit_each _ _ _ _ _ (cf_parts _ Hc)) as Hpf. pose proof (sides_parts _ _ _ kv Hs) as Hss.
  pose proof (proj1 (Forall_forall _ _) Hpf x Hx) as Hf. destruct (proj1 (Forall_forall _ _) Hss x Hx) as [Hp _].
  destruct (body_numbers _ _ _ _ _ _ _ Hf Hp) as (_ & _ & _ & _ & _ & _ & _ & _ & Hle). specialize (Hle Hne).
  destruct (cf_pairs _ Hc x Hx) as (y & Hy & Hg & Hb). unfold has_body. apply existsb_exists. exists y. split; [by apply list_elem_of_In|].
  apply Z.leb_le. rewrite Hg, Hb. exact Hle.
Qed.

Lemma data_bytes_bounds kv tokens : chunk_fits kv → 0 ≤ data_bytes P kv tokens ∧ u8_base lay + data_bytes P kv tokens ≤ arena_bytes lay ∧ 0 ≤ aux_bytes P kv tokens ≤ aux_arena_bytes lay.
Proof.
  intros Hc. pose proof (cf_stream _ Hc) as Hst. pose proof (cf_aux _ Hc) as Hax. unfold data_bytes, aux_bytes, full_bytes, full_aux in *.
  destruct (has_body lay (token_count tokens)), (quantized P); simpl; lia.
Qed.

(** ** Encoding *)

(** What the payload is of the stream *)
Definition payload_of (l a : list Z) (size : Z) : Prop :=
  if (zlen l =? 0) || negb (stage P "codec") then holds a 0 l ∧ size = zlen l
  else ∃ y, ans_encode l = Ok y ∧ ans_decode (zlen l) y = Ok l ∧ holds a 0 y ∧ size = zlen y ∧ zlen l ∈ codec_sizes P.

Definition chunk_stored (C : caches) (ids : list (list Z)) (tokens : list (Z * Z)) (kv : KVPart) (s : CompressionSlotBuffers) (ch : EncodedChunk) : Prop :=
  ∃ l t, u8_bytes ch = data_bytes P kv tokens ∧ chunk_tail_bytes ch = raw_tail_bytes lay kv (token_count tokens) ∧ 0 ≤ codec_bytes ch ≤ arena_bytes lay ∧
    mem_ok P s ∧ raw_tail s = Some t ∧ all_stored P C ids tokens (arena_b s) (aux s) t 0 (parts lay kv) ∧
    holds (arena_b s) (u8_base lay) l ∧ zlen l = data_bytes P kv tokens ∧ payload_of l (arena_a s) (codec_bytes ch).

Lemma clear_length b o n : 0 ≤ o → o ≤ zlen b → zlen (clear b o n) = zlen b.
Proof. intros Ho Hl. unfold clear, overwrite, zlen in *. rewrite !length_app, length_replicate, length_take, !length_take, !length_drop. lia. Qed.

Lemma finish_encode C ids tokens kv s t offset :
  codec_lawful → chunk_fits kv → mem_ok P s → raw_tail s = Some t → all_stored P C ids tokens (arena_b s) (aux s) t 0 (parts lay kv) →
  offset = raw_tail_bytes lay kv (token_count tokens) →
  let n := data_bytes P kv tokens in
  ∃ s' ch, (if (n =? 0) || negb (stage P "codec") then
      let? l := read (arena_b s) (u8_base lay) n in
      let? a := write (arena_a s) 0 l in
      Ok (with_a a s, mkChunk n n (raw_tail_bytes lay kv (token_count tokens)))
    else
      let? (a, size) := codec_encode P (stream_of P s) (arena_a s) n in
      Ok (with_a a s, mkChunk size n offset)) = Ok (s', ch) ∧ chunk_stored C ids tokens kv s' ch.
Proof.
  intros Hlaw Hc (Ha & Hb & Hx) Ht Hst -> n. destruct (data_bytes_bounds kv tokens Hc) as (Hn0 & Hn & _). pose proof (cf_stream _ Hc) as (Hu0 & _). fold n in Hn0, Hn.
  assert (E : ∃ l, read (arena_b s) (u8_base lay) n = Ok l) by (unfold read; rewrite (proj2 (in_buffer_true _ _ _)) by lia; by eexists).
  destruct E as [l E]. pose proof E as [Hh Hl]%read_Ok. case_match eqn:Eb.
  - rewrite E. cbn [rbind]. destruct (write_ok (arena_a s) 0 l) as (a & -> & Hha & Hca); [lia..|]. cbn [rbind]. exists (with_a a s), (mkChunk n n (raw_tail_bytes lay kv (token_count tokens))). split; [done|].
    exists l, t. simpl. split_and!; try done; try lia; [split; [simpl; by rewrite (changes_zlen _ _ _ Hca)|done]|]. unfold payload_of. rewrite Hl, Eb. by split.
  - apply orb_false_iff in Eb as [Hnz Hcod]. apply Z.eqb_neq in Hnz. apply negb_false_iff in Hcod.
    assert (Hnf : n = full_bytes kv) by (unfold n, data_bytes, full_bytes in *; destruct (has_body lay (token_count tokens)); done).
    assert (Hin : n ∈ codec_sizes P) by (rewrite Hnf; by apply Hc).
    destruct (Hlaw l) as (y & Hy & Hyl & Hdec); [by rewrite Hl|].
    unfold codec_encode. rewrite (read_holds (stream_of P s) 0 n l); [|split; [done|]; unfold stream_of; intros k v Hk; rewrite lookup_drop; by apply Hh|done]. cbn [rbind].
    rewrite bool_decide_true by done. cbn [negb raise_if rbind]. rewrite Hy. cbn [rbind]. pose proof (zlen_nonneg y).
    destruct (write_ok (arena_a s) 0 y) as (a & -> & Hha & Hca); [lia..|]. cbn [rbind]. exists (with_a a s), (mkChunk (zlen y) n (raw_tail_bytes lay kv (token_count tokens))). split; [done|].
    exists l, t. simpl. split_and!; try done; [split; [simpl; by rewrite (changes_zlen _ _ _ Hca)|done]|]. unfold payload_of. rewrite Hl, (proj2 (Z.eqb_neq _ _) Hnz), Hcod. simpl.
    exists y. split_and!; try done. by rewrite <- Hl.
Qed.

Lemma encode_spec C s ids kv tokens :
  codec_lawful → chunk_fits kv → stage P "aggregate" = false → sides C ids tokens → slot_ok s ids tokens kv →
  ∃ s' ch, encode P C s ids kv tokens = Ok (s', ch) ∧ chunk_stored C ids tokens kv s' ch.
Proof.
  intros Hlaw Hc Hagg Hs (Hm & Hi & t & Ht & Htl). destruct (data_bytes_bounds kv tokens Hc) as (Hn0 & Hn & Hxn). pose proof (cf_stream _ Hc) as (Hu0 & _).
  assert (Hk : ∀ p, Forall (λ x, tokens_of tokens (group_index x) = Ok (valid_of tokens x)) (parts lay p)).
  { intros p. eapply Forall_impl; [exact (sides_parts _ _ _ p Hs)|]. by intros x []. }
  unfold encode. unfold groups_known. rewrite fold_known by (eapply Forall_impl; [exact (Hk kv)|]; intros x ->; by eexists). cbn [rbind].
  destruct (cf_first _ Hc) as (x0 & Hx0 & ->). cbn [of_option rbind].
  assert (Hfirst : is_Ok (py_index ids (group_index x0))).
  { destruct (cf_rows _ Hc x0 (parts_sub _ _ Hx0)) as [Hg _]. rewrite py_index_nonneg by done. pose proof (proj1 (Forall_forall _ _) (sides_parts _ _ _ kv Hs) x0 Hx0) as Hp.
    pose proof (proj1 (Forall_forall _ _) (parts_fit_each _ _ _ _ _ (cf_parts _ Hc)) x0 Hx0) as Hf. destruct (side_ids _ _ _ _ Hf Hp) as (l & -> & _). by eexists. }
  destruct Hfirst as [l0 ->]. cbn [rbind]. rewrite Hagg, any_body_spec by apply Hk. cbn [rbind].
  set (s1 := with_aux _ _). destruct Hm as (Ha & Hb & Hx).
  assert (Hm1 : mem_ok P s1) by (split; [done|]; split; simpl; rewrite clear_length by lia; done).
  destruct (indices_ready s1 ids tokens kv C Hc Hs Hi) as (i & ix & -> & Hall). cbn [rbind].
  destruct (encode_loop P chunk_blocks C ids tokens ix _ _ _ _ _ 0 (with_indices i s1) t (cf_blocks _ Hc) (cf_parts _ Hc) (sides_parts _ _ _ kv Hs) Hall Hm1 Ht)
    as (s2 & t2 & -> & Hm2 & _ & Ht2 & _ & _ & _ & Hst); [lia|rewrite <- tails_eq; lia|]. cbn [rbind].
  apply (finish_encode C ids tokens kv s2 t2); try done. by rewrite tails_eq.
Qed.

(** ** Decoding *)

(** What the transport writes into the consumer's slot: the payload, the
    parameters and the raw tail. *)
Record delivered (kv : KVPart) (tokens : list (Z * Z)) (ch : EncodedChunk) (sp sc : CompressionSlotBuffers) : Prop := {
  dl_payload : same_in (0, codec_bytes ch) (arena_a sp) (arena_a sc);
  dl_aux : same_in (0, aux_bytes P kv tokens) (aux sp) (aux sc);
  dl_tail t : raw_tail sp = Some t → ∃ t', raw_tail sc = Some t' ∧ same_in (0, chunk_tail_bytes ch) t t'
}.

Lemma stream_back b y : 0 ≤ u8_base lay → u8_base lay ≤ zlen b →
  ∀ out l, write (drop (num (u8_base lay)) b) 0 y = Ok out → l = take (num (u8_base lay)) b ++ out → zlen l = zlen b ∧ holds l (u8_base lay) y.
Proof.
  intros Hu Hb out l Hw ->. apply write_Ok in Hw as [[_ Hh] [Hlen _]]. rewrite length_drop in Hlen. unfold zlen in *. split.
  - rewrite length_app, length_take. lia.
  - split; [done|]. intros k x Hk. apply Hh in Hk. rewrite lookup_app_r by (rewrite length_take; lia). rewrite length_take. rewrite <- Hk. f_equal. lia.
Qed.

(** The stream of the consumer is the stream of the producer. *)
Lemma load_stream kv tokens ch sp sc l :
  codec_lawful → chunk_fits kv → delivered kv tokens ch sp sc → mem_ok P sc → 0 ≤ codec_bytes ch ≤ arena_bytes lay → zlen l = data_bytes P kv tokens →
  payload_of l (arena_a sp) (codec_bytes ch) →
  ∃ b, (if negb (data_bytes P kv tokens =? 0) && stage P "codec" then
          let? l := codec_decode P (arena_a sc) (stream_of P sc) (codec_bytes ch) (data_bytes P kv tokens) in Ok (with_stream P l sc)
        else
          let? l := read (arena_a sc) 0 (data_bytes P kv tokens) in
          let? b := write (arena_b sc) (u8_base lay) l in
          Ok (with_b b sc)) = Ok (with_b b sc) ∧ zlen b = arena_bytes lay ∧ holds b (u8_base lay) l.
Proof.
  intros Hlaw Hc [Hd _ _] (Ha & Hb & Hx) Hcb Hl Hp. destruct (data_bytes_bounds kv tokens Hc) as (Hn0 & Hn & _). pose proof (cf_stream _ Hc) as (Hu0 & _).
  assert (Hraw : holds (arena_a sp) 0 l ∧ codec_bytes ch = zlen l → ∃ b,
    (let? l := read (arena_a sc) 0 (data_bytes P kv tokens) in let? b := write (arena_b sc) (u8_base lay) l in Ok (with_b b sc)) = Ok (with_b b sc) ∧
    zlen b = arena_bytes lay ∧ holds b (u8_base lay) l).
  { intros [Hh Hs]. rewrite (read_holds (arena_a sc) 0 _ l); [|eapply holds_same; [exact Hh|exact Hd|simpl; lia|simpl; lia]|lia]. cbn [rbind].
    destruct (write_ok (arena_b sc) (u8_base lay) l) as (b & -> & Hhb & Hcb'); [lia..|]. exists b. cbn [rbind]. split; [done|]. split; [by rewrite (changes_zlen _ _ _ Hcb')|done]. }
  unfold payload_of in Hp. rewrite Hl in Hp. destruct (data_bytes P kv tokens =? 0) eqn:Ez, (stage P "codec") eqn:Ec; cbn [orb negb andb] in *; try (apply Hraw; rewrite Hl; exact Hp).
  destruct Hp as (y & Hy & Hdec & Hh & Hs & Hin).
  unfold codec_decode. rewrite (read_holds (arena_a sc) 0 (codec_bytes ch) y); [|eapply holds_same; [exact Hh|exact Hd|simpl; lia|simpl; lia]|done]. cbn [rbind].
  rewrite bool_decide_true by done. cbn [negb raise_if rbind]. rewrite Hdec. cbn [rbind].
  destruct (write_ok (stream_of P sc) 0 l) as (out & Hw & _ & _); [lia|unfold stream_of, zlen in *; rewrite length_drop; lia|]. rewrite Hw. cbn [rbind].
  eexists. split; [reflexivity|]. destruct (stream_back (arena_b sc) l Hu0 ltac:(lia) out _ Hw eq_refl) as [Hz Hh2]. split; [by rewrite Hz|exact Hh2].
Qed.

Lemma all_delivered C ids tokens kv ch sp sc b t t' l :
  chunk_fits kv → sides C ids tokens → delivered kv tokens ch sp sc → chunk_tail_bytes ch = raw_tail_bytes lay kv (token_count tokens) →
  holds (arena_b sp) (u8_base lay) l → holds b (u8_base lay) l → zlen l = data_bytes P kv tokens → same_in (0, chunk_tail_bytes ch) t t' →
  all_stored P C ids tokens (arena_b sp) (aux sp) t 0 (parts lay kv) → all_stored P C ids tokens b (aux sc) t' 0 (parts lay kv).
Proof.
  intros Hc Hs Hd Htl Hh Hh' Hl Hsame Hst. eapply all_stored_same; [apply (cf_blocks _ Hc)|apply (cf_parts _ Hc)|exact (sides_parts _ _ _ kv Hs)|exact Hst| |].
  - intros (x & Hx & Hne). pose proof (has_body_any C ids tokens kv x Hc Hs Hx Hne) as Hbody. unfold data_bytes in Hl. rewrite Hbody in Hl. split.
    + eapply holds_both; [exact Hh|exact Hh'|]. simpl. unfold full_bytes. lia.
    + eapply same_in_sub; [apply Hd|..]; simpl; [lia|]. unfold aux_bytes, full_aux. rewrite Hbody. destruct (quantized P); simpl; lia.
  - rewrite <- tails_eq, <- Htl. exact Hsame.
Qed.

Lemma decode_spec C E ids dest tokens kv ch sp sc :
  codec_lawful → chunk_fits kv → stage P "aggregate" = false → sides C ids tokens → sides E dest tokens → chunk_stored C ids tokens kv sp ch →
  delivered kv tokens ch sp sc → mem_ok P sc → indices_fit P (block_indices sc) dest →
  ∃ s', runtime_decode P E sc dest kv (codec_bytes ch) (u8_bytes ch) tokens = Ok (receive P C ids dest tokens E (parts lay kv), s').
Proof.
  intros Hlaw Hc Hagg Hs Hse (l & t & Hu8 & Htl & Hcb & Hmp & Ht & Hst & Hh & Hl & Hp) Hd Hm Hi. destruct (dl_tail _ _ _ _ _ Hd t Ht) as (t' & Ht' & Hsame).
  destruct (load_stream kv tokens ch sp sc l Hlaw Hc Hd Hm Hcb Hl Hp) as (b & Hload & Hzb & Hhb).
  assert (Hk : Forall (λ x, tokens_of tokens (group_index x) = Ok (valid_of tokens x)) (parts lay KPart)) by (eapply Forall_impl; [exact (sides_parts _ _ _ KPart Hs)|]; by intros x []).
  unfold runtime_decode, runtime_data_bytes. rewrite Hagg, any_body_spec by done. cbn [rbind]. rewrite Hu8, Z.eqb_refl. cbn [negb raise_if rbind].
  pose proof Hm as (Ha & Hb & Hx). rewrite Ha, (proj2 (Z.leb_le 0 (codec_bytes ch))), (proj2 (Z.leb_le (codec_bytes ch) _)) by lia. cbn [andb negb raise_if rbind].
  assert (Hsize : negb (stage P "codec") && negb (codec_bytes ch =? data_bytes P kv tokens) = false).
  { unfold payload_of in Hp. destruct (stage P "codec"); [done|]. rewrite orb_true_r in Hp. destruct Hp as [_ ->]. by rewrite Hl, Z.eqb_refl. }
  rewrite Hsize. cbn [raise_if rbind]. unfold decode. rewrite Hagg, Hload. cbn [rbind].
  destruct (indices_ready (with_b b sc) dest tokens kv E Hc Hse Hi) as (i & ix & -> & Hall). cbn [rbind].
  destruct (decode_loop P chunk_blocks C ids dest tokens ix _ _ _ _ _ E 0 (with_indices i (with_b b sc)) t' (cf_parts _ Hc) (cf_keys _ Hc) (sides_parts _ _ _ kv Hs) (sides_parts _ _ _ kv Hse) Hall)
    as (a & -> & _); [done|done| |].
  - by apply (all_delivered C ids tokens kv ch sp sc b t t' l).
  - cbn [rbind]. by eexists.
Qed.

End chunks.

(** ** The aggregate transport *)

Section aggregate.
Context `{B : !Bf16, F : !FusedLaw, A : !Ans} (P : CompressionPipeline) (chunk_blocks : Z).

#[local] Notation lay := (p_layout P).
#[local] Notation bpl := (blocks_per_logical P).
#[local] Notation H x := (num (num_heads x)).
#[local] Notation T x := (num (kernel_tokens P x)).
#[local] Notation D x := (num (part_head_size x)).

(** The shape of a part, and the bytes of its blocks in a chunk *)
Record part_shaped (x : LayerPartLayout) : Prop := {
  sh_block : 0 < part_block_size x ∧ (bpl | part_block_size x);
  sh_heads : 0 < num_heads x;
  sh_size : 0 < part_head_size x;
  sh_bytes : raw_bytes x = chunk_blocks * part_block_size x * num_heads x * part_head_size x * 2
}.

Record whole_fits (kv : KVPart) : Prop := {
  ag_bpl : 0 < bpl;
  ag_parts x : x ∈ layer_parts lay → part_shaped x;
  ag_arena : sumZ (raw_bytes <$> parts lay kv) ≤ arena_bytes lay;
  ag_keys : NoDup (key_of <$> parts lay kv);
  ag_rows x : x ∈ layer_parts lay → 0 ≤ group_index x ∧ is_Some (index_rows_by_group lay !! group_index x);
  ag_first : ∃ x, x ∈ parts lay kv ∧ first_group P = Some (group_index x)
}.

Definition whole_bytes (tokens : list (Z * Z)) (x : LayerPartLayout) : Z :=
  block_count x (valid_of tokens x) * num_heads x * part_block_size x * part_head_size x * 2.

Hypothesis Hbpl : 0 < bpl.

Lemma whole_numbers C ids tokens x :
  part_shaped x → side P chunk_blocks C ids tokens x →
  bpl ≤ zlen (phys_of P ids x) ≤ chunk_blocks * bpl ∧ 2 * raw_numel P x (zlen (phys_of P ids x)) = whole_bytes tokens x ∧ 0 ≤ whole_bytes tokens x ≤ raw_bytes x.
Proof.
  intros [[Hb [q Hq]] Hh Hs Hr] [[_ _ _ Hv Hc Hk] _]. set (n := block_count x (valid_of tokens x)) in *.
  assert (Hn : 1 ≤ n) by (unfold n, block_count; apply Z.div_le_lower_bound; lia).
  assert (Hkt : kernel_tokens P x = q) by (unfold kernel_tokens; rewrite Hq; apply Z.div_mul; lia).
  rewrite Hc. split; [nia|]. unfold raw_numel, whole_bytes. fold n. rewrite Hkt. split; [rewrite Hq; ring|]. rewrite Hr. split; [repeat apply Z.mul_nonneg_nonneg; lia|].
  repeat apply Z.mul_le_mono_nonneg_r; try lia. replace (n * num_heads x * part_block_size x) with (n * part_block_size x * num_heads x) by ring.
  repeat apply Z.mul_le_mono_nonneg_r; lia.
Qed.

Lemma whole_ids C ids tokens x :
  part_shaped x → side P chunk_blocks C ids tokens x → ∃ l, ids !! num (group_index x) = Some l ∧ l ≠ [] ∧ phys_of P ids x = physical_ids P l.
Proof.
  intros Hx Hs. destruct (whole_numbers _ _ _ _ Hx Hs) as ([Hb _] & _). unfold phys_of in *.
  destruct (ids !! num (group_index x)) as [l|]; simpl in *; [|unfold zlen in Hb; simpl in Hb; lia].
  exists l. split; [done|]. split; [|done]. intros ->. unfold zlen in Hb. simpl in Hb. lia.
Qed.

Lemma whole_dims C ids tokens x :
  part_shaped x → side P chunk_blocks C ids tokens x →
  dims4 (length (phys_of P ids x)) (H x) (T x) (D x) (picked (cache_of C x) (phys_of P ids x)) ∧
  zlen (flat4 (picked (cache_of C x) (phys_of P ids x))) = raw_numel P x (zlen (phys_of P ids x)).
Proof.
  intros [[Hb [q Hq]] Hh Hs Hr] [[_ Hd Hrg _ _ _] _]. destruct (index_select_ok _ _ Hrg) as [_ Hl].
  assert (Hdm : dims4 (length (phys_of P ids x)) (H x) (T x) (D x) (picked (cache_of C x) (phys_of P ids x))) by (split; [done|by apply Forall_picked]).
  split; [done|]. unfold zlen. rewrite (length_flat4 _ _ _ _ _ Hdm). unfold raw_numel.
  assert (0 ≤ kernel_tokens P x) by (unfold kernel_tokens; apply Z.div_pos; lia). rewrite !Nat2Z.inj_mul, !Z2Nat.id by lia. ring.
Qed.

(** The blocks of the parts, one part after the other *)
Fixpoint whole_stored (C : caches) (ids : list (list Z)) (tokens : list (Z * Z)) (a : list Z) (off : Z) (l : list LayerPartLayout) : Prop :=
  match l with
  | [] => True
  | x :: l => holds16 a off (flat4 (picked (cache_of C x) (phys_of P ids x))) ∧ whole_stored C ids tokens a (off + whole_bytes tokens x) l
  end.

Definition wholes (tokens : list (Z * Z)) (l : list LayerPartLayout) : Z := sumZ (whole_bytes tokens <$> l).

Lemma encode_segments C ids tokens ix l : ∀ s off,
  Forall part_shaped l → Forall (side P chunk_blocks C ids tokens) l → Forall (λ x, indices_of s ix x = Ok (phys_of P ids x)) l →
  0 ≤ off → off + wholes tokens l ≤ zlen (arena_a s) →
  ∃ a, rfold (encode_segment P C ix) (s, off) l = Ok (with_a a s, off + wholes tokens l) ∧ changes [(off, wholes tokens l)] (arena_a s) a ∧
    whole_stored C ids tokens a off l ∧ 0 ≤ wholes tokens l.
Proof.
  unfold wholes. induction l as [|x l IH]; intros s off Hx Hs Hi H0 Ha; csimpl in *.
  - exists (arena_a s). split; [by destruct s; rewrite Z.add_0_r|]. split; [apply changes_refl|done].
  - apply Forall_cons in Hx as [Hx Hxs]. apply Forall_cons in Hs as [Hs Hss]. apply Forall_cons in Hi as [Hi His].
    destruct (whole_numbers _ _ _ _ Hx Hs) as (_ & Hn & Hw). destruct (whole_dims _ _ _ _ Hx Hs) as [_ Hz]. pose proof Hs as [[Hc _ Hrg _ _ _] _].
    assert (Hrest : 0 ≤ sumZ (whole_bytes tokens <$> l)).
    { apply sumZ_fmap_nonneg. intros y Hy. destruct (whole_numbers C ids tokens y) as (_ & _ & ?); [by apply (proj1 (Forall_forall _ _) Hxs)|by apply (proj1 (Forall_forall _ _) Hss)|lia]. }
    cbn [rfold]. unfold cache_part. rewrite Hc. cbn [of_option rbind]. rewrite Hi. cbn [rbind]. rewrite (proj1 (index_select_ok _ _ Hrg)). cbn [rbind].
    destruct (write16_ok (arena_a s) off (flat4 (picked (cache_of C x) (phys_of P ids x)))) as (a1 & -> & Hh & Hch); [lia..|]. cbn [rbind]. rewrite Hz, Hn in *.
    destruct (IH (with_a a1 s) (off + whole_bytes tokens x)) as (a & -> & Hch2 & Hst & _); try done; [lia|simpl; rewrite (changes_zlen _ _ _ Hch); lia|]. simpl in Hch2.
    exists a. split; [by rewrite Z.add_assoc|]. split_and!; [|eapply holds16_apart; [exact Hh|exact Hch2|]; rewrite Hz; left; simpl; lia|exact Hst|lia].
    eapply changes_within; [|exact (changes_trans _ _ _ _ _ Hch Hch2)]. intros w Hwi. right. exists (off, whole_bytes tokens x + sumZ (whole_bytes tokens <$> l)). split; [by left|].
    simpl in Hwi. rewrite !elem_of_cons, elem_of_nil in Hwi. destruct Hwi as [->|[->|[]]]; simpl; lia.
Qed.

(** What the consumer gets: the blocks as they are. *)
Definition receive_whole (C : caches) (ids dest : list (list Z)) (E : caches) (l : list LayerPartLayout) : caches :=
  foldl (λ E x, put_blocks E x (cache_of E x) (phys_of P dest x) (picked (cache_of C x) (phys_of P ids x))) E l.

Lemma decode_segments C ids dest tokens s ix l : ∀ E off,
  Forall part_shaped l → Forall (side P chunk_blocks C ids tokens) l → Forall (side P chunk_blocks E dest tokens) l → NoDup (key_of <$> l) →
  Forall (λ x, indices_of s ix x = Ok (phys_of P dest x)) l → whole_stored C ids tokens (arena_a s) off l →
  rfold (decode_segment P s ix) (E, off) l = Ok (receive_whole C ids dest E l, off + wholes tokens l).
Proof.
  unfold wholes. induction l as [|x l IH]; intros E off Hx Hs Hd Hnd Hi Hst; csimpl in *; [by rewrite Z.add_0_r|].
  apply Forall_cons in Hx as [Hx Hxs]. apply Forall_cons in Hs as [Hs Hss]. apply Forall_cons in Hd as [Hd Hds]. apply Forall_cons in Hi as [Hi His]. apply NoDup_cons in Hnd as [Hni Hnd].
  destruct Hst as [Hh Hst]. destruct (whole_numbers _ _ _ _ Hx Hs) as (_ & Hn & _). destruct (whole_numbers _ _ _ _ Hx Hd) as (_ & Hn' & _).
  destruct (whole_dims _ _ _ _ Hx Hs) as [Hdm Hz]. pose proof Hd as [[Hc _ Hrg _ Hl' _] _]. pose proof Hs as [[_ _ _ _ Hl _] _].
  assert (El : zlen (phys_of P dest x) = zlen (phys_of P ids x)) by lia.
  cbn [rfold]. rewrite Hi. cbn [rbind]. rewrite El, (read16_holds _ _ _ _ Hh) by done. cbn [rbind].
  assert (Ev : scratch_of P x (zlen (phys_of P ids x)) (flat4 (picked (cache_of C x) (phys_of P ids x))) = picked (cache_of C x) (phys_of P ids x)).
  { unfold scratch_of. replace (num (zlen (phys_of P ids x))) with (length (phys_of P ids x)) by (unfold zlen; lia). by apply view4_flat4. }
  rewrite Ev, (scatter_spec _ _ _ _ _ Hc Hrg). cbn [rbind]. rewrite Hn. set (E1 := put_blocks _ _ _ _ _).
  rewrite (IH E1 (off + whole_bytes tokens x)); try done.
  - by rewrite Z.add_assoc.
  - apply Forall_forall. intros y Hy. eapply side_other; [|exact (proj1 (Forall_forall _ _) Hds y Hy)]. unfold E1, put_blocks. apply dget_dset_ne. intros Ek. apply Hni. rewrite Ek. by apply list_elem_of_fmap_2.
Qed.

Lemma whole_stored_same C ids tokens a a' l : ∀ off,
  Forall part_shaped l → Forall (side P chunk_blocks C ids tokens) l → 0 ≤ off → same_in (0, off + wholes tokens l) a a' →
  whole_stored C ids tokens a off l → whole_stored C ids tokens a' off l.
Proof.
  unfold wholes. induction l as [|x l IH]; intros off Hx Hs H0 Hsm Hst; [done|]. csimpl in *. apply Forall_cons in Hx as [Hx Hxs]. apply Forall_cons in Hs as [Hs Hss].
  destruct Hst as [Hh Hst]. destruct (whole_numbers _ _ _ _ Hx Hs) as (_ & Hn & Hw). destruct (whole_dims _ _ _ _ Hx Hs) as [_ Hz].
  assert (Hrest : 0 ≤ sumZ (whole_bytes tokens <$> l)).
  { apply sumZ_fmap_nonneg. intros y Hy. destruct (whole_numbers C ids tokens y) as (_ & _ & ?); [by apply (proj1 (Forall_forall _ _) Hxs)|by apply (proj1 (Forall_forall _ _) Hss)|lia]. }
  split; [|apply IH; try done; [lia|by rewrite <- Z.add_assoc]]. eapply holds_same; [exact Hh|exact Hsm|simpl; lia|]. rewrite zlen_bytes_of, Hz, Hn. simpl. lia.
Qed.

(** ** A chunk *)

Lemma parts_shaped kv : whole_fits kv → Forall part_shaped (parts lay kv).
Proof. intros Hf. apply Forall_forall. intros x Hx. by apply (ag_parts _ Hf), (parts_sub P kv). Qed.

Lemma whole_indices s ids tokens kv C :
  whole_fits kv → sides P chunk_blocks C ids tokens → indices_fit P (block_indices s) ids →
  (∃ i ix, group_indices P s ids = Ok (with_indices i s, ix) ∧ Forall (λ x, indices_of (with_indices i s) ix x = Ok (phys_of P ids x)) (parts lay kv)) ∧
  Forall (λ x, is_Ok (py_index ids (group_index x))) (parts lay kv).
Proof.
  intros Hf Hs Hi. assert (Hl : ∀ x, x ∈ parts lay kv → 0 ≤ group_index x ∧ is_Some (index_rows_by_group lay !! group_index x) ∧
    ∃ l, ids !! num (group_index x) = Some l ∧ l ≠ [] ∧ phys_of P ids x = physical_ids P l).
  { intros x Hx. destruct (ag_rows _ Hf x (parts_sub P kv x Hx)) as [Hg Hr]. split; [done|]. split; [done|].
    apply (whole_ids C ids tokens); [by apply (ag_parts _ Hf), (parts_sub P kv)|by apply (proj1 (Forall_forall _ _) (sides_parts P chunk_blocks C ids tokens kv Hs))]. }
  split.
  - destruct (group_indices_spec P s ids Hi) as (i & ix & E & Hall). exists i, ix. split; [exact E|]. apply Forall_forall. intros x Hx.
    destruct (Hl x Hx) as (Hg & Hr & l & Hids & Hne & ->). apply (indices_of_spec P). by apply Hall.
  - apply Forall_forall. intros x Hx. destruct (Hl x Hx) as (Hg & _ & l & Hids & _). rewrite py_index_nonneg, Hids by done. by eexists.
Qed.

Lemma wholes_bound C ids tokens kv : whole_fits kv → sides P chunk_blocks C ids tokens → wholes tokens (parts lay kv) ≤ arena_bytes lay.
Proof.
  intros Hf Hs. etrans; [|apply (ag_arena _ Hf)]. unfold wholes. pose proof (parts_shaped kv Hf) as Hx. pose proof (sides_parts P chunk_blocks C ids tokens kv Hs) as Hss.
  revert Hx Hss. induction (parts lay kv) as [|x l IH]; intros Hx Hss; [done|]. csimpl. apply Forall_cons in Hx as [Hx Hxs]. apply Forall_cons in Hss as [Hs' Hss].
  destruct (whole_numbers _ _ _ _ Hx Hs') as (_ & _ & Hw). specialize (IH Hxs Hss). lia.
Qed.

Lemma encode_whole C s ids kv tokens :
  whole_fits kv → stage P "aggregate" = true → sides P chunk_blocks C ids tokens → indices_fit P (block_indices s) ids → zlen (arena_a s) = arena_bytes lay →
  let n := wholes tokens (parts lay kv) in
  ∃ s', encode P C s ids kv tokens = Ok (s', mkChunk n n 0) ∧ 0 ≤ n ≤ arena_bytes lay ∧ whole_stored C ids tokens (arena_a s') 0 (parts lay kv).
Proof.
  intros Hf Hagg Hs Hi Ha n. destruct (whole_indices s ids tokens kv C Hf Hs Hi) as [(i & ix & Hgi & Hall) Hseg]. pose proof (sides_parts P chunk_blocks C ids tokens kv Hs) as Hss.
  unfold encode, groups_known. rewrite fold_known by (eapply Forall_impl; [exact Hss|]; intros x [_ ->]; by eexists). cbn [rbind].
  destruct (ag_first _ Hf) as (x0 & Hx0 & ->). cbn [of_option rbind]. destruct (proj1 (Forall_forall _ _) Hseg x0 Hx0) as [l0 ->]. cbn [rbind]. rewrite Hagg.
  unfold encode_aggregate, segments_known. rewrite fold_known by done. cbn [rbind]. rewrite Hgi. cbn [rbind].
  pose proof (wholes_bound C ids tokens kv Hf Hs) as Hn. fold n in Hn.
  destruct (encode_segments C ids tokens ix (parts lay kv) (with_indices i s) 0) as (a & -> & _ & Hst & Hn0); try done; [by apply parts_shaped|unfold n in Hn; simpl; lia|].
  cbn [rbind]. rewrite Z.add_0_l. fold n in Hn0 |- *. eexists. split; [reflexivity|]. split; [lia|exact Hst].
Qed.

Lemma decode_whole C E ids dest tokens kv n a s :
  whole_fits kv → stage P "aggregate" = true → sides P chunk_blocks C ids tokens → sides P chunk_blocks E dest tokens → indices_fit P (block_indices s) dest →
  zlen (arena_a s) = arena_bytes lay → n = wholes tokens (parts lay kv) → 0 ≤ n ≤ arena_bytes lay →
  whole_stored C ids tokens a 0 (parts lay kv) → same_in (0, n) a (arena_a s) →
  ∃ s', runtime_decode P E s dest kv n n tokens = Ok (receive_whole C ids dest E (parts lay kv), s').
Proof.
  intros Hf Hagg Hs Hd Hi Ha En Hn Hst Hsm. destruct (whole_indices s dest tokens kv E Hf Hd Hi) as [(i & ix & Hgi & Hall) Hseg].
  unfold runtime_decode, runtime_data_bytes. rewrite Hagg. cbn [rbind].
  change (sumZ _) with (wholes tokens (parts lay kv)). rewrite <- En, Z.eqb_refl. cbn [negb raise_if rbind].
  rewrite Ha, (proj2 (Z.leb_le 0 n)), (proj2 (Z.leb_le n _)) by lia. cbn [andb negb raise_if rbind]. rewrite andb_false_r. cbn [raise_if rbind].
  unfold decode. rewrite Hagg. unfold decode_aggregate, segments_known. rewrite fold_known by done. cbn [rbind]. rewrite Hgi. cbn [rbind].
  rewrite (decode_segments C ids dest tokens); [cbn [rbind]; by eexists|by apply parts_shaped|by apply sides_parts|by apply sides_parts|apply Hf|exact Hall|].
  eapply (whole_stored_same C ids tokens a); [by apply parts_shaped|by apply sides_parts|lia| |exact Hst]. rewrite Z.add_0_l, <- En. exact Hsm.
Qed.

End aggregate.
