(* ===== verification/RtRuntime.v ===== *)
(** * The runtime: head selection, memory plan, slots and binding

    [compression/runtime/scores.py]: which heads are quantized with fewer
    levels, and the order that puts them first. [memory.py]: the plan, with
    the probe of the codec's memory as an argument. [manager.py]: the regions
    that the runtime takes from its buffer, and what binding the KV caches
    makes of the layout and of the pipelines. *)

From Stdlib Require Import SpecFloat.
From S2P Require Import Prelude PyData RtConfig RtLayout Buffers RtPipeline.

(** ** scores.py *)

Record HeadSelection := mkSelection {
  low_counts : gmap Z Z;
  local_orders : gmap Z (list Z)
}.

(** A [float32] array: of two dimensions with its width, or another *)
Inductive ndarray := Array2 (width : Z) (rows : list (list float)) | OtherArray.

Definition is_finite (f : float) : bool := match f with S754_zero _ | S754_finite _ _ _ => true | _ => false end.

(** [round(size * hybrid_ratio)] *)
Definition low_head_count (size : Z) (ratio : json) : result Z :=
  match ratio with
  | JInt n => Ok (size * n)
  | JBool b => Ok (if b then size else 0)
  | JFloat f => of_option (ValueError "cannot convert float NaN to integer") (F.round (F.mul (F.of_Z size) f))
  | _ => Err TypeError
  end.

(** The offsets of the heads of the layers in the flat scores *)
Definition candidate_offsets (height width : Z) (specs : list (string * CacheSpec)) : result (list Z) :=
  rfold (λ acc e,
    let li := layer_index e.2 in
    raise_if (negb ((0 <=? li) && (li <? height))) (ValueError "Head scores have no row for layer") ;?
    Ok (acc ++ seqZ (li * width) width)) [] specs.

(** [np.argsort(keys, kind="stable")] *)
Definition argsort (keys : list float) : list nat :=
  isort (λ i j, F.leb (nth i keys F.zero) (nth j keys F.zero)) (seq 0 (length keys)).

(** The mask of the [low] candidates with the lowest scores *)
Definition low_mask (flat : list float) (candidates : list Z) (low : Z) : list bool :=
  let keys := (λ i, nth (num i) flat F.zero) <$> candidates in
  let selected := take (num low) (argsort keys) in
  foldl (λ m i, <[num (nth i candidates 0) := true]> m) (replicate (length flat) false) selected.

Definition flatnonzero (m : list bool) : list Z := filter (λ i, nth (num i) m false = true) (seqZ 0 (zlen m)).

(** Where the heads of this rank start in a row of the scores *)
Definition first_head (score_heads local_heads tp_rank tp_size : Z) : result Z :=
  if score_heads =? local_heads then Ok 0
  else if score_heads =? local_heads * tp_size then Ok (tp_rank * local_heads)
  else if (local_heads =? 1) && (0 <? score_heads) && (score_heads <? tp_size) && (tp_size mod score_heads =? 0) then
    Ok (tp_rank / (tp_size / score_heads))
  else Err (ValueError "Head score width is incompatible with local KV heads and TP size").

Definition select_heads (mask : list bool) (width tp_rank tp_size : Z) (sel : HeadSelection) (e : string * CacheSpec) : result HeadSelection :=
  let heads := num_kv_heads e.2 in
  let? start := first_head width heads tp_rank tp_size in
  let row := take (num width) (drop (num (layer_index e.2 * width)) mask) in
  let local_mask := take (num heads) (drop (num start) row) in
  let low := flatnonzero local_mask in
  let high := flatnonzero (negb <$> local_mask) in
  Ok (mkSelection (<[layer_index e.2 := zlen low]> (low_counts sel)) (<[layer_index e.2 := low ++ high]> (local_orders sel))).

(** [scores] is [None] where no path is given; [_load_scores] is then called
    with the path. *)
Definition build_head_selection (load_scores : json → result ndarray) (specs : list (string * CacheSpec)) (config : CompressionConfig)
    (tp_rank tp_size : Z) (scores : option ndarray) : result HeadSelection :=
  match split_type config with
  | SplitLayer =>
      Ok (mkSelection (list_to_map (rev ((λ e : string * CacheSpec, (layer_index e.2, 0)) <$> specs)))
            (list_to_map (rev ((λ e : string * CacheSpec, (layer_index e.2, seqZ 0 (num_kv_heads e.2))) <$> specs))))
  | SplitHead =>
      let? scores := (match scores with
                      | Some s => Ok s
                      | None => raise_if (match score_path config with JNull => true | _ => false end) AssertionError ;? load_scores (score_path config)
                      end) in
      match scores with
      | Array2 width rows =>
          raise_if (negb (forallb (forallb is_finite) rows)) (ValueError "Head scores must be a finite 2D array of layers and KV heads.") ;?
          let? candidates := candidate_offsets (zlen rows) width specs in
          let? low := low_head_count (zlen candidates) (hybrid_ratio config) in
          let mask := low_mask (concat rows) candidates low in
          rfold (select_heads mask width tp_rank tp_size) (mkSelection ∅ ∅) specs
      | OtherArray => Err (ValueError "Head scores must be a finite 2D array of layers and KV heads.")
      end
  end.

(** ** memory.py: the plan *)

Definition DRIVER_GUARD_BYTES : Z := Z.shiftl 4 20.

Record CompressionMemoryPlan := mkPlan {
  plan_config : CompressionConfig;
  plan_layout : CompressionLayout;
  head_selection : HeadSelection;
  codec_workspace_bytes : Z;
  codec_max_output_bytes : Z * Z;
  plan_blocks_per_logical : Z;
  metadata_bytes : Z;
  retained_driver_bytes : Z;
  guard_bytes : Z;
  reserved_bytes : Z
}.

Definition with_split (t : SplitType) (c : CompressionConfig) : CompressionConfig :=
  mkConfig (enabled c) (transport c) (seed c) t (score_path c) (hybrid_ratio c) (axis_key c) (axis_value c) (high_key_num_levels c)
    (high_value_num_levels c) (low_key_num_levels c) (low_value_num_levels c) (slot_count c) (logical_blocks_per_chunk c) (pipeline c).

Definition with_arena (n : Z) (l : CompressionLayout) : CompressionLayout :=
  mkLayout (layer_parts l) (raw_bytes_by_part l) (u8_bytes_by_part l) (packed_bytes_by_part l) (aux_bytes_by_part l) n
    (scratch_stride l) (u8_base l) (aux_arena_bytes l) (fa_group_indices l) (index_rows_by_group l) (aggregate l).

(** The layers by name: one part for each *)
Definition unique_layers (l : CompressionLayout) : list (string * LayerPartLayout) :=
  foldl (λ d x, dset d (layer_name x) x) [] (layer_parts l).

Definition num_index_rows (l : CompressionLayout) : Z :=
  Z.max (Z.max (Z.of_nat (size (index_rows_by_group l))) (zlen (unique_layers l))) 1.

(** What the metadata of a slot takes: signs and head orders *)
Definition sign_bytes (transformer : bool) (l : CompressionLayout) : Z :=
  if transformer then sumZ ((λ x, round_up (num_heads x * part_head_size x * 2) ALIGNMENT) <$> layer_parts l) else 0.
Definition order_bytes (l : CompressionLayout) : Z := sumZ ((λ e : string * LayerPartLayout, round_up (num_heads e.2 * 8) ALIGNMENT) <$> unique_layers l).

Definition slot_bytes (config : CompressionConfig) (l : CompressionLayout) : Z :=
  arena_bytes l + (if uses_aggregate config then 0 else arena_bytes l) + aux_arena_bytes l + raw_tail_capacity l.

Definition plan_of (config : CompressionConfig) (l : CompressionLayout) (selection : HeadSelection) (blocks_per_logical workspace retained : Z) (outputs : Z * Z) :
    CompressionMemoryPlan :=
  let shared := sign_bytes (uses_transformer config) l + order_bytes l in
  let rows := round_up (num_index_rows l * logical_blocks_per_chunk config * blocks_per_logical * 8) ALIGNMENT in
  let metadata := shared + slot_count config * rows + (slot_count config - 1) * shared in
  let workspace := if uses_codec config then workspace * slot_count config else workspace in
  let retained := if uses_codec config then retained * slot_count config else retained in
  mkPlan config l selection workspace outputs blocks_per_logical metadata retained DRIVER_GUARD_BYTES
    (round_up (slot_count config * slot_bytes config l + workspace + metadata + retained + DRIVER_GUARD_BYTES) ALIGNMENT).

(** [max(selection.low_counts, default=-1)] *)
Definition last_layer (selection : HeadSelection) : Z :=
  match (map_to_list (low_counts selection)).*1 with [] => -1 | k :: ks => max_over id k ks end.

(** [probe] measures the codec: its workspace, its largest outputs and what
    the driver keeps. *)
Definition build_memory_plan (load_scores : json → result ndarray) (probe : CompressionLayout → Z * (Z * Z) * Z)
    (config : CompressionConfig) (specs : list (string * CacheSpec)) (blocks_per_logical tp_size tp_rank num_layers : Z) : result (option CompressionMemoryPlan) :=
  if negb (enabled config) then Ok None
  else
    let? scores := (if truthy (score_path config) then let? s := load_scores (score_path config) in Ok (Some s) else Ok None) in
    let planning := if in_pipeline "quantizer" config then config else with_split SplitLayer config in
    let? selection := build_head_selection load_scores specs planning tp_rank tp_size scores in
    let num_layers := if num_layers =? 0 then last_layer selection + 1 else num_layers in
    let? l := build_compression_layout specs planning (low_counts selection) num_layers ∅ in
    let '(workspace, outputs, retained) := if uses_codec config then probe l else (0, (0, 0), 0) in
    let l := with_arena (round_up (Z.max (arena_bytes l) (Z.max outputs.1 outputs.2)) ALIGNMENT) l in
    raise_if ((blocks_per_logical =? 0) && negb (zlen (layer_parts l) =? 0)) ZeroDivisionError ;?
    raise_if (existsb (λ x, negb (part_block_size x mod blocks_per_logical =? 0)) (layer_parts l)) (ValueError "Logical attention blocks must contain whole kernel blocks.") ;?
    Ok (Some (plan_of config l selection blocks_per_logical workspace retained outputs)).

(** ** manager.py: the buffer of the runtime *)

(** [_PoolCarver.take]: the region, and the offset after it *)
Fixpoint carve (offset : Z) (sizes : list Z) : list (Z * Z) :=
  match sizes with
  | [] => []
  | n :: sizes => let o := round_up offset ALIGNMENT in (o, n) :: carve (o + n) sizes
  end.

(** The sizes that [CompressionRuntime.__init__] takes, in their order *)
Definition slot_requests (plan : CompressionMemoryPlan) (blocks_per_logical : Z) : list Z :=
  let l := plan_layout plan in
  [arena_bytes l; if uses_aggregate (plan_config plan) then 0 else arena_bytes l; aux_arena_bytes l; raw_tail_capacity l;
   logical_blocks_per_chunk (plan_config plan) * blocks_per_logical * num_index_rows l * 8].

Definition metadata_request (transformer : bool) (st : list string * list Z) (x : LayerPartLayout) : list string * list Z :=
  let '(seen, sizes) := st in
  let '(seen, sizes) := (if bool_decide (layer_name x ∈ seen) then (seen, sizes) else (seen ++ [layer_name x], sizes ++ [num_heads x * 8])) in
  if transformer then (seen, sizes ++ [num_heads x * part_head_size x * 2]) else (seen, sizes).

Definition metadata_requests (plan : CompressionMemoryPlan) : list Z :=
  (foldl (metadata_request (uses_transformer (plan_config plan))) ([], []) (layer_parts (plan_layout plan))).2.

Definition runtime_requests (plan : CompressionMemoryPlan) (blocks_per_logical : Z) : list Z :=
  let slots := num (slot_count (plan_config plan)) in
  concat (replicate slots (slot_requests plan blocks_per_logical)) ++
  (if uses_codec (plan_config plan) then replicate slots (codec_workspace_bytes plan / Z.of_nat slots) else []) ++
  concat (replicate slots (metadata_requests plan)).

Definition fixed_bytes (plan : CompressionMemoryPlan) : Z :=
  slot_count (plan_config plan) * slot_bytes (plan_config plan) (plan_layout plan) + codec_workspace_bytes plan + metadata_bytes plan.

(** ** manager.py: binding *)

Definition regroup (g : Z) (x : LayerPartLayout) : LayerPartLayout :=
  mkPart (layer_name x) (part_layer_index x) (kv_part x) g (part_block_size x) (num_heads x) (part_head_size x) (part_dtype x)
    (raw_offset x) (raw_bytes x) (u8_offset x) (sections x).

Definition bind_layout (group_indices : list (string * Z)) (l : CompressionLayout) : result CompressionLayout :=
  let? ps := rmap (λ x, let? g := of_option KeyError (dget group_indices (layer_name x)) in Ok (regroup g x)) (layer_parts l) in
  let groups : gset Z := list_to_set (group_index <$> ps) in
  Ok (mkLayout ps (raw_bytes_by_part l) (u8_bytes_by_part l) (packed_bytes_by_part l) (aux_bytes_by_part l) (arena_bytes l)
        (scratch_stride l) (u8_base l) (aux_arena_bytes l) groups (rows_of groups) (aggregate l)).

(** [build_signs]: for every head of the order a row of [±1], drawn by a
    generator with a seed of its own *)
Definition build_signs (sign_row : Z → Z → vec) (x : LayerPartLayout) (order : list Z) (seed : Z) : token :=
  (λ h, sign_row (Z.lxor (Z.lxor seed (Z.shiftl (part_layer_index x) 16)) h) (part_head_size x)) <$> order.

(** The metadata of the pipelines, and their sizes; [pick] is the first
    element that an iteration over a set gives. *)
Definition bind_pipeline (pick : gset Z → option Z) (sign_row : Z → Z → vec) (plan : CompressionMemoryPlan) (group_indices : list (string * Z)) :
    result CompressionPipeline :=
  let config := plan_config plan in
  let? l := bind_layout group_indices (plan_layout plan) in
  let? orders := rmap (λ e : string * LayerPartLayout,
      let? o := of_option KeyError (local_orders (head_selection plan) !! part_layer_index e.2) in Ok (e.1, o)) (unique_layers l) in
  let? sg := (if uses_transformer config then
      rfold (λ d x,
        let? o := of_option KeyError (local_orders (head_selection plan) !! part_layer_index x) in
        let? seed := of_option TypeError (match seed config with JInt z => Some z | JBool b => Some (Z.b2z b) | _ => None end) in
        Ok (dset d (layer_name x, kv_part x) (build_signs sign_row x o seed))) [] (layer_parts l)
    else Ok []) in
  let identity : gset string := list_to_set ((filter (λ e : string * list Z, e.2 = seqZ 0 (zlen e.2)) orders).*1) in
  Ok (mkPipeline l (pick (fa_group_indices l)) (plan_blocks_per_logical plan) sg orders identity (pipeline config)
        (if uses_codec config then [(packed_bytes_by_part l).1; (packed_bytes_by_part l).2] else [])).

(** The views of a slot that [CompressionRuntime.__init__] takes; their
    contents are whatever the memory holds. *)
Record sized (plan : CompressionMemoryPlan) (s : CompressionSlotBuffers) : Prop := {
  sz_a : zlen (arena_a s) = arena_bytes (plan_layout plan);
  sz_b : zlen (arena_b s) = if uses_aggregate (plan_config plan) then 0 else arena_bytes (plan_layout plan);
  sz_aux : zlen (aux s) = aux_arena_bytes (plan_layout plan);
  sz_tail : ∃ t, raw_tail s = Some t ∧ zlen t = raw_tail_capacity (plan_layout plan);
  sz_rows : zlen (block_indices s) = num_index_rows (plan_layout plan);
  sz_row : Forall (λ r, zlen r = logical_blocks_per_chunk (plan_config plan) * plan_blocks_per_logical plan) (block_indices s)
}.
