(* ===== verification/RtRuntimeThms.v ===== *)
(** * The runtime that a plan builds

    Head orders are permutations with the low heads first
    ([selection_orders]); the regions taken from the buffer are inside it and
    apart ([requests_fit]); the sections of a layout are cut as its stages ask
    for, those of the aggregate transport included ([built_whole]). *)

From Stdlib Require Import SpecFloat.
From S2P Require Import Prelude PyData RtConfig RtLayout Buffers RtPipeline RtPipelineOps RtRuntime.

(** ** Head selection *)

Lemma filter_same {A} (Q R : A → Prop) `{∀ x, Decision (Q x), ∀ x, Decision (R x)} (l : list A) : (∀ x, x ∈ l → Q x ↔ R x) → filter Q l = filter R l.
Proof.
  induction l as [|x l IH]; intros HQ; [done|]. rewrite !filter_cons, IH by (intros; apply HQ; by right). pose proof (HQ x ltac:(by left)).
  repeat case_decide; tauto.
Qed.

Lemma flatnonzero_order m : is_order (length m) (flatnonzero m ++ flatnonzero (negb <$> m)).
Proof.
  unfold flatnonzero, is_order. replace (zlen (negb <$> m)) with (zlen m) by (unfold zlen; by rewrite length_fmap). fold (zlen m).
  rewrite (filter_same (λ i, nth (num i) (negb <$> m) false = true) (λ i, ¬ nth (num i) m false = true)); [apply filter_app_complement|].
  intros i Hi%elem_of_seqZ. unfold zlen in Hi. destruct (lookup_lt_is_Some_2 m (num i)) as [b Hb]; [lia|].
  rewrite (nth_lookup_Some _ _ _ _ Hb), (nth_lookup_Some (negb <$> m) _ _ (negb b)) by (by rewrite list_lookup_fmap, Hb). by destruct b.
Qed.

Lemma elem_of_flatnonzero m i : i ∈ flatnonzero m ↔ 0 ≤ i ∧ m !! num i = Some true.
Proof.
  unfold flatnonzero. rewrite list_elem_of_filter, elem_of_seqZ. unfold zlen. split.
  - intros [Hn Hi]. split; [lia|]. destruct (lookup_lt_is_Some_2 m (num i)) as [b Hb]; [lia|]. rewrite (nth_lookup_Some _ _ _ _ Hb) in Hn. by rewrite Hb, Hn.
  - intros [Hi Hm]. apply lookup_lt_Some in Hm as Hl. rewrite (nth_lookup_Some _ _ _ _ Hm). split; [done|lia].
Qed.

Lemma low_mask_length flat candidates low : length (low_mask flat candidates low) = length flat.
Proof.
  unfold low_mask. set (sel := take _ _). clearbody sel. rewrite <- (length_replicate (length flat) false) at 2. generalize (replicate (length flat) false). clear low.
  induction sel as [|i sel IH]; intros m; [done|]. simpl. rewrite IH. by rewrite length_insert.
Qed.

(** The heads of a rank are inside the row. *)
Lemma first_head_bounds width heads rank size start :
  first_head width heads rank size = Ok start → 0 < heads → 0 ≤ rank < size → 0 ≤ start ∧ start + heads ≤ width.
Proof.
  unfold first_head. intros E Hh Hr. destruct (width =? heads) eqn:E1; [injection E as <-; lia|].
  destruct (width =? heads * size) eqn:E2; [injection E as <-; zbool; nia|].
  destruct ((heads =? 1) && (0 <? width) && (width <? size) && (size mod width =? 0)) eqn:E3; [|done]. injection E as <-.
  repeat rewrite andb_true_iff in E3. zbool. destruct E3 as [[[E3 E4] E5] E6]. zbool. subst heads.
  apply Z.mod_divide in E6; [|lia]. destruct E6 as [q Hq]. rewrite Hq, Z.div_mul by lia. assert (0 < q) by nia. split; [apply Z.div_pos; lia|].
  assert (rank / q < width) by (apply Z.div_lt_upper_bound; nia). lia.
Qed.

(** The selection of a layer: an order of its heads, the low ones first *)
Record selected (sel : HeadSelection) (e : string * CacheSpec) : Prop := {
  sl_count : ∃ low, low_counts sel !! layer_index e.2 = Some low ∧ 0 ≤ low ≤ num_kv_heads e.2;
  sl_order : ∃ order, local_orders sel !! layer_index e.2 = Some order ∧ is_order (num (num_kv_heads e.2)) order
}.

Lemma select_heads_spec mask width rank size sel e sel' :
  select_heads mask width rank size sel e = Ok sel' → 0 < num_kv_heads e.2 → 0 ≤ rank < size → 0 ≤ layer_index e.2 → (layer_index e.2 + 1) * width ≤ zlen mask → 0 ≤ width →
  selected sel' e ∧ ∀ li, li ≠ layer_index e.2 → low_counts sel' !! li = low_counts sel !! li ∧ local_orders sel' !! li = local_orders sel !! li.
Proof.
  unfold select_heads. intros E Hh Hr Hli Hlen Hw. apply rbind_Ok in E as (start & Hs & E). injection E as <-. destruct (first_head_bounds _ _ _ _ _ Hs Hh Hr) as [H0 H1].
  set (m := take (num (num_kv_heads e.2)) _). assert (Hm : length m = num (num_kv_heads e.2)) by (unfold m, zlen in *; rewrite length_take, length_drop, length_take, length_drop; nia).
  pose proof (flatnonzero_order m) as Ho. rewrite Hm in Ho. split; [split|].
  - exists (zlen (flatnonzero m)). simpl. rewrite lookup_insert_eq. split; [done|]. apply order_length in Ho. rewrite length_app in Ho. unfold zlen. lia.
  - eexists. simpl. rewrite lookup_insert_eq. split; [done|exact Ho].
  - intros li Hne. simpl. by rewrite !lookup_insert_ne.
Qed.

Lemma select_loop mask width rank size specs : ∀ sel sel',
  rfold (select_heads mask width rank size) sel specs = Ok sel' → NoDup ((λ e : string * CacheSpec, layer_index e.2) <$> specs) →
  (∀ e, e ∈ specs → 0 < num_kv_heads e.2 ∧ 0 ≤ layer_index e.2 ∧ (layer_index e.2 + 1) * width ≤ zlen mask) → 0 ≤ rank < size → 0 ≤ width →
  (∀ e, e ∈ specs → selected sel' e) ∧ ∀ li, li ∉ (λ e : string * CacheSpec, layer_index e.2) <$> specs → low_counts sel' !! li = low_counts sel !! li ∧ local_orders sel' !! li = local_orders sel !! li.
Proof.
  induction specs as [|e specs IH]; intros sel sel' E Hnd Hs Hr Hw.
  - injection E as <-. split; [intros e He; by apply elem_of_nil in He|done].
  - cbn [rfold] in E. apply rbind_Ok in E as (sel1 & E1 & E). rewrite fmap_cons in Hnd. apply NoDup_cons in Hnd as [Hni Hnd].
    destruct (Hs e ltac:(by left)) as (Hh & Hli & Hlen). destruct (select_heads_spec _ _ _ _ _ _ _ E1 Hh Hr Hli Hlen Hw) as [Hsel Hoth].
    destruct (IH _ _ E Hnd ltac:(intros; apply Hs; by right) Hr Hw) as [Hall Hrest]. split.
    + intros e' [->|He']%elem_of_cons; [|by apply Hall]. destruct (Hrest _ Hni) as [R1 R2]. destruct Hsel as [S1 S2]. split; [by rewrite R1|by rewrite R2].
    + intros li Hli'. rewrite fmap_cons in Hli'. apply not_elem_of_cons in Hli' as [Hne Hli']. destruct (Hrest _ Hli') as [-> ->]. by apply Hoth.
Qed.

(** An array has rows of one width. *)
Definition array_ok (a : ndarray) : Prop :=
  match a with Array2 width rows => 0 ≤ width ∧ Forall (λ r, zlen r = width) rows | OtherArray => True end.

Lemma candidate_rows height width specs : ∀ acc l, rfold (λ acc e,
    let li := layer_index e.2 in
    raise_if (negb ((0 <=? li) && (li <? height))) (ValueError "Head scores have no row for layer") ;?
    Ok (acc ++ seqZ (li * width) width)) acc specs = Ok l → ∀ e : string * CacheSpec, e ∈ specs → 0 ≤ layer_index e.2 < height.
Proof.
  induction specs as [|e specs IH]; intros acc l E e' He; [by apply elem_of_nil in He|]. cbn [rfold] in E. apply rbind_Ok in E as (acc' & E1 & E).
  apply rbind_Ok in E1 as (u & Hr & _). apply raise_if_Ok, negb_false_iff, andb_true_iff in Hr as [H1 H2]. zbool.
  apply elem_of_cons in He as [->|He]; [lia|]. by eapply IH.
Qed.

Lemma concat_rows width (rows : list (list float)) : 0 ≤ width → Forall (λ r, zlen r = width) rows → zlen (concat rows) = zlen rows * width.
Proof.
  intros Hw Hf. unfold zlen in *. rewrite (length_concat_uniform (num width)); [nia|]. eapply Forall_impl; [exact Hf|]. simpl. intros r Hr. lia.
Qed.

Lemma layer_map_lookup {X} (f : CacheSpec → X) specs e :
  NoDup ((λ e : string * CacheSpec, layer_index e.2) <$> specs) → e ∈ specs →
  (list_to_map (rev ((λ e : string * CacheSpec, (layer_index e.2, f e.2)) <$> specs)) : gmap Z X) !! layer_index e.2 = Some (f e.2).
Proof.
  intros Hnd He. apply elem_of_list_to_map_1.
  - rewrite <- (Permutation_rev (_ <$> specs)), <- list_fmap_compose. exact Hnd.
  - rewrite <- (Permutation_rev (_ <$> specs)). apply list_elem_of_fmap. by exists e.
Qed.

Lemma selection_spec load specs config rank size scores sel :
  build_head_selection load specs config rank size scores = Ok sel → NoDup ((λ e : string * CacheSpec, layer_index e.2) <$> specs) →
  (∀ a, scores = Some a ∨ load (score_path config) = Ok a → array_ok a) → Forall (λ e, spec_ok e.2) specs → 0 ≤ rank < size →
  ∀ e, e ∈ specs → selected sel e.
Proof.
  unfold build_head_selection. intros E Hnd Ha Hs Hr e He. destruct (split_type config).
  - apply rbind_Ok in E as (a & Hsc & E). assert (Hok : array_ok a).
    { apply Ha. destruct scores; [left; congruence|right]. apply rbind_Ok in Hsc as (u & _ & ?). done. }
    destruct a as [width rows|]; [|done]. destruct Hok as [Hw Hrows]. apply rbind_Ok in E as (u & _ & E). apply rbind_Ok in E as (cand & Hc & E).
    apply rbind_Ok in E as (low & _ & E). eapply select_loop; [exact E|done| |done|done|done]. intros e' He'.
    pose proof (candidate_rows _ _ _ _ _ Hc e' He') as Hli. pose proof (spec_heads _ (proj1 (Forall_forall _ _) Hs e' He')).
    split; [done|]. split; [lia|]. unfold zlen at 1. rewrite low_mask_length. fold (zlen (concat rows)). rewrite (concat_rows width) by done. nia.
  - injection E as <-. pose proof (spec_heads _ (proj1 (Forall_forall _ _) Hs e He)). split; simpl.
    + exists 0. split; [|lia]. by apply (layer_map_lookup (λ _, 0)).
    + eexists. split; [by apply (layer_map_lookup (λ s, seqZ 0 (num_kv_heads s)))|]. unfold is_order. by rewrite Z2Nat.id by lia.
Qed.

(** ** The parts of a layout *)

(** A part by what its cache determines *)
Definition shape (x : LayerPartLayout) : string * Z * KVPart * Z * Z * Z :=
  (layer_name x, part_layer_index x, kv_part x, part_block_size x, num_heads x, part_head_size x).

Definition shapes_of (e : string * CacheSpec) : list (string * Z * KVPart * Z * Z * Z) :=
  [(e.1, layer_index e.2, KPart, block_size e.2, num_kv_heads e.2, head_size e.2);
   (e.1, layer_index e.2, VPart, block_size e.2, num_kv_heads e.2, head_size_v e.2)].

Lemma place_part_shape config name spec g lo hi st p hs ax ll hl :
  shape <$> built_parts (place_part config name spec g lo hi st (p, hs, ax, ll, hl)) =
  (shape <$> built_parts st) ++ [(name, layer_index spec, p, block_size spec, num_kv_heads spec, hs)].
Proof. unfold place_part. destruct (foldl _ _ _) as [[aux start] secs]. cbn [built_parts]. by rewrite fmap_app. Qed.

Lemma foldl_two {X Y} (f : X → Y → X) s a b : foldl f s [a; b] = f (f s a) b.
Proof. done. Qed.

Lemma place_layers_shape config low n groups specs : ∀ st st',
  rfold (place_layer config low n groups) st specs = Ok st' → shape <$> built_parts st' = (shape <$> built_parts st) ++ (specs ≫= shapes_of).
Proof.
  induction specs as [|[name spec] specs IH]; intros st st' E; [injection E as <-; by rewrite app_nil_r|].
  cbn [rfold] in E. apply rbind_Ok in E as (st1 & E1 & E). rewrite (IH _ _ E). unfold place_layer in E1. apply rbind_Ok in E1 as ([lo hi] & _ & E1).
  apply Ok_inj in E1. rewrite <- E1. unfold part_params. rewrite foldl_two, !place_part_shape. cbn [built_parts]. csimpl. by rewrite <- !app_assoc.
Qed.

Lemma built_shapes specs config low n groups l :
  build_compression_layout specs config low n groups = Ok l →
  shape <$> layer_parts l = isort (λ a b, layer_index a.2 <=? layer_index b.2) specs ≫= shapes_of ∧
  Forall (spec_supported config) specs.
Proof.
  unfold build_compression_layout. set (fa := isort _ specs). intros E. apply rbind_Ok in E as ([] & Hc & E). destruct fa as [|e es] eqn:Ef; [done|].
  apply rbind_Ok in E as (st & Hst & E). injection E as <-. cbn [finish_layout layer_parts]. rewrite (place_layers_shape _ _ _ _ _ _ _ Hst). split; [done|].
  apply check_specs_Ok in Hc as (_ & _ & Hall). rewrite <- Ef in Hall. unfold fa in Hall. by rewrite isort_perm in Hall.
Qed.

(** Every part comes from a cache, and every cache has its two parts. *)
Lemma built_part specs config low n groups l :
  build_compression_layout specs config low n groups = Ok l →
  (∀ x, x ∈ layer_parts l → ∃ e, e ∈ specs ∧ shape x ∈ shapes_of e) ∧
  (∀ e s, e ∈ specs → s ∈ shapes_of e → ∃ x, x ∈ layer_parts l ∧ shape x = s).
Proof.
  intros E. destruct (built_shapes _ _ _ _ _ _ E) as [Hs _]. split.
  - intros x Hx. assert (Hin : shape x ∈ shape <$> layer_parts l) by by apply list_elem_of_fmap_2. rewrite Hs in Hin. apply list_elem_of_bind in Hin as (e & He & Hin).
    exists e. split; [by rewrite isort_perm in Hin|done].
  - intros e s He Hse. assert (Hin : s ∈ shape <$> layer_parts l).
    { rewrite Hs. apply list_elem_of_bind. exists e. split; [done|]. by rewrite isort_perm. }
    apply list_elem_of_fmap in Hin as (x & -> & Hx). by exists x.
Qed.

Lemma shapes_nodup specs : NoDup specs.*1 → NoDup ((λ s : string * Z * KVPart * Z * Z * Z, (s.1.1.1.1.1, s.1.1.1.2)) <$> (specs ≫= shapes_of)).
Proof.
  induction specs as [|e specs IH]; intros Hnd; [constructor|]. csimpl. apply NoDup_cons in Hnd as [Hni Hnd].
  assert (Hno : ∀ p, (e.1, p) ∉ (λ s : string * Z * KVPart * Z * Z * Z, (s.1.1.1.1.1, s.1.1.1.2)) <$> (specs ≫= shapes_of)).
  { intros p Hin. apply list_elem_of_fmap in Hin as (s & Es & Hin). apply list_elem_of_bind in Hin as (e' & Hs & He'). apply Hni. apply list_elem_of_fmap. exists e'. split; [|done].
    unfold shapes_of in Hs. rewrite !elem_of_cons, elem_of_nil in Hs. destruct Hs as [->|[->|[]]]; simpl in Es; congruence. }
  apply NoDup_cons. split; [|apply NoDup_cons; split; [apply Hno|by apply IH]]. apply not_elem_of_cons. split; [done|apply Hno].
Qed.

Lemma built_keys specs config low n groups l :
  build_compression_layout specs config low n groups = Ok l → NoDup specs.*1 → NoDup (key_of <$> layer_parts l).
Proof.
  intros E Hnd. destruct (built_shapes _ _ _ _ _ _ E) as [Hs _].
  replace (key_of <$> layer_parts l) with ((λ s : string * Z * KVPart * Z * Z * Z, (s.1.1.1.1.1, s.1.1.1.2)) <$> (shape <$> layer_parts l)) by (by rewrite <- list_fmap_compose).
  rewrite Hs. apply shapes_nodup. by rewrite isort_perm.
Qed.

(** ** The bounds of a layout, for its pipelines *)

Record layout_bounds (config : CompressionConfig) (l : CompressionLayout) : Prop := {
  lb_parts x : x ∈ layer_parts l → part_ok config (scratch_stride l) x;
  lb_scratch : 0 ≤ scratch_stride l ∧ 2 * scratch_stride l ≤ u8_base l ∧ u8_base l ≤ arena_bytes l;
  lb_packed : packed_bytes_by_part l = if in_pipeline "quantizer" config then u8_bytes_by_part l else raw_bytes_by_part l;
  lb_aux0 : 0 ≤ aux_arena_bytes l;
  lb_raw p : sel p (raw_bytes_by_part l) = 2 * sel p (u8_bytes_by_part l);
  lb_stream p : u8_base l + sel p (packed_bytes_by_part l) ≤ arena_bytes l;
  lb_u8 p : packed 0 (u8_regions (parts l p)) (sel p (u8_bytes_by_part l));
  lb_aux p : packed 0 (aux_regions (logical_blocks_per_chunk config) (parts l p)) (sel p (aux_bytes_by_part l));
  lb_half p : in_pipeline "quantizer" config = true → sel p (aux_bytes_by_part l) ≤ aux_arena_bytes l / 2 ∧ aux_arena_bytes l / 2 + aux_arena_bytes l / 2 ≤ aux_arena_bytes l
}.

Lemma built_bounds specs config low n groups l :
  build_ok specs config low n groups l → aggregate l = false → layout_bounds config l.
Proof.
  intros Hok Hagg. pose proof (layout_regions_packed _ _ _ _ _ _ Hok) as Hreg. destruct (built_inv _ _ _ _ _ _ Hok) as (stride & st & El & Hal & Hs0 & [Hp Hu Ha Hr]).
  assert (Hpk : packed_bytes_by_part l = if in_pipeline "quantizer" config then u8_bytes_by_part l else raw_bytes_by_part l).
  { rewrite El in *. cbn in *. rewrite Hagg. by rewrite andb_true_r. }
  assert (Harena : arena_bytes l = round_up (Z.max (2 * stride) (u8_base l + Z.max (packed_bytes_by_part l).1 (packed_bytes_by_part l).2)) ALIGNMENT).
  { rewrite El in *. cbn in *. by rewrite Hagg. }
  assert (Haux : in_pipeline "quantizer" config = true → aux_arena_bytes l = 2 * Z.max (aux_bytes_by_part l).1 (aux_bytes_by_part l).2).
  { intros Hq. rewrite El in *. cbn in *. by rewrite Hagg, Hq. }
  assert (Hbase : u8_base l = round_up (2 * stride) ALIGNMENT ∧ scratch_stride l = stride) by (rewrite El; done). destruct Hbase as [Hbase Hst].
  assert (Hraw : ∀ p, sel p (raw_bytes_by_part l) = 2 * sel p (u8_bytes_by_part l)) by (intros p; rewrite El; apply Hr).
  assert (Hnn : ∀ p, 0 ≤ sel p (u8_bytes_by_part l)) by (intros p; eapply packed_le, Hreg).
  assert (Hnp : ∀ p, 0 ≤ sel p (packed_bytes_by_part l)).
  { intros p. rewrite Hpk. specialize (Hnn p). destruct (in_pipeline "quantizer" config); [done|]. rewrite Hraw. lia. }
  assert (Hax0 : 0 ≤ aux_arena_bytes l).
  { pose proof (packed_le _ _ _ (proj1 (proj2 (Hreg KPart)))) as Hk. simpl in Hk. destruct (in_pipeline "quantizer" config) eqn:Hq; [rewrite (Haux eq_refl); lia|].
    rewrite El. cbn. rewrite Hq, andb_false_l, orb_true_r. done. }
  pose proof (Hnp KPart) as H1. pose proof (Hnp VPart) as H2. simpl in H1, H2.
  constructor; try done; try (intros p; apply Hreg).
  - intros x Hx. rewrite Hst. apply (proj1 (Forall_forall _ _) Hp). by rewrite El in Hx.
  - rewrite Harena, Hst. pose proof (round_up_ge ALIGNMENT ALIGNMENT_pos (2 * stride)). round_up_facts. lia.
  - intros p. rewrite Harena. round_up_facts. destruct p; simpl; lia.
  - intros p Hq. rewrite (Haux Hq). rewrite Z.mul_comm, Z.div_mul by lia. destruct p; simpl; lia.
Qed.

(** With the aggregate stage an arena holds the blocks of a part of a chunk. *)
Record whole_bounds (config : CompressionConfig) (l : CompressionLayout) : Prop := {
  wb_parts x : x ∈ layer_parts l → part_ok config (scratch_stride l) x;
  wb_raw p : sumZ (raw_bytes <$> parts l p) ≤ arena_bytes l
}.

Lemma packed_sum l : ∀ lo hi, packed lo l hi → sumZ (snd <$> l) ≤ hi - lo.
Proof. induction l as [|[o n] l IH]; intros lo hi Hp; csimpl in *; [lia|]. destruct Hp as (? & ? & Hp). apply IH in Hp. lia. Qed.

Lemma raw_twice l : Forall (λ x, raw_bytes x = 2 * part_numel x) l → sumZ (raw_bytes <$> l) = 2 * sumZ (snd <$> u8_regions l).
Proof. unfold u8_regions. induction 1 as [|x l Hx _ IH]; csimpl; [done|]. lia. Qed.

Lemma built_whole specs config low n groups l :
  build_ok specs config low n groups l → aggregate l = true → whole_bounds config l.
Proof.
  intros Hok Hagg. pose proof (layout_regions_packed _ _ _ _ _ _ Hok) as Hreg. destruct (built_inv _ _ _ _ _ _ Hok) as (stride & st & El & _ & _ & [Hp _ _ Hr]).
  assert (Hparts : ∀ x, x ∈ layer_parts l → part_ok config (scratch_stride l) x).
  { intros x Hx. rewrite El in Hx |- *. by apply (proj1 (Forall_forall _ _) Hp). }
  constructor; [done|]. intros p. assert (Harena : sel p (raw_bytes_by_part l) ≤ arena_bytes l).
  { rewrite El in Hagg |- *. cbn in *. rewrite Hagg. round_up_facts. destruct p; simpl; lia. }
  assert (Hraw : sel p (raw_bytes_by_part l) = 2 * sel p (u8_bytes_by_part l)) by (rewrite El; apply Hr).
  pose proof (packed_sum _ _ _ (proj1 (Hreg p))) as Hsum. rewrite raw_twice; [lia|]. apply Forall_forall.
  intros x [_ Hx]%list_elem_of_filter. rewrite (part_numel_eq config _ x (Hparts x Hx)), (part_raw _ _ _ (Hparts x Hx)). ring.
Qed.

(** Binding and a larger arena keep them. *)
Lemma bounds_arena config l n : layout_bounds config l → arena_bytes l ≤ n → layout_bounds config (with_arena n l).
Proof. intros [] Hn. constructor; try done; [simpl; lia|]. intros p. simpl. specialize (lb_stream0 p). lia. Qed.

(** The group that binding gives to a part *)
Definition bound_part (gi : list (string * Z)) (x : LayerPartLayout) : LayerPartLayout := regroup (default 0 (dget gi (layer_name x))) x.

Lemma bind_layout_spec gi l l' :
  bind_layout gi l = Ok l' →
  layer_parts l' = bound_part gi <$> layer_parts l ∧ Forall (λ x, is_Some (dget gi (layer_name x))) (layer_parts l) ∧
  fa_group_indices l' = list_to_set (group_index <$> layer_parts l') ∧ index_rows_by_group l' = rows_of (fa_group_indices l') ∧
  ∃ ps gs rows, l' = mkLayout ps (raw_bytes_by_part l) (u8_bytes_by_part l) (packed_bytes_by_part l) (aux_bytes_by_part l) (arena_bytes l)
        (scratch_stride l) (u8_base l) (aux_arena_bytes l) gs rows (aggregate l).
Proof.
  unfold bind_layout. intros E. apply rbind_Ok in E as (ps & Hps & E). apply Ok_inj in E. subst l'. cbn [layer_parts fa_group_indices index_rows_by_group].
  assert (Hm : ps = bound_part gi <$> layer_parts l ∧ Forall (λ x, is_Some (dget gi (layer_name x))) (layer_parts l)).
  { clear -Hps. revert ps Hps. induction (layer_parts l) as [|x ps IH]; intros r Hps; [injection Hps as <-; by split|]. cbn [rmap] in Hps.
    apply rbind_Ok in Hps as (y & Hy & Hps). apply rbind_Ok in Hps as (ys & Hys & Hps). injection Hps as <-. apply rbind_Ok in Hy as (g & Hg & Hy). injection Hy as <-.
    destruct (IH _ Hys) as [-> Hf]. unfold bound_part. destruct (dget gi (layer_name x)) eqn:Eg; [|done]. injection Hg as ->. csimpl. rewrite Eg. split; [done|]. constructor; [by rewrite Eg; eexists|done]. }
  destruct Hm as [-> Hf]. split; [done|]. split; [done|]. split; [done|]. split; [done|]. by eexists _, _, _.
Qed.

Lemma filter_bound gi p (l : list LayerPartLayout) : filter (λ x, kv_part x = p) (bound_part gi <$> l) = bound_part gi <$> filter (λ x, kv_part x = p) l.
Proof. induction l as [|x l IH]; [done|]. csimpl. rewrite !filter_cons, IH. simpl. by case_decide. Qed.

Lemma bounds_bound config gi l l' : layout_bounds config l → bind_layout gi l = Ok l' → layout_bounds config l'.
Proof.
  intros [Hp Hs Hk H0 Hr Hst Hu Ha Hh] E. destruct (bind_layout_spec _ _ _ E) as (Hps & _ & _ & _ & ps & gs & rows & El). subst l'. cbn in Hps.
  constructor; try done; unfold parts; cbn in *; rewrite Hps.
  - intros x Hx. apply list_elem_of_fmap in Hx as (y & -> & Hy). destruct (Hp y Hy). by constructor.
  - intros p. rewrite filter_bound. unfold u8_regions. rewrite <- list_fmap_compose. apply Hu.
  - intros p. rewrite filter_bound. unfold aux_regions. specialize (Ha p). unfold aux_regions, parts in Ha.
    rewrite list_fmap_bind. exact Ha.
Qed.

Lemma whole_arena config l n : whole_bounds config l → arena_bytes l ≤ n → whole_bounds config (with_arena n l).
Proof. intros [Hp Hr] Hn. constructor; [done|]. intros p. etrans; [apply Hr|done]. Qed.

Lemma whole_bound config gi l l' : whole_bounds config l → bind_layout gi l = Ok l' → whole_bounds config l'.
Proof.
  intros [Hp Hr] E. destruct (bind_layout_spec _ _ _ E) as (Hps & _ & _ & _ & ps & gs & rows & El). subst l'. cbn in Hps. constructor; unfold parts; cbn in *; rewrite Hps.
  - intros x Hx. apply list_elem_of_fmap in Hx as (y & -> & Hy). destruct (Hp y Hy). by constructor.
  - intros p. rewrite filter_bound, <- list_fmap_compose. apply Hr.
Qed.
