(* ===== verification/RtBoundThms.v ===== *)
(** * A bound pipeline fits its layout

    The windows of the parts of a built layout follow one another
    ([parts_fit_built]), and the pipelines that binding makes of a plan satisfy
    [chunk_fits] for both parts ([bound_fits]), those of the aggregate transport
    [whole_fits] ([bound_whole_fits]). *)

From S2P Require Import Prelude PyData RtConfig RtLayout Buffers RtPipeline RtPipelineOps RtPipelineThms RtQuantThms RtBodyThms RtTailThms RtLoopThms RtCodecThms RtRuntime RtRuntimeThms.

Lemma packed_split l1 : ∀ lo l2 hi, packed lo (l1 ++ l2) hi → ∃ mid, packed lo l1 mid ∧ packed mid l2 hi.
Proof.
  induction l1 as [|[o n] l1 IH]; intros lo l2 hi Hp; [exists lo; split; [simpl; lia|done]|]. destruct Hp as (? & ? & Hp). destruct (IH _ _ _ Hp) as (mid & ? & ?). by exists mid.
Qed.

Section fits.
Context `{B : !Bf16} (P : CompressionPipeline) (config : CompressionConfig).

#[local] Notation lay := (p_layout P).
#[local] Notation cb := (logical_blocks_per_chunk config).
#[local] Notation factor := (if quantized P then 1 else 2).

Hypothesis Hlay : layout_bounds config lay.

Lemma part_window x : part_ok config (scratch_stride lay) x → window P x = (u8_base lay + factor * u8_offset x, factor * part_numel x).
Proof.
  intros Hx. pose proof (part_numel_eq config _ x Hx) as Hn. pose proof (part_raw _ _ _ Hx) as Hr. unfold window, u8_start, packed_start. destruct (quantized P); f_equal; lia.
Qed.

Lemma parts_fit_built l : ∀ u alo uhi ahi,
  Forall (part_fits P cb) l → Forall (part_ok config (scratch_stride lay)) l → packed u (u8_regions l) uhi → 0 ≤ u → u8_base lay + factor * uhi ≤ arena_bytes lay →
  (quantized P = true → packed alo (aux_regions cb l) ahi ∧ 0 ≤ alo ∧ ahi ≤ half P ∧ half P + half P ≤ aux_arena_bytes lay) → (quantized P = false → alo = 0 ∧ ahi = 0) →
  0 ≤ half P → parts_fit P cb (u8_base lay + factor * u) alo l (u8_base lay + factor * uhi) ahi.
Proof.
  induction l as [|x l IH]; intros u alo uhi ahi Hf Ho Hp Hu Hhi Hqa Hra Hh.
  - simpl in Hp |- *. destruct (quantized P) eqn:Eq; [|split; [lia|destruct (Hra eq_refl); lia]]. destruct (Hqa eq_refl) as (Ha & _). simpl in Ha. lia.
  - apply Forall_cons in Hf as [Hx Hf]. apply Forall_cons in Ho as [Hox Ho]. destruct Hp as (H1 & H2 & Hp). pose proof (packed_le _ _ _ Hp) as Hle.
    pose proof (part_window x Hox) as Hw. pose proof (lb_scratch _ _ Hlay) as Hsc.
    assert (Hrest : ∃ amid, (if quantized P then sections_fit P cb x (sections x) 0 alo amid else alo ≤ amid) ∧ amid ≤ half P ∧
      (quantized P = true → packed amid (aux_regions cb l) ahi ∧ 0 ≤ amid) ∧ (quantized P = false → amid = 0)).
    { destruct (quantized P) eqn:Eq.
      - destruct (Hqa eq_refl) as (Ha & Ha0 & Ha1 & Ha2). unfold aux_regions in Ha. csimpl in Ha. destruct (packed_split _ _ _ _ Ha) as (amid & Hm1 & Hm2).
        pose proof (packed_le _ _ _ Hm1). pose proof (packed_le _ _ _ Hm2). exists amid. split; [|split; [lia|split; [intros _; split; [exact Hm2|lia]|done]]].
        split; [exact (part_heads _ _ _ Hox)|lia|exact Hm1|lia].
      - destruct (Hra eq_refl). exists 0. split; [lia|]. split; [lia|]. by split. }
    destruct Hrest as (amid & Hs & Ham & Hqm & Hrm). exists amid. rewrite Hw. cbn [fst snd].
    split; [split; [exact Hx|rewrite Hw; simpl; destruct (quantized P); lia|exact Hs]|]. split; [destruct (quantized P); lia|]. split; [done|].
    replace (u8_base lay + factor * u8_offset x + factor * part_numel x) with (u8_base lay + factor * (u8_offset x + part_numel x)) by lia.
    apply IH; try done; [lia| |].
    + intros E. destruct (Hqm E). destruct (Hqa E) as (_ & _ & ? & ?). split_and!; done.
    + intros E. split; [by apply Hrm|by apply Hra].
Qed.

End fits.

(** ** The plan *)

(** What a plan says about its layout and its head orders *)
Record planned (plan : CompressionMemoryPlan) (specs : list (string * CacheSpec)) : Prop := {
  pl_built : ∃ planning low n l0 N, build_ok specs planning low n ∅ l0 ∧ (planning = plan_config plan ∨ planning = with_split SplitLayer (plan_config plan)) ∧
    plan_layout plan = with_arena N l0 ∧ arena_bytes l0 ≤ N;
  pl_selected e : e ∈ specs → selected (head_selection plan) e;
  pl_bpl : Forall (λ x, (plan_blocks_per_logical plan | part_block_size x)) (layer_parts (plan_layout plan))
}.

Lemma config_split_ok t c : config_ok c → config_ok (with_split t c).
Proof. intros []. by constructor. Qed.

Lemma bounds_split t c l : layout_bounds (with_split t c) l → layout_bounds c l.
Proof. intros [Hp ? ? ? ? ? ? ? ?]. constructor; try done. intros x Hx. destruct (Hp x Hx). by constructor. Qed.

Lemma whole_split t c l : whole_bounds (with_split t c) l → whole_bounds c l.
Proof. intros [Hp ?]. constructor; [|done]. intros x Hx. destruct (Hp x Hx). by constructor. Qed.

(** nvCOMP's outputs are no larger than what the probe found. *)
Definition probe_lawful `{A : !Ans} (probe : CompressionLayout → Z * (Z * Z) * Z) (l : CompressionLayout) : Prop :=
  ∀ p x, zlen x = sel p (packed_bytes_by_part l) →
    ∃ y, ans_encode x = Ok y ∧ zlen y ≤ Z.max (probe l).1.2.1 (probe l).1.2.2 ∧ ans_decode (zlen x) y = Ok x.

(** Every plan is [plan_of] a built layout with an arena for the codec. *)
Lemma plan_shape load probe config specs bpl tps tpr nl plan :
  build_memory_plan load probe config specs bpl tps tpr nl = Ok (Some plan) →
  config_ok config → Forall (λ e, spec_ok e.2) specs → NoDup ((λ e : string * CacheSpec, layer_index e.2) <$> specs) → 0 ≤ tpr < tps → 0 < bpl →
  (∀ a, load (score_path config) = Ok a → array_ok a) →
  ∃ planning k l0 sel ws outs ret, (if uses_codec config then probe l0 else (0, (0, 0), 0)) = (ws, outs, ret) ∧
    plan = plan_of config (with_arena (round_up (Z.max (arena_bytes l0) (Z.max outs.1 outs.2)) ALIGNMENT) l0) sel bpl ws ret outs ∧
    build_ok specs planning (low_counts sel) k ∅ l0 ∧ (planning = config ∨ planning = with_split SplitLayer config) ∧
    (∀ e, e ∈ specs → selected sel e) ∧ Forall (λ x, (bpl | part_block_size x)) (layer_parts l0).
Proof.
  unfold build_memory_plan. intros E Hc Hs Hnd Hr Hb Ha. destruct (enabled config); [|done]. cbn [negb] in E.
  apply rbind_Ok in E as (scores & Hsc & E). set (planning := if in_pipeline "quantizer" config then config else with_split SplitLayer config) in *.
  apply rbind_Ok in E as (sel & Hsel & E). set (k := if nl =? 0 then _ else _) in *. apply rbind_Ok in E as (l & Hl & E).
  assert (Hpl : planning = config ∨ planning = with_split SplitLayer config) by (unfold planning; destruct (in_pipeline "quantizer" config); [by left|by right]).
  assert (Hpath : score_path planning = score_path config) by (destruct Hpl as [->| ->]; done).
  assert (Hselected : ∀ e, e ∈ specs → selected sel e).
  { eapply selection_spec; [exact Hsel|done| |done|done]. rewrite Hpath. intros a [Hsa|Hla]; [|by apply Ha]. apply Ha. subst scores.
    destruct (truthy (score_path config)); [|done]. apply rbind_Ok in Hsc as (s & Hs' & [= ->]). done. }
  assert (Hbo : build_ok specs planning (low_counts sel) k ∅ l).
  { constructor; [destruct Hpl as [->| ->]; [done|by apply config_split_ok]|done| |exact Hl]. intros li low Hlow e He <-. destruct (sl_count _ _ (Hselected e He)) as (low' & Hl' & Hle). congruence. }
  destruct (if uses_codec config then probe l else (0, (0, 0), 0)) as [[ws outs] ret] eqn:Ep.
  apply rbind_Ok in E as (u1 & _ & E). apply rbind_Ok in E as (u2 & Hdiv & E). apply Ok_inj in E. injection E as <-. apply raise_if_Ok in Hdiv.
  exists planning, k, l, sel, ws, outs, ret. split; [exact Ep|]. split; [done|]. split; [done|]. split; [done|]. split; [done|].
  apply Forall_forall. intros x Hx. apply not_true_iff_false in Hdiv. destruct (part_block_size x mod bpl =? 0) eqn:Ed; [zbool; by apply Z.mod_divide; [lia|]|].
  exfalso. apply Hdiv. apply existsb_exists. exists x. split; [by apply list_elem_of_In|]. by rewrite Ed.
Qed.

Lemma build_plan_spec `{A : !Ans} load probe config specs bpl tps tpr nl plan :
  build_memory_plan load probe config specs bpl tps tpr nl = Ok (Some plan) →
  config_ok config → Forall (λ e, spec_ok e.2) specs → NoDup ((λ e : string * CacheSpec, layer_index e.2) <$> specs) → 0 ≤ tpr < tps → 0 < bpl →
  (∀ a, load (score_path config) = Ok a → array_ok a) →
  planned plan specs ∧ plan_config plan = config ∧ plan_blocks_per_logical plan = bpl ∧
  ∃ l0, packed_bytes_by_part l0 = packed_bytes_by_part (plan_layout plan) ∧ (uses_codec config = true → Z.max (probe l0).1.2.1 (probe l0).1.2.2 ≤ arena_bytes (plan_layout plan)).
Proof.
  intros E Hc Hs Hnd Hr Hb Ha. destruct (plan_shape _ _ _ _ _ _ _ _ _ E Hc Hs Hnd Hr Hb Ha) as (planning & k & l0 & sel & ws & outs & ret & Ep & -> & Hbo & Hpl & Hsel & Hdiv).
  pose proof (round_up_ge ALIGNMENT ALIGNMENT_pos (Z.max (arena_bytes l0) (Z.max outs.1 outs.2))) as HN. set (N := round_up _ ALIGNMENT) in *.
  cbn [plan_of plan_config plan_layout plan_blocks_per_logical head_selection]. split; [split|split; [done|split; [done|]]].
  - exists planning, (low_counts sel), k, l0, N. split; [done|]. split; [done|]. split; [done|]. lia.
  - exact Hsel.
  - exact Hdiv.
  - exists l0. split; [done|]. intros Hcod. rewrite Hcod in Ep. rewrite Ep. simpl. lia.
Qed.

(** ** The metadata of a pipeline *)

Lemma dget_fold_dset {X K} `{EqDecision K} (f : X → K) (l : list X) : ∀ (d : list (K * X)) k,
  (∃ y, y ∈ l ∧ f y = k ∧ dget (foldl (λ d x, dset d (f x) x) d l) k = Some y) ∨
  ((∀ y, y ∈ l → f y ≠ k) ∧ dget (foldl (λ d x, dset d (f x) x) d l) k = dget d k).
Proof.
  induction l as [|x l IH]; intros d k; [right; split; [intros y Hy; by apply elem_of_nil in Hy|done]|]. cbn [foldl].
  destruct (IH (dset d (f x) x) k) as [(y & Hy & Hk & E)|[Hno E]]; [left; exists y; split; [by right|done]|]. destruct (decide (f x = k)) as [Hk|Hk].
  - left. exists x. split; [by left|]. split; [done|]. rewrite E, Hk. apply dget_dset_eq.
  - right. split; [intros y [->|Hy]%elem_of_cons; [done|by apply Hno]|]. rewrite E. by apply dget_dset_ne.
Qed.

Lemma fold_dset_ok {X K} `{EqDecision K} (f : X → K) (l : list X) : ∀ (d : list (K * X)), dict_ok d → dict_ok (foldl (λ d x, dset d (f x) x) d l).
Proof. induction l as [|x l IH]; intros d Hd; [done|]. cbn [foldl]. apply IH. by apply dict_ok_dset. Qed.

Lemma unique_layers_get l x : x ∈ layer_parts l → ∃ y, y ∈ layer_parts l ∧ layer_name y = layer_name x ∧ dget (unique_layers l) (layer_name x) = Some y.
Proof.
  intros Hx. destruct (dget_fold_dset layer_name (layer_parts l) [] (layer_name x)) as [(y & Hy & Hn & E)|[Hno _]]; [by exists y|]. by destruct (Hno x Hx).
Qed.

Lemma rmap_dict {K X Y} `{EqDecision K} (g : X → result Y) (l : list (K * X)) : ∀ r,
  rmap (λ e, let? o := g e.2 in Ok (e.1, o)) l = Ok r →
  r.*1 = l.*1 ∧ ∀ k x, dget l k = Some x → ∃ y, g x = Ok y ∧ dget r k = Some y.
Proof.
  induction l as [|[k0 x0] l IH]; intros r E; [injection E as <-; split; [done|by intros]|]. cbn [rmap] in E. apply rbind_Ok in E as (e & He & E). apply rbind_Ok in E as (r' & Hr & E).
  apply Ok_inj in E. subst r. apply rbind_Ok in He as (y0 & Hy & He). apply Ok_inj in He. subst e. cbn [fst snd] in *. destruct (IH _ Hr) as [Hk Hg]. split; [csimpl; by rewrite Hk|].
  intros k x. cbn [dget]. case_decide; [intros [= <-]; by exists y0|apply Hg].
Qed.

Section signs.
Context (sign_row : Z → Z → vec) (orders : gmap Z (list Z)) (seed : option Z).

Definition sign_step (d : list (cache_key * token)) (x : LayerPartLayout) : result (list (cache_key * token)) :=
  let? o := of_option KeyError (orders !! part_layer_index x) in
  let? z := of_option TypeError seed in
  Ok (dset d (layer_name x, kv_part x) (build_signs sign_row x o z)).

Lemma signs_get l : ∀ d d', rfold sign_step d l = Ok d' →
  (∀ x, x ∈ l → NoDup (key_of <$> l) → ∃ o z, orders !! part_layer_index x = Some o ∧ dget d' (key_of x) = Some (build_signs sign_row x o z)) ∧
  ∀ k, k ∉ key_of <$> l → dget d' k = dget d k.
Proof.
  induction l as [|x l IH]; intros d d' E; [injection E as <-; split; [intros x Hx; by apply elem_of_nil in Hx|done]|]. cbn [rfold] in E.
  apply rbind_Ok in E as (d1 & E1 & E). destruct (IH _ _ E) as [Hin Hout]. unfold sign_step in E1. apply rbind_Ok in E1 as (o & Ho & E1). apply rbind_Ok in E1 as (z & Hz & E1).
  apply Ok_inj in E1. subst d1. split.
  - intros y Hy Hnd. rewrite fmap_cons in Hnd. apply NoDup_cons in Hnd as [Hni Hnd]. apply elem_of_cons in Hy as [->|Hy]; [|by apply Hin].
    exists o, z. split; [destruct (orders !! part_layer_index x); [by injection Ho as ->|done]|]. rewrite Hout by done. apply dget_dset_eq.
  - intros k Hk. rewrite fmap_cons in Hk. apply not_elem_of_cons in Hk as [Hne Hk]. rewrite Hout by done. by apply dget_dset_ne.
Qed.

End signs.

(** ** A bound pipeline *)

Section bound.
Context `{B : !Bf16, F : !FusedLaw, A : !Ans}.
Context (pick : gset Z → option Z) (sign_row : Z → Z → vec) (gi : list (string * Z)).
Context (plan : CompressionMemoryPlan) (specs : list (string * CacheSpec)) (P : CompressionPipeline).

#[local] Notation config := (plan_config plan).
#[local] Notation lay := (p_layout P).

(** The first element of a set is one of it; a row of signs has its length. *)
Record bind_ok : Prop := {
  bd_planned : planned plan specs;
  bd_specs : Forall (λ e, spec_ok e.2) specs;
  bd_names : NoDup specs.*1;
  bd_bpl : 0 < plan_blocks_per_logical plan;
  bd_groups name g : dget gi name = Some g → 0 ≤ g;
  bd_codec : uses_codec config = true → ∀ p x, zlen x = sel p (packed_bytes_by_part (plan_layout plan)) →
    ∃ y, ans_encode x = Ok y ∧ zlen y ≤ arena_bytes (plan_layout plan) ∧ ans_decode (zlen x) y = Ok x;
  bd_bind : bind_pipeline pick sign_row plan gi = Ok P;
  bd_pick (S : gset Z) : S ≠ ∅ → ∃ g, pick S = Some g ∧ g ∈ S;
  bd_rows s n : 0 ≤ n → zlen (sign_row s n) = n
}.

Hypothesis Hok : bind_ok.

Lemma bound_parts_of : ∃ orders sg, bind_layout gi (plan_layout plan) = Ok lay ∧
  rmap (λ e : string * LayerPartLayout, let? o := of_option KeyError (local_orders (head_selection plan) !! part_layer_index e.2) in Ok (e.1, o)) (unique_layers lay) = Ok orders ∧
  (if uses_transformer config then
     rfold (sign_step sign_row (local_orders (head_selection plan)) (match seed config with JInt z => Some z | JBool b => Some (Z.b2z b) | _ => None end)) [] (layer_parts lay)
   else Ok []) = Ok sg ∧
  P = mkPipeline lay (pick (fa_group_indices lay)) (plan_blocks_per_logical plan) sg orders (list_to_set ((filter (λ e : string * list Z, e.2 = seqZ 0 (zlen e.2)) orders).*1))
        (pipeline config) (if uses_codec config then [(packed_bytes_by_part lay).1; (packed_bytes_by_part lay).2] else []).
Proof.
  pose proof (bd_bind Hok) as E. unfold bind_pipeline in E. apply rbind_Ok in E as (l & Hl & E). apply rbind_Ok in E as (orders & Ho & E). apply rbind_Ok in E as (sg & Hs & E).
  apply Ok_inj in E. exists orders, sg. assert (lay = l) as -> by (by rewrite <- E). by rewrite <- E.
Qed.

Lemma bound_layout : bind_layout gi (plan_layout plan) = Ok lay ∧ blocks_per_logical P = plan_blocks_per_logical plan ∧ stages P = pipeline config ∧
  first_group P = pick (fa_group_indices lay) ∧ codec_sizes P = (if uses_codec config then [(packed_bytes_by_part lay).1; (packed_bytes_by_part lay).2] else []).
Proof. destruct bound_parts_of as (orders & sg & Hl & _ & _ & E). split; [done|]. rewrite E. cbn [p_layout]. done. Qed.

Lemma stage_config s : stage P s = in_pipeline s config.
Proof. unfold stage, in_pipeline. by destruct bound_layout as (_ & _ & -> & _). Qed.

Lemma stage_aggregate : stage P "aggregate" = uses_aggregate config.
Proof. apply stage_config. Qed.

(** The built layout behind the plan *)
Lemma plan_built : ∃ planning low n l0 N, build_ok specs planning low n ∅ l0 ∧ (planning = config ∨ planning = with_split SplitLayer config) ∧
  plan_layout plan = with_arena N l0 ∧ arena_bytes l0 ≤ N ∧ aggregate l0 = uses_aggregate config.
Proof.
  destruct (pl_built _ _ (bd_planned Hok)) as (planning & low & n & l0 & N & Hb & Hpl & El & HN). exists planning, low, n, l0, N. split_and!; try done.
  destruct (built_inv _ _ _ _ _ _ Hb) as (stride & st & -> & _). cbn. by destruct Hpl as [->| ->].
Qed.

Lemma plan_bounds : uses_aggregate config = false → layout_bounds config (plan_layout plan).
Proof.
  intros Hna. destruct plan_built as (planning & low & n & l0 & N & Hb & Hpl & -> & HN & Hagg). apply bounds_arena; [|done].
  pose proof (built_bounds _ _ _ _ _ _ Hb (eq_trans Hagg Hna)) as Hlb. destruct Hpl as [->| ->]; [done|by eapply bounds_split].
Qed.

Lemma plan_whole : uses_aggregate config = true → whole_bounds config (plan_layout plan).
Proof.
  intros Hna. destruct plan_built as (planning & low & n & l0 & N & Hb & Hpl & -> & HN & Hagg). apply whole_arena; [|done].
  pose proof (built_whole _ _ _ _ _ _ Hb (eq_trans Hagg Hna)) as Hlb. destruct Hpl as [->| ->]; [done|by eapply whole_split].
Qed.

Lemma plan_shapes :
  (∀ x, x ∈ layer_parts (plan_layout plan) → ∃ e, e ∈ specs ∧ shape x ∈ shapes_of e) ∧
  (∀ e s, e ∈ specs → s ∈ shapes_of e → ∃ x, x ∈ layer_parts (plan_layout plan) ∧ shape x = s) ∧
  NoDup (key_of <$> layer_parts (plan_layout plan)) ∧ (uses_transformer config = true → Forall (spec_supported config) specs).
Proof.
  destruct plan_built as (planning & low & n & l0 & N & Hb & Hpl & -> & _). pose proof (build_result _ _ _ _ _ _ Hb) as Hr.
  destruct (built_part _ _ _ _ _ _ Hr) as [H1 H2]. split; [exact H1|split; [exact H2|split]].
  - exact (built_keys _ _ _ _ _ _ Hr (bd_names Hok)).
  - intros _. destruct (built_shapes _ _ _ _ _ _ Hr) as [_ Hs]. destruct Hpl as [->| ->]; exact Hs.
Qed.

Lemma bound_bounds : uses_aggregate config = false → layout_bounds config lay.
Proof. intros Hna. eapply bounds_bound; [by apply plan_bounds|apply bound_layout]. Qed.

Lemma bound_whole : uses_aggregate config = true → whole_bounds config lay.
Proof. intros Hna. eapply whole_bound; [by apply plan_whole|apply bound_layout]. Qed.

Lemma bound_parts x : x ∈ layer_parts lay → ∃ y e, x = bound_part gi y ∧ y ∈ layer_parts (plan_layout plan) ∧ e ∈ specs ∧ shape y ∈ shapes_of e.
Proof.
  destruct bound_layout as (Hb & _). destruct (bind_layout_spec _ _ _ Hb) as (-> & _). intros (y & -> & Hy)%list_elem_of_fmap.
  destruct plan_shapes as (H1 & _). destruct (H1 y Hy) as (e & He & Hs). by exists y, e.
Qed.

Lemma shape_cases y e : shape y ∈ shapes_of e →
  layer_name y = e.1 ∧ part_layer_index y = layer_index e.2 ∧ part_block_size y = block_size e.2 ∧ num_heads y = num_kv_heads e.2 ∧
  part_head_size y = match kv_part y with KPart => head_size e.2 | VPart => head_size_v e.2 end.
Proof. unfold shapes_of, shape. rewrite !elem_of_cons, elem_of_nil. intros [[= -> -> -> -> -> ->]|[[= -> -> -> -> -> ->]|[]]]; done. Qed.

Lemma same_spec e e' : e ∈ specs → e' ∈ specs → e.1 = e'.1 → e = e'.
Proof.
  intros He He' Hn. pose proof (bd_names Hok) as Hnd. destruct e as [k v], e' as [k' v']. simpl in Hn. subst k'.
  pose proof (elem_of_list_to_map_1 (M := gmap string) specs k v Hnd He). pose proof (elem_of_list_to_map_1 (M := gmap string) specs k v' Hnd He'). congruence.
Qed.

(** The head order of a part, and where it is the identity *)
Lemma bound_order x : x ∈ layer_parts lay →
  ∃ o, dget (head_orders P) (layer_name x) = Some o ∧ is_order (num (num_heads x)) o ∧ (layer_name x ∈ identity_orders P → o = seqZ 0 (num_heads x)).
Proof.
  intros Hx. destruct (bound_parts x Hx) as (y & e & -> & Hy & He & Hs). destruct (shape_cases _ _ Hs) as (Hn & Hli & _ & Hh & _).
  destruct (unique_layers_get lay _ Hx) as (z & Hz & Hzn & Hget). destruct (bound_parts z Hz) as (w & e' & -> & Hw & He' & Hs'). destruct (shape_cases _ _ Hs') as (Hn' & Hli' & _).
  simpl in Hzn. assert (e' = e) as -> by (apply same_spec; [done..|congruence]).
  destruct bound_parts_of as (orders & sg & _ & Ho & _ & E). assert (Eh : head_orders P = orders) by (by rewrite E).
  assert (Ei : identity_orders P = list_to_set ((filter (λ e : string * list Z, e.2 = seqZ 0 (zlen e.2)) orders).*1)) by (by rewrite E). clear E. rewrite Eh, Ei. destruct (rmap_dict (λ x, of_option KeyError (local_orders (head_selection plan) !! part_layer_index x)) _ _ Ho) as [Hk Hg]. destruct (Hg _ _ Hget) as (o & Hoo & Hod).
  destruct (sl_order _ _ (pl_selected _ _ (bd_planned Hok) e He)) as (o' & Ho' & Hiso). simpl in Hoo. rewrite Hli', Ho' in Hoo. injection Hoo as ->.
  exists o. split; [done|]. cbn [bound_part regroup num_heads layer_name]. rewrite Hh. split; [done|]. intros Hid. apply elem_of_list_to_set, list_elem_of_fmap in Hid as ([k o2] & Hk2 & Hin).
  apply list_elem_of_filter in Hin as [Ho2 Hin]. simpl in *. subst k.
  assert (Hd : dict_ok orders) by (unfold dict_ok, dkeys; rewrite Hk; apply (fold_dset_ok layer_name (layer_parts lay) []); constructor).
  pose proof (elem_of_dget _ _ _ Hd Hin) as Hg2. assert (o2 = o) as -> by congruence. rewrite Ho2. f_equal. apply order_length in Hiso. unfold zlen. rewrite Hiso.
  pose proof (spec_heads _ (proj1 (Forall_forall _ _) (bd_specs Hok) e He)). lia.
Qed.

Lemma bound_keys : NoDup (key_of <$> layer_parts lay).
Proof.
  destruct bound_layout as (Hb & _). destruct (bind_layout_spec _ _ _ Hb) as (-> & _). rewrite <- list_fmap_compose. apply plan_shapes.
Qed.

Lemma bound_signs x : x ∈ layer_parts lay → uses_transformer config = true →
  is_pow2 (part_head_size x) = true ∧ dget (signs P) (key_of x) = Some (signs_of P x) ∧ dims2 (num (num_heads x)) (num (part_head_size x)) (signs_of P x).
Proof.
  intros Hx Ht. destruct (bound_parts x Hx) as (y & e & -> & Hy & He & Hs). destruct (shape_cases _ _ Hs) as (Hn & Hli & _ & Hh & Hd).
  destruct plan_shapes as (_ & _ & _ & Hsup). destruct (proj1 (Forall_forall _ _) (Hsup Ht) e He) as [_ Hpow]. destruct (Hpow Ht) as [Hp1 Hp2].
  pose proof (proj1 (Forall_forall _ _) (bd_specs Hok) e He) as [_ Hkv Hhs Hhv].
  destruct bound_parts_of as (orders & sg & _ & _ & Hsg & E). rewrite Ht in Hsg. destruct (signs_get _ _ _ _ _ _ Hsg) as [Hin _].
  destruct (Hin _ Hx bound_keys) as (o & z & Ho & Hget). cbn [bound_part regroup part_layer_index] in Ho. rewrite Hli in Ho.
  destruct (sl_order _ _ (pl_selected _ _ (bd_planned Hok) e He)) as (o' & Ho' & Hiso). assert (o' = o) as -> by congruence.
  assert (Es : dget (signs P) (key_of (bound_part gi y)) = Some (build_signs sign_row (bound_part gi y) o z)) by (rewrite E; exact Hget).
  split; [cbn [bound_part regroup part_head_size]; rewrite Hd; by destruct (kv_part y)|]. assert (Es' : signs_of P (bound_part gi y) = build_signs sign_row (bound_part gi y) o z) by (unfold signs_of; by rewrite Es).
  rewrite Es'. split; [done|]. unfold build_signs. split; [rewrite length_fmap; apply order_length in Hiso; cbn [bound_part regroup num_heads]; by rewrite Hh|].
  apply Forall_fmap, Forall_forall. intros h _. simpl. pose proof (bd_rows Hok (Z.lxor (Z.lxor z (Z.shiftl (part_layer_index y) 16)) h) (part_head_size y)) as Hr. unfold zlen in Hr.
  rewrite Hd in *. destruct (kv_part y); lia.
Qed.

Lemma blocks_pos : 1 ≤ logical_blocks_per_chunk config.
Proof.
  destruct (pl_built _ _ (bd_planned Hok)) as (planning & low & n & l0 & N & Hb & Hpl & _). pose proof (ok_blocks _ (build_config _ _ _ _ _ _ Hb)) as H. destruct Hpl as [->| ->]; exact H.
Qed.

Lemma bound_bpl x : x ∈ layer_parts lay → (blocks_per_logical P | part_block_size x).
Proof.
  destruct bound_layout as (_ & -> & _). intros Hx. destruct (bound_parts x Hx) as (y & e & -> & Hy & _). exact (proj1 (Forall_forall _ _) (pl_bpl _ _ (bd_planned Hok)) y Hy).
Qed.

Lemma bound_part_fits : uses_aggregate config = false → ∀ x, x ∈ layer_parts lay → part_fits P (logical_blocks_per_chunk config) x.
Proof.
  intros Hna x Hx. pose proof (lb_parts _ _ (bound_bounds Hna) x Hx) as Hp. pose proof (lb_scratch _ _ (bound_bounds Hna)) as Hs. destruct bound_layout as (Hb & Hbpl & _).
  destruct (bound_order x Hx) as (o & Ho & Hiso & Hid). pose proof (part_raw0 _ _ _ Hp) as Hr0. pose proof (part_scratch _ _ _ Hp) as Hrs.
  assert (Hraw : 0 ≤ raw_bytes x). { pose proof (part_numel_pos config _ blocks_pos x Hp). rewrite (part_raw _ _ _ Hp), <- (part_numel_eq config _ x Hp). lia. }
  constructor.
  - rewrite Hbpl. apply Hok.
  - split; [apply Hp|]. by apply bound_bpl.
  - apply Hp.
  - apply Hp.
  - apply Hp.
  - rewrite Hr0. lia.
  - unfold order_of. rewrite Ho. done.
  - intros Ht. apply bound_signs; [done|]. rewrite stage_config in Ht. unfold uses_transformer. by rewrite Hna, Ht.
Qed.

(** ** The chunk *)

Lemma bound_quantized : quantized P = in_pipeline "quantizer" config.
Proof. apply stage_config. Qed.

Lemma bound_full : uses_aggregate config = false → ∀ kv, full_bytes P kv = sel kv (packed_bytes_by_part lay) ∧ full_bytes P kv = (if quantized P then 1 else 2) * sel kv (u8_bytes_by_part lay).
Proof.
  intros Hna kv. pose proof (bound_bounds Hna) as Hb. unfold full_bytes. rewrite (lb_packed _ _ Hb), bound_quantized. pose proof (lb_raw _ _ Hb kv). destruct (in_pipeline "quantizer" config); split; try done; lia.
Qed.

Lemma fold_spec e p : e ∈ specs → ∃ y, y ∈ parts lay p ∧ layer_name y = e.1 ∧ part_block_size y = block_size e.2.
Proof.
  intros He. destruct plan_shapes as (_ & H2 & _).
  destruct (H2 e (e.1, layer_index e.2, p, block_size e.2, num_kv_heads e.2, match p with KPart => head_size e.2 | VPart => head_size_v e.2 end) He) as (y & Hy & Hs).
  { unfold shapes_of. destruct p; [by left|right; by left]. }
  unfold shape in Hs. injection Hs as Hn _ Hp Hb _ _. exists (bound_part gi y). split; [|done]. unfold parts. apply list_elem_of_filter. split; [done|].
  destruct bound_layout as (Hbl & _). destruct (bind_layout_spec _ _ _ Hbl) as (-> & _). by apply list_elem_of_fmap_2.
Qed.

(** The parts of a layer have its group. *)
Lemma bound_group x y : x ∈ layer_parts lay → y ∈ layer_parts lay → layer_name x = layer_name y → group_index x = group_index y.
Proof.
  intros Hx Hy. destruct (bound_parts x Hx) as (x' & _ & -> & _), (bound_parts y Hy) as (y' & _ & -> & _). simpl. by intros ->.
Qed.

Lemma other_part x p : x ∈ layer_parts lay → ∃ y, y ∈ parts lay p ∧ group_index y = group_index x ∧ part_block_size y = part_block_size x.
Proof.
  intros Hx. destruct (bound_parts x Hx) as (x' & e & -> & Hx' & He & Hs). destruct (shape_cases _ _ Hs) as (Hn & _ & Hb & _).
  destruct (fold_spec e p He) as (y & Hy & Hyn & Hyb). exists y. split; [done|]. split; [|simpl; congruence]. apply bound_group; [by eapply parts_sub|done|simpl; congruence].
Qed.

Lemma rows_of_lookup S g r : rows_of S !! g = Some r → 0 ≤ r ∧ isort Z.leb (elements S) !! num r = Some g.
Proof.
  unfold rows_of. intros E. apply elem_of_list_to_map_2, list_elem_of_lookup in E as [k Hk]. rewrite list_lookup_imap in Hk.
  destruct (isort Z.leb (elements S) !! k) as [g'|] eqn:Hg; [|done]. injection Hk as -> <-. split; [lia|]. by rewrite Nat2Z.id.
Qed.

Lemma size_to_set_le (l : list Z) : (size (list_to_set l : gset Z) ≤ length l)%nat.
Proof.
  induction l as [|x l IH]; [done|]. simpl. pose proof (size_union_alt {[x]} (list_to_set l : gset Z)) as E.
  assert (Hd : (size (list_to_set l ∖ {[x]} : gset Z) ≤ size (list_to_set l : gset Z))%nat) by (apply subseteq_size; set_solver). rewrite size_singleton in E. lia.
Qed.

Lemma rows_of_get S g : g ∈ S → ∃ r, rows_of S !! g = Some r.
Proof.
  intros Hg. unfold rows_of. set (l := isort _ _). assert (Hl : l ≡ₚ elements S) by apply isort_perm.
  assert (Hin : g ∈ l) by (rewrite Hl; by apply elem_of_elements). apply list_elem_of_lookup in Hin as [k Hk]. exists (Z.of_nat k).
  apply elem_of_list_to_map_1.
  - assert (E : (imap (λ row g, (g, Z.of_nat row)) l).*1 = l).
    { apply list_eq. intros i. rewrite list_lookup_fmap, list_lookup_imap. by destruct (l !! i). }
    rewrite E, Hl. apply NoDup_elements.
  - apply list_elem_of_lookup. exists k. rewrite list_lookup_imap, Hk. done.
Qed.

Lemma bound_first kv : ∃ x, x ∈ parts lay kv ∧ first_group P = Some (group_index x).
Proof.
  destruct bound_layout as (Hbl & _ & _ & -> & _). destruct (bind_layout_spec _ _ _ Hbl) as (_ & _ & Hg & _).
  assert (Hne : ∃ e, e ∈ specs).
  { destruct (pl_built _ _ (bd_planned Hok)) as (planning & low & n & l0 & N & Hb & _). pose proof (build_result _ _ _ _ _ _ Hb) as E. unfold build_compression_layout in E.
    apply rbind_Ok in E as ([] & Hc & _). apply check_specs_Ok in Hc as (Hne & _). destruct specs as [|e s]; [done|]. exists e. by left. }
  destruct Hne as [e He]. destruct (fold_spec e KPart He) as (y & Hy & _). apply parts_sub in Hy.
  destruct (bd_pick Hok (fa_group_indices lay)) as (g & Hp & Hin).
  { intros Heq. apply (not_elem_of_empty (C := gset Z) (group_index y)). rewrite <- Heq, Hg. by apply elem_of_list_to_set, list_elem_of_fmap_2. }
  rewrite Hg in Hin. apply elem_of_list_to_set, list_elem_of_fmap in Hin as (x & -> & Hx). destruct (other_part x kv Hx) as (z & Hz & Hzg & _). exists z. by rewrite Hzg.
Qed.

Lemma bound_rows x : x ∈ layer_parts lay → 0 ≤ group_index x ∧ is_Some (index_rows_by_group lay !! group_index x).
Proof.
  destruct bound_layout as (Hbl & _). destruct (bind_layout_spec _ _ _ Hbl) as (Hps & Hgs & Hfa & Hrows & _). intros Hx. split.
  - rewrite Hps in Hx. apply list_elem_of_fmap in Hx as (y & -> & Hy). simpl. destruct (proj1 (Forall_forall _ _) Hgs y Hy) as [g Hg]. rewrite Hg. by eapply bd_groups.
  - rewrite Hrows. apply rows_of_get. rewrite Hfa. by apply elem_of_list_to_set, list_elem_of_fmap_2.
Qed.

Lemma bound_part_keys kv : NoDup (key_of <$> parts lay kv).
Proof. eapply sublist_NoDup; [apply bound_keys|]. apply fmap_sublist, sublist_filter. Qed.

Lemma bound_whole_fits : uses_aggregate config = true → ∀ kv, whole_fits P (logical_blocks_per_chunk config) kv.
Proof.
  intros Hna kv. destruct (bound_whole Hna) as [Hp Hr]. destruct bound_layout as (_ & Hbpl & _). constructor.
  - rewrite Hbpl. apply Hok.
  - intros x Hx. destruct (Hp x Hx). constructor; try done. split; [done|by apply bound_bpl].
  - apply Hr.
  - apply bound_part_keys.
  - apply bound_rows.
  - apply bound_first.
Qed.

Lemma bound_fits : uses_aggregate config = false → ∀ kv, chunk_fits P (logical_blocks_per_chunk config) kv.
Proof.
  intros Hna kv. pose proof (bound_bounds Hna) as Hb. destruct (bound_full Hna kv) as [Hf1 Hf2]. pose proof (lb_scratch _ _ Hb) as Hs. pose proof (packed_le _ _ _ (lb_u8 _ _ Hb kv)) as Hu.
  pose proof (packed_le _ _ _ (lb_aux _ _ Hb kv)) as Ha. pose proof (lb_stream _ _ Hb kv) as Hst. pose proof (lb_aux0 _ _ Hb) as Ha0.
  assert (Hn : 0 ≤ full_bytes P kv) by (rewrite Hf2; destruct (quantized P); lia).
  assert (Hh : 0 ≤ half P) by (unfold half; apply Z.div_pos; lia). destruct bound_layout as (Hbl & _ & _ & _ & Hcs). destruct (bind_layout_spec _ _ _ Hbl) as (Hps & Hgs & Hfa & Hrows & _).
  constructor.
  - apply blocks_pos.
  - rewrite Hf2. replace (u8_base lay) with (u8_base lay + (if quantized P then 1 else 2) * 0) at 1 by lia. apply (parts_fit_built P config Hb); try done.
    + apply Forall_forall. intros x Hx. apply (bound_part_fits Hna). by eapply parts_sub.
    + apply Forall_forall. intros x Hx. apply (lb_parts _ _ Hb). by eapply parts_sub.
    + apply (lb_u8 _ _ Hb).
    + lia.
    + intros Hq. unfold full_aux. rewrite Hq. destruct (lb_half _ _ Hb kv) as [H1 H2]; [by rewrite <- bound_quantized|]. split; [apply (lb_aux _ _ Hb)|]. unfold half. lia.
    + intros Hq. unfold full_aux. by rewrite Hq.
  - lia.
  - unfold full_aux. destruct (quantized P) eqn:Hq; [|lia]. destruct (lb_half _ _ Hb kv) as [H1 H2]; [by rewrite <- bound_quantized|]. unfold half in *. lia.
  - intros Hc. rewrite stage_config in Hc. rewrite Hcs. unfold uses_codec. rewrite Hna, Hc. simpl. rewrite Hf1. destruct kv; [by left|right; by left].
  - apply bound_part_keys.
  - apply bound_rows.
  - intros x Hx. apply other_part. by eapply parts_sub.
  - apply bound_first.
Qed.

Lemma bound_lawful : codec_lawful P.
Proof.
  intros x Hx. destruct bound_layout as (Hbl & _ & _ & _ & Hcs). rewrite Hcs in Hx. destruct (uses_codec config) eqn:Hc; [|by apply elem_of_nil in Hx].
  destruct (bind_layout_spec _ _ _ Hbl) as (_ & _ & _ & _ & ps & gs & rows & El). rewrite El in Hx |- *. cbn in Hx |- *.
  rewrite !elem_of_cons, elem_of_nil in Hx. destruct Hx as [Hx|[Hx|[]]]; [by apply (bd_codec Hok Hc KPart)|by apply (bd_codec Hok Hc VPart)].
Qed.

(** ** The slots *)

(** Every group has a row of its own in the indices of a slot. *)
Lemma bound_row g r : index_rows_by_group lay !! g = Some r → 0 ≤ r < num_index_rows (plan_layout plan) ∧ ∃ x, x ∈ layer_parts lay ∧ group_index x = g.
Proof.
  destruct bound_layout as (Hbl & _). destruct (bind_layout_spec _ _ _ Hbl) as (Hps & _ & Hfa & -> & _). intros E. apply rows_of_lookup in E as [H0 Hg].
  pose proof (lookup_lt_Some _ _ _ Hg) as Hlt. rewrite (Permutation_length (isort_perm Z.leb _)) in Hlt. split.
  - split; [done|]. set (names := (unique_layers (plan_layout plan)).*1).
    assert (Hsub : fa_group_indices lay ⊆ (list_to_set ((λ n, default 0 (dget gi n)) <$> names) : gset Z)).
    { rewrite Hfa, Hps. intros z Hz. apply elem_of_list_to_set, list_elem_of_fmap in Hz as (x & -> & Hx). apply list_elem_of_fmap in Hx as (y & -> & Hy).
      apply elem_of_list_to_set, list_elem_of_fmap. exists (layer_name y). split; [done|]. destruct (unique_layers_get _ _ Hy) as (w & _ & _ & Hw). apply dget_elem_of in Hw.
      apply list_elem_of_fmap. exists (layer_name y, w). by split. }
    apply subseteq_size in Hsub. pose proof (size_to_set_le ((λ n, default 0 (dget gi n)) <$> names)) as Hle. unfold names in *. rewrite !length_fmap in Hle.
    assert (Hel : length (elements (fa_group_indices lay)) = size (fa_group_indices lay)) by done. unfold num_index_rows, zlen. lia.
  - assert (Hin : g ∈ elements (fa_group_indices lay)) by (rewrite <- (isort_perm Z.leb); by eapply list_elem_of_lookup_2). apply elem_of_elements in Hin. rewrite Hfa in Hin.
    apply elem_of_list_to_set, list_elem_of_fmap in Hin as (x & -> & Hx). by exists x.
Qed.

Lemma bound_indices s C ids tokens : sized plan s → sides P (logical_blocks_per_chunk config) C ids tokens → indices_fit P (block_indices s) ids.
Proof.
  intros Hs Hc. destruct bound_layout as (Hbl & Hbpl & _). destruct (bind_layout_spec _ _ _ Hbl) as (_ & _ & _ & Hrows & _). split.
  - intros g g' r H1 H2. rewrite Hrows in H1, H2. apply rows_of_lookup in H1 as [_ H1]. apply rows_of_lookup in H2 as [_ H2]. congruence.
  - intros g r l Hg Hl H0. destruct (bound_row g r Hg) as [Hr (x & Hx & Hxg)]. split; [lia|]. pose proof (sz_rows _ _ Hs) as Hz.
    destruct (lookup_lt_is_Some_2 (block_indices s) (num r)) as [st Hst]; [unfold zlen in Hz; lia|]. exists st. split; [done|].
    pose proof (Forall_lookup_1 _ _ _ _ (sz_row _ _ Hs) Hst) as Hrow. simpl in Hrow. rewrite Hrow. destruct (proj1 (Forall_forall _ _) Hc x Hx) as [Hp _].
    assert (Hle : zlen (phys_of P ids x) ≤ logical_blocks_per_chunk config * blocks_per_logical P) by (rewrite (ps_count _ _ _ _ _ _ _ Hp); pose proof (ps_chunk _ _ _ _ _ _ _ Hp); pose proof (bd_bpl Hok); nia).
    unfold phys_of in Hle. rewrite Hxg, Hl in Hle. simpl in Hle. rewrite Hbpl in *. lia.
Qed.

Lemma bound_arena s : sized plan s → zlen (arena_a s) = arena_bytes lay.
Proof.
  intros Hs. destruct bound_layout as (Hbl & _). destruct (bind_layout_spec _ _ _ Hbl) as (_ & _ & _ & _ & ps & gs & rows & El). rewrite El. cbn. apply Hs.
Qed.

Lemma bound_slot s C ids tokens kv : uses_aggregate config = false → sized plan s → sides P (logical_blocks_per_chunk config) C ids tokens → slot_ok P s ids tokens kv.
Proof.
  intros Hna Hs Hc. destruct bound_layout as (Hbl & _). destruct (bind_layout_spec _ _ _ Hbl) as (Hps & _ & _ & _ & ps & gs & rows & El).
  split; [|split; [by eapply bound_indices|]].
  - pose proof (sz_b _ _ Hs) as Hb. rewrite Hna in Hb. unfold mem_ok. rewrite El. cbn. split; [apply Hs|]. split; [done|apply Hs].
  - destruct (sz_tail _ _ Hs) as (t & Ht & Hlen). exists t. split; [done|]. rewrite Hlen.
    assert (Hcap : raw_tail_capacity (plan_layout plan) = raw_tail_capacity lay).
    { assert (Hf : ∀ p, (λ x, (part_block_size x - 1) * num_heads x * part_head_size x * 2) <$> parts lay p = (λ x, (part_block_size x - 1) * num_heads x * part_head_size x * 2) <$> parts (plan_layout plan) p).
      { intros p. unfold parts. rewrite Hps, filter_bound, <- list_fmap_compose. done. }
      unfold raw_tail_capacity. rewrite !Hf. by rewrite El. }
    rewrite Hcap. eapply raw_tail_bound; [apply Forall_forall, (lb_parts _ _ (bound_bounds Hna))|]. rewrite El. cbn.
    destruct plan_built as (planning & low & n & l0 & N & Hb & Hpl & -> & _ & Hagg). cbn. by rewrite Hagg.
Qed.

End bound.
