(* ===== verification/RtPipelineProps.v ===== *)
(** * Properties of the compression pipeline

    What a transfer of a chunk does to the consumer's caches, from the plan
    of the memory to the decoded blocks: it never fails and gives what
    [receive] specifies (the aggregate transport [receive_whole]); without quantizer and transformer the tokens arrive
    exactly; nothing else is written. *)

From S2P Require Import Prelude PyData RtConfig RtLayout Buffers RtPipeline RtPipelineOps RtPipelineThms RtQuantThms RtBodyThms RtTailThms RtLoopThms RtCodecThms RtRuntime RtRuntimeThms RtBoundThms.

Section tokens.
Context `{B : !Bf16, F : !FusedLaw} (P : CompressionPipeline) (chunk_blocks : Z).

#[local] Notation bpl := (blocks_per_logical P).
#[local] Notation H x := (num (num_heads x)).
#[local] Notation T x := (num (kernel_tokens P x)).
#[local] Notation D x := (num (part_head_size x)).
#[local] Notation nbody x valid := (num (body_blocks P x valid)).

(** Token [t] of head [h] of a request whose blocks are [phys] *)
Definition token_at (c : list block) (phys : list Z) (kt : Z) (h : nat) (t : Z) : option vec :=
  p ← phys !! num (t / kt); b ← c !! num p; v ← b !! h; v !! num (t mod kt).

(** Without transformer and quantizer a body comes back as it was. *)
Lemma returned_lossless x n blocks :
  part_fits P chunk_blocks x → stage P "transformer" = false → quantized P = false → dims4 n (H x) (T x) (D x) blocks → returned P x n blocks = blocks.
Proof.
  intros Hx Ht Hq Hb. unfold returned, sent, forward, backward. rewrite Ht, Hq. destruct (pf_order _ _ x Hx) as (_ & Ho & _).
  pose proof (transposed_dims _ _ _ _ _ Hb) as Htd. unfold blocks_of, ordered. rewrite fmap_concat.
  replace n with (length ((fmap (M:=list) (λ row : token, picked row (order_of P x))) <$> (transpose (T x) <$> blocks))) at 1 by (rewrite !length_fmap; apply Hb).
  rewrite chunk_concat.
  - rewrite <- !list_fmap_compose. rewrite <- (list_fmap_id blocks) at 2. apply list_fmap_ext. intros i b Hi. simpl. destruct Hb as [_ Hb].
    pose proof (Forall_lookup_1 _ _ _ _ Hb Hi) as Hbd. simpl in Hbd. rewrite <- list_fmap_compose.
    rewrite (list_fmap_ext _ id); [rewrite list_fmap_id; eapply transpose_transpose; exact Hbd|]. intros j row Hj. simpl. apply (unpermuted_picked (H x)); [done|].
    destruct (dims3_transpose _ _ _ _ Hbd) as [_ Hr]. apply (Forall_lookup_1 _ _ _ _ Hr Hj).
  - apply Forall_fmap. eapply Forall_impl; [apply Htd|]. intros b [Hl _]. simpl. by rewrite length_fmap.
Qed.

(** Block [j] of a restored tail *)
Lemma restored_lookup x blocks : ∀ rem j b, 0 < kernel_tokens P x → blocks !! j = Some b →
  let c := Z.min (rem - Z.of_nat j * kernel_tokens P x) (kernel_tokens P x) in
  restored_tail P x blocks rem !! j = Some ((λ h : list vec, take (num c) h ++ replicate (T x - num c) (zero_token x)) <$> (b : list (list vec))).
Proof.
  induction blocks as [|b0 blocks IH]; intros rem j b Hk Hj; [done|]. cbn [restored_tail]. destruct j as [|j]; cbn [lookup list_lookup] in *.
  - injection Hj as ->. unfold tail_count. do 2 f_equal. rewrite Z.mul_0_l, Z.sub_0_r. done.
  - rewrite (IH _ _ b) by done. cbn zeta. do 2 f_equal. unfold tail_count.
    destruct (decide (rem ≤ kernel_tokens P x)).
    + destruct (decide (0 ≤ rem)); (replace (num (Z.min (rem - Z.max 0 (Z.min rem (kernel_tokens P x)) - Z.of_nat j * kernel_tokens P x) (kernel_tokens P x))) with 0%nat by nia);
        (replace (num (Z.min (rem - Z.of_nat (S j) * kernel_tokens P x) (kernel_tokens P x))) with 0%nat by nia); done.
    + replace (rem - Z.max 0 (Z.min rem (kernel_tokens P x)) - Z.of_nat j * kernel_tokens P x) with (rem - Z.of_nat (S j) * kernel_tokens P x) by nia. done.
Qed.

(** The blocks of a side: the body's, and the ones of the last block *)
Lemma side_blocks C x c ids valid : part_fits P chunk_blocks x → part_side P chunk_blocks C x c ids valid →
  zlen ids = body_blocks P x valid + (if valid mod part_block_size x =? 0 then 0 else bpl) ∧ 0 ≤ body_blocks P x valid ∧
  body_blocks P x valid * kernel_tokens P x = valid - valid mod part_block_size x.
Proof.
  intros Hx [_ _ _ Hv Hc Hk]. destruct (kernel_tokens_pos P _ x Hx) as [Hkt Hkb]. pose proof (pf_bpl _ _ x Hx) as Hb. destruct (pf_block _ _ x Hx) as [Hbs _].
  rewrite Hc. unfold body_blocks, body_tokens, block_count. set (bs := part_block_size x) in *.
  pose proof (Z.div_mod valid bs ltac:(lia)) as Hd. pose proof (Z.mod_pos_bound valid bs Hbs) as Hm. set (q := valid / bs) in *. set (r := valid mod bs) in *.
  assert (Hq : (valid - r) / bs = q) by (rewrite Hd; replace (bs * q + r - r) with (q * bs) by lia; apply Z.div_mul; lia). rewrite Hq.
  assert (0 ≤ q) by (unfold q; apply Z.div_pos; lia). split_and!; [|nia|nia].
  case_bool; zbool; replace (valid + bs - 1) with (r + bs - 1 + q * bs) by lia; rewrite Z.div_add by lia.
  - replace (r + bs - 1) with (bs - 1) by lia. rewrite Z.div_small by lia. lia.
  - replace (r + bs - 1) with (r - 1 + 1 * bs) by lia. rewrite Z.div_add, Z.div_small by lia. lia.
Qed.

Lemma placed_elsewhere {X} (ids : list Z) (src dst : list X) (k : Z) : Forall (λ i, 0 ≤ i) ids → 0 ≤ k → k ∉ ids → placed ids src dst !! num k = dst !! num k.
Proof.
  intros Hf Hk Hn. apply placed_out. intros i Hi E. apply Hn. apply (proj1 (Forall_forall _ _) Hf) in Hi as Hi0. replace k with i by lia. done.
Qed.

Lemma range_nonneg {X} (c : list X) ids : in_range c ids → Forall (λ i, 0 ≤ i) ids.
Proof. intros Hr. eapply Forall_impl; [exact Hr|]. simpl. lia. Qed.

(** What block [i] of the destination holds after a part *)
Lemma received_block C E x c e ids dest valid i di :
  part_fits P chunk_blocks x → part_side P chunk_blocks C x c ids valid → part_side P chunk_blocks E x e dest valid → NoDup dest → dest !! i = Some di →
  cache_of (receive_part P E dest valid c ids x) x !! num di =
    if Z.of_nat i <? body_blocks P x valid then returned P x (nbody x valid) (picked c (take (nbody x valid) ids)) !! i
    else restored_tail P x (picked c (tail_ids P ids)) (valid mod part_block_size x) !! (i - nbody x valid)%nat.
Proof.
  intros Hx Hs Hd Hnd Hi. destruct (side_blocks _ _ _ _ _ Hx Hs) as (Hzi & Hb0 & Hbk). destruct (side_blocks _ _ _ _ _ Hx Hd) as (Hzd & _ & _).
  destruct (body_side P chunk_blocks _ _ _ _ _ Hx Hs) as (Hl & _ & Hr & Hnc & _). destruct (body_side P chunk_blocks _ _ _ _ _ Hx Hd) as (Hl2 & Hz2 & Hr2 & _).
  pose proof (pf_bpl _ _ x Hx) as Hbpl. pose proof (lookup_lt_Some _ _ _ Hi) as Hilt. pose proof (ps_cache _ _ _ _ _ _ _ Hd) as Hec. pose proof (kernel_tokens_pos P _ x Hx) as [Hkt _].
  set (E1 := receive_body P E dest valid c ids x). set (e1 := cache_of E1 x).
  assert (He1 : length e1 = length e) by (unfold e1, E1; rewrite receive_body_length; unfold cache_of; by rewrite Hec).
  assert (Hrd : in_range e1 dest) by (eapply in_range_length; [exact He1|apply Hd]).
  assert (Hbody : Z.of_nat i < body_blocks P x valid → e1 !! num di = returned P x (nbody x valid) (picked c (take (nbody x valid) ids)) !! i).
  { intros Hlt. unfold e1, E1, receive_body. rewrite (proj2 (Z.eqb_neq _ _)) by (unfold body_tokens; nia). unfold put_blocks, cache_of. rewrite dget_dset_eq, Hec. cbn [default from_option id].
    assert (Hrl : length (returned P x (nbody x valid) (picked c (take (nbody x valid) ids))) = nbody x valid).
    { unfold returned, blocks_of. by rewrite length_fmap, length_chunk. }
    destruct (lookup_lt_is_Some_2 (returned P x (nbody x valid) (picked c (take (nbody x valid) ids))) i) as [b Hb]; [lia|]. rewrite Hb.
    eapply (placed_in _ _ _ i); [|exact Hr2| |exact Hb]; [eapply sublist_NoDup; [exact Hnd|apply sublist_take]|]. rewrite lookup_take_lt by lia. exact Hi. }
  unfold receive_part. fold E1. fold e1. unfold put_tail. case_bool; zbool.
  - rewrite (proj2 (Z.ltb_lt _ _)) by (unfold zlen in Hzd; lia). apply Hbody. unfold zlen in Hzd. lia.
  - unfold put_blocks, cache_of. rewrite dget_dset_eq. cbn [default from_option id].
    assert (Htd : tail_ids P dest = drop (nbody x valid) dest) by (unfold tail_ids, zlen in *; f_equal; lia). rewrite Htd. case_bool; zbool.
    + rewrite placed_elsewhere; [by apply Hbody| | |].
      * eapply range_nonneg, Forall_drop, Hrd.
      * apply (proj1 (Forall_forall _ _) Hrd). by eapply list_elem_of_lookup_2.
      * intros Hin. apply list_elem_of_lookup in Hin as [j Hj]. rewrite lookup_drop in Hj. pose proof (NoDup_lookup _ _ _ _ Hnd Hi Hj). lia.
    + assert (Htl : length (picked c (tail_ids P ids)) = num bpl).
      { rewrite (proj2 (index_select_ok c _ (tail_ids_range P c ids (ps_range _ _ _ _ _ _ _ Hs)))). unfold tail_ids, zlen in *. rewrite length_drop. lia. }
      destruct (lookup_lt_is_Some_2 (picked c (tail_ids P ids)) (i - nbody x valid)) as [b Hb]; [unfold zlen in *; lia|].
      rewrite (restored_lookup x _ _ _ b) by done. eapply (placed_in _ _ _ (i - nbody x valid)%nat).
      * eapply sublist_NoDup; [exact Hnd|apply sublist_drop].
      * apply Forall_drop, Hrd.
      * rewrite lookup_drop. rewrite <- Hi. f_equal. lia.
      * by apply restored_lookup.
Qed.

(** Blocks outside the destination stay. *)
Lemma received_elsewhere E x e c ids dest valid k C :
  part_fits P chunk_blocks x → part_side P chunk_blocks C x c ids valid → part_side P chunk_blocks E x e dest valid → 0 ≤ k → k ∉ dest →
  cache_of (receive_part P E dest valid c ids x) x !! num k = e !! num k.
Proof.
  intros Hx Hs Hd Hk Hn. pose proof (ps_cache _ _ _ _ _ _ _ Hd) as Hec. set (E1 := receive_body P E dest valid c ids x).
  assert (Hnn : Forall (λ i, 0 ≤ i) dest) by (eapply range_nonneg, Hd).
  assert (H1 : cache_of E1 x !! num k = e !! num k).
  { unfold E1, receive_body. case_match; [unfold cache_of; by rewrite Hec|]. unfold put_blocks, cache_of. rewrite dget_dset_eq, Hec. cbn [default from_option id].
    apply placed_elsewhere; [by apply Forall_take|done|]. intros Hin. apply Hn. by apply subseteq_take in Hin. }
  unfold receive_part. fold E1. unfold put_tail. case_match; [done|]. unfold put_blocks, cache_of. rewrite dget_dset_eq. cbn [default from_option id].
  rewrite placed_elsewhere; [exact H1|by apply Forall_drop|done|]. intros Hin. apply Hn. by apply subseteq_drop in Hin.
Qed.

(** ** All parts *)

Lemma receive_part_at E E' dest valid c ids x : dget E (key_of x) = dget E' (key_of x) →
  dget (receive_part P E dest valid c ids x) (key_of x) = dget (receive_part P E' dest valid c ids x) (key_of x).
Proof.
  intros Hk. assert (Hb : dget (receive_body P E dest valid c ids x) (key_of x) = dget (receive_body P E' dest valid c ids x) (key_of x)).
  { unfold receive_body, cache_of. case_match; [done|]. unfold put_blocks. by rewrite !dget_dset_eq, Hk. }
  unfold receive_part, put_tail, cache_of. case_match; [done|]. unfold put_blocks. by rewrite !dget_dset_eq, Hb.
Qed.

Lemma receive_other C ids dest tokens l k : ∀ E, k ∉ key_of <$> l → dget (receive P C ids dest tokens E l) k = dget E k.
Proof.
  induction l as [|x l IH]; intros E Hk; [done|]. rewrite fmap_cons in Hk. apply not_elem_of_cons in Hk as [Hne Hk]. unfold receive. cbn [foldl].
  fold (receive P C ids dest tokens (receive_part P E (phys_of P dest x) (valid_of tokens x) (cache_of C x) (phys_of P ids x) x) l). rewrite IH by done. by apply receive_part_other.
Qed.

Lemma receive_get C ids dest tokens l x : ∀ E, NoDup (key_of <$> l) → x ∈ l →
  cache_of (receive P C ids dest tokens E l) x = cache_of (receive_part P E (phys_of P dest x) (valid_of tokens x) (cache_of C x) (phys_of P ids x) x) x.
Proof.
  induction l as [|y l IH]; intros E Hnd Hx; [by apply elem_of_nil in Hx|]. rewrite fmap_cons in Hnd. apply NoDup_cons in Hnd as [Hni Hnd]. unfold receive. cbn [foldl].
  fold (receive P C ids dest tokens (receive_part P E (phys_of P dest y) (valid_of tokens y) (cache_of C y) (phys_of P ids y) y) l). apply elem_of_cons in Hx as [->|Hx].
  - unfold cache_of at 1. by rewrite receive_other.
  - rewrite IH by done. unfold cache_of at 1 3. rewrite (receive_part_at _ E); [done|]. apply receive_part_other. intros Ek. apply Hni. rewrite Ek. by apply list_elem_of_fmap_2.
Qed.

Lemma physical_nodup l : 0 < bpl → NoDup l → NoDup (physical_ids P l).
Proof.
  intros Hb. unfold physical_ids. induction 1 as [|i l Hi Hnd IH]; [constructor|]. csimpl. apply NoDup_app. split_and!.
  - apply NoDup_fmap_2; [intros a b; lia|apply NoDup_seqZ].
  - intros z Hz Hin. apply list_elem_of_fmap in Hz as (o & -> & Ho). apply elem_of_seqZ in Ho. apply list_elem_of_bind in Hin as (j & Hz & Hj).
    apply list_elem_of_fmap in Hz as (o' & Eq & Ho'). apply elem_of_seqZ in Ho'. apply Hi. replace i with j; [done|]. nia.
  - exact IH.
Qed.

(** ** Tokens *)

Lemma token_of_block c phys kt h t p b : phys !! num (t / kt) = Some p → c !! num p = Some b → token_at c phys kt h t = (b !! h) ≫= λ v : list vec, v !! num (t mod kt).
Proof. intros Hp Hb. unfold token_at. rewrite Hp. cbn. by rewrite Hb. Qed.

Lemma zero_lookup x n k : (k < n)%nat → replicate n (zero_token x) !! k = Some (zero_token x).
Proof. apply lookup_replicate_2. Qed.

Lemma received_token C E x c e ids dest valid h t :
  part_fits P chunk_blocks x → stage P "transformer" = false → quantized P = false →
  part_side P chunk_blocks C x c ids valid → part_side P chunk_blocks E x e dest valid → NoDup dest → (h < H x)%nat → 0 ≤ t < zlen dest * kernel_tokens P x →
  token_at (cache_of (receive_part P E dest valid c ids x) x) dest (kernel_tokens P x) h t = if t <? valid then token_at c ids (kernel_tokens P x) h t else Some (zero_token x).
Proof.
  intros Hx Ht Hq Hs Hd Hnd Hh Htt. destruct (side_blocks _ _ _ _ _ Hx Hs) as (Hzi & Hb0 & Hbk). destruct (side_blocks _ _ _ _ _ Hx Hd) as (Hzd & _ & _).
  destruct (body_side P chunk_blocks _ _ _ _ _ Hx Hs) as (Hl & _ & Hr & _). pose proof (pf_bpl _ _ x Hx) as Hbpl. destruct (kernel_tokens_pos P _ x Hx) as [Hkt Hkb].
  pose proof (tail_bounds P chunk_blocks x valid Hx) as Hm. set (kt := kernel_tokens P x) in *. set (i := num (t / kt)).
  assert (Hti : 0 ≤ t / kt) by (apply Z.div_pos; lia). pose proof (Z.div_mod t kt ltac:(lia)) as Hdm. pose proof (Z.mod_pos_bound t kt Hkt) as Hmb.
  assert (Hilt : Z.of_nat i < zlen dest) by (unfold i; nia).
  destruct (lookup_lt_is_Some_2 dest i) as [di Hdi]; [unfold zlen in Hilt; lia|]. destruct (lookup_lt_is_Some_2 ids i) as [pi Hpi]; [unfold zlen in *; lia|].
  assert (Hpr : 0 ≤ pi < zlen c) by (eapply (Forall_lookup_1 _ _ _ _ (ps_range _ _ _ _ _ _ _ Hs) Hpi)).
  destruct (lookup_lt_is_Some_2 c (num pi)) as [b Hb]; [unfold zlen in Hpr; lia|].
  pose proof (received_block C E x c e ids dest valid i di Hx Hs Hd Hnd Hdi) as Hrec. rewrite (token_of_block c ids kt h t pi b Hpi Hb).
  assert (Hbd : dims3 (H x) (T x) (D x) b) by (apply (Forall_lookup_1 _ _ _ _ (ps_dims _ _ _ _ _ _ _ Hs) Hb)). destruct Hbd as [Hbl Hbf].
  destruct (lookup_lt_is_Some_2 b h) as [v Hv]; [lia|]. pose proof (Forall_lookup_1 _ _ _ _ Hbf Hv) as [Hvl _]. rewrite Hv. cbn [mbind option_bind].
  destruct (Z.of_nat i <? body_blocks P x valid) eqn:Ei; zbool.
  - (* a block of the body *)
    assert (Hpd : dims4 (nbody x valid) (H x) (T x) (D x) (picked c (take (nbody x valid) ids))) by (split; [rewrite (proj2 (index_select_ok _ _ Hr)); exact Hl|apply Forall_picked, Hs]).
    rewrite (returned_lossless x _ _ Hx Ht Hq Hpd) in Hrec. rewrite (picked_lookup _ _ _ pi Hr) in Hrec by (by rewrite lookup_take_lt by lia). rewrite Hb in Hrec.
    rewrite (token_of_block _ dest kt h t di b Hdi Hrec), Hv. cbn [mbind option_bind]. rewrite (proj2 (Z.ltb_lt t valid)); [done|]. unfold i in *. nia.
  - assert (Htn : (valid mod part_block_size x =? 0) = false). { apply Z.eqb_neq. intros E0. rewrite E0 in Hzd. simpl in Hzd. lia. } rewrite Htn in *.
    assert (Htr : picked c (tail_ids P ids) !! (i - nbody x valid)%nat = Some b).
    { rewrite (picked_lookup _ _ _ pi) by ((apply tail_ids_range, Hs) || (unfold tail_ids; rewrite lookup_drop, <- Hpi; f_equal; unfold zlen in *; lia)). exact Hb. }
    rewrite (restored_lookup x _ _ _ b Hkt Htr) in Hrec. rewrite (token_of_block _ dest kt h t di _ Hdi Hrec), list_lookup_fmap, Hv. cbn [fmap option_fmap option_map mbind option_bind]. fold kt.
    set (r := valid mod part_block_size x) in *. replace (r - Z.of_nat (i - nbody x valid) * kt) with (valid - Z.of_nat i * kt) by nia.
    assert (Hi : Z.of_nat i = t / kt) by (unfold i; lia). case_bool; zbool.
    + rewrite lookup_app_l by (rewrite length_take; nia). by rewrite lookup_take_lt by nia.
    + rewrite lookup_app_r by (rewrite length_take; nia). apply zero_lookup. rewrite length_take. nia.
Qed.

(** ** The aggregate transport *)

Lemma whole_other C ids dest l k : ∀ E, k ∉ key_of <$> l → dget (receive_whole P C ids dest E l) k = dget E k.
Proof.
  induction l as [|x l IH]; intros E Hk; [done|]. rewrite fmap_cons in Hk. apply not_elem_of_cons in Hk as [Hne Hk]. unfold receive_whole. cbn [foldl].
  fold (receive_whole P C ids dest (put_blocks E x (cache_of E x) (phys_of P dest x) (picked (cache_of C x) (phys_of P ids x))) l). rewrite IH by done. by apply dget_dset_ne.
Qed.

Lemma whole_get C ids dest l x : ∀ E, NoDup (key_of <$> l) → x ∈ l →
  cache_of (receive_whole P C ids dest E l) x = placed (phys_of P dest x) (picked (cache_of C x) (phys_of P ids x)) (cache_of E x).
Proof.
  induction l as [|y l IH]; intros E Hnd Hx; [by apply elem_of_nil in Hx|]. rewrite fmap_cons in Hnd. apply NoDup_cons in Hnd as [Hni Hnd]. unfold receive_whole. cbn [foldl].
  fold (receive_whole P C ids dest (put_blocks E y (cache_of E y) (phys_of P dest y) (picked (cache_of C y) (phys_of P ids y))) l). apply elem_of_cons in Hx as [->|Hx].
  - unfold cache_of at 1. rewrite whole_other by done. unfold put_blocks. by rewrite dget_dset_eq.
  - rewrite IH by done. unfold cache_of at 2. unfold put_blocks. rewrite dget_dset_ne; [done|]. intros Ek. apply Hni. rewrite Ek. by apply list_elem_of_fmap_2.
Qed.

(** A token in a copied block *)
Lemma whole_token c e ids dest kt h t :
  0 < kt → length ids = length dest → in_range c ids → in_range e dest → NoDup dest → 0 ≤ t < zlen dest * kt →
  token_at (placed dest (picked c ids) e) dest kt h t = token_at c ids kt h t.
Proof.
  intros Hkt Hl Hr He Hnd Ht. unfold token_at. set (i := num (t / kt)).
  assert (Hi : (i < length dest)%nat).
  { unfold i. pose proof (Z.div_pos t kt ltac:(lia) Hkt). apply Nat2Z.inj_lt. rewrite Z2Nat.id by done. apply Z.div_lt_upper_bound; [done|]. unfold zlen in Ht. lia. }
  destruct (lookup_lt_is_Some_2 dest i Hi) as [d Hd]. destruct (lookup_lt_is_Some_2 ids i) as [p Hp]; [lia|]. rewrite Hd, Hp. cbn [mbind option_bind].
  assert (Hpr : 0 ≤ p < zlen c) by (apply (Forall_lookup_1 _ _ _ _ Hr Hp)). destruct (lookup_lt_is_Some_2 c (num p)) as [b Hb]; [unfold zlen in Hpr; lia|].
  rewrite (placed_in dest _ _ i d b Hnd He Hd); [by rewrite Hb|]. by rewrite (picked_lookup _ _ _ p Hr Hp).
Qed.

End tokens.

(** ** From the configuration to the blocks *)

Section transfers.
Context `{B : !Bf16, F : !FusedLaw, A : !Ans}.
Context (load_scores : json → result ndarray) (probe : CompressionLayout → Z * (Z * Z) * Z) (pick : gset Z → option Z) (sign_row : Z → Z → vec).
Context (config : CompressionConfig) (specs : list (string * CacheSpec)) (bpl tp_size tp_rank num_layers : Z) (gi : list (string * Z)).
Context (plan : CompressionMemoryPlan) (P : CompressionPipeline).

(** A runtime planned and bound from a valid configuration, caches with
    names and layer indices of their own, a probe that bounds nvCOMP's
    outputs, and group indices. *)
Record deployed : Prop := {
  dp_config : config_ok config;
  dp_specs : Forall (λ e, spec_ok e.2) specs;
  dp_names : NoDup specs.*1;
  dp_layers : NoDup ((λ e : string * CacheSpec, layer_index e.2) <$> specs);
  dp_rank : 0 ≤ tp_rank < tp_size;
  dp_bpl : 0 < bpl;
  dp_scores a : load_scores (score_path config) = Ok a → array_ok a;
  dp_probe l : uses_codec config = true → probe_lawful probe l;
  dp_pick (S : gset Z) : S ≠ ∅ → ∃ g, pick S = Some g ∧ g ∈ S;
  dp_rows s n : 0 ≤ n → zlen (sign_row s n) = n;
  dp_groups name g : dget gi name = Some g → 0 ≤ g;
  dp_plan : build_memory_plan load_scores probe config specs bpl tp_size tp_rank num_layers = Ok (Some plan);
  dp_bind : bind_pipeline pick sign_row plan gi = Ok P
}.

#[local] Notation cb := (logical_blocks_per_chunk config).

Lemma deployed_bound : deployed → bind_ok pick sign_row gi plan specs P ∧ plan_config plan = config.
Proof.
  intros [Hc Hs Hn Hl Hr Hb Hsc Hp Hpick Hrow Hg Hplan Hbind].
  destruct (build_plan_spec _ _ _ _ _ _ _ _ _ Hplan Hc Hs Hl Hr Hb Hsc) as (Hpl & Hcfg & Hbpl & l0 & Hpk & Hout). split; [|done]. split; try done; try (by rewrite Hcfg); try (by rewrite Hbpl).
  rewrite Hcfg. intros Hcod p x Hx. rewrite <- Hpk in Hx. destruct (Hp l0 Hcod p x Hx) as (y & Hy & Hle & Hd). exists y. split; [done|]. split; [|done]. specialize (Hout Hcod). lia.
Qed.

Lemma chunk_transfer_back kv C E ids dest tokens sp :
  deployed → uses_aggregate config = false → sized plan sp → sides P cb C ids tokens → sides P cb E dest tokens →
  ∃ sp' ch, encode P C sp ids kv tokens = Ok (sp', ch) ∧
    ∀ sc, sized plan sc → delivered P kv tokens ch sp' sc →
      ∃ sc', runtime_decode P E sc dest kv (codec_bytes ch) (u8_bytes ch) tokens = Ok (receive P C ids dest tokens E (parts (p_layout P) kv), sc').
Proof.
  intros Hd Hna Hsp HC HE. destruct (deployed_bound Hd) as [Hb Hcfg]. rewrite <- Hcfg in *.
  pose proof (bound_fits _ _ _ _ _ _ Hb Hna kv) as Hfit. pose proof (bound_lawful _ _ _ _ _ _ Hb) as Hlaw. pose proof (eq_trans (stage_aggregate _ _ _ _ _ _ Hb) Hna) as Hagg.
  destruct (encode_spec P (logical_blocks_per_chunk (plan_config plan)) C sp ids kv tokens Hlaw Hfit Hagg HC (bound_slot _ _ _ _ _ _ Hb sp C ids tokens kv Hna Hsp HC)) as (sp' & ch & E1 & Hst).
  exists sp', ch. split; [exact E1|]. intros sc Hsc Hdel. destruct (bound_slot _ _ _ _ _ _ Hb sc E dest tokens kv Hna Hsc HE) as (Hm & Hi & _).
  by apply (decode_spec P (logical_blocks_per_chunk (plan_config plan)) C E ids dest tokens kv ch sp' sc Hlaw Hfit Hagg HC HE Hst Hdel).
Qed.

Lemma whole_transfer_back kv C E ids dest tokens sp :
  deployed → uses_aggregate config = true → sized plan sp → sides P cb C ids tokens → sides P cb E dest tokens →
  ∃ sp' ch, encode P C sp ids kv tokens = Ok (sp', ch) ∧
    ∀ sc, sized plan sc → delivered P kv tokens ch sp' sc →
      ∃ sc', runtime_decode P E sc dest kv (codec_bytes ch) (u8_bytes ch) tokens = Ok (receive_whole P C ids dest E (parts (p_layout P) kv), sc').
Proof.
  intros Hd Hna Hsp HC HE. destruct (deployed_bound Hd) as [Hb Hcfg]. rewrite <- Hcfg in *.
  pose proof (bound_whole_fits _ _ _ _ _ _ Hb Hna kv) as Hfit. pose proof (eq_trans (stage_aggregate _ _ _ _ _ _ Hb) Hna) as Hagg. pose proof (ag_bpl _ _ _ Hfit) as Hbpl.
  destruct (encode_whole P (logical_blocks_per_chunk (plan_config plan)) Hbpl C sp ids kv tokens Hfit Hagg HC (bound_indices _ _ _ _ _ _ Hb sp C ids tokens Hsp HC) (bound_arena _ _ _ _ _ _ Hb sp Hsp)) as (sp' & E1 & Hn & Hst).
  eexists sp', _. split; [exact E1|]. intros sc Hsc Hdel. cbn [codec_bytes u8_bytes].
  eapply (decode_whole P (logical_blocks_per_chunk (plan_config plan)) Hbpl C E ids dest tokens kv _ (arena_a sp') sc Hfit Hagg HC HE); try done;
    [exact (bound_indices _ _ _ _ _ _ Hb sc E dest tokens Hsc HE)|exact (bound_arena _ _ _ _ _ _ Hb sc Hsc)|exact (dl_payload _ _ _ _ _ _ Hdel)].
Qed.

(** C3 Refinement: in a runtime that is planned and bound from a valid
    configuration with a compression pipeline, encoding a chunk succeeds
    whatever the arenas hold, and decoding in any consumer slot that received
    the payload, the parameters and the raw tail gives exactly the caches that
    the specification [receive] gives, a function of the tokens alone: for every
    layer part the body's blocks ordered, transformed, quantized and back, and
    the tail's tokens with zeros behind them. No arena window of one layer
    disturbs another's. *)
Theorem chunk_transfer_refines kv C E ids dest tokens sp :
  deployed → uses_aggregate config = false → sized plan sp → sides P cb C ids tokens → sides P cb E dest tokens →
  ∃ sp' ch, encode P C sp ids kv tokens = Ok (sp', ch) ∧
    ∀ sc, sized plan sc → delivered P kv tokens ch sp' sc →
      ∃ sc', runtime_decode P E sc dest kv (codec_bytes ch) (u8_bytes ch) tokens = Ok (receive P C ids dest tokens E (parts (p_layout P) kv), sc').
Proof. apply chunk_transfer_back. Qed.

(** What a lossless pipeline leaves at token [t] of the destination: the
    aggregate transport copies whole blocks, the others send the [valid]
    tokens. *)
Definition lossless_token (valid : Z) (t : Z) (sent : option vec) (x : LayerPartLayout) : option vec :=
  if uses_aggregate config || (t <? valid) then sent else Some (zero_token x).

Lemma side_part C ids tokens x kv : sides P cb C ids tokens → x ∈ parts (p_layout P) kv → side P cb C ids tokens x.
Proof. intros Hs Hx. exact (proj1 (Forall_forall _ _) (sides_parts _ _ _ _ _ kv Hs) x Hx). Qed.

Lemma dest_nodup dest x : 0 < blocks_per_logical P → Forall NoDup dest → NoDup (phys_of P dest x).
Proof.
  intros Hb Hnd. unfold phys_of. destruct (dest !! num (group_index x)) as [l|] eqn:El; [|constructor]. apply physical_nodup; [done|by apply (Forall_lookup_1 _ _ _ _ Hnd El)].
Qed.

(** C4 Round trip: in a pipeline without transformer and quantizer, with or
    without the codec, every token of a request reaches the consumer's blocks
    exactly, bit by bit, and the positions behind the last token are zero; the
    aggregate transport leaves every position of the blocks as it was sent. *)
Theorem lossless_transfer kv C E ids dest tokens sp :
  deployed → uses_transformer config = false → uses_quantizer config = false →
  sized plan sp → sides P cb C ids tokens → sides P cb E dest tokens → Forall NoDup dest →
  ∃ sp' ch, encode P C sp ids kv tokens = Ok (sp', ch) ∧
    ∀ sc, sized plan sc → delivered P kv tokens ch sp' sc →
      ∃ E' sc', runtime_decode P E sc dest kv (codec_bytes ch) (u8_bytes ch) tokens = Ok (E', sc') ∧
        ∀ x h t, x ∈ parts (p_layout P) kv → (h < num (num_heads x))%nat → 0 ≤ t < zlen (phys_of P dest x) * kernel_tokens P x →
          token_at (cache_of E' x) (phys_of P dest x) (kernel_tokens P x) h t =
            lossless_token (valid_of tokens x) t (token_at (cache_of C x) (phys_of P ids x) (kernel_tokens P x) h t) x.
Proof.
  intros Hd Ht Hq Hsp HC HE Hnd. destruct (deployed_bound Hd) as [Hb Hcfg]. destruct (uses_aggregate config) eqn:Hna.
  - destruct (whole_transfer_back kv C E ids dest tokens sp Hd Hna Hsp HC HE) as (sp' & ch & E1 & Hdec). exists sp', ch. split; [exact E1|]. intros sc Hsc Hdel.
    destruct (Hdec sc Hsc Hdel) as (sc' & E2). eexists _, sc'. split; [exact E2|]. intros x h t Hx Hh Htt. unfold lossless_token. rewrite Hna. cbn [orb].
    destruct (side_part _ _ _ _ kv HC Hx) as [[_ _ Hr _ Hl _] _]. destruct (side_part _ _ _ _ kv HE Hx) as [[_ _ Hr' _ Hl' _] _].
    rewrite <- Hcfg in Hna. pose proof (bound_whole_fits _ _ _ _ _ _ Hb Hna kv) as Hfit. pose proof (ag_bpl _ _ _ Hfit) as Hbpl.
    destruct (ag_parts _ _ _ Hfit x (parts_sub _ _ _ Hx)) as [[Hbs [q Hq']] _ _ _].
    rewrite (whole_get P C ids dest _ x E (ag_keys _ _ _ Hfit) Hx). apply whole_token; try done.
    + unfold kernel_tokens. rewrite Hq', Z.div_mul by lia. nia.
    + unfold zlen in *. lia.
    + by apply dest_nodup.
  - destruct (chunk_transfer_back kv C E ids dest tokens sp Hd Hna Hsp HC HE) as (sp' & ch & E1 & Hdec). exists sp', ch. split; [exact E1|]. intros sc Hsc Hdel.
    destruct (Hdec sc Hsc Hdel) as (sc' & E2). eexists _, sc'. split; [exact E2|]. intros x h t Hx Hh Htt. unfold lossless_token. rewrite Hna. cbn [orb]. clear E1 Hdec E2 Hdel.
    assert (Ht' : in_pipeline "transformer" config = false) by (unfold uses_transformer in Ht; by rewrite Hna in Ht).
    assert (Hq' : in_pipeline "quantizer" config = false) by (unfold uses_quantizer in Hq; by rewrite Hna in Hq).
    destruct (side_part _ _ _ _ kv HC Hx) as [Hs _]. destruct (side_part _ _ _ _ kv HE Hx) as [Hse Hv]. rewrite <- Hcfg in *.
    pose proof (bound_part_fits _ _ _ _ _ _ Hb Hna x (parts_sub _ _ _ Hx)) as Hf. pose proof (bound_fits _ _ _ _ _ _ Hb Hna kv) as Hfit.
    rewrite (receive_get P C ids dest tokens _ x E (cf_keys _ _ _ Hfit) Hx).
    apply (received_token P (logical_blocks_per_chunk (plan_config plan)) C E x _ (cache_of E x)); try done.
    + rewrite (stage_config _ _ _ _ _ _ Hb). exact Ht'.
    + rewrite (bound_quantized _ _ _ _ _ _ Hb). exact Hq'.
    + apply dest_nodup; [apply (pf_bpl _ _ _ Hf)|done].
Qed.

(** C5 Safety: a decoded chunk changes no cache of the other part or of
    another layer, and in the caches it changes no block outside the
    destination, in every valid configuration. *)
Theorem transfer_confined kv C E ids dest tokens sp :
  deployed → sized plan sp → sides P cb C ids tokens → sides P cb E dest tokens →
  ∃ sp' ch, encode P C sp ids kv tokens = Ok (sp', ch) ∧
    ∀ sc, sized plan sc → delivered P kv tokens ch sp' sc →
      ∃ E' sc', runtime_decode P E sc dest kv (codec_bytes ch) (u8_bytes ch) tokens = Ok (E', sc') ∧
        (∀ k, k ∉ key_of <$> parts (p_layout P) kv → dget E' k = dget E k) ∧
        (∀ x k, x ∈ parts (p_layout P) kv → 0 ≤ k → k ∉ phys_of P dest x → cache_of E' x !! num k = cache_of E x !! num k).
Proof.
  intros Hd Hsp HC HE. destruct (deployed_bound Hd) as [Hb Hcfg]. destruct (uses_aggregate config) eqn:Hna.
  - destruct (whole_transfer_back kv C E ids dest tokens sp Hd Hna Hsp HC HE) as (sp' & ch & E1 & Hdec). exists sp', ch. split; [exact E1|]. intros sc Hsc Hdel.
    destruct (Hdec sc Hsc Hdel) as (sc' & E2). eexists _, sc'. split; [exact E2|]. split; [intros k Hk; by apply whole_other|]. intros x k Hx Hk Hn.
    destruct (side_part _ _ _ _ kv HE Hx) as [[_ _ Hr _ _ _] _]. rewrite <- Hcfg in Hna. pose proof (bound_whole_fits _ _ _ _ _ _ Hb Hna kv) as Hfit.
    rewrite (whole_get P C ids dest _ x E (ag_keys _ _ _ Hfit) Hx). apply placed_elsewhere; [by eapply range_nonneg|done|done].
  - destruct (chunk_transfer_back kv C E ids dest tokens sp Hd Hna Hsp HC HE) as (sp' & ch & E1 & Hdec). exists sp', ch. split; [exact E1|]. intros sc Hsc Hdel.
    destruct (Hdec sc Hsc Hdel) as (sc' & E2). eexists _, sc'. split; [exact E2|]. clear E1 Hdec E2 Hdel.
    split; [intros k Hk; by apply receive_other|]. intros x k Hx Hk Hn.
    destruct (side_part _ _ _ _ kv HC Hx) as [Hs _]. destruct (side_part _ _ _ _ kv HE Hx) as [Hse _]. rewrite <- Hcfg in *.
    pose proof (bound_part_fits _ _ _ _ _ _ Hb Hna x (parts_sub _ _ _ Hx)) as Hf. pose proof (bound_fits _ _ _ _ _ _ Hb Hna kv) as Hfit.
    rewrite (receive_get P C ids dest tokens _ x E (cf_keys _ _ _ Hfit) Hx). by eapply (received_elsewhere P (logical_blocks_per_chunk (plan_config plan)) E x _ _ _ _ _ k C).
Qed.

End transfers.
