(* ===== verification/RtPipelineEx.v ===== *)
(** * A small runtime

    One layer of two heads of size 2, logical blocks of four tokens in two
    physical ones, a request of six tokens: the witnesses of the properties of
    the pipeline. Numbers are 16-bit integers, the codec copies. *)

From S2P Require Import Prelude PyData RtConfig RtLayout Buffers RtPipeline RtPipelineOps RtTailThms RtLoopThms RtCodecThms RtRuntime RtRuntimeThms RtBoundThms RtPipelineProps.

Definition value (e : elem) : Z := e.1 + 256 * e.2.
Definition elem_of_Z (z : Z) : elem := let z := z mod 65536 in (z mod 256, z / 256).

Definition ex_bf16 : Bf16 := {|
  bf_add a b := elem_of_Z (value a + value b);
  bf_sub a b := elem_of_Z (value a - value b);
  bf_mul a b := elem_of_Z (value a * value b);
  bf_amin l := elem_of_Z (foldr (λ e m, Z.min (value e) m) 65535 l);
  bf_amax l := elem_of_Z (foldr (λ e m, Z.max (value e) m) 0 l);
  bf_clamp_min a := elem_of_Z (Z.max 1 (value a));
  bf_div_int a n := elem_of_Z (Z.max 1 (value a / n));
  bf_reciprocal a := elem_of_Z (1 / Z.max 1 (value a));
  bf_round a := a;
  bf_clamp n a := elem_of_Z (Z.max 0 (Z.min (value a) n));
  bf_isqrt _ a := a;
  to_uint8 a := value a mod 256;
  of_uint8 z := elem_of_Z z;
  fused_hadamard := None
|}.
#[local] Existing Instance ex_bf16.

Definition ex_fused : FusedLaw.
Proof. intros f [=]. Defined.
#[local] Existing Instance ex_fused.

Definition ex_ans : Ans := {| ans_encode := Ok; ans_decode _ := Ok |}.
#[local] Existing Instance ex_ans.

Definition ex_rt_config (stages : list string) : CompressionConfig :=
  mkConfig true Compression (JInt 7) SplitLayer JNull (JInt 1) Channel Token 12 8 6 4 1 2 stages.
Definition ex_rt_specs : list (string * CacheSpec) := [("l0"%string, make_spec 0 4 2 2 BFloat16 None)].
Definition ex_load (_ : json) : result ndarray := Err AssertionError.
Definition ex_probe (l : CompressionLayout) : Z * (Z * Z) * Z := (256, packed_bytes_by_part l, 0).
Definition ex_pick (S : gset Z) : option Z := head (elements S).
Definition ex_row (_ n : Z) : vec := replicate (num n) (1, 0).
Definition ex_gi : list (string * Z) := [("l0"%string, 0)].

Definition ex_plan (stages : list string) : result (option CompressionMemoryPlan) :=
  build_memory_plan ex_load ex_probe (ex_rt_config stages) ex_rt_specs 2 1 0 0.
Definition ex_pipeline (stages : list string) : result CompressionPipeline :=
  let? plan := ex_plan stages in
  match plan with Some plan => bind_pipeline ex_pick ex_row plan ex_gi | None => Err AssertionError end.

Definition get {X} (d : X) (r : result X) : X := match r with Ok x => x | Err _ => d end.

Definition ex_empty : CompressionMemoryPlan := plan_of (ex_rt_config []) (finish_layout (ex_rt_config []) 0 init_build) (mkSelection ∅ ∅) 2 0 0 (0, 0).
Definition ex_none : CompressionPipeline := mkPipeline (finish_layout (ex_rt_config []) 0 init_build) None 2 [] [] ∅ [] [].

Definition full_stages : list string := ["transformer"; "quantizer"; "codec"]%string.
Definition plan_full : CompressionMemoryPlan := default ex_empty (get None (ex_plan full_stages)).
Definition pipe_full : CompressionPipeline := get ex_none (ex_pipeline full_stages).
Definition plan_codec : CompressionMemoryPlan := default ex_empty (get None (ex_plan ["codec"%string])).
Definition pipe_codec : CompressionPipeline := get ex_none (ex_pipeline ["codec"%string]).

(** The aggregate transport *)
Definition plan_agg : CompressionMemoryPlan := default ex_empty (get None (ex_plan ["aggregate"%string])).
Definition pipe_agg : CompressionPipeline := get ex_none (ex_pipeline ["aggregate"%string]).

Definition ex_block (p : Z) : block := (λ h, (λ t, (λ d, (8 * p + 4 * h + 2 * t + d, 0)) <$> [0; 1]) <$> [0; 1]) <$> [0; 1].
Definition ex_source : caches := [(("l0"%string, KPart), ex_block <$> [0; 1; 2; 3]); (("l0"%string, VPart), ex_block <$> [4; 5; 6; 7])].
Definition ex_target : caches := [(("l0"%string, KPart), ex_block <$> [9; 9; 9; 9]); (("l0"%string, VPart), ex_block <$> [9; 9; 9; 9])].
Definition ex_ids : list (list Z) := [[0; 1]].
Definition ex_dest : list (list Z) := [[1; 0]].
Definition ex_tokens : list (Z * Z) := [(0, 6)].

(** A slot with whatever was left in it *)
Definition ex_slot (plan : CompressionMemoryPlan) : CompressionSlotBuffers :=
  let l := plan_layout plan in
  mkSlot (replicate (num (arena_bytes l)) 7) (replicate (num (arena_bytes l)) 7) (replicate (num (aux_arena_bytes l)) 7) [[5; 5; 5; 5]]
    (Some (replicate (num (raw_tail_capacity l)) 7)).

Definition ex_agg_slot : CompressionSlotBuffers := mkSlot (replicate (num (arena_bytes (plan_layout plan_agg))) 7) [] [] [[5; 5; 5; 5]] (Some []).

Lemma ex_probe_lawful l : probe_lawful ex_probe l.
Proof. intros p x Hx. exists x. split; [done|]. split; [|done]. rewrite Hx. destruct p; simpl; lia. Qed.

Lemma ex_pick_ok (S : gset Z) : S ≠ ∅ → ∃ g, ex_pick S = Some g ∧ g ∈ S.
Proof.
  intros HS. unfold ex_pick. destruct (elements S) as [|g l] eqn:E; [exfalso; apply HS; apply leibniz_equiv; by apply elements_empty_inv|].
  exists g. split; [done|]. apply elem_of_elements. rewrite E. by left.
Qed.

Ltac deployed_tac :=
  constructor;
  [constructor; first [simpl; lia|done|intros Hn; exfalso; apply Hn; left|intros _; repeat constructor|apply (bool_decide_unpack _); vm_compute; exact I]
  |repeat constructor
  |apply (bool_decide_unpack _); vm_compute; exact I
  |apply (bool_decide_unpack _); vm_compute; exact I
  |lia|lia
  |intros a [=]
  |intros l _; apply ex_probe_lawful
  |apply ex_pick_ok
  |intros s n Hn; unfold ex_row, zlen; rewrite length_replicate; lia
  |intros name g; unfold ex_gi; simpl; case_decide; intros [=]; lia
  |vm_compute; reflexivity
  |vm_compute; reflexivity].

Lemma deployed_full : deployed ex_load ex_probe ex_pick ex_row (ex_rt_config full_stages) ex_rt_specs 2 1 0 0 ex_gi plan_full pipe_full.
Proof. deployed_tac. Qed.

Lemma deployed_codec : deployed ex_load ex_probe ex_pick ex_row (ex_rt_config ["codec"%string]) ex_rt_specs 2 1 0 0 ex_gi plan_codec pipe_codec.
Proof. deployed_tac. Qed.

Lemma deployed_agg : deployed ex_load ex_probe ex_pick ex_row (ex_rt_config ["aggregate"%string]) ex_rt_specs 2 1 0 0 ex_gi plan_agg pipe_agg.
Proof. deployed_tac. Qed.

Ltac sized_tac :=
  constructor; [vm_compute; reflexivity|vm_compute; reflexivity|vm_compute; reflexivity
  |eexists; split; [reflexivity|vm_compute; reflexivity]|vm_compute; reflexivity|repeat constructor].

Lemma sized_full : sized plan_full (ex_slot plan_full).
Proof. sized_tac. Qed.

Lemma sized_codec : sized plan_codec (ex_slot plan_codec).
Proof. sized_tac. Qed.

Lemma sized_agg : sized plan_agg ex_agg_slot.
Proof. sized_tac. Qed.

Ltac dims_tac := vm_compute; repeat first [reflexivity|lia|discriminate|apply Forall_nil; exact I|apply Forall_cons; split|split].

Ltac sides_tac :=
  apply Forall_forall; intros x Hx; vm_compute in Hx;
  repeat (apply elem_of_cons in Hx as [->|Hx]);
  [split; [constructor; [vm_compute; reflexivity|dims_tac|dims_tac|vm_compute; reflexivity|vm_compute; reflexivity|vm_compute; discriminate]
          |vm_compute; reflexivity]..
  |by apply elem_of_nil in Hx].

Lemma sides_full (C : caches) ids : (C, ids) ∈ [(ex_source, ex_ids); (ex_target, ex_dest)] → sides pipe_full 2 C ids ex_tokens.
Proof. rewrite !elem_of_cons, elem_of_nil. intros [[= -> ->]|[[= -> ->]|[]]]; sides_tac. Qed.

Lemma sides_codec (C : caches) ids : (C, ids) ∈ [(ex_source, ex_ids); (ex_target, ex_dest)] → sides pipe_codec 2 C ids ex_tokens.
Proof. rewrite !elem_of_cons, elem_of_nil. intros [[= -> ->]|[[= -> ->]|[]]]; sides_tac. Qed.

Lemma sides_agg (C : caches) ids : (C, ids) ∈ [(ex_source, ex_ids); (ex_target, ex_dest)] → sides pipe_agg 2 C ids ex_tokens.
Proof. rewrite !elem_of_cons, elem_of_nil. intros [[= -> ->]|[[= -> ->]|[]]]; sides_tac. Qed.

(** A whole transfer, computed: the transport copies what was sent into a slot
    that holds something else. *)
Definition copy_over (n : Z) (src dst : list Z) : list Z := take (num n) src ++ drop (num n) dst.

Definition ex_deliver (P : CompressionPipeline) (kv : KVPart) (ch : EncodedChunk) (sp sc : CompressionSlotBuffers) : CompressionSlotBuffers :=
  mkSlot (copy_over (codec_bytes ch) (arena_a sp) (arena_a sc)) (arena_b sc) (copy_over (aux_bytes P kv ex_tokens) (aux sp) (aux sc)) (block_indices sc)
    (match raw_tail sp, raw_tail sc with Some t, Some t' => Some (copy_over (chunk_tail_bytes ch) t t') | _, t' => t' end).

Definition ex_transfer (P : CompressionPipeline) (plan : CompressionMemoryPlan) (kv : KVPart) : result caches :=
  let? (sp, ch) := encode P ex_source (ex_slot plan) ex_ids kv ex_tokens in
  let? (E, _) := runtime_decode P ex_target (ex_deliver P kv ch sp (ex_slot plan)) ex_dest kv (codec_bytes ch) (u8_bytes ch) ex_tokens in
  Ok E.

Example ex_full_transfer : ex_transfer pipe_full plan_full KPart = Ok (receive pipe_full ex_source ex_ids ex_dest ex_tokens ex_target (parts (p_layout pipe_full) KPart)).
Proof. vm_compute. reflexivity. Qed.

Example ex_codec_transfer : dget (get [] (ex_transfer pipe_codec plan_codec VPart)) ("l0"%string, VPart) =
  Some [ex_block 6; (λ _, replicate 2 (replicate 2 (0, 0))) <$> [0; 1]; ex_block 4; ex_block 5].
Proof. vm_compute. reflexivity. Qed.

(** The aggregate transport copies the blocks, also behind the last token. *)
Example ex_agg_transfer :
  (let? (sp, ch) := encode pipe_agg ex_source ex_agg_slot ex_ids VPart ex_tokens in
   let? (E, _) := runtime_decode pipe_agg ex_target (ex_deliver pipe_agg VPart ch sp ex_agg_slot) ex_dest VPart (codec_bytes ch) (u8_bytes ch) ex_tokens in
   of_option KeyError (dget E ("l0"%string, VPart))) = Ok [ex_block 6; ex_block 7; ex_block 4; ex_block 5].
Proof. vm_compute. reflexivity. Qed.

(** ** Witnesses *)

Lemma chunk_transfer_refines_witness :
  ∃ sp ch, encode pipe_full ex_source (ex_slot plan_full) ex_ids KPart ex_tokens = Ok (sp, ch) ∧
    ∀ sc, sized plan_full sc → delivered pipe_full KPart ex_tokens ch sp sc →
      ∃ sc', runtime_decode pipe_full ex_target sc ex_dest KPart (codec_bytes ch) (u8_bytes ch) ex_tokens =
        Ok (receive pipe_full ex_source ex_ids ex_dest ex_tokens ex_target (parts (p_layout pipe_full) KPart), sc').
Proof.
  refine (chunk_transfer_refines _ _ _ _ _ _ _ _ _ _ _ _ _ KPart ex_source ex_target ex_ids ex_dest ex_tokens (ex_slot plan_full) deployed_full _ sized_full _ _).
  - vm_compute. reflexivity.
  - apply sides_full. by left.
  - apply sides_full. right. by left.
Defined.

Lemma lossless_transfer_witness :
  ∃ sp ch, encode pipe_codec ex_source (ex_slot plan_codec) ex_ids VPart ex_tokens = Ok (sp, ch) ∧
    ∀ sc, sized plan_codec sc → delivered pipe_codec VPart ex_tokens ch sp sc →
      ∃ E' sc', runtime_decode pipe_codec ex_target sc ex_dest VPart (codec_bytes ch) (u8_bytes ch) ex_tokens = Ok (E', sc') ∧
        ∀ x h t, x ∈ parts (p_layout pipe_codec) VPart → (h < num (num_heads x))%nat → 0 ≤ t < zlen (phys_of pipe_codec ex_dest x) * kernel_tokens pipe_codec x →
          token_at (cache_of E' x) (phys_of pipe_codec ex_dest x) (kernel_tokens pipe_codec x) h t =
            if t <? valid_of ex_tokens x then token_at (cache_of ex_source x) (phys_of pipe_codec ex_ids x) (kernel_tokens pipe_codec x) h t else Some (zero_token x).
Proof.
  refine (lossless_transfer _ _ _ _ _ _ _ _ _ _ _ _ _ VPart ex_source ex_target ex_ids ex_dest ex_tokens (ex_slot plan_codec) deployed_codec _ _ sized_codec _ _ _); [vm_compute; reflexivity|vm_compute; reflexivity|..].
  - apply sides_codec. by left.
  - apply sides_codec. right. by left.
  - apply (bool_decide_unpack _). vm_compute. exact I.
Defined.

Lemma transfer_confined_witness :
  ∃ sp ch, encode pipe_agg ex_source ex_agg_slot ex_ids VPart ex_tokens = Ok (sp, ch) ∧
    ∀ sc, sized plan_agg sc → delivered pipe_agg VPart ex_tokens ch sp sc →
      ∃ E' sc', runtime_decode pipe_agg ex_target sc ex_dest VPart (codec_bytes ch) (u8_bytes ch) ex_tokens = Ok (E', sc') ∧
        (∀ k, k ∉ key_of <$> parts (p_layout pipe_agg) VPart → dget E' k = dget ex_target k) ∧
        (∀ x k, x ∈ parts (p_layout pipe_agg) VPart → 0 ≤ k → k ∉ phys_of pipe_agg ex_dest x → cache_of E' x !! num k = cache_of ex_target x !! num k).
Proof.
  refine (transfer_confined _ _ _ _ _ _ _ _ _ _ _ _ _ VPart ex_source ex_target ex_ids ex_dest ex_tokens ex_agg_slot deployed_agg sized_agg _ _).
  - apply sides_agg. by left.
  - apply sides_agg. right. by left.
Defined.
