(* ===== verification/RtRuntimeProps.v ===== *)
(** * The buffer of the runtime, and head selection

    The regions that the runtime takes from its one buffer for slots, codec
    and metadata are apart, aligned and inside the bytes that the plan
    reserved; head orders are permutations with the low heads first. *)

From S2P Require Import Prelude PyData RtConfig RtLayout Buffers RtPipeline RtPipelineOps RtRuntime RtRuntimeThms RtBoundThms RtPipelineProps RtPipelineEx.

(** ** Carving *)

Lemma carve_packed sizes : ∀ offset, Forall (λ n, 0 ≤ n) sizes →
  packed offset (carve offset sizes) (round_up offset ALIGNMENT + sumZ ((λ n, round_up n ALIGNMENT) <$> sizes)) ∧
  Forall (λ r, (ALIGNMENT | r.1)) (carve offset sizes).
Proof.
  induction sizes as [|n sizes IH]; intros offset Hn.
  - cbn. rewrite Z.add_0_r. split; [|constructor]. apply round_up_ge, ALIGNMENT_pos.
  - apply Forall_cons in Hn as [Hn Hs]. cbn [carve]. set (o := round_up offset ALIGNMENT). destruct (IH (o + n) Hs) as [Hp Hal]. csimpl.
    pose proof (round_up_ge ALIGNMENT ALIGNMENT_pos offset) as Ho. pose proof (round_up_divide ALIGNMENT offset) as Hod. fold o in Ho, Hod.
    assert (E : round_up (o + n) ALIGNMENT = o + round_up n ALIGNMENT).
    { destruct Hod as [k ->]. unfold round_up. replace (k * ALIGNMENT + n + ALIGNMENT - 1) with (n + ALIGNMENT - 1 + k * ALIGNMENT) by lia. rewrite Z.div_add by done. lia. }
    split; [|by constructor]. split; [done|]. split; [done|]. rewrite E in Hp. rewrite Z.add_assoc. exact Hp.
Qed.

Lemma sumZ_replicate n (l : list Z) : sumZ (concat (replicate n l)) = Z.of_nat n * sumZ l.
Proof. induction n as [|n IH]; [done|]. cbn [replicate concat]. rewrite sumZ_app, IH. lia. Qed.

(** What a list of requests takes *)
Definition taken (sizes : list Z) : Z := sumZ ((λ n, round_up n ALIGNMENT) <$> sizes).

Lemma taken_app a b : taken (a ++ b) = taken a + taken b.
Proof. unfold taken. by rewrite fmap_app, sumZ_app. Qed.

Lemma taken_concat n l : taken (concat (replicate n l)) = Z.of_nat n * taken l.
Proof. induction n as [|n IH]; [done|]. cbn [replicate concat]. rewrite taken_app, IH. lia. Qed.

(** ** Metadata *)

Section metadata.
Context (f : string → Z) (transformer : bool).

Lemma metadata_sum l : ∀ (d : list (string * LayerPartLayout)) sizes,
  Forall (λ x, num_heads x = f (layer_name x)) l →
  let '(seen, sizes') := foldl (metadata_request transformer) (dkeys d, sizes) l in
  seen = dkeys (foldl (λ d x, dset d (layer_name x) x) d l) ∧
  taken sizes' + sumZ ((λ k, round_up (f k * 8) ALIGNMENT) <$> dkeys d) =
    taken sizes + sumZ ((λ k, round_up (f k * 8) ALIGNMENT) <$> seen) +
    (if transformer then sumZ ((λ x, round_up (num_heads x * part_head_size x * 2) ALIGNMENT) <$> l) else 0).
Proof.
  induction l as [|x l IH]; intros d sizes Hf; [cbn; split; [done|destruct transformer; lia]|]. apply Forall_cons in Hf as [Hx Hf]. cbn [foldl].
  set (sizes1 := if bool_decide (layer_name x ∈ dkeys d) then sizes else sizes ++ [num_heads x * 8]).
  set (sizes2 := if transformer then sizes1 ++ [num_heads x * part_head_size x * 2] else sizes1).
  assert (Hstep : metadata_request transformer (dkeys d, sizes) x = (dkeys (dset d (layer_name x) x), sizes2)).
  { unfold metadata_request, sizes2, sizes1. rewrite dkeys_dset. destruct (dget d (layer_name x)) eqn:Eg.
    - rewrite bool_decide_true; [by destruct transformer|]. apply dget_elem_of in Eg. unfold dkeys. apply list_elem_of_fmap. by eexists (_, _).
    - apply dget_None in Eg. rewrite bool_decide_false by done. by destruct transformer. }
  rewrite Hstep. specialize (IH (dset d (layer_name x) x) sizes2 Hf). destruct (foldl _ _ l) as [seen sizes']. destruct IH as [Hs He]. split; [exact Hs|].
  assert (H1 : taken sizes1 + sumZ ((λ k, round_up (f k * 8) ALIGNMENT) <$> dkeys d) = taken sizes + sumZ ((λ k, round_up (f k * 8) ALIGNMENT) <$> dkeys (dset d (layer_name x) x))).
  { unfold sizes1. rewrite dkeys_dset. destruct (dget d (layer_name x)) eqn:Eg.
    - rewrite bool_decide_true; [done|]. apply dget_elem_of in Eg. unfold dkeys. apply list_elem_of_fmap. by eexists (_, _).
    - apply dget_None in Eg. rewrite bool_decide_false by done. rewrite taken_app, fmap_app, sumZ_app. unfold taken. cbn. rewrite Hx. lia. }
  assert (H2 : taken sizes2 = taken sizes1 + (if transformer then round_up (num_heads x * part_head_size x * 2) ALIGNMENT else 0)).
  { unfold sizes2. destruct transformer; [rewrite taken_app; unfold taken; cbn; lia|lia]. }
  destruct transformer; csimpl; lia.
Qed.

End metadata.

Lemma unique_layers_entry l : ∀ d e, e ∈ foldl (λ d x, dset d (layer_name x) x) d l → e ∈ d ∨ (e.2 ∈ l ∧ e.1 = layer_name e.2).
Proof.
  induction l as [|x l IH]; intros d e He; [by left|]. cbn [foldl] in He. apply IH in He as [He|[He1 He2]]; [|right; split; [by right|done]].
  apply elem_of_dset in He as [->|[He _]]; [right; split; [by left|done]|by left].
Qed.

Lemma metadata_taken plan f :
  Forall (λ x, num_heads x = f (layer_name x)) (layer_parts (plan_layout plan)) →
  taken (metadata_requests plan) = sign_bytes (uses_transformer (plan_config plan)) (plan_layout plan) + order_bytes (plan_layout plan).
Proof.
  intros Hf. pose proof (metadata_sum f (uses_transformer (plan_config plan)) (layer_parts (plan_layout plan)) [] [] Hf) as Hm. unfold metadata_requests.
  change (dkeys []) with (@nil string) in Hm. destruct (foldl _ _ _) as [seen sizes]. destruct Hm as [-> Hm]. cbn [snd]. unfold taken at 2 in Hm. cbn in Hm.
  fold (unique_layers (plan_layout plan)) in Hm.
  assert (Ho : order_bytes (plan_layout plan) = sumZ ((λ k, round_up (f k * 8) ALIGNMENT) <$> dkeys (unique_layers (plan_layout plan)))).
  { unfold order_bytes, dkeys. rewrite <- list_fmap_compose. f_equal. apply list_fmap_ext. intros i e Hi. simpl. apply list_elem_of_lookup_2 in Hi.
    apply unique_layers_entry in Hi as [Hi|[Hi Hn]]; [by apply elem_of_nil in Hi|]. by rewrite Hn, (proj1 (Forall_forall _ _) Hf _ Hi). }
  unfold sign_bytes. lia.
Qed.

Lemma metadata_nonneg tr l : ∀ st, Forall (λ x, 0 ≤ num_heads x ∧ 0 ≤ part_head_size x) l → Forall (λ n, 0 ≤ n) st.2 → Forall (λ n, 0 ≤ n) (foldl (metadata_request tr) st l).2.
Proof.
  induction l as [|x l IH]; intros [seen sizes] Hl Hs; [done|]. apply Forall_cons in Hl as [[H1 H2] Hl]. cbn [foldl]. apply IH; [done|]. cbn [snd] in *. unfold metadata_request.
  case_bool_decide; destruct tr; cbn [snd]; repeat (apply Forall_app_2; [|constructor; [nia|constructor]]); done.
Qed.

(** ** The buffer *)

Section buffer.
Context (load_scores : json → result ndarray) (probe : CompressionLayout → Z * (Z * Z) * Z).
Context (config : CompressionConfig) (specs : list (string * CacheSpec)) (bpl tp_size tp_rank num_layers : Z) (plan : CompressionMemoryPlan).

Record plan_ok : Prop := {
  pk_config : config_ok config;
  pk_specs : Forall (λ e, spec_ok e.2) specs;
  pk_names : NoDup specs.*1;
  pk_layers : NoDup ((λ e : string * CacheSpec, layer_index e.2) <$> specs);
  pk_rank : 0 ≤ tp_rank < tp_size;
  pk_bpl : 0 < bpl;
  pk_scores a : load_scores (score_path config) = Ok a → array_ok a;
  pk_probe l : 0 ≤ (probe l).1.1 ∧ (ALIGNMENT | (probe l).1.1);
  pk_plan : build_memory_plan load_scores probe config specs bpl tp_size tp_rank num_layers = Ok (Some plan)
}.

Lemma aligned_id n : (ALIGNMENT | n) → round_up n ALIGNMENT = n.
Proof. apply round_up_id, ALIGNMENT_pos. Qed.

Lemma tail_capacity_ok l stride c : Forall (part_ok c stride) (layer_parts l) → 0 ≤ raw_tail_capacity l ∧ (ALIGNMENT | raw_tail_capacity l).
Proof.
  intros Hp. unfold raw_tail_capacity. destruct (aggregate l) eqn:Ea; [split; [done|apply Z.divide_0_r]|]. split; [|apply round_up_divide].
  pose proof (raw_tail_bound c stride l KPart (λ _, 0) Hp Ea) as Hb. unfold raw_tail_capacity in Hb. rewrite Ea in Hb. lia.
Qed.

(** The sizes of a slot are aligned. *)
Lemma aligned_sizes planning low k l0 n l :
  build_ok specs planning low k ∅ l0 → l = with_arena (round_up n ALIGNMENT) l0 → arena_bytes l0 ≤ n →
  (0 ≤ arena_bytes l ∧ (ALIGNMENT | arena_bytes l)) ∧ (0 ≤ aux_arena_bytes l ∧ (ALIGNMENT | aux_arena_bytes l)) ∧
  (0 ≤ raw_tail_capacity l ∧ (ALIGNMENT | raw_tail_capacity l)) ∧ Forall (part_ok planning (scratch_stride l0)) (layer_parts l).
Proof.
  intros Hb El Hn. destruct (built_inv _ _ _ _ _ _ Hb) as (stride & st & El0 & Hal & Hs0 & [Hp Hu Ha Hr]).
  assert (Hpo : Forall (part_ok planning (scratch_stride l0)) (layer_parts l)) by (by rewrite El, El0).
  pose proof (packed_le _ _ _ (Hu KPart)). pose proof (packed_le _ _ _ (Hu VPart)). pose proof (Hr KPart). pose proof (Hr VPart). simpl in *.
  split; [|split; [|split; [by eapply tail_capacity_ok|done]]].
  - assert (0 ≤ arena_bytes l0) by (rewrite El0; cbn; case_match; round_up_facts; lia). rewrite El. cbn. split; [|apply round_up_divide]. round_up_facts. lia.
  - rewrite El, El0. cbn. pose proof (packed_le _ _ _ (Ha KPart)). pose proof (round_up_ge ALIGNMENT ALIGNMENT_pos (aux_offsets st).1).
    case_match; [split; [done|apply Z.divide_0_r]|]. simpl in *. split; [lia|].
    apply Z.divide_mul_r. destruct (Z.max_spec (round_up (aux_offsets st).1 ALIGNMENT) (round_up (aux_offsets st).2 ALIGNMENT)) as [[_ ->]|[_ ->]]; apply round_up_divide.
Qed.

Lemma slot_taken l sel ws ret outs :
  (0 ≤ arena_bytes l ∧ (ALIGNMENT | arena_bytes l)) → (0 ≤ aux_arena_bytes l ∧ (ALIGNMENT | aux_arena_bytes l)) → (0 ≤ raw_tail_capacity l ∧ (ALIGNMENT | raw_tail_capacity l)) →
  1 ≤ logical_blocks_per_chunk config → 0 < bpl →
  taken (slot_requests (plan_of config l sel bpl ws ret outs) bpl) = slot_bytes config l + round_up (num_index_rows l * logical_blocks_per_chunk config * bpl * 8) ALIGNMENT ∧
  Forall (λ n, 0 ≤ n) (slot_requests (plan_of config l sel bpl ws ret outs) bpl).
Proof.
  intros Ha Hx Ht Hcb Hb. assert (Hrows : 0 ≤ num_index_rows l) by (unfold num_index_rows; lia).
  unfold slot_requests, slot_bytes, taken. cbn [plan_of plan_layout plan_config fmap list_fmap sumZ foldr]. split.
  - rewrite !(aligned_id (arena_bytes l)), !(aligned_id (aux_arena_bytes l)), !(aligned_id (raw_tail_capacity l)) by tauto.
    replace (logical_blocks_per_chunk config * bpl * num_index_rows l * 8) with (num_index_rows l * logical_blocks_per_chunk config * bpl * 8) by ring.
    destruct (uses_aggregate config); [change (round_up 0 ALIGNMENT) with 0|rewrite aligned_id by tauto]; lia.
  - repeat (apply Forall_cons; split); [lia|case_match; lia|lia|lia|nia|constructor].
Qed.

(** Parts of one name have the heads of one cache. *)
Lemma meta_taken planning low k l0 n sel ws ret outs :
  build_ok specs planning low k ∅ l0 → NoDup specs.*1 → let l := with_arena n l0 in
  taken (metadata_requests (plan_of config l sel bpl ws ret outs)) = sign_bytes (uses_transformer config) l + order_bytes l.
Proof.
  intros Hb Hnd l. destruct (built_part _ _ _ _ _ _ (build_result _ _ _ _ _ _ Hb)) as [Hsh _].
  apply (metadata_taken (plan_of config l sel bpl ws ret outs) (λ name, default 0 (num_heads <$> dget (unique_layers l) name))).
  cbn [plan_of plan_layout]. apply Forall_forall. intros x Hx. destruct (unique_layers_get l x Hx) as (y & Hy & Hyn & Hyg). rewrite Hyg. cbn.
  destruct (Hsh x Hx) as (e & He & Hse), (Hsh y Hy) as (e' & He' & Hse'). apply shape_cases in Hse as (Hxn & _ & _ & Hxh & _). apply shape_cases in Hse' as (Hyn' & _ & _ & Hyh & _).
  assert (e' = e) as ->; [|congruence]. destruct e as [k1 v1], e' as [k2 v2]. simpl in *. assert (k2 = k1) as -> by congruence. f_equal.
  pose proof (elem_of_list_to_map_1 (M := gmap string) specs k1 v1 Hnd He). pose proof (elem_of_list_to_map_1 (M := gmap string) specs k1 v2 Hnd He'). congruence.
Qed.

Lemma taken_replicate m n : (ALIGNMENT | n) → taken (replicate m n) = Z.of_nat m * n.
Proof. intros Hn. unfold taken. induction m as [|m IH]; [done|]. cbn [replicate]. csimpl. rewrite IH, aligned_id by done. lia. Qed.

Lemma nonneg_replicate m (q : list Z) : Forall (λ n, 0 ≤ n) q → Forall (λ n, 0 ≤ n) (concat (replicate m q)).
Proof. intros Hq. apply Forall_concat. by apply Forall_replicate. Qed.

(** C6 Bounds: the regions that the runtime takes for its slots (arenas,
    parameters, raw tail, indices), for the codec's workspaces and for the
    signs and head orders of every pipeline follow one another in its buffer,
    256-byte aligned, none overlapping another, and the last ends inside the
    bytes that were allocated: no slice is cut off. *)
Theorem buffer_holds_requests :
  plan_ok → packed 0 (carve 0 (runtime_requests plan bpl)) (fixed_bytes plan) ∧ Forall (λ r, (ALIGNMENT | r.1)) (carve 0 (runtime_requests plan bpl)).
Proof.
  intros [Hc Hs Hn Hl Hr Hb Hsc Hp Hplan]. destruct (plan_shape _ _ _ _ _ _ _ _ _ Hplan Hc Hs Hl Hr Hb Hsc) as (planning & k & l0 & sel & ws & outs & ret & Ep & -> & Hbo & _).
  set (n := Z.max (arena_bytes l0) _). set (l := with_arena (round_up n ALIGNMENT) l0). destruct (aligned_sizes _ _ _ _ n l Hbo eq_refl ltac:(lia)) as (Ha & Hx & Ht & Hpo).
  pose proof (ok_slots _ Hc) as Hsl. pose proof (ok_blocks _ Hc) as Hcb. destruct (slot_taken l sel ws ret outs Ha Hx Ht Hcb Hb) as [Hslot Hsn].
  pose proof (meta_taken _ _ _ _ (round_up n ALIGNMENT) sel ws ret outs Hbo Hn) as Hmeta. cbn zeta in Hmeta. fold l in Hmeta. set (plan' := plan_of config l sel bpl ws ret outs) in *.
  set (slots := num (slot_count config)). assert (Hslots : Z.of_nat slots = slot_count config) by (unfold slots; lia).
  assert (Hw : 0 ≤ ws ∧ (ALIGNMENT | ws) ∧ codec_workspace_bytes plan' = slot_count config * ws ∧ codec_workspace_bytes plan' / Z.of_nat slots = ws).
  { unfold plan'. cbn [plan_of codec_workspace_bytes]. rewrite Hslots. specialize (Hp l0). destruct (uses_codec config).
    - rewrite Ep in Hp. rewrite Z.div_mul by lia. split_and!; try apply Hp; lia.
    - injection Ep as <- <- <-. rewrite Z.div_0_l by lia. split_and!; try done; [apply Z.divide_0_r|lia]. }
  destruct Hw as (Hw0 & Hwa & Hcodec & Hper).
  assert (Hc2 : taken (if uses_codec config then replicate slots ws else []) = codec_workspace_bytes plan').
  { rewrite Hcodec. destruct (uses_codec config); [rewrite taken_replicate, Hslots by done; lia|]. injection Ep as <- <- <-. unfold taken. cbn. lia. }
  assert (Hmn : Forall (λ n, 0 ≤ n) (metadata_requests plan')).
  { apply metadata_nonneg; [|constructor]. eapply Forall_impl; [exact Hpo|]. intros x Hpx. pose proof (part_nh _ _ _ Hpx). pose proof (part_hs _ _ _ Hpx). lia. }
  assert (Hnn : Forall (λ n, 0 ≤ n) (runtime_requests plan' bpl)).
  { unfold runtime_requests. change (plan_config plan') with config. fold slots. rewrite Hper. apply Forall_app_2; [by apply nonneg_replicate|]. apply Forall_app_2; [|by apply nonneg_replicate].
    case_match; [by apply Forall_replicate|constructor]. }
  assert (Htotal : taken (runtime_requests plan' bpl) = fixed_bytes plan').
  { unfold runtime_requests, fixed_bytes. change (plan_config plan') with config. change (plan_layout plan') with l. fold slots. rewrite Hper, !taken_app, !taken_concat, Hc2, Hslot, Hmeta.
    change (metadata_bytes plan') with (sign_bytes (uses_transformer config) l + order_bytes l + slot_count config * round_up (num_index_rows l * logical_blocks_per_chunk config * bpl * 8) ALIGNMENT
      + (slot_count config - 1) * (sign_bytes (uses_transformer config) l + order_bytes l)). lia. }
  destruct (carve_packed _ 0 Hnn) as [Hpk Hpa]. split; [|exact Hpa]. change (round_up 0 ALIGNMENT) with 0 in Hpk. fold (taken (runtime_requests plan' bpl)) in Hpk. by rewrite Z.add_0_l, Htotal in Hpk.
Qed.

End buffer.

Lemma ex_plan_ok : plan_ok ex_load ex_probe (ex_rt_config full_stages) ex_rt_specs 2 1 0 0 plan_full.
Proof.
  pose proof deployed_full as Hd. constructor; [apply (dp_config _ _ _ _ _ _ _ _ _ _ _ _ _ Hd)|apply (dp_specs _ _ _ _ _ _ _ _ _ _ _ _ _ Hd)|apply (dp_names _ _ _ _ _ _ _ _ _ _ _ _ _ Hd)|apply (dp_layers _ _ _ _ _ _ _ _ _ _ _ _ _ Hd)
    |lia|lia|by intros a [=]| |apply (dp_plan _ _ _ _ _ _ _ _ _ _ _ _ _ Hd)].
  intros l. simpl. split; [lia|by exists 1].
Qed.

Lemma buffer_holds_requests_witness :
  packed 0 (carve 0 (runtime_requests plan_full 2)) (fixed_bytes plan_full) ∧ Forall (λ r, (ALIGNMENT | r.1)) (carve 0 (runtime_requests plan_full 2)).
Proof. exact (buffer_holds_requests _ _ _ _ _ _ _ _ _ ex_plan_ok). Defined.
